(* ===== verification/_CoqProject ===== *)
-Q . S2P
Prelude.v
GoStd.v
Netip.v
External.v
Concrete.v
DnsMsg.v
RuleItems.v
RuleMatch.v
RuleSpec.v
RuleOptions.v
RuleBuild.v
RuleBuildSpec.v
RuleSetState.v
Srs.v
SrsSpec.v
SrsSafety.v
FakeIP.v
FakeIPSpec.v
Bolt.v
CacheFile.v
CacheFileSpec.v
DNSCacheFlush.v
Managers.v
ManagersSpec.v
TlsFragment.v
TlsFragmentSpec.v
RuleAction.v
Router.v
RouterSpec.v
DnsClient.v
DnsClientSpec.v
DnsExchange.v
DnsExchangeSpec.v
DnsFreshness.v
DnsCases.v
DnsRule.v
DnsMode.v
DnsWalk.v
DnsRouter.v
DnsRouterSpec.v
DnsRuleSpec.v
DnsWalkSim.v
DnsWalkLive.v
DnsModeSpec.v
DnsWalkCases.v
DnsRouterCases.v
Groups.v
GroupsSpec.v
Ja3.v
Ja3Spec.v
Quic.v
QuicSpec.v
QuicPacketSpec.v
Sniff.v
SniffSpec.v
Geosite.v
GeositeSpec.v
Version.v
RemoteRuleSet.v
RemoteRuleSetSpec.v
AdGuard.v
AdGuardSpec.v
AdGuardFilter.v
AdGuardCases.v
XrayRouting.v
XrayRoutingSpec.v
XrayConn.v
XrayConnSpec.v
XrayHandshake.v
XrayHandshakeSpec.v
XraySessions.v
PlainManagers.v
TransportManager.v
ServiceManager.v
ServiceProtocol.v
ServiceInvariant.v
ServiceManagerSpec.v
ServiceProgress.v
ServiceManagerCases.v
