(* ===== verification/Prelude.v ===== *)
(** * Sidera Core verification library

    Sidera Core is a universal proxy platform: inbounds accept connections, the
    router decides by rules what to do with each, outbounds carry it on, and a DNS
    subsystem with its own rules resolves names.  This library models the parts
    that decide (rules, rule-sets, their binary format, the router) and the parts
    that keep state for them (the FakeIP allocator, the persistent cache, the
    registry of outbounds), and proves that they do what the documentation and
    their callers rely on.

    ** The program's parts and where they are modelled

    - Rule items (route/rule/rule_item_*.go, rule_*_interface_address.go): the
      conditions of rules.  RuleItems has one constructor of [RuleItem] per item
      type, the [New...] functions with their parsing and errors, and the [Match]
      methods on [InboundContext] (adapter/inbound.go).
    - Rule evaluation (route/rule/match_state.go, rule_abstract.go,
      rule_item_rule_set.go, rule_dns.go): RuleMatch.  A rule is data
      ([abstractDefaultRule], [abstractLogicalRule], nested rule-sets); a match
      threads the metadata, because the code reads back the [DidMatch] flag it
      sets.  RuleSpec has the reference semantics of docs/configuration/route/rule.md.
    - Rule construction (option/rule*.go, route/rule/rule_headless.go,
      rule_default.go, rule_dns.go): RuleOptions has the option structs, with nil
      and empty slices told apart, and [IsValid]; RuleBuild has the constructors,
      one step per [if] of the source with the lists it appends to; RuleBuildSpec
      relates options to matches.
    - Rule-sets (route/rule/rule_set.go, rule_set_local.go, rule_item_rule_set.go):
      RuleSetState.  The rule-sets are shared objects named by tag; items count
      the sets they hold; a step relation interleaves starts, closes, reloads and
      clean-ups.
    - The binary rule-set format (common/srs) and the compile command's version
      choice (cmd/sidera/cmd_rule_set_compile.go): Srs has readers and writers,
      SrsSpec the round trip, SrsSafety the behaviour on arbitrary bytes.
    - FakeIP (dns/transport/fakeip, adapter/fakeip_metadata.go): FakeIP has the
      allocator, the storage interface as the class [FakeIPStorage] with what the
      allocator relies on as [FakeIPStorageLaws], and the memory storage; FakeIPSpec
      proves the allocator against the interface.
    - The cache file (experimental/cachefile, adapter/experimental.go): Bolt states
      what the code relies on of the bbolt database; CacheFile has the operations on
      its tables, with timer callbacks and goroutines as separate steps;
      CacheFileSpec discharges the FakeIP storage interface and proves the tables
      correct; DNSCacheFlush interleaves the write-behind goroutines of the DNS
      cache.
    - The outbound and endpoint managers (adapter/outbound/manager.go,
      adapter/endpoint/manager.go, adapter/lifecycle*.go): Managers has the
      registry and the start loop, with the calls of outbound methods as a log;
      ManagersSpec the order of the start and the consistency of the registry.
    - The other registries: PlainManagers has the inbound and the certificate provider
      managers (adapter/inbound/manager.go, adapter/certificate/manager.go) with their
      refinement of a map; TransportManager has the manager of DNS servers
      (dns/transport_manager.go) over the start loop of Managers, with its theorems.
    - The service manager (adapter/service/manager.go): ServiceManager has each operation
      as a program of critical sections and calls, and the goroutines that run them, with
      nested calls and the condition variable, as a step relation; ServiceProtocol the
      roles of operations and the invariant, ServiceInvariant its preservation by the
      critical sections, ServiceManagerSpec the theorems over every interleaving,
      ServiceProgress the absence of deadlocks, ServiceManagerCases concrete schedules.
    - Rule actions (option/rule_action.go, route/rule/rule_action.go,
      common/tlsspoof/spoof.go): RuleAction has the options, [NewRuleAction] and the
      reject action with its counter and the flood control.
    - The router (route/route.go, route/process_cache.go, common/sniff/sniff.go):
      Router has the loop over the rules, the actions, the choice of the outbound and
      the pre-match; what it calls is the record [RouterDeps], and the reads of a
      connection are a list of events.  RouterSpec has the theorems for every router, and
      the composition with the FakeIP store and concrete routers.
    - The DNS client (dns/client.go, dns/extension_edns0_subnet.go,
      dns/client_truncate.go): DnsMsg has the messages, DnsClient the functions of the
      client over interfaces for the LRU cache and the stores ([LRUCache],
      [DNSCacheStore], [RDRCStore]), DnsExchange the exchanges as threads that share
      the client.  DnsClientSpec is about messages, DnsExchangeSpec about the locks,
      DnsFreshness about what is served; DnsCases makes the cache file an instance of
      the stores and has concrete runs.
    - The DNS router (dns/router.go, route/rule/rule_nested_action.go, the DNS parts of
      option and route/rule): DnsRule has the options and actions of DNS rules and
      their constructors; DnsMode the choice between the legacy mode and the mode of
      evaluated responses, the validation of the rules and of rule-set updates;
      DnsWalk the walk over the rules, with its futures, race rules and suspensions,
      as a step relation between a walker and the replies that arrive; DnsRouter
      the legacy loops, exchanges, lookups and the reverse mapping.  DnsRuleSpec,
      DnsWalkSim and DnsModeSpec relate the walk to a sequential
      reference, DnsWalkLive shows that it ends, DnsRouterSpec is about the legacy mode
      and lookups; DnsWalkCases and DnsRouterCases have concrete runs.
    - Outbound groups (protocol/group, common/interrupt, common/urltest): Groups has
      the selector with its cache file, the URL test with its history, and the group
      of connections to interrupt, the goroutines of a check and the selections of
      several callers as threads; GroupsSpec has the theorems and concrete runs.
    - TLS fragmentation (common/tlsfragment): TlsFragment has the search for the
      server name, with Go's index checks, and the splitting write, with the calls on
      the socket as a log; TlsFragmentSpec relates both to the wire format.
    - Sniffers (common/sniff, common/ja3): Ja3 has the parser of the client hello and
      the fingerprint, Quic the decryption of Initial packets (the ciphers are the
      class [QuicCrypto]), their frames and the reassembly, Sniff the other protocols.
      Ja3Spec, QuicSpec and QuicPacketSpec go from the wire format to what is sniffed;
      SniffSpec composes the stream sniffers with the router's [PeekStream]; both
      have concrete runs.
    - Remote rule-sets (route/rule/rule_set_remote.go): RemoteRuleSet has the loading of
      the saved copy, the fetch with its answers, the update loop with the timer and the
      callbacks; RemoteRuleSetSpec composes it with the cache file's table and
      has concrete runs.
    - Geosite (common/geosite): Geosite has the writer, the reader with its index of
      offsets and the conversion to rules; GeositeSpec the round trip and the meaning of
      an exported category.
    - Versions (common/badversion, common/ktls): Version has parsing, printing and the order,
      the tables of kernel features, and their laws.
    - The AdGuard convertor (common/convertor/adguard, cmd_rule_set_convert.go): AdGuard has
      the parser of filter lines, the rule they become and the way back; AdGuardSpec the
      meaning of the lines that were read, through the binary format and the rules, and the
      syntax of lines, AdGuardFilter filters as entries with a text and a meaning of their
      own, AdGuardCases concrete filters.
    - Xray configurations (config/xray.go): XrayRouting has the translation of routing rules
      and the decoding of what they become by the tags of option/rule.go; XrayRoutingSpec
      states what a rule means in Xray, on its text, and compares the matches of both.
    - The VLESS encryption (protocol/vless/xrayencryption): XrayConn has the ciphers as the
      class [XrayCrypto] with [XrayCryptoLaws], the records of [CommonConn] and the hidden
      headers of [XorConn] over a network that hands out pieces; XrayConnSpec the stream they
      make.  XrayHandshake has the handshakes of client.go and server.go as programs of
      reads, writes and critical sections, with the padding, the relays and the tickets;
      XrayHandshakeSpec runs a client against a server, XraySessions the sessions of a server
      over time.

    Prelude (this file) has the outcome monad, notations, tactics and generic
    lemmas; GoStd and Netip model what the code uses of Go's standard library;
    External is the interface to code outside the repository (regular expressions,
    the domain matcher and address sets of other modules, zlib), with its
    documented behaviour as [ExternalLaws]; Concrete is an instance of it, used by
    the witnesses.

    ** Conventions

    A Go function that can fail returns an [outcome]: a value, a Go error, a
    run-time panic, or [Diverge], the exhaustion of fuel.  Integers are [Z] with
    their conversions written out ([uint], [int64]); bytes are [list Z]; a slice
    is an optional list.  Times are nanoseconds.  State is passed explicitly;
    where the code locks, a critical section is one step.

    Fuel bounds the loops that are not structural: a reader's fuel is one more
    than the bytes that remain, each iteration consumes at least one byte, and
    [srs_read_terminates] shows that it is never exhausted; [startOutbounds] makes
    at most one pass per outbound and one more, and the linter at most one step
    per tag ([outbounds_start_iff_acyclic]); [IndexTLSServerName] has the length of
    the payload as fuel, which is enough unless an extension has 65532 bytes or more
    ([IndexTLSServerName_ok], [long_extension_never_returns]); the frames of a QUIC packet, the
    extensions of a client hello and of a uTP packet have one more than the bytes that
    remain ([utp_terminates]); [assemble] has the number of fragments,
    each of which it takes once unless one is empty, when no fuel is enough
    ([empty_crypto_frame_hangs]); a write of the VLESS encryption has the length of its
    buffer and a read the pieces and bytes of the network, which [vless_stream_delivered]
    shows to be enough; [ReadUvarint] makes at most ten
    iterations, [parseIPv6] at most eight, as in Go.

    ** What the theorems show

    - Rules mean what the documentation says: [default_rule_matches_doc],
      [single_rule_set_merges], [rule_order_irrelevant] for the evaluation,
      [headless_rule_semantics] and [route_rule_semantics] from options to matches,
      [built_rules_account_for_all_items] for construction; [rule_Match_frame] and
      [LegacyPreMatch_frame] bound what a match writes; [legacy_prematch_sound]
      and [legacy_inverted_rule_set_rejected] are about DNS rules evaluated before
      an address is known.
    - Rule-sets: [rule_set_refs_balanced], [rule_set_item_start_all_or_nothing] and
      [reload_publishes_consistent_state] hold over every interleaving.
    - The format: [srs_roundtrip], [compiled_rule_builds_same],
      [downgrade_writes_same_rules], [srs_read_terminates],
      [srs_read_panics_on_huge_length].
    - FakeIP: [fakeip_create_correct] and [fakeip_no_early_reuse] for every storage
      with the laws, [fakeip_metadata_roundtrip], [fakeip_restart_resumes] on the
      cache file; [fakeip_small_range_escapes], [fakeip_reset_rolled_back] and
      [metadata_timer_saves_first] show where the code falls short.
    - The cache file: [rdrc_save_load], [rule_set_save_load],
      [dns_cleanup_removes_exactly_expired]; under concurrency
      [dns_cache_reads_last_write], [dns_flush_terminates] and, with a clear in the
      middle, [dns_clear_loses_write].
    - Managers: [outbounds_start_in_order], [outbounds_start_iff_acyclic],
      [outbound_registry_consistent]; [remove_depended_outbound_gone] and
      [replaced_default_stays_closed] are two cases the code gets wrong;
      [plain_manager_refines_map] and [inbounds_closed_once] for inbounds and
      certificate providers; [dns_servers_consistent], [dns_servers_start_iff_acyclic] and
      [created_default_not_fakeip] for DNS servers, with [removed_default_stays],
      [removal_makes_fakeip_default] and [refused_server_registered] as cases the code
      gets wrong.
    - The service manager: [service_activation_safe], [no_service_lost] and
      [service_manager_no_deadlock] over every interleaving of its operations, whatever
      services and constructors return; [removed_service_started_after_close],
      [replaced_service_closed_twice] and [close_from_constructor_hangs] are schedules the
      code gets wrong.
    - The router: [match_rule_semantics] says which rule decides and in which state,
      [route_outbound_valid] that routing always decides for an outbound that fits,
      [sniffed_stream_delivered] what is read after sniffing,
      [fakeip_destination_restored] that a FakeIP address is routed by its name;
      [sniffed_twice_reordered], [sniffed_packets_duplicated] and
      [prematch_keeps_overridden_addresses] are cases the code gets wrong;
      [reject_flood_control] bounds the resets of the reject action.
    - The DNS client: [dns_exchanges_answered] and [dns_answers_fresh] hold over every
      interleaving of exchanges, refreshes, clears and store clean-ups;
      [client_subnet_roundtrip], [response_time_to_live] and
      [fixed_response_addresses] are about messages; [persistent_cache_ignores_class],
      [cached_answer_not_checked] and [subnet_second_opt] are cases the code gets wrong.
    - The DNS router: [dns_walk_follows_rules] for every order of arrival of the
      replies, a reply for a tagged query between two steps of the walker aside
      ([settled_reply_missed]), [dns_walk_ends] with the bound [walk_bound] on its steps,
      [accepted_update_keeps_mode] for updates of rule-sets, [legacy_exchange_in_order],
      [router_lookup_addresses], [reverse_mapping_recorded]; [settled_reply_missed],
      [ready_race_rule_held], [legacy_retry_drops_options] and [stale_ip_version] are
      cases where the code departs from the documentation or from its intent.
    - TLS fragmentation: [client_hello_indexed] for every encoded client hello,
      [fragmented_hello_same_stream] for the peer's view of the pieces;
      [long_extension_never_returns] and [empty_label_panics] are inputs the code
      does not survive.
    - Outbound groups: [selector_restart_resumes], [urltest_select_best] for delays of a
      millisecond or more that stay below 65536 with the tolerance added,
      [urltest_group_consistent] and [urltest_checks_end] over every interleaving;
      [close_after_touch_panics], [tolerance_wraps], [zero_delay_passed_over], [failed_dial_keeps_group_history],
      [routed_connections_not_interrupted] and [concurrent_selects_disagree] are cases
      the code gets wrong.
    - Sniffers: [client_hello_parsed], [quic_server_name_sniffed] for every cut of the
      hello into frames and packets, [sniff_any_fragmentation] for every cut of a stream
      into reads; [crypto_length_panics], [version_list_panics],
      [empty_crypto_frame_hangs] are packets the code does not survive;
      [duplicate_fragment_not_sniffed], [fingerprint_drops_values],
      [bittorrent_split_never_sniffed], [ssh_client_truncated] and
      [dns_response_ends_sniffing] are cases it gets wrong.
    - Remote rule-sets: [remote_restart_resumes] over the cache file,
      [failed_update_changes_nothing], [updates_are_due] for the update loop;
      [etag_kept_for_new_content] is a case the code gets wrong.
    - Geosite: [geosite_roundtrip], [exported_category_matches], [geosite_lookup_exact].
    - The AdGuard convertor: [converted_filter_semantics] from the text of a filter to the
      matches of the loaded rule-set, [reconverted_filter] for the way back;
      [slash_line_panics], [important_only_matches_all], [from_options_never_returns] and
      others are filters the code gets wrong.
    - Xray routing rules: [xray_rule_semantics]; [domain_and_ip_alternatives] is the case the
      translation gets wrong.
    - The VLESS encryption: [vless_stream_delivered] for every way the bytes are written, cut
      and read, [nonces_never_repeat]; [vless_handshake_completes] for every interleaving of
      client and server, [vless_session_resumed_once], [vless_tickets_live_as_stated];
      [missed_minute_keeps_ticket] is a ticket that outlives its minute.
    - Versions: [version_roundtrip], [greater_than_strict_order],
      [kernel_support_monotone]; [release_kernel_below_itself] is a case the order gets
      wrong.

    ** What is not modelled

    Network, file and platform code; protocols (they wrap packages outside the
    repository); the [String] methods of items, used for logging; the dialing and
    copying of connections after routing; the opening and pruning of the database
    file; the parsing of the keys of the VLESS encryption and the rest of the translation of
    Xray configurations; the validation of rules when the router starts.  Memory is
    unbounded ([make_slice] fails only on lengths no [int] holds); the clean-up of a rule-set
    looks at its references and drops the rules in one step; the references that the tun
    inbound holds on rule-sets are not counted. *)

From stdpp Require Export base gmap strings list numbers pretty.
From Stdlib Require Export ZArith Lia.

Set Default Proof Using "Type".
#[export] Set Warnings "-clear-no-such-hyp".

(** ** Go values

    A byte, and every other fixed-width integer, is a [Z]; the width is a
    predicate on the value.  A Go slice distinguishes [nil] from an empty
    slice, which [reflect.DeepEqual] observes: it is an optional list. *)
Abbreviation byte := Z (only parsing).
Abbreviation bytes := (list Z) (only parsing).
Abbreviation slice A := (option (list A)) (only parsing).

Definition is_byte (b : Z) : Prop := (0 <= b < 256)%Z.
Definition is_uint16 (x : Z) : Prop := (0 <= x < 65536)%Z.
Definition is_uint64 (x : Z) : Prop := (0 <= x < 2 ^ 64)%Z.

(** [uint w x]: the conversion of an integer to an unsigned type of [w] bits. *)
Definition uint (w : Z) (x : Z) : Z := (x mod 2 ^ w)%Z.

(** The elements and the [len] of a slice. *)
Definition elems {A} (s : slice A) : list A := default [] s.
Definition slen {A} (s : slice A) : Z := Z.of_nat (length (elems s)).
Definition zlen {A} (l : list A) : Z := Z.of_nat (length l).

(** ** Errors and outcomes

    [outcome] is the result of running a piece of Go code: a value, a Go error,
    a run-time panic, or exhaustion of the fuel that bounds a loop. *)
Inductive error :=
| EOF
| ErrUnexpectedEOF
| ErrOverflow
| ErrInvalid
| ErrClosed
| ErrSyntax
| ErrRange
| ENew (msg : string)
| ECause (cause : error) (msg : string)
| EExternal (msg : string)
| ERcode (rcode : Z).

Inductive outcome (A : Type) :=
| Ok (a : A)
| Err (e : error)
| Panic (msg : string)
| Diverge.
Arguments Ok {A} a.
Arguments Err {A} e.
Arguments Panic {A} msg.
Arguments Diverge {A}.

#[export] Instance error_eq_dec : EqDecision error.
Proof. solve_decision. Defined.

Definition obind {A B} (m : outcome A) (k : A -> outcome B) : outcome B :=
  match m with
  | Ok a => k a
  | Err e => Err e
  | Panic s => Panic s
  | Diverge => Diverge
  end.

(** [wrap_err f m] rewrites the error of [m], as [E.Cause] does. *)
Definition wrap_err {A} (f : error -> error) (m : outcome A) : outcome A :=
  match m with
  | Err e => Err (f e)
  | m => m
  end.

Declare Scope go_scope.
Delimit Scope go_scope with go.
Notation "'let*' x ':=' c1 'in' c2" := (obind c1 (fun x => c2))
  (at level 10, x pattern, c1 at level 100, c2 at level 200) : go_scope.
Open Scope go_scope.

Definition is_ok {A} (m : outcome A) : bool :=
  match m with Ok _ => true | _ => false end.

(** The loop [for i, x := range l { y, err = f(i, x); if err != nil { return } }],
    collecting the results. *)
Fixpoint omap_from {A B} (f : Z -> A -> outcome B) (i : Z) (l : list A) : outcome (list B) :=
  match l with
  | [] => Ok []
  | x :: l' =>
      let* y := f i x in
      let* ys := omap_from f (i + 1)%Z l' in
      Ok (y :: ys)
  end.
Definition omap_ix {A B} (f : Z -> A -> outcome B) (l : list A) : outcome (list B) :=
  omap_from f 0%Z l.

(** ** Tactics *)

(** Destruct the scrutinee of the first match or conditional of the goal. *)
Ltac case_goal :=
  match goal with
  | |- context [match ?x with _ => _ end] => destruct x eqn:?
  end.

(** Turn boolean comparisons in the context into propositions. *)
Ltac to_prop :=
  repeat match goal with
  | H : (_ && _)%bool = true |- _ => apply andb_true_iff in H as [? ?]
  | H : (_ || _)%bool = false |- _ => apply orb_false_iff in H as [? ?]
  | H : negb _ = true |- _ => apply negb_true_iff in H
  | H : negb _ = false |- _ => apply negb_false_iff in H
  | H : (_ =? _)%Z = true |- _ => apply Z.eqb_eq in H
  | H : (_ =? _)%Z = false |- _ => apply Z.eqb_neq in H
  | H : (_ <? _)%Z = true |- _ => apply Z.ltb_lt in H
  | H : (_ <? _)%Z = false |- _ => apply Z.ltb_ge in H
  | H : (_ <=? _)%Z = true |- _ => apply Z.leb_le in H
  | H : (_ <=? _)%Z = false |- _ => apply Z.leb_gt in H
  | H : bool_decide _ = true |- _ => apply bool_decide_eq_true in H
  | H : bool_decide _ = false |- _ => apply bool_decide_eq_false in H
  end.

(** Invert the success of a sequence of binds. *)
Ltac inv_ok :=
  repeat match goal with
  | H : Ok _ = Ok _ |- _ => injection H; clear H; intros; subst
  | H : Err _ = Ok _ |- _ => discriminate H
  | H : Panic _ = Ok _ |- _ => discriminate H
  | H : Diverge = Ok _ |- _ => discriminate H
  | H : (let '(_, _) := ?p in _) = Ok _ |- _ => destruct p eqn:?
  | H : obind ?m _ = Ok _ |- _ =>
      let E := fresh "E" in destruct m eqn:E; cbn [obind] in H; [ | discriminate H .. ]
  end.

Create HintDb go.
Create Rewrite HintDb go.

(** ** Generic lemmas *)

Lemma obind_ok {A B} (a : A) (k : A -> outcome B) : obind (Ok a) k = k a.
Proof. reflexivity. Qed.

Lemma obind_Ok_inv {A B} (m : outcome A) (k : A -> outcome B) b :
  obind m k = Ok b -> exists a, m = Ok a /\ k a = Ok b.
Proof. destruct m; cbn; try discriminate. eauto. Qed.

Lemma wrap_err_ok {A} f (m : outcome A) a : wrap_err f m = Ok a <-> m = Ok a.
Proof. destruct m; cbn; split; congruence. Qed.

Lemma zlen_nonneg {A} (l : list A) : (0 <= zlen l)%Z.
Proof. unfold zlen; lia. Qed.

Lemma zlen_app {A} (l1 l2 : list A) : zlen (l1 ++ l2) = (zlen l1 + zlen l2)%Z.
Proof. unfold zlen. rewrite length_app. lia. Qed.

Lemma zlen_cons {A} (x : A) l : zlen (x :: l) = (zlen l + 1)%Z.
Proof. unfold zlen. cbn [length]. lia. Qed.

Lemma omap_from_length {A B} (f : Z -> A -> outcome B) i l ys :
  omap_from f i l = Ok ys -> length ys = length l.
Proof.
  revert i ys; induction l as [|x l IH]; intros i ys H; cbn in H; inv_ok; cbn; [done|].
  f_equal. eauto.
Qed.

#[export] Hint Rewrite @zlen_app @zlen_cons @obind_ok : go.
#[export] Hint Resolve zlen_nonneg : go.
