(* ===== verification/GoStd.v ===== *)
(** * The parts of the Go standard library the program uses

    Readers ([io.ReadFull], [binary.Read], [binary.ReadUvarint]), writers
    ([binary.BigEndian], [binary.PutUvarint]), and the functions of [strings]
    and [strconv] that the modelled code calls, with their round trips. *)

From S2P Require Import Prelude.
From Stdlib Require Import Ascii.
Local Open Scope Z_scope.

(** [errors.Is] *)
Fixpoint errors_Is (e target : error) : bool :=
  bool_decide (e = target) || match e with ECause c _ => errors_Is c target | _ => false end.

(** ** Strings and bytes *)

Definition ascii_byte (a : ascii) : Z := Z.of_N (N_of_ascii a).
Definition byte_ascii (b : Z) : ascii := ascii_of_N (Z.to_N b).

(** [[]byte(s)] and [string(b)]. *)
Definition bytes_of_string (s : string) : bytes := ascii_byte <$> String.list_ascii_of_string s.
Definition string_of_bytes (b : bytes) : string := String.string_of_list_ascii (byte_ascii <$> b).
Definition str_len (s : string) : Z := Z.of_nat (String.length s).

Lemma ascii_byte_range a : is_byte (ascii_byte a).
Proof. unfold is_byte, ascii_byte. pose proof (N_ascii_bounded a). lia. Qed.

Lemma ascii_of_ascii_byte a : byte_ascii (ascii_byte a) = a.
Proof. unfold byte_ascii, ascii_byte. rewrite N2Z.id. apply ascii_N_embedding. Qed.

Lemma ascii_byte_of_byte b : is_byte b -> ascii_byte (byte_ascii b) = b.
Proof.
  unfold is_byte, byte_ascii, ascii_byte. intros H.
  rewrite N_ascii_embedding by lia. lia.
Qed.

Lemma string_of_bytes_of_string s : string_of_bytes (bytes_of_string s) = s.
Proof.
  unfold string_of_bytes, bytes_of_string.
  rewrite <- list_fmap_compose. rewrite (list_fmap_ext _ id).
  - rewrite list_fmap_id. apply String.string_of_list_ascii_of_string.
  - intros i x _. apply ascii_of_ascii_byte.
Qed.

Lemma bytes_of_string_of_bytes b : Forall is_byte b -> bytes_of_string (string_of_bytes b) = b.
Proof.
  intros H. unfold string_of_bytes, bytes_of_string.
  rewrite String.list_ascii_of_string_of_list_ascii, <- list_fmap_compose.
  induction H as [|x l Hx _ IH]; [done|]. cbn. rewrite ascii_byte_of_byte by done. by f_equal.
Qed.

Lemma length_bytes_of_string s : zlen (bytes_of_string s) = str_len s.
Proof.
  unfold zlen, str_len, bytes_of_string. rewrite length_fmap. f_equal.
  induction s; cbn; congruence.
Qed.

Lemma bytes_of_string_range s : Forall is_byte (bytes_of_string s).
Proof.
  unfold bytes_of_string. apply Forall_fmap, Forall_true. intros a. apply ascii_byte_range.
Qed.

#[export] Hint Resolve ascii_byte_range bytes_of_string_range : go.
#[export] Hint Rewrite string_of_bytes_of_string length_bytes_of_string : go.

(** ** Readers

    A reader is the data it still holds and the error it reports when that data
    is exhausted: [io.EOF] for a plain source, the decompressor's error for a
    truncated or corrupt compressed source. *)
Record stream := Stream { avail : bytes; fin : error }.

Definition reader (A : Type) : Type := stream -> outcome (A * stream).

(** [io.Reader.ReadByte]. *)
Definition ReadByte : reader Z := fun st =>
  match avail st with
  | [] => Err (fin st)
  | b :: rest => Ok (b, Stream rest (fin st))
  end.

(** [io.ReadFull] of [n] bytes: [io.EOF] before the first byte becomes
    [io.ErrUnexpectedEOF] once some bytes were read. *)
Definition ReadFull (n : Z) : reader bytes := fun st =>
  if n <=? zlen (avail st) then
    Ok (take (Z.to_nat n) (avail st), Stream (drop (Z.to_nat n) (avail st)) (fin st))
  else match avail st with
       | [] => Err (fin st)
       | _ => Err (if bool_decide (fin st = EOF) then ErrUnexpectedEOF else fin st)
       end.

(** [make([]T, n)] for an unsigned [n]: a length that does not fit an [int]
    panics.  Memory is unbounded: Go also panics on a length above the limit of the
    allocator, which depends on the size of the element and the platform. *)
Definition make_slice (n : Z) : outcome unit :=
  if n <? 2 ^ 63 then Ok tt else Panic "runtime error: makeslice: len out of range".

(** [binary.ReadUvarint]: at most ten bytes, the tenth at most 1. *)
Fixpoint ReadUvarint_loop (n : nat) (i x s : Z) (st : stream) : outcome (Z * stream) :=
  match n with
  | O => Err ErrOverflow
  | S n' =>
      match ReadByte st with
      | Ok (b, st') =>
          if b <? 128 then
            if (i =? 9) && (1 <? b) then Err ErrOverflow
            else Ok (Z.lor x (uint 64 (Z.shiftl b s)), st')
          else ReadUvarint_loop n' (i + 1)
                 (Z.lor x (uint 64 (Z.shiftl (Z.land b 127) s))) (s + 7) st'
      | Err e => Err (if (0 <? i) && bool_decide (e = EOF) then ErrUnexpectedEOF else e)
      | Panic m => Panic m
      | Diverge => Diverge
      end
  end.
Definition ReadUvarint : reader Z := ReadUvarint_loop 10 0 0 0.

(** [binary.PutUvarint] of a uint64 (ten bytes at most). *)
Fixpoint PutUvarint_loop (n : nat) (x : Z) : bytes :=
  match n with
  | O => []
  | S n' =>
      if 128 <=? x then Z.lor (uint 8 x) 128 :: PutUvarint_loop n' (Z.shiftr x 7)
      else [uint 8 x]
  end.
Definition PutUvarint (x : Z) : bytes := PutUvarint_loop 10 x.

(** Big-endian integers of [n] bytes. *)
Fixpoint be_bytes (n : nat) (x : Z) : bytes :=
  match n with
  | O => []
  | S n' => be_bytes n' (Z.shiftr x 8) ++ [uint 8 x]
  end.
Definition be_val (l : bytes) : Z := fold_left (fun acc b => Z.lor (Z.shiftl acc 8) b) l 0.

(** [binary.Read(r, binary.BigEndian, &x)] for an unsigned integer of [n] bytes
    and for a bool. *)
Definition ReadUint (n : nat) : reader Z := fun st =>
  let* (l, st') := ReadFull (Z.of_nat n) st in Ok (be_val l, st').
Definition ReadBool : reader bool := fun st =>
  let* (l, st') := ReadFull 1 st in Ok (negb (be_val l =? 0), st').

(** [binary.Write] of a bool. *)
Definition bool_byte (b : bool) : bytes := [if b then 1 else 0].

(** Reading [n] values one after the other; the fuel bounds the iterations.
    [f] is given the iteration number. *)
Fixpoint read_n {A} (fuel : nat) (i n : Z) (f : Z -> reader A) (st : stream) : outcome (list A * stream) :=
  if n <=? i then Ok ([], st)
  else match fuel with
       | O => Diverge
       | S fuel' =>
           let* (x, st') := f i st in
           let* (xs, st'') := read_n fuel' (i + 1) n f st' in
           Ok (x :: xs, st'')
       end.

(** The conversion [int64(x)] (and [int(x)], of the same width). *)
Definition int64 (x : Z) : Z := let y := uint 64 x in if y <? 2 ^ 63 then y else y - 2 ^ 64.
Lemma int64_small x : 0 <= x < 2 ^ 63 -> int64 x = x.
Proof.
  intros H. unfold int64, uint. rewrite Z.mod_small by lia. by rewrite (proj2 (Z.ltb_lt _ _)) by lia.
Qed.

(** ** [strings] *)

Definition str_bytes_eqb (a b : string) : bool := bool_decide (a = b).

(** [strings.StrContains]. *)
Fixpoint StrContains (s sub : string) : bool :=
  String.prefix sub s ||
  match s with
  | EmptyString => false
  | String _ s' => StrContains s' sub
  end.

(** [strings.HasPrefix] and [strings.TrimPrefix]. *)
Definition HasPrefix (s p : string) : bool := String.prefix p s.
Fixpoint str_drop (n : nat) (s : string) : string :=
  match n, s with
  | S n', String _ s' => str_drop n' s'
  | _, _ => s
  end.
Definition TrimPrefix (s p : string) : string :=
  if HasPrefix s p then str_drop (String.length p) s else s.

(** [strings.HasSuffix] *)
Definition HasSuffix (s suffix : string) : bool :=
  bool_decide (String.length suffix <= String.length s)%nat
  && bool_decide (str_drop (String.length s - String.length suffix) s = suffix).

(** [strings.IndexByte]: the part before the first occurrence of [c] and the part
    after it. *)
Fixpoint str_cut (c : ascii) (s : string) : option (string * string) :=
  match s with
  | EmptyString => None
  | String a s' =>
      if Ascii.eqb a c then Some (EmptyString, s')
      else match str_cut c s' with
           | Some (l, r) => Some (String a l, r)
           | None => None
           end
  end.

(** [strings.Split] by a one-byte separator: never empty. *)
Fixpoint Split (c : ascii) (s : string) : list string :=
  match s with
  | EmptyString => [EmptyString]
  | String a s' =>
      if Ascii.eqb a c then EmptyString :: Split c s'
      else match Split c s' with
           | [] => [String a EmptyString]
           | w :: ws => String a w :: ws
           end
  end.

(** [strings.Join]. *)
Fixpoint Join (l : list string) (sep : string) : string :=
  match l with
  | [] => EmptyString
  | [x] => x
  | x :: l' => String.append x (String.append sep (Join l' sep))
  end.

(** The ASCII case of [strings.ToLower] and [strings.EqualFold]; both functions
    scan for non-ASCII bytes first and switch to the Unicode tables then. *)
Definition is_ascii (s : string) : bool := forallb (fun b => b <? 128) (bytes_of_string s).
Definition lower_byte (b : Z) : Z := if (65 <=? b) && (b <=? 90) then b + 32 else b.
Definition ascii_lower (s : string) : string := string_of_bytes (lower_byte <$> bytes_of_string s).

(** ** [strconv] *)

Definition digit_val (a : ascii) : option Z :=
  let b := ascii_byte a in
  if (48 <=? b) && (b <=? 57) then Some (b - 48) else None.

(** [strconv.ParseUint(s, 10, bits)] *)
Fixpoint ParseUint_loop (maxVal n : Z) (s : string) : outcome Z :=
  match s with
  | EmptyString => Ok n
  | String a s' =>
      match digit_val a with
      | None => Err ErrSyntax
      | Some d =>
          if maxVal <? n * 10 + d then Err ErrRange
          else ParseUint_loop maxVal (n * 10 + d) s'
      end
  end.
Definition ParseUint (s : string) (bits : Z) : outcome Z :=
  match s with
  | EmptyString => Err ErrSyntax
  | _ => ParseUint_loop (2 ^ bits - 1) 0 s
  end.

(** ** Lemmas: bits and big-endian integers *)

Lemma lor_disjoint x b s : 0 <= s -> 0 <= x < 2 ^ s -> Z.lor x (b * 2 ^ s) = x + b * 2 ^ s.
Proof.
  intros Hs Hx.
  assert (Z.land x (b * 2 ^ s) = 0) as H0.
  { apply Z.bits_inj_0. intros n. rewrite Z.land_spec.
    destruct (Z.ltb_spec n s).
    - rewrite Z.mul_pow2_bits_low by done. apply andb_false_r.
    - destruct (Z.ltb_spec n 0); [by rewrite !Z.testbit_neg_r by lia|].
      destruct (decide (x = 0)) as [->|Hx0]; [by rewrite Z.bits_0|].
      rewrite (Z.bits_above_log2 x n); [done|lia|].
      apply Z.log2_lt_pow2; [lia|]. apply Z.lt_le_trans with (2 ^ s); [lia|].
      apply Z.pow_le_mono_r; lia. }
  rewrite Z.add_nocarry_lxor by done. symmetry. by apply Z.lxor_lor.
Qed.

Lemma lor_shiftl_byte acc b : is_byte b -> Z.lor (Z.shiftl acc 8) b = acc * 256 + b.
Proof.
  intros H. rewrite Z.lor_comm, Z.shiftl_mul_pow2 by lia.
  rewrite lor_disjoint by (unfold is_byte in H; lia). change (2 ^ 8) with 256. lia.
Qed.

Lemma uint_range w x : 0 <= w -> 0 <= uint w x < 2 ^ w.
Proof. intros H. unfold uint. apply Z.mod_pos_bound. apply Z.pow_pos_nonneg; lia. Qed.

Lemma uint_small w x : 0 <= x < 2 ^ w -> uint w x = x.
Proof. intros H. unfold uint. by apply Z.mod_small. Qed.

Lemma uint8_is_byte x : is_byte (uint 8 x).
Proof. unfold is_byte. pose proof (uint_range 8 x). change (2 ^ 8) with 256 in *. lia. Qed.

Lemma be_bytes_range n x : Forall is_byte (be_bytes n x).
Proof.
  revert x; induction n as [|n IH]; intros x; cbn [be_bytes]; [constructor|].
  apply Forall_app; split; [apply IH|]. repeat constructor; apply uint8_is_byte.
Qed.

Lemma length_be_bytes n x : length (be_bytes n x) = n.
Proof.
  revert x; induction n as [|n IH]; intros x; cbn [be_bytes]; [done|].
  rewrite length_app, IH. cbn. lia.
Qed.

Lemma be_val_snoc l b : be_val (l ++ [b]) = Z.lor (Z.shiftl (be_val l) 8) b.
Proof. unfold be_val. rewrite fold_left_app. reflexivity. Qed.

Lemma be_val_bytes n x : 0 <= x < 2 ^ (8 * Z.of_nat n) -> be_val (be_bytes n x) = x.
Proof.
  revert x; induction n as [|n IH]; intros x Hx; cbn [be_bytes].
  { unfold be_val; cbn in *. lia. }
  rewrite be_val_snoc, lor_shiftl_byte by apply uint8_is_byte.
  replace (8 * Z.of_nat (S n)) with (8 * Z.of_nat n + 8) in Hx by lia.
  rewrite Z.pow_add_r in Hx by lia. change (2 ^ 8) with 256 in Hx.
  rewrite Z.shiftr_div_pow2 by lia. change (2 ^ 8) with 256.
  rewrite IH by (split; [apply Z.div_pos; lia | apply Z.div_lt_upper_bound; lia]).
  unfold uint. change (2 ^ 8) with 256.
  pose proof (Z.div_mod x 256). lia.
Qed.

(** ** Lemmas: readers on written bytes *)

Lemma ReadByte_cons b l e : ReadByte (Stream (b :: l) e) = Ok (b, Stream l e).
Proof. reflexivity. Qed.

Lemma ReadFull_app l rest n e :
  n = zlen l -> ReadFull n (Stream (l ++ rest) e) = Ok (l, Stream rest e).
Proof.
  intros ->. unfold ReadFull; cbn [avail fin].
  rewrite (proj2 (Z.leb_le _ _)) by (rewrite zlen_app; pose proof (zlen_nonneg rest); lia).
  unfold zlen. rewrite Nat2Z.id, take_app_length, drop_app_length. done.
Qed.

Lemma ReadUint_be_bytes n x rest e :
  0 <= x < 2 ^ (8 * Z.of_nat n) ->
  ReadUint n (Stream (be_bytes n x ++ rest) e) = Ok (x, Stream rest e).
Proof.
  intros Hx. unfold ReadUint. rewrite ReadFull_app by (unfold zlen; by rewrite length_be_bytes).
  cbn [obind]. by rewrite be_val_bytes.
Qed.

Lemma ReadUint_byte b rest e :
  is_byte b -> ReadUint 1 (Stream (b :: rest) e) = Ok (b, Stream rest e).
Proof.
  intros H. unfold ReadUint. change (b :: rest) with ([b] ++ rest).
  rewrite ReadFull_app by done. cbn [obind]. unfold be_val; cbn [fold_left].
  by rewrite Z.shiftl_0_l, Z.lor_0_l.
Qed.

Lemma ReadBool_bool_byte b rest e :
  ReadBool (Stream (bool_byte b ++ rest) e) = Ok (b, Stream rest e).
Proof. unfold ReadBool. rewrite ReadFull_app by done. by destruct b. Qed.

Lemma shiftr7_bound x k : 0 <= k -> 0 <= x < 2 ^ (k + 7) -> 0 <= Z.shiftr x 7 < 2 ^ k.
Proof.
  intros Hk Hx. rewrite Z.shiftr_div_pow2 by lia. rewrite Z.pow_add_r in Hx by lia.
  split; [apply Z.div_pos; lia | apply Z.div_lt_upper_bound; lia].
Qed.

(** A boolean fact about all bytes is checked by evaluation. *)
Lemma byte_forall (f : Z -> bool) b : forallb f (seqZ 0 256) = true -> is_byte b -> f b = true.
Proof.
  intros H Hb. rewrite forallb_forall in H. apply H.
  apply list_elem_of_In, elem_of_seqZ. unfold is_byte in Hb; lia.
Qed.

Lemma uvarint_cont_byte y :
  0 <= y ->
  (Z.lor (uint 8 y) 128 <? 128) = false /\ Z.land (Z.lor (uint 8 y) 128) 127 = y mod 128.
Proof.
  intros Hy. pose proof (uint8_is_byte y) as Hb.
  pose proof (byte_forall (fun b => negb (Z.lor b 128 <? 128) && (Z.land (Z.lor b 128) 127 =? b mod 128))
    (uint 8 y) ltac:(vm_compute; reflexivity) Hb) as H.
  apply andb_true_iff in H as [H1%negb_true_iff H2%Z.eqb_eq]. split; [done|]. rewrite H2. unfold uint. change (2 ^ 8) with (128 * 2).
  rewrite Z.rem_mul_r by lia. rewrite Z.add_mod, (Z.mul_comm 128), Z.mod_mul, Z.add_0_r by lia.
  by rewrite !Z.mod_mod by lia.
Qed.

Lemma ReadUvarint_loop_Put n i x s y rest e :
  (1 <= n)%nat -> i = 10 - Z.of_nat n -> s = 7 * i -> 0 <= i ->
  0 <= x < 2 ^ s -> 0 <= y < 2 ^ (64 - s) ->
  ReadUvarint_loop n i x s (Stream (PutUvarint_loop n y ++ rest) e)
  = Ok (x + y * 2 ^ s, Stream rest e).
Proof.
  revert i x s y; induction n as [|n IH]; intros i x s y Hn Hi Hs Hi0 Hx Hy; [lia|].
  cbn [ReadUvarint_loop PutUvarint_loop].
  assert (Hpow : 2 ^ 64 = 2 ^ (64 - s) * 2 ^ s) by (rewrite <- Z.pow_add_r by lia; f_equal; lia).
  assert (0 < 2 ^ s) by (apply Z.pow_pos_nonneg; lia).
  destruct (Z.leb_spec 128 y) as [Hbig|Hsmall].
  - cbn [app]. rewrite ReadByte_cons. cbn [obind].
    destruct (uvarint_cont_byte y) as [-> ->]; [lia|].
    assert (n <> 0%nat).
    { intros ->. replace (64 - s) with 1 in Hy by lia. cbn in Hy. lia. }
    pose proof (Z.mod_pos_bound y 128) as Hm.
    assert (y mod 128 * 2 ^ s < 2 ^ 64) by (pose proof (Z.mod_le y 128); nia).
    rewrite Z.shiftl_mul_pow2, uint_small by (try split; nia).
    rewrite lor_disjoint by lia.
    assert (Hs7 : 2 ^ (s + 7) = 2 ^ s * 128) by (rewrite Z.pow_add_r by lia; reflexivity).
    rewrite IH; try lia.
    + f_equal. f_equal. rewrite Hs7, Z.shiftr_div_pow2 by lia. change (2 ^ 7) with 128.
      pose proof (Z.div_mod y 128). nia.
    + rewrite Hs7. nia.
    + apply shiftr7_bound; [lia|]. replace (64 - (s + 7) + 7) with (64 - s) by lia. done.
  - cbn [app]. rewrite ReadByte_cons. cbn [obind].
    rewrite (uint_small 8 y) by (change (2 ^ 8) with 256; lia).
    rewrite (proj2 (Z.ltb_lt y 128)) by done.
    destruct ((i =? 9) && (1 <? y)) eqn:Hov.
    { to_prop. replace (64 - s) with 1 in Hy by lia. cbn in Hy. lia. }
    rewrite Z.shiftl_mul_pow2, uint_small by (try split; nia).
    by rewrite lor_disjoint by lia.
Qed.

(** [ReadUvarint] inverts [PutUvarint] on every uint64. *)
Lemma ReadUvarint_Put y rest e :
  is_uint64 y -> ReadUvarint (Stream (PutUvarint y ++ rest) e) = Ok (y, Stream rest e).
Proof.
  intros Hy. unfold ReadUvarint, PutUvarint.
  rewrite ReadUvarint_loop_Put; [|unfold is_uint64 in Hy; cbn; lia ..].
  f_equal; f_equal. lia.
Qed.

Lemma make_slice_ok n : n < 2 ^ 63 -> make_slice n = Ok tt.
Proof. intros H. unfold make_slice. by rewrite (proj2 (Z.ltb_lt _ _)). Qed.

(** [read_n] on the concatenation of encodings, each of which [f] inverts. *)
Lemma read_n_encoded {A B} (enc : A -> bytes) (dec : A -> B) (f : Z -> reader B) (l : list A) fuel i n rest e :
  n = i + zlen l -> (length l <= fuel)%nat ->
  (forall x j r, x ∈ l -> f j (Stream (enc x ++ r) e) = Ok (dec x, Stream r e)) ->
  read_n fuel i n f (Stream (concat (enc <$> l) ++ rest) e) = Ok (dec <$> l, Stream rest e).
Proof.
  intros Hn Hf Henc. revert fuel i Hn Hf.
  induction l as [|x l IH]; intros fuel i Hn Hf; cbn [fmap list_fmap concat app].
  - destruct fuel; cbn [read_n]; rewrite (proj2 (Z.leb_le _ _)) by (unfold zlen in Hn; cbn in Hn; lia); done.
  - cbn [length] in Hf. destruct fuel as [|fuel]; [lia|].
    rewrite zlen_cons in Hn. cbn [read_n].
    rewrite (proj2 (Z.leb_gt _ _)) by (pose proof (zlen_nonneg l); lia).
    rewrite <- app_assoc, Henc by (left). cbn [obind].
    rewrite IH; [done| |lia|lia]. intros y j r Hy. apply Henc. by right.
Qed.

(** ** Consumption: a reader never grows its input, and some make progress. *)

Definition consumes {A} (k : nat) (f : reader A) : Prop :=
  forall st a st', f st = Ok (a, st') -> (length (avail st') + k <= length (avail st))%nat.

Definition total {A} (f : reader A) : Prop := forall st, f st <> Diverge.

Lemma ReadByte_consumes : consumes 1 ReadByte.
Proof. intros [[|b l] e] a st' H; cbn in H; inv_ok; cbn; lia. Qed.

Lemma ReadFull_consumes n : consumes (Z.to_nat n) (ReadFull n).
Proof.
  intros [l e] a st' H. unfold ReadFull in H; cbn [avail fin] in H.
  destruct (Z.leb_spec n (zlen l)) as [Hle|]; [|destruct l; discriminate].
  injection H as <- <-. cbn. rewrite length_drop. unfold zlen in Hle. lia.
Qed.

Lemma ReadFull_consumes0 n : consumes 0 (ReadFull n).
Proof. intros st a st' H. apply ReadFull_consumes in H. lia. Qed.

Lemma consumes_weaken {A} k k' (f : reader A) : (k' <= k)%nat -> consumes k f -> consumes k' f.
Proof. intros Hk Hf st a st' H. apply Hf in H. lia. Qed.

Lemma consumes_bind {A B} k1 k2 (f : reader A) (g : A -> reader B) :
  consumes k1 f -> (forall a, consumes k2 (g a)) ->
  consumes (k1 + k2) (fun st => let* (a, st') := f st in g a st').
Proof.
  intros Hf Hg st b st' H. apply obind_Ok_inv in H as ([a st1] & H1 & H2).
  apply Hf in H1. apply Hg in H2. lia.
Qed.

Lemma total_bind {A B} (f : reader A) (g : A -> reader B) :
  total f -> (forall a, total (g a)) -> total (fun st => let* (a, st') := f st in g a st').
Proof. intros Hf Hg st. specialize (Hf st). destruct (f st) as [[a st']| | |]; cbn; try done. apply Hg. Qed.

Lemma consumes_ret {A} (a : A) : consumes 0 (fun st => Ok (a, st)).
Proof. intros st a' st' H. inv_ok. lia. Qed.

Lemma total_ret {A} (a : A) : total (fun st => Ok (a, st)).
Proof. by intros st. Qed.

Lemma ReadByte_total : total ReadByte.
Proof. by intros [[|] e]. Qed.

Lemma ReadFull_total n : total (ReadFull n).
Proof. intros [l e]. unfold ReadFull. destruct (_ <=? _); [done|]. by destruct l. Qed.

Lemma ReadUint_consumes n : consumes n (ReadUint n).
Proof.
  intros st a st' H. unfold ReadUint in H. inv_ok.
  apply ReadFull_consumes in E. lia.
Qed.

Lemma ReadUint_total n : total (ReadUint n).
Proof. intros st. unfold ReadUint. pose proof (ReadFull_total (Z.of_nat n) st). by destruct (ReadFull _ st) as [[]| | |]. Qed.

Lemma ReadBool_consumes : consumes 1 ReadBool.
Proof. intros st a st' H. unfold ReadBool in H. inv_ok. apply ReadFull_consumes in E. lia. Qed.

Lemma ReadBool_total : total ReadBool.
Proof. intros st. unfold ReadBool. pose proof (ReadFull_total 1 st). by destruct (ReadFull _ st) as [[]| | |]. Qed.

Lemma ReadUvarint_loop_consumes n i x s : consumes 1 (ReadUvarint_loop n i x s).
Proof.
  revert i x s; induction n as [|n IH]; intros i x s st a st' H; cbn [ReadUvarint_loop] in H; [discriminate|].
  destruct (ReadByte st) as [[b st1]| | |] eqn:E; try discriminate.
  apply ReadByte_consumes in E. destruct (b <? 128).
  - destruct (_ && _); inv_ok. lia.
  - apply IH in H. lia.
Qed.

Lemma ReadUvarint_loop_total n i x s : total (ReadUvarint_loop n i x s).
Proof.
  revert i x s; induction n as [|n IH]; intros i x s st; cbn [ReadUvarint_loop]; [done|].
  pose proof (ReadByte_total st). destruct (ReadByte st) as [[b st1]| | |]; try done.
  destruct (b <? 128); [by destruct (_ && _)|apply IH].
Qed.

Lemma ReadUvarint_consumes : consumes 1 ReadUvarint.
Proof. apply ReadUvarint_loop_consumes. Qed.

Lemma ReadUvarint_total : total ReadUvarint.
Proof. apply ReadUvarint_loop_total. Qed.

Lemma read_n_consumes {A} fuel i n (f : Z -> reader A) : (forall j, consumes 0 (f j)) -> consumes 0 (read_n fuel i n f).
Proof.
  intros Hf. revert i; induction fuel as [|fuel IH]; intros i st a st' H; cbn [read_n] in H;
    destruct (n <=? i); inv_ok; try lia.
  apply Hf in E. apply IH in E0. lia.
Qed.

(** A loop whose body consumes input ends: the remaining bytes bound it. *)
Lemma read_n_total {A} fuel i n (f : Z -> reader A) st :
  (forall j, consumes 1 (f j)) -> (forall j, total (f j)) -> (length (avail st) < fuel)%nat ->
  read_n fuel i n f st <> Diverge.
Proof.
  intros Hc Ht. revert i st; induction fuel as [|fuel IH]; intros i st Hlen; [lia|].
  cbn [read_n]. destruct (n <=? i); [done|].
  pose proof (Ht i st). destruct (f i st) as [[a st1]| | |] eqn:E; try done. cbn [obind].
  apply Hc in E. specialize (IH (i + 1) st1 ltac:(lia)).
  by destruct (read_n fuel (i + 1) n f st1) as [[]| | |].
Qed.

(** ** [net.ParseMAC], [HardwareAddr.String], [hex.DecodeString],
    [strings.TrimSpace] and [filepath.Base] *)

Definition hex_digit (c : Z) : option Z :=
  if (48 <=? c) && (c <=? 57) then Some (c - 48)
  else if (97 <=? c) && (c <=? 102) then Some (c - 87)
  else if (65 <=? c) && (c <=? 70) then Some (c - 55)
  else None.

(** [xtoi2]: two hexadecimal digits, then the end of the text or the byte [e]. *)
Definition xtoi2 (s : bytes) (e : Z) : option Z :=
  match s with
  | a :: b :: rest =>
      if match rest with c :: _ => negb (c =? e) | [] => false end then None
      else match hex_digit a, hex_digit b with
           | Some x, Some y => Some (x * 16 + y)
           | _, _ => None
           end
  | _ => None
  end.

(** The [i]th pair of digits starts at [x_i]; the separator after it is [e]. *)
Fixpoint mac_bytes (n : nat) (stride : nat) (e : Z) (s : bytes) : option bytes :=
  match n with
  | O => Some []
  | S n' =>
      match xtoi2 s e with
      | Some b => match mac_bytes n' stride e (drop stride s) with
                  | Some r => Some (b :: r)
                  | None => None
                  end
      | None => None
      end
  end.

(** Two bytes per group: the first pair is cut at two digits, the second is
    followed by [e]. *)
Fixpoint mac_words (n : nat) (e : Z) (s : bytes) : option bytes :=
  match n with
  | O => Some []
  | S n' =>
      match xtoi2 (take 2 s) 0, xtoi2 (drop 2 s) e, mac_words n' e (drop 5 s) with
      | Some a, Some b, Some r => Some (a :: b :: r)
      | _, _, _ => None
      end
  end.

Definition mac_len_ok (n : Z) : bool := (n =? 6) || (n =? 8) || (n =? 20).

Definition ParseMAC (str : string) : option bytes :=
  let s := bytes_of_string str in
  let len := zlen s in
  if len <? 14 then None
  else match s !! 2%nat, s !! 4%nat with
  | Some c2, Some c4 =>
      if (c2 =? 58) || (c2 =? 45) then
        if negb ((len + 1) mod 3 =? 0) then None
        else if mac_len_ok ((len + 1) / 3) then mac_bytes (Z.to_nat ((len + 1) / 3)) 3 c2 s
        else None
      else if c4 =? 46 then
        if negb ((len + 1) mod 5 =? 0) then None
        else if mac_len_ok (2 * (len + 1) / 5) then mac_words (Z.to_nat ((len + 1) / 5)) c4 s
        else None
      else None
  | _, _ => None
  end.

Definition hex_char (d : Z) : Z := if d <? 10 then d + 48 else d + 87.
Definition hex_byte (b : Z) : bytes := [hex_char (b / 16); hex_char (b mod 16)].
Fixpoint mac_string (b : bytes) : bytes :=
  match b with
  | [] => []
  | [x] => hex_byte x
  | x :: b' => hex_byte x ++ 58 :: mac_string b'
  end.
Definition HardwareAddr_String (b : bytes) : string := string_of_bytes (mac_string b).

Fixpoint hex_decode (s : bytes) : option bytes :=
  match s with
  | [] => Some []
  | a :: b :: s' =>
      match hex_digit a, hex_digit b, hex_decode s' with
      | Some x, Some y, Some r => Some (x * 16 + y :: r)
      | _, _, _ => None
      end
  | _ => None
  end.

Definition is_space (b : Z) : bool :=
  (b =? 32) || ((9 <=? b) && (b <=? 13)).
Fixpoint drop_space (s : bytes) : bytes :=
  match s with
  | b :: s' => if is_space b then drop_space s' else s
  | [] => []
  end.
Definition TrimSpace (s : string) : string :=
  string_of_bytes (rev (drop_space (rev (drop_space (bytes_of_string s))))).

(** [filepath.Base] (slash-separated paths). *)
Fixpoint drop_slash (s : bytes) : bytes :=
  match s with
  | b :: s' => if b =? 47 then drop_slash s' else s
  | [] => []
  end.
Fixpoint until_slash (s : bytes) : bytes :=
  match s with
  | b :: s' => if b =? 47 then [] else b :: until_slash s'
  | [] => []
  end.
Definition Base (path : string) : string :=
  match bytes_of_string path with
  | [] => "."
  | p => match until_slash (drop_slash (rev p)) with
         | [] => "/"
         | q => string_of_bytes (rev q)
         end
  end.

Example mac_dash : ParseMAC "00-00-5E-00-53-01" = Some [0; 0; 94; 0; 83; 1].
Proof. vm_compute. reflexivity. Qed.
Example mac_dot : ParseMAC "0000.5e00.5301" = Some [0; 0; 94; 0; 83; 1].
Proof. vm_compute. reflexivity. Qed.
Example mac_str : HardwareAddr_String [0; 0; 94; 0; 83; 1] = "00:00:5e:00:53:01".
Proof. vm_compute. reflexivity. Qed.
Example base_path : Base "/usr/bin/curl/" = "curl".
Proof. vm_compute. reflexivity. Qed.

(** ** Lemmas: strings *)

(** No byte of the string is the given one. *)
Fixpoint free_of (c : ascii) (s : string) : bool :=
  match s with EmptyString => true | String a s' => negb (Ascii.eqb a c) && free_of c s' end.

Lemma free_of_app c s t : free_of c (s +:+ t) = free_of c s && free_of c t.
Proof.
  induction s as [|a s IH]; [done|]. change (String a s +:+ t) with (String a (s +:+ t)). cbn [free_of]. by rewrite IH, andb_assoc.
Qed.
Lemma Split_free c s : free_of c s = true -> Split c s = [s].
Proof.
  induction s as [|a s IH]; cbn; [done|]. intros [Ha Hs]%andb_true_iff. apply negb_true_iff in Ha. by rewrite Ha, (IH Hs).
Qed.
Lemma Split_app c s t : free_of c s = true -> Split c (s +:+ String c t) = s :: Split c t.
Proof.
  induction s as [|a s IH]; [change ("" +:+ String c t)%string with (String c t); cbn [Split]; by rewrite Ascii.eqb_refl|]. change (String a s +:+ String c t) with (String a (s +:+ String c t)).
  cbn [free_of Split]. intros [Ha Hs]%andb_true_iff. apply negb_true_iff in Ha.
  by rewrite Ha, (IH Hs).
Qed.
Lemma StrContains_char c s : StrContains s (String c EmptyString) = negb (free_of c s).
Proof.
  induction s as [|a s IH]; [done|]. cbn [StrContains free_of]. rewrite IH. cbn [String.prefix].
  destruct (Ascii.ascii_dec c a) as [->|Hn].
  - rewrite Ascii.eqb_refl. by destruct s.
  - destruct (Ascii.eqb_spec a c) as [->|]; [done|]. done.
Qed.

Lemma str_app_nil_r s : s +:+ "" = s.
Proof. induction s as [|a s IH]; [done|]. change (String a s +:+ "")%string with (String a (s +:+ "")). by rewrite IH. Qed.
Lemma str_length_app s t : String.length (s +:+ t) = (String.length s + String.length t)%nat.
Proof. induction s as [|a s IH]; [done|]. change (String a s +:+ t) with (String a (s +:+ t)). cbn. by rewrite IH. Qed.
Lemma str_drop_app s t : str_drop (String.length s) (s +:+ t) = t.
Proof. induction s as [|a s IH]; [by destruct t|]. change (String a s +:+ t) with (String a (s +:+ t)). done. Qed.
Lemma str_cut_free c s : free_of c s = true -> str_cut c s = None.
Proof.
  induction s as [|a s IH]; cbn; [done|]. intros [Ha Hs]%andb_true_iff. apply negb_true_iff in Ha. by rewrite Ha, IH.
Qed.
Lemma str_app_assoc (a b c : string) : (a +:+ b) +:+ c = a +:+ (b +:+ c).
Proof. induction a as [|x a IH]; [done|]. exact (f_equal (String x) IH). Qed.
