(* ===== verification/Netip.v ===== *)
(** * Go's [net/netip]

    Addresses and prefixes as the standard library defines them: an address is
    a number of 32 or 128 bits with its family (and a zone for IPv6), a prefix an
    address and a bit count, -1 when invalid; parsing and printing.  Used by the rule items, the
    rule-set codec and the FakeIP store. *)

From S2P Require Import Prelude GoStd.
From Stdlib Require Import Ascii.
Local Open Scope Z_scope.

(** [netip.Addr]: [AddrInvalid 0] is the zero value [netip.Addr{}]. *)
Inductive Addr :=
| AddrInvalid (v : Z)
| Addr4 (v : Z)
| Addr6 (v : Z) (zone : string).

#[export] Instance Addr_eq_dec : EqDecision Addr.
Proof. solve_decision. Defined.

#[export] Program Instance Addr_countable : Countable Addr :=
  inj_countable'
    (fun a => match a with
              | AddrInvalid v => inl v
              | Addr4 v => inr (inl v)
              | Addr6 v z => inr (inr (v, z))
              end)
    (fun x => match x with
              | inl v => AddrInvalid v
              | inr (inl v) => Addr4 v
              | inr (inr (v, z)) => Addr6 v z
              end) _.
Next Obligation. by intros []. Qed.

Definition addr_zero : Addr := AddrInvalid 0.
Definition addr_val (a : Addr) : Z :=
  match a with AddrInvalid v => v | Addr4 v => v | Addr6 v _ => v end.
Definition IsValid (a : Addr) : bool :=
  match a with AddrInvalid _ => false | _ => true end.
Definition Is4 (a : Addr) : bool := match a with Addr4 _ => true | _ => false end.
Definition Is6 (a : Addr) : bool := match a with Addr6 _ _ => true | _ => false end.
Definition has_zone (a : Addr) : bool :=
  match a with Addr6 _ z => negb (bool_decide (z = "")) | _ => false end.
Definition BitLen (a : Addr) : Z :=
  match a with AddrInvalid _ => 0 | Addr4 _ => 32 | Addr6 _ _ => 128 end.

(** The values are in the range of their family. *)
Definition addr_wf (a : Addr) : Prop :=
  match a with
  | AddrInvalid v => 0 <= v < 2 ^ 128
  | Addr4 v => 0 <= v < 2 ^ 32
  | Addr6 v _ => 0 <= v < 2 ^ 128
  end.

(** [Addr.AsSlice] and [netip.AddrFromSlice]. *)
Definition AsSlice (a : Addr) : bytes :=
  match a with
  | AddrInvalid _ => []
  | Addr4 v => be_bytes 4 v
  | Addr6 v _ => be_bytes 16 v
  end.
Definition AddrFromSlice (b : bytes) : Addr :=
  if zlen b =? 4 then Addr4 (be_val b)
  else if zlen b =? 16 then Addr6 (be_val b) ""
  else addr_zero.

(** [Addr.Unmap]: an IPv4-mapped IPv6 address becomes IPv4. *)
Definition Is4In6 (a : Addr) : bool :=
  match a with Addr6 v _ => Z.shiftr v 32 =? 65535 | _ => false end.
Definition Unmap (a : Addr) : Addr :=
  if Is4In6 a then Addr4 (uint 32 (addr_val a)) else a.

(** [Addr.Next]: the zero address on overflow. *)
Definition Next (a : Addr) : Addr :=
  match a with
  | AddrInvalid v => AddrInvalid (uint 128 (v + 1))
  | Addr4 v => let v' := uint 32 (v + 1) in if v' =? 0 then addr_zero else Addr4 v'
  | Addr6 v z => let v' := uint 128 (v + 1) in if v' =? 0 then addr_zero else Addr6 v' z
  end.

(** [netip.Prefix]. *)
Record Prefix := MkPrefix { p_addr : Addr; p_bits : Z }.

#[export] Instance Prefix_eq_dec : EqDecision Prefix.
Proof. solve_decision. Defined.

Definition without_zone (a : Addr) : Addr :=
  match a with Addr6 v _ => Addr6 v "" | a => a end.
Definition prefix_zero : Prefix := MkPrefix addr_zero (-1).
Definition PrefixFrom (a : Addr) (bits : Z) : Prefix :=
  MkPrefix (without_zone a)
    (if negb (bool_decide (a = addr_zero)) && (0 <=? bits) && (bits <=? BitLen a) then bits else -1).
Definition PrefixIsValid (p : Prefix) : bool := 0 <=? p_bits p.

(** The part of an address above the last [BitLen - bits] bits. *)
Definition net_part (a : Addr) (bits : Z) : Z := Z.shiftr (addr_val a) (BitLen a - bits).

(** [Prefix.Contains] *)
Definition Contains (p : Prefix) (a : Addr) : bool :=
  if negb (PrefixIsValid p) || has_zone a then false
  else if (BitLen (p_addr p) =? 0) || (BitLen a =? 0) || negb (BitLen (p_addr p) =? BitLen a) then false
  else Z.shiftr (Z.lxor (addr_val a) (addr_val (p_addr p))) (BitLen a - p_bits p) =? 0.

(** [Prefix.Overlaps] *)
Definition Overlaps (p o : Prefix) : bool :=
  if negb (PrefixIsValid p) || negb (PrefixIsValid o) then false
  else if bool_decide (p = o) then true
  else if negb (Bool.eqb (Is4 (p_addr p)) (Is4 (p_addr o))) then false
  else
    let minBits := Z.min (p_bits p) (p_bits o) in
    if minBits =? 0 then true
    else net_part (p_addr p) minBits =? net_part (p_addr o) minBits.

(** ** Parsing *)


(** [parseIPv4Fields]; [val] and [digLen] describe the current octet, [first] is
    true at the start of the text and after a dot. *)
Fixpoint parseIPv4Fields (s : bytes) (val digLen : Z) (fields : bytes) (first : bool) : outcome bytes :=
  match s with
  | [] =>
      if zlen fields <? 3 then Err (EExternal "IPv4 address too short")
      else Ok (fields ++ [val])
  | c :: s' =>
      if (48 <=? c) && (c <=? 57) then
        if (digLen =? 1) && (val =? 0) then Err (EExternal "IPv4 field has octet with leading zero")
        else
          let val' := val * 10 + (c - 48) in
          if 255 <? val' then Err (EExternal "IPv4 field has value >255")
          else parseIPv4Fields s' val' (digLen + 1) fields false
      else if c =? 46 then
        if first || match s' with [] => true | _ => false end then
          Err (EExternal "IPv4 field must have at least one digit")
        else if zlen fields =? 3 then Err (EExternal "IPv4 address too long")
        else parseIPv4Fields s' 0 0 (fields ++ [val]) true
      else Err (EExternal "unexpected character")
  end.
Definition parseIPv4 (s : bytes) : outcome Addr :=
  let* f := parseIPv4Fields s 0 0 [] true in Ok (Addr4 (be_val f)).

Definition hex_val (c : Z) : option Z :=
  if (48 <=? c) && (c <=? 57) then Some (c - 48)
  else if (97 <=? c) && (c <=? 102) then Some (c - 87)
  else if (65 <=? c) && (c <=? 70) then Some (c - 55)
  else None.

(** The hexadecimal digits of one group: value, number of digits, rest. *)
Fixpoint parse_group (s : bytes) (acc off : Z) : outcome (Z * Z * bytes) :=
  match s with
  | [] => Ok (acc, off, [])
  | c :: s' =>
      match hex_val c with
      | None => Ok (acc, off, s)
      | Some d =>
          if 3 <? off then Err (EExternal "each group must have 4 or less digits")
          else parse_group s' (acc * 16 + d) (off + 1)
      end
  end.

(** The loop of [parseIPv6]: [ip] holds the bytes parsed so far, the result is
    the bytes, the ellipsis position and the unparsed rest.  One iteration parses
    two bytes, so eight iterations are all the loop makes. *)
Fixpoint parseIPv6_loop (fuel : nat) (s ip : bytes) (ellipsis : Z) : outcome (bytes * Z * bytes) :=
  match fuel with
  | O => Ok (ip, ellipsis, s)
  | S fuel' =>
      let* (acc, off, rest) := parse_group s 0 0 in
      if off =? 0 then Err (EExternal "each colon-separated field must have at least one digit")
      else match rest with
      | c :: tl =>
          if c =? 46 then
            if (ellipsis <? 0) && negb (zlen ip =? 12) then
              Err (EExternal "embedded IPv4 address must replace the final 2 fields of the address")
            else if 16 <? zlen ip + 4 then
              Err (EExternal "too many hex fields to fit an embedded IPv4 at the end of the address")
            else
              let* f := parseIPv4Fields s 0 0 [] true in Ok (ip ++ f, ellipsis, [])
          else
            let ip' := ip ++ be_bytes 2 acc in
            if negb (c =? 58) then Err (EExternal "unexpected character, want colon")
            else match tl with
            | c2 :: rest2 =>
                if c2 =? 58 then
                  if 0 <=? ellipsis then Err (EExternal "multiple :: in address")
                  else match rest2 with
                       | [] => Ok (ip', zlen ip', [])
                       | _ => parseIPv6_loop fuel' rest2 ip' (zlen ip')
                       end
                else parseIPv6_loop fuel' (c2 :: rest2) ip' ellipsis
            | [] => Err (EExternal "colon must be followed by more characters")
            end
      | [] => Ok (ip ++ be_bytes 2 acc, ellipsis, [])
      end
  end.

Definition split_zone (s : string) : outcome (bytes * string) :=
  match str_cut "%"%char s with
  | None => Ok (bytes_of_string s, "")
  | Some (l, r) =>
      if bool_decide (r = "") then Err (EExternal "zone must be a non-empty string")
      else Ok (bytes_of_string l, r)
  end.

Definition parseIPv6 (s : string) : outcome Addr :=
  let* (b, zone) := split_zone s in
  let '(b', ellipsis) := match b with
                         | 58 :: 58 :: rest => (rest, 0)
                         | _ => (b, -1)
                         end in
  match b', ellipsis with
  | [], 0 => Ok (Addr6 0 zone)
  | _, _ =>
      let* (ip, ell, rest) := parseIPv6_loop 8 b' [] ellipsis in
      if negb (zlen rest =? 0) then Err (EExternal "trailing garbage after address")
      else if zlen ip <? 16 then
        if ell <? 0 then Err (EExternal "address string too short")
        else
          let n := Z.to_nat (16 - zlen ip) in
          Ok (Addr6 (be_val (take (Z.to_nat ell) ip ++ replicate n 0 ++ drop (Z.to_nat ell) ip)) zone)
      else if 0 <=? ell then Err (EExternal "the :: must expand to at least one field of zeros")
      else Ok (Addr6 (be_val ip) zone)
  end.

(** [netip.ParseAddr]: the first dot, colon or percent sign decides the family. *)
Fixpoint addr_kind (s : bytes) : option Z :=
  match s with
  | [] => None
  | c :: s' => if (c =? 46) || (c =? 58) || (c =? 37) then Some c else addr_kind s'
  end.
Definition ParseAddr (s : string) : outcome Addr :=
  match addr_kind (bytes_of_string s) with
  | Some 46 => parseIPv4 (bytes_of_string s)
  | Some 58 => parseIPv6 s
  | Some _ => Err (EExternal "missing IPv6 address")
  | None => Err (EExternal "unable to parse IP")
  end.

(** The text before and after the last slash. *)
Fixpoint cut_last_slash (s : string) : option (string * string) :=
  match s with
  | EmptyString => None
  | String a s' =>
      match cut_last_slash s' with
      | Some (l, r) => Some (String a l, r)
      | None => if Ascii.eqb a "/"%char then Some (EmptyString, s') else None
      end
  end.

(** [netip.ParsePrefix] *)
Definition ParsePrefix (s : string) : outcome Prefix :=
  match cut_last_slash s with
  | None => Err (EExternal "no '/'")
  | Some (a, bitsStr) =>
      let* ip := ParseAddr a in
      if has_zone ip then Err (EExternal "IPv6 zones cannot be present in a prefix")
      else if match bytes_of_string bitsStr with
              | c :: _ :: _ => (c <? 49) || (57 <? c)
              | _ => false
              end then Err (EExternal "bad bits after slash")
      else
        let* bits := ParseUint bitsStr 63 in
        if (if Is6 ip then 128 else 32) <? bits then Err (EExternal "prefix length out of range")
        else Ok (PrefixFrom ip bits)
  end.

(** ** Printing *)

(** [appendHex]: no leading zeros. *)
Definition hex_digit (d : Z) : ascii := if d <? 10 then byte_ascii (48 + d) else byte_ascii (87 + d).
Definition appendHex (x : Z) : string :=
  let digit k := hex_digit (Z.land (Z.shiftr x k) 15) in
  let last := String (digit 0) EmptyString in
  let last := if 16 <=? x then String (digit 4) last else last in
  let last := if 256 <=? x then String (digit 8) last else last in
  if 4096 <=? x then String (digit 12) last else last.

(** The 16-bit fields of an IPv6 address, and the longest run of two zeros or more:
    [zeroStart], [zeroEnd], both 255 without one. *)
Definition v6u16 (v i : Z) : Z := uint 16 (Z.shiftr v (112 - 16 * i)).
Fixpoint zero_run (fields : list Z) : Z :=
  match fields with x :: fields' => if x =? 0 then 1 + zero_run fields' else 0 | [] => 0 end.
Fixpoint longest_zeros (i : Z) (fields : list Z) (zeroStart zeroEnd : Z) : Z * Z :=
  match fields with
  | [] => (zeroStart, zeroEnd)
  | _ :: fields' =>
      let l := zero_run fields in
      if (2 <=? l) && (zeroEnd - zeroStart <? l) then longest_zeros (i + 1) fields' i (i + l)
      else longest_zeros (i + 1) fields' zeroStart zeroEnd
  end.
(** The second loop of [appendTo6]: the run is printed as two colons, and the field
    after it follows without another one. *)
Fixpoint append_fields (zeroStart zeroEnd i : Z) (fields : list Z) : string :=
  match fields with
  | [] => EmptyString
  | x :: fields' =>
      let rest := append_fields zeroStart zeroEnd (i + 1) fields' in
      if i =? zeroStart then "::" +:+ rest
      else if (zeroStart <? i) && (i <? zeroEnd) then rest
      else if (i =? zeroEnd) || (i =? 0) then appendHex x +:+ rest
      else ":" +:+ appendHex x +:+ rest
  end.
Definition string4 (v : Z) : string :=
  let octet k := pretty (Z.land (Z.shiftr v k) 255) in
  octet 24 +:+ "." +:+ octet 16 +:+ "." +:+ octet 8 +:+ "." +:+ octet 0.
Definition string6 (v : Z) : string :=
  let fields := v6u16 v <$> [0; 1; 2; 3; 4; 5; 6; 7] in
  let '(zeroStart, zeroEnd) := longest_zeros 0 fields 255 255 in
  append_fields zeroStart zeroEnd 0 fields.

(** [Addr.String] *)
Definition Addr_String (a : Addr) : string :=
  match a with
  | AddrInvalid _ => "invalid IP"
  | Addr4 v => string4 v
  | Addr6 v zone =>
      (if Is4In6 a then "::ffff:" +:+ string4 (uint 32 v) else string6 v)
      +:+ (if bool_decide (zone = "") then "" else "%" +:+ zone)
  end.

(** [Prefix.String] *)
Definition Prefix_String (p : Prefix) : string :=
  if negb (PrefixIsValid p) then "invalid Prefix" else Addr_String (p_addr p) +:+ "/" +:+ pretty (p_bits p).

(** ** Lemmas *)

Lemma AddrFromSlice_AsSlice a :
  addr_wf a -> IsValid a = true -> has_zone a = false -> AddrFromSlice (AsSlice a) = a.
Proof.
  unfold AddrFromSlice, AsSlice, zlen. destruct a as [v|v|v z]; cbn [IsValid has_zone addr_wf]; intros Hwf Hv Hz.
  - discriminate.
  - rewrite length_be_bytes, be_val_bytes by done. done.
  - rewrite length_be_bytes, be_val_bytes by done.
    apply negb_false_iff, bool_decide_eq_true in Hz. by subst.
Qed.

(** Addresses a byte format can hold: in range, without a zone; the zero address
    stands for every invalid one. *)
Definition addr_plain (a : Addr) : Prop := addr_wf a /\ has_zone a = false /\ (IsValid a = false -> a = addr_zero).

Lemma zlen_AsSlice a : zlen (AsSlice a) <= 16.
Proof. destruct a; unfold zlen; cbn [AsSlice]; rewrite ?length_be_bytes; cbn; lia. Qed.

(** A prefix built by [PrefixFrom] from a plain address. *)
Definition prefix_ok (p : Prefix) : Prop :=
  addr_plain (p_addr p) /\ p = PrefixFrom (p_addr p) (p_bits p).

Lemma prefix_ok_intro a b :
  addr_wf a -> has_zone a = false -> IsValid a = true -> 0 <= b <= BitLen a -> prefix_ok (MkPrefix a b).
Proof.
  intros Hwf Hz Hv Hb. split; cbn [p_addr p_bits].
  - split; [done|]. split; [done|]. by rewrite Hv.
  - unfold PrefixFrom. rewrite bool_decide_false by (by intros ->).
    rewrite (proj2 (Z.leb_le 0 b)), (proj2 (Z.leb_le b _)) by lia. cbn [negb andb]. f_equal.
    destruct a as [| |v z]; try done. cbn in Hz. apply negb_false_iff, bool_decide_eq_true in Hz as ->. done.
Qed.

Lemma prefix_bits_range p : prefix_ok p -> -1 <= p_bits p <= 128.
Proof.
  intros [_ ->]. unfold PrefixFrom; cbn [p_bits].
  destruct (negb _ && _ && _) eqn:H; [|lia]. to_prop. destruct (p_addr p); cbn in *; lia.
Qed.

Lemma PrefixFrom_uint8 p : prefix_ok p -> PrefixFrom (p_addr p) (uint 8 (p_bits p)) = p.
Proof.
  intros Hp. pose proof (prefix_bits_range p Hp). destruct Hp as [_ Heq].
  destruct (decide (p_bits p = -1)) as [Hm|Hne].
  - rewrite Hm. change (uint 8 (-1)) with 255. rewrite Heq at 2. rewrite Hm. unfold PrefixFrom. f_equal.
    assert (BitLen (p_addr p) <= 128) by (destruct (p_addr p); cbn; lia).
    rewrite (proj2 (Z.leb_gt 255 _)) by lia. change (0 <=? -1) with false. by rewrite !andb_false_r.
  - rewrite uint_small by (cbn; lia). by rewrite <- Heq.
Qed.

Example parse_v4 : ParseAddr "192.168.1.1" = Ok (Addr4 3232235777).
Proof. vm_compute. reflexivity. Qed.
Example parse_v4_zero : is_ok (ParseAddr "192.168.01.1") = false.
Proof. vm_compute. reflexivity. Qed.
Example parse_v6 : ParseAddr "fc00::1:2" = Ok (Addr6 (0xfc00 * 2 ^ 112 + 65538) "").
Proof. vm_compute. reflexivity. Qed.
Example parse_v6_all : ParseAddr "1:2:3:4:5:6:7:8" = Ok (Addr6 (be_val [0;1;0;2;0;3;0;4;0;5;0;6;0;7;0;8]) "").
Proof. vm_compute. reflexivity. Qed.
Example parse_v6_mapped : ParseAddr "::ffff:10.0.0.1%eth0" = Ok (Addr6 (0xffff0a000001) "eth0").
Proof. vm_compute. reflexivity. Qed.
Example parse_prefix : ParsePrefix "10.0.0.0/8" = Ok (MkPrefix (Addr4 (10 * 2 ^ 24)) 8).
Proof. vm_compute. reflexivity. Qed.
Example prefix_contains :
  (let* p := ParsePrefix "10.0.0.0/8" in let* a := ParseAddr "10.2.3.4" in Ok (Contains p a)) = Ok true.
Proof. vm_compute. reflexivity. Qed.
Example print_v6 :
  Addr_String (Addr6 (be_val [0x20;1;0xd;0xb8;0;0;0;0;0;0;0;0xa;0;0;0;0]) "") = "2001:db8::a:0:0"
  /\ Addr_String (Addr6 1 "eth0") = "::1%eth0" /\ Addr_String (Addr6 0 "") = "::"
  /\ Addr_String (Addr6 0xffff0a000001 "") = "::ffff:10.0.0.1"
  /\ Prefix_String (MkPrefix (Addr6 (0xfc00 * 2 ^ 112) "") 7) = "fc00::/7"
  /\ Prefix_String (MkPrefix (Addr4 3232235520) 16) = "192.168.0.0/16".
Proof. split_and!; vm_compute; reflexivity. Qed.
