(* ===== verification/External.v ===== *)
(** * Code outside the repository

    The functions of other modules that the modelled code calls, as operations of
    a type class: [github.com/sagernet/sing], [go4.org/netipx],
    [github.com/miekg/dns], and the regular-expression and zlib engines.  A
    definition that uses them takes the class as an argument; theorems that rely
    on their documented behaviour also take [ExternalLaws]. *)

From S2P Require Import Prelude GoStd Netip.
Local Open Scope Z_scope.

(** [M.Socksaddr]: the fields the repository reads. *)
Record Socksaddr := MkSocksaddr { sa_Addr : Addr; sa_Port : Z; sa_Fqdn : string }.

(** [myIPRange] of common/srs/ip_set.go, the layout the repository relies on for
    [netipx.IPSet]. *)
Record IPRange := MkIPRange { from : Addr; to : Addr }.

#[export] Instance IPRange_eq_dec : EqDecision IPRange.
Proof. solve_decision. Defined.

Abbreviation IPSet := (list IPRange) (only parsing).

(** A call of [netipx.IPSetBuilder] before [IPSet()]. *)
Inductive builder_op := AddPrefix (p : Prefix) | AddAddr (a : Addr).

Class External := {
  (** [regexp] *)
  Regexp : Type;
  Regexp_eq_dec : EqDecision Regexp;
  regexp_Compile : string -> outcome Regexp;
  MatchString : Regexp -> string -> bool;
  (** The Unicode branches of [strings.ToLower] and [strings.EqualFold]. *)
  unicode_ToLower : string -> string;
  unicode_EqualFold : string -> string -> bool;
  (** [compress/zlib]: the decompressed source, and the compressed text. *)
  zlib_NewReader : bytes -> outcome stream;
  zlib_compress : bytes -> bytes;
  (** [sing/common/metadata], [sing/common/network] *)
  AddrFromIP : bytes -> Addr;
  Socksaddr_IsIP : Socksaddr -> bool;
  Socksaddr_IsIPv6 : Socksaddr -> bool;
  IsPublicAddr : Addr -> bool;
  (** [sing/common/varbin] *)
  WriteUvarint : Z -> bytes;
  (** [sing/common/domain] *)
  Matcher : Type;
  NewMatcher : list string -> list string -> bool -> Matcher;
  Matcher_Match : Matcher -> string -> bool;
  Matcher_Write : Matcher -> outcome bytes;
  ReadMatcher : reader Matcher;
  Matcher_Dump : Matcher -> slice string * slice string;
  AdGuardMatcher : Type;
  NewAdGuardMatcher : list string -> AdGuardMatcher;
  AdGuardMatcher_Match : AdGuardMatcher -> string -> bool;
  AdGuardMatcher_Write : AdGuardMatcher -> outcome bytes;
  ReadAdGuardMatcher : reader AdGuardMatcher;
  AdGuardMatcher_Dump : AdGuardMatcher -> slice string;
  (** [go4.org/netipx] *)
  IPSetBuilder_IPSet : list builder_op -> outcome IPSet;
  IPSet_Contains : IPSet -> Addr -> bool;
  IPSet_Prefixes : IPSet -> list Prefix;
  (** [sing/common/json/badoption], [badjson] *)
  Prefixable_Build : option Prefix -> Prefix -> Prefix;
  TypedMap : Type -> Type -> Type;
  TypedMap_new : forall {K V}, TypedMap K V;
  TypedMap_Put : forall {K V}, EqDecision K -> K -> V -> TypedMap K V -> TypedMap K V;
  TypedMap_Entries : forall {K V}, TypedMap K V -> list (K * V);
  TypedMap_Size : forall {K V}, TypedMap K V -> Z;
  (** [github.com/miekg/dns] *)
  OtherRR : Type;
  CanonicalName : string -> string;
}.

(** The documented behaviour the codecs rely on. *)
Class ExternalLaws (X : External) := {
  AddrFromIP_slice : forall b, AddrFromIP b = AddrFromSlice b;
  WriteUvarint_put : forall x, is_uint64 x -> WriteUvarint x = PutUvarint x;
  zlib_roundtrip : forall b, zlib_NewReader (zlib_compress b) = Ok (Stream b EOF);
  ReadMatcher_Write : forall m b rest e,
    Matcher_Write m = Ok b -> ReadMatcher (Stream (b ++ rest) e) = Ok (m, Stream rest e);
  ReadMatcher_consumes : consumes 0 ReadMatcher;
  ReadMatcher_total : total ReadMatcher;
  ReadAdGuardMatcher_Write : forall m b rest e,
    AdGuardMatcher_Write m = Ok b -> ReadAdGuardMatcher (Stream (b ++ rest) e) = Ok (m, Stream rest e);
  ReadAdGuardMatcher_consumes : consumes 0 ReadAdGuardMatcher;
  ReadAdGuardMatcher_total : total ReadAdGuardMatcher;
  zlib_total : forall b, zlib_NewReader b <> Diverge;
  Prefixable_Build_some : forall p d, Prefixable_Build (Some p) d = p;
  TypedMap_Entries_Put : forall {K V} (eqd : EqDecision K) (l : list (K * V)),
    NoDup l.*1 -> TypedMap_Entries (fold_left (fun m e => TypedMap_Put eqd e.1 e.2 m) l TypedMap_new) = l;
  TypedMap_Size_Entries : forall {K V} (m : TypedMap K V), TypedMap_Size m = zlen (TypedMap_Entries m);
}.

Section ToLower.
Context {X : External}.

(** [strings.ToLower] *)
Definition ToLower (s : string) : string :=
  if is_ascii s then ascii_lower s else unicode_ToLower s.

(** [strings.EqualFold] *)
Definition EqualFold (s t : string) : bool :=
  if is_ascii s && is_ascii t then bool_decide (ascii_lower s = ascii_lower t)
  else unicode_EqualFold s t.

End ToLower.

Lemma AddrFromIP_AsSlice {X : External} {L : ExternalLaws X} a : addr_plain a -> AddrFromIP (AsSlice a) = a.
Proof.
  intros (Hwf & Hz & Hv). rewrite AddrFromIP_slice. destruct a as [v|v|v z]; [by rewrite Hv| |];
    unfold AddrFromSlice; cbn [AsSlice]; unfold zlen; rewrite length_be_bytes; cbn [Z.of_nat Z.eqb Pos.eqb];
    cbn in Hwf.
  - rewrite be_val_bytes by (cbn; lia). done.
  - rewrite be_val_bytes by (cbn; lia). cbn in Hz. by case_bool_decide; subst.
Qed.
