(* ===== verification/Concrete.v ===== *)
(** * A concrete instance of the external code

    Small executable functions with the documented behaviour of [External]: a
    domain matcher that stores its lists, IP sets as ranges, a compressor that
    stores its input.  They show that the laws can hold and let the witnesses
    evaluate the model. *)

From S2P Require Import Prelude GoStd Netip External.
Local Open Scope Z_scope.

(** ** Lists of strings, length-prefixed *)

Definition put_string (s : string) : bytes := PutUvarint (str_len s) ++ bytes_of_string s.
Definition put_strings (l : list string) : bytes := PutUvarint (zlen l) ++ concat (put_string <$> l).

Definition get_string : reader string := fun st =>
  let* (n, st) := ReadUvarint st in
  let* (b, st) := ReadFull n st in
  Ok (string_of_bytes b, st).
Definition get_strings : reader (list string) := fun st =>
  let* (n, st) := ReadUvarint st in
  read_n (S (length (avail st))) 0 n (fun _ => get_string) st.

Definition strings_ok (l : list string) : bool :=
  (zlen l <? 2 ^ 64) && forallb (fun s => str_len s <? 2 ^ 64) l.

Lemma get_string_put s rest e : str_len s < 2 ^ 64 -> get_string (Stream (put_string s ++ rest) e) = Ok (s, Stream rest e).
Proof.
  intros H. unfold get_string, put_string. rewrite <- app_assoc, ReadUvarint_Put
    by (unfold is_uint64, str_len in *; lia).
  cbn [obind]. rewrite ReadFull_app by (by rewrite length_bytes_of_string). cbn [obind].
  by rewrite string_of_bytes_of_string.
Qed.

Lemma length_PutUvarint_loop n x : (0 < n)%nat -> (0 < length (PutUvarint_loop n x))%nat.
Proof. destruct n; [lia|]. cbn [PutUvarint_loop]. intros _. destruct (128 <=? x); cbn; lia. Qed.

Lemma length_put_strings l : (length l <= length (concat (put_string <$> l)))%nat.
Proof.
  induction l as [|s l IH]; cbn [fmap list_fmap concat length]; [lia|].
  rewrite length_app. unfold put_string at 1. rewrite length_app.
  pose proof (length_PutUvarint_loop 10 (str_len s)). unfold PutUvarint. lia.
Qed.

Lemma get_strings_put l rest e :
  strings_ok l = true -> get_strings (Stream (put_strings l ++ rest) e) = Ok (l, Stream rest e).
Proof.
  intros H. unfold strings_ok in H. to_prop. rewrite forallb_forall in H0.
  unfold get_strings, put_strings. rewrite <- app_assoc.
  rewrite ReadUvarint_Put by (split; [apply zlen_nonneg|done]). cbn [obind].
  rewrite (read_n_encoded put_string id); [by rewrite list_fmap_id|lia| |].
  - cbn [avail]. rewrite length_app. pose proof (length_put_strings l). lia.
  - intros s j r Hs. apply get_string_put. apply list_elem_of_In in Hs.
    specialize (H0 s Hs). by to_prop.
Qed.

Lemma get_string_consumes : consumes 1 get_string.
Proof.
  intros st a st' H. unfold get_string in H. inv_ok.
  apply ReadUvarint_consumes in E. apply ReadFull_consumes0 in E0. lia.
Qed.

Lemma get_string_total : total get_string.
Proof.
  apply (total_bind ReadUvarint (fun n st => let* (b, st) := ReadFull n st in Ok (string_of_bytes b, st)));
    [apply ReadUvarint_total|]. intros n.
  apply (total_bind (ReadFull n) (fun b st => Ok (string_of_bytes b, st)));
    [apply ReadFull_total|intros b; apply total_ret].
Qed.

Lemma get_strings_consumes : consumes 1 get_strings.
Proof.
  intros st a st' H. unfold get_strings in H. inv_ok.
  apply ReadUvarint_consumes in E. apply read_n_consumes in H; [lia|].
  intros _. eapply consumes_weaken; [|apply get_string_consumes]. lia.
Qed.

Lemma get_strings_total : total get_strings.
Proof.
  intros st. unfold get_strings. pose proof (ReadUvarint_total st).
  destruct (ReadUvarint st) as [[n st1]| | |]; try done. cbn [obind].
  apply read_n_total; [intros _; apply get_string_consumes|intros _; apply get_string_total|lia].
Qed.

(** ** Domain matchers *)

Definition has_suffix (h s : string) : bool :=
  bool_decide (drop (length (bytes_of_string h) - length (bytes_of_string s)) (bytes_of_string h) = bytes_of_string s).
Definition domain_match (m : list string * list string) (h : string) : bool :=
  bool_decide (h ∈ m.1) || existsb (fun s => bool_decide (h = s) || has_suffix h ("." +:+ s)) m.2.
Definition write_matcher (m : list string * list string) : outcome bytes :=
  if strings_ok m.1 && strings_ok m.2 then Ok (put_strings m.1 ++ put_strings m.2)
  else Err (EExternal "too long").
Definition read_matcher : reader (list string * list string) := fun st =>
  let* (a, st) := get_strings st in
  let* (b, st) := get_strings st in
  Ok ((a, b), st).

Definition write_adguard (m : list string) : outcome bytes :=
  if strings_ok m then Ok (put_strings m) else Err (EExternal "too long").

(** ** IP sets *)

Definition op_range (o : builder_op) : outcome IPRange :=
  match o with
  | AddAddr a => if IsValid a then Ok (MkIPRange a a) else Err (EExternal "invalid address")
  | AddPrefix (MkPrefix a bits) =>
      if negb (PrefixIsValid (MkPrefix a bits)) || (BitLen a <? bits) then Err (EExternal "invalid prefix")
      else
        let host := 2 ^ (BitLen a - bits) in
        let lo := addr_val a / host * host in
        match a with
        | Addr4 _ => Ok (MkIPRange (Addr4 lo) (Addr4 (lo + host - 1)))
        | Addr6 _ _ => Ok (MkIPRange (Addr6 lo "") (Addr6 (lo + host - 1) ""))
        | AddrInvalid _ => Err (EExternal "invalid prefix")
        end
  end.
Definition in_ip_range (a : Addr) (r : IPRange) : bool :=
  (BitLen a =? BitLen (from r)) && IsValid a && negb (has_zone a) && (addr_val (from r) <=? addr_val a) && (addr_val a <=? addr_val (to r)).

Fixpoint typed_put {K V} (eqd : EqDecision K) (k : K) (v : V) (m : list (K * V)) : list (K * V) :=
  match m with
  | [] => [(k, v)]
  | (k', v') :: m' => if eqd k k' then (k, v) :: m' else (k', v') :: typed_put eqd k v m'
  end.

#[export] Instance concrete : External := {|
  Regexp := string;
  Regexp_eq_dec := _;
  regexp_Compile := fun s => Ok s;
  MatchString := fun re s => StrContains s re;
  unicode_ToLower := fun s => s;
  unicode_EqualFold := fun s t => bool_decide (s = t);
  zlib_NewReader := fun b => Ok (Stream b EOF);
  zlib_compress := fun b => b;
  AddrFromIP := AddrFromSlice;
  Socksaddr_IsIP := fun sa => IsValid (sa_Addr sa);
  Socksaddr_IsIPv6 := fun sa => Is6 (sa_Addr sa);
  IsPublicAddr := fun a => negb (Contains (MkPrefix (Addr4 (10 * 2 ^ 24)) 8) a);
  WriteUvarint := PutUvarint;
  Matcher := list string * list string;
  NewMatcher := fun d s _ => (d, s);
  Matcher_Match := domain_match;
  Matcher_Write := write_matcher;
  ReadMatcher := read_matcher;
  Matcher_Dump := fun m => (Some m.1, Some m.2);
  AdGuardMatcher := list string;
  NewAdGuardMatcher := fun l => l;
  AdGuardMatcher_Match := fun m h => bool_decide (h ∈ m);
  AdGuardMatcher_Write := write_adguard;
  ReadAdGuardMatcher := get_strings;
  AdGuardMatcher_Dump := fun m => Some m;
  IPSetBuilder_IPSet := fun ops => omap_ix (fun _ => op_range) ops;
  IPSet_Contains := fun s a => existsb (in_ip_range a) s;
  IPSet_Prefixes := fun s => (fun r => PrefixFrom (from r) (BitLen (from r))) <$> s;
  Prefixable_Build := fun p d => default d p;
  TypedMap := fun K V => list (K * V);
  TypedMap_new := fun K V => [];
  TypedMap_Put := @typed_put;
  TypedMap_Entries := fun K V m => m;
  TypedMap_Size := fun K V m => zlen m;
  OtherRR := unit;
  CanonicalName := fun s => s +:+ "."
|}.

Lemma typed_put_fresh {K V} (eqd : EqDecision K) (k : K) (v : V) m : k ∉ m.*1 -> typed_put eqd k v m = m ++ [(k, v)].
Proof.
  induction m as [|[k' v'] m IH]; cbn; intros Hk; [done|]. apply not_elem_of_cons in Hk as [Hne Hk].
  destruct (eqd k k'); [done|]. by rewrite IH.
Qed.

Lemma typed_put_all {K V} (eqd : EqDecision K) (l acc : list (K * V)) :
  NoDup (acc ++ l).*1 -> fold_left (fun m e => typed_put eqd e.1 e.2 m) l acc = acc ++ l.
Proof.
  revert acc. induction l as [|[k v] l IH]; intros acc Hd; cbn; [by rewrite app_nil_r|].
  rewrite typed_put_fresh.
  - rewrite IH; rewrite <- app_assoc; done.
  - rewrite fmap_app in Hd. apply NoDup_app in Hd as (_ & Hx & _). intros Hin. apply (Hx k Hin). by left.
Qed.

#[export] Instance concrete_laws : ExternalLaws concrete.
Proof.
  constructor; cbn; try done.
  - intros [d s] b rest e H. unfold write_matcher in H; cbn [fst snd] in H.
    destruct (strings_ok d && strings_ok s) eqn:Hok; [|discriminate]. to_prop. inv_ok.
    unfold read_matcher. rewrite <- app_assoc, get_strings_put by done. cbn [obind].
    by rewrite get_strings_put.
  - intros st [a b] st' H. unfold read_matcher in H. inv_ok.
    apply get_strings_consumes in E, E0. lia.
  - intros st. unfold read_matcher. pose proof (get_strings_total st).
    destruct (get_strings st) as [[a st1]| | |]; try done. cbn [obind].
    pose proof (get_strings_total st1). by destruct (get_strings st1) as [[]| | |].
  - intros m b rest e H. unfold write_adguard in H. destruct (strings_ok m) eqn:Hok; [|discriminate].
    inv_ok. by rewrite get_strings_put.
  - eapply consumes_weaken; [|apply get_strings_consumes]. lia.
  - apply get_strings_total.
  - intros K V eqd l Hd. by apply (typed_put_all eqd l []).
Qed.
