(* ===== verification/DnsMsg.v ===== *)
(** * DNS messages

    The message types of [github.com/miekg/dns] with the fields the repository reads
    and writes: records by type with their header, EDNS0 options, the message with
    its header and sections.  Functions of the package are the class [DnsLib].

    A record is a pointer in Go; the code copies a message before it changes one that
    others may hold, so records are values here.  The records of a message that was
    unpacked or built are not nil. *)

From S2P Require Import Prelude GoStd Netip External.
Local Open Scope Z_scope.

(** ** Constants of the package *)

Definition TypeA : Z := 1.
Definition TypeCNAME : Z := 5.
Definition TypeAAAA : Z := 28.
Definition TypeOPT : Z := 41.
Definition TypeHTTPS : Z := 65.
Definition ClassINET : Z := 1.
Definition RcodeSuccess : Z := 0.
Definition RcodeFormatError : Z := 1.
Definition RcodeServerFailure : Z := 2.
Definition RcodeNameError : Z := 3.
Definition RcodeRefused : Z := 5.
Definition EDNS0SUBNET : Z := 8.
Definition EDNS0PADDING : Z := 12.
Definition SVCB_IPV4HINT : Z := 4.
Definition SVCB_IPV6HINT : Z := 6.

(** ** Records *)

Record Question := MkQuestion { q_Name : string; q_Qtype : Z; q_Qclass : Z }.

#[export] Instance Question_eq_dec : EqDecision Question.
Proof. solve_decision. Defined.
#[export] Instance Question_countable : Countable Question.
Proof.
  apply (inj_countable' (fun q => (q_Name q, q_Qtype q, q_Qclass q)) (fun '(n, t, c) => MkQuestion n t c)).
  by intros [].
Defined.

(** [dns.RR_Header] *)
Record RR_Header := MkHeader { Hdr_Name : string; Rrtype : Z; Hdr_Class : Z; Ttl : Z }.

#[export] Instance RR_Header_eq_dec : EqDecision RR_Header.
Proof. solve_decision. Defined.

(** The values of an HTTPS record: the address hints, and others by their key. *)
Inductive SVCBValue :=
| SVCBIPv4Hint (hint : list bytes)
| SVCBIPv6Hint (hint : list bytes)
| SVCBOther (key : Z) (value : bytes).

Definition SVCB_Key (v : SVCBValue) : Z :=
  match v with
  | SVCBIPv4Hint _ => SVCB_IPV4HINT
  | SVCBIPv6Hint _ => SVCB_IPV6HINT
  | SVCBOther key _ => key
  end.

(** EDNS0 options: the client subnet, and others by their code. *)
Record EDNS0_SUBNET := MkSubnet {
  sub_Code : Z;
  sub_Family : Z;
  sub_SourceNetmask : Z;
  sub_SourceScope : Z;
  sub_Address : bytes
}.

Inductive EDNS0 := SubnetOption (s : EDNS0_SUBNET) | OtherOption (code : Z) (data : bytes).

Definition EDNS0_Option (o : EDNS0) : Z :=
  match o with SubnetOption _ => EDNS0SUBNET | OtherOption code _ => code end.

#[export] Instance EDNS0_SUBNET_eq_dec : EqDecision EDNS0_SUBNET.
Proof. solve_decision. Defined.
#[export] Instance EDNS0_eq_dec : EqDecision EDNS0.
Proof. solve_decision. Defined.

Section Messages.
Context {X : External}.

(** The record types the repository distinguishes. *)
Inductive RR :=
| RR_A (h : RR_Header) (a : bytes)
| RR_AAAA (h : RR_Header) (aaaa : bytes)
| RR_CNAME (h : RR_Header) (target : string)
| RR_TXT (h : RR_Header) (txt : list string)
| RR_MX (h : RR_Header) (preference : Z) (mx : string)
| RR_SOA (h : RR_Header) (minttl : Z) (rest : OtherRR)
| RR_HTTPS (h : RR_Header) (priority : Z) (target : string) (value : list SVCBValue)
| RR_OPT (h : RR_Header) (options : list EDNS0)
| RR_other (h : RR_Header) (rest : OtherRR).

(** The method [Header], and the assignment through the pointer it returns. *)
Definition Header (r : RR) : RR_Header :=
  match r with
  | RR_A h _ | RR_AAAA h _ | RR_CNAME h _ | RR_TXT h _ | RR_MX h _ _ | RR_SOA h _ _ | RR_HTTPS h _ _ _
  | RR_OPT h _ | RR_other h _ => h
  end.
Definition set_Header (h : RR_Header) (r : RR) : RR :=
  match r with
  | RR_A _ a => RR_A h a
  | RR_AAAA _ a => RR_AAAA h a
  | RR_CNAME _ t => RR_CNAME h t
  | RR_TXT _ t => RR_TXT h t
  | RR_MX _ p m => RR_MX h p m
  | RR_SOA _ m o => RR_SOA h m o
  | RR_HTTPS _ p t v => RR_HTTPS h p t v
  | RR_OPT _ o => RR_OPT h o
  | RR_other _ o => RR_other h o
  end.
Definition set_Ttl (ttl : Z) (r : RR) : RR :=
  let h := Header r in set_Header (MkHeader (Hdr_Name h) (Rrtype h) (Hdr_Class h) ttl) r.
Definition set_Name (name : string) (r : RR) : RR :=
  let h := Header r in set_Header (MkHeader name (Rrtype h) (Hdr_Class h) (Ttl h)) r.

Lemma Header_set_Header h r : Header (set_Header h r) = h.
Proof. by destruct r. Qed.

(** ** Messages *)

Record MsgHdr := MkMsgHdr {
  Id : Z;
  Response : bool;
  Opcode : Z;
  Authoritative : bool;
  Truncated : bool;
  RecursionDesired : bool;
  RecursionAvailable : bool;
  AuthenticatedData : bool;
  CheckingDisabled : bool;
  hdr_Rcode : Z
}.

Record Msg := MkMsg { Hdr : MsgHdr; Questions : list Question; Answer : list RR; Ns : list RR; Extra : list RR }.

Definition Rcode (m : Msg) : Z := hdr_Rcode (Hdr m).

Definition set_Id (id : Z) (m : Msg) : Msg :=
  let h := Hdr m in
  MkMsg (MkMsgHdr id (Response h) (Opcode h) (Authoritative h) (Truncated h) (RecursionDesired h)
           (RecursionAvailable h) (AuthenticatedData h) (CheckingDisabled h) (hdr_Rcode h))
    (Questions m) (Answer m) (Ns m) (Extra m).
Definition set_Answer (l : list RR) (m : Msg) : Msg := MkMsg (Hdr m) (Questions m) l (Ns m) (Extra m).
Definition set_Extra (l : list RR) (m : Msg) : Msg := MkMsg (Hdr m) (Questions m) (Answer m) (Ns m) l.

(** The three sections, in the order the loops of the repository visit them. *)
Definition sections (m : Msg) : list RR := Answer m ++ Ns m ++ Extra m.
Definition map_sections (f : RR -> RR) (m : Msg) : Msg :=
  MkMsg (Hdr m) (Questions m) (f <$> Answer m) (f <$> Ns m) (f <$> Extra m).

Lemma sections_map f m : sections (map_sections f m) = f <$> sections m.
Proof. unfold sections, map_sections. cbn. by rewrite !fmap_app. Qed.
End Messages.

(** ** Functions of the package *)

Class DnsLib {X : External} := {
  dns_Fqdn : string -> string;
  dns_IsFqdn : string -> bool;
  Msg_Pack : Msg -> outcome bytes;
  Msg_Unpack : bytes -> outcome Msg;
  (** [IsEdns0] with the EDNS version of the record it returns *)
  Msg_IsEdns0 : Msg -> option RR;
  OPT_Version : RR -> Z;
  OPT_UDPSize : RR -> Z;
  OPT_Do : RR -> bool;
  Msg_SetEdns0 : Msg -> Z -> bool -> Msg;
  Msg_Len : Msg -> Z;
  Msg_Truncate : Msg -> Z -> Msg
}.
