(* ===== verification/RuleItems.v ===== *)
(** * Connection metadata and rule items

    [adapter.InboundContext] with the fields the rules read and write, the data
    of every rule item of route/rule, its constructor ([New...Item]) and its
    [Match].  The descriptions returned by [String] are not modelled. *)

From S2P Require Import Prelude GoStd Netip External DnsMsg.
From Stdlib Require Import Ascii.
Local Open Scope Z_scope.

Section Items.
Context {X : External}.

(** ** Metadata *)

(** [adapter.ConnectionOwner] *)
Record ConnectionOwner := {
  ProcessPath : string;
  UserName : string;
  UserId : Z;
  AndroidPackageNames : list string
}.

(** [adapter.InboundContext]: the fields the rules use. *)
Record InboundContext := {
  md_Inbound : string;
  md_IPVersion : Z;
  md_Network : string;
  md_Source : Socksaddr;
  md_Destination : Socksaddr;
  md_User : string;
  md_Outbound : string;
  md_Protocol : string;
  md_Domain : string;
  md_Client : string;
  md_DestinationAddresses : list Addr;
  md_DNSResponse : option Msg;
  md_NamedDNSResponses : gmap string (option Msg);
  md_DestinationAddressMatchFromResponse : bool;
  md_ProcessInfo : option ConnectionOwner;
  md_SourceMACAddress : slice Z;
  md_SourceHostname : string;
  md_QueryType : Z;
  md_PreMatch : bool;
  md_IPCIDRMatchSource : bool;
  md_IPCIDRAcceptEmpty : bool;
  md_SourceAddressMatch : bool;
  md_SourcePortMatch : bool;
  md_DestinationAddressMatch : bool;
  md_DestinationPortMatch : bool;
  md_DidMatch : bool;
  md_IgnoreDestinationIPCIDRMatch : bool
}.

(** The assignment [metadata.DidMatch = b]. *)
Definition set_DidMatch (md : InboundContext) (b : bool) : InboundContext :=
  {| md_Inbound := md_Inbound md;
     md_IPVersion := md_IPVersion md;
     md_Network := md_Network md;
     md_Source := md_Source md;
     md_Destination := md_Destination md;
     md_User := md_User md;
     md_Outbound := md_Outbound md;
     md_Protocol := md_Protocol md;
     md_Domain := md_Domain md;
     md_Client := md_Client md;
     md_DestinationAddresses := md_DestinationAddresses md;
     md_DNSResponse := md_DNSResponse md;
     md_NamedDNSResponses := md_NamedDNSResponses md;
     md_DestinationAddressMatchFromResponse := md_DestinationAddressMatchFromResponse md;
     md_ProcessInfo := md_ProcessInfo md;
     md_SourceMACAddress := md_SourceMACAddress md;
     md_SourceHostname := md_SourceHostname md;
     md_QueryType := md_QueryType md;
     md_PreMatch := md_PreMatch md;
     md_IPCIDRMatchSource := md_IPCIDRMatchSource md;
     md_IPCIDRAcceptEmpty := md_IPCIDRAcceptEmpty md;
     md_SourceAddressMatch := md_SourceAddressMatch md;
     md_SourcePortMatch := md_SourcePortMatch md;
     md_DestinationAddressMatch := md_DestinationAddressMatch md;
     md_DestinationPortMatch := md_DestinationPortMatch md;
     md_DidMatch := b;
     md_IgnoreDestinationIPCIDRMatch := md_IgnoreDestinationIPCIDRMatch md |}.

(** The assignment [metadata.IgnoreDestinationIPCIDRMatch = b]. *)
Definition set_IgnoreDestinationIPCIDRMatch (md : InboundContext) (b : bool) : InboundContext :=
  {| md_Inbound := md_Inbound md;
     md_IPVersion := md_IPVersion md;
     md_Network := md_Network md;
     md_Source := md_Source md;
     md_Destination := md_Destination md;
     md_User := md_User md;
     md_Outbound := md_Outbound md;
     md_Protocol := md_Protocol md;
     md_Domain := md_Domain md;
     md_Client := md_Client md;
     md_DestinationAddresses := md_DestinationAddresses md;
     md_DNSResponse := md_DNSResponse md;
     md_NamedDNSResponses := md_NamedDNSResponses md;
     md_DestinationAddressMatchFromResponse := md_DestinationAddressMatchFromResponse md;
     md_ProcessInfo := md_ProcessInfo md;
     md_SourceMACAddress := md_SourceMACAddress md;
     md_SourceHostname := md_SourceHostname md;
     md_QueryType := md_QueryType md;
     md_PreMatch := md_PreMatch md;
     md_IPCIDRMatchSource := md_IPCIDRMatchSource md;
     md_IPCIDRAcceptEmpty := md_IPCIDRAcceptEmpty md;
     md_SourceAddressMatch := md_SourceAddressMatch md;
     md_SourcePortMatch := md_SourcePortMatch md;
     md_DestinationAddressMatch := md_DestinationAddressMatch md;
     md_DestinationPortMatch := md_DestinationPortMatch md;
     md_DidMatch := md_DidMatch md;
     md_IgnoreDestinationIPCIDRMatch := b |}.

(** The assignments of [DNSResponse] and [DestinationAddressMatchFromResponse] that
    prepare a match against a response. *)
Definition set_response (md : InboundContext) (r : option Msg) : InboundContext :=
  {| md_Inbound := md_Inbound md;
     md_IPVersion := md_IPVersion md;
     md_Network := md_Network md;
     md_Source := md_Source md;
     md_Destination := md_Destination md;
     md_User := md_User md;
     md_Outbound := md_Outbound md;
     md_Protocol := md_Protocol md;
     md_Domain := md_Domain md;
     md_Client := md_Client md;
     md_DestinationAddresses := md_DestinationAddresses md;
     md_DNSResponse := r;
     md_NamedDNSResponses := md_NamedDNSResponses md;
     md_DestinationAddressMatchFromResponse := true;
     md_ProcessInfo := md_ProcessInfo md;
     md_SourceMACAddress := md_SourceMACAddress md;
     md_SourceHostname := md_SourceHostname md;
     md_QueryType := md_QueryType md;
     md_PreMatch := md_PreMatch md;
     md_IPCIDRMatchSource := md_IPCIDRMatchSource md;
     md_IPCIDRAcceptEmpty := md_IPCIDRAcceptEmpty md;
     md_SourceAddressMatch := md_SourceAddressMatch md;
     md_SourcePortMatch := md_SourcePortMatch md;
     md_DestinationAddressMatch := md_DestinationAddressMatch md;
     md_DestinationPortMatch := md_DestinationPortMatch md;
     md_DidMatch := md_DidMatch md;
     md_IgnoreDestinationIPCIDRMatch := md_IgnoreDestinationIPCIDRMatch md |}.

(** The assignments of [IPCIDRMatchSource] and [IPCIDRAcceptEmpty]. *)
Definition set_cidr_flags (md : InboundContext) (src acceptEmpty : bool) : InboundContext :=
  {| md_Inbound := md_Inbound md;
     md_IPVersion := md_IPVersion md;
     md_Network := md_Network md;
     md_Source := md_Source md;
     md_Destination := md_Destination md;
     md_User := md_User md;
     md_Outbound := md_Outbound md;
     md_Protocol := md_Protocol md;
     md_Domain := md_Domain md;
     md_Client := md_Client md;
     md_DestinationAddresses := md_DestinationAddresses md;
     md_DNSResponse := md_DNSResponse md;
     md_NamedDNSResponses := md_NamedDNSResponses md;
     md_DestinationAddressMatchFromResponse := md_DestinationAddressMatchFromResponse md;
     md_ProcessInfo := md_ProcessInfo md;
     md_SourceMACAddress := md_SourceMACAddress md;
     md_SourceHostname := md_SourceHostname md;
     md_QueryType := md_QueryType md;
     md_PreMatch := md_PreMatch md;
     md_IPCIDRMatchSource := src;
     md_IPCIDRAcceptEmpty := acceptEmpty;
     md_SourceAddressMatch := md_SourceAddressMatch md;
     md_SourcePortMatch := md_SourcePortMatch md;
     md_DestinationAddressMatch := md_DestinationAddressMatch md;
     md_DestinationPortMatch := md_DestinationPortMatch md;
     md_DidMatch := md_DidMatch md;
     md_IgnoreDestinationIPCIDRMatch := md_IgnoreDestinationIPCIDRMatch md |}.

(** [InboundContext.ResetRuleMatchCache] *)
Definition ResetRuleMatchCache (md : InboundContext) : InboundContext :=
  {| md_Inbound := md_Inbound md;
     md_IPVersion := md_IPVersion md;
     md_Network := md_Network md;
     md_Source := md_Source md;
     md_Destination := md_Destination md;
     md_User := md_User md;
     md_Outbound := md_Outbound md;
     md_Protocol := md_Protocol md;
     md_Domain := md_Domain md;
     md_Client := md_Client md;
     md_DestinationAddresses := md_DestinationAddresses md;
     md_DNSResponse := md_DNSResponse md;
     md_NamedDNSResponses := md_NamedDNSResponses md;
     md_DestinationAddressMatchFromResponse := md_DestinationAddressMatchFromResponse md;
     md_ProcessInfo := md_ProcessInfo md;
     md_SourceMACAddress := md_SourceMACAddress md;
     md_SourceHostname := md_SourceHostname md;
     md_QueryType := md_QueryType md;
     md_PreMatch := md_PreMatch md;
     md_IPCIDRMatchSource := md_IPCIDRMatchSource md;
     md_IPCIDRAcceptEmpty := md_IPCIDRAcceptEmpty md;
     md_SourceAddressMatch := false;
     md_SourcePortMatch := false;
     md_DestinationAddressMatch := false;
     md_DestinationPortMatch := false;
     md_DidMatch := false;
     md_IgnoreDestinationIPCIDRMatch := md_IgnoreDestinationIPCIDRMatch md |}.

(** [InboundContext.ResetRuleCache] *)
Definition ResetRuleCache (md : InboundContext) : InboundContext :=
  ResetRuleMatchCache (set_cidr_flags md false false).

(** [adapter.DNSResponseAddresses]: the valid addresses of the A, AAAA and HTTPS
    answers of a successful response, in order. *)
Definition valid_addr (a : Addr) : list Addr := if IsValid a then [a] else [].
Definition svcb_addresses (v : SVCBValue) : list Addr :=
  match v with
  | SVCBIPv4Hint hint => concat ((fun ip => valid_addr (Unmap (AddrFromIP ip))) <$> hint)
  | SVCBIPv6Hint hint => concat ((fun ip => valid_addr (AddrFromIP ip)) <$> hint)
  | SVCBOther _ _ => []
  end.
Definition rr_addresses (r : RR) : list Addr :=
  match r with
  | RR_A _ a => valid_addr (AddrFromIP a)
  | RR_AAAA _ a => valid_addr (AddrFromIP a)
  | RR_HTTPS _ _ _ value => concat (svcb_addresses <$> value)
  | _ => []
  end.
Definition DNSResponseAddresses (response : option Msg) : list Addr :=
  match response with
  | None => []
  | Some m => if negb (Rcode m =? 0) then [] else concat (rr_addresses <$> Answer m)
  end.
Definition DNSResponseAddressesForMatch (md : InboundContext) : list Addr :=
  DNSResponseAddresses (md_DNSResponse md).

(** ** The environment a match consults

    The network manager, the interface monitor, the Clash server and the
    preferred-route queries of outbounds and DNS servers.  Of the metadata they
    are given, the implementations of [PreferredDomain] and [PreferredAddress]
    (protocol/bridge, openconnect, openvpn, tailscale, wireguard) read [PreMatch]
    only. *)
Record Interface := { if_Name : string; if_Addresses : list Prefix }.
Record NetworkInterface := {
  ni_Interface : Interface;
  ni_Type : Z;
  ni_Expensive : bool;
  ni_Constrained : bool
}.
Record World := {
  w_IsAndroid : bool;
  w_ClashMode : string;
  w_DefaultNetworkInterface : option NetworkInterface;
  w_SSID : string;
  w_BSSID : string;
  w_Interfaces : list Interface;
  w_NetworkInterfaces : list NetworkInterface;
  w_MyInterfaces : list string;
  w_DefaultInterface : option Interface;
  w_PreferredDomain : string -> string -> bool;
  w_PreferredAddress : string -> bool -> Addr -> bool;
  w_DNSPreferredDomain : string -> string -> bool;
  w_IsDuplicate : RR -> RR -> bool
}.

(** ** Items *)

Record rangeItem := { start : Z; end_ : Z }.

Inductive RuleItem :=
| InboundItem (inbounds : list string) (inboundMap : gmap string bool)
| IPVersionItem (isIPv6 : bool)
| NetworkItem (networks : list string) (networkMap : gmap string bool)
| AuthUserItem (users : list string) (userMap : gmap string bool)
| ProtocolItem (protocols : list string) (protocolMap : gmap string bool)
| ClientItem (clients : list string) (clientMap : gmap string bool)
| DomainItem (matcher : Matcher)
| DomainKeywordItem (keywords : list string)
| DomainRegexItem (matchers : list Regexp)
| IPCIDRItem (ipSet : IPSet) (isSource : bool)
| IPIsPrivateItem (isSource : bool)
| IPAcceptAnyItem
| PortItem (ports : list Z) (portMap : gmap Z bool) (isSource : bool)
| PortRangeItem (isSource : bool) (portRanges : list string) (portRangeList : list rangeItem)
| ProcessItem (processes : list string) (processMap : gmap string bool)
| ProcessPathItem (processes : list string) (processMap : gmap string bool)
| ProcessPathRegexItem (matchers : list Regexp)
| PackageNameItem (packageNames : list string) (packageMap : gmap string bool)
| PackageNameRegexItem (matchers : list Regexp)
| UserItem (users : list string) (userMap : gmap string bool)
| UserIdItem (userIds : list Z) (userIdMap : gmap Z bool)
| OutboundItem (outbounds : list string) (outboundMap : gmap string bool) (matchAny : bool)
| ClashModeItem (clashServer : bool) (mode : string)
| NetworkTypeItem (networkType : list Z)
| NetworkIsExpensiveItem
| NetworkIsConstrainedItem
| WIFISSIDItem (ssidList : list string) (ssidMap : gmap string bool)
| WIFIBSSIDItem (bssidList : list string) (bssidMap : gmap string bool)
| InterfaceAddressItem (interfaceAddresses : gmap string (list Prefix))
| NetworkInterfaceAddressItem (interfaceAddresses : gmap Z (list Prefix))
| DefaultInterfaceAddressItem (interfaceAddresses : list Prefix)
| SourceMACAddressItem (addresses : list string) (addressMap : gmap string bool)
| SourceHostnameItem (hostnames : list string) (hostnameMap : gmap string bool)
| PreferredByItem (outboundTags outbounds : list string)
| PreferredByDNSItem (transportTags transports : list string)
| QueryTypeItem (typeList : list Z) (typeMap : gmap Z bool)
| DNSResponseRCodeItem (rcode : Z)
| DNSResponseRecordItem (field : string) (records : list (option RR)) (selector : Msg -> list RR)
| AdGuardDomainItem (matcher : AdGuardMatcher).

(** *** Constructors *)

(** [m := make(map[K]bool); for _, x := range l { m[x] = true }] *)
Definition set_of {K} `{Countable K} (l : list K) : gmap K bool :=
  fold_left (fun m x => <[x := true]> m) l ∅.

(** [m[x]] of a [map[K]bool]: false when absent. *)
Definition map_get {K} `{Countable K} (m : gmap K bool) (x : K) : bool := default false (m !! x).

Definition NewInboundRule (inbounds : list string) := InboundItem inbounds (set_of inbounds).
Definition NewIPVersionItem (isIPv6 : bool) := IPVersionItem isIPv6.
Definition NewNetworkItem (networks : list string) := NetworkItem networks (set_of networks).
Definition NewAuthUserItem (users : list string) := AuthUserItem users (set_of users).
Definition NewProtocolItem (protocols : list string) := ProtocolItem protocols (set_of protocols).
Definition NewClientItem (clients : list string) := ClientItem clients (set_of clients).

Definition NewDomainItem (domains domainSuffixes : list string) : outcome RuleItem :=
  if bool_decide ("" ∈ domains) then Err (ENew "domain: empty item is not allowed")
  else if bool_decide ("" ∈ domainSuffixes) then Err (ENew "domain_suffix: empty item is not allowed")
  else Ok (DomainItem (NewMatcher domains domainSuffixes false)).
Definition NewRawDomainItem (m : Matcher) := DomainItem m.
Definition NewDomainKeywordItem (keywords : list string) := DomainKeywordItem keywords.

(** The compilation loop shared by the three regular-expression items. *)
Definition compile_all (expressions : list string) : outcome (list Regexp) :=
  omap_ix (fun i regex =>
    wrap_err (fun e => ECause e ("parse expression " +:+ pretty i)) (regexp_Compile regex)) expressions.
Definition NewDomainRegexItem (expressions : list string) : outcome RuleItem :=
  let* matchers := compile_all expressions in Ok (DomainRegexItem matchers).
Definition NewProcessPathRegexItem (expressions : list string) : outcome RuleItem :=
  let* matchers := compile_all expressions in Ok (ProcessPathRegexItem matchers).
Definition NewPackageNameRegexItem (expressions : list string) : outcome RuleItem :=
  let* matchers := compile_all expressions in Ok (PackageNameRegexItem matchers).

(** The parsing loop of [NewIPCIDRItem]: a prefix, else an address, else the
    prefix error. *)
Definition parse_cidr (i : Z) (s : string) : outcome builder_op :=
  match ParsePrefix s with
  | Ok p => Ok (AddPrefix p)
  | Err err =>
      match ParseAddr s with
      | Ok a => Ok (AddAddr a)
      | _ => Err (ECause err ("parse [" +:+ pretty i +:+ "]"))
      end
  | Panic m => Panic m
  | Diverge => Diverge
  end.
Definition NewIPCIDRItem (isSource : bool) (prefixStrings : list string) : outcome RuleItem :=
  let* ops := omap_ix parse_cidr prefixStrings in
  let* ipSet := IPSetBuilder_IPSet ops in
  Ok (IPCIDRItem ipSet isSource).
Definition NewRawIPCIDRItem (isSource : bool) (ipSet : IPSet) := IPCIDRItem ipSet isSource.
Definition NewIPIsPrivateItem (isSource : bool) := IPIsPrivateItem isSource.
Definition NewIPAcceptAnyItem := IPAcceptAnyItem.
Definition NewPortItem (isSource : bool) (ports : list Z) := PortItem ports (set_of ports) isSource.

(** One range of [NewPortRangeItem]: ["start:end"], either side may be empty. *)
Definition ErrBadPortRange (portRange : string) : error := ECause (ENew "bad port range") portRange.
Definition parse_port_range (portRange : string) : outcome rangeItem :=
  match str_cut ":"%char portRange with
  | None => Err (ErrBadPortRange portRange)
  | Some (l, r) =>
      let* start := (if bool_decide (l = "") then Ok 0
                     else wrap_err (fun e => ECause e ("bad port range: " +:+ portRange)) (ParseUint l 16)) in
      let* end_ := (if bool_decide (r = "") then Ok 0xFFFF
                    else wrap_err (fun e => ECause e ("bad port range: " +:+ portRange)) (ParseUint r 16)) in
      Ok {| start := uint 16 start; end_ := uint 16 end_ |}
  end.
Definition NewPortRangeItem (isSource : bool) (rangeList : list string) : outcome RuleItem :=
  let* l := omap_ix (fun _ => parse_port_range) rangeList in
  Ok (PortRangeItem isSource rangeList l).

Definition NewProcessItem (l : list string) := ProcessItem l (set_of l).
Definition NewProcessPathItem (l : list string) := ProcessPathItem l (set_of l).
Definition NewPackageNameItem (l : list string) := PackageNameItem l (set_of l).
Definition NewUserItem (l : list string) := UserItem l (set_of l).
Definition NewUserIDItem (l : list Z) := UserIdItem l (set_of l).
Definition NewOutboundRule (outbounds : list string) : RuleItem :=
  OutboundItem outbounds (set_of (filter (fun o => o <> "any") outbounds))
    (bool_decide ("any" ∈ outbounds)).
Definition NewClashModeItem (mode : string) := ClashModeItem false mode.
Definition NewNetworkTypeItem (networkType : list Z) := NetworkTypeItem networkType.
Definition NewWIFISSIDItem (l : list string) := WIFISSIDItem l (set_of l).

(** [adapter.NormalizeWIFIBSSID] *)
Definition NormalizeWIFIBSSID (bssid0 : string) : string :=
  let bssid := TrimSpace bssid0 in
  if bool_decide (bssid = "") then ""
  else
    let fallback :=
      if str_len bssid =? 12 then
        match hex_decode (bytes_of_string bssid) with
        | Some decoded => HardwareAddr_String decoded
        | None => bssid
        end
      else bssid in
    match ParseMAC bssid with
    | Some parsed => if zlen parsed =? 6 then HardwareAddr_String parsed else fallback
    | None => fallback
    end.
Definition NewWIFIBSSIDItem (l : list string) := WIFIBSSIDItem l (set_of (NormalizeWIFIBSSID <$> l)).

Definition build_prefixes (l : slice (option Prefix)) : list Prefix :=
  (fun p => Prefixable_Build p prefix_zero) <$> elems l.
Definition NewInterfaceAddressItem (m : TypedMap string (slice (option Prefix))) : RuleItem :=
  InterfaceAddressItem (fold_left (fun acc kv => <[kv.1 := build_prefixes kv.2]> acc) (TypedMap_Entries m) ∅).
Definition NewNetworkInterfaceAddressItem (m : TypedMap Z (slice (option Prefix))) : RuleItem :=
  NetworkInterfaceAddressItem (fold_left (fun acc kv => <[kv.1 := build_prefixes kv.2]> acc) (TypedMap_Entries m) ∅).
Definition NewDefaultInterfaceAddressItem (l : slice (option Prefix)) : RuleItem :=
  DefaultInterfaceAddressItem (build_prefixes l).

Definition normalize_mac (address : string) : string :=
  match ParseMAC address with Some parsed => HardwareAddr_String parsed | None => address end.
Definition NewSourceMACAddressItem (l : list string) := SourceMACAddressItem l (set_of (normalize_mac <$> l)).
Definition NewSourceHostnameItem (l : list string) := SourceHostnameItem l (set_of l).
Definition NewPreferredByItem (tags : list string) := PreferredByItem tags [].
Definition NewPreferredByDNSItem (tags : list string) := PreferredByDNSItem tags [].
Definition NewQueryTypeItem (l : list Z) := QueryTypeItem l (set_of l).
Definition NewDNSResponseRCodeItem (rcode : Z) := DNSResponseRCodeItem rcode.
Definition NewDNSResponseRecordItem (field : string) (records : list (option RR)) (selector : Msg -> list RR) :=
  DNSResponseRecordItem field records selector.
Definition NewAdGuardDomainItem (l : list string) := AdGuardDomainItem (NewAdGuardMatcher l).
Definition NewRawAdGuardDomainItem (m : AdGuardMatcher) := AdGuardDomainItem m.

(** [ClashModeItem.Start] takes the Clash server of the context, if there is one;
    [PreferredByItem.Start] and [PreferredByDNSItem.Start] resolve their tags;
    [lookup] tells whether a tag exists and supports preferred routes. *)
Fixpoint resolve_tags (lookup : string -> option bool) (missing unsupported : string) (tags : list string)
  : outcome (list string) :=
  match tags with
  | [] => Ok []
  | t :: tags' =>
      match lookup t with
      | None => Err (ENew (missing +:+ t))
      | Some false => Err (ENew unsupported)
      | Some true => let* r := resolve_tags lookup missing unsupported tags' in Ok (t :: r)
      end
  end.
Definition item_Start (hasClashServer : bool) (outbounds transports : string -> option bool) (it : RuleItem) : outcome RuleItem :=
  match it with
  | ClashModeItem _ mode => Ok (ClashModeItem hasClashServer mode)
  | PreferredByItem tags started =>
      let* r := resolve_tags outbounds "outbound not found: " "outbound type does not support preferred routes: " tags in
      Ok (PreferredByItem tags (started ++ r))
  | PreferredByDNSItem tags started =>
      let* r := resolve_tags transports "DNS server not found: " "DNS server type does not support preferred_by: " tags in
      Ok (PreferredByDNSItem tags (started ++ r))
  | it => Ok it
  end.

(** *** [Match] *)

(** The host the domain items look at: the sniffed domain, else the destination. *)
Definition domainHost (md : InboundContext) : string :=
  if negb (bool_decide (md_Domain md = "")) then md_Domain md else sa_Fqdn (md_Destination md).

Definition match_host (md : InboundContext) (f : string -> bool) : bool :=
  if bool_decide (domainHost md = "") then false else f (ToLower (domainHost md)).

(** [IPCIDRItem.Match] *)
Definition IPCIDRItem_Match (ipSet : IPSet) (isSource : bool) (md : InboundContext) : bool :=
  if isSource || md_IPCIDRMatchSource md then IPSet_Contains ipSet (sa_Addr (md_Source md))
  else if md_DestinationAddressMatchFromResponse md then
    match DNSResponseAddressesForMatch md with
    | [] => md_IPCIDRAcceptEmpty md
    | addresses => existsb (IPSet_Contains ipSet) addresses
    end
  else if Socksaddr_IsIP (md_Destination md) then IPSet_Contains ipSet (sa_Addr (md_Destination md))
  else match md_DestinationAddresses md with
       | [] => md_IPCIDRAcceptEmpty md
       | addresses => existsb (IPSet_Contains ipSet) addresses
       end.

(** [IPIsPrivateItem.Match] *)
Definition IPIsPrivateItem_Match (isSource : bool) (md : InboundContext) : bool :=
  let private a := negb (IsPublicAddr a) in
  if isSource then private (sa_Addr (md_Source md))
  else if md_DestinationAddressMatchFromResponse md then existsb private (DNSResponseAddressesForMatch md)
  else if IsValid (sa_Addr (md_Destination md)) then private (sa_Addr (md_Destination md))
  else existsb private (md_DestinationAddresses md).

(** [IPVersionItem.Match] *)
Definition IPVersionItem_Match (isIPv6 : bool) (md : InboundContext) : bool :=
  (negb (md_IPVersion md =? 0) && Bool.eqb (md_IPVersion md =? 6) isIPv6)
  || (Socksaddr_IsIP (md_Destination md) && Bool.eqb (Socksaddr_IsIPv6 (md_Destination md)) isIPv6).

(** [PortRangeItem.Match] *)
Definition in_range (port : Z) (r : rangeItem) : bool := (start r <=? port) && (port <=? end_ r).
Definition item_port (isSource : bool) (md : InboundContext) : Z :=
  if isSource then sa_Port (md_Source md) else sa_Port (md_Destination md).

(** The items on the owner of the connection. *)
Definition ProcessItem_Match (m : gmap string bool) (md : InboundContext) : bool :=
  match md_ProcessInfo md with
  | None => false
  | Some info => if bool_decide (ProcessPath info = "") then false else map_get m (Base (ProcessPath info))
  end.
Definition ProcessPathItem_Match (w : World) (m : gmap string bool) (md : InboundContext) : bool :=
  match md_ProcessInfo md with
  | None => false
  | Some info =>
      if negb (bool_decide (ProcessPath info = "")) && map_get m (ProcessPath info) then true
      else w_IsAndroid w && existsb (map_get m) (AndroidPackageNames info)
  end.
Definition ProcessPathRegexItem_Match (matchers : list Regexp) (md : InboundContext) : bool :=
  match md_ProcessInfo md with
  | None => false
  | Some info =>
      if bool_decide (ProcessPath info = "") then false
      else existsb (fun m => MatchString m (ProcessPath info)) matchers
  end.
Definition PackageNameItem_Match (m : gmap string bool) (md : InboundContext) : bool :=
  match md_ProcessInfo md with
  | None => false
  | Some info => existsb (map_get m) (AndroidPackageNames info)
  end.
Definition PackageNameRegexItem_Match (matchers : list Regexp) (md : InboundContext) : bool :=
  match md_ProcessInfo md with
  | None => false
  | Some info =>
      match AndroidPackageNames info with
      | [] => false
      | names => existsb (fun m => existsb (MatchString m) names) matchers
      end
  end.
Definition UserItem_Match (m : gmap string bool) (md : InboundContext) : bool :=
  match md_ProcessInfo md with
  | None => false
  | Some info => if bool_decide (UserName info = "") then false else map_get m (UserName info)
  end.
Definition UserIdItem_Match (m : gmap Z bool) (md : InboundContext) : bool :=
  match md_ProcessInfo md with
  | None => false
  | Some info => if UserId info =? -1 then false else map_get m (UserId info)
  end.

(** The items on the network state. *)
Definition InterfaceAddressItem_Match (w : World) (m : gmap string (list Prefix)) : bool :=
  forallb (fun '(ifName, addresses) =>
    match List.find (fun it => bool_decide (if_Name it = ifName)) (w_Interfaces w) with
    | None => false
    | Some iface =>
        if bool_decide (if_Name iface = "") then false
        else negb (forallb (fun address => forallb (fun it => negb (Overlaps address it)) (if_Addresses iface)) addresses)
    end) (map_to_list m).
Definition NetworkInterfaceAddressItem_Match (w : World) (m : gmap Z (list Prefix)) : bool :=
  forallb (fun '(ifType, addresses) =>
    existsb (fun ni =>
      if bool_decide (if_Name (ni_Interface ni) ∈ w_MyInterfaces w) then false
      else if negb (ni_Type ni =? ifType) then false
      else existsb (fun it => existsb (fun prefix => Overlaps prefix it) addresses)
             (if_Addresses (ni_Interface ni))) (w_NetworkInterfaces w)) (map_to_list m).
Definition DefaultInterfaceAddressItem_Match (w : World) (l : list Prefix) : bool :=
  match w_DefaultInterface w with
  | None => false
  | Some iface =>
      forallb (fun address => negb (forallb (fun it => negb (Overlaps address it)) (if_Addresses iface))) l
  end.

(** [PreferredByItem.Match] *)
Definition PreferredByItem_Match (w : World) (outbounds : list string) (md : InboundContext) : bool :=
  let host := domainHost md in
  if negb (bool_decide (host = "")) && existsb (fun o => w_PreferredDomain w o host) outbounds then true
  else if Socksaddr_IsIP (md_Destination md)
          && existsb (fun o => w_PreferredAddress w o (md_PreMatch md) (sa_Addr (md_Destination md))) outbounds then true
  else existsb (fun address => existsb (fun o => w_PreferredAddress w o (md_PreMatch md) address) outbounds)
         (md_DestinationAddresses md).

(** [DNSRecordOptions.Match] and [DNSResponseRecordItem.Match] *)
Definition DNSRecordOptions_Match (w : World) (expected record : option RR) : bool :=
  match expected, record with
  | Some e, Some r => w_IsDuplicate w e r
  | _, _ => false
  end.
Definition DNSResponseRecordItem_Match (w : World) (records : list (option RR))
    (selector : Msg -> list RR) (md : InboundContext) : bool :=
  match md_DNSResponse md with
  | None => false
  | Some m => existsb (fun expected => existsb (fun r => DNSRecordOptions_Match w expected (Some r)) (selector m)) records
  end.

(** The remaining items. *)
Definition InboundItem_Match (m : gmap string bool) (md : InboundContext) : bool := map_get m (md_Inbound md).
Definition NetworkItem_Match (m : gmap string bool) (md : InboundContext) : bool := map_get m (md_Network md).
Definition AuthUserItem_Match (m : gmap string bool) (md : InboundContext) : bool := map_get m (md_User md).
Definition ProtocolItem_Match (m : gmap string bool) (md : InboundContext) : bool := map_get m (md_Protocol md).
Definition ClientItem_Match (m : gmap string bool) (md : InboundContext) : bool := map_get m (md_Client md).
Definition DomainItem_Match (matcher : Matcher) (md : InboundContext) : bool := match_host md (Matcher_Match matcher).
Definition DomainKeywordItem_Match (keywords : list string) (md : InboundContext) : bool :=
  match_host md (fun h => existsb (StrContains h) keywords).
Definition DomainRegexItem_Match (matchers : list Regexp) (md : InboundContext) : bool :=
  match_host md (fun h => existsb (fun m => MatchString m h) matchers).
Definition AdGuardDomainItem_Match (matcher : AdGuardMatcher) (md : InboundContext) : bool :=
  match_host md (AdGuardMatcher_Match matcher).
Definition IPAcceptAnyItem_Match (md : InboundContext) : bool :=
  match (if md_DestinationAddressMatchFromResponse md then DNSResponseAddressesForMatch md
         else md_DestinationAddresses md) with [] => false | _ => true end.
Definition PortItem_Match (m : gmap Z bool) (isSource : bool) (md : InboundContext) : bool :=
  map_get m (item_port isSource md).
Definition PortRangeItem_Match (isSource : bool) (l : list rangeItem) (md : InboundContext) : bool :=
  existsb (in_range (item_port isSource md)) l.
Definition OutboundItem_Match (m : gmap string bool) (matchAny : bool) (md : InboundContext) : bool :=
  if matchAny then negb (bool_decide (md_Outbound md = "")) else map_get m (md_Outbound md).
Definition ClashModeItem_Match (w : World) (clashServer : bool) (mode : string) : bool :=
  clashServer && EqualFold (w_ClashMode w) mode.
Definition NetworkTypeItem_Match (w : World) (l : list Z) : bool :=
  match w_DefaultNetworkInterface w with None => false | Some ni => bool_decide (ni_Type ni ∈ l) end.
Definition NetworkIsExpensiveItem_Match (w : World) : bool :=
  match w_DefaultNetworkInterface w with None => false | Some ni => ni_Expensive ni end.
Definition NetworkIsConstrainedItem_Match (w : World) : bool :=
  match w_DefaultNetworkInterface w with None => false | Some ni => ni_Constrained ni end.
Definition WIFISSIDItem_Match (w : World) (m : gmap string bool) : bool := map_get m (w_SSID w).
Definition WIFIBSSIDItem_Match (w : World) (m : gmap string bool) : bool := map_get m (w_BSSID w).
Definition SourceMACAddressItem_Match (m : gmap string bool) (md : InboundContext) : bool :=
  match md_SourceMACAddress md with None => false | Some mac => map_get m (HardwareAddr_String mac) end.
Definition SourceHostnameItem_Match (m : gmap string bool) (md : InboundContext) : bool :=
  if bool_decide (md_SourceHostname md = "") then false else map_get m (md_SourceHostname md).
Definition PreferredByDNSItem_Match (w : World) (transports : list string) (md : InboundContext) : bool :=
  if bool_decide (domainHost md = "") then false
  else existsb (fun t => w_DNSPreferredDomain w t (CanonicalName (domainHost md))) transports.
Definition QueryTypeItem_Match (m : gmap Z bool) (md : InboundContext) : bool :=
  if md_QueryType md =? 0 then false else map_get m (md_QueryType md).
Definition DNSResponseRCodeItem_Match (rcode : Z) (md : InboundContext) : bool :=
  match md_DNSResponse md with None => false | Some m => Rcode m =? rcode end.

(** [RuleItem.Match]: dispatch on the item. *)
Definition item_Match (w : World) (it : RuleItem) (md : InboundContext) : bool :=
  match it with
  | InboundItem _ m => InboundItem_Match m md
  | IPVersionItem isIPv6 => IPVersionItem_Match isIPv6 md
  | NetworkItem _ m => NetworkItem_Match m md
  | AuthUserItem _ m => AuthUserItem_Match m md
  | ProtocolItem _ m => ProtocolItem_Match m md
  | ClientItem _ m => ClientItem_Match m md
  | DomainItem matcher => DomainItem_Match matcher md
  | DomainKeywordItem keywords => DomainKeywordItem_Match keywords md
  | DomainRegexItem matchers => DomainRegexItem_Match matchers md
  | IPCIDRItem ipSet isSource => IPCIDRItem_Match ipSet isSource md
  | IPIsPrivateItem isSource => IPIsPrivateItem_Match isSource md
  | IPAcceptAnyItem => IPAcceptAnyItem_Match md
  | PortItem _ m isSource => PortItem_Match m isSource md
  | PortRangeItem isSource _ l => PortRangeItem_Match isSource l md
  | ProcessItem _ m => ProcessItem_Match m md
  | ProcessPathItem _ m => ProcessPathItem_Match w m md
  | ProcessPathRegexItem matchers => ProcessPathRegexItem_Match matchers md
  | PackageNameItem _ m => PackageNameItem_Match m md
  | PackageNameRegexItem matchers => PackageNameRegexItem_Match matchers md
  | UserItem _ m => UserItem_Match m md
  | UserIdItem _ m => UserIdItem_Match m md
  | OutboundItem _ m matchAny => OutboundItem_Match m matchAny md
  | ClashModeItem clashServer mode => ClashModeItem_Match w clashServer mode
  | NetworkTypeItem l => NetworkTypeItem_Match w l
  | NetworkIsExpensiveItem => NetworkIsExpensiveItem_Match w
  | NetworkIsConstrainedItem => NetworkIsConstrainedItem_Match w
  | WIFISSIDItem _ m => WIFISSIDItem_Match w m
  | WIFIBSSIDItem _ m => WIFIBSSIDItem_Match w m
  | InterfaceAddressItem m => InterfaceAddressItem_Match w m
  | NetworkInterfaceAddressItem m => NetworkInterfaceAddressItem_Match w m
  | DefaultInterfaceAddressItem l => DefaultInterfaceAddressItem_Match w l
  | SourceMACAddressItem _ m => SourceMACAddressItem_Match m md
  | SourceHostnameItem _ m => SourceHostnameItem_Match m md
  | PreferredByItem _ outbounds => PreferredByItem_Match w outbounds md
  | PreferredByDNSItem _ transports => PreferredByDNSItem_Match w transports md
  | QueryTypeItem _ m => QueryTypeItem_Match m md
  | DNSResponseRCodeItem rcode => DNSResponseRCodeItem_Match rcode md
  | DNSResponseRecordItem _ records selector => DNSResponseRecordItem_Match w records selector md
  | AdGuardDomainItem matcher => AdGuardDomainItem_Match matcher md
  end.

(** ** Lemmas *)

Lemma map_get_set_of {K} `{Countable K} (l : list K) x : map_get (set_of l) x = bool_decide (x ∈ l).
Proof.
  unfold set_of, map_get.
  enough (forall m : gmap K bool,
            default false (fold_left (fun m x => <[x := true]> m) l m !! x)
            = bool_decide (x ∈ l) || default false (m !! x)) as ->
    by (rewrite lookup_empty; apply orb_false_r).
  induction l as [|y l IH]; intros m; cbn [fold_left].
  - rewrite bool_decide_eq_false_2 by apply not_elem_of_nil. done.
  - rewrite IH. destruct (decide (y = x)) as [->|Hne].
    + rewrite lookup_insert_eq, (bool_decide_eq_true_2 (x ∈ x :: l)) by left. apply orb_true_r.
    + rewrite lookup_insert_ne by done. f_equal. apply bool_decide_ext.
      rewrite elem_of_cons. naive_solver.
Qed.

(** Matching an item does not look at the rule cache it is evaluated in. *)
Lemma item_Match_set_DidMatch w it md b : item_Match w it (set_DidMatch md b) = item_Match w it md.
Proof. destruct it; reflexivity. Qed.

Lemma item_Match_set_Ignore w it md b :
  item_Match w it (set_IgnoreDestinationIPCIDRMatch md b) = item_Match w it md.
Proof. destruct it; reflexivity. Qed.

Lemma item_Match_ResetRuleMatchCache w it md : item_Match w it (ResetRuleMatchCache md) = item_Match w it md.
Proof. destruct it; reflexivity. Qed.

Lemma set_DidMatch_idem md b b' : set_DidMatch (set_DidMatch md b) b' = set_DidMatch md b'.
Proof. reflexivity. Qed.

Lemma set_DidMatch_id md : set_DidMatch md (md_DidMatch md) = md.
Proof. by destruct md. Qed.

End Items.

#[export] Hint Rewrite @map_get_set_of @item_Match_set_DidMatch @item_Match_set_Ignore
  @item_Match_ResetRuleMatchCache @set_DidMatch_idem : go.
