(* ===== verification/RuleMatch.v ===== *)
(** * Rule matching

    route/rule/match_state.go, rule_abstract.go, rule_item_rule_set.go and the
    matching half of rule_dns.go: address/port groups, default and logical
    rules, rule-set items and the merge of a single-rule rule-set into the outer
    rule, DNS rules.  Metadata is threaded explicitly: a match writes
    [DidMatch], and nested rules are evaluated on copies.  RuleSpec holds the
    reference semantics and the theorems that relate the two. *)

From S2P Require Import Prelude GoStd Netip External DnsMsg RuleItems.
Local Open Scope Z_scope.

(** ** match_state.go *)

Definition ruleMatchSourceAddress : Z := 1.
Definition ruleMatchSourcePort : Z := 2.
Definition ruleMatchDestinationAddress : Z := 4.
Definition ruleMatchDestinationPort : Z := 8.

Record ruleGroupMatch := MkGroups { required : Z; satisfied : Z }.

Definition no_groups : ruleGroupMatch := MkGroups 0 0.
Definition done_ (g : ruleGroupMatch) : bool := Z.ldiff (required g) (satisfied g) =? 0.
Definition mergeWith (g other : ruleGroupMatch) : ruleGroupMatch :=
  MkGroups (Z.lor (required g) (required other)) (Z.lor (satisfied g) (satisfied other)).
Definition has (s target : Z) : bool := negb (Z.land s target =? 0).

Section Match.
Context {X : External}.

(** ** Rules *)

(** An element of [allItems]: an item, or the rule's own rule-set item. *)
Inductive any_item := AnyItem (it : RuleItem) | AnyRuleSet.

(** The item lists of [abstractDefaultRule]. *)
Record default_items := MkItems {
  items : list RuleItem;
  sourceAddressItems : list RuleItem;
  sourcePortItems : list RuleItem;
  destinationAddressItems : list RuleItem;
  destinationIPCIDRItems : list RuleItem;
  destinationPortItems : list RuleItem;
  allItems : list any_item
}.

(** Which Go type embeds the abstract rule, with the fields the type adds. *)
Inductive default_kind :=
| KDefaultHeadlessRule
| KDefaultRule
| KDefaultDNSRule (matchResponse : bool) (matchResponseTag : string) (race : bool).
Inductive logical_kind :=
| KLogicalHeadlessRule
| KLogicalRule
| KLogicalDNSRule (matchResponseTags : list string) (matchResponseAnonymous race : bool).

(** [adapter.HeadlessRule] and its implementations; [RuleSet] is the content of
    a [LocalRuleSet] or [RemoteRuleSet] at the time of the match. *)
Inductive Rule :=
| DefaultR (kind : default_kind) (d : abstractDefaultRule)
| LogicalR (kind : logical_kind) (l : abstractLogicalRule)
with abstractDefaultRule :=
| MkDefault (it : default_items) (ruleSetItem : option RuleSetItem) (invert : bool)
with abstractLogicalRule :=
| MkLogical (rules : list Rule) (mode : string) (linvert : bool)
with RuleSetItem :=
| MkRuleSetItem (tagList : list string) (setList : list RuleSet) (ipCidrMatchSource ipCidrAcceptEmpty : bool)
with RuleSet :=
| MkRuleSet (rs_rules : list Rule) (ContainsIPCIDRRule : bool).

Definition d_items (d : abstractDefaultRule) : default_items := let '(MkDefault it _ _) := d in it.
Definition d_ruleSetItem (d : abstractDefaultRule) : option RuleSetItem := let '(MkDefault _ rs _) := d in rs.
Definition d_invert (d : abstractDefaultRule) : bool := let '(MkDefault _ _ inv) := d in inv.

Definition nonempty {A} (l : list A) : bool := match l with [] => false | _ => true end.

(** ** rule_abstract.go: default rules *)

Definition matchAnyItem (w : World) (l : list RuleItem) (md : InboundContext) : bool :=
  existsb (fun it => item_Match w it md) l.

Definition destinationIPCIDRMatchesSource (r : default_items) (md : InboundContext) : bool :=
  negb (md_IgnoreDestinationIPCIDRMatch md) && md_IPCIDRMatchSource md && nonempty (destinationIPCIDRItems r).
Definition destinationIPCIDRMatchesDestination (r : default_items) (md : InboundContext) : bool :=
  negb (md_IgnoreDestinationIPCIDRMatch md) && negb (md_IPCIDRMatchSource md) && nonempty (destinationIPCIDRItems r).

(** One block of [evaluateGroups]: when [cond], mark the metadata, require [state]
    and satisfy it if an item of [l] matches; the IP CIDR blocks skip the items
    when the state is already satisfied. *)
Definition group_block (w : World) (cond : bool) (state : Z) (skip_satisfied : bool) (l : list RuleItem)
    (acc : ruleGroupMatch * InboundContext) : ruleGroupMatch * InboundContext :=
  let '(groups, md) := acc in
  if cond then
    let md := set_DidMatch md true in
    let groups := MkGroups (Z.lor (required groups) state) (satisfied groups) in
    if negb (skip_satisfied && has (satisfied groups) state) && matchAnyItem w l md then
      (MkGroups (required groups) (Z.lor (satisfied groups) state), md)
    else (groups, md)
  else acc.

Definition evaluateGroups (w : World) (r : default_items) (md : InboundContext)
    : ruleGroupMatch * InboundContext :=
  let acc := (no_groups, md) in
  let acc := group_block w (nonempty (sourceAddressItems r)) ruleMatchSourceAddress false (sourceAddressItems r) acc in
  let acc := group_block w (destinationIPCIDRMatchesSource r md) ruleMatchSourceAddress true (destinationIPCIDRItems r) acc in
  let acc := group_block w (nonempty (sourcePortItems r)) ruleMatchSourcePort false (sourcePortItems r) acc in
  let acc := group_block w (nonempty (destinationAddressItems r)) ruleMatchDestinationAddress false (destinationAddressItems r) acc in
  let acc := group_block w (destinationIPCIDRMatchesDestination r md) ruleMatchDestinationAddress true (destinationIPCIDRItems r) acc in
  group_block w (nonempty (destinationPortItems r)) ruleMatchDestinationPort false (destinationPortItems r) acc.

(** The loop over [r.items]. *)
Fixpoint match_items (w : World) (l : list RuleItem) (md : InboundContext) : bool * InboundContext :=
  match l with
  | [] => (true, md)
  | it :: l' =>
      let md := set_DidMatch md true in
      if item_Match w it md then match_items w l' md else (false, md)
  end.

(** [evaluateForMerge]: the groups, if every item matched. *)
Definition evaluateForMerge (w : World) (r : default_items) (md : InboundContext)
    : option ruleGroupMatch * InboundContext :=
  let '(groups, md) := evaluateGroups w r md in
  let '(ok, md) := match_items w (items r) md in
  (if ok then Some groups else None, md).

(** [RuleSetItem.nestedMetadata] *)
Definition nestedMetadata (ipCidrMatchSource ipCidrAcceptEmpty : bool) (md : InboundContext) : InboundContext :=
  set_cidr_flags (ResetRuleMatchCache md) ipCidrMatchSource ipCidrAcceptEmpty.

(** [mergeableRuleIn]: the single, non-inverted default headless rule. *)
Definition mergeableRuleIn (rules : list Rule) : option default_items :=
  match rules with
  | [DefaultR KDefaultHeadlessRule (MkDefault it None false)] => Some it
  | _ => None
  end.

(** [adapter.HeadlessRule.Match] of every rule type, with the metadata it leaves. *)
Fixpoint rule_Match (w : World) (r : Rule) (md : InboundContext) {struct r} : bool * InboundContext :=
  match r with
  | DefaultR (KDefaultDNSRule true tag _) d =>
      let response := if bool_decide (tag = "") then md_DNSResponse md
                      else default None (md_NamedDNSResponses md !! tag) in
      match response with
      | None => (d_invert d, md)
      | Some _ => ((abstractDefault_Match w d (set_response md response)).1, md)
      end
  | DefaultR _ d => abstractDefault_Match w d md
  | LogicalR _ l => (abstractLogical_Match w l md, md)
  end
(** [abstractDefaultRule.Match] *)
with abstractDefault_Match (w : World) (d : abstractDefaultRule) (md : InboundContext) {struct d}
    : bool * InboundContext :=
  match d with
  | MkDefault it ruleSetItem invert =>
      if negb (nonempty (allItems it)) then (true, md)
      else
        let '(matched, md) :=
          (* matchInner *)
          let '(groups, md) := evaluateGroups w it md in
          let '(ok, md) := match_items w (items it) md in
          if negb ok then (false, md)
          else match ruleSetItem with
               | Some rs =>
                   let md := set_DidMatch md true in
                   (matchWithOuterGroups w rs md groups, md)
               | None => (done_ groups, md)
               end in
        if invert then
          if matched && md_IgnoreDestinationIPCIDRMatch md && negb (md_DidMatch md)
             && nonempty (destinationIPCIDRItems it) then (true, md)
          else (negb matched, md)
        else (matched, md)
  end
(** [abstractLogicalRule.Match] and [LogicalDNSRule.matchForMatch]; every sub-rule
    sees a copy of the metadata with the rule cache reset. *)
with abstractLogical_Match (w : World) (l : abstractLogicalRule) (md : InboundContext) {struct l} : bool :=
  match l with
  | MkLogical rules mode invert =>
      let matched :=
        if bool_decide (mode = "and") then
          forallb (fun r => (rule_Match w r (ResetRuleCache md)).1) rules
        else existsb (fun r => (rule_Match w r (ResetRuleCache md)).1) rules in
      if invert then negb matched else matched
  end
(** [RuleSetItem.matchWithOuterGroups] *)
with matchWithOuterGroups (w : World) (rs : RuleSetItem) (md : InboundContext) (outerGroups : ruleGroupMatch) {struct rs} : bool :=
  match rs with
  | MkRuleSetItem _ setList src acceptEmpty =>
      let nested := nestedMetadata src acceptEmpty md in
      existsb (fun ruleSet =>
        match ruleSet with
        | MkRuleSet rules _ =>
            match mergeableRuleIn rules with
            | Some branch =>
                match (evaluateForMerge w branch nested).1 with
                | Some branchGroups => done_ (mergeWith outerGroups branchGroups)
                | None => false
                end
            | None => done_ outerGroups && ruleSet_Match w ruleSet nested
            end
        end) setList
  end
(** [LocalRuleSet.Match], [RemoteRuleSet.Match]: [matchAnyHeadlessRule]. *)
with ruleSet_Match (w : World) (s : RuleSet) (md : InboundContext) {struct s} : bool :=
  match s with
  | MkRuleSet rules _ => existsb (fun r => (rule_Match w r (ResetRuleMatchCache md)).1) rules
  end.

(** [RuleSetItem.Match] *)
Definition RuleSetItem_Match (w : World) (rs : RuleSetItem) (md : InboundContext) : bool :=
  match rs with
  | MkRuleSetItem _ setList src acceptEmpty =>
      existsb (fun s => ruleSet_Match w s (nestedMetadata src acceptEmpty md)) setList
  end.

(** [RuleSetItem.ContainsDestinationIPCIDRRule] *)
Definition ContainsDestinationIPCIDRRule (rs : RuleSetItem) : bool :=
  match rs with
  | MkRuleSetItem _ setList src _ =>
      if src then false else existsb (fun '(MkRuleSet _ c) => c) setList
  end.

(** ** rule_dns.go: matching *)

(** [DefaultDNSRule.LegacyPreMatch] and [LogicalDNSRule.LegacyPreMatch], with the
    deferred reset of the flag; the logical rule is evaluated by
    [abstractLogicalRule.Match], which calls [Match] of its sub-rules. *)
Definition LegacyPreMatch (w : World) (r : Rule) (md : InboundContext) : bool * InboundContext :=
  match r with
  | DefaultR (KDefaultDNSRule true _ _) _ => (false, md)
  | DefaultR _ d =>
      let '(b, md') := abstractDefault_Match w d (set_IgnoreDestinationIPCIDRMatch md true) in
      (b, set_IgnoreDestinationIPCIDRMatch md' false)
  | LogicalR _ l =>
      let md := set_IgnoreDestinationIPCIDRMatch md true in
      (abstractLogical_Match w l md, set_IgnoreDestinationIPCIDRMatch md false)
  end.

(** [MatchAddressLimit] of both DNS rule types. *)
Definition MatchAddressLimit (w : World) (r : Rule) (md : InboundContext) (response : option Msg) : bool :=
  match r with
  | DefaultR _ d => (abstractDefault_Match w d (set_response md response)).1
  | LogicalR _ l => abstractLogical_Match w l (set_response md response)
  end.

(** [WithAddressLimit] *)
Definition default_WithAddressLimit (d : abstractDefaultRule) : bool :=
  nonempty (destinationIPCIDRItems (d_items d))
  || match d_ruleSetItem d with Some rs => ContainsDestinationIPCIDRRule rs | None => false end.
Fixpoint WithAddressLimit (r : Rule) : bool :=
  match r with
  | DefaultR _ d => default_WithAddressLimit d
  | LogicalR _ (MkLogical rules _ _) => existsb WithAddressLimit rules
  end.

(** [MatchResponseTags] and [MatchResponseAnonymous] *)
Definition MatchResponseTags (r : Rule) : list string :=
  match r with
  | DefaultR (KDefaultDNSRule _ tag _) _ => if bool_decide (tag = "") then [] else [tag]
  | LogicalR (KLogicalDNSRule tags _ _) _ => tags
  | _ => []
  end.
Definition MatchResponseAnonymous (r : Rule) : bool :=
  match r with
  | DefaultR (KDefaultDNSRule m tag _) _ => m && bool_decide (tag = "")
  | LogicalR (KLogicalDNSRule _ a _) _ => a
  | _ => false
  end.

End Match.
