(* ===== verification/RuleSpec.v ===== *)
(** * The documented rule semantics, and that the matcher implements it

    docs/configuration/route/rule.md gives the match formula of a default rule,

      (domain || ... || ip_cidr || ip_is_private) && (port || port_range) &&
      (source_ip_cidr || source_ip_is_private) && (source_port || source_port_range)
      && other fields,

    and the meaning of rule-sets: a rule-set that holds a single default rule
    without [invert] is merged into the outer rule, any other rule-set is one
    more field, and several rule-sets are alternatives.  [doc_match] is that
    formula; the theorems show that the bit-mask evaluation of RuleMatch computes
    it, what it does to the metadata, and how the DNS variants behave. *)

From S2P Require Import Prelude GoStd Netip External Concrete DnsMsg RuleItems RuleMatch.
From Stdlib Require Import Btauto.
Local Open Scope Z_scope.

(** ** Group masks *)

Definition mask4 (a b c d : bool) : Z :=
  (if a then 1 else 0) + (if b then 2 else 0) + (if c then 4 else 0) + (if d then 8 else 0).

Lemma mask4_lor a b c d a' b' c' d' :
  Z.lor (mask4 a b c d) (mask4 a' b' c' d') = mask4 (a || a') (b || b') (c || c') (d || d').
Proof. by destruct a, b, c, d, a', b', c', d'. Qed.

Lemma mask4_done a b c d a' b' c' d' :
  done_ (MkGroups (mask4 a b c d) (mask4 a' b' c' d'))
  = implb a a' && implb b b' && implb c c' && implb d d'.
Proof. by destruct a, b, c, d, a', b', c', d'. Qed.

(** Adding one state to a mask. *)
Lemma mask4_add a b c d :
  Z.lor (mask4 a b c d) ruleMatchSourceAddress = mask4 true b c d
  /\ Z.lor (mask4 a b c d) ruleMatchSourcePort = mask4 a true c d
  /\ Z.lor (mask4 a b c d) ruleMatchDestinationAddress = mask4 a b true d
  /\ Z.lor (mask4 a b c d) ruleMatchDestinationPort = mask4 a b c true.
Proof. by destruct a, b, c, d. Qed.

Lemma mask4_has_source a b c d : has (mask4 a b c d) ruleMatchSourceAddress = a.
Proof. by destruct a, b, c, d. Qed.

Lemma mask4_has_destination a b c d : has (mask4 a b c d) ruleMatchDestinationAddress = c.
Proof. by destruct a, b, c, d. Qed.

Section Spec.
Context {X : External}.
Implicit Types (w : World) (md : InboundContext) (r : default_items).

(** ** The documented formula *)

Definition any_item_of w (l : list RuleItem) md : bool := existsb (fun it => item_Match w it md) l.

(** A group of alternatives: no condition when it is empty. *)
Definition group_ok w (l : list RuleItem) md : bool := implb (nonempty l) (any_item_of w l md).

(** The IP CIDR items count for the source when [rule_set_ip_cidr_match_source]
    is in effect, for the destination otherwise, and not at all before the
    lookup of a legacy DNS rule. *)
Definition source_group r md : list RuleItem :=
  sourceAddressItems r ++
  (if negb (md_IgnoreDestinationIPCIDRMatch md) && md_IPCIDRMatchSource md then destinationIPCIDRItems r else []).
Definition destination_group r md : list RuleItem :=
  destinationAddressItems r ++
  (if negb (md_IgnoreDestinationIPCIDRMatch md) && negb (md_IPCIDRMatchSource md) then destinationIPCIDRItems r else []).

Definition groups_ok w r md : bool :=
  group_ok w (source_group r md) md && group_ok w (sourcePortItems r) md
  && group_ok w (destination_group r md) md && group_ok w (destinationPortItems r) md.

Definition fields_ok w r md : bool := forallb (fun it => item_Match w it md) (items r).

(** Two rules considered as one: the branch is evaluated on its own metadata. *)
Definition merged_group w (l : list RuleItem) md (l' : list RuleItem) md' : bool :=
  implb (nonempty l || nonempty l') (any_item_of w l md || any_item_of w l' md').
Definition merged_ok w r md (b : default_items) md' : bool :=
  merged_group w (source_group r md) md (source_group b md') md'
  && merged_group w (sourcePortItems r) md (sourcePortItems b) md'
  && merged_group w (destination_group r md) md (destination_group b md') md'
  && merged_group w (destinationPortItems r) md (destinationPortItems b) md'.

Definition doc_rule_set w r md (nested : InboundContext) (s : RuleSet) : bool :=
  let '(MkRuleSet rules _) := s in
  match mergeableRuleIn rules with
  | Some b => fields_ok w b nested && merged_ok w r md b nested
  | None => groups_ok w r md && ruleSet_Match w s nested
  end.

(** The conditions of a default rule, before inversion. *)
Definition doc_inner w r (rs : option RuleSetItem) md : bool :=
  fields_ok w r md &&
  match rs with
  | None => groups_ok w r md
  | Some (MkRuleSetItem _ setList src acceptEmpty) =>
      existsb (doc_rule_set w r md (nestedMetadata src acceptEmpty md)) setList
  end.

(** Whether a condition was looked at. *)
Definition evaluated r (rs : option RuleSetItem) md : bool :=
  nonempty (source_group r md) || nonempty (sourcePortItems r) || nonempty (destination_group r md)
  || nonempty (destinationPortItems r) || nonempty (items r)
  || match rs with Some _ => true | None => false end.

Definition doc_match w r (rs : option RuleSetItem) (invert : bool) md : bool :=
  if negb (nonempty (allItems r)) then true else xorb invert (doc_inner w r rs md).

(** ** The evaluation of groups *)

Definition groups_of w r md : ruleGroupMatch :=
  MkGroups
    (mask4 (nonempty (source_group r md)) (nonempty (sourcePortItems r))
       (nonempty (destination_group r md)) (nonempty (destinationPortItems r)))
    (mask4 (any_item_of w (source_group r md) md) (any_item_of w (sourcePortItems r) md)
       (any_item_of w (destination_group r md) md) (any_item_of w (destinationPortItems r) md)).

Lemma any_item_of_app w l l' md : any_item_of w (l ++ l') md = any_item_of w l md || any_item_of w l' md.
Proof. apply existsb_app. Qed.

Lemma any_item_of_empty w l md : nonempty l = false -> any_item_of w l md = false.
Proof. by destruct l. Qed.

Lemma matchAnyItem_set_DidMatch w l md x : matchAnyItem w l (set_DidMatch md x) = any_item_of w l md.
Proof.
  unfold matchAnyItem, any_item_of. induction l as [|it l IH]; [done|]. cbn [existsb].
  by rewrite item_Match_set_DidMatch, IH.
Qed.

(** One block of [evaluateGroups], on masks. *)
Lemma group_block_source w cond skip l a1 b1 c1 d1 a2 b2 c2 d2 md x :
  group_block w cond ruleMatchSourceAddress skip l (MkGroups (mask4 a1 b1 c1 d1) (mask4 a2 b2 c2 d2), set_DidMatch md x)
  = (MkGroups (mask4 (a1 || cond) b1 c1 d1) (mask4 (a2 || (cond && any_item_of w l md)) b2 c2 d2),
     set_DidMatch md (x || cond)).
Proof.
  unfold group_block. destruct cond; [|by rewrite !orb_false_r].
  rewrite set_DidMatch_idem, matchAnyItem_set_DidMatch. cbn [required satisfied].
  rewrite !(proj1 (mask4_add _ _ _ _)), mask4_has_source, !orb_true_r, andb_true_l.
  by destruct skip, a2, (any_item_of w l md).
Qed.

Lemma group_block_destination w cond skip l a1 b1 c1 d1 a2 b2 c2 d2 md x :
  group_block w cond ruleMatchDestinationAddress skip l (MkGroups (mask4 a1 b1 c1 d1) (mask4 a2 b2 c2 d2), set_DidMatch md x)
  = (MkGroups (mask4 a1 b1 (c1 || cond) d1) (mask4 a2 b2 (c2 || (cond && any_item_of w l md)) d2),
     set_DidMatch md (x || cond)).
Proof.
  unfold group_block. destruct cond; [|by rewrite !orb_false_r].
  rewrite set_DidMatch_idem, matchAnyItem_set_DidMatch. cbn [required satisfied].
  rewrite !(proj1 (proj2 (proj2 (mask4_add _ _ _ _)))), mask4_has_destination, !orb_true_r, andb_true_l.
  by destruct skip, c2, (any_item_of w l md).
Qed.

Lemma group_block_ports w cond l a1 b1 c1 d1 a2 b2 c2 d2 md x :
  group_block w cond ruleMatchSourcePort false l (MkGroups (mask4 a1 b1 c1 d1) (mask4 a2 b2 c2 d2), set_DidMatch md x)
  = (MkGroups (mask4 a1 (b1 || cond) c1 d1) (mask4 a2 (b2 || (cond && any_item_of w l md)) c2 d2),
     set_DidMatch md (x || cond))
  /\ group_block w cond ruleMatchDestinationPort false l (MkGroups (mask4 a1 b1 c1 d1) (mask4 a2 b2 c2 d2), set_DidMatch md x)
  = (MkGroups (mask4 a1 b1 c1 (d1 || cond)) (mask4 a2 b2 c2 (d2 || (cond && any_item_of w l md))),
     set_DidMatch md (x || cond)).
Proof.
  unfold group_block. destruct cond; [|by rewrite !orb_false_r].
  rewrite !set_DidMatch_idem, !matchAnyItem_set_DidMatch. cbn [required satisfied negb andb].
  rewrite !(proj1 (proj2 (mask4_add _ _ _ _))), !(proj2 (proj2 (proj2 (mask4_add _ _ _ _)))), !orb_true_r.
  by destruct b2, d2, (any_item_of w l md).
Qed.

Lemma nonempty_app {A} (l l' : list A) : nonempty (l ++ l') = nonempty l || nonempty l'.
Proof. by destruct l. Qed.

Lemma nonempty_if {A} (c : bool) (l : list A) : nonempty (if c then l else []) = c && nonempty l.
Proof. by destruct c. Qed.

Lemma any_item_of_if w (c : bool) l md : any_item_of w (if c then l else []) md = c && any_item_of w l md.
Proof. by destruct c. Qed.

Lemma nonempty_any w l md : nonempty l && any_item_of w l md = any_item_of w l md.
Proof. by destruct l. Qed.

Lemma evaluateGroups_spec w r md :
  evaluateGroups w r md
  = (groups_of w r md,
     set_DidMatch md (md_DidMatch md || nonempty (source_group r md) || nonempty (sourcePortItems r)
                      || nonempty (destination_group r md) || nonempty (destinationPortItems r))).
Proof.
  unfold evaluateGroups.
  change no_groups with (MkGroups (mask4 false false false false) (mask4 false false false false)).
  replace (MkGroups (mask4 false false false false) (mask4 false false false false), md)
    with (MkGroups (mask4 false false false false) (mask4 false false false false),
          set_DidMatch md (md_DidMatch md)) by by rewrite set_DidMatch_id.
  rewrite 2!group_block_source. rewrite (proj1 (group_block_ports _ _ _ _ _ _ _ _ _ _ _ _ _)).
  rewrite 2!group_block_destination. rewrite (proj2 (group_block_ports _ _ _ _ _ _ _ _ _ _ _ _ _)).
  unfold groups_of, source_group, destination_group, destinationIPCIDRMatchesSource,
    destinationIPCIDRMatchesDestination.
  rewrite !nonempty_app, !any_item_of_app, !nonempty_if, !any_item_of_if, !nonempty_any, !orb_false_l.
  rewrite <- !andb_assoc, !nonempty_any. by rewrite !orb_assoc.
Qed.

Lemma match_items_spec w l md :
  (match_items w l md).1 = forallb (fun it => item_Match w it md) l
  /\ (match_items w l md).2 = set_DidMatch md (md_DidMatch md || nonempty l).
Proof.
  assert (forall x, (match_items w l (set_DidMatch md x)).1 = forallb (fun it => item_Match w it md) l
    /\ (match_items w l (set_DidMatch md x)).2 = set_DidMatch md (x || nonempty l)) as H.
  { induction l as [|it l IH]; intros x; cbn [match_items forallb nonempty].
    - by rewrite orb_false_r.
    - rewrite set_DidMatch_idem, item_Match_set_DidMatch, orb_true_r.
      destruct (item_Match w it md); cbn [andb]; [|done].
      destruct (IH true) as [-> ->]. done. }
  specialize (H (md_DidMatch md)). by rewrite set_DidMatch_id in H.
Qed.

Lemma groups_of_done w r md : done_ (groups_of w r md) = groups_ok w r md.
Proof. apply mask4_done. Qed.

Lemma groups_of_merge_done w r md (b : default_items) md' :
  done_ (mergeWith (groups_of w r md) (groups_of w b md')) = merged_ok w r md b md'.
Proof.
  unfold mergeWith, groups_of; cbn [required satisfied]. rewrite !mask4_lor. apply mask4_done.
Qed.

Lemma fields_ok_set_DidMatch w r md x : fields_ok w r (set_DidMatch md x) = fields_ok w r md.
Proof.
  unfold fields_ok. induction (items r) as [|it l IH]; [done|]. cbn [forallb].
  by rewrite item_Match_set_DidMatch, IH.
Qed.

Lemma evaluateForMerge_spec w r md :
  (evaluateForMerge w r md).1 = (if fields_ok w r md then Some (groups_of w r md) else None).
Proof.
  unfold evaluateForMerge. rewrite evaluateGroups_spec.
  match goal with |- context [match_items w (items r) ?m] =>
    destruct (match_items_spec w (items r) m) as [H _]; destruct (match_items w (items r) m) as [ok md1] end.
  cbn [fst] in *. subst ok. change (forallb (fun it => item_Match w it ?m) (items r)) with (fields_ok w r m).
  by rewrite fields_ok_set_DidMatch.
Qed.

Lemma nestedMetadata_set_DidMatch src acc md x : nestedMetadata src acc (set_DidMatch md x) = nestedMetadata src acc md.
Proof. reflexivity. Qed.

Lemma matchWithOuterGroups_spec w rs md x r :
  matchWithOuterGroups w rs (set_DidMatch md x) (groups_of w r md)
  = (let '(MkRuleSetItem _ setList src acc) := rs in
     existsb (doc_rule_set w r md (nestedMetadata src acc md)) setList).
Proof.
  destruct rs as [tags setList src acc]. cbn [matchWithOuterGroups].
  rewrite nestedMetadata_set_DidMatch.
  induction setList as [|[rules c] l IH]; [done|]. cbn [existsb]. rewrite IH. f_equal.
  unfold doc_rule_set. destruct (mergeableRuleIn rules) as [b|].
  - rewrite evaluateForMerge_spec. destruct (fields_ok w b (nestedMetadata src acc md)); [|done].
    apply groups_of_merge_done.
  - by rewrite groups_of_done.
Qed.

(** The whole of [abstractDefaultRule.Match]: the documented formula, but for an
    inverted rule whose only conditions were deferred to the response. *)
Definition deferred_invert r (rs : option RuleSetItem) md : bool :=
  md_IgnoreDestinationIPCIDRMatch md && negb (md_DidMatch md || evaluated r rs md)
  && nonempty (destinationIPCIDRItems r).

Lemma not_evaluated_inner w r rs md : evaluated r rs md = false -> doc_inner w r rs md = true.
Proof.
  unfold evaluated, doc_inner, groups_ok, group_ok, fields_ok. intros H.
  to_prop. destruct rs; [discriminate|].
  repeat match goal with H : nonempty _ = false |- _ => rewrite H; revert H end. intros.
  by destruct (items r).
Qed.

Lemma abstractDefault_Match_eq w r rs invert md :
  abstractDefault_Match w (MkDefault r rs invert) md
  = if negb (nonempty (allItems r)) then (true, md)
    else (xorb (invert && negb (deferred_invert r rs md)) (doc_inner w r rs md),
          set_DidMatch md (md_DidMatch md || evaluated r rs md)).
Proof.
  cbn [abstractDefault_Match]. destruct (nonempty (allItems r)); cbn [negb]; [|done].
  rewrite evaluateGroups_spec.
  match goal with |- context [match_items w (items r) ?m] =>
    destruct (match_items_spec w (items r) m) as [H1 H2]; destruct (match_items w (items r) m) as [ok md1] end.
  cbn [fst snd] in *. subst ok md1.
  change (forallb (fun it => item_Match w it ?m) (items r)) with (fields_ok w r m).
  rewrite fields_ok_set_DidMatch, !set_DidMatch_idem.
  change (md_DidMatch (set_DidMatch md ?x)) with x.
  set (did := md_DidMatch md || nonempty (source_group r md) || nonempty (sourcePortItems r)
              || nonempty (destination_group r md) || nonempty (destinationPortItems r) || nonempty (items r)).
  assert (Hfail : fields_ok w r md = false -> nonempty (items r) = true) by (unfold fields_ok; by destruct (items r)).
  assert (Hev : md_DidMatch md || evaluated r rs md = did || match rs with Some _ => true | None => false end)
    by (unfold did, evaluated; by rewrite !orb_assoc).
  unfold deferred_invert. rewrite Hev.
  pose proof (not_evaluated_inner w r rs md) as Hne.
  destruct (fields_ok w r md) eqn:Hf; cbn [negb].
  - destruct rs as [[tags l src acc]|].
    + rewrite matchWithOuterGroups_spec, !orb_true_r. unfold doc_inner. rewrite Hf.
      change (md_DidMatch (set_DidMatch md ?x)) with x. cbn [negb andb].
      rewrite !andb_false_r. by destruct invert, (existsb _ l).
    + rewrite groups_of_done. unfold doc_inner in *. rewrite Hf in *.
      change (md_DidMatch (set_DidMatch md ?x)) with x.
      change (md_IgnoreDestinationIPCIDRMatch (set_DidMatch md ?x)) with (md_IgnoreDestinationIPCIDRMatch md).
      rewrite !orb_false_r in *. cbn [andb] in *.
      destruct did; cbn [negb andb]; rewrite ?andb_false_r; [by destruct invert, (groups_ok w r md)|].
      apply orb_false_iff in Hev as [_ Hev]. rewrite (Hne Hev).
      by destruct invert, (md_IgnoreDestinationIPCIDRMatch md), (nonempty (destinationIPCIDRItems r)).
  - assert (Hdid : did = true) by (unfold did; rewrite (Hfail eq_refl); apply orb_true_r).
    rewrite Hdid. unfold doc_inner. rewrite Hf. cbn [orb andb negb]. rewrite ?andb_false_r.
    by destruct invert.
Qed.

(** Two rules written as one. *)
Definition merge_items r (b : default_items) : default_items :=
  MkItems (items r ++ items b) (sourceAddressItems r ++ sourceAddressItems b)
    (sourcePortItems r ++ sourcePortItems b) (destinationAddressItems r ++ destinationAddressItems b)
    (destinationIPCIDRItems r ++ destinationIPCIDRItems b)
    (destinationPortItems r ++ destinationPortItems b) (allItems r ++ allItems b).

(** The metadata two evaluations agree on: everything but the rule-match cache. *)
Definition cache_free (md : InboundContext) : InboundContext := ResetRuleMatchCache md.

Lemma item_Match_cache_free w it md md' :
  cache_free md = cache_free md' -> item_Match w it md = item_Match w it md'.
Proof.
  intros H. rewrite <- (item_Match_ResetRuleMatchCache w it md), <- (item_Match_ResetRuleMatchCache w it md').
  unfold cache_free in H. by rewrite H.
Qed.

Lemma any_item_of_cache_free w l md md' :
  cache_free md = cache_free md' -> any_item_of w l md = any_item_of w l md'.
Proof.
  intros H. unfold any_item_of. induction l as [|it l IH]; [done|]. cbn [existsb].
  by rewrite IH, (item_Match_cache_free w it md md').
Qed.

Lemma fields_ok_cache_free w r md md' : cache_free md = cache_free md' -> fields_ok w r md = fields_ok w r md'.
Proof.
  intros H. unfold fields_ok. induction (items r) as [|it l IH]; [done|]. cbn [forallb].
  by rewrite IH, (item_Match_cache_free w it md md').
Qed.

Lemma nestedMetadata_neutral md :
  md_IPCIDRMatchSource md = false -> md_IPCIDRAcceptEmpty md = false ->
  cache_free (nestedMetadata false false md) = cache_free md.
Proof. intros H1 H2. destruct md; cbn in *. by subst. Qed.

Lemma merged_ok_merge_items w r (b : default_items) md md' :
  cache_free md' = cache_free md -> md_IgnoreDestinationIPCIDRMatch md = false ->
  md_IPCIDRMatchSource md = false -> md_IPCIDRMatchSource md' = false -> md_IgnoreDestinationIPCIDRMatch md' = false ->
  merged_ok w r md b md' = groups_ok w (merge_items r b) md.
Proof.
  intros Hc Hi Hs Hs' Hi'.
  unfold merged_ok, groups_ok, merged_group, group_ok, source_group, destination_group, merge_items.
  cbn [sourceAddressItems sourcePortItems destinationAddressItems destinationIPCIDRItems destinationPortItems].
  rewrite Hi, Hs, Hs', Hi'. cbn [negb andb].
  rewrite !any_item_of_app, !nonempty_app, !(any_item_of_cache_free w _ _ _ Hc).
  change (any_item_of w [] md) with false. change (nonempty (@nil RuleItem)) with false.
  unfold implb. repeat match goal with |- context [if ?c then ?x else true] =>
    replace (if c then x else true) with (negb c || x) by by destruct c end.
  btauto.
Qed.

Lemma fields_ok_merge_items w r (b : default_items) md :
  fields_ok w (merge_items r b) md = fields_ok w r md && fields_ok w b md.
Proof. unfold fields_ok, merge_items; cbn [items]. apply forallb_app. Qed.

(** C1: [abstractDefaultRule.Match] computes the documented formula: no item
    matches everything; otherwise the rule matches when every other field matches,
    every non-empty address and port group has a matching item, and, with
    rule-sets, one of them matches merged or as a field of its own; [invert]
    negates the result.  (Legacy DNS rules before the lookup, which set
    [IgnoreDestinationIPCIDRMatch], are treated below.) *)
Theorem default_rule_matches_doc w r rs invert md :
  md_IgnoreDestinationIPCIDRMatch md = false ->
  (abstractDefault_Match w (MkDefault r rs invert) md).1 = doc_match w r rs invert md.
Proof.
  intros Hi. rewrite abstractDefault_Match_eq. unfold doc_match, deferred_invert.
  destruct (nonempty (allItems r)); cbn [negb fst]; [|done].
  rewrite Hi. cbn [andb negb]. by rewrite andb_true_r.
Qed.

(** A rule-set that holds a single default rule without [invert] behaves as if
    its fields were written in the outer rule, as the documentation says: the rule
    with the rule-set and the rule with the concatenated item lists agree on
    every connection (with [rule_set_ip_cidr_match_source] and the deprecated
    accept-empty option off). *)
Theorem single_rule_set_merges w r (b : default_items) tags c invert md :
  md_IgnoreDestinationIPCIDRMatch md = false ->
  md_IPCIDRMatchSource md = false -> md_IPCIDRAcceptEmpty md = false ->
  nonempty (allItems r) = true ->
  (abstractDefault_Match w
     (MkDefault r (Some (MkRuleSetItem tags
        [MkRuleSet [DefaultR KDefaultHeadlessRule (MkDefault b None false)] c] false false)) invert) md).1
  = (abstractDefault_Match w (MkDefault (merge_items r b) None invert) md).1.
Proof.
  intros Hi Hs He Ha. rewrite !abstractDefault_Match_eq. unfold deferred_invert.
  change (allItems (merge_items r b)) with (allItems r ++ allItems b).
  rewrite nonempty_app, Ha, Hi. cbn [orb negb fst andb].
  f_equal. unfold doc_inner, doc_rule_set. cbn [existsb mergeableRuleIn].
  pose proof (nestedMetadata_neutral md Hs He) as Hn.
  rewrite orb_false_r, fields_ok_merge_items, (fields_ok_cache_free w b _ _ Hn), andb_assoc.
  by rewrite (merged_ok_merge_items w r b md).
Qed.

Lemma rule_Match_DidMatch w rule md :
  exists x, (rule_Match w rule md).2 = set_DidMatch md x /\ implb (md_DidMatch md) x = true.
Proof.
  assert (Hsame : exists x, md = set_DidMatch md x /\ implb (md_DidMatch md) x = true).
  { exists (md_DidMatch md). rewrite set_DidMatch_id. by destruct (md_DidMatch md). }
  assert (Hd : forall d, exists x, (abstractDefault_Match w d md).2 = set_DidMatch md x /\ implb (md_DidMatch md) x = true).
  { intros [r rs inv]. rewrite abstractDefault_Match_eq.
    destruct (negb (nonempty (allItems r))); [done|]. eexists; split; [done|]. by destruct (md_DidMatch md). }
  destruct rule as [[| |[] tag race] d|k l]; cbn [rule_Match]; try apply Hd; [|done].
  by destruct (if bool_decide (tag = "") then _ else _).
Qed.

(** Matching a rule of any type changes nothing in the metadata but
    [DidMatch], never clears it, and a logical rule or a DNS rule that matches a
    response leaves the metadata as it was. *)
Theorem rule_Match_frame w rule md :
  (exists x, (rule_Match w rule md).2 = set_DidMatch md x /\ implb (md_DidMatch md) x = true)
  /\ match rule with
     | LogicalR _ _ | DefaultR (KDefaultDNSRule true _ _) _ => (rule_Match w rule md).2 = md
     | _ => True
     end.
Proof.
  split; [apply rule_Match_DidMatch|]. destruct rule as [[| |[] tag race] d|k l]; cbn [rule_Match]; try done.
  by destruct (if bool_decide (tag = "") then _ else _).
Qed.

(** [LegacyPreMatch] of a DNS rule leaves the metadata as it found it, but for
    [DidMatch] and the flag [IgnoreDestinationIPCIDRMatch], which is false after
    the call unless the rule matches responses. *)
Theorem LegacyPreMatch_frame w rule md :
  exists x, (LegacyPreMatch w rule md).2
            = match rule with
              | DefaultR (KDefaultDNSRule true _ _) _ => md
              | _ => set_IgnoreDestinationIPCIDRMatch (set_DidMatch md x) false
              end.
Proof.
  assert (Hd : forall d, exists x,
    (let '(b, md') := abstractDefault_Match w d (set_IgnoreDestinationIPCIDRMatch md true) in
     (b, set_IgnoreDestinationIPCIDRMatch md' false)).2 = set_IgnoreDestinationIPCIDRMatch (set_DidMatch md x) false).
  { intros [r rs inv]. rewrite abstractDefault_Match_eq.
    destruct (negb (nonempty (allItems r))); cbn [snd].
    - exists (md_DidMatch md). by rewrite set_DidMatch_id.
    - eexists. reflexivity. }
  destruct rule as [[| |[] tag race] d|k l]; cbn [LegacyPreMatch]; try apply Hd.
  - by exists false.
  - exists (md_DidMatch md). by rewrite set_DidMatch_id.
Qed.

Lemma existsb_perm {A} (f : A -> bool) l l' : l ≡ₚ l' -> existsb f l = existsb f l'.
Proof.
  intros H. apply eq_true_iff_eq. rewrite !existsb_exists.
  split; intros (x & Hx & Hf); exists x; split; try done;
    apply list_elem_of_In in Hx; apply list_elem_of_In; [by rewrite <- H|by rewrite H].
Qed.

Lemma forallb_perm {A} (f : A -> bool) l l' : l ≡ₚ l' -> forallb f l = forallb f l'.
Proof.
  intros H. apply eq_true_iff_eq. rewrite !forallb_forall.
  split; intros Hf x Hx; apply Hf; apply list_elem_of_In in Hx; apply list_elem_of_In; [by rewrite H|by rewrite <- H].
Qed.

(** Neither the order of the sub-rules of a logical rule nor the order of the
    rule-sets of a rule affects the result, although both loops stop at the first
    deciding element and share one metadata object: each element sees a copy. *)
Theorem rule_order_irrelevant w rules rules' mode inv md sets sets' tags src acc r rinv :
  rules ≡ₚ rules' -> sets ≡ₚ sets' ->
  abstractLogical_Match w (MkLogical rules mode inv) md = abstractLogical_Match w (MkLogical rules' mode inv) md
  /\ abstractDefault_Match w (MkDefault r (Some (MkRuleSetItem tags sets src acc)) rinv) md
     = abstractDefault_Match w (MkDefault r (Some (MkRuleSetItem tags sets' src acc)) rinv) md.
Proof.
  intros Hr Hs. split.
  - cbn [abstractLogical_Match]. by rewrite (forallb_perm _ _ _ Hr), (existsb_perm _ _ _ Hr).
  - rewrite !abstractDefault_Match_eq. unfold doc_inner. by rewrite (existsb_perm _ _ _ Hs).
Qed.

(** The items whose result a DNS response cannot change. *)
Definition response_free (it : RuleItem) : bool :=
  match it with
  | IPCIDRItem _ isSource | IPIsPrivateItem isSource => isSource
  | IPAcceptAnyItem | DNSResponseRCodeItem _ | DNSResponseRecordItem _ _ _ => false
  | _ => true
  end.

Lemma response_free_Match w it md resp :
  response_free it = true -> item_Match w it (set_response md resp) = item_Match w it md.
Proof. destruct it; cbn; intros H; subst; try discriminate; reflexivity. Qed.

Lemma response_free_any w l md resp :
  forallb response_free l = true -> any_item_of w l (set_response md resp) = any_item_of w l md.
Proof.
  unfold any_item_of. induction l as [|it l IH]; [done|]. cbn [forallb existsb]. intros H. to_prop.
  by rewrite IH, response_free_Match.
Qed.

Lemma response_free_all w l md resp :
  forallb response_free l = true ->
  forallb (fun it => item_Match w it (set_response md resp)) l = forallb (fun it => item_Match w it md) l.
Proof.
  induction l as [|it l IH]; [done|]. cbn [forallb]. intros H. to_prop. by rewrite IH, response_free_Match.
Qed.

Lemma any_item_of_set_Ignore w l md x :
  any_item_of w l (set_IgnoreDestinationIPCIDRMatch md x) = any_item_of w l md.
Proof.
  unfold any_item_of. induction l as [|it l IH]; [done|]. cbn [existsb]. by rewrite item_Match_set_Ignore, IH.
Qed.

Lemma fields_ok_set_Ignore w r md x : fields_ok w r (set_IgnoreDestinationIPCIDRMatch md x) = fields_ok w r md.
Proof.
  unfold fields_ok. induction (items r) as [|it l IH]; [done|]. cbn [forallb]. by rewrite item_Match_set_Ignore, IH.
Qed.

(** The two-phase evaluation of a legacy DNS rule loses no match: a rule
    without [invert], domain conditions or rule-sets that matches once the response
    is known has matched before the lookup, when its IP conditions are ignored. *)
Theorem legacy_prematch_sound w r tag race md resp :
  md_IgnoreDestinationIPCIDRMatch md = false -> md_IPCIDRMatchSource md = false ->
  destinationAddressItems r = [] ->
  forallb response_free (items r ++ sourceAddressItems r ++ sourcePortItems r ++ destinationPortItems r) = true ->
  MatchAddressLimit w (DefaultR (KDefaultDNSRule false tag race) (MkDefault r None false)) md resp = true ->
  (LegacyPreMatch w (DefaultR (KDefaultDNSRule false tag race) (MkDefault r None false)) md).1 = true.
Proof.
  intros Hi Hs Hd Hfree Hm. cbn [MatchAddressLimit LegacyPreMatch] in *.
  rewrite abstractDefault_Match_eq in Hm |- *.
  destruct (negb (nonempty (allItems r))); cbn [fst andb xorb] in *; [done|].
  rewrite !forallb_app in Hfree. to_prop.
  unfold doc_inner, groups_ok, group_ok, source_group, destination_group in *.
  rewrite Hd, fields_ok_set_Ignore, !any_item_of_set_Ignore in *. cbn [md_IPCIDRMatchSource md_IgnoreDestinationIPCIDRMatch set_response
    set_IgnoreDestinationIPCIDRMatch negb andb] in *. rewrite Hi, Hs in Hm. cbn [negb andb] in Hm.
  rewrite !app_nil_r in *. cbn [nonempty implb app].
  unfold fields_ok in *. rewrite response_free_all, (response_free_any w (sourceAddressItems r)),
    (response_free_any w (sourcePortItems r)), (response_free_any w (destinationPortItems r)) in Hm by done.
  to_prop.
  repeat match goal with H : _ = true |- _ => rewrite H; clear H end. done.
Qed.

(** A rule whose only condition is a rule-set, and the content of a rule-set that
    holds IP CIDR items only. *)
Definition only_rule_set : default_items := MkItems [] [] [] [] [] [] [AnyRuleSet].
Definition only_ip_cidr (ips : list RuleItem) : default_items := MkItems [] [] [] [] ips [] (AnyItem <$> ips).
Definition ip_rule_set (ips : list RuleItem) : RuleSetItem :=
  MkRuleSetItem ["geoip"] [MkRuleSet [DefaultR KDefaultHeadlessRule (MkDefault (only_ip_cidr ips) None false)] true] false false.

(** An inverted legacy DNS rule whose condition is a rule-set of IP CIDR items
    is rejected before the lookup whatever the query, although it would match
    every response outside the rule-set; the rule with the same items written in
    place passes.  ([matchInner] marks the metadata as matched when it reaches a
    rule-set, which the deferral of inverted rules in [Match] takes for an
    evaluated condition.) *)
Theorem legacy_inverted_rule_set_rejected w ips tag race md resp :
  nonempty ips = true -> md_DidMatch md = false ->
  let dns d := DefaultR (KDefaultDNSRule false tag race) d in
  (LegacyPreMatch w (dns (MkDefault only_rule_set (Some (ip_rule_set ips)) true)) md).1 = false
  /\ (LegacyPreMatch w (dns (MkDefault (merge_items only_rule_set (only_ip_cidr ips)) None true)) md).1 = true
  /\ (md_IgnoreDestinationIPCIDRMatch md = false ->
      MatchAddressLimit w (dns (MkDefault only_rule_set (Some (ip_rule_set ips)) true)) md resp
      = negb (any_item_of w ips (nestedMetadata false false (set_response md resp)))).
Proof.
  intros Hips Hdid dns. unfold dns. cbn [LegacyPreMatch MatchAddressLimit].
  rewrite !abstractDefault_Match_eq. unfold deferred_invert.
  cbn [allItems only_rule_set only_ip_cidr merge_items app nonempty negb fst].
  split; [|split].
  - unfold evaluated, doc_inner, ip_rule_set, doc_rule_set, merged_ok, merged_group. cbn.
    by rewrite !orb_true_r.
  - unfold evaluated, doc_inner, source_group, destination_group. cbn. rewrite Hdid, Hips. done.
  - intros Hi. unfold evaluated, doc_inner, ip_rule_set, doc_rule_set, merged_ok, merged_group,
      source_group, destination_group.
    cbn. rewrite Hi. cbn. rewrite Hips. unfold any_item_of.
    by destruct (md_IPCIDRMatchSource md), (existsb _ ips).
Qed.

End Spec.

(** ** Witnesses *)

Definition ex_world : World := {|
  w_IsAndroid := false; w_ClashMode := "rule"; w_DefaultNetworkInterface := None;
  w_SSID := ""; w_BSSID := ""; w_Interfaces := []; w_NetworkInterfaces := []; w_MyInterfaces := [];
  w_DefaultInterface := None; w_PreferredDomain := fun _ _ => false;
  w_PreferredAddress := fun _ _ _ => false; w_DNSPreferredDomain := fun _ _ => false;
  w_IsDuplicate := fun _ _ => false |}.

(** A connection to example.com:443 at 10.1.2.3. *)
Definition ex_md : InboundContext := {|
  md_Inbound := "in"; md_IPVersion := 4; md_Network := "tcp";
  md_Source := MkSocksaddr (Addr4 3232235777) 5000 "";
  md_Destination := MkSocksaddr (Addr4 167838211) 443 "";
  md_User := ""; md_Outbound := ""; md_Protocol := "tls"; md_Domain := "Example.com"; md_Client := "";
  md_DestinationAddresses := []; md_DNSResponse := None; md_NamedDNSResponses := ∅;
  md_DestinationAddressMatchFromResponse := false; md_ProcessInfo := None; md_SourceMACAddress := None;
  md_SourceHostname := ""; md_QueryType := 0; md_PreMatch := false;
  md_IPCIDRMatchSource := false; md_IPCIDRAcceptEmpty := false; md_SourceAddressMatch := false;
  md_SourcePortMatch := false; md_DestinationAddressMatch := false; md_DestinationPortMatch := false;
  md_DidMatch := false; md_IgnoreDestinationIPCIDRMatch := false |}.

Definition ex_response : Msg := 
  MkMsg (MkMsgHdr 0 true 0 false false true true false false RcodeSuccess) []
    [RR_A (MkHeader "example.com." TypeA ClassINET 60) [10; 0; 0; 1]] [] [].

Definition ex_cidr : RuleItem :=
  IPCIDRItem [MkIPRange (Addr4 (10 * 2 ^ 24)) (Addr4 (11 * 2 ^ 24 - 1))] false.
Definition ex_domain : RuleItem := DomainItem ([], ["example.com"]).

(** port 443 and (domain suffix example.com or 10.0.0.0/8), plus a rule-set. *)
Definition ex_rule : default_items :=
  MkItems [NewNetworkItem ["tcp"]] [] [] [ex_domain] [ex_cidr] [NewPortItem false [443]]
    [AnyItem (NewNetworkItem ["tcp"]); AnyItem ex_domain; AnyItem ex_cidr; AnyItem (NewPortItem false [443]); AnyRuleSet].
Definition ex_branch : default_items :=
  MkItems [NewProtocolItem ["tls"]] [] [] [] [] [NewPortItem false [80]]
    [AnyItem (NewProtocolItem ["tls"]); AnyItem (NewPortItem false [80])].

Lemma default_rule_matches_doc_witness :
  (abstractDefault_Match ex_world (MkDefault ex_rule None false) ex_md).1 = true
  /\ (abstractDefault_Match ex_world (MkDefault ex_rule None true) ex_md).1 = doc_match ex_world ex_rule None true ex_md.
Proof. split; [vm_compute; reflexivity|]. apply default_rule_matches_doc. reflexivity. Defined.

Lemma single_rule_set_merges_witness :
  (abstractDefault_Match ex_world
     (MkDefault ex_rule (Some (MkRuleSetItem ["s"]
        [MkRuleSet [DefaultR KDefaultHeadlessRule (MkDefault ex_branch None false)] false] false false)) false) ex_md).1
  = (abstractDefault_Match ex_world (MkDefault (merge_items ex_rule ex_branch) None false) ex_md).1
  /\ (abstractDefault_Match ex_world (MkDefault (merge_items ex_rule ex_branch) None false) ex_md).1 = true.
Proof.
  split; [|vm_compute; reflexivity].
  apply (single_rule_set_merges ex_world ex_rule ex_branch ["s"] false false ex_md); reflexivity.
Defined.

Lemma rule_order_irrelevant_witness :
  let a := DefaultR KDefaultRule (MkDefault ex_rule None false) in
  let b := DefaultR KDefaultRule (MkDefault ex_branch None true) in
  abstractLogical_Match ex_world (MkLogical [a; b] "and" false) ex_md
  = abstractLogical_Match ex_world (MkLogical [b; a] "and" false) ex_md.
Proof.
  intros a b.
  apply (rule_order_irrelevant ex_world [a; b] [b; a] "and" false ex_md [] [] [] false false ex_rule false);
    [apply Permutation_swap|reflexivity].
Defined.

Lemma legacy_prematch_sound_witness :
  let r := MkItems [NewNetworkItem ["tcp"]] [] [] [] [ex_cidr] [] [AnyItem (NewNetworkItem ["tcp"]); AnyItem ex_cidr] in
  (LegacyPreMatch ex_world (DefaultR (KDefaultDNSRule false "" false) (MkDefault r None false)) ex_md).1 = true.
Proof.
  intros r. refine (legacy_prematch_sound ex_world r "" false ex_md (Some ex_response) eq_refl eq_refl eq_refl eq_refl _).
  vm_compute. reflexivity.
Defined.

Lemma legacy_inverted_rule_set_rejected_witness :
  (LegacyPreMatch ex_world (DefaultR (KDefaultDNSRule false "" false)
     (MkDefault only_rule_set (Some (ip_rule_set [ex_cidr])) true)) ex_md).1 = false.
Proof.
  apply (legacy_inverted_rule_set_rejected ex_world [ex_cidr] "" false ex_md None); reflexivity.
Defined.

