(* ===== verification/RuleOptions.v ===== *)
(** * Rule options

    The option structs of option/rule_set.go, option/rule.go and
    option/rule_dns.go as the configuration parser leaves them: slices that may
    be nil, pointers that may be nil.  [IsValid] compares a rule with its zero
    value by [reflect.DeepEqual], which tells a nil slice from an empty one. *)

From S2P Require Import Prelude GoStd Netip External.
Local Open Scope Z_scope.

Section Options.
Context {X : External}.

Abbreviation strs := (option (list string)) (only parsing).
Abbreviation addrs := (option (list (option Prefix))) (only parsing).

(** ** option.DefaultHeadlessRule *)

Record DefaultHeadlessRule := {
  h_QueryType : slice Z;
  h_Network : strs;
  h_Domain : strs;
  h_DomainSuffix : strs;
  h_DomainKeyword : strs;
  h_DomainRegex : strs;
  h_SourceIPCIDR : strs;
  h_IPCIDR : strs;
  h_SourcePort : slice Z;
  h_SourcePortRange : strs;
  h_Port : slice Z;
  h_PortRange : strs;
  h_ProcessName : strs;
  h_ProcessPath : strs;
  h_ProcessPathRegex : strs;
  h_PackageName : strs;
  h_PackageNameRegex : strs;
  h_NetworkType : slice Z;
  h_NetworkIsExpensive : bool;
  h_NetworkIsConstrained : bool;
  h_WIFISSID : strs;
  h_WIFIBSSID : strs;
  h_NetworkInterfaceAddress : option (TypedMap Z addrs);
  h_DefaultInterfaceAddress : addrs;
  h_Invert : bool;
  h_DomainMatcher : option Matcher;
  h_SourceIPSet : option IPSet;
  h_IPSet : option IPSet;
  h_AdGuardDomain : strs;
  h_AdGuardDomainMatcher : option AdGuardMatcher
}.

(** [var defaultValue DefaultHeadlessRule] with the given [Invert]. *)
Definition zero_headless (invert : bool) : DefaultHeadlessRule :=
  {| h_QueryType := None; h_Network := None; h_Domain := None; h_DomainSuffix := None;
     h_DomainKeyword := None; h_DomainRegex := None; h_SourceIPCIDR := None; h_IPCIDR := None;
     h_SourcePort := None; h_SourcePortRange := None; h_Port := None; h_PortRange := None;
     h_ProcessName := None; h_ProcessPath := None; h_ProcessPathRegex := None;
     h_PackageName := None; h_PackageNameRegex := None; h_NetworkType := None;
     h_NetworkIsExpensive := false; h_NetworkIsConstrained := false; h_WIFISSID := None;
     h_WIFIBSSID := None; h_NetworkInterfaceAddress := None; h_DefaultInterfaceAddress := None;
     h_Invert := invert; h_DomainMatcher := None; h_SourceIPSet := None; h_IPSet := None;
     h_AdGuardDomain := None; h_AdGuardDomainMatcher := None |}.

Definition is_nil {A} (o : option A) : bool := match o with None => true | Some _ => false end.

(** Every field other than [IPCIDR], [IPSet] and [Invert] has its zero value. *)
Definition only_ip_fields (r : DefaultHeadlessRule) : bool :=
  is_nil (h_QueryType r) && is_nil (h_Network r) && is_nil (h_Domain r) && is_nil (h_DomainSuffix r)
  && is_nil (h_DomainKeyword r) && is_nil (h_DomainRegex r) && is_nil (h_SourceIPCIDR r)
  && is_nil (h_SourcePort r) && is_nil (h_SourcePortRange r) && is_nil (h_Port r) && is_nil (h_PortRange r)
  && is_nil (h_ProcessName r) && is_nil (h_ProcessPath r) && is_nil (h_ProcessPathRegex r)
  && is_nil (h_PackageName r) && is_nil (h_PackageNameRegex r) && is_nil (h_NetworkType r)
  && negb (h_NetworkIsExpensive r) && negb (h_NetworkIsConstrained r) && is_nil (h_WIFISSID r)
  && is_nil (h_WIFIBSSID r) && is_nil (h_NetworkInterfaceAddress r) && is_nil (h_DefaultInterfaceAddress r)
  && is_nil (h_DomainMatcher r) && is_nil (h_SourceIPSet r) && is_nil (h_AdGuardDomain r)
  && is_nil (h_AdGuardDomainMatcher r).

(** [DefaultHeadlessRule.IsValid] *)
Definition DefaultHeadlessRule_IsValid (r : DefaultHeadlessRule) : bool :=
  negb (only_ip_fields r && is_nil (h_IPCIDR r) && is_nil (h_IPSet r)).

(** [option.HeadlessRule] and [option.LogicalHeadlessRule] *)
Inductive HeadlessRule :=
| MkHeadless (type : string) (DefaultOptions : DefaultHeadlessRule) (LogicalOptions : LogicalHeadlessRule)
with LogicalHeadlessRule :=
| MkLogicalHeadless (mode : string) (rules : option (list HeadlessRule)) (invert : bool).

Definition zero_logical_headless : LogicalHeadlessRule := MkLogicalHeadless "" None false.
Definition default_headless (d : DefaultHeadlessRule) : HeadlessRule :=
  MkHeadless "default" d zero_logical_headless.
Definition logical_headless (mode : string) (rules : list HeadlessRule) (invert : bool) : HeadlessRule :=
  MkHeadless "logical" (zero_headless false) (MkLogicalHeadless mode (Some rules) invert).

(** [HeadlessRule.IsValid]: panics on an unknown type.  [LogicalHeadlessRule.IsValid]
    stops at the first invalid sub-rule. *)
Fixpoint HeadlessRule_IsValid (r : HeadlessRule) : outcome bool :=
  match r with
  | MkHeadless type d l =>
      if bool_decide (type = "default") || bool_decide (type = "") then Ok (DefaultHeadlessRule_IsValid d)
      else if bool_decide (type = "logical") then LogicalHeadlessRule_IsValid l
      else Panic ("unknown rule type: " +:+ type)
  end
with LogicalHeadlessRule_IsValid (l : LogicalHeadlessRule) : outcome bool :=
  match l with
  | MkLogicalHeadless _ None _ | MkLogicalHeadless _ (Some []) _ => Ok false
  | MkLogicalHeadless _ (Some rules) _ =>
      (fix all (rs : list HeadlessRule) : outcome bool :=
         match rs with
         | [] => Ok true
         | r :: rs' =>
             let* ok := HeadlessRule_IsValid r in
             if ok then all rs' else Ok false
         end) rules
  end.

(** [option.PlainRuleSetCompat] and [Upgrade] *)
Record PlainRuleSet := MkPlainRuleSet { pr_Rules : slice HeadlessRule }.
Record PlainRuleSetCompat := MkCompat { pc_Version : Z; pc_Options : PlainRuleSet }.

Definition Upgrade (c : PlainRuleSetCompat) : outcome PlainRuleSet :=
  if (1 <=? pc_Version c) && (pc_Version c <=? 5) then Ok (pc_Options c)
  else Err (ENew ("unknown rule-set version: " +:+ pretty (pc_Version c))).

(** ** option.RawDefaultRule and option.RawDefaultDNSRule

    The fields both structs have, then those of each. *)

Record CommonRule := {
  c_Inbound : strs;
  c_IPVersion : Z;
  c_Network : strs;
  c_AuthUser : strs;
  c_Protocol : strs;
  c_Domain : strs;
  c_DomainSuffix : strs;
  c_DomainKeyword : strs;
  c_DomainRegex : strs;
  c_Geosite : strs;
  c_SourceGeoIP : strs;
  c_GeoIP : strs;
  c_SourceIPCIDR : strs;
  c_SourceIPIsPrivate : bool;
  c_IPCIDR : strs;
  c_IPIsPrivate : bool;
  c_SourcePort : slice Z;
  c_SourcePortRange : strs;
  c_Port : slice Z;
  c_PortRange : strs;
  c_ProcessName : strs;
  c_ProcessPath : strs;
  c_ProcessPathRegex : strs;
  c_PackageName : strs;
  c_PackageNameRegex : strs;
  c_User : strs;
  c_UserID : slice Z;
  c_ClashMode : string;
  c_NetworkType : slice Z;
  c_NetworkIsExpensive : bool;
  c_NetworkIsConstrained : bool;
  c_WIFISSID : strs;
  c_WIFIBSSID : strs;
  c_InterfaceAddress : option (TypedMap string addrs);
  c_NetworkInterfaceAddress : option (TypedMap Z addrs);
  c_DefaultInterfaceAddress : addrs;
  c_SourceMACAddress : strs;
  c_SourceHostname : strs;
  c_PreferredBy : strs;
  c_RuleSet : strs;
  c_RuleSetIPCIDRMatchSource : bool;
  c_Invert : bool;
  c_Deprecated_RulesetIPCIDRMatchSource : bool
}.

Record RawDefaultRule := MkRawDefaultRule {
  r_common :> CommonRule;
  r_Client : strs
}.

(** [DNSRuleMatchResponse], with [IsEnabled] and [ResponseTag] of a possibly nil pointer. *)
Record DNSRuleMatchResponse := { mr_Enabled : bool; mr_Tag : string }.
Definition IsEnabled (m : option DNSRuleMatchResponse) : bool :=
  match m with Some m => mr_Enabled m | None => false end.
Definition ResponseTag (m : option DNSRuleMatchResponse) : string :=
  match m with Some m => mr_Tag m | None => "" end.

(** [R] is the type of resource records. *)
Record RawDefaultDNSRule (R : Type) := MkRawDefaultDNSRule {
  n_common :> CommonRule;
  n_QueryType : slice Z;
  n_Outbound : strs;
  n_MatchResponse : option DNSRuleMatchResponse;
  n_IPAcceptAny : bool;
  n_ResponseRcode : option Z;
  n_ResponseAnswer : slice (option R);
  n_ResponseNs : slice (option R);
  n_ResponseExtra : slice (option R);
  n_RuleSetIPCIDRAcceptEmpty : bool
}.

(** ** Induction on headless rules *)

Section headless_ind.
Variable P : HeadlessRule -> Prop.
Hypothesis Hrule : forall type d mode rules invert,
  (forall rs, rules = Some rs -> Forall P rs) ->
  P (MkHeadless type d (MkLogicalHeadless mode rules invert)).

Fixpoint HeadlessRule_nested_ind (r : HeadlessRule) : P r :=
  match r with
  | MkHeadless type d (MkLogicalHeadless mode rules invert) =>
      Hrule type d mode rules invert
        (match rules as o return forall rs, o = Some rs -> Forall P rs with
         | None => fun rs H => match H in (_ = y) return match y with None => True | Some rs => Forall P rs end
                               with eq_refl => I end
         | Some rs0 => fun rs H =>
             match H in (_ = y) return match y with None => True | Some rs => Forall P rs end with
             | eq_refl => (fix go (l : list HeadlessRule) : Forall P l :=
                             match l with
                             | [] => Forall_nil_2 P
                             | r :: l' => Forall_cons_2 P r l' (HeadlessRule_nested_ind r) (go l')
                             end) rs0
             end
         end)
  end.
End headless_ind.

Lemma DefaultHeadlessRule_IsValid_spec r :
  DefaultHeadlessRule_IsValid r = false <-> r = zero_headless (h_Invert r).
Proof.
  unfold DefaultHeadlessRule_IsValid, only_ip_fields. split.
  - intros H. to_prop. destruct r; cbn in *.
    repeat match goal with H : is_nil ?x = true |- _ => destruct x; [discriminate|clear H] end.
    by subst.
  - intros ->. done.
Qed.

End Options.

Arguments n_common {X R} r.
Arguments n_QueryType {X R} r.
Arguments n_Outbound {X R} r.
Arguments n_MatchResponse {X R} r.
Arguments n_IPAcceptAny {X R} r.
Arguments n_ResponseRcode {X R} r.
Arguments n_ResponseAnswer {X R} r.
Arguments n_ResponseNs {X R} r.
Arguments n_ResponseExtra {X R} r.
Arguments n_RuleSetIPCIDRAcceptEmpty {X R} r.
