(* ===== verification/RuleBuild.v ===== *)
(** * Building rules from options

    route/rule/rule_headless.go, and the condition part of [NewDefaultRule]
    (rule_default.go) and [NewDefaultDNSRule] (rule_dns.go): one entry of a step
    list per [if] of the constructor, in source order.  The rule action is not
    part of the model; [rule_set.go]'s scans of headless options are. *)

From S2P Require Import Prelude GoStd Netip External DnsMsg RuleItems RuleMatch RuleOptions.
Local Open Scope Z_scope.

(** ** Appending items *)

(** The item list of [abstractDefaultRule] that a condition is appended to. *)
Inductive group := GItems | GSourceAddress | GSourcePort | GDestinationAddress | GDestinationIPCIDR | GDestinationPort.

#[export] Instance group_eq_dec : EqDecision group.
Proof. solve_decision. Defined.

(** A list an item is appended to: one of the six, or [rule.allItems]. *)
Inductive target := To (g : group) | ToAllItems.

#[export] Instance target_eq_dec : EqDecision target.
Proof. solve_decision. Defined.

Section Build.
Context {X : External}.

Definition empty_items : default_items := MkItems [] [] [] [] [] [] [].

(** [rule.<list> = append(rule.<list>, item)] *)
Definition append_to (t : target) (it : RuleItem) (r : default_items) : default_items :=
  let '(MkItems i sa sp da dc dp all) := r in
  match t with
  | To GItems => MkItems (i ++ [it]) sa sp da dc dp all
  | To GSourceAddress => MkItems i (sa ++ [it]) sp da dc dp all
  | To GSourcePort => MkItems i sa (sp ++ [it]) da dc dp all
  | To GDestinationAddress => MkItems i sa sp (da ++ [it]) dc dp all
  | To GDestinationIPCIDR => MkItems i sa sp da (dc ++ [it]) dp all
  | To GDestinationPort => MkItems i sa sp da dc (dp ++ [it]) all
  | ToAllItems => MkItems i sa sp da dc dp (all ++ [AnyItem it])
  end.

(** The appends at the end of a block, in their order. *)
Definition append_to_lists (ts : list target) (it : RuleItem) (r : default_items) : default_items :=
  fold_left (fun r t => append_to t it r) ts r.
Definition group_list (g : group) (r : default_items) : list RuleItem :=
  match g with
  | GItems => items r
  | GSourceAddress => sourceAddressItems r
  | GSourcePort => sourcePortItems r
  | GDestinationAddress => destinationAddressItems r
  | GDestinationIPCIDR => destinationIPCIDRItems r
  | GDestinationPort => destinationPortItems r
  end.

(** One [if] block of a constructor: the appends it ends with, and, when its
    condition holds, the item it makes or the error it returns. *)
Definition step : Type := list target * option (outcome RuleItem).
Definition when (c : bool) (o : outcome RuleItem) : option (outcome RuleItem) := if c then Some o else None.
Definition given {A} (s : slice A) : bool := 0 <? slen s.

Fixpoint run_steps (l : list step) (r : default_items) : outcome default_items :=
  match l with
  | [] => Ok r
  | (_, None) :: l' => run_steps l' r
  | (ts, Some o) :: l' =>
      let* it := o in
      run_steps l' (append_to_lists ts it r)
  end.

Definition cause {A} (msg : string) (m : outcome A) : outcome A := wrap_err (fun e => ECause e msg) m.

(** ** rule_headless.go *)

(** [NewDefaultHeadlessRule], up to the process conditions. *)
Definition headless_steps (o : DefaultHeadlessRule) : list step := [
  ([To GItems; ToAllItems], when (given (h_QueryType o)) (Ok (NewQueryTypeItem (elems (h_QueryType o)))));
  ([To GItems; ToAllItems], when (given (h_Network o)) (Ok (NewNetworkItem (elems (h_Network o)))));
  ([To GDestinationAddress; ToAllItems],
    if given (h_Domain o) || given (h_DomainSuffix o)
    then Some (NewDomainItem (elems (h_Domain o)) (elems (h_DomainSuffix o)))
    else (fun m => Ok (NewRawDomainItem m)) <$> h_DomainMatcher o);
  ([To GDestinationAddress; ToAllItems], when (given (h_DomainKeyword o)) (Ok (NewDomainKeywordItem (elems (h_DomainKeyword o)))));
  ([To GDestinationAddress; ToAllItems], when (given (h_DomainRegex o))
    (cause "domain_regex" (NewDomainRegexItem (elems (h_DomainRegex o)))));
  ([To GSourceAddress; ToAllItems],
    if given (h_SourceIPCIDR o) then Some (cause "source_ip_cidr" (NewIPCIDRItem true (elems (h_SourceIPCIDR o))))
    else (fun s => Ok (NewRawIPCIDRItem true s)) <$> h_SourceIPSet o);
  ([To GDestinationIPCIDR; ToAllItems],
    if given (h_IPCIDR o) then Some (cause "ipcidr" (NewIPCIDRItem false (elems (h_IPCIDR o))))
    else (fun s => Ok (NewRawIPCIDRItem false s)) <$> h_IPSet o);
  ([To GSourcePort; ToAllItems], when (given (h_SourcePort o)) (Ok (NewPortItem true (elems (h_SourcePort o)))));
  ([To GSourcePort; ToAllItems], when (given (h_SourcePortRange o))
    (cause "source_port_range" (NewPortRangeItem true (elems (h_SourcePortRange o)))));
  ([To GDestinationPort; ToAllItems], when (given (h_Port o)) (Ok (NewPortItem false (elems (h_Port o)))));
  ([To GDestinationPort; ToAllItems], when (given (h_PortRange o))
    (cause "port_range" (NewPortRangeItem false (elems (h_PortRange o)))));
  ([To GItems; ToAllItems], when (given (h_ProcessName o)) (Ok (NewProcessItem (elems (h_ProcessName o)))));
  ([To GItems; ToAllItems], when (given (h_ProcessPath o)) (Ok (NewProcessPathItem (elems (h_ProcessPath o)))));
  ([To GItems; ToAllItems], when (given (h_ProcessPathRegex o))
    (cause "process_path_regex" (NewProcessPathRegexItem (elems (h_ProcessPathRegex o)))));
  ([To GItems; ToAllItems], when (given (h_PackageName o)) (Ok (NewPackageNameItem (elems (h_PackageName o)))));
  ([To GItems; ToAllItems], when (given (h_PackageNameRegex o))
    (cause "package_name_regex" (NewPackageNameRegexItem (elems (h_PackageNameRegex o)))))
].

Definition typed_map_given {K V} (m : option (TypedMap K V)) : bool :=
  match m with Some m => 0 <? TypedMap_Size m | None => false end.

(** The conditions that need a network manager. *)
Definition headless_network_steps (o : DefaultHeadlessRule) : list step := [
  ([To GItems; ToAllItems], when (given (h_NetworkType o)) (Ok (NewNetworkTypeItem (elems (h_NetworkType o)))));
  ([To GItems; ToAllItems], when (h_NetworkIsExpensive o) (Ok NetworkIsExpensiveItem));
  ([To GItems; ToAllItems], when (h_NetworkIsConstrained o) (Ok NetworkIsConstrainedItem));
  ([To GItems; ToAllItems], when (given (h_WIFISSID o)) (Ok (NewWIFISSIDItem (elems (h_WIFISSID o)))));
  ([To GItems; ToAllItems], when (given (h_WIFIBSSID o)) (Ok (NewWIFIBSSIDItem (elems (h_WIFIBSSID o)))));
  ([To GItems; ToAllItems], if typed_map_given (h_NetworkInterfaceAddress o)
           then (fun m => Ok (NewNetworkInterfaceAddressItem m)) <$> h_NetworkInterfaceAddress o else None);
  ([To GItems; ToAllItems], when (given (h_DefaultInterfaceAddress o)) (Ok (NewDefaultInterfaceAddressItem (h_DefaultInterfaceAddress o))))
].

Definition headless_adguard_steps (o : DefaultHeadlessRule) : list step := [
  ([To GDestinationAddress; ToAllItems],
    if given (h_AdGuardDomain o) then Some (Ok (NewAdGuardDomainItem (elems (h_AdGuardDomain o))))
    else (fun m => Ok (NewRawAdGuardDomainItem m)) <$> h_AdGuardDomainMatcher o)
].

(** [hasNetworkManager]: the context holds an [adapter.NetworkManager]. *)
Definition NewDefaultHeadlessRule (hasNetworkManager : bool) (o : DefaultHeadlessRule) : outcome abstractDefaultRule :=
  let* r := run_steps (headless_steps o
                       ++ (if hasNetworkManager then headless_network_steps o else [])
                       ++ headless_adguard_steps o) empty_items in
  Ok (MkDefault r None (h_Invert o)).

(** The [switch options.Mode] of the logical constructors. *)
Definition check_mode (mode : string) : outcome string :=
  if bool_decide (mode = "and") then Ok "and"
  else if bool_decide (mode = "or") then Ok "or"
  else Err (ENew ("unknown logical mode: " +:+ mode)).

Definition sub_rule_msg (i : Z) : string := "sub rule[" +:+ pretty i +:+ "]".

(** [NewHeadlessRule] and [NewLogicalHeadlessRule] *)
Fixpoint NewHeadlessRule (nm : bool) (o : HeadlessRule) : outcome Rule :=
  match o with
  | MkHeadless type d l =>
      if bool_decide (type = "") || bool_decide (type = "default") then
        if negb (DefaultHeadlessRule_IsValid d) then Err (ENew "missing conditions")
        else let* r := NewDefaultHeadlessRule nm d in Ok (DefaultR KDefaultHeadlessRule r)
      else if bool_decide (type = "logical") then
        let* valid := LogicalHeadlessRule_IsValid l in
        if negb valid then Err (ENew "missing conditions")
        else let* r := NewLogicalHeadlessRule nm l in Ok (LogicalR KLogicalHeadlessRule r)
      else Err (ENew ("unknown rule type: " +:+ type))
  end
with NewLogicalHeadlessRule (nm : bool) (l : LogicalHeadlessRule) : outcome abstractLogicalRule :=
  match l with
  | MkLogicalHeadless mode rules invert =>
      let* mode := check_mode mode in
      let new_all := (fix go (i : Z) (rs : list HeadlessRule) : outcome (list Rule) :=
                        match rs with
                        | [] => Ok []
                        | r :: rs' =>
                            let* x := cause (sub_rule_msg i) (NewHeadlessRule nm r) in
                            let* xs := go (i + 1) rs' in
                            Ok (x :: xs)
                        end) in
      let* rs := match rules with Some rs => new_all 0 rs | None => Ok [] end in
      Ok (MkLogical rs mode invert)
  end.

(** ** rule_default.go: the conditions of [NewDefaultRule] *)

Definition ip_version_step (v : Z) : step :=
  ([To GItems; ToAllItems], when (0 <? v)
     (if (v =? 4) || (v =? 6) then Ok (NewIPVersionItem (v =? 6))
      else Err (ENew ("invalid ip version: " +:+ pretty v)))).
Definition geosite_removed : error :=
  ENew "geosite database is deprecated in sing-box 1.8.0 and removed in sing-box 1.12.0".
Definition geoip_removed : error :=
  ENew "geoip database is deprecated in sing-box 1.8.0 and removed in sing-box 1.12.0".
Definition match_source_removed : error :=
  ENew "rule_set_ipcidr_match_source is deprecated in sing-box 1.10.0 and removed in sing-box 1.11.0".

Definition default_rule_steps (o : RawDefaultRule) : list step := [
  ([To GItems; ToAllItems], when (given (c_Inbound o)) (Ok (NewInboundRule (elems (c_Inbound o)))));
  ip_version_step (c_IPVersion o);
  ([To GItems; ToAllItems], when (given (c_Network o)) (Ok (NewNetworkItem (elems (c_Network o)))));
  ([To GItems; ToAllItems], when (given (c_AuthUser o)) (Ok (NewAuthUserItem (elems (c_AuthUser o)))));
  ([To GItems; ToAllItems], when (given (c_Protocol o)) (Ok (NewProtocolItem (elems (c_Protocol o)))));
  ([To GItems; ToAllItems], when (given (r_Client o)) (Ok (NewClientItem (elems (r_Client o)))));
  ([To GDestinationAddress; ToAllItems], when (given (c_Domain o) || given (c_DomainSuffix o))
    (NewDomainItem (elems (c_Domain o)) (elems (c_DomainSuffix o))));
  ([To GDestinationAddress; ToAllItems], when (given (c_DomainKeyword o)) (Ok (NewDomainKeywordItem (elems (c_DomainKeyword o)))));
  ([To GDestinationAddress; ToAllItems], when (given (c_DomainRegex o)) (NewDomainRegexItem (elems (c_DomainRegex o))));
  ([], when (given (c_Geosite o)) (Err geosite_removed));
  ([], when (given (c_SourceGeoIP o)) (Err geoip_removed));
  ([], when (given (c_GeoIP o)) (Err geoip_removed));
  ([To GSourceAddress; ToAllItems], when (given (c_SourceIPCIDR o))
    (cause "source_ip_cidr" (NewIPCIDRItem true (elems (c_SourceIPCIDR o)))));
  ([To GSourceAddress; ToAllItems], when (c_SourceIPIsPrivate o) (Ok (NewIPIsPrivateItem true)));
  ([To GDestinationIPCIDR; ToAllItems], when (given (c_IPCIDR o))
    (cause "ipcidr" (NewIPCIDRItem false (elems (c_IPCIDR o)))));
  ([To GDestinationIPCIDR; ToAllItems], when (c_IPIsPrivate o) (Ok (NewIPIsPrivateItem false)));
  ([To GSourcePort; ToAllItems], when (given (c_SourcePort o)) (Ok (NewPortItem true (elems (c_SourcePort o)))));
  ([To GSourcePort; ToAllItems], when (given (c_SourcePortRange o))
    (cause "source_port_range" (NewPortRangeItem true (elems (c_SourcePortRange o)))));
  ([To GDestinationPort; ToAllItems], when (given (c_Port o)) (Ok (NewPortItem false (elems (c_Port o)))));
  ([To GDestinationPort; ToAllItems], when (given (c_PortRange o))
    (cause "port_range" (NewPortRangeItem false (elems (c_PortRange o)))))
].

(** The conditions from [process_name] to [preferred_by], in the order both
    constructors have them; the DNS constructor adds [outbound] after [user_id]
    and resolves [preferred_by] against DNS servers. *)
Definition process_steps (o : CommonRule) : list step := [
  ([To GItems; ToAllItems], when (given (c_ProcessName o)) (Ok (NewProcessItem (elems (c_ProcessName o)))));
  ([To GItems; ToAllItems], when (given (c_ProcessPath o)) (Ok (NewProcessPathItem (elems (c_ProcessPath o)))));
  ([To GItems; ToAllItems], when (given (c_ProcessPathRegex o))
    (cause "process_path_regex" (NewProcessPathRegexItem (elems (c_ProcessPathRegex o)))));
  ([To GItems; ToAllItems], when (given (c_PackageName o)) (Ok (NewPackageNameItem (elems (c_PackageName o)))));
  ([To GItems; ToAllItems], when (given (c_PackageNameRegex o))
    (cause "package_name_regex" (NewPackageNameRegexItem (elems (c_PackageNameRegex o)))));
  ([To GItems; ToAllItems], when (given (c_User o)) (Ok (NewUserItem (elems (c_User o)))));
  ([To GItems; ToAllItems], when (given (c_UserID o)) (Ok (NewUserIDItem (elems (c_UserID o)))))
].
Definition network_steps (o : CommonRule) : list step := [
  ([To GItems; ToAllItems], when (negb (bool_decide (c_ClashMode o = ""))) (Ok (NewClashModeItem (c_ClashMode o))));
  ([To GItems; ToAllItems], when (given (c_NetworkType o)) (Ok (NewNetworkTypeItem (elems (c_NetworkType o)))));
  ([To GItems; ToAllItems], when (c_NetworkIsExpensive o) (Ok NetworkIsExpensiveItem));
  ([To GItems; ToAllItems], when (c_NetworkIsConstrained o) (Ok NetworkIsConstrainedItem));
  ([To GItems; ToAllItems], when (given (c_WIFISSID o)) (Ok (NewWIFISSIDItem (elems (c_WIFISSID o)))));
  ([To GItems; ToAllItems], when (given (c_WIFIBSSID o)) (Ok (NewWIFIBSSIDItem (elems (c_WIFIBSSID o)))));
  ([To GItems; ToAllItems], if typed_map_given (c_InterfaceAddress o)
           then (fun m => Ok (NewInterfaceAddressItem m)) <$> c_InterfaceAddress o else None);
  ([To GItems; ToAllItems], if typed_map_given (c_NetworkInterfaceAddress o)
           then (fun m => Ok (NewNetworkInterfaceAddressItem m)) <$> c_NetworkInterfaceAddress o else None);
  ([To GItems; ToAllItems], when (given (c_DefaultInterfaceAddress o)) (Ok (NewDefaultInterfaceAddressItem (c_DefaultInterfaceAddress o))));
  ([To GItems; ToAllItems], when (given (c_SourceMACAddress o)) (Ok (NewSourceMACAddressItem (elems (c_SourceMACAddress o)))));
  ([To GItems; ToAllItems], when (given (c_SourceHostname o)) (Ok (NewSourceHostnameItem (elems (c_SourceHostname o)))))
].

(** The rule-set part shared by both constructors. *)
Definition add_rule_set (o : CommonRule) (acceptEmpty : bool) (r : default_items) : outcome abstractDefaultRule :=
  if given (c_RuleSet o) then
    if c_Deprecated_RulesetIPCIDRMatchSource o then Err match_source_removed
    else
      let rs := MkRuleSetItem (elems (c_RuleSet o)) [] (c_RuleSetIPCIDRMatchSource o) acceptEmpty in
      let '(MkItems i sa sp da dc dp all) := r in
      Ok (MkDefault (MkItems i sa sp da dc dp (all ++ [AnyRuleSet])) (Some rs) (c_Invert o))
  else Ok (MkDefault r None (c_Invert o)).

Definition preferred_by_steps (o : CommonRule) (new : list string -> RuleItem) : list step := [
  ([To GItems; ToAllItems], when (given (c_PreferredBy o)) (Ok (new (elems (c_PreferredBy o)))))
].

Definition NewDefaultRule_conditions (o : RawDefaultRule) : outcome abstractDefaultRule :=
  let* r := run_steps (default_rule_steps o ++ process_steps o ++ network_steps o
                       ++ preferred_by_steps o NewPreferredByItem) empty_items in
  add_rule_set o false r.

(** [abstractDefaultRule.Start]: the items of [allItems] in order; the group lists
    share them.  The rule-set item is started by RuleSetRefs. *)
Definition start_any (start : RuleItem -> outcome RuleItem) (it : any_item) : outcome any_item :=
  match it with
  | AnyItem it => let* it := start it in Ok (AnyItem it)
  | AnyRuleSet => Ok AnyRuleSet
  end.
Definition start_items (start : RuleItem -> outcome RuleItem) (r : default_items) : outcome default_items :=
  let* all := omap_ix (fun _ => start_any start) (allItems r) in
  let list_ l := omap_ix (fun _ => start) l in
  let* i := list_ (items r) in
  let* sa := list_ (sourceAddressItems r) in
  let* sp := list_ (sourcePortItems r) in
  let* da := list_ (destinationAddressItems r) in
  let* dc := list_ (destinationIPCIDRItems r) in
  let* dp := list_ (destinationPortItems r) in
  Ok (MkItems i sa sp da dc dp all).

(** ** rule_dns.go: the conditions of [NewDefaultDNSRule] *)

Definition dnsResponseAnswers (m : Msg) : list RR := Answer m.
Definition dnsResponseNS (m : Msg) : list RR := Ns m.
Definition dnsResponseExtra (m : Msg) : list RR := Extra m.

Definition default_dns_steps (o : RawDefaultDNSRule RR) : list step := [
  ([To GItems; ToAllItems], when (given (c_Inbound o)) (Ok (NewInboundRule (elems (c_Inbound o)))));
  ip_version_step (c_IPVersion o);
  ([To GItems; ToAllItems], when (given (n_QueryType o)) (Ok (NewQueryTypeItem (elems (n_QueryType o)))));
  ([To GItems; ToAllItems], when (given (c_Network o)) (Ok (NewNetworkItem (elems (c_Network o)))));
  ([To GItems; ToAllItems], when (given (c_AuthUser o)) (Ok (NewAuthUserItem (elems (c_AuthUser o)))));
  ([To GItems; ToAllItems], when (given (c_Protocol o)) (Ok (NewProtocolItem (elems (c_Protocol o)))));
  ([To GDestinationAddress; ToAllItems], when (given (c_Domain o) || given (c_DomainSuffix o))
    (NewDomainItem (elems (c_Domain o)) (elems (c_DomainSuffix o))));
  ([To GDestinationAddress; ToAllItems], when (given (c_DomainKeyword o)) (Ok (NewDomainKeywordItem (elems (c_DomainKeyword o)))));
  ([To GDestinationAddress; ToAllItems], when (given (c_DomainRegex o))
    (cause "domain_regex" (NewDomainRegexItem (elems (c_DomainRegex o)))));
  ([], when (given (c_Geosite o)) (Err geosite_removed));
  ([], when (given (c_SourceGeoIP o)) (Err geoip_removed));
  ([], when (given (c_GeoIP o)) (Err geoip_removed));
  ([To GSourceAddress; ToAllItems], when (given (c_SourceIPCIDR o))
    (cause "source_ip_cidr" (NewIPCIDRItem true (elems (c_SourceIPCIDR o)))));
  ([To GDestinationIPCIDR; ToAllItems], when (given (c_IPCIDR o))
    (cause "ip_cidr" (NewIPCIDRItem false (elems (c_IPCIDR o)))));
  ([To GSourceAddress; ToAllItems], when (c_SourceIPIsPrivate o) (Ok (NewIPIsPrivateItem true)));
  ([To GDestinationIPCIDR; ToAllItems], when (c_IPIsPrivate o) (Ok (NewIPIsPrivateItem false)))
].
Definition dns_response_steps (o : RawDefaultDNSRule RR) : list step := [
  ([To GDestinationIPCIDR; ToAllItems], when (n_IPAcceptAny o) (Ok NewIPAcceptAnyItem));
  ([To GItems; ToAllItems], (fun rcode => Ok (NewDNSResponseRCodeItem rcode)) <$> n_ResponseRcode o);
  ([To GItems; ToAllItems], when (given (n_ResponseAnswer o))
    (Ok (NewDNSResponseRecordItem "response_answer" (elems (n_ResponseAnswer o)) dnsResponseAnswers)));
  ([To GItems; ToAllItems], when (given (n_ResponseNs o))
    (Ok (NewDNSResponseRecordItem "response_ns" (elems (n_ResponseNs o)) dnsResponseNS)));
  ([To GItems; ToAllItems], when (given (n_ResponseExtra o))
    (Ok (NewDNSResponseRecordItem "response_extra" (elems (n_ResponseExtra o)) dnsResponseExtra)));
  ([To GSourcePort; ToAllItems], when (given (c_SourcePort o)) (Ok (NewPortItem true (elems (c_SourcePort o)))));
  ([To GSourcePort; ToAllItems], when (given (c_SourcePortRange o))
    (cause "source_port_range" (NewPortRangeItem true (elems (c_SourcePortRange o)))));
  ([To GDestinationPort; ToAllItems], when (given (c_Port o)) (Ok (NewPortItem false (elems (c_Port o)))));
  ([To GDestinationPort; ToAllItems], when (given (c_PortRange o))
    (cause "port_range" (NewPortRangeItem false (elems (c_PortRange o)))))
].

(** From [process_name] to [outbound], and from [clash_mode] to [preferred_by]: the
    blocks of the route constructor, with the fields DNS rules add. *)
Definition dns_process_steps (o : RawDefaultDNSRule RR) : list step :=
  process_steps o ++ [([To GItems; ToAllItems], when (given (n_Outbound o)) (Ok (NewOutboundRule (elems (n_Outbound o)))))].
Definition dns_network_steps (o : RawDefaultDNSRule RR) : list step :=
  network_steps o ++ preferred_by_steps o NewPreferredByDNSItem.

(** [acceptEmptyRemoved]: [deprecated.OptionRuleSetIPCIDRAcceptEmpty.MessageWithLink()] *)
Definition NewDefaultDNSRule_conditions (acceptEmptyRemoved : string) (race legacyDNSMode : bool)
    (o : RawDefaultDNSRule RR) : outcome Rule :=
  let* r := run_steps (default_dns_steps o ++ dns_response_steps o ++ dns_process_steps o ++ dns_network_steps o)
              empty_items in
  if n_RuleSetIPCIDRAcceptEmpty o && negb legacyDNSMode then Err (ENew acceptEmptyRemoved)
  else
    let* d := add_rule_set o (n_RuleSetIPCIDRAcceptEmpty o) r in
    Ok (DefaultR (KDefaultDNSRule (IsEnabled (n_MatchResponse o)) (ResponseTag (n_MatchResponse o)) race) d).

(** ** rule_set.go: scans of headless options *)

(** The body of the loop of [HasHeadlessRule] on one rule. *)
Fixpoint rule_has (cond : DefaultHeadlessRule -> bool) (r : HeadlessRule) : bool :=
  match r with
  | MkHeadless type d (MkLogicalHeadless _ rs _) =>
      if bool_decide (type = "default") then cond d
      else if bool_decide (type = "logical") then
        match rs with Some l => existsb (rule_has cond) l | None => false end
      else false
  end.
Definition HasHeadlessRule (rules : list HeadlessRule) (cond : DefaultHeadlessRule -> bool) : bool :=
  existsb (rule_has cond) rules.

Definition isProcessHeadlessRule (r : DefaultHeadlessRule) : bool :=
  given (h_ProcessName r) || given (h_ProcessPath r) || given (h_ProcessPathRegex r)
  || given (h_PackageName r) || given (h_PackageNameRegex r).
Definition isWIFIHeadlessRule (r : DefaultHeadlessRule) : bool := given (h_WIFISSID r) || given (h_WIFIBSSID r).
Definition isIPCIDRHeadlessRule (r : DefaultHeadlessRule) : bool := given (h_IPCIDR r) || negb (is_nil (h_IPSet r)).
Definition isDNSQueryTypeHeadlessRule (r : DefaultHeadlessRule) : bool := given (h_QueryType r).
(** The rule compared with itself stripped to [IPCIDR], [IPSet] and [Invert]. *)
Definition isNonIPCIDRHeadlessRule (r : DefaultHeadlessRule) : bool := negb (only_ip_fields r).

(** [adapter.RuleSetMetadata] *)
Record RuleSetMetadata := {
  ContainsProcessRule : bool;
  ContainsWIFIRule : bool;
  ContainsIPCIDR : bool;
  ContainsDNSQueryTypeRule : bool;
  ContainsNonIPCIDRRule : bool
}.
Definition buildRuleSetMetadata (rules : list HeadlessRule) : RuleSetMetadata :=
  {| ContainsProcessRule := HasHeadlessRule rules isProcessHeadlessRule;
     ContainsWIFIRule := HasHeadlessRule rules isWIFIHeadlessRule;
     ContainsIPCIDR := HasHeadlessRule rules isIPCIDRHeadlessRule;
     ContainsDNSQueryTypeRule := HasHeadlessRule rules isDNSQueryTypeHeadlessRule;
     ContainsNonIPCIDRRule := HasHeadlessRule rules isNonIPCIDRHeadlessRule |}.

(** [extractIPSetFromRule]: only headless rules occur in a rule-set; any other
    type panics. *)
Definition item_ip_sets (it : RuleItem) : list IPSet :=
  match it with IPCIDRItem ipSet _ => [ipSet] | _ => [] end.
Fixpoint extractIPSetFromRule (r : Rule) : outcome (list IPSet) :=
  match r with
  | DefaultR KDefaultHeadlessRule (MkDefault it _ _) =>
      Ok (concat (item_ip_sets <$> destinationIPCIDRItems it))
  | LogicalR KLogicalHeadlessRule (MkLogical rules _ _) =>
      (fix flat (rs : list Rule) : outcome (list IPSet) :=
         match rs with
         | [] => Ok []
         | r :: rs' =>
             let* x := extractIPSetFromRule r in
             let* xs := flat rs' in
             Ok (x ++ xs)
         end) rules
  | _ => Panic "unexpected rule type"
  end.

End Build.
