(* ===== verification/RuleBuildSpec.v ===== *)
(** * What a rule built from options matches

    The semantics of a rule in terms of its options: every field is a condition,
    absent fields are no condition, the conditions of a group are alternatives
    and everything else is a conjunction.  [headless_rule_semantics] and
    [route_rule_semantics] compose the constructors of RuleBuild with the matcher
    of RuleMatch. *)

From S2P Require Import Prelude GoStd Netip External Concrete DnsMsg RuleItems RuleMatch RuleSpec RuleOptions RuleBuild.
From Stdlib Require Import Btauto.
Local Open Scope Z_scope.

Section BuildSpec.
Context {X : External}.
Implicit Types (w : World) (md : InboundContext).

(** ** Conditions *)

Record condition := MkCond { cond_group : group; cond_given : bool; cond_holds : bool }.

(** Some given condition of the groups, and one that holds. *)
Definition any_given (gs : list group) (cs : list condition) : bool :=
  existsb (fun c => cond_given c && bool_decide (cond_group c ∈ gs)) cs.
Definition any_holds (gs : list group) (cs : list condition) : bool :=
  existsb (fun c => cond_given c && bool_decide (cond_group c ∈ gs) && cond_holds c) cs.
Definition alternatives (gs : list group) (cs : list condition) : bool :=
  implb (any_given gs cs) (any_holds gs cs).

Definition conditions_match md (cs : list condition) : bool :=
  forallb (fun c => implb (cond_given c && bool_decide (cond_group c = GItems)) (cond_holds c)) cs
  && alternatives (GSourceAddress :: (if md_IPCIDRMatchSource md then [GDestinationIPCIDR] else [])) cs
  && alternatives [GSourcePort] cs
  && alternatives (GDestinationAddress :: (if md_IPCIDRMatchSource md then [] else [GDestinationIPCIDR])) cs
  && alternatives [GDestinationPort] cs.

Definition regex_holds (expressions : list string) (text : string) : bool :=
  existsb (fun e => match regexp_Compile e with Ok m => MatchString m text | _ => false end) expressions.
Definition cidr_holds (isSource : bool) (l : list string) md : bool :=
  match NewIPCIDRItem isSource l with
  | Ok (IPCIDRItem ipSet src) => IPCIDRItem_Match ipSet src md
  | _ => false
  end.
Definition port_range_holds (ranges : list string) (port : Z) : bool :=
  existsb (fun s => match parse_port_range s with Ok r => in_range port r | _ => false end) ranges.
Definition one_of {A} `{EqDecision A} (x : A) (l : slice A) : bool := bool_decide (x ∈ elems l).
Definition owner_holds md (f : ConnectionOwner -> bool) : bool :=
  match md_ProcessInfo md with Some info => f info | None => false end.
Definition path_holds md (f : string -> bool) : bool :=
  owner_holds md (fun info => negb (bool_decide (ProcessPath info = "")) && f (ProcessPath info)).
Definition interface_holds w (f : NetworkInterface -> bool) : bool :=
  match w_DefaultNetworkInterface w with Some ni => f ni | None => false end.

(** Conditions that are not given do not count. *)
Lemma conditions_match_given md cs : conditions_match md (List.filter cond_given cs) = conditions_match md cs.
Proof.
  assert (Hex : forall (f : condition -> bool), (forall c, cond_given c = false -> f c = false) ->
    existsb f (List.filter cond_given cs) = existsb f cs).
  { intros f Hf. induction cs as [|c cs IH]; [done|]. cbn. destruct (cond_given c) eqn:E; cbn; rewrite IH; [done|]. by rewrite (Hf c E). }
  assert (Hall : forall (f : condition -> bool), (forall c, cond_given c = false -> f c = true) ->
    forallb f (List.filter cond_given cs) = forallb f cs).
  { intros f Hf. clear Hex. induction cs as [|c cs IH]; [done|]. cbn. destruct (cond_given c) eqn:E; cbn; rewrite IH; [done|]. by rewrite (Hf c E). }
  unfold conditions_match, alternatives, any_given, any_holds. rewrite Hall by (by intros c ->).
  by rewrite !Hex by (by intros c ->).
Qed.
Lemma existsb_given cs : existsb cond_given cs = negb (bool_decide (List.filter cond_given cs = [])).
Proof. induction cs as [|c cs IH]; [done|]. cbn. destruct (cond_given c) eqn:E; [done|]. done. Qed.

(** The conditions of a headless rule. *)
Definition headless_conditions w md (nm : bool) (o : DefaultHeadlessRule) : list condition := [
  MkCond GItems (given (h_QueryType o)) (negb (md_QueryType md =? 0) && one_of (md_QueryType md) (h_QueryType o));
  MkCond GItems (given (h_Network o)) (one_of (md_Network md) (h_Network o));
  MkCond GDestinationAddress (given (h_Domain o) || given (h_DomainSuffix o) || negb (is_nil (h_DomainMatcher o)))
    (match_host md (Matcher_Match
       (if given (h_Domain o) || given (h_DomainSuffix o)
        then NewMatcher (elems (h_Domain o)) (elems (h_DomainSuffix o)) false
        else default (NewMatcher [] [] false) (h_DomainMatcher o))));
  MkCond GDestinationAddress (given (h_DomainKeyword o))
    (match_host md (fun h => existsb (StrContains h) (elems (h_DomainKeyword o))));
  MkCond GDestinationAddress (given (h_DomainRegex o)) (match_host md (regex_holds (elems (h_DomainRegex o))));
  MkCond GSourceAddress (given (h_SourceIPCIDR o) || negb (is_nil (h_SourceIPSet o)))
    (if given (h_SourceIPCIDR o) then cidr_holds true (elems (h_SourceIPCIDR o)) md
     else IPSet_Contains (default [] (h_SourceIPSet o)) (sa_Addr (md_Source md)));
  MkCond GDestinationIPCIDR (given (h_IPCIDR o) || negb (is_nil (h_IPSet o)))
    (if given (h_IPCIDR o) then cidr_holds false (elems (h_IPCIDR o)) md
     else IPCIDRItem_Match (default [] (h_IPSet o)) false md);
  MkCond GSourcePort (given (h_SourcePort o)) (one_of (sa_Port (md_Source md)) (h_SourcePort o));
  MkCond GSourcePort (given (h_SourcePortRange o))
    (port_range_holds (elems (h_SourcePortRange o)) (sa_Port (md_Source md)));
  MkCond GDestinationPort (given (h_Port o)) (one_of (sa_Port (md_Destination md)) (h_Port o));
  MkCond GDestinationPort (given (h_PortRange o))
    (port_range_holds (elems (h_PortRange o)) (sa_Port (md_Destination md)));
  MkCond GItems (given (h_ProcessName o)) (path_holds md (fun p => one_of (Base p) (h_ProcessName o)));
  MkCond GItems (given (h_ProcessPath o))
    (path_holds md (fun p => one_of p (h_ProcessPath o))
     || owner_holds md (fun info => w_IsAndroid w
          && existsb (fun n => one_of n (h_ProcessPath o)) (AndroidPackageNames info)));
  MkCond GItems (given (h_ProcessPathRegex o)) (path_holds md (regex_holds (elems (h_ProcessPathRegex o))));
  MkCond GItems (given (h_PackageName o))
    (owner_holds md (fun info => existsb (fun n => one_of n (h_PackageName o)) (AndroidPackageNames info)));
  MkCond GItems (given (h_PackageNameRegex o))
    (owner_holds md (fun info => existsb (regex_holds (elems (h_PackageNameRegex o))) (AndroidPackageNames info)))
] ++ (if nm then [
  MkCond GItems (given (h_NetworkType o)) (interface_holds w (fun ni => one_of (ni_Type ni) (h_NetworkType o)));
  MkCond GItems (h_NetworkIsExpensive o) (interface_holds w ni_Expensive);
  MkCond GItems (h_NetworkIsConstrained o) (interface_holds w ni_Constrained);
  MkCond GItems (given (h_WIFISSID o)) (one_of (w_SSID w) (h_WIFISSID o));
  MkCond GItems (given (h_WIFIBSSID o)) (bool_decide (w_BSSID w ∈ NormalizeWIFIBSSID <$> elems (h_WIFIBSSID o)));
  MkCond GItems (typed_map_given (h_NetworkInterfaceAddress o))
    (item_Match w (NewNetworkInterfaceAddressItem (default TypedMap_new (h_NetworkInterfaceAddress o))) md);
  MkCond GItems (given (h_DefaultInterfaceAddress o))
    (DefaultInterfaceAddressItem_Match w (build_prefixes (h_DefaultInterfaceAddress o)))
] else []) ++ [
  MkCond GDestinationAddress (given (h_AdGuardDomain o) || negb (is_nil (h_AdGuardDomainMatcher o)))
    (match_host md (AdGuardMatcher_Match
       (if given (h_AdGuardDomain o) then NewAdGuardMatcher (elems (h_AdGuardDomain o))
        else default (NewAdGuardMatcher []) (h_AdGuardDomainMatcher o))))
].

(** ** Running the steps *)

(** A condition describes a step: present together, and an item goes to the list of
    the condition and to [allItems], and the item the
    step appends, once started, matches when the condition holds. *)
Definition item_holds (start : RuleItem -> outcome RuleItem) w md (it : RuleItem) (b : bool) : Prop :=
  forall it', start it = Ok it' -> item_Match w it' md = b.
Definition describes (start : RuleItem -> outcome RuleItem) w md (s : step) (c : condition) : Prop :=
  cond_given c = negb (is_nil s.2)
  /\ forall it, s.2 = Some (Ok it) ->
       s.1 = [To (cond_group c); ToAllItems] /\ item_holds start w md it (cond_holds c).

Definition selected (g : group) (cs : list condition) : list bool :=
  cond_holds <$> List.filter (fun c => cond_given c && bool_decide (cond_group c = g)) cs.

(** The appends of a complete block. *)
Definition push (g : group) : RuleItem -> default_items -> default_items := append_to_lists [To g; ToAllItems].

Lemma group_list_push g g' it r :
  group_list g (push g' it r) = group_list g r ++ (if bool_decide (g' = g) then [it] else []).
Proof. destruct r, g, g'; cbn; rewrite ?app_nil_r; done. Qed.

Lemma allItems_push g it r : allItems (push g it r) = allItems r ++ [AnyItem it].
Proof. by destruct r, g. Qed.

Lemma run_steps_spec start w md l cs r0 r :
  Forall2 (describes start w md) l cs -> run_steps l r0 = Ok r ->
  (forall g bs, Forall2 (item_holds start w md) (group_list g r0) bs ->
                Forall2 (item_holds start w md) (group_list g r) (bs ++ selected g cs))
  /\ nonempty (allItems r) = nonempty (allItems r0) || existsb cond_given cs.
Proof.
  intros Hd. revert r0. induction Hd as [|[ts o] c l cs (Hgiven & Hm) _ IH]; intros r0 Hr; cbn [run_steps] in Hr.
  - inv_ok. split; [intros g bs; by rewrite app_nil_r|by rewrite orb_false_r].
  - cbn [fst snd] in *. unfold selected. cbn [List.filter existsb]. rewrite Hgiven.
    destruct o as [o|]; cbn [is_nil negb andb orb]; [|by apply IH].
    inv_ok. destruct (Hm _ eq_refl) as [-> Hh]. fold (push (cond_group c)) in Hr.
    destruct (IH _ Hr) as [IHg IHa]. split.
    + intros g' bs Hbs. specialize (IHg g'). rewrite group_list_push in IHg.
      destruct (bool_decide (cond_group c = g')); [|by apply IHg; rewrite app_nil_r].
      specialize (IHg (bs ++ [cond_holds c])). rewrite <- app_assoc in IHg. apply IHg.
      apply Forall2_app; [done|]. by repeat constructor.
    + rewrite IHa, allItems_push, nonempty_app. cbn. by rewrite !orb_true_r.
Qed.

Lemma omap_holds start w md i l l' bs :
  Forall2 (item_holds start w md) l bs -> omap_from (fun _ => start) i l = Ok l' ->
  (fun it => item_Match w it md) <$> l' = bs.
Proof.
  intros H. revert i l'. induction H as [|it b l bs Hit _ IH]; intros i l' Ho; cbn in Ho; inv_ok; [done|].
  cbn. f_equal; eauto.
Qed.

Lemma start_items_spec start w md r r' :
  start_items start r = Ok r' ->
  nonempty (allItems r') = nonempty (allItems r)
  /\ forall g bs, Forall2 (item_holds start w md) (group_list g r) bs ->
       (fun it => item_Match w it md) <$> group_list g r' = bs.
Proof.
  unfold start_items. intros H. inv_ok. split.
  - apply omap_from_length in E. cbn. destruct a, (allItems r); done.
  - intros g bs Hbs. destruct g; cbn in *; eapply omap_holds; eassumption.
Qed.

Lemma start_items_Ok r : start_items Ok r = Ok r.
Proof.
  assert (forall i l, omap_from (fun _ => @Ok RuleItem) i l = Ok l) as H.
  { intros i l. revert i. induction l as [|x l IH]; intros i; cbn; [done|]. by rewrite IH. }
  assert (forall i l, omap_from (fun _ => start_any Ok) i l = Ok l) as H'.
  { intros i l. revert i. induction l as [|x l IH]; intros i; cbn; [done|]. by destruct x; cbn; rewrite IH. }
  unfold start_items, omap_ix. rewrite !H, H'. by destruct r.
Qed.

(** ** From item lists to conditions *)

Lemma any_item_of_map w l md : any_item_of w l md = existsb id ((fun it => item_Match w it md) <$> l).
Proof. unfold any_item_of. induction l as [|x l IH]; [done|]. cbn. by rewrite IH. Qed.

Lemma nonempty_map {A B} (f : A -> B) l : nonempty (f <$> l) = nonempty l.
Proof. by destruct l. Qed.

Lemma existsb_selected g cs : existsb id (selected g cs) = any_holds [g] cs.
Proof.
  unfold any_holds, selected. induction cs as [|c cs IH]; [done|]. cbn [List.filter existsb].
  rewrite <- IH, (bool_decide_ext (cond_group c ∈ [g]) (cond_group c = g)) by apply list_elem_of_singleton.
  by destruct (_ && _).
Qed.

Lemma nonempty_selected g cs : nonempty (selected g cs) = any_given [g] cs.
Proof.
  unfold any_given, selected. rewrite nonempty_map. induction cs as [|c cs IH]; [done|]. cbn [List.filter existsb].
  rewrite <- IH, (bool_decide_ext (cond_group c ∈ [g]) (cond_group c = g)) by apply list_elem_of_singleton.
  by destruct (_ && _).
Qed.

Lemma any_cons_given g gs cs : any_given (g :: gs) cs = any_given [g] cs || any_given gs cs.
Proof.
  unfold any_given. induction cs as [|c cs IH]; [done|]. cbn [existsb]. rewrite IH.
  rewrite (bool_decide_ext (cond_group c ∈ [g]) (cond_group c = g)) by apply list_elem_of_singleton.
  rewrite (bool_decide_ext (cond_group c ∈ g :: gs) (cond_group c = g \/ cond_group c ∈ gs)) by apply elem_of_cons.
  rewrite bool_decide_or. btauto.
Qed.

Lemma any_cons_holds g gs cs : any_holds (g :: gs) cs = any_holds [g] cs || any_holds gs cs.
Proof.
  unfold any_holds. induction cs as [|c cs IH]; [done|]. cbn [existsb]. rewrite IH.
  rewrite (bool_decide_ext (cond_group c ∈ [g]) (cond_group c = g)) by apply list_elem_of_singleton.
  rewrite (bool_decide_ext (cond_group c ∈ g :: gs) (cond_group c = g \/ cond_group c ∈ gs)) by apply elem_of_cons.
  rewrite bool_decide_or. btauto.
Qed.

Lemma fields_ok_selected w r md cs :
  (fun it => item_Match w it md) <$> items r = selected GItems cs ->
  fields_ok w r md
  = forallb (fun c => implb (cond_given c && bool_decide (cond_group c = GItems)) (cond_holds c)) cs.
Proof.
  intros H. unfold fields_ok. transitivity (forallb id (selected GItems cs)).
  - rewrite <- H. clear H. induction (items r) as [|x l IH]; [done|]. cbn. by rewrite IH.
  - unfold selected. clear H. induction cs as [|c cs IH]; [done|]. cbn [List.filter forallb]. rewrite <- IH.
    by destruct (_ && _).
Qed.

(** The conditions of a rule whose lists are exactly the selected ones. *)
Lemma doc_inner_conditions w r md cs :
  md_IgnoreDestinationIPCIDRMatch md = false ->
  (forall g, (fun it => item_Match w it md) <$> group_list g r = selected g cs) ->
  doc_inner w r None md = conditions_match md cs.
Proof.
  intros Hi H.
  assert (Hn : forall g, nonempty (group_list g r) = any_given [g] cs).
  { intros g. by rewrite <- nonempty_selected, <- H, nonempty_map. }
  assert (Ha : forall g, any_item_of w (group_list g r) md = any_holds [g] cs).
  { intros g. by rewrite any_item_of_map, H, existsb_selected. }
  unfold doc_inner, groups_ok, group_ok, source_group, destination_group, conditions_match, alternatives.
  rewrite (fields_ok_selected w r md cs (H GItems)), Hi. cbn [negb andb].
  rewrite <- !andb_assoc. f_equal.
  rewrite <- (Hn GSourcePort), <- (Hn GDestinationPort), <- (Ha GSourcePort), <- (Ha GDestinationPort).
  destruct (md_IPCIDRMatchSource md); cbn [negb]; rewrite ?app_nil_r, ?nonempty_app, ?any_item_of_app;
    rewrite ?(any_cons_given GSourceAddress [GDestinationIPCIDR]), ?(any_cons_holds GSourceAddress [GDestinationIPCIDR]),
      ?(any_cons_given GDestinationAddress [GDestinationIPCIDR]), ?(any_cons_holds GDestinationAddress [GDestinationIPCIDR]);
    rewrite <- !Hn, <- !Ha; reflexivity.
Qed.

Lemma built_rule_semantics start w md l cs r r' invert :
  Forall2 (describes start w md) l cs -> run_steps l empty_items = Ok r -> start_items start r = Ok r' ->
  md_IgnoreDestinationIPCIDRMatch md = false ->
  (abstractDefault_Match w (MkDefault r' None invert) md).1
  = if existsb cond_given cs then xorb invert (conditions_match md cs) else true.
Proof.
  intros Hd Hr Hs Hi. destruct (run_steps_spec start w md l cs _ r Hd Hr) as [Hg Ha].
  destruct (start_items_spec start w md r r' Hs) as [Hs1 Hs2].
  rewrite abstractDefault_Match_eq. unfold deferred_invert. rewrite Hi, Hs1, Ha. cbn [allItems empty_items nonempty orb].
  destruct (existsb cond_given cs); cbn [negb fst andb]; [|done].
  rewrite andb_true_r, (doc_inner_conditions w r' md cs Hi); [done|].
  intros g. apply Hs2, (Hg g []). by destruct g.
Qed.

(** ** The items hold when their conditions do *)

Lemma omap_from_existsb {A B} (f : Z -> A -> outcome B) (p : B -> bool) (q : A -> bool) i l ys :
  (forall i x y, f i x = Ok y -> p y = q x) -> omap_from f i l = Ok ys -> existsb p ys = existsb q l.
Proof.
  intros Hf. revert i ys. induction l as [|x l IH]; intros i ys H; cbn in H; inv_ok; [done|]. cbn.
  by rewrite (Hf _ _ _ E), (IH _ _ E0).
Qed.

Lemma compile_all_holds l matchers text :
  compile_all l = Ok matchers -> existsb (fun m => MatchString m text) matchers = regex_holds l text.
Proof.
  apply omap_from_existsb. intros i e m H. apply wrap_err_ok in H. by rewrite H.
Qed.

Lemma port_ranges_hold l ranges port :
  omap_ix (fun _ => parse_port_range) l = Ok ranges ->
  existsb (in_range port) ranges = port_range_holds l port.
Proof. apply omap_from_existsb. intros i s r H. by rewrite H. Qed.

Lemma existsb_ext {A} (f g : A -> bool) l : (forall x, f x = g x) -> existsb f l = existsb g l.
Proof. intros H. induction l as [|x l IH]; [done|]. cbn. by rewrite H, IH. Qed.

Lemma existsb_comm {A B} (f : A -> B -> bool) l l' :
  existsb (fun x => existsb (f x) l') l = existsb (fun y => existsb (fun x => f x y) l) l'.
Proof.
  apply eq_true_iff_eq. rewrite !existsb_exists. setoid_rewrite existsb_exists. firstorder.
Qed.

Lemma package_regex_holds l matchers names :
  compile_all l = Ok matchers ->
  existsb (fun m => existsb (MatchString m) names) matchers = existsb (regex_holds l) names.
Proof.
  intros H. rewrite existsb_comm. apply existsb_ext. intros x. by apply compile_all_holds.
Qed.

Lemma describes_when start w md g c o h :
  (c = true -> forall it, o = Ok it -> item_holds start w md it h) ->
  describes start w md ([To g; ToAllItems], when c o) (MkCond g c h).
Proof. intros H. destruct c; cbn; split; try done. intros it [= ->]. split; [done|]. by apply H. Qed.

(** A block that only refuses. *)
Lemma describes_refused start w md g c e h : describes start w md ([], when c (Err e)) (MkCond g c h).
Proof. by destruct c. Qed.

Lemma describes_else {A} w md g c o (f : A -> RuleItem) (x : option A) h :
  (c = true -> forall it, o = Ok it -> item_holds Ok w md it h) ->
  (c = false -> forall a, x = Some a -> item_Match w (f a) md = h) ->
  describes Ok w md ([To g; ToAllItems], if c then Some o else (fun a => Ok (f a)) <$> x) (MkCond g (c || negb (is_nil x)) h).
Proof.
  intros H1 H2. destruct c; cbn; split; try by destruct x.
  - intros it [= ->]. split; [done|]. by apply H1.
  - intros it. destruct x; cbn; [|done]. intros [= <-]. split; [done|]. intros it' [= <-]. by apply H2.
Qed.

Lemma describes_map {K V} start w md g (m : option (TypedMap K V)) (f : TypedMap K V -> RuleItem) :
  (forall m, start (f m) = Ok (f m)) ->
  describes start w md ([To g; ToAllItems], if typed_map_given m then (fun m => Ok (f m)) <$> m else None)
    (MkCond g (typed_map_given m) (item_Match w (f (default TypedMap_new m)) md)).
Proof.
  intros Hs. destruct m as [m|]; cbn; [|done]. destruct (0 <? TypedMap_Size m); cbn; [|done].
  split; [done|]. intros it [= <-]. split; [done|]. intros it' Hit. rewrite Hs in Hit. by injection Hit as <-.
Qed.

Lemma cause_ok {A} msg (m : outcome A) a : cause msg m = Ok a <-> m = Ok a.
Proof. apply wrap_err_ok. Qed.

Lemma NewDomainItem_ok d s it : NewDomainItem d s = Ok it -> it = DomainItem (NewMatcher d s false).
Proof. unfold NewDomainItem. repeat case_goal; congruence. Qed.

Lemma NewIPCIDRItem_holds w src l it md :
  NewIPCIDRItem src l = Ok it -> item_Match w it md = cidr_holds src l md.
Proof.
  intros H. unfold cidr_holds. rewrite H. unfold NewIPCIDRItem in H. by inv_ok.
Qed.

Lemma NewPortRangeItem_holds w src l it md :
  NewPortRangeItem src l = Ok it -> item_Match w it md = port_range_holds l (item_port src md).
Proof.
  unfold NewPortRangeItem. intros H. inv_ok. cbn [item_Match]. by apply port_ranges_hold.
Qed.

Lemma DomainRegex_holds w l it md :
  NewDomainRegexItem l = Ok it -> item_Match w it md = match_host md (regex_holds l).
Proof.
  unfold NewDomainRegexItem. intros H. inv_ok. cbn [item_Match]. unfold DomainRegexItem_Match, match_host.
  case_goal; [done|]. by apply compile_all_holds.
Qed.

Lemma ProcessPathRegex_holds w l it md :
  NewProcessPathRegexItem l = Ok it -> item_Match w it md = path_holds md (regex_holds l).
Proof.
  unfold NewProcessPathRegexItem. intros H. inv_ok. cbn [item_Match]. unfold ProcessPathRegexItem_Match, path_holds, owner_holds.
  destruct (md_ProcessInfo md) as [info|]; [|done]. case_goal; [done|]. cbn. by apply compile_all_holds.
Qed.

Lemma PackageNameRegex_holds w l it md :
  NewPackageNameRegexItem l = Ok it ->
  item_Match w it md = owner_holds md (fun info => existsb (regex_holds l) (AndroidPackageNames info)).
Proof.
  unfold NewPackageNameRegexItem. intros H. inv_ok. cbn [item_Match]. unfold PackageNameRegexItem_Match, owner_holds.
  destruct (md_ProcessInfo md) as [info|]; [|done]. 
  destruct (AndroidPackageNames info); [done|]. by apply package_regex_holds.
Qed.

Lemma ProcessItem_holds w l md :
  item_Match w (NewProcessItem l) md = path_holds md (fun p => bool_decide (Base p ∈ l)).
Proof.
  cbn [item_Match NewProcessItem]. unfold ProcessItem_Match, path_holds, owner_holds.
  destruct (md_ProcessInfo md) as [info|]; [|done]. rewrite map_get_set_of. by case_goal.
Qed.

Lemma ProcessPathItem_holds w l md :
  item_Match w (NewProcessPathItem l) md
  = path_holds md (fun p => bool_decide (p ∈ l))
    || owner_holds md (fun info => w_IsAndroid w && existsb (fun n => bool_decide (n ∈ l)) (AndroidPackageNames info)).
Proof.
  cbn [item_Match NewProcessPathItem]. unfold ProcessPathItem_Match, path_holds, owner_holds.
  destruct (md_ProcessInfo md) as [info|]; [|done]. rewrite map_get_set_of.
  rewrite (existsb_ext (map_get (set_of l)) (fun n => bool_decide (n ∈ l))) by (intros; apply map_get_set_of).
  by destruct (negb _ && _).
Qed.

Lemma PackageNameItem_holds w l md :
  item_Match w (NewPackageNameItem l) md
  = owner_holds md (fun info => existsb (fun n => bool_decide (n ∈ l)) (AndroidPackageNames info)).
Proof.
  cbn [item_Match NewPackageNameItem]. unfold PackageNameItem_Match, owner_holds.
  destruct (md_ProcessInfo md) as [info|]; [|done]. apply existsb_ext. intros. apply map_get_set_of.
Qed.

(** The items that implement [Start]. *)
Definition is_starter (it : RuleItem) : bool :=
  match it with ClashModeItem _ _ | PreferredByItem _ _ | PreferredByDNSItem _ _ => true | _ => false end.
Definition starts_plain (start : RuleItem -> outcome RuleItem) : Prop :=
  forall it, is_starter it = false -> start it = Ok it.

Lemma starts_plain_Ok : starts_plain Ok.
Proof. done. Qed.

Lemma starts_plain_item_Start clash outbounds transports : starts_plain (item_Start clash outbounds transports).
Proof. intros it. by destruct it. Qed.

Lemma plain_holds start w md it b :
  starts_plain start -> is_starter it = false -> item_Match w it md = b -> item_holds start w md it b.
Proof. intros Hs Hp Hm it' Hit. rewrite (Hs _ Hp) in Hit. by injection Hit as <-. Qed.

Ltac not_starter H :=
  first [ apply NewDomainItem_ok in H as ->
        | unfold NewIPCIDRItem, NewPortRangeItem, NewDomainRegexItem, NewProcessPathRegexItem,
            NewPackageNameRegexItem in H; inv_ok ]; reflexivity.

(** Discharge the obligation of one step. *)
Ltac holds Hstart :=
  let it := fresh "it" in let H := fresh "H" in intros _ it H;
  first [ apply cause_ok in H | idtac ];
  first
    [ discriminate H
    | injection H as <-; apply (plain_holds _ _ _ _ _ Hstart); [reflexivity|]; first
        [ apply ProcessItem_holds | apply ProcessPathItem_holds | apply PackageNameItem_holds
        | cbn; unfold InboundItem_Match, NetworkItem_Match, AuthUserItem_Match, ProtocolItem_Match, ClientItem_Match,
            PortItem_Match, item_port, NetworkTypeItem_Match, NetworkIsExpensiveItem_Match, NetworkIsConstrainedItem_Match,
            DomainKeywordItem_Match, WIFISSIDItem_Match, WIFIBSSIDItem_Match, SourceMACAddressItem_Match,
            SourceHostnameItem_Match, QueryTypeItem_Match, UserItem_Match, UserIdItem_Match, one_of, interface_holds, owner_holds, build_prefixes;
          repeat case_goal; rewrite ?map_get_set_of; repeat case_goal; reflexivity ]
    | apply (plain_holds _ _ _ _ _ Hstart); [not_starter H|]; first
        [ eapply NewIPCIDRItem_holds; eassumption
        | eapply NewPortRangeItem_holds in H; exact H
        | eapply DomainRegex_holds; eassumption
        | eapply ProcessPathRegex_holds; eassumption
        | eapply PackageNameRegex_holds; eassumption
        | apply NewDomainItem_ok in H as ->; reflexivity ] ].

Lemma headless_steps_describe w md (nm : bool) o :
  Forall2 (describes Ok w md)
    (headless_steps o ++ (if nm then headless_network_steps o else []) ++ headless_adguard_steps o)
    (headless_conditions w md nm o).
Proof.
  unfold headless_conditions. apply Forall2_app; [|apply Forall2_app; [destruct nm|]];
    repeat apply Forall2_cons_2; try apply Forall2_nil_2;
    first [ apply describes_when; holds starts_plain_Ok | apply describes_map; done | apply describes_else ];
    first [ let Hc := fresh in intros Hc; rewrite Hc; revert Hc; holds starts_plain_Ok
          | let Hc := fresh in let Hx := fresh in intros Hc ? Hx; rewrite Hc, Hx; reflexivity ].
Qed.

(** C3: a headless rule built from options matches a connection exactly when the
    conditions given in the options hold: address and port fields are
    alternatives within their group, all other fields are required, [invert]
    negates the result, and a rule none of whose given fields became an item
    matches everything. *)
Theorem headless_rule_semantics w md (nm : bool) o r :
  NewDefaultHeadlessRule nm o = Ok r -> md_IgnoreDestinationIPCIDRMatch md = false ->
  (abstractDefault_Match w r md).1
  = if existsb cond_given (headless_conditions w md nm o)
    then xorb (h_Invert o) (conditions_match md (headless_conditions w md nm o)) else true.
Proof.
  unfold NewDefaultHeadlessRule. intros H Hi. inv_ok.
  by eapply (built_rule_semantics Ok w md); eauto using headless_steps_describe, start_items_Ok.
Qed.

(** ** Route rules *)

(** The conditions of a route rule without [rule_set], once started in a context
    with or without a Clash server ([clash]); the removed geo fields are errors,
    never conditions. *)
Definition route_conditions w md (clash : bool) (o : RawDefaultRule) : list condition := [
  MkCond GItems (given (c_Inbound o)) (one_of (md_Inbound md) (c_Inbound o));
  MkCond GItems (0 <? c_IPVersion o) (IPVersionItem_Match (c_IPVersion o =? 6) md);
  MkCond GItems (given (c_Network o)) (one_of (md_Network md) (c_Network o));
  MkCond GItems (given (c_AuthUser o)) (one_of (md_User md) (c_AuthUser o));
  MkCond GItems (given (c_Protocol o)) (one_of (md_Protocol md) (c_Protocol o));
  MkCond GItems (given (r_Client o)) (one_of (md_Client md) (r_Client o));
  MkCond GDestinationAddress (given (c_Domain o) || given (c_DomainSuffix o))
    (match_host md (Matcher_Match (NewMatcher (elems (c_Domain o)) (elems (c_DomainSuffix o)) false)));
  MkCond GDestinationAddress (given (c_DomainKeyword o))
    (match_host md (fun h => existsb (StrContains h) (elems (c_DomainKeyword o))));
  MkCond GDestinationAddress (given (c_DomainRegex o)) (match_host md (regex_holds (elems (c_DomainRegex o))));
  MkCond GItems (given (c_Geosite o)) false;
  MkCond GItems (given (c_SourceGeoIP o)) false;
  MkCond GItems (given (c_GeoIP o)) false;
  MkCond GSourceAddress (given (c_SourceIPCIDR o)) (cidr_holds true (elems (c_SourceIPCIDR o)) md);
  MkCond GSourceAddress (c_SourceIPIsPrivate o) (negb (IsPublicAddr (sa_Addr (md_Source md))));
  MkCond GDestinationIPCIDR (given (c_IPCIDR o)) (cidr_holds false (elems (c_IPCIDR o)) md);
  MkCond GDestinationIPCIDR (c_IPIsPrivate o) (IPIsPrivateItem_Match false md);
  MkCond GSourcePort (given (c_SourcePort o)) (one_of (sa_Port (md_Source md)) (c_SourcePort o));
  MkCond GSourcePort (given (c_SourcePortRange o))
    (port_range_holds (elems (c_SourcePortRange o)) (sa_Port (md_Source md)));
  MkCond GDestinationPort (given (c_Port o)) (one_of (sa_Port (md_Destination md)) (c_Port o));
  MkCond GDestinationPort (given (c_PortRange o))
    (port_range_holds (elems (c_PortRange o)) (sa_Port (md_Destination md)))
] ++ [
  MkCond GItems (given (c_ProcessName o)) (path_holds md (fun p => one_of (Base p) (c_ProcessName o)));
  MkCond GItems (given (c_ProcessPath o))
    (path_holds md (fun p => one_of p (c_ProcessPath o))
     || owner_holds md (fun info => w_IsAndroid w
          && existsb (fun n => one_of n (c_ProcessPath o)) (AndroidPackageNames info)));
  MkCond GItems (given (c_ProcessPathRegex o)) (path_holds md (regex_holds (elems (c_ProcessPathRegex o))));
  MkCond GItems (given (c_PackageName o))
    (owner_holds md (fun info => existsb (fun n => one_of n (c_PackageName o)) (AndroidPackageNames info)));
  MkCond GItems (given (c_PackageNameRegex o))
    (owner_holds md (fun info => existsb (regex_holds (elems (c_PackageNameRegex o))) (AndroidPackageNames info)));
  MkCond GItems (given (c_User o))
    (owner_holds md (fun info => negb (bool_decide (UserName info = "")) && one_of (UserName info) (c_User o)));
  MkCond GItems (given (c_UserID o))
    (owner_holds md (fun info => negb (UserId info =? -1) && one_of (UserId info) (c_UserID o)))
] ++ [
  MkCond GItems (negb (bool_decide (c_ClashMode o = ""))) (clash && EqualFold (w_ClashMode w) (c_ClashMode o));
  MkCond GItems (given (c_NetworkType o)) (interface_holds w (fun ni => one_of (ni_Type ni) (c_NetworkType o)));
  MkCond GItems (c_NetworkIsExpensive o) (interface_holds w ni_Expensive);
  MkCond GItems (c_NetworkIsConstrained o) (interface_holds w ni_Constrained);
  MkCond GItems (given (c_WIFISSID o)) (one_of (w_SSID w) (c_WIFISSID o));
  MkCond GItems (given (c_WIFIBSSID o)) (bool_decide (w_BSSID w ∈ NormalizeWIFIBSSID <$> elems (c_WIFIBSSID o)));
  MkCond GItems (typed_map_given (c_InterfaceAddress o))
    (item_Match w (NewInterfaceAddressItem (default TypedMap_new (c_InterfaceAddress o))) md);
  MkCond GItems (typed_map_given (c_NetworkInterfaceAddress o))
    (item_Match w (NewNetworkInterfaceAddressItem (default TypedMap_new (c_NetworkInterfaceAddress o))) md);
  MkCond GItems (given (c_DefaultInterfaceAddress o))
    (DefaultInterfaceAddressItem_Match w (build_prefixes (c_DefaultInterfaceAddress o)));
  MkCond GItems (given (c_SourceMACAddress o))
    (match md_SourceMACAddress md with
     | Some mac => bool_decide (HardwareAddr_String mac ∈ normalize_mac <$> elems (c_SourceMACAddress o))
     | None => false
     end);
  MkCond GItems (given (c_SourceHostname o))
    (negb (bool_decide (md_SourceHostname md = "")) && one_of (md_SourceHostname md) (c_SourceHostname o))
] ++ [
  MkCond GItems (given (c_PreferredBy o)) (PreferredByItem_Match w (elems (c_PreferredBy o)) md)
].

Lemma resolve_tags_ok lookup m u tags r : resolve_tags lookup m u tags = Ok r -> r = tags.
Proof.
  revert r. induction tags as [|t tags IH]; intros r H; cbn in H; inv_ok; [done|].
  destruct (lookup t) as [[|]|]; try discriminate. inv_ok. f_equal. by apply IH.
Qed.

Lemma route_steps_describe w md clash outbounds transports o :
  Forall2 (describes (item_Start clash outbounds transports) w md)
    (default_rule_steps o ++ process_steps o ++ network_steps o ++ preferred_by_steps o NewPreferredByItem)
    (route_conditions w md clash o).
Proof.
  pose proof (starts_plain_item_Start clash outbounds transports) as Hs.
  unfold route_conditions, ip_version_step. repeat apply Forall2_app;
    repeat apply Forall2_cons_2; try apply Forall2_nil_2;
    first [ apply describes_when; holds Hs | apply describes_map; done | apply describes_refused
          | apply describes_when; intros _ it H ].
  - destruct ((_ =? 4) || _) in H; [|discriminate]. injection H as <-. by apply plain_holds.
  - injection H as <-. intros it' [= <-]. done.
  - injection H as <-. intros it' Hit. cbn in Hit. inv_ok. by apply resolve_tags_ok in E as ->.
Qed.

(** C4: a started route rule without [rule_set] matches a connection exactly when
    the conditions given in its options hold, in the documented combination. *)
Theorem route_rule_semantics w md clash outbounds transports o r rs invert r' :
  NewDefaultRule_conditions o = Ok (MkDefault r rs invert) -> given (c_RuleSet o) = false ->
  start_items (item_Start clash outbounds transports) r = Ok r' ->
  md_IgnoreDestinationIPCIDRMatch md = false ->
  (abstractDefault_Match w (MkDefault r' rs invert) md).1
  = if existsb cond_given (route_conditions w md clash o)
    then xorb (c_Invert o) (conditions_match md (route_conditions w md clash o)) else true.
Proof.
  unfold NewDefaultRule_conditions, add_rule_set. intros H Hrs Hst Hi. rewrite Hrs in H. inv_ok.
  by eapply (built_rule_semantics _ w md); eauto using route_steps_describe.
Qed.

(** ** Every item is accounted for *)

Definition all_of (r : default_items) (rs : bool) : list any_item :=
  (AnyItem <$> (items r ++ sourceAddressItems r ++ sourcePortItems r ++ destinationAddressItems r
                ++ destinationIPCIDRItems r ++ destinationPortItems r))
  ++ (if rs then [AnyRuleSet] else []).

Lemma push_all_of g it r : allItems r ≡ₚ all_of r false -> allItems (push g it r) ≡ₚ all_of (push g it r) false.
Proof.
  rewrite allItems_push. intros ->. unfold all_of. destruct r, g; cbn; rewrite !app_nil_r, !fmap_app; cbn; solve_Permutation.
Qed.

(** A block that makes an item appends it to one of the six lists and to [allItems]. *)
Definition complete (s : step) : Prop := forall it, s.2 = Some (Ok it) -> exists g, s.1 = [To g; ToAllItems].

Lemma run_steps_all_of l r0 r :
  Forall complete l -> run_steps l r0 = Ok r -> allItems r0 ≡ₚ all_of r0 false -> allItems r ≡ₚ all_of r false.
Proof.
  intros Hl. revert r0. induction Hl as [|[ts [o|]] l Hs _ IH]; intros r0 H Hr; cbn [run_steps] in H; inv_ok; [done| |by eapply IH].
  destruct (Hs _ eq_refl) as [g Hg]. cbn [fst] in Hg. subst ts. eapply IH; [eassumption|]. by apply push_all_of.
Qed.

Lemma complete_block g o : complete ([To g; ToAllItems], o).
Proof. intros it _. by exists g. Qed.

Lemma complete_refusal c e : complete ([], when c (Err e)).
Proof. intros it. by destruct c. Qed.

Ltac complete_blocks :=
  repeat first [apply Forall_nil_2 | apply Forall_cons_2; [apply complete_block || apply complete_refusal|]].

Lemma headless_steps_complete (nm : bool) o :
  Forall complete (headless_steps o ++ (if nm then headless_network_steps o else []) ++ headless_adguard_steps o).
Proof. repeat apply Forall_app_2; [|destruct nm|]; complete_blocks. Qed.

Lemma route_steps_complete o :
  Forall complete (default_rule_steps o ++ process_steps o ++ network_steps o ++ preferred_by_steps o NewPreferredByItem).
Proof. repeat apply Forall_app_2; complete_blocks. Qed.

Lemma dns_steps_complete o :
  Forall complete (default_dns_steps o ++ dns_response_steps o ++ dns_process_steps o ++ dns_network_steps o).
Proof. repeat apply Forall_app_2; complete_blocks. Qed.

Lemma add_rule_set_all_of o acc r d :
  add_rule_set o acc r = Ok d -> allItems r ≡ₚ all_of r false ->
  allItems (d_items d) ≡ₚ all_of (d_items d) (negb (is_nil (d_ruleSetItem d))).
Proof.
  unfold add_rule_set. intros H Hr. destruct (given (c_RuleSet o)); [|by inv_ok].
  destruct (c_Deprecated_RulesetIPCIDRMatchSource o); [discriminate|]. destruct r; inv_ok. cbn in *.
  rewrite Hr. unfold all_of. cbn. by rewrite app_nil_r.
Qed.

(** C37: in every rule the constructors build, [allItems] holds exactly the items of
    the six lists and the rule-set item, each once: [Start], [Close] and the
    emptiness test of [Match] miss nothing. *)
Theorem built_rules_account_for_all_items :
  (forall nm o d, NewDefaultHeadlessRule nm o = Ok d ->
     allItems (d_items d) ≡ₚ all_of (d_items d) false /\ d_ruleSetItem d = None)
  /\ (forall o d, NewDefaultRule_conditions o = Ok d ->
        allItems (d_items d) ≡ₚ all_of (d_items d) (negb (is_nil (d_ruleSetItem d))))
  /\ (forall msg race legacy o k d, NewDefaultDNSRule_conditions msg race legacy o = Ok (DefaultR k d) ->
        allItems (d_items d) ≡ₚ all_of (d_items d) (negb (is_nil (d_ruleSetItem d)))).
Proof.
  split; [|split].
  - unfold NewDefaultHeadlessRule. intros nm o d H. inv_ok. split; [|done]. eapply run_steps_all_of; [apply headless_steps_complete|eassumption|done].
  - unfold NewDefaultRule_conditions. intros o d H. inv_ok.
    eapply add_rule_set_all_of; [eassumption|]. eapply run_steps_all_of; [apply route_steps_complete|eassumption|done].
  - unfold NewDefaultDNSRule_conditions. intros msg race legacy o k d H. inv_ok.
    destruct (n_RuleSetIPCIDRAcceptEmpty o && negb legacy); [discriminate|]. inv_ok.
    eapply add_rule_set_all_of; [eassumption|]. eapply run_steps_all_of; [apply dns_steps_complete|eassumption|done].
Qed.

End BuildSpec.

(** ** Witnesses *)

Definition ex_headless : DefaultHeadlessRule :=
  {| h_QueryType := None; h_Network := Some ["tcp"]; h_Domain := Some ["example.com"]; h_DomainSuffix := None;
     h_DomainKeyword := None; h_DomainRegex := None; h_SourceIPCIDR := None; h_IPCIDR := Some ["10.0.0.0/8"];
     h_SourcePort := None; h_SourcePortRange := None; h_Port := Some [443]; h_PortRange := Some ["8000:9000"];
     h_ProcessName := None; h_ProcessPath := None; h_ProcessPathRegex := None;
     h_PackageName := None; h_PackageNameRegex := None; h_NetworkType := None;
     h_NetworkIsExpensive := false; h_NetworkIsConstrained := false; h_WIFISSID := None;
     h_WIFIBSSID := None; h_NetworkInterfaceAddress := None; h_DefaultInterfaceAddress := None;
     h_Invert := false; h_DomainMatcher := None; h_SourceIPSet := None; h_IPSet := None;
     h_AdGuardDomain := None; h_AdGuardDomainMatcher := None |}.

Definition ex_common : CommonRule :=
  {| c_Inbound := None; c_IPVersion := 4; c_Network := Some ["tcp"]; c_AuthUser := None; c_Protocol := None;
     c_Domain := None; c_DomainSuffix := Some ["example.com"]; c_DomainKeyword := None; c_DomainRegex := None;
     c_Geosite := None; c_SourceGeoIP := None; c_GeoIP := None; c_SourceIPCIDR := None;
     c_SourceIPIsPrivate := false; c_IPCIDR := None; c_IPIsPrivate := false; c_SourcePort := None;
     c_SourcePortRange := None; c_Port := None; c_PortRange := Some ["400:"]; c_ProcessName := None;
     c_ProcessPath := None; c_ProcessPathRegex := None; c_PackageName := None; c_PackageNameRegex := None;
     c_User := None; c_UserID := None; c_ClashMode := "Rule"; c_NetworkType := None; c_NetworkIsExpensive := false;
     c_NetworkIsConstrained := false; c_WIFISSID := None; c_WIFIBSSID := None; c_InterfaceAddress := None;
     c_NetworkInterfaceAddress := None; c_DefaultInterfaceAddress := None; c_SourceMACAddress := None;
     c_SourceHostname := None; c_PreferredBy := None; c_RuleSet := None; c_RuleSetIPCIDRMatchSource := false;
     c_Invert := false; c_Deprecated_RulesetIPCIDRMatchSource := false |}.
Definition ex_route_rule : RawDefaultRule := MkRawDefaultRule ex_common None.

Lemma ex_headless_ok : is_ok (NewDefaultHeadlessRule true ex_headless) = true.
Proof. vm_compute. reflexivity. Qed.

Lemma headless_rule_semantics_witness :
  exists r, NewDefaultHeadlessRule true ex_headless = Ok r /\ (abstractDefault_Match ex_world r ex_md).1 = true.
Proof.
  pose proof ex_headless_ok as H. destruct (NewDefaultHeadlessRule true ex_headless) as [r| | |] eqn:E; try discriminate.
  exists r. split; [done|]. rewrite (headless_rule_semantics ex_world ex_md true ex_headless r E eq_refl).
  vm_compute. reflexivity.
Defined.

Definition ex_start_route : outcome default_items :=
  let* d := NewDefaultRule_conditions ex_route_rule in
  start_items (item_Start true (fun _ => None) (fun _ => None)) (d_items d).

Lemma ex_start_route_ok : is_ok ex_start_route = true.
Proof. vm_compute. reflexivity. Qed.

Lemma route_rule_semantics_witness :
  exists r rs r', NewDefaultRule_conditions ex_route_rule = Ok (MkDefault r rs false)
    /\ start_items (item_Start true (fun _ => None) (fun _ => None)) r = Ok r'
    /\ (abstractDefault_Match ex_world (MkDefault r' rs false) ex_md).1 = true.
Proof.
  pose proof ex_start_route_ok as H. unfold ex_start_route in H.
  destruct (NewDefaultRule_conditions ex_route_rule) as [[r rs invert]| | |] eqn:E; try discriminate. cbn [obind d_items] in H.
  destruct (start_items _ r) as [r'| | |] eqn:Es; try discriminate.
  assert (invert = false) as -> by (unfold NewDefaultRule_conditions, add_rule_set in E; change (given (c_RuleSet ex_route_rule)) with false in E; inv_ok; reflexivity).
  exists r, rs, r'. split; [done|]. split; [done|].
  rewrite (route_rule_semantics ex_world ex_md true (fun _ => None) (fun _ => None) ex_route_rule r rs false r' E eq_refl Es eq_refl).
  vm_compute. reflexivity.
Defined.
