(* ===== verification/RuleSetState.v ===== *)
(** * Rule-set state

    route/rule/rule_set_local.go (the in-memory part of [RemoteRuleSet] is the
    same code) and the life cycle of [RuleSetItem] (rule_item_rule_set.go): the
    reload of the rules with its metadata and callbacks, and the reference counts
    that the items of all rules keep on the rule-sets of the router.

    The rule-sets are objects shared by name; a [RuleSetItem] holds the names of
    the sets it has counted.  [step] is the interleaving of starts, closes,
    reloads and clean-ups of a running system. *)

From S2P Require Import Prelude GoStd Netip External Concrete DnsMsg RuleItems RuleMatch RuleSpec RuleOptions RuleBuild RuleBuildSpec.
Local Open Scope Z_scope.

(** [atomic.Int32.Add] wraps around. *)
Definition int32 (x : Z) : Z := (x + 2 ^ 31) mod 2 ^ 32 - 2 ^ 31.

Lemma int32_small x : - 2 ^ 31 <= x < 2 ^ 31 -> int32 x = x.
Proof. intros H. unfold int32. rewrite Z.mod_small; lia. Qed.

Section State.
Context {X : External}.

(** ** LocalRuleSet *)

Record LocalRuleSet := {
  ls_rules : list Rule;
  ls_metadata : RuleSetMetadata;
  ls_callbacks : list Z;
  ls_refs : Z
}.

Definition IncRef (s : LocalRuleSet) : LocalRuleSet :=
  {| ls_rules := ls_rules s; ls_metadata := ls_metadata s; ls_callbacks := ls_callbacks s;
     ls_refs := int32 (ls_refs s + 1) |}.
Definition DecRef (s : LocalRuleSet) : outcome LocalRuleSet :=
  let refs := int32 (ls_refs s - 1) in
  if refs <? 0 then Panic "rule-set: negative refs"
  else Ok {| ls_rules := ls_rules s; ls_metadata := ls_metadata s; ls_callbacks := ls_callbacks s; ls_refs := refs |}.
(** [s.rules = nil] *)
Definition drop_rules (s : LocalRuleSet) : LocalRuleSet :=
  {| ls_rules := []; ls_metadata := ls_metadata s; ls_callbacks := ls_callbacks s; ls_refs := ls_refs s |}.
(** The load of the counter and the assignment are one step here; the code has no lock around
    them, so that an [IncRef] between the two would leave a counted rule-set without rules. *)
Definition Cleanup (s : LocalRuleSet) : LocalRuleSet := if ls_refs s =? 0 then drop_rules s else s.

(** The construction loop of [reloadRules]. *)
Definition new_rules (nm : bool) (headlessRules : list HeadlessRule) : outcome (list Rule) :=
  omap_ix (fun i o => cause ("parse rule_set.rules.[" +:+ pretty i +:+ "]") (NewHeadlessRule nm o)) headlessRules.

(** [reloadRules]: the new state and the callbacks run; [validate] is the context's
    [DNSRuleSetUpdateValidator], if any. *)
Definition reloadRules (nm : bool) (validate : option (RuleSetMetadata -> outcome unit))
    (headlessRules : list HeadlessRule) (s : LocalRuleSet) : outcome (LocalRuleSet * list Z) :=
  let* rules := new_rules nm headlessRules in
  let metadata := buildRuleSetMetadata headlessRules in
  let* _ := match validate with None => Ok tt | Some v => v metadata end in
  Ok ({| ls_rules := rules; ls_metadata := metadata; ls_callbacks := ls_callbacks s; ls_refs := ls_refs s |},
      ls_callbacks s).

(** [ExtractIPSet] *)
Definition ExtractIPSet (s : LocalRuleSet) : outcome (list IPSet) :=
  let* l := omap_ix (fun _ => extractIPSetFromRule) (ls_rules s) in Ok (concat l).

(** ** RuleSetItem.Start and RuleSetItem.Close *)

Abbreviation sets := (gmap string LocalRuleSet) (only parsing).

(** The sets an item holds, in the order it counted them. *)
Fixpoint dec_all (held : list string) (m : sets) : outcome sets :=
  match held with
  | [] => Ok m
  | t :: held' =>
      match m !! t with
      | None => Panic "nil rule-set"
      | Some s => let* s := DecRef s in dec_all held' (<[t := s]> m)
      end
  end.

(** The loop of [Start] over the tags: the sets counted, and the tag not found. *)
Fixpoint inc_all (tags held : list string) (m : sets) : list string * sets * option string :=
  match tags with
  | [] => (held, m, None)
  | t :: tags' =>
      match m !! t with
      | None => (held, m, Some t)
      | Some s => inc_all tags' (held ++ [t]) (<[t := IncRef s]> m)
      end
  end.

Record item_state := { it_tags : list string; it_held : list string }.
Definition with_held (it : item_state) (held : list string) : item_state := {| it_tags := it_tags it; it_held := held |}.

Definition RuleSetItem_Close (it : item_state) (m : sets) : outcome (item_state * sets) :=
  let* m := dec_all (it_held it) m in Ok (with_held it [], m).

Definition RuleSetItem_Start (it : item_state) (m : sets) : outcome (item_state * sets * option error) :=
  let* (it, m) := RuleSetItem_Close it m in
  match inc_all (it_tags it) [] m with
  | (held, m, None) => Ok (with_held it held, m, None)
  | (held, m, Some tag) =>
      let* (it, m) := RuleSetItem_Close (with_held it held) m in
      Ok (it, m, Some (ENew ("rule-set not found: " +:+ tag)))
  end.

(** ** The system: the router's rule-sets and the rule-set items of all rules *)

Record system := { sy_sets : sets; sy_items : list item_state }.

Inductive step (nm : bool) (validate : option (RuleSetMetadata -> outcome unit)) : system -> system -> Prop :=
| step_start y i it it' m' e :
    sy_items y !! i = Some it -> RuleSetItem_Start it (sy_sets y) = Ok (it', m', e) ->
    step nm validate y {| sy_sets := m'; sy_items := <[i := it']> (sy_items y) |}
| step_close y i it it' m' :
    sy_items y !! i = Some it -> RuleSetItem_Close it (sy_sets y) = Ok (it', m') ->
    step nm validate y {| sy_sets := m'; sy_items := <[i := it']> (sy_items y) |}
| step_cleanup y t s :
    sy_sets y !! t = Some s ->
    step nm validate y {| sy_sets := <[t := Cleanup s]> (sy_sets y); sy_items := sy_items y |}
| step_reload y t s rules s' called :
    sy_sets y !! t = Some s -> reloadRules nm validate rules s = Ok (s', called) ->
    step nm validate y {| sy_sets := <[t := s']> (sy_sets y); sy_items := sy_items y |}.

Definition count_tag (t : string) (l : list string) : Z := zlen (List.filter (fun u => bool_decide (u = t)) l).
Fixpoint sum_items (f : item_state -> Z) (l : list item_state) : Z :=
  match l with [] => 0 | it :: l' => f it + sum_items f l' end.

(** Every count is the number of times the set is held; an item holds a part of
    its tags, all of them of the router's sets; the tags fit the counter. *)
Record system_ok (y : system) : Prop := {
  ok_refs : forall t s, sy_sets y !! t = Some s -> ls_refs s = sum_items (fun it => count_tag t (it_held it)) (sy_items y);
  ok_held : forall it t, it ∈ sy_items y -> t ∈ it_held it -> is_Some (sy_sets y !! t);
  ok_prefix : forall it, it ∈ sy_items y -> it_held it `prefix_of` it_tags it;
  ok_bound : sum_items (fun it => zlen (it_tags it)) (sy_items y) < 2 ^ 31
}.

(** The state before any item is started. *)
Definition initial (y : system) : Prop :=
  (forall t s, sy_sets y !! t = Some s -> ls_refs s = 0)
  /\ (forall it, it ∈ sy_items y -> it_held it = [])
  /\ sum_items (fun it => zlen (it_tags it)) (sy_items y) < 2 ^ 31.

(** ** Counting *)

Lemma count_tag_nil t : count_tag t [] = 0.
Proof. done. Qed.

Lemma count_tag_app t l l' : count_tag t (l ++ l') = count_tag t l + count_tag t l'.
Proof. unfold count_tag. rewrite List.filter_app. apply zlen_app. Qed.

Lemma count_tag_cons t u l : count_tag t (u :: l) = (if bool_decide (u = t) then 1 else 0) + count_tag t l.
Proof. unfold count_tag. cbn. case_bool_decide; [|done]. rewrite zlen_cons. lia. Qed.

Lemma count_tag_nonneg t l : 0 <= count_tag t l.
Proof. apply zlen_nonneg. Qed.

Lemma count_tag_length t l : count_tag t l <= zlen l.
Proof. induction l as [|u l IH]; [done|]. rewrite count_tag_cons, zlen_cons. case_bool_decide; lia. Qed.

Lemma sum_insert f l i it it' :
  l !! i = Some it -> sum_items f (<[i := it']> l) = sum_items f l - f it + f it'.
Proof.
  revert i. induction l as [|x l IH]; intros [|i] H; cbn in H; simplify_eq.
  - cbn [insert list_insert sum_items]. lia.
  - change (<[S i := it']> (x :: l)) with (x :: <[i := it']> l). cbn [sum_items]. rewrite (IH _ H). lia.
Qed.

Lemma sum_le f g l : (forall it, it ∈ l -> f it <= g it) -> sum_items f l <= sum_items g l.
Proof.
  induction l as [|x l IH]; intros H; cbn; [lia|].
  pose proof (H x ltac:(left)). specialize (IH ltac:(intros it Hit; apply H; by right)). lia.
Qed.

Lemma sum_nonneg f l : (forall it, 0 <= f it) -> 0 <= sum_items f l.
Proof. intros H. induction l as [|x l IH]; cbn; [lia|]. specialize (H x). lia. Qed.

Lemma sum_ge f l i it : (forall it, 0 <= f it) -> l !! i = Some it -> f it <= sum_items f l.
Proof.
  intros Hf. revert i. induction l as [|x l IH]; intros [|i] H; cbn in *; simplify_eq.
  - pose proof (sum_nonneg f l Hf). lia.
  - pose proof (IH _ H). specialize (Hf x). lia.
Qed.

(** ** Counting up and down *)

(** [refs_by f m]: the count of every set [t] is [f t], within the counter. *)
Definition refs_by (f : string -> Z) (m : sets) : Prop :=
  forall t s, m !! t = Some s -> ls_refs s = f t.

Lemma dec_all_spec held f m :
  refs_by f m -> (forall t, t ∈ held -> is_Some (m !! t)) ->
  (forall t, count_tag t held <= f t < 2 ^ 31) ->
  exists m', dec_all held m = Ok m' /\ refs_by (fun t => f t - count_tag t held) m'
             /\ (forall t, is_Some (m' !! t) <-> is_Some (m !! t))
             /\ (forall t, (ls_rules <$> m' !! t) = (ls_rules <$> m !! t)).
Proof.
  revert f m. induction held as [|t held IH]; intros f m Hm Hin Hf; cbn [dec_all].
  - exists m. split; [done|]. split; [|done]. intros t s Hs. rewrite (Hm _ _ Hs). rewrite count_tag_nil. lia.
  - destruct (Hin t ltac:(left)) as [s Hs]. rewrite Hs. pose proof (Hf t) as Ht.
    rewrite count_tag_cons, bool_decide_eq_true_2 in Ht by done. pose proof (count_tag_nonneg t held).
    unfold DecRef. rewrite (Hm _ _ Hs), int32_small by lia.
    rewrite (proj2 (Z.ltb_ge _ _)) by lia. cbn [obind].
    match goal with |- context [dec_all held ?m1] =>
      edestruct (IH (fun u => f u - (if bool_decide (t = u) then 1 else 0)) m1) as (m' & Hm' & Hr & Hd & Hk) end;
      [| | |exists m'; split; [exact Hm'|]; split; [|split]].
    + intros u s' Hu. apply lookup_insert_Some in Hu as [[<- <-]|[Hne Hu]].
      * rewrite bool_decide_eq_true_2 by done. done.
      * rewrite bool_decide_eq_false_2 by done. rewrite (Hm _ _ Hu). lia.
    + intros u Hu. rewrite lookup_insert_is_Some. destruct (decide (t = u)); [by left|right].
      split; [done|]. apply Hin. by right.
    + intros u. specialize (Hf u). rewrite count_tag_cons in Hf. case_bool_decide; lia.
    + intros u s' Hu. rewrite (Hr _ _ Hu), count_tag_cons. lia.
    + intros u. rewrite Hd, lookup_insert_is_Some. destruct (decide (t = u)); subst; naive_solver.
    + intros u. rewrite Hk. destruct (decide (t = u)) as [<-|Hne]; [by rewrite lookup_insert_eq, Hs|].
      by rewrite lookup_insert_ne.
Qed.

Lemma inc_all_spec tags held f m :
  refs_by f m -> (forall t, 0 <= f t) -> (forall t, f t + zlen tags < 2 ^ 31) ->
  exists new m' e, inc_all tags held m = (held ++ new, m', e) /\ new `prefix_of` tags
    /\ refs_by (fun t => f t + count_tag t new) m'
    /\ (forall t, is_Some (m' !! t) <-> is_Some (m !! t))
    /\ (forall t, t ∈ new -> is_Some (m !! t))
    /\ (forall t, (ls_rules <$> m' !! t) = (ls_rules <$> m !! t))
    /\ (e = None -> new = tags).
Proof.
  revert held f m. induction tags as [|t tags IH]; intros held f m Hm H0 Hb; cbn [inc_all].
  - exists [], m, None. rewrite app_nil_r. split; [done|]. split; [done|].
    split; [|split; [done|split; [intros t Ht; by apply not_elem_of_nil in Ht|done]]].
    intros t s Hs. rewrite (Hm _ _ Hs). rewrite count_tag_nil. lia.
  - destruct (m !! t) as [s|] eqn:Hs.
    + rewrite zlen_cons in Hb. pose proof (zlen_nonneg tags).
      edestruct (IH (held ++ [t]) (fun u => f u + (if bool_decide (t = u) then 1 else 0)) (<[t := IncRef s]> m))
        as (new & m' & e & Heq & Hp & Hr & Hd & Hin & Hk & He).
      * intros u s' Hu. apply lookup_insert_Some in Hu as [[<- <-]|[Hne Hu]].
        -- rewrite bool_decide_eq_true_2 by done. cbn. rewrite (Hm _ _ Hs), int32_small; [done|].
           specialize (Hb t). specialize (H0 t). lia.
        -- rewrite bool_decide_eq_false_2 by done. rewrite (Hm _ _ Hu). lia.
      * intros u. specialize (H0 u). case_bool_decide; lia.
      * intros u. specialize (Hb u). case_bool_decide; lia.
      * exists (t :: new), m', e. rewrite Heq, <- app_assoc. split; [done|]. split; [by apply prefix_cons|].
        split; [|split; [|split; [|split]]].
        -- intros u s' Hu. rewrite (Hr _ _ Hu), count_tag_cons. lia.
        -- intros u. rewrite Hd, lookup_insert_is_Some. destruct (decide (t = u)); subst; naive_solver.
        -- intros u [->|Hu]%elem_of_cons; [by rewrite Hs|]. apply Hin in Hu. rewrite lookup_insert_is_Some in Hu.
           destruct Hu as [<-|[_ Hu]]; [by rewrite Hs|done].
        -- intros u. rewrite Hk. destruct (decide (t = u)) as [<-|Hne]; [by rewrite lookup_insert_eq, Hs|].
           by rewrite lookup_insert_ne.
        -- intros ->. by rewrite He.
    + exists [], m, (Some t). rewrite app_nil_r. split; [done|]. split; [apply prefix_nil|].
      split; [|split; [done|split; [intros u Hu; by apply not_elem_of_nil in Hu|done]]].
      intros u s' Hu. rewrite (Hm _ _ Hu). rewrite count_tag_nil. lia.
Qed.

(** ** The invariant *)

Lemma sum_le_except f g l i it :
  l !! i = Some it -> (forall x, x ∈ l -> f x <= g x) -> sum_items f l - f it <= sum_items g l - g it.
Proof.
  revert i. induction l as [|x l IH]; intros [|i] H Hle; cbn in *; simplify_eq.
  - pose proof (sum_le f g l ltac:(intros y Hy; apply Hle; by right)). lia.
  - pose proof (IH _ H ltac:(intros y Hy; apply Hle; by right)). pose proof (Hle x ltac:(left)). lia.
Qed.

Lemma count_held_le y it t : system_ok y -> it ∈ sy_items y -> count_tag t (it_held it) <= zlen (it_tags it).
Proof.
  intros Hok Hit. destruct (ok_prefix y Hok it Hit) as [k ->]. rewrite zlen_app.
  pose proof (count_tag_length t (it_held it)). pose proof (zlen_nonneg k). lia.
Qed.

Lemma elem_of_insert_inv {A} (l : list A) i x y : y ∈ <[i := x]> l -> y = x \/ y ∈ l.
Proof.
  intros [j Hj]%list_elem_of_lookup. destruct (decide (i = j)) as [<-|Hne].
  - left. assert (i < length l)%nat by (rewrite <- (length_insert l i x); by eapply lookup_lt_Some).
    rewrite list_lookup_insert_eq in Hj by done. congruence.
  - right. rewrite list_lookup_insert_ne in Hj by done. by eapply list_elem_of_lookup_2.
Qed.

(** Replacing the held sets of one item, with the counts adjusted, keeps the
    invariant. *)
Lemma system_ok_insert y i it held m :
  system_ok y -> sy_items y !! i = Some it -> held `prefix_of` it_tags it ->
  (forall t, t ∈ held -> is_Some (sy_sets y !! t)) ->
  refs_by (fun t => sum_items (fun it => count_tag t (it_held it)) (sy_items y)
                    - count_tag t (it_held it) + count_tag t held) m ->
  (forall t, is_Some (m !! t) <-> is_Some (sy_sets y !! t)) ->
  system_ok {| sy_sets := m; sy_items := <[i := with_held it held]> (sy_items y) |}.
Proof.
  intros Hok Hi Hp Hin Hr Hd. split; cbn [sy_sets sy_items].
  - intros t s Hs. rewrite (sum_insert _ _ _ _ _ Hi). by apply Hr.
  - intros it' t Hit' Ht. apply Hd. apply elem_of_insert_inv in Hit' as [->|Hit']; [by apply Hin|].
    by eapply ok_held.
  - intros it' Hit'. apply elem_of_insert_inv in Hit' as [->|Hit']; [done|]. by eapply ok_prefix.
  - rewrite (sum_insert _ _ _ _ _ Hi). cbn [with_held it_tags]. pose proof (ok_bound y Hok). lia.
Qed.

(** [Close] releases what the item holds. *)
Lemma Close_spec y i it :
  system_ok y -> sy_items y !! i = Some it ->
  exists m, RuleSetItem_Close it (sy_sets y) = Ok (with_held it [], m)
    /\ refs_by (fun t => sum_items (fun it => count_tag t (it_held it)) (sy_items y) - count_tag t (it_held it)) m
    /\ (forall t, is_Some (m !! t) <-> is_Some (sy_sets y !! t))
    /\ (forall t, (ls_rules <$> m !! t) = (ls_rules <$> sy_sets y !! t)).
Proof.
  intros Hok Hi. pose proof (list_elem_of_lookup_2 _ _ _ Hi) as Hit. unfold RuleSetItem_Close.
  edestruct (dec_all_spec (it_held it)) as (m & Hm & Hr & Hd & Hk).
  - exact (ok_refs y Hok).
  - intros t Ht. by eapply ok_held.
  - intros t. split.
    + apply (sum_ge (fun it => count_tag t (it_held it)) _ i); [intros; apply count_tag_nonneg|done].
    + eapply Z.le_lt_trans; [|apply (ok_bound y Hok)]. apply sum_le. intros x Hx. by eapply count_held_le.
  - exists m. by rewrite Hm.
Qed.

(** [Start] never panics; it holds every tag, or nothing when one is unknown, and
    counts accordingly. *)
Lemma Start_spec y i it :
  system_ok y -> sy_items y !! i = Some it ->
  exists held m e, RuleSetItem_Start it (sy_sets y) = Ok (with_held it held, m, e)
    /\ held = (if is_nil e then it_tags it else [])
    /\ (forall t, (ls_rules <$> m !! t) = (ls_rules <$> sy_sets y !! t))
    /\ system_ok {| sy_sets := m; sy_items := <[i := with_held it held]> (sy_items y) |}.
Proof.
  intros Hok Hi. destruct (Close_spec y i it Hok Hi) as (m1 & Hc & Hr1 & Hd1 & Hk1).
  unfold RuleSetItem_Start. rewrite Hc. cbn [obind].
  pose proof (list_elem_of_lookup_2 _ _ _ Hi) as Hit.
  assert (Hb : forall t, sum_items (fun it => count_tag t (it_held it)) (sy_items y) - count_tag t (it_held it)
                         + zlen (it_tags it) < 2 ^ 31).
  { intros t. pose proof (ok_bound y Hok). unshelve epose proof
      (sum_le_except (fun it => count_tag t (it_held it)) (fun it => zlen (it_tags it)) _ i it Hi _) as Hs;
      [intros x Hx; by eapply count_held_le|]. cbn in Hs. lia. }
  assert (H0 : forall t, 0 <= sum_items (fun it => count_tag t (it_held it)) (sy_items y) - count_tag t (it_held it)).
  { intros t. pose proof (sum_ge (fun it => count_tag t (it_held it)) (sy_items y) i it
      ltac:(intros; apply count_tag_nonneg) Hi) as Hge. cbv beta in Hge. lia. }
  edestruct (inc_all_spec (it_tags it) [] _ m1 Hr1 H0 Hb) as (new & m2 & e & Heq & Hp & Hr2 & Hd2 & Hin & Hk2 & He).
  cbn [with_held it_tags app] in *. rewrite Heq. destruct e as [tag|].
  - unfold RuleSetItem_Close. cbn [with_held it_held].
    edestruct (dec_all_spec new _ m2 Hr2) as (m3 & Hm3 & Hr3 & Hd3 & Hk3).
    + intros t Ht. apply Hd2. by apply Hin.
    + intros t. specialize (H0 t). specialize (Hb t). destruct Hp as [k Hk]. rewrite Hk, zlen_app in Hb.
      pose proof (count_tag_length t new). pose proof (zlen_nonneg k). lia.
    + rewrite Hm3. cbn [obind]. eexists [], m3, _. split; [done|]. split; [done|].
      split; [intros t; by rewrite Hk3, Hk2, Hk1|].
      apply system_ok_insert; [done|done|apply prefix_nil|by intros t Ht%not_elem_of_nil| |].
      * intros t s Hs. rewrite (Hr3 _ _ Hs), count_tag_nil. lia.
      * intros t. by rewrite Hd3, Hd2, Hd1.
  - rewrite (He eq_refl) in *. eexists _, m2, None. split; [done|]. split; [done|].
    split; [intros t; by rewrite Hk2, Hk1|].
    apply system_ok_insert; [done|done|done| |exact Hr2|intros t; by rewrite Hd2, Hd1].
    intros t Ht. apply Hd1. by apply Hin.
Qed.

Lemma system_ok_update y t s s' :
  system_ok y -> sy_sets y !! t = Some s -> ls_refs s' = ls_refs s ->
  system_ok {| sy_sets := <[t := s']> (sy_sets y); sy_items := sy_items y |}.
Proof.
  intros Hok Hs Hr. split; cbn [sy_sets sy_items].
  - intros u s'' Hu. apply lookup_insert_Some in Hu as [[<- <-]|[_ Hu]]; [rewrite Hr|]; by eapply ok_refs.
  - intros it u Hit Hu. rewrite lookup_insert_is_Some. destruct (decide (t = u)); [by left|right].
    split; [done|]. by eapply ok_held.
  - apply (ok_prefix y Hok).
  - apply (ok_bound y Hok).
Qed.

Lemma step_ok nm validate y y' : step nm validate y y' -> system_ok y -> system_ok y'.
Proof.
  intros Hstep Hok. destruct Hstep as [y i it it' m' e Hi H|y i it it' m' Hi H|y t s Hs|y t s rules s' called Hs H].
  - destruct (Start_spec y i it Hok Hi) as (held & m & e' & Heq & _ & _ & Hok'). rewrite Heq in H. by simplify_eq.
  - destruct (Close_spec y i it Hok Hi) as (m & Heq & Hr & Hd & _). rewrite Heq in H. simplify_eq.
    apply system_ok_insert; [done|done|apply prefix_nil|by intros t Ht%not_elem_of_nil| |done].
    intros t s Hs. rewrite (Hr _ _ Hs), count_tag_nil. lia.
  - eapply system_ok_update; [done..|]. unfold Cleanup. by case_goal.
  - eapply system_ok_update; [done..|]. unfold reloadRules in H. by inv_ok.
Qed.

Lemma initial_ok y : initial y -> system_ok y.
Proof.
  intros (Hr & Hh & Hb). split; [|intros it t Hit Ht|intros it Hit|done].
  - intros t s Hs. rewrite (Hr _ _ Hs). clear Hb. revert Hh. generalize (sy_items y) as l. induction l as [|it l IH]; [done|].
    intros Hl. cbn. rewrite (Hl it ltac:(left)), count_tag_nil, <- IH; [done|]. intros x Hx. apply Hl. by right.
  - rewrite (Hh _ Hit) in Ht. by apply not_elem_of_nil in Ht.
  - rewrite (Hh _ Hit). apply prefix_nil.
Qed.

Lemma reachable_ok nm validate y y' : initial y -> rtc (step nm validate) y y' -> system_ok y'.
Proof. intros Hi Hr. apply initial_ok in Hi. induction Hr; eauto using step_ok. Qed.

(** C5: in every reachable state the reference count of a rule-set is the number of
    times the running rule items hold it; hence starting or closing any item
    never reaches the negative-count panic, and [Cleanup] keeps the rules of a set
    that some item holds. *)
Theorem rule_set_refs_balanced nm validate y0 y :
  initial y0 -> rtc (step nm validate) y0 y ->
  (forall t s, sy_sets y !! t = Some s -> ls_refs s = sum_items (fun it => count_tag t (it_held it)) (sy_items y))
  /\ (forall i it, sy_items y !! i = Some it ->
        is_ok (RuleSetItem_Start it (sy_sets y)) = true /\ is_ok (RuleSetItem_Close it (sy_sets y)) = true)
  /\ (forall i it t s, sy_items y !! i = Some it -> t ∈ it_held it -> sy_sets y !! t = Some s -> Cleanup s = s).
Proof.
  intros Hi Hr. pose proof (reachable_ok _ _ _ _ Hi Hr) as Hok. split; [apply (ok_refs y Hok)|]. split.
  - intros i it Hit. destruct (Start_spec y i it Hok Hit) as (? & ? & ? & -> & _).
    destruct (Close_spec y i it Hok Hit) as (? & -> & _). done.
  - intros i it t s Hit Ht Hs. unfold Cleanup. rewrite (ok_refs y Hok t s Hs).
    rewrite (proj2 (Z.eqb_neq _ _)); [done|].
    pose proof (sum_ge (fun it => count_tag t (it_held it)) _ i it ltac:(intros; apply count_tag_nonneg) Hit) as H.
    assert (0 < count_tag t (it_held it)); [|cbn in H; lia]. clear H Hit. induction (it_held it) as [|u l IH]; [by apply not_elem_of_nil in Ht|].
    rewrite count_tag_cons. pose proof (count_tag_nonneg t l). apply elem_of_cons in Ht as [<-|Ht].
    + rewrite bool_decide_eq_true_2 by done. lia.
    + specialize (IH Ht). case_bool_decide; lia.
Qed.

(** A rule-set item starts with all of its rule-sets counted, or, when a tag is
    unknown, with none of them: a failed start releases what it had counted. *)
Theorem rule_set_item_start_all_or_nothing nm validate y0 y i it :
  initial y0 -> rtc (step nm validate) y0 y -> sy_items y !! i = Some it ->
  exists held m e, RuleSetItem_Start it (sy_sets y) = Ok (with_held it held, m, e)
    /\ held = (if is_nil e then it_tags it else [])
    /\ forall t s, m !! t = Some s ->
         ls_refs s = sum_items (fun it => count_tag t (it_held it)) (sy_items y)
                     - count_tag t (it_held it) + count_tag t held.
Proof.
  intros Hi Hr Hit. pose proof (reachable_ok _ _ _ _ Hi Hr) as Hok.
  destruct (Start_spec y i it Hok Hit) as (held & m & e & Heq & Hh & _ & Hok').
  exists held, m, e. split; [done|]. split; [done|]. intros t s Hs.
  rewrite (ok_refs _ Hok' t s Hs). cbn [sy_items]. by rewrite (sum_insert _ _ _ _ _ Hit).
Qed.

(** ** What a reload publishes *)

(** The rule types the parsers of rule-set files leave. *)
Fixpoint typed (o : HeadlessRule) : bool :=
  match o with
  | MkHeadless type _ (MkLogicalHeadless _ rules _) =>
      bool_decide (type = "default")
      || bool_decide (type = "logical") && match rules with Some l => forallb typed l | None => true end
  end.

Lemma group_list_append g ts it r :
  nonempty (group_list g (append_to_lists ts it r)) = nonempty (group_list g r) || bool_decide (To g ∈ ts).
Proof.
  unfold append_to_lists. revert r. induction ts as [|t ts IH]; intros r; cbn [fold_left].
  - by rewrite bool_decide_eq_false_2, orb_false_r by apply not_elem_of_nil.
  - rewrite IH, (bool_decide_ext (To g ∈ t :: ts) (To g = t \/ To g ∈ ts)) by apply elem_of_cons.
    rewrite bool_decide_or, orb_assoc. f_equal.
    destruct r, t as [g'|]; [destruct g, g'|destruct g]; cbn; rewrite ?nonempty_app, ?orb_true_r, ?orb_false_r; done.
Qed.

Lemma run_steps_nonempty g l r0 r :
  run_steps l r0 = Ok r ->
  nonempty (group_list g r)
  = nonempty (group_list g r0) || existsb (fun s => bool_decide (To g ∈ s.1) && negb (is_nil s.2)) l.
Proof.
  revert r0. induction l as [|[ts [o|]] l IH]; intros r0 H; cbn [run_steps] in H.
  - inv_ok. cbn. by rewrite orb_false_r.
  - inv_ok. rewrite (IH _ H), group_list_append. cbn [existsb fst snd is_nil negb].
    by rewrite andb_true_r, orb_assoc.
  - rewrite (IH _ H). cbn [existsb fst snd is_nil negb]. by rewrite andb_false_r.
Qed.

Lemma default_has_ip nm o d :
  NewDefaultHeadlessRule nm o = Ok d ->
  nonempty (destinationIPCIDRItems (d_items d)) = isIPCIDRHeadlessRule o /\ d_ruleSetItem d = None.
Proof.
  unfold NewDefaultHeadlessRule. intros H. inv_ok. split; [|done]. cbn [d_items].
  change (destinationIPCIDRItems a) with (group_list GDestinationIPCIDR a).
  rewrite (run_steps_nonempty _ _ _ _ E), !existsb_app. unfold isIPCIDRHeadlessRule.
  destruct nm; cbn; destruct (given (h_IPCIDR o)), (h_IPSet o); done.
Qed.

Lemma NewHeadlessRule_default nm d l :
  NewHeadlessRule nm (MkHeadless "default" d l)
  = if negb (DefaultHeadlessRule_IsValid d) then Err (ENew "missing conditions")
    else let* r := NewDefaultHeadlessRule nm d in Ok (DefaultR KDefaultHeadlessRule r).
Proof. reflexivity. Qed.

Lemma NewHeadlessRule_logical nm d mode rules invert :
  NewHeadlessRule nm (MkHeadless "logical" d (MkLogicalHeadless mode rules invert))
  = let* valid := LogicalHeadlessRule_IsValid (MkLogicalHeadless mode rules invert) in
    if negb valid then Err (ENew "missing conditions")
    else let* mode := check_mode mode in
         let* rs := omap_ix (fun i r => cause (sub_rule_msg i) (NewHeadlessRule nm r)) (elems rules) in
         Ok (LogicalR KLogicalHeadlessRule (MkLogical rs mode invert)).
Proof.
  cbn [NewHeadlessRule]. destruct (LogicalHeadlessRule_IsValid _) as [[|]| | |]; try reflexivity.
  cbn [obind negb NewLogicalHeadlessRule]. destruct (check_mode mode); try reflexivity. cbn [obind].
  unfold bool_decide. cbn [decide_rel orb].
  assert (forall i l,
    (fix go (i : Z) (rs : list HeadlessRule) : outcome (list Rule) :=
       match rs with
       | [] => Ok []
       | r :: rs' =>
           let* x := cause (sub_rule_msg i) (NewHeadlessRule nm r) in
           let* xs := go (i + 1) rs' in
           Ok (x :: xs)
       end) i l = omap_from (fun i r => cause (sub_rule_msg i) (NewHeadlessRule nm r)) i l) as Hgo.
  { intros i l. revert i. induction l as [|r l IH]; intros i; [done|]. cbn. by rewrite <- IH. }
  destruct rules as [l|]; [|reflexivity]. cbn [elems default]. unfold omap_ix. rewrite <- Hgo.
  by destruct (_ 0 l).
Qed.

Definition extract_all (rules : list Rule) : outcome (list IPSet) :=
  let* l := omap_ix (fun _ => extractIPSetFromRule) rules in Ok (concat l).

Lemma extract_logical rules mode invert :
  extractIPSetFromRule (LogicalR KLogicalHeadlessRule (MkLogical rules mode invert)) = extract_all rules.
Proof.
  cbn [extractIPSetFromRule]. unfold extract_all, omap_ix. generalize 0. induction rules as [|r rules IH]; intros i; [done|].
  cbn. destruct (extractIPSetFromRule r) as [x| | |]; try done. cbn. rewrite (IH (i + 1)).
  by destruct (omap_from _ _ _).
Qed.

(** The options and the rule agree on IP CIDR conditions. *)
Definition agrees (o : HeadlessRule) (r : Rule) : Prop :=
  rule_has isIPCIDRHeadlessRule o = WithAddressLimit r /\ is_ok (extractIPSetFromRule r) = true.

Lemma omap_agrees nm (msg : Z -> string) i l rs :
  Forall (fun o => forall r, typed o = true -> NewHeadlessRule nm o = Ok r -> agrees o r) l ->
  forallb typed l = true -> omap_from (fun i o => cause (msg i) (NewHeadlessRule nm o)) i l = Ok rs ->
  existsb (rule_has isIPCIDRHeadlessRule) l = existsb WithAddressLimit rs /\ is_ok (extract_all rs) = true.
Proof.
  intros H. revert i rs. induction H as [|o l Ho _ IH]; intros i rs Ht Hr; cbn in Ht, Hr; inv_ok; [done|]. to_prop.
  apply cause_ok in E. destruct (Ho _ ltac:(done) E) as [Ha He]. destruct (IH _ _ ltac:(done) E0) as [IHa IHe].
  cbn [existsb]. rewrite Ha, IHa. split; [done|]. unfold extract_all, omap_ix in *. cbn [omap_from].
  destruct (extractIPSetFromRule a) as [x| | |]; try done. cbn [obind].
  assert (forall i j, omap_from (fun _ => extractIPSetFromRule) i a0 = omap_from (fun _ => extractIPSetFromRule) j a0) as Hij.
  { clear. induction a0 as [|y l IH]; intros i j; [done|]. cbn. by rewrite (IH (i + 1) (j + 1)). }
  rewrite (Hij (0 + 1) 0). by destruct (omap_from _ 0 a0).
Qed.

Lemma NewHeadlessRule_agrees nm o r : typed o = true -> NewHeadlessRule nm o = Ok r -> agrees o r.
Proof.
  revert r. induction o as [type d mode rules invert IH] using HeadlessRule_nested_ind. intros r Ht Hr.
  cbn [typed] in Ht. apply orb_true_iff in Ht as [Ht|Ht]; to_prop; subst type.
  - rewrite NewHeadlessRule_default in Hr. destruct (DefaultHeadlessRule_IsValid d); [|discriminate]. cbn [negb] in Hr. inv_ok.
    destruct (default_has_ip _ _ _ E) as [Hip Hrs]. split.
    + cbn. unfold default_WithAddressLimit. rewrite Hrs, Hip. by rewrite orb_false_r.
    + by destruct a.
  - rewrite NewHeadlessRule_logical in Hr. inv_ok. destruct a; [|discriminate]. cbn [negb] in Hr. inv_ok.
    destruct rules as [l|]; [|by inv_ok].
    destruct (omap_agrees nm sub_rule_msg 0 l a0 (IH l eq_refl) ltac:(done) E1) as [Ha He].
    split; [exact Ha|]. by rewrite extract_logical.
Qed.

(** A successful reload publishes one rule per option rule together with
    metadata that agrees with them: the set is recorded as containing IP CIDR
    rules exactly when some rule has an address condition to be resolved, IP sets
    can be extracted from it without panic, the counts are kept and every
    registered callback runs. *)
Theorem reload_publishes_consistent_state nm validate rules s s' called :
  reloadRules nm validate rules s = Ok (s', called) -> forallb typed rules = true ->
  zlen (ls_rules s') = zlen rules
  /\ ContainsIPCIDR (ls_metadata s') = existsb WithAddressLimit (ls_rules s')
  /\ is_ok (ExtractIPSet s') = true
  /\ ls_refs s' = ls_refs s /\ called = ls_callbacks s.
Proof.
  unfold reloadRules, new_rules. intros H Ht. inv_ok. cbn.
  split; [unfold zlen; by rewrite (omap_from_length _ _ _ _ E)|].
  edestruct (omap_agrees nm (fun i => "parse rule_set.rules.[" +:+ pretty i +:+ "]") 0 rules a) as [Ha He]; [|done|exact E|].
  - apply Forall_forall. intros o _ r. apply NewHeadlessRule_agrees.
  - done.
Qed.

End State.

(** ** Witnesses *)

Definition ex_metadata : RuleSetMetadata :=
  {| ContainsProcessRule := false; ContainsWIFIRule := false; ContainsIPCIDR := false;
     ContainsDNSQueryTypeRule := false; ContainsNonIPCIDRRule := false |}.
Definition ex_set : LocalRuleSet :=
  {| ls_rules := []; ls_metadata := ex_metadata; ls_callbacks := [7]; ls_refs := 0 |}.
Definition ex_item : item_state := {| it_tags := ["a"; "b"]; it_held := [] |}.
Definition ex_system : system :=
  {| sy_sets := <["a" := ex_set]> (<["b" := ex_set]> ∅); sy_items := [ex_item; {| it_tags := ["a"; "c"]; it_held := [] |}] |}.

Lemma ex_initial : initial ex_system.
Proof.
  split; [|split; [|vm_compute; reflexivity]].
  - intros t s H. cbn [sy_sets ex_system] in H. rewrite !lookup_insert_Some, lookup_empty in H. naive_solver.
  - intros it H. repeat apply elem_of_cons in H as [->|H]; [done|done|]. by apply not_elem_of_nil in H.
Qed.

Definition start_result (it : item_state) (m : gmap string LocalRuleSet) : option (list string * bool) :=
  match RuleSetItem_Start it m with Ok (it', _, e) => Some (it_held it', is_nil e) | _ => None end.

Lemma ex_start : start_result ex_item (sy_sets ex_system) = Some (["a"; "b"], true).
Proof. vm_compute. reflexivity. Qed.

Lemma ex_step :
  exists y, step true None ex_system y /\ (it_held <$> sy_items y !! 0%nat) = Some ["a"; "b"].
Proof.
  pose proof ex_start as H. unfold start_result in H.
  destruct (RuleSetItem_Start ex_item (sy_sets ex_system)) as [[[it' m'] e]| | |] eqn:E; try discriminate.
  injection H as H _. eexists. split; [by eapply (step_start true None ex_system 0 ex_item)|]. cbn. by rewrite H.
Qed.

Lemma rule_set_refs_balanced_witness :
  exists y, rtc (step true None) ex_system y
    /\ (it_held <$> sy_items y !! 0%nat) = Some ["a"; "b"]
    /\ forall t s, sy_sets y !! t = Some s -> ls_refs s = sum_items (fun it => count_tag t (it_held it)) (sy_items y).
Proof.
  destruct ex_step as (y & Hs & Hy). exists y. split; [by apply rtc_once|]. split; [done|].
  apply (rule_set_refs_balanced true None ex_system y ex_initial (rtc_once _ _ Hs)).
Defined.

Lemma rule_set_item_start_all_or_nothing_witness :
  exists held m e, RuleSetItem_Start {| it_tags := ["a"; "c"]; it_held := [] |} (sy_sets ex_system)
    = Ok (with_held {| it_tags := ["a"; "c"]; it_held := [] |} held, m, e).
Proof.
  destruct (rule_set_item_start_all_or_nothing true None ex_system ex_system 1 {| it_tags := ["a"; "c"]; it_held := [] |}
    ex_initial (rtc_refl _ _) eq_refl) as (held & m & e & H & _). by exists held, m, e.
Defined.

Definition ex_rules : list HeadlessRule :=
  [default_headless ex_headless; logical_headless "or" [default_headless ex_headless; default_headless ex_headless] true].

Lemma ex_reload : is_ok (reloadRules true None ex_rules ex_set) = true.
Proof. vm_compute. reflexivity. Qed.

Lemma reload_publishes_consistent_state_witness :
  exists s' called, reloadRules true None ex_rules ex_set = Ok (s', called)
    /\ zlen (ls_rules s') = 2 /\ is_ok (ExtractIPSet s') = true /\ called = [7].
Proof.
  pose proof ex_reload as H. destruct (reloadRules true None ex_rules ex_set) as [[s' called]| | |] eqn:E; try discriminate.
  exists s', called. split; [done|].
  destruct (reload_publishes_consistent_state true None ex_rules ex_set s' called E ltac:(vm_compute; reflexivity))
    as (Hl & _ & He & _ & Hc). done.
Defined.
