(* ===== verification/Srs.v ===== *)
(** * Binary rule-sets

    common/srs: the [.srs] format of headless rules, binary.go, ip_set.go and
    ip_cidr.go.  Writers produce the bytes handed to the compressor; readers are
    functions of a [stream].  The loops of the readers are bounded by the bytes
    that remain: every iteration consumes one, so the fuel [S (length avail)] is
    never exhausted (SrsSafety proves it). *)

From S2P Require Import Prelude GoStd Netip External RuleItems RuleOptions RuleBuild.
Local Open Scope Z_scope.

Definition MagicBytes : bytes := [0x53; 0x52; 0x53].
Definition RuleSetVersionCurrent : Z := 5.

Definition ruleItemQueryType : Z := 0.
Definition ruleItemNetwork : Z := 1.
Definition ruleItemDomain : Z := 2.
Definition ruleItemDomainKeyword : Z := 3.
Definition ruleItemDomainRegex : Z := 4.
Definition ruleItemSourceIPCIDR : Z := 5.
Definition ruleItemIPCIDR : Z := 6.
Definition ruleItemSourcePort : Z := 7.
Definition ruleItemSourcePortRange : Z := 8.
Definition ruleItemPort : Z := 9.
Definition ruleItemPortRange : Z := 10.
Definition ruleItemProcessName : Z := 11.
Definition ruleItemProcessPath : Z := 12.
Definition ruleItemPackageName : Z := 13.
Definition ruleItemWIFISSID : Z := 14.
Definition ruleItemWIFIBSSID : Z := 15.
Definition ruleItemAdGuardDomain : Z := 16.
Definition ruleItemProcessPathRegex : Z := 17.
Definition ruleItemNetworkType : Z := 18.
Definition ruleItemNetworkIsExpensive : Z := 19.
Definition ruleItemNetworkIsConstrained : Z := 20.
Definition ruleItemNetworkInterfaceAddress : Z := 21.
Definition ruleItemDefaultInterfaceAddress : Z := 22.
Definition ruleItemPackageNameRegex : Z := 23.
Definition ruleItemFinal : Z := 0xFF.

Section Srs.
Context {X : External}.

(** ** Assignments to a rule under construction *)

Definition set_QueryType v (r : DefaultHeadlessRule) : DefaultHeadlessRule :=
  let '(Build_DefaultHeadlessRule _ x2 x3 x4 x5 x6 x7 x8 x9 x10 x11 x12 x13 x14 x15 x16 x17 x18 x19 x20 x21 x22 x23 x24 x25 x26 x27 x28 x29 x30) := r in
  Build_DefaultHeadlessRule v x2 x3 x4 x5 x6 x7 x8 x9 x10 x11 x12 x13 x14 x15 x16 x17 x18 x19 x20 x21 x22 x23 x24 x25 x26 x27 x28 x29 x30.
Definition set_Network v (r : DefaultHeadlessRule) : DefaultHeadlessRule :=
  let '(Build_DefaultHeadlessRule x1 _ x3 x4 x5 x6 x7 x8 x9 x10 x11 x12 x13 x14 x15 x16 x17 x18 x19 x20 x21 x22 x23 x24 x25 x26 x27 x28 x29 x30) := r in
  Build_DefaultHeadlessRule x1 v x3 x4 x5 x6 x7 x8 x9 x10 x11 x12 x13 x14 x15 x16 x17 x18 x19 x20 x21 x22 x23 x24 x25 x26 x27 x28 x29 x30.
Definition set_Domain v (r : DefaultHeadlessRule) : DefaultHeadlessRule :=
  let '(Build_DefaultHeadlessRule x1 x2 _ x4 x5 x6 x7 x8 x9 x10 x11 x12 x13 x14 x15 x16 x17 x18 x19 x20 x21 x22 x23 x24 x25 x26 x27 x28 x29 x30) := r in
  Build_DefaultHeadlessRule x1 x2 v x4 x5 x6 x7 x8 x9 x10 x11 x12 x13 x14 x15 x16 x17 x18 x19 x20 x21 x22 x23 x24 x25 x26 x27 x28 x29 x30.
Definition set_DomainSuffix v (r : DefaultHeadlessRule) : DefaultHeadlessRule :=
  let '(Build_DefaultHeadlessRule x1 x2 x3 _ x5 x6 x7 x8 x9 x10 x11 x12 x13 x14 x15 x16 x17 x18 x19 x20 x21 x22 x23 x24 x25 x26 x27 x28 x29 x30) := r in
  Build_DefaultHeadlessRule x1 x2 x3 v x5 x6 x7 x8 x9 x10 x11 x12 x13 x14 x15 x16 x17 x18 x19 x20 x21 x22 x23 x24 x25 x26 x27 x28 x29 x30.
Definition set_DomainKeyword v (r : DefaultHeadlessRule) : DefaultHeadlessRule :=
  let '(Build_DefaultHeadlessRule x1 x2 x3 x4 _ x6 x7 x8 x9 x10 x11 x12 x13 x14 x15 x16 x17 x18 x19 x20 x21 x22 x23 x24 x25 x26 x27 x28 x29 x30) := r in
  Build_DefaultHeadlessRule x1 x2 x3 x4 v x6 x7 x8 x9 x10 x11 x12 x13 x14 x15 x16 x17 x18 x19 x20 x21 x22 x23 x24 x25 x26 x27 x28 x29 x30.
Definition set_DomainRegex v (r : DefaultHeadlessRule) : DefaultHeadlessRule :=
  let '(Build_DefaultHeadlessRule x1 x2 x3 x4 x5 _ x7 x8 x9 x10 x11 x12 x13 x14 x15 x16 x17 x18 x19 x20 x21 x22 x23 x24 x25 x26 x27 x28 x29 x30) := r in
  Build_DefaultHeadlessRule x1 x2 x3 x4 x5 v x7 x8 x9 x10 x11 x12 x13 x14 x15 x16 x17 x18 x19 x20 x21 x22 x23 x24 x25 x26 x27 x28 x29 x30.
Definition set_SourceIPCIDR v (r : DefaultHeadlessRule) : DefaultHeadlessRule :=
  let '(Build_DefaultHeadlessRule x1 x2 x3 x4 x5 x6 _ x8 x9 x10 x11 x12 x13 x14 x15 x16 x17 x18 x19 x20 x21 x22 x23 x24 x25 x26 x27 x28 x29 x30) := r in
  Build_DefaultHeadlessRule x1 x2 x3 x4 x5 x6 v x8 x9 x10 x11 x12 x13 x14 x15 x16 x17 x18 x19 x20 x21 x22 x23 x24 x25 x26 x27 x28 x29 x30.
Definition set_IPCIDR v (r : DefaultHeadlessRule) : DefaultHeadlessRule :=
  let '(Build_DefaultHeadlessRule x1 x2 x3 x4 x5 x6 x7 _ x9 x10 x11 x12 x13 x14 x15 x16 x17 x18 x19 x20 x21 x22 x23 x24 x25 x26 x27 x28 x29 x30) := r in
  Build_DefaultHeadlessRule x1 x2 x3 x4 x5 x6 x7 v x9 x10 x11 x12 x13 x14 x15 x16 x17 x18 x19 x20 x21 x22 x23 x24 x25 x26 x27 x28 x29 x30.
Definition set_SourcePort v (r : DefaultHeadlessRule) : DefaultHeadlessRule :=
  let '(Build_DefaultHeadlessRule x1 x2 x3 x4 x5 x6 x7 x8 _ x10 x11 x12 x13 x14 x15 x16 x17 x18 x19 x20 x21 x22 x23 x24 x25 x26 x27 x28 x29 x30) := r in
  Build_DefaultHeadlessRule x1 x2 x3 x4 x5 x6 x7 x8 v x10 x11 x12 x13 x14 x15 x16 x17 x18 x19 x20 x21 x22 x23 x24 x25 x26 x27 x28 x29 x30.
Definition set_SourcePortRange v (r : DefaultHeadlessRule) : DefaultHeadlessRule :=
  let '(Build_DefaultHeadlessRule x1 x2 x3 x4 x5 x6 x7 x8 x9 _ x11 x12 x13 x14 x15 x16 x17 x18 x19 x20 x21 x22 x23 x24 x25 x26 x27 x28 x29 x30) := r in
  Build_DefaultHeadlessRule x1 x2 x3 x4 x5 x6 x7 x8 x9 v x11 x12 x13 x14 x15 x16 x17 x18 x19 x20 x21 x22 x23 x24 x25 x26 x27 x28 x29 x30.
Definition set_Port v (r : DefaultHeadlessRule) : DefaultHeadlessRule :=
  let '(Build_DefaultHeadlessRule x1 x2 x3 x4 x5 x6 x7 x8 x9 x10 _ x12 x13 x14 x15 x16 x17 x18 x19 x20 x21 x22 x23 x24 x25 x26 x27 x28 x29 x30) := r in
  Build_DefaultHeadlessRule x1 x2 x3 x4 x5 x6 x7 x8 x9 x10 v x12 x13 x14 x15 x16 x17 x18 x19 x20 x21 x22 x23 x24 x25 x26 x27 x28 x29 x30.
Definition set_PortRange v (r : DefaultHeadlessRule) : DefaultHeadlessRule :=
  let '(Build_DefaultHeadlessRule x1 x2 x3 x4 x5 x6 x7 x8 x9 x10 x11 _ x13 x14 x15 x16 x17 x18 x19 x20 x21 x22 x23 x24 x25 x26 x27 x28 x29 x30) := r in
  Build_DefaultHeadlessRule x1 x2 x3 x4 x5 x6 x7 x8 x9 x10 x11 v x13 x14 x15 x16 x17 x18 x19 x20 x21 x22 x23 x24 x25 x26 x27 x28 x29 x30.
Definition set_ProcessName v (r : DefaultHeadlessRule) : DefaultHeadlessRule :=
  let '(Build_DefaultHeadlessRule x1 x2 x3 x4 x5 x6 x7 x8 x9 x10 x11 x12 _ x14 x15 x16 x17 x18 x19 x20 x21 x22 x23 x24 x25 x26 x27 x28 x29 x30) := r in
  Build_DefaultHeadlessRule x1 x2 x3 x4 x5 x6 x7 x8 x9 x10 x11 x12 v x14 x15 x16 x17 x18 x19 x20 x21 x22 x23 x24 x25 x26 x27 x28 x29 x30.
Definition set_ProcessPath v (r : DefaultHeadlessRule) : DefaultHeadlessRule :=
  let '(Build_DefaultHeadlessRule x1 x2 x3 x4 x5 x6 x7 x8 x9 x10 x11 x12 x13 _ x15 x16 x17 x18 x19 x20 x21 x22 x23 x24 x25 x26 x27 x28 x29 x30) := r in
  Build_DefaultHeadlessRule x1 x2 x3 x4 x5 x6 x7 x8 x9 x10 x11 x12 x13 v x15 x16 x17 x18 x19 x20 x21 x22 x23 x24 x25 x26 x27 x28 x29 x30.
Definition set_ProcessPathRegex v (r : DefaultHeadlessRule) : DefaultHeadlessRule :=
  let '(Build_DefaultHeadlessRule x1 x2 x3 x4 x5 x6 x7 x8 x9 x10 x11 x12 x13 x14 _ x16 x17 x18 x19 x20 x21 x22 x23 x24 x25 x26 x27 x28 x29 x30) := r in
  Build_DefaultHeadlessRule x1 x2 x3 x4 x5 x6 x7 x8 x9 x10 x11 x12 x13 x14 v x16 x17 x18 x19 x20 x21 x22 x23 x24 x25 x26 x27 x28 x29 x30.
Definition set_PackageName v (r : DefaultHeadlessRule) : DefaultHeadlessRule :=
  let '(Build_DefaultHeadlessRule x1 x2 x3 x4 x5 x6 x7 x8 x9 x10 x11 x12 x13 x14 x15 _ x17 x18 x19 x20 x21 x22 x23 x24 x25 x26 x27 x28 x29 x30) := r in
  Build_DefaultHeadlessRule x1 x2 x3 x4 x5 x6 x7 x8 x9 x10 x11 x12 x13 x14 x15 v x17 x18 x19 x20 x21 x22 x23 x24 x25 x26 x27 x28 x29 x30.
Definition set_PackageNameRegex v (r : DefaultHeadlessRule) : DefaultHeadlessRule :=
  let '(Build_DefaultHeadlessRule x1 x2 x3 x4 x5 x6 x7 x8 x9 x10 x11 x12 x13 x14 x15 x16 _ x18 x19 x20 x21 x22 x23 x24 x25 x26 x27 x28 x29 x30) := r in
  Build_DefaultHeadlessRule x1 x2 x3 x4 x5 x6 x7 x8 x9 x10 x11 x12 x13 x14 x15 x16 v x18 x19 x20 x21 x22 x23 x24 x25 x26 x27 x28 x29 x30.
Definition set_NetworkType v (r : DefaultHeadlessRule) : DefaultHeadlessRule :=
  let '(Build_DefaultHeadlessRule x1 x2 x3 x4 x5 x6 x7 x8 x9 x10 x11 x12 x13 x14 x15 x16 x17 _ x19 x20 x21 x22 x23 x24 x25 x26 x27 x28 x29 x30) := r in
  Build_DefaultHeadlessRule x1 x2 x3 x4 x5 x6 x7 x8 x9 x10 x11 x12 x13 x14 x15 x16 x17 v x19 x20 x21 x22 x23 x24 x25 x26 x27 x28 x29 x30.
Definition set_NetworkIsExpensive v (r : DefaultHeadlessRule) : DefaultHeadlessRule :=
  let '(Build_DefaultHeadlessRule x1 x2 x3 x4 x5 x6 x7 x8 x9 x10 x11 x12 x13 x14 x15 x16 x17 x18 _ x20 x21 x22 x23 x24 x25 x26 x27 x28 x29 x30) := r in
  Build_DefaultHeadlessRule x1 x2 x3 x4 x5 x6 x7 x8 x9 x10 x11 x12 x13 x14 x15 x16 x17 x18 v x20 x21 x22 x23 x24 x25 x26 x27 x28 x29 x30.
Definition set_NetworkIsConstrained v (r : DefaultHeadlessRule) : DefaultHeadlessRule :=
  let '(Build_DefaultHeadlessRule x1 x2 x3 x4 x5 x6 x7 x8 x9 x10 x11 x12 x13 x14 x15 x16 x17 x18 x19 _ x21 x22 x23 x24 x25 x26 x27 x28 x29 x30) := r in
  Build_DefaultHeadlessRule x1 x2 x3 x4 x5 x6 x7 x8 x9 x10 x11 x12 x13 x14 x15 x16 x17 x18 x19 v x21 x22 x23 x24 x25 x26 x27 x28 x29 x30.
Definition set_WIFISSID v (r : DefaultHeadlessRule) : DefaultHeadlessRule :=
  let '(Build_DefaultHeadlessRule x1 x2 x3 x4 x5 x6 x7 x8 x9 x10 x11 x12 x13 x14 x15 x16 x17 x18 x19 x20 _ x22 x23 x24 x25 x26 x27 x28 x29 x30) := r in
  Build_DefaultHeadlessRule x1 x2 x3 x4 x5 x6 x7 x8 x9 x10 x11 x12 x13 x14 x15 x16 x17 x18 x19 x20 v x22 x23 x24 x25 x26 x27 x28 x29 x30.
Definition set_WIFIBSSID v (r : DefaultHeadlessRule) : DefaultHeadlessRule :=
  let '(Build_DefaultHeadlessRule x1 x2 x3 x4 x5 x6 x7 x8 x9 x10 x11 x12 x13 x14 x15 x16 x17 x18 x19 x20 x21 _ x23 x24 x25 x26 x27 x28 x29 x30) := r in
  Build_DefaultHeadlessRule x1 x2 x3 x4 x5 x6 x7 x8 x9 x10 x11 x12 x13 x14 x15 x16 x17 x18 x19 x20 x21 v x23 x24 x25 x26 x27 x28 x29 x30.
Definition set_NetworkInterfaceAddress v (r : DefaultHeadlessRule) : DefaultHeadlessRule :=
  let '(Build_DefaultHeadlessRule x1 x2 x3 x4 x5 x6 x7 x8 x9 x10 x11 x12 x13 x14 x15 x16 x17 x18 x19 x20 x21 x22 _ x24 x25 x26 x27 x28 x29 x30) := r in
  Build_DefaultHeadlessRule x1 x2 x3 x4 x5 x6 x7 x8 x9 x10 x11 x12 x13 x14 x15 x16 x17 x18 x19 x20 x21 x22 v x24 x25 x26 x27 x28 x29 x30.
Definition set_DefaultInterfaceAddress v (r : DefaultHeadlessRule) : DefaultHeadlessRule :=
  let '(Build_DefaultHeadlessRule x1 x2 x3 x4 x5 x6 x7 x8 x9 x10 x11 x12 x13 x14 x15 x16 x17 x18 x19 x20 x21 x22 x23 _ x25 x26 x27 x28 x29 x30) := r in
  Build_DefaultHeadlessRule x1 x2 x3 x4 x5 x6 x7 x8 x9 x10 x11 x12 x13 x14 x15 x16 x17 x18 x19 x20 x21 x22 x23 v x25 x26 x27 x28 x29 x30.
Definition set_Invert v (r : DefaultHeadlessRule) : DefaultHeadlessRule :=
  let '(Build_DefaultHeadlessRule x1 x2 x3 x4 x5 x6 x7 x8 x9 x10 x11 x12 x13 x14 x15 x16 x17 x18 x19 x20 x21 x22 x23 x24 _ x26 x27 x28 x29 x30) := r in
  Build_DefaultHeadlessRule x1 x2 x3 x4 x5 x6 x7 x8 x9 x10 x11 x12 x13 x14 x15 x16 x17 x18 x19 x20 x21 x22 x23 x24 v x26 x27 x28 x29 x30.
Definition set_DomainMatcher v (r : DefaultHeadlessRule) : DefaultHeadlessRule :=
  let '(Build_DefaultHeadlessRule x1 x2 x3 x4 x5 x6 x7 x8 x9 x10 x11 x12 x13 x14 x15 x16 x17 x18 x19 x20 x21 x22 x23 x24 x25 _ x27 x28 x29 x30) := r in
  Build_DefaultHeadlessRule x1 x2 x3 x4 x5 x6 x7 x8 x9 x10 x11 x12 x13 x14 x15 x16 x17 x18 x19 x20 x21 x22 x23 x24 x25 v x27 x28 x29 x30.
Definition set_SourceIPSet v (r : DefaultHeadlessRule) : DefaultHeadlessRule :=
  let '(Build_DefaultHeadlessRule x1 x2 x3 x4 x5 x6 x7 x8 x9 x10 x11 x12 x13 x14 x15 x16 x17 x18 x19 x20 x21 x22 x23 x24 x25 x26 _ x28 x29 x30) := r in
  Build_DefaultHeadlessRule x1 x2 x3 x4 x5 x6 x7 x8 x9 x10 x11 x12 x13 x14 x15 x16 x17 x18 x19 x20 x21 x22 x23 x24 x25 x26 v x28 x29 x30.
Definition set_IPSet v (r : DefaultHeadlessRule) : DefaultHeadlessRule :=
  let '(Build_DefaultHeadlessRule x1 x2 x3 x4 x5 x6 x7 x8 x9 x10 x11 x12 x13 x14 x15 x16 x17 x18 x19 x20 x21 x22 x23 x24 x25 x26 x27 _ x29 x30) := r in
  Build_DefaultHeadlessRule x1 x2 x3 x4 x5 x6 x7 x8 x9 x10 x11 x12 x13 x14 x15 x16 x17 x18 x19 x20 x21 x22 x23 x24 x25 x26 x27 v x29 x30.
Definition set_AdGuardDomain v (r : DefaultHeadlessRule) : DefaultHeadlessRule :=
  let '(Build_DefaultHeadlessRule x1 x2 x3 x4 x5 x6 x7 x8 x9 x10 x11 x12 x13 x14 x15 x16 x17 x18 x19 x20 x21 x22 x23 x24 x25 x26 x27 x28 _ x30) := r in
  Build_DefaultHeadlessRule x1 x2 x3 x4 x5 x6 x7 x8 x9 x10 x11 x12 x13 x14 x15 x16 x17 x18 x19 x20 x21 x22 x23 x24 x25 x26 x27 x28 v x30.
Definition set_AdGuardDomainMatcher v (r : DefaultHeadlessRule) : DefaultHeadlessRule :=
  let '(Build_DefaultHeadlessRule x1 x2 x3 x4 x5 x6 x7 x8 x9 x10 x11 x12 x13 x14 x15 x16 x17 x18 x19 x20 x21 x22 x23 x24 x25 x26 x27 x28 x29 _) := r in
  Build_DefaultHeadlessRule x1 x2 x3 x4 x5 x6 x7 x8 x9 x10 x11 x12 x13 x14 x15 x16 x17 x18 x19 x20 x21 x22 x23 x24 x25 x26 x27 x28 x29 v.


(** ** Writers *)

(** A sequence of writes; the first error ends it. *)
Fixpoint write_all (l : list (outcome bytes)) : outcome bytes :=
  match l with
  | [] => Ok []
  | o :: l' =>
      let* b := o in
      let* bs := write_all l' in
      Ok (b ++ bs)
  end.
Definition seg (c : bool) (o : outcome bytes) : outcome bytes := if c then o else Ok [].
(** A field the format gained in [version]. *)
Definition since (generateVersion version : Z) (msg : string) (o : outcome bytes) : outcome bytes :=
  if generateVersion <? version then Err (ENew msg) else o.

Definition put_str (s : string) : bytes := WriteUvarint (str_len s) ++ bytes_of_string s.
Definition writeRuleItemString (itemType : Z) (value : list string) : outcome bytes :=
  Ok (itemType :: WriteUvarint (zlen value) ++ concat (put_str <$> value)).
Definition writeRuleItemUint8 (itemType : Z) (value : list Z) : outcome bytes :=
  Ok (itemType :: WriteUvarint (zlen value) ++ value).
Definition writeRuleItemUint16 (itemType : Z) (value : list Z) : outcome bytes :=
  Ok (itemType :: WriteUvarint (zlen value) ++ concat (be_bytes 2 <$> value)).

(** ip_set.go *)
Definition write_addr (a : Addr) : bytes := WriteUvarint (zlen (AsSlice a)) ++ AsSlice a.
Definition write_range (r : IPRange) : bytes := write_addr (from r) ++ write_addr (to r).
Definition writeIPSet (set : IPSet) : bytes :=
  1 :: be_bytes 8 (zlen set) ++ concat (write_range <$> set).

Definition writeRuleItemCIDR (itemType : Z) (value : list string) : outcome bytes :=
  let* ops := omap_ix parse_cidr value in
  let* ipSet := IPSetBuilder_IPSet ops in
  Ok (itemType :: writeIPSet ipSet).

(** ip_cidr.go *)
Definition writePrefix (p : Prefix) : bytes :=
  WriteUvarint (zlen (AsSlice (p_addr p))) ++ AsSlice (p_addr p) ++ [uint 8 (p_bits p)].
Definition write_prefixes (l : list (option Prefix)) : bytes :=
  WriteUvarint (zlen l) ++ concat ((fun p => writePrefix (Prefixable_Build p prefix_zero)) <$> l).
Definition write_entry (e : Z * slice (option Prefix)) : bytes := uint 8 e.1 :: write_prefixes (elems e.2).

(** [writeDefaultRule]: one segment per field, between the rule type and the final
    item. *)
Definition plain_segments (v : Z) (r : DefaultHeadlessRule) : list (outcome bytes) := [
    seg (given (h_QueryType r)) (writeRuleItemUint16 ruleItemQueryType (elems (h_QueryType r)));
    seg (given (h_Network r)) (writeRuleItemString ruleItemNetwork (elems (h_Network r)));
    seg (given (h_Domain r) || given (h_DomainSuffix r))
      (let* b := Matcher_Write (NewMatcher (elems (h_Domain r)) (elems (h_DomainSuffix r)) (v =? 1)) in
       Ok (ruleItemDomain :: b));
    seg (given (h_DomainKeyword r)) (writeRuleItemString ruleItemDomainKeyword (elems (h_DomainKeyword r)));
    seg (given (h_DomainRegex r)) (writeRuleItemString ruleItemDomainRegex (elems (h_DomainRegex r)));
    seg (given (h_SourceIPCIDR r))
      (cause "source_ip_cidr" (writeRuleItemCIDR ruleItemSourceIPCIDR (elems (h_SourceIPCIDR r))));
    seg (given (h_IPCIDR r)) (cause "ipcidr" (writeRuleItemCIDR ruleItemIPCIDR (elems (h_IPCIDR r))));
    seg (given (h_SourcePort r)) (writeRuleItemUint16 ruleItemSourcePort (elems (h_SourcePort r)));
    seg (given (h_SourcePortRange r)) (writeRuleItemString ruleItemSourcePortRange (elems (h_SourcePortRange r)));
    seg (given (h_Port r)) (writeRuleItemUint16 ruleItemPort (elems (h_Port r)));
    seg (given (h_PortRange r)) (writeRuleItemString ruleItemPortRange (elems (h_PortRange r)));
    seg (given (h_ProcessName r)) (writeRuleItemString ruleItemProcessName (elems (h_ProcessName r)));
    seg (given (h_ProcessPath r)) (writeRuleItemString ruleItemProcessPath (elems (h_ProcessPath r)));
    seg (given (h_ProcessPathRegex r)) (writeRuleItemString ruleItemProcessPathRegex (elems (h_ProcessPathRegex r)));
    seg (given (h_PackageName r)) (writeRuleItemString ruleItemPackageName (elems (h_PackageName r)))
  ].
Definition late_segments (v : Z) (r : DefaultHeadlessRule) : list (outcome bytes) := [
    seg (given (h_PackageNameRegex r))
      (since v 5 "`package_name_regex` rule item is only supported in version 5 or later"
         (writeRuleItemString ruleItemPackageNameRegex (elems (h_PackageNameRegex r))));
    seg (given (h_NetworkType r))
      (since v 3 "`network_type` rule item is only supported in version 3 or later"
         (writeRuleItemUint8 ruleItemNetworkType (elems (h_NetworkType r))));
    seg (h_NetworkIsExpensive r)
      (since v 3 "`network_is_expensive` rule item is only supported in version 3 or later"
         (Ok [ruleItemNetworkIsExpensive]));
    seg (h_NetworkIsConstrained r)
      (since v 3 "`network_is_constrained` rule item is only supported in version 3 or later"
         (Ok [ruleItemNetworkIsConstrained]));
    match h_NetworkInterfaceAddress r with
    | Some m => seg (0 <? TypedMap_Size m)
        (since v 4 "`network_interface_address` rule item is only supported in version 4 or later"
           (Ok (ruleItemNetworkInterfaceAddress :: WriteUvarint (TypedMap_Size m)
                ++ concat (write_entry <$> TypedMap_Entries m))))
    | None => Ok []
    end;
    seg (given (h_DefaultInterfaceAddress r))
      (since v 4 "`default_interface_address` rule item is only supported in version 4 or later"
         (Ok (ruleItemDefaultInterfaceAddress :: write_prefixes (elems (h_DefaultInterfaceAddress r)))));
    seg (given (h_WIFISSID r)) (writeRuleItemString ruleItemWIFISSID (elems (h_WIFISSID r)));
    seg (given (h_WIFIBSSID r)) (writeRuleItemString ruleItemWIFIBSSID (elems (h_WIFIBSSID r)));
    seg (given (h_AdGuardDomain r))
      (since v 2 "AdGuard rule items is only supported in version 2 or later"
         (let* b := AdGuardMatcher_Write (NewAdGuardMatcher (elems (h_AdGuardDomain r))) in
          Ok (ruleItemAdGuardDomain :: b)))
  ].
Definition segments (v : Z) (r : DefaultHeadlessRule) : list (outcome bytes) := plain_segments v r ++ late_segments v r.
Definition writeDefaultRule (v : Z) (r : DefaultHeadlessRule) : outcome bytes :=
  write_all ([Ok [0]] ++ segments v r ++ [Ok (ruleItemFinal :: bool_byte (h_Invert r))]).

(** [writeRule] and [writeLogicalRule] *)
Fixpoint writeRule (v : Z) (o : HeadlessRule) : outcome bytes :=
  match o with
  | MkHeadless type d l =>
      if bool_decide (type = "default") then writeDefaultRule v d
      else if bool_decide (type = "logical") then writeLogicalRule v l
      else Panic ("unknown rule type: " +:+ type)
  end
with writeLogicalRule (v : Z) (l : LogicalHeadlessRule) : outcome bytes :=
  match l with
  | MkLogicalHeadless mode rules invert =>
      let write_rules := (fix go (rs : list HeadlessRule) : outcome bytes :=
                            match rs with
                            | [] => Ok []
                            | r :: rs' => let* b := writeRule v r in let* bs := go rs' in Ok (b ++ bs)
                            end) in
      let* m := (if bool_decide (mode = "and") then Ok 0
                 else if bool_decide (mode = "or") then Ok 1
                 else Panic ("unknown logical mode: " +:+ mode)) in
      let* rs := match rules with Some rs => write_rules rs | None => Ok [] end in
      Ok (1 :: m :: WriteUvarint (slen rules) ++ rs ++ bool_byte invert)
  end.

(** The text handed to the compressor, and [Write] *)
Definition write_rules (v : Z) (rs : list HeadlessRule) : outcome bytes :=
  write_all (writeRule v <$> rs).
Definition Write (ruleSet : PlainRuleSet) (generateVersion : Z) : outcome bytes :=
  let* b := write_rules generateVersion (elems (pr_Rules ruleSet)) in
  Ok (MagicBytes ++ [uint 8 generateVersion] ++ zlib_compress (WriteUvarint (slen (pr_Rules ruleSet)) ++ b)).

(** ** Readers *)

Definition read_str : reader string := fun st =>
  let* (strLen, st) := ReadUvarint st in
  let* _ := make_slice strLen in
  let* (buf, st) := ReadFull strLen st in
  Ok (string_of_bytes buf, st).
Definition readRuleItemString : reader (list string) := fun st =>
  let* (length_, st) := ReadUvarint st in
  let* _ := make_slice length_ in
  read_n (S (length (avail st))) 0 length_ (fun _ => read_str) st.
Definition readRuleItemUint8 : reader (list Z) := fun st =>
  let* (length_, st) := ReadUvarint st in
  let* _ := make_slice length_ in
  ReadFull length_ st.
(** The bytes of a [[]uint16] in big-endian order. *)
Fixpoint uint16s (b : bytes) : list Z :=
  match b with
  | x :: y :: b' => be_val [x; y] :: uint16s b'
  | _ => []
  end.
Definition readRuleItemUint16 : reader (list Z) := fun st =>
  let* (length_, st) := ReadUvarint st in
  let* _ := make_slice length_ in
  let* (b, st) := ReadFull (2 * length_) st in
  Ok (uint16s b, st).

Definition read_addr : reader Addr := fun st =>
  let* (n, st) := ReadUvarint st in
  let* _ := make_slice n in
  let* (b, st) := ReadFull n st in
  Ok (AddrFromIP b, st).
Definition read_range : reader IPRange := fun st =>
  let* (f, st) := read_addr st in
  let* (t, st) := read_addr st in
  Ok (MkIPRange f t, st).
Definition readIPSet : reader IPSet := fun st =>
  let* (version, st) := ReadByte st in
  if negb (version =? 1) then Err ErrInvalid
  else
    let* (length_, st) := ReadUint 8 st in
    let* _ := make_slice length_ in
    read_n (S (length (avail st))) 0 length_ (fun _ => read_range) st.

Definition readPrefix : reader Prefix := fun st =>
  let* (addr, st) := read_addr st in
  let* (prefixBits, st) := ReadByte st in
  Ok (PrefixFrom addr prefixBits, st).
(** [var value []*Prefixable], appended to: nil when nothing is read. *)
Definition slice_of {A} (l : list A) : slice A := match l with [] => None | _ => Some l end.
Definition read_prefixes : reader (slice (option Prefix)) := fun st =>
  let* (prefixCount, st) := ReadUvarint st in
  let* (l, st) := read_n (S (length (avail st))) 0 prefixCount (fun _ => readPrefix) st in
  Ok (slice_of (Some <$> l), st).
Definition read_entry : reader (Z * slice (option Prefix)) := fun st =>
  let* (key, st) := ReadUint 1 st in
  let* (value, st) := read_prefixes st in
  Ok ((key, value), st).
Definition put_entries (l : list (Z * slice (option Prefix))) : TypedMap Z (slice (option Prefix)) :=
  fold_left (fun m e => TypedMap_Put _ e.1 e.2 m) l TypedMap_new.
Definition read_entries : reader (TypedMap Z (slice (option Prefix))) := fun st =>
  let* (size, st) := ReadUvarint st in
  let* (l, st) := read_n (S (length (avail st))) 0 size (fun _ => read_entry) st in
  Ok (put_entries l, st).

(** One assignment of the loop: read a value, store it. *)
Definition assign {A} (f : reader A) (set : A -> DefaultHeadlessRule) : reader DefaultHeadlessRule := fun st =>
  let* (a, st) := f st in Ok (set a, st).
Definition assign_strs (set : slice string -> DefaultHeadlessRule -> DefaultHeadlessRule) (r : DefaultHeadlessRule)
    : reader DefaultHeadlessRule := assign readRuleItemString (fun l => set (Some l) r).

(** The [switch itemType] of [readDefaultRule], without the final item. *)
Definition readItem (recover : bool) (itemType lastItemType : Z) (r : DefaultHeadlessRule) : reader DefaultHeadlessRule :=
  if itemType =? ruleItemQueryType then assign readRuleItemUint16 (fun l => set_QueryType (Some l) r)
  else if itemType =? ruleItemNetwork then assign_strs set_Network r
  else if itemType =? ruleItemDomain then
    assign ReadMatcher (fun m =>
      let r := set_DomainMatcher (Some m) r in
      if recover then set_DomainSuffix (Matcher_Dump m).2 (set_Domain (Matcher_Dump m).1 r) else r)
  else if itemType =? ruleItemDomainKeyword then assign_strs set_DomainKeyword r
  else if itemType =? ruleItemDomainRegex then assign_strs set_DomainRegex r
  else if itemType =? ruleItemSourceIPCIDR then
    assign readIPSet (fun s =>
      let r := set_SourceIPSet (Some s) r in
      if recover then set_SourceIPCIDR (Some (Prefix_String <$> IPSet_Prefixes s)) r else r)
  else if itemType =? ruleItemIPCIDR then
    assign readIPSet (fun s =>
      let r := set_IPSet (Some s) r in
      if recover then set_IPCIDR (Some (Prefix_String <$> IPSet_Prefixes s)) r else r)
  else if itemType =? ruleItemSourcePort then assign readRuleItemUint16 (fun l => set_SourcePort (Some l) r)
  else if itemType =? ruleItemSourcePortRange then assign_strs set_SourcePortRange r
  else if itemType =? ruleItemPort then assign readRuleItemUint16 (fun l => set_Port (Some l) r)
  else if itemType =? ruleItemPortRange then assign_strs set_PortRange r
  else if itemType =? ruleItemProcessName then assign_strs set_ProcessName r
  else if itemType =? ruleItemProcessPath then assign_strs set_ProcessPath r
  else if itemType =? ruleItemProcessPathRegex then assign_strs set_ProcessPathRegex r
  else if itemType =? ruleItemPackageName then assign_strs set_PackageName r
  else if itemType =? ruleItemPackageNameRegex then assign_strs set_PackageNameRegex r
  else if itemType =? ruleItemWIFISSID then assign_strs set_WIFISSID r
  else if itemType =? ruleItemWIFIBSSID then assign_strs set_WIFIBSSID r
  else if itemType =? ruleItemAdGuardDomain then
    assign ReadAdGuardMatcher (fun m =>
      let r := set_AdGuardDomainMatcher (Some m) r in
      if recover then set_AdGuardDomain (AdGuardMatcher_Dump m) r else r)
  else if itemType =? ruleItemNetworkType then assign readRuleItemUint8 (fun l => set_NetworkType (Some l) r)
  else if itemType =? ruleItemNetworkIsExpensive then fun st => Ok (set_NetworkIsExpensive true r, st)
  else if itemType =? ruleItemNetworkIsConstrained then fun st => Ok (set_NetworkIsConstrained true r, st)
  else if itemType =? ruleItemNetworkInterfaceAddress then
    assign read_entries (fun m => set_NetworkInterfaceAddress (Some m) r)
  else if itemType =? ruleItemDefaultInterfaceAddress then
    assign read_prefixes (fun l => set_DefaultInterfaceAddress l r)
  else fun _ => Err (ENew ("unknown rule item type: " +:+ pretty itemType +:+ ", last type: " +:+ pretty lastItemType)).

Fixpoint readDefaultRule_loop (fuel : nat) (recover : bool) (lastItemType : Z) (r : DefaultHeadlessRule) (st : stream)
    : outcome (DefaultHeadlessRule * stream) :=
  match fuel with
  | O => Diverge
  | S fuel' =>
      let* (itemType, st) := ReadUint 1 st in
      if itemType =? ruleItemFinal then
        let* (invert, st) := ReadBool st in Ok (set_Invert invert r, st)
      else
        let* (r, st) := readItem recover itemType lastItemType r st in
        readDefaultRule_loop fuel' recover itemType r st
  end.
Definition readDefaultRule (recover : bool) : reader DefaultHeadlessRule := fun st =>
  readDefaultRule_loop (S (length (avail st))) recover 0 (zero_headless false) st.

(** [readLogicalRule], with [readRule] as an argument. *)
Definition readLogicalRule_with (readRule : reader HeadlessRule) : reader LogicalHeadlessRule := fun st =>
  let* (mode, st) := ReadByte st in
  let* mode := (if mode =? 0 then Ok "and" else if mode =? 1 then Ok "or"
                else Err (ENew ("unknown logical mode: " +:+ pretty mode))) in
  let* (length_, st) := ReadUvarint st in
  let* _ := make_slice length_ in
  let* (rules, st) := read_n (S (length (avail st))) 0 length_
                        (fun i st => cause ("read logical rule [" +:+ pretty i +:+ "]") (readRule st)) st in
  let* (invert, st) := ReadBool st in
  Ok (MkLogicalHeadless mode (Some rules) invert, st).

Fixpoint readRule_loop (fuel : nat) (recover : bool) (st : stream) : outcome (HeadlessRule * stream) :=
  match fuel with
  | O => Diverge
  | S fuel' =>
      let* (ruleType, st) := ReadUint 1 st in
      if ruleType =? 0 then
        let* (d, st) := readDefaultRule recover st in Ok (default_headless d, st)
      else if ruleType =? 1 then
        let* (l, st) := readLogicalRule_with (readRule_loop fuel' recover) st in
        Ok (MkHeadless "logical" (zero_headless false) l, st)
      else Err (ENew ("unknown rule type: " +:+ pretty ruleType))
  end.
Definition readRule (recover : bool) : reader HeadlessRule := fun st =>
  readRule_loop (S (length (avail st))) recover st.

(** The decompressed part of [Read], and [Read] *)
Definition read_rules (recover : bool) (st : stream) : outcome (list HeadlessRule * stream) :=
  let* (length_, st) := ReadUvarint st in
  let* _ := make_slice length_ in
  read_n (S (length (avail st))) 0 length_
    (fun i st => cause ("read rule[" +:+ pretty i +:+ "]") (readRule recover st)) st.
Definition Read (recover : bool) (content : bytes) : outcome PlainRuleSetCompat :=
  let* (magicBytes, st) := ReadFull 3 (Stream content EOF) in
  if negb (bool_decide (magicBytes = MagicBytes)) then Err (ENew "invalid sing-box rule-set file")
  else
    let* (version, st) := ReadUint 1 st in
    if RuleSetVersionCurrent <? version then Err (ENew ("unsupported version: " +:+ pretty version))
    else
      let* st := zlib_NewReader (avail st) in
      let* (rules, _) := read_rules recover st in
      Ok (MkCompat version (MkPlainRuleSet (Some rules))).

End Srs.
