(* ===== verification/SrsSpec.v ===== *)
(** * The binary rule-set codec is correct

    Every field read back is the field written; a rule-set written by [Write] is
    read back as its canonical form [canon] (domain and address lists become the
    compiled matchers the format stores, empty lists become absent).  SrsSafety
    has the theorems on arbitrary input. *)

From S2P Require Import Prelude GoStd Netip External Concrete RuleItems RuleMatch RuleSpec RuleOptions RuleBuild RuleBuildSpec RuleSetState Srs.
Local Open Scope Z_scope.

Section SrsSpec.
Context {X : External} {XL : ExternalLaws X}.

(** ** Small codecs *)

(** A length the readers accept. *)
Definition len_ok (n : Z) : Prop := 0 <= n < 2 ^ 63.

Lemma read_uvarint_put n rest e :
  len_ok n -> ReadUvarint (Stream (WriteUvarint n ++ rest) e) = Ok (n, Stream rest e).
Proof.
  intros H. unfold len_ok in H. rewrite WriteUvarint_put by (unfold is_uint64; lia).
  apply ReadUvarint_Put. unfold is_uint64. lia.
Qed.

Lemma zlen_len_ok {A} (l : list A) : zlen l < 2 ^ 63 -> len_ok (zlen l).
Proof. split; [apply zlen_nonneg|done]. Qed.

(** [read_n] with the fuel of the readers: each encoding is at least one byte. *)
Lemma read_n_written {A B} (enc : A -> bytes) (dec : A -> B) (f : Z -> reader B) (l : list A) rest e :
  (forall x, enc x <> []) ->
  (forall x j r, x ∈ l -> f j (Stream (enc x ++ r) e) = Ok (dec x, Stream r e)) ->
  read_n (S (length (concat (enc <$> l) ++ rest))) 0 (zlen l) f (Stream (concat (enc <$> l) ++ rest) e)
  = Ok (dec <$> l, Stream rest e).
Proof.
  intros Hne Hf. apply read_n_encoded; [lia| |done]. rewrite length_app.
  enough (length l <= length (concat (enc <$> l)))%nat by lia. clear Hf.
  induction l as [|x l IH]; cbn; [lia|]. rewrite length_app. specialize (Hne x). destruct (enc x); [done|]. cbn. lia.
Qed.

Lemma WriteUvarint_nonempty n : len_ok n -> WriteUvarint n <> [].
Proof.
  intros H. unfold len_ok in H. rewrite WriteUvarint_put by (unfold is_uint64; lia).
  unfold PutUvarint. cbn. by case_goal.
Qed.

Lemma uvarint_app_nonempty n b : len_ok n -> WriteUvarint n ++ b <> [].
Proof. intros H [Hn _]%app_eq_nil. by apply (WriteUvarint_nonempty n). Qed.

Definition str_ok (s : string) : Prop := str_len s < 2 ^ 63.

Lemma str_len_ok s : str_ok s -> len_ok (str_len s).
Proof. unfold str_ok, len_ok, str_len. lia. Qed.

Lemma read_str_put s rest e : str_ok s -> read_str (Stream (put_str s ++ rest) e) = Ok (s, Stream rest e).
Proof.
  intros H. apply str_len_ok in H as H'. unfold read_str, put_str. rewrite <- app_assoc, read_uvarint_put by done.
  cbn [obind]. rewrite make_slice_ok by apply H'. cbn [obind].
  rewrite ReadFull_app by (by rewrite length_bytes_of_string). cbn [obind]. by rewrite string_of_bytes_of_string.
Qed.

(** The strings of an item. *)
Definition strs_ok (l : list string) : Prop := zlen l < 2 ^ 63 /\ Forall str_ok l.

Lemma readRuleItemString_put l rest e :
  strs_ok l ->
  readRuleItemString (Stream (WriteUvarint (zlen l) ++ concat (put_str <$> l) ++ rest) e) = Ok (l, Stream rest e).
Proof.
  intros [Hl Hs]. unfold readRuleItemString. rewrite read_uvarint_put by by apply zlen_len_ok.
  cbn [obind]. rewrite make_slice_ok by done. cbn [obind avail].
  (* strings outside the item are not read, so their length does not matter *)
  assert (forall s, s ∈ l -> put_str s <> []) as Hne.
  { intros s Hin. apply uvarint_app_nonempty, str_len_ok. by eapply Forall_forall in Hs. }
  rewrite (read_n_encoded put_str id); [by rewrite list_fmap_id|lia| |].
  - rewrite length_app. enough (length l <= length (concat (put_str <$> l)))%nat by lia. clear Hl Hs.
    induction l as [|x l IH]; cbn; [lia|]. rewrite length_app. pose proof (Hne x ltac:(left)).
    specialize (IH ltac:(intros s Hin; apply Hne; by right)). destruct (put_str x); [done|]. cbn. lia.
  - intros s j r Hin. apply read_str_put. by eapply Forall_forall in Hs.
Qed.

Lemma readRuleItemUint8_put l rest e :
  zlen l < 2 ^ 63 -> readRuleItemUint8 (Stream (WriteUvarint (zlen l) ++ l ++ rest) e) = Ok (l, Stream rest e).
Proof.
  intros Hl. unfold readRuleItemUint8. rewrite read_uvarint_put by by apply zlen_len_ok.
  cbn [obind]. rewrite make_slice_ok by done. cbn [obind]. by apply ReadFull_app.
Qed.

Lemma uint16s_concat l : Forall is_uint16 l -> uint16s (concat (be_bytes 2 <$> l)) = l.
Proof.
  induction 1 as [|x l Hx _ IH]; [done|]. cbn [fmap list_fmap concat].
  pose proof (be_val_bytes 2 x ltac:(unfold is_uint16 in Hx; cbn; lia)) as Hv.
  cbn [be_bytes app] in *. cbn [uint16s]. by rewrite Hv, IH.
Qed.

Lemma readRuleItemUint16_put l rest e :
  zlen l < 2 ^ 63 -> Forall is_uint16 l ->
  readRuleItemUint16 (Stream (WriteUvarint (zlen l) ++ concat (be_bytes 2 <$> l) ++ rest) e) = Ok (l, Stream rest e).
Proof.
  intros Hl Hb. unfold readRuleItemUint16. rewrite read_uvarint_put by by apply zlen_len_ok.
  cbn [obind]. rewrite make_slice_ok by done. cbn [obind]. rewrite ReadFull_app.
  - cbn [obind]. by rewrite uint16s_concat.
  - clear. induction l as [|x l IH]; [done|]. cbn [fmap list_fmap concat]. rewrite zlen_app, zlen_cons, <- IH.
    unfold zlen at 2. rewrite length_be_bytes. lia.
Qed.

Lemma AsSlice_len_ok a : len_ok (zlen (AsSlice a)).
Proof. pose proof (zlen_AsSlice a). split; [apply zlen_nonneg|lia]. Qed.

Lemma read_addr_write a rest e : addr_plain a -> read_addr (Stream (write_addr a ++ rest) e) = Ok (a, Stream rest e).
Proof.
  intros Ha. unfold read_addr, write_addr. rewrite <- app_assoc, read_uvarint_put by apply AsSlice_len_ok.
  cbn [obind]. rewrite make_slice_ok by apply AsSlice_len_ok. cbn [obind].
  rewrite ReadFull_app by done. cbn [obind]. by rewrite AddrFromIP_AsSlice.
Qed.

Definition range_ok (r : IPRange) : Prop := addr_plain (from r) /\ addr_plain (to r).
Definition ip_set_ok (s : IPSet) : Prop := zlen s < 2 ^ 63 /\ Forall range_ok s.

Lemma readIPSet_write s rest e :
  ip_set_ok s -> readIPSet (Stream (writeIPSet s ++ rest) e) = Ok (s, Stream rest e).
Proof.
  intros [Hl Hs]. unfold readIPSet, writeIPSet. cbn [app]. rewrite ReadByte_cons. cbn [obind negb Z.eqb Pos.eqb].
  rewrite <- app_assoc, ReadUint_be_bytes by (pose proof (zlen_nonneg s); cbn; lia). cbn [obind].
  rewrite make_slice_ok by done. cbn [obind avail].
  rewrite (read_n_written write_range id); [by rewrite list_fmap_id| |].
  - intros x. unfold write_range, write_addr. rewrite <- app_assoc. apply uvarint_app_nonempty, AsSlice_len_ok.
  - intros r j rest' Hin. eapply Forall_forall in Hs as [Hf Ht]; [|done].
    unfold read_range, write_range. rewrite <- app_assoc, read_addr_write by done. cbn [obind].
    rewrite read_addr_write by done. by destruct r.
Qed.

Lemma readPrefix_write p rest e : prefix_ok p -> readPrefix (Stream (writePrefix p ++ rest) e) = Ok (p, Stream rest e).
Proof.
  intros Hp. unfold readPrefix, writePrefix. destruct Hp as [Ha Heq] eqn:E. clear E.
  change (WriteUvarint (zlen (AsSlice (p_addr p))) ++ AsSlice (p_addr p) ++ [uint 8 (p_bits p)])
    with (WriteUvarint (zlen (AsSlice (p_addr p))) ++ (AsSlice (p_addr p) ++ [uint 8 (p_bits p)])).
  rewrite app_assoc, <- app_assoc. change (WriteUvarint _ ++ AsSlice _) with (write_addr (p_addr p)).
  rewrite read_addr_write by done. cbn [obind app]. rewrite ReadByte_cons. cbn [obind].
  by rewrite PrefixFrom_uint8.
Qed.

Definition build (p : option Prefix) : Prefix := Prefixable_Build p prefix_zero.
Definition prefixes_ok (l : list (option Prefix)) : Prop :=
  zlen l < 2 ^ 63 /\ Forall (fun p => prefix_ok (build p)) l.
(** What a slice of prefixes is read back as. *)
Definition canon_prefixes (l : list (option Prefix)) : slice (option Prefix) := slice_of ((fun p => Some (build p)) <$> l).

Lemma read_prefixes_write l rest e :
  prefixes_ok l -> read_prefixes (Stream (write_prefixes l ++ rest) e) = Ok (canon_prefixes l, Stream rest e).
Proof.
  intros [Hl Hp]. unfold read_prefixes, write_prefixes. rewrite <- app_assoc, read_uvarint_put by by apply zlen_len_ok.
  cbn [obind avail]. rewrite (read_n_written (fun p => writePrefix (Prefixable_Build p prefix_zero)) build).
  - cbn [obind]. unfold canon_prefixes. by rewrite <- list_fmap_compose.
  - intros p. apply uvarint_app_nonempty, AsSlice_len_ok.
  - intros p j r Hin. apply readPrefix_write. by eapply Forall_forall in Hp.
Qed.

Definition entry_ok (e : Z * slice (option Prefix)) : Prop := is_byte e.1 /\ prefixes_ok (elems e.2).
Definition canon_entry (e : Z * slice (option Prefix)) : Z * slice (option Prefix) := (e.1, canon_prefixes (elems e.2)).
Definition entries_ok (m : TypedMap Z (slice (option Prefix))) : Prop :=
  zlen (TypedMap_Entries m) < 2 ^ 63 /\ Forall entry_ok (TypedMap_Entries m).

Lemma read_entry_write x rest e :
  entry_ok x -> read_entry (Stream (write_entry x ++ rest) e) = Ok (canon_entry x, Stream rest e).
Proof.
  intros [Hb Hp]. unfold read_entry, write_entry. cbn [app]. rewrite uint_small by (unfold is_byte in Hb; cbn; lia).
  rewrite ReadUint_byte by done. cbn [obind]. by rewrite read_prefixes_write.
Qed.

Lemma read_entries_write m rest e :
  entries_ok m ->
  read_entries (Stream (WriteUvarint (TypedMap_Size m) ++ concat (write_entry <$> TypedMap_Entries m) ++ rest) e)
  = Ok (put_entries (canon_entry <$> TypedMap_Entries m), Stream rest e).
Proof.
  intros [Hl Hp]. unfold read_entries. rewrite TypedMap_Size_Entries, read_uvarint_put by by apply zlen_len_ok.
  cbn [obind avail]. rewrite (read_n_written write_entry canon_entry); [done| |].
  - intros x. done.
  - intros x j r Hin. apply read_entry_write. by eapply Forall_forall in Hp.
Qed.

(** ** Default rules *)

(** What [readItem] makes of one written segment: nothing when it is empty, the
    assignment [u] otherwise. *)
Definition seg_ok (recover : bool) (o : outcome bytes) (u : DefaultHeadlessRule -> DefaultHeadlessRule) : Prop :=
  forall b, o = Ok b ->
    (b = [] /\ forall r, u r = r)
    \/ (exists ty p, b = ty :: p /\ is_byte ty /\ ty <> ruleItemFinal
        /\ forall last r rest e, readItem recover ty last r (Stream (p ++ rest) e) = Ok (u r, Stream rest e)).

Lemma loop_segments recover segs us bs fuel last r invert rest e :
  Forall2 (seg_ok recover) segs us -> write_all segs = Ok bs -> (length bs < fuel)%nat ->
  readDefaultRule_loop fuel recover last r (Stream (bs ++ ruleItemFinal :: bool_byte invert ++ rest) e)
  = Ok (set_Invert invert (fold_left (fun r u => u r) us r), Stream rest e).
Proof.
  intros H. revert bs fuel last r. induction H as [|o u segs us Ho _ IH]; intros bs fuel last r Hw Hf; cbn in Hw; inv_ok.
  - destruct fuel; [cbn in Hf; lia|]. cbn [readDefaultRule_loop app]. rewrite ReadUint_byte by done.
    cbn [obind]. rewrite Z.eqb_refl. by rewrite ReadBool_bool_byte.
  - destruct (Ho _ eq_refl) as [[-> Hu]|(ty & p & -> & Hb & Hne & Hr)]; cbn [fold_left].
    + rewrite Hu. by apply IH.
    + cbn [app length] in Hf. rewrite length_app in Hf. destruct fuel as [|fuel]; [lia|].
      cbn [readDefaultRule_loop app]. rewrite ReadUint_byte by done. cbn [obind].
      rewrite (proj2 (Z.eqb_neq _ _)) by done. rewrite <- app_assoc, Hr. cbn [obind]. apply IH; [done|lia].
Qed.

Lemma write_all_app l l' : write_all (l ++ l') = (let* a := write_all l in let* b := write_all l' in Ok (a ++ b)).
Proof.
  induction l as [|o l IH]; cbn [app write_all obind]; [by destruct (write_all l')|].
  rewrite IH. destruct o; try done. cbn. destruct (write_all l); try done. cbn. destruct (write_all l'); try done. cbn.
  by rewrite app_assoc.
Qed.

(** The value written when [c], the previous one otherwise. *)
Definition upd {A} (c : bool) (v : A) (set : A -> DefaultHeadlessRule -> DefaultHeadlessRule)
    (get : DefaultHeadlessRule -> A) (r : DefaultHeadlessRule) : DefaultHeadlessRule :=
  set (if c then v else get r) r.

Lemma seg_ok_seg recover c o u :
  (c = false -> forall r, u r = r) ->
  (c = true -> forall b, o = Ok b -> exists ty p, b = ty :: p /\ is_byte ty /\ ty <> ruleItemFinal
     /\ forall last r rest e, readItem recover ty last r (Stream (p ++ rest) e) = Ok (u r, Stream rest e)) ->
  seg_ok recover (seg c o) u.
Proof.
  intros Hid Ho b Hb. unfold seg in *. destruct c.
  - right. by apply Ho.
  - left. inv_ok. auto.
Qed.

(** The parts of the compiled forms. *)
Definition cidr_set (l : list string) : option IPSet :=
  match omap_ix parse_cidr l with
  | Ok ops => match IPSetBuilder_IPSet ops with Ok s => Some s | _ => None end
  | _ => None
  end.
Definition prefix_strings (s : option IPSet) : slice string :=
  match s with Some s => Some (Prefix_String <$> IPSet_Prefixes s) | None => None end.

Definition when_given {A B} (s : slice A) (v : option B) : option B := if given s then v else None.

(** The rule [Read] returns for a rule written in version [v]. *)
Definition canon_default (v : Z) (recover : bool) (r : DefaultHeadlessRule) : DefaultHeadlessRule :=
  let keep {A} (s : slice A) : slice A := when_given s (Some (elems s)) in
  let domains := given (h_Domain r) || given (h_DomainSuffix r) in
  let matcher := NewMatcher (elems (h_Domain r)) (elems (h_DomainSuffix r)) (v =? 1) in
  let adguard := NewAdGuardMatcher (elems (h_AdGuardDomain r)) in
  let source := when_given (h_SourceIPCIDR r) (cidr_set (elems (h_SourceIPCIDR r))) in
  let dest := when_given (h_IPCIDR r) (cidr_set (elems (h_IPCIDR r))) in
  {| h_QueryType := keep (h_QueryType r);
     h_Network := keep (h_Network r);
     h_Domain := if domains && recover then (Matcher_Dump matcher).1 else None;
     h_DomainSuffix := if domains && recover then (Matcher_Dump matcher).2 else None;
     h_DomainKeyword := keep (h_DomainKeyword r);
     h_DomainRegex := keep (h_DomainRegex r);
     h_SourceIPCIDR := if recover then prefix_strings source else None;
     h_IPCIDR := if recover then prefix_strings dest else None;
     h_SourcePort := keep (h_SourcePort r);
     h_SourcePortRange := keep (h_SourcePortRange r);
     h_Port := keep (h_Port r);
     h_PortRange := keep (h_PortRange r);
     h_ProcessName := keep (h_ProcessName r);
     h_ProcessPath := keep (h_ProcessPath r);
     h_ProcessPathRegex := keep (h_ProcessPathRegex r);
     h_PackageName := keep (h_PackageName r);
     h_PackageNameRegex := keep (h_PackageNameRegex r);
     h_NetworkType := keep (h_NetworkType r);
     h_NetworkIsExpensive := h_NetworkIsExpensive r;
     h_NetworkIsConstrained := h_NetworkIsConstrained r;
     h_WIFISSID := keep (h_WIFISSID r);
     h_WIFIBSSID := keep (h_WIFIBSSID r);
     h_NetworkInterfaceAddress :=
       match h_NetworkInterfaceAddress r with
       | Some m => if 0 <? TypedMap_Size m then Some (put_entries (canon_entry <$> TypedMap_Entries m)) else None
       | None => None
       end;
     h_DefaultInterfaceAddress :=
       if given (h_DefaultInterfaceAddress r) then canon_prefixes (elems (h_DefaultInterfaceAddress r)) else None;
     h_Invert := h_Invert r;
     h_DomainMatcher := if domains then Some matcher else None;
     h_SourceIPSet := source;
     h_IPSet := dest;
     h_AdGuardDomain := if given (h_AdGuardDomain r) && recover then AdGuardMatcher_Dump adguard else None;
     h_AdGuardDomainMatcher := if given (h_AdGuardDomain r) then Some adguard else None |}.

(** The values of a rule are in the range of their Go types. *)
Record default_wf (r : DefaultHeadlessRule) : Prop := {
  wf_uint16 : forall l, l ∈ [elems (h_QueryType r); elems (h_SourcePort r); elems (h_Port r)] ->
    zlen l < 2 ^ 63 /\ Forall is_uint16 l;
  wf_strs : forall l, l ∈ [elems (h_Network r); elems (h_DomainKeyword r); elems (h_DomainRegex r);
    elems (h_SourcePortRange r); elems (h_PortRange r); elems (h_ProcessName r); elems (h_ProcessPath r);
    elems (h_ProcessPathRegex r); elems (h_PackageName r); elems (h_PackageNameRegex r);
    elems (h_WIFISSID r); elems (h_WIFIBSSID r)] -> strs_ok l;
  wf_sets : forall l s, l ∈ [elems (h_SourceIPCIDR r); elems (h_IPCIDR r)] -> l <> [] -> cidr_set l = Some s -> ip_set_ok s;
  wf_network_type : zlen (elems (h_NetworkType r)) < 2 ^ 63;
  wf_interfaces : forall m, h_NetworkInterfaceAddress r = Some m -> entries_ok m;
  wf_default_interface : prefixes_ok (elems (h_DefaultInterfaceAddress r))
}.

(** A rule with AdGuard patterns and regular expressions only. *)
Lemma patterns_wf d r b : strs_ok (elems r) -> default_wf (set_AdGuardDomain d (set_DomainRegex r (zero_headless b))).
Proof.
  intros Hr. assert (H0 : strs_ok []) by (split; [done|constructor]).
  split; cbn [elems default zero_headless set_AdGuardDomain set_DomainRegex h_QueryType h_SourcePort h_Port h_Network h_DomainKeyword
    h_DomainRegex h_SourcePortRange h_PortRange h_ProcessName h_ProcessPath h_ProcessPathRegex h_PackageName h_PackageNameRegex h_WIFISSID
    h_WIFIBSSID h_SourceIPCIDR h_IPCIDR h_NetworkType h_NetworkInterfaceAddress h_DefaultInterfaceAddress].
  - intros l Hl. repeat apply elem_of_cons in Hl as [->|Hl]; try (by apply not_elem_of_nil in Hl); split; done.
  - intros l Hl. repeat apply elem_of_cons in Hl as [->|Hl]; try (by apply not_elem_of_nil in Hl); done.
  - intros l s Hl Hne _. repeat apply elem_of_cons in Hl as [->|Hl]; try (by apply not_elem_of_nil in Hl); done.
  - done.
  - done.
  - split; [done|apply Forall_nil_2].
Qed.
Lemma zero_headless_wf b : default_wf (zero_headless b).
Proof. apply (patterns_wf None None). split; [done|constructor]. Qed.

(** The assignments the segments stand for. *)
Definition updates (v : Z) (recover : bool) (r : DefaultHeadlessRule) : list (DefaultHeadlessRule -> DefaultHeadlessRule) :=
  let keep {A} (s : slice A) set get := upd (given s) (Some (elems s)) set get in
  let domains := given (h_Domain r) || given (h_DomainSuffix r) in
  let matcher := NewMatcher (elems (h_Domain r)) (elems (h_DomainSuffix r)) (v =? 1) in
  let adguard := NewAdGuardMatcher (elems (h_AdGuardDomain r)) in
  let source := cidr_set (elems (h_SourceIPCIDR r)) in
  let dest := cidr_set (elems (h_IPCIDR r)) in [
    keep (h_QueryType r) set_QueryType h_QueryType;
    keep (h_Network r) set_Network h_Network;
    (fun x => upd (domains && recover) (Matcher_Dump matcher).2 set_DomainSuffix h_DomainSuffix
                (upd (domains && recover) (Matcher_Dump matcher).1 set_Domain h_Domain
                   (upd domains (Some matcher) set_DomainMatcher h_DomainMatcher x)));
    keep (h_DomainKeyword r) set_DomainKeyword h_DomainKeyword;
    keep (h_DomainRegex r) set_DomainRegex h_DomainRegex;
    (fun x => upd (given (h_SourceIPCIDR r) && recover) (prefix_strings source) set_SourceIPCIDR h_SourceIPCIDR
                (upd (given (h_SourceIPCIDR r)) source set_SourceIPSet h_SourceIPSet x));
    (fun x => upd (given (h_IPCIDR r) && recover) (prefix_strings dest) set_IPCIDR h_IPCIDR
                (upd (given (h_IPCIDR r)) dest set_IPSet h_IPSet x));
    keep (h_SourcePort r) set_SourcePort h_SourcePort;
    keep (h_SourcePortRange r) set_SourcePortRange h_SourcePortRange;
    keep (h_Port r) set_Port h_Port;
    keep (h_PortRange r) set_PortRange h_PortRange;
    keep (h_ProcessName r) set_ProcessName h_ProcessName;
    keep (h_ProcessPath r) set_ProcessPath h_ProcessPath;
    keep (h_ProcessPathRegex r) set_ProcessPathRegex h_ProcessPathRegex;
    keep (h_PackageName r) set_PackageName h_PackageName;
    keep (h_PackageNameRegex r) set_PackageNameRegex h_PackageNameRegex;
    keep (h_NetworkType r) set_NetworkType h_NetworkType;
    upd (h_NetworkIsExpensive r) true set_NetworkIsExpensive h_NetworkIsExpensive;
    upd (h_NetworkIsConstrained r) true set_NetworkIsConstrained h_NetworkIsConstrained;
    upd (typed_map_given (h_NetworkInterfaceAddress r))
      ((fun m => put_entries (canon_entry <$> TypedMap_Entries m)) <$> h_NetworkInterfaceAddress r)
      set_NetworkInterfaceAddress h_NetworkInterfaceAddress;
    upd (given (h_DefaultInterfaceAddress r)) (canon_prefixes (elems (h_DefaultInterfaceAddress r)))
      set_DefaultInterfaceAddress h_DefaultInterfaceAddress;
    keep (h_WIFISSID r) set_WIFISSID h_WIFISSID;
    keep (h_WIFIBSSID r) set_WIFIBSSID h_WIFIBSSID;
    (fun x => upd (given (h_AdGuardDomain r) && recover) (AdGuardMatcher_Dump adguard) set_AdGuardDomain h_AdGuardDomain
                (upd (given (h_AdGuardDomain r)) (Some adguard) set_AdGuardDomainMatcher h_AdGuardDomainMatcher x))
  ].

(** Evaluate assignments on a record in constructor form, innermost first. *)
Ltac eval_fields :=
  cbv [updates canon_default fold_left upd zero_headless when_given
    set_QueryType h_QueryType set_Network h_Network set_Domain h_Domain set_DomainSuffix
    h_DomainSuffix set_DomainKeyword h_DomainKeyword set_DomainRegex h_DomainRegex set_SourceIPCIDR
    h_SourceIPCIDR set_IPCIDR h_IPCIDR set_SourcePort h_SourcePort set_SourcePortRange
    h_SourcePortRange set_Port h_Port set_PortRange h_PortRange set_ProcessName h_ProcessName
    set_ProcessPath h_ProcessPath set_ProcessPathRegex h_ProcessPathRegex set_PackageName
    h_PackageName set_PackageNameRegex h_PackageNameRegex set_NetworkType h_NetworkType
    set_NetworkIsExpensive h_NetworkIsExpensive set_NetworkIsConstrained h_NetworkIsConstrained
    set_WIFISSID h_WIFISSID set_WIFIBSSID h_WIFIBSSID set_NetworkInterfaceAddress
    h_NetworkInterfaceAddress set_DefaultInterfaceAddress h_DefaultInterfaceAddress set_Invert
    h_Invert set_DomainMatcher h_DomainMatcher set_SourceIPSet h_SourceIPSet set_IPSet h_IPSet
    set_AdGuardDomain h_AdGuardDomain set_AdGuardDomainMatcher h_AdGuardDomainMatcher].

Lemma canon_default_updates v recover r :
  set_Invert (h_Invert r) (fold_left (fun x u => u x) (updates v recover r) (zero_headless false))
  = canon_default v recover r.
Proof.
  eval_fields. f_equal; try (by destruct recover, (given _)); try (by case_goal).
  destruct r as [? ? ? ? ? ? ? ? ? ? ? ? ? ? ? ? ? ? ? ? ? ? [m|] ? ? ? ? ? ? ?]; [|done].
  cbn [typed_map_given]. by destruct (0 <? TypedMap_Size m).
Qed.

(** ** Each segment is read back as its assignment *)

(** Start the proof that one item is read back: its type byte is split off. *)
Ltac item_read :=
  eexists _, _; split; [reflexivity|]; split; [done|]; split; [done|]; intros last r0 rest e.

Lemma strs_segment recover c ty l set get :
  (forall r, set (get r) r = r) -> is_byte ty -> ty <> ruleItemFinal -> strs_ok l ->
  (forall last r, readItem recover ty last r = assign_strs set r) ->
  seg_ok recover (seg c (writeRuleItemString ty l)) (upd c (Some l) set get).
Proof.
  intros Hid Hb Hne Hl Hi. apply seg_ok_seg; [intros ->; exact Hid|]. intros -> b [= <-].
  item_read. rewrite Hi.
  unfold assign_strs, assign. rewrite <- app_assoc, readRuleItemString_put by done. done.
Qed.

Lemma uint16_segment recover c ty l set get :
  (forall r, set (get r) r = r) -> is_byte ty -> ty <> ruleItemFinal -> zlen l < 2 ^ 63 /\ Forall is_uint16 l ->
  (forall last r, readItem recover ty last r = assign readRuleItemUint16 (fun l => set (Some l) r)) ->
  seg_ok recover (seg c (writeRuleItemUint16 ty l)) (upd c (Some l) set get).
Proof.
  intros Hid Hb Hne [Hl Hu] Hi. apply seg_ok_seg; [intros ->; exact Hid|]. intros -> b [= <-].
  item_read. rewrite Hi.
  unfold assign. rewrite <- app_assoc, readRuleItemUint16_put by done. done.
Qed.

(** A segment written behind a version check. *)
Lemma since_ok v n msg o b : since v n msg o = Ok b -> o = Ok b.
Proof. unfold since. by case_goal. Qed.

Lemma seg_since recover c v n msg o u :
  seg_ok recover (seg c o) u -> seg_ok recover (seg c (since v n msg o)) u.
Proof. intros H b Hb. apply H. destruct c; cbn in *; [|done]. by apply since_ok in Hb. Qed.

Lemma writeRuleItemCIDR_ok ty l b :
  writeRuleItemCIDR ty l = Ok b -> exists s, cidr_set l = Some s /\ b = ty :: writeIPSet s.
Proof. unfold writeRuleItemCIDR, cidr_set. intros H. inv_ok. by eexists. Qed.

Lemma given_elems {A} (s : slice A) : given s = true -> elems s <> [].
Proof. by destruct s as [[|]|]. Qed.
Lemma cidr_segment recover c msg ty l set get set' get' :
  (forall r, set (get r) r = r) -> (forall r, set' (get' r) r = r) -> is_byte ty -> ty <> ruleItemFinal ->
  (c = true -> forall s, cidr_set l = Some s -> ip_set_ok s) ->
  (forall last r, readItem recover ty last r
     = assign readIPSet (fun s => let r := set (Some s) r in
         if recover then set' (Some (Prefix_String <$> IPSet_Prefixes s)) r else r)) ->
  seg_ok recover (seg c (cause msg (writeRuleItemCIDR ty l)))
    (fun x => upd (c && recover) (prefix_strings (cidr_set l)) set' get' (upd c (cidr_set l) set get x)).
Proof.
  intros Hid Hid' Hb Hne Hs Hi. apply seg_ok_seg.
  - intros -> r. unfold upd. cbn [andb]. by rewrite Hid, Hid'.
  - intros -> b Hw. apply cause_ok, writeRuleItemCIDR_ok in Hw as (s & Hset & ->).
    item_read. rewrite Hi.
    unfold assign. rewrite readIPSet_write by auto. cbn [obind]. unfold upd. rewrite Hset. cbn [prefix_strings andb].
    destruct recover; [done|]. by rewrite Hid'.
Qed.

Lemma domain_segment recover c m :
  seg_ok recover (seg c (let* b := Matcher_Write m in Ok (ruleItemDomain :: b)))
    (fun x => upd (c && recover) (Matcher_Dump m).2 set_DomainSuffix h_DomainSuffix
                (upd (c && recover) (Matcher_Dump m).1 set_Domain h_Domain
                   (upd c (Some m) set_DomainMatcher h_DomainMatcher x))).
Proof.
  apply seg_ok_seg; [by intros -> []|]. intros -> b Hw. inv_ok. item_read.
  unfold readItem. cbn [Z.eqb Pos.eqb ruleItemDomain ruleItemQueryType ruleItemNetwork]. unfold assign.
  rewrite (ReadMatcher_Write _ _ _ _ E). cbn [obind andb]. destruct recover; [done|]. by destruct r0.
Qed.

Lemma adguard_segment recover c m :
  seg_ok recover (seg c (let* b := AdGuardMatcher_Write m in Ok (ruleItemAdGuardDomain :: b)))
    (fun x => upd (c && recover) (AdGuardMatcher_Dump m) set_AdGuardDomain h_AdGuardDomain
                (upd c (Some m) set_AdGuardDomainMatcher h_AdGuardDomainMatcher x)).
Proof.
  apply seg_ok_seg; [by intros -> []|]. intros -> b Hw. inv_ok. item_read.
  change (readItem recover ruleItemAdGuardDomain last r0) with (assign ReadAdGuardMatcher (fun m =>
      let r := set_AdGuardDomainMatcher (Some m) r0 in if recover then set_AdGuardDomain (AdGuardMatcher_Dump m) r else r)).
  unfold assign. rewrite (ReadAdGuardMatcher_Write _ _ _ _ E). cbn [obind andb]. destruct recover; [done|]. by destruct r0.
Qed.

Lemma network_type_segment recover c l :
  zlen l < 2 ^ 63 ->
  seg_ok recover (seg c (writeRuleItemUint8 ruleItemNetworkType l)) (upd c (Some l) set_NetworkType h_NetworkType).
Proof.
  intros Hl. apply seg_ok_seg; [by intros -> []|]. intros -> b [= <-]. item_read.
  change (readItem recover ruleItemNetworkType last r0) with (assign readRuleItemUint8 (fun l => set_NetworkType (Some l) r0)).
  unfold assign. by rewrite <- app_assoc, readRuleItemUint8_put.
Qed.

Lemma flag_segments recover c :
  seg_ok recover (seg c (Ok [ruleItemNetworkIsExpensive])) (upd c true set_NetworkIsExpensive h_NetworkIsExpensive)
  /\ seg_ok recover (seg c (Ok [ruleItemNetworkIsConstrained])) (upd c true set_NetworkIsConstrained h_NetworkIsConstrained).
Proof. split; (apply seg_ok_seg; [by intros -> []|]; intros -> b [= <-]; item_read; done). Qed.

Lemma interfaces_segment recover v msg o :
  (forall m, o = Some m -> entries_ok m) ->
  seg_ok recover
    match o with
    | Some m => seg (0 <? TypedMap_Size m) (since v 4 msg
        (Ok (ruleItemNetworkInterfaceAddress :: WriteUvarint (TypedMap_Size m)
             ++ concat (write_entry <$> TypedMap_Entries m))))
    | None => Ok []
    end
    (upd (typed_map_given o) ((fun m => put_entries (canon_entry <$> TypedMap_Entries m)) <$> o)
       set_NetworkInterfaceAddress h_NetworkInterfaceAddress).
Proof.
  intros Ho. destruct o as [m|]; [|intros b [= <-]; left; split; [done|by intros []]].
  cbn [typed_map_given fmap option_fmap option_map]. apply seg_since, seg_ok_seg; [by intros -> []|].
  intros -> b [= <-]. item_read.
  change (readItem recover ruleItemNetworkInterfaceAddress last r0)
    with (assign read_entries (fun m => set_NetworkInterfaceAddress (Some m) r0)).
  unfold assign. rewrite <- app_assoc, read_entries_write by auto. done.
Qed.

Lemma default_interface_segment recover c l :
  prefixes_ok l ->
  seg_ok recover (seg c (Ok (ruleItemDefaultInterfaceAddress :: write_prefixes l)))
    (upd c (canon_prefixes l) set_DefaultInterfaceAddress h_DefaultInterfaceAddress).
Proof.
  intros Hl. apply seg_ok_seg; [by intros -> []|]. intros -> b [= <-]. item_read.
  change (readItem recover ruleItemDefaultInterfaceAddress last r0)
    with (assign read_prefixes (fun l => set_DefaultInterfaceAddress l r0)).
  unfold assign. by rewrite read_prefixes_write.
Qed.

Lemma segments_read v recover r :
  default_wf r -> Forall2 (seg_ok recover) (segments v r) (updates v recover r).
Proof.
  intros Hwf. unfold segments, plain_segments, late_segments, updates. cbn [app].
  assert (Hs := wf_strs r Hwf). assert (Hu := wf_uint16 r Hwf). assert (Hc := wf_sets r Hwf).
  repeat apply Forall2_cons_2; try apply Forall2_nil_2; try apply seg_since;
    first [ apply strs_segment; [by intros []|done|done|apply Hs; set_solver|reflexivity]
          | apply uint16_segment; [by intros []|done|done|apply Hu; set_solver|reflexivity]
          | apply cidr_segment; [by intros []|by intros []|done|done|intros Hg s; apply Hc; [set_solver|by apply given_elems]|reflexivity]
          | apply domain_segment | apply adguard_segment | apply network_type_segment, wf_network_type, Hwf
          | apply flag_segments | apply interfaces_segment, wf_interfaces, Hwf
          | apply default_interface_segment, wf_default_interface, Hwf ].
Qed.

Lemma readDefaultRule_write v recover r b rest e :
  default_wf r -> write_all (segments v r) = Ok b ->
  readDefaultRule recover (Stream (b ++ ruleItemFinal :: bool_byte (h_Invert r) ++ rest) e)
  = Ok (canon_default v recover r, Stream rest e).
Proof.
  intros Hwf Hw. unfold readDefaultRule. cbn [avail].
  rewrite (loop_segments recover _ _ _ _ _ _ _ _ _ (segments_read v recover r Hwf) Hw).
  - by rewrite canon_default_updates.
  - rewrite length_app. lia.
Qed.

(** ** Rules *)

(** [canon] of a rule tree: the format stores the options of the type only. *)
Fixpoint canon (v : Z) (recover : bool) (o : HeadlessRule) : HeadlessRule :=
  match o with
  | MkHeadless type d (MkLogicalHeadless mode rules invert) =>
      if bool_decide (type = "default") then default_headless (canon_default v recover d)
      else MkHeadless type (zero_headless false)
             (MkLogicalHeadless mode (Some (match rules with Some l => canon v recover <$> l | None => [] end)) invert)
  end.
Fixpoint rule_wf (o : HeadlessRule) : Prop :=
  match o with
  | MkHeadless type d (MkLogicalHeadless mode rules invert) =>
      default_wf d
      /\ match rules with
         | Some l => zlen l < 2 ^ 63 /\ (fix all (l : list HeadlessRule) : Prop :=
                                          match l with [] => True | o :: l' => rule_wf o /\ all l' end) l
         | None => True
         end
  end.

Lemma rule_wf_logical type d mode l invert :
  rule_wf (MkHeadless type d (MkLogicalHeadless mode (Some l) invert)) -> zlen l < 2 ^ 63 /\ Forall rule_wf l.
Proof.
  cbn. intros (_ & Hl & H). split; [done|]. clear Hl. induction l as [|o l IH]; constructor; [apply H|apply IH, H].
Qed.

Lemma writeLogicalRule_eq v mode rules invert :
  writeLogicalRule v (MkLogicalHeadless mode rules invert)
  = let* m := (if bool_decide (mode = "and") then Ok 0
               else if bool_decide (mode = "or") then Ok 1
               else Panic ("unknown logical mode: " +:+ mode)) in
    let* rs := write_rules v (elems rules) in
    Ok (1 :: m :: WriteUvarint (slen rules) ++ rs ++ bool_byte invert).
Proof.
  cbn [writeLogicalRule]. destruct rules as [l|]; [|reflexivity]. unfold write_rules. cbn [elems default].
  assert (forall l, (fix go (rs : list HeadlessRule) : outcome bytes :=
            match rs with
            | [] => Ok []
            | r :: rs' => let* b := writeRule v r in let* bs := go rs' in Ok (b ++ bs)
            end) l = write_all (writeRule v <$> l)) as H.
  { induction l0 as [|o l0 IH]; [done|]. cbn. by rewrite IH. }
  by rewrite H.
Qed.

(** The bytes of a rule that can be written. *)
Definition enc (v : Z) (o : HeadlessRule) : bytes := match writeRule v o with Ok b => b | _ => [] end.

Lemma write_rules_enc v l bs :
  write_rules v l = Ok bs -> bs = concat (enc v <$> l) /\ Forall (fun o => writeRule v o = Ok (enc v o)) l.
Proof.
  unfold write_rules. revert bs. induction l as [|o l IH]; intros bs H; cbn in H; inv_ok; [done|].
  destruct (IH _ eq_refl) as [-> Hl].
  assert (enc v o = a) as <- by (unfold enc; by rewrite E). split; [done|by constructor].
Qed.

Lemma writeRule_nonempty v o b : writeRule v o = Ok b -> (0 < length b)%nat.
Proof.
  destruct o as [type d [mode rules invert]]. cbn [writeRule].
  destruct (bool_decide (type = "default")).
  - unfold writeDefaultRule. cbn. intros H. inv_ok. cbn. lia.
  - destruct (bool_decide (type = "logical")); [|discriminate]. rewrite writeLogicalRule_eq. intros H. inv_ok. cbn. lia.
Qed.

(** Sub-rules read back one after the other. *)
Lemma read_rules_written v recover (f : Z -> reader HeadlessRule) l bs rest e :
  write_rules v l = Ok bs ->
  (forall o j r, o ∈ l -> f j (Stream (enc v o ++ r) e) = Ok (canon v recover o, Stream r e)) ->
  read_n (S (length (bs ++ rest))) 0 (zlen l) f (Stream (bs ++ rest) e) = Ok (canon v recover <$> l, Stream rest e).
Proof.
  intros Hw Hf. apply write_rules_enc in Hw as [-> Hall]. apply read_n_encoded; [lia| |done].
  rewrite length_app. enough (length l <= length (concat (enc v <$> l)))%nat by lia. clear Hf.
  induction Hall as [|o l Ho _ IH]; cbn; [lia|]. rewrite length_app. apply writeRule_nonempty in Ho. lia.
Qed.

Lemma writeDefaultRule_ok v r b :
  writeDefaultRule v r = Ok b ->
  exists s, write_all (segments v r) = Ok s /\ b = 0 :: s ++ ruleItemFinal :: bool_byte (h_Invert r).
Proof.
  unfold writeDefaultRule. rewrite write_all_app. cbn [write_all obind app]. rewrite write_all_app.
  destruct (write_all (segments v r)) as [s| | |]; try discriminate. cbn. intros [= <-]. by exists s.
Qed.

Lemma readRule_loop_write v recover o :
  rule_wf o -> forall b fuel rest e, writeRule v o = Ok b -> (length b < fuel)%nat ->
  readRule_loop fuel recover (Stream (b ++ rest) e) = Ok (canon v recover o, Stream rest e).
Proof.
  induction o as [type d mode rules invert IH] using HeadlessRule_nested_ind.
  intros Hwf b fuel rest e Hw Hf. destruct fuel as [|fuel]; [lia|]. cbn [writeRule canon] in *.
  destruct (bool_decide (type = "default")) eqn:Hd.
  - apply writeDefaultRule_ok in Hw as (s & Hs & ->).
    cbn [app readRule_loop]. rewrite <- app_assoc, ReadUint_byte by done. cbn [obind Z.eqb app].
    rewrite (readDefaultRule_write v recover d _ rest e); [done|apply Hwf|done].
  - destruct (bool_decide (type = "logical")) eqn:Hl; [|discriminate]. apply bool_decide_eq_true in Hl as ->.
    rewrite writeLogicalRule_eq in Hw. inv_ok. rename a into m, a0 into bs.
    assert (exists l, elems rules = l /\ zlen l < 2 ^ 63 /\ Forall rule_wf l
              /\ (match rules with Some l => canon v recover <$> l | None => [] end) = canon v recover <$> l
              /\ Forall (fun o => rule_wf o -> forall b fuel rest e, writeRule v o = Ok b -> (length b < fuel)%nat ->
                    readRule_loop fuel recover (Stream (b ++ rest) e) = Ok (canon v recover o, Stream rest e)) l)
      as (l & Hel & Hlen & Hall & -> & IHl).
    { destruct rules as [l|]; [|by exists []]. exists l. destruct (rule_wf_logical _ _ _ _ _ Hwf). eauto 10. }
    change (slen rules) with (zlen (elems rules)) in *. rewrite Hel in *.
    assert (Hm : (if m =? 0 then Ok "and" else if m =? 1 then Ok "or"
                  else Err (ENew ("unknown logical mode: " +:+ pretty m))) = Ok mode).
    { destruct (bool_decide (mode = "and")) eqn:?; [|destruct (bool_decide (mode = "or")) eqn:?; [|discriminate]];
        inv_ok; to_prop; by subst. }
    cbn [app readRule_loop]. rewrite ReadUint_byte by done. cbn [obind Z.eqb]. unfold readLogicalRule_with.
    rewrite ReadByte_cons. cbn [obind]. rewrite Hm. cbn [obind]. rewrite <- !app_assoc, read_uvarint_put by by apply zlen_len_ok.
    cbn [obind]. rewrite make_slice_ok by done. cbn [obind avail].
    rewrite (read_rules_written v recover _ l bs _ e E0).
    + cbn [obind]. by rewrite ReadBool_bool_byte.
    + intros o j r Hin. apply cause_ok. pose proof (write_rules_enc _ _ _ E0) as [Hbs Henc].
      eapply Forall_forall in IHl, Hall, Henc; [|done..]. apply IHl; [done|done|].
      assert (length (enc v o) <= length bs)%nat.
      { subst bs. clear -Hin. induction l as [|x l IH]; [by apply not_elem_of_nil in Hin|]. cbn. rewrite length_app.
        apply elem_of_cons in Hin as [->|Hin]; [lia|]. specialize (IH Hin). lia. }
      cbn [length] in Hf. rewrite !length_app in Hf. lia.
Qed.

(** ** Whole files *)

Definition rule_set_wf (s : PlainRuleSet) : Prop := slen (pr_Rules s) < 2 ^ 63 /\ Forall rule_wf (elems (pr_Rules s)).

Lemma Read_Write v recover s content :
  0 <= v <= RuleSetVersionCurrent -> rule_set_wf s -> Write s v = Ok content ->
  Read recover content = Ok (MkCompat v (MkPlainRuleSet (Some (canon v recover <$> elems (pr_Rules s))))).
Proof.
  unfold RuleSetVersionCurrent. intros Hv [Hlen Hwf] Hw. unfold Write in Hw. inv_ok. unfold Read.
  change (83 :: 82 :: 83 :: ?l) with (MagicBytes ++ l).
  rewrite ReadFull_app by done. cbn [obind]. rewrite bool_decide_eq_true_2 by done. cbn [negb].
  rewrite uint_small by (cbn; lia). rewrite ReadUint_byte by (unfold is_byte; lia). cbn [obind].
  rewrite (proj2 (Z.ltb_ge _ _)) by (unfold RuleSetVersionCurrent; lia). cbn [avail]. rewrite zlib_roundtrip. cbn [obind].
  unfold read_rules. change (slen (pr_Rules s)) with (zlen (elems (pr_Rules s))) in *.
  rewrite read_uvarint_put by by apply zlen_len_ok. cbn [obind]. rewrite make_slice_ok by done. cbn [obind avail].
  rewrite <- (app_nil_r a). rewrite (read_rules_written v recover _ _ a [] EOF E); [done|].
  intros o j r Hin. apply cause_ok. unfold readRule. cbn [avail].
  pose proof (write_rules_enc _ _ _ E) as [_ Henc]. eapply Forall_forall in Hwf, Henc; [|done..].
  apply readRule_loop_write; [done|done|]. rewrite length_app. lia.
Qed.

(** C2: reading back a written rule-set gives its version and, rule by rule, the
    canonical form of what was written, for every version the format has, with
    and without recovery of the compiled lists. *)
Theorem srs_roundtrip v recover s content :
  0 <= v <= RuleSetVersionCurrent -> rule_set_wf s -> Write s v = Ok content ->
  Read recover content = Ok (MkCompat v (MkPlainRuleSet (Some (canon v recover <$> elems (pr_Rules s))))).
Proof. apply Read_Write. Qed.

End SrsSpec.
