(* ===== verification/SrsSafety.v ===== *)
(** * The binary rule-set reader on arbitrary input, and the compile command

    Termination of [Read] on every byte string, the one way it can panic, the
    version downgrade of cmd/sidera/cmd_rule_set_compile.go, and that compiling a
    rule and loading it back builds the rule the source options build. *)

From S2P Require Import Prelude GoStd Netip External Concrete RuleItems RuleMatch RuleSpec RuleOptions RuleBuild RuleBuildSpec RuleSetState Srs SrsSpec.
Local Open Scope Z_scope.

(** ** Loops bounded by the input *)

Lemma read_n_total_bounded {A} fuel i n (f : Z -> reader A) st :
  (forall j, consumes 1 (f j)) ->
  (forall j st', (length (avail st') <= length (avail st))%nat -> f j st' <> Diverge) ->
  (length (avail st) < fuel)%nat -> read_n fuel i n f st <> Diverge.
Proof.
  intros Hc. revert i st. induction fuel as [|fuel IH]; intros i st Ht Hlen; [lia|].
  cbn [read_n]. destruct (n <=? i); [done|]. pose proof (Ht i st ltac:(lia)).
  destruct (f i st) as [[a st1]| | |] eqn:E; try done. cbn [obind]. apply Hc in E.
  specialize (IH (i + 1) st1). destruct (read_n fuel (i + 1) n f st1) as [[]| | |]; try done.
  exfalso. apply IH; [|lia|done]. intros j st' Hst'. apply Ht. lia.
Qed.

Lemma make_slice_total n : make_slice n <> Diverge.
Proof. unfold make_slice. by case_goal. Qed.

Lemma total_slice {A} n (f : reader A) : total f -> total (fun st => let* _ := make_slice n in f st).
Proof. intros Hf st. pose proof (make_slice_total n). destruct (make_slice n); try done. apply Hf. Qed.

Lemma consumes_slice {A} k n (f : reader A) : consumes k f -> consumes k (fun st => let* _ := make_slice n in f st).
Proof. intros Hf st a st' H. inv_ok. by eapply Hf. Qed.

(** A reader that is total and consumes at least [k] bytes. *)
Definition good {A} (k : nat) (f : reader A) : Prop := consumes k f /\ total f.

Lemma good_weaken {A} k k' (f : reader A) : (k' <= k)%nat -> good k f -> good k' f.
Proof. intros Hk [Hc Ht]. split; [|done]. by eapply consumes_weaken. Qed.

Lemma good_bind {A B} k1 k2 (f : reader A) (g : A -> reader B) :
  good k1 f -> (forall a, good k2 (g a)) -> good (k1 + k2) (fun st => let* (a, st') := f st in g a st').
Proof.
  intros [Hc Ht] Hg. split; [apply consumes_bind|apply total_bind]; try done; intros a; apply Hg.
Qed.

Lemma good_slice {A} k n (f : reader A) : good k f -> good k (fun st => let* _ := make_slice n in f st).
Proof. intros [Hc Ht]. split; [by apply consumes_slice|by apply total_slice]. Qed.

Lemma good_ret {A} (a : A) : good 0 (fun st => Ok (a, st)).
Proof. split; [apply consumes_ret|apply total_ret]. Qed.

Lemma good_err {A} k e : good (A := A) k (fun _ => Err e).
Proof. by split. Qed.

Lemma good_read_n {A} n (f : Z -> reader A) :
  (forall j, good 1 (f j)) -> good 0 (fun st => read_n (S (length (avail st))) 0 n f st).
Proof.
  intros Hf. split.
  - intros st a st' H. apply read_n_consumes in H; [done|]. intros j. eapply consumes_weaken; [|apply Hf]. lia.
  - intros st. apply read_n_total; [intros j; apply Hf..|lia].
Qed.

Lemma good_ReadByte : good 1 ReadByte.
Proof. split; [apply ReadByte_consumes|apply ReadByte_total]. Qed.
Lemma good_ReadUvarint : good 1 ReadUvarint.
Proof. split; [apply ReadUvarint_consumes|apply ReadUvarint_total]. Qed.
Lemma good_ReadFull n : good 0 (ReadFull n).
Proof. split; [apply ReadFull_consumes0|apply ReadFull_total]. Qed.
Lemma good_ReadUint n : good n (ReadUint n).
Proof. split; [apply ReadUint_consumes|apply ReadUint_total]. Qed.
Lemma good_ReadBool : good 1 ReadBool.
Proof. split; [apply ReadBool_consumes|apply ReadBool_total]. Qed.

Create HintDb readers.
#[export] Hint Resolve good_ReadByte good_ReadUvarint good_ReadFull good_ReadUint good_ReadBool good_ret : readers.

(** Follow the binds of a reader. *)
Ltac good_reader :=
  repeat first
    [ solve [eauto with readers]
    | solve [eapply good_weaken; [|eauto with readers]; lia]
    | eapply (good_bind 1 0); [|intros ?]
    | apply good_slice
    | apply good_read_n; intros _
    | eapply (good_bind 0 0); [|intros ?] ].

Section SrsSafety.
Context {X : External} {XL : ExternalLaws X}.

Lemma good_read_str : good 1 read_str.
Proof. unfold read_str. good_reader. Qed.
Lemma good_read_addr : good 1 read_addr.
Proof. unfold read_addr. good_reader. Qed.
#[local] Hint Resolve good_read_str good_read_addr : readers.

Lemma good_readRuleItemString : good 1 readRuleItemString.
Proof. unfold readRuleItemString. good_reader. Qed.
Lemma good_readRuleItemUint8 : good 1 readRuleItemUint8.
Proof. unfold readRuleItemUint8. good_reader. Qed.
Lemma good_readRuleItemUint16 : good 1 readRuleItemUint16.
Proof. unfold readRuleItemUint16. good_reader. Qed.
Lemma good_read_range : good 1 read_range.
Proof. unfold read_range. good_reader. Qed.
Lemma good_readPrefix : good 1 readPrefix.
Proof. unfold readPrefix. good_reader. Qed.
#[local] Hint Resolve good_readRuleItemString good_readRuleItemUint8 good_readRuleItemUint16 good_read_range good_readPrefix : readers.

Lemma good_readIPSet : good 1 readIPSet.
Proof.
  unfold readIPSet. eapply (good_bind 1 0); [auto with readers|]. intros version.
  destruct (negb (version =? 1)); [apply good_err|].
  eapply good_weaken; [|eapply (good_bind 8 0)]; [lia|apply good_ReadUint|intros n]. good_reader.
Qed.
Lemma good_read_prefixes : good 1 read_prefixes.
Proof. unfold read_prefixes. good_reader. Qed.
#[local] Hint Resolve good_readIPSet good_read_prefixes : readers.

Lemma good_read_entry : good 1 read_entry.
Proof. unfold read_entry. good_reader. Qed.
#[local] Hint Resolve good_read_entry : readers.

Lemma good_read_entries : good 1 read_entries.
Proof. unfold read_entries. good_reader. Qed.
#[local] Hint Resolve good_read_entries : readers.

Lemma good_ReadMatcher : good 0 ReadMatcher.
Proof. split; [apply ReadMatcher_consumes|apply ReadMatcher_total]. Qed.
Lemma good_ReadAdGuardMatcher : good 0 ReadAdGuardMatcher.
Proof. split; [apply ReadAdGuardMatcher_consumes|apply ReadAdGuardMatcher_total]. Qed.
#[local] Hint Resolve good_ReadMatcher good_ReadAdGuardMatcher : readers.

Lemma good_assign {A} k (f : reader A) set : good k f -> good 0 (assign f set).
Proof. intros Hf. unfold assign. eapply (good_bind 0 0); [by eapply good_weaken; [|exact Hf]; lia|intros a; apply good_ret]. Qed.

Lemma good_readItem recover ty last r : good 0 (readItem recover ty last r).
Proof.
  unfold readItem, assign_strs. repeat case_match;
    first [ apply good_ret | eapply good_assign; solve [eauto with readers]
          | apply good_err ].
Qed.

(** ** Default and logical rules *)

Lemma readDefaultRule_loop_consumes fuel recover last r : consumes 1 (readDefaultRule_loop fuel recover last r).
Proof.
  revert last r. induction fuel as [|fuel IH]; intros last r st a st' H; cbn [readDefaultRule_loop] in H; [discriminate|].
  inv_ok. apply ReadUint_consumes in E. destruct (_ =? ruleItemFinal); inv_ok.
  - apply ReadBool_consumes in E0. lia.
  - apply (proj1 (good_readItem _ _ _ _)) in E0. apply IH in H. lia.
Qed.

Lemma readDefaultRule_loop_total fuel recover last r st :
  (length (avail st) < fuel)%nat -> readDefaultRule_loop fuel recover last r st <> Diverge.
Proof.
  revert last r st. induction fuel as [|fuel IH]; intros last r st Hl; [lia|]. cbn [readDefaultRule_loop].
  pose proof (ReadUint_total 1 st). destruct (ReadUint 1 st) as [[ty st1]| | |] eqn:E; try done. cbn [obind].
  apply ReadUint_consumes in E. destruct (ty =? ruleItemFinal).
  - pose proof (ReadBool_total st1). by destruct (ReadBool st1) as [[]| | |].
  - destruct (good_readItem recover ty last r) as [Hc Ht]. specialize (Ht st1).
    destruct (readItem recover ty last r st1) as [[r' st2]| | |] eqn:E2; try done. cbn [obind].
    apply Hc in E2. apply IH. lia.
Qed.

Lemma good_readDefaultRule recover : good 1 (readDefaultRule recover).
Proof.
  unfold readDefaultRule. split.
  - intros st a st'. apply readDefaultRule_loop_consumes.
  - intros st. apply readDefaultRule_loop_total. lia.
Qed.

Lemma cause_Diverge {A} msg (m : outcome A) : m <> Diverge -> cause msg m <> Diverge.
Proof. by destruct m. Qed.

Lemma cause_consumes {A} k msg (f : reader A) : consumes k f -> consumes k (fun st => cause msg (f st)).
Proof. intros Hf st a st' H. apply cause_ok in H. by apply Hf in H. Qed.

Lemma readLogicalRule_consumes f : consumes 0 f -> consumes 1 (readLogicalRule_with f).
Proof.
  intros Hf st a st' H. unfold readLogicalRule_with in H. inv_ok.
  apply ReadByte_consumes in E. apply ReadUvarint_consumes in E1. apply ReadBool_consumes in E4.
  apply read_n_consumes in E3; [lia|]. intros j. by apply cause_consumes.
Qed.

Lemma readLogicalRule_total f st :
  consumes 1 f -> (forall st', (length (avail st') < length (avail st))%nat -> f st' <> Diverge) ->
  readLogicalRule_with f st <> Diverge.
Proof.
  intros Hc Ht. unfold readLogicalRule_with. pose proof (ReadByte_total st).
  destruct (ReadByte st) as [[m st1]| | |] eqn:E; try done. cbn [obind]. apply ReadByte_consumes in E.
  destruct (if m =? 0 then _ else _) eqn:Em; try done; [|by destruct (m =? 0), (m =? 1)]. cbn [obind].
  pose proof (ReadUvarint_total st1). destruct (ReadUvarint st1) as [[n st2]| | |] eqn:E1; try done. cbn [obind].
  apply ReadUvarint_consumes in E1. pose proof (make_slice_total n). destruct (make_slice n); try done. cbn [obind].
  match goal with |- context [read_n ?fu 0 n ?g st2] =>
    assert (read_n fu 0 n g st2 <> Diverge) as Hn; [|destruct (read_n fu 0 n g st2) as [[rs st3]| | |]; try done] end.
  - apply read_n_total_bounded; [intros j; by apply cause_consumes| |lia].
    intros j st' Hst'. apply cause_Diverge, Ht. lia.
  - cbn [obind]. pose proof (ReadBool_total st3). by destruct (ReadBool st3) as [[]| | |].
Qed.

Lemma readRule_loop_consumes fuel recover : consumes 1 (readRule_loop fuel recover).
Proof.
  induction fuel as [|fuel IH]; intros st a st' H; cbn [readRule_loop] in H; [discriminate|].
  inv_ok. apply ReadUint_consumes in E. destruct (_ =? 0); [|destruct (_ =? 1); [|discriminate]]; inv_ok.
  - apply (proj1 (good_readDefaultRule _)) in E0. lia.
  - apply readLogicalRule_consumes in E0; [lia|]. eapply consumes_weaken; [|exact IH]. lia.
Qed.

Lemma readRule_loop_total fuel recover st :
  (length (avail st) < fuel)%nat -> readRule_loop fuel recover st <> Diverge.
Proof.
  revert st. induction fuel as [|fuel IH]; intros st Hl; [lia|]. cbn [readRule_loop].
  pose proof (ReadUint_total 1 st). destruct (ReadUint 1 st) as [[ty st1]| | |] eqn:E; try done. cbn [obind].
  apply ReadUint_consumes in E. destruct (ty =? 0); [|destruct (ty =? 1); [|done]].
  - pose proof (proj2 (good_readDefaultRule recover) st1). by destruct (readDefaultRule recover st1) as [[]| | |].
  - pose proof (readLogicalRule_total (readRule_loop fuel recover) st1 (readRule_loop_consumes fuel recover)) as H1.
    destruct (readLogicalRule_with _ st1) as [[]| | |]; try done. exfalso. apply H1; [|done].
    intros st' Hst'. apply IH. lia.
Qed.

(** [Read] terminates on every input: each loop and each nested rule consumes
    input, so a file of any content yields a rule-set, an error or a panic. *)
Theorem srs_read_terminates recover content : Read recover content <> Diverge.
Proof.
  unfold Read. pose proof (ReadFull_total 3 (Stream content EOF)).
  destruct (ReadFull 3 _) as [[m st]| | |]; try done. cbn [obind]. case_goal; [done|].
  pose proof (ReadUint_total 1 st). destruct (ReadUint 1 st) as [[ver st1]| | |]; try done. cbn [obind]. case_goal; [done|].
  pose proof (zlib_total (avail st1)). destruct (zlib_NewReader (avail st1)) as [st2| | |]; try done. cbn [obind].
  unfold read_rules. pose proof (ReadUvarint_total st2). destruct (ReadUvarint st2) as [[n st3]| | |]; try done. cbn [obind].
  pose proof (make_slice_total n). destruct (make_slice n); try done. cbn [obind].
  match goal with |- context [read_n ?fu 0 n ?g st3] =>
    assert (read_n fu 0 n g st3 <> Diverge) as Hn; [|by destruct (read_n fu 0 n g st3) as [[]| | |]] end.
  apply read_n_total; [intros j|intros j st'|lia].
  - apply cause_consumes. intros st' x st'' Hr. by apply readRule_loop_consumes in Hr.
  - apply cause_Diverge, readRule_loop_total. lia.
Qed.

(** The lengths of the format are not checked against the input: a file whose
    compressed text starts with a rule count of 2^63 or more makes [Read] panic in
    [make] instead of reporting a malformed file. *)
Theorem srs_read_panics_on_huge_length recover v n rest :
  0 <= v <= RuleSetVersionCurrent -> 2 ^ 63 <= n < 2 ^ 64 ->
  Read recover (MagicBytes ++ [v] ++ zlib_compress (PutUvarint n ++ rest))
  = Panic "runtime error: makeslice: len out of range".
Proof.
  unfold RuleSetVersionCurrent. intros Hv Hn. unfold Read. rewrite ReadFull_app by done. cbn [obind].
  rewrite bool_decide_eq_true_2 by done. cbn [negb app]. rewrite ReadUint_byte by (unfold is_byte; lia). cbn [obind].
  rewrite (proj2 (Z.ltb_ge _ _)) by (unfold RuleSetVersionCurrent; lia). cbn [avail]. rewrite zlib_roundtrip. cbn [obind].
  unfold read_rules. rewrite ReadUvarint_Put by (unfold is_uint64; lia). cbn [obind]. unfold make_slice.
  by rewrite (proj2 (Z.ltb_ge _ _)) by lia.
Qed.

(** ** cmd_rule_set_compile.go *)

Definition uses_package_name_regex (r : DefaultHeadlessRule) : bool := given (h_PackageNameRegex r).
Definition uses_interface_address (r : DefaultHeadlessRule) : bool :=
  typed_map_given (h_NetworkInterfaceAddress r) || given (h_DefaultInterfaceAddress r).
Definition uses_network (r : DefaultHeadlessRule) : bool :=
  given (h_NetworkType r) || h_NetworkIsExpensive r || h_NetworkIsConstrained r.

Definition downgradeRuleSetVersion (version : Z) (rules : list HeadlessRule) : Z :=
  let version := if (version =? 5) && negb (HasHeadlessRule rules uses_package_name_regex) then 4 else version in
  let version := if (version =? 4) && negb (HasHeadlessRule rules uses_interface_address) then 3 else version in
  if (version =? 3) && negb (HasHeadlessRule rules uses_network) then 2 else version.

(** Two versions write rules alike when no rule uses a field of a version between
    them; [uses f] tells whether [f] holds of some rule. *)
Definition alike (v v' : Z) (uses : (DefaultHeadlessRule -> bool) -> bool) : Prop :=
  (v =? 1) = (v' =? 1) /\ (v <? 2) = (v' <? 2)
  /\ ((v <? 5) = (v' <? 5) \/ uses uses_package_name_regex = false)
  /\ ((v <? 4) = (v' <? 4) \/ uses uses_interface_address = false)
  /\ ((v <? 3) = (v' <? 3) \/ uses uses_network = false).

Lemma alike_mono v v' (uses uses' : (DefaultHeadlessRule -> bool) -> bool) :
  (forall f, uses f = false -> uses' f = false) -> alike v v' uses -> alike v v' uses'.
Proof. unfold alike. intuition auto. Qed.

Lemma seg_since_alike (c : bool) v v' n msg o :
  (v <? n) = (v' <? n) \/ c = false -> seg c (since v n msg o) = seg c (since v' n msg o).
Proof. unfold seg, since. by intros [-> | ->]. Qed.

Lemma writeDefaultRule_alike v v' r : alike v v' (fun f => f r) -> writeDefaultRule v r = writeDefaultRule v' r.
Proof.
  unfold alike, uses_package_name_regex, uses_interface_address, uses_network. intros (H1 & H2 & H5 & H4 & H3).
  rewrite !orb_false_iff in *. unfold writeDefaultRule. enough (segments v r = segments v' r) as -> by done.
  unfold segments, plain_segments, late_segments. cbn [app]. rewrite H1.
  repeat match goal with
  | |- context [seg ?c (since v ?n ?m ?o)] => rewrite (seg_since_alike c v v' n m o) by tauto
  end.
  destruct (h_NetworkInterfaceAddress r) as [m|]; [|reflexivity]. cbn [typed_map_given] in H4.
  match goal with |- context [seg ?c (since v ?n ?m ?o)] => rewrite (seg_since_alike c v v' n m o) by tauto end.
  reflexivity.
Qed.

Lemma writeRule_alike v v' o : alike v v' (fun f => rule_has f o) -> writeRule v o = writeRule v' o.
Proof.
  induction o as [type d mode rules invert IH] using HeadlessRule_nested_ind. intros H. cbn [writeRule].
  destruct (bool_decide (type = "default")) eqn:Hd.
  { apply writeDefaultRule_alike. eapply alike_mono; [|exact H]. intros f. cbn [rule_has]. by rewrite Hd. }
  destruct (bool_decide (type = "logical")) eqn:Hl; [|done]. rewrite !writeLogicalRule_eq.
  enough (write_rules v (elems rules) = write_rules v' (elems rules)) as -> by done.
  destruct rules as [l|]; [|done]. specialize (IH l eq_refl). unfold write_rules. f_equal. cbn [elems default].
  assert (Hall : forall o, o ∈ l -> alike v v' (fun f => rule_has f o)).
  { intros o Ho. eapply alike_mono; [|exact H]. intros f. cbn [rule_has]. rewrite Hd, Hl. intros Hf.
    apply not_true_iff_false. intros Ht. apply not_true_iff_false in Hf. apply Hf.
    apply existsb_exists. exists o. split; [by apply list_elem_of_In|done]. }
  apply list_fmap_ext. intros i o Ho%list_elem_of_lookup_2. eapply Forall_forall in IH; [|done]. auto.
Qed.

Lemma downgrade_alike v rules :
  1 <= v <= 5 -> alike v (downgradeRuleSetVersion v rules) (HasHeadlessRule rules).
Proof.
  intros Hv. assert (v = 1 \/ v = 2 \/ v = 3 \/ v = 4 \/ v = 5) as Hc by lia. unfold downgradeRuleSetVersion, alike.
  destruct Hc as [->|[->|[->|[->| ->]]]]; cbn [Z.eqb Pos.eqb andb];
    destruct (HasHeadlessRule rules uses_package_name_regex), (HasHeadlessRule rules uses_interface_address),
      (HasHeadlessRule rules uses_network); cbn; tauto.
Qed.

(** The compile command lowers the version of a rule-set without changing what
    is written: the rules are encoded byte for byte as in the declared version,
    with the same success or error. *)
Theorem downgrade_writes_same_rules v rules :
  1 <= v <= 5 -> write_rules (downgradeRuleSetVersion v rules) rules = write_rules v rules.
Proof.
  intros Hv. pose proof (downgrade_alike v rules Hv) as H. generalize dependent (downgradeRuleSetVersion v rules).
  intros v' H. unfold write_rules. f_equal. apply list_fmap_ext. intros i o Ho%list_elem_of_lookup_2.
  symmetry. apply writeRule_alike. eapply alike_mono; [|exact H]. intros f Hf.
  apply not_true_iff_false. intros Ht. apply not_true_iff_false in Hf. apply Hf.
  apply existsb_exists. exists o. split; [by apply list_elem_of_In|done].
Qed.

(** ** Compiling and loading *)

(** Options as a source file gives them: no compiled matchers, unique map keys. *)
Record source_options (r : DefaultHeadlessRule) : Prop := {
  so_matcher : h_DomainMatcher r = None;
  so_source : h_SourceIPSet r = None;
  so_set : h_IPSet r = None;
  so_adguard : h_AdGuardDomainMatcher r = None;
  so_keys : forall m, h_NetworkInterfaceAddress r = Some m -> NoDup (TypedMap_Entries m).*1
}.

(** [s'] appends what [s] appends whenever [s] does not fail. *)
Definition step_refines (s s' : RuleBuild.step) : Prop :=
  s'.1 = s.1 /\ match s.2 with
                | None => s'.2 = None
                | Some (Ok it) => s'.2 = Some (Ok it)
                | Some _ => True
                end.

Lemma run_steps_refines l l' r0 r :
  Forall2 step_refines l l' -> run_steps l r0 = Ok r -> run_steps l' r0 = Ok r.
Proof.
  intros H. revert r0. induction H as [|[g o] [g' o'] l l' [Hg Ho] _ IH]; intros r0 Hr; [done|]. cbn in Hg, Ho. subst g'.
  cbn [run_steps] in *. destruct o as [[it| | |]|]; try discriminate; subst o'; cbn [obind] in *; auto.
Qed.

Lemma given_keep {A} (s : slice A) : given (when_given s (Some (elems s))) = given s.
Proof. unfold when_given. destruct (given s) eqn:E; [exact E|done]. Qed.

Lemma elems_keep {A} (s : slice A) : given s = true -> elems (when_given s (Some (elems s))) = elems s.
Proof. unfold when_given. by intros ->. Qed.

(** A list field that is kept as it is. *)
Lemma keep_refines {A} g (s : slice A) (new : list A -> outcome RuleItem) :
  step_refines (g, when (given s) (new (elems s)))
    (g, when (given (when_given s (Some (elems s)))) (new (elems (when_given s (Some (elems s)))))).
Proof.
  split; [done|]. cbn. rewrite given_keep. destruct (given s) eqn:E; cbn; [|done]. rewrite elems_keep by done.
  by destruct (new (elems s)).
Qed.

Lemma cidr_refines g msg src (s : slice string) :
  step_refines
    (g, if given s then Some (cause msg (NewIPCIDRItem src (elems s))) else None)
    (g, (fun x => Ok (NewRawIPCIDRItem src x)) <$> when_given s (cidr_set (elems s))).
Proof.
  split; [done|]. cbn. unfold when_given. destruct (given s); [|done].
  destruct (cause msg (NewIPCIDRItem src (elems s))) as [it| | |] eqn:E; try done.
  apply cause_ok in E. unfold NewIPCIDRItem in E. unfold cidr_set. inv_ok. done.
Qed.

Lemma canon_prefixes_build l : build_prefixes (canon_prefixes l) = build_prefixes (Some l).
Proof.
  unfold build_prefixes, canon_prefixes, slice_of, build. destruct l as [|p l]; [done|]. cbn. rewrite Prefixable_Build_some.
  f_equal. rewrite <- list_fmap_compose. apply list_fmap_ext. intros i q _. cbn. apply Prefixable_Build_some.
Qed.

Lemma interface_map_entries (l : list (Z * slice (option Prefix))) acc :
  fold_left (fun acc kv => <[kv.1 := build_prefixes kv.2]> acc) (canon_entry <$> l) acc
  = fold_left (fun acc kv => <[kv.1 := build_prefixes kv.2]> acc) l (acc : gmap Z (list Prefix)).
Proof.
  revert acc. induction l as [|[k s] l IH]; intros acc; [done|].
  cbn [fmap list_fmap fold_left]. rewrite IH. unfold canon_entry. cbn [fst snd].
  replace (build_prefixes (canon_prefixes (elems s))) with (build_prefixes s); [done|].
  rewrite canon_prefixes_build. by destruct s.
Qed.

Lemma put_entries_canon (m : TypedMap Z (slice (option Prefix))) :
  NoDup (TypedMap_Entries m).*1 ->
  TypedMap_Entries (put_entries (canon_entry <$> TypedMap_Entries m)) = canon_entry <$> TypedMap_Entries m.
Proof.
  intros Hd. apply TypedMap_Entries_Put. rewrite <- list_fmap_compose. exact Hd.
Qed.

Lemma network_address_refines (o : option (TypedMap Z (slice (option Prefix)))) :
  (forall m, o = Some m -> NoDup (TypedMap_Entries m).*1) ->
  let o' := match o with
            | Some m => if 0 <? TypedMap_Size m then Some (put_entries (canon_entry <$> TypedMap_Entries m)) else None
            | None => None
            end in
  step_refines
    ([To GItems; ToAllItems], if typed_map_given o then (fun m => Ok (NewNetworkInterfaceAddressItem m)) <$> o else None)
    ([To GItems; ToAllItems], if typed_map_given o' then (fun m => Ok (NewNetworkInterfaceAddressItem m)) <$> o' else None).
Proof.
  intros Hd o'. split; [done|]. subst o'. destruct o as [m|]; [|done]. specialize (Hd m eq_refl). cbn [typed_map_given].
  destruct (0 <? TypedMap_Size m) eqn:Hs; [|done]. cbn [snd fmap option_fmap option_map typed_map_given].
  rewrite TypedMap_Size_Entries, put_entries_canon by done. rewrite TypedMap_Size_Entries in Hs.
  unfold zlen in *. rewrite length_fmap, Hs. cbn. unfold NewNetworkInterfaceAddressItem.
  rewrite put_entries_canon by done. by rewrite interface_map_entries.
Qed.

Lemma default_interface_refines (s : slice (option Prefix)) :
  let s' := if given s then canon_prefixes (elems s) else None in
  step_refines ([To GItems; ToAllItems], when (given s) (Ok (NewDefaultInterfaceAddressItem s)))
    ([To GItems; ToAllItems], when (given s') (Ok (NewDefaultInterfaceAddressItem s'))).
Proof.
  intros s'. split; [done|]. subst s'. cbn. destruct (given s) eqn:E; [|done]. cbn.
  destruct s as [[|p l]|]; try discriminate. cbn [elems default].
  change (given (canon_prefixes (p :: l))) with true. cbn [when]. unfold NewDefaultInterfaceAddressItem.
  by rewrite <- (canon_prefixes_build (p :: l)).
Qed.

(** Compiling a rule to the binary format and loading it builds the very rule
    that the source options build: a headless rule that can be constructed from
    its options is constructed, item for item, from their canonical form in any
    version from 2 on. *)
Theorem compiled_rule_builds_same nm v r d :
  source_options r -> 2 <= v -> NewDefaultHeadlessRule nm r = Ok d ->
  NewDefaultHeadlessRule nm (canon_default v false r) = Ok d.
Proof.
  intros Hso Hv. unfold NewDefaultHeadlessRule. intros H. inv_ok.
  erewrite (run_steps_refines _ _ empty_items a); [reflexivity| |exact E].
  pose proof Hso as [Hm Hs Hi Ha Hk].
  apply Forall2_app; [|apply Forall2_app; [destruct nm|]];
    unfold headless_steps, headless_network_steps, headless_adguard_steps; rewrite ?Hm, ?Hs, ?Hi, ?Ha;
    repeat apply Forall2_cons_2; try apply Forall2_nil_2;
    try apply (keep_refines _ _ (fun l => Ok (_ l))); try apply (keep_refines _ _ (fun l => cause _ (_ l)));
    try apply cidr_refines; try (apply network_address_refines, Hk); try apply default_interface_refines.
  - cbn [canon_default h_Domain h_DomainSuffix h_DomainMatcher]. rewrite andb_false_r. split; [done|]. cbn.
    destruct (given (h_Domain r) || given (h_DomainSuffix r)); [|done].
    destruct (NewDomainItem _ _) as [it| | |] eqn:En; try done. apply NewDomainItem_ok in En as ->.
    by rewrite (proj2 (Z.eqb_neq v 1)) by lia.
  - split; [done|]. cbn. by destruct (h_NetworkIsExpensive r).
  - split; [done|]. cbn. by destruct (h_NetworkIsConstrained r).
  - cbn [canon_default h_AdGuardDomain h_AdGuardDomainMatcher]. rewrite andb_false_r. split; [done|]. cbn.
    by destruct (given (h_AdGuardDomain r)).
Qed.

End SrsSafety.

(** ** Witnesses *)

Definition ex_rule_set : PlainRuleSet := MkPlainRuleSet (Some ex_rules).

Lemma addr4_plain x : 0 <= x < 2 ^ 32 -> addr_plain (Addr4 x).
Proof. done. Qed.

Lemma ex_headless_wf : default_wf ex_headless.
Proof.
  split; cbn [elems default ex_headless h_QueryType h_SourcePort h_Port h_Network h_DomainKeyword h_DomainRegex h_SourcePortRange
    h_PortRange h_ProcessName h_ProcessPath h_ProcessPathRegex h_PackageName h_PackageNameRegex h_WIFISSID h_WIFIBSSID
    h_SourceIPCIDR h_IPCIDR h_NetworkType h_NetworkInterfaceAddress h_DefaultInterfaceAddress].
  - intros l Hl. repeat apply elem_of_cons in Hl as [->|Hl]; try (by apply not_elem_of_nil in Hl);
      (split; [vm_compute; reflexivity|repeat constructor; unfold is_uint16; lia]).
  - intros l Hl. repeat apply elem_of_cons in Hl as [->|Hl]; try (by apply not_elem_of_nil in Hl);
      (split; [vm_compute; reflexivity|repeat constructor; vm_compute; reflexivity]).
  - intros l s Hl Hne Hs. repeat apply elem_of_cons in Hl as [->|Hl]; try (by apply not_elem_of_nil in Hl); try done;
      vm_compute in Hs; injection Hs as <-.
    split; [vm_compute; reflexivity|]. repeat constructor; cbn; lia.
  - vm_compute. reflexivity.
  - done.
  - split; [vm_compute; reflexivity|apply Forall_nil_2].
Qed.

Lemma ex_rule_set_wf : rule_set_wf ex_rule_set.
Proof.
  assert (Hd : rule_wf (default_headless ex_headless)) by (split; [apply ex_headless_wf|done]).
  split; [vm_compute; reflexivity|]. apply Forall_cons_2; [exact Hd|]. apply Forall_cons_2; [|apply Forall_nil_2].
  split; [apply zero_headless_wf|]. by split; [vm_compute|].
Qed.

Lemma ex_write : is_ok (Write ex_rule_set 3) = true.
Proof. vm_compute. reflexivity. Qed.

Lemma srs_roundtrip_witness :
  exists content, Write ex_rule_set 3 = Ok content
    /\ Read false content = Ok (MkCompat 3 (MkPlainRuleSet (Some (canon 3 false <$> ex_rules)))).
Proof.
  pose proof ex_write as H. destruct (Write ex_rule_set 3) as [content| | |] eqn:E; try discriminate.
  exists content. split; [done|]. apply (srs_roundtrip 3 false ex_rule_set content); [done|apply ex_rule_set_wf|exact E].
Defined.

Lemma srs_read_terminates_witness : Read (X := concrete) true [83; 82; 83; 1; 255] <> Diverge.
Proof. apply srs_read_terminates. Defined.

Lemma srs_read_panics_on_huge_length_witness :
  Read false (MagicBytes ++ [1] ++ zlib_compress (PutUvarint (2 ^ 63) ++ []))
  = Panic "runtime error: makeslice: len out of range".
Proof. apply (srs_read_panics_on_huge_length false 1 (2 ^ 63) []); unfold RuleSetVersionCurrent; lia. Defined.

Lemma downgrade_writes_same_rules_witness :
  downgradeRuleSetVersion 5 ex_rules = 2 /\ write_rules (downgradeRuleSetVersion 5 ex_rules) ex_rules = write_rules 5 ex_rules.
Proof. split; [vm_compute; reflexivity|]. apply (downgrade_writes_same_rules 5 ex_rules). lia. Defined.

Lemma compiled_rule_builds_same_witness :
  exists d, NewDefaultHeadlessRule true ex_headless = Ok d
    /\ NewDefaultHeadlessRule true (canon_default 2 false ex_headless) = Ok d.
Proof.
  pose proof ex_headless_ok as H. destruct (NewDefaultHeadlessRule true ex_headless) as [d| | |] eqn:E; try discriminate.
  exists d. split; [done|]. apply (compiled_rule_builds_same true 2 ex_headless d); [by split|lia|exact E].
Defined.
