(* ===== verification/FakeIP.v ===== *)
(** * FakeIP

    dns/transport/fakeip: the address allocator ([store.go]) and the in-memory
    storage ([memory.go]), and the metadata that persists the allocator's
    position (adapter/fakeip_metadata.go).

    [FakeIPStorage] is the interface adapter.FakeIPStorage as a type class, with
    what the allocator relies on as [FakeIPStorageLaws]; the memory storage is an
    instance of both.  The locks of the source make [Create] atomic, so a run is a
    sequence of operations. *)

From S2P Require Import Prelude GoStd Netip.
Local Open Scope Z_scope.

(** ** adapter.FakeIPMetadata *)

Record FakeIPMetadata := {
  Inet4Range : Prefix;
  Inet6Range : Prefix;
  Inet4Current : Addr;
  Inet6Current : Addr
}.

(** [netip.Addr.MarshalBinary], [netip.Prefix.MarshalBinary] and their inverses;
    an address longer than sixteen bytes carries a zone. *)
Definition Addr_MarshalBinary (a : Addr) : bytes :=
  AsSlice a ++ match a with Addr6 _ z => bytes_of_string z | _ => [] end.
Definition Addr_UnmarshalBinary (b : bytes) : outcome Addr :=
  if zlen b =? 0 then Ok addr_zero
  else if zlen b =? 4 then Ok (Addr4 (be_val b))
  else if zlen b =? 16 then Ok (Addr6 (be_val b) "")
  else if 16 <? zlen b then Ok (Addr6 (be_val (take 16 b)) (string_of_bytes (drop 16 b)))
  else Err (EExternal "unexpected slice size").
Definition Prefix_MarshalBinary (p : Prefix) : bytes :=
  Addr_MarshalBinary (without_zone (p_addr p)) ++ [uint 8 (p_bits p)].
Definition Prefix_UnmarshalBinary (b : bytes) : outcome Prefix :=
  match rev b with
  | [] => Err (EExternal "unexpected slice size")
  | bits :: front =>
      let* a := Addr_UnmarshalBinary (rev front) in
      Ok (PrefixFrom a bits)
  end.

Definition marshal_element (b : bytes) : bytes := be_bytes 2 (uint 16 (zlen b)) ++ b.
Definition MarshalBinary (m : FakeIPMetadata) : bytes :=
  marshal_element (Prefix_MarshalBinary (Inet4Range m)) ++ marshal_element (Prefix_MarshalBinary (Inet6Range m))
  ++ marshal_element (Addr_MarshalBinary (Inet4Current m)) ++ marshal_element (Addr_MarshalBinary (Inet6Current m)).

(** [common.Must] panics on an error. *)
Definition must {A} (m : outcome A) : outcome A :=
  match m with Err _ => Panic "common.Must" | m => m end.
Definition unmarshal_element {A} (f : bytes -> outcome A) : reader A := fun st =>
  let* (length_, st) := must (ReadUint 2 st) in
  let* (element, st) := ReadFull length_ st in
  let* a := f element in
  Ok (a, st).
Definition UnmarshalBinary (data : bytes) : outcome FakeIPMetadata :=
  let* (r4, st) := unmarshal_element Prefix_UnmarshalBinary (Stream data EOF) in
  let* (r6, st) := unmarshal_element Prefix_UnmarshalBinary st in
  let* (c4, st) := unmarshal_element Addr_UnmarshalBinary st in
  let* (c6, st) := unmarshal_element Addr_UnmarshalBinary st in
  Ok {| Inet4Range := r4; Inet6Range := r6; Inet4Current := c4; Inet6Current := c6 |}.

(** ** adapter.FakeIPStorage *)

(** The operations the allocator calls.  [FakeIPMetadata] may change the storage
    (the cache file consumes what it returns); the error of [FakeIPStore] is only
    logged by the caller. *)
Class FakeIPStorage (S : Type) := {
  FakeIPMetadata_ : S -> option FakeIPMetadata * S;
  FakeIPSaveMetadata : FakeIPMetadata -> S -> S;
  FakeIPSaveMetadataAsync : FakeIPMetadata -> S -> S;
  FakeIPStore : Addr -> string -> S -> S;
  FakeIPLoad : S -> Addr -> option string;
  FakeIPLoadDomain : S -> string -> bool -> option Addr;
  FakeIPReset : S -> S
}.

(** The addresses and names the allocator stores: a plain address and the name
    of a DNS question. *)
Definition storable_addr (a : Addr) : Prop := addr_plain a /\ IsValid a = true.
Definition dns_name (d : string) : Prop := d <> "" /\ str_len d <= 255.
Definition storable (a : Addr) (d : string) : Prop := storable_addr a /\ dns_name d.

(** The two directions of a storage agree, per address family. *)
Definition coherent {S} `{FakeIPStorage S} (s : S) : Prop :=
  forall d v6 a, FakeIPLoadDomain s d v6 = Some a <-> storable a d /\ FakeIPLoad s a = Some d /\ negb (Is4 a) = v6.

(** Two states of a storage that answer every query alike. *)
Definition same_data {S} `{FakeIPStorage S} (s s' : S) : Prop :=
  (forall a, FakeIPLoad s a = FakeIPLoad s' a)
  /\ (forall d v6, FakeIPLoadDomain s d v6 = FakeIPLoadDomain s' d v6).

Class FakeIPStorageLaws (S : Type) `{FakeIPStorage S} := {
  storage_ok : S -> Prop;
  ok_coherent : forall s, storage_ok s -> coherent s;
  store_ok : forall s a d,
    storage_ok s -> storable a d -> FakeIPLoadDomain s d (negb (Is4 a)) = None -> storage_ok (FakeIPStore a d s);
  store_load : forall s a d b,
    storage_ok s -> storable a d -> storable_addr b ->
    FakeIPLoad (FakeIPStore a d s) b = if decide (b = a) then Some d else FakeIPLoad s b;
  save_async_ok : forall m s, storage_ok s -> storage_ok (FakeIPSaveMetadataAsync m s);
  save_async_data : forall m s, same_data (FakeIPSaveMetadataAsync m s) s;
  metadata_ok : forall s, storage_ok s -> storage_ok (FakeIPMetadata_ s).2;
  reset_ok : forall s, storage_ok s -> storage_ok (FakeIPReset s)
}.

(** Storing a fresh name under [a] keeps the two directions in agreement, when the
    name that had [a] loses its entry. *)
Lemma coherent_update {S} `{FakeIPStorage S} (s s' : S) a d :
  coherent s -> storable a d -> FakeIPLoadDomain s d (negb (Is4 a)) = None ->
  (forall b, storable_addr b -> FakeIPLoad s' b = if decide (b = a) then Some d else FakeIPLoad s b) ->
  (forall e v6, FakeIPLoadDomain s' e v6
     = if decide (v6 = negb (Is4 a)) then
         if decide (e = d) then Some a
         else if decide (FakeIPLoad s a = Some e) then None else FakeIPLoadDomain s e v6
       else FakeIPLoadDomain s e v6) ->
  coherent s'.
Proof.
  intros Hc Hst Hd Hl Hld e v6 b. rewrite Hld. pose proof (Hc e v6 b) as Hb.
  assert (Hnone : ~ (storable b d /\ FakeIPLoad s b = Some d /\ negb (Is4 b) = negb (Is4 a))).
  { intros Hx. apply Hc in Hx. congruence. }
  assert (Hiff : (b = a -> ~ (FakeIPLoad s b = Some e /\ negb (Is4 b) = v6) /\ ~ (d = e /\ negb (Is4 b) = v6)) ->
    storable b e /\ FakeIPLoad s b = Some e /\ negb (Is4 b) = v6
    <-> storable b e /\ FakeIPLoad s' b = Some e /\ negb (Is4 b) = v6).
  { intros Hne. split; intros ([Hs Hd'] & Hlb & Hf); (split; [done|]); specialize (Hl b Hs);
      destruct (decide (b = a)) as [Hba|Hba]; try (rewrite Hl in * ); try done; exfalso; apply (Hne Hba); naive_solver. }
  destruct (decide (v6 = negb (Is4 a))) as [->|Hv].
  - destruct (decide (e = d)) as [->|He].
    + split; [intros [= <-]; rewrite Hl by apply Hst; by rewrite decide_True|].
      intros ([Hs ?] & Hlb & Hf). rewrite Hl in Hlb by done. destruct (decide (b = a)); [by subst|]. by destruct Hnone.
    + destruct (decide (FakeIPLoad s a = Some e)) as [Hle|Hle].
      * split; [done|]. intros ([Hs ?] & Hlb & Hf). rewrite Hl in Hlb by done.
        destruct (decide (b = a)) as [->|Hba]; [congruence|].
        assert (FakeIPLoadDomain s e (negb (Is4 a)) = Some b) as H1 by (apply Hc; done).
        assert (FakeIPLoadDomain s e (negb (Is4 a)) = Some a) as H2 by (apply Hc; split; [split; [apply Hst|done]|done]).
        congruence.
      * rewrite Hb. apply Hiff. intros ->. split; intros [? ?]; congruence.
  - rewrite Hb. apply Hiff. intros ->. split; intros [? ?]; congruence.
Qed.

(** ** memory.go *)

Module Memory.

Record MemoryStorage := {
  addressCache : gmap Addr string;
  domainCache4 : gmap string Addr;
  domainCache6 : gmap string Addr
}.

Definition NewMemoryStorage : MemoryStorage := {| addressCache := ∅; domainCache4 := ∅; domainCache6 := ∅ |}.

(** [FakeIPStore]: the old domain of the address loses its entry. *)
Definition store (address : Addr) (domain : string) (s : MemoryStorage) : MemoryStorage :=
  let s := match addressCache s !! address with
           | Some oldDomain =>
               if Is4 address then
                 {| addressCache := addressCache s; domainCache4 := delete oldDomain (domainCache4 s);
                    domainCache6 := domainCache6 s |}
               else
                 {| addressCache := addressCache s; domainCache4 := domainCache4 s;
                    domainCache6 := delete oldDomain (domainCache6 s) |}
           | None => s
           end in
  if Is4 address then
    {| addressCache := <[address := domain]> (addressCache s); domainCache4 := <[domain := address]> (domainCache4 s);
       domainCache6 := domainCache6 s |}
  else
    {| addressCache := <[address := domain]> (addressCache s); domainCache4 := domainCache4 s;
       domainCache6 := <[domain := address]> (domainCache6 s) |}.

Definition load (s : MemoryStorage) (address : Addr) : option string := addressCache s !! address.
Definition load_domain (s : MemoryStorage) (domain : string) (isIPv6 : bool) : option Addr :=
  if negb isIPv6 then domainCache4 s !! domain else domainCache6 s !! domain.

#[export] Instance memory_storage : FakeIPStorage MemoryStorage := {|
  FakeIPMetadata_ := fun s => (None, s);
  FakeIPSaveMetadata := fun _ s => s;
  FakeIPSaveMetadataAsync := fun _ s => s;
  FakeIPStore := store;
  FakeIPLoad := load;
  FakeIPLoadDomain := load_domain;
  FakeIPReset := fun _ => NewMemoryStorage
|}.

Lemma load_store s a d b : load (store a d s) b = if decide (b = a) then Some d else load s b.
Proof.
  unfold store, load. destruct (addressCache s !! a), (Is4 a); cbn [addressCache];
    (destruct (decide (b = a)) as [->|]; [by rewrite lookup_insert_eq|by rewrite lookup_insert_ne]).
Qed.

Lemma load_domain_store s a d e v6 :
  load_domain (store a d s) e v6
  = if decide (v6 = negb (Is4 a)) then
      if decide (e = d) then Some a
      else if decide (load s a = Some e) then None else load_domain s e v6
    else load_domain s e v6.
Proof.
  unfold store, load_domain, load.
  destruct (Is4 a), v6, (addressCache s !! a) as [old|]; cbn;
    repeat (destruct (decide _)); simplify_eq; try done;
    rewrite ?lookup_insert_eq, ?lookup_insert_ne by done; try done;
    rewrite ?lookup_delete_eq; try done; rewrite lookup_delete_ne by congruence; done.
Qed.

Lemma new_memory_coherent : coherent NewMemoryStorage.
Proof.
  intros d v6 a. cbn. unfold load_domain, load, NewMemoryStorage. cbn.
  destruct v6; cbn; rewrite !lookup_empty; naive_solver.
Qed.

#[export] Instance memory_laws : FakeIPStorageLaws MemoryStorage.
Proof.
  refine {| storage_ok := coherent |}; try done.
  - intros s a d Hc Hst Hd. apply (coherent_update s _ a d); auto using load_store, load_domain_store.
  - intros. apply load_store.
  - intros. apply new_memory_coherent.
Defined.

End Memory.

(** ** store.go *)

Section Store.
Context {S : Type} `{HS : FakeIPStorage S}.

(** [storage] is nil until [Start]. *)
Record Store := {
  inet4Range : Prefix;
  inet6Range : Prefix;
  inet4Last : Addr;
  inet6Last : Addr;
  storage : option S;
  inet4Current : Addr;
  inet6Current : Addr
}.

(** [netip.Addr.As16] *)
Definition As16 (a : Addr) : bytes :=
  match a with Addr4 v => be_bytes 16 (0xffff * 2 ^ 32 + v) | a => be_bytes 16 (addr_val a) end.

(** [raw[i/8] |= 1 << (7 - i%8)] *)
Definition set_bit (raw : bytes) (i : Z) : bytes :=
  match raw !! Z.to_nat (i / 8) with
  | Some b => <[Z.to_nat (i / 8) := Z.lor b (Z.shiftl 1 (7 - i mod 8))]> raw
  | None => raw
  end.
(** [for i := bits; i < 128; i++]: [n] iterations are left. *)
Fixpoint set_bits (n : nat) (i : Z) (raw : bytes) : bytes :=
  match n with
  | O => raw
  | Datatypes.S n' => set_bits n' (i + 1) (set_bit raw i)
  end.
Definition broadcastAddress (prefix : Prefix) : Addr :=
  let addr := p_addr prefix in
  let raw := As16 addr in
  let bits := if Is4 addr then p_bits prefix + 96 else p_bits prefix in
  let raw := set_bits (Z.to_nat (128 - bits)) bits raw in
  if Is4 addr then Addr4 (be_val (drop 12 raw)) else Addr6 (be_val raw) "".

Definition NewStore (r4 r6 : Prefix) : Store :=
  {| inet4Range := r4; inet6Range := r6;
     inet4Last := if PrefixIsValid r4 then broadcastAddress r4 else addr_zero;
     inet6Last := if PrefixIsValid r6 then broadcastAddress r6 else addr_zero;
     storage := None; inet4Current := addr_zero; inet6Current := addr_zero |}.

Definition with_state (st : Store) (s : S) (c4 c6 : Addr) : Store :=
  {| inet4Range := inet4Range st; inet6Range := inet6Range st; inet4Last := inet4Last st; inet6Last := inet6Last st;
     storage := Some s; inet4Current := c4; inet6Current := c6 |}.

Definition metadata_of (st : Store) (c4 c6 : Addr) : FakeIPMetadata :=
  {| Inet4Range := inet4Range st; Inet6Range := inet6Range st; Inet4Current := c4; Inet6Current := c6 |}.

(** [Start] on the storage it chose (the cache file, or a new memory storage):
    continue where the storage left off if the ranges are the same. *)
Definition Store_Start (s : S) (st : Store) : Store :=
  let '(metadata, s) := FakeIPMetadata_ s in
  let fresh r current := if PrefixIsValid r then Next (p_addr r) else current in
  let reset := with_state st (FakeIPReset s) (fresh (inet4Range st) (inet4Current st))
                 (fresh (inet6Range st) (inet6Current st)) in
  match metadata with
  | Some m =>
      if bool_decide (Inet4Range m = inet4Range st) && bool_decide (Inet6Range m = inet6Range st)
      then with_state st s (Inet4Current m) (Inet6Current m)
      else reset
  | None => reset
  end.

Definition Store_Contains (st : Store) (a : Addr) : bool :=
  Contains (inet4Range st) a || Contains (inet6Range st) a.

Definition Store_Close (st : Store) : Store :=
  match storage st with
  | None => st
  | Some s =>
      let metadata := metadata_of st (inet4Current st) (inet6Current st) in
      with_state st (FakeIPSaveMetadata metadata s) (inet4Current st) (inet6Current st)
  end.

(** The address after [current]; the first usable address when the range ends. *)
Definition next_address (range : Prefix) (last current : Addr) : Addr :=
  let nextAddress := Next current in
  if bool_decide (nextAddress = last) || negb (Contains range nextAddress)
  then Next (Next (p_addr range)) else nextAddress.

(** [Create].  The lock makes the second look-up of the name, the choice of the
    address and the store one step; a call on a store that was not started
    dereferences the nil storage. *)
Definition Create (domain : string) (isIPv6 : bool) (st : Store) : outcome Addr * Store :=
  match storage st with
  | None => (Panic "nil pointer dereference", st)
  | Some s =>
      match FakeIPLoadDomain s domain isIPv6 with
      | Some address => (Ok address, st)
      | None =>
          if negb isIPv6 then
            if negb (IsValid (inet4Current st)) then (Err (ENew "missing IPv4 fakeip address range"), st)
            else
              let address := next_address (inet4Range st) (inet4Last st) (inet4Current st) in
              let s := FakeIPStore address domain s in
              let s := FakeIPSaveMetadataAsync (metadata_of st address (inet6Current st)) s in
              (Ok address, with_state st s address (inet6Current st))
          else
            if negb (IsValid (inet6Current st)) then (Err (ENew "missing IPv6 fakeip address range"), st)
            else
              let address := next_address (inet6Range st) (inet6Last st) (inet6Current st) in
              let s := FakeIPStore address domain s in
              let s := FakeIPSaveMetadataAsync (metadata_of st (inet4Current st) address) s in
              (Ok address, with_state st s (inet4Current st) address)
      end
  end.

Definition Lookup (st : Store) (a : Addr) : outcome (option string) :=
  match storage st with
  | None => Panic "nil pointer dereference"
  | Some s => Ok (FakeIPLoad s a)
  end.
Definition Store_Reset (st : Store) : outcome Store :=
  match storage st with
  | None => Panic "nil pointer dereference"
  | Some s => Ok (with_state st (FakeIPReset s) (inet4Current st) (inet6Current st))
  end.

End Store.

Arguments Store S : clear implicits.
