(* ===== verification/FakeIPSpec.v ===== *)
(** * FakeIP: correctness

    The broadcast address as arithmetic, the metadata round trip, and the
    allocator: what [Create] returns, what it keeps, and how long a name keeps
    its address.  Proved against the storage interface of [FakeIP]. *)

From S2P Require Import Prelude GoStd Netip FakeIP.
Local Open Scope Z_scope.

(** ** Bits of big-endian byte lists *)

Lemma be_val_app l1 l2 : be_val (l1 ++ l2) = Z.lor (Z.shiftl (be_val l1) (8 * zlen l2)) (be_val l2).
Proof.
  induction l2 as [|b l2 IH] using rev_ind.
  { rewrite app_nil_r. change (zlen []) with 0. change (be_val []) with 0. by rewrite Z.shiftl_0_r, Z.lor_0_r. }
  rewrite app_assoc, !be_val_snoc, IH, zlen_app. change (zlen [b]) with 1.
  rewrite Z.shiftl_lor, Z.shiftl_shiftl by (pose proof (zlen_nonneg l2); lia).
  replace (8 * zlen l2 + 8) with (8 * (zlen l2 + 1)) by lia. by rewrite Z.lor_assoc.
Qed.

Lemma length_set_bit raw i : length (set_bit raw i) = length raw.
Proof. unfold set_bit. case_match; [apply length_insert|done]. Qed.

Lemma be_val_set_bit raw i :
  0 <= i < 8 * zlen raw -> be_val (set_bit raw i) = Z.lor (be_val raw) (2 ^ (8 * zlen raw - 1 - i)).
Proof.
  intros Hi. unfold set_bit. pose proof (Z.div_mod i 8). pose proof (Z.mod_pos_bound i 8).
  assert (Hlt : (Z.to_nat (i / 8) < length raw)%nat) by (unfold zlen in *; lia).
  destruct (lookup_lt_is_Some_2 raw _ Hlt) as [b Hb]. rewrite Hb.
  pose proof (take_drop_middle raw _ b Hb) as Hraw. set (l1 := take _ raw) in *. set (l2 := drop _ raw) in *.
  replace (<[_ := _]> raw) with (l1 ++ Z.lor b (Z.shiftl 1 (7 - i mod 8)) :: l2).
  2: { rewrite <- Hraw, insert_app_r_alt by (unfold l1; rewrite length_take; lia).
       unfold l1. rewrite length_take, Nat.min_l, Nat.sub_diag by lia. done. }
  replace (be_val raw) with (be_val (l1 ++ b :: l2)) by (by rewrite Hraw).
  change (b :: l2) with ([b] ++ l2). change (?x :: l2) with ([x] ++ l2). rewrite !be_val_app.
  assert (Hone : forall x, be_val [x] = x) by (intros x; unfold be_val; cbn [fold_left]; by rewrite Z.shiftl_0_l, Z.lor_0_l).
  rewrite !Hone. rewrite Z.shiftl_lor, Z.shiftl_shiftl by lia.
  assert (Hl2 : zlen l2 = zlen raw - 1 - i / 8) by (unfold zlen, l2 in *; rewrite length_drop; lia).
  replace (Z.shiftl 1 (7 - i mod 8 + 8 * zlen l2)) with (2 ^ (8 * zlen raw - 1 - i)).
  2: { rewrite Z.shiftl_1_l. f_equal. lia. }
  rewrite !zlen_app. change (zlen [_]) with 1. rewrite <- !Z.lor_assoc. f_equal. f_equal. apply Z.lor_comm.
Qed.

Lemma set_bits_val n raw :
  Z.of_nat n <= 8 * zlen raw ->
  be_val (set_bits n (8 * zlen raw - Z.of_nat n) raw) = Z.lor (be_val raw) (Z.ones (Z.of_nat n))
  /\ zlen (set_bits n (8 * zlen raw - Z.of_nat n) raw) = zlen raw.
Proof.
  revert raw; induction n as [|n IH]; intros raw Hn.
  { cbn [set_bits]. change (Z.ones (Z.of_nat 0)) with 0. by rewrite Z.lor_0_r. }
  cbn [set_bits]. assert (Hlen : forall i, zlen (set_bit raw i) = zlen raw) by (intros; unfold zlen; by rewrite length_set_bit).
  replace (8 * zlen raw - Z.of_nat (S n) + 1)
    with (8 * zlen (set_bit raw (8 * zlen raw - Z.of_nat (S n))) - Z.of_nat n) by (rewrite Hlen; lia).
  destruct (IH (set_bit raw (8 * zlen raw - Z.of_nat (S n)))) as [Hv Hl]; [rewrite Hlen; lia|].
  rewrite Hv, Hl, Hlen. split; [|done]. rewrite be_val_set_bit by lia.
  replace (8 * zlen raw - 1 - (8 * zlen raw - Z.of_nat (S n))) with (Z.of_nat n) by lia.
  rewrite <- Z.lor_assoc. f_equal.
  rewrite !Z.ones_equiv, Z.lor_comm, <- (Z.mul_1_l (2 ^ Z.of_nat n)) at 1.
  rewrite Nat2Z.inj_succ, Z.pow_succ_r by lia. pose proof (Z.pow_pos_nonneg 2 (Z.of_nat n)).
  rewrite <- (Z.mul_1_l (2 ^ Z.of_nat n)) at 2. rewrite lor_disjoint; lia.
Qed.

Lemma be_val_bytes_mod n x : be_val (be_bytes n x) = x mod 2 ^ (8 * Z.of_nat n).
Proof.
  revert x; induction n as [|n IH]; intros x; cbn [be_bytes].
  { change (2 ^ (8 * Z.of_nat 0)) with 1. by rewrite Z.mod_1_r. }
  rewrite be_val_snoc, lor_shiftl_byte, IH by apply uint8_is_byte.
  replace (8 * Z.of_nat (S n)) with (8 + 8 * Z.of_nat n) by lia.
  rewrite Z.pow_add_r, Z.rem_mul_r by (try apply Z.pow_pos_nonneg; try apply Z.pow_nonzero; lia).
  rewrite Z.shiftr_div_pow2 by lia. unfold uint. change (2 ^ 8) with 256. lia.
Qed.

Lemma drop_be_bytes m n x : drop m (be_bytes (m + n) x) = be_bytes n x.
Proof.
  revert x; induction n as [|n IH]; intros x.
  { rewrite Nat.add_0_r. apply drop_ge. by rewrite length_be_bytes. }
  rewrite Nat.add_succ_r. cbn [be_bytes]. rewrite drop_app_le by (rewrite length_be_bytes; lia). by rewrite IH.
Qed.

Lemma drop_set_bit (m : nat) raw i :
  0 <= i -> drop m (set_bit raw (i + 8 * Z.of_nat m)) = set_bit (drop m raw) i.
Proof.
  intros Hi. unfold set_bit. rewrite Z.mul_comm, Z.div_add, Z.mod_add by lia.
  rewrite Z2Nat.inj_add, Nat2Z.id, lookup_drop, Nat.add_comm by (try apply Z.div_pos; lia).
  destruct (raw !! _); [|done]. rewrite drop_insert_ge by lia. f_equal. lia.
Qed.

Lemma drop_set_bits (m n : nat) raw i :
  0 <= i -> drop m (set_bits n (i + 8 * Z.of_nat m) raw) = set_bits n i (drop m raw).
Proof.
  revert raw i; induction n as [|n IH]; intros raw i Hi; cbn [set_bits]; [done|].
  rewrite <- drop_set_bit, <- IH by lia. do 2 f_equal. lia.
Qed.

(** ** The broadcast address *)

(** The address of the family of [a] with the value [v]. *)
Definition mk_like (a : Addr) (v : Z) : Addr :=
  match a with Addr4 _ => Addr4 v | Addr6 _ z => Addr6 v z | AddrInvalid _ => AddrInvalid v end.

(** The number of host bits of a prefix. *)
Definition host_bits (p : Prefix) : Z := BitLen (p_addr p) - p_bits p.

Lemma prefix_valid_facts p :
  prefix_ok p -> PrefixIsValid p = true ->
  storable_addr (p_addr p) /\ 0 <= p_bits p <= BitLen (p_addr p).
Proof.
  destruct p as [a bits]. intros [Hpl Heq] Hv. unfold PrefixIsValid, PrefixFrom, storable_addr in *.
  cbn [p_addr p_bits] in *. injection Heq as Ha Hb. rewrite Hb in Hv. to_prop.
  destruct (negb _ && _ && _) eqn:Hc; [|lia]. to_prop. split; [|lia]. split; [done|].
  destruct (IsValid a) eqn:E; [done|]. destruct Hpl as (_ & _ & Hx). by specialize (Hx E).
Qed.

(** [broadcastAddress] sets exactly the host bits. *)
Lemma broadcastAddress_val p :
  prefix_ok p -> PrefixIsValid p = true ->
  broadcastAddress p = mk_like (p_addr p) (Z.lor (addr_val (p_addr p)) (Z.ones (host_bits p))).
Proof.
  intros Hok Hv. destruct (prefix_valid_facts p Hok Hv) as [[(Hwf & Hz & _) Hval] Hb].
  unfold broadcastAddress, host_bits. destruct (p_addr p) as [v|v|v z]; [done| |]; cbn [Is4 BitLen mk_like addr_val addr_wf As16] in *.
  - f_equal. replace (p_bits p + 96) with (p_bits p + 8 * Z.of_nat 12) by lia. rewrite drop_set_bits by lia.
    change 16%nat with (12 + 4)%nat. rewrite drop_be_bytes.
    set (raw := be_bytes 4 _). assert (Hl : zlen raw = 4) by (unfold zlen, raw; by rewrite length_be_bytes).
    replace (Z.to_nat (128 - (p_bits p + 8 * Z.of_nat 12))) with (Z.to_nat (32 - p_bits p)) by lia.
    replace (p_bits p) with (8 * zlen raw - Z.of_nat (Z.to_nat (32 - p_bits p))) at 2 by lia.
    rewrite (proj1 (set_bits_val (Z.to_nat (32 - p_bits p)) raw ltac:(lia))). unfold raw. rewrite be_val_bytes_mod, Z2Nat.id by lia.
    f_equal. rewrite Z.add_comm, Z.mod_add by lia. apply Z.mod_small. lia.
  - apply negb_false_iff, bool_decide_eq_true in Hz as ->. f_equal.
    set (raw := be_bytes 16 _). assert (Hl : zlen raw = 16) by (unfold zlen, raw; by rewrite length_be_bytes).
    replace (p_bits p) with (8 * zlen raw - Z.of_nat (Z.to_nat (128 - p_bits p))) at 2 by lia.
    rewrite (proj1 (set_bits_val (Z.to_nat (128 - p_bits p)) raw ltac:(lia))). unfold raw. by rewrite be_val_bytes, Z2Nat.id by lia.
Qed.

(** The broadcast address as arithmetic. *)
Lemma lor_ones_arith v h : 0 <= h -> 0 <= v -> Z.lor v (Z.ones h) = v / 2 ^ h * 2 ^ h + (2 ^ h - 1).
Proof.
  intros Hh Hv. pose proof (Z.pow_pos_nonneg 2 h).
  apply Z.bits_inj'. intros n Hn. rewrite Z.lor_spec.
  replace (v / 2 ^ h * 2 ^ h + (2 ^ h - 1)) with (Z.lor (Z.ones h) (v / 2 ^ h * 2 ^ h)).
  2: { rewrite lor_disjoint by (rewrite ?Z.ones_equiv; lia). rewrite Z.ones_equiv. lia. }
  rewrite Z.lor_spec. destruct (Z.ltb_spec n h).
  - rewrite Z.ones_spec_low by lia. by rewrite orb_true_r.
  - rewrite Z.ones_spec_high, orb_false_r, orb_false_l by lia.
    rewrite Z.mul_pow2_bits by lia. rewrite Z.div_pow2_bits by lia. f_equal. lia.
Qed.

(** ** Positions of the allocator *)

(** The value of the range's own address and of its broadcast address. *)
Definition range_base (r : Prefix) : Z := addr_val (p_addr r).
Definition range_last (r : Prefix) : Z := addr_val (broadcastAddress r).

(** A range with an address to hand out: at least one lies strictly between the
    second address and the broadcast address. *)
Definition usable (r : Prefix) : Prop :=
  prefix_ok r /\ PrefixIsValid r = true /\ range_base r + 3 <= range_last r.

(** The position after [x], and the number of positions handed out in a cycle. *)
Definition succ_pos (r : Prefix) (x : Z) : Z := if x + 1 =? range_last r then range_base r + 2 else x + 1.
Definition capacity (r : Prefix) : Z := range_last r - range_base r - 2.

Section Range.
Variable r : Prefix.
Hypothesis Hu : usable r.

Lemma range_facts :
  storable_addr (p_addr r) /\ 0 <= host_bits r /\ 0 <= range_base r
  /\ range_last r = range_base r / 2 ^ host_bits r * 2 ^ host_bits r + (2 ^ host_bits r - 1)
  /\ range_last r < 2 ^ BitLen (p_addr r).
Proof.
  destruct Hu as (Hok & Hv & _). destruct (prefix_valid_facts r Hok Hv) as [Hs Hb].
  assert (Hwf : 0 <= range_base r < 2 ^ BitLen (p_addr r)).
  { destruct Hs as [(Hwf & _ & _) Hval]. unfold range_base. by destruct (p_addr r). }
  assert (Hh : 0 <= host_bits r) by (unfold host_bits; lia).
  assert (Hl : range_last r = range_base r / 2 ^ host_bits r * 2 ^ host_bits r + (2 ^ host_bits r - 1)).
  { unfold range_last. rewrite broadcastAddress_val by done. rewrite <- lor_ones_arith by (unfold range_base in *; lia).
    unfold range_base. by destruct (p_addr r). }
  repeat split; try done; try lia; try apply Hs.
  rewrite Hl. assert (2 ^ BitLen (p_addr r) = 2 ^ p_bits r * 2 ^ host_bits r) as Hp.
  { rewrite <- Z.pow_add_r by lia. f_equal. unfold host_bits. lia. }
  pose proof (Z.pow_pos_nonneg 2 (host_bits r)). pose proof (Z.pow_pos_nonneg 2 (p_bits r)).
  assert (range_base r / 2 ^ host_bits r < 2 ^ p_bits r) by (apply Z.div_lt_upper_bound; lia). nia.
Qed.

Lemma position_storable x : range_base r <= x <= range_last r -> storable_addr (mk_like (p_addr r) x).
Proof.
  destruct range_facts as ([(Hwf & Hz & _) Hv] & Hh & Hb & Hl & Hlt). intros Hx. unfold storable_addr, addr_plain.
  destruct (p_addr r) as [|v|v z]; cbn in *; [done| |]; repeat split; try done; lia.
Qed.

Lemma position_contained x : range_base r <= x <= range_last r -> Contains r (mk_like (p_addr r) x) = true.
Proof.
  destruct range_facts as ([(Hwf & Hz & _) Hv] & Hh & Hb & Hl & Hlt). destruct Hu as (_ & Hval & _). intros Hx.
  assert (Hdiv : x / 2 ^ host_bits r = range_base r / 2 ^ host_bits r).
  { pose proof (Z.pow_pos_nonneg 2 (host_bits r)). symmetry.
    apply (Z.div_unique x _ _ (x - 2 ^ host_bits r * (range_base r / 2 ^ host_bits r))); [left|lia].
    pose proof (Z.mul_div_le (range_base r) (2 ^ host_bits r)). lia. }
  assert (Hx0 : Z.shiftr (Z.lxor x (range_base r)) (host_bits r) = 0).
  { rewrite Z.shiftr_lxor, !Z.shiftr_div_pow2, Hdiv by lia. apply Z.lxor_nilpotent. }
  unfold Contains, host_bits, range_base in *. rewrite Hval.
  destruct (p_addr r) as [|v|v z]; [done| |]; cbn [negb has_zone orb mk_like BitLen addr_val Z.eqb] in *.
  - rewrite Hx0. done.
  - rewrite Hz. rewrite Hx0. done.
Qed.

Lemma Next_position x : range_base r <= x < range_last r -> Next (mk_like (p_addr r) x) = mk_like (p_addr r) (x + 1).
Proof.
  destruct range_facts as ([_ Hv] & Hh & Hb & Hl & Hlt). intros Hx.
  destruct (p_addr r) as [|v|v z]; cbn [mk_like Next BitLen] in *; [done| |];
    rewrite uint_small, (proj2 (Z.eqb_neq _ _)) by lia; done.
Qed.

Lemma broadcast_position : broadcastAddress r = mk_like (p_addr r) (range_last r).
Proof.
  destruct Hu as (Hok & Hv & _). unfold range_last. rewrite broadcastAddress_val by done.
  by destruct (p_addr r).
Qed.

Lemma mk_like_inj a x y : mk_like a x = mk_like a y -> x = y.
Proof. destruct a; cbn; congruence. Qed.

Lemma succ_pos_range x : range_base r < x < range_last r -> range_base r + 2 <= succ_pos r x < range_last r.
Proof. destruct Hu as (_ & _ & H3). unfold succ_pos. intros Hx. destruct (Z.eqb_spec (x + 1) (range_last r)); lia. Qed.

Lemma next_address_position x :
  range_base r < x < range_last r ->
  next_address r (broadcastAddress r) (mk_like (p_addr r) x) = mk_like (p_addr r) (succ_pos r x).
Proof.
  intros Hx. pose proof Hu as (_ & _ & H3). unfold next_address, succ_pos.
  rewrite Next_position, broadcast_position, position_contained by lia. cbn [negb]. rewrite orb_false_r.
  assert (Hbase : mk_like (p_addr r) (range_base r) = p_addr r) by (unfold range_base; by destruct (p_addr r)).
  assert (Next (Next (p_addr r)) = mk_like (p_addr r) (range_base r + 2)) as ->.
  { transitivity (Next (Next (mk_like (p_addr r) (range_base r)))); [by rewrite Hbase|].
    rewrite !Next_position by lia. by rewrite <- Z.add_assoc. }
  destruct (Z.eqb_spec (x + 1) (range_last r)) as [->|Hne].
  - by rewrite bool_decide_true.
  - rewrite bool_decide_false; [done|]. intros H%mk_like_inj. done.
Qed.

(** Positions go round in a cycle of [capacity] steps. *)
Lemma succ_pos_cycle i k :
  0 <= i < capacity r -> 0 <= k ->
  succ_pos r (range_base r + 2 + (i + k) mod capacity r) = range_base r + 2 + (i + (k + 1)) mod capacity r.
Proof.
  intros Hi Hk. unfold succ_pos, capacity in *. set (c := _ - _ - 2) in *.
  pose proof (Z.mod_pos_bound (i + k) c). rewrite Z.add_assoc, <- (Z.add_mod_idemp_l (i + k)) by lia.
  destruct (Z.eqb_spec (range_base r + 2 + (i + k) mod c + 1) (range_last r)) as [He|He].
  - replace ((i + k) mod c + 1) with c by lia. rewrite Z.mod_same by lia. lia.
  - rewrite (Z.mod_small ((i + k) mod c + 1)) by lia. lia.
Qed.

Lemma cycle_no_return i k : 0 <= i < capacity r -> 0 < k < capacity r -> (i + k) mod capacity r <> i.
Proof.
  intros Hi Hk He. pose proof (Z.div_mod (i + k) (capacity r)) as Hd. rewrite He in Hd.
  assert (0 < (i + k) / capacity r < 1) by nia. lia.
Qed.

End Range.

(** ** The allocator *)

Section Alloc.
Context {S : Type} `{HL : FakeIPStorageLaws S}.
Implicit Types (st : Store S) (s : S).

(** The fields of one address family. *)
Definition range_of st (v6 : bool) : Prefix := if v6 then inet6Range st else inet4Range st.
Definition last_of st (v6 : bool) : Addr := if v6 then inet6Last st else inet4Last st.
Definition current_of st (v6 : bool) : Addr := if v6 then inet6Current st else inet4Current st.
Definition advance st (v6 : bool) s (a : Addr) : Store S :=
  if v6 then with_state st s (inet4Current st) a else with_state st s a (inet6Current st).

(** A family is disabled, or its position is inside its usable range. *)
Definition family_inv st (v6 : bool) : Prop :=
  (PrefixIsValid (range_of st v6) = false /\ IsValid (current_of st v6) = false)
  \/ (usable (range_of st v6) /\ Is4 (p_addr (range_of st v6)) = negb v6
      /\ last_of st v6 = broadcastAddress (range_of st v6)
      /\ exists x, range_base (range_of st v6) < x < range_last (range_of st v6)
                   /\ current_of st v6 = mk_like (p_addr (range_of st v6)) x).

Definition store_inv_on st s : Prop :=
  storage st = Some s /\ storage_ok s /\ forall v6, family_inv st v6.
Definition store_inv st : Prop := exists s, store_inv_on st s.

Lemma Create_loaded st s d v6 a :
  storage st = Some s -> FakeIPLoadDomain s d v6 = Some a -> Create d v6 st = (Ok a, st).
Proof. intros Hs Hl. unfold Create. by rewrite Hs, Hl. Qed.

Lemma Create_fresh st s d v6 :
  storage st = Some s -> FakeIPLoadDomain s d v6 = None -> IsValid (current_of st v6) = true ->
  let a := next_address (range_of st v6) (last_of st v6) (current_of st v6) in
  exists m, Create d v6 st = (Ok a, advance st v6 (FakeIPSaveMetadataAsync m (FakeIPStore a d s)) a).
Proof.
  intros Hs Hl Hv. unfold Create. rewrite Hs, Hl. destruct v6; cbn [negb current_of] in *; rewrite Hv; cbn; eauto.
Qed.

Lemma range_of_advance st v6 s a w : range_of (advance st v6 s a) w = range_of st w.
Proof. by destruct v6, w. Qed.
Lemma last_of_advance st v6 s a w : last_of (advance st v6 s a) w = last_of st w.
Proof. by destruct v6, w. Qed.
Lemma current_of_advance st v6 s a w :
  current_of (advance st v6 s a) w = if decide (w = v6) then a else current_of st w.
Proof. by destruct v6, w. Qed.
Lemma storage_advance st v6 s a : storage (advance st v6 s a) = Some s.
Proof. by destruct v6. Qed.

(** One allocation, with the position before and after it. *)
Lemma Create_step st s d v6 x :
  store_inv_on st s -> usable (range_of st v6) -> dns_name d -> FakeIPLoadDomain s d v6 = None ->
  range_base (range_of st v6) < x < range_last (range_of st v6) ->
  current_of st v6 = mk_like (p_addr (range_of st v6)) x ->
  let a := mk_like (p_addr (range_of st v6)) (succ_pos (range_of st v6) x) in
  exists s', Create d v6 st = (Ok a, advance st v6 s' a) /\ store_inv_on (advance st v6 s' a) s'
    /\ Is4 a = negb v6
    /\ forall b, storable_addr b -> FakeIPLoad s' b = if decide (b = a) then Some d else FakeIPLoad s b.
Proof.
  intros (Hs & Hok & Hf) Hu Hd Hl Hx Hc a.
  destruct (Hf v6) as [[Hi _]|(_ & H4 & Hlast & _)]; [by destruct Hu as (_ & Hv & _); congruence|].
  pose proof (succ_pos_range _ Hu x Hx) as Hsx.
  assert (Hst : storable_addr a) by (apply (position_storable _ Hu); lia).
  assert (Ha : next_address (range_of st v6) (last_of st v6) (current_of st v6) = a)
    by (rewrite Hlast, Hc; by apply next_address_position).
  destruct (Create_fresh st s d v6 Hs Hl) as [m Hm].
  { rewrite Hc. apply (position_storable _ Hu). lia. }
  rewrite Ha in Hm. exists (FakeIPSaveMetadataAsync m (FakeIPStore a d s)).
  assert (Ha4 : Is4 a = negb v6) by (rewrite <- H4; unfold a; by destruct (p_addr _)).
  split; [done|]. split; [|split; [done|]].
  - split; [apply storage_advance|]. split.
    + apply save_async_ok, store_ok; [done..|]. by rewrite Ha4, negb_involutive.
    + intros w. unfold family_inv. rewrite range_of_advance, last_of_advance, current_of_advance.
      destruct (decide (w = v6)) as [->|]; [|apply Hf]. right. refine (conj Hu (conj H4 (conj Hlast _))).
      exists (succ_pos (range_of st v6) x). split; [lia|done].
  - intros b Hb. rewrite (proj1 (save_async_data m (FakeIPStore a d s))). by apply store_load.
Qed.

(** A stored name is found again. *)
Lemma Create_again st s d v6 a :
  store_inv_on st s -> storable a d -> Is4 a = negb v6 -> FakeIPLoad s a = Some d -> Create d v6 st = (Ok a, st).
Proof.
  intros (Hs & Hok & _) Hst H4 Hl. apply (Create_loaded st s); [done|].
  apply (ok_coherent s Hok). rewrite H4, negb_involutive. done.
Qed.

(** What [Create] returns looks up to the name. *)
Lemma Create_lookup st d v6 a st' :
  store_inv st -> dns_name d -> Create d v6 st = (Ok a, st') -> IsValid a = true /\ Lookup st' a = Ok (Some d).
Proof.
  intros [s Hinv] Hd Hcr. pose proof Hinv as (Hs & Hok & Hf). unfold Lookup.
  destruct (FakeIPLoadDomain s d v6) as [a'|] eqn:Hl.
  - rewrite (Create_loaded st s d v6 a' Hs Hl) in Hcr. injection Hcr as <- <-.
    apply (ok_coherent s Hok) in Hl as (((_ & Hv) & _) & Hload & _). by rewrite Hs, Hload.
  - destruct (Hf v6) as [[_ Hi]|(Hu & _ & _ & x & Hx & Hc)].
    { unfold Create in Hcr. rewrite Hs, Hl in Hcr. destruct v6; cbn [negb current_of] in *; by rewrite Hi in Hcr. }
    destruct (Create_step st s d v6 x Hinv Hu Hd Hl Hx Hc) as (s' & Hcr' & _ & _ & Hload).
    rewrite Hcr' in Hcr. injection Hcr as <- <-. pose proof (succ_pos_range _ Hu x Hx) as Hsx.
    assert (Hst : storable_addr (mk_like (p_addr (range_of st v6)) (succ_pos (range_of st v6) x)))
      by (apply (position_storable _ Hu); lia).
    rewrite storage_advance, Hload by done. split; [apply Hst|]. by rewrite decide_True.
Qed.

(** In a started store [Create] always succeeds for an enabled family and
    returns an address of that family which looks up to the name; asking again
    returns the same address and changes nothing; no other address changes what
    it looks up to; a new address lies in the range, above the second address and
    below the broadcast address; the invariant is kept. *)
Theorem fakeip_create_correct st d v6 :
  store_inv st -> PrefixIsValid (range_of st v6) = true -> dns_name d ->
  exists a st', Create d v6 st = (Ok a, st') /\ store_inv st'
    /\ Is4 a = negb v6 /\ Lookup st' a = Ok (Some d) /\ Create d v6 st' = (Ok a, st')
    /\ (forall b, storable_addr b -> b <> a -> Lookup st' b = Lookup st b)
    /\ (st' = st
        \/ Contains (range_of st v6) a = true
           /\ range_base (range_of st v6) + 2 <= addr_val a < range_last (range_of st v6)).
Proof.
  intros [s Hinv] Hv Hd. pose proof Hinv as (Hs & Hok & Hf).
  destruct (FakeIPLoadDomain s d v6) as [a|] eqn:Hl.
  - apply (ok_coherent s Hok) in Hl as Hc. destruct Hc as (Hst & Hload & H4). exists a, st.
    assert (Is4 a = negb v6) by (by rewrite <- H4, negb_involutive).
    assert (Hcr : Create d v6 st = (Ok a, st)) by (by eapply Create_loaded).
    unfold Lookup. rewrite Hs, Hload. repeat split; try done; [by exists s|by left].
  - destruct (Hf v6) as [[Hi _]|(Hu & _ & _ & x & Hx & Hc)]; [congruence|].
    destruct (Create_step st s d v6 x Hinv Hu Hd Hl Hx Hc) as (s' & Hcr & Hinv' & H4 & Hload).
    set (a := mk_like _ (succ_pos _ _)) in *. exists a, (advance st v6 s' a). pose proof (succ_pos_range _ Hu x Hx) as Hsx.
    assert (Hst : storable_addr a) by (apply (position_storable _ Hu); lia).
    assert (Hla : FakeIPLoad s' a = Some d) by (rewrite Hload by done; destruct (decide (a = a)); congruence).
    unfold Lookup. rewrite storage_advance, Hs, Hla.
    repeat split; try done; [by exists s'|by apply (Create_again _ s')| |].
    + intros b Hb Hne. rewrite Hload, decide_False by done. done.
    + right. split; [apply (position_contained _ Hu); lia|]. unfold a. destruct (p_addr _); cbn [mk_like addr_val]; lia.
Qed.

(** A sequence of requests, each for a name in one family. *)
Fixpoint run_creates (reqs : list (string * bool)) st : Store S :=
  match reqs with
  | [] => st
  | (d, v6) :: reqs => run_creates reqs (Create d v6 st).2
  end.

(** The requests of one family. *)
Definition requests_of (v6 : bool) (reqs : list (string * bool)) : list (string * bool) :=
  filter (fun q => q.2 = v6) reqs.

(** [d] holds the [i]-th address of its range, handed out [k] allocations ago. *)
Definition holds st (v6 : bool) (r : Prefix) (i k : Z) (d : string) : Prop :=
  exists s, store_inv_on st s /\ range_of st v6 = r /\ usable r /\ Is4 (p_addr r) = negb v6
    /\ current_of st v6 = mk_like (p_addr r) (range_base r + 2 + (i + k) mod capacity r)
    /\ FakeIPLoad s (mk_like (p_addr r) (range_base r + 2 + i)) = Some d.

Lemma holds_step st v6 r i k d e w :
  0 <= i < capacity r -> 0 <= k -> k + (if decide (w = v6) then 1 else 0) < capacity r -> dns_name e ->
  holds st v6 r i k d ->
  exists k', k <= k' <= k + (if decide (w = v6) then 1 else 0) /\ holds (Create e w st).2 v6 r i k' d.
Proof.
  intros Hi Hk Hlt He (s & Hinv & Hr & Hu & H4 & Hc & Hl). pose proof Hinv as (Hs & Hok & Hf).
  destruct (FakeIPLoadDomain s e w) as [a|] eqn:Hd.
  { exists k. split; [case_decide; lia|]. rewrite (Create_loaded st s e w a) by done. by exists s. }
  destruct (Hf w) as [[_ Hiv]|(Hu' & H4' & _ & x & Hx & Hcx)].
  { exists k. split; [case_decide; lia|]. unfold Create. rewrite Hs, Hd.
    destruct w; cbn [current_of negb] in *; rewrite Hiv; by exists s. }
  destruct (Create_step st s e w x Hinv Hu' He Hd Hx Hcx) as (s' & Hcr & Hinv' & H4a & Hload).
  rewrite Hcr. cbn [snd]. set (a := mk_like _ (succ_pos _ _)) in *.
  assert (Hold : storable_addr (mk_like (p_addr r) (range_base r + 2 + i)))
    by (apply (position_storable r Hu); unfold capacity in *; lia).
  assert (Hne : mk_like (p_addr r) (range_base r + 2 + i) <> a ->
    FakeIPLoad s' (mk_like (p_addr r) (range_base r + 2 + i)) = Some d)
    by (intros; by rewrite Hload, decide_False by done).
  destruct (decide (w = v6)) as [->|Hw].
  - exists (k + 1). split; [lia|]. exists s'. rewrite range_of_advance, current_of_advance, decide_True by done.
    assert (Hxe : x = range_base r + 2 + (i + k) mod capacity r).
    { rewrite Hr, Hc in Hcx. by apply mk_like_inj in Hcx. }
    assert (Ha : a = mk_like (p_addr r) (range_base r + 2 + (i + (k + 1)) mod capacity r)).
    { unfold a. rewrite Hr, Hxe. by rewrite succ_pos_cycle. }
    repeat split; try done; try apply Hinv'; try apply Hu. apply Hne. rewrite Ha. intros Heq%mk_like_inj.
    apply (cycle_no_return r i (k + 1)); lia.
  - exists k. split; [lia|]. exists s'. rewrite range_of_advance, current_of_advance, decide_False by congruence.
    repeat split; try done; try apply Hinv'; try apply Hu. apply Hne. intros Heq.
    assert (Is4 a = negb v6) as H4v by (rewrite <- Heq, <- H4; by destruct (p_addr r)).
    rewrite H4a in H4v. by destruct w, v6.
Qed.

Lemma holds_run reqs st v6 r i k d :
  0 <= i < capacity r -> 0 <= k -> Forall (fun q => dns_name q.1) reqs ->
  k + zlen (requests_of v6 reqs) < capacity r ->
  holds st v6 r i k d -> exists k', holds (run_creates reqs st) v6 r i k' d.
Proof.
  intros Hi. revert st k. induction reqs as [|[e w] reqs IH]; intros st k Hk Hne Hlt Hh; cbn [run_creates]; [by exists k|].
  apply Forall_cons in Hne as [He Hne]. unfold requests_of in *. rewrite filter_cons in Hlt. cbn in He, Hlt.
  assert (Hb : k + (if decide (w = v6) then 1 else 0) + zlen (filter (fun q => q.2 = v6) reqs) < capacity r)
    by (destruct (decide (w = v6)); rewrite ?zlen_cons in Hlt; lia).
  pose proof (zlen_nonneg (filter (fun q : string * bool => q.2 = v6) reqs)).
  destruct (holds_step st v6 r i k d e w Hi Hk ltac:(lia) He Hh) as (k' & Hk' & Hh').
  apply (IH _ k'); try done; lia.
Qed.

(** C7: a name keeps its address until [capacity] more names of its family were
    asked for: after fewer requests the address still looks up to the name and
    the name still gets the address, whatever the requests are. *)
Theorem fakeip_no_early_reuse st s d v6 reqs :
  store_inv_on st s -> PrefixIsValid (range_of st v6) = true -> dns_name d -> FakeIPLoadDomain s d v6 = None ->
  Forall (fun q => dns_name q.1) reqs -> zlen (requests_of v6 reqs) < capacity (range_of st v6) ->
  exists a, (Create d v6 st).1 = Ok a
    /\ let st' := run_creates reqs (Create d v6 st).2 in
       Lookup st' a = Ok (Some d) /\ Create d v6 st' = (Ok a, st').
Proof.
  intros Hinv Hv Hd Hl Hne Hlen. pose proof Hinv as (Hs & Hok & Hf).
  destruct (Hf v6) as [[Hi _]|(Hu & H4 & _ & x & Hx & Hc)]; [congruence|].
  destruct (Create_step st s d v6 x Hinv Hu Hd Hl Hx Hc) as (s' & Hcr & Hinv' & H4a & Hload).
  rewrite Hcr. cbn [fst snd]. set (r := range_of st v6) in *. pose proof (succ_pos_range r Hu x Hx) as Hsx.
  set (i := succ_pos r x - (range_base r + 2)).
  assert (Hi : 0 <= i < capacity r) by (unfold i, capacity; lia).
  assert (Hpos : succ_pos r x = range_base r + 2 + i) by (unfold i; lia).
  rewrite Hpos in *. set (a := mk_like (p_addr r) (range_base r + 2 + i)) in *.
  assert (Hst : storable_addr a) by (apply (position_storable r Hu); unfold capacity in *; lia).
  destruct (holds_run reqs (advance st v6 s' a) v6 r i 0 d Hi) as [k (s'' & Hinv'' & _ & _ & _ & _ & Hl'')]; try done.
  { exists s'. rewrite range_of_advance, current_of_advance, decide_True, Z.add_0_r, Z.mod_small by done.
    repeat split; try done; try apply Hinv'; try apply Hu. fold a. rewrite Hload by done.
    destruct (decide (a = a)); congruence. }
  exists a. split; [done|]. cbn zeta. split; [|by apply (Create_again _ s'')].
  unfold Lookup. destruct Hinv'' as (-> & _). by f_equal.
Qed.

(** A family as configured: off, or a usable range of its own kind. *)
Definition family_config (v6 : bool) (r : Prefix) : Prop :=
  PrefixIsValid r = false \/ usable r /\ Is4 (p_addr r) = negb v6.

(** The positions a storage remembers for these ranges are positions of them. *)
Definition metadata_valid (r4 r6 : Prefix) (m : FakeIPMetadata) : Prop :=
  Inet4Range m = r4 -> Inet6Range m = r6 ->
  forall v6 : bool,
  let r := if v6 then r6 else r4 in
  let c := if v6 then Inet6Current m else Inet4Current m in
  if PrefixIsValid r then exists x, range_base r < x < range_last r /\ c = mk_like (p_addr r) x
  else IsValid c = false.

Lemma NewStore_last (r4 r6 : Prefix) v6 :
  PrefixIsValid (range_of (NewStore r4 r6) v6) = true ->
  last_of (NewStore r4 r6) v6 = broadcastAddress (range_of (NewStore r4 r6) v6).
Proof. destruct v6; cbn; by intros ->. Qed.

Lemma family_inv_intro st v6 :
  family_config v6 (range_of st v6) ->
  (PrefixIsValid (range_of st v6) = true -> last_of st v6 = broadcastAddress (range_of st v6)) ->
  (if PrefixIsValid (range_of st v6)
   then exists x, range_base (range_of st v6) < x < range_last (range_of st v6)
                  /\ current_of st v6 = mk_like (p_addr (range_of st v6)) x
   else IsValid (current_of st v6) = false) ->
  family_inv st v6.
Proof.
  intros [Hv|[Hu H4]] Hl Hp; [left; by rewrite Hv in Hp|].
  right. pose proof Hu as (_ & Hv & _). rewrite Hv in Hp. eauto 10.
Qed.

(** [Start] establishes the invariant, whether it resumes or starts afresh. *)
Lemma Start_inv s r4 r6 :
  storage_ok s -> family_config false r4 -> family_config true r6 ->
  (forall m, (FakeIPMetadata_ s).1 = Some m -> metadata_valid r4 r6 m) ->
  store_inv (Store_Start s (NewStore r4 r6)).
Proof.
  intros Hok H4 H6 Hm. unfold Store_Start. pose proof (metadata_ok s Hok) as Hok'.
  destruct (FakeIPMetadata_ s) as [md s0]. cbn [fst snd] in *.
  assert (Hcfg : forall w, family_config w (if w then r6 else r4)) by (by intros []).
  set (reset := with_state _ (FakeIPReset s0) _ _).
  assert (Hreset : store_inv reset).
  { exists (FakeIPReset s0). split; [done|]. split; [by apply reset_ok|]. intros w.
    apply family_inv_intro; [by destruct w|exact (NewStore_last r4 r6 w)|].
    assert (Hb : forall r, usable r -> exists x, range_base r < x < range_last r /\ Next (p_addr r) = mk_like (p_addr r) x).
    { intros r Hu. exists (range_base r + 1). pose proof Hu as (_ & _ & H3). split; [lia|].
      rewrite <- (Next_position r Hu) by lia. f_equal. unfold range_base. by destruct (p_addr r). }
    specialize (Hcfg w). destruct w; cbn; case_match eqn:Hv; destruct Hcfg as [|[Hu _]]; try congruence; try done; auto.
    all: pose proof Hu as (_ & ? & _); congruence. }
  destruct md as [m|]; [|done]. destruct (bool_decide _ && bool_decide _) eqn:Hb; [|done]. to_prop.
  exists s0. split; [done|]. split; [done|]. intros w. apply family_inv_intro; [by destruct w|exact (NewStore_last r4 r6 w)|].
  specialize (Hm m eq_refl ltac:(done) ltac:(done) w). by destruct w.
Qed.

End Alloc.

(** ** Metadata *)

Definition metadata_wf (m : FakeIPMetadata) : Prop :=
  prefix_ok (Inet4Range m) /\ prefix_ok (Inet6Range m) /\ addr_plain (Inet4Current m) /\ addr_plain (Inet6Current m).

Lemma Addr_MarshalBinary_plain a : addr_plain a -> Addr_MarshalBinary a = AsSlice a.
Proof.
  intros (_ & Hz & _). unfold Addr_MarshalBinary. destruct a as [| |v z]; rewrite ?app_nil_r; try done.
  cbn in Hz. apply negb_false_iff, bool_decide_eq_true in Hz as ->. apply app_nil_r.
Qed.

Lemma Addr_Unmarshal_Marshal a : addr_plain a -> Addr_UnmarshalBinary (AsSlice a) = Ok a.
Proof.
  intros (Hwf & Hz & Hi). unfold Addr_UnmarshalBinary, zlen. destruct a as [v|v|v z]; cbn [AsSlice addr_wf] in *.
  - by rewrite Hi.
  - rewrite length_be_bytes, be_val_bytes by done. done.
  - rewrite length_be_bytes, be_val_bytes by done. cbn in Hz.
    apply negb_false_iff, bool_decide_eq_true in Hz as ->. done.
Qed.

Lemma Prefix_Unmarshal_Marshal p : prefix_ok p -> Prefix_UnmarshalBinary (Prefix_MarshalBinary p) = Ok p.
Proof.
  intros Hok. pose proof Hok as [Hpl Heq]. unfold Prefix_MarshalBinary, Prefix_UnmarshalBinary.
  assert (without_zone (p_addr p) = p_addr p) as -> by (rewrite Heq; cbn; by destruct (p_addr p)).
  rewrite Addr_MarshalBinary_plain, rev_app_distr by done. cbn [rev app].
  rewrite rev_involutive, Addr_Unmarshal_Marshal by done. cbn [obind]. by rewrite PrefixFrom_uint8.
Qed.

Lemma Prefix_Marshal_length p : prefix_ok p -> zlen (Prefix_MarshalBinary p) <= 17.
Proof.
  intros [Hpl Heq]. unfold Prefix_MarshalBinary. rewrite zlen_app. change (zlen [_]) with 1.
  assert (without_zone (p_addr p) = p_addr p) as -> by (rewrite Heq; cbn; by destruct (p_addr p)).
  rewrite Addr_MarshalBinary_plain by done. pose proof (zlen_AsSlice (p_addr p)). lia.
Qed.

Lemma unmarshal_marshal_element {A} (f : bytes -> outcome A) b a rest :
  zlen b < 65536 -> f b = Ok a ->
  unmarshal_element f (Stream (marshal_element b ++ rest) EOF) = Ok (a, Stream rest EOF).
Proof.
  intros Hl Hf. pose proof (zlen_nonneg b). unfold unmarshal_element, marshal_element.
  rewrite uint_small, <- app_assoc, ReadUint_be_bytes by (cbn; lia). cbn [must obind].
  rewrite ReadFull_app by done. cbn [obind]. by rewrite Hf.
Qed.

Lemma UnmarshalBinary_MarshalBinary m : metadata_wf m -> UnmarshalBinary (MarshalBinary m) = Ok m.
Proof.
  intros (H4 & H6 & Hc4 & Hc6). unfold UnmarshalBinary, MarshalBinary.
  pose proof (Prefix_Marshal_length _ H4). pose proof (Prefix_Marshal_length _ H6).
  pose proof (zlen_AsSlice (Inet4Current m)). pose proof (zlen_AsSlice (Inet6Current m)).
  rewrite (Addr_MarshalBinary_plain _ Hc4), (Addr_MarshalBinary_plain _ Hc6).
  rewrite (unmarshal_marshal_element _ _ (Inet4Range m)) by (lia || by apply Prefix_Unmarshal_Marshal).
  cbn [obind]. rewrite (unmarshal_marshal_element _ _ (Inet6Range m)) by (lia || by apply Prefix_Unmarshal_Marshal).
  cbn [obind]. rewrite (unmarshal_marshal_element _ _ (Inet4Current m)) by (lia || by apply Addr_Unmarshal_Marshal).
  cbn [obind]. rewrite <- (app_nil_r (marshal_element _)).
  rewrite (unmarshal_marshal_element _ _ (Inet6Current m)) by (lia || by apply Addr_Unmarshal_Marshal).
  by destruct m.
Qed.

(** The allocator's persisted position is read back as it was written, for
    every pair of ranges and positions, the disabled family included. *)
Theorem fakeip_metadata_roundtrip m : metadata_wf m -> UnmarshalBinary (MarshalBinary m) = Ok m.
Proof. apply UnmarshalBinary_MarshalBinary. Qed.

(** Data too short for the first length makes the decoder panic. *)
Lemma fakeip_metadata_truncated_panics data :
  zlen data < 2 -> UnmarshalBinary data = Panic "common.Must".
Proof.
  intros H. unfold UnmarshalBinary, unmarshal_element, ReadUint, ReadFull. cbn [avail fin].
  rewrite (proj2 (Z.leb_gt _ _)) by (cbn; lia). by destruct data.
Qed.

(** ** Ranges that are too small *)

Import Memory.

(** [NewStore] accepts an IPv4 range of one or two addresses; the first
    address handed out for it lies outside the range, so that the store itself
    does not recognize it ([Contains]) when a connection to it arrives. *)
Theorem fakeip_small_range_escapes r d :
  prefix_ok r -> Is4 (p_addr r) = true -> 31 <= p_bits r -> range_base r + 2 < 2 ^ 32 ->
  exists a st', Create d false (Store_Start NewMemoryStorage (NewStore r prefix_zero)) = (Ok a, st')
    /\ Lookup st' a = Ok (Some d) /\ Store_Contains st' a = false.
Proof.
  intros Hok H4 Hb Hlt.
  assert (Hv : PrefixIsValid r = true) by (unfold PrefixIsValid; apply Z.leb_le; lia).
  destruct (prefix_valid_facts r Hok Hv) as [[(Hwf & _ & _) _] Hbits].
  pose proof (broadcastAddress_val r Hok Hv) as Hlast. unfold range_base, host_bits in *.
  destruct r as [[|v|] bits]; try done. cbn [p_addr p_bits BitLen addr_val mk_like addr_wf] in *.
  assert (Hcn : Contains (MkPrefix (Addr4 v) bits) (Addr4 (v + 2)) = false).
  { unfold Contains. rewrite Hv. cbn [negb orb has_zone p_addr p_bits BitLen addr_val Z.eqb Pos.eqb].
    apply Z.eqb_neq. rewrite Z.shiftr_lxor.
    intros Hx%Z.lxor_eq. rewrite !Z.shiftr_div_pow2 in Hx by lia.
    assert (bits = 31 \/ bits = 32) as [-> | ->] by lia;
      [change (2 ^ (32 - 31)) with 2 in Hx|change (2 ^ (32 - 32)) with 1 in Hx];
      Z.div_mod_to_equations; lia. }
  assert (Hnext : Next (Addr4 v) = Addr4 (v + 1)).
  { cbn. rewrite uint_small, (proj2 (Z.eqb_neq _ _)) by lia. done. }
  assert (Hnext2 : Next (Addr4 (v + 1)) = Addr4 (v + 2)).
  { cbn. rewrite uint_small, (proj2 (Z.eqb_neq _ _)) by lia. by rewrite <- Z.add_assoc. }
  exists (Addr4 (v + 2)). eexists. split; [|split].
  - unfold Store_Start. cbn [FakeIPMetadata_ memory_storage]. unfold Create.
    cbn [storage with_state inet4Range NewStore inet4Current inet4Last p_addr]. cbn zeta. rewrite Hv, Hnext. cbn [FakeIPLoadDomain memory_storage FakeIPReset].
    unfold load_domain, NewMemoryStorage. cbn [negb domainCache4 IsValid]. rewrite lookup_empty.
    unfold next_address. rewrite Hnext2, Hcn. cbn [negb]. rewrite orb_true_r. cbn [p_addr]. rewrite Hnext, Hnext2. reflexivity.
  - unfold Lookup. cbn [storage with_state FakeIPLoad FakeIPSaveMetadataAsync FakeIPStore memory_storage].
    rewrite load_store. by destruct (decide (Addr4 (v + 2) = Addr4 (v + 2))).
  - unfold Store_Contains. cbn [inet4Range inet6Range with_state Store_Start NewStore]. by rewrite Hcn.
Qed.

(** ** Witnesses *)

Definition witness_r4 : Prefix := MkPrefix (Addr4 (198 * 2 ^ 24 + 18 * 2 ^ 16)) 15.
Definition witness_r6 : Prefix := MkPrefix (Addr6 (0xfc00 * 2 ^ 112) "") 18.

Lemma witness_usable4 : usable witness_r4.
Proof.
  split; [apply prefix_ok_intro; [cbn [addr_wf]; lia|reflexivity..|cbn; lia]|].
  split; [reflexivity|]. vm_compute. discriminate.
Qed.
Lemma witness_usable6 : usable witness_r6.
Proof.
  split; [apply prefix_ok_intro; [cbn [addr_wf]; lia|reflexivity..|cbn; lia]|].
  split; [reflexivity|]. vm_compute. discriminate.
Qed.

Definition witness_store : Store MemoryStorage := Store_Start NewMemoryStorage (NewStore witness_r4 witness_r6).
Lemma witness_store_inv : store_inv witness_store.
Proof.
  apply Start_inv; [|by right; split; [apply witness_usable4|]|by right; split; [apply witness_usable6|]|done].
  apply new_memory_coherent.
Qed.

Lemma witness_store_inv_on : store_inv_on witness_store NewMemoryStorage.
Proof. destruct witness_store_inv as [s Hs]. pose proof Hs as ([= <-] & _). exact Hs. Qed.

Lemma fakeip_create_correct_witness :
  exists a, (Create "example.org" true witness_store).1 = Ok a /\ Is4 a = false.
Proof.
  destruct (fakeip_create_correct witness_store "example.org" true witness_store_inv eq_refl ltac:(done))
    as (a & st' & -> & _ & H4 & _). by exists a.
Defined.

Lemma fakeip_no_early_reuse_witness :
  exists a, Lookup (run_creates [("b.org", false); ("c.org", true); ("d.org", false)] (Create "a.org" false witness_store).2) a
            = Ok (Some "a.org").
Proof.
  destruct (fakeip_no_early_reuse witness_store NewMemoryStorage "a.org" false
    [("b.org", false); ("c.org", true); ("d.org", false)] witness_store_inv_on eq_refl ltac:(done) eq_refl
    ltac:(repeat constructor; done) eq_refl) as (a & _ & Hl & _).
  by exists a.
Defined.

Lemma fakeip_metadata_roundtrip_witness :
  let m := {| Inet4Range := MkPrefix (Addr4 (10 * 2 ^ 24)) 8; Inet6Range := prefix_zero;
              Inet4Current := Addr4 (10 * 2 ^ 24 + 7); Inet6Current := addr_zero |} in
  UnmarshalBinary (MarshalBinary m) = Ok m.
Proof.
  intros m. apply (fakeip_metadata_roundtrip m).
  split; [apply prefix_ok_intro; [cbn [addr_wf]; lia|reflexivity..|cbn; lia]|].
  split; [split; [split; [cbn; lia|]; split; reflexivity|reflexivity]|].
  split; (split; [cbn; lia|]; split; [reflexivity|done]).
Defined.

Lemma fakeip_small_range_escapes_witness :
  exists a st', Create "a.org" false (Store_Start NewMemoryStorage (NewStore (MkPrefix (Addr4 (10 * 2 ^ 24)) 32) prefix_zero))
    = (Ok a, st') /\ Store_Contains st' a = false.
Proof.
  destruct (fakeip_small_range_escapes (MkPrefix (Addr4 (10 * 2 ^ 24)) 32) "a.org") as (a & st' & H1 & _ & H2);
    [apply prefix_ok_intro; [cbn [addr_wf]; lia|reflexivity..|cbn; lia]|reflexivity|cbn; lia|reflexivity|eauto].
Defined.
