(* ===== verification/Bolt.v ===== *)
(** * bbolt

    The database below the cache file, [github.com/sagernet/bbolt], as a type
    class.  A bucket is named by its path from the root; [get], [put], [delete],
    [create] and [remove] are [Bucket.Get], [Put], [Delete],
    [CreateBucketIfNotExists] and [DeleteBucket] on it.  [BoltLaws] states the
    documented behaviour; [MapDB] is a database that has it. *)

From S2P Require Import Prelude.
Local Open Scope Z_scope.

Abbreviation path := (list (list Z)) (only parsing).

Class Bolt (DB : Type) := {
  db_empty : DB;
  has_bucket : DB -> path -> bool;
  b_get : DB -> path -> bytes -> option bytes;
  b_put : path -> bytes -> bytes -> DB -> outcome DB;
  b_delete : path -> bytes -> DB -> outcome DB;
  b_create : path -> DB -> outcome DB;
  b_remove : path -> DB -> outcome DB;
  (** What [ForEach] visits: keys with their values, and the names of buckets
      with a nil value. *)
  b_foreach : DB -> path -> list (bytes * option bytes)
}.

Definition MaxKeySize : Z := 32768.
Definition MaxValueSize : Z := 2 ^ 31 - 2.

(** What [ForEachBucket] visits. *)
Definition b_buckets {DB} `{Bolt DB} (db : DB) (p : path) : list bytes :=
  omap (fun e => match e.2 with None => Some e.1 | Some _ => None end) (b_foreach db p).

(** A key [Put] accepts in a bucket: a bucket of the same name is in the way. *)
Definition key_ok {DB} `{Bolt DB} (db : DB) (p : path) (k : bytes) : Prop :=
  k <> [] /\ zlen k <= MaxKeySize /\ has_bucket db (p ++ [k]) = false.

Class BoltLaws (DB : Type) `{Bolt DB} := {
  root_bucket : forall db, has_bucket db [] = true;
  empty_bucket : forall p, p <> [] -> has_bucket db_empty p = false;
  empty_get : forall p k, b_get db_empty p k = None;
  get_missing : forall db p k, has_bucket db p = false -> b_get db p k = None;
  put_ok : forall db p k v,
    has_bucket db p = true -> key_ok db p k -> zlen v <= MaxValueSize ->
    exists db', b_put p k v db = Ok db' /\ (forall q, has_bucket db' q = has_bucket db q)
      /\ forall q j, b_get db' q j = if decide (q = p /\ j = k) then Some v else b_get db q j;
  foreach_key : forall db p k v, (k, Some v) ∈ b_foreach db p <-> b_get db p k = Some v;
  foreach_bucket : forall db p n, (n, None) ∈ b_foreach db p <-> has_bucket db (p ++ [n]) = true;
  foreach_nodup : forall db p, NoDup (b_foreach db p);
  put_empty_key : forall db p v, is_ok (b_put p [] v db) = false;
  delete_ok : forall db p k,
    has_bucket db p = true -> has_bucket db (p ++ [k]) = false ->
    exists db', b_delete p k db = Ok db' /\ (forall q, has_bucket db' q = has_bucket db q)
      /\ forall q j, b_get db' q j = if decide (q = p /\ j = k) then None else b_get db q j;
  create_ok : forall db p n,
    has_bucket db p = true -> n <> [] -> b_get db p n = None ->
    exists db', b_create (p ++ [n]) db = Ok db'
      /\ (forall q, has_bucket db' q = if decide (q = p ++ [n]) then true else has_bucket db q)
      /\ forall q j, b_get db' q j = b_get db q j;
  remove_missing : forall db p, has_bucket db p = false -> exists e, b_remove p db = Err e;
  remove_ok : forall db p,
    p <> [] -> has_bucket db p = true ->
    exists db', b_remove p db = Ok db'
      /\ (forall q, has_bucket db' q = if decide (p `prefix_of` q) then false else has_bucket db q)
      /\ forall q j, b_get db' q j = if decide (p `prefix_of` q) then None else b_get db q j
}.

(** A transaction under [CacheFile.batch]: an error rolls back, a panic makes
    [resetDB] start with an empty file. *)
Definition batch {DB A} `{Bolt DB} (fn : DB -> outcome (A * DB)) (db : DB) : outcome A * DB :=
  match fn db with
  | Ok (a, db') => (Ok a, db')
  | Err e => (Err e, db)
  | Panic m => (Err (ENew (String.append "database corrupted: " m)), db_empty)
  | Diverge => (Diverge, db)
  end.

(** ** A database of maps *)

Module MapDB.

(** The entries of every bucket, by its path. *)
Abbreviation DB := (gmap path (gmap bytes bytes)) (only parsing).

Definition has (db : DB) (p : path) : bool := bool_decide (p = []) || bool_decide (is_Some (db !! p)).
Definition entries (db : DB) (p : path) : gmap bytes bytes := default ∅ (db !! p).
Definition get (db : DB) (p : path) (k : bytes) : option bytes := entries db p !! k.
Definition put (p : path) (k v : bytes) (db : DB) : outcome DB :=
  if bool_decide (k = []) then Err (EExternal "key required")
  else if MaxKeySize <? zlen k then Err (EExternal "key too large")
  else if MaxValueSize <? zlen v then Err (EExternal "value too large")
  else if negb (has db p) then Err (EExternal "bucket not found")
  else if has db (p ++ [k]) then Err (EExternal "incompatible value")
  else Ok (<[p := <[k := v]> (entries db p)]> db).
Definition delete_key (p : path) (k : bytes) (db : DB) : outcome DB :=
  if negb (has db p) then Err (EExternal "bucket not found")
  else if has db (p ++ [k]) then Err (EExternal "incompatible value")
  else Ok (<[p := delete k (entries db p)]> db).
Definition create (p : path) (db : DB) : outcome DB :=
  match rev p with
  | [] => Err (EExternal "bucket name required")
  | n :: parent =>
      if bool_decide (n = []) then Err (EExternal "bucket name required")
      else if negb (has db (rev parent)) then Err (EExternal "bucket not found")
      else if bool_decide (is_Some (get db (rev parent) n)) then Err (EExternal "incompatible value")
      else if has db p then Ok db
      else Ok (<[p := ∅]> db)
  end.
Definition remove (p : path) (db : DB) : outcome DB :=
  if bool_decide (p = []) then Err (EExternal "bucket name required")
  else if negb (has db p) then Err (EExternal "bucket not found")
  else Ok (filter (fun x => ~ p `prefix_of` x.1) db).

Definition child (p q : path) : option bytes :=
  match rev q with
  | n :: parent => if bool_decide (rev parent = p) then Some n else None
  | [] => None
  end.
Definition foreach (db : DB) (p : path) : list (bytes * option bytes) :=
  ((fun e => (e.1, Some e.2)) <$> map_to_list (entries db p))
  ++ ((fun n => (n, None)) <$> omap (child p) (map_to_list db).*1).

#[export] Instance map_bolt : Bolt DB := {|
  db_empty := ∅;
  has_bucket := has;
  b_get := get;
  b_put := put;
  b_delete := delete_key;
  b_create := create;
  b_remove := remove;
  b_foreach := foreach
|}.

(** Replacing the entries of an existing bucket. *)
Lemma has_insert_existing db p m q : has db p = true -> has (<[p := m]> db) q = has db q.
Proof.
  unfold has. intros Hp. destruct (bool_decide (q = [])) eqn:Hq; [done|]. cbn. to_prop.
  apply bool_decide_ext. destruct (decide (q = p)) as [->|Hne].
  - rewrite lookup_insert_eq. rewrite bool_decide_false in Hp by done. cbn in Hp. to_prop. naive_solver.
  - by rewrite lookup_insert_ne.
Qed.

Lemma get_insert db p m q j : get (<[p := m]> db) q j = if decide (q = p) then m !! j else get db q j.
Proof.
  unfold get, entries. destruct (decide (q = p)) as [->|]; [by rewrite lookup_insert_eq|by rewrite lookup_insert_ne].
Qed.

Lemma child_Some p q n : child p q = Some n <-> q = p ++ [n].
Proof.
  unfold child. split.
  - destruct (rev q) as [|m parent] eqn:E; [done|]. case_bool_decide; [|done]. intros [= ->]. subst p.
    rewrite <- (rev_involutive q), E. done.
  - intros ->. rewrite rev_app_distr. cbn. by rewrite rev_involutive, bool_decide_true.
Qed.

Lemma has_snoc db p n : has db (p ++ [n]) = true <-> is_Some (db !! (p ++ [n])).
Proof.
  unfold has. rewrite (bool_decide_false (_ = [])) by (by destruct p). cbn. apply bool_decide_eq_true.
Qed.

Lemma has_false db p : has db p = false -> entries db p = ∅.
Proof. unfold has, entries. intros H. to_prop. destruct (db !! p); [exfalso; naive_solver|done]. Qed.

Lemma foreach_keys db p k v : (k, Some v) ∈ foreach db p <-> get db p k = Some v.
Proof.
  unfold foreach, get. rewrite elem_of_app, !list_elem_of_fmap, <- elem_of_map_to_list. split.
  - intros [([k' v'] & [= -> ->] & H)|(n & [=] & _)]. done.
  - intros H. left. by exists (k, v).
Qed.

Lemma foreach_names db p n : (n, None) ∈ foreach db p <-> has db (p ++ [n]) = true.
Proof.
  unfold foreach. rewrite elem_of_app, !list_elem_of_fmap, has_snoc. split.
  - intros [(? & [=] & _)|(m & [= <-] & H)]. apply list_elem_of_omap in H as (q & Hq & ->%child_Some).
    apply list_elem_of_fmap in Hq as ([? m] & -> & Hq%elem_of_map_to_list). by exists m.
  - intros [m Hm]. right. exists n. split; [done|]. apply list_elem_of_omap. exists (p ++ [n]).
    split; [|by apply child_Some]. apply list_elem_of_fmap. exists (p ++ [n], m). split; [done|].
    by apply elem_of_map_to_list.
Qed.

Lemma foreach_NoDup db p : NoDup (foreach db p).
Proof.
  unfold foreach. apply NoDup_app. split; [|split].
  - apply NoDup_fmap_2; [by intros [] [] [= -> ->]|]. apply NoDup_map_to_list.
  - intros [k v] (? & [= -> ->] & _)%list_elem_of_fmap (? & [=] & _)%list_elem_of_fmap.
  - apply NoDup_fmap_2; [by intros ? ? [= ->]|]. generalize (NoDup_fst_map_to_list db).
    generalize (map_to_list db).*1. intros l. induction l as [|q l IH]; [constructor|].
    rewrite NoDup_cons. intros [Hq Hl]. cbn. destruct (child p q) as [n|] eqn:E; [|auto].
    constructor; [|auto]. apply child_Some in E as ->.
    intros (q & Hin & ->%child_Some)%list_elem_of_omap. done.
Qed.

Lemma create_bucket db p n :
  has db p = true -> n <> [] -> get db p n = None ->
  exists db', create (p ++ [n]) db = Ok db'
    /\ (forall q, has db' q = if decide (q = p ++ [n]) then true else has db q)
    /\ forall q j, get db' q j = get db q j.
Proof.
  intros Hp Hn Hg. unfold create. rewrite rev_app_distr. cbn [rev app].
  rewrite rev_involutive, bool_decide_false, Hp, Hg by done. cbn [negb].
  rewrite (bool_decide_false (is_Some None)) by (by intros []).
  destruct (has db (p ++ [n])) eqn:E; eexists; (split; [done|]); (split; [intros q|intros q j]).
  - by destruct (decide (q = p ++ [n])) as [->|].
  - done.
  - unfold has. destruct (decide (q = p ++ [n])) as [->|]; [|by rewrite lookup_insert_ne].
    rewrite lookup_insert_eq, (bool_decide_true (is_Some _)) by done. apply orb_true_r.
  - rewrite get_insert. destruct (decide (q = p ++ [n])) as [->|]; [|done].
    unfold get. by rewrite has_false.
Qed.

Lemma remove_bucket db p :
  p <> [] -> has db p = true ->
  exists db', remove p db = Ok db'
    /\ (forall q, has db' q = if decide (p `prefix_of` q) then false else has db q)
    /\ forall q j, get db' q j = if decide (p `prefix_of` q) then None else get db q j.
Proof.
  intros Hne Hp. unfold remove. rewrite bool_decide_false, Hp by done. cbn.
  assert (Hl : forall q, filter (fun x : path * gmap bytes bytes => ~ p `prefix_of` x.1) db !! q
    = if decide (p `prefix_of` q) then None else db !! q).
  { intros q. rewrite map_lookup_filter. destruct (db !! q); cbn; destruct (decide (p `prefix_of` q)); try done;
      [by rewrite option_guard_False by naive_solver|by rewrite option_guard_True]. }
  eexists. split; [done|]. unfold has, get, entries.
  split; [intros q|intros q j]; rewrite Hl; destruct (decide (p `prefix_of` q)) as [Hpre|]; try done.
  rewrite bool_decide_false by (intros ->; by apply prefix_nil_inv in Hpre).
  by rewrite bool_decide_false by (by intros []).
Qed.

Lemma put_key db p k v :
  has db p = true -> k <> [] -> zlen k <= MaxKeySize -> has db (p ++ [k]) = false -> zlen v <= MaxValueSize ->
  exists db', put p k v db = Ok db' /\ (forall q, has db' q = has db q)
    /\ forall q j, get db' q j = if decide (q = p /\ j = k) then Some v else get db q j.
Proof.
  intros Hp Hk Hl Hb Hv. unfold put.
  rewrite bool_decide_false, (proj2 (Z.ltb_ge _ _)), (proj2 (Z.ltb_ge _ _)), Hp, Hb by done. cbn.
  eexists. split; [done|]. split; [intros q; by apply has_insert_existing|]. intros q j. rewrite get_insert.
  destruct (decide (q = p)) as [->|], (decide (j = k)) as [->|]; cbn;
    repeat first [rewrite decide_True by done|rewrite decide_False by naive_solver]; try done;
    [apply lookup_insert_eq|by rewrite lookup_insert_ne].
Qed.

Lemma delete_key_ok db p k :
  has db p = true -> has db (p ++ [k]) = false ->
  exists db', delete_key p k db = Ok db' /\ (forall q, has db' q = has db q)
    /\ forall q j, get db' q j = if decide (q = p /\ j = k) then None else get db q j.
Proof.
  intros Hp Hb. unfold delete_key. rewrite Hp, Hb. cbn.
  eexists. split; [done|]. split; [intros q; by apply has_insert_existing|]. intros q j. rewrite get_insert.
  destruct (decide (q = p)) as [->|], (decide (j = k)) as [->|]; cbn;
    repeat first [rewrite decide_True by done|rewrite decide_False by naive_solver]; try done;
    [apply lookup_delete_eq|by rewrite lookup_delete_ne].
Qed.

#[export] Instance map_laws : BoltLaws DB.
Proof.
  split; try done.
  - intros p Hp. cbn. unfold has. by rewrite bool_decide_false, lookup_empty.
  - intros db p k H. cbn in *. unfold get. by rewrite has_false.
  - intros db p k v Hp (Hk & Hl & Hb) Hv. by apply put_key.
  - apply foreach_keys.
  - apply foreach_names.
  - apply foreach_NoDup.
  - apply delete_key_ok.
  - apply create_bucket.
  - intros db p Hp. cbn in *. unfold remove. rewrite Hp. case_match; eauto.
  - apply remove_bucket.
Qed.

End MapDB.
