(* ===== verification/CacheFile.v ===== *)
(** * Cache file

    experimental/cachefile: the persistent store of the FakeIP tables, the
    rejected-response cache, the DNS cache, the selected outbounds and the
    downloaded rule-sets, over the database interface of [Bolt].

    A method is a function on [CacheFile]; what the source runs in a goroutine
    or a timer callback is a definition of its own, so that a run is a sequence
    of these steps.  Times are nanoseconds since the epoch. *)

From S2P Require Import Prelude GoStd Netip External FakeIP Bolt.
Local Open Scope Z_scope.

(** ** adapter.SavedBinary *)

Record SavedBinary := {
  Content : bytes;
  LastUpdated : Z;
  LastEtag : string
}.

(** [Time.Unix], [time.Unix(_, 0)] and the conversions of their results. *)
Definition second : Z := 1000000000.
Definition Unix (t : Z) : Z := t / second.
Definition from_Unix (s : Z) : Z := s * second.

Section Binary.
Context {X : External}.

Definition SavedBinary_MarshalBinary (s : SavedBinary) : bytes :=
  [1] ++ WriteUvarint (uint 64 (zlen (Content s))) ++ Content s
  ++ be_bytes 8 (uint 64 (Unix (LastUpdated s)))
  ++ WriteUvarint (uint 64 (str_len (LastEtag s))) ++ bytes_of_string (LastEtag s).

Definition SavedBinary_UnmarshalBinary (data : bytes) : outcome SavedBinary :=
  let* (version, st) := ReadUint 1 (Stream data EOF) in
  let* (contentLength, st) := ReadUvarint st in
  let* _ := make_slice contentLength in
  let* (content, st) := ReadFull contentLength st in
  let* (lastUpdated, st) := ReadUint 8 st in
  let* (etagLength, st) := ReadUvarint st in
  let* _ := make_slice etagLength in
  let* (etagBytes, st) := ReadFull etagLength st in
  Ok {| Content := content; LastUpdated := from_Unix (int64 lastUpdated); LastEtag := string_of_bytes etagBytes |}.

End Binary.

(** ** cache.go: the state *)

Definition bucketSelected : bytes := bytes_of_string "selected".
Definition bucketExpand : bytes := bytes_of_string "group_expand".
Definition bucketMode : bytes := bytes_of_string "clash_mode".
Definition bucketRuleSet : bytes := bytes_of_string "rule_set".
Definition bucketRDRC : bytes := bytes_of_string "rdrc2".
Definition bucketDNSCache : bytes := bytes_of_string "dns_cache".
Definition cacheIDDefault : bytes := bytes_of_string "default".
Definition bucketFakeIP : bytes := bytes_of_string "fakeip_address".
Definition bucketFakeIPDomain4 : bytes := bytes_of_string "fakeip_domain4".
Definition bucketFakeIPDomain6 : bytes := bytes_of_string "fakeip_domain6".
Definition keyMetadata : bytes := bytes_of_string "fakeip_metadata".

Record saveCacheKey := MkSaveKey { TransportName : string; QuestionName : string; QType : Z }.
#[export] Instance saveCacheKey_eq_dec : EqDecision saveCacheKey.
Proof. solve_decision. Defined.
#[export] Program Instance saveCacheKey_countable : Countable saveCacheKey :=
  inj_countable' (fun k => (TransportName k, QuestionName k, QType k)) (fun x => MkSaveKey x.1.1 x.1.2 x.2) _.
Next Obligation. by intros []. Qed.

Record saveDNSCacheEntry := {
  rawMessage : bytes;
  expireAt : Z;
  sequence : Z;
  saving : bool
}.

Section CacheFile.
Context {DB : Type} `{HB : Bolt DB} {X : External}.

(** [saveMetadataTimer] holds the metadata its callback captured and whether the
    timer is armed. *)
Record CacheFile := {
  cacheID : option bytes;
  rdrcTimeout : Z;
  optimisticTimeout : Z;
  disableExpire : bool;
  db : DB;
  saveMetadataTimer : option (FakeIPMetadata * bool);
  saveDomain : gmap Addr string;
  saveAddress4 : gmap string Addr;
  saveAddress6 : gmap string Addr;
  saveRDRC : gmap saveCacheKey bool;
  saveDNSCache : gmap saveCacheKey saveDNSCacheEntry
}.

(** [New], once the database is open. *)
Definition New (id : string) (timeout : Z) (d : DB) : CacheFile :=
  {| cacheID := if bool_decide (id = "") then None else Some (0 :: bytes_of_string id);
     rdrcTimeout := timeout; optimisticTimeout := 0; disableExpire := false; db := d; saveMetadataTimer := None;
     saveDomain := ∅; saveAddress4 := ∅; saveAddress6 := ∅; saveRDRC := ∅; saveDNSCache := ∅ |}.

Definition with_db (c : CacheFile) (d : DB) : CacheFile :=
  {| cacheID := cacheID c; rdrcTimeout := rdrcTimeout c; optimisticTimeout := optimisticTimeout c;
     disableExpire := disableExpire c; db := d; saveMetadataTimer := saveMetadataTimer c; saveDomain := saveDomain c;
     saveAddress4 := saveAddress4 c; saveAddress6 := saveAddress6 c; saveRDRC := saveRDRC c;
     saveDNSCache := saveDNSCache c |}.
Definition with_timer (c : CacheFile) (t : option (FakeIPMetadata * bool)) : CacheFile :=
  {| cacheID := cacheID c; rdrcTimeout := rdrcTimeout c; optimisticTimeout := optimisticTimeout c;
     disableExpire := disableExpire c; db := db c; saveMetadataTimer := t; saveDomain := saveDomain c;
     saveAddress4 := saveAddress4 c; saveAddress6 := saveAddress6 c; saveRDRC := saveRDRC c;
     saveDNSCache := saveDNSCache c |}.
Definition with_save (c : CacheFile) (d : gmap Addr string) (a4 a6 : gmap string Addr) : CacheFile :=
  {| cacheID := cacheID c; rdrcTimeout := rdrcTimeout c; optimisticTimeout := optimisticTimeout c;
     disableExpire := disableExpire c; db := db c; saveMetadataTimer := saveMetadataTimer c; saveDomain := d;
     saveAddress4 := a4; saveAddress6 := a6; saveRDRC := saveRDRC c; saveDNSCache := saveDNSCache c |}.
Definition with_rdrc (c : CacheFile) (m : gmap saveCacheKey bool) : CacheFile :=
  {| cacheID := cacheID c; rdrcTimeout := rdrcTimeout c; optimisticTimeout := optimisticTimeout c;
     disableExpire := disableExpire c; db := db c; saveMetadataTimer := saveMetadataTimer c; saveDomain := saveDomain c;
     saveAddress4 := saveAddress4 c; saveAddress6 := saveAddress6 c; saveRDRC := m; saveDNSCache := saveDNSCache c |}.
Definition with_dns (c : CacheFile) (m : gmap saveCacheKey saveDNSCacheEntry) : CacheFile :=
  {| cacheID := cacheID c; rdrcTimeout := rdrcTimeout c; optimisticTimeout := optimisticTimeout c;
     disableExpire := disableExpire c; db := db c; saveMetadataTimer := saveMetadataTimer c; saveDomain := saveDomain c;
     saveAddress4 := saveAddress4 c; saveAddress6 := saveAddress6 c; saveRDRC := saveRDRC c; saveDNSCache := m |}.

(** [c.batch(fn)] and [c.update(fn)] on the cache file. *)
Definition run_batch {A} (fn : DB -> outcome (A * DB)) (c : CacheFile) : outcome A * CacheFile :=
  let '(r, d) := batch fn (db c) in (r, with_db c d).
(** A transaction with no result. *)
Definition tx (fn : DB -> outcome DB) : DB -> outcome (unit * DB) := fun d => let* d' := fn d in Ok (tt, d').

(** [bucket] and [createBucket]: the bucket of this cache ID. *)
Definition bucket (c : CacheFile) (d : DB) (key : bytes) : option path :=
  match cacheID c with
  | None => if has_bucket d [key] then Some [key] else None
  | Some id => if has_bucket d [id] then if has_bucket d [id; key] then Some [id; key] else None else None
  end.
Definition createBucket (c : CacheFile) (key : bytes) (d : DB) : outcome (path * DB) :=
  match cacheID c with
  | None => let* d := b_create [key] d in Ok ([key], d)
  | Some id =>
      let* d := b_create [id] d in
      let* d := b_create [id; key] d in
      Ok ([id; key], d)
  end.

Definition mode_key (c : CacheFile) : bytes :=
  match cacheID c with Some (x :: id) => x :: id | _ => cacheIDDefault end.
Definition LoadMode (c : CacheFile) : string :=
  if has_bucket (db c) [bucketMode] then string_of_bytes (default [] (b_get (db c) [bucketMode] (mode_key c))) else "".
Definition StoreMode (mode : string) (c : CacheFile) : outcome unit * CacheFile :=
  run_batch (tx (fun d =>
    let* d := b_create [bucketMode] d in
    b_put [bucketMode] (mode_key c) (bytes_of_string mode) d)) c.

Definition LoadSelected (group : string) (c : CacheFile) : string :=
  match bucket c (db c) bucketSelected with
  | None => ""
  | Some p => string_of_bytes (default [] (b_get (db c) p (bytes_of_string group)))
  end.
Definition StoreSelected (group selected : string) (c : CacheFile) : outcome unit * CacheFile :=
  run_batch (tx (fun d =>
    let* (p, d) := createBucket c bucketSelected d in
    b_put p (bytes_of_string group) (bytes_of_string selected) d)) c.

(** The pair [(isExpand, loaded)]. *)
Definition LoadGroupExpand (group : string) (c : CacheFile) : bool * bool :=
  match bucket c (db c) bucketExpand with
  | None => (false, false)
  | Some p =>
      match b_get (db c) p (bytes_of_string group) with
      | Some [b] => (b =? 1, true)
      | _ => (false, false)
      end
  end.
Definition StoreGroupExpand (group : string) (isExpand : bool) (c : CacheFile) : outcome unit * CacheFile :=
  run_batch (tx (fun d =>
    let* (p, d) := createBucket c bucketExpand d in
    b_put p (bytes_of_string group) [if isExpand then 1 else 0] d)) c.

(** [LoadRuleSet]: a panic of the decoder resets the database. *)
Definition LoadRuleSet (tag : string) (c : CacheFile) : option SavedBinary * CacheFile :=
  match bucket c (db c) bucketRuleSet with
  | None => (None, c)
  | Some p =>
      match b_get (db c) p (bytes_of_string tag) with
      | None | Some [] => (None, c)
      | Some setBinary =>
          match SavedBinary_UnmarshalBinary setBinary with
          | Ok s => (Some s, c)
          | Panic _ => (None, with_db c db_empty)
          | _ => (None, c)
          end
      end
  end.
Definition SaveRuleSet (tag : string) (set : SavedBinary) (c : CacheFile) : outcome unit * CacheFile :=
  run_batch (tx (fun d =>
    let* (p, d) := createBucket c bucketRuleSet d in
    b_put p (bytes_of_string tag) (SavedBinary_MarshalBinary set) d)) c.

(** ** fakeip.go *)

(** [FakeIPMetadata] deletes what it returns. *)
Definition cache_FakeIPMetadata (c : CacheFile) : option FakeIPMetadata * CacheFile :=
  let '(r, c) := run_batch (fun d =>
    if negb (has_bucket d [bucketFakeIP]) then Err (ENew "file does not exist")
    else match b_get d [bucketFakeIP] keyMetadata with
         | None | Some [] => Err ErrInvalid
         | Some metadataBinary =>
             let* d := b_delete [bucketFakeIP] keyMetadata d in
             let* m := UnmarshalBinary metadataBinary in
             Ok (m, d)
         end) c in
  (match r with Ok m => Some m | _ => None end, c).

Definition cache_FakeIPSaveMetadata (m : FakeIPMetadata) (c : CacheFile) : CacheFile :=
  (run_batch (tx (fun d =>
     let* d := b_create [bucketFakeIP] d in
     b_put [bucketFakeIP] keyMetadata (MarshalBinary m) d)) c).2.

(** The callback of the timer is created with the first metadata; later calls
    only arm the timer again. *)
Definition cache_FakeIPSaveMetadataAsync (m : FakeIPMetadata) (c : CacheFile) : CacheFile :=
  match saveMetadataTimer c with
  | None => with_timer c (Some (m, true))
  | Some (captured, _) => with_timer c (Some (captured, true))
  end.
(** The timer fires. *)
Definition timer_fire (c : CacheFile) : CacheFile :=
  match saveMetadataTimer c with
  | Some (captured, true) => with_timer (cache_FakeIPSaveMetadata captured c) (Some (captured, false))
  | _ => c
  end.

Definition domain_bucket (a : Addr) : bytes := if Is4 a then bucketFakeIPDomain4 else bucketFakeIPDomain6.

Definition FakeIPStore_tx (address : Addr) (domain : string) (d : DB) : outcome DB :=
  let* d := b_create [bucketFakeIP] d in
  let oldDomain := b_get d [bucketFakeIP] (AsSlice address) in
  let* d := b_put [bucketFakeIP] (AsSlice address) (bytes_of_string domain) d in
  let* d := b_create [domain_bucket address] d in
  let* d := match oldDomain with
            | Some old => b_delete [domain_bucket address] old d
            | None => Ok d
            end in
  b_put [domain_bucket address] (bytes_of_string domain) (AsSlice address) d.
Definition cache_FakeIPStore (address : Addr) (domain : string) (c : CacheFile) : CacheFile :=
  (run_batch (tx (FakeIPStore_tx address domain)) c).2.

(** [FakeIPStoreAsync] before its goroutine, and the goroutine. *)
Definition FakeIPStoreAsync (address : Addr) (domain : string) (c : CacheFile) : CacheFile :=
  let '(a4, a6) := match saveDomain c !! address with
                   | Some oldDomain =>
                       if Is4 address then (delete oldDomain (saveAddress4 c), saveAddress6 c)
                       else (saveAddress4 c, delete oldDomain (saveAddress6 c))
                   | None => (saveAddress4 c, saveAddress6 c)
                   end in
  if Is4 address then with_save c (<[address := domain]> (saveDomain c)) (<[domain := address]> a4) a6
  else with_save c (<[address := domain]> (saveDomain c)) a4 (<[domain := address]> a6).
Definition FakeIPStoreAsync_flush (address : Addr) (domain : string) (c : CacheFile) : CacheFile :=
  let c := cache_FakeIPStore address domain c in
  if Is4 address then with_save c (delete address (saveDomain c)) (delete domain (saveAddress4 c)) (saveAddress6 c)
  else with_save c (delete address (saveDomain c)) (saveAddress4 c) (delete domain (saveAddress6 c)).

Definition cache_FakeIPLoad (c : CacheFile) (address : Addr) : option string :=
  match saveDomain c !! address with
  | Some cachedDomain => Some cachedDomain
  | None =>
      let domain := if has_bucket (db c) [bucketFakeIP]
                    then string_of_bytes (default [] (b_get (db c) [bucketFakeIP] (AsSlice address))) else "" in
      if bool_decide (domain = "") then None else Some domain
  end.

Definition cache_FakeIPLoadDomain (c : CacheFile) (domain : string) (isIPv6 : bool) : option Addr :=
  match (if negb isIPv6 then saveAddress4 c else saveAddress6 c) !! domain with
  | Some cachedAddress => Some cachedAddress
  | None =>
      let b := if isIPv6 then bucketFakeIPDomain6 else bucketFakeIPDomain4 in
      let address := if has_bucket (db c) [b]
                     then AddrFromIP (default [] (b_get (db c) [b] (bytes_of_string domain))) else addr_zero in
      if IsValid address then Some address else None
  end.

(** [FakeIPReset] and what its error does to the transaction. *)
Definition FakeIPReset_tx (d : DB) : outcome DB :=
  let* d := b_remove [bucketFakeIP] d in
  let* d := b_remove [bucketFakeIPDomain4] d in
  b_remove [bucketFakeIPDomain6] d.
Definition cache_FakeIPReset (c : CacheFile) : CacheFile := (run_batch (tx FakeIPReset_tx) c).2.

#[export] Instance cache_storage : FakeIPStorage CacheFile := {|
  FakeIPMetadata_ := cache_FakeIPMetadata;
  FakeIPSaveMetadata := cache_FakeIPSaveMetadata;
  FakeIPSaveMetadataAsync := cache_FakeIPSaveMetadataAsync;
  FakeIPStore := cache_FakeIPStore;
  FakeIPLoad := cache_FakeIPLoad;
  FakeIPLoadDomain := cache_FakeIPLoadDomain;
  FakeIPReset := cache_FakeIPReset
|}.

(** ** rdrc.go *)

Definition question_key (qName : string) (qType : Z) : bytes := be_bytes 2 qType ++ bytes_of_string qName.

(** The bucket of a transport below the bucket [key]. *)
Definition transport_bucket (c : CacheFile) (d : DB) (key : bytes) (transportName : string) : option path :=
  match bucket c d key with
  | None => None
  | Some p =>
      let p := p ++ [bytes_of_string transportName] in
      if has_bucket d p then Some p else None
  end.
(** The transaction of [SaveRDRC] and [SaveDNSCache]. *)
Definition save_in_transport (c : CacheFile) (key : bytes) (transportName qName : string) (qType : Z)
    (value : bytes) (d : DB) : outcome DB :=
  let* (p, d) := createBucket c key d in
  let p := p ++ [bytes_of_string transportName] in
  let* d := b_create p d in
  b_put p (question_key qName qType) value d.

(** [binary.BigEndian.Uint64] panics on fewer than eight bytes. *)
Definition Uint64 (b : bytes) : outcome Z :=
  if zlen b <? 8 then Panic "index out of range" else Ok (be_val (take 8 b)).

(** [LoadRDRC] at the time [now]; an expired entry is deleted, an entry that is
    too short resets the database. *)
Definition LoadRDRC (now : Z) (transportName qName : string) (qType : Z) (c : CacheFile) : bool * CacheFile :=
  match saveRDRC c !! MkSaveKey transportName qName qType with
  | Some rejected => (rejected, c)
  | None =>
      let key := question_key qName qType in
      match transport_bucket c (db c) bucketRDRC transportName with
      | None => (false, c)
      | Some p =>
          match b_get (db c) p key with
          | None => (false, c)
          | Some content =>
              match Uint64 content with
              | Ok x =>
                  if from_Unix (int64 x) <? now then (false, (run_batch (tx (b_delete p key)) c).2)
                  else (true, c)
              | _ => (false, with_db c db_empty)
              end
          end
      end
  end.
Definition SaveRDRC (now : Z) (transportName qName : string) (qType : Z) (c : CacheFile) : outcome unit * CacheFile :=
  let expiresAt := be_bytes 8 (uint 64 (Unix (now + rdrcTimeout c))) in
  run_batch (tx (save_in_transport c bucketRDRC transportName qName qType expiresAt)) c.
(** [SaveRDRCAsync] before its goroutine, and the goroutine. *)
Definition SaveRDRCAsync (transportName qName : string) (qType : Z) (c : CacheFile) : CacheFile :=
  with_rdrc c (<[MkSaveKey transportName qName qType := true]> (saveRDRC c)).
Definition SaveRDRCAsync_flush (now : Z) (transportName qName : string) (qType : Z) (c : CacheFile) : CacheFile :=
  let c := (SaveRDRC now transportName qName qType c).2 in
  with_rdrc c (delete (MkSaveKey transportName qName qType) (saveRDRC c)).

(** ** dns_cache.go *)

Definition LoadDNSCache (transportName qName : string) (qType : Z) (c : CacheFile) : option (bytes * Z) :=
  match saveDNSCache c !! MkSaveKey transportName qName qType with
  | Some entry => Some (rawMessage entry, expireAt entry)
  | None =>
      match transport_bucket c (db c) bucketDNSCache transportName with
      | None => None
      | Some p =>
          match b_get (db c) p (question_key qName qType) with
          | None => None
          | Some content =>
              if zlen content <? 8 then None
              else Some (drop 8 content, from_Unix (int64 (be_val (take 8 content))))
          end
      end
  end.
Definition SaveDNSCache (transportName qName : string) (qType : Z) (raw : bytes) (at_ : Z) (c : CacheFile)
    : outcome unit * CacheFile :=
  let value := be_bytes 8 (uint 64 (Unix at_)) ++ raw in
  run_batch (tx (save_in_transport c bucketDNSCache transportName qName qType value)) c.

(** [queueDNSCacheSave]: true when the caller starts a flush. *)
Definition queueDNSCacheSave (saveKey : saveCacheKey) (raw : bytes) (at_ : Z) (c : CacheFile) : bool * CacheFile :=
  let entry := default {| rawMessage := []; expireAt := 0; sequence := 0; saving := false |} (saveDNSCache c !! saveKey) in
  let startFlush := negb (saving entry) in
  let entry := {| rawMessage := raw; expireAt := at_; sequence := uint 64 (sequence entry + 1); saving := true |} in
  (startFlush, with_dns c (<[saveKey := entry]> (saveDNSCache c))).

(** The three critical sections of [flushPendingDNSCacheWith]: reading the
    pending entry, saving it, and deciding whether to go on. *)
Definition flush_read (saveKey : saveCacheKey) (c : CacheFile) : option saveDNSCacheEntry := saveDNSCache c !! saveKey.
Definition flush_save (saveKey : saveCacheKey) (entry : saveDNSCacheEntry) (c : CacheFile) : CacheFile :=
  (SaveDNSCache (TransportName saveKey) (QuestionName saveKey) (QType saveKey)
     (rawMessage entry) (expireAt entry) c).2.
(** True: the loop goes on. *)
Definition flush_finish (saveKey : saveCacheKey) (entry : saveDNSCacheEntry) (c : CacheFile) : bool * CacheFile :=
  match saveDNSCache c !! saveKey with
  | None => (false, c)
  | Some currentEntry =>
      if negb (sequence currentEntry =? sequence entry) then (true, c)
      else (false, with_dns c (delete saveKey (saveDNSCache c)))
  end.

(** The transaction of [ClearDNSCache] and [clearRDRC]. *)
Definition clear_tx (c : CacheFile) (key : bytes) (d : DB) : outcome DB :=
  match cacheID c with
  | None => if has_bucket d [key] then b_remove [key] d else Ok d
  | Some id =>
      if negb (has_bucket d [id]) || negb (has_bucket d [id; key]) then Ok d else b_remove [id; key] d
  end.
(** [ClearDNSCache]: the pending map first, then the database. *)
Definition ClearDNSCache_pending (c : CacheFile) : CacheFile := with_dns c ∅.
Definition ClearDNSCache_db (c : CacheFile) : outcome unit * CacheFile := run_batch (tx (clear_tx c bucketDNSCache)) c.
Definition clearRDRC (c : CacheFile) : CacheFile :=
  let c := with_rdrc c ∅ in (run_batch (tx (clear_tx c bucketRDRC)) c).2.

(** Deleting a list of keys of one bucket. *)
Fixpoint delete_keys (p : path) (keys : list bytes) (d : DB) : outcome DB :=
  match keys with
  | [] => Ok d
  | k :: keys => let* d := b_delete p k d in delete_keys p keys d
  end.
(** The loop of the two clean-ups over the transports of [p]: delete the expired
    keys, collect the transports that are empty. *)
Fixpoint cleanup_transports (expired : bytes -> bool) (p : path) (names : list bytes) (empty : list bytes) (d : DB)
    : outcome (list bytes * DB) :=
  match names with
  | [] => Ok (empty, d)
  | n :: names =>
      let q := p ++ [n] in
      if negb (has_bucket d q) then cleanup_transports expired p names empty d
      else
        let expiredKeys := omap (fun e => if expired (default [] e.2) then Some e.1 else None) (b_foreach d q) in
        let* d := delete_keys q expiredKeys d in
        cleanup_transports expired p names (if bool_decide (b_foreach d q = []) then empty ++ [n] else empty) d
  end.
Fixpoint remove_buckets (p : path) (names : list bytes) (d : DB) : outcome DB :=
  match names with
  | [] => Ok d
  | n :: names => let* d := b_remove (p ++ [n]) d in remove_buckets p names d
  end.
Definition cleanup_tx (expired : bytes -> bool) (c : CacheFile) (key : bytes) (d : DB) : outcome DB :=
  match bucket c d key with
  | None => Ok d
  | Some p =>
      let* (empty, d) := cleanup_transports expired p (b_buckets d p) [] d in
      remove_buckets p empty d
  end.

(** The values a clean-up drops. *)
Definition dns_expired (c : CacheFile) (now : Z) (value : bytes) : bool :=
  if zlen value <? 8 then true
  else if disableExpire c then false
  else from_Unix (int64 (be_val (take 8 value))) + optimisticTimeout c <? now.
Definition rdrc_expired (now : Z) (value : bytes) : bool :=
  if zlen value <? 8 then true else from_Unix (int64 (be_val (take 8 value))) <? now.
Definition cleanupDNSCache (now : Z) (c : CacheFile) : CacheFile :=
  (run_batch (tx (cleanup_tx (dns_expired c now) c bucketDNSCache)) c).2.
Definition cleanupRDRC (now : Z) (c : CacheFile) : CacheFile :=
  (run_batch (tx (cleanup_tx (rdrc_expired now) c bucketRDRC)) c).2.

End CacheFile.

Arguments CacheFile DB : clear implicits.
