(* ===== verification/CacheFileSpec.v ===== *)
(** * Cache file: correctness

    The cache file implements the storage interface of the FakeIP allocator;
    what it stores is what it loads, per cache ID; the clean-ups remove exactly
    the expired entries.  Proved for every database with the documented behaviour
    of bbolt ([BoltLaws]). *)

From S2P Require Import Prelude GoStd Netip External Concrete FakeIP FakeIPSpec Bolt CacheFile.
Local Open Scope Z_scope.

Section Spec.
Context {DB : Type} `{HB : Bolt DB} `{HL : !BoltLaws DB} {X : External} `{XL : !ExternalLaws X}.
Implicit Types (d : DB) (c : CacheFile DB) (a : Addr) (p : path).

(** ** FakeIP: the stored tables *)

Definition fakeip_bucket (b : bytes) : Prop := b = bucketFakeIP \/ b = bucketFakeIPDomain4 \/ b = bucketFakeIPDomain6.

(** A database in which the three buckets, where they exist, are flat. *)
Definition db_ok d : Prop :=
  (forall k, b_get d [] k = None)
  /\ (forall b k, fakeip_bucket b -> has_bucket d [b; k] = false)
  /\ (forall a v, storable_addr a -> b_get d [bucketFakeIP] (AsSlice a) = Some v -> Forall is_byte v).

(** Nothing is pending and the two directions of the table agree. *)
Definition cache_ok c : Prop :=
  saveDomain c = ∅ /\ saveAddress4 c = ∅ /\ saveAddress6 c = ∅ /\ db_ok (db c) /\ coherent c.

(** What a stored text and a stored address mean. *)
Definition text_of (o : option bytes) : option string :=
  let s := string_of_bytes (default [] o) in if bool_decide (s = "") then None else Some s.
Definition addr_of (o : option bytes) : option Addr :=
  let a := AddrFromIP (default [] o) in if IsValid a then Some a else None.

Definition names_bucket (v6 : bool) : bytes := if v6 then bucketFakeIPDomain6 else bucketFakeIPDomain4.

Lemma names_bucket_fakeip v6 : fakeip_bucket (names_bucket v6).
Proof. destruct v6; unfold fakeip_bucket; auto. Qed.
Lemma domain_bucket_names a : domain_bucket a = names_bucket (negb (Is4 a)).
Proof. unfold domain_bucket. by destruct (Is4 a). Qed.
Lemma names_bucket_ne v6 : names_bucket v6 <> bucketFakeIP.
Proof. by destruct v6. Qed.
Lemma names_bucket_inj v w : names_bucket v = names_bucket w -> v = w.
Proof. by destruct v, w. Qed.

Lemma load_raw c a : saveDomain c = ∅ -> cache_FakeIPLoad c a = text_of (b_get (db c) [bucketFakeIP] (AsSlice a)).
Proof.
  intros Hs. unfold cache_FakeIPLoad, text_of. rewrite Hs, lookup_empty.
  destruct (has_bucket (db c) [bucketFakeIP]) eqn:E; [done|]. by rewrite (get_missing _ _ _ E).
Qed.

Lemma addr_of_none : addr_of None = None.
Proof. unfold addr_of. cbn [from_option id]. by rewrite AddrFromIP_slice. Qed.

Lemma load_domain_raw c e v6 :
  saveAddress4 c = ∅ -> saveAddress6 c = ∅ ->
  cache_FakeIPLoadDomain c e v6 = addr_of (b_get (db c) [names_bucket v6] (bytes_of_string e)).
Proof.
  intros H4 H6. unfold cache_FakeIPLoadDomain. rewrite H4, H6.
  assert ((if negb v6 then ∅ else ∅ : gmap string Addr) !! e = None) as -> by (destruct v6; apply lookup_empty).
  fold (names_bucket v6). destruct (has_bucket (db c) [names_bucket v6]) eqn:E; [done|].
  rewrite (get_missing _ _ _ E), addr_of_none. done.
Qed.

Lemma text_of_string s : s <> "" -> text_of (Some (bytes_of_string s)) = Some s.
Proof. intros Hs. unfold text_of. cbn [from_option id]. rewrite string_of_bytes_of_string, bool_decide_false; done. Qed.

Lemma text_of_Some o s :
  text_of o = Some s -> (forall v, o = Some v -> Forall is_byte v) -> o = Some (bytes_of_string s).
Proof.
  unfold text_of. destruct o as [v|]; cbn [from_option id]; [|done]. case_bool_decide; [done|]. intros [= <-] Hv.
  by rewrite bytes_of_string_of_bytes by auto.
Qed.

Lemma addr_of_slice a : storable_addr a -> addr_of (Some (AsSlice a)) = Some a.
Proof. intros [Hp Hv]. unfold addr_of. cbn [from_option id]. by rewrite AddrFromIP_AsSlice, Hv. Qed.

Lemma bytes_of_string_inj s t : bytes_of_string s = bytes_of_string t -> s = t.
Proof. intros H. by rewrite <- (string_of_bytes_of_string s), H, string_of_bytes_of_string. Qed.

Lemma AsSlice_inj a b : storable_addr a -> storable_addr b -> AsSlice a = AsSlice b -> a = b.
Proof.
  intros [(Ha & Hza & _) Hva] [(Hb & Hzb & _) Hvb] H.
  rewrite <- (AddrFromSlice_AsSlice a), <- (AddrFromSlice_AsSlice b) by done. by rewrite H.
Qed.

Lemma AsSlice_key a : storable_addr a -> AsSlice a <> [] /\ zlen (AsSlice a) <= MaxKeySize /\ AsSlice a <> keyMetadata.
Proof.
  intros [_ Hv]. assert (Hl : length (AsSlice a) = 4%nat \/ length (AsSlice a) = 16%nat).
  { destruct a; cbn [AsSlice] in *; rewrite ?length_be_bytes; auto. done. }
  split; [|split].
  - intros H. rewrite H in Hl. cbn in Hl. lia.
  - pose proof (zlen_AsSlice a). unfold MaxKeySize. lia.
  - intros H. rewrite H in Hl. vm_compute in Hl. lia.
Qed.

Lemma name_key e : dns_name e -> bytes_of_string e <> [] /\ zlen (bytes_of_string e) <= MaxKeySize.
Proof.
  intros [He Hl]. split; [|rewrite length_bytes_of_string; unfold MaxKeySize; lia].
  intros H. apply He. apply bytes_of_string_inj. by rewrite H.
Qed.

#[local] Opaque bucketFakeIP bucketFakeIPDomain4 bucketFakeIPDomain6 keyMetadata names_bucket bytes_of_string AsSlice.

(** An entry of another bucket, and of the same bucket. *)
Lemma decide_other {A} (q q' : path) (P : Prop) `{Decision P} (x y : A) :
  q <> q' -> (if decide (q = q' /\ P) then x else y) = y.
Proof. intros Hne. by rewrite decide_False by (by intros [? _]). Qed.
Lemma decide_same {A} (q : path) (P : Prop) `{Decision P} (x y : A) :
  (if decide (q = q /\ P) then x else y) = if decide P then x else y.
Proof. destruct (decide P); [by rewrite decide_True|]. by rewrite decide_False by (by intros [_ ?]). Qed.
Lemma single_ne (b b' : bytes) : b <> b' -> [b] <> [b'].
Proof. congruence. Qed.

Lemma db_ok_update d d' :
  db_ok d -> (forall b k, has_bucket d' [b; k] = has_bucket d [b; k]) -> (forall k, b_get d' [] k = b_get d [] k) ->
  (forall a v, storable_addr a -> b_get d' [bucketFakeIP] (AsSlice a) = Some v ->
     Forall is_byte v \/ b_get d [bucketFakeIP] (AsSlice a) = Some v) -> db_ok d'.
Proof.
  intros (Hr & Hf & Hv) Hh Hg Ha. split; [intros; by rewrite Hg|]. split; [intros; rewrite Hh; by apply Hf|].
  intros a v Hs Hl. destruct (Ha a v Hs Hl); [done|]. by apply (Hv a).
Qed.

(** Creating one of the three buckets changes no entry. *)
Lemma create_fakeip d b :
  db_ok d -> fakeip_bucket b ->
  exists d', b_create [b] d = Ok d' /\ db_ok d' /\ has_bucket d' [b] = true
    /\ (forall p k, b_get d' p k = b_get d p k) /\ (forall q, has_bucket d q = true -> has_bucket d' q = true)
    /\ (forall q, q <> [b] -> has_bucket d' q = has_bucket d q).
Proof.
  intros Hd Hb. pose proof Hd as (Hr & _ & _).
  destruct (create_ok d [] b (root_bucket d)) as (d' & Hc & Hh & Hg); [by destruct Hb as [->|[->| ->]]|apply Hr|].
  cbn [app] in *. exists d'. split; [done|]. split; [|split; [by rewrite Hh, decide_True|split; [done|]]].
  - apply (db_ok_update d); [done|intros; by rewrite Hh, decide_False|auto|]. intros ? ? _. rewrite Hg. by right.
  - split; intros q Hq; rewrite Hh; [by destruct (decide _)|by rewrite decide_False].
Qed.

Lemma put_fakeip d b k v :
  db_ok d -> fakeip_bucket b -> has_bucket d [b] = true -> k <> [] -> zlen k <= MaxKeySize -> zlen v <= MaxValueSize ->
  exists d', b_put [b] k v d = Ok d' /\ (forall q, has_bucket d' q = has_bucket d q)
    /\ (forall p j, b_get d' p j = if decide (p = [b] /\ j = k) then Some v else b_get d p j).
Proof. intros (_ & Hf & _) Hb Hh Hk Hl Hv. apply put_ok; try done. split; [done|]. split; [done|]. by apply Hf. Qed.

(** [FakeIPStore] commits, and what it changes. *)
Lemma FakeIPStore_tx_ok d a e :
  db_ok d -> storable a e ->
  exists d', FakeIPStore_tx a e d = Ok d' /\ db_ok d'
    /\ (forall b, b_get d' [bucketFakeIP] b = if decide (b = AsSlice a) then Some (bytes_of_string e) else b_get d [bucketFakeIP] b)
    /\ (forall w k, b_get d' [names_bucket w] k
          = if decide (w = negb (Is4 a)) then
              if decide (k = bytes_of_string e) then Some (AsSlice a)
              else if decide (b_get d [bucketFakeIP] (AsSlice a) = Some k) then None else b_get d [names_bucket w] k
            else b_get d [names_bucket w] k).
Proof.
  intros Hd [Ha He]. pose proof (AsSlice_key a Ha) as (Hk & Hkl & _). pose proof (name_key e He) as [Hn Hnl].
  unfold FakeIPStore_tx. rewrite domain_bucket_names. set (nb := names_bucket (negb (Is4 a))).
  assert (Hnb : fakeip_bucket nb) by apply names_bucket_fakeip.
  assert (Hne : bucketFakeIP <> nb) by (intros H; symmetry in H; by apply names_bucket_ne in H).
  destruct (create_fakeip d bucketFakeIP Hd ltac:(by left)) as (d1 & -> & Hd1 & Hh1 & Hg1 & _). cbn [obind].
  rewrite Hg1. destruct (put_fakeip d1 bucketFakeIP (AsSlice a) (bytes_of_string e)) as (d2 & -> & Hh2 & Hg2);
    [done|by left|done..|unfold MaxValueSize, MaxKeySize in *; lia|]. cbn [obind].
  assert (Hd2 : db_ok d2).
  { apply (db_ok_update d1); [done|intros; apply Hh2|intros; by rewrite Hg2, decide_other|].
    intros b v _. rewrite Hg2. case_decide; [|by right]. intros [= <-]. left. apply bytes_of_string_range. }
  destruct (create_fakeip d2 nb Hd2 Hnb) as (d3 & -> & Hd3 & Hh3 & Hg3 & _). cbn [obind].
  set (old := b_get d [bucketFakeIP] (AsSlice a)).
  assert (exists d4, match old with Some o => b_delete [nb] o d3 | None => Ok d3 end = Ok d4
    /\ (forall q, has_bucket d4 q = has_bucket d3 q)
    /\ (forall p k, b_get d4 p k = if decide (p = [nb] /\ old = Some k) then None else b_get d3 p k))
    as (d4 & -> & Hh4 & Hg4).
  { destruct old as [o|].
    - destruct (delete_ok d3 [nb] o Hh3) as (d4 & Hdel & Hh & Hg); [by apply Hd3|]. exists d4. repeat split; try done.
      intros p k. rewrite Hg. repeat case_decide; naive_solver.
    - exists d3. repeat split; try done. intros. rewrite decide_False by naive_solver. done. }
  cbn [obind]. assert (Hd4 : db_ok d4).
  { apply (db_ok_update d3); [done|intros; apply Hh4|intros; by rewrite Hg4, decide_other|].
    intros b v _. rewrite Hg4. case_decide; [done|by right]. }
  destruct (put_fakeip d4 nb (bytes_of_string e) (AsSlice a)) as (d5 & -> & Hh5 & Hg5);
    [done|done|by rewrite Hh4|done..|unfold MaxValueSize, MaxKeySize in *; lia|].
  exists d5. split; [done|]. split; [|split].
  - apply (db_ok_update d4); [done|intros; apply Hh5|intros; by rewrite Hg5, decide_other|].
    intros b v _. rewrite Hg5, decide_other by (by apply single_ne). by right.
  - intros b. rewrite Hg5, Hg4, Hg3, Hg2, Hg1. by rewrite !decide_other, decide_same by (by apply single_ne).
  - intros w k. rewrite Hg5, Hg4, Hg3, Hg2, Hg1. assert (Hnw : names_bucket w <> bucketFakeIP) by apply names_bucket_ne.
    destruct (decide (w = negb (Is4 a))) as [->|Hw].
    + fold nb. rewrite !decide_same, decide_other by (by apply single_ne). done.
    + assert (names_bucket w <> nb) by (intros H%names_bucket_inj; done).
      by rewrite !decide_other by (by apply single_ne).
Qed.

Lemma run_tx_ok (fn : DB -> outcome DB) c d' : fn (db c) = Ok d' -> run_batch (tx fn) c = (Ok tt, with_db c d').
Proof. intros H. unfold run_batch, batch, tx. by rewrite H. Qed.
Lemma run_tx_err (fn : DB -> outcome DB) c e : fn (db c) = Err e -> run_batch (tx fn) c = (Err e, with_db c (db c)).
Proof. intros H. unfold run_batch, batch, tx. by rewrite H. Qed.
Lemma with_db_same c : with_db c (db c) = c.
Proof. by destruct c. Qed.

(** What the storage answers after [FakeIPStore]. *)
Lemma cache_store_eqs c a e :
  cache_ok c -> storable a e ->
  exists d', cache_FakeIPStore a e c = with_db c d' /\ db_ok d'
    /\ (forall b, storable_addr b ->
          cache_FakeIPLoad (with_db c d') b = if decide (b = a) then Some e else cache_FakeIPLoad c b)
    /\ (forall f w, cache_FakeIPLoadDomain (with_db c d') f w
          = if decide (w = negb (Is4 a)) then
              if decide (f = e) then Some a
              else if decide (cache_FakeIPLoad c a = Some f) then None else cache_FakeIPLoadDomain c f w
            else cache_FakeIPLoadDomain c f w).
Proof.
  intros (Hs & H4 & H6 & Hd & Hc) Hst. pose proof Hst as [Ha He].
  destruct (FakeIPStore_tx_ok (db c) a e Hd Hst) as (d' & Htx & Hd' & Hg & Hn).
  exists d'. unfold cache_FakeIPStore. rewrite (run_tx_ok _ c d' Htx). split; [done|]. split; [done|].
  split; [intros b Hb|intros f w].
  - rewrite !load_raw by done. cbn [db with_db]. rewrite Hg.
    destruct (decide (b = a)) as [->|Hne]; [rewrite decide_True by done; by apply text_of_string, He|].
    rewrite decide_False; [done|]. intros H. by apply AsSlice_inj in H.
  - pose proof (Hc f w) as Hcf. cbn [FakeIPLoadDomain FakeIPLoad cache_storage] in Hcf.
    rewrite load_raw, !load_domain_raw by done. cbn [db with_db]. rewrite Hn.
    destruct (decide (w = negb (Is4 a))) as [->|Hw]; [|done].
    destruct (decide (f = e)) as [->|Hfe]; [rewrite decide_True by done; by apply addr_of_slice|].
    rewrite decide_False by (intros H%bytes_of_string_inj; done).
    destruct (decide (text_of _ = Some f)) as [Hl|Hl].
    + rewrite decide_True; [apply addr_of_none|]. apply text_of_Some; [done|]. intros v. by apply Hd.
    + destruct (decide (b_get (db c) [bucketFakeIP] (AsSlice a) = Some (bytes_of_string f))) as [Hr|Hr]; [|done].
      rewrite addr_of_none. rewrite Hr in Hl. destruct (addr_of _) as [x|] eqn:Hx; [|done].
      destruct (proj1 (Hcf x)) as ([_ [Hf _]] & _); [by rewrite load_domain_raw|]. by rewrite text_of_string in Hl.
Qed.

(** The answers depend on the entries of the three buckets only. *)
Lemma cache_ok_ext c d' :
  cache_ok c -> db_ok d' ->
  (forall a, storable_addr a -> b_get d' [bucketFakeIP] (AsSlice a) = b_get (db c) [bucketFakeIP] (AsSlice a)) ->
  (forall w k, b_get d' [names_bucket w] k = b_get (db c) [names_bucket w] k) ->
  cache_ok (with_db c d').
Proof.
  intros (Hs & H4 & H6 & Hd & Hc) Hd' Hg Hn. do 4 (split; [done|]). intros f w a. pose proof (Hc f w a) as Hcf.
  cbn [FakeIPLoadDomain FakeIPLoad cache_storage] in *. rewrite load_raw, load_domain_raw in * by done.
  cbn [db with_db]. rewrite Hn, Hcf. split; intros ([Ha ?] & Hl & ?); (split; [done|]); split; try done;
    [by rewrite Hg|by rewrite Hg in Hl].
Qed.

(** A database without the entries of the three buckets. *)
Lemma cache_ok_cleared c d' :
  saveDomain c = ∅ -> saveAddress4 c = ∅ -> saveAddress6 c = ∅ -> db_ok d' ->
  (forall b k, fakeip_bucket b -> b_get d' [b] k = None) -> cache_ok (with_db c d').
Proof.
  intros Hs H4 H6 Hd' Hg. do 4 (split; [done|]). intros f w a. cbn [FakeIPLoadDomain FakeIPLoad cache_storage].
  rewrite load_raw, load_domain_raw by done. cbn [db with_db].
  rewrite !Hg by (apply names_bucket_fakeip || by left). rewrite addr_of_none. split; [done|]. by intros (_ & [=] & _).
Qed.

Lemma empty_db_ok : db_ok (db_empty : DB).
Proof. split; [intros; apply empty_get|]. split; [by intros; apply empty_bucket|]. intros a v _. by rewrite empty_get. Qed.

Lemma metadata_cache_ok c : cache_ok c -> cache_ok (cache_FakeIPMetadata c).2.
Proof.
  intros Hok. pose proof Hok as (Hs & H4 & H6 & Hd & _). unfold cache_FakeIPMetadata, run_batch, batch.
  destruct (has_bucket (db c) [bucketFakeIP]) eqn:Hb; cbn [negb]; [|by rewrite with_db_same].
  destruct (b_get (db c) [bucketFakeIP] keyMetadata) as [[|x l]|]; [by rewrite with_db_same| |by rewrite with_db_same].
  destruct (delete_ok (db c) [bucketFakeIP] keyMetadata Hb) as (d' & -> & Hh & Hg); [apply Hd; by left|]. cbn [obind].
  destruct (UnmarshalBinary (x :: l)) as [md| | |]; cbn [obind]; [|by rewrite with_db_same|..|by rewrite with_db_same].
  - apply cache_ok_ext; [done| | |].
    + apply (db_ok_update (db c)); [done|intros; apply Hh|intros; by rewrite Hg, decide_other|].
      intros a v _. rewrite Hg. case_decide; [done|by right].
    + intros a Ha. rewrite Hg, decide_same, decide_False; [done|by apply AsSlice_key].
    + intros w k. rewrite Hg, decide_other; [done|]. by apply single_ne, names_bucket_ne.
  - apply cache_ok_cleared; try done; [apply empty_db_ok|]. intros. apply empty_get.
Qed.

Lemma reset_cache_ok c : cache_ok c -> cache_ok (cache_FakeIPReset c).
Proof.
  intros Hok. pose proof Hok as (Hs & H4 & H6 & Hd & _). unfold cache_FakeIPReset.
  assert (Hrem : forall d b,
    (exists e, b_remove [b] d = Err e)
    \/ exists d', b_remove [b] d = Ok d'
       /\ (forall q, has_bucket d' q = if decide ([b] `prefix_of` q) then false else has_bucket d q)
       /\ forall q j, b_get d' q j = if decide ([b] `prefix_of` q) then None else b_get d q j).
  { intros d b. destruct (has_bucket d [b]) eqn:E; [right; by apply remove_ok|left; by apply remove_missing]. }
  assert (Hroll : forall e, FakeIPReset_tx (db c) = Err e -> cache_ok (run_batch (tx FakeIPReset_tx) c).2).
  { intros e He. rewrite (run_tx_err _ c e He). by rewrite with_db_same. }
  unfold FakeIPReset_tx at 1 in Hroll.
  destruct (Hrem (db c) bucketFakeIP) as [[e He]|(d1 & H1 & Hh1 & Hg1)];
    rewrite ?He, ?H1 in Hroll; cbn [obind] in Hroll; [by eapply Hroll|].
  destruct (Hrem d1 bucketFakeIPDomain4) as [[e He]|(d2 & H2 & Hh2 & Hg2)];
    rewrite ?He, ?H2 in Hroll; cbn [obind] in Hroll; [by eapply Hroll|].
  destruct (Hrem d2 bucketFakeIPDomain6) as [[e He]|(d3 & H3 & Hh3 & Hg3)]; [by eapply Hroll|].
  rewrite (run_tx_ok _ c d3) by (unfold FakeIPReset_tx; by rewrite H1; cbn [obind]; rewrite H2).
  assert (Hnil : forall b, ~ [b : bytes] `prefix_of` []) by (by intros b ?%prefix_nil_inv).
  apply cache_ok_cleared; try done.
  - destruct Hd as (Hr & Hf & Hv). split; [|split].
    + intros k. rewrite Hg3, Hg2, Hg1. by rewrite !decide_False by apply Hnil.
    + intros b k Hb. rewrite Hh3, Hh2, Hh1. repeat case_decide; try done; by apply Hf.
    + intros a v Ha. rewrite Hg3, Hg2, Hg1. repeat case_decide; try done; by apply Hv.
  - intros b k Hb. rewrite Hg3, Hg2, Hg1. destruct Hb as [->|[->| ->]]; repeat case_decide; try done; naive_solver.
Qed.

#[export] Instance cache_laws : FakeIPStorageLaws (CacheFile DB).
Proof.
  refine {| storage_ok := cache_ok |}; try done.
  - by intros c (_ & _ & _ & _ & Hc).
  - intros c a e Hok Hst Hl. destruct (cache_store_eqs c a e Hok Hst) as (d' & Heq & Hd' & Hld & Hldd). cbn in *.
    rewrite Heq. destruct Hok as (Hs & H4 & H6 & Hd & Hc). do 4 (split; [done|]). by apply (coherent_update c _ a e).
  - intros c a e b Hok Hst Hb. destruct (cache_store_eqs c a e Hok Hst) as (d' & Heq & _ & Hld & _). cbn in *.
    rewrite Heq. by apply Hld.
  - intros m c (Hs & H4 & H6 & Hd & Hc). cbn. unfold cache_FakeIPSaveMetadataAsync.
    destruct (saveMetadataTimer c) as [[]|]; (do 4 (split; [done|])); exact Hc.
  - intros m c. cbn. unfold cache_FakeIPSaveMetadataAsync. by destruct (saveMetadataTimer c) as [[]|].
  - apply metadata_cache_ok.
  - apply reset_cache_ok.
Defined.

(** ** FakeIP: metadata *)

Lemma MarshalBinary_size m : metadata_wf m -> MarshalBinary m <> [] /\ zlen (MarshalBinary m) <= MaxValueSize.
Proof.
  intros (H4 & H6 & Hc4 & Hc6). unfold MarshalBinary, marshal_element.
  pose proof (Prefix_Marshal_length _ H4). pose proof (Prefix_Marshal_length _ H6).
  rewrite (Addr_MarshalBinary_plain _ Hc4), (Addr_MarshalBinary_plain _ Hc6).
  pose proof (zlen_AsSlice (Inet4Current m)). pose proof (zlen_AsSlice (Inet6Current m)).
  split; [by destruct (be_bytes 2 _) eqn:E; [apply (f_equal length) in E; rewrite length_be_bytes in E|]|].
  assert (Hb : forall x, zlen (be_bytes 2 x) = 2) by (intros; unfold zlen; by rewrite length_be_bytes).
  rewrite !zlen_app, !Hb. unfold MaxValueSize. lia.
Qed.

(** Saving the metadata and loading it in a later run of the program. *)
Lemma metadata_save_load c m :
  cache_ok c -> metadata_wf m ->
  exists d', cache_FakeIPSaveMetadata m c = with_db c d' /\ cache_ok (with_db c d')
    /\ (forall a, storable_addr a -> b_get d' [bucketFakeIP] (AsSlice a) = b_get (db c) [bucketFakeIP] (AsSlice a))
    /\ (forall w k, b_get d' [names_bucket w] k = b_get (db c) [names_bucket w] k)
    /\ (forall c', db c' = d' -> exists d'', cache_FakeIPMetadata c' = (Some m, with_db c' d'')
          /\ (forall a, storable_addr a -> b_get d'' [bucketFakeIP] (AsSlice a) = b_get (db c) [bucketFakeIP] (AsSlice a))
          /\ (forall w k, b_get d'' [names_bucket w] k = b_get (db c) [names_bucket w] k)).
Proof.
  intros Hok Hm. pose proof Hok as (Hs & H4 & H6 & Hd & _). destruct (MarshalBinary_size m Hm) as [Hne Hsz].
  destruct (create_fakeip (db c) bucketFakeIP Hd ltac:(by left)) as (d1 & H1 & Hd1 & Hh1 & Hg1 & _).
  destruct (put_fakeip d1 bucketFakeIP keyMetadata (MarshalBinary m)) as (d2 & H2 & Hh2 & Hg2);
    [done|by left|done|by vm_compute|by vm_compute|done|].
  assert (Ha2 : forall a, storable_addr a -> b_get d2 [bucketFakeIP] (AsSlice a) = b_get (db c) [bucketFakeIP] (AsSlice a)).
  { intros a Ha. rewrite Hg2, decide_same, decide_False, Hg1; [done|by apply AsSlice_key]. }
  assert (Hn2 : forall w k, b_get d2 [names_bucket w] k = b_get (db c) [names_bucket w] k).
  { intros w k. rewrite Hg2, decide_other, Hg1; [done|]. by apply single_ne, names_bucket_ne. }
  exists d2. split; [|split; [|split; [done|split; [done|]]]].
  - unfold cache_FakeIPSaveMetadata. rewrite (run_tx_ok _ c d2); [done|]. rewrite H1. exact H2.
  - apply cache_ok_ext; [done| |done|done].
    apply (db_ok_update d1); [done|intros; apply Hh2|intros; by rewrite Hg2, decide_other|].
    intros a v Ha. rewrite Ha2, Hg1 by done. by right.
  - intros c' <-. assert (Hb : has_bucket (db c') [bucketFakeIP] = true) by (by rewrite Hh2).
    destruct (delete_ok (db c') [bucketFakeIP] keyMetadata Hb) as (d3 & H3 & _ & Hg3).
    { rewrite Hh2. apply Hd1. by left. }
    exists d3. unfold cache_FakeIPMetadata, run_batch, batch. rewrite Hb. cbn [negb].
    rewrite (Hg2 [bucketFakeIP] keyMetadata), decide_True by done.
    destruct (MarshalBinary m) as [|x l] eqn:E; [done|]. rewrite H3. cbn [obind].
    rewrite <- E, UnmarshalBinary_MarshalBinary by done. cbn [obind]. split; [done|].
    split; [intros a Ha|intros w k]; rewrite Hg3.
    + rewrite decide_same, decide_False by (by apply AsSlice_key). by apply Ha2.
    + rewrite decide_other by (by apply single_ne, names_bucket_ne). apply Hn2.
Qed.

(** The positions of a store in use are positions of its ranges. *)
Lemma store_metadata_valid (st : Store (CacheFile DB)) c :
  store_inv_on st c ->
  metadata_valid (inet4Range st) (inet6Range st) (metadata_of st (inet4Current st) (inet6Current st)).
Proof.
  intros (_ & _ & Hf) _ _ w. cbn zeta. specialize (Hf w). cbn [Inet4Current Inet6Current metadata_of].
  destruct Hf as [[Hv Hc]|(Hu & _ & _ & Hx)]; destruct w; cbn [range_of current_of] in *;
    [by rewrite Hv..| |]; pose proof Hu as (_ & -> & _); exact Hx.
Qed.

Lemma lookup_raw (c c' : CacheFile DB) a :
  saveDomain c = ∅ -> saveDomain c' = ∅ ->
  b_get (db c') [bucketFakeIP] (AsSlice a) = b_get (db c) [bucketFakeIP] (AsSlice a) ->
  cache_FakeIPLoad c' a = cache_FakeIPLoad c a.
Proof. intros Hs Hs' H. rewrite !load_raw by done. by rewrite H. Qed.

(** C38: closing the store and starting it again with the same ranges on the same
    cache file, in a new process, continues at the same positions, with every
    address still standing for its name, and the allocator's invariant holds. *)
Theorem fakeip_restart_resumes (st : Store (CacheFile DB)) c id timeout :
  store_inv_on st c -> metadata_wf (metadata_of st (inet4Current st) (inet6Current st)) ->
  exists c', storage (Store_Close st) = Some c'
    /\ let st' := Store_Start (New id timeout (db c')) (NewStore (inet4Range st) (inet6Range st)) in
       store_inv st' /\ inet4Current st' = inet4Current st /\ inet6Current st' = inet6Current st
       /\ forall a, storable_addr a -> Lookup st' a = Lookup st a.
Proof.
  intros Hinv Hm. pose proof Hinv as (Hs & Hok & Hf). pose proof Hok as (Hsd & H4 & H6 & _ & _).
  destruct (metadata_save_load c _ Hok Hm) as (d' & Hsave & Hok' & Ha & Hn & Hload).
  unfold Store_Close. rewrite Hs. exists (with_db c d'). split; [cbn; by rewrite <- Hsave|]. cbn [db with_db].
  set (c2 := New id timeout d'). destruct (Hload c2 eq_refl) as (d'' & Hmd & Ha' & Hn').
  assert (Hok2 : cache_ok c2).
  { destruct Hok' as (_ & _ & _ & Hd' & Hc'). do 4 (split; [done|]). intros f w a. specialize (Hc' f w a).
    cbn [FakeIPLoadDomain FakeIPLoad cache_storage] in *. rewrite load_raw, load_domain_raw in * by done. exact Hc'. }
  cbn zeta. split; [|].
  - apply Start_inv; [done|..].
    + specialize (Hf false). destruct Hf as [[Hv _]|(Hu & H & _)]; [by left|by right].
    + specialize (Hf true). destruct Hf as [[Hv _]|(Hu & H & _)]; [by left|by right].
    + intros m. cbn [FakeIPMetadata_ cache_storage]. rewrite Hmd. intros [= <-]. by apply (store_metadata_valid st c).
  - unfold Store_Start. cbn [FakeIPMetadata_ cache_storage]. rewrite Hmd.
    cbn [Inet4Range Inet6Range metadata_of NewStore inet4Range inet6Range]. rewrite !bool_decide_true by done.
    split; [done|]. split; [done|]. intros a Hsa. unfold Lookup. rewrite Hs. cbn [storage with_state andb]. f_equal.
    apply lookup_raw; [done|done|]. cbn [db with_db]. by apply Ha'.
Qed.

(** The timer that saves the metadata saves what the first call of its life
    gave it: after any number of further calls, the position a crashed process
    left behind is the first one. *)
Theorem metadata_timer_saves_first c m ms id timeout :
  cache_ok c -> saveMetadataTimer c = None -> metadata_wf m ->
  let c' := timer_fire (fold_left (fun c m => cache_FakeIPSaveMetadataAsync m c) (m :: ms) c) in
  (cache_FakeIPMetadata (New id timeout (db c'))).1 = Some m.
Proof.
  intros Hok Ht Hm. cbn zeta.
  assert (Hfold : forall ms c, saveMetadataTimer c = Some (m, true) ->
    fold_left (fun c m => cache_FakeIPSaveMetadataAsync m c) ms c = c).
  { clear. induction ms as [|m' ms IH]; intros c Hc; [done|]. cbn [fold_left]. unfold cache_FakeIPSaveMetadataAsync at 2.
    rewrite Hc. replace (with_timer c (Some (m, true))) with c by (destruct c; cbn in *; by subst). by apply IH. }
  cbn [fold_left]. unfold cache_FakeIPSaveMetadataAsync at 2. rewrite Ht, Hfold by done.
  unfold timer_fire. cbn [saveMetadataTimer with_timer].
  assert (Hok' : cache_ok (with_timer c (Some (m, true)))).
  { destruct Hok as (Hs & H4 & H6 & Hd & Hc). do 4 (split; [done|]). exact Hc. }
  destruct (metadata_save_load _ _ Hok' Hm) as (d' & -> & _ & _ & _ & Hload).
  destruct (Hload (New id timeout d') eq_refl) as (d'' & H & _). cbn [db with_timer with_db]. by rewrite H.
Qed.

(** A successful [FakeIPMetadata] removes its key and nothing else. *)
Lemma metadata_Some c m :
  cache_ok c -> (cache_FakeIPMetadata c).1 = Some m ->
  exists d', cache_FakeIPMetadata c = (Some m, with_db c d') /\ (forall q, has_bucket d' q = has_bucket (db c) q)
    /\ forall w k, b_get d' [names_bucket w] k = b_get (db c) [names_bucket w] k.
Proof.
  intros (_ & _ & _ & Hd & _). unfold cache_FakeIPMetadata, run_batch, batch.
  destruct (has_bucket (db c) [bucketFakeIP]) eqn:Hb; cbn [negb]; [|done].
  destruct (b_get (db c) [bucketFakeIP] keyMetadata) as [[|x l]|]; [done| |done].
  destruct (delete_ok (db c) [bucketFakeIP] keyMetadata Hb) as (d' & -> & Hh & Hg); [apply Hd; by left|]. cbn [obind].
  destruct (UnmarshalBinary (x :: l)) as [md| | |]; cbn [obind]; [|done..]. cbn [fst]. intros [= ->]. exists d'.
  split; [done|]. split; [done|]. intros w k. rewrite Hg, decide_other; [done|]. by apply single_ne, names_bucket_ne.
Qed.

Lemma reset_rolled_back c v6 : has_bucket (db c) [names_bucket v6] = false -> cache_FakeIPReset c = c.
Proof.
  intros Hb. unfold cache_FakeIPReset.
  assert (exists e, FakeIPReset_tx (db c) = Err e) as [e He]; [|by rewrite (run_tx_err _ c e He); apply with_db_same].
  unfold FakeIPReset_tx. destruct (has_bucket (db c) [bucketFakeIP]) eqn:E1.
  2: { destruct (remove_missing _ _ E1) as [e ->]. by exists e. }
  destruct (remove_ok (db c) [bucketFakeIP] ltac:(done) E1) as (d1 & -> & Hh1 & _). cbn [obind].
  destruct (has_bucket d1 [bucketFakeIPDomain4]) eqn:E2.
  2: { destruct (remove_missing _ _ E2) as [e ->]. by exists e. }
  destruct (remove_ok d1 [bucketFakeIPDomain4] ltac:(done) E2) as (d2 & -> & Hh2 & _). cbn [obind].
  apply remove_missing. rewrite Hh2. case_decide; [done|]. rewrite Hh1. case_decide; [done|].
  destruct v6; [done|]. rewrite Hh1 in E2. case_decide; [done|].
  change (has_bucket (db c) [bucketFakeIPDomain4] = false) in Hb. congruence.
Qed.

(** [FakeIPReset] deletes nothing when one of the two name tables was never
    created, that is as long as only one address family was used: the failed
    deletion rolls the transaction back.  A store started with other ranges then
    still answers with the addresses of the old range. *)
Theorem fakeip_reset_rolled_back c m r4 r6 (e : string) (v6 : bool) a :
  cache_ok c -> has_bucket (db c) [names_bucket (negb v6)] = false ->
  cache_FakeIPLoadDomain c e v6 = Some a -> (cache_FakeIPMetadata c).1 = Some m -> Inet4Range m <> r4 ->
  (Create e v6 (Store_Start c (NewStore r4 r6))).1 = Ok a.
Proof.
  intros Hok Hb Hl Hmd Hr. destruct (metadata_Some c m Hok Hmd) as (d' & Hm & Hh & Hn).
  unfold Store_Start. cbn [FakeIPMetadata_ cache_storage FakeIPReset]. rewrite Hm.
  rewrite bool_decide_false by done. cbn [andb]. rewrite (reset_rolled_back _ (negb v6)) by (cbn [db with_db]; by rewrite Hh).
  destruct Hok as (_ & H4 & H6 & _). unfold Create. cbn [storage with_state FakeIPLoadDomain cache_storage].
  assert (cache_FakeIPLoadDomain (with_db c d') e v6 = Some a) as ->; [|done].
  rewrite load_domain_raw in * by done. cbn [db with_db]. by rewrite Hn.
Qed.

(** ** Tables of one cache ID *)

(** The path of a table. *)
Definition bpath c (key : bytes) : path := match cacheID c with None => [key] | Some id => [id; key] end.

(** No plain key is in the way of the table's buckets; its transports are flat. *)
Definition layout c d (key : bytes) : Prop :=
  (forall k, b_get d [] k = None) /\ (forall id, cacheID c = Some id -> id <> [] /\ b_get d [id] key = None).
Definition transport_layout c d (key : bytes) : Prop :=
  layout c d key /\ (forall t, b_get d (bpath c key) t = None)
  /\ (forall t k, has_bucket d (bpath c key ++ [t; k]) = false).

Lemma createBucket_ok c d key :
  layout c d key -> key <> [] ->
  exists d', createBucket c key d = Ok (bpath c key, d') /\ bucket c d' key = Some (bpath c key)
    /\ has_bucket d' (bpath c key) = true /\ (forall p k, b_get d' p k = b_get d p k)
    /\ (forall q, (length (bpath c key) < length q)%nat -> has_bucket d' q = has_bucket d q).
Proof.
  intros [Hr Hid] Hk. unfold createBucket, bucket, bpath. destruct (cacheID c) as [id|].
  - destruct (Hid id eq_refl) as [Hne Hg0].
    destruct (create_ok d [] id (root_bucket d) Hne (Hr id)) as (d1 & H1 & Hh1 & Hg1). cbn [app] in *. rewrite H1. cbn [obind].
    assert (Hb1 : has_bucket d1 [id] = true) by (by rewrite Hh1, decide_True).
    destruct (create_ok d1 [id] key Hb1 Hk) as (d2 & H2 & Hh2 & Hg2); [by rewrite Hg1|]. cbn [app] in *.
    exists d2. rewrite H2. cbn [obind]. rewrite (Hh2 [id]), decide_False, Hb1, (Hh2 [id; key]), decide_True by done.
    repeat split; try done; [intros; by rewrite Hg2|]. intros q Hq. rewrite Hh2, decide_False, Hh1, decide_False;
      [done|intros ->; cbn in Hq; lia..].
  - destruct (create_ok d [] key (root_bucket d) Hk (Hr key)) as (d1 & H1 & Hh1 & Hg1). cbn [app] in *.
    exists d1. rewrite H1. cbn [obind]. rewrite !Hh1, decide_True by done. repeat split; try done.
    intros q Hq. rewrite Hh1, decide_False; [done|]. intros ->. cbn in Hq. lia.
Qed.

(** A table whose entries are plain keys can be written. *)
Definition table_writable c (key : bytes) : Prop :=
  layout c (db c) key /\ forall k, has_bucket (db c) (bpath c key ++ [k]) = false.

(** Writing one entry of such a table: it is there, nothing else changed. *)
Lemma table_put c key k value :
  table_writable c key -> key <> [] -> k <> [] -> zlen k <= MaxKeySize -> zlen value <= MaxValueSize ->
  exists d, (let* (p, d) := createBucket c key (db c) in b_put p k value d) = Ok d
    /\ table_writable (with_db c d) key /\ bucket (with_db c d) d key = Some (bpath c key)
    /\ (forall p k', b_get d p k' = if decide (p = bpath c key /\ k' = k) then Some value else b_get (db c) p k').
Proof.
  intros [Hl Hf] Hkey Hk Hlen Hsz.
  destruct (createBucket_ok c (db c) key Hl Hkey) as (d1 & H1 & Hbk & Hb1 & Hg1 & Hh1).
  destruct (put_ok d1 (bpath c key) k value) as (d2 & H2 & Hh2 & Hg2); [done|split; [done|]; split; [done|]|done|].
  { rewrite Hh1; [apply Hf|]. rewrite length_app. cbn. lia. }
  assert (Hg : forall p k', b_get d2 p k' = if decide (p = bpath c key /\ k' = k) then Some value else b_get (db c) p k')
    by (intros p k'; rewrite Hg2; case_decide; [done|by rewrite Hg1]).
  exists d2. rewrite H1. cbn [obind]. split; [done|]. split; [|split; [|done]].
  - split.
    + destruct Hl as [Hr Hid]. split; cbn [db with_db cacheID].
      * intros k'. rewrite Hg, decide_False; [done|]. unfold bpath. by destruct (cacheID c); intros [? _].
      * intros id Hi. destruct (Hid id Hi) as [Hne Hg0]. split; [done|].
        rewrite Hg, decide_False; [done|]. unfold bpath. rewrite Hi. by intros [? _].
    + intros k'. change (bpath (with_db c d2) key) with (bpath c key). cbn [db with_db].
      rewrite Hh2, Hh1; [apply Hf|]. rewrite length_app. cbn. lia.
  - revert Hbk. unfold bucket. cbn [cacheID with_db]. by destruct (cacheID c); rewrite !Hh2.
Qed.

Lemma question_key_ok qName qType :
  str_len qName <= 255 -> question_key qName qType <> [] /\ zlen (question_key qName qType) <= MaxKeySize.
Proof.
  intros H. unfold question_key. split.
  - intros E%(f_equal length). rewrite length_app, length_be_bytes in E. cbn in E. lia.
  - rewrite zlen_app, length_bytes_of_string. unfold zlen at 1. rewrite length_be_bytes. unfold MaxKeySize. lia.
Qed.

(** Saving one entry of a transport: it is there, nothing else changed. *)
Lemma save_in_transport_ok c d key t qName qType value :
  transport_layout c d key -> key <> [] -> t <> "" -> str_len qName <= 255 -> zlen value <= MaxValueSize ->
  exists d', save_in_transport c key t qName qType value d = Ok d'
    /\ transport_bucket c d' key t = Some (bpath c key ++ [bytes_of_string t])
    /\ (forall p k, b_get d' p k = if decide (p = bpath c key ++ [bytes_of_string t] /\ k = question_key qName qType)
                                   then Some value else b_get d p k)
    /\ transport_layout c d' key /\ bucket c d' key = Some (bpath c key).
Proof.
  intros (Hlay & Hnk & Hflat) Hk Ht Hq Hv. unfold save_in_transport, transport_bucket.
  destruct (createBucket_ok c d key Hlay Hk) as (d1 & H1 & Hbk & Hb1 & Hg1 & Hh1). rewrite H1. cbn [obind].
  assert (Htb : bytes_of_string t <> []) by (intros E; apply Ht, bytes_of_string_inj; by rewrite E).
  destruct (create_ok d1 (bpath c key) (bytes_of_string t) Hb1 Htb) as (d2 & H2 & Hh2 & Hg2); [by rewrite Hg1|].
  rewrite H2. cbn [obind]. destruct (question_key_ok qName qType Hq) as [Hq1 Hq2].
  destruct (put_ok d2 (bpath c key ++ [bytes_of_string t]) (question_key qName qType) value) as (d3 & H3 & Hh3 & Hg3).
  - by rewrite Hh2, decide_True.
  - split; [done|]. split; [done|]. rewrite <- app_assoc. cbn [app]. rewrite Hh2, decide_False.
    + rewrite Hh1; [apply Hflat|]. rewrite length_app. cbn. lia.
    + intros E%(f_equal length). rewrite !length_app in E. cbn in E. lia.
  - done.
  - assert (Hbd : bucket c d3 key = Some (bpath c key)).
    { unfold bucket in *. assert (forall q, has_bucket d1 q = true -> has_bucket d3 q = true) as Hm.
      { intros q Hqq. rewrite Hh3, Hh2. by case_decide. }
      revert Hbk. unfold bpath in *. destruct (cacheID c) as [id|]; [|by rewrite (Hm _ Hb1)].
      destruct (has_bucket d1 [id]) eqn:E; [|done]. by rewrite (Hm _ E), (Hm _ Hb1). }
    assert (Hg : forall p k, b_get d3 p k = if decide (p = bpath c key ++ [bytes_of_string t] /\ k = question_key qName qType)
      then Some value else b_get d p k) by (intros p k; rewrite Hg3; case_decide; [done|by rewrite Hg2, Hg1]).
    assert (Hne : forall p, (length p <= length (bpath c key))%nat -> p <> bpath c key ++ [bytes_of_string t]).
    { intros p Hp ->. rewrite length_app in Hp. cbn in Hp. lia. }
    exists d3. split; [exact H3|]. split; [|split; [done|split; [|done]]].
    + rewrite Hbd. by rewrite Hh3, Hh2, decide_True.
    + split; [split|split].
      * intros k. rewrite Hg, decide_other; [apply Hlay|]. apply Hne. cbn. lia.
      * intros id Hid. destruct Hlay as [_ Hlay]. destruct (Hlay id Hid) as [H5 H6]. split; [done|].
        rewrite Hg, decide_other; [done|]. apply Hne. unfold bpath. rewrite Hid. cbn. lia.
      * intros t'. rewrite Hg, decide_other; [apply Hnk|]. by apply Hne.
      * intros t' k. rewrite Hh3, Hh2, decide_False, Hh1; [apply Hflat|rewrite length_app; cbn; lia|].
        intros E%(f_equal length). rewrite !length_app in E. cbn in E. lia.
Qed.

(** A Unix time survives the conversions of the tables. *)
Definition is_int64 (x : Z) : Prop := - 2 ^ 63 <= x < 2 ^ 63.
Lemma int64_uint64 x : is_int64 x -> int64 (uint 64 x) = x.
Proof.
  unfold is_int64, int64, uint. intros H. rewrite Z.mod_mod by lia. destruct (Z.ltb_spec (x mod 2 ^ 64) (2 ^ 63)) as [Hl|Hl].
  - destruct (decide (0 <= x)); [by apply Z.mod_small; lia|].
    rewrite <- (Z.mod_add x 1), Z.mod_small in Hl by lia. lia.
  - destruct (decide (0 <= x)); [rewrite Z.mod_small in Hl by lia; lia|].
    rewrite <- (Z.mod_add x 1), Z.mod_small by lia. lia.
Qed.

Lemma be_val_uint64 x rest : is_int64 x -> int64 (be_val (take 8 (be_bytes 8 (uint 64 x) ++ rest))) = x.
Proof.
  intros H. rewrite take_app_le, take_ge by (rewrite length_be_bytes; lia).
  rewrite be_val_bytes by (apply (uint_range 64); lia). by apply int64_uint64.
Qed.

(** A rejected answer that is saved is reported rejected until its timeout,
    to the second, and no longer; entries of other questions are not touched. *)
Theorem rdrc_save_load c now t qName qType :
  transport_layout c (db c) bucketRDRC -> saveRDRC c = ∅ -> t <> "" -> str_len qName <= 255 ->
  is_int64 (Unix (now + rdrcTimeout c)) ->
  exists c', SaveRDRC now t qName qType c = (Ok tt, c')
    /\ (forall later, (LoadRDRC later t qName qType c').1 = (later <=? from_Unix (Unix (now + rdrcTimeout c))))
    /\ (forall later, later <= from_Unix (Unix (now + rdrcTimeout c)) -> (LoadRDRC later t qName qType c').2 = c')
    /\ (forall p k, p <> bpath c bucketRDRC ++ [bytes_of_string t] \/ k <> question_key qName qType ->
          b_get (db c') p k = b_get (db c) p k).
Proof.
  intros Hl Hs Ht Hq Hi. set (value := be_bytes 8 (uint 64 (Unix (now + rdrcTimeout c)))).
  assert (Hlen : zlen value = 8) by (unfold zlen, value; by rewrite length_be_bytes).
  destruct (save_in_transport_ok c (db c) bucketRDRC t qName qType value Hl) as (d' & Htx & Htb & Hg & _);
    [done|done|done|rewrite Hlen; by vm_compute|].
  exists (with_db c d'). unfold SaveRDRC. cbn zeta. fold value. rewrite (run_tx_ok _ c d' Htx). split; [done|].
  assert (Hload : forall later, LoadRDRC later t qName qType (with_db c d')
    = if from_Unix (Unix (now + rdrcTimeout c)) <? later
      then (false, (run_batch (tx (b_delete (bpath c bucketRDRC ++ [bytes_of_string t]) (question_key qName qType)))
                      (with_db c d')).2)
      else (true, with_db c d')).
  { intros later. unfold LoadRDRC. cbn [saveRDRC with_db db]. rewrite Hs, lookup_empty.
    change (transport_bucket (with_db c d') d') with (transport_bucket c d'). rewrite Htb, Hg, decide_True by done.
    unfold Uint64. rewrite Hlen. cbn [Z.ltb Z.compare Pos.compare Pos.compare_cont]. cbn zeta.
    rewrite <- (app_nil_r value). unfold value. by rewrite be_val_uint64. }
  split; [|split].
  - intros later. rewrite Hload. destruct (Z.ltb_spec (from_Unix (Unix (now + rdrcTimeout c))) later); cbn [fst];
      symmetry; [by apply Z.leb_gt|by apply Z.leb_le].
  - intros later Hle. rewrite Hload. by rewrite (proj2 (Z.ltb_ge _ _)).
  - intros p k Hpk. cbn [db with_db]. rewrite Hg. rewrite decide_False; [done|]. intros [-> ->]. by destruct Hpk.
Qed.

(** ** Clean-up *)

Section Cleanup.
Variable expired : bytes -> bool.

(** An entry a clean-up keeps. *)
Definition live (o : option bytes) : option bytes :=
  match o with Some v => if expired v then None else Some v | None => None end.

Definition flat d p : Prop := forall n k, has_bucket d (p ++ [n; k]) = false.

Lemma flat_child d p n k : flat d p -> has_bucket d ((p ++ [n]) ++ [k]) = false.
Proof. rewrite <- app_assoc. apply (fun H => H n k). Qed.

Lemma delete_keys_ok keys d p n :
  flat d p -> has_bucket d (p ++ [n]) = true ->
  exists d', delete_keys (p ++ [n]) keys d = Ok d' /\ (forall q, has_bucket d' q = has_bucket d q)
    /\ forall q j, b_get d' q j = if decide (q = p ++ [n] /\ j ∈ keys) then None else b_get d q j.
Proof.
  revert d. induction keys as [|k keys IH]; intros d Hf Hb; cbn [delete_keys].
  { exists d. repeat split; try done. intros. rewrite decide_False; [done|]. intros [_ H]. by apply elem_of_nil in H. }
  destruct (delete_ok d (p ++ [n]) k Hb) as (d1 & -> & Hh1 & Hg1); [by apply flat_child|]. cbn [obind].
  destruct (IH d1) as (d2 & -> & Hh2 & Hg2); [intros m j; rewrite Hh1; apply Hf|by rewrite Hh1|].
  exists d2. split; [done|]. split; [intros; by rewrite Hh2|]. intros q j. rewrite Hg2, Hg1.
  destruct (decide (q = p ++ [n])) as [->|Hne]; [|by rewrite !decide_other].
  rewrite !decide_same. repeat case_decide; try done; set_solver.
Qed.

(** The keys the loop collects are those of the dead entries. *)
Lemma expired_keys_spec d q j :
  (forall k, has_bucket d (q ++ [k]) = false) ->
  j ∈ omap (fun e : bytes * option bytes => if expired (default [] e.2) then Some e.1 else None) (b_foreach d q)
  <-> exists v, b_get d q j = Some v /\ expired v = true.
Proof.
  intros Hf. rewrite list_elem_of_omap. split.
  - intros ([k [v|]] & Hin & He); cbn [fst snd from_option id] in He.
    + destruct (expired v) eqn:E; [|done]. injection He as ->. exists v. split; [by apply foreach_key|done].
    + apply foreach_bucket in Hin. by rewrite Hf in Hin.
  - intros (v & Hg & He). exists (j, Some v). split; [by apply foreach_key|]. cbn. by rewrite He.
Qed.

Lemma cleanup_transports_ok names p d empty :
  flat d p -> NoDup names ->
  exists new d', cleanup_transports expired p names empty d = Ok (empty ++ new, d')
    /\ (forall q, has_bucket d' q = has_bucket d q)
    /\ (forall q j, (forall n, n ∈ names -> q <> p ++ [n]) -> b_get d' q j = b_get d q j)
    /\ (forall n j, n ∈ names -> b_get d' (p ++ [n]) j = live (b_get d (p ++ [n]) j))
    /\ NoDup new /\ (forall n, n ∈ new -> n ∈ names /\ has_bucket d (p ++ [n]) = true /\ forall j, b_get d' (p ++ [n]) j = None).
Proof.
  revert d empty. induction names as [|n names IH]; intros d empty Hf Hnd; cbn [cleanup_transports].
  { exists [], d. rewrite app_nil_r. split; [done|]. split; [done|]. split; [done|].
    split; [by intros ? ? ?%elem_of_nil|]. split; [constructor|]. by intros ? ?%elem_of_nil. }
  apply NoDup_cons in Hnd as [Hn Hnd].
  assert (Hinj : forall m, m ∈ names -> p ++ [m] <> p ++ [n]).
  { intros m Hm E. apply app_inv_head in E as [= ->]. done. }
  destruct (has_bucket d (p ++ [n])) eqn:Hb; cbn [negb].
  2: { destruct (IH d empty Hf Hnd) as (new & d' & -> & Hh & Ho & Hl & Hndn & Hnew). exists new, d'.
       split; [done|]. split; [done|]. split; [intros q j Hq; apply Ho; intros m Hm; apply Hq; by right|].
       split; [|split; [done|]].
       - intros m j [->|Hm]%elem_of_cons; [|by apply Hl]. rewrite Ho by (intros m Hm E; symmetry in E; by apply (Hinj m)).
         by rewrite (get_missing _ _ _ Hb).
       - intros m Hm. destruct (Hnew m Hm) as (? & ? & ?). split; [by right|done]. }
  set (keys := omap _ _). destruct (delete_keys_ok keys d p n Hf Hb) as (d1 & -> & Hh1 & Hg1). cbn [obind].
  assert (Hn1 : forall j, b_get d1 (p ++ [n]) j = live (b_get d (p ++ [n]) j)).
  { intros j. rewrite Hg1, decide_same. unfold keys.
    pose proof (expired_keys_spec d (p ++ [n]) j (fun k => flat_child d p n k Hf)) as Hk.
    destruct (b_get d (p ++ [n]) j) as [v|] eqn:E; cbn [live]; case_decide as Hd; try done.
    - apply Hk in Hd as (v' & [= <-] & ->). done.
    - destruct (expired v) eqn:Hv; [|done]. destruct Hd. apply Hk. by exists v. }
  assert (Ho1 : forall q j, q <> p ++ [n] -> b_get d1 q j = b_get d q j) by (intros; by rewrite Hg1, decide_other).
  destruct (IH d1 (if bool_decide (b_foreach d1 (p ++ [n]) = []) then empty ++ [n] else empty))
    as (new & d' & -> & Hh & Ho & Hl & Hndn & Hnew); [intros m k; rewrite Hh1; apply Hf|done|].
  exists (if bool_decide (b_foreach d1 (p ++ [n]) = []) then n :: new else new), d'.
  split; [case_bool_decide; [by rewrite <- app_assoc|done]|]. split; [intros; by rewrite Hh, Hh1|].
  assert (Hnn : forall j, b_get d' (p ++ [n]) j = b_get d1 (p ++ [n]) j).
  { intros j. apply Ho. intros m Hm E. symmetry in E. by apply (Hinj m). }
  split; [|split; [|split]].
  - intros q j Hq. rewrite Ho, Ho1; [done|apply Hq; by left|]. intros m Hm. apply Hq. by right.
  - intros m j [->|Hm]%elem_of_cons; [by rewrite Hnn|]. rewrite Hl by done. f_equal. apply Ho1. by apply Hinj.
  - case_bool_decide; [|done]. constructor; [|done]. intros Hin. by apply Hnew in Hin as [? _].
  - assert (Hnew' : forall m, m ∈ new -> m ∈ n :: names /\ has_bucket d (p ++ [m]) = true
      /\ forall j, b_get d' (p ++ [m]) j = None).
    { intros m Hm. destruct (Hnew m Hm) as (H1 & H2 & H3). rewrite Hh1 in H2. split; [by right|done]. }
    case_bool_decide as He; [|done]. intros m [->|Hm]%elem_of_cons; [|by apply Hnew'].
    split; [by left|]. split; [done|]. intros j. rewrite Hnn. destruct (b_get d1 (p ++ [n]) j) eqn:E; [|done].
    apply foreach_key in E. rewrite He in E. by apply elem_of_nil in E.
Qed.

Lemma remove_buckets_ok names p d :
  flat d p -> NoDup names ->
  (forall n, n ∈ names -> has_bucket d (p ++ [n]) = true /\ forall j, b_get d (p ++ [n]) j = None) ->
  (forall q j, has_bucket d q = false -> b_get d q j = None) ->
  (forall n q j, n ∈ names -> p ++ [n] `prefix_of` q -> q <> p ++ [n] -> b_get d q j = None) ->
  exists d', remove_buckets p names d = Ok d' /\ forall q j, b_get d' q j = b_get d q j.
Proof.
  revert d. induction names as [|n names IH]; intros d Hf Hnd Hn Hm Hdeep; cbn [remove_buckets]; [by exists d|].
  apply NoDup_cons in Hnd as [Hni Hnd]. destruct (Hn n ltac:(by left)) as [Hb He].
  destruct (remove_ok d (p ++ [n])) as (d1 & -> & Hh1 & Hg1); [by destruct p|done|]. cbn [obind].
  assert (Hsame : forall q j, b_get d1 q j = b_get d q j).
  { intros q j. rewrite Hg1. case_decide as Hp; [|done]. destruct (decide (q = p ++ [n])) as [->|Hq]; [by rewrite He|].
    by rewrite (Hdeep n) by (try done; by left). }
  assert (Hpre : forall m, m ∈ names -> ~ p ++ [n] `prefix_of` p ++ [m]).
  { intros m Hin Hp. apply prefix_app_inv in Hp. apply prefix_cons_inv_1 in Hp as ->. done. }
  destruct (IH d1) as (d2 & -> & H2).
  - intros m k. rewrite Hh1. case_decide; [done|apply Hf].
  - done.
  - intros m Hin. destruct (Hn m ltac:(by right)) as [Hbm Hem]. rewrite Hh1, decide_False by (by apply Hpre).
    split; [done|]. intros j. by rewrite Hsame.
  - intros q j Hq. rewrite Hg1. rewrite Hh1 in Hq. case_decide; [done|]. by apply Hm.
  - intros m q j Hin Hp Hq. rewrite Hsame. by apply (Hdeep m); [right| |].
  - exists d2. split; [done|]. intros. by rewrite H2.
Qed.

End Cleanup.


(** A clean-up of one table, whatever its expiry rule. *)
Lemma cleanup_tx_ok expired c key d :
  transport_layout c d key -> bucket c d key = Some (bpath c key) ->
  (forall n k q j, b_get d (bpath c key ++ n :: k :: q) j = None) ->
  exists d', cleanup_tx expired c key d = Ok d'
    /\ (forall t j, b_get d' (bpath c key ++ [t]) j = live expired (b_get d (bpath c key ++ [t]) j))
    /\ (forall q j, (forall t, q <> bpath c key ++ [t]) -> b_get d' q j = b_get d q j).
Proof.
  intros (Hlay & Hnk & Hflat) Hb Hdeep. unfold cleanup_tx. rewrite Hb. set (p := bpath c key) in *.
  assert (Hnd : NoDup (b_buckets d p)).
  { unfold b_buckets. generalize (foreach_nodup d p). induction (b_foreach d p) as [|[k o] l IH]; [constructor|].
    rewrite NoDup_cons. intros [Hk Hl]. cbn. destruct o as [v|]; [by apply IH|]. constructor; [|by apply IH].
    intros ([k' [v'|]] & Hin & [=])%list_elem_of_omap. cbn in *. by subst. }
  assert (Hin : forall t, t ∈ b_buckets d p <-> has_bucket d (p ++ [t]) = true).
  { intros t. unfold b_buckets. rewrite list_elem_of_omap, <- foreach_bucket. split; [|intros; by exists (t, None)].
    intros ([k' [v'|]] & Hin & [=]). cbn in *. by subst. }
  destruct (cleanup_transports_ok expired (b_buckets d p) p d [] Hflat Hnd) as (new & d1 & -> & Hh & Ho & Hl & Hndn & Hnew).
  cbn [obind app]. destruct (remove_buckets_ok new p d1) as (d2 & -> & Hg2).
  - intros m k. rewrite Hh. apply Hflat.
  - done.
  - intros n Hn. rewrite Hh. by apply Hnew.
  - intros. by apply get_missing.
  - intros n q j Hn [[|k q'] ->] Hq; [by rewrite app_nil_r in Hq|]. rewrite <- app_assoc in *. cbn [app] in *.
    rewrite Ho; [apply Hdeep|]. intros m _ E. apply app_inv_head in E. done.
  - exists d2. split; [done|]. split.
    + intros t j. rewrite Hg2. destruct (has_bucket d (p ++ [t])) eqn:E; [by apply Hl, Hin|].
      rewrite Ho, (get_missing _ _ _ E); [done|]. intros n Hn Heq. apply app_inv_head in Heq as [= <-].
      apply Hin in Hn. congruence.
    + intros q j Hq. rewrite Hg2. apply Ho. intros n _. apply Hq.
Qed.

(** The periodic clean-up of the DNS cache commits and removes exactly the
    entries that are too short or whose expiry is more than the optimistic timeout
    ago; every other entry of the database stays as it was. *)
Theorem dns_cleanup_removes_exactly_expired c now :
  transport_layout c (db c) bucketDNSCache -> bucket c (db c) bucketDNSCache = Some (bpath c bucketDNSCache) ->
  (forall n k q j, b_get (db c) (bpath c bucketDNSCache ++ n :: k :: q) j = None) ->
  let c' := cleanupDNSCache now c in
  (forall t j, b_get (db c') (bpath c bucketDNSCache ++ [t]) j
     = live (dns_expired c now) (b_get (db c) (bpath c bucketDNSCache ++ [t]) j))
  /\ (forall q j, (forall t, q <> bpath c bucketDNSCache ++ [t]) -> b_get (db c') q j = b_get (db c) q j).
Proof.
  intros Hl Hb Hdeep. unfold cleanupDNSCache.
  destruct (cleanup_tx_ok (dns_expired c now) c bucketDNSCache (db c) Hl Hb Hdeep) as (d' & Htx & H).
  by rewrite (run_tx_ok _ c d' Htx).
Qed.

(** ** Rule-sets *)

Lemma SavedBinary_roundtrip set :
  zlen (Content set) < 2 ^ 63 -> str_len (LastEtag set) < 2 ^ 63 -> is_int64 (Unix (LastUpdated set)) ->
  SavedBinary_UnmarshalBinary (SavedBinary_MarshalBinary set)
  = Ok {| Content := Content set; LastUpdated := from_Unix (Unix (LastUpdated set)); LastEtag := LastEtag set |}.
Proof.
  intros Hc He Hi. pose proof (zlen_nonneg (Content set)).
  assert (0 <= str_len (LastEtag set)) by (unfold str_len; lia).
  unfold SavedBinary_UnmarshalBinary, SavedBinary_MarshalBinary.
  rewrite (uint_small 64 (zlen _)), (uint_small 64 (str_len _)), !WriteUvarint_put by (unfold is_uint64; lia).
  cbn [app].
  rewrite ReadUint_byte by done. cbn [obind]. rewrite ReadUvarint_Put by (unfold is_uint64; lia). cbn [obind].
  rewrite make_slice_ok by lia. cbn [obind]. rewrite ReadFull_app by done. cbn [obind].
  rewrite ReadUint_be_bytes by (apply (uint_range 64); lia). cbn [obind].
  rewrite ReadUvarint_Put by (unfold is_uint64; lia). cbn [obind]. rewrite make_slice_ok by lia. cbn [obind].
  rewrite <- (app_nil_r (bytes_of_string _)), ReadFull_app by (by rewrite length_bytes_of_string). cbn [obind].
  by rewrite int64_uint64, string_of_bytes_of_string.
Qed.

(** A rule-set the cache file takes. *)
Definition saved_ok (set : SavedBinary) : Prop :=
  zlen (SavedBinary_MarshalBinary set) <= MaxValueSize /\ is_int64 (Unix (LastUpdated set)).
Definition to_seconds (set : SavedBinary) : SavedBinary :=
  {| Content := Content set; LastUpdated := from_Unix (Unix (LastUpdated set)); LastEtag := LastEtag set |}.

Lemma SavedBinary_read set : saved_ok set -> SavedBinary_UnmarshalBinary (SavedBinary_MarshalBinary set) = Ok (to_seconds set).
Proof.
  intros [Hsz Hi]. unfold SavedBinary_MarshalBinary, MaxValueSize in Hsz. rewrite !zlen_app, length_bytes_of_string in Hsz.
  apply SavedBinary_roundtrip; [| |done];
    repeat match type of Hsz with context [zlen ?l] => lazymatch goal with H : 0 <= zlen l |- _ => fail | _ => pose proof (zlen_nonneg l) end end;
    unfold str_len in *; lia.
Qed.
Lemma SaveRuleSet_load c tag set :
  table_writable c bucketRuleSet -> tag <> "" -> str_len tag <= MaxKeySize -> saved_ok set ->
  exists c', SaveRuleSet tag set c = (Ok tt, c') /\ table_writable c' bucketRuleSet
    /\ LoadRuleSet tag c' = (Some (to_seconds set), c')
    /\ (forall p k, p <> bpath c bucketRuleSet \/ k <> bytes_of_string tag -> b_get (db c') p k = b_get (db c) p k).
Proof.
  intros Hw Ht Hlen Hs.
  assert (Htb : bytes_of_string tag <> []) by (intros E; apply Ht, bytes_of_string_inj; by rewrite E).
  destruct (table_put c bucketRuleSet (bytes_of_string tag) (SavedBinary_MarshalBinary set)) as (d & E & Hw' & Hb & Hg);
    [done|done|done|by rewrite length_bytes_of_string|apply Hs|].
  exists (with_db c d). unfold SaveRuleSet. rewrite (run_tx_ok _ c d) by exact E. split; [done|]. split; [done|]. split.
  - unfold LoadRuleSet. cbn [db with_db]. rewrite Hb, Hg, decide_True by done.
    pose proof (SavedBinary_read set Hs) as Hr. destruct (SavedBinary_MarshalBinary set) as [|x l]; [done|]. by rewrite Hr.
  - intros p k Hpk. cbn [db with_db]. rewrite Hg, decide_False; [done|]. intros [-> ->]. by destruct Hpk.
Qed.

(** A downloaded rule-set that is saved is loaded again with its content and
    its etag, and its time to the second, under its own tag and cache ID. *)
Theorem rule_set_save_load c tag set :
  table_writable c bucketRuleSet -> tag <> "" -> str_len tag <= MaxKeySize -> saved_ok set ->
  exists c', SaveRuleSet tag set c = (Ok tt, c')
    /\ (LoadRuleSet tag c').1 = Some (to_seconds set)
    /\ (forall p k, p <> bpath c bucketRuleSet \/ k <> bytes_of_string tag -> b_get (db c') p k = b_get (db c) p k).
Proof.
  intros Hw Ht Hlen Hs. destruct (SaveRuleSet_load c tag set Hw Ht Hlen Hs) as (c' & E & _ & Hl & Hg).
  exists c'. split; [done|]. split; [by rewrite Hl|done].
Qed.

Lemma new_cache_ok id timeout : cache_ok (New id timeout (db_empty : DB)).
Proof.
  change (New id timeout (db_empty : DB)) with (with_db (New id timeout (db_empty : DB)) db_empty).
  apply cache_ok_cleared; try done; [apply empty_db_ok|]. intros. apply empty_get.
Qed.

Lemma new_layout id timeout key : transport_layout (New id timeout (db_empty : DB)) db_empty key.
Proof.
  split; [split; [intros; apply empty_get|]|split; [intros; apply empty_get|]].
  - intros i. cbn. case_bool_decide; [done|]. intros [= <-]. split; [done|apply empty_get].
  - intros t k. apply empty_bucket. unfold bpath. by destruct (cacheID _).
Qed.

End Spec.

(** ** Witnesses *)

Import MapDB.

Definition witness_cache : CacheFile DB := New "profile" (3600 * second) ∅.
Definition witness_cache_store : Store (CacheFile DB) :=
  Store_Start witness_cache (NewStore witness_r4 witness_r6).

Lemma witness_cache_inv : store_inv witness_cache_store.
Proof.
  apply Start_inv; [exact (new_cache_ok (DB := DB) "profile" (3600 * second))|by right; split; [apply witness_usable4|]
    |by right; split; [apply witness_usable6|]|done].
Qed.

Lemma witness_metadata_wf c4 c6 :
  0 <= c4 < 2 ^ 32 -> 0 <= c6 < 2 ^ 128 ->
  metadata_wf {| Inet4Range := witness_r4; Inet6Range := witness_r6; Inet4Current := Addr4 c4; Inet6Current := Addr6 c6 "" |}.
Proof.
  intros H4 H6. split; [apply witness_usable4|]. split; [apply witness_usable6|].
  split; (split; [done|split; [reflexivity|done]]).
Qed.

Lemma fakeip_restart_resumes_witness :
  exists c', storage (Store_Close witness_cache_store) = Some c'
    /\ inet4Current (Store_Start (New "profile" 0 (db c')) (NewStore witness_r4 witness_r6))
       = inet4Current witness_cache_store.
Proof.
  destruct witness_cache_inv as [c Hinv].
  destruct (fakeip_restart_resumes witness_cache_store c "profile" 0 Hinv) as (c' & Hc & _ & H4 & _).
  - apply (witness_metadata_wf (198 * 2 ^ 24 + 18 * 2 ^ 16 + 1) (0xfc00 * 2 ^ 112 + 1)); lia.
  - exists c'. by split.
Defined.

Lemma metadata_timer_saves_first_witness :
  let m n := {| Inet4Range := witness_r4; Inet6Range := witness_r6; Inet4Current := Addr4 (198 * 2 ^ 24 + n);
                Inet6Current := Addr6 5 "" |} in
  let c' := timer_fire (fold_left (fun c m => cache_FakeIPSaveMetadataAsync m c) [m 2; m 3; m 4] witness_cache) in
  (cache_FakeIPMetadata (New "profile" 0 (db c'))).1 = Some (m 2).
Proof.
  intros m. apply (metadata_timer_saves_first witness_cache (m 2) [m 3; m 4] "profile" 0);
    [exact (new_cache_ok (DB := DB) "profile" (3600 * second))|reflexivity|]. apply witness_metadata_wf; lia.
Defined.

(** One name stored in 198.18.0.0/15, and the position saved. *)
Definition witness_used : CacheFile DB :=
  cache_FakeIPSaveMetadata
    {| Inet4Range := witness_r4; Inet6Range := witness_r6; Inet4Current := Addr4 (198 * 2 ^ 24 + 18 * 2 ^ 16 + 2);
       Inet6Current := Addr6 (0xfc00 * 2 ^ 112 + 1) "" |}
    (cache_FakeIPStore (Addr4 (198 * 2 ^ 24 + 18 * 2 ^ 16 + 2)) "a.org" witness_cache).

Lemma witness_used_ok : cache_ok witness_used.
Proof.
  assert (Hok : cache_ok (cache_FakeIPStore (Addr4 (198 * 2 ^ 24 + 18 * 2 ^ 16 + 2)) "a.org" witness_cache)).
  { apply (store_ok (FakeIPStorageLaws := cache_laws (DB := DB))); [exact (new_cache_ok (DB := DB) "profile" (3600 * second))| |reflexivity].
    split; [|done]. split; [|done]. split; [cbn; lia|done]. }
  destruct (metadata_save_load _ _ Hok (witness_metadata_wf (198 * 2 ^ 24 + 18 * 2 ^ 16 + 2) (0xfc00 * 2 ^ 112 + 1)
    ltac:(lia) ltac:(lia))) as (d' & Heq & Hok' & _).
  unfold witness_used. by rewrite Heq.
Qed.

Lemma fakeip_reset_rolled_back_witness :
  (Create "a.org" false (Store_Start witness_used (NewStore (MkPrefix (Addr4 (10 * 2 ^ 24)) 8) witness_r6))).1
  = Ok (Addr4 (198 * 2 ^ 24 + 18 * 2 ^ 16 + 2)).
Proof.
  refine (fakeip_reset_rolled_back witness_used _ (MkPrefix (Addr4 (10 * 2 ^ 24)) 8) witness_r6 "a.org" false _
    witness_used_ok _ _ _ _); [vm_compute; reflexivity|vm_compute; reflexivity|vm_compute; reflexivity|discriminate].
Defined.

Lemma rdrc_save_load_witness :
  exists c', SaveRDRC 0 "google" "example.org." 1 witness_cache = (Ok tt, c')
    /\ (LoadRDRC (3600 * second) "google" "example.org." 1 c').1 = true
    /\ (LoadRDRC (3601 * second) "google" "example.org." 1 c').1 = false.
Proof.
  destruct (rdrc_save_load witness_cache 0 "google" "example.org." 1) as (c' & Hs & Hl & _);
    [exact (new_layout (DB := DB) "profile" (3600 * second) _)|reflexivity|discriminate|vm_compute; discriminate|by vm_compute|].
  exists c'. split; [exact Hs|]. rewrite !Hl. by vm_compute.
Defined.

Lemma rule_set_save_load_witness :
  exists c', SaveRuleSet "geoip-cn" {| Content := [1; 2; 3]; LastUpdated := 5 * second; LastEtag := "abc" |} witness_cache = (Ok tt, c')
    /\ (LoadRuleSet "geoip-cn" c').1 = Some {| Content := [1; 2; 3]; LastUpdated := 5 * second; LastEtag := "abc" |}.
Proof.
  destruct (rule_set_save_load witness_cache "geoip-cn" {| Content := [1; 2; 3]; LastUpdated := 5 * second; LastEtag := "abc" |})
    as (c' & Hs & Hl & _); [split; [exact (proj1 (new_layout (DB := DB) "profile" (3600 * second) _))|reflexivity]|discriminate|vm_compute; discriminate|split; vm_compute; [discriminate|done]|].
  exists c'. by split.
Defined.

(** A map database whose paths are all at most [n] long. *)
Lemma has_short (m : DB) n q :
  forallb (fun q : list bytes => Nat.leb (length q) n) (map_to_list m).*1 = true -> (n < length q)%nat -> has m q = false.
Proof.
  intros Hall Hq. unfold has. rewrite bool_decide_false by (intros ->; cbn in Hq; lia). cbn [orb].
  apply bool_decide_eq_false. intros [x Hx]. rewrite forallb_forall in Hall.
  specialize (Hall q). rewrite Nat.leb_le in Hall. enough (length q <= n)%nat by lia. apply Hall.
  apply list_elem_of_In, list_elem_of_fmap. exists (q, x). split; [done|]. by apply elem_of_map_to_list.
Qed.

Lemma get_none (m : DB) p k : entries m p = ∅ -> get m p k = None.
Proof. unfold get. intros ->. apply lookup_empty. Qed.

(** Two responses, one of them long expired. *)
Definition witness_dns : CacheFile DB :=
  (SaveDNSCache "google" "b.org." 1 [7] (900 * second)
     (SaveDNSCache "google" "a.org." 1 [9] (100 * second) (New "" 0 (∅ : DB))).2).2.

Lemma dns_cleanup_removes_exactly_expired_witness :
  b_get (db (cleanupDNSCache (500 * second) witness_dns)) [bucketDNSCache; bytes_of_string "google"] (question_key "a.org." 1) = None
  /\ b_get (db (cleanupDNSCache (500 * second) witness_dns)) [bucketDNSCache; bytes_of_string "google"] (question_key "b.org." 1)
     = Some (be_bytes 8 900 ++ [7]).
Proof.
  destruct (dns_cleanup_removes_exactly_expired witness_dns (500 * second)) as [H _].
  - split; [split; [intros k; apply get_none; vm_compute; reflexivity|]|].
    { intros id Hid. vm_compute in Hid. discriminate Hid. }
    split; [intros t; apply get_none; vm_compute; reflexivity|].
    intros t k. change (bpath witness_dns bucketDNSCache) with [bucketDNSCache]. apply (has_short _ 2); [vm_compute; reflexivity|cbn; lia].
  - vm_compute. reflexivity.
  - intros n k q j. apply get_missing. change (bpath witness_dns bucketDNSCache) with [bucketDNSCache].
    apply (has_short _ 2); [vm_compute; reflexivity|cbn; lia].
  - split; rewrite (H (bytes_of_string "google")); by vm_compute.
Defined.
