(* ===== verification/DNSCacheFlush.v ===== *)
(** * The write-behind DNS cache

    experimental/cachefile/dns_cache.go under concurrency: [SaveDNSCacheAsync]
    queues a response and, for a key that has none, starts a goroutine that runs
    [flushPendingDNSCacheWith]; each critical section of the two is one step.  A
    state is the cache file with the goroutines in flight; [step] interleaves them
    freely.  The theorems say what a reader sees at every moment, that the
    goroutines finish, and what [ClearDNSCache] can do to a write. *)

From S2P Require Import Prelude GoStd Netip External Concrete Bolt CacheFile CacheFileSpec.
Local Open Scope Z_scope.

(** Where a flushing goroutine stands: before reading the pending entry, before
    saving the one it read, before the final check. *)
Inductive flush_pc :=
| FRead
| FSave (entry : saveDNSCacheEntry)
| FFinish (entry : saveDNSCacheEntry).

Record flusher := MkFlusher { f_key : saveCacheKey; f_pc : flush_pc }.

Section Flush.
Context {DB : Type} `{HB : Bolt DB} {X : External}.

Record sys := MkSys { cache : CacheFile DB; flushers : list flusher }.

(** What a step does to the outside. *)
Inductive label :=
| LQueue (k : saveCacheKey) (raw : bytes) (at_ : Z)
| LFlush
| LClear.

(** [ClearDNSCache] in its two parts is two steps. *)
Inductive step : sys -> label -> sys -> Prop :=
| step_queue c fs k raw at_ start c' :
    queueDNSCacheSave k raw at_ c = (start, c') ->
    step (MkSys c fs) (LQueue k raw at_) (MkSys c' (if start : bool then fs ++ [MkFlusher k FRead] else fs))
| step_read_gone c fs1 fs2 k :
    flush_read k c = None -> step (MkSys c (fs1 ++ MkFlusher k FRead :: fs2)) LFlush (MkSys c (fs1 ++ fs2))
| step_read c fs1 fs2 k e :
    flush_read k c = Some e ->
    step (MkSys c (fs1 ++ MkFlusher k FRead :: fs2)) LFlush (MkSys c (fs1 ++ MkFlusher k (FSave e) :: fs2))
| step_save c fs1 fs2 k e :
    step (MkSys c (fs1 ++ MkFlusher k (FSave e) :: fs2)) LFlush
         (MkSys (flush_save k e c) (fs1 ++ MkFlusher k (FFinish e) :: fs2))
| step_again c fs1 fs2 k e c' :
    flush_finish k e c = (true, c') ->
    step (MkSys c (fs1 ++ MkFlusher k (FFinish e) :: fs2)) LFlush (MkSys c' (fs1 ++ MkFlusher k FRead :: fs2))
| step_done c fs1 fs2 k e c' :
    flush_finish k e c = (false, c') ->
    step (MkSys c (fs1 ++ MkFlusher k (FFinish e) :: fs2)) LFlush (MkSys c' (fs1 ++ fs2))
| step_clear_pending c fs : step (MkSys c fs) LClear (MkSys (ClearDNSCache_pending c) fs)
| step_clear_db c fs : step (MkSys c fs) LClear (MkSys (ClearDNSCache_db c).2 fs).

Inductive run : sys -> list label -> sys -> Prop :=
| run_nil s : run s [] s
| run_snoc s ls s' l s'' : run s ls s' -> step s' l s'' -> run s (ls ++ [l]) s''.

(** The last response queued for a key. *)
Definition queued (k : saveCacheKey) (l : label) (prev : option (bytes * Z)) : option (bytes * Z) :=
  match l with
  | LQueue k' raw at_ => if decide (k' = k) then Some (raw, at_) else prev
  | _ => prev
  end.
Definition last_queued (k : saveCacheKey) (ls : list label) : option (bytes * Z) :=
  fold_left (fun prev l => queued k l prev) ls None.

Definition Load (k : saveCacheKey) (c : CacheFile DB) : option (bytes * Z) :=
  LoadDNSCache (TransportName k) (QuestionName k) (QType k) c.
(** What the database alone holds. *)
Definition stored (k : saveCacheKey) (c : CacheFile DB) : option (bytes * Z) := Load k (ClearDNSCache_pending c).

(** A time as the database keeps it. *)
Definition to_second (t : Z) : Z := from_Unix (Unix t).

(** Questions and responses of DNS: bounded names, sixteen-bit types, messages
    of at most 65535 bytes, times that fit the format. *)
Definition valid_key (k : saveCacheKey) : Prop :=
  TransportName k <> "" /\ str_len (QuestionName k) <= 255 /\ is_uint16 (QType k).
Definition valid_response (raw : bytes) (at_ : Z) : Prop := zlen raw <= 65535 /\ is_int64 (Unix at_).
Definition valid_label (l : label) : Prop :=
  match l with
  | LQueue k raw at_ => valid_key k /\ valid_response raw at_
  | LFlush => True
  | LClear => False
  end.

(** The tables of the DNS cache are where the file's layout puts them. *)
Definition dns_layout (c : CacheFile DB) : Prop :=
  transport_layout c (db c) bucketDNSCache
  /\ forall t, has_bucket (db c) (bpath c bucketDNSCache ++ [t]) = true ->
     bucket c (db c) bucketDNSCache = Some (bpath c bucketDNSCache).

End Flush.

Arguments sys DB : clear implicits.

Section Proofs.
Context {DB : Type} `{HB : Bolt DB} `{HL : !BoltLaws DB} {X : External} `{XL : !ExternalLaws X}.
Implicit Types (c : CacheFile DB) (k : saveCacheKey) (e : saveDNSCacheEntry).

(** ** The database part *)

Definition parse_response (o : option bytes) : option (bytes * Z) :=
  match o with
  | None => None
  | Some content =>
      if zlen content <? 8 then None else Some (drop 8 content, from_Unix (int64 (be_val (take 8 content))))
  end.
Definition raw_entry c k : option bytes :=
  b_get (db c) (bpath c bucketDNSCache ++ [bytes_of_string (TransportName k)]) (question_key (QuestionName k) (QType k)).

Lemma stored_raw c k : dns_layout c -> stored k c = parse_response (raw_entry c k).
Proof.
  intros [_ Hp]. unfold stored, Load, LoadDNSCache, raw_entry. cbn [saveDNSCache ClearDNSCache_pending with_dns db].
  rewrite lookup_empty. change (transport_bucket (ClearDNSCache_pending c)) with (transport_bucket c).
  unfold transport_bucket. specialize (Hp (bytes_of_string (TransportName k))).
  destruct (has_bucket (db c) (bpath c bucketDNSCache ++ [bytes_of_string (TransportName k)])) eqn:E.
  - rewrite Hp, E by done. done.
  - rewrite (get_missing _ _ _ E). cbn [parse_response].
    assert (Hb : bucket c (db c) bucketDNSCache = None \/ bucket c (db c) bucketDNSCache = Some (bpath c bucketDNSCache)).
    { unfold bucket, bpath. repeat case_match; auto. }
    destruct Hb as [-> | ->]; [done|]. by rewrite E.
Qed.

Lemma Load_stored c k :
  Load k c = match saveDNSCache c !! k with Some e => Some (rawMessage e, expireAt e) | None => stored k c end.
Proof.
  unfold stored, Load, LoadDNSCache. cbn [saveDNSCache ClearDNSCache_pending with_dns]. rewrite lookup_empty.
  destruct k as [t q ty]. cbn [TransportName QuestionName QType]. by destruct (saveDNSCache c !! _).
Qed.

Lemma question_key_inj q ty q' ty' :
  is_uint16 ty -> is_uint16 ty' -> question_key q ty = question_key q' ty' -> q = q' /\ ty = ty'.
Proof.
  intros H H' E. unfold question_key in E.
  apply app_inj_1 in E as [E1 E2]; [|by rewrite !length_be_bytes]. split; [by apply bytes_of_string_inj|].
  unfold is_uint16 in *. rewrite <- (be_val_bytes 2 ty), <- (be_val_bytes 2 ty') by (cbn; lia). by rewrite E1.
Qed.

(** Saving an entry stores it and nothing else, and touches no pending entry. *)
Lemma flush_save_ok c k e :
  dns_layout c -> valid_key k -> valid_response (rawMessage e) (expireAt e) ->
  dns_layout (flush_save k e c) /\ saveDNSCache (flush_save k e c) = saveDNSCache c
  /\ stored k (flush_save k e c) = Some (rawMessage e, to_second (expireAt e))
  /\ forall k', valid_key k' -> k' <> k -> stored k' (flush_save k e c) = stored k' c.
Proof.
  intros Hl (Ht & Hq & Hty) [Hraw Hi]. pose proof Hl as [Htl Hp]. unfold flush_save, SaveDNSCache. cbn zeta.
  set (value := be_bytes 8 (uint 64 (Unix (expireAt e))) ++ rawMessage e).
  assert (Hlen : zlen value = 8 + zlen (rawMessage e)) by (unfold value, zlen; rewrite length_app, length_be_bytes; lia).
  destruct (save_in_transport_ok c (db c) bucketDNSCache (TransportName k) (QuestionName k) (QType k) value Htl)
    as (d' & Htx & Htb & Hg & Htl' & Hb'); [done|done|done|unfold MaxValueSize; lia|].
  rewrite (run_tx_ok _ c d' Htx). cbn [snd].
  assert (Hl' : dns_layout (with_db c d')) by (split; [exact Htl'|]; intros t _; exact Hb').
  split; [done|]. split; [done|]. split; [|intros k' (Ht' & Hq' & Hty') Hne]; rewrite !stored_raw by done;
    unfold raw_entry; cbn [db with_db]; change (bpath (with_db c d')) with (bpath c); rewrite Hg.
  - rewrite decide_True by done. cbn [parse_response]. pose proof (zlen_nonneg (rawMessage e)).
    rewrite (proj2 (Z.ltb_ge _ _)) by lia. unfold value. rewrite be_val_uint64 by done.
    by rewrite drop_app_length' by (by rewrite length_be_bytes).
  - rewrite decide_False; [done|]. intros [E1 E2]. apply app_inv_head in E1. injection E1 as E1.
    apply bytes_of_string_inj in E1. apply question_key_inj in E2 as [E2 E3]; [|done..].
    apply Hne. destruct k, k'; cbn in *. by subst.
Qed.

Lemma queue_eq k raw at_ c :
  queueDNSCacheSave k raw at_ c
  = (match saveDNSCache c !! k with Some e => negb (saving e) | None => true end,
     with_dns c (<[k := {| rawMessage := raw; expireAt := at_;
                           sequence := uint 64 (match saveDNSCache c !! k with Some e => sequence e | None => 0 end + 1);
                           saving := true |}]> (saveDNSCache c))).
Proof. unfold queueDNSCacheSave. by destruct (saveDNSCache c !! k). Qed.

(** ** The invariant *)

Definition of_key k (fs : list flusher) : list flusher := filter (fun f => f_key f = k) fs.

Lemma of_key_mid k fs1 f fs2 :
  of_key k (fs1 ++ f :: fs2) = of_key k fs1 ++ (if decide (f_key f = k) then [f] else []) ++ of_key k fs2.
Proof. unfold of_key. rewrite filter_app, filter_cons. by destruct (decide (f_key f = k)). Qed.

Lemma of_key_other k k' fs1 pc fs2 : k' <> k -> of_key k' (fs1 ++ MkFlusher k pc :: fs2) = of_key k' (fs1 ++ fs2).
Proof. intros Hne. rewrite of_key_mid. cbn [f_key]. rewrite decide_False by congruence. unfold of_key. by rewrite filter_app. Qed.

(** The only goroutine of its key moves on, or ends. *)
Lemma of_key_single k fs1 pc fs2 g :
  of_key k (fs1 ++ MkFlusher k pc :: fs2) = [g] ->
  g = MkFlusher k pc /\ of_key k (fs1 ++ fs2) = []
  /\ forall pc', of_key k (fs1 ++ MkFlusher k pc' :: fs2) = [MkFlusher k pc'].
Proof.
  rewrite of_key_mid. cbn [f_key]. rewrite decide_True by done. intros E.
  assert (H1 : of_key k fs1 = []) by (apply (f_equal length) in E; rewrite !length_app in E; cbn in E;
    apply nil_length_inv; lia).
  assert (H2 : of_key k fs2 = []) by (apply (f_equal length) in E; rewrite !length_app in E; cbn in E;
    apply nil_length_inv; lia).
  rewrite H1, H2 in E. cbn in E. injection E as <-. split; [done|]. split.
  - unfold of_key in *. by rewrite filter_app, H1, H2.
  - intros pc'. rewrite of_key_mid. cbn [f_key]. by rewrite decide_True, H1, H2.
Qed.

(** What a goroutine holds, against the pending entry [cur]. *)
Definition pc_inv c k (cur : saveDNSCacheEntry) (pc : flush_pc) : Prop :=
  match pc with
  | FRead => True
  | FSave e | FFinish e =>
      sequence e <= sequence cur
      /\ (sequence e = sequence cur -> rawMessage e = rawMessage cur /\ expireAt e = expireAt cur)
      /\ valid_response (rawMessage e) (expireAt e)
      /\ (if pc is FFinish _ then stored k c = Some (rawMessage e, to_second (expireAt e)) else True)
  end.

(** One key, after [n] queued responses of which [last] was its last; [first] is
    what the database held for it at the start.  A pending entry has exactly one
    goroutine; without one the database has caught up. *)
Definition key_inv c (fs : list flusher) (n : Z) (last first : option (bytes * Z)) k : Prop :=
  match saveDNSCache c !! k with
  | None =>
      of_key k fs = []
      /\ stored k c = match last with Some (raw, at_) => Some (raw, to_second at_) | None => first end
  | Some cur =>
      saving cur = true /\ 0 <= sequence cur <= n /\ last = Some (rawMessage cur, expireAt cur)
      /\ valid_response (rawMessage cur) (expireAt cur)
      /\ exists pc, of_key k fs = [MkFlusher k pc] /\ pc_inv c k cur pc
  end.

Lemma key_inv_other c c' fs fs' n n' last first k :
  key_inv c fs n last first k -> n <= n' -> saveDNSCache c' !! k = saveDNSCache c !! k ->
  of_key k fs' = of_key k fs -> stored k c' = stored k c -> key_inv c' fs' n' last first k.
Proof.
  unfold key_inv. intros H Hn Hp Ht Hs. rewrite Hp, Ht. destruct (saveDNSCache c !! k) as [cur|]; [|by rewrite Hs].
  destruct H as (H1 & H2 & H3 & H4 & pc & H5 & H6). do 2 (split; [lia || done|]). do 2 (split; [done|]).
  exists pc. split; [done|]. destruct pc; cbn [pc_inv] in *; [done|done|]. by rewrite Hs.
Qed.

Definition is_queue (l : label) : bool := match l with LQueue _ _ _ => true | _ => false end.
Definition count_queued (ls : list label) : Z := zlen (filter (fun l => is_queue l = true) ls).

Lemma count_queued_snoc ls l : count_queued (ls ++ [l]) = count_queued ls + if is_queue l then 1 else 0.
Proof. unfold count_queued. rewrite filter_app, zlen_app. f_equal. by destruct l. Qed.
Lemma last_queued_snoc k ls l : last_queued k (ls ++ [l]) = queued k l (last_queued k ls).
Proof. unfold last_queued. by rewrite fold_left_app. Qed.

Definition sys_inv (c0 : CacheFile DB) (s : sys DB) (ls : list label) : Prop :=
  dns_layout (cache s) /\ Forall (fun f => valid_key (f_key f)) (flushers s)
  /\ forall k, valid_key k ->
     key_inv (cache s) (flushers s) (count_queued ls) (last_queued k ls) (stored k c0) k.

Lemma pending_change c m k : stored k (with_dns c m) = stored k c.
Proof. reflexivity. Qed.

(** A goroutine in flight is the one of its key's pending entry. *)
Lemma flusher_pending c fs1 fs2 n last first k pc :
  key_inv c (fs1 ++ MkFlusher k pc :: fs2) n last first k ->
  exists cur, saveDNSCache c !! k = Some cur /\ saving cur = true /\ 0 <= sequence cur <= n
    /\ last = Some (rawMessage cur, expireAt cur) /\ valid_response (rawMessage cur) (expireAt cur)
    /\ of_key k (fs1 ++ fs2) = [] /\ (forall pc', of_key k (fs1 ++ MkFlusher k pc' :: fs2) = [MkFlusher k pc'])
    /\ pc_inv c k cur pc.
Proof.
  unfold key_inv. destruct (saveDNSCache c !! k) as [cur|].
  - intros (H1 & H2 & H3 & H4 & pc' & H5 & H6). apply of_key_single in H5 as ([= ->] & H7 & H8). by exists cur.
  - intros [H _]. rewrite of_key_mid in H. cbn [f_key] in H. rewrite decide_True in H by done.
    apply app_eq_nil in H as [_ H]. done.
Qed.

Lemma queue_inv c0 c fs ls k raw at_ start c' :
  sys_inv c0 (MkSys c fs) ls -> valid_label (LQueue k raw at_) -> count_queued (ls ++ [LQueue k raw at_]) < 2 ^ 64 ->
  queueDNSCacheSave k raw at_ c = (start, c') ->
  sys_inv c0 (MkSys c' (if start : bool then fs ++ [MkFlusher k FRead] else fs)) (ls ++ [LQueue k raw at_]).
Proof.
  intros (Hl & Hv & Hk) [Hvk Hvr] Hn. rewrite queue_eq. intros [= <- <-]. cbn [cache flushers] in *.
  rewrite count_queued_snoc in Hn. cbn [is_queue] in Hn. split; [exact Hl|]. split.
  { destruct (match saveDNSCache c !! k with Some e => negb (saving e) | None => true end); [|done].
    apply Forall_app. split; [done|]. apply Forall_singleton. exact Hvk. }
  intros k' Hvk'. rewrite count_queued_snoc, last_queued_snoc. cbn [queued cache flushers is_queue].
  specialize (Hk k' Hvk'). destruct (decide (k = k')) as [<-|Hne].
  - unfold key_inv in *. cbn [saveDNSCache with_dns]. rewrite lookup_insert_eq. cbn [rawMessage expireAt saving sequence].
    destruct (saveDNSCache c !! k) as [cur|].
    + destruct Hk as (Hs & Hseq & _ & _ & pc & Ht & Hpc). rewrite Hs. cbn [negb].
      rewrite uint_small by lia. do 3 (split; [lia || done|]). split; [done|]. exists pc. split; [done|].
      destruct pc as [|e|e]; cbn [pc_inv sequence rawMessage expireAt] in *; [done|..];
        destruct Hpc as (H1 & H2 & H3 & H4); (split; [lia|split; [lia|done]]).
    + destruct Hk as [Ht _]. rewrite uint_small by lia. split; [done|].
      assert (0 <= count_queued ls) by apply zlen_nonneg. split; [lia|]. split; [done|]. split; [done|].
      exists FRead. split; [|done]. unfold of_key in *. rewrite filter_app, Ht, filter_cons. cbn [f_key].
      by rewrite decide_True.
  - apply (key_inv_other c _ fs _ (count_queued ls)); [done|lia|..].
    + cbn [saveDNSCache with_dns]. by rewrite lookup_insert_ne.
    + destruct (match saveDNSCache c !! k with Some e => negb (saving e) | None => true end); [|done].
      unfold of_key. rewrite filter_app, filter_cons. cbn [f_key].
      rewrite decide_False by congruence. apply app_nil_r.
    + apply pending_change.
Qed.

Lemma flush_inv c0 s s' ls : sys_inv c0 s ls -> step s LFlush s' -> sys_inv c0 s' (ls ++ [LFlush]).
Proof.
  intros (Hl & Hv & Hk) Hstep. unfold sys_inv. rewrite count_queued_snoc. cbn [is_queue]. rewrite Z.add_0_r.
  assert (Hlast : forall k, last_queued k (ls ++ [LFlush]) = last_queued k ls) by (intros; by rewrite last_queued_snoc).
  setoid_rewrite Hlast. clear Hlast.
  inversion Hstep as [|c fs1 fs2 k Hr|c fs1 fs2 k e Hr|c fs1 fs2 k e|c fs1 fs2 k e c' Hf|c fs1 fs2 k e c' Hf| |];
    subst; cbn [cache flushers] in *; apply Forall_app in Hv as [Hv1 Hv2]; apply Forall_cons in Hv2 as [Hvk Hv2];
    cbn [f_key] in Hvk; destruct (flusher_pending _ _ _ _ _ _ _ _ (Hk k Hvk)) as (cur & Hc & Hs & Hq & Hla & Hvr & Ho & Hsw & Hpc).
  - unfold flush_read in Hr. congruence.
  - split; [done|]. split; [by apply Forall_app; split; [|apply Forall_cons]|]. intros k' Hk'. specialize (Hk k' Hk').
    destruct (decide (k' = k)) as [->|Hne]; [|by eapply key_inv_other; [done|lia|done|by rewrite !of_key_other|done]].
    unfold key_inv. rewrite Hc. do 4 (split; [done|]). exists (FSave e). split; [by rewrite Hsw|].
    unfold flush_read in Hr. rewrite Hc in Hr. injection Hr as <-. by repeat split; try lia; try apply Hvr.
  - destruct Hpc as (H1 & H2 & H3 & _). destruct (flush_save_ok c k e Hl Hvk H3) as (Hl' & Hp & Hst & Hso).
    split; [done|]. split; [by apply Forall_app; split; [|apply Forall_cons]|]. intros k' Hk'. specialize (Hk k' Hk').
    destruct (decide (k' = k)) as [->|Hne];
      [|eapply key_inv_other; [done|lia|by rewrite Hp|by rewrite !of_key_other|by apply Hso]].
    unfold key_inv. rewrite Hp, Hc. do 4 (split; [done|]). exists (FFinish e). split; [by rewrite Hsw|]. done.
  - unfold flush_finish in Hf. rewrite Hc in Hf. destruct (sequence cur =? sequence e); cbn [negb] in Hf; [done|].
    injection Hf as <-. split; [done|]. split; [by apply Forall_app; split; [|apply Forall_cons]|]. intros k' Hk'.
    specialize (Hk k' Hk'). destruct (decide (k' = k)) as [->|Hne];
      [|by eapply key_inv_other; [done|lia|done|by rewrite !of_key_other|done]].
    unfold key_inv. rewrite Hc. do 4 (split; [done|]). exists FRead. split; [by rewrite Hsw|]. done.
  - unfold flush_finish in Hf. rewrite Hc in Hf. destruct (Z.eqb_spec (sequence cur) (sequence e)) as [Heq|]; cbn [negb] in Hf; [|done].
    injection Hf as <-. split; [done|]. split; [by apply Forall_app|]. intros k' Hk'. specialize (Hk k' Hk').
    destruct (decide (k' = k)) as [->|Hne].
    2: { eapply key_inv_other; [done|lia| |by rewrite of_key_other|apply pending_change].
         cbn [saveDNSCache with_dns]. by rewrite lookup_delete_ne. }
    unfold key_inv. cbn [saveDNSCache with_dns]. rewrite lookup_delete_eq. split; [done|]. rewrite pending_change, Hla.
    destruct Hpc as (_ & H2 & _ & H4). destruct (H2 ltac:(done)) as [<- <-]. done.
Qed.

(** The invariant holds along every run without a clear. *)
Lemma run_inv s0 ls s :
  dns_layout (cache s0) -> saveDNSCache (cache s0) = ∅ -> flushers s0 = [] ->
  run s0 ls s -> Forall valid_label ls -> count_queued ls < 2 ^ 64 -> sys_inv (cache s0) s ls.
Proof.
  intros Hl Hp Hf Hrun. induction Hrun as [s|s ls s' l s'' Hrun IH Hstep]; intros Hv Hn.
  - split; [done|]. rewrite Hf. split; [constructor|]. intros k Hk. unfold key_inv. rewrite Hp, lookup_empty. split; reflexivity.
  - apply Forall_app in Hv as [Hv Hvl]. apply Forall_cons in Hvl as [Hvl _].
    assert (Hn' : count_queued ls < 2 ^ 64) by (rewrite count_queued_snoc in Hn; destruct (is_queue l); lia).
    specialize (IH Hl Hp Hf Hv Hn'). destruct l as [k raw at_| |]; [|exact (flush_inv _ _ _ _ IH Hstep)|destruct Hvl].
    inversion Hstep as [? ? ? ? ? ? ? Hq| | | | | | |]; subst. exact (queue_inv _ _ _ _ _ _ _ _ _ IH Hvl Hn Hq).
Qed.

(** C6: at every moment of every interleaving of queued writes and flushes, a
    reader gets the response queued last for its question (its expiry as given, or
    to the second once it comes from the database), or, if none was queued, what
    the database held at the start; once no flush is in flight, the database
    itself holds it. *)
Theorem dns_cache_reads_last_write s0 ls s k :
  dns_layout (cache s0) -> saveDNSCache (cache s0) = ∅ -> flushers s0 = [] ->
  run s0 ls s -> Forall valid_label ls -> count_queued ls < 2 ^ 64 -> valid_key k ->
  match last_queued k ls with
  | Some (raw, at_) => exists t, Load k (cache s) = Some (raw, t) /\ (t = at_ \/ t = to_second at_)
  | None => Load k (cache s) = Load k (cache s0)
  end
  /\ (flushers s = [] ->
      stored k (cache s) = match last_queued k ls with
                           | Some (raw, at_) => Some (raw, to_second at_)
                           | None => stored k (cache s0)
                           end).
Proof.
  intros Hl Hp Hf Hrun Hv Hn Hk. destruct (run_inv s0 ls s Hl Hp Hf Hrun Hv Hn) as (_ & _ & Hinv).
  specialize (Hinv k Hk). rewrite !Load_stored, Hp, lookup_empty. unfold key_inv in Hinv.
  destruct (saveDNSCache (cache s) !! k) as [cur|].
  - destruct Hinv as (_ & _ & -> & _ & pc & Ht & _). split; [eauto|]. intros E. by rewrite E in Ht.
  - destruct Hinv as [_ Hst]. destruct (last_queued k ls) as [[raw at_]|]; rewrite Hst; eauto.
Qed.

(** ** Termination *)

(** The steps a goroutine has left if nothing more is queued: one that read an
    entry which is no longer the pending one goes round once more. *)
Definition left c (f : flusher) : nat :=
  let fresh e := match saveDNSCache c !! f_key f with
                 | Some cur => sequence cur =? sequence e
                 | None => true
                 end in
  match f_pc f with
  | FRead => 3
  | FSave e => if fresh e then 2 else 5
  | FFinish e => if fresh e then 1 else 4
  end.
Definition left_all c (fs : list flusher) : nat := sum_list_with (left c) fs.

Lemma left_all_mid c fs1 f fs2 : left_all c (fs1 ++ f :: fs2) = (left_all c (fs1 ++ fs2) + left c f)%nat.
Proof. unfold left_all. rewrite !sum_list_with_app. cbn. lia. Qed.

Lemma left_all_mono c c' fs : (forall f, left c' f <= left c f)%nat -> (left_all c' fs <= left_all c fs)%nat.
Proof. intros H. unfold left_all. induction fs as [|f fs IH]; cbn; [lia|]. specialize (H f). lia. Qed.

Lemma flush_save_pending k e c : saveDNSCache (flush_save k e c) = saveDNSCache c.
Proof. unfold flush_save, SaveDNSCache, run_batch. by destruct (batch _ _). Qed.

Lemma flush_decreases s s' : step s LFlush s' -> (left_all (cache s') (flushers s') < left_all (cache s) (flushers s))%nat.
Proof.
  intros Hstep.
  inversion Hstep as [|c fs1 fs2 k Hr|c fs1 fs2 k e Hr|c fs1 fs2 k e|c fs1 fs2 k e c' Hf|c fs1 fs2 k e c' Hf| |];
    subst; cbn [cache flushers]; rewrite !left_all_mid; unfold flush_read in *.
  - cbn [left f_pc]. lia.
  - unfold left. cbn [f_key f_pc]. rewrite Hr, Z.eqb_refl. lia.
  - assert (Hsame : forall f, left (flush_save k e c) f = left c f) by (intros; unfold left; by rewrite flush_save_pending).
    rewrite !Hsame. pose proof (left_all_mono c (flush_save k e c) (fs1 ++ fs2) ltac:(intros; by rewrite Hsame)).
    unfold left. cbn [f_key f_pc]. destruct (match _ with Some _ => _ | None => _ end); lia.
  - unfold flush_finish in Hf. unfold left. cbn [f_key f_pc]. destruct (saveDNSCache c !! k) as [cur|]; [|done].
    destruct (sequence cur =? sequence e); cbn [negb] in Hf; [done|]. injection Hf as <-. lia.
  - assert (Hle : forall f, (left c' f <= left c f)%nat).
    { unfold flush_finish in Hf. destruct (saveDNSCache c !! k) as [cur|] eqn:E; [|by injection Hf as <-].
      destruct (negb _); [done|]. injection Hf as <-. intros f. unfold left. cbn [saveDNSCache with_dns].
      destruct (decide (f_key f = k)) as [->|]; [|by rewrite lookup_delete_ne].
      rewrite lookup_delete_eq. destruct (f_pc f); repeat case_match; lia. }
    pose proof (left_all_mono c c' (fs1 ++ fs2) Hle).
    assert (1 <= left c (MkFlusher k (FFinish e)))%nat by (unfold left; repeat case_match; lia). lia.
Qed.

Lemma flush_progress (s : sys DB) : flushers s <> [] -> exists s', step s LFlush s'.
Proof.
  destruct s as [c [|[k pc] fs]]; cbn [flushers]; [done|]. intros _.
  destruct pc as [|e|e].
  - destruct (flush_read k c) as [e|] eqn:E; eexists;
      [by apply (step_read c [] fs k e)|by apply (step_read_gone c [] fs k)].
  - eexists. apply (step_save c [] fs k e).
  - destruct (flush_finish k e c) as [[] c'] eqn:E; eexists;
      [by apply (step_again c [] fs k e c')|by apply (step_done c [] fs k e c')].
Qed.

Lemma left_bound c fs : (left_all c fs <= 5 * length fs)%nat.
Proof.
  unfold left_all. induction fs as [|f fs IH]; cbn -[Nat.mul]; [lia|].
  assert (left c f <= 5)%nat by (unfold left; repeat case_match; lia). lia.
Qed.

(** With nothing more queued the flushes end, whatever the interleaving: at
    most five steps per goroutine in flight are possible, one is always possible
    while a goroutine is left, and so every state runs on to one without. *)
Theorem dns_flush_terminates (s : sys DB) :
  (forall ls s', run s ls s' -> Forall (fun l => l = LFlush) ls -> (length ls <= 5 * length (flushers s))%nat)
  /\ (flushers s <> [] -> exists s', step s LFlush s')
  /\ exists ls s', run s ls s' /\ Forall (fun l => l = LFlush) ls /\ flushers s' = [].
Proof.
  split; [|split].
  - intros ls s' Hrun Hall. enough (length ls + left_all (cache s') (flushers s') <= left_all (cache s) (flushers s))%nat
      by (pose proof (left_bound (cache s) (flushers s)); lia).
    induction Hrun as [|s ls s' l s'' Hrun IH Hstep]; [cbn; lia|]. apply Forall_app in Hall as [Hall Hl].
    apply Forall_cons in Hl as [-> _]. apply flush_decreases in Hstep. specialize (IH Hall). rewrite length_app. cbn. lia.
  - apply flush_progress.
  - enough (Hgen : forall n ls s1, (left_all (cache s1) (flushers s1) <= n)%nat -> run s ls s1 -> Forall (fun l => l = LFlush) ls ->
      exists ls s', run s ls s' /\ Forall (fun l => l = LFlush) ls /\ flushers s' = []).
    { apply (Hgen _ [] s (Nat.le_refl _)); constructor. }
    induction n as [|n IH]; intros ls s1 Hn Hrun Hall; destruct (flushers s1) as [|f fs] eqn:E; try (by exists ls, s1);
      destruct (flush_progress s1) as [s2 Hs2]; try (by rewrite E); pose proof (flush_decreases _ _ Hs2) as Hd;
      rewrite E in Hd; [lia|].
    apply (IH (ls ++ [LFlush]) s2); [lia|by econstructor|]. apply Forall_app. by split; [|repeat constructor].
Qed.

End Proofs.

(** ** A clear that meets a flush *)

Import MapDB.

Module Race.
Definition k : saveCacheKey := MkSaveKey "google" "a.org." 1.
Definition c0 : CacheFile DB := New "" 0 (∅ : DB).
Definition old : saveDNSCacheEntry := {| rawMessage := [1]; expireAt := 10 * second; sequence := 1; saving := true |}.
(** The cache file when the first goroutine has read its entry and the cache was cleared. *)
Definition c1 : CacheFile DB := (queueDNSCacheSave k [1] (10 * second) c0).2.
Definition c2 : CacheFile DB := (ClearDNSCache_db (ClearDNSCache_pending c1)).2.
Definition c3 : CacheFile DB := (queueDNSCacheSave k [2] (20 * second) c2).2.
Definition c4 : CacheFile DB := flush_save k old c3.
Definition c5 : CacheFile DB := with_dns c4 (delete k (saveDNSCache c4)).

(** [ClearDNSCache] restarts the sequence numbers, so a flush in flight
    takes the entry queued after the clear for the one it saved: it deletes it
    unsaved.  The run below queues a response, clears the cache, queues a newer
    response, and ends with no flush in flight and the response of before the
    clear in the cache; the newer one is gone. *)
Theorem dns_clear_loses_write :
  exists ls s, run (MkSys (New "" 0 (∅ : DB)) []) ls s
    /\ ls = [LQueue k [1] (10 * second); LFlush; LClear; LClear; LQueue k [2] (20 * second); LFlush; LFlush; LFlush]
    /\ flushers s = [] /\ Load k (cache s) = Some ([1], 10 * second).
Proof.
  eexists _, (MkSys c5 []). split; [|split; [reflexivity|split; [reflexivity|by vm_compute]]].
  change [LQueue k [1] (10 * second); LFlush; LClear; LClear; LQueue k [2] (20 * second); LFlush; LFlush; LFlush]
    with (((((((([] ++ [LQueue k [1] (10 * second)]) ++ [LFlush]) ++ [LClear]) ++ [LClear])
      ++ [LQueue k [2] (20 * second)]) ++ [LFlush]) ++ [LFlush]) ++ [LFlush]).
  apply run_snoc with (MkSys c5 [MkFlusher k FRead]); [|apply (step_read_gone _ [] []), lookup_delete_eq].
  apply run_snoc with (MkSys c4 [MkFlusher k (FFinish old); MkFlusher k FRead]).
  2: { apply (step_done _ [] [MkFlusher k FRead] k old). unfold flush_finish.
       assert (saveDNSCache c4 = saveDNSCache c3) as E by apply flush_save_pending. unfold c5. rewrite E.
       unfold c3. rewrite queue_eq. cbn [snd saveDNSCache with_dns]. rewrite lookup_insert_eq. reflexivity. }
  apply run_snoc with (MkSys c3 [MkFlusher k (FSave old); MkFlusher k FRead]); [|apply (step_save _ [] [MkFlusher k FRead])].
  apply run_snoc with (MkSys c2 [MkFlusher k (FSave old)]); [|by apply (step_queue c2 [MkFlusher k (FSave old)] k [2] (20 * second) true c3)].
  apply run_snoc with (MkSys (ClearDNSCache_pending c1) [MkFlusher k (FSave old)]); [|apply step_clear_db].
  apply run_snoc with (MkSys c1 [MkFlusher k (FSave old)]); [|apply step_clear_pending].
  apply run_snoc with (MkSys c1 [MkFlusher k FRead]); [|by apply (step_read _ [] [])].
  apply run_snoc with (MkSys c0 []); [constructor|]. by apply (step_queue c0 [] k [1] (10 * second) true c1).
Qed.
End Race.

(** ** Witness *)

Lemma dns_cache_reads_last_write_witness :
  let k := MkSaveKey "google" "a.org." 1 in
  let c := (queueDNSCacheSave k [1] (10 * second) (New "" 0 (∅ : DB))).2 in
  exists t, Load k c = Some ([1], t).
Proof.
  intros k c.
  assert (Hk : valid_key k) by (split; [discriminate|split; [vm_compute; congruence|split; vm_compute; congruence]]).
  assert (Hr : valid_response [1] (10 * second)) by (split; [vm_compute; congruence|split; vm_compute; congruence]).
  destruct (dns_cache_reads_last_write (MkSys (New "" 0 (∅ : DB)) []) [LQueue k [1] (10 * second)]
    (MkSys c [MkFlusher k FRead]) k) as [Hl _].
  - split; [exact (new_layout (DB := DB) "" 0 bucketDNSCache)|]. intros t. by vm_compute.
  - reflexivity.
  - reflexivity.
  - apply (run_snoc _ [] (MkSys (New "" 0 (∅ : DB)) [])); [constructor|].
    by apply (step_queue _ [] k [1] (10 * second) true c).
  - constructor; [by split|constructor].
  - reflexivity.
  - exact Hk.
  - destruct Hl as (t & Ht & _). by exists t.
Defined.
