(* ===== verification/Managers.v ===== *)
(** * Outbound and endpoint managers

    adapter/outbound/manager.go, adapter/endpoint/manager.go and
    adapter/lifecycle_legacy.go: the registry of outbounds by tag, the start of all
    of them in the order of their dependencies, replacement and removal.

    An outbound is an object with an identity; what its methods do is outside this
    component: the log records the calls, and [result] gives the error, if any, of
    the call that ends a log.  The locks make each operation one step. *)

From S2P Require Import Prelude GoStd.
Local Open Scope Z_scope.

(** ** Outbounds *)

(** The methods an outbound has beyond its description: [Lifecycle], or the
    methods of older ones. *)
Record Outbound := MkOutbound {
  o_id : Z;
  o_Type : string;
  o_Tag : string;
  o_Dependencies : list string;
  o_Lifecycle : bool;
  o_PreStart : bool;
  o_Start : bool;
  o_PostStart : bool;
  o_Closer : bool
}.

#[export] Instance Outbound_eq_dec : EqDecision Outbound.
Proof. solve_decision. Defined.

Inductive StartStage := StartStateInitialize | StartStateStart | StartStatePostStart | StartStateStarted.
Definition stage_index (s : StartStage) : Z :=
  match s with
  | StartStateInitialize => 0
  | StartStateStart => 1
  | StartStatePostStart => 2
  | StartStateStarted => 3
  end.
Definition ListStartStages : list StartStage :=
  [StartStateInitialize; StartStateStart; StartStatePostStart; StartStateStarted].

#[export] Instance StartStage_eq_dec : EqDecision StartStage.
Proof. solve_decision. Defined.

(** A call of a method. *)
Inductive call :=
| CallStage (o : Outbound) (s : StartStage)
| CallPreStart (o : Outbound)
| CallStart (o : Outbound)
| CallPostStart (o : Outbound)
| CallClose (o : Outbound).
Abbreviation log := (list call) (only parsing).

Definition stage_String (s : StartStage) : string :=
  match s with
  | StartStateInitialize => "initialize"
  | StartStateStart => "start"
  | StartStatePostStart => "post-start"
  | StartStateStarted => "finish-start"
  end.
(** [E.Cause(err, what, " ", kind, "/", Type, "[", Tag, "]")] *)
Definition named_error (what kind : string) (cause : error) (o : Outbound) : error :=
  ECause cause (what +:+ " " +:+ kind +:+ "/" +:+ o_Type o +:+ "[" +:+ o_Tag o +:+ "]").

Section Managers.
(** The error of the last call of a log. *)
Variable result : log -> option error.

Definition invoke (c : call) (l : log) : option error * log := (result (l ++ [c]), l ++ [c]).

(** [adapter.LegacyStart] *)
Definition LegacyStart (o : Outbound) (s : StartStage) (l : log) : option error * log :=
  if o_Lifecycle o then invoke (CallStage o s) l
  else match s with
       | StartStateInitialize => if o_PreStart o then invoke (CallPreStart o) l else (None, l)
       | StartStateStart => if o_Start o then invoke (CallStart o) l else (None, l)
       | StartStatePostStart => (None, l)
       | StartStateStarted => if o_PostStart o then invoke (CallPostStart o) l else (None, l)
       end.
(** [common.Close] *)
Definition Close_one (o : Outbound) (l : log) : option error * log :=
  if o_Closer o then invoke (CallClose o) l else (None, l).

(** ** startOutbounds *)

(** One pass of the loop over the outbounds: those whose dependencies are all
    started are started, in order.  [kind] and [what] are what error messages call
    them: the manager of DNS transports has the same loop. *)
Fixpoint start_pass (kind : string) (obs : list Outbound) (started : gset string) (canContinue : bool) (l : log)
    : option error * gset string * bool * log :=
  match obs with
  | [] => (None, started, canContinue, l)
  | o :: obs' =>
      if bool_decide (o_Tag o ∈ started) then start_pass kind obs' started canContinue l
      else if negb (forallb (fun d => bool_decide (d ∈ started)) (o_Dependencies o)) then
        start_pass kind obs' started canContinue l
      else
        match LegacyStart o StartStateStart l with
        | (Some e, l) => (Some (named_error "start" kind e o), {[o_Tag o]} ∪ started, true, l)
        | (None, l) => start_pass kind obs' ({[o_Tag o]} ∪ started) true l
        end
  end.

(** [lintOutbound]: name the cycle or the missing dependency behind [cur]. *)
Definition circular (what : string) (oTree : list string) (problem : string) : error :=
  ENew ("circular " +:+ what +:+ " dependency: " +:+ Join oTree " -> " +:+ " -> " +:+ problem).
Definition not_found (what problem : string) (cur : Outbound) : error :=
  ENew ("dependency[" +:+ problem +:+ "] not found for " +:+ what +:+ "[" +:+ o_Tag cur +:+ "]").
Fixpoint lintOutbound (what : string) (fuel : nat) (byTag : gmap string Outbound) (started : gset string)
    (oTree : list string) (cur : Outbound) : outcome unit :=
  match fuel with
  | O => Diverge
  | S fuel' =>
      let problem := default "" (List.find (fun d => bool_decide (d ∉ started)) (o_Dependencies cur)) in
      if bool_decide (problem ∈ oTree) then Err (circular what oTree problem)
      else match byTag !! problem with
           | None => Err (not_found what problem cur)
           | Some o => lintOutbound what fuel' byTag started (oTree ++ [problem]) o
           end
  end.

(** The outer loop.  [len(started) == len(outbounds)] ends it; the linter runs on
    the first outbound that is not started, nil if there is none.  Tags joined to a
    lint path are keys of [byTag], each once. *)
Fixpoint start_loop (kind what : string) (fuel : nat) (byTag : gmap string Outbound) (obs : list Outbound) (started : gset string) (l : log)
    : outcome unit * log :=
  match fuel with
  | O => (Diverge, l)
  | S fuel' =>
      match start_pass kind obs started false l with
      | (Some e, _, _, l) => (Err e, l)
      | (None, started, canContinue, l) =>
          if bool_decide (Z.of_nat (size started) = zlen obs) then (Ok tt, l)
          else if canContinue then start_loop kind what fuel' byTag obs started l
          else match List.find (fun o => bool_decide (o_Tag o ∉ started)) obs with
               | None => (Panic "nil pointer dereference", l)
               | Some cur => (lintOutbound what (S (size byTag)) byTag started [o_Tag cur] cur, l)
               end
      end
  end.
Definition start_all (kind what : string) (byTag : gmap string Outbound) (obs : list Outbound) (l : log) : outcome unit * log :=
  start_loop kind what (S (length obs)) byTag obs ∅ l.
Definition startOutbounds (byTag : gmap string Outbound) (obs : list Outbound) (l : log) : outcome unit * log :=
  start_all "outbound" "outbound" byTag obs l.

(** ** endpoint.Manager *)

Record EndpointManager := {
  ep_started : bool;
  ep_stage : Z;
  endpoints : list Outbound;
  endpointByTag : gmap string Outbound
}.

(** Calls one after the other, until one fails. *)
Fixpoint start_each (kind : string) (obs : list Outbound) (s : StartStage) (l : log) : option error * log :=
  match obs with
  | [] => (None, l)
  | o :: obs' =>
      match LegacyStart o s l with
      | (Some e, l) => (Some (named_error (stage_String s) kind e o), l)
      | (None, l) => start_each kind obs' s l
      end
  end.
Fixpoint start_stages (kind : string) (o : Outbound) (stages : list StartStage) (l : log) : option error * log :=
  match stages with
  | [] => (None, l)
  | s :: stages' =>
      match LegacyStart o s l with
      | (Some e, l) => (Some (named_error (stage_String s) kind e o), l)
      | (None, l) => start_stages kind o stages' l
      end
  end.
(** The loop of [Close]: errors are collected and dropped. *)
Fixpoint close_each (obs : list Outbound) (l : log) : log :=
  match obs with
  | [] => l
  | o :: obs' => close_each obs' (Close_one o l).2
  end.

(** [err != nil] as an outcome. *)
Definition of_error (e : option error) : outcome unit := match e with Some e => Err e | None => Ok tt end.

(** [append(list[:index], list[index+1:]...)] at the object; nil is index -1. *)
Definition remove_object (o : Outbound) (obs : list Outbound) : option (list Outbound) :=
  (fun '(i, _) => delete i obs) <$> list_find (fun x => o_id x = o_id o) obs.

Definition ep_set (m : EndpointManager) (obs : list Outbound) (byTag : gmap string Outbound) : EndpointManager :=
  {| ep_started := ep_started m; ep_stage := ep_stage m; endpoints := obs; endpointByTag := byTag |}.

Definition Endpoint_Start (s : StartStage) (m : EndpointManager) (l : log) : outcome unit * EndpointManager * log :=
  if ep_started m && (stage_index s <=? ep_stage m) then (Panic "already started", m, l)
  else
    let m := {| ep_started := true; ep_stage := stage_index s; endpoints := endpoints m; endpointByTag := endpointByTag m |} in
    if bool_decide (s = StartStateStart) then (Ok tt, m, l)
    else let '(e, l) := start_each "endpoint" (endpoints m) s l in (of_error e, m, l).

Definition Endpoint_Close (m : EndpointManager) (l : log) : EndpointManager * log :=
  if negb (ep_started m) then (m, l)
  else ({| ep_started := false; ep_stage := ep_stage m; endpoints := []; endpointByTag := endpointByTag m |},
        close_each (endpoints m) l).

Definition Endpoint_Remove (tag : string) (m : EndpointManager) (l : log) : outcome unit * EndpointManager * log :=
  match endpointByTag m !! tag with
  | None => (Err ErrInvalid, m, l)
  | Some o =>
      let byTag := delete tag (endpointByTag m) in
      match remove_object o (endpoints m) with
      | None => (Panic "invalid endpoint index", ep_set m (endpoints m) byTag, l)
      | Some obs =>
          let m := ep_set m obs byTag in
          if ep_started m then let '(e, l) := Close_one o l in (of_error e, m, l) else (Ok tt, m, l)
      end
  end.

(** [Create] with what the registry returned for the options. *)
Definition Endpoint_Create (tag : string) (created : outcome Outbound) (m : EndpointManager) (l : log)
    : outcome unit * EndpointManager * log :=
  match created with
  | Err e => (Err e, m, l)
  | Panic s => (Panic s, m, l)
  | Diverge => (Diverge, m, l)
  | Ok o =>
      let '(e, l) := if ep_started m then start_stages "endpoint" o ListStartStages l else (None, l) in
      match e with
      | Some e => (Err e, m, l)
      | None =>
          match endpointByTag m !! tag with
          | None => (Ok tt, ep_set m (endpoints m ++ [o]) (<[tag := o]> (endpointByTag m)), l)
          | Some exists_ =>
              let '(e, l) := if ep_started m then Close_one exists_ l else (None, l) in
              match e with
              | Some e => (Err (named_error "close" "endpoint" e exists_), m, l)
              | None =>
                  match remove_object exists_ (endpoints m) with
                  | None => (Panic "invalid endpoint index", m, l)
                  | Some obs => (Ok tt, ep_set m (obs ++ [o]) (<[tag := o]> (endpointByTag m)), l)
                  end
              end
          end
      end
  end.

(** ** outbound.Manager *)

Record Manager := {
  defaultTag : string;
  started : bool;
  stage : Z;
  outbounds : list Outbound;
  outboundByTag : gmap string Outbound;
  dependByTag : gmap string (list string);
  defaultOutbound : option Outbound
}.

Definition NewManager (tag : string) : Manager :=
  {| defaultTag := tag; started := false; stage := 0; outbounds := []; outboundByTag := ∅; dependByTag := ∅;
     defaultOutbound := None |}.

Definition with_stage (m : Manager) (s : StartStage) : Manager :=
  {| defaultTag := defaultTag m; started := true; stage := stage_index s; outbounds := outbounds m;
     outboundByTag := outboundByTag m; dependByTag := dependByTag m; defaultOutbound := defaultOutbound m |}.
Definition with_default (m : Manager) (o : option Outbound) : Manager :=
  {| defaultTag := defaultTag m; started := started m; stage := stage m; outbounds := outbounds m;
     outboundByTag := outboundByTag m; dependByTag := dependByTag m; defaultOutbound := o |}.
Definition with_outbounds (m : Manager) (obs : list Outbound) (byTag : gmap string Outbound) : Manager :=
  {| defaultTag := defaultTag m; started := started m; stage := stage m; outbounds := obs; outboundByTag := byTag;
     dependByTag := dependByTag m; defaultOutbound := defaultOutbound m |}.
Definition with_depend (m : Manager) (d : gmap string (list string)) : Manager :=
  {| defaultTag := defaultTag m; started := started m; stage := stage m; outbounds := outbounds m;
     outboundByTag := outboundByTag m; dependByTag := d; defaultOutbound := defaultOutbound m |}.

(** The default outbound at the start stage: an endpoint of that tag, or the
    fallback ([fallback] is what defaultOutboundFallback returns). *)
Definition pick_default (ep : EndpointManager) (fallback : outcome Outbound) (m : Manager) : outcome Manager :=
  let* m := (if negb (bool_decide (defaultTag m = "")) && negb (bool_decide (is_Some (defaultOutbound m))) then
               match endpointByTag ep !! defaultTag m with
               | None => Err (ENew ("default outbound not found: " +:+ defaultTag m))
               | Some o => Ok (with_default m (Some o))
               end
             else Ok m) in
  match defaultOutbound m with
  | Some _ => Ok m
  | None =>
      let* o := wrap_err (fun e => ECause e "create direct outbound for fallback") fallback in
      Ok (with_default (with_outbounds m (outbounds m ++ [o]) (<[o_Tag o := o]> (outboundByTag m))) (Some o))
  end.

Definition Manager_Start (ep : EndpointManager) (fallback : outcome Outbound) (s : StartStage) (m : Manager) (l : log)
    : outcome unit * Manager * log :=
  if started m && (stage_index s <=? stage m) then (Panic "already started", m, l)
  else
    let m := with_stage m s in
    if bool_decide (s = StartStateStart) then
      match pick_default ep fallback m with
      | Ok m => let '(r, l) := startOutbounds (outboundByTag m) (outbounds m ++ endpoints ep) l in (r, m, l)
      | Err e => (Err e, m, l)
      | Panic p => (Panic p, m, l)
      | Diverge => (Diverge, m, l)
      end
    else let '(e, l) := start_each "outbound" (outbounds m) s l in (of_error e, m, l).

Definition Manager_Close (m : Manager) (l : log) : Manager * log :=
  if negb (started m) then (m, l)
  else ({| defaultTag := defaultTag m; started := false; stage := stage m; outbounds := []; outboundByTag := outboundByTag m;
           dependByTag := dependByTag m; defaultOutbound := defaultOutbound m |}, close_each (outbounds m) l).

Definition Outbound_ (ep : EndpointManager) (m : Manager) (tag : string) : option Outbound :=
  match outboundByTag m !! tag with
  | Some o => Some o
  | None => endpointByTag ep !! tag
  end.

(** The loop of [Remove] over the dependencies of the removed outbound. *)
Fixpoint drop_dependencies (tag : string) (deps : list string) (d : gmap string (list string)) : gmap string (list string) :=
  match deps with
  | [] => d
  | dep :: deps' =>
      let by_ := default [] (d !! dep) in
      drop_dependencies tag deps'
        (if Nat.eqb (length by_) 1 then delete dep d else <[dep := filter (fun t => t <> tag) by_]> d)
  end.

(** [Remove]: the map and the list are changed before the dependents are checked. *)
Definition Remove (tag : string) (m : Manager) (l : log) : outcome unit * Manager * log :=
  match outboundByTag m !! tag with
  | None => (Err ErrInvalid, m, l)
  | Some o =>
      let byTag := delete tag (outboundByTag m) in
      match remove_object o (outbounds m) with
      | None => (Panic "invalid inbound index", with_outbounds m (outbounds m) byTag, l)
      | Some obs =>
          let m := with_outbounds m obs byTag in
          let m := if bool_decide (o_id <$> defaultOutbound m = Some (o_id o)) then with_default m (head obs) else m in
          match default [] (dependByTag m !! tag) with
          | _ :: _ as dependBy =>
              (Err (ENew ("outbound[" +:+ tag +:+ "] is depended by " +:+ Join dependBy ", ")), m, l)
          | [] =>
              let m := with_depend m (drop_dependencies tag (o_Dependencies o) (dependByTag m)) in
              if started m then let '(e, l) := Close_one o l in (of_error e, m, l) else (Ok tt, m, l)
          end
      end
  end.

Fixpoint add_dependencies (tag : string) (deps : list string) (d : gmap string (list string)) : gmap string (list string) :=
  match deps with
  | [] => d
  | dep :: deps' => add_dependencies tag deps' (<[dep := default [] (d !! dep) ++ [tag]]> d)
  end.

(** [Create] with what the registry returned for the options. *)
Definition Manager_Create (tag : string) (created : outcome Outbound) (m : Manager) (l : log) : outcome unit * Manager * log :=
  if bool_decide (tag = "") then (Err ErrInvalid, m, l)
  else match created with
  | Err e => (Err e, m, l)
  | Panic s => (Panic s, m, l)
  | Diverge => (Diverge, m, l)
  | Ok o =>
      let '(e, l) := if started m then start_stages "outbound" o ListStartStages l else (None, l) in
      match e with
      | Some e => (Err e, m, l)
      | None =>
          let '(e, l) := match outboundByTag m !! tag with
                         | Some exists_ =>
                             if started m then
                               let '(e, l) := Close_one exists_ l in
                               ((fun e => named_error "close" "outbound" e exists_) <$> e, l)
                             else (None, l)
                         | None => (None, l)
                         end in
          match e with
          | Some e => (Err e, m, l)
          | None =>
              match (match outboundByTag m !! tag with
                     | Some exists_ => remove_object exists_ (outbounds m)
                     | None => Some (outbounds m)
                     end) with
              | None => (Panic "invalid inbound index", m, l)
              | Some obs =>
                  let m := with_outbounds m (obs ++ [o]) (<[tag := o]> (outboundByTag m)) in
                  let m := with_depend m (add_dependencies tag (o_Dependencies o) (dependByTag m)) in
                  let m := if bool_decide (tag = defaultTag m)
                              || (bool_decide (defaultTag m = "") && negb (bool_decide (is_Some (defaultOutbound m))))
                           then with_default m (Some o) else m in
                  (Ok tt, m, l)
              end
          end
      end
  end.

End Managers.
