(* ===== verification/ManagersSpec.v ===== *)
(** * Outbound manager: correctness

    The start order follows the dependencies, exactly the acyclic and closed
    dependency graphs start, and the registry stays consistent under creation and
    removal. *)

From S2P Require Import Prelude GoStd Managers.
Local Open Scope Z_scope.

Section Order.
Variable result : list call -> option error.
(** What error messages call the outbounds. *)
Variables kind what : string.
Implicit Types (obs ord : list Outbound) (st : gset string) (l : list call).

(** The call that starts an outbound, if it has a method for it. *)
Definition start_calls (o : Outbound) : list call :=
  if o_Lifecycle o then [CallStage o StartStateStart] else if o_Start o then [CallStart o] else [].

Definition tags ord : gset string := list_to_set (o_Tag <$> ord).

(** Every outbound is new and comes after its dependencies. *)
Fixpoint ordered st ord : Prop :=
  match ord with
  | [] => True
  | o :: ord' => (o_Tag o ∉ st) /\ (forall d, d ∈ o_Dependencies o -> d ∈ st) /\ ordered ({[o_Tag o]} ∪ st) ord'
  end.

Lemma LegacyStart_start o l : exists e, LegacyStart result o StartStateStart l = (e, l ++ start_calls o).
Proof.
  unfold LegacyStart, start_calls, invoke. destruct (o_Lifecycle o); [by eexists|].
  destruct (o_Start o); eexists; [done|]. by rewrite app_nil_r.
Qed.

Lemma forallb_started st deps :
  forallb (fun d => bool_decide (d ∈ st)) deps = true <-> forall d, d ∈ deps -> d ∈ st.
Proof.
  rewrite forallb_forall. split; intros H d Hd.
  - apply list_elem_of_In in Hd. by apply H, bool_decide_eq_true in Hd.
  - apply bool_decide_eq_true, H. by apply list_elem_of_In.
Qed.

(** What one pass does: the outbounds started, the calls made, and, when it
    started none, why. *)
Lemma start_pass_spec obs st can l e st' can' l' :
  start_pass result kind obs st can l = (e, st', can', l') ->
  exists ord, l' = l ++ concat (start_calls <$> ord) /\ st' = tags ord ∪ st /\ ordered st ord
    /\ (forall o, o ∈ ord -> o ∈ obs) /\ can' = can || negb (bool_decide (ord = []))
    /\ (e = None -> ord = [] -> forall o, o ∈ obs -> o_Tag o ∉ st -> exists d, d ∈ o_Dependencies o /\ d ∉ st).
Proof.
  revert st can l. induction obs as [|o obs IH]; intros st can l; cbn [start_pass].
  { intros [= <- <- <- <-]. exists []. cbn. rewrite app_nil_r, orb_false_r.
    split; [done|]. split; [unfold tags; cbn; set_solver|]. split; [done|]. split; [done|]. split; [done|].
    by intros _ _ ? ?%elem_of_nil. }
  case_bool_decide as Hin.
  { intros H. apply IH in H as (ord & -> & -> & Ho & Hs & -> & Hn). exists ord.
    split; [done|]. split; [done|]. split; [done|]. split; [intros; right; auto|]. split; [done|].
    intros He Hnil x [->|Hx]%elem_of_cons; [done|]. by apply Hn. }
  destruct (forallb _ (o_Dependencies o)) eqn:Hd; cbn [negb].
  2: { intros H. apply IH in H as (ord & -> & -> & Ho & Hs & -> & Hn). exists ord.
       split; [done|]. split; [done|]. split; [done|]. split; [intros; right; auto|]. split; [done|].
       intros He Hnil x [->|Hx]%elem_of_cons Hx'; [|by apply Hn]. 
       destruct (decide (Forall (fun d => d ∈ st) (o_Dependencies o))) as [Hall|Hall].
       - rewrite Forall_forall in Hall. apply not_true_iff_false in Hd. destruct Hd. by apply forallb_started.
       - apply not_Forall_Exists in Hall; [|apply _]. apply Exists_exists in Hall as (d & ? & ?). by exists d. }
  pose proof (proj1 (forallb_started st (o_Dependencies o)) Hd) as Hdeps.
  destruct (LegacyStart_start o l) as [[err|] ->].
  - intros [= <- <- <- <-]. exists [o]. cbn [fmap list_fmap concat]. rewrite app_nil_r. split; [done|].
    split; [unfold tags; cbn; set_solver|]. split; [done|]. split; [set_solver|]. split; [by rewrite orb_true_r|]. done.
  - intros H. apply IH in H as (ord & -> & -> & Ho & Hs & -> & Hn). exists (o :: ord).
    cbn [fmap list_fmap concat]. rewrite <- app_assoc. split; [done|].
    split; [unfold tags; cbn; set_solver|]. split; [done|]. split; [set_solver|]. split; [by rewrite orb_true_r|]. done.
Qed.

Lemma tags_app ord1 ord2 : tags (ord1 ++ ord2) = tags ord1 ∪ tags ord2.
Proof. unfold tags. rewrite fmap_app, list_to_set_app_L. done. Qed.

Lemma ordered_app st ord1 ord2 : ordered st ord1 -> ordered (tags ord1 ∪ st) ord2 -> ordered st (ord1 ++ ord2).
Proof.
  revert st. induction ord1 as [|o ord1 IH]; intros st H1 H2; cbn [app ordered] in *.
  - replace (tags [] ∪ st) with st in H2 by (unfold tags; cbn; set_solver). done.
  - destruct H1 as (Ho & Hd & H1). split; [done|]. split; [done|]. apply IH; [done|].
    replace (tags ord1 ∪ ({[o_Tag o]} ∪ st)) with (tags (o :: ord1) ∪ st) by (unfold tags; cbn; set_solver). done.
Qed.

Lemma ordered_disjoint st ord : ordered st ord -> tags ord ## st.
Proof.
  revert st. induction ord as [|o ord IH]; intros st H; cbn [ordered] in H; [unfold tags; cbn; set_solver|].
  destruct H as (Ho & _ & H). apply IH in H. unfold tags in *. cbn. set_solver.
Qed.

Lemma ordered_size st ord : ordered st ord -> size (tags ord ∪ st) = (length ord + size st)%nat.
Proof.
  revert st. induction ord as [|o ord IH]; intros st H; cbn [ordered] in H.
  - replace (tags [] ∪ st) with st by (unfold tags; cbn; set_solver). done.
  - destruct H as (Ho & _ & H). replace (tags (o :: ord) ∪ st) with (tags ord ∪ ({[o_Tag o]} ∪ st)) by (unfold tags; cbn; set_solver).
    rewrite IH, size_union, size_singleton by (done || set_solver). cbn. lia.
Qed.

Lemma tags_size obs : (size (tags obs) <= length obs)%nat.
Proof.
  induction obs as [|o obs IH]; [done|]. replace (tags (o :: obs)) with ({[o_Tag o]} ∪ tags obs) by (unfold tags; cbn; set_solver).
  pose proof (size_union_alt ({[o_Tag o]} : gset string) (tags obs)) as H. rewrite size_singleton in H.
  assert (size (tags obs ∖ {[o_Tag o]}) <= size (tags obs))%nat by (apply subseteq_size; set_solver). cbn. lia.
Qed.

Lemma tags_subset ord obs : (forall o, o ∈ ord -> o ∈ obs) -> tags ord ⊆ tags obs.
Proof. intros H t. unfold tags. rewrite !elem_of_list_to_set, !list_elem_of_fmap. naive_solver. Qed.

(** ** The linter *)

(** The linter names a cycle or a missing dependency. *)
Definition lint_error (r : outcome unit) : Prop := (exists t p, r = Err (circular what t p)) \/ (exists p c, r = Err (not_found what p c)).

Lemma lint_fails fuel byTag st tree path cur :
  NoDup path -> (forall t, t ∈ path -> t ∈ tree) -> (forall t, t ∈ path -> is_Some (byTag !! t)) ->
  (fuel + length path = S (size byTag))%nat ->
  lint_error (lintOutbound what fuel byTag st tree cur).
Proof.
  revert tree path cur. induction fuel as [|fuel IH]; intros tree path cur Hnd Hin Hdom Hf.
  - exfalso. assert (size (list_to_set path : gset string) <= size (dom byTag))%nat as Hle.
    { apply subseteq_size. intros t. rewrite elem_of_list_to_set, elem_of_dom. auto. }
    rewrite size_list_to_set, size_dom in Hle by done. lia.
  - cbn [lintOutbound]. set (problem := default "" _). case_bool_decide as Hc; [by left; eauto|].
    destruct (byTag !! problem) as [o|] eqn:E; [|by right; eauto].
    apply (IH (tree ++ [problem]) (path ++ [problem]) o).
    + apply NoDup_app. split; [done|]. split; [|apply NoDup_singleton]. intros t Ht ->%list_elem_of_singleton. auto.
    + intros t. rewrite !elem_of_app. intros [Ht|Ht]; auto.
    + intros t. rewrite elem_of_app, list_elem_of_singleton. intros [Ht| ->]; [auto|]. by rewrite E.
    + rewrite length_app. cbn. lia.
Qed.

(** ** The loop *)

Definition distinct_tags obs : Prop := NoDup (o_Tag <$> obs).

Lemma distinct_size obs : distinct_tags obs -> size (tags obs) = length obs.
Proof. intros H. unfold tags. rewrite size_list_to_set by done. apply length_fmap. Qed.

(** When the loop stops: all is started, a start failed, or every outbound left
    waits for another. *)
Definition loop_end obs st (r : outcome unit) : Prop :=
  match r with
  | Ok _ => size st = length obs
  | _ => (exists e o, o ∈ obs /\ r = Err (named_error "start" kind e o) /\ exists l, result l = Some e)
         \/ lint_error r /\ (exists o, o ∈ obs /\ o_Tag o ∉ st)
            /\ (forall o, o ∈ obs -> o_Tag o ∉ st -> exists d, d ∈ o_Dependencies o /\ d ∉ st)
  end.

Lemma LegacyStart_error o s l e l' : LegacyStart result o s l = (Some e, l') -> exists l0, result l0 = Some e.
Proof.
  unfold LegacyStart, invoke. destruct (o_Lifecycle o); [intros [= H _]; by eexists|].
  destruct s; repeat case_match; intros [=]; by eexists.
Qed.

Lemma start_pass_error obs st can l e st' can' l' :
  start_pass result kind obs st can l = (Some e, st', can', l') ->
  exists e' o, o ∈ obs /\ e = named_error "start" kind e' o /\ exists l0, result l0 = Some e'.
Proof.
  assert (Hcons : forall o obs, (exists e' o', o' ∈ obs /\ e = named_error "start" kind e' o' /\ exists l0, result l0 = Some e') ->
    exists e' o', o' ∈ o :: obs /\ e = named_error "start" kind e' o' /\ exists l0, result l0 = Some e').
  { intros o obs0 (e' & o' & Hin & H). exists e', o'. split; [by right|done]. }
  revert st can l. induction obs as [|o obs IH]; intros st can l; cbn [start_pass]; [done|].
  case_bool_decide; [intros; eapply Hcons, IH; done|]. destruct (negb _); [intros; eapply Hcons, IH; done|].
  destruct (LegacyStart result o StartStateStart l) as [[e'|] l1] eqn:E; [|intros; eapply Hcons, IH; done].
  intros [= <- _ _ _]. exists e', o. split; [by left|]. split; [done|]. by eapply LegacyStart_error.
Qed.

Lemma start_loop_spec fuel byTag obs st l r l' :
  distinct_tags obs -> st ⊆ tags obs -> (S (length obs) <= fuel + size st)%nat ->
  start_loop result kind what fuel byTag obs st l = (r, l') ->
  exists ord, l' = l ++ concat (start_calls <$> ord) /\ ordered st ord /\ (forall o, o ∈ ord -> o ∈ obs)
    /\ loop_end obs (tags ord ∪ st) r.
Proof.
  intros Hnd. revert st l. induction fuel as [|fuel IH]; intros st l Hst Hf.
  { exfalso. pose proof (subseteq_size _ _ Hst). rewrite distinct_size in H by done. lia. }
  cbn [start_loop]. destruct (start_pass result kind obs st false l) as [[[e st1] can] l1] eqn:Hp.
  pose proof (start_pass_spec _ _ _ _ _ _ _ _ Hp) as (ord & -> & -> & Ho & Hs & -> & Hn).
  destruct e as [e|].
  { intros [= <- <-]. exists ord. split; [done|]. split; [done|]. split; [done|].
    apply start_pass_error in Hp as (e' & o & ? & -> & ?). cbn [loop_end]. left. eauto. }
  assert (Hsub : tags ord ∪ st ⊆ tags obs) by (apply union_least; [by apply tags_subset|done]).
  pose proof (ordered_size st ord Ho) as Hsz.
  destruct (decide (Z.of_nat (size (tags ord ∪ st)) = zlen obs)) as [Hall|Hall];
    [rewrite (bool_decide_true (_ = zlen obs)) by done|rewrite (bool_decide_false (_ = zlen obs)) by done].
  { intros [= <- <-]. exists ord. split; [done|]. split; [done|]. split; [done|]. cbn. unfold zlen in Hall. lia. }
  cbn [orb]. destruct (decide (ord = [])) as [->|Hne].
  - rewrite bool_decide_true by done. cbn [negb]. specialize (Hn eq_refl eq_refl).
    replace (tags [] ∪ st) with st in * by (unfold tags; cbn; set_solver).
    assert (Hex : exists o, o ∈ obs /\ o_Tag o ∉ st).
    { destruct (decide (Forall (fun o => o_Tag o ∈ st) obs)) as [Ha|Ha].
      - exfalso. apply Hall. unfold zlen. f_equal. rewrite <- (distinct_size obs Hnd). f_equal. apply set_eq. intros t.
        split; [by apply Hst|]. unfold tags. rewrite elem_of_list_to_set, list_elem_of_fmap. intros (o & -> & Hin).
        rewrite Forall_forall in Ha. by apply Ha.
      - apply not_Forall_Exists in Ha; [|apply _]. by apply Exists_exists in Ha. }
    destruct (List.find _ obs) as [cur|] eqn:E.
    + intros [<- <-]%pair_equal_spec. exists []. split; [by rewrite app_nil_r|]. split; [done|]. split; [done|].
      replace (tags [] ∪ st) with st by (unfold tags; cbn; set_solver).
      assert (Hle : lint_error (lintOutbound what (S (size byTag)) byTag st [o_Tag cur] cur)).
      { apply (lint_fails _ _ _ _ []); [constructor|by intros ? ?%elem_of_nil|by intros ? ?%elem_of_nil|cbn; lia]. }
      destruct (lintOutbound what (S (size byTag)) byTag st [o_Tag cur] cur) as [[]|err|msg|]; cbn [loop_end]; [|by right; auto..].
      by destruct Hle as [(? & ? & [=])|(? & ? & [=])].
    + exfalso. destruct Hex as (o & Hin & Hno). apply list_elem_of_In, (List.find_none _ _ E o) in Hin.
      by rewrite bool_decide_true in Hin.
  - rewrite bool_decide_false by done. cbn [negb]. intros H.
    apply IH in H as (ord2 & -> & Ho2 & Hs2 & Hend); [|done|]. 2: { assert (length ord <> 0%nat) by (by destruct ord). rewrite Hsz. lia. }
    exists (ord ++ ord2). rewrite fmap_app, concat_app, <- app_assoc. split; [done|]. split; [by apply ordered_app|].
    split; [intros o [?|?]%elem_of_app; auto|]. rewrite tags_app.
    replace (tags ord ∪ tags ord2 ∪ st) with (tags ord2 ∪ (tags ord ∪ st)) by set_solver. done.
Qed.

(** ** Start order *)

(** A numbering under which every dependency is an outbound with a smaller
    number: the graph is closed and has no cycle. *)
Definition ranked obs (rank : string -> nat) : Prop :=
  forall o d, o ∈ obs -> d ∈ o_Dependencies o -> d ∈ o_Tag <$> obs /\ (rank d < rank (o_Tag o))%nat.

Lemma start_all_spec byTag obs l r l' :
  distinct_tags obs -> start_all result kind what byTag obs l = (r, l') ->
  exists ord, l' = l ++ concat (start_calls <$> ord) /\ ordered ∅ ord /\ (forall o, o ∈ ord -> o ∈ obs)
    /\ loop_end obs (tags ord) r.
Proof.
  intros Hnd H. apply start_loop_spec in H as (ord & -> & Ho & Hs & Hend); [|done|set_solver|lia].
  exists ord. rewrite union_empty_r_L in Hend. done.
Qed.

Lemma ordered_NoDup st ord : ordered st ord -> NoDup (o_Tag <$> ord).
Proof.
  revert st. induction ord as [|o ord IH]; intros st H; [constructor|]. destruct H as (_ & _ & H).
  constructor; [|by eapply IH]. apply ordered_disjoint in H. intros Hin.
  assert (o_Tag o ∈ tags ord) by (unfold tags; by apply elem_of_list_to_set). set_solver.
Qed.

Lemma ordered_all obs ord :
  distinct_tags obs -> ordered ∅ ord -> (forall o, o ∈ ord -> o ∈ obs) -> size (tags ord) = length obs -> ord ≡ₚ obs.
Proof.
  intros Hnd Ho Hs Hsz. pose proof (ordered_size ∅ ord Ho) as Hl. rewrite union_empty_r_L, size_empty in Hl.
  apply submseteq_length_Permutation; [|lia]. apply NoDup_submseteq; [|exact Hs].
  eapply NoDup_fmap_1, ordered_NoDup. exact Ho.
Qed.

(** In a numbered graph some outbound that is not started has all it needs. *)
Lemma ranked_progress obs rank st :
  ranked obs rank -> (exists o, o ∈ obs /\ o_Tag o ∉ st) ->
  exists o, o ∈ obs /\ (o_Tag o ∉ st) /\ forall d, d ∈ o_Dependencies o -> d ∈ st.
Proof.
  intros Hr (o & Hin & Hno).
  remember (rank (o_Tag o)) as n eqn:En. revert o En Hin Hno. induction (lt_wf n) as [n _ IH]. intros o -> Hin Hno.
  destruct (decide (Forall (fun d => d ∈ st) (o_Dependencies o))) as [Ha|Ha].
  - rewrite Forall_forall in Ha. by exists o.
  - apply not_Forall_Exists in Ha; [|apply _]. apply Exists_exists in Ha as (d & Hd & Hnd).
    destruct (Hr o d Hin Hd) as [Hobs Hlt]. apply list_elem_of_fmap in Hobs as (o' & -> & Hin').
    by apply (IH (rank (o_Tag o')) Hlt o').
Qed.

(** The order of a complete start is a numbering. *)
Lemma ordered_ranked ord st : ordered st ord -> exists rank : string -> nat,
  (forall t, t ∈ st -> t ∉ tags ord -> rank t = 0%nat)
  /\ forall o d, o ∈ ord -> d ∈ o_Dependencies o -> d ∈ tags ord ∪ st /\ (rank d < rank (o_Tag o))%nat.
Proof.
  revert st. induction ord as [|o ord IH] using rev_ind; intros st H.
  { exists (fun _ => 0%nat). split; [done|]. by intros ? ? ?%elem_of_nil. }
  assert (H1 : ordered st ord /\ (o_Tag o ∉ tags ord ∪ st) /\ forall d, d ∈ o_Dependencies o -> d ∈ tags ord ∪ st).
  { clear IH. revert st H. induction ord as [|x ord IH2]; intros st H.
    - destruct H as (Ho & Hd & _). replace (tags [] ∪ st) with st by (unfold tags; cbn; set_solver). done.
    - destruct H as (Hx & Hdx & H). apply IH2 in H as (Ho & Hn & Hd).
      replace (tags (x :: ord) ∪ st) with (tags ord ∪ ({[o_Tag x]} ∪ st)) by (unfold tags; cbn; set_solver). done. }
  destruct H1 as (Ho & Hno & Hdo). destruct (IH st Ho) as (rank & Hz & Hr).
  set (top := S (sum_list_with rank (o_Dependencies o))).
  exists (fun t => if decide (t = o_Tag o) then top else rank t). rewrite tags_app.
  assert (Htop : forall d, d ∈ o_Dependencies o -> (rank d < top)%nat).
  { intros d Hd. unfold top. apply Nat.lt_succ_r. induction (o_Dependencies o) as [|x ds IHd]; [by apply elem_of_nil in Hd|].
    cbn. apply elem_of_cons in Hd as [->|Hd]; [lia|]. enough (rank d <= sum_list_with rank ds)%nat by lia.
    apply IHd; [|done]. intros d' Hd'. apply Hdo. by right. }
  split.
  - intros t Ht Hnt. rewrite decide_False; [apply Hz; set_solver|]. intros ->. set_solver.
  - intros x d [Hx|Hx%list_elem_of_singleton]%elem_of_app Hd.
    + destruct (Hr x d Hx Hd) as [Hin Hlt]. split; [set_solver|].
      rewrite (decide_False (P := d = o_Tag o)) by (intros ->; set_solver).
      rewrite decide_False; [done|]. intros E. apply Hno, elem_of_union_l. rewrite <- E. unfold tags.
      apply elem_of_list_to_set, list_elem_of_fmap. by exists x.
    + subst x. split; [set_solver|]. rewrite (decide_True (P := o_Tag o = o_Tag o)) by done.
      rewrite decide_False by (intros ->; auto). by apply Htop.
Qed.

Lemma start_all_in_order byTag obs l r l' :
  distinct_tags obs -> start_all result kind what byTag obs l = (r, l') ->
  exists ord, l' = l ++ concat (start_calls <$> ord) /\ ordered ∅ ord /\ (forall o, o ∈ ord -> o ∈ obs)
    /\ (r = Ok tt -> ord ≡ₚ obs).
Proof.
  intros Hnd H. destruct (start_all_spec _ _ _ _ _ Hnd H) as (ord & Hl & Ho & Hs & Hend).
  exists ord. split; [done|]. split; [done|]. split; [done|]. intros ->. by apply ordered_all.
Qed.

Lemma start_all_iff_acyclic byTag obs l :
  distinct_tags obs -> (forall l0, result l0 = None) ->
  let r := (start_all result kind what byTag obs l).1 in
  (r = Ok tt <-> exists rank, ranked obs rank) /\ (r = Ok tt \/ lint_error r).
Proof.
  intros Hnd Hres. cbn zeta. destruct (start_all result kind what byTag obs l) as [r l'] eqn:E. cbn [fst].
  destruct (start_all_spec _ _ _ _ _ Hnd E) as (ord & _ & Ho & Hs & Hend).
  assert (Hcases : (r = Ok tt /\ size (tags ord) = length obs)
    \/ lint_error r /\ (exists o, o ∈ obs /\ o_Tag o ∉ tags ord)
       /\ (forall o, o ∈ obs -> o_Tag o ∉ tags ord -> exists d, d ∈ o_Dependencies o /\ d ∉ tags ord)).
  { destruct r as [[]|err|msg|]; cbn [loop_end] in Hend; [by left|..];
      (destruct Hend as [(e & o & _ & _ & l0 & Hl0)|Hend]; [by rewrite Hres in Hl0|by right]). }
  split; [split|].
  - intros ->. destruct Hcases as [[_ Hsz]|[[(? & ? & [=])|(? & ? & [=])] _]].
    pose proof (ordered_all obs ord Hnd Ho Hs Hsz) as Hp. destruct (ordered_ranked ord ∅ Ho) as (rank & _ & Hr).
    exists rank. intros o d Hin Hd. destruct (Hr o d) as [Hd' Hlt]; [by rewrite Hp|done|]. split; [|done].
    rewrite union_empty_r_L in Hd'. unfold tags in Hd'. apply elem_of_list_to_set in Hd'. by rewrite <- Hp.
  - intros [rank Hr]. destruct Hcases as [[-> _]|(_ & Hex & Hstuck)]; [done|].
    destruct (ranked_progress obs rank (tags ord) Hr Hex) as (o & Hin & Hno & Hd).
    destruct (Hstuck o Hin Hno) as (d & Hdin & Hdno). by apply Hd in Hdin.
  - destruct Hcases as [[-> _]|[Hle _]]; auto.
Qed.

End Order.

(** C9: whatever the start methods do, an outbound or endpoint is started at most
    once and only after everything it depends on; when the start succeeds, all of
    them were. *)
Theorem outbounds_start_in_order result byTag obs l r l' :
  distinct_tags obs -> startOutbounds result byTag obs l = (r, l') ->
  exists ord, l' = l ++ concat (start_calls <$> ord) /\ ordered ∅ ord /\ (forall o, o ∈ ord -> o ∈ obs)
    /\ (r = Ok tt -> ord ≡ₚ obs).
Proof. apply start_all_in_order. Qed.

(** C8: when no start method fails, the start succeeds exactly if the
    dependencies can be numbered, that is if they are closed and acyclic; otherwise
    it reports a circular or a missing dependency.  It always ends. *)
Theorem outbounds_start_iff_acyclic result byTag obs l :
  distinct_tags obs -> (forall l0, result l0 = None) ->
  let r := (startOutbounds result byTag obs l).1 in
  (r = Ok tt <-> exists rank, ranked obs rank) /\ (r = Ok tt \/ lint_error "outbound" r).
Proof. apply start_all_iff_acyclic. Qed.


(** ** The registry *)

Section Registry.
Variable result : list call -> option error.
Implicit Types (m : Manager) (o : Outbound) (l : list call).

(** List and map hold the same outbounds, each under its tag; without a
    configured default there is some default as long as there is an outbound. *)
Definition registry_ok m : Prop :=
  NoDup (o_id <$> outbounds m)
  /\ (forall t o, outboundByTag m !! t = Some o <-> o ∈ outbounds m /\ o_Tag o = t)
  /\ (defaultTag m = "" -> defaultOutbound m = None -> outbounds m = []).

Lemma remove_object_spec o obs :
  NoDup (o_id <$> obs) -> o ∈ obs -> exists obs', remove_object o obs = Some obs' /\ obs ≡ₚ o :: obs'.
Proof.
  intros Hnd Hin. unfold remove_object.
  destruct (list_find (fun x => o_id x = o_id o) obs) as [[i x]|] eqn:E.
  - apply list_find_Some in E as (Hi & Hid & _). cbn. eexists. split; [done|].
    apply list_elem_of_lookup in Hin as [j Hj]. assert (i = j) as ->.
    { eapply NoDup_lookup; [exact Hnd|by rewrite list_lookup_fmap, Hi|by rewrite list_lookup_fmap, Hj; cbn; rewrite Hid]. }
    assert (x = o) as -> by congruence. by apply delete_Permutation.
  - apply list_find_None in E. rewrite Forall_forall in E. by destruct (E o).
Qed.

Lemma NoDup_ids_cons o obs obs' :
  NoDup (o_id <$> obs) -> obs ≡ₚ o :: obs' -> NoDup (o_id <$> obs') /\ (forall x, x ∈ obs' <-> x ∈ obs /\ x <> o).
Proof.
  intros Hnd Hp. rewrite Hp in Hnd. cbn in Hnd. apply NoDup_cons in Hnd as [Hno Hnd]. split; [done|].
  intros x. rewrite Hp, elem_of_cons. split; [|naive_solver]. intros Hx. split; [by right|]. intros ->.
  apply Hno. apply list_elem_of_fmap. by exists o.
Qed.

(** Taking an outbound out of list and map. *)
Lemma registry_take (obs0 : list Outbound) (byTag : gmap string Outbound) o :
  NoDup (o_id <$> obs0) -> (forall t x, byTag !! t = Some x <-> x ∈ obs0 /\ o_Tag x = t) -> o ∈ obs0 ->
  exists obs, remove_object o obs0 = Some obs /\ NoDup (o_id <$> obs) /\ (forall x, x ∈ obs <-> x ∈ obs0 /\ x <> o)
    /\ (forall t x, delete (o_Tag o) byTag !! t = Some x <-> x ∈ obs /\ o_Tag x = t).
Proof.
  intros Hnd Hmap Hin. destruct (remove_object_spec o _ Hnd Hin) as (obs & Hr & Hp).
  destruct (NoDup_ids_cons o _ obs Hnd Hp) as [Hnd' Hel]. exists obs. split; [done|]. split; [done|]. split; [done|].
  intros t x. rewrite Hel. destruct (decide (t = o_Tag o)) as [->|Hne].
  - rewrite lookup_delete_eq. split; [done|]. intros [[Hx Hxo] Ht]. destruct Hxo.
    assert (byTag !! o_Tag o = Some x) by (by apply Hmap).
    assert (byTag !! o_Tag o = Some o) by (by apply Hmap). congruence.
  - rewrite lookup_delete_ne by done. rewrite Hmap. naive_solver.
Qed.

Lemma registry_remove m o :
  registry_ok m -> o ∈ outbounds m ->
  exists obs, remove_object o (outbounds m) = Some obs /\ NoDup (o_id <$> obs) /\ (forall x, x ∈ obs <-> x ∈ outbounds m /\ x <> o)
    /\ (forall t x, delete (o_Tag o) (outboundByTag m) !! t = Some x <-> x ∈ obs /\ o_Tag x = t).
Proof. intros (Hnd & Hmap & _) Hin. by apply registry_take. Qed.

Lemma elem_app_single (x o : Outbound) obs : x ∈ obs ++ [o] <-> x ∈ obs \/ x = o.
Proof. rewrite elem_of_app, list_elem_of_singleton. done. Qed.

(** Adding a new outbound, after the one of its tag was taken out. *)
Lemma registry_add (obs : list Outbound) (byTag : gmap string Outbound) o :
  NoDup (o_id <$> obs) -> o_id o ∉ o_id <$> obs ->
  (forall t x, delete (o_Tag o) byTag !! t = Some x <-> x ∈ obs /\ o_Tag x = t) ->
  NoDup (o_id <$> obs ++ [o]) /\ (forall t x, <[o_Tag o := o]> byTag !! t = Some x <-> x ∈ obs ++ [o] /\ o_Tag x = t).
Proof.
  intros Hnd Hfresh Hmap. split.
  - rewrite fmap_app. apply NoDup_app. split; [done|]. split; [|apply NoDup_singleton].
    intros i Hi ->%list_elem_of_singleton. done.
  - intros t x. rewrite elem_app_single. specialize (Hmap t x). destruct (decide (t = o_Tag o)) as [->|Hne].
    + rewrite lookup_insert_eq. rewrite lookup_delete_eq in Hmap. naive_solver.
    + rewrite lookup_insert_ne by done. rewrite lookup_delete_ne in Hmap by done. naive_solver.
Qed.

(** The operations of a running program. *)
Inductive op :=
| OpCreate (o : Outbound)
| OpRemove (tag : string)
| OpStart (ep : EndpointManager) (fallback : outcome Outbound) (s : StartStage).

Definition exec (x : op) m l : outcome unit * Manager * list call :=
  match x with
  | OpCreate o => Manager_Create result (o_Tag o) (Ok o) m l
  | OpRemove tag => Remove result tag m l
  | OpStart ep fallback s => Manager_Start result ep fallback s m l
  end.

(** A created object is a new one. *)
Definition op_ok m (x : op) : Prop :=
  match x with
  | OpCreate o | OpStart _ (Ok o) _ => o_id o ∉ o_id <$> outbounds m
  | _ => True
  end.

Lemma create_ok m l o r m' l' :
  registry_ok m -> o_id o ∉ o_id <$> outbounds m -> Manager_Create result (o_Tag o) (Ok o) m l = (r, m', l') ->
  registry_ok m' /\ (r = Ok tt -> outboundByTag m' !! o_Tag o = Some o) /\ r <> Panic "invalid inbound index".
Proof.
  intros Hok Hfresh. unfold Manager_Create. case_bool_decide; [by intros [= <- <- <-]|].
  destruct (if started m then start_stages _ _ _ _ _ else _) as [[e|] l1]; [by intros [= <- <- <-]|].
  destruct (match outboundByTag m !! o_Tag o with Some _ => _ | None => (None, l1) end) as [[e|] l2]; [by intros [= <- <- <-]|].
  assert (exists obs, match outboundByTag m !! o_Tag o with Some x => remove_object x (outbounds m) | None => Some (outbounds m) end = Some obs
    /\ NoDup (o_id <$> obs) /\ (o_id o ∉ o_id <$> obs)
    /\ (forall t x, delete (o_Tag o) (outboundByTag m) !! t = Some x <-> x ∈ obs /\ o_Tag x = t)) as (obs & -> & Hnd & Hf & Hmap).
  { pose proof Hok as (Hnd & Hm & _). destruct (outboundByTag m !! o_Tag o) as [x|] eqn:E.
    - apply Hm in E as [Hx Ht]. destruct (registry_remove m x Hok Hx) as (obs & -> & Hnd' & Hel & Hmap). rewrite Ht in Hmap.
      exists obs. split; [done|]. split; [done|]. split; [|done]. intros (y & Hy & Hin)%list_elem_of_fmap. apply Hfresh.
      apply list_elem_of_fmap. exists y. split; [done|]. by apply Hel.
    - exists (outbounds m). split; [done|]. split; [done|]. split; [done|]. by rewrite delete_id. }
  destruct (registry_add obs _ o Hnd Hf Hmap) as [Hnd' Hmap']. intros [= <- <- <-]. split; [|split; [intros _; case_match; apply lookup_insert_eq|done]].
  case_match eqn:Hd; (split; [exact Hnd'|]; split; [exact Hmap'|]); cbn [defaultTag defaultOutbound with_default]; [done|].
  cbn [defaultTag defaultOutbound with_depend with_outbounds outbounds]. intros Hdt Hdn.
  apply orb_false_iff in Hd as [_ Hd]. cbn in Hd. by rewrite Hdt, Hdn in Hd.
Qed.

Lemma remove_ok m l tag r m' l' :
  registry_ok m -> Remove result tag m l = (r, m', l') ->
  registry_ok m' /\ outboundByTag m' !! tag = None /\ r <> Panic "invalid inbound index".
Proof.
  intros Hok. unfold Remove. destruct (outboundByTag m !! tag) as [o|] eqn:E; [|by intros [= <- <- <-]].
  pose proof Hok as (_ & Hm & Hdef). apply Hm in E as [Hin Ht].
  destruct (registry_remove m o Hok Hin) as (obs & -> & Hnd & Hel & Hmap). rewrite Ht in Hmap.
  set (m1 := if bool_decide _ then _ else _).
  assert (Hm1 : registry_ok m1 /\ outboundByTag m1 !! tag = None).
  { unfold m1. case_bool_decide as Hd; (split; [split; [exact Hnd|]; split; [exact Hmap|]|apply lookup_delete_eq]).
    - cbn. intros _. by destruct obs.
    - cbn. intros Hdt Hdn. specialize (Hdef Hdt Hdn). rewrite Hdef in Hin. by apply elem_of_nil in Hin. }
  destruct Hm1 as [Hm1 Hnone]. destruct (default [] (dependByTag m1 !! tag)); [|by intros [= <- <- <-]].
  destruct (started _); [destruct (Close_one result o l) as [[e|] l1]|]; intros [= <- <- <-];
    (split; [exact Hm1|split; [exact Hnone|done]]).
Qed.

Lemma start_ok m l ep fallback s r m' l' :
  registry_ok m -> op_ok m (OpStart ep fallback s) ->
  Manager_Start result ep fallback s m l = (r, m', l') -> registry_ok m'.
Proof.
  intros (Hnd & Hm & Hdef) Hf. unfold Manager_Start. destruct (started m && _); [by intros [= <- <- <-]|].
  assert (Hst : registry_ok (with_stage m s)) by done.
  case_bool_decide; [|by destruct (start_each _ _ _ _ _); intros [= <- <- <-]].
  destruct (pick_default ep fallback (with_stage m s)) as [m1| | |] eqn:Hp; [|by intros [= <- <- <-]..].
  destruct (startOutbounds _ _ _ _) as [r1 l1]. intros [= <- <- <-]. unfold pick_default in Hp. inv_ok.
  assert (Ha : registry_ok a /\ outbounds a = outbounds m /\ (defaultOutbound a = None -> defaultTag a = "")).
  { destruct (negb (bool_decide (defaultTag (with_stage m s) = "")) && _) eqn:Hc.
    - destruct (endpointByTag ep !! _); inv_ok. split; [|done]. split; [exact Hnd|]. split; [exact Hm|done].
    - inv_ok. split; [done|]. split; [done|]. cbn in *. intros Hdn. rewrite Hdn in Hc. cbn in Hc.
      destruct (bool_decide_reflect (defaultTag m = "")); done. }
  destruct Ha as (Ha & Hobs & Hdt). destruct (defaultOutbound a) eqn:Hd; inv_ok; [done|].
  destruct Ha as (Hnda & Hma & Hdefa). specialize (Hdefa (Hdt eq_refl) Hd).
  apply wrap_err_ok in E0. subst fallback.
  destruct (registry_add (outbounds a) (outboundByTag a) a0) as [H1 H2]; [done|by rewrite Hdefa; apply not_elem_of_nil| |].
  - intros t x. rewrite <- Hma, lookup_delete_Some. split; [by intros [_ ?]|]. intros Hx. split; [|done].
    apply Hma in Hx as [Hx _]. rewrite Hdefa in Hx. by apply elem_of_nil in Hx.
  - split; [exact H1|]. split; [exact H2|done].
Qed.

(** The states of a program that creates, removes and starts outbounds. *)
Inductive reachable (dt : string) : Manager -> list call -> Prop :=
| reach_new : reachable dt (NewManager dt) []
| reach_op m l x r m' l' : reachable dt m l -> op_ok m x -> exec x m l = (r, m', l') -> reachable dt m' l'.

Lemma reachable_registry_ok dt m l : reachable dt m l -> registry_ok m.
Proof.
  induction 1 as [|m l x r m' l' _ IH Hop Hex].
  - split; [constructor|]. split; [|done]. intros t o. cbn. rewrite lookup_empty. split; [done|]. by intros [?%elem_of_nil _].
  - destruct x as [o|tag|ep fallback s]; [by eapply create_ok|by eapply remove_ok|by eapply start_ok].
Qed.

(** Through every sequence of creations, replacements, removals and starts
    the list and the tag map of the manager hold the same outbounds, each once and
    under its own tag; a created outbound is found under its tag, a removed tag is
    not; the index lookups of [Create] and [Remove] never fail. *)
Theorem outbound_registry_consistent dt m l :
  reachable dt m l ->
  registry_ok m
  /\ (forall o r m' l', o_id o ∉ o_id <$> outbounds m -> Manager_Create result (o_Tag o) (Ok o) m l = (r, m', l') ->
       (r = Ok tt -> outboundByTag m' !! o_Tag o = Some o) /\ r <> Panic "invalid inbound index")
  /\ (forall tag r m' l', Remove result tag m l = (r, m', l') ->
       outboundByTag m' !! tag = None /\ r <> Panic "invalid inbound index").
Proof.
  intros Hr%reachable_registry_ok. split; [done|]. split.
  - intros o r m' l' Hf H. by apply create_ok in H as (_ & ? & ?).
  - intros tag r m' l' H. by apply remove_ok in H as (_ & ? & ?).
Qed.

(** Removing an outbound that others depend on returns an error, but the
    outbound is gone from the manager all the same, and it is never closed. *)
Theorem remove_depended_outbound_gone m l tag o d ds :
  registry_ok m -> outboundByTag m !! tag = Some o -> dependByTag m !! tag = Some (d :: ds) ->
  exists e m', Remove result tag m l = (Err e, m', l) /\ outboundByTag m' !! tag = None /\ o ∉ outbounds m'.
Proof.
  intros Hok E Hd. unfold Remove. rewrite E. pose proof Hok as (_ & Hm & _). apply Hm in E as [Hin Ht].
  destruct (registry_remove m o Hok Hin) as (obs & -> & _ & Hel & _).
  set (m1 := if bool_decide _ then _ else _).
  assert (dependByTag m1 = dependByTag m /\ outboundByTag m1 = delete tag (outboundByTag m) /\ outbounds m1 = obs) as (-> & Hb & Ho)
    by (unfold m1; by case_bool_decide).
  rewrite Hd. cbn [from_option id]. eexists _, m1. split; [done|]. rewrite Hb, Ho. split; [apply lookup_delete_eq|].
  intros [_ ?]%Hel. done.
Qed.

(** Replacing the outbound that became the default by being the first, in a
    configuration without a default tag, closes it and leaves it the default. *)
Theorem replaced_default_stays_closed m l old new_ :
  registry_ok m -> started m = true -> defaultTag m = "" -> o_Tag old <> "" ->
  defaultOutbound m = Some old -> old ∈ outbounds m -> o_Closer old = true ->
  o_Tag new_ = o_Tag old -> o_id new_ ∉ o_id <$> outbounds m -> (forall l0, result l0 = None) ->
  exists m' l', Manager_Create result (o_Tag old) (Ok new_) m l = (Ok tt, m', l')
    /\ last l' = Some (CallClose old) /\ defaultOutbound m' = Some old /\ old ∉ outbounds m'.
Proof.
  intros Hok Hs Hdt Htag Hd Hin Hcl Ht Hf Hres. unfold Manager_Create. rewrite bool_decide_false, Hs by done.
  assert (Hst : forall kind o stages l0, exists l1, start_stages result kind o stages l0 = (None, l1)).
  { intros kind o stages. induction stages as [|s stages IH]; intros l0; cbn; [by eexists|].
    destruct (LegacyStart result o s l0) as [[e|] l1] eqn:E; [|apply IH].
    apply LegacyStart_error in E as [l2 E]. by rewrite Hres in E. }
  destruct (Hst "outbound" new_ ListStartStages l) as [l1 ->].
  assert (outboundByTag m !! o_Tag old = Some old) as -> by (by apply Hok).
  unfold Close_one. rewrite Hcl. unfold invoke. rewrite Hres. cbn.
  destruct (registry_remove m old Hok Hin) as (obs & -> & _ & Hel & _). rewrite Hdt, Hd. cbn.
  rewrite (bool_decide_false (o_Tag old = "")) by done. cbn.
  eexists _, _. split; [done|]. split; [by rewrite last_snoc|]. split; [done|].
  intros Hx. apply (elem_app_single old new_ obs) in Hx as [[_ ?]%Hel| ->]; [done|]. apply Hf. apply list_elem_of_fmap. eauto.
Qed.

End Registry.

(** ** Witnesses *)

Definition witness_a : Outbound := MkOutbound 1 "direct" "a" [] true false false false true.
Definition witness_b : Outbound := MkOutbound 2 "socks" "b" ["a"] true false false false true.
Definition witness_a2 : Outbound := MkOutbound 3 "direct" "a" [] true false false false true.
Definition no_error : list call -> option error := fun _ => None.

Lemma outbounds_start_in_order_witness :
  exists ord, (startOutbounds no_error ∅ [witness_b; witness_a] []).2 = concat (start_calls <$> ord)
    /\ ord ≡ₚ [witness_b; witness_a].
Proof.
  destruct (outbounds_start_in_order no_error ∅ [witness_b; witness_a] [] (Ok tt)
    (startOutbounds no_error ∅ [witness_b; witness_a] []).2) as (ord & Hl & _ & _ & Hp).
  - apply (bool_decide_eq_true_1 (NoDup _)). vm_compute. reflexivity.
  - vm_compute. reflexivity.
  - exists ord. split; [exact Hl|by apply Hp].
Defined.

Lemma outbounds_start_iff_acyclic_witness : (startOutbounds no_error ∅ [witness_b; witness_a] []).1 = Ok tt.
Proof.
  apply (outbounds_start_iff_acyclic no_error ∅ [witness_b; witness_a] []).
  - apply (bool_decide_eq_true_1 (NoDup _)). vm_compute. reflexivity.
  - reflexivity.
  - exists (fun t => if decide (t = "b") then 1%nat else 0%nat). intros o d Ho Hd.
    apply elem_of_cons in Ho as [->|Ho]; [|apply list_elem_of_singleton in Ho as ->]; cbn in Hd; [|by apply elem_of_nil in Hd].
    apply list_elem_of_singleton in Hd as ->. split; [apply (bool_decide_eq_true_1 (_ ∈ _)); reflexivity|apply Nat.ltb_lt; reflexivity].
Defined.

(** Two outbounds, the second of which depends on the first; then the first
    start stage. *)
Definition witness_manager : Manager := (Manager_Create no_error "a" (Ok witness_a) (NewManager "") []).1.2.
Definition witness_manager2 : Manager := (Manager_Create no_error "b" (Ok witness_b) witness_manager []).1.2.
Definition witness_endpoints : EndpointManager := {| ep_started := false; ep_stage := 0; endpoints := []; endpointByTag := ∅ |}.
Definition witness_started : Manager * list call :=
  ((Manager_Start no_error witness_endpoints (Err EOF) StartStateInitialize witness_manager2 []).1.2,
   (Manager_Start no_error witness_endpoints (Err EOF) StartStateInitialize witness_manager2 []).2).

Lemma witness_reachable : reachable no_error "" witness_manager2 [].
Proof.
  apply (reach_op _ _ witness_manager [] (OpCreate witness_b) (Ok tt)).
  - apply (reach_op _ _ (NewManager "") [] (OpCreate witness_a) (Ok tt)); [constructor| |reflexivity].
    cbn. by apply not_elem_of_nil.
  - apply (bool_decide_eq_true_1 (_ ∉ _)). vm_compute. reflexivity.
  - reflexivity.
Qed.

Lemma witness_started_reachable : reachable no_error "" witness_started.1 witness_started.2.
Proof.
  apply (reach_op _ _ witness_manager2 [] (OpStart witness_endpoints (Err EOF) StartStateInitialize) (Ok tt));
    [apply witness_reachable|done|reflexivity].
Qed.

Lemma outbound_registry_consistent_witness : registry_ok witness_manager2.
Proof. exact (proj1 (outbound_registry_consistent no_error "" witness_manager2 [] witness_reachable)). Defined.

Lemma remove_depended_outbound_gone_witness :
  exists e m', Remove no_error "a" witness_manager2 [] = (Err e, m', []) /\ outboundByTag m' !! "a" = None.
Proof.
  destruct (remove_depended_outbound_gone no_error witness_manager2 [] "a" witness_a "b" [])
    as (e & m' & H1 & H2 & _); [exact (reachable_registry_ok _ _ _ _ witness_reachable)|reflexivity|reflexivity|eauto].
Defined.

Lemma replaced_default_stays_closed_witness :
  exists m' l', Manager_Create no_error "a" (Ok witness_a2) witness_started.1 witness_started.2 = (Ok tt, m', l')
    /\ defaultOutbound m' = Some witness_a.
Proof.
  destruct (replaced_default_stays_closed no_error witness_started.1 witness_started.2 witness_a witness_a2)
    as (m' & l' & H1 & _ & H2 & _); [exact (reachable_registry_ok _ _ _ _ witness_started_reachable)|reflexivity|reflexivity
    |discriminate|reflexivity|by left|reflexivity|reflexivity| |reflexivity|eauto].
  apply (bool_decide_eq_true_1 (_ ∉ _)). vm_compute. reflexivity.
Defined.
