(* ===== verification/TlsFragment.v ===== *)
(** * TLS client hello fragmentation (common/tlsfragment)

    [IndexTLSServerName] finds the server name in the first write of a connection
    (index.go), and [Write] cuts that write inside the name, into TCP segments, TLS
    records or both (conn.go, wait_*.go).

    Indexing and slicing are checked as Go checks them and panic out of range.
    The calls on the socket are a log; [io] gives the result of each, [Intn] the
    random draws and [PublicSuffix] the public suffix list. *)

From S2P Require Import Prelude GoStd.
From Stdlib Require Import Ascii.
Local Open Scope Z_scope.

(** ** Checked indexing and slicing *)

Definition elem_at {A} (l : list A) (i : Z) : outcome A :=
  match (if i <? 0 then None else l !! Z.to_nat i) with
  | Some b => Ok b
  | None => Panic "runtime error: index out of range"
  end.

(** [mem[lo:hi]] where [mem] is the memory up to the capacity of the slice. *)
Definition slice_of {A} (mem : list A) (lo hi : Z) : outcome (list A) :=
  if (0 <=? lo) && (lo <=? hi) && (hi <=? zlen mem) then
    Ok (take (Z.to_nat (hi - lo)) (drop (Z.to_nat lo) mem))
  else Panic "runtime error: slice bounds out of range".

(** [l[lo:]]. *)
Definition slice_from {A} (l : list A) (lo : Z) : outcome (list A) := slice_of l lo (zlen l).

(** [uint16(l[i])<<8 | uint16(l[i+1])]. *)
Definition uint16_at (l : bytes) (i : Z) : outcome Z :=
  let* a := elem_at l i in
  let* b := elem_at l (i + 1) in
  Ok (Z.lor (uint 16 (Z.shiftl a 8)) b).

(** ** index.go *)

Definition recordLayerHeaderLen : Z := 5.
Definition handshakeHeaderLen : Z := 6.
Definition randomDataLen : Z := 32.
Definition sessionIDHeaderLen : Z := 1.
Definition cipherSuiteHeaderLen : Z := 2.
Definition compressMethodHeaderLen : Z := 1.
Definition extensionsHeaderLen : Z := 2.
Definition extensionHeaderLen : Z := 4.
Definition sniExtensionHeaderLen : Z := 5.
Definition contentType : Z := 22.
Definition handshakeType : Z := 1.
Definition sniExtensionType : Z := 0.
Definition sniNameDNSHostnameType : Z := 0.
Definition tlsVersionBitmask : Z := 65532.
Definition tls13 : Z := 772.

Record MyServerName := MkServerName {
  sn_Index : Z;
  sn_Length : Z;
  sn_ServerName : string;
  sn_ExtensionsListLengthIndex : Z
}.

(** The loop over the extensions.  The step [exs[4+exLen:]] adds in [uint16]. *)
Fixpoint extensions_loop (fuel : nat) (currentIndex : Z) (exs : bytes) : outcome (option MyServerName) :=
  if zlen exs <=? 0 then Ok None
  else match fuel with
  | O => Diverge
  | S fuel' =>
      if zlen exs <? extensionHeaderLen then Ok None else
      let* exType := uint16_at exs 0 in
      let* exLen := uint16_at exs 2 in
      if zlen exs <? extensionHeaderLen + exLen then Ok None else
      let* sex := slice_of exs extensionHeaderLen (extensionHeaderLen + exLen) in
      if exType =? sniExtensionType then
        if zlen sex <? sniExtensionHeaderLen then Ok None else
        let* sniType := elem_at sex 2 in
        if negb (sniType =? sniNameDNSHostnameType) then Ok None else
        let* sniLen := uint16_at sex 3 in
        let* sex := slice_from sex sniExtensionHeaderLen in
        Ok (Some (MkServerName (currentIndex + extensionHeaderLen + sniExtensionHeaderLen)
                    sniLen (string_of_bytes sex) 0))
      else
        let* exs := slice_from exs (uint 16 (4 + exLen)) in
        extensions_loop fuel' (currentIndex + (4 + exLen)) exs
  end.

Definition indexTLSServerNameFromExtensions (fuel : nat) (exs : bytes) : outcome (option MyServerName) :=
  if zlen exs =? 0 then Ok None else
  if zlen exs <? extensionsHeaderLen then Ok None else
  let* exsLen := uint16_at exs 0 in
  let* exs := slice_from exs extensionsHeaderLen in
  if zlen exs <? exsLen then Ok None else
  extensions_loop fuel extensionsHeaderLen exs.

Definition indexTLSServerNameFromHandshake (fuel : nat) (handshake : bytes) : outcome (option MyServerName) :=
  if zlen handshake <? handshakeHeaderLen + randomDataLen + sessionIDHeaderLen then Ok None else
  let* h0 := elem_at handshake 0 in
  if negb (h0 =? handshakeType) then Ok None else
  let* h1 := elem_at handshake 1 in
  let* h2 := elem_at handshake 2 in
  let* h3 := elem_at handshake 3 in
  let handshakeLen := Z.lor (Z.lor (uint 32 (Z.shiftl h1 16)) (uint 32 (Z.shiftl h2 8))) h3 in
  let* rest := slice_from handshake 4 in
  if negb (zlen rest =? handshakeLen) then Ok None else
  let* tlsVersion := uint16_at handshake 4 in
  if negb (Z.land tlsVersion tlsVersionBitmask =? 768) && negb (tlsVersion =? tls13) then Ok None else
  let* sessionIDLen := elem_at handshake 38 in
  let currentIndex := handshakeHeaderLen + randomDataLen + sessionIDHeaderLen + sessionIDLen in
  if zlen handshake <? currentIndex then Ok None else
  let* cipherSuites := slice_from handshake currentIndex in
  if zlen cipherSuites <? cipherSuiteHeaderLen then Ok None else
  let* csLen := uint16_at cipherSuites 0 in
  if zlen cipherSuites <? cipherSuiteHeaderLen + csLen + compressMethodHeaderLen then Ok None else
  let* compressMethodLen := elem_at cipherSuites (cipherSuiteHeaderLen + csLen) in
  let currentIndex := currentIndex +
    (cipherSuiteHeaderLen + csLen + compressMethodHeaderLen + compressMethodLen) in
  if zlen handshake <? currentIndex then Ok None else
  let* exs := slice_from handshake currentIndex in
  let* serverName := indexTLSServerNameFromExtensions fuel exs in
  match serverName with
  | None => Ok None
  | Some sn => Ok (Some (MkServerName (sn_Index sn + currentIndex) (sn_Length sn) (sn_ServerName sn) currentIndex))
  end.

Definition IndexTLSServerName (fuel : nat) (payload : bytes) : outcome (option MyServerName) :=
  if zlen payload <? recordLayerHeaderLen then Ok None else
  let* p0 := elem_at payload 0 in
  if negb (p0 =? contentType) then Ok None else
  let* lenBytes := slice_of payload 3 5 in
  let segmentLen := be_val lenBytes in
  if zlen payload <? recordLayerHeaderLen + segmentLen then Ok None else
  let* handshake := slice_from payload recordLayerHeaderLen in
  let* serverName := indexTLSServerNameFromHandshake fuel handshake in
  match serverName with
  | None => Ok None
  | Some sn => Ok (Some (MkServerName (sn_Index sn + recordLayerHeaderLen) (sn_Length sn) (sn_ServerName sn)
                           (sn_ExtensionsListLengthIndex sn + recordLayerHeaderLen)))
  end.

(** ** conn.go *)

(** The calls on the connection below: [SetNoDelay] of the TCP connection, [Write]
    and [writeAndWaitAck] of a payload, [time.Sleep]. *)
Inductive conn_call :=
| CSetNoDelay (noDelay : bool)
| CWrite (payload : bytes)
| CWriteAndWaitAck (payload : bytes) (fallbackDelay : Z)
| CSleep (d : Z).

Record Conn := MkConn {
  hasTCPConn : bool;
  firstPacketWritten : bool;
  splitPacket : bool;
  splitRecord : bool;
  fallbackDelay : Z
}.

Definition TLSFragmentFallbackDelay : Z := 500 * 1000 * 1000.

Definition NewConn (tcp packet record : bool) (delay : Z) : Conn :=
  MkConn tcp false packet record (if delay =? 0 then TLSFragmentFallbackDelay else delay).

Definition WriterReplaceable (c : Conn) : bool := firstPacketWritten c.
Definition set_written (c : Conn) : Conn :=
  MkConn (hasTCPConn c) true (splitPacket c) (splitRecord c) (fallbackDelay c).

(** [strings.Count(s, ".")]. *)
Fixpoint Count (a : ascii) (s : string) : Z :=
  match s with
  | EmptyString => 0
  | String b s' => (if Ascii.eqb b a then 1 else 0) + Count a s'
  end.

Definition dot : ascii := "."%char.

Section Write.
  Context (PublicSuffix : string -> string).
  Context (Intn : nat -> Z -> Z).
  Context (io : list conn_call -> conn_call -> Z * option error).

(** [rand.Intn(n)], the [k]-th draw. *)
Definition rand_Intn (k : nat) (n : Z) : outcome Z :=
  if n <=? 0 then Panic "invalid argument to Intn" else Ok (Intn k n).

(** The labels of the name that are cut. *)
Definition choose_splits (serverName : string) (index : Z) : outcome (list string * Z) :=
  let splits := Split dot serverName in
  let* splits :=
    if negb (bool_decide (PublicSuffix serverName = ""%string))
    then slice_of splits 0 (zlen splits - Count dot serverName)
    else Ok splits in
  if 1 <? zlen splits then
    let* first := elem_at splits 0 in
    if bool_decide (first = "..."%string)
    then let* rest := slice_from splits 1 in Ok (rest, index + (str_len first + 1))
    else Ok (splits, index)
  else Ok (splits, index).

(** [for i, split := range splits]: one position inside each label. *)
Fixpoint split_indexes (k : nat) (currentIndex : Z) (splits : list string) : outcome (list Z) :=
  match splits with
  | [] => Ok []
  | split :: rest =>
      let* splitAt := rand_Intn k (str_len split) in
      let next := currentIndex + str_len split in
      let next := match rest with [] => next | _ => next + 1 end in
      let* indexes := split_indexes (S k) next rest in
      Ok (currentIndex + splitAt :: indexes)
  end.

(** The payload of iteration [i]; [spare] is the memory behind [b] up to its
    capacity, which a slice with an upper bound may reach. *)
Definition fragment (record : bool) (b spare : bytes) (splitIndexes : list Z) (i : nat) : outcome bytes :=
  if (i =? 0)%nat then
    let* s := elem_at splitIndexes (Z.of_nat i) in
    let* payload := slice_of (b ++ spare) 0 s in
    if record then slice_from payload recordLayerHeaderLen else Ok payload
  else if (i =? length splitIndexes)%nat then
    let* s := elem_at splitIndexes (Z.of_nat i - 1) in slice_from b s
  else
    let* s := elem_at splitIndexes (Z.of_nat i - 1) in
    let* s' := elem_at splitIndexes (Z.of_nat i) in
    slice_of (b ++ spare) s s'.

(** A TLS record around a payload: [b[:3]], the length as a [uint16], the payload. *)
Definition record_of (header payload : bytes) : bytes :=
  header ++ be_bytes 2 (uint 16 (zlen payload)) ++ payload.

(** The write of one payload in iteration [i], with the wait between segments. *)
Definition write_packet (c : Conn) (isLast : bool) (payload : bytes) (log : list conn_call)
    : list conn_call * option error :=
  if hasTCPConn c && negb isLast then
    let call := CWriteAndWaitAck payload (fallbackDelay c) in
    (log ++ [call], snd (io log call))
  else
    let call := CWrite payload in
    match snd (io log call) with
    | Some e => (log ++ [call], Some e)
    | None => (if isLast then log ++ [call] else log ++ [call; CSleep (fallbackDelay c)], None)
    end.

(** [for i := 0; i <= len(splitIndexes); i++], with [n] iterations left. *)
Fixpoint write_loop (n : nat) (c : Conn) (b spare : bytes) (splitIndexes : list Z) (i : nat)
    (buffer : bytes) (log : list conn_call) : outcome (bytes * list conn_call * option error) :=
  match n with
  | O => Ok (buffer, log, None)
  | S n' =>
      let* payload := fragment (splitRecord c) b spare splitIndexes i in
      let* header := if splitRecord c then slice_of (b ++ spare) 0 3 else Ok [] in
      let buffer := if splitRecord c
                    then (if splitPacket c then [] else buffer) ++ record_of header payload
                    else buffer in
      let payload := if splitRecord c && splitPacket c then buffer else payload in
      if splitPacket c then
        let (log, err) := write_packet c (i =? length splitIndexes)%nat payload log in
        match err with
        | Some e => Ok (buffer, log, Some e)
        | None => write_loop n' c b spare splitIndexes (S i) buffer log
        end
      else write_loop n' c b spare splitIndexes (S i) buffer log
  end.

(** The part of [Write] for a client hello, [n] and [err] of the source as the
    last component. *)
Definition write_hello (c : Conn) (sn : MyServerName) (b spare : bytes) (log : list conn_call)
    : outcome (list conn_call * (Z * option error)) :=
  let (log, err) :=
    if splitPacket c && hasTCPConn c
    then (log ++ [CSetNoDelay true], snd (io log (CSetNoDelay true))) else (log, None) in
  match err with
  | Some e => Ok (log, (0, Some e))
  | None =>
      let* (splits, currentIndex) := choose_splits (sn_ServerName sn) (sn_Index sn) in
      let* splitIndexes := split_indexes 0 currentIndex splits in
      let* (buffer, log, err) := write_loop (S (length splitIndexes)) c b spare splitIndexes 0 [] log in
      match err with
      | Some e => Ok (log, (0, Some e))
      | None =>
          let (log, err) :=
            if splitRecord c && negb (splitPacket c)
            then (log ++ [CWrite buffer], snd (io log (CWrite buffer))) else (log, None) in
          match err with
          | Some e => Ok (log, (0, Some e))
          | None =>
              let (log, err) :=
                if hasTCPConn c
                then (log ++ [CSetNoDelay false], snd (io log (CSetNoDelay false))) else (log, None) in
              match err with
              | Some e => Ok (log, (0, Some e))
              | None => Ok (log, (zlen b, None))
              end
          end
      end
  end.

Definition Conn_Write (c : Conn) (b spare : bytes) (log : list conn_call)
    : outcome (Conn * list conn_call * (Z * option error)) :=
  if firstPacketWritten c then Ok (c, log ++ [CWrite b], io log (CWrite b))
  else
    let* serverName := IndexTLSServerName (length b) b in
    match serverName with
    | Some sn => let* (log, r) := write_hello c sn b spare log in Ok (set_written c, log, r)
    | None => Ok (set_written c, log ++ [CWrite b], io log (CWrite b))
    end.
End Write.
