(* ===== verification/TlsFragmentSpec.v ===== *)
(** * The fragmenter finds the server name and keeps the byte stream

    The index of a client hello, over the wire format of RFC 8446, section 4.1.2;
    what a peer receives of a fragmented client hello; and where the code falls
    short. *)

From S2P Require Import Prelude GoStd TlsFragment.
From Stdlib Require Import Ascii.
Local Open Scope Z_scope.

(** ** Checked access *)

Lemma elem_at_app {A} (l : list A) x r i : i = zlen l -> elem_at (l ++ x :: r) i = Ok x.
Proof.
  intros ->. unfold elem_at, zlen. rewrite (proj2 (Z.ltb_ge _ _)) by lia.
  rewrite Nat2Z.id, lookup_app_r, Nat.sub_diag by lia. done.
Qed.

Lemma elem_at_lt {A} (l : list A) i : 0 <= i < zlen l -> exists x, elem_at l i = Ok x /\ x ∈ l.
Proof.
  intros H. unfold elem_at, zlen in *. rewrite (proj2 (Z.ltb_ge _ _)) by lia.
  destruct (lookup_lt_is_Some_2 l (Z.to_nat i)) as [x Hx]; [lia|].
  exists x. rewrite Hx. split; [done|]. by eapply list_elem_of_lookup_2.
Qed.

Lemma elem_at_byte (l : bytes) i :
  Forall is_byte l -> 0 <= i < zlen l -> exists x, elem_at l i = Ok x /\ is_byte x.
Proof.
  intros Hl Hi. destruct (elem_at_lt l i Hi) as (x & ? & ?). exists x. split; [done|].
  by eapply Forall_forall in Hl.
Qed.

Lemma slice_of_ok {A} (l : list A) lo hi :
  0 <= lo <= hi -> hi <= zlen l -> slice_of l lo hi = Ok (take (Z.to_nat (hi - lo)) (drop (Z.to_nat lo) l)).
Proof.
  intros [] ?. unfold slice_of. rewrite !(proj2 (Z.leb_le _ _)) by done. done.
Qed.

Lemma slice_from_ok {A} (l : list A) lo : 0 <= lo <= zlen l -> slice_from l lo = Ok (drop (Z.to_nat lo) l).
Proof.
  intros H. unfold slice_from. rewrite slice_of_ok by (unfold zlen in *; lia).
  rewrite take_ge; [done|]. unfold zlen in *. rewrite length_drop. lia.
Qed.

Lemma slice_from_app {A} (l r : list A) lo : lo = zlen l -> slice_from (l ++ r) lo = Ok r.
Proof.
  intros ->. rewrite slice_from_ok by (rewrite zlen_app; unfold zlen; lia).
  unfold zlen. by rewrite Nat2Z.id, drop_app_length.
Qed.

Lemma slice_of_app {A} (l m r : list A) lo hi :
  lo = zlen l -> hi = zlen l + zlen m -> slice_of (l ++ m ++ r) lo hi = Ok m.
Proof.
  intros -> ->. rewrite slice_of_ok by (rewrite ?zlen_app; unfold zlen; lia).
  replace (zlen l + zlen m - zlen l) with (zlen m) by lia.
  unfold zlen. by rewrite !Nat2Z.id, drop_app_length, take_app_length.
Qed.

Lemma zlen_take {A} (l : list A) n : 0 <= n <= zlen l -> zlen (take (Z.to_nat n) l) = n.
Proof. unfold zlen. intros. rewrite length_take. lia. Qed.

Lemma zlen_drop {A} (l : list A) n : 0 <= n <= zlen l -> zlen (drop (Z.to_nat n) l) = zlen l - n.
Proof. unfold zlen. intros. rewrite length_drop. lia. Qed.

Lemma uint16_pair a b : is_byte a -> is_byte b -> Z.lor (uint 16 (Z.shiftl a 8)) b = a * 256 + b.
Proof.
  unfold is_byte. intros Ha Hb.
  rewrite uint_small by (rewrite Z.shiftl_mul_pow2 by lia; cbn; lia). by apply lor_shiftl_byte.
Qed.

Lemma uint16_at_range l i :
  Forall is_byte l -> 0 <= i -> i + 2 <= zlen l -> exists x, uint16_at l i = Ok x /\ 0 <= x < 65536.
Proof.
  intros Hl ??. unfold uint16_at.
  destruct (elem_at_byte l i) as (a & -> & Ha); [done|lia|].
  destruct (elem_at_byte l (i + 1)) as (b & -> & Hb); [done|lia|].
  cbn. eexists; split; [done|]. rewrite uint16_pair by done. unfold is_byte in *. lia.
Qed.

Lemma be_bytes_2 x : be_bytes 2 x = [uint 8 (Z.shiftr x 8); uint 8 x].
Proof. done. Qed.

Lemma be_val_2 x : be_val (be_bytes 2 x) = uint 16 x.
Proof.
  rewrite be_bytes_2. unfold be_val. cbn [fold_left].
  rewrite !lor_shiftl_byte by apply uint8_is_byte. rewrite Z.shiftr_div_pow2 by lia.
  unfold uint. change (2 ^ 16) with (256 * 256). change (2 ^ 8) with 256.
  rewrite Z.rem_mul_r by lia. lia.
Qed.

Lemma uint16_at_be_bytes l x r i : i = zlen l -> uint16_at (l ++ be_bytes 2 x ++ r) i = Ok (uint 16 x).
Proof.
  intros ->. unfold uint16_at. rewrite <- be_val_2, be_bytes_2. cbn [app].
  rewrite (elem_at_app l) by done. cbn [obind].
  rewrite (app_assoc l [_] (uint 8 x :: r) : l ++ uint 8 (Z.shiftr x 8) :: uint 8 x :: r = _).
  rewrite elem_at_app by (rewrite zlen_app; done). cbn [obind]. f_equal.
  rewrite uint16_pair by apply uint8_is_byte. unfold be_val. cbn [fold_left].
  rewrite !lor_shiftl_byte by apply uint8_is_byte. lia.
Qed.

Lemma uint16_at_app l x r i :
  i = zlen l -> 0 <= x < 65536 -> uint16_at (l ++ be_bytes 2 x ++ r) i = Ok x.
Proof. intros. rewrite uint16_at_be_bytes, uint_small by (cbn; lia || done). done. Qed.

Lemma zlen_be_bytes n x : zlen (be_bytes n x) = Z.of_nat n.
Proof. unfold zlen. by rewrite length_be_bytes. Qed.

Lemma str_len_string_of_bytes l : str_len (string_of_bytes l) = zlen l.
Proof.
  unfold str_len, string_of_bytes, zlen. f_equal.
  induction l; cbn; [done|]. by f_equal.
Qed.

(** ** Termination and bounds

    A payload of one record at most is handled without wrap-around of the
    extension length. *)

Lemma extensions_loop_ok fuel ci exs :
  Forall is_byte exs -> zlen exs < 65536 -> zlen exs <= Z.of_nat fuel ->
  exists r, extensions_loop fuel ci exs = Ok r /\
    forall sn, r = Some sn ->
      ci + 9 <= sn_Index sn /\ sn_Index sn + str_len (sn_ServerName sn) <= ci + zlen exs.
Proof.
  revert ci exs. induction fuel as [|fuel IH]; intros ci exs Hb Hlen Hf;
    cbn [extensions_loop]; (destruct (Z.leb_spec (zlen exs) 0); [by exists None|]); [lia|].
  unfold extensionHeaderLen, sniExtensionHeaderLen.
  destruct (Z.ltb_spec (zlen exs) 4); [by exists None|].
  destruct (uint16_at_range exs 0) as (ty & -> & Hty); [done|lia|lia|].
  destruct (uint16_at_range exs 2) as (len & -> & Hl); [done|lia|lia|]. cbn [obind].
  destruct (Z.ltb_spec (zlen exs) (4 + len)); [by exists None|].
  rewrite slice_of_ok by lia. cbn [obind].
  set (sex := take _ _).
  assert (zlen sex = len) as Hsex.
  { unfold sex. replace (4 + len - 4) with len by lia. rewrite zlen_take; [done|].
    rewrite zlen_drop; lia. }
  assert (Forall is_byte sex) as Hsb by (by apply Forall_take, Forall_drop).
  destruct (ty =? sniExtensionType).
  - destruct (Z.ltb_spec (zlen sex) 5); [by exists None|].
    destruct (elem_at_byte sex 2) as (st & -> & _); [done|lia|]. cbn [obind].
    destruct (negb _); [by exists None|].
    destruct (uint16_at_range sex 3) as (sl & -> & _); [done|lia|lia|]. cbn [obind].
    rewrite slice_from_ok by lia. cbn [obind]. eexists; split; [done|].
    intros sn [= <-]. cbn [sn_Index sn_ServerName].
    rewrite str_len_string_of_bytes, zlen_drop by lia. lia.
  - rewrite uint_small by (cbn; lia). rewrite slice_from_ok by lia. cbn [obind].
    destruct (IH (ci + (4 + len)) (drop (Z.to_nat (4 + len)) exs)) as (r & -> & Hr);
      [by apply Forall_drop|rewrite zlen_drop; lia|rewrite zlen_drop; lia|].
    exists r. split; [done|]. intros sn Hsn. specialize (Hr sn Hsn). rewrite zlen_drop in Hr by lia. lia.
Qed.

Definition inside (lo : Z) (l : bytes) (r : option MyServerName) : Prop :=
  forall sn, r = Some sn ->
    lo <= sn_Index sn /\ sn_Index sn + str_len (sn_ServerName sn) <= zlen l.

Lemma fromExtensions_ok fuel exs :
  Forall is_byte exs -> zlen exs < 65536 -> zlen exs <= Z.of_nat fuel ->
  exists r, indexTLSServerNameFromExtensions fuel exs = Ok r /\ inside 11 exs r.
Proof.
  intros Hb Hlen Hf. unfold indexTLSServerNameFromExtensions, extensionsHeaderLen.
  destruct (Z.eqb_spec (zlen exs) 0); [by exists None|].
  destruct (Z.ltb_spec (zlen exs) 2); [by exists None|].
  destruct (uint16_at_range exs 0) as (len & -> & _); [done|lia|lia|]. cbn [obind].
  rewrite slice_from_ok by lia. cbn [obind].
  destruct (_ <? len); [by exists None|].
  destruct (extensions_loop_ok fuel 2 (drop (Z.to_nat 2) exs)) as (r & -> & Hr);
    [by apply Forall_drop|rewrite zlen_drop; lia|rewrite zlen_drop; lia|].
  exists r. split; [done|]. intros sn Hsn. specialize (Hr sn Hsn). rewrite zlen_drop in Hr by lia. lia.
Qed.

Lemma fromHandshake_ok fuel hs :
  Forall is_byte hs -> zlen hs < 65536 -> zlen hs <= Z.of_nat fuel ->
  exists r, indexTLSServerNameFromHandshake fuel hs = Ok r /\ inside 53 hs r.
Proof.
  intros Hb Hlen Hf. unfold indexTLSServerNameFromHandshake, handshakeHeaderLen, randomDataLen,
    sessionIDHeaderLen, cipherSuiteHeaderLen, compressMethodHeaderLen.
  destruct (Z.ltb_spec (zlen hs) (6 + 32 + 1)); [by exists None|].
  destruct (elem_at_byte hs 0) as (h0 & -> & _); [done|lia|]. cbn [obind].
  destruct (negb (h0 =? _)); [by exists None|].
  destruct (elem_at_byte hs 1) as (h1 & -> & _); [done|lia|].
  destruct (elem_at_byte hs 2) as (h2 & -> & _); [done|lia|].
  destruct (elem_at_byte hs 3) as (h3 & -> & _); [done|lia|]. cbn [obind].
  rewrite slice_from_ok by lia. cbn [obind].
  destruct (negb (_ =? _)); [by exists None|].
  destruct (uint16_at_range hs 4) as (v & -> & _); [done|lia|lia|]. cbn [obind].
  destruct (negb _ && _); [by exists None|].
  destruct (elem_at_byte hs 38) as (sid & -> & Hsid); [done|lia|]. cbn [obind]. unfold is_byte in Hsid.
  destruct (Z.ltb_spec (zlen hs) (6 + 32 + 1 + sid)); [by exists None|].
  rewrite slice_from_ok by lia. cbn [obind].
  set (cs := drop _ hs).
  assert (zlen cs = zlen hs - (39 + sid)) as Hcs by (unfold cs; rewrite zlen_drop; lia).
  assert (Forall is_byte cs) as Hcb by (by apply Forall_drop).
  destruct (Z.ltb_spec (zlen cs) 2); [by exists None|].
  destruct (uint16_at_range cs 0) as (csl & -> & Hcsl); [done|lia|lia|]. cbn [obind].
  destruct (Z.ltb_spec (zlen cs) (2 + csl + 1)); [by exists None|].
  destruct (elem_at_byte cs (2 + csl)) as (cm & -> & Hcm); [done|lia|]. cbn [obind]. unfold is_byte in Hcm.
  destruct (Z.ltb_spec (zlen hs) (6 + 32 + 1 + sid + (2 + csl + 1 + cm))); [by exists None|].
  rewrite slice_from_ok by lia. cbn [obind].
  set (ci := 6 + 32 + 1 + sid + _) in *.
  destruct (fromExtensions_ok fuel (drop (Z.to_nat ci) hs)) as (r & -> & Hr);
    [by apply Forall_drop|rewrite zlen_drop; lia|rewrite zlen_drop; lia|]. cbn [obind].
  destruct r as [sn|]; [|by exists None]. eexists; split; [done|].
  intros sn' [= <-]. destruct (Hr sn eq_refl) as [Hlo Hhi]. rewrite zlen_drop in Hhi by lia.
  cbn [sn_Index sn_ServerName]. lia.
Qed.

(** On every payload that is not longer than one record the index ends without a
    panic, and a server name it reports lies behind the record header and inside
    the payload. *)
Lemma IndexTLSServerName_ok fuel b :
  Forall is_byte b -> zlen b <= 65540 -> zlen b <= Z.of_nat fuel ->
  exists r, IndexTLSServerName fuel b = Ok r /\ inside 58 b r.
Proof.
  intros Hb Hlen Hf. unfold IndexTLSServerName, recordLayerHeaderLen.
  destruct (Z.ltb_spec (zlen b) 5); [by exists None|].
  destruct (elem_at_byte b 0) as (p0 & -> & _); [done|lia|]. cbn [obind].
  destruct (negb _); [by exists None|].
  rewrite slice_of_ok by lia. cbn [obind].
  destruct (_ <? _); [by exists None|].
  rewrite slice_from_ok by lia. cbn [obind].
  destruct (fromHandshake_ok fuel (drop (Z.to_nat 5) b)) as (r & -> & Hr);
    [by apply Forall_drop|rewrite zlen_drop; lia|rewrite zlen_drop; lia|]. cbn [obind].
  destruct r as [sn|]; [|by exists None]. eexists; split; [done|].
  intros sn' [= <-]. destruct (Hr sn eq_refl) as [Hlo Hhi]. rewrite zlen_drop in Hhi by lia.
  cbn [sn_Index sn_ServerName]. lia.
Qed.

(** ** The wire format of a client hello *)

Record ClientHello := MkHello {
  ch_recordVersion : Z;
  ch_version : Z;
  ch_random : bytes;
  ch_session : bytes;
  ch_ciphers : bytes;
  ch_compress : bytes;
  ch_exts : list (Z * bytes)
}.

Definition enc_ext (e : Z * bytes) : bytes := be_bytes 2 (fst e) ++ be_bytes 2 (zlen (snd e)) ++ snd e.
Definition enc_exts (l : list (Z * bytes)) : bytes := concat (enc_ext <$> l).
(** A server_name extension with one host name. *)
Definition enc_sni (host : bytes) : bytes :=
  be_bytes 2 (zlen host + 3) ++ [0] ++ be_bytes 2 (zlen host) ++ host.

Definition enc_front (h : ClientHello) : bytes :=
  be_bytes 2 (ch_version h) ++ ch_random h ++
  [zlen (ch_session h)] ++ ch_session h ++
  be_bytes 2 (zlen (ch_ciphers h)) ++ ch_ciphers h ++
  [zlen (ch_compress h)] ++ ch_compress h.
Definition enc_ext_list (h : ClientHello) : bytes :=
  be_bytes 2 (zlen (enc_exts (ch_exts h))) ++ enc_exts (ch_exts h).
Definition enc_body (h : ClientHello) : bytes := enc_front h ++ enc_ext_list h.
Definition enc_handshake (h : ClientHello) : bytes := [1] ++ be_bytes 3 (zlen (enc_body h)) ++ enc_body h.
Definition enc_record (h : ClientHello) : bytes :=
  [22] ++ be_bytes 2 (ch_recordVersion h) ++ be_bytes 2 (zlen (enc_handshake h)) ++ enc_handshake h.

Record wf_hello (h : ClientHello) : Prop := {
  wf_version : 768 <= ch_version h <= 772;
  wf_random : zlen (ch_random h) = 32;
  wf_session : zlen (ch_session h) < 256;
  wf_ciphers : zlen (ch_ciphers h) < 65536;
  wf_compress : zlen (ch_compress h) < 256;
  wf_exts : Forall (fun e => 0 <= fst e < 65536 /\ zlen (snd e) < 65536) (ch_exts h)
}.

Lemma be_bytes_3 x : be_bytes 3 x = [uint 8 (Z.shiftr (Z.shiftr x 8) 8); uint 8 (Z.shiftr x 8); uint 8 x].
Proof. done. Qed.

Lemma handshake_length x : 0 <= x < 2 ^ 24 ->
  Z.lor (Z.lor (uint 32 (Z.shiftl (uint 8 (Z.shiftr (Z.shiftr x 8) 8)) 16))
               (uint 32 (Z.shiftl (uint 8 (Z.shiftr x 8)) 8))) (uint 8 x) = x.
Proof.
  intros Hx. rewrite <- (be_val_bytes 3 x) at 4 by done. rewrite be_bytes_3.
  pose proof (uint8_is_byte (Z.shiftr (Z.shiftr x 8) 8)) as H1. pose proof (uint8_is_byte (Z.shiftr x 8)) as H2.
  revert H1 H2. generalize (uint 8 (Z.shiftr (Z.shiftr x 8) 8)), (uint 8 (Z.shiftr x 8)), (uint 8 x).
  intros a b c Ha Hb. unfold is_byte in *.
  rewrite !uint_small by (rewrite Z.shiftl_mul_pow2 by lia; cbn; lia).
  unfold be_val. cbn [fold_left]. rewrite Z.shiftl_0_l, Z.lor_0_l, Z.shiftl_lor, Z.shiftl_shiftl by lia. done.
Qed.

Lemma zlen_enc_ext e : zlen (enc_ext e) = 4 + zlen (snd e).
Proof. unfold enc_ext. rewrite !zlen_app, !zlen_be_bytes. lia. Qed.

Lemma enc_exts_app l r : enc_exts (l ++ r) = enc_exts l ++ enc_exts r.
Proof. unfold enc_exts. by rewrite fmap_app, concat_app. Qed.

Lemma length_enc_exts l : Z.of_nat (length l) <= zlen (enc_exts l).
Proof.
  induction l as [|e l IH]; [done|].
  change (enc_exts (e :: l)) with (enc_ext e ++ enc_exts l). rewrite zlen_app, zlen_enc_ext.
  pose proof (zlen_nonneg (snd e)). cbn [length]. lia.
Qed.

Lemma version_accepted v : 768 <= v <= 772 ->
  negb (Z.land v tlsVersionBitmask =? 768) && negb (v =? tls13) = false.
Proof.
  intros H. assert (v = 768 \/ v = 769 \/ v = 770 \/ v = 771 \/ v = 772) as Hv by lia.
  by destruct Hv as [->|[->|[->|[->| ->]]]].
Qed.

Lemma zlen_nil {A} : zlen (@nil A) = 0.
Proof. done. Qed.

(** Regroup concatenations. *)
Ltac regroup := repeat first [rewrite <- app_assoc | progress cbn [app]]; reflexivity.
(** Compute the length of a concatenation of fields. *)
Ltac field_lengths := repeat first [rewrite zlen_app | rewrite zlen_be_bytes | rewrite zlen_cons | rewrite zlen_nil].

Lemma zlen_enc_front h : wf_hello h ->
  zlen (enc_front h) = 38 + zlen (ch_session h) + zlen (ch_ciphers h) + zlen (ch_compress h).
Proof.
  intros [_ Hr _ _ _ _]. unfold enc_front. rewrite !zlen_app, !zlen_be_bytes, Hr.
  change (zlen [_]) with 1. lia.
Qed.

Definition shift_name (d : Z) (r : option MyServerName) : option MyServerName :=
  match r with
  | None => None
  | Some sn => Some (MkServerName (sn_Index sn + d) (sn_Length sn) (sn_ServerName sn) d)
  end.

(** The fields of an encoded handshake, where the index looks for them. *)
Definition enc_ciphers (h : ClientHello) : bytes :=
  be_bytes 2 (zlen (ch_ciphers h)) ++ ch_ciphers h ++ zlen (ch_compress h) :: ch_compress h ++ enc_ext_list h.

Lemma handshake_header h :
  let n := zlen (enc_body h) in
  elem_at (enc_handshake h) 0 = Ok 1 /\
  elem_at (enc_handshake h) 1 = Ok (uint 8 (Z.shiftr (Z.shiftr n 8) 8)) /\
  elem_at (enc_handshake h) 2 = Ok (uint 8 (Z.shiftr n 8)) /\
  elem_at (enc_handshake h) 3 = Ok (uint 8 n) /\
  slice_from (enc_handshake h) 4 = Ok (enc_body h).
Proof.
  intros n. unfold enc_handshake. fold n. rewrite be_bytes_3. cbn [app].
  split_and!; [by apply (elem_at_app [])|by apply (elem_at_app [_])|by apply (elem_at_app [_; _])
    |by apply (elem_at_app [_; _; _])|by apply (slice_from_app [_; _; _; _])].
Qed.

Lemma handshake_body h : wf_hello h ->
  uint16_at (enc_handshake h) 4 = Ok (ch_version h) /\
  elem_at (enc_handshake h) 38 = Ok (zlen (ch_session h)) /\
  slice_from (enc_handshake h) (39 + zlen (ch_session h)) = Ok (enc_ciphers h) /\
  slice_from (enc_handshake h) (4 + zlen (enc_front h)) = Ok (enc_ext_list h) /\
  zlen (enc_handshake h) = 4 + zlen (enc_front h) + zlen (enc_ext_list h).
Proof.
  intros [Hv Hr _ _ _ _]. unfold enc_handshake, enc_ciphers.
  assert (zlen (be_bytes 3 (zlen (enc_body h))) = 3) as Hl by apply zlen_be_bytes.
  revert Hl. generalize (be_bytes 3 (zlen (enc_body h))) as l. intros l Hl.
  unfold enc_body. split_and!.
  - unfold enc_front. rewrite <- !app_assoc, app_assoc. apply uint16_at_app; [field_lengths; lia|lia].
  - unfold enc_front. rewrite <- !app_assoc.
    rewrite (app_assoc l), (app_assoc (l ++ _)), (app_assoc [1]). cbn [app].
    apply (elem_at_app (1 :: (l ++ _) ++ _)). field_lengths. lia.
  - replace ([1] ++ _) with (([1] ++ l ++ be_bytes 2 (ch_version h) ++ ch_random h ++ [zlen (ch_session h)]
      ++ ch_session h) ++ enc_ciphers h) by (unfold enc_front, enc_ciphers; regroup).
    apply slice_from_app. field_lengths. lia.
  - replace ([1] ++ _) with (([1] ++ l ++ enc_front h) ++ enc_ext_list h) by regroup.
    apply slice_from_app. field_lengths. lia.
  - field_lengths. lia.
Qed.

Lemma fromHandshake_encoded fuel h :
  wf_hello h -> zlen (enc_body h) < 2 ^ 24 ->
  indexTLSServerNameFromHandshake fuel (enc_handshake h) =
  let* r := indexTLSServerNameFromExtensions fuel (enc_ext_list h) in
  Ok (shift_name (4 + zlen (enc_front h)) r).
Proof.
  intros Hwf Hlen. pose proof (zlen_enc_front h Hwf) as Hfront.
  destruct (handshake_header h) as (E0 & E1 & E2 & E3 & E4).
  destruct (handshake_body h Hwf) as (E5 & E6 & E7 & E8 & E9). destruct Hwf as [Hv Hr Hs Hc Hm _].
  pose proof (zlen_nonneg (ch_session h)). pose proof (zlen_nonneg (ch_ciphers h)).
  pose proof (zlen_nonneg (ch_compress h)). pose proof (zlen_nonneg (enc_ext_list h)).
  pose proof (zlen_nonneg (enc_body h)).
  assert (zlen (enc_ciphers h) = 3 + zlen (ch_ciphers h) + zlen (ch_compress h) + zlen (enc_ext_list h)) as Hcl
    by (unfold enc_ciphers; field_lengths; lia).
  unfold indexTLSServerNameFromHandshake, handshakeHeaderLen, randomDataLen,
    sessionIDHeaderLen, cipherSuiteHeaderLen, compressMethodHeaderLen.
  rewrite (proj2 (Z.ltb_ge _ _)) by lia.
  rewrite E0, E1, E2, E3, E4, E5, E6. cbn [obind]. change (negb (1 =? handshakeType)) with false. cbn iota.
  rewrite handshake_length, Z.eqb_refl, version_accepted by done. cbn [negb].
  rewrite (proj2 (Z.ltb_ge _ _)) by lia.
  change (6 + 32 + 1) with 39. rewrite E7. cbn [obind].
  rewrite (proj2 (Z.ltb_ge _ _)) by lia.
  assert (uint16_at (enc_ciphers h) 0 = Ok (zlen (ch_ciphers h))) as -> by (apply (uint16_at_app []); [done|lia]).
  cbn [obind]. rewrite (proj2 (Z.ltb_ge _ _)) by lia.
  assert (elem_at (enc_ciphers h) (2 + zlen (ch_ciphers h)) = Ok (zlen (ch_compress h))) as ->
    by (unfold enc_ciphers; rewrite app_assoc; apply elem_at_app; field_lengths; lia).
  cbn [obind]. rewrite (proj2 (Z.ltb_ge _ _)) by lia.
  replace (39 + zlen (ch_session h) + _) with (4 + zlen (enc_front h)) by lia.
  rewrite E8. cbn [obind].
  by destruct (indexTLSServerNameFromExtensions fuel (enc_ext_list h)) as [[sn|]| | |].
Qed.

Lemma record_encoded fuel h :
  wf_hello h -> zlen (enc_body h) < 2 ^ 24 ->
  IndexTLSServerName fuel (enc_record h) =
  let* r := indexTLSServerNameFromExtensions fuel (enc_ext_list h) in
  Ok (match r with
      | None => None
      | Some sn => Some (MkServerName (sn_Index sn + (4 + zlen (enc_front h)) + 5) (sn_Length sn)
                           (sn_ServerName sn) (4 + zlen (enc_front h) + 5))
      end).
Proof.
  intros Hwf Hlen. unfold IndexTLSServerName, recordLayerHeaderLen.
  assert (zlen (enc_record h) = 5 + zlen (enc_handshake h)) as Hl by (unfold enc_record; field_lengths; lia).
  pose proof (zlen_nonneg (enc_handshake h)). rewrite (proj2 (Z.ltb_ge _ _)) by lia.
  assert (elem_at (enc_record h) 0 = Ok 22) as -> by (by apply (elem_at_app [])). cbn [obind].
  change (negb (22 =? contentType)) with false. cbn iota.
  assert (slice_of (enc_record h) 3 5 = Ok (be_bytes 2 (zlen (enc_handshake h)))) as ->
    by (unfold enc_record; rewrite (app_assoc [22]); apply slice_of_app; field_lengths; lia).
  cbn [obind]. rewrite be_val_2.
  assert (uint 16 (zlen (enc_handshake h)) <= zlen (enc_handshake h)) by (apply Z.mod_le; lia).
  rewrite (proj2 (Z.ltb_ge _ _)) by lia.
  assert (slice_from (enc_record h) 5 = Ok (enc_handshake h)) as ->
    by (unfold enc_record; rewrite !app_assoc; apply slice_from_app; field_lengths; lia).
  cbn [obind]. rewrite fromHandshake_encoded by done.
  by destruct (indexTLSServerNameFromExtensions fuel (enc_ext_list h)) as [[sn|]| | |].
Qed.

(** The extension at the head of the list. *)
Lemma loop_head fuel ci t d r :
  0 <= t < 65536 -> zlen d < 65536 ->
  extensions_loop (S fuel) ci (enc_ext (t, d) ++ r) =
  if t =? sniExtensionType then
    if zlen d <? 5 then Ok None else
    let* sniType := elem_at d 2 in
    if negb (sniType =? 0) then Ok None else
    let* sniLen := uint16_at d 3 in
    let* name := slice_from d 5 in
    Ok (Some (MkServerName (ci + 4 + 5) sniLen (string_of_bytes name) 0))
  else
    let* exs := slice_from (enc_ext (t, d) ++ r) (uint 16 (4 + zlen d)) in
    extensions_loop fuel (ci + (4 + zlen d)) exs.
Proof.
  intros Ht Hd. set (exs := enc_ext (t, d) ++ r).
  pose proof (zlen_nonneg d). pose proof (zlen_nonneg r).
  assert (zlen exs = 4 + zlen d + zlen r) as Hl by (unfold exs; rewrite zlen_app, zlen_enc_ext; done).
  assert (uint16_at exs 0 = Ok t) as E0
    by (unfold exs, enc_ext; rewrite <- !app_assoc; apply (uint16_at_app []); done).
  assert (uint16_at exs 2 = Ok (zlen d)) as E2
    by (unfold exs, enc_ext; rewrite <- !app_assoc; apply uint16_at_app; [field_lengths|cbn [snd]]; lia).
  assert (slice_of exs 4 (4 + zlen d) = Ok d) as E4
    by (unfold exs, enc_ext; rewrite app_assoc, <- app_assoc; apply slice_of_app; field_lengths; cbn [snd]; lia).
  cbn [extensions_loop]. unfold extensionHeaderLen, sniExtensionHeaderLen.
  rewrite (proj2 (Z.leb_gt _ _)), (proj2 (Z.ltb_ge (zlen exs) 4)) by lia.
  rewrite E0, E2. cbn [obind]. rewrite (proj2 (Z.ltb_ge _ _)) by lia.
  rewrite E4. cbn [obind]. done.
Qed.

Definition skipped (e : Z * bytes) : Prop := 0 < fst e < 65536 /\ zlen (snd e) < 65532.

Lemma loop_skip l : forall fuel ci r,
  Forall skipped l ->
  extensions_loop (length l + fuel) ci (enc_exts l ++ r) = extensions_loop fuel (ci + zlen (enc_exts l)) r.
Proof.
  induction l as [|[t d] l IH]; intros fuel ci r Hl.
  { cbn. by rewrite Z.add_0_r. }
  inversion Hl as [|? ? [Ht Hd] Hl']; subst. cbn [fst snd] in *.
  change (enc_exts ((t, d) :: l)) with (enc_ext (t, d) ++ enc_exts l).
  cbn [length Nat.add]. rewrite <- app_assoc, loop_head by lia.
  pose proof (zlen_nonneg d).
  rewrite (proj2 (Z.eqb_neq _ _)), uint_small, slice_from_app by (unfold sniExtensionType; rewrite ?zlen_enc_ext; cbn; lia).
  cbn [obind]. rewrite IH by done. f_equal. rewrite zlen_app, zlen_enc_ext. cbn [snd]. lia.
Qed.

Lemma loop_sni fuel ci host r :
  zlen (enc_sni host) < 65536 ->
  extensions_loop (S fuel) ci (enc_ext (0, enc_sni host) ++ r) =
  Ok (Some (MkServerName (ci + 9) (zlen host) (string_of_bytes host) 0)).
Proof.
  intros Hs. rewrite loop_head by lia. change (0 =? sniExtensionType) with true. cbn iota.
  assert (zlen (enc_sni host) = 5 + zlen host) as Hl by (unfold enc_sni; field_lengths; lia).
  pose proof (zlen_nonneg host). rewrite (proj2 (Z.ltb_ge _ _)) by lia.
  assert (elem_at (enc_sni host) 2 = Ok 0) as -> by (by apply elem_at_app).
  cbn [obind Z.eqb negb].
  assert (uint16_at (enc_sni host) 3 = Ok (zlen host)) as ->.
  { unfold enc_sni. rewrite app_assoc, <- (app_nil_r host) at 1. rewrite app_nil_r at 1.
    apply uint16_at_app; [field_lengths; lia|lia]. }
  assert (slice_from (enc_sni host) 5 = Ok host) as ->
    by (unfold enc_sni; rewrite !app_assoc; apply slice_from_app; field_lengths; lia).
  cbn [obind]. by replace (ci + 4 + 5) with (ci + 9) by lia.
Qed.

Lemma fromExtensions_encoded fuel h :
  indexTLSServerNameFromExtensions fuel (enc_ext_list h) =
  extensions_loop fuel 2 (enc_exts (ch_exts h)).
Proof.
  unfold indexTLSServerNameFromExtensions, extensionsHeaderLen.
  pose proof (zlen_nonneg (enc_exts (ch_exts h))) as Hn.
  assert (zlen (enc_ext_list h) = 2 + zlen (enc_exts (ch_exts h))) as Hl by (unfold enc_ext_list; field_lengths; lia).
  rewrite (proj2 (Z.eqb_neq _ _)), (proj2 (Z.ltb_ge _ _)) by lia.
  assert (uint16_at (enc_ext_list h) 0 = Ok (uint 16 (zlen (enc_exts (ch_exts h))))) as ->
    by (by apply (uint16_at_be_bytes [])).
  assert (slice_from (enc_ext_list h) 2 = Ok (enc_exts (ch_exts h))) as ->
    by (apply slice_from_app; by rewrite zlen_be_bytes).
  cbn [obind]. rewrite (proj2 (Z.ltb_ge _ _)); [done|]. apply Z.mod_le; lia.
Qed.

Lemma zlen_enc_exts_elem e l : e ∈ l -> 4 + zlen (snd e) <= zlen (enc_exts l).
Proof.
  intros (l1 & l2 & ->)%list_elem_of_split. rewrite enc_exts_app, zlen_app.
  change (enc_exts (e :: l2)) with (enc_ext e ++ enc_exts l2). rewrite zlen_app, zlen_enc_ext.
  pose proof (zlen_nonneg (enc_exts l1)). pose proof (zlen_nonneg (enc_exts l2)). lia.
Qed.

(** The record ends with the extension list, which starts at the reported
    [ExtensionsListLengthIndex]. *)
Definition enc_prefix (h : ClientHello) : bytes :=
  [22] ++ be_bytes 2 (ch_recordVersion h) ++ be_bytes 2 (zlen (enc_handshake h)) ++
  [1] ++ be_bytes 3 (zlen (enc_body h)) ++ enc_front h.

Lemma enc_record_split h :
  enc_record h = enc_prefix h ++ enc_ext_list h /\ zlen (enc_prefix h) = 4 + zlen (enc_front h) + 5.
Proof.
  split; [|unfold enc_prefix; field_lengths; lia].
  unfold enc_record, enc_prefix. generalize (be_bytes 2 (zlen (enc_handshake h))). intros l.
  unfold enc_handshake. generalize (be_bytes 3 (zlen (enc_body h))). intros l'. unfold enc_body. regroup.
Qed.

(** Sizes that follow from the record fitting a payload. *)
Lemma record_sizes h : wf_hello h ->
  zlen (enc_record h) = zlen (enc_prefix h) + 2 + zlen (enc_exts (ch_exts h)) /\
  47 <= zlen (enc_prefix h) /\ zlen (enc_body h) < zlen (enc_record h).
Proof.
  intros Hwf. destruct (enc_record_split h) as [Hr Hp]. pose proof (zlen_enc_front h Hwf).
  pose proof (zlen_nonneg (ch_session h)). pose proof (zlen_nonneg (ch_ciphers h)).
  pose proof (zlen_nonneg (ch_compress h)).
  assert (zlen (enc_record h) = zlen (enc_prefix h) + 2 + zlen (enc_exts (ch_exts h))) as Hl
    by (rewrite Hr; unfold enc_ext_list; field_lengths; lia).
  split_and!; [done|lia|]. unfold enc_body, enc_ext_list. field_lengths. lia.
Qed.

Lemma exts_skipped h l :
  wf_hello h -> zlen (enc_record h) <= 65540 -> l ⊆ ch_exts h ->
  Forall (fun e => fst e <> 0) l -> Forall skipped l.
Proof.
  intros Hwf Hlen Hsub Hl0. destruct (record_sizes h Hwf) as (? & ? & _). pose proof (wf_exts h Hwf) as Hex.
  apply Forall_forall. intros e He. rewrite Forall_forall in Hl0, Hex.
  pose proof (zlen_enc_exts_elem e _ (Hsub e He)). destruct (Hex e (Hsub e He)). specialize (Hl0 e He).
  unfold skipped. lia.
Qed.

(** The bytes of the record before the host name of a server_name extension. *)
Definition name_front (h : ClientHello) (pre : list (Z * bytes)) (host : bytes) : bytes :=
  enc_prefix h ++ be_bytes 2 (zlen (enc_exts (ch_exts h))) ++ enc_exts pre ++
  be_bytes 2 0 ++ be_bytes 2 (zlen (enc_sni host)) ++ be_bytes 2 (zlen host + 3) ++ [0] ++ be_bytes 2 (zlen host).

Lemma name_front_split h pre host post :
  ch_exts h = pre ++ (0, enc_sni host) :: post ->
  enc_record h = name_front h pre host ++ host ++ enc_exts post /\
  zlen (name_front h pre host) = zlen (enc_prefix h) + 2 + zlen (enc_exts pre) + 9.
Proof.
  intros Hpost. split; [|unfold name_front; field_lengths; lia].
  destruct (enc_record_split h) as [-> _]. unfold name_front, enc_ext_list.
  generalize (be_bytes 2 (zlen (enc_exts (ch_exts h)))). intros l. rewrite Hpost, enc_exts_app.
  change (enc_exts ((0, enc_sni host) :: post)) with (enc_ext (0, enc_sni host) ++ enc_exts post).
  unfold enc_ext. cbn [fst snd]. generalize (be_bytes 2 (zlen (enc_sni host))). intros l'.
  unfold enc_sni. regroup.
Qed.

(** A client hello in the wire format that fits one record: the first
    server_name extension is found, with the host name, its position in the
    payload and the position of the extension list; without such an extension
    there is no result. *)
Theorem client_hello_indexed fuel h :
  wf_hello h -> zlen (enc_record h) <= 65540 -> zlen (enc_record h) <= Z.of_nat fuel ->
  (forall pre host post,
     ch_exts h = pre ++ (0, enc_sni host) :: post -> Forall (fun e => fst e <> 0) pre ->
     exists front back,
       enc_record h = front ++ host ++ back /\
       IndexTLSServerName fuel (enc_record h) =
         Ok (Some (MkServerName (zlen front) (zlen host) (string_of_bytes host) (zlen (enc_prefix h))))) /\
  (Forall (fun e => fst e <> 0) (ch_exts h) -> IndexTLSServerName fuel (enc_record h) = Ok None).
Proof.
  intros Hwf Hlen Hf. destruct (record_sizes h Hwf) as (Hl & Hp & Hb).
  pose proof (proj2 (enc_record_split h)) as Hpre'.
  rewrite record_encoded, fromExtensions_encoded by (done || lia). split.
  - intros pre host post Hpost Hpre. exists (name_front h pre host), (enc_exts post).
    destruct (name_front_split h pre host post Hpost) as [-> Hnf]. split; [done|].
    assert (Forall skipped pre) as Hskip by (apply (exts_skipped h); [done|done|rewrite Hpost; set_solver|done]).
    pose proof (zlen_enc_exts_elem (0, enc_sni host) (ch_exts h) ltac:(rewrite Hpost; set_solver)) as Hsni.
    rewrite Hpost in Hl, Hsni |- *. rewrite enc_exts_app in *. rewrite zlen_app in *.
    pose proof (length_enc_exts pre). cbn [snd] in Hsni.
    pose proof (length_enc_exts ((0, enc_sni host) :: post)). cbn [length] in *.
    change (enc_exts ((0, enc_sni host) :: post)) with (enc_ext (0, enc_sni host) ++ enc_exts post) in *.
    replace fuel with (length pre + S (fuel - length pre - 1))%nat by lia.
    rewrite loop_skip, loop_sni; [|lia|done].
    cbn [obind sn_Index sn_Length sn_ServerName]. do 3 f_equal; lia.
  - intros Hno. pose proof (length_enc_exts (ch_exts h)).
    replace fuel with (length (ch_exts h) + (fuel - length (ch_exts h)))%nat by lia.
    rewrite <- (app_nil_r (enc_exts _)), loop_skip by (by apply (exts_skipped h)).
    by destruct (fuel - length (ch_exts h))%nat.
Qed.

(** ** An extension of 65532 bytes *)

Lemma loop_stuck fuel t d r :
  0 < t < 65536 -> zlen d = 65532 -> forall pre ci,
  Forall skipped pre -> extensions_loop fuel ci (enc_exts pre ++ enc_ext (t, d) ++ r) = Diverge.
Proof.
  intros Ht Hd. induction fuel as [|fuel IH]; intros pre ci Hpre.
  - cbn [extensions_loop]. rewrite !zlen_app, zlen_enc_ext. cbn [snd].
    pose proof (zlen_nonneg r). pose proof (zlen_nonneg (enc_exts pre)). by rewrite (proj2 (Z.leb_gt _ _)) by lia.
  - destruct Hpre as [|[t' d'] pre [Ht' Hd'] Hpre]; cbn [fst snd] in *.
    + change (enc_exts [] ++ ?l) with l. rewrite loop_head, (proj2 (Z.eqb_neq _ _)) by (unfold sniExtensionType; lia).
      rewrite Hd. change (uint 16 (4 + 65532)) with 0. rewrite slice_from_ok by (split; [lia|apply zlen_nonneg]).
      cbn [obind]. by apply (IH []).
    + change (enc_exts ((t', d') :: pre)) with (enc_ext (t', d') ++ enc_exts pre). rewrite <- app_assoc.
      pose proof (zlen_nonneg d').
      rewrite loop_head, (proj2 (Z.eqb_neq _ _)), uint_small, slice_from_app
        by (unfold sniExtensionType; rewrite ?zlen_enc_ext; cbn; lia).
      cbn [obind]. by apply IH.
Qed.

(** An extension of 65532 bytes before the server name: [4+exLen] is 0 in
    [uint16], so that the loop over the extensions stays at this extension and
    the first write of the connection never returns, with any fuel. *)
Theorem long_extension_never_returns fuel h pre t d post :
  wf_hello h -> zlen (enc_record h) < 2 ^ 24 ->
  ch_exts h = pre ++ (t, d) :: post -> Forall skipped pre -> t <> 0 -> zlen d = 65532 ->
  IndexTLSServerName fuel (enc_record h) = Diverge.
Proof.
  intros Hwf Hlen Hpost Hpre Ht Hd. destruct (record_sizes h Hwf) as (_ & _ & Hb).
  pose proof (wf_exts h Hwf) as Hex. rewrite Hpost in Hex. apply Forall_app in Hex as [_ Hex].
  apply Forall_cons in Hex as [[Hex _] _]. cbn [fst] in Hex.
  rewrite record_encoded, fromExtensions_encoded by (done || lia). rewrite Hpost, enc_exts_app.
  change (enc_exts ((t, d) :: post)) with (enc_ext (t, d) ++ enc_exts post).
  by rewrite loop_stuck by (done || lia).
Qed.

(** ** The positions of the cuts *)

Fixpoint labels_len (l : list string) : Z :=
  match l with
  | [] => 0
  | [w] => str_len w
  | w :: l' => str_len w + 1 + labels_len l'
  end.

Lemma Split_not_nil a s : Split a s <> [].
Proof. destruct s as [|b s]; cbn; [done|]. destruct (Ascii.eqb b a); [done|]. by destruct (Split a s). Qed.

Lemma labels_len_cons w l : l <> [] -> labels_len (w :: l) = str_len w + 1 + labels_len l.
Proof. by destruct l. Qed.

Lemma str_len_cons a s : str_len (String a s) = str_len s + 1.
Proof. unfold str_len. cbn [String.length]. lia. Qed.

Lemma labels_len_Split a s : labels_len (Split a s) = str_len s.
Proof.
  induction s as [|b s IH]; [done|]. cbn [Split]. pose proof (Split_not_nil a s) as Hn.
  rewrite str_len_cons. destruct (Ascii.eqb b a).
  - rewrite labels_len_cons by done. change (str_len "") with 0. lia.
  - destruct (Split a s) as [|w ws]; [done|]. rewrite <- IH.
    destruct ws; cbn [labels_len]; rewrite str_len_cons; lia.
Qed.

Lemma length_Split a s : zlen (Split a s) = Count a s + 1.
Proof.
  induction s as [|b s IH]; [done|]. cbn [Split Count]. destruct (Ascii.eqb b a).
  - rewrite zlen_cons. lia.
  - pose proof (Split_not_nil a s). destruct (Split a s); [done|]. rewrite !zlen_cons in *. lia.
Qed.

Lemma Split_labels a s : Forall (fun w => Count a w = 0) (Split a s).
Proof.
  induction s as [|b s IH]; [by repeat constructor|]. cbn [Split]. destruct (Ascii.eqb b a) eqn:E.
  - by constructor.
  - destruct IH as [|w ws]; repeat constructor; cbn [Count]; rewrite ?E; try done; lia.
Qed.

Section Cuts.
  Context (PublicSuffix : string -> string) (Intn : nat -> Z -> Z).
  Hypothesis Intn_range : forall k n, 0 < n -> 0 <= Intn k n < n.

(** The labels that are cut: all of them when the name has no public suffix, else
    the first one. *)
Definition cut_labels (name : string) : list string :=
  if bool_decide (PublicSuffix name = ""%string) then Split dot name else take 1 (Split dot name).

Lemma cut_labels_not_nil name : cut_labels name <> [].
Proof.
  unfold cut_labels. pose proof (Split_not_nil dot name).
  case_bool_decide; [done|]. by destruct (Split dot name).
Qed.

Lemma head_cut_labels name : head (cut_labels name) = head (Split dot name).
Proof. unfold cut_labels. case_bool_decide; [done|]. by destruct (Split dot name). Qed.

Lemma cut_labels_len name : labels_len (cut_labels name) <= str_len name.
Proof.
  unfold cut_labels. rewrite <- (labels_len_Split dot name). case_bool_decide; [lia|].
  destruct (Split dot name) as [|w [|w' ws]]; [cbn; lia|cbn; lia|].
  cbn [take]. rewrite (labels_len_cons w (w' :: ws)) by done. change (labels_len [w]) with (str_len w).
  assert (0 <= labels_len (w' :: ws)); [|lia]. clear. revert w'.
  induction ws as [|w ws IH]; intros w'; [cbn; unfold str_len; lia|].
  rewrite labels_len_cons by done. specialize (IH w). unfold str_len. lia.
Qed.

Lemma choose_splits_eq name index : choose_splits PublicSuffix name index = Ok (cut_labels name, index).
Proof.
  unfold choose_splits. pose proof (Split_labels dot name) as Hd. pose proof (length_Split dot name) as Hl.
  assert ((if negb (bool_decide (PublicSuffix name = ""%string))
           then slice_of (Split dot name) 0 (zlen (Split dot name) - Count dot name)
           else Ok (Split dot name)) = Ok (cut_labels name)) as ->.
  { unfold cut_labels. case_bool_decide; cbn [negb]; [done|].
    assert (0 <= Count dot name).
    { clear. induction name as [|a name IH]; cbn [Count]; [lia|]. destruct (Ascii.eqb a dot); lia. }
    replace (zlen (Split dot name) - Count dot name) with 1 by lia. by rewrite slice_of_ok by lia. }
  cbn [obind]. assert (Forall (fun w => Count dot w = 0) (cut_labels name)) as Hc
    by (unfold cut_labels; case_bool_decide; [done|by apply Forall_take]).
  destruct (1 <? zlen _); [|done]. pose proof (cut_labels_not_nil name) as Hn.
  destruct Hc as [|w ws Hw]; [done|]. change (elem_at (w :: ws) 0) with (Ok w). cbn [obind].
  rewrite bool_decide_eq_false_2; [done|]. by intros ->.
Qed.

(** Positions that grow strictly between [lo] and [hi]. *)
Fixpoint increasing (lo : Z) (cuts : list Z) (hi : Z) : Prop :=
  match cuts with
  | [] => lo < hi
  | c :: cs => lo < c /\ increasing c cs hi
  end.

Lemma split_indexes_ok splits : forall k cur,
  splits <> [] -> Forall (fun w => w <> ""%string) splits ->
  exists cuts, split_indexes Intn k cur splits = Ok cuts /\ length cuts = length splits /\
    head cuts = (fun w => cur + Intn k (str_len w)) <$> head splits /\
    forall lo hi, lo < cur -> cur + labels_len splits <= hi -> increasing lo cuts hi.
Proof using Intn_range.
  induction splits as [|w ws IH]; intros k cur Hne Hs; [done|]. apply Forall_cons in Hs as [Hw Hws].
  assert (0 < str_len w) as Hlen by (destruct w; [done|rewrite str_len_cons; unfold str_len; lia]).
  pose proof (Intn_range k _ Hlen) as Hr. cbn [split_indexes]. unfold rand_Intn.
  rewrite (proj2 (Z.leb_gt _ _)) by lia. cbn [obind].
  destruct ws as [|w' ws].
  - cbn [split_indexes obind]. eexists; split_and!; [done|done|done|].
    intros lo hi ??. cbn [labels_len increasing] in *. lia.
  - destruct (IH (S k) (cur + str_len w + 1)) as (cuts & -> & Hl & _ & Hinc); [done|done|].
    cbn [obind]. eexists; split_and!; [done|cbn [length] in *; lia|done|].
    intros lo hi ? Hhi. rewrite labels_len_cons in Hhi by done. split; [lia|]. apply Hinc; lia.
Qed.
End Cuts.

(** ** The fragments *)

Fixpoint pieces (b : bytes) (lo : Z) (cuts : list Z) : list bytes :=
  match cuts with
  | [] => [drop (Z.to_nat lo) b]
  | c :: cs => take (Z.to_nat (c - lo)) (drop (Z.to_nat lo) b) :: pieces b c cs
  end.

Lemma length_pieces b cuts : forall lo, length (pieces b lo cuts) = S (length cuts).
Proof. induction cuts; intros; cbn; auto. Qed.

Lemma increasing_lt cuts : forall lo hi, increasing lo cuts hi -> lo < hi.
Proof. induction cuts as [|c cs IH]; intros lo hi; cbn; [done|]. intros [? ?%IH]. lia. Qed.

Lemma pieces_concat b cuts : forall lo,
  0 <= lo -> increasing lo cuts (zlen b) ->
  concat (pieces b lo cuts) = drop (Z.to_nat lo) b /\ Forall (fun p => p <> []) (pieces b lo cuts).
Proof.
  induction cuts as [|c cs IH]; intros lo Hlo Hinc; cbn [pieces concat increasing] in *.
  - split; [apply app_nil_r|]. repeat constructor.
    intros E%(f_equal length). rewrite length_drop in E. unfold zlen in *. cbn in E. lia.
  - destruct Hinc as [Hc Hinc]. destruct (IH c) as [-> Hne]; [lia|done|].
    pose proof (increasing_lt _ _ _ Hinc). split.
    + rewrite <- (take_drop (Z.to_nat (c - lo)) (drop (Z.to_nat lo) b)) at 2. f_equal.
      rewrite drop_drop. f_equal. lia.
    + constructor; [|done]. intros E%(f_equal length).
      rewrite length_take, length_drop in E. unfold zlen in *. cbn in E. lia.
Qed.

Lemma pieces_lookup b cuts : forall lo hi i p,
  increasing lo cuts hi -> pieces b lo cuts !! S i = Some p ->
  exists s, cuts !! i = Some s /\ lo < s < hi /\
    ((S i = length cuts /\ p = drop (Z.to_nat s) b) \/
     ((S i < length cuts)%nat /\ exists s', cuts !! S i = Some s' /\ s < s' < hi /\
        p = take (Z.to_nat (s' - s)) (drop (Z.to_nat s) b))).
Proof.
  induction cuts as [|c cs IH]; intros lo hi i p Hinc Hp; [done|]. destruct Hinc as [Hc Hinc].
  pose proof (increasing_lt _ _ _ Hinc). cbn [pieces lookup list_lookup] in Hp. destruct i as [|i].
  - exists c. split; [done|]. split; [lia|]. destruct cs as [|c' cs]; cbn in Hp; injection Hp as <-; [by left|].
    destruct Hinc as [? Hinc]. pose proof (increasing_lt _ _ _ Hinc).
    right. split; [cbn; lia|]. exists c'. split; [done|]. split; [lia|done].
  - destruct (IH c hi i p Hinc Hp) as (s & Hs & ? & Hcase). exists s. split; [done|]. split; [lia|].
    cbn [length]. destruct Hcase as [[? ?]|[? ?]]; [left; split; [lia|done]|right; split; [lia|done]].
Qed.

Definition fragment_start (record : bool) : Z := if record then recordLayerHeaderLen else 0.

Lemma elem_at_Some {A} (l : list A) (i : nat) x z : l !! i = Some x -> z = Z.of_nat i -> elem_at l z = Ok x.
Proof.
  intros Hx ->. unfold elem_at. rewrite (proj2 (Z.ltb_ge _ _)) by lia. by rewrite Nat2Z.id, Hx.
Qed.

Lemma slice_of_spare (b spare : bytes) lo hi :
  0 <= lo <= hi -> hi <= zlen b ->
  slice_of (b ++ spare) lo hi = Ok (take (Z.to_nat (hi - lo)) (drop (Z.to_nat lo) b)).
Proof.
  intros ??. rewrite slice_of_ok by (rewrite ?zlen_app; pose proof (zlen_nonneg spare); lia).
  unfold zlen in *. rewrite drop_app_le by lia. rewrite take_app_le by (rewrite length_drop; lia). done.
Qed.

Lemma fragment_pieces record b spare cuts i p :
  cuts <> [] -> increasing recordLayerHeaderLen cuts (zlen b) ->
  pieces b (fragment_start record) cuts !! i = Some p -> fragment record b spare cuts i = Ok p.
Proof.
  intros Hne Hinc Hp. destruct cuts as [|c cs]; [done|]. unfold fragment.
  assert (increasing (fragment_start record) (c :: cs) (zlen b)) as Hinc'.
  { destruct Hinc as [? ?]. split; [|done]. unfold fragment_start, recordLayerHeaderLen in *. destruct record; lia. }
  pose proof (increasing_lt _ _ _ (proj2 Hinc)). unfold recordLayerHeaderLen in *. destruct i as [|i].
  - cbn [Nat.eqb]. change (elem_at (c :: cs) (Z.of_nat 0)) with (Ok c). cbn [obind].
    cbn [pieces lookup list_lookup] in Hp. injection Hp as <-. destruct Hinc as [? _].
    rewrite slice_of_spare by lia. rewrite Z.sub_0_r, drop_0. cbn [obind].
    unfold fragment_start, recordLayerHeaderLen. destruct record; [|by rewrite Z.sub_0_r, drop_0].
    rewrite slice_from_ok by (rewrite zlen_take; lia). f_equal. rewrite skipn_firstn_comm. f_equal. lia.
  - rewrite (proj2 (Nat.eqb_neq (S i) 0)) by lia. assert (0 <= fragment_start record) by (unfold fragment_start, recordLayerHeaderLen; destruct record; lia).
    destruct (pieces_lookup b (c :: cs) _ _ i p Hinc' Hp) as (s & Hs & ? & Hcase).
    rewrite (elem_at_Some _ i s) by (done || lia). cbn [obind].
    destruct Hcase as [[Hi ->]|(Hi & s' & Hs' & ? & ->)].
    + rewrite Hi, Nat.eqb_refl. by rewrite slice_from_ok by lia.
    + rewrite (proj2 (Nat.eqb_neq _ _)) by (cbn [length] in *; lia).
      rewrite (elem_at_Some _ (S i) s') by (done || lia). cbn [obind]. by rewrite slice_of_spare by lia.
Qed.

(** ** What the peer receives *)

(** The payloads written to the connection, in order. *)
Definition written (log : list conn_call) : list bytes :=
  omap (fun call => match call with
                    | CWrite p => Some p
                    | CWriteAndWaitAck p _ => Some p
                    | _ => None
                    end) log.

(** A stream of TLS records: header without the length, and payload of each. *)
Fixpoint parse_records (fuel : nat) (l : bytes) : option (list (bytes * bytes)) :=
  match l with
  | [] => Some []
  | _ =>
      match fuel with
      | O => None
      | S fuel' =>
          let n := be_val (take 2 (drop 3 l)) in
          if zlen l <? 5 + n then None
          else rest ← parse_records fuel' (drop (Z.to_nat (5 + n)) l);
               Some ((take 3 l, take (Z.to_nat n) (drop 5 l)) :: rest)
      end
  end.

Lemma parse_records_of header ps :
  length header = 3%nat -> Forall (fun p => zlen p < 65536) ps ->
  parse_records (length ps) (concat (record_of header <$> ps)) = Some (pair header <$> ps).
Proof.
  intros Hh. destruct header as [|x [|y [|z [|]]]]; try done. clear Hh.
  induction 1 as [|p ps Hp _ IH]; [done|].
  change (concat (record_of [x; y; z] <$> p :: ps)) with (record_of [x; y; z] p ++ concat (record_of [x; y; z] <$> ps)).
  unfold record_of at 1. pose proof (zlen_nonneg p).
  rewrite uint_small by (change (2 ^ 16) with 65536; lia).
  pose proof (be_val_2 (zlen p)) as Hv. rewrite uint_small in Hv by (change (2 ^ 16) with 65536; lia).
  rewrite be_bytes_2 in *. cbn -[be_val zlen uint Z.shiftr Z.add record_of]. rewrite ?take_0, ?drop_0, Hv.
  rewrite (proj2 (Z.ltb_ge _ _)).
  - replace (Z.to_nat (5 + zlen p)) with (5 + length p)%nat by (unfold zlen; lia).
    cbn [Nat.add drop]. rewrite drop_app_length, IH. cbn. unfold zlen. by rewrite Nat2Z.id, take_app_length.
  - rewrite !zlen_cons, zlen_app. pose proof (zlen_nonneg (concat (record_of [x; y; z] <$> ps))). lia.
Qed.

Section Stream.
  Context (PublicSuffix : string -> string) (Intn : nat -> Z -> Z).
  Context (io : list conn_call -> conn_call -> Z * option error).
  Hypothesis Intn_range : forall k n, 0 < n -> 0 <= Intn k n < n.
  Hypothesis io_ok : forall log call, snd (io log call) = None.

Lemma written_app l1 l2 : written (l1 ++ l2) = written l1 ++ written l2.
Proof. apply omap_app. Qed.

Lemma write_packet_ok c isLast p log :
  exists log', write_packet io c isLast p log = (log', None) /\ written log' = written log ++ [p].
Proof using io_ok.
  unfold write_packet. destruct (_ && _); rewrite io_ok; [eexists; split; [done|by rewrite written_app]|].
  destruct isLast; eexists; (split; [done|by rewrite written_app]).
Qed.

Lemma write_loop_ok c b spare cuts ps : forall i buffer log,
  3 <= zlen b ->
  (forall k p, ps !! k = Some p -> fragment (splitRecord c) b spare cuts (i + k) = Ok p) ->
  exists buffer' log', write_loop io (length ps) c b spare cuts i buffer log = Ok (buffer', log', None) /\
    (splitPacket c = true -> written log' = written log ++
       (if splitRecord c then record_of (take 3 b) <$> ps else ps)) /\
    (splitPacket c = false -> log' = log /\
       (splitRecord c = true -> buffer' = buffer ++ concat (record_of (take 3 b) <$> ps))).
Proof using io_ok.
  induction ps as [|p ps IH]; intros i buffer log Hb Hf.
  { exists buffer, log. split; [done|]. cbn. split; [|by rewrite app_nil_r].
    intros _. destruct (splitRecord c); by rewrite app_nil_r. }
  cbn [length write_loop].
  assert (fragment (splitRecord c) b spare cuts i = Ok p) as -> by (rewrite <- (Nat.add_0_r i); by apply Hf). cbn [obind].
  rewrite slice_of_spare by lia. change (Z.to_nat (3 - 0)) with 3%nat. rewrite drop_0.
  assert (forall k q, ps !! k = Some q -> fragment (splitRecord c) b spare cuts (S i + k) = Ok q) as Hf'
    by (intros k q Hq; rewrite Nat.add_succ_comm; by apply Hf).
  destruct (splitPacket c) eqn:Hp.
  - destruct (splitRecord c) eqn:Hr; cbn [obind andb app].
    all: edestruct write_packet_ok as (log1 & -> & Hw); cbn.
    all: edestruct IH as (buffer' & log' & -> & Hw' & _); [done|done|].
    all: eexists _, _; split; [done|]; split; [|done]; intros _; rewrite Hw', Hw by done.
    all: by rewrite <- app_assoc.
  - destruct (splitRecord c) eqn:Hr; cbn [obind andb].
    all: edestruct IH as (buffer' & log' & -> & _ & Hw'); [done|done|].
    all: destruct (Hw' eq_refl) as [-> Hbuf]; eexists _, _; split; [done|]; split; [done|].
    all: intros _; split; [done|]; intros ?; try done.
    rewrite Hbuf by done. cbn. by rewrite <- app_assoc.
Qed.

(** The writes of a client hello whose server name was found at [sn]. *)
Lemma write_hello_ok c sn b spare :
  5 < sn_Index sn -> sn_Index sn + str_len (sn_ServerName sn) <= zlen b ->
  Forall (fun w => w <> ""%string) (cut_labels PublicSuffix (sn_ServerName sn)) ->
  (splitPacket c || splitRecord c) = true ->
  exists cuts log, write_hello PublicSuffix Intn io c sn b spare [] = Ok (log, (zlen b, None)) /\
    length cuts = length (cut_labels PublicSuffix (sn_ServerName sn)) /\
    increasing recordLayerHeaderLen cuts (zlen b) /\
    head cuts = (fun w => sn_Index sn + Intn 0 (str_len w)) <$> head (cut_labels PublicSuffix (sn_ServerName sn)) /\
    let ps := pieces b (fragment_start (splitRecord c)) cuts in
    let frames := if splitRecord c then record_of (take 3 b) <$> ps else ps in
    written log = if splitPacket c then frames else [concat frames].
Proof using Intn_range io_ok.
  intros Hlo Hhi Hl Hmode. set (labels := cut_labels _ _) in *.
  pose proof (cut_labels_len PublicSuffix (sn_ServerName sn)) as Hlab. fold labels in Hlab.
  destruct (split_indexes_ok Intn Intn_range labels 0 (sn_Index sn)) as (cuts & Hcuts & Hlen & Hhd & Hinc);
    [apply cut_labels_not_nil|done|].
  specialize (Hinc recordLayerHeaderLen (zlen b) Hlo ltac:(lia)).
  assert (cuts <> []) as Hne by (intros ->; apply (cut_labels_not_nil PublicSuffix (sn_ServerName sn)); by apply nil_length_inv).
  set (log0 := if splitPacket c && hasTCPConn c then [CSetNoDelay true] else []).
  destruct (write_loop_ok c b spare cuts (pieces b (fragment_start (splitRecord c)) cuts) 0 [] log0)
    as (buffer & log1 & Hloop & Hw1 & Hw2).
  { pose proof (increasing_lt _ _ _ Hinc). unfold recordLayerHeaderLen in *. lia. }
  { intros k p Hk. by apply fragment_pieces. }
  rewrite length_pieces in Hloop.
  assert (written log0 = []) as Hlog0 by (unfold log0; by destruct (_ && _)).
  exists cuts. unfold write_hello.
  assert ((if splitPacket c && hasTCPConn c then ([] ++ [CSetNoDelay true], snd (io [] (CSetNoDelay true))) else ([], None))
          = (log0, None)) as -> by (unfold log0; destruct (_ && _); by rewrite ?io_ok).
  rewrite choose_splits_eq. fold labels. cbn [obind]. rewrite Hcuts. cbn [obind]. rewrite Hloop. cbn [obind].
  destruct (splitPacket c) eqn:Hp; cbn [negb andb].
  - rewrite andb_false_r. cbn iota. rewrite Hlog0 in Hw1. cbn [app] in Hw1. specialize (Hw1 eq_refl).
    destruct (hasTCPConn c); rewrite ?io_ok; eexists; (split; [done|]); split_and!; try done.
    rewrite written_app. cbn. by rewrite app_nil_r.
  - cbn in Hmode. rewrite Hmode in *. cbn [andb negb]. destruct (Hw2 eq_refl) as [-> Hbuf].
    rewrite (Hbuf eq_refl), io_ok. cbn [app].
    destruct (hasTCPConn c); rewrite ?io_ok; eexists; (split; [done|]); split_and!; try done.
    all: by rewrite !written_app, Hlog0.
Qed.
End Stream.

(** C15: the first write of a client hello: when the calls on the socket succeed
    the write succeeds for the whole of [b], and the peer receives the same data.
    Without record splitting the segments joined are [b], none is empty; with it
    the stream is a sequence of records with the type and version of the original
    whose payloads, none empty, joined are the original payload.  There is one more
    piece than labels cut, and the first piece ends inside the first label of the
    server name, at the position drawn for it. *)
Theorem fragmented_hello_same_stream PublicSuffix Intn io c b spare sn :
  (forall k n, 0 < n -> 0 <= Intn k n < n) ->
  (forall log call, snd (io log call) = None) ->
  Forall is_byte b -> zlen b <= 65540 ->
  IndexTLSServerName (length b) b = Ok (Some sn) ->
  Forall (fun w => w <> ""%string) (cut_labels PublicSuffix (sn_ServerName sn)) ->
  firstPacketWritten c = false -> (splitPacket c || splitRecord c) = true ->
  exists log ps w,
    Conn_Write PublicSuffix Intn io c b spare [] = Ok (set_written c, log, (zlen b, None)) /\
    length ps = S (length (cut_labels PublicSuffix (sn_ServerName sn))) /\
    Forall (fun p => p <> []) ps /\
    head (Split dot (sn_ServerName sn)) = Some w /\
    head ps = Some (take (Z.to_nat (sn_Index sn + Intn 0%nat (str_len w) - fragment_start (splitRecord c)))
                         (drop (Z.to_nat (fragment_start (splitRecord c))) b)) /\
    (splitRecord c = false -> written log = ps /\ concat ps = b) /\
    (splitRecord c = true ->
       concat ps = drop 5 b /\
       parse_records (length ps) (concat (written log)) = Some (pair (take 3 b) <$> ps) /\
       length (written log) = if splitPacket c then length ps else 1%nat).
Proof.
  intros HI Hio Hb Hlen Hsn Hlab Hfirst Hmode.
  destruct (IndexTLSServerName_ok (length b) b) as (r & Hr & Hin); [done|done|unfold zlen; lia|].
  rewrite Hsn in Hr. injection Hr as <-. destruct (Hin sn eq_refl) as [Hlo Hhi].
  destruct (write_hello_ok PublicSuffix Intn io HI Hio c sn b spare) as (cuts & log & Hw & Hlc & Hinc & Hhd & Hlog);
    [lia|done|done|done|].
  set (ps := pieces b (fragment_start (splitRecord c)) cuts) in *.
  assert (0 <= fragment_start (splitRecord c) <= 5) as Hst by (unfold fragment_start, recordLayerHeaderLen; destruct (splitRecord c); lia).
  destruct cuts as [|k cuts]; [by destruct (cut_labels_not_nil PublicSuffix (sn_ServerName sn)); apply nil_length_inv|].
  assert (increasing (fragment_start (splitRecord c)) (k :: cuts) (zlen b)) as Hinc'
    by (destruct Hinc; split; [unfold recordLayerHeaderLen in *; lia|done]).
  destruct (pieces_concat b (k :: cuts) (fragment_start (splitRecord c))) as [Hcat Hne]; [lia|done|]. fold ps in Hcat, Hne.
  rewrite head_cut_labels in Hhd. destruct (head (Split dot _)) as [w|] eqn:Hw1; [|done]. injection Hhd as ->.
  exists log, ps, w. split_and!.
  - unfold Conn_Write. rewrite Hfirst, Hsn. cbn [obind]. by rewrite Hw.
  - unfold ps. rewrite length_pieces. by rewrite Hlc.
  - done.
  - done.
  - done.
  - intros Hrec. rewrite Hrec in Hlog, Hcat, Hmode. rewrite orb_false_r in Hmode. rewrite Hmode in Hlog.
    split; [done|]. by rewrite Hcat.
  - intros Hrec. rewrite Hrec in Hlog, Hcat. change (fragment_start true) with 5 in Hcat. split; [done|].
    assert (58 <= zlen b) by (unfold str_len in Hhi; lia).
    assert (concat (written log) = concat (record_of (take 3 b) <$> ps)) as ->
      by (rewrite Hlog; destruct (splitPacket c); [done|cbn; by rewrite app_nil_r]).
    split; [|rewrite Hlog; destruct (splitPacket c); [by rewrite length_fmap|done]].
    apply parse_records_of; [rewrite length_take; unfold zlen in *; lia|].
    apply Forall_forall. intros p (l1 & l2 & Hp)%list_elem_of_split. apply (f_equal zlen) in Hcat.
    rewrite Hp, concat_app in Hcat. cbn [concat] in Hcat. rewrite !zlen_app, zlen_drop in Hcat by lia.
    pose proof (zlen_nonneg (concat l1)). pose proof (zlen_nonneg (concat l2)). lia.
Qed.

(** ** Where the code falls short *)

(** A name whose first label is empty, the empty name included, makes [rand.Intn]
    panic. *)
Theorem empty_label_panics PublicSuffix Intn io c b spare sn :
  (forall log call, snd (io log call) = None) ->
  IndexTLSServerName (length b) b = Ok (Some sn) -> firstPacketWritten c = false ->
  head (Split dot (sn_ServerName sn)) = Some ""%string ->
  Conn_Write PublicSuffix Intn io c b spare [] = Panic "invalid argument to Intn".
Proof.
  intros Hio Hsn Hfirst Hhead. unfold Conn_Write. rewrite Hfirst, Hsn. cbn [obind]. unfold write_hello.
  assert (exists ws, cut_labels PublicSuffix (sn_ServerName sn) = ""%string :: ws) as (ws & Hws).
  { unfold cut_labels. destruct (Split dot (sn_ServerName sn)) as [|w ws]; [done|].
    injection Hhead as ->. case_bool_decide; eauto. }
  rewrite choose_splits_eq, Hws. destruct (splitPacket c && hasTCPConn c); rewrite ?Hio; done.
Qed.

(** ** Witnesses *)

Definition witness_host : bytes := bytes_of_string "ab.cd".
Definition witness_hello : ClientHello :=
  MkHello 769 771 (replicate 32 7) [1; 2] [19; 1] [0] [(23, []); (0, enc_sni witness_host); (43, [2; 3; 4])].

Lemma witness_hello_wf : wf_hello witness_hello.
Proof. constructor; [vm_compute; split; discriminate|reflexivity|reflexivity|reflexivity|reflexivity|by repeat constructor]. Qed.

Lemma client_hello_indexed_witness :
  (exists front back, enc_record witness_hello = front ++ witness_host ++ back /\
     IndexTLSServerName 200 (enc_record witness_hello) =
       Ok (Some (MkServerName (zlen front) (zlen witness_host) (string_of_bytes witness_host)
                              (zlen (enc_prefix witness_hello))))) /\
  IndexTLSServerName 200 (enc_record witness_hello) = Ok (Some (MkServerName 67 5 "ab.cd" 52)).
Proof.
  split; [|vm_compute; reflexivity].
  refine (proj1 (client_hello_indexed 200 witness_hello witness_hello_wf _ _)
            [(23, [])] witness_host [(43, [2; 3; 4])] _ _);
    [vm_compute; discriminate|vm_compute; discriminate|reflexivity|by repeat constructor].
Defined.

Definition long_hello : ClientHello :=
  MkHello 769 771 (replicate 32 7) [] [19; 1] [0]
    [(43, [2]); (21, replicate (Z.to_nat 65532) 0); (0, enc_sni witness_host)].

Lemma long_hello_wf : wf_hello long_hello.
Proof.
  constructor; [vm_compute; split; discriminate|reflexivity|reflexivity|reflexivity|reflexivity|].
  repeat constructor; vm_compute; reflexivity || discriminate.
Qed.

Lemma long_extension_never_returns_witness :
  IndexTLSServerName 1000 (enc_record long_hello) = Diverge.
Proof.
  refine (long_extension_never_returns 1000 long_hello [(43, [2])] 21 (replicate (Z.to_nat 65532) 0)
    [(0, enc_sni witness_host)] long_hello_wf _ _ _ _ _);
    [vm_compute; reflexivity|reflexivity|repeat constructor|discriminate|vm_compute; reflexivity].
Defined.

(** A public suffix list with the default rule: the last label. *)
Definition last_label (name : string) : string := List.last (Split dot name) ""%string.

Lemma fragmented_hello_same_stream_witness :
  exists log ps, Conn_Write last_label (fun _ n => n - 1) (fun _ _ => (0, None)) (NewConn true true true 0)
      (enc_record witness_hello) [] [] = Ok (MkConn true true true true (500 * 1000 * 1000), log, (79, None)) /\
    length (written log) = 2%nat /\
    parse_records (length ps) (concat (written log)) = Some (pair [22; 3; 1] <$> ps) /\
    concat ps = enc_handshake witness_hello.
Proof.
  destruct (fragmented_hello_same_stream last_label (fun _ n => n - 1) (fun _ _ => (0, None)) (NewConn true true true 0)
    (enc_record witness_hello) [] (MkServerName 67 5 "ab.cd" 52)) as (log & ps & w & Hw & Hlen & _ & _ & _ & _ & Hrec).
  - intros k n ?. lia.
  - reflexivity.
  - vm_compute. repeat constructor; discriminate.
  - vm_compute. discriminate.
  - vm_compute. reflexivity.
  - vm_compute. repeat constructor; discriminate.
  - reflexivity.
  - reflexivity.
  - destruct (Hrec eq_refl) as (Hcat & Hparse & Hcount). exists log, ps.
    split; [exact Hw|]. split; [rewrite Hcount; exact Hlen|]. split; [exact Hparse|exact Hcat].
Defined.
