(* ===== verification/RuleAction.v ===== *)
(** * Rule actions

    option/rule_action.go, route/rule/rule_action.go and the options of
    common/tlsspoof: the validation of action options, the construction of the
    action of a rule, and the flood control of the reject action.

    The JSON decoder gives the fields; what [UnmarshalJSON] then does with them is
    modelled.  The [String] methods are for the log. *)

From S2P Require Import Prelude GoStd Netip External Concrete.
From Stdlib Require Import Sorted.
Local Open Scope Z_scope.

(** [github.com/sagernet/sing/common/metadata]: what the router uses of it beyond
    the rule items. *)
Class SocksaddrOps := {
  ParseSocksaddrHostPort : string -> Z -> Socksaddr;
  Socksaddr_IsValid : Socksaddr -> bool;
  Socksaddr_IsIPv4 : Socksaddr -> bool;
  Socksaddr_IsDomain : Socksaddr -> bool;
  Socksaddr_AddrPort : Socksaddr -> Addr * Z;
  IsDomainName : string -> bool
}.

#[export] Instance Socksaddr_eq_dec : EqDecision Socksaddr.
Proof. solve_decision. Defined.

Definition zero_Socksaddr : Socksaddr := MkSocksaddr addr_zero 0 "".

(** The documented behaviour of the zero address: it is not valid. *)
Class SocksaddrLaws {X : External} (S : SocksaddrOps) := {
  IsValid_zero : Socksaddr_IsValid zero_Socksaddr = false;
  IsValid_IsDomain : forall a, Socksaddr_IsDomain a = true -> Socksaddr_IsValid a = true;
  IsDomain_Fqdn : forall d p, d <> ""%string -> Socksaddr_IsDomain (MkSocksaddr addr_zero p d) = true
}.

(** ** Constants (constant/rule.go, constant/protocol.go) *)

Definition RuleActionTypeRoute : string := "route".
Definition RuleActionTypeRouteOptions : string := "route-options".
Definition RuleActionTypeDirect : string := "direct".
Definition RuleActionTypeBypass : string := "bypass".
Definition RuleActionTypeReject : string := "reject".
Definition RuleActionTypeHijackDNS : string := "hijack-dns".
Definition RuleActionTypeSniff : string := "sniff".
Definition RuleActionTypeResolve : string := "resolve".

Definition RuleActionRejectMethodDefault : string := "default".
Definition RuleActionRejectMethodDrop : string := "drop".
Definition RuleActionRejectMethodReply : string := "reply".

(** ** common/tlsspoof/spoof.go *)

Definition MethodWrongSequence : Z := 0.
Definition MethodWrongChecksum : Z := 1.
Definition MethodWrongAcknowledgment : Z := 2.
Definition MethodWrongMD5Sig : Z := 3.
Definition MethodWrongTimestamp : Z := 4.

Definition ParseMethod (s : string) : outcome Z :=
  if bool_decide (s = "" \/ s = "wrong-sequence")%string then Ok MethodWrongSequence
  else if bool_decide (s = "wrong-checksum")%string then Ok MethodWrongChecksum
  else if bool_decide (s = "wrong-ack")%string then Ok MethodWrongAcknowledgment
  else if bool_decide (s = "wrong-md5")%string then Ok MethodWrongMD5Sig
  else if bool_decide (s = "wrong-timestamp")%string then Ok MethodWrongTimestamp
  else Err (ENew ("tls_spoof: unknown method: " ++ s)).

Definition Method_String (m : Z) : string :=
  if m =? MethodWrongSequence then "wrong-sequence"
  else if m =? MethodWrongChecksum then "wrong-checksum"
  else if m =? MethodWrongAcknowledgment then "wrong-ack"
  else if m =? MethodWrongMD5Sig then "wrong-md5"
  else if m =? MethodWrongTimestamp then "wrong-timestamp"
  else "unknown".

Definition ParseOptions (PlatformSupported : bool) (spoof method : string) : outcome (string * Z) :=
  if bool_decide (spoof = ""%string) then
    if negb (bool_decide (method = ""%string)) then Err (ENew "spoof_method requires spoof")
    else Ok (""%string, 0)
  else if negb PlatformSupported then Err (ENew "tls_spoof is not supported on this platform")
  else let* parsedMethod := ParseMethod method in Ok (spoof, parsedMethod).

(** ** Action options (option/rule_action.go) *)

Record RawRouteOptionsActionOptions := MkRawRouteOptions {
  raw_OverrideAddress : string;
  raw_OverridePort : Z;
  raw_NetworkStrategy : option Z;
  raw_FallbackDelay : Z;
  raw_UDPDisableDomainUnmapping : bool;
  raw_UDPConnect : bool;
  raw_UDPTimeout : Z;
  raw_TLSFragment : bool;
  raw_TLSFragmentFallbackDelay : Z;
  raw_TLSRecordFragment : bool;
  raw_TLSSpoof : string;
  raw_TLSSpoofMethod : string
}.

#[export] Instance RawRouteOptions_eq_dec : EqDecision RawRouteOptionsActionOptions.
Proof. solve_decision. Defined.

Definition zero_RawRouteOptions : RawRouteOptionsActionOptions :=
  MkRawRouteOptions "" 0 None 0 false false 0 false 0 false "" "".

(** [RouteOptionsActionOptions.UnmarshalJSON], after the fields are decoded. *)
Definition RouteOptionsActionOptions_Unmarshal (r : RawRouteOptionsActionOptions)
    : outcome RawRouteOptionsActionOptions :=
  if bool_decide (r = zero_RawRouteOptions) then Err (ENew "empty route option action")
  else if raw_TLSFragment r && raw_TLSRecordFragment r
  then Err (ENew "`tls_fragment` and `tls_record_fragment` are mutually exclusive")
  else Ok r.

Record RejectActionOptions := MkRejectOptions { rj_Method : string; rj_NoDrop : bool }.

Definition RejectActionOptions_Unmarshal (r : RejectActionOptions) : outcome RejectActionOptions :=
  let* method :=
    if bool_decide (rj_Method r = "" \/ rj_Method r = RuleActionRejectMethodDefault)%string
    then Ok RuleActionRejectMethodDefault
    else if bool_decide (rj_Method r = RuleActionRejectMethodDrop) then Ok (rj_Method r)
    else if bool_decide (rj_Method r = RuleActionRejectMethodReply) then Ok (rj_Method r)
    else Err (ENew ("unknown reject method: " ++ rj_Method r)) in
  if bool_decide (method = RuleActionRejectMethodDrop) && rj_NoDrop r
  then Err (ENew "no_drop is not available in current context")
  else Ok (MkRejectOptions method (rj_NoDrop r)).

Definition RejectActionOptions_Marshal (r : RejectActionOptions) : RejectActionOptions :=
  if bool_decide (rj_Method r = RuleActionRejectMethodDefault)
  then MkRejectOptions "" (rj_NoDrop r) else r.

Record RouteActionSniff := MkRouteActionSniff { so_Sniffer : list string; so_Timeout : Z }.

Record RouteActionResolve := MkRouteActionResolve {
  rs_Server : string;
  rs_Timeout : Z;
  rs_Strategy : Z;
  rs_DisableCache : bool;
  rs_DisableOptimisticCache : bool;
  rs_RewriteTTL : option Z;
  rs_ClientSubnet : option Prefix
}.

(** [option.RuleAction]: the action name and the options of every kind; the
    options of the direct action are those of a dialer. *)
Record RuleActionOptions (DialerOptions : Type) := MkRuleActionOptions {
  ra_Action : string;
  ra_RouteOutbound : string;
  ra_RouteOptions : RawRouteOptionsActionOptions;
  ra_RouteOptionsOptions : RawRouteOptionsActionOptions;
  ra_DirectOptions : DialerOptions;
  ra_BypassOutbound : string;
  ra_BypassOptions : RawRouteOptionsActionOptions;
  ra_RejectOptions : RejectActionOptions;
  ra_SniffOptions : RouteActionSniff;
  ra_ResolveOptions : RouteActionResolve
}.
Arguments ra_Action {_} _. Arguments ra_RouteOutbound {_} _. Arguments ra_RouteOptions {_} _.
Arguments ra_RouteOptionsOptions {_} _. Arguments ra_DirectOptions {_} _. Arguments ra_BypassOutbound {_} _.
Arguments ra_BypassOptions {_} _. Arguments ra_RejectOptions {_} _. Arguments ra_SniffOptions {_} _.
Arguments ra_ResolveOptions {_} _.

(** ** Actions (route/rule/rule_action.go) *)

Record RuleActionRouteOptions := MkRouteOptions {
  ro_OverrideAddress : Socksaddr;
  ro_OverridePort : Z;
  ro_NetworkStrategy : option Z;
  ro_NetworkType : list Z;
  ro_FallbackNetworkType : list Z;
  ro_FallbackDelay : Z;
  ro_UDPDisableDomainUnmapping : bool;
  ro_UDPConnect : bool;
  ro_UDPTimeout : Z;
  ro_TLSFragment : bool;
  ro_TLSFragmentFallbackDelay : Z;
  ro_TLSRecordFragment : bool;
  ro_TLSSpoof : string;
  ro_TLSSpoofMethod : Z
}.

(** The sniffers of common/sniff by name. *)
Definition ErrNeedMoreData : error := ENew "need more data".
Inductive StreamSniffer := TLSClientHello | HTTPHost | StreamDomainNameQuery | BitTorrent | SSH | RDP.
Inductive PacketSniffer :=
  DomainNameQuery | QUICClientHello | STUNMessage | UTP | UDPTracker | DTLSRecord | NTP.

Record SniffAction := MkSniffAction {
  sa_SnifferNames : list string;
  sa_StreamSniffers : list StreamSniffer;
  sa_PacketSniffers : list PacketSniffer;
  sa_Timeout : Z;
  sa_OverrideDestination : bool
}.

Record ResolveAction := MkResolveAction {
  rv_Server : string;
  rv_Timeout : Z;
  rv_Strategy : Z;
  rv_DisableCache : bool;
  rv_DisableOptimisticCache : bool;
  rv_RewriteTTL : option Z;
  rv_ClientSubnet : Prefix
}.

Inductive RuleAction :=
| RuleActionRoute (Outbound : string) (options : RuleActionRouteOptions)
| RuleActionOptionsOnly (options : RuleActionRouteOptions)
| RuleActionBypass (Outbound : string) (options : RuleActionRouteOptions)
| RuleActionDirect
| RuleActionReject (Method : string) (NoDrop : bool)
| RuleActionHijackDNS
| RuleActionSniff (action : SniffAction)
| RuleActionResolve (action : ResolveAction).

(** The [Type] methods. *)
Definition RuleAction_Type (a : RuleAction) : string :=
  match a with
  | RuleActionRoute _ _ => RuleActionTypeRoute
  | RuleActionOptionsOnly _ => RuleActionTypeRouteOptions
  | RuleActionBypass _ _ => RuleActionTypeBypass
  | RuleActionDirect => RuleActionTypeDirect
  | RuleActionReject _ _ => RuleActionTypeReject
  | RuleActionHijackDNS => RuleActionTypeHijackDNS
  | RuleActionSniff _ => RuleActionTypeSniff
  | RuleActionResolve _ => RuleActionTypeResolve
  end.

(** [RuleActionSniff.build]: the sniffers of one name. *)
Definition sniffers_of (name : string) : outcome (list StreamSniffer * list PacketSniffer) :=
  if bool_decide (name = "tls")%string then Ok ([TLSClientHello], [])
  else if bool_decide (name = "http")%string then Ok ([HTTPHost], [])
  else if bool_decide (name = "quic")%string then Ok ([], [QUICClientHello])
  else if bool_decide (name = "dns")%string then Ok ([StreamDomainNameQuery], [DomainNameQuery])
  else if bool_decide (name = "stun")%string then Ok ([], [STUNMessage])
  else if bool_decide (name = "bittorrent")%string then Ok ([BitTorrent], [UTP; UDPTracker])
  else if bool_decide (name = "dtls")%string then Ok ([], [DTLSRecord])
  else if bool_decide (name = "ssh")%string then Ok ([SSH], [])
  else if bool_decide (name = "rdp")%string then Ok ([RDP], [])
  else if bool_decide (name = "ntp")%string then Ok ([], [NTP])
  else Err (ENew ("unknown sniffer: " ++ name)).

Fixpoint sniff_build (names : list string) (stream : list StreamSniffer) (packet : list PacketSniffer)
    : outcome (list StreamSniffer * list PacketSniffer) :=
  match names with
  | [] => Ok (stream, packet)
  | name :: names =>
      let* (s, p) := sniffers_of name in
      sniff_build names (stream ++ s) (packet ++ p)
  end.

Section NewRuleAction.
  Context {X : External} {S : SocksaddrOps}.
  Context (PlatformSupported : bool).
  Context {DialerOptions : Type} (dialer_New : DialerOptions -> option error).

Definition newRuleActionRouteOptions (options : RawRouteOptionsActionOptions) : outcome RuleActionRouteOptions :=
  let* (spoof, spoofMethod) := ParseOptions PlatformSupported (raw_TLSSpoof options) (raw_TLSSpoofMethod options) in
  Ok {| ro_OverrideAddress := ParseSocksaddrHostPort (raw_OverrideAddress options) 0;
        ro_OverridePort := raw_OverridePort options;
        ro_NetworkStrategy := raw_NetworkStrategy options;
        ro_NetworkType := [];
        ro_FallbackNetworkType := [];
        ro_FallbackDelay := raw_FallbackDelay options;
        ro_UDPDisableDomainUnmapping := raw_UDPDisableDomainUnmapping options;
        ro_UDPConnect := raw_UDPConnect options;
        ro_UDPTimeout := raw_UDPTimeout options;
        ro_TLSFragment := raw_TLSFragment options;
        ro_TLSFragmentFallbackDelay := raw_TLSFragmentFallbackDelay options;
        ro_TLSRecordFragment := raw_TLSRecordFragment options;
        ro_TLSSpoof := spoof;
        ro_TLSSpoofMethod := spoofMethod |}.

Definition NewRuleAction (action : RuleActionOptions DialerOptions) : outcome (option RuleAction) :=
  let name := ra_Action action in
  if bool_decide (name = ""%string) then Ok None
  else if bool_decide (name = RuleActionTypeRoute) then
    let* routeOptions := newRuleActionRouteOptions (ra_RouteOptions action) in
    Ok (Some (RuleActionRoute (ra_RouteOutbound action) routeOptions))
  else if bool_decide (name = RuleActionTypeRouteOptions) then
    let* routeOptions := newRuleActionRouteOptions (ra_RouteOptionsOptions action) in
    Ok (Some (RuleActionOptionsOnly routeOptions))
  else if bool_decide (name = RuleActionTypeBypass) then
    let* routeOptions := newRuleActionRouteOptions (ra_BypassOptions action) in
    Ok (Some (RuleActionBypass (ra_BypassOutbound action) routeOptions))
  else if bool_decide (name = RuleActionTypeDirect) then
    match dialer_New (ra_DirectOptions action) with
    | Some e => Err e
    | None => Ok (Some RuleActionDirect)
    end
  else if bool_decide (name = RuleActionTypeReject) then
    Ok (Some (RuleActionReject (rj_Method (ra_RejectOptions action)) (rj_NoDrop (ra_RejectOptions action))))
  else if bool_decide (name = RuleActionTypeHijackDNS) then Ok (Some RuleActionHijackDNS)
  else if bool_decide (name = RuleActionTypeSniff) then
    let o := ra_SniffOptions action in
    let* (stream, packet) := sniff_build (so_Sniffer o) [] [] in
    Ok (Some (RuleActionSniff (MkSniffAction (so_Sniffer o) stream packet (so_Timeout o) false)))
  else if bool_decide (name = RuleActionTypeResolve) then
    let o := ra_ResolveOptions action in
    Ok (Some (RuleActionResolve
      {| rv_Server := rs_Server o;
         rv_Timeout := rs_Timeout o;
         rv_Strategy := rs_Strategy o;
         rv_DisableCache := rs_DisableCache o;
         rv_DisableOptimisticCache := rs_DisableOptimisticCache o;
         rv_RewriteTTL := rs_RewriteTTL o;
         rv_ClientSubnet := Prefixable_Build (rs_ClientSubnet o) prefix_zero |}))
  else Panic ("unknown rule action: " ++ name).
End NewRuleAction.

(** ** The reject action *)

(** [RejectedError] with its cause. *)
Inductive RejectedError := ErrReset | ErrDrop.

#[export] Instance RejectedError_eq_dec : EqDecision RejectedError.
Proof. solve_decision. Defined.

(** [time.Time.Sub], which saturates. *)
Definition time_Sub (t u : Z) : Z := Z.max (- 2 ^ 63) (Z.min (2 ^ 63 - 1) (t - u)).

Definition reject_window : Z := 30 * 10 ^ 9.

(** [RuleActionReject.Error] at the time [now], with the [dropCounter]. *)
Definition RuleActionReject_Error (Method : string) (NoDrop : bool) (now : Z) (dropCounter : list Z)
    : outcome (option RejectedError * list Z) :=
  if bool_decide (Method = RuleActionRejectMethodDrop) then Ok (Some ErrDrop, dropCounter)
  else if bool_decide (Method = RuleActionRejectMethodReply) then Ok (None, dropCounter)
  else if negb (bool_decide (Method = RuleActionRejectMethodDefault))
  then Panic ("unknown reject method: " ++ Method)
  else if NoDrop then Ok (Some ErrReset, dropCounter)
  else
    let dropCounter := filter (fun t => time_Sub now t <= reject_window) dropCounter in
    let dropCounter := dropCounter ++ [now] in
    if 50 <? zlen dropCounter then Ok (Some ErrDrop, dropCounter)
    else Ok (Some ErrReset, dropCounter).

(** * Rule actions: flood control, options

    The reject action answers at most 50 connections in any 30 seconds with a
    reset and drops the others; the options of an action survive the
    configuration's round trip. *)

(** ** Flood control *)

Lemma time_Sub_window now t : time_Sub now t <= reject_window <-> now - t <= reject_window.
Proof. unfold time_Sub, reject_window. lia. Qed.

(** Calls of one reject action with the default method, at the given times. *)
Fixpoint reject_calls (times : list Z) (dropCounter : list Z) : outcome (list (Z * option RejectedError) * list Z) :=
  match times with
  | [] => Ok ([], dropCounter)
  | t :: times =>
      let* (r, dropCounter) := RuleActionReject_Error RuleActionRejectMethodDefault false t dropCounter in
      let* (l, dropCounter) := reject_calls times dropCounter in
      Ok ((t, r) :: l, dropCounter)
  end.

(** The calls of the last 30 seconds at the time [now]. *)
Definition recent (now : Z) (times : list Z) : list Z := filter (fun t => now - t <= reject_window) times.

Definition reject_answer (n : Z) : option RejectedError := Some (if 50 <? n then ErrDrop else ErrReset).

Lemma reject_Error_default now counter :
  RuleActionReject_Error RuleActionRejectMethodDefault false now counter =
  Ok (reject_answer (zlen (recent now counter ++ [now])), recent now counter ++ [now]).
Proof.
  unfold RuleActionReject_Error, recent, reject_answer. cbn -[reject_window].
  rewrite (list_filter_iff _ (fun t => now - t <= reject_window) counter) by (intros; apply time_Sub_window).
  by destruct (50 <? _).
Qed.

Lemma recent_recent now last times : last <= now -> recent now (recent last times) = recent now times.
Proof.
  intros Hle. unfold recent. induction times as [|t times IH]; [done|]. rewrite !filter_cons.
  destruct (decide (last - t <= reject_window)); rewrite ?filter_cons; case_decide; rewrite ?IH; done || lia.
Qed.

Lemma recent_app now a b : recent now (a ++ b) = recent now a ++ recent now b.
Proof. apply filter_app. Qed.

(** One more call after a sequence of calls in the order of time. *)
Lemma reject_calls_snoc times : forall t,
  Sorted Z.le (times ++ [t]) ->
  exists l, reject_calls times [] = Ok (l, default [] ((fun u => recent u times) <$> last times)) /\ l.*1 = times /\
    reject_calls (times ++ [t]) [] =
      Ok (l ++ [(t, reject_answer (zlen (recent t (times ++ [t]))))], recent t (times ++ [t])).
Proof.
  assert (forall ts1 ts2 c, reject_calls (ts1 ++ ts2) c =
     let* (l1, c) := reject_calls ts1 c in let* (l2, c) := reject_calls ts2 c in Ok (l1 ++ l2, c)) as Happ.
  { induction ts1 as [|t1 ts1 IH]; intros ts2 c; cbn [app reject_calls obind].
    { by destruct (reject_calls ts2 c) as [[] | | |]. }
    rewrite reject_Error_default. cbn [obind]. rewrite IH.
    destruct (reject_calls ts1 _) as [[l1 c1]| | |]; cbn [obind]; [|done..].
    by destruct (reject_calls ts2 c1) as [[l2 c2]| | |]. }
  assert (forall t u, recent t [u] = if decide (t - u <= reject_window) then [u] else []) as Hone.
  { intros t u. unfold recent. rewrite filter_cons. done. }
  induction times as [|u times IH] using rev_ind; intros t Hs.
  - exists []. split_and!; [done|done|]. cbn [app reject_calls]. rewrite reject_Error_default. cbn [obind app].
    rewrite Hone, decide_True by (unfold reject_window; lia). done.
  - assert (Sorted Z.le (times ++ [u]) /\ u <= t) as [Hs' Hut].
    { apply Sorted_StronglySorted in Hs; [|intros ???; lia].
      assert (forall l1 l2, StronglySorted Z.le (l1 ++ l2) -> StronglySorted Z.le l1) as Hpre.
      { induction l1; intros l2 H; [constructor|]. inversion H; subst. constructor; [eauto|].
        by apply Forall_app in H3 as [? _]. }
      split; [by apply StronglySorted_Sorted, (Hpre _ [t])|].
      clear -Hs. induction times as [|x times IH]; cbn in Hs; inversion Hs; subst; [by inversion H2|eauto]. }
    destruct (IH u Hs') as (l & _ & Hl & Hcalls). rewrite last_snoc. cbn [fmap option_fmap option_map default].
    eexists. split; [exact Hcalls|]. split; [rewrite fmap_app, Hl; done|].
    rewrite (Happ (times ++ [u]) [t]), Hcalls. cbn [obind reject_calls]. rewrite reject_Error_default. cbn [obind].
    rewrite recent_recent by done. rewrite (recent_app t (times ++ [u])), (Hone t t).
    rewrite decide_True by (unfold reject_window; lia). done.
Qed.

(** The calls answered with a reset between [from] and 30 seconds later. *)
Definition resets_in (from : Z) (l : list (Z * option RejectedError)) : list (Z * option RejectedError) :=
  filter (fun p => from <= fst p <= from + reject_window /\ snd p = Some ErrReset) l.

Lemma resets_recent from t l :
  t <= from + reject_window -> zlen (resets_in from l) <= zlen (recent t l.*1).
Proof.
  intros Ht. unfold resets_in, recent. induction l as [|[u r] l IH]; [done|]. cbn [fmap list_fmap fst].
  rewrite !filter_cons. cbn [fst snd]. repeat case_decide; rewrite ?zlen_cons; lia.
Qed.

Lemma resets_snoc from l t r :
  zlen (resets_in from l) <= 50 -> (r = Some ErrReset -> zlen (recent t l.*1) + 1 <= 50) ->
  zlen (resets_in from (l ++ [(t, r)])) <= 50.
Proof.
  intros Hl Hr. unfold resets_in. rewrite filter_app, zlen_app, filter_cons. cbn [fst snd]. case_decide as Hc.
  - destruct Hc as [Hc Hreset]. pose proof (resets_recent from t l ltac:(lia)) as H. unfold resets_in in H.
    specialize (Hr Hreset). rewrite filter_nil. change (zlen [(t, r)]) with 1. lia.
  - rewrite filter_nil. change (zlen []) with 0. unfold resets_in in Hl. lia.
Qed.

Lemma resets_bound times : Sorted Z.le times ->
  exists l c, reject_calls times [] = Ok (l, c) /\ forall from, zlen (resets_in from l) <= 50.
Proof.
  induction times as [|t times IH] using rev_ind; intros Hs; [by exists [], []|].
  destruct (reject_calls_snoc times t Hs) as (l & Hl0 & Hl & ->). eexists _, _. split; [done|].
  destruct IH as (l' & c & Hl' & Hb).
  { clear -Hs. induction times as [|x times IH]; [constructor|]. cbn in Hs. inversion Hs as [|? ? Hs' Hx]; subst.
    constructor; [auto|]. destruct times; constructor. by inversion Hx. }
  rewrite Hl' in Hl0. injection Hl0 as -> _. intros from. apply resets_snoc; [done|].
  unfold reject_answer. rewrite Hl, recent_app, zlen_app.
  assert (recent t [t] = [t]) as -> by (unfold recent; rewrite filter_cons, decide_True by (unfold reject_window; lia); done).
  change (zlen [t]) with 1. destruct (Z.ltb_spec 50 (zlen (recent t times) + 1)); [done|lia].
Qed.

(** C35: the flood control of the reject action with the default method and without
    [no_drop]: for calls in the order of time the last answer is a drop exactly when more
    than 50 calls, itself included, were made in the last 30 seconds, and a reset otherwise;
    the counter then holds exactly the times of these calls; so in no span of 30 seconds are
    more than 50 connections answered with a reset. *)
Theorem reject_flood_control times t :
  Sorted Z.le (times ++ [t]) ->
  let window := recent t (times ++ [t]) in
  exists l, reject_calls (times ++ [t]) [] = Ok (l ++ [(t, Some (if 50 <? zlen window then ErrDrop else ErrReset))], window)
    /\ l.*1 = times
    /\ forall from, zlen (resets_in from (l ++ [(t, Some (if 50 <? zlen window then ErrDrop else ErrReset))])) <= 50.
Proof.
  intros Hs window. destruct (reject_calls_snoc _ t Hs) as (l & _ & Hl & Hcalls).
  destruct (resets_bound _ Hs) as (l' & c & Hl' & Hb). rewrite Hcalls in Hl'. injection Hl' as <- <-. by exists l.
Qed.

Lemma reject_flood_control_witness :
  exists l, reject_calls (replicate 50 7 ++ [8]) [] = Ok (l ++ [(8, Some ErrDrop)], replicate 50 7 ++ [8])
    /\ zlen (resets_in 0 (l ++ [(8, Some ErrDrop)])) <= 50.
Proof.
  destruct (reject_flood_control (replicate 50 7) 8) as (l & H1 & _ & H2).
  - cbn. repeat constructor; discriminate.
  - exists l. split; [exact H1|exact (H2 0)].
Defined.

(** ** Options *)

Lemma reject_options_cases r r' :
  RejectActionOptions_Unmarshal r = Ok r' ->
  rj_Method r' = RuleActionRejectMethodDefault \/ rj_Method r' = RuleActionRejectMethodReply \/
  r' = MkRejectOptions RuleActionRejectMethodDrop false.
Proof.
  unfold RejectActionOptions_Unmarshal. destruct r as [m n]. cbn [rj_Method rj_NoDrop]. intros H.
  repeat case_bool_decide; inv_ok; try discriminate; subst; destruct n; try discriminate;
    injection H as <-; cbn; auto.
Qed.

(** The method of a reject action that comes from a configuration is one that
    [Error] knows, and writing the options and reading them again gives the same
    action. *)
Lemma reject_options_roundtrip r r' :
  RejectActionOptions_Unmarshal r = Ok r' ->
  RejectActionOptions_Unmarshal (RejectActionOptions_Marshal r') = Ok r' /\
  forall now counter, exists e c, RuleActionReject_Error (rj_Method r') (rj_NoDrop r') now counter = Ok (e, c).
Proof.
  intros H%reject_options_cases. destruct r' as [m n]. cbn [rj_Method rj_NoDrop] in *.
  destruct H as [->|[->|[= -> ->]]]; [destruct n..|]; (split; [reflexivity|]);
    intros now counter; unfold RuleActionReject_Error; cbn; try (by eauto).
  destruct (50 <? _); eauto.
Qed.

Lemma method_roundtrip s m : ParseMethod s = Ok m -> ParseMethod (Method_String m) = Ok m.
Proof.
  intros H. assert (m = 0 \/ m = 1 \/ m = 2 \/ m = 3 \/ m = 4) as Hm.
  { unfold ParseMethod in H. repeat case_bool_decide; inv_ok; auto 6. }
  by destruct Hm as [->|[->|[->|[->| ->]]]].
Qed.
