(* ===== verification/Router.v ===== *)
(** * The router

    route/route.go, route/process_cache.go and common/sniff/sniff.go: the loop over
    the rules with the actions that change the connection's metadata, sniffing and
    resolving, the choice of the outbound for streams and packets, and the
    pre-match of flows.

    What the router calls is the record [RouterDeps]: outbound and inbound managers,
    DNS, the FakeIP store, neighbor and process search, and the sniffers.  Reading
    from a connection is a list of events, consumed one by one; when it is empty
    the read times out.  Logging is left out. *)

From S2P Require Import Prelude GoStd Netip External RuleItems RuleMatch RuleAction.
From coqutil Require Import Datatypes.RecordSetters.
Import DoubleBraceUpdate.
Local Open Scope Z_scope.

Section Router.
Context {X : External} {SO : SocksaddrOps}.
(** What sniffers keep between packets ([SniffContext any]). *)
Context {SniffContext : Type}.

(** ** State *)

(** [adapter.InboundContext]: the fields rules read, and the others. *)
Record RouteContext := MkRouteContext {
  rc_md : InboundContext;
  rc_InboundType : string;
  rc_SniffContext : option SniffContext;
  rc_SnifferNames : list string;
  rc_SniffError : option (list error);
  rc_InboundDetour : string;
  rc_LastInbound : string;
  rc_OriginDestination : Socksaddr;
  rc_RouteOriginalDestination : Socksaddr;
  rc_UDPDisableDomainUnmapping : bool;
  rc_UDPConnect : bool;
  rc_UDPTimeout : Z;
  rc_TLSFragment : bool;
  rc_TLSFragmentFallbackDelay : Z;
  rc_TLSRecordFragment : bool;
  rc_TLSSpoof : string;
  rc_TLSSpoofMethod : Z;
  rc_NetworkStrategy : option Z;
  rc_NetworkType : list Z;
  rc_FallbackNetworkType : list Z;
  rc_FallbackDelay : Z;
  rc_FakeIP : bool
}.

Abbreviation rc_Destination rc := (md_Destination (rc_md rc)).

Inductive PreMatchAction :=
  PreMatchContinue | PreMatchFlow | PreMatchReject | PreMatchDrop | PreMatchBypass | PreMatchHijackDNS.

(** An outbound as the router sees it: a group has the tag it selected
    ([OutboundGroup.Now]), a flow outbound its [PreMatchFlow]. *)
Record RouteOutbound := MkRouteOutbound {
  ob_Tag : string;
  ob_Network : list string;
  ob_Now : option string;
  ob_PreMatchFlow : option (string -> Addr -> PreMatchAction)
}.

(** Reading from a connection: the results of the calls, in order. *)
Inductive read_event := ReadData (b : bytes) | ReadErr (e : error) | DeadlineErr (e : error).
Inductive packet_event :=
| PacketData (b : bytes) (destination : Socksaddr)
| PacketErr (e : error) (timeout : bool)
| CtxDone (e : error).
Record PacketBuffer := MkPacketBuffer { pb_Buffer : bytes; pb_Destination : Socksaddr }.


(** What the router calls. *)
Record RouterDeps := {
  rd_world : World;
  rd_rules : list (Rule * RuleAction);
  (** outbound and inbound managers: the inbounds with whether they are TCP and UDP
      injectable *)
  rd_Outbound : string -> option RouteOutbound;
  rd_Default : RouteOutbound;
  rd_Inbound : string -> option (bool * bool);
  (** DNS: the transports by tag, lookups, reverse mapping *)
  rd_Transport : string -> bool;
  rd_Lookup : RouteContext -> ResolveAction -> error + list Addr;
  rd_LookupReverseMapping : Addr -> option string;
  (** the FakeIP store: [Contains] and [Lookup] *)
  rd_FakeIP : option ((Addr -> bool) * (Addr -> option string));
  (** neighbor resolver: [LookupMAC] and [LookupHostname] *)
  rd_neighborResolver : option ((Addr -> option bytes) * (Addr -> option string));
  (** process searcher, and the addresses of the platform's own interfaces *)
  rd_processSearcher : option (string -> Addr * Z -> Addr * Z -> error + ConnectionOwner);
  rd_MyInterfaceAddress : list Addr;
  (** sniffers *)
  rd_stream_sniffer : StreamSniffer -> RouteContext -> list bytes -> RouteContext * option error;
  rd_packet_sniffer : PacketSniffer -> RouteContext -> bytes -> RouteContext * option error;
  (** [bufio.NewCachedConn] and [bufio.NewCachedPacketConn] *)
  rd_NewCachedConn : list read_event -> bytes -> list read_event;
  rd_NewCachedPacketConn : list packet_event -> PacketBuffer -> list packet_event;
  (** the reserved names of multiplex and UoT *)
  rd_mux_Fqdn : string;
  rd_vmess_mux_Fqdn : string;
  rd_uot_MagicAddress : string;
  rd_uot_LegacyMagicAddress : string
}.

Context (rt : RouterDeps).

Definition NetworkTCP : string := "tcp".
Definition NetworkUDP : string := "udp".
Definition NetworkICMP : string := "icmp".

(** ** process_cache.go *)

(** [netip.Addr.IsLoopback]. *)
Definition IsLoopback (a : Addr) : bool :=
  match Unmap a with
  | Addr4 v => v / 2 ^ 24 =? 127
  | Addr6 v _ => v =? 1
  | AddrInvalid _ => false
  end.

Definition isLocalSource (source : Addr) : bool :=
  IsLoopback source
  || bool_decide (source ∈ rd_MyInterfaceAddress rt)
  || existsb (fun netInterface => existsb (fun prefix => bool_decide (p_addr prefix = source)) (if_Addresses netInterface))
       (w_Interfaces (rd_world rt)).

Definition searchProcessInfo (rc : RouteContext) : RouteContext :=
  match rd_processSearcher rt, md_ProcessInfo (rc_md rc) with
  | Some search, None =>
      if negb (isLocalSource (sa_Addr (md_Source (rc_md rc)))) then rc
      else
        let originDestination :=
          if Socksaddr_IsValid (rc_OriginDestination rc) then Socksaddr_AddrPort (rc_OriginDestination rc)
          else if Socksaddr_IsIP (rc_Destination rc) then Socksaddr_AddrPort (rc_Destination rc)
          else (addr_zero, 0) in
        match search (md_Network (rc_md rc)) (Socksaddr_AddrPort (md_Source (rc_md rc))) originDestination with
        | inr processInfo => rc {{ rc_md -> md_ProcessInfo := Some processInfo }}
        | inl _ => rc
        end
  | _, _ => rc
  end.

(** ** Preparing the metadata *)

Definition lookup_neighbor (rc : RouteContext) : RouteContext :=
  match rd_neighborResolver rt with
  | Some (LookupMAC, LookupHostname) =>
      let source := sa_Addr (md_Source (rc_md rc)) in
      if bool_decide (md_SourceMACAddress (rc_md rc) = None) && IsValid source then
        let rc := match LookupMAC source with
                  | Some mac => rc {{ rc_md -> md_SourceMACAddress := Some mac }}
                  | None => rc
                  end in
        match LookupHostname source with
        | Some hostname => rc {{ rc_md -> md_SourceHostname := hostname }}
        | None => rc
        end
      else rc
  | None => rc
  end.

Definition fakeip_contains (a : Addr) : bool :=
  match rd_FakeIP rt with Some (contains, _) => IsValid a && contains a | None => false end.
Definition fakeip_lookup (a : Addr) : option string :=
  match rd_FakeIP rt with Some (_, lookup) => lookup a | None => None end.

(** The part of [prepareMatchMetadata] that finds the domain of the destination. *)
Definition find_domain (rc : RouteContext) : error + RouteContext :=
  if fakeip_contains (sa_Addr (rc_Destination rc)) then
    match fakeip_lookup (sa_Addr (rc_Destination rc)) with
    | None => inl (ENew "missing fakeip record, try enable `experimental.cache_file`")
    | Some domain =>
        if bool_decide (domain = ""%string) then inr rc
        else inr (rc {{ rc_OriginDestination := rc_Destination rc;
                        rc_md -> md_Destination := MkSocksaddr addr_zero (sa_Port (rc_Destination rc)) domain;
                        rc_FakeIP := true }})
    end
  else if bool_decide (md_Domain (rc_md rc) = ""%string) then
    match rd_LookupReverseMapping rt (sa_Addr (rc_Destination rc)) with
    | Some domain => inr (rc {{ rc_md -> md_Domain := domain }})
    | None => inr rc
    end
  else inr rc.

Definition prepareMatchMetadata (rc : RouteContext) : error + RouteContext :=
  match find_domain (lookup_neighbor (searchProcessInfo rc)) with
  | inl e => inl e
  | inr rc =>
      inr (if Socksaddr_IsIPv4 (rc_Destination rc) then rc {{ rc_md -> md_IPVersion := 4 }}
           else if Socksaddr_IsIPv6 (rc_Destination rc) then rc {{ rc_md -> md_IPVersion := 6 }}
           else rc)
  end.

(** ** Route options *)

Definition applyRouteOptionsOverride (rc : RouteContext) (o : RuleActionRouteOptions) : RouteContext :=
  let rc := if Socksaddr_IsValid (ro_OverrideAddress o)
            then rc {{ rc_md -> md_Destination := MkSocksaddr (sa_Addr (ro_OverrideAddress o))
                         (sa_Port (rc_Destination rc)) (sa_Fqdn (ro_OverrideAddress o)) }}
            else rc in
  let rc := if 0 <? ro_OverridePort o
            then rc {{ rc_md -> md_Destination := MkSocksaddr (sa_Addr (rc_Destination rc))
                         (ro_OverridePort o) (sa_Fqdn (rc_Destination rc)) }}
            else rc in
  if 0 <? ro_UDPTimeout o then rc {{ rc_UDPTimeout := ro_UDPTimeout o }} else rc.

(** The block [if routeOptions != nil] of [matchRule]. *)
Definition apply_route_options (rc : RouteContext) (o : RuleActionRouteOptions) : RouteContext :=
  let rc := if (Socksaddr_IsValid (ro_OverrideAddress o) || (0 <? ro_OverridePort o))
               && negb (Socksaddr_IsValid (rc_RouteOriginalDestination rc))
            then rc {{ rc_RouteOriginalDestination := rc_Destination rc }} else rc in
  let rc := if Socksaddr_IsValid (ro_OverrideAddress o)
            then rc {{ rc_md -> md_DestinationAddresses := [] }} else rc in
  let rc := applyRouteOptionsOverride rc o in
  let rc := match ro_NetworkStrategy o with
            | Some s => rc {{ rc_NetworkStrategy := Some s }}
            | None => rc
            end in
  let rc := if 0 <? zlen (ro_NetworkType o) then rc {{ rc_NetworkType := ro_NetworkType o }} else rc in
  let rc := if 0 <? zlen (ro_FallbackNetworkType o)
            then rc {{ rc_FallbackNetworkType := ro_FallbackNetworkType o }} else rc in
  let rc := if negb (ro_FallbackDelay o =? 0) then rc {{ rc_FallbackDelay := ro_FallbackDelay o }} else rc in
  let rc := if ro_UDPDisableDomainUnmapping o then rc {{ rc_UDPDisableDomainUnmapping := true }} else rc in
  let rc := if ro_UDPConnect o then rc {{ rc_UDPConnect := true }} else rc in
  let rc := if 0 <? ro_UDPTimeout o then rc {{ rc_UDPTimeout := ro_UDPTimeout o }} else rc in
  let rc := if ro_TLSFragment o
            then rc {{ rc_TLSFragment := true; rc_TLSFragmentFallbackDelay := ro_TLSFragmentFallbackDelay o }}
            else rc in
  let rc := if ro_TLSRecordFragment o then rc {{ rc_TLSRecordFragment := true }} else rc in
  if negb (bool_decide (ro_TLSSpoof o = ""%string))
  then rc {{ rc_TLSSpoof := ro_TLSSpoof o; rc_TLSSpoofMethod := ro_TLSSpoofMethod o }} else rc.

(** [routeOptions] of the first [switch] of [matchRule]. *)
Definition route_options_of (a : RuleAction) : option RuleActionRouteOptions :=
  match a with
  | RuleActionRoute _ o => Some o
  | RuleActionOptionsOnly o => Some o
  | RuleActionBypass outbound o => if negb (bool_decide (outbound = ""%string)) then Some o else None
  | _ => None
  end.

(** ** Sniffing (common/sniff/sniff.go) *)

(** [errors.Is(err, ErrNeedMoreData)] of a combined error. *)
Definition needs_more (e : option (list error)) : bool :=
  match e with Some l => existsb (fun e => errors_Is e ErrNeedMoreData) l | None => false end.

(** [E.Errors]: nil when there is no error. *)
Definition E_Errors (l : list error) : option (list error) := match l with [] => None | _ => Some l end.

Definition Skip (rc : RouteContext) : bool :=
  bool_decide (sa_Port (rc_Destination rc) ∈ [25; 465; 587; 143; 993; 110; 995]).

Definition read_timeout : error := EExternal "i/o timeout".

Fixpoint run_stream_sniffers (l : list StreamSniffer) (data : list bytes) (errs : list error) (rc : RouteContext)
    : RouteContext * option (list error) :=
  match l with
  | [] => (rc, E_Errors errs)
  | sniffer :: l =>
      match rd_stream_sniffer rt sniffer rc data with
      | (rc, None) => (rc, None)
      | (rc, Some e) => run_stream_sniffers l data (errs ++ [e]) rc
      end
  end.

(** The loop of [PeekStream]: [first] is [i == 0].  A sniffer reads an [io.MultiReader] over the
    buffers; a read into a full buffer is a read that fails. *)
Fixpoint PeekStream_loop (reads : list read_event) (first : bool) (buffers : list bytes) (buffer : bytes)
    (sniffError : option (list error)) (sniffers : list StreamSniffer) (rc : RouteContext)
    : RouteContext * bytes * list read_event * option (list error) :=
  let failed e reads := (rc, buffer, reads, if first then Some [ECause e "read payload"] else sniffError) in
  match reads with
  | [] => failed read_timeout []
  | DeadlineErr e :: reads => (rc, buffer, reads, Some [ECause e "set read deadline"])
  | ReadErr e :: reads => failed e reads
  | ReadData b :: reads =>
      let buffer := buffer ++ b in
      let (rc, sniffError) := run_stream_sniffers sniffers (buffers ++ [buffer]) [] rc in
      if needs_more sniffError then PeekStream_loop reads false buffers buffer sniffError sniffers rc
      else (rc, buffer, reads, sniffError)
  end.

Fixpoint PeekPacket_errs (l : list PacketSniffer) (packet : bytes) (errs : list error) (rc : RouteContext)
    : RouteContext * option (list error) :=
  match l with
  | [] => (rc, E_Errors errs)
  | sniffer :: l =>
      match rd_packet_sniffer rt sniffer rc packet with
      | (rc, None) => (rc, None)
      | (rc, Some e) => PeekPacket_errs l packet (errs ++ [e]) rc
      end
  end.
Definition PeekPacket (rc : RouteContext) (packet : bytes) (sniffers : list PacketSniffer)
    : RouteContext * option (list error) := PeekPacket_errs sniffers packet [] rc.

Definition defaultPacketSniffers : list PacketSniffer :=
  [DomainNameQuery; QUICClientHello; STUNMessage; UTP; UDPTracker; DTLSRecord; NTP].
Definition defaultStreamSniffers : list StreamSniffer :=
  [TLSClientHello; HTTPHost; StreamDomainNameQuery; BitTorrent; SSH; RDP].
Definition or_default {A} (l d : list A) : list A := match l with [] => d | _ => l end.

(** [metadata.SnifferNames = ...; metadata.SniffError = err]. *)
Definition set_sniffed (rc : RouteContext) (a : SniffAction) (err : option (list error)) : RouteContext :=
  rc {{ rc_SnifferNames := sa_SnifferNames a; rc_SniffError := err }}.

(** The deprecated [OverrideDestination], after a success. *)
Definition override_destination (rc : RouteContext) (a : SniffAction) : RouteContext :=
  if sa_OverrideDestination a && IsDomainName (md_Domain (rc_md rc))
  then rc {{ rc_md -> md_Destination := MkSocksaddr addr_zero (sa_Port (rc_Destination rc)) (md_Domain (rc_md rc)) }}
  else rc.

(** The label [finally]. *)
Definition finally (rc : RouteContext) (a : SniffAction) (err : option (list error)) : RouteContext :=
  match err with None => override_destination rc a | Some _ => rc end.

(** ** actionSniff *)

(** What a connection still delivers. *)
Inductive input := StreamInput (reads : list read_event) | PacketInput (events : list packet_event).

(** [metadata.SniffError != nil] from the same sniffers, other than a need for more data. *)
Definition sniff_failed_before (rc : RouteContext) (a : SniffAction) : bool :=
  bool_decide (rc_SnifferNames rc = sa_SnifferNames a)
  && negb (bool_decide (rc_SniffError rc = None)) && negb (needs_more (rc_SniffError rc)).

Definition quicMoreData (rc : RouteContext) (a : SniffAction) : bool :=
  bool_decide (rc_SnifferNames rc = sa_SnifferNames a) && needs_more (rc_SniffError rc).

(** One [PeekPacket] of [actionSniff]: QUIC only once it asked for more data. *)
Definition sniff_packet (rc : RouteContext) (a : SniffAction) (packet : bytes) : RouteContext * option (list error) :=
  let (rc', err) := PeekPacket rc packet
    (if quicMoreData rc a then [QUICClientHello] else or_default (sa_PacketSniffers a) defaultPacketSniffers) in
  (set_sniffed rc' a err, err).

(** The loop over the packets sniffed before: [Some] when it jumps to [finally]. *)
Fixpoint resniff (l : list PacketBuffer) (rc : RouteContext) (a : SniffAction)
    : RouteContext * option (option (list error)) :=
  match l with
  | [] => (rc, None)
  | p :: l =>
      let (rc, err) := sniff_packet rc a (pb_Buffer p) in
      if needs_more err then resniff l rc a else (rc, Some err)
  end.

(** The loop that reads packets. *)
Fixpoint sniff_packets (events : list packet_event) (rc : RouteContext) (a : SniffAction)
    (packetBuffers : list PacketBuffer) : RouteContext * list PacketBuffer * list packet_event * option error :=
  match events with
  | [] => (finally rc a (Some [read_timeout]), packetBuffers, [], None)
  | CtxDone e :: events => (rc, packetBuffers, events, Some e)
  | PacketErr e timeout :: events =>
      if timeout then (finally rc a (Some [e]), packetBuffers, events, None)
      else (rc, packetBuffers, events, Some e)
  | PacketData b destination :: events =>
      let (rc, err) := sniff_packet rc a b in
      let packetBuffers := packetBuffers ++ [MkPacketBuffer b destination] in
      if needs_more err then sniff_packets events rc a packetBuffers
      else (finally rc a err, packetBuffers, events, None)
  end.

(** The results: metadata, the buffer of a stream, packet buffers, the rest of the
    input, the fatal error. *)
Definition actionSniff (rc : RouteContext) (a : SniffAction) (inp : input)
    (inputBuffers : list bytes) (inputPacketBuffers : list PacketBuffer)
    : RouteContext * option bytes * list PacketBuffer * input * option error :=
  let nothing := (rc, None, [], inp, None) in
  if Skip rc then nothing
  else if negb (bool_decide (md_Protocol (rc_md rc) = ""%string)) then nothing
  else match inp with
  | StreamInput reads =>
      if (zlen (sa_StreamSniffers a) =? 0) && (0 <? zlen (sa_PacketSniffers a)) then nothing
      else if sniff_failed_before rc a then nothing
      else
        let '(rc, sniffBuffer, reads, err) :=
          PeekStream_loop reads true inputBuffers [] None (or_default (sa_StreamSniffers a) defaultStreamSniffers) rc in
        let rc := set_sniffed rc a err in
        (finally rc a err, (match sniffBuffer with [] => None | _ => Some sniffBuffer end), [], StreamInput reads, None)
  | PacketInput events =>
      if (zlen (sa_PacketSniffers a) =? 0) && (0 <? zlen (sa_StreamSniffers a)) then nothing
      else if sniff_failed_before rc a then nothing
      else match resniff inputPacketBuffers rc a with
      | (rc, Some err) => (finally rc a err, None, [], inp, None)
      | (rc, None) =>
          let '(rc, packetBuffers, events, fatal) := sniff_packets events rc a inputPacketBuffers in
          (rc, None, packetBuffers, PacketInput events, fatal)
      end
  end.

Definition actionResolve (rc : RouteContext) (a : ResolveAction) : error + RouteContext :=
  if negb (Socksaddr_IsDomain (rc_Destination rc)) then inr rc
  else if negb (bool_decide (rv_Server a = ""%string)) && negb (rd_Transport rt (rv_Server a))
  then inl (ENew ("DNS server not found: " ++ rv_Server a))
  else match rd_Lookup rt rc a with
       | inl e => inl e
       | inr addresses => inr (rc {{ rc_md -> md_DestinationAddresses := addresses }})
       end.

(** ** matchRule *)

Record MatchState := MkMatchState {
  ms_rc : RouteContext;
  ms_buffers : list bytes;
  ms_packets : list PacketBuffer;
  ms_input : input
}.

(** [currentRule.Match] after [ResetRuleCache]. *)
Definition rule_matches (rule : Rule) (rc : RouteContext) : bool * RouteContext :=
  let (matched, md) := rule_Match (rd_world rt) rule (ResetRuleCache (rc_md rc)) in
  (matched, rc {{ rc_md := md }}).

(** The two [switch] statements on the action: the state, and the fatal error. *)
Definition perform_action (a : RuleAction) (st : MatchState) : MatchState * option error :=
  let rc := match route_options_of a with
            | Some o => apply_route_options (ms_rc st) o
            | None => ms_rc st
            end in
  match a with
  | RuleActionSniff sa =>
      let '(rc, newBuffer, newPacketBuffers, inp, newErr) := actionSniff rc sa (ms_input st) (ms_buffers st) (ms_packets st) in
      let '(buffers, packets) :=
        match newBuffer with
        | Some b => (ms_buffers st ++ [b], ms_packets st)
        | None => (ms_buffers st, ms_packets st ++ newPacketBuffers)
        end in
      (MkMatchState rc buffers packets inp, newErr)
  | RuleActionResolve ra =>
      match actionResolve rc ra with
      | inr rc => (st {{ ms_rc := rc }}, None)
      | inl e => (st {{ ms_rc := rc }}, Some e)
      end
  | _ => (st {{ ms_rc := rc }}, None)
  end.

(** Whether [matchRule] stops at a rule with this action. *)
Definition is_final (a : RuleAction) : bool :=
  let actionType := RuleAction_Type a in
  if bool_decide (actionType = RuleActionTypeRoute) || bool_decide (actionType = RuleActionTypeReject)
     || bool_decide (actionType = RuleActionTypeHijackDNS) then true
  else match a with
       | RuleActionBypass outbound _ => negb (bool_decide (outbound = ""%string))
       | _ => false
       end.

Inductive match_result := Selected (index : nat) (a : RuleAction) | NoRule | Fatal (e : error).

Fixpoint match_loop (rules : list (Rule * RuleAction)) (index : nat) (st : MatchState) : MatchState * match_result :=
  match rules with
  | [] => (st, NoRule)
  | (rule, a) :: rules =>
      let (matched, rc) := rule_matches rule (ms_rc st) in
      let st := st {{ ms_rc := rc }} in
      if negb matched then match_loop rules (S index) st
      else match perform_action a st with
           | (st, Some e) => (st, Fatal e)
           | (st, None) =>
               if is_final a then (st, Selected index a) else match_loop rules (S index) st
           end
  end.

Definition matchRule (rc : RouteContext) (inp : input) : MatchState * match_result :=
  match prepareMatchMetadata rc with
  | inr rc => match_loop (rd_rules rt) 0 (MkMatchState rc [] [] inp)
  | inl e => (MkMatchState rc [] [] inp, Fatal e)
  end.
(** ** Routing a connection *)

(** The sniffed data in front of what the connection still delivers. *)
Definition cached_stream (buffers : list bytes) (reads : list read_event) : list read_event :=
  fold_left (rd_NewCachedConn rt) buffers reads.
Definition cached_packets (packets : list PacketBuffer) (events : list packet_event) : list packet_event :=
  fold_left (rd_NewCachedPacketConn rt) packets events.
Definition cached_input (st : MatchState) : input :=
  match ms_input st with
  | StreamInput reads => StreamInput (cached_stream (ms_buffers st) reads)
  | PacketInput events => PacketInput (cached_packets (ms_packets st) events)
  end.

Inductive route_result :=
| RDetour (rc : RouteContext)
(** the DNS server gets the packets already read beside the connection *)
| RHijackDNS (rc : RouteContext) (conn : input) (packetBuffers : list PacketBuffer)
| ROutbound (outbound : RouteOutbound) (rule : option nat) (rc : RouteContext) (conn : input)
    (nat : option (Socksaddr * Socksaddr))
| RRejected (e : RejectedError)
| RError (e : error).

(** [r.outbound.Outbound(tag)] with the check of the network. *)
Definition select_outbound (network : string) (name tag : string) : error + RouteOutbound :=
  match rd_Outbound rt tag with
  | None => inl (ENew ("outbound not found: " ++ tag))
  | Some o => if bool_decide (network ∈ ob_Network o) then inr o
              else inl (ENew (name ++ " is not supported by outbound: " ++ ob_Tag o))
  end.

(** The inbound detour at the head of both functions: [Some] when it returns. *)
Definition inbound_detour (udp : bool) (rc : RouteContext) : option route_result :=
  let detour := rc_InboundDetour rc in
  if bool_decide (detour = ""%string) then None
  else Some (
    if bool_decide (rc_LastInbound rc = detour) then RError (ENew ("routing loop on detour: " ++ detour))
    else match rd_Inbound rt detour with
    | None => RError (ENew ("inbound detour not found: " ++ detour))
    | Some (tcpInjectable, udpInjectable) =>
        if negb (if udp then udpInjectable else tcpInjectable)
        then RError (ENew ("inbound detour is not " ++ (if udp then "UDP" else "TCP") ++ " injectable: " ++ detour))
        else RDetour (rc {{ rc_LastInbound := md_Inbound (rc_md rc);
                            rc_md -> md_Inbound := detour;
                            rc_InboundDetour := ""%string }})
    end).

(** The reserved destinations a stream must not have. *)
Definition reserved_destination (fqdn : string) : option error :=
  if bool_decide (fqdn = rd_mux_Fqdn rt) then
    Some (ENew "global multiplex is deprecated since sing-box v1.7.0, enable multiplex in Inbound fields instead.")
  else if bool_decide (fqdn = rd_vmess_mux_Fqdn rt) then
    Some (ENew "global multiplex (v2ray legacy) not supported since sing-box v1.7.0.")
  else if bool_decide (fqdn = rd_uot_MagicAddress rt) then
    Some (ENew "global UoT not supported since sing-box v1.7.0.")
  else if bool_decide (fqdn = rd_uot_LegacyMagicAddress rt) then
    Some (ENew "global UoT (legacy) not supported since sing-box v1.7.0.")
  else None.

(** The drop counters of the reject actions, by rule index. *)
Abbreviation Counters := (gmap nat (list Z)) (only parsing).

(** The part of [routeConnection] and [routePacketConnection] after [matchRule];
    [noSupport] is the message for a default outbound without the network. *)
Definition dispatch (network name noSupport : string) (now : Z) (counters : Counters)
    (st : MatchState) (res : match_result) : outcome (Counters * route_result) :=
  let rc := ms_rc st in
  let conn := cached_input st in
  let natConn := if rc_FakeIP rc && bool_decide (network = NetworkUDP)
             then Some (rc_OriginDestination rc, rc_Destination rc) else None in
  let with_outbound index o :=
    match o with
    | inl e => Ok (counters, RError e)
    | inr o => Ok (counters, ROutbound o index rc conn natConn)
    end in
  match res with
  | Fatal e => Ok (counters, RError e)
  | NoRule =>
      let o := rd_Default rt in
      if bool_decide (network ∈ ob_Network o) then Ok (counters, ROutbound o None rc conn natConn)
      else Ok (counters, RError (ENew (noSupport ++ ob_Tag o)))
  | Selected index (RuleActionRoute outbound _) => with_outbound (Some index) (select_outbound network name outbound)
  | Selected index (RuleActionBypass outbound _) =>
      if bool_decide (outbound = ""%string) then Panic "nil outbound"
      else with_outbound (Some index) (select_outbound network name outbound)
  | Selected index (RuleActionReject method noDrop) =>
      if bool_decide (method = RuleActionRejectMethodReply)
      then Ok (counters, RError (ENew ("reject method `reply` is not supported for " ++ name ++ " connections")))
      else
        let* (e, counter) := RuleActionReject_Error method noDrop now (default [] (counters !! index)) in
        match e with
        | Some e => Ok (<[index := counter]> counters, RRejected e)
        | None => Panic "nil outbound"
        end
  | Selected index RuleActionHijackDNS =>
      match ms_input st with
      | StreamInput _ => Ok (counters, RHijackDNS rc conn [])
      | PacketInput events => Ok (counters, RHijackDNS rc (PacketInput events) (ms_packets st))
      end
  | Selected index _ => Panic "nil outbound"
  end.

Definition is_tun_dns (rc : RouteContext) : bool :=
  bool_decide (rc_InboundType rc = "tun"%string) && bool_decide (md_Protocol (rc_md rc) = "dns"%string).

Definition routeConnection (now : Z) (counters : Counters) (rc : RouteContext) (reads : list read_event)
    : outcome (Counters * route_result) :=
  match inbound_detour false rc with
  | Some res => Ok (counters, res)
  | None =>
      let rc := rc {{ rc_md -> md_Network := NetworkTCP }} in
      match reserved_destination (sa_Fqdn (rc_Destination rc)) with
      | Some e => Ok (counters, RError e)
      | None =>
          if is_tun_dns rc then Ok (counters, RHijackDNS rc (StreamInput reads) [])
          else
            let (st, res) := matchRule rc (StreamInput reads) in
            dispatch NetworkTCP "TCP" "TCP is not supported by default outbound: " now counters st res
      end
  end.

Definition routePacketConnection (now : Z) (counters : Counters) (rc : RouteContext) (events : list packet_event)
    : outcome (Counters * route_result) :=
  match inbound_detour true rc with
  | Some res => Ok (counters, res)
  | None =>
      let rc := rc {{ rc_md -> md_Network := NetworkUDP }} in
      if is_tun_dns rc then Ok (counters, RHijackDNS rc (PacketInput events) [])
      else
        let (st, res) := matchRule rc (PacketInput events) in
        dispatch NetworkUDP "UDP" "UDP is not supported by outbound: " now counters st res
  end.

(** ** Pre-match *)

Record PreMatchResult := MkPreMatchResult {
  pm_Action : PreMatchAction;
  pm_Outbound : option RouteOutbound;
  pm_Destination : option (Addr * Z);
  pm_UDPTimeout : Z
}.
Definition pre_match_only (a : PreMatchAction) : PreMatchResult := MkPreMatchResult a None None 0.
Definition continueResult : PreMatchResult := pre_match_only PreMatchContinue.

(** constant/timeout.go *)
Definition PortProtocols (port : Z) : string :=
  if port =? 53 then "dns" else if port =? 123 then "ntp" else if port =? 3478 then "stun"
  else if port =? 443 then "quic" else "".
Definition ProtocolTimeouts (protocol : string) : Z :=
  if bool_decide (protocol ∈ ["dns"; "ntp"; "stun"]%string) then 10 * 10 ^ 9
  else if bool_decide (protocol ∈ ["quic"; "dtls"]%string) then 30 * 10 ^ 9 else 0.

(** [for range 8]: the outbound a chain of groups selects; [None] when a selected
    outbound is not found. *)
Fixpoint resolve_group (n : nat) (o : RouteOutbound) : option RouteOutbound :=
  match n, ob_Now o with
  | S n, Some now => match rd_Outbound rt now with
                     | Some o => resolve_group n o
                     | None => None
                     end
  | _, _ => Some o
  end.

Definition udp_timeout (rc : RouteContext) : Z :=
  if 0 <? rc_UDPTimeout rc then rc_UDPTimeout rc
  else
    let protocol := if bool_decide (md_Protocol (rc_md rc) = ""%string)
                    then PortProtocols (sa_Port (rc_Destination rc)) else md_Protocol (rc_md rc) in
    if negb (bool_decide (protocol = ""%string)) then ProtocolTimeouts protocol else 0.

(** [preMatchFlow] from the check of the network on. *)
Definition flow_result (rc : RouteContext) (packetDestination : Socksaddr) (o : RouteOutbound) : PreMatchResult :=
  let network := md_Network (rc_md rc) in
  if negb (bool_decide (network ∈ ob_Network o)) then continueResult
  else match ob_PreMatchFlow o with
  | None => continueResult
  | Some flow =>
      match flow network (sa_Addr (rc_Destination rc)) with
      | PreMatchFlow =>
          let timeout := if bool_decide (network = NetworkUDP) then udp_timeout rc else 0 in
          if Socksaddr_IsDomain (rc_Destination rc) then
            if negb (rc_FakeIP rc) then continueResult
            else
              let newDestination :=
                default addr_zero
                  (head (filter (fun a => Is4 a = Socksaddr_IsIPv4 packetDestination)
                           (md_DestinationAddresses (rc_md rc)))) in
              if negb (IsValid newDestination) then pre_match_only PreMatchReject
              else match flow network newDestination with
                   | PreMatchFlow =>
                       MkPreMatchResult PreMatchFlow (Some o)
                         (Some (newDestination, sa_Port (rc_Destination rc))) timeout
                   | action => MkPreMatchResult action (Some o) None 0
                   end
          else
            MkPreMatchResult PreMatchFlow (Some o)
              (if negb (bool_decide (rc_Destination rc = packetDestination))
               then Some (Socksaddr_AddrPort (rc_Destination rc)) else None) timeout
      | action => MkPreMatchResult action (Some o) None 0
      end
  end.

Definition preMatchFlow (rc : RouteContext) (packetDestination : Socksaddr) (outboundTag : string) : PreMatchResult :=
  match (if bool_decide (outboundTag = ""%string) then Some (rd_Default rt) else rd_Outbound rt outboundTag) with
  | None => continueResult
  | Some o =>
      match resolve_group 8 o with
      | None => continueResult
      | Some o => flow_result rc packetDestination o
      end
  end.

(** The sniff action in a pre-match: go on with the next rule, or return. *)
Definition pre_match_sniff (rc : RouteContext) (a : SniffAction) (firstPacket : bytes) : RouteContext * bool :=
  let network := md_Network (rc_md rc) in
  if bool_decide (network = NetworkICMP) then (rc, true)
  else if negb (bool_decide (network = NetworkUDP)) || (zlen firstPacket =? 0) then (rc, false)
  else if Skip rc || negb (bool_decide (md_Protocol (rc_md rc) = ""%string)) then (rc, true)
  else if (zlen (sa_PacketSniffers a) =? 0) && (0 <? zlen (sa_StreamSniffers a)) then (rc, true)
  else if bool_decide (rc_SnifferNames rc = sa_SnifferNames a) && negb (bool_decide (rc_SniffError rc = None))
  then (rc, true)
  else
    let (rc, sniffErr) := PeekPacket rc firstPacket (or_default (sa_PacketSniffers a) defaultPacketSniffers) in
    let rc := set_sniffed rc a sniffErr in
    match sniffErr with
    | Some _ => (rc, negb (needs_more sniffErr))
    | None => (override_destination rc a, true)
    end.

Fixpoint pre_match_loop (rules : list (Rule * RuleAction)) (index : nat) (now : Z) (counters : Counters)
    (packetDestination : Socksaddr) (firstPacket : bytes) (rc : RouteContext) : outcome (Counters * PreMatchResult) :=
  match rules with
  | [] => Ok (counters, preMatchFlow rc packetDestination "")
  | (rule, a) :: rules =>
      let (matched, rc) := rule_matches rule rc in
      let next rc := pre_match_loop rules (S index) now counters packetDestination firstPacket rc in
      if negb matched then next rc
      else match a with
      | RuleActionSniff sa =>
          let (rc, go_on) := pre_match_sniff rc sa firstPacket in
          if go_on then next rc else Ok (counters, continueResult)
      | RuleActionOptionsOnly o => next (applyRouteOptionsOverride rc o)
      | RuleActionRoute outbound o =>
          Ok (counters, preMatchFlow (applyRouteOptionsOverride rc o) packetDestination outbound)
      | RuleActionBypass outbound o =>
          let rc := applyRouteOptionsOverride rc o in
          if bool_decide (outbound = ""%string) then
            if Socksaddr_IsDomain (rc_Destination rc) || negb (bool_decide (rc_Destination rc = packetDestination))
            then Ok (counters, continueResult)
            else Ok (counters, pre_match_only PreMatchBypass)
          else Ok (counters, preMatchFlow rc packetDestination outbound)
      | RuleActionReject method noDrop =>
          let* (e, counter) := RuleActionReject_Error method noDrop now (default [] (counters !! index)) in
          let counters := <[index := counter]> counters in
          if bool_decide (e = Some ErrDrop) then Ok (counters, pre_match_only PreMatchDrop)
          else Ok (counters, pre_match_only PreMatchReject)
      | RuleActionHijackDNS =>
          if negb (bool_decide (md_Network (rc_md rc) = NetworkUDP)) then Ok (counters, continueResult)
          else Ok (counters, pre_match_only PreMatchHijackDNS)
      | RuleActionResolve ra =>
          match actionResolve rc ra with
          | inl _ => Ok (counters, pre_match_only PreMatchReject)
          | inr rc => next rc
          end
      | RuleActionDirect => Ok (counters, continueResult)
      end
  end.

Definition PreMatch (now : Z) (counters : Counters) (rc : RouteContext) (firstPacket : bytes)
    : outcome (Counters * PreMatchResult) :=
  let rc := rc {{ rc_md -> md_PreMatch := true }} in
  let packetDestination := rc_Destination rc in
  match prepareMatchMetadata rc with
  | inl _ => Ok (counters, continueResult)
  | inr rc => pre_match_loop (rd_rules rt) 0 now counters packetDestination firstPacket rc
  end.
End Router.
