(* ===== verification/RouterSpec.v ===== *)
(** * The router: rule order, outbounds, sniffed data

    [match_rule_semantics] says which rule is selected, [route_outbound_valid] that
    a connection goes to an existing outbound that carries its network,
    [sniffed_stream_delivered] what the outbound reads of a sniffed stream.  The
    last part shows where the code falls short. *)

From S2P Require Import Prelude GoStd Netip External Concrete RuleItems RuleMatch RuleSpec FakeIP FakeIPSpec RuleAction Router.
From coqutil Require Import Datatypes.RecordSetters.
Import DoubleBraceUpdate.
Import DoubleBraceUpdate FakeIP.Memory.
Local Open Scope Z_scope.

Section Spec.
Context {X : External} {SO : SocksaddrOps} {SniffContext : Type}.
Context (rt : @RouterDeps X SniffContext).

Abbreviation MatchState := (@MatchState X SniffContext).
Abbreviation RouteContext := (@RouteContext X SniffContext).

(** ** The order of rules *)

(** The state after the rules of a list that are passed: a rule that does not
    match leaves its trace in the metadata, one that matches and is not final
    performs its action. *)
Inductive passes : list (Rule * RuleAction) -> MatchState -> MatchState -> Prop :=
| passes_nil st : passes [] st st
| passes_skip rule a rules st rc st' :
    rule_matches rt rule (ms_rc st) = (false, rc) ->
    passes rules (st {{ ms_rc := rc }}) st' -> passes ((rule, a) :: rules) st st'
| passes_act rule a rules st rc st1 st' :
    rule_matches rt rule (ms_rc st) = (true, rc) -> is_final a = false ->
    perform_action rt a (st {{ ms_rc := rc }}) = (st1, None) ->
    passes rules st1 st' -> passes ((rule, a) :: rules) st st'.

(** The rule at the head stops the match in the state [st']. *)
Definition stops (rule : Rule) (a : RuleAction) (st st' : MatchState) (err : option error) : Prop :=
  exists rc, rule_matches rt rule (ms_rc st) = (true, rc) /\
    perform_action rt a (st {{ ms_rc := rc }}) = (st', err) /\ (err = None -> is_final a = true).

Lemma match_loop_sound rules : forall i st st' res,
  match_loop rt rules i st = (st', res) ->
  match res with
  | NoRule => passes rules st st'
  | Selected k a => exists pre rule post st1, rules = pre ++ (rule, a) :: post /\ k = (i + length pre)%nat /\
      passes pre st st1 /\ stops rule a st1 st' None
  | Fatal e => exists pre rule a post st1, rules = pre ++ (rule, a) :: post /\
      passes pre st st1 /\ stops rule a st1 st' (Some e)
  end.
Proof.
  induction rules as [|[rule a] rules IH]; intros i st st' res; cbn [match_loop].
  { intros [= <- <-]. constructor. }
  destruct (rule_matches rt rule (ms_rc st)) as [[] rc] eqn:Hm; cbn [negb].
  2: { intros H%IH. destruct res as [k b| |e]; [| |].
    - destruct H as (pre & rule' & post & st1 & -> & -> & Hp & Hs). exists ((rule, a) :: pre), rule', post, st1.
      split; [done|]. split; [cbn [length]; lia|]. split; [by eapply passes_skip|done].
    - by eapply passes_skip.
    - destruct H as (pre & rule' & b & post & st1 & -> & Hp & Hs). exists ((rule, a) :: pre), rule', b, post, st1.
      split; [done|]. split; [by eapply passes_skip|done]. }
  destruct (perform_action rt a _) as [st1 [e|]] eqn:Ha.
  { intros [= <- <-]. exists [], rule, a, rules, st. split; [done|]. split; [constructor|]. by exists rc. }
  destruct (is_final a) eqn:Hf.
  { intros [= <- <-]. exists [], rule, rules, st. split; [done|]. split; [cbn; lia|]. split; [constructor|]. by exists rc. }
  intros H%IH. destruct res as [k b| |e].
  - destruct H as (pre & rule' & post & st2 & -> & -> & Hp & Hs). exists ((rule, a) :: pre), rule', post, st2.
    split; [done|]. split; [cbn [length]; lia|]. split; [by eapply passes_act|done].
  - by eapply passes_act.
  - destruct H as (pre & rule' & b & post & st2 & -> & Hp & Hs). exists ((rule, a) :: pre), rule', b, post, st2.
    split; [done|]. split; [by eapply passes_act|done].
Qed.

Lemma match_loop_passes pre rules i st st1 :
  passes pre st st1 -> match_loop rt (pre ++ rules) i st = match_loop rt rules (i + length pre)%nat st1.
Proof.
  intros H. revert i. induction H as [st|rule a pre st rc st' Hm _ IH|rule a pre st rc st1 st' Hm Hf Ha _ IH]; intros i.
  - cbn. f_equal. lia.
  - cbn [app match_loop]. rewrite Hm. cbn [negb]. rewrite IH. f_equal. cbn. lia.
  - cbn [app match_loop]. rewrite Hm, Ha, Hf. cbn [negb]. rewrite IH. f_equal. cbn. lia.
Qed.

(** The final actions of docs/configuration/route/rule_action.md; bypass counts
    when it has an outbound. *)
Definition documented_final (a : RuleAction) : bool :=
  match a with
  | RuleActionRoute _ _ | RuleActionReject _ _ | RuleActionHijackDNS => true
  | RuleActionBypass outbound _ => negb (bool_decide (outbound = ""%string))
  | RuleActionOptionsOnly _ | RuleActionSniff _ | RuleActionResolve _ | RuleActionDirect => false
  end.

Lemma is_final_documented a : is_final a = documented_final a.
Proof. by destruct a. Qed.

(** C10: which rule decides.  After the metadata is prepared, rule [k] with action
    [a] is selected in the state [st'] exactly when all rules before it are
    passed, it matches in the state they leave, and its action is final and is
    performed; no rule is selected exactly when all rules are passed.  The index
    is that of the rule in the configuration. *)
Theorem match_rule_semantics rc rc0 inp st' :
  prepareMatchMetadata rt rc = inr rc0 ->
  let st := MkMatchState rc0 [] [] inp in
  (forall k a, matchRule rt rc inp = (st', Selected k a) <->
     exists pre rule post st1, rd_rules rt = pre ++ (rule, a) :: post /\ length pre = k /\
       passes pre st st1 /\ stops rule a st1 st' None /\ documented_final a = true) /\
  (matchRule rt rc inp = (st', NoRule) <-> passes (rd_rules rt) st st').
Proof.
  intros Hprep st. unfold matchRule. rewrite Hprep. fold st. split.
  - intros k a. split.
    + intros (pre & rule & post & st1 & Hr & -> & Hp & Hs)%match_loop_sound.
      exists pre, rule, post, st1. split_and!; try done. rewrite <- is_final_documented.
      destruct Hs as (? & _ & _ & Hf). by apply Hf.
    + intros (pre & rule & post & st1 & Hr & Hk & Hp & (rc1 & Hm & Ha & _) & Hf).
      rewrite Hr, (match_loop_passes _ _ _ _ _ Hp). cbn [match_loop]. rewrite Hm, Ha. cbn [negb].
      rewrite is_final_documented, Hf. subst k. done.
  - split; [apply match_loop_sound|]. intros Hp. rewrite <- (app_nil_r (rd_rules rt)).
    by rewrite (match_loop_passes _ _ _ _ _ Hp).
Qed.
(** ** The selected outbound *)

(** The reject methods a configuration can give ([reject_options_cases]). *)
Definition known_method (a : RuleAction) : Prop :=
  match a with
  | RuleActionReject m _ => m ∈ [RuleActionRejectMethodDefault; RuleActionRejectMethodDrop; RuleActionRejectMethodReply]
  | _ => True
  end.

Lemma reject_Error_known m noDrop now counter :
  known_method (RuleActionReject m noDrop) -> m <> RuleActionRejectMethodReply ->
  exists e c, RuleActionReject_Error m noDrop now counter = Ok (Some e, c).
Proof.
  unfold known_method, RuleActionReject_Error. intros Hm Hne. case_bool_decide; [eauto|].
  rewrite bool_decide_eq_false_2 by done. rewrite bool_decide_eq_true_2 by set_solver. cbn [negb].
  destruct noDrop; [eauto|]. destruct (50 <? _); eauto.
Qed.

(** How a connection is dispatched to an outbound by the rule it was selected by,
    or to the default outbound when no rule selects one. *)
Definition outbound_of_rule (index : option nat) (o : RouteOutbound) : Prop :=
  match index with
  | None => o = rd_Default rt
  | Some i => exists rule a tag options, rd_rules rt !! i = Some (rule, a) /\ rd_Outbound rt tag = Some o /\
      (a = RuleActionRoute tag options \/ a = RuleActionBypass tag options /\ tag <> ""%string)
  end.

Definition valid_result (network : string) (res : @route_result X SniffContext) : Prop :=
  match res with
  | ROutbound o index _ _ _ => network ∈ ob_Network o /\ outbound_of_rule index o
  | _ => True
  end.

Lemma select_outbound_ok network name tag o :
  select_outbound rt network name tag = inr o -> rd_Outbound rt tag = Some o /\ network ∈ ob_Network o.
Proof. unfold select_outbound. destruct (rd_Outbound rt tag); [|done]. case_bool_decide; [|done]. by intros [= <-]. Qed.

Lemma dispatch_valid network name noSupport now counters st res st0 inp rc0 :
  Forall (fun ra => known_method (snd ra)) (rd_rules rt) ->
  match_loop rt (rd_rules rt) 0 st0 = (st, res) -> st0 = MkMatchState rc0 [] [] inp ->
  exists c' r, dispatch rt network name noSupport now counters st res = Ok (c', r) /\ valid_result network r.
Proof.
  intros Hk Hloop ->. apply match_loop_sound in Hloop. unfold dispatch. destruct res as [k a| |e].
  2: { case_bool_decide; eexists _, _; (split; [done|]); [by split|done]. }
  2: { eexists _, _. by split. }
  destruct Hloop as (pre & rule & post & st1 & Hr & -> & _ & (_ & _ & _ & Hf)). specialize (Hf eq_refl).
  assert (rd_rules rt !! (0 + length pre)%nat = Some (rule, a)) as Hi
    by (rewrite Hr; cbn; rewrite lookup_app_r, Nat.sub_diag by lia; done).
  assert (known_method a) as Hka by (eapply Forall_lookup_1 in Hk; [|exact Hi]; done).
  destruct a as [tag o|o|tag o| |m nd| |sa|ra]; try done; rewrite is_final_documented in Hf; cbn [documented_final] in Hf.
  - destruct (select_outbound rt network name tag) as [e|ob] eqn:Hs; eexists _, _; (split; [done|]); [done|].
    apply select_outbound_ok in Hs as [? ?]. split; [done|]. exists rule, (RuleActionRoute tag o), tag, o. auto.
  - apply negb_true_iff, bool_decide_eq_false in Hf as Ht. rewrite bool_decide_eq_false_2 by done.
    destruct (select_outbound rt network name tag) as [e|ob] eqn:Hs; eexists _, _; (split; [done|]); [done|].
    apply select_outbound_ok in Hs as [? ?]. split; [done|]. exists rule, (RuleActionBypass tag o), tag, o. auto.
  - case_bool_decide as Ht; [by eexists _, _|].
    destruct (reject_Error_known m nd now (default [] (counters !! (0 + length pre)%nat)) Hka Ht) as (e & c & ->).
    cbn [obind]. by eexists _, _.
  - destruct (ms_input st); by eexists _, _.
Qed.

Lemma matchRule_dispatch network name noSupport now counters rc inp :
  Forall (fun ra => known_method (snd ra)) (rd_rules rt) ->
  exists c' r, (let (st, res) := matchRule rt rc inp in dispatch rt network name noSupport now counters st res) = Ok (c', r)
    /\ valid_result network r.
Proof.
  intros Hk. unfold matchRule. destruct (prepareMatchMetadata rt rc) as [e|rc0]; [by eexists _, _|].
  destruct (match_loop rt (rd_rules rt) 0 _) as [st res] eqn:Hl. by eapply dispatch_valid.
Qed.

(** C11: for rules with known reject methods the routing of streams and of packets
    always comes to a decision, with no nil outbound; an outbound it picks carries
    the network of the connection, and is the default outbound or the one that the
    selected rule names. *)
Theorem route_outbound_valid now counters rc :
  Forall (fun ra => known_method (snd ra)) (rd_rules rt) ->
  (forall reads, exists c' r, routeConnection rt now counters rc reads = Ok (c', r) /\ valid_result NetworkTCP r) /\
  (forall events, exists c' r, routePacketConnection rt now counters rc events = Ok (c', r) /\ valid_result NetworkUDP r).
Proof.
  intros Hk. split; [intros reads; unfold routeConnection|intros events; unfold routePacketConnection];
    (destruct (inbound_detour rt _ rc) as [res|] eqn:Hd;
      [eexists _, _; split; [done|]; unfold inbound_detour in Hd; case_bool_decide; [done|]; injection Hd as <-;
       repeat case_match; done|]); cbv zeta.
  - destruct (reserved_destination rt _); [by eexists _, _|]. destruct (is_tun_dns _); [by eexists _, _|].
    by apply matchRule_dispatch.
  - destruct (is_tun_dns _); [by eexists _, _|]. by apply matchRule_dispatch.
Qed.

(** ** Sniffed data *)

Definition stream_data (reads : list read_event) : bytes :=
  concat (omap (fun e => match e with ReadData b => Some b | _ => None end) reads).

Lemma PeekStream_data reads : forall first buffers buffer serr sniffers rc rc' buffer' reads' err,
  PeekStream_loop rt reads first buffers buffer serr sniffers rc = (rc', buffer', reads', err) ->
  exists d, buffer' = buffer ++ d /\ stream_data reads = d ++ stream_data reads'.
Proof.
  induction reads as [|e reads IH]; intros first buffers buffer serr sniffers rc rc' buffer' reads' err; cbn [PeekStream_loop].
  { intros [= <- <- <- <-]. exists []. by rewrite app_nil_r. }
  destruct e as [b|e|e].
  - destruct (run_stream_sniffers rt sniffers _ [] rc) as [rc1 serr1]. destruct (needs_more serr1).
    + intros (d & -> & Hd)%IH. exists (b ++ d). split; [by rewrite app_assoc|]. cbn. fold (stream_data reads). rewrite Hd. apply app_assoc.
    + intros [= <- <- <- <-]. by exists b.
  - intros [= <- <- <- <-]. exists []. by rewrite app_nil_r.
  - intros [= <- <- <- <-]. exists []. by rewrite app_nil_r.
Qed.

Lemma actionSniff_stream rc a reads bufs packs rc' nb np inp' fatal :
  actionSniff rt rc a (StreamInput reads) bufs packs = (rc', nb, np, inp', fatal) ->
  exists reads', inp' = StreamInput reads' /\ fatal = None /\ np = [] /\
    stream_data reads = default [] nb ++ stream_data reads'.
Proof.
  unfold actionSniff. intros H.
  assert ((rc, @None bytes, @nil PacketBuffer, StreamInput reads, @None error) = (rc', nb, np, inp', fatal) ->
    exists reads', inp' = StreamInput reads' /\ fatal = None /\ np = [] /\
    stream_data reads = default [] nb ++ stream_data reads') as Hnone by (intros [= <- <- <- <- <-]; eauto).
  repeat (destruct (_ : bool) in H; [by apply Hnone in H|]).
  destruct (PeekStream_loop rt reads true bufs [] None _ rc) as [[[rc1 buffer] reads1] err] eqn:Hp.
  apply PeekStream_data in Hp as (d & Hd & Hdata). cbn in Hd. subst d. injection H as <- <- <- <- <-.
  exists reads1. by destruct buffer.
Qed.
Definition is_sniff (a : RuleAction) : bool := match a with RuleActionSniff _ => true | _ => false end.
Definition sniff_count (rules : list (Rule * RuleAction)) : nat := length (List.filter (fun ra => is_sniff (snd ra)) rules).

(** [st'] buffers [pieces] more of the stream than [st], in order. *)
Definition buffered (st st' : MatchState) (pieces : list bytes) : Prop :=
  ms_buffers st' = ms_buffers st ++ pieces /\
  exists reads reads', ms_input st = StreamInput reads /\ ms_input st' = StreamInput reads' /\
    stream_data reads = concat pieces ++ stream_data reads'.

Lemma perform_action_buffered a st reads st' err :
  ms_input st = StreamInput reads -> perform_action rt a st = (st', err) ->
  exists pieces, buffered st st' pieces /\ (length pieces <= if is_sniff a then 1 else 0)%nat.
Proof.
  intros Hin. assert (forall rc, buffered st (st {{ ms_rc := rc }}) []) as Hsame.
  { intros rc. split; [by rewrite app_nil_r|]. by exists reads, reads. }
  unfold perform_action. destruct a as [tag o|o|tag o| |m nd| |sa|ra]; cbn [is_sniff];
    try (intros [= <- <-]; exists []; split; [apply Hsame|done]).
  - destruct (actionSniff rt _ sa (ms_input st) (ms_buffers st) (ms_packets st)) as [[[[rc nb] np] inp'] fatal] eqn:Ha.
    rewrite Hin in Ha. apply actionSniff_stream in Ha as (reads' & -> & -> & -> & Hd).
    destruct nb as [b|]; intros [= <- <-]; [exists [b]|exists []]; (split; [|cbn; lia]); split; cbn; rewrite ?app_nil_r; try done;
      exists reads, reads'; rewrite ?Hd; cbn; rewrite ?app_nil_r; done.
  - destruct (actionResolve rt _ ra); intros [= <- <-]; exists []; (split; [apply Hsame|done]).
Qed.

Lemma match_loop_buffered rules : forall i st reads st' res,
  ms_input st = StreamInput reads -> match_loop rt rules i st = (st', res) ->
  exists pieces, buffered st st' pieces /\ (length pieces <= sniff_count rules)%nat.
Proof.
  induction rules as [|[rule a] rules IH]; intros i st reads st' res Hin; cbn [match_loop].
  { intros [= <- <-]. exists []. split; [|done]. split; [by rewrite app_nil_r|]. by exists reads, reads. }
  destruct (rule_matches rt rule (ms_rc st)) as [[] rc]; cbn [negb].
  2: { intros (pieces & Hb & Hl)%(IH _ _ reads); [|done]. exists pieces. split; [exact Hb|].
       unfold sniff_count in *. cbn. destruct (is_sniff a); cbn; lia. }
  destruct (perform_action rt a (st {{ ms_rc := rc }})) as [st1 err] eqn:Ha.
  apply (perform_action_buffered a _ reads) in Ha as (p1 & (Hb1 & reads0 & reads1 & Hin0 & Hin1 & Hd1) & Hl1); [|done].
  change (ms_input st = StreamInput reads0) in Hin0. assert (reads0 = reads) as -> by congruence.
  assert (length p1 <= sniff_count ((rule, a) :: rules))%nat as Hl1'
    by (unfold sniff_count; cbn; destruct (is_sniff a); cbn; lia).
  assert (buffered st st1 p1) as Hstop by (split; [exact Hb1|]; by exists reads, reads1).
  destruct err as [e|]; [intros [= <- <-]; by exists p1|].
  destruct (is_final a); [intros [= <- <-]; by exists p1|].
  intros (p2 & (Hb2 & reads2 & reads3 & Hin2 & Hin3 & Hd2) & Hl2)%(IH _ _ reads1); [|done].
  assert (reads2 = reads1) as -> by congruence. exists (p1 ++ p2). split.
  - split; [rewrite Hb2, Hb1; cbn; by rewrite app_assoc|]. exists reads, reads3.
    split; [done|]. split; [done|]. by rewrite Hd1, Hd2, concat_app, app_assoc.
  - unfold sniff_count in *. rewrite length_app. cbn [List.filter snd] in *. destruct (is_sniff a); cbn [length]; lia.
Qed.

Section Delivered.
Hypothesis cached_conn_reads_buffer_first : forall conn b,
  stream_data (rd_NewCachedConn rt conn b) = b ++ stream_data conn.

Lemma cached_stream_data buffers : forall reads,
  stream_data (cached_stream rt buffers reads) = concat (reverse buffers) ++ stream_data reads.
Proof using cached_conn_reads_buffer_first.
  unfold cached_stream. induction buffers as [|b buffers IH]; intros reads; [done|]. cbn [fold_left].
  rewrite IH, cached_conn_reads_buffer_first, reverse_cons, concat_app. cbn. by rewrite app_nil_r, app_assoc.
Qed.

(** What is read of a stream after routing: the sniffed pieces are buffered in
    the order they were read, none is lost, and the connection given to the outbound
    or to the DNS server delivers the pieces from the last to the first and then the
    rest; so with one sniff action at most it delivers what the client sent. *)
Theorem sniffed_stream_delivered now counters rc reads c' r conn :
  routeConnection rt now counters rc reads = Ok (c', r) ->
  (exists o index rc' natConn, r = ROutbound o index rc' conn natConn) \/ (exists rc', r = RHijackDNS rc' conn []) ->
  exists reads' pieces rest, conn = StreamInput reads' /\
    stream_data reads = concat pieces ++ rest /\ stream_data reads' = concat (reverse pieces) ++ rest /\
    (length pieces <= sniff_count (rd_rules rt))%nat /\
    ((sniff_count (rd_rules rt) <= 1)%nat -> stream_data reads' = stream_data reads).
Proof using cached_conn_reads_buffer_first.
  assert (forall reads' pieces rest, stream_data reads = concat pieces ++ rest ->
    stream_data reads' = concat (reverse pieces) ++ rest -> (length pieces <= sniff_count (rd_rules rt))%nat ->
    exists r' pieces rest, StreamInput reads' = StreamInput r' /\
    stream_data reads = concat pieces ++ rest /\ stream_data r' = concat (reverse pieces) ++ rest /\
    (length pieces <= sniff_count (rd_rules rt))%nat /\
    ((sniff_count (rd_rules rt) <= 1)%nat -> stream_data r' = stream_data reads)) as Hfin.
  { intros reads' pieces rest H1 H2 H3. exists reads', pieces, rest. split_and!; try done. intros Hle.
    rewrite H2, H1. destruct pieces as [|p [|]]; [done|done|cbn in H3; lia]. }
  unfold routeConnection. intros H Hr.
  destruct (inbound_detour rt false rc) as [res|] eqn:Hd.
  { injection H as _ <-. unfold inbound_detour in Hd. case_bool_decide; [done|]. injection Hd as <-.
    destruct Hr as [(? & ? & ? & ? & Hr)|[? Hr]]; repeat case_match; done. }
  cbv zeta in H. destruct (reserved_destination rt _).
  { injection H as _ <-. by destruct Hr as [(? & ? & ? & ? & Hr)|[? Hr]]. }
  destruct (is_tun_dns _).
  { injection H as _ <-. destruct Hr as [(? & ? & ? & ? & Hr)|[? Hr]]; [done|]. injection Hr as _ <-.
    apply (Hfin _ [] (stream_data reads)); [done|done|cbn; lia]. }
  destruct (matchRule rt _ _) as [st res] eqn:Hm.
  assert (conn = cached_input rt st) as ->.
  { clear -H Hr. destruct Hr as [(? & ? & ? & ? & ->)|[? ->]]; unfold dispatch in H;
      repeat (case_match; try discriminate); inv_ok; repeat (case_match; try discriminate); inv_ok; try done.
    unfold cached_input. match goal with Hp : ms_packets st = [], Hi : ms_input st = _ |- _ => by rewrite Hi, Hp end. }
  unfold matchRule in Hm. destruct (prepareMatchMetadata rt _) as [e|rc0].
  { injection Hm as <- <-. apply (Hfin _ [] (stream_data reads)); [done|done|cbn; lia]. }
  apply (match_loop_buffered _ _ _ reads) in Hm as (pieces & (Hb & reads0 & reads1 & Hin0 & Hin1 & Hd1) & Hl); [|done].
  injection Hin0 as <-. cbn in Hb. unfold cached_input. rewrite Hin1, Hb.
  by apply (Hfin _ pieces (stream_data reads1)); [|apply cached_stream_data|].
Qed.
End Delivered.
End Spec.

(** * The router: FakeIP, and cases the code gets wrong

    A connection to a FakeIP address is routed by its name
    ([fakeip_destination_restored], the router composed with the FakeIP store).
    Then concrete configurations in which the router misbehaves: data of a stream
    sniffed twice is reordered, packets sniffed twice are duplicated, a pre-match
    uses the addresses of a name that was overridden.  *)

Abbreviation rc_Destination rc := (md_Destination (rc_md rc)).

(** ** FakeIP *)

Section FakeIP.
Context {X : External} {SO : SocksaddrOps} {SniffContext : Type}.
Context {S : Type} `{HL : FakeIPStorageLaws S}.

(** The router of a process whose FakeIP transport has the store [st]. *)
Definition with_fakeip (rt : @RouterDeps X SniffContext) (st : Store S) : RouterDeps :=
  rt {{ rd_FakeIP := Some (Store_Contains st, fun a => match Lookup st a with Ok d => d | _ => None end) }}.

Lemma searchProcessInfo_Destination (rt : @RouterDeps X SniffContext) rc :
  rc_Destination (lookup_neighbor rt (searchProcessInfo rt rc)) = rc_Destination rc.
Proof.
  unfold lookup_neighbor, searchProcessInfo.
  repeat (case_match; try reflexivity).
Qed.

(** A FakeIP address that [Create] gave for a name is routed by the name: when
    the router prepares a connection to it the destination is the name with the
    connection's port, the address is kept as the original destination, and the
    connection is marked; a connection to an address of the range without a record
    is refused. *)
Theorem fakeip_destination_restored (rt : @RouterDeps X SniffContext) (st st' : Store S) d v6 a port rc :
  store_inv st -> dns_name d -> Create d v6 st = (Ok a, st') -> Store_Contains st' a = true ->
  rc_Destination rc = MkSocksaddr a port "" ->
  (exists rc', prepareMatchMetadata (with_fakeip rt st') rc = inr rc' /\
     rc_Destination rc' = MkSocksaddr addr_zero port d /\
     rc_OriginDestination rc' = MkSocksaddr a port "" /\ rc_FakeIP rc' = true) /\
  (forall b, IsValid b = true -> Store_Contains st' b = true -> Lookup st' b = Ok None ->
     exists e, prepareMatchMetadata (with_fakeip rt st') (rc {{ rc_md -> md_Destination := MkSocksaddr b port "" }}) = inl e).
Proof using HL.
  intros Hinv Hd Hcr Hc Hdst. destruct (Create_lookup st d v6 a st' Hinv Hd Hcr) as [Hv Hl].
  split.
  - unfold prepareMatchMetadata, find_domain, fakeip_contains, fakeip_lookup.
    set (rc1 := lookup_neighbor _ _).
    assert (rc_Destination rc1 = MkSocksaddr a port "") as Hd1 by (unfold rc1; by rewrite searchProcessInfo_Destination).
    change (rd_FakeIP (with_fakeip rt st')) with (Some (Store_Contains st', fun a => match Lookup st' a with Ok d => d | _ => None end)).
    rewrite Hd1. cbn [sa_Addr]. rewrite Hv, Hc, Hl. cbn [andb]. rewrite bool_decide_eq_false_2 by apply Hd.
    destruct (Socksaddr_IsIPv4 _); [|destruct (Socksaddr_IsIPv6 _)]; eexists; (split; [done|]); done.
  - intros b Hbv Hbc Hbl. unfold prepareMatchMetadata, find_domain, fakeip_contains, fakeip_lookup.
    rewrite searchProcessInfo_Destination.
    change (rd_FakeIP (with_fakeip rt st')) with (Some (Store_Contains st', fun a => match Lookup st' a with Ok d => d | _ => None end)).
    change (sa_Addr _) with b. rewrite Hbv, Hbc, Hbl. eexists. reflexivity.
Qed.
End FakeIP.

(** ** A concrete router *)

#[export] Instance concrete_socks : SocksaddrOps := {|
  ParseSocksaddrHostPort := fun s p => MkSocksaddr addr_zero p s;
  Socksaddr_IsValid := fun a => IsValid (sa_Addr a) || negb (bool_decide (sa_Fqdn a = ""%string));
  Socksaddr_IsIPv4 := fun a => Is4 (sa_Addr a);
  Socksaddr_IsDomain := fun a => negb (IsValid (sa_Addr a)) && negb (bool_decide (sa_Fqdn a = ""%string));
  Socksaddr_AddrPort := fun a => (sa_Addr a, sa_Port a);
  IsDomainName := fun s => negb (bool_decide (s = ""%string))
|}.

#[export] Instance concrete_socks_laws : SocksaddrLaws concrete_socks.
Proof.
  split; [done| |].
  - intros a [_ H]%andb_true_iff. cbn. by rewrite H, orb_true_r.
  - intros d p Hd. cbn. by rewrite bool_decide_eq_false_2.
Qed.

(** A rule without conditions. *)
Definition any_rule : Rule := DefaultR KDefaultRule (MkDefault (MkItems [] [] [] [] [] [] []) None false).

Definition proxy : RouteOutbound := MkRouteOutbound "proxy" ["tcp"; "udp"] None (Some (fun _ _ => PreMatchFlow)).

Definition no_options : RuleActionRouteOptions :=
  MkRouteOptions zero_Socksaddr 0 None [] [] 0 false false 0 false 0 false "" 0.

(** TLS is never found, HTTP always; a first QUIC packet asks for more data, the
    second completes the hello. *)
Definition ex_stream_sniffer (s : StreamSniffer) (rc : @RouteContext _ unit) (data : list bytes) : RouteContext * option error :=
  match s with
  | HTTPHost => (rc {{ rc_md -> md_Protocol := "http"%string }}, None)
  | _ => (rc, Some ErrInvalid)
  end.
Definition ex_packet_sniffer (s : PacketSniffer) (rc : @RouteContext _ unit) (data : bytes) : RouteContext * option error :=
  match s, rc_SniffContext rc, data with
  | QUICClientHello, None, _ => (rc {{ rc_SniffContext := Some tt }}, Some ErrNeedMoreData)
  | QUICClientHello, Some _, 2 :: _ => (rc {{ rc_md -> md_Protocol := "quic"%string }}, None)
  | QUICClientHello, Some _, _ => (rc, Some ErrNeedMoreData)
  | _, _, _ => (rc, Some ErrInvalid)
  end.

Definition router_with {SC : Type} (stream : StreamSniffer -> @RouteContext _ SC -> list bytes -> RouteContext * option error)
    (packet : PacketSniffer -> @RouteContext _ SC -> bytes -> RouteContext * option error)
    (rules : list (Rule * RuleAction)) : @RouterDeps _ SC := {|
  rd_world := ex_world;
  rd_rules := rules;
  rd_Outbound := fun tag => if bool_decide (tag = "proxy"%string) then Some proxy else None;
  rd_Default := proxy;
  rd_Inbound := fun _ => None;
  rd_Transport := fun _ => true;
  rd_Lookup := fun rc _ => inr [if bool_decide (sa_Fqdn (rc_Destination rc) = "a.org"%string) then Addr4 1 else Addr4 2];
  rd_LookupReverseMapping := fun _ => None;
  rd_FakeIP := Some (fun a => bool_decide (a = Addr4 3323068418), fun a => Some "a.org"%string);
  rd_neighborResolver := None;
  rd_processSearcher := None;
  rd_MyInterfaceAddress := [];
  rd_stream_sniffer := stream;
  rd_packet_sniffer := packet;
  rd_NewCachedConn := fun conn b => ReadData b :: conn;
  rd_NewCachedPacketConn := fun conn p => PacketData (pb_Buffer p) (pb_Destination p) :: conn;
  rd_mux_Fqdn := "mux.arpa";
  rd_vmess_mux_Fqdn := "v1.mux.arpa";
  rd_uot_MagicAddress := "uot.arpa";
  rd_uot_LegacyMagicAddress := "uot-legacy.arpa"
|}.
Definition ex_router : list (Rule * RuleAction) -> @RouterDeps _ unit := router_with ex_stream_sniffer ex_packet_sniffer.

(** A connection to the given address. *)
Definition ex_conn {SC : Type} (destination : Socksaddr) : @RouteContext _ SC :=
  MkRouteContext (ex_md {{ md_Destination := destination; md_Protocol := ""%string; md_Domain := ""%string }})
    "" None [] None "" "" zero_Socksaddr zero_Socksaddr false false 0 false 0 false "" 0 None [] [] 0 false.

Definition sniff (names : list string) (stream : list StreamSniffer) (packet : list PacketSniffer) : RuleAction :=
  RuleActionSniff (MkSniffAction names stream packet 0 false).

Definition to_web : Socksaddr := MkSocksaddr (Addr4 167838211) 8080 "".

(** ** Data sniffed twice *)

(** A stream on which two sniff actions read data, say one for TLS and then one
    for HTTP: the outbound reads the second piece before the first. *)
Theorem sniffed_twice_reordered x d1 y d2 :
  let rt := ex_router [(any_rule, sniff ["tls"] [TLSClientHello] []); (any_rule, sniff ["http"] [HTTPHost] []);
                       (any_rule, RuleActionRoute "proxy" no_options)] in
  match routeConnection rt 0 ∅ (ex_conn to_web) [ReadData (x :: d1); ReadData (y :: d2)] with
  | Ok (_, ROutbound o index _ (StreamInput conn) _) =>
      ob_Tag o = "proxy"%string /\ index = Some 2%nat /\ stream_data conn = (y :: d2) ++ (x :: d1)
  | _ => False
  end.
Proof. vm_compute. split; [done|]. split; [done|]. f_equal. f_equal. fold (@app Z). by rewrite app_nil_r. Qed.

(** Packets sniffed twice, when the first sniff action times out waiting for the
    rest of a QUIC client hello: the packets of the first are buffered a second time,
    and the outbound sends them twice. *)
Theorem sniffed_packets_duplicated d1 d2 :
  let quic := sniff ["quic"] [] [QUICClientHello] in
  let rt := ex_router [(any_rule, quic); (any_rule, quic); (any_rule, RuleActionRoute "proxy" no_options)] in
  match routePacketConnection rt 0 ∅ (ex_conn to_web)
      [PacketData (1 :: d1) to_web; PacketErr read_timeout true; PacketData (2 :: d2) to_web] with
  | Ok (_, ROutbound o index _ conn _) =>
      ob_Tag o = "proxy"%string /\ index = Some 2%nat /\
      conn = PacketInput [PacketData (2 :: d2) to_web; PacketData (1 :: d1) to_web; PacketData (1 :: d1) to_web]
  | _ => False
  end.
Proof. vm_compute. done. Qed.

(** ** Pre-match *)

(** A connection to the FakeIP address of a.org with the rules resolve,
    override_address b.org, route: routed as a connection it goes to b.org with no
    addresses resolved, pre-matched as a flow it goes to the address of a.org. *)
Theorem prematch_keeps_overridden_addresses :
  let override := no_options {{ ro_OverrideAddress := MkSocksaddr addr_zero 0 "b.org" }} in
  let rt := ex_router [(any_rule, RuleActionResolve (MkResolveAction "" 0 0 false false None prefix_zero));
                       (any_rule, RuleActionOptionsOnly override); (any_rule, RuleActionRoute "proxy" no_options)] in
  let rc := ex_conn (MkSocksaddr (Addr4 3323068418) 443 "") in
  match routePacketConnection rt 0 ∅ rc [] with
  | Ok (_, ROutbound _ _ rc' _ _) =>
      rc_Destination rc' = MkSocksaddr addr_zero 443 "b.org" /\ md_DestinationAddresses (rc_md rc') = []
  | _ => False
  end /\
  match PreMatch rt 0 ∅ (rc {{ rc_md -> md_Network := NetworkUDP }}) [1] with
  | Ok (_, res) => pm_Action res = PreMatchFlow /\ pm_Destination res = Some (Addr4 1, 443)
  | _ => False
  end.
Proof. vm_compute. done. Qed.

(** The reject method [reply], documented to answer ICMP echo requests, rejects. *)
Lemma prematch_reply_rejects :
  PreMatch (ex_router [(any_rule, RuleActionReject RuleActionRejectMethodReply false)]) 0 ∅
    ((ex_conn to_web) {{ rc_md -> md_Network := NetworkICMP }}) []
  = Ok ({[0%nat := []]}, pre_match_only PreMatchReject).
Proof. vm_compute. reflexivity. Qed.

(** A matching rule with the action [direct] is passed without effect. *)
Lemma direct_action_ignored {X : External} {SO : SocksaddrOps} {SC : Type} (rt : @RouterDeps X SC) st :
  perform_action rt RuleActionDirect st = (st, None) /\ is_final RuleActionDirect = false.
Proof. by destruct st. Qed.

(** ** Witnesses *)

Definition ex_rules : list (Rule * RuleAction) :=
  [(any_rule, sniff ["http"] [HTTPHost] []); (any_rule, RuleActionRoute "proxy" no_options); (any_rule, RuleActionHijackDNS)].

Lemma match_rule_semantics_witness :
  exists st' pre rule post st1, rd_rules (ex_router ex_rules) = pre ++ (rule, RuleActionRoute "proxy" no_options) :: post /\
    length pre = 1%nat /\ stops (ex_router ex_rules) rule (RuleActionRoute "proxy" no_options) st1 st' None.
Proof.
  destruct (match_rule_semantics (ex_router ex_rules) (ex_conn to_web) (ex_conn to_web) (StreamInput [ReadData [1]])
    (matchRule (ex_router ex_rules) (ex_conn to_web) (StreamInput [ReadData [1]])).1) as [H _].
  - reflexivity.
  - destruct (proj1 (H 1%nat (RuleActionRoute "proxy" no_options)))
      as (pre & rule & post & st1 & H1 & H2 & _ & H3 & _); [reflexivity|].
    eexists _, pre, rule, post, st1. split; [exact H1|]. split; [exact H2|exact H3].
Defined.

Lemma route_outbound_valid_witness :
  exists c' r, routeConnection (ex_router ex_rules) 0 ∅ (ex_conn to_web) [ReadData [1]] = Ok (c', r) /\
    valid_result (ex_router ex_rules) NetworkTCP r.
Proof.
  refine (proj1 (route_outbound_valid (ex_router ex_rules) 0 ∅ (ex_conn to_web) _) [ReadData [1]]).
  repeat constructor.
Defined.

Definition witness_reads : list read_event := [ReadData [1]; ReadData [2]].
Definition witness_rc : @RouteContext _ unit :=
  ms_rc (matchRule (ex_router ex_rules) ((ex_conn to_web) {{ rc_md -> md_Network := NetworkTCP }}) (StreamInput witness_reads)).1.

Lemma sniffed_stream_delivered_witness :
  routeConnection (ex_router ex_rules) 0 ∅ (ex_conn to_web) witness_reads
    = Ok (∅, ROutbound proxy (Some 1%nat) witness_rc (StreamInput witness_reads) None) /\
  exists reads', StreamInput witness_reads = StreamInput reads' /\ stream_data reads' = stream_data witness_reads.
Proof.
  assert (routeConnection (ex_router ex_rules) 0 ∅ (ex_conn to_web) witness_reads
    = Ok (∅, ROutbound proxy (Some 1%nat) witness_rc (StreamInput witness_reads) None)) as H by reflexivity.
  split; [exact H|].
  destruct (sniffed_stream_delivered (ex_router ex_rules) (fun _ _ => eq_refl) 0 ∅ (ex_conn to_web) witness_reads ∅
    (ROutbound proxy (Some 1%nat) witness_rc (StreamInput witness_reads) None) (StreamInput witness_reads) H
    (or_introl (ex_intro _ proxy (ex_intro _ (Some 1%nat) (ex_intro _ witness_rc (ex_intro _ None eq_refl))))))
    as (reads' & pieces & rest & Hc & _ & _ & _ & Hd).
  exists reads'. split; [exact Hc|]. apply Hd. constructor.
Defined.

Lemma fakeip_destination_restored_witness :
  exists rc', prepareMatchMetadata (with_fakeip (ex_router []) (Create "example.org" false witness_store).2)
      (ex_conn (MkSocksaddr (Addr4 3323068418) 443 "")) = inr rc' /\
    rc_Destination rc' = MkSocksaddr addr_zero 443 "example.org".
Proof.
  destruct (fakeip_destination_restored (ex_router []) witness_store (Create "example.org" false witness_store).2
    "example.org" false (Addr4 3323068418) 443 (ex_conn (MkSocksaddr (Addr4 3323068418) 443 "")) witness_store_inv)
    as [(rc' & H1 & H2 & _) _].
  - split; [discriminate|vm_compute; discriminate].
  - reflexivity.
  - reflexivity.
  - reflexivity.
  - exists rc'. split; [exact H1|exact H2].
Defined.
