(* ===== verification/DnsClient.v ===== *)
(** * The DNS client

    dns/client.go, dns/extension_edns0_subnet.go, dns/client_truncate.go and
    dns/rcode.go: the query options applied to messages, times to live, the cache in
    memory or in the cache file, the rejected-response cache, and the phases of an
    exchange.

    The LRU cache and the stores are interfaces ([LRUCache], [DNSCacheStore],
    [RDRCStore]); the time of a call is an argument [now].  Logging is left out. *)

From S2P Require Import Prelude GoStd Netip External DnsMsg RuleItems.
From Stdlib Require Import Ascii.
Local Open Scope Z_scope.

(** ** constant/dns.go *)

Definition DomainStrategyAsIS : Z := 0.
Definition DomainStrategyPreferIPv4 : Z := 1.
Definition DomainStrategyPreferIPv6 : Z := 2.
Definition DomainStrategyIPv4Only : Z := 3.
Definition DomainStrategyIPv6Only : Z := 4.

Definition DNSTimeout : Z := 10 * 10 ^ 9.

(** [adapter.DNSQueryOptions], without the transport, which the router consumes. *)
Record DNSQueryOptions := MkQueryOptions {
  qo_Strategy : Z;
  qo_LookupStrategy : Z;
  qo_DisableCache : bool;
  qo_DisableOptimisticCache : bool;
  qo_RewriteTTL : option Z;
  qo_Timeout : Z;
  qo_ClientSubnet : Prefix
}.

#[export] Instance Prefix_countable : Countable Prefix.
Proof. apply (inj_countable' (fun p => (p_addr p, p_bits p)) (fun '(a, b) => MkPrefix a b)). by intros []. Defined.

(** [dnsCacheKey] *)
Record dnsCacheKey := MkCacheKey { ck_Question : Question; ck_transportTag : string; ck_clientSubnet : Prefix }.

#[export] Instance dnsCacheKey_eq_dec : EqDecision dnsCacheKey.
Proof. solve_decision. Defined.
#[export] Instance dnsCacheKey_countable : Countable dnsCacheKey.
Proof.
  apply (inj_countable' (fun k => (ck_Question k, ck_transportTag k, ck_clientSubnet k))
           (fun '(q, t, s) => MkCacheKey q t s)).
  by intros [].
Defined.

Section Messages.
Context {X : External}.

Definition persistentName (k : dnsCacheKey) : string :=
  if negb (PrefixIsValid (ck_clientSubnet k)) then ck_transportTag k
  else ck_transportTag k +:+ String zero (Prefix_String (ck_clientSubnet k)).

(** ** Client subnet (extension_edns0_subnet.go) *)

Fixpoint first_subnet (options : list EDNS0) : option EDNS0_SUBNET :=
  match options with
  | [] => None
  | SubnetOption s :: _ => Some s
  | _ :: options => first_subnet options
  end.

Fixpoint clientSubnetFrom (extra : list RR) : Prefix :=
  match extra with
  | [] => prefix_zero
  | RR_OPT _ options :: extra =>
      match first_subnet options with
      | None => clientSubnetFrom extra
      | Some s =>
          let address := AddrFromSlice (sub_Address s) in
          if negb (IsValid address) then prefix_zero else PrefixFrom address (sub_SourceNetmask s)
      end
  | _ :: extra => clientSubnetFrom extra
  end.
Definition clientSubnetFromMessage (message : Msg) : Prefix := clientSubnetFrom (Extra message).

(** The options of one record up to the first subnet, and behind it. *)
Fixpoint split_subnet (options : list EDNS0) : option (list EDNS0 * EDNS0_SUBNET * list EDNS0) :=
  match options with
  | [] => None
  | SubnetOption s :: rest => Some ([], s, rest)
  | o :: options =>
      match split_subnet options with
      | Some (before, s, rest) => Some (o :: before, s, rest)
      | None => None
      end
  end.

(** The assignments to the subnet option. *)
Definition assign_subnet (clientSubnet : Prefix) (s : EDNS0_SUBNET) : EDNS0_SUBNET :=
  MkSubnet (sub_Code s) (if Is4 (p_addr clientSubnet) then 1 else 2) (uint 8 (p_bits clientSubnet))
    (sub_SourceScope s) (AsSlice (p_addr clientSubnet)).
Definition new_subnet : EDNS0_SUBNET := MkSubnet EDNS0SUBNET 0 0 0 [].

(** The loop [findExists]: the records before [optRecord], its header and options,
    the records behind it.  A record of another type behind an OPT record without a
    subnet option sets [optRecord] back to nil. *)
Fixpoint findExists (extra before : list RR) (found : option (list RR * RR_Header * list EDNS0 * list RR))
    : option (list RR * RR_Header * list EDNS0 * list RR) :=
  match extra with
  | [] => found
  | RR_OPT h options :: rest =>
      match first_subnet options with
      | Some _ => Some (before, h, options, rest)
      | None => findExists rest (before ++ [RR_OPT h options]) (Some (before, h, options, rest))
      end
  | r :: rest => findExists rest (before ++ [r]) None
  end.

Definition set_subnet_option (clientSubnet : Prefix) (options : list EDNS0) : list EDNS0 :=
  match split_subnet options with
  | Some (before, s, rest) => before ++ SubnetOption (assign_subnet clientSubnet s) :: rest
  | None => options ++ [SubnetOption (assign_subnet clientSubnet new_subnet)]
  end.

Definition SetClientSubnet (message : Msg) (clientSubnet : Prefix) : Msg :=
  match findExists (Extra message) [] None with
  | None =>
      set_Extra (Extra message
        ++ [RR_OPT (MkHeader "." TypeOPT 0 0) (set_subnet_option clientSubnet [])]) message
  | Some (before, h, options, rest) =>
      set_Extra (before ++ RR_OPT h (set_subnet_option clientSubnet options) :: rest) message
  end.

(** ** Times to live *)

Fixpoint extractNegativeTTL (ns : list RR) : option Z :=
  match ns with
  | [] => None
  | RR_SOA h soaMinimum _ :: _ => Some (if Ttl h <? soaMinimum then Ttl h else soaMinimum)
  | _ :: ns => extractNegativeTTL ns
  end.

Definition is_OPT (r : RR) : bool := Rrtype (Header r) =? TypeOPT.

Definition ttl_step (timeToLive : Z) (record : RR) : Z :=
  if is_OPT record then timeToLive
  else
    let ttl := Ttl (Header record) in
    if (timeToLive =? 0) || (0 <? ttl) && (ttl <? timeToLive) then ttl else timeToLive.

Definition computeTimeToLive (response : Msg) : Z :=
  match (match Answer response with [] => extractNegativeTTL (Ns response) | _ => None end) with
  | Some soaTTL => soaTTL
  | None => fold_left ttl_step (sections response) 0
  end.

Definition normalizeTTL (response : Msg) (timeToLive : Z) : Msg :=
  map_sections (fun r => if is_OPT r then r else set_Ttl timeToLive r) response.

(** The hints an address family strategy removes from an HTTPS record. *)
Definition filter_hints (strategy : Z) (r : RR) : RR :=
  match r with
  | RR_HTTPS h p t value =>
      RR_HTTPS h p t (List.filter (fun it =>
        if strategy =? DomainStrategyIPv4Only then negb (SVCB_Key it =? SVCB_IPV6HINT)
        else negb (SVCB_Key it =? SVCB_IPV4HINT)) value)
  | r => r
  end.

Definition applyResponseOptions (question : Question) (response : Msg) (options : DNSQueryOptions) : Z * Msg :=
  let response :=
    if (q_Qtype question =? TypeHTTPS)
       && ((qo_Strategy options =? DomainStrategyIPv4Only) || (qo_Strategy options =? DomainStrategyIPv6Only))
    then set_Answer (filter_hints (qo_Strategy options) <$> Answer response) response else response in
  let timeToLive := default (computeTimeToLive response) (qo_RewriteTTL options) in
  (timeToLive, normalizeTTL response timeToLive).

Definition stripDNSPadding (response : Msg) : Msg :=
  set_Extra ((fun r => match r with
                       | RR_OPT h options =>
                           RR_OPT h (List.filter (fun it => negb (EDNS0_Option it =? EDNS0PADDING)) options)
                       | r => r
                       end) <$> Extra response) response.

(** ** Fixed responses *)

Definition fixed_header (id rcode : Z) : MsgHdr := MkMsgHdr id true 0 true false true true false false rcode.

Definition FixedResponseStatus (message : Msg) (rcode : Z) : Msg :=
  MkMsg (fixed_header (Id (Hdr message)) rcode) (Questions message) [] [] [].

Definition fixed_record (question : Question) (timeToLive : Z) (address : Addr) : list RR :=
  if Is4 address && (q_Qtype question =? TypeA)
  then [RR_A (MkHeader (q_Name question) TypeA ClassINET timeToLive) (AsSlice address)]
  else if Is6 address && (q_Qtype question =? TypeAAAA)
  then [RR_AAAA (MkHeader (q_Name question) TypeAAAA ClassINET timeToLive) (AsSlice address)]
  else [].
Definition FixedResponse (id : Z) (question : Question) (addresses : list Addr) (timeToLive : Z) : Msg :=
  MkMsg (fixed_header id RcodeSuccess) [question] (concat (fixed_record question timeToLive <$> addresses)) [] [].

Definition FixedResponseCNAME (id : Z) (question : Question) (record : string) (timeToLive : Z) : Msg :=
  MkMsg (fixed_header id RcodeSuccess) [question]
    [RR_CNAME (MkHeader (q_Name question) TypeCNAME ClassINET timeToLive) record] [] [].
Definition FixedResponseTXT (id : Z) (question : Question) (records : list string) (timeToLive : Z) : Msg :=
  MkMsg (fixed_header id RcodeSuccess) [question]
    [RR_TXT (MkHeader (q_Name question) TypeA ClassINET timeToLive) records] [] [].
Definition FixedResponseMX (id : Z) (question : Question) (records : list (Z * string)) (timeToLive : Z) : Msg :=
  MkMsg (fixed_header id RcodeSuccess) [question]
    ((fun '(pref, host) => RR_MX (MkHeader (q_Name question) TypeA ClassINET timeToLive) pref host) <$> records) [] [].

Definition MessageToAddresses (response : Msg) : list Addr := DNSResponseAddresses (Some response).

Definition sortAddresses (response4 response6 : list Addr) (strategy : Z) : list Addr :=
  if strategy =? DomainStrategyPreferIPv6 then response6 ++ response4 else response4 ++ response6.

(** [errors.As] of an [RcodeError]. *)
Fixpoint as_RcodeError (e : error) : option Z :=
  match e with
  | ERcode rcode => Some rcode
  | ECause cause _ => as_RcodeError cause
  | _ => None
  end.

(** What [exchangeToTransport] makes of the transport's answer. *)
Definition transport_answer (message : Msg) (reply : error + Msg) : error + Msg :=
  match reply with
  | inr response => inr (stripDNSPadding response)
  | inl e =>
      match as_RcodeError e with
      | Some rcode => inr (FixedResponseStatus message rcode)
      | None => inl e
      end
  end.

(** A request the cache may answer: one question, nothing else but a plain OPT
    record with client subnets. *)
Definition isSimpleRequest (message : Msg) : outcome bool :=
  if negb ((zlen (Questions message) =? 1) && (zlen (Ns message) =? 0)) then Ok false
  else match Extra message with
  | [] => Ok true
  | [r] =>
      let h := Header r in
      if negb ((Rrtype h =? TypeOPT) && (0 <? Hdr_Class h) && (Ttl h =? 0)) then Ok false
      else match r with
           | RR_OPT _ options => Ok (forallb (fun it => EDNS0_Option it =? EDNS0SUBNET) options)
           | _ => Panic "interface conversion: dns.RR is not *dns.OPT"
           end
  | _ => Ok false
  end.
End Messages.

(** ** Interfaces of the client *)

(** [freelru.Cache]; the calls that read the clock have it as their first argument.
    A lifetime is in nanoseconds, [GetWithLifetimeNoExpire] also gives the time of
    expiry. *)
Class LRUCache (K V S : Type) := {
  lru_New : Z -> S;
  lru_Add : Z -> K -> V -> S -> S;
  lru_AddWithLifetime : Z -> K -> V -> Z -> S -> S;
  lru_Get : Z -> K -> S -> option V * S;
  lru_GetWithLifetimeNoExpire : K -> S -> option (V * Z) * S;
  lru_Remove : K -> S -> S;
  lru_Purge : S -> S
}.

(** [adapter.DNSCacheStore] and [adapter.RDRCStore] *)
Class DNSCacheStore (S : Type) := {
  store_LoadDNSCache : string -> string -> Z -> S -> option (bytes * Z);
  store_SaveDNSCacheAsync : string -> string -> Z -> bytes -> Z -> S -> S;
  store_ClearDNSCache : S -> S
}.
Class RDRCStore (S : Type) := {
  store_LoadRDRC : Z -> string -> string -> Z -> S -> bool * S;
  store_SaveRDRCAsync : string -> string -> Z -> S -> S
}.

(** [ClientOptions] without the context and the logger; the two functions that give
    the stores may be nil. *)
Record ClientOptions (RD DC : Type) := MkClientOptions {
  co_Timeout : Z;
  co_DisableCache : bool;
  co_DisableExpire : bool;
  co_OptimisticTimeout : Z;
  co_CacheCapacity : Z;
  co_ClientSubnet : Prefix;
  co_RDRC : option (unit -> option RD);
  co_DNSCache : option (unit -> option DC)
}.
Arguments co_Timeout {_ _} _. Arguments co_DisableCache {_ _} _. Arguments co_DisableExpire {_ _} _.
Arguments co_OptimisticTimeout {_ _} _. Arguments co_CacheCapacity {_ _} _. Arguments co_ClientSubnet {_ _} _.
Arguments co_RDRC {_ _} _. Arguments co_DNSCache {_ _} _.

Definition second : Z := 10 ^ 9.

Section Client.
Context {X : External} {L : DnsLib}.
Context {MC RD DC : Type} `{!LRUCache dnsCacheKey Msg MC} `{!RDRCStore RD} `{!DNSCacheStore DC}.

(** [Client].  [cacheLock] holds the channel, named by a number, that the holder of
    a key closes; [backgroundRefresh] the keys being refreshed. *)
Record Client := MkClient {
  cl_timeout : Z;
  cl_disableCache : bool;
  cl_disableExpire : bool;
  cl_optimisticTimeout : Z;
  cl_cacheCapacity : Z;
  cl_clientSubnet : Prefix;
  cl_initRDRC : option (unit -> option RD);
  cl_initDNSCache : option (unit -> option DC);
  cl_rdrc : option RD;
  cl_dnsCache : option DC;
  cl_cache : option MC;
  cl_cacheLock : gmap dnsCacheKey nat;
  cl_backgroundRefresh : gset dnsCacheKey
}.

Definition with_stores (c : Client) (rdrc : option RD) (dnsCache : option DC) (cache : option MC) : Client :=
  MkClient (cl_timeout c) (cl_disableCache c) (cl_disableExpire c) (cl_optimisticTimeout c) (cl_cacheCapacity c)
    (cl_clientSubnet c) (cl_initRDRC c) (cl_initDNSCache c) rdrc dnsCache cache (cl_cacheLock c) (cl_backgroundRefresh c).
Definition with_cache (c : Client) (m : MC) : Client := with_stores c (cl_rdrc c) (cl_dnsCache c) (Some m).
Definition with_dnsCache (c : Client) (d : DC) : Client := with_stores c (cl_rdrc c) (Some d) (cl_cache c).
Definition with_rdrc (c : Client) (r : RD) : Client := with_stores c (Some r) (cl_dnsCache c) (cl_cache c).
Definition with_locks (c : Client) (locks : gmap dnsCacheKey nat) (refresh : gset dnsCacheKey) : Client :=
  MkClient (cl_timeout c) (cl_disableCache c) (cl_disableExpire c) (cl_optimisticTimeout c) (cl_cacheCapacity c)
    (cl_clientSubnet c) (cl_initRDRC c) (cl_initDNSCache c) (cl_rdrc c) (cl_dnsCache c) (cl_cache c) locks refresh.

Definition initializeMemoryCache (c : Client) : Client :=
  if cl_disableCache c then c
  else match cl_cache c with Some _ => c | None => with_cache c (lru_New (cl_cacheCapacity c)) end.

Definition NewClient (o : ClientOptions RD DC) : Client :=
  let c := MkClient (if co_Timeout o =? 0 then DNSTimeout else co_Timeout o) (co_DisableCache o) (co_DisableExpire o)
             (co_OptimisticTimeout o) (Z.max (co_CacheCapacity o) 1024) (co_ClientSubnet o)
             (co_RDRC o) (co_DNSCache o) None None None ∅ ∅ in
  match cl_initDNSCache c with
  | None => if negb (cl_disableCache c) then initializeMemoryCache c else c
  | Some _ => c
  end.

Definition Client_Start (c : Client) : Client :=
  let rdrc := match cl_initRDRC c with Some f => f tt | None => cl_rdrc c end in
  let dnsCache := match cl_initDNSCache c with Some f => f tt | None => cl_dnsCache c end in
  let c := with_stores c rdrc dnsCache (cl_cache c) in
  match cl_dnsCache c with None => initializeMemoryCache c | Some _ => c end.

Definition ClearCache (c : Client) : Client :=
  let c := match cl_cache c with Some m => with_cache c (lru_Purge m) | None => c end in
  match cl_dnsCache c with Some d => with_dnsCache c (store_ClearDNSCache d) | None => c end.

Definition effectiveClientSubnet (c : Client) (message : Msg) (options : DNSQueryOptions) : Prefix :=
  if PrefixIsValid (qo_ClientSubnet options) then qo_ClientSubnet options
  else if PrefixIsValid (cl_clientSubnet c) then cl_clientSubnet c
  else clientSubnetFromMessage message.

Definition prepareExchangeMessage (c : Client) (message : Msg) (options : DNSQueryOptions) : Msg :=
  let clientSubnet := if negb (PrefixIsValid (qo_ClientSubnet options)) then cl_clientSubnet c
                      else qo_ClientSubnet options in
  if PrefixIsValid clientSubnet then SetClientSubnet message clientSubnet else message.

(** ** Storing and loading responses *)

Definition storeCache (now : Z) (key : dnsCacheKey) (message : Msg) (timeToLive : Z) (c : Client) : Client :=
  if timeToLive =? 0 then c
  else match cl_dnsCache c with
  | Some d =>
      match Msg_Pack message with
      | Ok packed =>
          with_dnsCache c (store_SaveDNSCacheAsync (persistentName key) (q_Name (ck_Question key))
            (q_Qtype (ck_Question key)) packed (now + second * timeToLive) d)
      | _ => c
      end
  | None =>
      match cl_cache c with
      | None => c
      | Some m =>
          if cl_disableExpire c then with_cache c (lru_Add now key message m)
          else with_cache c (lru_AddWithLifetime now key message (second * timeToLive) m)
      end
  end.

(** The answer from an entry that expires at [expireAt]: the message, its time to
    live, whether it is stale. *)
Definition serve_entry (now optimisticTimeout : Z) (response : Msg) (expireAt : Z) : option (Msg * Z * bool) :=
  if expireAt <? now then
    if (0 <? optimisticTimeout) && (now <? expireAt + optimisticTimeout)
    then Some (normalizeTTL response 1, 0, true) else None
  else
    let nowTTL := Z.max (Z.quot (expireAt - now) second) 0 in
    Some (normalizeTTL response (uint 32 nowTTL), nowTTL, false).

Definition loadPersistentResponse (now : Z) (key : dnsCacheKey) (d : DC) (c : Client) : option (Msg * Z * bool) :=
  match store_LoadDNSCache (persistentName key) (q_Name (ck_Question key)) (q_Qtype (ck_Question key)) d with
  | None => None
  | Some (rawMessage, expireAt) =>
      match Msg_Unpack rawMessage with
      | Ok response =>
          if cl_disableExpire c then Some (response, 0, false)
          else serve_entry now (cl_optimisticTimeout c) response expireAt
      | _ => None
      end
  end.

Definition loadResponse (now : Z) (key : dnsCacheKey) (c : Client) : option (Msg * Z * bool) * Client :=
  match cl_dnsCache c with
  | Some d => (loadPersistentResponse now key d c, c)
  | None =>
      match cl_cache c with
      | None => (None, c)
      | Some m =>
          if cl_disableExpire c then
            let (response, m) := lru_Get now key m in
            ((fun r => (r, 0, false)) <$> response, with_cache c m)
          else
            let (entry, m) := lru_GetWithLifetimeNoExpire key m in
            match entry with
            | None => (None, with_cache c m)
            | Some (response, expireAt) =>
                match serve_entry now (cl_optimisticTimeout c) response expireAt with
                | Some r => (Some r, with_cache c m)
                | None => (None, with_cache c (lru_Remove key m))
                end
            end
      end
  end.

(** ** The phases of an exchange *)

(** [exchangeOperation]; [op_cond] is the channel of [releaseCond]. *)
Record exchangeOperation := MkOperation {
  op_message : Msg;
  op_question : Question;
  op_messageId : Z;
  op_options : DNSQueryOptions;
  op_responseChecker : option (Msg -> bool);
  op_disableCache : bool;
  op_cacheKey : dnsCacheKey;
  op_cond : option nat
}.
Definition with_cond (op : exchangeOperation) (cond : option nat) : exchangeOperation :=
  MkOperation (op_message op) (op_question op) (op_messageId op) (op_options op) (op_responseChecker op)
    (op_disableCache op) (op_cacheKey op) cond.

(** [beginExchange] up to the cache lock: a fixed response, or the operation. *)
Definition begin_operation (c : Client) (tag : string) (message : Msg) (options : DNSQueryOptions)
    (responseChecker : option (Msg -> bool)) : outcome (Msg + exchangeOperation) :=
  match Questions message with
  | [] => Ok (inl (FixedResponseStatus message RcodeFormatError))
  | question :: _ =>
      if (q_Qtype question =? TypeA) && (qo_Strategy options =? DomainStrategyIPv6Only)
         || (q_Qtype question =? TypeAAAA) && (qo_Strategy options =? DomainStrategyIPv4Only)
      then Ok (inl (FixedResponseStatus message RcodeSuccess))
      else
        let* simple := isSimpleRequest message in
        let message := prepareExchangeMessage c message options in
        let disableCache := negb simple || cl_disableCache c || qo_DisableCache options in
        Ok (inr (MkOperation message question (Id (Hdr message)) options responseChecker disableCache
                   (MkCacheKey question tag (effectiveClientSubnet c message options)) None))
  end.

(** [cacheLock.LoadOrStore]: the channel of the holder, or [cond] is stored. *)
Definition LoadOrStore (key : dnsCacheKey) (cond : nat) (c : Client) : option nat * Client :=
  match cl_cacheLock c !! key with
  | Some holder => (Some holder, c)
  | None => (None, with_locks c (<[key := cond]> (cl_cacheLock c)) (cl_backgroundRefresh c))
  end.

(** The answer of the cache to an operation, with whether it is refreshed. *)
Definition load_cached (now : Z) (op : exchangeOperation) (c : Client) : option (Msg * bool) * Client :=
  let (entry, c) := loadResponse now (op_cacheKey op) c in
  match entry with
  | Some (response, _, isStale) =>
      if isStale && negb (qo_DisableOptimisticCache (op_options op))
      then (Some (set_Id (op_messageId op) response, true), c)
      else if negb isStale then (Some (set_Id (op_messageId op) response, false), c)
      else (None, c)
  | None => (None, c)
  end.

Definition ErrResponseRejected : error := ENew "response rejected".
Definition ErrResponseRejectedCached : error := ECause ErrResponseRejected "cached".
Definition ErrNotCached : error := ENew "not cached".

(** The checks before the transport is asked: [contextTransport] is the tag of the
    transport that is resolving in this context. *)
Definition check_transport (now : Z) (contextTransport : option string) (tag : string) (op : exchangeOperation)
    (c : Client) : option error * Client :=
  if bool_decide (contextTransport = Some tag)
  then (Some (ENew ("DNS query loopback in transport[" ++ tag ++ "]")), c)
  else match op_responseChecker op, cl_rdrc c with
  | Some _, Some rdrc =>
      if negb (op_disableCache op) then
        let (rejected, rdrc) := store_LoadRDRC now tag (q_Name (op_question op)) (q_Qtype (op_question op)) rdrc in
        (if rejected then Some ErrResponseRejectedCached else None, with_rdrc c rdrc)
      else (None, c)
  | _, _ => (None, c)
  end.

Definition rcode_failed (response : Msg) : bool :=
  negb (Rcode response =? RcodeSuccess) && negb (Rcode response =? RcodeNameError).

(** The verdict of the checker on a response. *)
Definition response_rejected (checker : option (Msg -> bool)) (response : Msg) : bool :=
  match checker with
  | None => false
  | Some check => if rcode_failed response then true else negb (check response)
  end.

(** The EDNS record of the response, dropped or rebuilt for the request. *)
Definition match_edns (request response : Msg) : Msg :=
  match Msg_IsEdns0 response with
  | Some responseOpt =>
      let requestOpt := Msg_IsEdns0 request in
      if match requestOpt with None => true | Some o => OPT_Version o <? OPT_Version responseOpt end then
        let stripped := set_Extra (List.filter (fun it => negb (is_OPT it)) (Extra response)) response in
        match requestOpt with
        | Some _ => Msg_SetEdns0 stripped (OPT_UDPSize responseOpt) (OPT_Do responseOpt)
        | None => stripped
        end
      else response
  | None => response
  end.

Definition finishExchange (now : Z) (tag : string) (op : exchangeOperation) (response : Msg) (c : Client)
    : Client * (Msg * option error) :=
  let disableCache := op_disableCache op || rcode_failed response in
  if response_rejected (op_responseChecker op) response then
    let c := match cl_rdrc c with
             | Some rdrc =>
                 if negb disableCache
                 then with_rdrc c (store_SaveRDRCAsync tag (q_Name (op_question op)) (q_Qtype (op_question op)) rdrc)
                 else c
             | None => c
             end in
    (c, (response, Some ErrResponseRejected))
  else
    let (timeToLive, response) := applyResponseOptions (op_question op) response (op_options op) in
    let c := if negb disableCache then storeCache now (op_cacheKey op) response timeToLive c else c in
    (c, (match_edns (op_message op) (set_Id (op_messageId op) response), None)).

(** [backgroundRefreshDNS]: true when the goroutine is started. *)
Definition start_refresh (key : dnsCacheKey) (c : Client) : bool * Client :=
  if bool_decide (key ∈ cl_backgroundRefresh c) then (false, c)
  else (true, with_locks c (cl_cacheLock c) ({[key]} ∪ cl_backgroundRefresh c)).

(** The goroutine, after the transport answered. *)
Definition finish_refresh (now : Z) (tag : string) (key : dnsCacheKey) (options : DNSQueryOptions)
    (responseChecker : option (Msg -> bool)) (answer : error + Msg) (c : Client) : Client :=
  let c :=
    match answer with
    | inl _ => c
    | inr response =>
        if response_rejected responseChecker response then
          match cl_rdrc c with
          | Some rdrc => with_rdrc c (store_SaveRDRCAsync tag (q_Name (ck_Question key)) (q_Qtype (ck_Question key)) rdrc)
          | None => c
          end
        else if match responseChecker with None => rcode_failed response | Some _ => false end then c
        else
          let (timeToLive, response) := applyResponseOptions (ck_Question key) response options in
          storeCache now key response timeToLive c
    end in
  with_locks c (cl_cacheLock c) (cl_backgroundRefresh c ∖ {[key]}).

(** ** Lookup *)

(** [questionCache]: [None] is [ErrNotCached]; the flag asks for a refresh. *)
Definition questionCache (now : Z) (tag : string) (message : Msg) (options : DNSQueryOptions) (question : Question)
    (c : Client) : option (error + list Addr) * bool * Client :=
  let key := MkCacheKey question tag (effectiveClientSubnet c message options) in
  let (entry, c) := loadResponse now key c in
  match entry with
  | None => (None, false, c)
  | Some (response, _, isStale) =>
      if isStale && qo_DisableOptimisticCache options then (None, false, c)
      else (Some (if negb (Rcode response =? RcodeSuccess) then inl (ERcode (Rcode response))
                  else inr (MessageToAddresses response)), isStale, c)
  end.

Definition lookup_message (name : string) (qType : Z) : Msg :=
  MkMsg (MkMsgHdr 0 false 0 false false true false false false RcodeSuccess) [MkQuestion name qType ClassINET] [] [] [].

(** The result of [lookupToExchange] from that of [Exchange]. *)
Definition lookup_answer (r : error + Msg) : error + list Addr :=
  match r with
  | inl e => inl e
  | inr response =>
      if negb (Rcode response =? RcodeSuccess) then inl (ERcode (Rcode response))
      else inr (MessageToAddresses response)
  end.

(** The question types of [Lookup] and the options of their queries. *)
Definition lookup_strategy (options : DNSQueryOptions) : Z :=
  if negb (qo_LookupStrategy options =? DomainStrategyAsIS) then qo_LookupStrategy options else qo_Strategy options.
Definition lookup_types (options : DNSQueryOptions) : list Z :=
  let strategy := lookup_strategy options in
  if strategy =? DomainStrategyIPv4Only then [TypeA]
  else if strategy =? DomainStrategyIPv6Only then [TypeAAAA]
  else [TypeA; TypeAAAA].
Definition lookup_options (options : DNSQueryOptions) : DNSQueryOptions :=
  if negb (qo_LookupStrategy options =? DomainStrategyAsIS)
  then MkQueryOptions (lookup_strategy options) (qo_LookupStrategy options) (qo_DisableCache options)
         (qo_DisableOptimisticCache options) (qo_RewriteTTL options) (qo_Timeout options) (qo_ClientSubnet options)
  else options.

(** [Lookup] from the results of the lookups by type; the error of the task group is
    that of the lookups that failed. *)
Definition Lookup (options : DNSQueryOptions) (lookupToExchange : Z -> error + list Addr)
    : list error + list Addr :=
  match lookup_types options with
  | [qType] => match lookupToExchange qType with inl e => inl [e] | inr l => inr l end
  | _ =>
      let r4 := lookupToExchange TypeA in
      let r6 := lookupToExchange TypeAAAA in
      let addresses r := match r with inr l => l | inl _ => [] end in
      let errors r := match r with inr _ => [] | inl e => [e : error] end in
      match addresses r4, addresses r6 with
      | [], [] => match errors r4 ++ errors r6 with [] => inr [] | errs => inl errs end
      | l4, l6 => inr (sortAddresses l4 l6 (lookup_strategy options))
      end
  end.

(** ** client_truncate.go *)

(** The message [TruncateDNSMessage] packs. *)
Definition truncate_limit (request : Msg) : Z :=
  match Msg_IsEdns0 request with
  | Some opt => if 512 <? OPT_UDPSize opt then OPT_UDPSize opt else 512
  | None => 512
  end.
Definition TruncateDNSMessage (request response : Msg) : outcome bytes :=
  let maxLen := truncate_limit request in
  let response := if maxLen <? Msg_Len response then Msg_Truncate response maxLen else response in
  Msg_Pack response.
End Client.
