(* ===== verification/DnsClientSpec.v ===== *)
(** * DNS messages as the client builds and rewrites them

    Client subnets, times to live, fixed responses and the order of looked-up
    addresses. *)

From S2P Require Import Prelude GoStd Netip External DnsMsg RuleItems DnsClient.
From Stdlib Require Import Ascii.
Local Open Scope Z_scope.

Section Spec.
Context {X : External}.

(** ** Client subnet *)

Definition is_subnet (o : EDNS0) : bool := match o with SubnetOption _ => true | OtherOption _ _ => false end.

(** The additional records with the subnet options taken out. *)
Definition without_subnets (extra : list RR) : list RR :=
  (fun r => match r with RR_OPT h options => RR_OPT h (List.filter (fun o => negb (is_subnet o)) options) | r => r end) <$> extra.

Lemma first_subnet_None options : first_subnet options = None <-> List.filter is_subnet options = [].
Proof. induction options as [|[s|c d] options IH]; cbn; done. Qed.

Lemma first_subnet_split options : first_subnet options = (fun x => x.1.2) <$> split_subnet options.
Proof.
  induction options as [|[s|c d] options IH]; cbn; [done|done|]. rewrite IH. by destruct (split_subnet options) as [[[? ?] ?]|].
Qed.

Lemma split_subnet_eq options before s rest : split_subnet options = Some (before, s, rest) ->
  options = before ++ SubnetOption s :: rest /\ first_subnet before = None.
Proof.
  revert before. induction options as [|[s'|c d] options IH]; intros before; cbn; [done|by intros [= <- <- <-]|].
  destruct (split_subnet options) as [[[b s1] r]|]; [|done]. intros [= <- -> ->].
  destruct (IH b eq_refl) as [-> ?]. done.
Qed.

Lemma first_subnet_app before s rest : first_subnet before = None -> first_subnet (before ++ SubnetOption s :: rest) = Some s.
Proof. induction before as [|[|] before IH]; cbn; done. Qed.

(** After the assignment the first subnet option is the client's. *)
Lemma set_subnet_option_first p options : exists s,
  first_subnet (set_subnet_option p options) = Some s /\ sub_Address s = AsSlice (p_addr p) /\
  sub_SourceNetmask s = uint 8 (p_bits p) /\ sub_Family s = (if Is4 (p_addr p) then 1 else 2).
Proof.
  unfold set_subnet_option. destruct (split_subnet options) as [[[before s] rest]|] eqn:Hs.
  - apply split_subnet_eq in Hs as [-> Hb]. exists (assign_subnet p s). by rewrite first_subnet_app.
  - exists (assign_subnet p new_subnet). rewrite first_subnet_app; [done|]. rewrite first_subnet_split. by rewrite Hs.
Qed.

Lemma set_subnet_option_others p options :
  List.filter (fun o => negb (is_subnet o)) (set_subnet_option p options) = List.filter (fun o => negb (is_subnet o)) options.
Proof.
  unfold set_subnet_option. destruct (split_subnet options) as [[[before s] rest]|] eqn:Hs.
  - apply split_subnet_eq in Hs as [-> Hb]. by rewrite !List.filter_app.
  - rewrite List.filter_app. cbn. by rewrite app_nil_r.
Qed.

(** No OPT record in front carries a subnet. *)
Definition no_subnet (r : RR) : Prop := match r with RR_OPT _ options => first_subnet options = None | _ => True end.

Lemma clientSubnetFrom_app before rest : Forall no_subnet before -> clientSubnetFrom (before ++ rest) = clientSubnetFrom rest.
Proof.
  induction 1 as [|r before Hr _ IH]; [done|]. cbn. destruct r; try exact IH. cbn in Hr. by rewrite Hr.
Qed.

Lemma findExists_spec extra : forall before found, Forall no_subnet before ->
  (forall b h o r, found = Some (b, h, o, r) -> before ++ extra = b ++ RR_OPT h o :: r /\ Forall no_subnet b) ->
  match findExists extra before found with
  | Some (b, h, o, r) => before ++ extra = b ++ RR_OPT h o :: r /\ Forall no_subnet b
  | None => Forall no_subnet (before ++ extra)
  end.
Proof.
  induction extra as [|r extra IH]; intros before found Hb Hf.
  { cbn. destruct found as [[[[b h] o] r]|]; [by apply Hf|by rewrite app_nil_r]. }
  assert (before ++ r :: extra = (before ++ [r]) ++ extra) as Happ by (by rewrite <- app_assoc).
  assert (forall found', no_subnet r ->
    (forall b h o r0, found' = Some (b, h, o, r0) -> (before ++ [r]) ++ extra = b ++ RR_OPT h o :: r0 /\ Forall no_subnet b) ->
    match findExists extra (before ++ [r]) found' with
    | Some (b, h, o, r0) => before ++ r :: extra = b ++ RR_OPT h o :: r0 /\ Forall no_subnet b
    | None => Forall no_subnet (before ++ r :: extra)
    end) as Hgo.
  { intros found' Hr Hf'. rewrite Happ. apply IH; [|done]. apply Forall_app. split; [done|]. by constructor. }
  cbn [findExists]. destruct r as [h0 a0|h0 a0|h0 t0|h0 t0|h0 p0 x0|h0 x0 o0|h0 p0 t0 v0|h options|h0 o0]; try (by apply Hgo).
  destruct (first_subnet options) as [s|] eqn:Hs; [done|].
  apply Hgo; [done|]. intros b h' o r0 [= <- <- <- <-]. by rewrite <- Happ.
Qed.

(** [SetClientSubnet] and [clientSubnetFromMessage] are inverse for every message
    and every valid prefix, whatever options the message had; nothing else of the
    message changes but that an OPT record is added when none can be used. *)
Theorem client_subnet_roundtrip message p : prefix_ok p -> PrefixIsValid p = true ->
  let message' := SetClientSubnet message p in
  clientSubnetFromMessage message' = p /\
  Hdr message' = Hdr message /\ Questions message' = Questions message /\
  Answer message' = Answer message /\ Ns message' = Ns message /\
  (without_subnets (Extra message') = without_subnets (Extra message) \/
   without_subnets (Extra message') = without_subnets (Extra message) ++ [RR_OPT (MkHeader "." TypeOPT 0 0) []]).
Proof.
  intros [(Hwf & Hz & Hv) Hp] Hval. unfold SetClientSubnet, clientSubnetFromMessage.
  assert (IsValid (p_addr p) = true) as Hv'.
  { destruct (IsValid (p_addr p)) eqn:E; [done|]. rewrite (Hv eq_refl) in Hp. rewrite Hp in Hval. done. }
  assert (0 <= p_bits p < 256) as Hbits.
  { rewrite Hp in Hval. unfold PrefixFrom, PrefixIsValid in Hval. cbn in Hval. rewrite Hp. cbn.
    destruct (_ && _) eqn:E; [|done]. to_prop. assert (BitLen (p_addr p) <= 128) by (destruct (p_addr p); cbn; lia). lia. }
  assert (forall before options rest h, Forall no_subnet before ->
    clientSubnetFrom (before ++ RR_OPT h (set_subnet_option p options) :: rest) = p) as Hget.
  { intros before options rest h Hb. rewrite clientSubnetFrom_app by done. cbn.
    destruct (set_subnet_option_first p options) as (s & -> & Ha & Hm & _).
    rewrite Ha, Hm, AddrFromSlice_AsSlice by done. rewrite Hv'. cbn. rewrite uint_small by (cbn; lia). by rewrite <- Hp. }
  pose proof (findExists_spec (Extra message) [] None ltac:(constructor) ltac:(done)) as Hf.
  destruct (findExists (Extra message) [] None) as [[[[b h] o] r]|].
  - destruct Hf as [Heq Hb]. cbn in Heq. split_and!; try done; [by apply Hget|]. left. cbn. rewrite Heq.
    unfold without_subnets. rewrite !fmap_app, !fmap_cons. by rewrite set_subnet_option_others.
  - split_and!; try done; [by apply Hget|]. right. cbn. unfold without_subnets. by rewrite fmap_app.
Qed.

(** ** Times to live *)

Definition ttl_range (m : Msg) : Prop := Forall (fun h => 0 <= Ttl h) (Header <$> sections m).
Definition counted (m : Msg) : list Z := Ttl ∘ Header <$> List.filter (fun r => negb (is_OPT r)) (sections m).

(** [t] is the least positive number of a list, or 0 when there is none. *)
Definition least_positive (t : Z) (l : list Z) : Prop :=
  (t = 0 /\ Forall (fun x => x = 0) l) \/ (0 < t /\ t ∈ l /\ Forall (fun x => 0 < x -> t <= x) l).

Lemma fold_ttl_step l : forall acc, 0 <= acc -> Forall (fun r => 0 <= Ttl (Header r)) l ->
  least_positive (fold_left ttl_step l acc) (acc :: (Ttl ∘ Header <$> List.filter (fun r => negb (is_OPT r)) l)).
Proof.
  induction l as [|r l IH]; intros acc Hacc Hl.
  { cbn. destruct (decide (acc = 0)) as [->|]; [left; split; [done|by repeat constructor]|right].
    split; [lia|]. split; [by left|]. repeat constructor; lia. }
  apply Forall_cons in Hl as [Hr Hl]. cbn [fold_left]. unfold ttl_step at 2. cbn [List.filter].
  destruct (is_OPT r); cbn [negb]; [by apply IH|]. rewrite fmap_cons. cbn [compose].
  set (t := Ttl (Header r)) in *. change ((Ttl ∘ Header) r) with t.
  destruct (decide (acc = 0)) as [->|Hne]; cbn.
  - destruct (IH t Hr Hl) as [[-> Hall]|(Hp & Hin & Hle)]; [left|right]; split; try done.
    + by constructor.
    + split; [by right|]. constructor; [lia|done].
  - rewrite (proj2 (Z.eqb_neq acc 0)) by done. cbn. destruct ((0 <? t) && (t <? acc)) eqn:Hlt; to_prop.
    + destruct (IH t Hr Hl) as [[-> Hall]|(Hp & Hin & Hle)]; [apply Forall_cons in Hall; lia|right].
      apply Forall_cons in Hle as [Ht Hle]. split; [done|]. split; [by right|]. constructor; [lia|]. by constructor.
    + assert (t = 0 \/ acc <= t) as Ht by (apply andb_false_iff in Hlt; lia).
      destruct (IH acc Hacc Hl) as [[-> Hall]|(Hp & Hin & Hle)]; [apply Forall_cons in Hall; lia|right].
      apply Forall_cons in Hle as [Ha Hle]. split; [done|]. split; [|repeat constructor; try done; lia].
      apply elem_of_cons in Hin as [->|Hin]; [by left|right; by right].
Qed.

Lemma least_positive_0 t l : least_positive t (0 :: l) -> least_positive t l.
Proof.
  intros [[-> [_ H]%Forall_cons]|(Hp & Hin & [_ Hle]%Forall_cons)]; [by left|right]. split_and!; try done.
  apply elem_of_cons in Hin as [->|]; [lia|done].
Qed.

Definition headers (m : Msg) : list RR_Header := Header <$> sections m.

Lemma extractNegativeTTL_spec ns soa : extractNegativeTTL ns = Some soa ->
  exists before h minttl rest after, ns = before ++ RR_SOA h minttl rest :: after /\
    Forall (fun r => match r with RR_SOA _ _ _ => False | _ => True end) before /\ soa = Z.min (Ttl h) minttl.
Proof.
  induction ns as [|r ns IH]; [done|]. cbn. intros H.
  assert (forall r, (match r with RR_SOA _ _ _ => False | _ => True end) -> extractNegativeTTL ns = Some soa ->
    exists before h minttl rest after, r :: ns = before ++ RR_SOA h minttl rest :: after /\
    Forall (fun r => match r with RR_SOA _ _ _ => False | _ => True end) before /\ soa = Z.min (Ttl h) minttl) as Hgo.
  { intros r' Hr' (b & h & x & o & a & -> & Hb & ->)%IH. exists (r' :: b), h, x, o, a. split; [done|]. split; [by constructor|done]. }
  destruct r as [| | | | |h x o| | |]; try (by apply Hgo). injection H as <-. exists [], h, x, o, ns. split_and!; [done|done|].
  destruct (Z.ltb_spec (Ttl h) x); lia.
Qed.

Lemma normalize_OPT m t : List.filter is_OPT (Extra (normalizeTTL m t)) = List.filter is_OPT (Extra m).
Proof.
  unfold normalizeTTL. cbn. induction (Extra m) as [|r l IH]; [done|]. cbn.
  destruct (is_OPT r) eqn:Hr; cbn; [by rewrite Hr, IH|]. unfold is_OPT, set_Ttl in *. rewrite Header_set_Header. cbn. by rewrite Hr.
Qed.

Lemma normalize_all m t :
  Forall (fun r => Ttl (Header r) = t) (List.filter (fun r => negb (is_OPT r)) (sections (normalizeTTL m t))).
Proof.
  unfold normalizeTTL. rewrite sections_map. induction (sections m) as [|r l IH]; [done|]. cbn.
  destruct (is_OPT r) eqn:Hr; cbn; [by rewrite Hr|]. unfold is_OPT, set_Ttl in *. rewrite Header_set_Header. cbn. rewrite Hr. cbn.
  constructor; [|done]. by rewrite Header_set_Header.
Qed.

Lemma counted_headers m m' : headers m = headers m' -> counted m = counted m'.
Proof.
  unfold headers, counted. intros H.
  assert (forall l : list RR, (Ttl ∘ Header <$> List.filter (fun r => negb (is_OPT r)) l) =
    (Ttl <$> List.filter (fun h => negb (Rrtype h =? TypeOPT)) (Header <$> l))) as Hl.
  { induction l as [|r l IH]; [done|]. rewrite fmap_cons. cbn [List.filter]. change (is_OPT r) with (Rrtype (Header r) =? TypeOPT).
    destruct (negb (Rrtype (Header r) =? TypeOPT)); [rewrite !fmap_cons; f_equal|]; exact IH. }
  by rewrite !Hl, H.
Qed.

Lemma sections_ttl m : Forall (fun h => 0 <= Ttl h) (headers m) -> least_positive (fold_left ttl_step (sections m) 0) (counted m).
Proof. intros H. apply least_positive_0, fold_ttl_step; [done|]. unfold headers in H. rewrite Forall_fmap in H. exact H. Qed.

(** The time to live of a response.  A rewritten one is taken as it is; a
    response without answers has that of the SOA record, the smaller of its own and
    its minimum; otherwise it is the least positive one of the records other than
    OPT, and 0 only when all are 0.  Every such record of the rewritten response
    carries it, and OPT records are left alone. *)
Theorem response_time_to_live question response options : ttl_range response ->
  let (t, response') := applyResponseOptions question response options in
  Forall (fun r => Ttl (Header r) = t) (List.filter (fun r => negb (is_OPT r)) (sections response')) /\
  List.filter is_OPT (Extra response') = List.filter is_OPT (Extra response) /\
  (Hdr response', Questions response') = (Hdr response, Questions response) /\
  match qo_RewriteTTL options with
  | Some ttl => t = ttl
  | None =>
      (Answer response = [] /\ exists before h minttl rest after, Ns response = before ++ RR_SOA h minttl rest :: after /\
         Forall (fun r => match r with RR_SOA _ _ _ => False | _ => True end) before /\ t = Z.min (Ttl h) minttl) \/
      least_positive t (counted response)
  end.
Proof.
  intros Hr. unfold applyResponseOptions. cbv zeta.
  match goal with |- context [default (computeTimeToLive ?m)] => set (response1 := m) end.
  assert (headers response1 = headers response) as Hh.
  { unfold response1. case_match; [|done]. unfold headers, sections. cbn. rewrite !fmap_app, <- list_fmap_compose. f_equal.
    apply list_fmap_ext. intros _ r _. unfold filter_hints. by destruct r. }
  assert (Hdr response1 = Hdr response /\ Questions response1 = Questions response /\ Ns response1 = Ns response /\
    (Answer response1 = [] <-> Answer response = [])) as (H1 & H2 & H3 & H4).
  { unfold response1. case_match; cbn; [|done]. split_and!; try done. by destruct (Answer response). }
  assert (Extra response1 = Extra response) as Hopt by (unfold response1; by case_match).
  set (t := default _ _). rewrite normalize_OPT, Hopt. split_and!; [apply normalize_all|done|cbn; congruence|].
  unfold t. destruct (qo_RewriteTTL options) as [ttl|]; [done|]. cbn [default].
  assert (least_positive (fold_left ttl_step (sections response1) 0) (counted response)) as Hfold.
  { rewrite <- (counted_headers response1 response Hh). apply sections_ttl. rewrite Hh. exact Hr. }
  unfold computeTimeToLive. rewrite H3.
  destruct (extractNegativeTTL (Ns response)) as [soa|] eqn:Hs, (Answer response1) as [|a l] eqn:Ha.
  - left. split; [by apply H4|]. by apply extractNegativeTTL_spec.
  - right. exact Hfold.
  - right. exact Hfold.
  - right. exact Hfold.
Qed.

(** ** Fixed responses *)

Definition of_type (qType : Z) (a : Addr) : bool :=
  if qType =? TypeA then Is4 a else if qType =? TypeAAAA then Is6 a else false.

(** A response built by [FixedResponse] gives back, in order, the addresses of
    the question's family, with the time to live on every record. *)
Theorem fixed_response_addresses `{!ExternalLaws X} id question addresses ttl : Forall addr_plain addresses ->
  let response := FixedResponse id question addresses ttl in
  lookup_answer (inr response) = inr (List.filter (of_type (q_Qtype question)) addresses) /\
  Forall (fun r => Header r = MkHeader (q_Name question) (q_Qtype question) ClassINET ttl) (Answer response).
Proof.
  intros Hall. unfold FixedResponse, lookup_answer, MessageToAddresses, DNSResponseAddresses, Rcode. cbn.
  induction Hall as [|a l Ha _ [IH1 IH2]]; [done|]. cbn. unfold of_type, fixed_record in *.
  assert (forall b, addr_plain b -> IsValid b = true -> valid_addr (AddrFromIP (AsSlice b)) = [b]) as Hv.
  { intros b Hb Hv. rewrite AddrFromIP_AsSlice by done. unfold valid_addr. by rewrite Hv. }
  injection IH1 as IH1. destruct a as [v|v|v z]; cbn in *.
  - destruct (_ =? TypeA), (_ =? TypeAAAA); (split; [by rewrite IH1|done]).
  - destruct (q_Qtype question =? TypeA) eqn:Ht; cbn.
    + apply Z.eqb_eq in Ht. pose proof (Hv (Addr4 v) Ha eq_refl) as Hv4. cbn in Hv4. rewrite Hv4. cbn. rewrite IH1. split; [done|]. constructor; [cbn; by rewrite Ht|done].
    + destruct (_ =? TypeAAAA); split; try done; by rewrite IH1.
  - destruct (q_Qtype question =? TypeA) eqn:Ht; cbn.
    + apply Z.eqb_eq in Ht. rewrite Ht in *. cbn in *. split; [by rewrite IH1|done].
    + destruct (q_Qtype question =? TypeAAAA) eqn:Ht6; cbn; [|split; [by rewrite IH1|done]].
      apply Z.eqb_eq in Ht6. pose proof (Hv (Addr6 v z) Ha eq_refl) as Hv6. cbn in Hv6. rewrite Hv6. cbn. rewrite IH1. split; [done|]. constructor; [cbn; by rewrite Ht6|done].
Qed.

(** ** Names of the persistent store *)

Fixpoint has_nul (s : string) : bool :=
  match s with EmptyString => false | String a s => Ascii.eqb a zero || has_nul s end.

Lemma append_nul_inj a b s t : has_nul a = false -> has_nul b = false ->
  a +:+ String zero s = b +:+ String zero t -> a = b /\ s = t.
Proof.
  revert b. induction a as [|x a IH]; intros [|y b]; cbn; intros Ha Hb Heq.
  - by injection Heq.
  - injection Heq as <- _. by cbn in Hb.
  - injection Heq as -> _. by cbn in Ha.
  - injection Heq as <- Heq. apply orb_false_iff in Ha as [_ Ha], Hb as [_ Hb]. by destruct (IH b Ha Hb Heq) as [-> ->].
Qed.

Lemma has_nul_append a s : has_nul (a +:+ String zero s) = true.
Proof. induction a as [|x a IH]; [done|]. change (Ascii.eqb x zero || has_nul (a +:+ String zero s) = true). rewrite IH. apply orb_true_r. Qed.

(** Keys of transports whose tags have no NUL byte share a name in the store only when
    transport and subnet agree. *)
Lemma persistentName_inj k k' : has_nul (ck_transportTag k) = false -> has_nul (ck_transportTag k') = false ->
  (Prefix_String (ck_clientSubnet k) = Prefix_String (ck_clientSubnet k') -> ck_clientSubnet k = ck_clientSubnet k') ->
  persistentName k = persistentName k' ->
  ck_transportTag k = ck_transportTag k' /\
  (ck_clientSubnet k = ck_clientSubnet k' \/
   (PrefixIsValid (ck_clientSubnet k) = false /\ PrefixIsValid (ck_clientSubnet k') = false)).
Proof.
  intros Hk Hk' Hinj. unfold persistentName.
  destruct (PrefixIsValid (ck_clientSubnet k)) eqn:H1, (PrefixIsValid (ck_clientSubnet k')) eqn:H2; cbn; intros Heq.
  - apply append_nul_inj in Heq as [? ?]; auto.
  - rewrite <- Heq, has_nul_append in Hk'. done.
  - rewrite Heq, has_nul_append in Hk. done.
  - auto.
Qed.
End Spec.
