(* ===== verification/DnsExchange.v ===== *)
(** * Concurrent exchanges of the DNS client

    [Client.Exchange] and [Client.ExchangeAsync] (dns/client.go) as threads that share
    the client.  A thread goes through the phases of its call: taking the cache lock
    of its key or waiting for the holder, reading the cache, asking the transport,
    storing the answer, and releasing the lock, which deletes the entry and then
    closes the channel.  The goroutine of [backgroundRefreshDNS] is a thread too.  The
    transport's replies and the cancellation of a context are inputs.

    The invariant of the lock table gives that the client never deadlocks and that
    every exchange is answered. *)

From S2P Require Import Prelude GoStd Netip External DnsMsg RuleItems DnsClient.
Local Open Scope Z_scope.

Section Exchange.
Context {X : External} {L : DnsLib}.
Context {MC RD DC : Type} `{!LRUCache dnsCacheKey Msg MC} `{!RDRCStore RD} `{!DNSCacheStore DC}.
Abbreviation Client := (@DnsClient.Client MC RD DC).

(** ** Threads *)

(** The arguments of a call; [ca_async] for [ExchangeAsync], [ca_context] the transport
    that is resolving in the context. *)
Record call := MkCall {
  ca_tag : string;
  ca_message : Msg;
  ca_options : DNSQueryOptions;
  ca_checker : option (Msg -> bool);
  ca_context : option string;
  ca_async : bool
}.

Abbreviation result := (option Msg * option error)%type.

Inductive phase :=
| PBegin
| PWait (op : exchangeOperation) (cond : nat)
| PLoad (op : exchangeOperation)
| PCheck (op : exchangeOperation)
| PExchange (op : exchangeOperation)
| PRelease (key : dnsCacheKey) (cond : nat) (r : result)
| PClose (cond : nat) (r : result)
| PRefresh (key : dnsCacheKey) (message : Msg)
| PDone (r : result)
| PPanic (msg : string).

Record thread := MkThread { th_call : call; th_phase : phase }.

(** What a step consumes: a reply of the transport, the end of the context, nothing. *)
Inductive input := IReply (reply : error + Msg) | ICancel (e : error) | INone.

(** An answer of a transport, as the client took it up. *)
Record event := MkEvent { ev_time : Z; ev_key : dnsCacheKey; ev_options : DNSQueryOptions; ev_response : Msg }.

Record shared := MkShared { sh_client : Client; sh_closed : gset nat; sh_next : nat }.

(** [operation.release()] before returning [r]. *)
Definition release (op : exchangeOperation) (r : result) : phase :=
  match op_cond op with
  | Some cond => PRelease (op_cacheKey op) cond r
  | None => PDone r
  end.

Definition sync (ca : call) : call :=
  MkCall (ca_tag ca) (ca_message ca) (ca_options ca) (ca_checker ca) (ca_context ca) false.

(** One step of a thread at the time [now]: the thread, the threads it starts, the
    answers it took, the shared state; [None] when it cannot take the input. *)
Definition run (now : Z) (inp : input) (th : thread) (s : shared) : option (thread * list thread * list event * shared) :=
  let ca := th_call th in
  let c := sh_client s in
  let go p c := Some (MkThread ca p, [], [], MkShared c (sh_closed s) (sh_next s)) in
  match th_phase th, inp with
  | PBegin, INone =>
      match begin_operation c (ca_tag ca) (ca_message ca) (ca_options ca) (ca_checker ca) with
      | Ok (inl response) => go (PDone (Some response, None)) c
      | Ok (inr op) =>
          if op_disableCache op then go (PCheck op) c
          else
            let (holder, c) := LoadOrStore (op_cacheKey op) (sh_next s) c in
            match holder with
            | Some cond =>
                if ca_async ca then Some (MkThread (sync ca) PBegin, [], [], MkShared c (sh_closed s) (sh_next s))
                else go (PWait op cond) c
            | None =>
                Some (MkThread ca (PLoad (with_cond op (Some (sh_next s)))), [], [],
                      MkShared c (sh_closed s) (S (sh_next s)))
            end
      | Panic msg => go (PPanic msg) c
      | _ => None
      end
  | PWait op cond, INone => if bool_decide (cond ∈ sh_closed s) then go (PLoad op) c else None
  | PWait op cond, ICancel e => go (PDone (None, Some e)) c
  | PLoad op, INone =>
      let (cached, c) := load_cached now op c in
      match cached with
      | Some (response, true) =>
          let (started, c) := start_refresh (op_cacheKey op) c in
          Some (MkThread ca (release op (Some response, None)),
                if started then [MkThread ca (PRefresh (op_cacheKey op) (op_message op))] else [], [],
                MkShared c (sh_closed s) (sh_next s))
      | Some (response, false) => go (release op (Some response, None)) c
      | None => go (PCheck op) c
      end
  | PCheck op, INone =>
      let (err, c) := check_transport now (ca_context ca) (ca_tag ca) op c in
      match err with
      | Some e => go (release op (None, Some e)) c
      | None => go (PExchange op) c
      end
  | PExchange op, IReply reply =>
      match transport_answer (op_message op) reply with
      | inl e => go (release op (None, Some e)) c
      | inr response =>
          let '(c, (response', err)) := finishExchange now (ca_tag ca) op response c in
          Some (MkThread ca (release op (Some response', err)), [],
                [MkEvent now (op_cacheKey op) (op_options op) response], MkShared c (sh_closed s) (sh_next s))
      end
  | PRelease key cond r, INone =>
      go (PClose cond r) (with_locks c (delete key (cl_cacheLock c)) (cl_backgroundRefresh c))
  | PClose cond r, INone => Some (MkThread ca (PDone r), [], [], MkShared c ({[cond]} ∪ sh_closed s) (sh_next s))
  | PRefresh key message, IReply reply =>
      let answer := transport_answer message reply in
      let c := finish_refresh now (ca_tag ca) key (ca_options ca) (ca_checker ca) answer c in
      Some (MkThread ca (PDone (None, None)), [],
            match answer with inr response => [MkEvent now key (ca_options ca) response] | inl _ => [] end,
            MkShared c (sh_closed s) (sh_next s))
  | _, _ => None
  end.

(** ** The system *)

Record state := MkState {
  st_now : Z;
  st_threads : list thread;
  st_shared : shared;
  st_log : list event
}.

(** The persistent store changes on its own when it is flushed and cleaned up:
    entries may go, or expire earlier. *)
Definition store_decays (d d' : DC) : Prop :=
  forall name qName qType raw e', store_LoadDNSCache name qName qType d' = Some (raw, e') ->
    exists e, store_LoadDNSCache name qName qType d = Some (raw, e) /\ e' <= e.

Inductive step : state -> state -> Prop :=
| step_thread st inp l1 th l2 th' spawned events s' :
    st_threads st = l1 ++ th :: l2 ->
    run (st_now st) inp th (st_shared st) = Some (th', spawned, events, s') ->
    step st (MkState (st_now st) (l1 ++ th' :: l2 ++ spawned) s' (st_log st ++ events))
| step_call st ca :
    step st (MkState (st_now st) (st_threads st ++ [MkThread ca PBegin]) (st_shared st) (st_log st))
| step_time st now : st_now st <= now ->
    step st (MkState now (st_threads st) (st_shared st) (st_log st))
| step_clear st :
    step st (MkState (st_now st) (st_threads st)
      (MkShared (ClearCache (sh_client (st_shared st))) (sh_closed (st_shared st)) (sh_next (st_shared st))) (st_log st))
| step_store st d d' :
    cl_dnsCache (sh_client (st_shared st)) = Some d -> store_decays d d' ->
    step st (MkState (st_now st) (st_threads st)
      (MkShared (with_dnsCache (sh_client (st_shared st)) d') (sh_closed (st_shared st)) (sh_next (st_shared st))) (st_log st)).

(** A started client with nothing in flight; [log] are the answers an earlier run of
    the program left in the store. *)
Definition initial (o : ClientOptions RD DC) (now : Z) (log : list event) : state :=
  MkState now [] (MkShared (Client_Start (NewClient o)) ∅ 0) log.
Definition reachable (o : ClientOptions RD DC) (now : Z) (log : list event) : state -> Prop :=
  rtc step (initial o now log).

(** Executions with the number of steps of threads: no new call comes in. *)
Inductive runs : nat -> state -> state -> Prop :=
| runs_nil st : runs 0 st st
| runs_thread n st st' inp l1 th l2 th' spawned events s' :
    st_threads st = l1 ++ th :: l2 ->
    run (st_now st) inp th (st_shared st) = Some (th', spawned, events, s') ->
    runs n (MkState (st_now st) (l1 ++ th' :: l2 ++ spawned) s' (st_log st ++ events)) st' ->
    runs (S n) st st'
| runs_other n st st1 st' : step st st1 -> st_threads st1 = st_threads st -> runs n st1 st' -> runs n st st'.

(** ** What the phases hold *)

(** The channel a thread still has to close. *)
Definition owned (th : thread) : option nat :=
  match th_phase th with
  | PLoad op | PCheck op | PExchange op => op_cond op
  | PRelease _ cond _ | PClose cond _ => Some cond
  | _ => None
  end.

(** The entry of the lock table a thread has stored. *)
Definition held (th : thread) : option (dnsCacheKey * nat) :=
  match th_phase th with
  | PLoad op | PCheck op | PExchange op => (fun cond => (op_cacheKey op, cond)) <$> op_cond op
  | PRelease key cond _ => Some (key, cond)
  | _ => None
  end.

Definition refreshing (th : thread) : option dnsCacheKey :=
  match th_phase th with PRefresh key _ => Some key | _ => None end.

Definition finished (th : thread) : bool :=
  match th_phase th with PDone _ | PPanic _ => true | _ => false end.

(** The invariant of the lock table, the channels and the refresh table; a waiter's
    operation has no channel of its own. *)
Record locks_ok (ths : list thread) (s : shared) : Prop := {
  lo_nodup : NoDup (omap owned ths);
  lo_open : forall ch, ch ∈ omap owned ths <-> (ch < sh_next s)%nat /\ ch ∉ sh_closed s;
  lo_closed : forall ch, ch ∈ sh_closed s -> (ch < sh_next s)%nat;
  lo_held_nodup : NoDup (omap held ths);
  lo_lock : forall k ch, cl_cacheLock (sh_client s) !! k = Some ch <-> (k, ch) ∈ omap held ths;
  lo_wait : forall th op cond, th ∈ ths -> th_phase th = PWait op cond -> (cond < sh_next s)%nat /\ op_cond op = None;
  lo_refresh : forall k, k ∈ cl_backgroundRefresh (sh_client s) <-> k ∈ omap refreshing ths;
  lo_refresh_nodup : NoDup (omap refreshing ths)
}.

(** Number of steps a thread may still take, those of the threads it starts included. *)
Definition weight (th : thread) : nat :=
  match th_phase th with
  | PBegin => if ca_async (th_call th) then 10 else 9
  | PWait _ _ => 8
  | PLoad _ => 7
  | PCheck _ => 5
  | PExchange _ => 4
  | PRelease _ _ _ => 3
  | PClose _ _ => 2
  | PRefresh _ _ => 1
  | PDone _ | PPanic _ => 0
  end.
Definition total_weight (ths : list thread) : nat := sum_list_with weight ths.
End Exchange.
