(* ===== verification/DnsExchangeSpec.v ===== *)
(** * Locks of the DNS client: no deadlock, every exchange is answered

    The invariant [locks_ok] over every interleaving of exchanges, background
    refreshes, cache clears and store clean-ups, and what follows from it. *)

From S2P Require Import Prelude GoStd Netip External DnsMsg RuleItems DnsClient DnsExchange.
Local Open Scope Z_scope.

Section Spec.
Context {X : External} {L : DnsLib}.
Context {MC RD DC : Type} `{!LRUCache dnsCacheKey Msg MC} `{!RDRCStore RD} `{!DNSCacheStore DC}.
Abbreviation Client := (@DnsClient.Client MC RD DC).
Implicit Types (c : Client) (th : thread) (s : @shared MC RD DC).

(** ** The stores do not touch the locks *)

Definition same_locks c c' : Prop :=
  cl_cacheLock c' = cl_cacheLock c /\ cl_backgroundRefresh c' = cl_backgroundRefresh c.

#[local] Instance same_locks_refl : Reflexive same_locks.
Proof. by split. Qed.
#[local] Instance same_locks_trans : Transitive same_locks.
Proof. intros ??? [? ?] [? ?]. split; congruence. Qed.

Lemma storeCache_locks now key m ttl c : same_locks c (storeCache now key m ttl c).
Proof. unfold storeCache. repeat case_match; done. Qed.

Lemma loadResponse_locks now key c r c' : loadResponse now key c = (r, c') -> same_locks c c'.
Proof. unfold loadResponse. repeat case_match; intros; simplify_eq; done. Qed.

Lemma load_cached_locks now op c r c' : load_cached now op c = (r, c') -> same_locks c c'.
Proof.
  unfold load_cached. destruct (loadResponse _ _ _) as [e c1] eqn:Hl. apply loadResponse_locks in Hl.
  repeat case_match; intros; simplify_eq; done.
Qed.

Lemma check_transport_locks now ctx tag op c r c' : check_transport now ctx tag op c = (r, c') -> same_locks c c'.
Proof. unfold check_transport. repeat case_match; intros; simplify_eq; done. Qed.

Lemma finishExchange_locks now tag op m c c' r : finishExchange now tag op m c = (c', r) -> same_locks c c'.
Proof.
  unfold finishExchange. repeat case_match; intros; simplify_eq; try done; apply storeCache_locks.
Qed.

Lemma finish_refresh_locks now tag key o chk a c :
  cl_cacheLock (finish_refresh now tag key o chk a c) = cl_cacheLock c /\
  cl_backgroundRefresh (finish_refresh now tag key o chk a c) = cl_backgroundRefresh c ∖ {[key]}.
Proof.
  unfold finish_refresh. destruct a as [e|m]; [done|]. destruct (response_rejected chk m).
  { by destruct (cl_rdrc c). }
  destruct (match chk with Some _ => _ | None => _ end); [done|].
  destruct (applyResponseOptions _ m o) as [ttl m']. destruct (storeCache_locks now key m' ttl c) as [H1 H2].
  cbn. by rewrite H1, H2.
Qed.

Lemma ClearCache_locks c : same_locks c (ClearCache c).
Proof. unfold ClearCache. repeat case_match; done. Qed.

(** ** The effect of a step on the tables *)

Inductive effect th th' (sp : list thread) s s' : Prop :=
| E_keep : owned th' = owned th -> held th' = held th -> refreshing th = None -> refreshing th' = None -> sp = [] ->
    same_locks (sh_client s) (sh_client s') -> sh_closed s' = sh_closed s -> sh_next s' = sh_next s -> effect th th' sp s s'
| E_acquire k : owned th = None -> held th = None -> owned th' = Some (sh_next s) -> held th' = Some (k, sh_next s) ->
    refreshing th = None -> refreshing th' = None -> sp = [] ->
    cl_cacheLock (sh_client s) !! k = None ->
    cl_cacheLock (sh_client s') = <[k := sh_next s]> (cl_cacheLock (sh_client s)) ->
    cl_backgroundRefresh (sh_client s') = cl_backgroundRefresh (sh_client s) ->
    sh_closed s' = sh_closed s -> sh_next s' = S (sh_next s) -> effect th th' sp s s'
| E_unlock k ch : owned th = Some ch -> held th = Some (k, ch) -> owned th' = Some ch -> held th' = None ->
    refreshing th = None -> refreshing th' = None -> sp = [] ->
    cl_cacheLock (sh_client s') = delete k (cl_cacheLock (sh_client s)) ->
    cl_backgroundRefresh (sh_client s') = cl_backgroundRefresh (sh_client s) ->
    sh_closed s' = sh_closed s -> sh_next s' = sh_next s -> effect th th' sp s s'
| E_close ch : owned th = Some ch -> held th = None -> owned th' = None -> held th' = None ->
    refreshing th = None -> refreshing th' = None -> sp = [] -> sh_client s' = sh_client s ->
    sh_closed s' = {[ch]} ∪ sh_closed s -> sh_next s' = sh_next s -> effect th th' sp s s'
| E_refresh k th1 : owned th' = owned th -> held th' = held th -> refreshing th = None -> refreshing th' = None ->
    sp = [th1] -> owned th1 = None -> held th1 = None -> refreshing th1 = Some k ->
    (forall op cond, th_phase th1 <> PWait op cond) ->
    k ∉ cl_backgroundRefresh (sh_client s) -> cl_cacheLock (sh_client s') = cl_cacheLock (sh_client s) ->
    cl_backgroundRefresh (sh_client s') = {[k]} ∪ cl_backgroundRefresh (sh_client s) ->
    sh_closed s' = sh_closed s -> sh_next s' = sh_next s -> effect th th' sp s s'
| E_refreshed k : owned th = None -> held th = None -> refreshing th = Some k ->
    owned th' = None -> held th' = None -> refreshing th' = None -> sp = [] ->
    cl_cacheLock (sh_client s') = cl_cacheLock (sh_client s) ->
    cl_backgroundRefresh (sh_client s') = cl_backgroundRefresh (sh_client s) ∖ {[k]} ->
    sh_closed s' = sh_closed s -> sh_next s' = sh_next s -> effect th th' sp s s'.

Lemma release_owned ca op r : owned (MkThread ca (release op r)) = op_cond op.
Proof. unfold release, owned. cbn. by destruct (op_cond op). Qed.
Lemma release_held ca op r : held (MkThread ca (release op r)) = (fun cond => (op_cacheKey op, cond)) <$> op_cond op.
Proof. unfold release, held. cbn. by destruct (op_cond op). Qed.
Lemma release_refreshing ca op r : refreshing (MkThread ca (release op r)) = None.
Proof. unfold release, refreshing. cbn. by destruct (op_cond op). Qed.
Hint Rewrite release_owned release_held release_refreshing : go.

(** A waiter's operation has no channel, and the operation of a new call has none. *)
Definition quiet_wait th : Prop := forall op cond, th_phase th = PWait op cond -> op_cond op = None.

Lemma begin_operation_cond c tag m o chk op : begin_operation c tag m o chk = Ok (inr op) -> op_cond op = None.
Proof.
  unfold begin_operation. destruct (Questions m); [done|]. case_match; [done|].
  destruct (isSimpleRequest m); cbn; try done. by intros [= <-].
Qed.

Ltac keep := apply E_keep; autorewrite with go; try done.

Lemma run_effect now inp th s th' sp ev s' :
  quiet_wait th -> run now inp th s = Some (th', sp, ev, s') -> effect th th' sp s s'.
Proof.
  destruct th as [ca ph], s as [c closed next]. intros Hq. unfold run. cbn [th_phase th_call sh_client sh_closed sh_next].
  destruct ph as [|op cond|op|op|op|key cond r|cond r|key m|r|msg]; destruct inp as [reply|e|]; try done.
  - destruct (begin_operation _ _ _ _ _) as [[m|op]|e|msg|] eqn:Hb; try done; [intros [= <- <- <- <-]; by keep| |intros [= <- <- <- <-]; by keep].
    pose proof (begin_operation_cond _ _ _ _ _ _ Hb) as Hc.
    destruct (op_disableCache op); [intros [= <- <- <- <-]; keep; by (unfold owned, held; cbn; rewrite Hc)|].
    unfold LoadOrStore. destruct (cl_cacheLock c !! op_cacheKey op) as [ch|] eqn:Hk.
    + destruct (ca_async ca); intros [= <- <- <- <-]; by keep.
    + intros [= <- <- <- <-]. by eapply (E_acquire _ _ _ _ _ (op_cacheKey op)).
  - intros [= <- <- <- <-]. by keep.
  - case_bool_decide; [|done]. intros [= <- <- <- <-]. specialize (Hq op cond eq_refl).
    keep; by (unfold owned, held; cbn; rewrite Hq).
  - destruct (load_cached now op c) as [[[m []]|] c1] eqn:Hl; apply load_cached_locks in Hl as Hl'.
    + unfold start_refresh. destruct Hl' as [Hl1 Hl2].
      case_bool_decide as Hin; intros [= <- <- <- <-]; [keep|].
      eapply E_refresh; autorewrite with go; try done; cbn; rewrite ?Hl1, ?Hl2 in *; done.
    + intros [= <- <- <- <-]. by keep.
    + intros [= <- <- <- <-]. by keep.
  - destruct (check_transport _ _ _ op c) as [[e|] c1] eqn:Hl; apply check_transport_locks in Hl as Hl';
      intros [= <- <- <- <-]; by keep.
  - destruct (transport_answer _ reply) as [e|m]; [intros [= <- <- <- <-]; by keep|].
    destruct (finishExchange _ _ op m c) as [c1 [m' err]] eqn:Hl; apply finishExchange_locks in Hl as Hl'.
    intros [= <- <- <- <-]. by keep.
  - intros [= <- <- <- <-]. by eapply E_unlock.
  - intros [= <- <- <- <-]. by eapply E_close.
  - intros [= <- <- <- <-].
    destruct (finish_refresh_locks now (ca_tag ca) key (ca_options ca) (ca_checker ca) (transport_answer m reply) c) as [H1 H2].
    by eapply E_refreshed.
Qed.

(** ** Preservation *)

(** The invariant on the channels owned, the entries held and the keys refreshed. *)
Record tables_ok (os : list nat) (hs : list (dnsCacheKey * nat)) (rs : list dnsCacheKey) s : Prop := {
  to_nodup : NoDup os;
  to_open : forall ch, ch ∈ os <-> (ch < sh_next s)%nat /\ ch ∉ sh_closed s;
  to_closed : forall ch, ch ∈ sh_closed s -> (ch < sh_next s)%nat;
  to_held_nodup : NoDup hs;
  to_lock : forall k ch, cl_cacheLock (sh_client s) !! k = Some ch <-> (k, ch) ∈ hs;
  to_refresh : forall k, k ∈ cl_backgroundRefresh (sh_client s) <-> k ∈ rs;
  to_refresh_nodup : NoDup rs
}.

#[local] Instance tables_ok_perm :
  Proper (Permutation ==> Permutation ==> Permutation ==> eq ==> iff) tables_ok.
Proof.
  intros os os' Ho hs hs' Hh rs rs' Hr s ? <-.
  split; intros [H1 H2 H3 H4 H5 H6 H7]; constructor; intros;
    (rewrite <- ?Ho, <- ?Hh, <- ?Hr || rewrite ?Ho, ?Hh, ?Hr); auto.
Qed.

Lemma omap_mid {A B} (f : A -> option B) l1 x l2 sp :
  omap f (l1 ++ x :: l2 ++ sp) ≡ₚ (option_list (f x) ++ omap f sp) ++ omap f (l1 ++ l2).
Proof.
  assert (l1 ++ x :: l2 ++ sp ≡ₚ x :: sp ++ l1 ++ l2) as -> by solve_Permutation.
  cbn. rewrite omap_app. destruct (f x); cbn; by rewrite <- ?app_assoc.
Qed.

Lemma locks_ok_tables ths s :
  locks_ok ths s <-> tables_ok (omap owned ths) (omap held ths) (omap refreshing ths) s /\
    (forall th op cond, th ∈ ths -> th_phase th = PWait op cond -> (cond < sh_next s)%nat /\ op_cond op = None).
Proof. split; [intros []; repeat split; naive_solver|intros [[] ?]; by constructor]. Qed.

Lemma effect_tables th th' sp s s' os hs rs : effect th th' sp s s' ->
  tables_ok (option_list (owned th) ++ os) (option_list (held th) ++ hs) (option_list (refreshing th) ++ rs) s ->
  tables_ok ((option_list (owned th') ++ omap owned sp) ++ os) ((option_list (held th') ++ omap held sp) ++ hs)
    ((option_list (refreshing th') ++ omap refreshing sp) ++ rs) s'.
Proof.
  intros He [H1 H2 H3 H4 H5 H6 H7].
  destruct He as [Ho Hh Hr Hr' -> [Hl Hb] Hc Hn|k Ho Hh Ho' Hh' Hr Hr' -> Hk Hl Hb Hc Hn|k ch Ho Hh Ho' Hh' Hr Hr' -> Hl Hb Hc Hn
    |ch Ho Hh Ho' Hh' Hr Hr' -> Hl Hc Hn|k th1 Ho Hh Hr Hr' -> Ho1 Hh1 Hr1 _ Hk Hl Hb Hc Hn|k Ho Hh Hr Ho' Hh' Hr' -> Hl Hb Hc Hn];
    rewrite ?Ho, ?Hh, ?Hr in *; rewrite ?Ho', ?Hh', ?Hr'; cbn in *; rewrite ?Ho1, ?Hh1, ?Hr1; cbn; rewrite ?app_nil_r.
  - constructor; rewrite ?Hl, ?Hb, ?Hc, ?Hn; auto.
  - assert (sh_next s ∉ os) as Hnew by (intros Hin; apply H2 in Hin as [? _]; lia).
    constructor; rewrite ?Hl, ?Hb, ?Hc, ?Hn; auto.
    + by constructor.
    + intros ch. rewrite elem_of_cons, H2. split.
      * intros [->|[? ?]]; split; try lia; try done. intros Hin%H3. lia.
      * intros [Hlt Hnc]. destruct (decide (ch = sh_next s)); [by left|right; split; [lia|done]].
    + intros ch Hin%H3. lia.
    + constructor; [|done]. rewrite <- H5, Hk. done.
    + intros k' ch. rewrite elem_of_cons, <- H5, lookup_insert_Some. split; [intros [[<- <-]|[? ?]]; auto|].
      intros [[= -> ->]|Hk']; [by left|right; split; [|done]]. by intros ->; rewrite Hk in Hk'.
  - constructor; rewrite ?Hl, ?Hb, ?Hc, ?Hn; auto; [by eapply NoDup_cons_1_2|].
    intros k' ch'. apply NoDup_cons in H4 as [Hni _]. rewrite lookup_delete_Some, H5, elem_of_cons. split.
    + intros [Hne [[= -> ->]|Hin]]; [done|done].
    + intros Hin. split; [|by right]. intros <-. assert (ch' = ch) as ->; [|done].
      assert (cl_cacheLock (sh_client s) !! k = Some ch) as E1 by (apply H5; left).
      assert (cl_cacheLock (sh_client s) !! k = Some ch') as E2 by (apply H5; by right). congruence.
  - apply NoDup_cons in H1 as [Hni H1]. constructor; rewrite ?Hl, ?Hc, ?Hn; auto.
    + intros ch'. split.
      * intros Hin. assert (ch' <> ch) by (by intros ->). assert (ch' ∈ ch :: os) as [? ?]%H2 by (by right). set_solver.
      * intros [Hlt Hnc]. assert (ch' ∈ ch :: os) as [->|?]%elem_of_cons by (apply H2; set_solver); [set_solver|done].
    + intros ch' [->%elem_of_singleton|Hin]%elem_of_union; [|auto]. assert (ch ∈ ch :: os) as [? ?]%H2 by left. done.
  - constructor; rewrite ?Hl, ?Hb, ?Hc, ?Hn; auto.
    + intros k'. rewrite elem_of_union, elem_of_singleton, elem_of_cons, H6. done.
    + constructor; [|done]. by rewrite <- H6.
  - apply NoDup_cons in H7 as [Hni H7]. constructor; rewrite ?Hl, ?Hb, ?Hc, ?Hn; auto.
    intros k'. rewrite elem_of_difference, elem_of_singleton, H6, elem_of_cons. split; [tauto|].
    intros Hin. split; [by right|]. by intros ->.
Qed.

(** A new wait is for a channel of the lock table. *)
Lemma run_wait now inp th s th' sp ev s' op cond :
  run now inp th s = Some (th', sp, ev, s') -> th_phase th' = PWait op cond ->
  cl_cacheLock (sh_client s) !! op_cacheKey op = Some cond /\ op_cond op = None.
Proof.
  destruct th as [ca ph], s as [c closed next]. unfold run. cbn [th_phase th_call sh_client sh_closed sh_next].
  destruct ph as [|op0 cond0|op0|op0|op0|key cond0 r|cond0 r|key m|r|msg]; destruct inp as [reply|e|]; try done;
    unfold LoadOrStore, release; intros H Hw;
    simplify_eq/=; repeat (case_match; try done; simplify_eq/=); try (by destruct (op_cond op0)); try done.
  split; [done|]. by eapply begin_operation_cond.
Qed.

Lemma held_owned th k ch : held th = Some (k, ch) -> owned th = Some ch.
Proof. unfold held, owned. destruct (th_phase th); intros H; simplify_option_eq; done. Qed.

Lemma effect_next th th' sp s s' : effect th th' sp s s' -> (sh_next s <= sh_next s')%nat.
Proof. intros []; lia. Qed.
Lemma effect_spawned th th' sp s s' th1 op cond : effect th th' sp s s' -> th1 ∈ sp -> th_phase th1 <> PWait op cond.
Proof. intros [] Hin; subst; try (by apply elem_of_nil in Hin). apply list_elem_of_singleton in Hin as ->. auto. Qed.

Lemma locks_ok_waits ths s th : locks_ok ths s -> th ∈ ths -> quiet_wait th.
Proof. intros H Hin op cond Hp. by eapply lo_wait. Qed.

Lemma locks_ok_run l1 th l2 s now inp th' sp ev s' :
  locks_ok (l1 ++ th :: l2) s -> run now inp th s = Some (th', sp, ev, s') -> locks_ok (l1 ++ th' :: l2 ++ sp) s'.
Proof.
  intros Hok Hrun. assert (quiet_wait th) as Hq by (eapply locks_ok_waits; [done|set_solver]).
  pose proof (run_effect _ _ _ _ _ _ _ _ Hq Hrun) as He. apply locks_ok_tables in Hok as Hok'. destruct Hok' as [Ht Hw].
  apply locks_ok_tables. split.
  - rewrite !omap_mid. eapply effect_tables; [done|].
    rewrite <- (app_nil_r l2) in Ht. rewrite !omap_mid in Ht. cbn in Ht. by rewrite !app_nil_r in Ht.
  - intros th1 op cond Hin Hp. pose proof (effect_next _ _ _ _ _ He).
    apply elem_of_app in Hin as [Hin|[->|[Hin|Hin]%elem_of_app]%elem_of_cons].
    + destruct (Hw th1 op cond) as [? ?]; [set_solver|done|]. split; [lia|done].
    + destruct (run_wait _ _ _ _ _ _ _ _ _ _ Hrun Hp) as [Hk ?]. split; [|done].
      apply (lo_lock _ _ Hok) in Hk. apply list_elem_of_omap in Hk as (th2 & Hin2 & Hh2%held_owned).
      assert (cond ∈ omap owned (l1 ++ th :: l2)) as [? _]%(lo_open _ _ Hok) by (apply list_elem_of_omap; eauto). lia.
    + destruct (Hw th1 op cond) as [? ?]; [set_solver|done|]. split; [lia|done].
    + by destruct (effect_spawned _ _ _ _ _ _ op cond He Hin).
Qed.

Lemma locks_ok_client ths c c' closed next : same_locks c c' ->
  locks_ok ths (MkShared c closed next) -> locks_ok ths (MkShared c' closed next).
Proof. intros [H1 H2] []. constructor; cbn in *; rewrite ?H1, ?H2; done. Qed.

Lemma step_locks_ok st st' : step st st' -> locks_ok (st_threads st) (st_shared st) -> locks_ok (st_threads st') (st_shared st').
Proof.
  intros Hs Hok. destruct Hs as [st inp l1 th l2 th' sp ev s' Hth Hrun|st ca|st now Hn|st|st d d' Hd Hdec]; cbn.
  - rewrite Hth in Hok. by eapply locks_ok_run.
  - apply locks_ok_tables in Hok as [Ht Hw]. apply locks_ok_tables. split.
    + by rewrite !omap_app, !app_nil_r.
    + intros th op cond [Hin|Hin%list_elem_of_singleton]%elem_of_app Hp; [eauto|]. by subst.
  - done.
  - destruct (st_shared st) as [c closed next]. eapply locks_ok_client; [|done]. apply ClearCache_locks.
  - destruct (st_shared st) as [c closed next]. eapply locks_ok_client; [|done]. done.
Qed.

Lemma initial_locks_ok (o : ClientOptions RD DC) now log (st := initial (MC := MC) o now log) : locks_ok (st_threads st) (st_shared st).
Proof.
  assert (cl_cacheLock (Client_Start (NewClient o)) = ∅ /\ cl_backgroundRefresh (Client_Start (NewClient o)) = ∅) as [H1 H2].
  { unfold Client_Start, NewClient, initializeMemoryCache. by repeat case_match. }
  constructor; cbn; rewrite ?H1, ?H2; try apply NoDup_nil_2; intros; try set_solver.
  rewrite elem_of_nil. split; [done|]. intros []; lia.
Qed.

Lemma reachable_locks_ok o now log st : reachable (MC := MC) o now log st -> locks_ok (st_threads st) (st_shared st).
Proof.
  intros H. pose proof (initial_locks_ok o now log) as Hi. unfold reachable in H.
  induction H as [|st1 st2 st3 Hs _ IH]; [done|]. apply IH. by eapply step_locks_ok.
Qed.

(** ** Progress and termination *)

(** A thread that can go on: on its own, or as soon as the transport replies. *)
Definition can_go now th s : Prop :=
  (exists th' sp ev s', run now INone th s = Some (th', sp, ev, s')) \/
  (forall reply, exists th' sp ev s', run now (IReply reply) th s = Some (th', sp, ev, s')).

Definition waits_on th : option nat := match th_phase th with PWait _ cond => Some cond | _ => None end.

Lemma begin_operation_ok c tag m o chk : begin_operation c tag m o chk <> Diverge /\ (forall e, begin_operation c tag m o chk <> Err e).
Proof.
  assert (isSimpleRequest m <> Diverge /\ forall e, isSimpleRequest m <> Err e) as [H1 H2].
  { unfold isSimpleRequest. repeat case_match; done. }
  unfold begin_operation. destruct (Questions m); [done|]. case_match; [done|].
  destruct (isSimpleRequest m); cbn; try done. by destruct (H2 e).
Qed.

Lemma can_go_unless_waiting now th s : finished th = false ->
  (forall cond, waits_on th = Some cond -> cond ∈ sh_closed s) -> can_go now th s.
Proof.
  destruct th as [ca ph], s as [c closed next]. intros Hf Hw. unfold can_go, run. cbn [th_phase th_call sh_client sh_closed sh_next].
  destruct ph as [|op cond|op|op|op|key cond r|cond r|key m|r|msg]; try done.
  - left. destruct (begin_operation_ok c (ca_tag ca) (ca_message ca) (ca_options ca) (ca_checker ca)) as [H1 H2].
    destruct (begin_operation _ _ _ _ _) as [[|]|e|msg|]; try done; [by eauto| | by destruct (H2 e) | by eauto].
    repeat case_match; eauto.
  - left. rewrite bool_decide_eq_true_2; [eauto|]. by apply Hw.
  - left. repeat case_match; eauto.
  - left. repeat case_match; eauto.
  - right. intros reply. repeat case_match; eauto.
  - left. eauto.
  - left. eauto.
  - right. eauto.
Qed.

(** A thread that waits for an open channel: the thread that will close it is not
    itself waiting. *)
Lemma waiting_for_runner ths s th cond now : locks_ok ths s -> th ∈ ths -> waits_on th = Some cond -> cond ∉ sh_closed s ->
  exists th', th' ∈ ths /\ owned th' = Some cond /\ finished th' = false /\ can_go now th' s.
Proof.
  intros Hok Hin Hw Hc. unfold waits_on in Hw. destruct (th_phase th) as [|op cond'| | | | | | | |] eqn:Hp; try done. injection Hw as ->.
  destruct (lo_wait _ _ Hok th op cond Hin Hp) as [Hlt _].
  assert (cond ∈ omap owned ths) as (th' & Hin' & Ho)%list_elem_of_omap by (by apply (lo_open _ _ Hok)).
  exists th'. split_and!; try done; unfold owned in Ho; [|apply can_go_unless_waiting];
    unfold finished, waits_on; by destruct (th_phase th').
Qed.

Lemma total_weight_mid l1 th l2 sp :
  total_weight (l1 ++ th :: l2 ++ sp) = (weight th + total_weight (l1 ++ l2) + total_weight sp)%nat.
Proof.
  unfold total_weight. rewrite !sum_list_with_app. cbn. rewrite sum_list_with_app. lia.
Qed.

Lemma release_weight ca op r : (weight (MkThread ca (release op r)) <= 3)%nat.
Proof. unfold weight, release. cbn. destruct (op_cond op); lia. Qed.

Lemma run_weight now inp th s th' sp ev s' :
  run now inp th s = Some (th', sp, ev, s') -> (weight th' + total_weight sp < weight th)%nat.
Proof.
  destruct th as [ca ph], s as [c closed next]. unfold run. cbn [th_phase th_call sh_client sh_closed sh_next].
  assert (forall op r, weight (MkThread ca (release op r)) <= 3)%nat as Hrel by (intros; apply release_weight).
  destruct ph as [|op cond|op|op|op|key cond r|cond r|key m|r|msg]; destruct inp as [reply|e|]; try done; intros H;
    simplify_eq/=; repeat (case_match; try done; simplify_eq/=); unfold total_weight; cbn; repeat case_match; try lia;
    match goal with |- context [release ?op ?r] => specialize (Hrel op r) end; cbn in Hrel; lia.
Qed.

Lemma runs_weight n st st' : runs n st st' -> (n + total_weight (st_threads st') <= total_weight (st_threads st))%nat.
Proof.
  intros H. induction H as [st|n st st' inp l1 th l2 th' sp ev s' Hth Hrun _ IH|n st st1 st' _ Hth _ IH]; [lia| |by rewrite <- Hth].
  rewrite Hth. cbn [st_threads] in IH. rewrite total_weight_mid in IH. apply run_weight in Hrun.
  rewrite <- (app_nil_r l2), total_weight_mid. change (total_weight []) with 0%nat. lia.
Qed.

(** C17: The exchanges of the DNS client never deadlock.  In every reachable state
    each exchange that is not finished can go on, or waits for one that can; at most
    ten steps per thread remain, so every exchange is answered once the transports
    reply; and when all are finished no lock and no refresh is left behind. *)
Theorem dns_exchanges_answered o now log st : reachable (MC := MC) o now log st ->
  (forall th, th ∈ st_threads st -> finished th = false ->
     can_go (st_now st) th (st_shared st) \/
     exists th', th' ∈ st_threads st /\ finished th' = false /\ can_go (st_now st) th' (st_shared st) /\
       waits_on th <> None /\ owned th' = waits_on th) /\
  (forall n st', runs n st st' -> (n <= 10 * length (st_threads st))%nat) /\
  (Forall (fun th => finished th = true) (st_threads st) ->
     cl_cacheLock (sh_client (st_shared st)) = ∅ /\ cl_backgroundRefresh (sh_client (st_shared st)) = ∅).
Proof.
  intros Hok%reachable_locks_ok. split_and!.
  - intros th Hin Hf. destruct (waits_on th) as [cond|] eqn:Hw; [destruct (decide (cond ∈ sh_closed (st_shared st)))|].
    + left. apply can_go_unless_waiting; [done|]. congruence.
    + right. destruct (waiting_for_runner _ _ _ _ (st_now st) Hok Hin Hw) as (th' & ? & ? & ? & ?); [done|]. eauto 10.
    + left. apply can_go_unless_waiting; [done|]. congruence.
  - intros n st' Hr%runs_weight. assert (total_weight (st_threads st) <= 10 * length (st_threads st))%nat; [|lia].
    generalize (st_threads st). intros l. induction l as [|th l IH]; [done|]. unfold total_weight in *. cbn.
    assert (weight th <= 10)%nat; [|lia]. unfold weight. repeat case_match; lia.
  - intros Hf. assert (forall {A} (f : thread -> option A) x, (forall th, finished th = true -> f th = None) -> x ∉ omap f (st_threads st)) as Hno.
    { intros A f x Hfin (th & Hin & Hx)%list_elem_of_omap. rewrite Forall_forall in Hf. rewrite (Hfin th) in Hx; [done|]. by apply Hf. }
    split.
    + apply map_eq. intros k. rewrite lookup_empty. apply eq_None_not_Some. intros [ch Hk%(lo_lock _ _ Hok)].
      revert Hk. apply Hno. intros th. unfold finished, held. by destruct (th_phase th).
    + apply set_eq. intros k. rewrite (lo_refresh _ _ Hok). split; [|set_solver]. intros Hk. exfalso. revert Hk.
      apply Hno. intros th. unfold finished, refreshing. by destruct (th_phase th).
Qed.
End Spec.
