(* ===== verification/DnsFreshness.v ===== *)
(** * Answers of the DNS client are fresh and belong to the question

    Over every interleaving of exchanges: what the cache holds are answers that the
    transport of the key gave to the question of the key, and an answer served from
    the cache has not outlived its time to live, or the optimistic timeout. *)

From S2P Require Import Prelude GoStd Netip External DnsMsg RuleItems DnsClient DnsExchange.
Local Open Scope Z_scope.

(** ** What the client relies on of the caches *)

(** [lru_view]: the entries with their time of expiry.  An LRU cache may drop entries
    at any time. *)
Class LRUCacheLaws (K V S : Type) (C : LRUCache K V S) := {
  lru_view : S -> K -> option (V * Z);
  lru_view_New : forall n k, lru_view (lru_New n) k = None;
  lru_view_Add : forall now k v s k' x, lru_view (lru_Add now k v s) k' = Some x ->
    (k' = k /\ x.1 = v) \/ lru_view s k' = Some x;
  lru_view_AddWithLifetime : forall now k v lifetime s k' x,
    lru_view (lru_AddWithLifetime now k v lifetime s) k' = Some x ->
    (k' = k /\ x.1 = v /\ x.2 <= now + lifetime) \/ lru_view s k' = Some x;
  lru_Get_view : forall now k s v s', lru_Get now k s = (Some v, s') -> exists e, lru_view s k = Some (v, e);
  lru_view_Get : forall now k s k' x, lru_view (lru_Get now k s).2 k' = Some x -> lru_view s k' = Some x;
  lru_GetWithLifetime_view : forall k s x s', lru_GetWithLifetimeNoExpire k s = (Some x, s') -> lru_view s k = Some x;
  lru_view_GetWithLifetime : forall k s k' x,
    lru_view (lru_GetWithLifetimeNoExpire k s).2 k' = Some x -> lru_view s k' = Some x;
  lru_view_Remove : forall k s k' x, lru_view (lru_Remove k s) k' = Some x -> lru_view s k' = Some x;
  lru_view_Purge : forall s k, lru_view (lru_Purge s) k = None
}.

Class DNSCacheStoreLaws (S : Type) (C : DNSCacheStore S) := {
  store_Load_Save : forall name qName qType raw e d name' qName' qType' x,
    store_LoadDNSCache name' qName' qType' (store_SaveDNSCacheAsync name qName qType raw e d) = Some x ->
    (name' = name /\ qName' = qName /\ qType' = qType /\ x = (raw, e)) \/
    store_LoadDNSCache name' qName' qType' d = Some x;
  store_Load_Clear : forall name qName qType d x,
    store_LoadDNSCache name qName qType (store_ClearDNSCache d) = Some x ->
    store_LoadDNSCache name qName qType d = Some x
}.

Section Freshness.
Context {X : External} {L : DnsLib}.
Context {MC RD DC : Type} `{!LRUCache dnsCacheKey Msg MC} `{!RDRCStore RD} `{!DNSCacheStore DC}.
Context `{!LRUCacheLaws dnsCacheKey Msg MC _} `{!DNSCacheStoreLaws DC _}.
Abbreviation Client := (@DnsClient.Client MC RD DC).
Implicit Types (c : Client) (th : thread).

(** ** Statements *)

(** What decides how entries are served: whether they expire, the optimistic timeout,
    whether the persistent store is used. *)
Definition mode : Type := bool * Z * bool.
Definition mode_of c : mode := (cl_disableExpire c, cl_optimisticTimeout c, bool_decide (is_Some (cl_dnsCache c))).

(** The time to live and the message the client stores for an answer. *)
Definition stored (ev : event) : Z * Msg :=
  applyResponseOptions (ck_Question (ev_key ev)) (ev_response ev) (ev_options ev).
Definition expiry (ev : event) : Z := ev_time ev + second * (stored ev).1.
Definition cacheable (ev : event) : Prop := rcode_failed (ev_response ev) = false /\ (stored ev).1 <> 0.

(** The entry for [k] in the store is that of the answer [ev], and [m] the message in
    it.  In memory the keys are equal; the persistent store goes by the transport with
    the subnet, the name and the type, and holds the packed message. *)
Definition entry_of (md : mode) (k : dnsCacheKey) (ev : event) (m : Msg) : Prop :=
  if md.2 then
    persistentName k = persistentName (ev_key ev) /\
    q_Name (ck_Question k) = q_Name (ck_Question (ev_key ev)) /\
    q_Qtype (ck_Question k) = q_Qtype (ck_Question (ev_key ev)) /\
    exists raw, Msg_Pack (stored ev).2 = Ok raw /\ Msg_Unpack raw = Ok m
  else k = ev_key ev /\ m = (stored ev).2.

(** A message [m'] served at the time [t] for the entry [m] of [ev]: it does not
    expire, or it carries a time to live that ends when the entry expires, or it is
    stale within the optimistic timeout. *)
Definition served (md : mode) (t : Z) (ev : event) (m m' : Msg) (options : DNSQueryOptions) : Prop :=
  let '(disableExpire, optimisticTimeout, _) := md in
  (disableExpire = true /\ m' = m) \/
  (exists ttl, m' = normalizeTTL m ttl /\ 0 <= ttl /\ t + second * ttl <= expiry ev) \/
  (0 < optimisticTimeout /\ t < expiry ev + optimisticTimeout /\ qo_DisableOptimisticCache options = false /\
   m' = normalizeTTL m 1).

Definition key_of_call (ca : call) (k : dnsCacheKey) : Prop :=
  ck_transportTag k = ca_tag ca /\ exists rest, Questions (ca_message ca) = ck_Question k :: rest.

(** Calls that are answered without a query: those without a question, and those for
    addresses of the family that the strategy excludes. *)
Definition fixed_status (ca : call) (rcode : Z) : Prop :=
  (Questions (ca_message ca) = [] /\ rcode = RcodeFormatError) \/
  (rcode = RcodeSuccess /\ exists q rest, Questions (ca_message ca) = q :: rest /\
     (q_Qtype q = TypeA /\ qo_Strategy (ca_options ca) = DomainStrategyIPv6Only \/
      q_Qtype q = TypeAAAA /\ qo_Strategy (ca_options ca) = DomainStrategyIPv4Only)).
(** The message that is sent for a call. *)
Definition request_of (ca : call) (request : Msg) : Prop :=
  request = ca_message ca \/ exists subnet, request = SetClientSubnet (ca_message ca) subnet.

(** The successful results of a call that is answered at the time [t], of the answers the
    transports gave until then. *)
Definition answer_ok (md : mode) (log : list event) (t : Z) (ca : call) (m : Msg) : Prop :=
  (exists rcode, fixed_status ca rcode /\ m = FixedResponseStatus (ca_message ca) rcode) \/
  (exists ev request, ev ∈ log /\ ev_time ev = t /\ key_of_call ca (ev_key ev) /\ request_of ca request /\
     m = match_edns request (set_Id (Id (Hdr (ca_message ca))) (stored ev).2)) \/
  (qo_DisableCache (ca_options ca) = false /\
   exists ev k m0 m', ev ∈ log /\ cacheable ev /\ key_of_call ca k /\ entry_of md k ev m0 /\ ev_time ev <= t /\
     served md t ev m0 m' (ca_options ca) /\ m = set_Id (Id (Hdr (ca_message ca))) m').

(** The result of an exchange from the moment it is known. *)
Definition result_of th : option (option Msg * option error) :=
  match th_phase th with
  | PRelease _ _ r | PClose _ r | PDone r => Some r
  | _ => None
  end.

(** ** The invariant *)

Definition entry_justified (md : mode) (log : list event) (k : dnsCacheKey) (m : Msg) (e : Z) : Prop :=
  exists ev, ev ∈ log /\ cacheable ev /\ entry_of md k ev m /\ (md.1.1 = true \/ e <= expiry ev).

Definition memory_ok (md : mode) (log : list event) c : Prop :=
  cl_dnsCache c = None -> forall mc k m e, cl_cache c = Some mc -> lru_view mc k = Some (m, e) -> entry_justified md log k m e.
Definition persistent_ok (log : list event) (d : DC) : Prop :=
  forall name qName qType raw e, store_LoadDNSCache name qName qType d = Some (raw, e) ->
    exists ev, ev ∈ log /\ cacheable ev /\ persistentName (ev_key ev) = name /\
      q_Name (ck_Question (ev_key ev)) = qName /\ q_Qtype (ck_Question (ev_key ev)) = qType /\
      Msg_Pack (stored ev).2 = Ok raw /\ e <= expiry ev.
Definition client_ok (md : mode) (log : list event) c : Prop :=
  mode_of c = md /\ memory_ok md log c /\ (forall d, cl_dnsCache c = Some d -> persistent_ok log d).

Definition op_ok (ca : call) (op : exchangeOperation) : Prop :=
  key_of_call ca (op_cacheKey op) /\ op_question op = ck_Question (op_cacheKey op) /\
  op_options op = ca_options ca /\ op_messageId op = Id (Hdr (ca_message ca)) /\ request_of ca (op_message op) /\
  (op_disableCache op = false -> qo_DisableCache (ca_options ca) = false).

Definition thread_ok th : Prop :=
  match th_phase th with
  | PWait op _ | PLoad op => op_ok (th_call th) op /\ op_disableCache op = false
  | PCheck op | PExchange op => op_ok (th_call th) op
  | _ => True
  end.

Record fresh_ok (md : mode) (st : state) : Prop := {
  fo_client : client_ok md (st_log st) (sh_client (st_shared st));
  fo_threads : Forall thread_ok (st_threads st);
  fo_log : Forall (fun ev => ev_time ev <= st_now st) (st_log st)
}.

(** ** The stores keep it *)

Lemma entry_justified_mono md log log' k m e :
  log ⊆ log' -> entry_justified md log k m e -> entry_justified md log' k m e.
Proof. intros Hl (ev & ? & ?). exists ev. split; [by apply Hl|done]. Qed.

Lemma persistent_ok_mono log log' d : log ⊆ log' -> persistent_ok log d -> persistent_ok log' d.
Proof. intros Hl Hp ????? H. destruct (Hp _ _ _ _ _ H) as (ev & ? & ?). exists ev. split; [by apply Hl|done]. Qed.

Lemma client_ok_mono md log log' c : log ⊆ log' -> client_ok md log c -> client_ok md log' c.
Proof.
  intros Hl (Hm & Hc & Hd). split_and!; [done| |].
  - intros Hn mc k m e Hmc Hv. eapply entry_justified_mono; eauto.
  - intros d H. eapply persistent_ok_mono; eauto.
Qed.

(** The invariant is about the two stores and the mode only. *)
Lemma client_ok_ext md log c c' : cl_dnsCache c' = cl_dnsCache c -> cl_cache c' = cl_cache c ->
  cl_disableExpire c' = cl_disableExpire c -> cl_optimisticTimeout c' = cl_optimisticTimeout c ->
  client_ok md log c -> client_ok md log c'.
Proof.
  intros H1 H2 H3 H4 (Hm & Hc & Hd). unfold client_ok, memory_ok, mode_of. rewrite H1, H2, H3, H4. auto.
Qed.

(** A smaller memory cache. *)
Lemma client_ok_memory md log c mc mc' : cl_dnsCache c = None -> cl_cache c = Some mc ->
  (forall k m e, lru_view mc' k = Some (m, e) -> lru_view mc k = Some (m, e) \/ entry_justified md log k m e) ->
  client_ok md log c -> client_ok md log (with_cache c mc').
Proof.
  intros Hn Hmc Hsub (Hm & Hc & Hd). split_and!; [done| |done].
  intros _ mc1 k m e [= <-] Hv. destruct (Hsub _ _ _ Hv) as [Hv'|?]; [|done]. by eapply Hc.
Qed.

Lemma storeCache_ok md log ev c : ev ∈ log -> rcode_failed (ev_response ev) = false -> client_ok md log c ->
  client_ok md log (storeCache (ev_time ev) (ev_key ev) (stored ev).2 (stored ev).1 c).
Proof.
  intros Hev Hrc Hok. unfold storeCache. case_match eqn:Hz; [done|]. apply Z.eqb_neq in Hz.
  assert (cacheable ev) as Hca by done. destruct Hok as (Hm & Hc & Hd).
  destruct (cl_dnsCache c) as [d|] eqn:Hdc.
  - destruct (Msg_Pack (stored ev).2) as [raw|e|msg|] eqn:Hpk; try (split_and!; [done..|]; by rewrite Hdc).
    split_and!.
    + rewrite <- Hm. unfold mode_of. cbn. rewrite Hdc. by rewrite !bool_decide_eq_true_2 by eauto.
    + intros Hn. done.
    + intros d' [= <-] name qName qType raw' e Hl.
      destruct (store_Load_Save _ _ _ _ _ _ _ _ _ _ Hl) as [(-> & -> & -> & [= -> ->])|Hl']; [|by apply (Hd d)].
      exists ev. split_and!; try done.
  - destruct (cl_cache c) as [mc|] eqn:Hmc; [|split_and!; [done..|]; by rewrite Hdc].
    assert (client_ok md log c) as Hok by (split_and!; [done..|]; by rewrite Hdc).
    assert (md.2 = false) as Hmd by (rewrite <- Hm; unfold mode_of; cbn; by rewrite Hdc).
    assert (md.1.1 = cl_disableExpire c) as Hde by (by rewrite <- Hm).
    assert (forall k m e, k = ev_key ev -> m = (stored ev).2 -> md.1.1 = true \/ e <= expiry ev -> entry_justified md log k m e) as Hj.
    { intros k m e -> -> He. exists ev. split_and!; try done. unfold entry_of. by rewrite Hmd. }
    destruct (cl_disableExpire c); eapply client_ok_memory; try done; intros k m e Hv.
    + destruct (lru_view_Add _ _ _ _ _ _ Hv) as [[Hk Hm']|?]; [right|by left]. apply Hj; auto.
    + destruct (lru_view_AddWithLifetime _ _ _ _ _ _ _ Hv) as [(Hk & Hm' & He)|?]; [right|by left].
      apply Hj; [done|done|right]. cbn [snd] in He. unfold expiry. lia.
Qed.

Lemma serve_entry_ok md t ev m e m' ttl stale options opt :
  md.1.2 = opt -> e <= expiry ev -> serve_entry t opt m e = Some (m', ttl, stale) ->
  (stale = true -> qo_DisableOptimisticCache options = false) -> served md t ev m m' options.
Proof.
  destruct md as [[de o] p]. cbn. intros -> He. unfold serve_entry, served. case_match eqn:Hlt; [case_match eqn:Ho; [|done]|].
  - intros [= <- <- <-] Hs. to_prop. right; right. split_and!; try lia; auto.
  - intros [= <- <- <-] _. to_prop. right; left. eexists. split; [done|].
    assert (0 <= uint 32 (Z.max (Z.quot (e - t) second) 0) <= Z.max (Z.quot (e - t) second) 0) as Hu.
    { unfold uint. split; [apply Z.mod_pos_bound; lia|]. apply Z.mod_le; lia. }
    split; [lia|]. assert (0 < second) by (unfold second; lia). rewrite Z.quot_div_nonneg in * by lia.
    assert (second * ((e - t) / second) <= e - t) by (apply Z.mul_div_le; lia).
    assert (0 <= (e - t) / second) by (apply Z.div_pos; lia). rewrite Z.max_l in * by lia.
    pose proof (Z.mul_le_mono_nonneg_l _ _ second ltac:(lia) (proj2 Hu)). lia.
Qed.

Lemma loadResponse_ok md log now key c r c' : client_ok md log c -> loadResponse now key c = (r, c') ->
  client_ok md log c' /\
  forall m' ttl stale, r = Some (m', ttl, stale) ->
    exists ev m0, ev ∈ log /\ cacheable ev /\ entry_of md key ev m0 /\
      forall options, (stale = true -> qo_DisableOptimisticCache options = false) -> served md now ev m0 m' options.
Proof.
  intros Hok H. destruct (Hok) as (Hm & Hc & Hd). unfold loadResponse in H.
  assert (md.1.1 = cl_disableExpire c) as Hde by (by rewrite <- Hm).
  assert (md.1.2 = cl_optimisticTimeout c) as Hopt by (by rewrite <- Hm).
  assert (md.2 = bool_decide (is_Some (cl_dnsCache c))) as Hmd by (by rewrite <- Hm).
  destruct (cl_dnsCache c) as [d|] eqn:Hdc.
  - injection H as <- <-. split; [done|]. intros m' ttl stale. unfold loadPersistentResponse.
    destruct (store_LoadDNSCache _ _ _ d) as [[raw e]|] eqn:Hl; [|done].
    destruct (Hd d eq_refl _ _ _ _ _ Hl) as (ev & Hev & Hca & Hn & Hq & Ht & Hpk & He).
    destruct (Msg_Unpack raw) as [m0| | |] eqn:Hu; try done. intros Hs. exists ev, m0. split_and!; try done.
    { unfold entry_of. rewrite Hmd. rewrite bool_decide_eq_true_2 by eauto. split_and!; try done. eauto. }
    intros options Hstale. destruct (cl_disableExpire c).
    + injection Hs as <- <- <-. destruct md as [[de o] p]. cbn in Hde. subst. by left.
    + eapply serve_entry_ok; eauto.
  - rewrite bool_decide_eq_false_2 in Hmd by (by intros []).
    destruct (cl_cache c) as [mc|] eqn:Hmc; [|injection H as <- <-; done].
    destruct (cl_disableExpire c) eqn:Hdis.
    + destruct (lru_Get now key mc) as [r0 mc'] eqn:Hg. injection H as <- <-. split.
      { eapply client_ok_memory; eauto. intros k m e Hv. left. by eapply lru_view_Get; rewrite Hg. }
      intros m' ttl stale Hs. destruct r0 as [m0|]; [|done]. injection Hs as -> <- <-.
      apply lru_Get_view in Hg as [e Hv]. destruct (Hc Hdc _ _ _ _ Hmc Hv) as (ev & ? & ? & ? & ?).
      exists ev, m'. split_and!; try done. intros options _. destruct md as [[de o] p]. cbn in Hde. subst. by left.
    + destruct (lru_GetWithLifetimeNoExpire key mc) as [entry mc'] eqn:Hg.
      assert (forall k m e, lru_view mc' k = Some (m, e) -> lru_view mc k = Some (m, e)) as Hsub.
      { intros k m e Hv. by eapply lru_view_GetWithLifetime; rewrite Hg. }
      destruct entry as [[m0 e]|]; [|injection H as <- <-; split; [eapply client_ok_memory; eauto|done]].
      destruct (serve_entry now (cl_optimisticTimeout c) m0 e) as [r0|] eqn:Hs.
      * injection H as <- <-. split; [eapply client_ok_memory; eauto|]. intros m' ttl stale [= ->].
        apply lru_GetWithLifetime_view in Hg. destruct (Hc Hdc _ _ _ _ Hmc Hg) as (ev & ? & ? & ? & [?|He]); [congruence|].
        exists ev, m0. split_and!; try done. intros options Hst. eapply serve_entry_ok; eauto.
      * injection H as <- <-. split; [|done]. eapply client_ok_memory; eauto.
        intros k m e' Hv. left. apply Hsub. by eapply lru_view_Remove.
Qed.

Lemma check_transport_ok md log now ctx tag op c r c' :
  client_ok md log c -> check_transport now ctx tag op c = (r, c') -> client_ok md log c'.
Proof.
  intros Hok. unfold check_transport. repeat case_match; intros; simplify_eq; try done; by eapply client_ok_ext.
Qed.

Lemma ClearCache_ok md log c : client_ok md log c -> client_ok md log (ClearCache c).
Proof.
  intros Hok. unfold ClearCache.
  assert (client_ok md log (match cl_cache c with Some m => with_cache c (lru_Purge m) | None => c end)) as Hok1.
  { destruct (cl_cache c) as [mc|] eqn:Hmc; [|done]. destruct Hok as (Hm & Hc & Hd). split_and!; [done| |done].
    intros _ mc1 k m e [= <-] Hv. by rewrite lru_view_Purge in Hv. }
  revert Hok1. generalize (match cl_cache c with Some m => with_cache c (lru_Purge m) | None => c end). clear c Hok.
  intros c (Hm & Hc & Hd). destruct (cl_dnsCache c) as [d|] eqn:Hdc; [|split_and!; [done..|]; by rewrite Hdc].
  split_and!.
  - rewrite <- Hm. unfold mode_of. cbn. rewrite Hdc. by rewrite !bool_decide_eq_true_2 by eauto.
  - by intros Hn.
  - intros d' [= <-] ????? Hl%store_Load_Clear. by eapply Hd.
Qed.

Lemma store_decays_ok md log c d d' : cl_dnsCache c = Some d -> store_decays d d' ->
  client_ok md log c -> client_ok md log (with_dnsCache c d').
Proof.
  intros Hdc Hdec (Hm & Hc & Hd). split_and!.
  - rewrite <- Hm. unfold mode_of. cbn. rewrite Hdc. by rewrite !bool_decide_eq_true_2 by eauto.
  - by intros Hn.
  - intros d1 [= <-] name qName qType raw e Hl. destruct (Hdec _ _ _ _ _ Hl) as (e1 & Hl1 & He).
    destruct (Hd d Hdc _ _ _ _ _ Hl1) as (ev & ? & ? & ? & ? & ? & ? & ?). exists ev. split_and!; try done. lia.
Qed.

(** ** Steps keep it *)

Lemma rcode_failed_reject chk m : response_rejected chk m = false ->
  match chk with None => rcode_failed m | Some _ => false end = false -> rcode_failed m = false.
Proof. destruct chk; [|done]. unfold response_rejected. by case_match. Qed.

Lemma finish_refresh_ok md log now tag key o chk answer c log' :
  log' = log ++ match answer with inr m => [MkEvent now key o m] | inl _ => [] end ->
  client_ok md log c -> client_ok md log' (finish_refresh now tag key o chk answer c).
Proof.
  intros -> Hok. apply (client_ok_mono md log (log ++ match answer with inr m => [MkEvent now key o m] | inl _ => [] end)) in Hok; [|set_solver].
  unfold finish_refresh. cbv zeta. match goal with |- client_ok _ ?l (with_locks ?c2 _ _) => cut (client_ok md l c2); [by apply client_ok_ext|] end.
  destruct answer as [e|m]; [done|]. destruct (response_rejected chk m) eqn:Hrej.
  { destruct (cl_rdrc c); [by eapply client_ok_ext|done]. }
  destruct (match chk with Some _ => _ | None => _ end) eqn:Hrc; [done|].
  pose proof (storeCache_ok md _ (MkEvent now key o m) c ltac:(apply elem_of_app; right; by left)
    (rcode_failed_reject _ _ Hrej Hrc) Hok) as Hs.
  unfold stored in Hs. revert Hs. cbn [ev_key ev_options ev_response ev_time]. by destruct (applyResponseOptions _ m o).
Qed.

Lemma finishExchange_ok md log now ca op m c c' m' err :
  let ev := MkEvent now (op_cacheKey op) (op_options op) m in
  client_ok md log c -> op_ok ca op -> finishExchange now (ca_tag ca) op m c = (c', (m', err)) ->
  client_ok md (log ++ [ev]) c' /\ (err = None -> answer_ok md (log ++ [ev]) now ca m').
Proof.
  intros ev Hok (Hkey & Hq & Ho & Hid & Hreq & _). apply (client_ok_mono md log (log ++ [ev])) in Hok; [|set_solver].
  assert (ev ∈ log ++ [ev]) as Hev by (apply elem_of_app; right; by left).
  unfold finishExchange. destruct (response_rejected _ m) eqn:Hrej.
  { intros [= <- <- <-]. split; [|done]. repeat case_match; try done; by eapply client_ok_ext. }
  destruct (applyResponseOptions (op_question op) m (op_options op)) as [ttl m1] eqn:Ha.
  assert (stored ev = (ttl, m1)) as Hst by (unfold stored, ev; cbn; by rewrite <- Hq).
  intros [= <- <- <-]. split.
  - destruct (negb (op_disableCache op || rcode_failed m)) eqn:Hd; [|done].
    apply negb_true_iff, orb_false_iff in Hd as [_ Hrc].
    pose proof (storeCache_ok md _ ev c Hev Hrc Hok) as Hs. by rewrite Hst in Hs.
  - intros _. right; left. exists ev, (op_message op). rewrite Hst, Hid. by split_and!.
Qed.

Lemma begin_operation_op c ca op :
  begin_operation c (ca_tag ca) (ca_message ca) (ca_options ca) (ca_checker ca) = Ok (inr op) -> op_ok ca op.
Proof.
  unfold begin_operation. destruct (Questions (ca_message ca)) as [|q qs] eqn:Hq; [done|]. case_match; [done|].
  destruct (isSimpleRequest _); cbn; try done. intros [= <-]. split_and!; cbn; try done.
  - split; [done|]. cbn. eauto.
  - unfold prepareExchangeMessage, SetClientSubnet. repeat case_match; done.
  - unfold prepareExchangeMessage. case_match; [right; eauto|by left].
  - intros [_ ?]%orb_false_iff. done.
Qed.
Lemma begin_operation_fixed c ca m :
  begin_operation c (ca_tag ca) (ca_message ca) (ca_options ca) (ca_checker ca) = Ok (inl m) ->
  exists rcode, fixed_status ca rcode /\ m = FixedResponseStatus (ca_message ca) rcode.
Proof.
  unfold begin_operation, fixed_status. destruct (Questions (ca_message ca)) as [|q qs] eqn:Hq; [intros [= <-]; eauto 6|].
  case_match eqn:E; [|by destruct (isSimpleRequest (ca_message ca))]. intros [= <-]. exists RcodeSuccess. split; [|done].
  right. split; [done|]. exists q, qs. split; [done|]. apply orb_true_iff in E as [E|E]; apply andb_true_iff in E as [?%Z.eqb_eq ?%Z.eqb_eq]; auto.
Qed.

Lemma release_ok ca op r : thread_ok (MkThread ca (release op r)) /\ result_of (MkThread ca (release op r)) = Some r.
Proof. unfold thread_ok, result_of, release. cbn. by destruct (op_cond op). Qed.

Lemma load_cached_ok md log now ca op c r c' :
  Forall (fun ev => ev_time ev <= now) log -> client_ok md log c -> op_ok ca op -> op_disableCache op = false -> load_cached now op c = (r, c') ->
  client_ok md log c' /\ forall m b, r = Some (m, b) -> answer_ok md log now ca m.
Proof.
  rewrite Forall_forall. intros Hlog Hok (Hkey & Hq & Ho & Hid & _ & Hdis) Hd. unfold load_cached.
  destruct (loadResponse now (op_cacheKey op) c) as [r0 c1] eqn:Hl. apply (loadResponse_ok md log) in Hl as [Hok1 Hserve]; [|done].
  assert (forall m ttl stale, (stale = true -> qo_DisableOptimisticCache (op_options op) = false) ->
    r0 = Some (m, ttl, stale) -> answer_ok md log now ca (set_Id (op_messageId op) m)) as Hans.
  { intros m ttl stale Hs Hr. destruct (Hserve _ _ _ Hr) as (ev0 & m0 & Hev & Hca & Hent & Hsv).
    right; right. split; [by apply Hdis|]. exists ev0, (op_cacheKey op), m0, m. rewrite Hid. split_and!; auto. apply Hsv. by rewrite <- Ho. }
  destruct r0 as [[[m ttl] stale]|]; [|by intros [= <- <-]].
  destruct (stale && negb _) eqn:Hst; [|destruct stale]; cbn; intros [= <- <-]; (split; [done|]); try done; intros m1 b [= <- <-].
  - apply andb_true_iff in Hst as [-> Hno%negb_true_iff]. by eapply Hans.
  - by eapply (Hans m ttl false).
Qed.

(** What a step of a thread does to its result: it is an answer of this moment, and stays. *)
Definition result_step (md : mode) (log : list event) (now : Z) th th' : Prop :=
  (forall r, result_of th = Some r -> result_of th' = Some r) /\
  (forall m, result_of th = None -> result_of th' = Some (Some m, None) -> answer_ok md log now (th_call th) m).

Lemma run_ok md log now inp th s th' sp ev s' :
  Forall (fun ev => ev_time ev <= now) log -> client_ok md log (sh_client s) -> thread_ok th ->
  run now inp th s = Some (th', sp, ev, s') ->
  client_ok md (log ++ ev) (sh_client s') /\ thread_ok th' /\ Forall thread_ok sp /\
  Forall (fun ev => ev_time ev <= now) ev /\ result_step md (log ++ ev) now th th'.
Proof.
  destruct th as [ca ph], s as [c closed next]. intros Hlog Hok Hth. unfold run. cbn [th_phase th_call sh_client sh_closed sh_next] in *.
  assert (Hnone : forall p p', result_of (MkThread ca p) = None -> result_of p' = None -> result_step md (log ++ []) now (MkThread ca p) p')
    by (intros p p' H1 H2; split; congruence).
  assert (Hrel : forall p op r, result_of (MkThread ca p) = None -> (forall m, r = (Some m, None) -> answer_ok md (log ++ []) now ca m) ->
    result_step md (log ++ []) now (MkThread ca p) (MkThread ca (release op r))).
  { intros p op r H1 H2. destruct (release_ok ca op r) as [_ E]. split; [congruence|]. intros m _ Hm. apply H2. congruence. }
  destruct ph as [|op cond|op|op|op|key cond r|cond r|key m|r|msg]; destruct inp as [reply|e|]; try done.
  - destruct (begin_operation _ _ _ _ _) as [[m|op]|e|msg|] eqn:Hb; try done.
    + intros [= <- <- <- <-]. rewrite app_nil_r. split_and!; try done. split; [done|]. intros m' _ [= ->]. left. by eapply begin_operation_fixed.
    + apply begin_operation_op in Hb.
      destruct (op_disableCache op) eqn:Hd; [intros [= <- <- <- <-]; rewrite app_nil_r in *; by split_and!; [..|apply Hnone]|].
      unfold LoadOrStore. repeat case_match; intros; simplify_eq/=; (split_and!; [rewrite app_nil_r|..]); try done;
        try (by eapply client_ok_ext); by apply Hnone.
    + intros [= <- <- <- <-]. rewrite app_nil_r in *. by split_and!; [..|apply Hnone].
  - intros [= <- <- <- <-]. rewrite app_nil_r in *. split_and!; try done; by split.
  - case_bool_decide; [|done]. intros [= <- <- <- <-]. rewrite app_nil_r in *. by split_and!; [..|apply Hnone].
  - destruct Hth as [Hth Hdis]. destruct (load_cached now op c) as [r c1] eqn:Hl.
    apply (load_cached_ok md log _ ca) in Hl as [Hok1 Hans]; [|done..].
    destruct r as [[m []]|]; [unfold start_refresh; case_bool_decide|..]; intros [= <- <- <- <-]; (split_and!; [rewrite app_nil_r|..]);
      try done; try (by repeat constructor); try apply release_ok;
      try (apply Hrel; [done|]; intros m' [= <-]; rewrite app_nil_r; by eapply Hans); try by apply Hnone.
  - destruct (check_transport _ _ _ op c) as [[e|] c1] eqn:Hc; apply (check_transport_ok md log) in Hc; try done;
      intros [= <- <- <- <-]; (split_and!; [rewrite app_nil_r|..]); try done; first [by apply release_ok|by apply Hrel|by apply Hnone].
  - destruct (transport_answer _ reply) as [e|m].
    { intros [= <- <- <- <-]. split_and!; [rewrite app_nil_r|..]; try done; first [by apply release_ok|by apply Hrel]. }
    destruct (finishExchange _ _ op m c) as [c1 [m' err]] eqn:Hf. intros [= <- <- <- <-].
    destruct (finishExchange_ok md log _ _ _ _ _ _ _ _ Hok Hth Hf) as [Hok1 Ha]. destruct (release_ok ca op (Some m', err)) as [R1 R2].
    split_and!; try done; [by repeat constructor|]. split; [done|]. intros m2 _. rewrite R2. intros [= <- ->]. by apply Ha.
  - intros [= <- <- <- <-]. rewrite app_nil_r in *. split_and!; try done; by split.
  - intros [= <- <- <- <-]. rewrite app_nil_r in *. split_and!; try done; by split.
  - intros [= <- <- <- <-]. split_and!; [by eapply finish_refresh_ok|done|done|case_match; by repeat constructor|by split].
Qed.

Lemma step_fresh_ok md st st' : step st st' -> fresh_ok md st -> fresh_ok md st'.
Proof.
  intros Hs [Hc Ht Hl]. destruct Hs as [st inp l1 th l2 th' sp ev s' Hth Hrun|st ca|st now Hn|st|st d d' Hd Hdec].
  - rewrite Hth in Ht. apply Forall_app in Ht as [Ht1 [Hth0 Ht2]%Forall_cons].
    destruct (run_ok md _ _ _ _ _ _ _ _ _ Hl Hc Hth0 Hrun) as (H1 & H2 & H3 & H4 & _).
    constructor; cbn; [done| |by apply Forall_app]. rewrite Forall_app, Forall_cons, Forall_app. auto.
  - constructor; cbn; [done| |done]. apply Forall_app. split; [done|]. by repeat constructor.
  - constructor; cbn; [done..|]. eapply Forall_impl; [exact Hl|]. cbn. intros; lia.
  - constructor; cbn; [by apply ClearCache_ok|done..].
  - constructor; cbn; [by eapply store_decays_ok|done..].
Qed.

Lemma started_client_ok (o : ClientOptions RD DC) log (c := Client_Start (NewClient o) : Client) :
  (forall f d, co_DNSCache o = Some f -> f tt = Some d -> persistent_ok log d) -> client_ok (mode_of c) log c.
Proof.
  intros Hd. split; [done|]. unfold c, Client_Start, NewClient, memory_ok, initializeMemoryCache.
  split; destruct (co_DNSCache o) as [f|] eqn:Hf, (co_DisableCache o) eqn:Hdc; cbn; rewrite ?Hdc; cbn;
    try destruct (f tt) as [d|] eqn:Hft; cbn; intros; simplify_eq/=; rewrite ?Hdc in *; simplify_eq/=; try done;
    try (by eapply Hd); try (match goal with H : lru_view (lru_New _) _ = _ |- _ => by rewrite lru_view_New in H end).
Qed.

End Freshness.
