(* ===== verification/DnsCases.v ===== *)
(** * Instances and concrete runs of the DNS client

    The cache file as the persistent store of the client, simple instances of the
    other interfaces, and runs of exchanges on them. *)

From S2P Require Import Prelude GoStd Netip External Concrete DnsMsg RuleItems FakeIP Bolt CacheFile CacheFileSpec DnsClient DnsClientSpec DnsExchange DnsExchangeSpec DnsFreshness.
Local Open Scope Z_scope.

(** ** The cache file as a store *)

Section CacheFileStore.
Context {DB : Type} `{BL : BoltLaws DB}.

#[export] Instance cachefile_dns_store : DNSCacheStore (CacheFile DB) := {|
  store_LoadDNSCache := LoadDNSCache;
  store_SaveDNSCacheAsync := fun name qName qType raw at_ c => (queueDNSCacheSave (MkSaveKey name qName qType) raw at_ c).2;
  store_ClearDNSCache := fun c => (ClearDNSCache_db (ClearDNSCache_pending c)).2
|}.

#[export] Instance cachefile_rdrc_store : RDRCStore (CacheFile DB) := {|
  store_LoadRDRC := LoadRDRC;
  store_SaveRDRCAsync := SaveRDRCAsync
|}.

(** After a clear there is no bucket of the DNS cache. *)
Lemma clear_no_bucket (c : CacheFile DB) : let c' := (ClearDNSCache_db c).2 in bucket c' (db c') bucketDNSCache = None.
Proof.
  unfold ClearDNSCache_db, run_batch, batch, tx, clear_tx, bucket. destruct (cacheID c) as [id|] eqn:Hid.
  - destruct (has_bucket (db c) [id]) eqn:H1; cbn [negb orb]; [|cbn -[bucketDNSCache]; by rewrite Hid, H1].
    destruct (has_bucket (db c) [id; bucketDNSCache]) eqn:H2; cbn [negb]; [|cbn -[bucketDNSCache]; by rewrite Hid, H1, H2].
    destruct (remove_ok (db c) [id; bucketDNSCache]) as (d' & -> & Hb & _); [done..|]. cbn -[bucketDNSCache]. rewrite Hid.
    rewrite (Hb [id; bucketDNSCache]), decide_True by done. by case_match.
  - destruct (has_bucket (db c) [bucketDNSCache]) eqn:H1; [|cbn -[bucketDNSCache]; by rewrite Hid, H1].
    destruct (remove_ok (db c) [bucketDNSCache]) as (d' & -> & Hb & _); [done..|]. cbn -[bucketDNSCache]. rewrite Hid.
    by rewrite (Hb [bucketDNSCache]), decide_True by done.
Qed.

#[export] Instance cachefile_dns_store_laws : DNSCacheStoreLaws (CacheFile DB) cachefile_dns_store.
Proof.
  constructor; cbn [store_LoadDNSCache store_SaveDNSCacheAsync store_ClearDNSCache cachefile_dns_store].
  - intros name qName qType raw e c name' qName' qType' x. unfold LoadDNSCache at 1, queueDNSCacheSave. cbn.
    destruct (decide (MkSaveKey name' qName' qType' = MkSaveKey name qName qType)) as [Heq|Hne].
    + rewrite Heq, lookup_insert_eq. injection Heq as -> -> ->. intros [= <-]. by left.
    + rewrite lookup_insert_ne by congruence. by right.
  - intros name qName qType c x Hl. exfalso. revert Hl. unfold LoadDNSCache.
    pose proof (clear_no_bucket (ClearDNSCache_pending c)) as Hb. cbv zeta in Hb. unfold transport_bucket. rewrite Hb.
    assert (saveDNSCache (ClearDNSCache_db (ClearDNSCache_pending c)).2 = ∅) as ->
      by (unfold ClearDNSCache_db, run_batch; by destruct (batch _ _)).
    by rewrite lookup_empty.
Qed.
End CacheFileStore.

(** ** Simple instances *)

Module Simple.
Section Simple.
Context {K V : Type} `{Countable K}.

#[export] Instance map_lru : LRUCache K V (gmap K (V * Z)) := {|
  lru_New := fun _ => ∅;
  lru_Add := fun _ k v s => <[k := (v, 0)]> s;
  lru_AddWithLifetime := fun now k v lifetime s => <[k := (v, now + lifetime)]> s;
  lru_Get := fun _ k s => (fst <$> s !! k, s);
  lru_GetWithLifetimeNoExpire := fun k s => (s !! k, s);
  lru_Remove := fun k s => delete k s;
  lru_Purge := fun _ => ∅
|}.

#[export] Instance map_lru_laws : LRUCacheLaws K V (gmap K (V * Z)) map_lru.
Proof.
  refine {| lru_view := fun s k => s !! k |}; cbn.
  - intros _ k. apply lookup_empty.
  - intros _ k v s k' x [[<- <-]|[? ?]]%lookup_insert_Some; auto.
  - intros now k v l s k' x [[<- <-]|[? ?]]%lookup_insert_Some; [left|by right]. cbn. split_and!; [done..|lia].
  - intros _ k s v s' [= Hk <-]. apply fmap_Some in Hk as ([m e] & Hk & ->). eauto.
  - done.
  - intros k s x s' [= Hk <-]. done.
  - done.
  - intros k s k' x [? ?]%lookup_delete_Some. done.
  - intros _ k. apply lookup_empty.
Defined.
End Simple.

#[export] Instance set_rdrc : RDRCStore (gset (string * string * Z)) := {|
  store_LoadRDRC := fun _ tag name qType s => (bool_decide ((tag, name, qType) ∈ s), s);
  store_SaveRDRCAsync := fun tag name qType s => {[(tag, name, qType)]} ∪ s
|}.

(** A client library for messages with one A record. *)
#[export] Instance example_lib : @DnsLib concrete := {|
  dns_Fqdn := fun s => s +:+ ".";
  dns_IsFqdn := fun s => bool_decide (str_drop (String.length s - 1) s = ".");
  Msg_Pack := fun m => match Answer m with
                       | [RR_A h a] => Ok (Ttl h :: a)
                       | _ => Err (EExternal "pack")
                       end;
  Msg_Unpack := fun b => match b with
                         | ttl :: a => Ok (MkMsg (fixed_header 0 RcodeSuccess) [] [RR_A (MkHeader "a." TypeA ClassINET ttl) a] [] [])
                         | [] => Err (EExternal "unpack")
                         end;
  Msg_IsEdns0 := fun m => head (List.filter is_OPT (Extra m));
  OPT_Version := fun r => Z.shiftr (Ttl (Header r)) 16 mod 256;
  OPT_UDPSize := fun r => Hdr_Class (Header r);
  OPT_Do := fun r => Z.testbit (Ttl (Header r)) 15;
  Msg_SetEdns0 := fun m size do => set_Extra (Extra m ++ [RR_OPT (MkHeader "." TypeOPT size (if do then 2 ^ 15 else 0)) []]) m;
  Msg_Len := fun m => 12 + 16 * zlen (sections m);
  Msg_Truncate := fun m _ => set_Answer [] m
|}.
End Simple.
Import Simple MapDB.

(** ** Runs *)

Section Runs.
Context {X : External} {L : DnsLib}.
Context {MC RD DC : Type} `{!LRUCache dnsCacheKey Msg MC} `{!RDRCStore RD} `{!DNSCacheStore DC}.

Inductive action := ACall (ca : call) | AThread (i : nat) (inp : input) | ATime (d : Z).

Definition act (a : action) (st : @state X MC RD DC) : option state :=
  match a with
  | ACall ca => Some (MkState (st_now st) (st_threads st ++ [MkThread ca PBegin]) (st_shared st) (st_log st))
  | AThread i inp =>
      match st_threads st !! i with
      | Some th =>
          match run (st_now st) inp th (st_shared st) with
          | Some (th', spawned, events, s') =>
              Some (MkState (st_now st) (take i (st_threads st) ++ th' :: drop (S i) (st_threads st) ++ spawned) s'
                      (st_log st ++ events))
          | None => None
          end
      | None => None
      end
  | ATime d => if 0 <=? d then Some (MkState (st_now st + d) (st_threads st) (st_shared st) (st_log st)) else None
  end.

Fixpoint exec (l : list action) (st : @state X MC RD DC) : option state :=
  match l with
  | [] => Some st
  | a :: l => match act a st with Some st => exec l st | None => None end
  end.

Lemma act_step a st st' : act a st = Some st' -> step st st'.
Proof.
  destruct a as [ca|i inp|d]; cbn.
  - intros [= <-]. apply step_call.
  - destruct (st_threads st !! i) as [th|] eqn:Hi; [|done].
    destruct (run _ inp th _) as [[[[th' sp] ev] s']|] eqn:Hr; [|done]. intros [= <-].
    eapply step_thread; [|done]. by rewrite take_drop_middle.
  - destruct (0 <=? d) eqn:Hd; [|done]. intros [= <-]. apply step_time. apply Z.leb_le in Hd. lia.
Qed.

Lemma exec_reachable o now log l st : exec l (initial o now log) = Some st -> reachable o now log st.
Proof.
  unfold reachable. generalize (initial (MC := MC) o now log) as st0. induction l as [|a l IH]; intros st0; cbn.
  - intros [= <-]. done.
  - destruct (act a st0) as [st1|] eqn:Ha; [|done]. intros H. eapply rtc_l; [by eapply act_step|by apply IH].
Qed.

(** The state at the end of a run, the initial one if it is stuck. *)
Lemma exec_default_reachable o now log l :
  reachable (MC := MC) o now log (default (initial o now log) (exec l (initial o now log))).
Proof.
  destruct (exec l _) as [st|] eqn:H; [by eapply exec_reachable|]. cbn. unfold reachable. reflexivity.
Qed.
End Runs.

(** ** A client with a cache in memory *)

Abbreviation Stores := (gmap dnsCacheKey (@Msg concrete * Z)) (only parsing).
Abbreviation NoStore := (CacheFile (gmap path (gmap bytes bytes))) (only parsing).

Definition ex_options : ClientOptions (gset (string * string * Z)) NoStore :=
  MkClientOptions _ _ 0 false false 0 0 prefix_zero None None.
Definition ex_query_options : DNSQueryOptions := MkQueryOptions 0 0 false false None 0 prefix_zero.

Definition ex_query (id class : Z) : @Msg concrete :=
  MkMsg (MkMsgHdr id false 0 false false true false false false 0) [MkQuestion "a." TypeA class] [] [] [].
Definition ex_call (id class : Z) (checker : option (Msg -> bool)) : @call concrete :=
  MkCall "remote" (ex_query id class) ex_query_options checker None false.
Definition ex_reply : @Msg concrete :=
  MkMsg (fixed_header 7 RcodeSuccess) [MkQuestion "a." TypeA ClassINET]
    [RR_A (MkHeader "a." TypeA ClassINET 60) [1; 2; 3; 4]] [] [].

(** The phases of one exchange that asks the transport. *)
Definition ex_exchange (i : nat) : list action :=
  [AThread i INone; AThread i INone; AThread i INone; AThread i (IReply (inr ex_reply)); AThread i INone; AThread i INone].

Definition ex_run : list (@action concrete) :=
  ACall (ex_call 1 ClassINET None) :: ex_exchange 0 ++
  [ATime (10 * second); ACall (ex_call 2 ClassINET None); AThread 1 INone; AThread 1 INone; AThread 1 INone; AThread 1 INone].

Definition ex_state : @state concrete Stores (gset (string * string * Z)) NoStore :=
  default (initial ex_options 0 []) (exec ex_run (initial ex_options 0 [])).

Lemma ex_state_reachable : reachable ex_options 0 [] ex_state.
Proof. apply exec_default_reachable. Qed.

(** The successful answer of a finished thread. *)
Definition answered {X : External} (th : @thread X) : option Msg :=
  match th_phase th with PDone (Some m, None) => Some m | _ => None end.

(** What thread [i] answers satisfies a check. *)
Definition answers {X : External} {MC RD DC} (st : @state X MC RD DC) (i : nat) (check : Msg -> bool) : bool :=
  match st_threads st !! i with
  | Some th => match answered th with Some m => check m | None => false end
  | None => false
  end.

Definition has_ttl {X : External} (id ttl : Z) (m : Msg) : bool :=
  (Id (Hdr m) =? id) && bool_decide (Ttl ∘ Header <$> sections m = [ttl]).

(** The step of thread [i] gives a result that satisfies a check. *)
Definition answering {X : External} {L : DnsLib} {MC RD DC} `{!LRUCache dnsCacheKey Msg MC} `{!RDRCStore RD} `{!DNSCacheStore DC}
    (st : @state X MC RD DC) (i : nat) (check : Msg -> bool) : bool :=
  match st_threads st !! i with
  | Some th =>
      match result_of th, run (st_now st) INone th (st_shared st) with
      | None, Some (th', _, _, _) => match result_of th' with Some (Some m, None) => check m | _ => false end
      | _, _ => false
      end
  | None => false
  end.
Lemma answering_run {X : External} {L : DnsLib} {MC RD DC} `{!LRUCache dnsCacheKey Msg MC} `{!RDRCStore RD} `{!DNSCacheStore DC}
    (st : @state X MC RD DC) i check : answering st i check = true ->
  exists th th' sp ev s' m, st_threads st = take i (st_threads st) ++ th :: drop (S i) (st_threads st)
    /\ run (st_now st) INone th (st_shared st) = Some (th', sp, ev, s')
    /\ result_of th = None /\ result_of th' = Some (Some m, None) /\ check m = true.
Proof.
  unfold answering. destruct (st_threads st !! i) as [th|] eqn:Hi; [|done]. destruct (result_of th) eqn:Hn; [done|].
  destruct (run _ _ _ _) as [[[[th' sp] ev] s']|] eqn:Hr; [|done]. destruct (result_of th') as [[[m|] [e|]]|] eqn:Hm; try done.
  intros Hc. exists th, th', sp, ev, s', m. rewrite take_drop_middle by done. done.
Qed.

Definition ex_loading : @state concrete Stores (gset (string * string * Z)) NoStore :=
  default (initial ex_options 0 []) (exec (take 10 ex_run) (initial ex_options 0 [])).


Lemma all_finished {X : External} (ths : list (@thread X)) :
  forallb finished ths = true -> Forall (fun th => finished th = true) ths.
Proof. induction ths as [|th ths IH]; [done|]. cbn. intros [? ?]%andb_true_iff. constructor; auto. Qed.

Lemma dns_exchanges_answered_witness :
  reachable ex_options 0 [] ex_state /\ cl_cacheLock (sh_client (st_shared ex_state)) = ∅.
Proof.
  split; [apply ex_state_reachable|].
  apply (proj2 (proj2 (dns_exchanges_answered ex_options 0 [] ex_state ex_state_reachable))).
  apply all_finished. vm_compute. reflexivity.
Defined.

(** ** Messages *)

(** A query with an OPT record that carries a cookie and a subnet of its own. *)
Definition ex_edns_query : @Msg concrete :=
  set_Extra [RR_OPT (MkHeader "." TypeOPT 1232 0)
    [OtherOption 10 [1; 2]; SubnetOption (MkSubnet EDNS0SUBNET 1 24 0 [10; 0; 0; 0])]] (ex_query 1 ClassINET).

Lemma client_subnet_roundtrip_witness :
  prefix_ok (MkPrefix (Addr4 (192 * 2 ^ 24)) 16) /\
  clientSubnetFromMessage (SetClientSubnet ex_edns_query (MkPrefix (Addr4 (192 * 2 ^ 24)) 16)) = MkPrefix (Addr4 (192 * 2 ^ 24)) 16.
Proof.
  assert (prefix_ok (MkPrefix (Addr4 (192 * 2 ^ 24)) 16)) as Hp by (apply prefix_ok_intro; cbn; lia || done).
  split; [exact Hp|]. apply (client_subnet_roundtrip ex_edns_query _ Hp). reflexivity.
Defined.

Lemma response_time_to_live_witness :
  ttl_range ex_reply /\
  Forall (fun r => Ttl (Header r) = 60) (List.filter (fun r => negb (is_OPT r))
    (sections (applyResponseOptions (MkQuestion "a." TypeA ClassINET) ex_reply ex_query_options).2)).
Proof.
  assert (ttl_range ex_reply) as Hr by (repeat constructor; cbn; lia).
  split; [exact Hr|]. apply (response_time_to_live (MkQuestion "a." TypeA ClassINET) ex_reply ex_query_options Hr).
Defined.

Lemma fixed_response_addresses_witness :
  Forall addr_plain [Addr4 1; Addr6 2 ""] /\
  lookup_answer (inr (FixedResponse 1 (MkQuestion "a." TypeAAAA ClassINET) [Addr4 1; Addr6 2 ""] 600)) = inr [Addr6 2 ""].
Proof.
  assert (Forall addr_plain [Addr4 1; Addr6 2 ""]) as Ha by (repeat constructor; cbn; lia || done).
  split; [exact Ha|]. apply (fixed_response_addresses 1 (MkQuestion "a." TypeAAAA ClassINET) _ 600 Ha).
Defined.

(** An OPT record without a subnet followed by another record: the query leaves with
    two OPT records, which RFC 6891 forbids. *)
Lemma subnet_second_opt :
  let opt := RR_OPT (MkHeader "." TypeOPT 1232 0) [] in
  let query := set_Extra [opt; RR_other (MkHeader "key." 250 255 0) tt] (ex_query 1 ClassINET) in
  length (List.filter is_OPT (Extra (SetClientSubnet query (MkPrefix (Addr4 0) 24)))) = 2%nat.
Proof. reflexivity. Qed.

(** ** Where the client falls short *)

(** The first exchange has no checker, the second one a checker that rejects
    everything: it is answered from the cache all the same. *)
Definition unchecked_run : list (@action concrete) :=
  ACall (ex_call 1 ClassINET None) :: ex_exchange 0 ++
  [ACall (ex_call 2 ClassINET (Some (fun _ => false))); AThread 1 INone; AThread 1 INone; AThread 1 INone; AThread 1 INone].

Lemma cached_answer_not_checked :
  match exec (MC := Stores) unchecked_run (initial ex_options 0 []) with
  | Some st => answers st 1 (has_ttl 2 60) = true
  | None => False
  end.
Proof. vm_compute. reflexivity. Qed.

(** With the persistent store: a question of class CHAOS is answered with the cached
    answer to the question of class IN. *)
Definition store_options : ClientOptions (gset (string * string * Z)) NoStore :=
  MkClientOptions _ _ 0 false false 0 0 prefix_zero None (Some (fun _ => Some (New "" 0 ∅))).
Definition class_run : list (@action concrete) :=
  ACall (ex_call 1 ClassINET None) :: ex_exchange 0 ++
  [ACall (ex_call 2 3 None); AThread 1 INone; AThread 1 INone; AThread 1 INone; AThread 1 INone].

Lemma persistent_cache_ignores_class :
  match exec (MC := Stores) class_run (initial store_options 0 []) with
  | Some st => answers st 1 (has_ttl 2 60) = true
  | None => False
  end.
Proof. vm_compute. reflexivity. Qed.
