(* ===== verification/DnsRule.v ===== *)
(** * DNS rules and their actions

    The DNS half of option/rule_action.go, option/rule_dns.go, route/rule/rule_action.go,
    route/rule/rule_nested_action.go, and the constructors of route/rule/rule_dns.go:
    action options and actions, predefined responses, default and logical DNS rules
    with the checks made on them.  The conditions of a rule are those of RuleBuild.

    The JSON decoder gives the fields; the records of an action or a condition are not
    nil, [DNSRecordOptions.UnmarshalJSON] refuses an empty one. *)

From S2P Require Import Prelude GoStd Netip External DnsMsg RuleItems RuleMatch RuleOptions RuleBuild RuleAction.
Local Open Scope Z_scope.

(** ** Constants (constant/rule.go) *)

Definition RuleActionTypeEvaluate : string := "evaluate".
Definition RuleActionTypeRespond : string := "respond".
Definition RuleActionTypePredefined : string := "predefined".

(** ** Deprecation notes (experimental/deprecated/constants.go) *)

Record Note := MkNote {
  note_Description : string;
  note_DeprecatedVersion : string;
  note_ScheduledVersion : string;
  note_MigrationLink : string
}.

Definition MessageWithLink (n : Note) : string :=
  let message := note_Description n +:+ " is deprecated in sing-box " +:+ note_DeprecatedVersion n
                 +:+ " and will be removed in sing-box " +:+ note_ScheduledVersion n in
  if negb (bool_decide (note_MigrationLink n = "")) then
    message +:+ ", checkout documentation for migration: " +:+ note_MigrationLink n
  else message +:+ ".".

Definition OptionRuleSetIPCIDRAcceptEmpty : Note :=
  MkNote "Legacy `rule_set_ip_cidr_accept_empty` DNS rule item" "1.14.0" "1.16.0"
    "https://sing-box.sagernet.org/migration/#migrate-address-filter-fields-to-response-matching".
Definition OptionLegacyDNSAddressFilter : Note :=
  MkNote "Legacy Address Filter Fields in DNS rules" "1.14.0" "1.16.0"
    "https://sing-box.sagernet.org/migration/#migrate-address-filter-fields-to-response-matching".
Definition OptionLegacyDNSRuleStrategy : Note :=
  MkNote "Legacy `strategy` DNS rule action option" "1.14.0" "1.16.0"
    "https://sing-box.sagernet.org/migration/#migrate-dns-rule-action-strategy-to-rule-items".

(** ** Options of actions (option/rule_action.go) *)

(** [AbstractDNSRouteActionOptions]; [RewriteTTL] and [ClientSubnet] may be nil. *)
Record AbstractDNSRouteActionOptions := MkAbstractDNSRoute {
  ao_Timeout : Z;
  ao_Strategy : Z;
  ao_DisableCache : bool;
  ao_DisableOptimisticCache : bool;
  ao_RewriteTTL : option Z;
  ao_ClientSubnet : option Prefix
}.
Record DNSRouteActionOptions := MkDNSRoute {
  dro_Server : string;
  dro_Speculative : bool;
  dro_options :> AbstractDNSRouteActionOptions
}.
Record DNSEvaluateActionOptions := MkDNSEvaluate {
  de_Server : string;
  de_Tag : string;
  de_Speculative : bool;
  de_options :> AbstractDNSRouteActionOptions
}.

#[export] Instance AbstractDNSRoute_eq_dec : EqDecision AbstractDNSRouteActionOptions.
Proof. solve_decision. Defined.
#[export] Instance DNSRoute_eq_dec : EqDecision DNSRouteActionOptions.
Proof. solve_decision. Defined.
#[export] Instance DNSEvaluate_eq_dec : EqDecision DNSEvaluateActionOptions.
Proof. solve_decision. Defined.
#[export] Instance RejectActionOptions_eq_dec : EqDecision RejectActionOptions.
Proof. solve_decision. Defined.

Definition zero_AbstractDNSRoute : AbstractDNSRouteActionOptions := MkAbstractDNSRoute 0 0 false false None None.
Definition zero_DNSRoute : DNSRouteActionOptions := MkDNSRoute "" false zero_AbstractDNSRoute.
Definition zero_DNSEvaluate : DNSEvaluateActionOptions := MkDNSEvaluate "" "" false zero_AbstractDNSRoute.

(** [DNSRouteOptionsActionOptions.UnmarshalJSON], after the fields are decoded. *)
Definition DNSRouteOptionsActionOptions_Unmarshal (o : AbstractDNSRouteActionOptions)
    : outcome AbstractDNSRouteActionOptions :=
  if bool_decide (o = zero_AbstractDNSRoute) then Err (ENew "empty DNS route option action") else Ok o.

Definition Uniq (l : list string) : list string :=
  fold_left (fun acc x => if bool_decide (x ∈ acc) then acc else acc ++ [x]) l [].

Section DNSRules.
Context {X : External}.

Record DNSRouteActionPredefined := MkPredefinedOptions {
  po_Rcode : option Z;
  po_Answer : slice RR;
  po_Ns : slice RR;
  po_Extra : slice RR
}.

(** [option.DNSRuleAction] *)
Record DNSRuleActionOptions := MkDNSRuleActionOptions {
  da_Action : string;
  da_Race : bool;
  da_RouteOptions : DNSRouteActionOptions;
  da_EvaluateOptions : DNSEvaluateActionOptions;
  da_RouteOptionsOptions : AbstractDNSRouteActionOptions;
  da_RejectOptions : RejectActionOptions;
  da_PredefinedOptions : DNSRouteActionPredefined
}.

(** [option.DNSRuleAction{}], and [reflect.DeepEqual] with it. *)
Definition zero_DNSRuleAction : DNSRuleActionOptions :=
  MkDNSRuleActionOptions "" false zero_DNSRoute zero_DNSEvaluate zero_AbstractDNSRoute (MkRejectOptions "" false)
    (MkPredefinedOptions None None None None).
Definition is_zero_predefined (o : DNSRouteActionPredefined) : bool :=
  is_nil (po_Rcode o) && is_nil (po_Answer o) && is_nil (po_Ns o) && is_nil (po_Extra o).
Definition is_zero_action (a : DNSRuleActionOptions) : bool :=
  bool_decide (da_Action a = "") && negb (da_Race a) && bool_decide (da_RouteOptions a = zero_DNSRoute)
  && bool_decide (da_EvaluateOptions a = zero_DNSEvaluate)
  && bool_decide (da_RouteOptionsOptions a = zero_AbstractDNSRoute)
  && bool_decide (da_RejectOptions a = MkRejectOptions "" false) && is_zero_predefined (da_PredefinedOptions a).

Definition with_Action (a : DNSRuleActionOptions) (name : string) : DNSRuleActionOptions :=
  MkDNSRuleActionOptions name (da_Race a) (da_RouteOptions a) (da_EvaluateOptions a) (da_RouteOptionsOptions a)
    (da_RejectOptions a) (da_PredefinedOptions a).

(** [DNSRuleAction.UnmarshalJSONContext], after the fields of the named action are
    decoded. *)
Definition DNSRuleAction_Unmarshal (a : DNSRuleActionOptions) : outcome DNSRuleActionOptions :=
  let name := da_Action a in
  if bool_decide (name = "") || bool_decide (name = RuleActionTypeRoute) then Ok (with_Action a RuleActionTypeRoute)
  else if bool_decide (name = RuleActionTypeEvaluate) then Ok a
  else if bool_decide (name = RuleActionTypeRespond) then Ok a
  else if bool_decide (name = RuleActionTypeRouteOptions) then
    let* o := DNSRouteOptionsActionOptions_Unmarshal (da_RouteOptionsOptions a) in
    Ok (MkDNSRuleActionOptions name (da_Race a) (da_RouteOptions a) (da_EvaluateOptions a) o
          (da_RejectOptions a) (da_PredefinedOptions a))
  else if bool_decide (name = RuleActionTypeReject) then
    let* o := RejectActionOptions_Unmarshal (da_RejectOptions a) in
    Ok (MkDNSRuleActionOptions name (da_Race a) (da_RouteOptions a) (da_EvaluateOptions a)
          (da_RouteOptionsOptions a) o (da_PredefinedOptions a))
  else if bool_decide (name = RuleActionTypePredefined) then Ok a
  else Err (ENew ("unknown DNS rule action: " +:+ name)).

(** ** Options of rules (option/rule_dns.go) *)

Record DefaultDNSRuleOptions := MkDefaultDNSOptions {
  do_raw :> RawDefaultDNSRule RR;
  do_action : DNSRuleActionOptions
}.

(** [option.DNSRule] and [option.LogicalDNSRule] *)
Inductive DNSRuleOptions :=
| MkDNSRuleOptions (type : string) (DefaultOptions : DefaultDNSRuleOptions) (LogicalOptions : LogicalDNSRuleOptions)
with LogicalDNSRuleOptions :=
| MkLogicalDNSOptions (mode : string) (rules : slice DNSRuleOptions) (invert : bool) (action : DNSRuleActionOptions).

(** [reflect.DeepEqual] with the zero rule, [Invert] aside. *)
Definition is_zero_common (o : CommonRule) : bool :=
  is_nil (c_Inbound o) && (c_IPVersion o =? 0) && is_nil (c_Network o) && is_nil (c_AuthUser o)
  && is_nil (c_Protocol o) && is_nil (c_Domain o) && is_nil (c_DomainSuffix o) && is_nil (c_DomainKeyword o)
  && is_nil (c_DomainRegex o) && is_nil (c_Geosite o) && is_nil (c_SourceGeoIP o) && is_nil (c_GeoIP o)
  && is_nil (c_SourceIPCIDR o) && negb (c_SourceIPIsPrivate o) && is_nil (c_IPCIDR o) && negb (c_IPIsPrivate o)
  && is_nil (c_SourcePort o) && is_nil (c_SourcePortRange o) && is_nil (c_Port o) && is_nil (c_PortRange o)
  && is_nil (c_ProcessName o) && is_nil (c_ProcessPath o) && is_nil (c_ProcessPathRegex o)
  && is_nil (c_PackageName o) && is_nil (c_PackageNameRegex o) && is_nil (c_User o) && is_nil (c_UserID o)
  && bool_decide (c_ClashMode o = "") && is_nil (c_NetworkType o) && negb (c_NetworkIsExpensive o)
  && negb (c_NetworkIsConstrained o) && is_nil (c_WIFISSID o) && is_nil (c_WIFIBSSID o)
  && is_nil (c_InterfaceAddress o) && is_nil (c_NetworkInterfaceAddress o) && is_nil (c_DefaultInterfaceAddress o)
  && is_nil (c_SourceMACAddress o) && is_nil (c_SourceHostname o) && is_nil (c_PreferredBy o)
  && is_nil (c_RuleSet o) && negb (c_RuleSetIPCIDRMatchSource o) && negb (c_Deprecated_RulesetIPCIDRMatchSource o).
Definition is_zero_raw (o : RawDefaultDNSRule RR) : bool :=
  is_zero_common o && is_nil (n_QueryType o) && is_nil (n_Outbound o) && is_nil (n_MatchResponse o)
  && negb (n_IPAcceptAny o) && is_nil (n_ResponseRcode o) && is_nil (n_ResponseAnswer o) && is_nil (n_ResponseNs o)
  && is_nil (n_ResponseExtra o) && negb (n_RuleSetIPCIDRAcceptEmpty o).
Definition DefaultDNSRule_IsValid (o : DefaultDNSRuleOptions) : bool :=
  negb (is_zero_raw o && is_zero_action (do_action o)).

Fixpoint DNSRule_IsValid (r : DNSRuleOptions) : outcome bool :=
  match r with
  | MkDNSRuleOptions type d l =>
      if bool_decide (type = "default") then Ok (DefaultDNSRule_IsValid d)
      else if bool_decide (type = "logical") then LogicalDNSRule_IsValid l
      else Panic ("unknown DNS rule type: " +:+ type)
  end
with LogicalDNSRule_IsValid (l : LogicalDNSRuleOptions) : outcome bool :=
  match l with
  | MkLogicalDNSOptions _ None _ _ | MkLogicalDNSOptions _ (Some []) _ _ => Ok false
  | MkLogicalDNSOptions _ (Some rules) _ _ =>
      (fix all (rs : list DNSRuleOptions) : outcome bool :=
         match rs with
         | [] => Ok true
         | r :: rs' => let* ok := DNSRule_IsValid r in if ok then all rs' else Ok false
         end) rules
  end.

(** ** Nested actions (route/rule/rule_nested_action.go) *)

Definition DNSRuleActionNestedUnsupportedMessage : string := "DNS rule action is not supported in nested rules".

Definition logical_action (l : LogicalDNSRuleOptions) : DNSRuleActionOptions :=
  let '(MkLogicalDNSOptions _ _ _ a) := l in a.
Definition logical_rules (l : LogicalDNSRuleOptions) : list DNSRuleOptions :=
  let '(MkLogicalDNSOptions _ rules _ _) := l in elems rules.

Definition is_default_type (type : string) : bool := bool_decide (type = "") || bool_decide (type = "default").

Definition dnsRuleHasConfiguredAction (r : DNSRuleOptions) : bool :=
  match r with
  | MkDNSRuleOptions type d l =>
      if is_default_type type then negb (is_zero_action (do_action d))
      else if bool_decide (type = "logical") then negb (is_zero_action (logical_action l))
      else false
  end.

(** A loop that stops at the first error, which is wrapped with the index. *)
Fixpoint first_error (msg : Z -> string) (i : Z) (l : list (option error)) : option error :=
  match l with
  | [] => None
  | Some e :: _ => Some (ECause e (msg i))
  | None :: l' => first_error msg (i + 1) l'
  end.

Fixpoint validateNoNestedDNSRuleActions (r : DNSRuleOptions) (nested : bool) : option error :=
  if nested && dnsRuleHasConfiguredAction r then Some (ENew DNSRuleActionNestedUnsupportedMessage)
  else match r with
  | MkDNSRuleOptions type _ (MkLogicalDNSOptions _ rules _ _) =>
      if negb (bool_decide (type = "logical")) then None
      else match rules with
           | Some rules =>
               first_error sub_rule_msg 0 ((fun subRule => validateNoNestedDNSRuleActions subRule true) <$> rules)
           | None => None
           end
  end.
Definition ValidateNoNestedDNSRuleActions (r : DNSRuleOptions) : option error :=
  validateNoNestedDNSRuleActions r false.

(** ** Actions (route/rule/rule_action.go) *)

Record RuleActionDNSRouteOptions := MkDNSRouteOptions {
  dr_Strategy : Z;
  dr_Timeout : Z;
  dr_DisableCache : bool;
  dr_DisableOptimisticCache : bool;
  dr_RewriteTTL : option Z;
  dr_ClientSubnet : Prefix
}.

Record PredefinedAction := MkPredefined { pd_Rcode : Z; pd_Answer : list RR; pd_Ns : list RR; pd_Extra : list RR }.

Inductive DNSRuleAction :=
| RuleActionDNSRoute (Server : string) (Speculative : bool) (options : RuleActionDNSRouteOptions)
| RuleActionEvaluate (Server Tag : string) (Speculative : bool) (options : RuleActionDNSRouteOptions)
| RuleActionRespond
| RuleActionDNSRouteOptionsOnly (options : RuleActionDNSRouteOptions)
| RuleActionDNSReject (Method : string) (NoDrop : bool)
| RuleActionPredefined (action : PredefinedAction).

Definition new_route_options (o : AbstractDNSRouteActionOptions) : RuleActionDNSRouteOptions :=
  MkDNSRouteOptions (ao_Strategy o) (ao_Timeout o) (ao_DisableCache o) (ao_DisableOptimisticCache o)
    (ao_RewriteTTL o) (default prefix_zero (ao_ClientSubnet o)).

(** [None] is the nil action. *)
Definition NewDNSRuleAction (a : DNSRuleActionOptions) : outcome (option DNSRuleAction) :=
  let name := da_Action a in
  if bool_decide (name = "") then Ok None
  else if bool_decide (name = RuleActionTypeRoute) then
    let o := da_RouteOptions a in
    Ok (Some (RuleActionDNSRoute (dro_Server o) (dro_Speculative o) (new_route_options o)))
  else if bool_decide (name = RuleActionTypeEvaluate) then
    let o := da_EvaluateOptions a in
    Ok (Some (RuleActionEvaluate (de_Server o) (de_Tag o) (de_Speculative o) (new_route_options o)))
  else if bool_decide (name = RuleActionTypeRespond) then Ok (Some RuleActionRespond)
  else if bool_decide (name = RuleActionTypeRouteOptions) then
    Ok (Some (RuleActionDNSRouteOptionsOnly (new_route_options (da_RouteOptionsOptions a))))
  else if bool_decide (name = RuleActionTypeReject) then
    Ok (Some (RuleActionDNSReject (rj_Method (da_RejectOptions a)) (rj_NoDrop (da_RejectOptions a))))
  else if bool_decide (name = RuleActionTypePredefined) then
    let o := da_PredefinedOptions a in
    Ok (Some (RuleActionPredefined
      (MkPredefined (default RcodeSuccess (po_Rcode o)) (elems (po_Answer o)) (elems (po_Ns o)) (elems (po_Extra o)))))
  else Panic ("unknown rule action: " +:+ name).

(** A record for a wildcard name takes the name of a question below it. *)
Definition rewrite_record (question : Question) (it : RR) : RR :=
  let name := Hdr_Name (Header it) in
  if HasPrefix name "*" && HasSuffix (q_Name question) (str_drop 1 name)
  then set_Name (q_Name question) it else it.
Definition rewriteRecords (records : list RR) (question : Question) : list RR := rewrite_record question <$> records.

(** [RuleActionPredefined.Response] *)
Definition Predefined_Response (p : PredefinedAction) (request : Msg) : outcome Msg :=
  match Questions request with
  | [] => Panic "index out of range [0] with length 0"
  | question :: _ =>
      Ok (MkMsg (MkMsgHdr (Id (Hdr request)) true 0 true false true true false false (pd_Rcode p)) (Questions request)
            (rewriteRecords (pd_Answer p) question) (rewriteRecords (pd_Ns p) question)
            (rewriteRecords (pd_Extra p) question))
  end.

(** ** Rules (route/rule/rule_dns.go) *)

(** [adapter.DNSRule]: a rule with its action; [Action] of the sub-rules of a logical
    rule is never used. *)
Record DNSRule := MkDNSRule { dns_Rule : Rule; dns_Action : option DNSRuleAction }.

Definition MatchResponseTag (r : Rule) : string :=
  match r with
  | DefaultR (KDefaultDNSRule _ tag _) _ => tag
  | _ => ""
  end.
Definition Race (r : Rule) : bool :=
  match r with
  | DefaultR (KDefaultDNSRule _ _ race) _ => race
  | LogicalR (KLogicalDNSRule _ _ race) _ => race
  | _ => false
  end.

Definition validateDNSRuleAction (a : DNSRuleActionOptions) : option error :=
  if bool_decide (da_Action a = RuleActionTypeReject)
     && bool_decide (rj_Method (da_RejectOptions a) = RuleActionRejectMethodReply)
  then Some (ENew "reject method `reply` is not supported for DNS rules")
  else if da_Race a then
    if negb (bool_decide (da_Action a ∈ [""; RuleActionTypeRoute; RuleActionTypeRespond; RuleActionTypeReject;
                                        RuleActionTypePredefined]))
    then Some (ENew "`race` requires a final action")
    else if dro_Speculative (da_RouteOptions a)
    then Some (ENew "`race` and `speculative` cannot be combined on the same rule")
    else None
  else None.

(** The checks [NewDNSRule] makes on an action, and on its server. *)
Definition check_nested_evaluate (checkServer : bool) (a : DNSRuleActionOptions) : option error :=
  if negb checkServer && bool_decide (da_Action a = RuleActionTypeEvaluate)
  then Some (ENew (da_Action a +:+ " is only allowed on top-level DNS rules")) else None.
Definition check_server (checkServer : bool) (a : DNSRuleActionOptions) : option error :=
  let server :=
    if bool_decide (da_Action a = "") || bool_decide (da_Action a = RuleActionTypeRoute)
    then Some (dro_Server (da_RouteOptions a))
    else if bool_decide (da_Action a = RuleActionTypeEvaluate) then Some (de_Server (da_EvaluateOptions a))
    else None in
  if bool_decide (server = Some ""%string) && checkServer then Some (ENew "missing server field") else None.

Definition raise (e : option error) : outcome unit :=
  match e with Some e => Err e | None => Ok tt end.

Definition NewDefaultDNSRule (o : DefaultDNSRuleOptions) (legacyDNSMode : bool) : outcome DNSRule :=
  let* action := NewDNSRuleAction (do_action o) in
  let* r := NewDefaultDNSRule_conditions (MessageWithLink OptionRuleSetIPCIDRAcceptEmpty) (da_Race (do_action o))
              legacyDNSMode o in
  Ok (MkDNSRule r action).

(** [NewDNSRule] and [NewLogicalDNSRule] *)
Fixpoint NewDNSRule (o : DNSRuleOptions) (checkServer legacyDNSMode : bool) : outcome DNSRule :=
  match o with
  | MkDNSRuleOptions type d l =>
      if is_default_type type then
        if negb (DefaultDNSRule_IsValid d) then Err (ENew "missing conditions")
        else
          let* _ := raise (check_nested_evaluate checkServer (do_action d)) in
          let* _ := raise (validateDNSRuleAction (do_action d)) in
          if da_Race (do_action d) && negb (IsEnabled (n_MatchResponse d))
          then Err (ENew "`race` requires `match_response`")
          else
            let* _ := raise (check_server checkServer (do_action d)) in
            NewDefaultDNSRule d legacyDNSMode
      else if bool_decide (type = "logical") then
        let* valid := LogicalDNSRule_IsValid l in
        if negb valid then Err (ENew "missing conditions")
        else
          let* _ := raise (check_nested_evaluate checkServer (logical_action l)) in
          let* _ := raise (validateDNSRuleAction (logical_action l)) in
          let* _ := raise (check_server checkServer (logical_action l)) in
          NewLogicalDNSRule l legacyDNSMode
      else Err (ENew ("unknown rule type: " +:+ type))
  end
with NewLogicalDNSRule (l : LogicalDNSRuleOptions) (legacyDNSMode : bool) : outcome DNSRule :=
  match l with
  | MkLogicalDNSOptions mode rules invert a =>
      let* action := NewDNSRuleAction a in
      let* mode := check_mode mode in
      let new_all := (fix go (i : Z) (rs : list DNSRuleOptions) : outcome (list Rule) :=
                        match rs with
                        | [] => Ok []
                        | subRule :: rs' =>
                            let* _ := cause (sub_rule_msg i) (raise (validateNoNestedDNSRuleActions subRule true)) in
                            let* rule := cause (sub_rule_msg i) (NewDNSRule subRule false legacyDNSMode) in
                            let* rest := go (i + 1) rs' in
                            Ok (dns_Rule rule :: rest)
                        end) in
      let* rs := match rules with Some rs => new_all 0 rs | None => Ok [] end in
      let matchResponseTags := Uniq (concat (MatchResponseTags <$> rs)) in
      let matchResponseAnonymous := existsb MatchResponseAnonymous rs in
      if da_Race a && (zlen matchResponseTags =? 0) && negb matchResponseAnonymous
      then Err (ENew "`race` requires `match_response` in sub-rules")
      else Ok (MkDNSRule (LogicalR (KLogicalDNSRule matchResponseTags matchResponseAnonymous (da_Race a))
                            (MkLogical rs mode invert)) action)
  end.

(** ** Start (route/rule/rule_abstract.go, rule_item_rule_set.go)

    [abstractDefaultRule.Start] starts the items in the order of [allItems], of which
    the rule-set item is the last; [ruleSets] are the rule-sets of the router with
    their content.  The reference counts are the subject of RuleSetState. *)
Fixpoint collect_sets (ruleSets : string -> option RuleSet) (tagList : list string) : outcome (list RuleSet) :=
  match tagList with
  | [] => Ok []
  | tag :: tagList' =>
      match ruleSets tag with
      | None => Err (ENew ("rule-set not found: " +:+ tag))
      | Some ruleSet => let* rest := collect_sets ruleSets tagList' in Ok (ruleSet :: rest)
      end
  end.
Definition start_rule_set (ruleSets : string -> option RuleSet) (rs : option RuleSetItem) : outcome (option RuleSetItem) :=
  match rs with
  | None => Ok None
  | Some (MkRuleSetItem tagList _ src acceptEmpty) =>
      let* sets := collect_sets ruleSets tagList in
      Ok (Some (MkRuleSetItem tagList sets src acceptEmpty))
  end.
Fixpoint rule_Start (start : RuleItem -> outcome RuleItem) (ruleSets : string -> option RuleSet) (r : Rule) : outcome Rule :=
  match r with
  | DefaultR kind (MkDefault it rs invert) =>
      let* it := start_items start it in
      let* rs := start_rule_set ruleSets rs in
      Ok (DefaultR kind (MkDefault it rs invert))
  | LogicalR kind (MkLogical rules mode invert) =>
      let* rules := (fix go (l : list Rule) : outcome (list Rule) :=
                       match l with
                       | [] => Ok []
                       | r :: l' =>
                           let* r := rule_Start start ruleSets r in
                           let* l' := go l' in
                           Ok (r :: l')
                       end) rules in
      Ok (LogicalR kind (MkLogical rules mode invert))
  end.
End DNSRules.
