(* ===== verification/DnsMode.v ===== *)
(** * Building the rules of the DNS router

    The construction half of dns/router.go: which rules ask for the legacy address
    filter mode and which exclude it, the checks on rules that match responses, and
    [buildRules], [Initialize], [Start], [Close] and [ValidateRuleSetMetadataUpdate].

    The router reads the metadata of rule-sets from the route router: [ruleSetMetadata],
    where [None] is an unknown tag.  The deprecation reports and the log are left out;
    the warnings of the validation are its result. *)

From S2P Require Import Prelude GoStd Netip External DnsMsg RuleItems RuleMatch RuleOptions RuleBuild RuleAction DnsClient DnsRule.
Local Open Scope Z_scope.

(** ** Transports *)

Definition DNSTypeFakeIP : string := "fakeip".

(** [adapter.DNSTransport] and [adapter.DNSTransportManager]: what the router uses. *)
Record DNSTransport := MkTransport { tr_Tag : string; tr_Type : string }.
Record DNSTransportManager := MkTransportManager {
  tm_Transport : string -> option DNSTransport;
  tm_Default : DNSTransport
}.

#[export] Instance DNSTransport_eq_dec : EqDecision DNSTransport.
Proof. solve_decision. Defined.

(** ** Mode *)

Record dnsRuleModeFlags := MkFlags { fl_disabled : bool; fl_needed : bool; fl_neededFromStrategy : bool }.
Definition no_flags : dnsRuleModeFlags := MkFlags false false false.
Definition merge (f other : dnsRuleModeFlags) : dnsRuleModeFlags :=
  MkFlags (fl_disabled f || fl_disabled other) (fl_needed f || fl_needed other)
    (fl_neededFromStrategy f || fl_neededFromStrategy other).

(** The loop that merges the flags of a list of rules. *)
Fixpoint merge_all (msg : Z -> string) (i : Z) (l : list (outcome dnsRuleModeFlags)) (flags : dnsRuleModeFlags)
    : outcome dnsRuleModeFlags :=
  match l with
  | [] => Ok flags
  | m :: l' => let* f := cause (msg i) m in merge_all msg (i + 1) l' (merge flags f)
  end.

Section Mode.
Context {X : External}.

(** The route router of the context, if there is one: its rule-sets by tag. *)
Variable router : option (string -> option RuleSetMetadata).

Definition defaultRuleNeedsLegacyDNSModeFromAddressFilter (rule : DefaultDNSRuleOptions) : bool :=
  n_RuleSetIPCIDRAcceptEmpty rule
  || negb (IsEnabled (n_MatchResponse rule))
     && (n_IPAcceptAny rule || given (c_IPCIDR rule) || c_IPIsPrivate rule).

Definition hasResponseMatchFields (rule : DefaultDNSRuleOptions) : bool :=
  negb (is_nil (n_ResponseRcode rule)) || given (n_ResponseAnswer rule) || given (n_ResponseNs rule)
  || given (n_ResponseExtra rule).

Definition defaultRuleDisablesLegacyDNSMode (rule : DefaultDNSRuleOptions) : bool :=
  IsEnabled (n_MatchResponse rule) || hasResponseMatchFields rule
  || bool_decide (da_Action (do_action rule) = RuleActionTypeEvaluate)
  || bool_decide (da_Action (do_action rule) = RuleActionTypeRespond)
  || (0 <? c_IPVersion rule) || given (n_QueryType rule).

Definition dnsRuleActionDisablesLegacyDNSMode (a : DNSRuleActionOptions) : bool :=
  da_Race a
  || (if bool_decide (da_Action a = "") || bool_decide (da_Action a = RuleActionTypeRoute) then
        ao_DisableOptimisticCache (da_RouteOptions a) || dro_Speculative (da_RouteOptions a)
      else if bool_decide (da_Action a = RuleActionTypeEvaluate) then
        ao_DisableOptimisticCache (da_EvaluateOptions a) || de_Speculative (da_EvaluateOptions a)
      else if bool_decide (da_Action a = RuleActionTypeRouteOptions) then
        ao_DisableOptimisticCache (da_RouteOptionsOptions a)
      else false).

Definition dnsRuleActionHasStrategy (a : DNSRuleActionOptions) : bool :=
  if bool_decide (da_Action a = "") || bool_decide (da_Action a = RuleActionTypeRoute) then
    negb (ao_Strategy (da_RouteOptions a) =? DomainStrategyAsIS)
  else if bool_decide (da_Action a = RuleActionTypeEvaluate) then
    negb (ao_Strategy (da_EvaluateOptions a) =? DomainStrategyAsIS)
  else if bool_decide (da_Action a = RuleActionTypeRouteOptions) then
    negb (ao_Strategy (da_RouteOptionsOptions a) =? DomainStrategyAsIS)
  else false.

(** The action of a rule by its type, and the helpers that read it. *)
Definition rule_action (rule : DNSRuleOptions) : option DNSRuleActionOptions :=
  match rule with
  | MkDNSRuleOptions type d l =>
      if is_default_type type then Some (do_action d)
      else if bool_decide (type = "logical") then Some (logical_action l)
      else None
  end.
Definition dnsRuleActionType (rule : DNSRuleOptions) : string :=
  match rule_action rule with
  | Some a => if bool_decide (da_Action a = "") then RuleActionTypeRoute else da_Action a
  | None => ""
  end.
Definition dnsRuleActionServer (rule : DNSRuleOptions) : string :=
  match rule_action rule with
  | Some a => if bool_decide (dnsRuleActionType rule = RuleActionTypeEvaluate)
              then de_Server (da_EvaluateOptions a) else dro_Server (da_RouteOptions a)
  | None => ""
  end.
Definition dnsRuleActionEvaluateTag (rule : DNSRuleOptions) : string :=
  match rule_action rule with Some a => de_Tag (da_EvaluateOptions a) | None => "" end.
Definition dnsRuleActionSpeculative (rule : DNSRuleOptions) : bool :=
  match rule_action rule with
  | Some a => if bool_decide (dnsRuleActionType rule = RuleActionTypeEvaluate)
              then de_Speculative (da_EvaluateOptions a) else dro_Speculative (da_RouteOptions a)
  | None => false
  end.
Definition dnsRuleRace (rule : DNSRuleOptions) : bool :=
  match rule_action rule with Some a => da_Race a | None => false end.

Definition lookupDNSRuleSetMetadata (tag : string) (metadataOverrides : gmap string RuleSetMetadata)
    : outcome RuleSetMetadata :=
  match metadataOverrides !! tag with
  | Some metadata => Ok metadata
  | None =>
      match router with
      | None => Panic "invalid memory address or nil pointer dereference"
      | Some ruleSet =>
          match ruleSet tag with
          | Some metadata => Ok metadata
          | None => Err (ENew ("rule-set not found: " +:+ tag))
          end
      end
  end.

(** The loop over the rule-sets of a rule. *)
Fixpoint rule_set_flags (overrides : gmap string RuleSetMetadata) (matchSource : bool) (tags : list string)
    (flags : dnsRuleModeFlags) : outcome dnsRuleModeFlags :=
  match tags with
  | [] => Ok flags
  | tag :: tags' =>
      let* metadata := lookupDNSRuleSetMetadata tag overrides in
      rule_set_flags overrides matchSource tags'
        (MkFlags (fl_disabled flags || ContainsDNSQueryTypeRule metadata)
           (fl_needed flags || negb matchSource && ContainsIPCIDR metadata) (fl_neededFromStrategy flags))
  end.

Definition dnsRuleModeRequirementsInDefaultRule (rule : DefaultDNSRuleOptions)
    (overrides : gmap string RuleSetMetadata) : outcome dnsRuleModeFlags :=
  let fromStrategy := dnsRuleActionHasStrategy (do_action rule) in
  let flags :=
    MkFlags (defaultRuleDisablesLegacyDNSMode rule || dnsRuleActionDisablesLegacyDNSMode (do_action rule))
      (defaultRuleNeedsLegacyDNSModeFromAddressFilter rule || fromStrategy) fromStrategy in
  if negb (given (c_RuleSet rule)) then Ok flags
  else match router with
  | None => Err (ENew "router service not found")
  | Some _ => rule_set_flags overrides (c_RuleSetIPCIDRMatchSource rule) (elems (c_RuleSet rule)) flags
  end.

Fixpoint dnsRuleModeRequirementsInRule (rule : DNSRuleOptions) (overrides : gmap string RuleSetMetadata)
    : outcome dnsRuleModeFlags :=
  match rule with
  | MkDNSRuleOptions type d (MkLogicalDNSOptions _ rules _ action) =>
      if is_default_type type then dnsRuleModeRequirementsInDefaultRule d overrides
      else if bool_decide (type = "logical") then
        let fromStrategy := dnsRuleActionHasStrategy action in
        let flags :=
          MkFlags (bool_decide (dnsRuleActionType rule = RuleActionTypeEvaluate)
                   || bool_decide (dnsRuleActionType rule = RuleActionTypeRespond)
                   || dnsRuleActionDisablesLegacyDNSMode action) fromStrategy fromStrategy in
        match rules with
        | Some rules =>
            merge_all sub_rule_msg 0 ((fun subRule => dnsRuleModeRequirementsInRule subRule overrides) <$> rules) flags
        | None => Ok flags
        end
      else Ok no_flags
  end.

Definition dns_rule_msg (i : Z) : string := "dns rule[" +:+ pretty i +:+ "]".

Definition dnsRuleModeRequirements (rules : list DNSRuleOptions) (overrides : gmap string RuleSetMetadata)
    : outcome dnsRuleModeFlags :=
  merge_all dns_rule_msg 0 ((fun rule => dnsRuleModeRequirementsInRule rule overrides) <$> rules) no_flags.

Definition resolveLegacyDNSMode (rules : list DNSRuleOptions) (overrides : gmap string RuleSetMetadata)
    : outcome (bool * dnsRuleModeFlags) :=
  let* flags := dnsRuleModeRequirements rules overrides in
  if fl_disabled flags && fl_neededFromStrategy flags then Err (ENew (MessageWithLink OptionLegacyDNSRuleStrategy))
  else if fl_disabled flags then Ok (false, flags)
  else Ok (fl_needed flags, flags).

(** ** Validation of rules without the legacy mode *)

Record dnsRuleResponseUse := MkUse { use_needsAnonymous : bool; use_referencedTags : list string }.

(** The rule-sets of a rule that does not match a response: none may be of addresses only. *)
Fixpoint check_rule_sets (overrides : gmap string RuleSetMetadata) (tags : list string) : outcome unit :=
  match tags with
  | [] => Ok tt
  | tag :: tags' =>
      let* metadata := lookupDNSRuleSetMetadata tag overrides in
      if ContainsIPCIDR metadata && negb (ContainsNonIPCIDRRule metadata)
      then Err (ENew (MessageWithLink OptionLegacyDNSAddressFilter))
      else check_rule_sets overrides tags'
  end.

Definition response_fields_message : string :=
  "Response Match Fields (ip_cidr, ip_is_private, ip_accept_any, response_rcode, response_answer, response_ns, response_extra) require match_response to be enabled".

Definition validateLegacyDNSModeDisabledDefaultRule (rule : DefaultDNSRuleOptions)
    (overrides : gmap string RuleSetMetadata) : outcome dnsRuleResponseUse :=
  let enabled := IsEnabled (n_MatchResponse rule) in
  let tag := ResponseTag (n_MatchResponse rule) in
  if (hasResponseMatchFields rule || given (c_IPCIDR rule) || c_IPIsPrivate rule || n_IPAcceptAny rule) && negb enabled
  then Err (ENew response_fields_message)
  else
    let* _ := if negb enabled && given (c_RuleSet rule) then check_rule_sets overrides (elems (c_RuleSet rule)) else Ok tt in
    if n_RuleSetIPCIDRAcceptEmpty rule then Err (ENew (MessageWithLink OptionRuleSetIPCIDRAcceptEmpty))
    else
      let referencedTags := if enabled && negb (bool_decide (tag = "")) then [tag] else [] in
      let needsAnonymous := enabled && bool_decide (tag = "")
        || bool_decide (da_Action (do_action rule) = RuleActionTypeRespond) && bool_decide (tag = "") in
      Ok (MkUse needsAnonymous referencedTags).

(** The loop that collects the uses of the sub-rules. *)
Fixpoint collect_uses (i : Z) (l : list (outcome dnsRuleResponseUse)) (use : dnsRuleResponseUse)
    : outcome dnsRuleResponseUse :=
  match l with
  | [] => Ok use
  | m :: l' =>
      let* subUse := cause (sub_rule_msg i) m in
      collect_uses (i + 1) l' (MkUse (use_needsAnonymous use || use_needsAnonymous subUse)
                                 (use_referencedTags use ++ use_referencedTags subUse))
  end.

Fixpoint validateLegacyDNSModeDisabledRuleTree (rule : DNSRuleOptions) (overrides : gmap string RuleSetMetadata)
    : outcome dnsRuleResponseUse :=
  match rule with
  | MkDNSRuleOptions type d (MkLogicalDNSOptions _ rules _ action) =>
      if is_default_type type then validateLegacyDNSModeDisabledDefaultRule d overrides
      else if bool_decide (type = "logical") then
        let* use := match rules with
                    | Some rules => collect_uses 0
                        ((fun subRule => validateLegacyDNSModeDisabledRuleTree subRule overrides) <$> rules) (MkUse false [])
                    | None => Ok (MkUse false [])
                    end in
        if bool_decide (da_Action action = RuleActionTypeRespond) then
          if 0 <? zlen (use_referencedTags use)
          then Err (ENew "respond on a logical rule cannot bind a `match_response` tag from its sub rules; use a non-logical rule")
          else Ok (MkUse true (use_referencedTags use))
        else Ok use
      else Ok (MkUse false [])
  end.

(** The variables of the loop of [validateLegacyDNSModeDisabledRules];
    [lastAnonymousEvaluate] is -1 before the first one. *)
Record validation := MkValidation {
  va_warnings : list string;
  va_seenAnonymousEvaluate : bool;
  va_seenRace : bool;
  va_definedTagOrder : list string;
  va_referencedTags : list string;
  va_lastAnonymousEvaluate : Z;
  va_anonymousReadSinceLast : bool
}.
Definition no_validation : validation := MkValidation [] false false [] [] (-1) false.

Definition warn_speculative (i : Z) (rule : DNSRuleOptions) (v : validation) : validation :=
  MkValidation
    (if dnsRuleActionSpeculative rule && negb (va_seenRace v)
     then va_warnings v ++ [dns_rule_msg i +:+ ": `speculative` has no effect without a preceding `race` rule"]
     else va_warnings v)
    (va_seenAnonymousEvaluate v) (va_seenRace v || dnsRuleRace rule) (va_definedTagOrder v) (va_referencedTags v)
    (va_lastAnonymousEvaluate v) (va_anonymousReadSinceLast v).

Definition use_anonymous (i : Z) (use : dnsRuleResponseUse) (v : validation) : outcome validation :=
  if use_needsAnonymous use then
    if negb (va_seenAnonymousEvaluate v) then
      if 0 <? zlen (va_definedTagOrder v)
      then Err (ENew (dns_rule_msg i +:+ ": response-based matching requires a preceding evaluate action without `tag`; use `match_response` with an evaluate tag to reference a tagged result"))
      else Err (ENew (dns_rule_msg i +:+ ": response-based matching requires a preceding evaluate action"))
    else Ok (MkValidation (va_warnings v) true (va_seenRace v) (va_definedTagOrder v) (va_referencedTags v)
               (va_lastAnonymousEvaluate v) true)
  else Ok v.

Fixpoint use_tags (i : Z) (tags : list string) (v : validation) : outcome validation :=
  match tags with
  | [] => Ok v
  | tag :: tags' =>
      if negb (bool_decide (tag ∈ va_definedTagOrder v))
      then Err (ENew (dns_rule_msg i +:+ ": undefined evaluate tag: " +:+ tag))
      else use_tags i tags' (MkValidation (va_warnings v) (va_seenAnonymousEvaluate v) (va_seenRace v)
             (va_definedTagOrder v) (va_referencedTags v ++ [tag]) (va_lastAnonymousEvaluate v)
             (va_anonymousReadSinceLast v))
  end.

Definition define_evaluate (i : Z) (rule : DNSRuleOptions) (v : validation) : outcome validation :=
  if bool_decide (dnsRuleActionType rule = RuleActionTypeEvaluate) then
    let tag := dnsRuleActionEvaluateTag rule in
    if bool_decide (tag = "") then
      let warnings :=
        if (0 <=? va_lastAnonymousEvaluate v) && negb (va_anonymousReadSinceLast v)
        then va_warnings v ++ [dns_rule_msg (va_lastAnonymousEvaluate v)
                               +:+ ": evaluated response is overwritten by " +:+ dns_rule_msg i +:+ " before any use"]
        else va_warnings v in
      Ok (MkValidation warnings true (va_seenRace v) (va_definedTagOrder v) (va_referencedTags v) i false)
    else if bool_decide (tag ∈ va_definedTagOrder v)
    then Err (ENew (dns_rule_msg i +:+ ": duplicate evaluate tag: " +:+ tag))
    else Ok (MkValidation (va_warnings v) (va_seenAnonymousEvaluate v) (va_seenRace v)
               (va_definedTagOrder v ++ [tag]) (va_referencedTags v) (va_lastAnonymousEvaluate v)
               (va_anonymousReadSinceLast v))
  else Ok v.

Definition validate_rule (overrides : gmap string RuleSetMetadata) (i : Z) (rule : DNSRuleOptions) (v : validation)
    : outcome validation :=
  let* use := cause ("validate " +:+ dns_rule_msg i) (validateLegacyDNSModeDisabledRuleTree rule overrides) in
  let v := warn_speculative i rule v in
  let* v := use_anonymous i use v in
  let* v := use_tags i (use_referencedTags use) v in
  define_evaluate i rule v.

Fixpoint validate_loop (overrides : gmap string RuleSetMetadata) (i : Z) (rules : list DNSRuleOptions) (v : validation)
    : outcome validation :=
  match rules with
  | [] => Ok v
  | rule :: rules' => let* v := validate_rule overrides i rule v in validate_loop overrides (i + 1) rules' v
  end.

Definition validateLegacyDNSModeDisabledRules (rules : list DNSRuleOptions) (overrides : gmap string RuleSetMetadata)
    : outcome (list string) :=
  let* v := validate_loop overrides 0 rules no_validation in
  Ok (va_warnings v ++ ((fun tag => "evaluate tag is never referenced: " +:+ tag)
                        <$> List.filter (fun tag => negb (bool_decide (tag ∈ va_referencedTags v))) (va_definedTagOrder v))).

(** [None] for a nil manager. *)
Fixpoint validateEvaluateFakeIPRules (transports : option DNSTransportManager) (i : Z) (rules : list DNSRuleOptions)
    : outcome unit :=
  match transports with
  | None => Ok tt
  | Some tm =>
      match rules with
      | [] => Ok tt
      | rule :: rules' =>
          let server := dnsRuleActionServer rule in
          let fakeip := match tm_Transport tm server with
                        | Some transport => bool_decide (tr_Type transport = DNSTypeFakeIP)
                        | None => false
                        end in
          if bool_decide (dnsRuleActionType rule = RuleActionTypeEvaluate) && negb (bool_decide (server = "")) && fakeip
          then Err (ENew (dns_rule_msg i +:+ ": evaluate action cannot use fakeip server: " +:+ server))
          else validateEvaluateFakeIPRules transports (i + 1) rules'
      end
  end.
End Mode.

(** ** The router's rules *)

Section Rules.
Context {X : External}.
Variable router : option (string -> option RuleSetMetadata).
Variable transports : option DNSTransportManager.
(** [Start] of a rule. *)
Variable start : Rule -> outcome Rule.

Definition parse_rule_msg (i : Z) : string := "parse dns rule[" +:+ pretty i +:+ "]".
Definition start_rule_msg (i : Z) : string := "initialize DNS rule[" +:+ pretty i +:+ "]".

(** The rules, the mode, its flags and the warnings. *)
Definition buildRules (rawRules : list DNSRuleOptions) (startRules : bool)
    : outcome (list DNSRule * bool * dnsRuleModeFlags * list string) :=
  let* _ := raise (first_error parse_rule_msg 0 (ValidateNoNestedDNSRuleActions <$> rawRules)) in
  let* (legacyDNSMode, modeFlags) := resolveLegacyDNSMode router rawRules ∅ in
  let* warnings := if negb legacyDNSMode then validateLegacyDNSModeDisabledRules router rawRules ∅ else Ok [] in
  let* _ := validateEvaluateFakeIPRules transports 0 rawRules in
  let* newRules := omap_ix (fun i o => cause (parse_rule_msg i) (NewDNSRule o true legacyDNSMode)) rawRules in
  let* newRules :=
    if startRules then
      omap_ix (fun i rule => cause (start_rule_msg i)
        (let* r := start (dns_Rule rule) in Ok (MkDNSRule r (dns_Action rule)))) newRules
    else Ok newRules in
  Ok (newRules, legacyDNSMode, modeFlags, warnings).

(** The fields of [Router] that the construction sets. *)
Record router_rules := MkRouterRules {
  rr_rawRules : list DNSRuleOptions;
  rr_rules : list DNSRule;
  rr_legacyDNSMode : bool;
  rr_started : bool;
  rr_closing : bool
}.

Definition new_router_rules : router_rules := MkRouterRules [] [] false false false.

Definition Initialize (rules : list DNSRuleOptions) (r : router_rules) : outcome unit * router_rules :=
  ((let* _ := buildRules rules false in Ok tt),
   MkRouterRules rules (rr_rules r) (rr_legacyDNSMode r) (rr_started r) (rr_closing r)).

(** [Start] at the stage [StartStateStart]; [closed] is [closing] when the lock is
    taken, after the rules were built. *)
Definition Router_Start (closed : bool) (r : router_rules) : outcome unit * router_rules :=
  match buildRules (rr_rawRules r) true with
  | Ok (newRules, legacyDNSMode, _, _) =>
      if closed then (Ok tt, r)
      else (Ok tt, MkRouterRules (rr_rawRules r) newRules legacyDNSMode true (rr_closing r))
  | Err e => (Err e, r)
  | Panic msg => (Panic msg, r)
  | Diverge => (Diverge, r)
  end.

Definition Router_Close (r : router_rules) : router_rules :=
  if rr_closing r then r
  else MkRouterRules (rr_rawRules r) [] (rr_legacyDNSMode r) (rr_started r) true.

(** [ValidateRuleSetMetadataUpdate] *)
Definition ValidateRuleSetMetadataUpdate (tag : string) (metadata : RuleSetMetadata) (r : router_rules) : outcome unit :=
  if zlen (rr_rawRules r) =? 0 then Ok tt
  else match router with
  | None => Err (ENew "router service not found")
  | Some _ =>
      let overrides : gmap string RuleSetMetadata := {[tag := metadata]} in
      let validate := let* _ := validateLegacyDNSModeDisabledRules router (rr_rawRules r) overrides in Ok tt in
      if rr_closing r then Ok tt
      else if negb (rr_started r) then
        let* (candidateLegacyDNSMode, _) := resolveLegacyDNSMode router (rr_rawRules r) overrides in
        if negb candidateLegacyDNSMode then validate else Ok tt
      else
        let* (candidateLegacyDNSMode, flags) := resolveLegacyDNSMode router (rr_rawRules r) overrides in
        if rr_legacyDNSMode r then
          if negb candidateLegacyDNSMode && fl_disabled flags then
            let* _ := validate in Err (ENew (MessageWithLink OptionLegacyDNSAddressFilter))
          else Ok tt
        else if candidateLegacyDNSMode then Err (ENew (MessageWithLink OptionLegacyDNSAddressFilter))
        else validate
  end.
End Rules.
