(* ===== verification/DnsWalk.v ===== *)
(** * The rule walk of the DNS router

    [walkDNSRules], [resumeExchangeWithRules], [sweepArmedDNSRules] and
    [finishPendingExchange] of dns/router.go: one walk over the DNS rules for one
    query.  An evaluate action sends a query and goes on; its reply arrives later, in
    another goroutine.  A rule that matches a response waits for it, a race rule is
    armed and judged when its responses are there.

    The walker is a machine whose steps are the pieces of the code between two looks at
    the futures, so that a reply may arrive between any two of them; the futures one
    rule binds are looked at in one step.
    Futures are named by their position in [state.futures]; each keeps the rule that
    sent it.  What [World] describes does not change during a walk. *)

From S2P Require Import Prelude GoStd Netip External DnsMsg RuleItems RuleMatch RuleOptions RuleBuild RuleAction DnsClient DnsRule DnsMode.
Local Open Scope Z_scope.

(** ** Options *)

Definition applyDNSRouteOptions (options : DNSQueryOptions) (routeOptions : RuleActionDNSRouteOptions) : DNSQueryOptions :=
  MkQueryOptions (qo_Strategy options) (qo_LookupStrategy options)
    (dr_DisableCache routeOptions || qo_DisableCache options)
    (dr_DisableOptimisticCache routeOptions || qo_DisableOptimisticCache options)
    (match dr_RewriteTTL routeOptions with Some ttl => Some ttl | None => qo_RewriteTTL options end)
    (if 0 <? dr_Timeout routeOptions then dr_Timeout routeOptions else qo_Timeout options)
    (if PrefixIsValid (dr_ClientSubnet routeOptions) then dr_ClientSubnet routeOptions else qo_ClientSubnet options).

Definition set_DisableCache (options : DNSQueryOptions) : DNSQueryOptions :=
  MkQueryOptions (qo_Strategy options) (qo_LookupStrategy options) true (qo_DisableOptimisticCache options)
    (qo_RewriteTTL options) (qo_Timeout options) (qo_ClientSubnet options).
Definition set_Strategy (options : DNSQueryOptions) (strategy : Z) : DNSQueryOptions :=
  MkQueryOptions strategy (qo_LookupStrategy options) (qo_DisableCache options) (qo_DisableOptimisticCache options)
    (qo_RewriteTTL options) (qo_Timeout options) (qo_ClientSubnet options).

(** [resolveDNSRoute]: the transport and the options of the query; [inl] for a missing
    transport, [inr None] for a skipped one. *)
Definition resolveDNSRoute (tm : DNSTransportManager) (server : string) (routeOptions : RuleActionDNSRouteOptions)
    (allowFakeIP : bool) (options : DNSQueryOptions) : unit + option (DNSTransport * DNSQueryOptions) :=
  match tm_Transport tm server with
  | None => inl tt
  | Some transport =>
      let isFakeIP := bool_decide (tr_Type transport = DNSTypeFakeIP) in
      if isFakeIP && negb allowFakeIP then inr None
      else
        let options := applyDNSRouteOptions options routeOptions in
        inr (Some (transport, if isFakeIP then set_DisableCache options else options))
  end.

Definition finalizeExchangeOptions (defaultDomainStrategy : Z) (options : DNSQueryOptions) : DNSQueryOptions :=
  if qo_Strategy options =? DomainStrategyAsIS then set_Strategy options defaultDomainStrategy else options.

Section Walk.
Context {X : External}.

(** What a call of the client gives: a response, an error. *)
Abbreviation reply := (option Msg * option error)%type.

(** ** The state of a walk *)

(** [dnsEvaluatedFuture], with the rule and the options of the query; [f_done] is the
    reply once the channel is closed. *)
Record dnsEvaluatedFuture := MkFuture {
  f_tag : string;
  f_terminal : bool;
  f_transport : DNSTransport;
  f_options : DNSQueryOptions;
  f_rule : nat;
  f_done : option reply;
  f_settled : bool;
  f_cancelled : bool
}.

Definition resolved (f : dnsEvaluatedFuture) : bool := negb (is_nil (f_done f)).
Definition view (f : dnsEvaluatedFuture) : option Msg :=
  match f_done f with
  | Some (response, None) => response
  | _ => None
  end.

(** [dnsArmedRule] *)
Record dnsArmedRule := MkArmed {
  ar_ruleIndex : nat;
  ar_rule : DNSRule;
  ar_futures : list nat;
  ar_anonymousFuture : option nat;
  ar_bindsAnonymous : bool;
  ar_options : DNSQueryOptions
}.

(** [dnsPendingExchange], with the rule that asks for it. *)
Record dnsPendingExchange := MkPending {
  pe_transport : DNSTransport;
  pe_options : DNSQueryOptions;
  pe_future : option nat;
  pe_rule : nat
}.

(** [dnsWalkSuspension]: the one field that is set. *)
Inductive dnsWalkSuspension :=
| SAwait (await : nat)
| SDrain
| SPending (pending : dnsPendingExchange).

(** [exchangeWithRulesResult]; the reject action by its method and [NoDrop]. *)
Record exchangeWithRulesResult := MkExchangeResult {
  er_response : option Msg;
  er_transport : option DNSTransport;
  er_rejectAction : option (string * bool);
  er_err : option error
}.
Definition answered (response : option Msg) (transport : option DNSTransport) : exchangeWithRulesResult :=
  MkExchangeResult response transport None None.
Definition failed (e : error) : exchangeWithRulesResult := MkExchangeResult None None None (Some e).

(** [dnsRuleWalkState]; [wake] is [None] before the channel is made, then whether it
    holds a token. *)
Record dnsRuleWalkState := MkWalkState {
  ruleIndex : nat;
  effectiveOptions : DNSQueryOptions;
  anonymousFuture : option nat;
  namedFutures : gmap string nat;
  namedResponses : gmap string (option Msg);
  namedTransports : gmap string DNSTransport;
  futures : list dnsEvaluatedFuture;
  armedRules : list dnsArmedRule;
  terminalFuture : option nat;
  terminalIndex : nat;
  wake : option bool
}.

Definition start_state (options : DNSQueryOptions) : dnsRuleWalkState :=
  MkWalkState 0 options None ∅ ∅ ∅ [] [] None 0 None.

(** Assignments to fields of the state. *)
Definition next_rule (s : dnsRuleWalkState) : dnsRuleWalkState :=
  MkWalkState (S (ruleIndex s)) (effectiveOptions s) (anonymousFuture s) (namedFutures s) (namedResponses s)
    (namedTransports s) (futures s) (armedRules s) (terminalFuture s) (terminalIndex s) (wake s).
Definition set_effectiveOptions (s : dnsRuleWalkState) (options : DNSQueryOptions) : dnsRuleWalkState :=
  MkWalkState (ruleIndex s) options (anonymousFuture s) (namedFutures s) (namedResponses s)
    (namedTransports s) (futures s) (armedRules s) (terminalFuture s) (terminalIndex s) (wake s).
Definition set_anonymousFuture (s : dnsRuleWalkState) (f : option nat) : dnsRuleWalkState :=
  MkWalkState (ruleIndex s) (effectiveOptions s) f (namedFutures s) (namedResponses s)
    (namedTransports s) (futures s) (armedRules s) (terminalFuture s) (terminalIndex s) (wake s).
Definition set_namedFuture (s : dnsRuleWalkState) (tag : string) (f : nat) : dnsRuleWalkState :=
  MkWalkState (ruleIndex s) (effectiveOptions s) (anonymousFuture s) (<[tag := f]> (namedFutures s)) (namedResponses s)
    (namedTransports s) (futures s) (armedRules s) (terminalFuture s) (terminalIndex s) (wake s).
Definition set_named (s : dnsRuleWalkState) (responses : gmap string (option Msg)) (transports : gmap string DNSTransport)
    : dnsRuleWalkState :=
  MkWalkState (ruleIndex s) (effectiveOptions s) (anonymousFuture s) (namedFutures s) responses
    transports (futures s) (armedRules s) (terminalFuture s) (terminalIndex s) (wake s).
Definition set_futures (s : dnsRuleWalkState) (l : list dnsEvaluatedFuture) : dnsRuleWalkState :=
  MkWalkState (ruleIndex s) (effectiveOptions s) (anonymousFuture s) (namedFutures s) (namedResponses s)
    (namedTransports s) l (armedRules s) (terminalFuture s) (terminalIndex s) (wake s).
Definition set_armedRules (s : dnsRuleWalkState) (l : list dnsArmedRule) : dnsRuleWalkState :=
  MkWalkState (ruleIndex s) (effectiveOptions s) (anonymousFuture s) (namedFutures s) (namedResponses s)
    (namedTransports s) (futures s) l (terminalFuture s) (terminalIndex s) (wake s).
Definition set_terminal (s : dnsRuleWalkState) (f : nat) : dnsRuleWalkState :=
  MkWalkState (ruleIndex s) (effectiveOptions s) (anonymousFuture s) (namedFutures s) (namedResponses s)
    (namedTransports s) (futures s) (armedRules s) (Some f) (ruleIndex s) (wake s).
Definition set_wake (s : dnsRuleWalkState) (token : option bool) : dnsRuleWalkState :=
  MkWalkState (ruleIndex s) (effectiveOptions s) (anonymousFuture s) (namedFutures s) (namedResponses s)
    (namedTransports s) (futures s) (armedRules s) (terminalFuture s) (terminalIndex s) token.

Definition future_view (s : dnsRuleWalkState) (f : nat) : option Msg :=
  match futures s !! f with Some x => view x | None => None end.
Definition future_resolved (s : dnsRuleWalkState) (f : nat) : bool :=
  match futures s !! f with Some x => resolved x | None => false end.
Definition future_transport (s : dnsRuleWalkState) (f : nat) : option DNSTransport := f_transport <$> futures s !! f.

Definition anonymousResponse (s : dnsRuleWalkState) : option Msg :=
  match anonymousFuture s with None => None | Some f => future_view s f end.

(** ** Futures *)

Section Machine.
Variable w : World.
Variable tm : DNSTransportManager.
Variable defaultDomainStrategy : Z.
Variable rules : list DNSRule.
Variable message : Msg.
Variable allowFakeIP : bool.
(** [exchangeWithRulesAsync] rather than [exchangeWithRules]. *)
Variable async : bool.

(** [launchDNSEvaluate]: the new future is the last one. *)
Definition launchDNSEvaluate (s : dnsRuleWalkState) (tag : string) (terminal : bool) (transport : DNSTransport)
    (options : DNSQueryOptions) : nat * dnsRuleWalkState :=
  let s := match wake s with None => set_wake s (Some false) | Some _ => s end in
  let future := MkFuture tag terminal transport (finalizeExchangeOptions defaultDomainStrategy options)
                  (ruleIndex s) None false false in
  (length (futures s), set_futures s (futures s ++ [future])).

(** The callback: the reply of the client for the future [f]. *)
Definition deliver (r : reply) (f : nat) (s : dnsRuleWalkState) : dnsRuleWalkState :=
  set_wake (set_futures s (alter (fun x => MkFuture (f_tag x) (f_terminal x) (f_transport x) (f_options x) (f_rule x)
                                             (Some r) (f_settled x) (f_cancelled x)) f (futures s)))
    (match wake s with None => None | Some _ => Some true end).

Definition settle_future (x : dnsEvaluatedFuture)
    (acc : list dnsEvaluatedFuture * gmap string (option Msg) * gmap string DNSTransport)
    : list dnsEvaluatedFuture * gmap string (option Msg) * gmap string DNSTransport :=
  let '(done, responses, transports) := acc in
  if f_settled x || negb (resolved x) then (done ++ [x], responses, transports)
  else
    let x := MkFuture (f_tag x) (f_terminal x) (f_transport x) (f_options x) (f_rule x) (f_done x) true (f_cancelled x) in
    if bool_decide (f_tag x = "") then (done ++ [x], responses, transports)
    else (done ++ [x], <[f_tag x := view x]> responses, <[f_tag x := f_transport x]> transports).
Definition settleDNSFutures (s : dnsRuleWalkState) : dnsRuleWalkState :=
  let '(l, responses, transports) :=
    fold_left (fun acc x => settle_future x acc) (futures s) ([], namedResponses s, namedTransports s) in
  set_named (set_futures s l) responses transports.

Definition cancel (x : dnsEvaluatedFuture) : dnsEvaluatedFuture :=
  MkFuture (f_tag x) (f_terminal x) (f_transport x) (f_options x) (f_rule x) (f_done x) (f_settled x) true.
(** [cancelDNSFutures], and the loop of [finishPendingExchange] that spares one. *)
Definition cancelDNSFutures (s : dnsRuleWalkState) : dnsRuleWalkState := set_futures s (cancel <$> futures s).
Definition cancel_others (keep : option nat) (s : dnsRuleWalkState) : dnsRuleWalkState :=
  set_futures s (imap (fun i x => if bool_decide (keep = Some i) then x else cancel x) (futures s)).

(** ** Matching *)

(** The assignments to the metadata before a rule is matched. *)
Definition set_responses (md : InboundContext) (response : option Msg) (named : gmap string (option Msg)) : InboundContext :=
  {| md_Inbound := md_Inbound md;
     md_IPVersion := md_IPVersion md;
     md_Network := md_Network md;
     md_Source := md_Source md;
     md_Destination := md_Destination md;
     md_User := md_User md;
     md_Outbound := md_Outbound md;
     md_Protocol := md_Protocol md;
     md_Domain := md_Domain md;
     md_Client := md_Client md;
     md_DestinationAddresses := md_DestinationAddresses md;
     md_DNSResponse := response;
     md_NamedDNSResponses := named;
     md_DestinationAddressMatchFromResponse := false;
     md_ProcessInfo := md_ProcessInfo md;
     md_SourceMACAddress := md_SourceMACAddress md;
     md_SourceHostname := md_SourceHostname md;
     md_QueryType := md_QueryType md;
     md_PreMatch := md_PreMatch md;
     md_IPCIDRMatchSource := md_IPCIDRMatchSource md;
     md_IPCIDRAcceptEmpty := md_IPCIDRAcceptEmpty md;
     md_SourceAddressMatch := md_SourceAddressMatch md;
     md_SourcePortMatch := md_SourcePortMatch md;
     md_DestinationAddressMatch := md_DestinationAddressMatch md;
     md_DestinationPortMatch := md_DestinationPortMatch md;
     md_DidMatch := md_DidMatch md;
     md_IgnoreDestinationIPCIDRMatch := md_IgnoreDestinationIPCIDRMatch md |}.

Definition hasBindings (r : Rule) : bool := nonempty (MatchResponseTags r) || MatchResponseAnonymous r.

(** The futures of the tags of a rule that are not resolved, in order. *)
Definition pending_named (s : dnsRuleWalkState) (tags : list string) : list nat :=
  List.filter (fun f => negb (future_resolved s f)) (omap (fun tag => namedFutures s !! tag) tags).
Definition pending_anonymous (s : dnsRuleWalkState) (r : Rule) : list nat :=
  match (if MatchResponseAnonymous r then anonymousFuture s else None) with
  | Some f => if future_resolved s f then [] else [f]
  | None => []
  end.

(** The block of a rule with bindings: armed, suspended, or to be matched. *)
Inductive binding := BArm (armed : dnsArmedRule) | BAwait (f : nat) | BReady.
Definition bind_rule (s : dnsRuleWalkState) (rule : DNSRule) : binding :=
  let r := dns_Rule rule in
  let pendingFutures := pending_named s (MatchResponseTags r) ++ pending_anonymous s r in
  match pendingFutures with
  | [] => BReady
  | f :: _ =>
      if Race r then
        BArm (MkArmed (ruleIndex s) rule pendingFutures (if MatchResponseAnonymous r then anonymousFuture s else None)
                (MatchResponseAnonymous r) (effectiveOptions s))
      else BAwait f
  end.

(** ** Actions *)

Definition dnsRespondMissingResponseMessage : string :=
  "respond action requires an evaluated response from a preceding evaluate action".
Definition dns_ErrDrop : error := ENew "packet dropped".

Definition dnsRefusedResponse : outcome Msg :=
  match Questions message with
  | [] => Panic "index out of range [0] with length 0"
  | question :: _ =>
      Ok (MkMsg (MkMsgHdr (Id (Hdr message)) true 0 false false false false false false RcodeRefused) [question] [] [] [])
  end.

(** What the switch of [walkDNSRules] leads to: the next rule, the return of a result
    or of a suspension. *)
Inductive walk_outcome :=
| WNext
| WResult (r : exchangeWithRulesResult)
| WSuspend (suspension : dnsWalkSuspension)
| WPanic (msg : string).

(** The responses that are final: of the reject and predefined actions. *)
Definition final_response (a : DNSRuleAction) : option (outcome exchangeWithRulesResult) :=
  match a with
  | RuleActionDNSReject method noDrop =>
      if bool_decide (method = RuleActionRejectMethodDefault) then
        Some (let* m := dnsRefusedResponse in Ok (MkExchangeResult (Some m) None (Some (method, noDrop)) None))
      else if bool_decide (method = RuleActionRejectMethodDrop) then
        Some (Ok (MkExchangeResult None None (Some (method, noDrop)) (Some dns_ErrDrop)))
      else None
  | RuleActionPredefined p => Some (let* m := Predefined_Response p message in Ok (answered (Some m) None))
  | _ => None
  end.
Definition outcome_of (o : outcome exchangeWithRulesResult) : walk_outcome :=
  match o with
  | Ok r => WResult r
  | Panic msg => WPanic msg
  | _ => WPanic "unreachable"
  end.

(** The result of a respond action. *)
Definition respond_with (response : option Msg) (transport : option DNSTransport) : exchangeWithRulesResult :=
  match response with
  | None => failed (ENew dnsRespondMissingResponseMessage)
  | Some _ => answered response transport
  end.

Definition set_evaluated (s : dnsRuleWalkState) (tag : string) (f : nat) : dnsRuleWalkState :=
  if bool_decide (tag = "") then set_anonymousFuture s (Some f) else set_namedFuture s tag f.

Definition held (s : dnsRuleWalkState) : bool := nonempty (armedRules s).

(** The switch on the action of a rule that matched. *)
Definition walk_action (s : dnsRuleWalkState) (rule : DNSRule) : walk_outcome * dnsRuleWalkState :=
  match dns_Action rule with
  | None => (WNext, s)
  | Some (RuleActionDNSRouteOptionsOnly options) =>
      (WNext, set_effectiveOptions s (applyDNSRouteOptions (effectiveOptions s) options))
  | Some (RuleActionEvaluate server tag speculative options) =>
      match tm_Transport tm server with
      | None => (WNext, if bool_decide (tag = "") then set_anonymousFuture s None else s)
      | Some transport =>
          if negb speculative && held s then (WSuspend SDrain, s)
          else
            let (f, s) := launchDNSEvaluate s tag false transport (applyDNSRouteOptions (effectiveOptions s) options) in
            (WNext, set_evaluated s tag f)
      end
  | Some RuleActionRespond =>
      if held s then (WSuspend SDrain, s)
      else
        let tag := MatchResponseTag (dns_Rule rule) in
        if negb (bool_decide (tag = "")) then
          (WResult (respond_with (default None (namedResponses s !! tag)) (namedTransports s !! tag)), s)
        else
          match (if hasBindings (dns_Rule rule) then None
                 else List.find (fun f => negb (future_resolved s f)) (option_list (anonymousFuture s))) with
          | Some f => (WSuspend (SAwait f), s)
          | None =>
              (WResult (respond_with (anonymousResponse s)
                          (match anonymousFuture s with Some f => future_transport s f | None => None end)), s)
          end
  | Some (RuleActionDNSRoute server speculative options) =>
      match resolveDNSRoute tm server options allowFakeIP (effectiveOptions s) with
      | inl _ | inr None => (WNext, s)
      | inr (Some (transport, queryOptions)) =>
          if held s then
            if speculative && is_nil (terminalFuture s) then
              let (f, s) := launchDNSEvaluate s "" true transport queryOptions in (WSuspend SDrain, set_terminal s f)
            else (WSuspend SDrain, s)
          else
            match (if bool_decide (terminalIndex s = ruleIndex s) then terminalFuture s else None) with
            | Some f =>
                (WSuspend (SPending (MkPending (default transport (future_transport s f)) queryOptions (Some f) (ruleIndex s))), s)
            | None => (WSuspend (SPending (MkPending transport queryOptions None (ruleIndex s))), s)
            end
      end
  | Some ((RuleActionDNSReject _ _ | RuleActionPredefined _) as action) =>
      if held s then (WSuspend SDrain, s)
      else match final_response action with
           | Some o => (outcome_of o, s)
           | None => (WNext, s)
           end
  end.

(** From the reset of the rule cache to the switch. *)
Definition judge_rule (s : dnsRuleWalkState) (md : InboundContext) (rule : DNSRule)
    : walk_outcome * dnsRuleWalkState * InboundContext :=
  let md := set_responses (ResetRuleCache md) (anonymousResponse s) (namedResponses s) in
  let (matched, md) := rule_Match w (dns_Rule rule) md in
  if negb matched then (WNext, s, md)
  else (walk_action s rule, md).

(** ** The sweep over the armed rules *)

Inductive sweep_outcome :=
| SwNext (index : nat)
| SwResult (r : exchangeWithRulesResult)
| SwPending (p : dnsPendingExchange)
| SwPanic (msg : string).

(** The switch on the action of an armed rule that matched. *)
Definition sweep_action (s : dnsRuleWalkState) (armed : dnsArmedRule) (index : nat) : sweep_outcome :=
  match dns_Action (ar_rule armed) with
  | Some RuleActionRespond =>
      let tag := MatchResponseTag (dns_Rule (ar_rule armed)) in
      SwResult
        (if negb (bool_decide (tag = "")) then respond_with (default None (namedResponses s !! tag)) (namedTransports s !! tag)
         else match ar_anonymousFuture armed, anonymousFuture s with
              | Some f, _ => respond_with (future_view s f) (future_transport s f)
              | None, Some f => respond_with (anonymousResponse s) (future_transport s f)
              | None, None => respond_with None None
              end)
  | Some (RuleActionDNSRoute server _ options) =>
      match resolveDNSRoute tm server options allowFakeIP (ar_options armed) with
      | inl _ | inr None => SwNext index
      | inr (Some (transport, queryOptions)) => SwPending (MkPending transport queryOptions None (ar_ruleIndex armed))
      end
  | Some ((RuleActionDNSReject _ _ | RuleActionPredefined _) as action) =>
      match final_response action with
      | Some (Ok r) => SwResult r
      | Some (Panic msg) => SwPanic msg
      | Some _ => SwPanic "unreachable"
      | None => SwNext index
      end
  | _ => SwNext index
  end.

(** One turn of the loop of [sweepArmedDNSRules]. *)
Definition sweep_one (s : dnsRuleWalkState) (md : InboundContext) (armed : dnsArmedRule) (index : nat)
    : sweep_outcome * dnsRuleWalkState * InboundContext :=
  if negb (forallb (future_resolved s) (ar_futures armed)) then (SwNext (S index), s, md)
  else
    let s := set_armedRules s (take index (armedRules s) ++ drop (S index) (armedRules s)) in
    let response :=
      if ar_bindsAnonymous armed then
        match ar_anonymousFuture armed with Some f => future_view s f | None => None end
      else anonymousResponse s in
    let md := set_responses (ResetRuleCache md) response (namedResponses s) in
    let (matched, md) := rule_Match w (dns_Rule (ar_rule armed)) md in
    if negb matched then (SwNext index, s, md)
    else (sweep_action s armed index, s, md).

(** ** The machine *)

Inductive walk_phase :=
| PWalk
| PBind
| PJudge
| PSettle (suspension : dnsWalkSuspension)
| PSweep (suspension : dnsWalkSuspension) (index : nat)
| PCheck (suspension : dnsWalkSuspension)
| PWait (suspension : dnsWalkSuspension)
| PPending (pending : dnsPendingExchange)
| PDone (r : exchangeWithRulesResult)
| PPanic (msg : string).

(** The walker; [wk_resumed] once [resumeExchangeWithRules] runs. *)
Record walker := MkWalker {
  wk_phase : walk_phase;
  wk_state : dnsRuleWalkState;
  wk_metadata : InboundContext;
  wk_resumed : bool
}.

Definition start_walk (options : DNSQueryOptions) (md : InboundContext) : walker :=
  MkWalker PWalk (start_state options) md false.

(** [return result]: in both loops the futures are cancelled. *)
Definition finish (r : exchangeWithRulesResult) (s : dnsRuleWalkState) (md : InboundContext) : walker :=
  MkWalker (PDone r) (cancelDNSFutures s) md true.

(** [finishPendingExchange], up to its wait. *)
Definition finishPendingExchange (p : dnsPendingExchange) (s : dnsRuleWalkState) (md : InboundContext) : walker :=
  MkWalker (PPending p) (cancel_others (pe_future p) s) md true.

(** [return result, suspension] of [walkDNSRules]; the asynchronous exchange does not
    enter the loop for a query that is to be sent. *)
Definition suspend (sp : dnsWalkSuspension) (s : dnsRuleWalkState) (md : InboundContext) (resumed : bool) : walker :=
  match sp with
  | SPending (MkPending _ _ None _ as p) =>
      if async && negb resumed then MkWalker (PPending p) (cancelDNSFutures s) md true
      else MkWalker (PSettle sp) s md true
  | _ => MkWalker (PSettle sp) s md true
  end.

(** What a step consumes: nothing, the reply of the client to the pending query, the
    end of the context. *)
Inductive walk_input := INone | IReply (r : reply) | ICancel (e : error).

Definition walk_run (inp : walk_input) (k : walker) : option walker :=
  let s := wk_state k in
  let md := wk_metadata k in
  let go p s md := Some (MkWalker p s md (wk_resumed k)) in
  match wk_phase k, inp with
  | PWalk, INone =>
      match rules !! ruleIndex s with
      | None =>
          Some (if held s then suspend SDrain s md (wk_resumed k)
                else suspend (SPending (MkPending (tm_Default tm) (effectiveOptions s) None (ruleIndex s))) s md (wk_resumed k))
      | Some rule => if hasBindings (dns_Rule rule) then go PBind (settleDNSFutures s) md else go PJudge s md
      end
  | PBind, INone =>
      match rules !! ruleIndex s with
      | None => None
      | Some rule =>
          match bind_rule s rule with
          | BArm armed => go PWalk (next_rule (set_armedRules s (armedRules s ++ [armed]))) md
          | BAwait f => Some (suspend (SAwait f) s md (wk_resumed k))
          | BReady => go PJudge s md
          end
      end
  | PJudge, INone =>
      match rules !! ruleIndex s with
      | None => None
      | Some rule =>
          match judge_rule s md rule with
          | (WNext, s, md) => go PWalk (next_rule s) md
          | (WResult r, s, md) => Some (finish r s md)
          | (WSuspend sp, s, md) => Some (suspend sp s md (wk_resumed k))
          | (WPanic msg, s, md) => go (PPanic msg) s md
          end
      end
  | PSettle sp, INone => go (PSweep sp 0) (settleDNSFutures s) md
  | PSweep sp index, INone =>
      match armedRules s !! index with
      | None => go (PCheck sp) s md
      | Some armed =>
          match sweep_one s md armed index with
          | (SwNext index, s, md) => go (PSweep sp index) s md
          | (SwResult r, s, md) => Some (finish r s md)
          | (SwPending p, s, md) => Some (finishPendingExchange p s md)
          | (SwPanic msg, s, md) => go (PPanic msg) s md
          end
      end
  | PCheck sp, INone =>
      match sp with
      | SPending p => Some (finishPendingExchange p s md)
      | SAwait f => go (if future_resolved s f then PWalk else PWait sp) s md
      | SDrain => go (if held s then PWait sp else PWalk) s md
      end
  | PWait sp, INone => if bool_decide (wake s = Some true) then go (PSettle sp) (set_wake s (Some false)) md else None
  | PWait _, ICancel e => Some (finish (failed e) s md)
  | PPending p, INone =>
      match pe_future p with
      | Some f =>
          match futures s !! f with
          | Some x =>
              match f_done x with
              | Some (_, err) => Some (finish (MkExchangeResult (view x) (Some (f_transport x)) None err) s md)
              | None => None
              end
          | None => None
          end
      | None => None
      end
  | PPending p, ICancel e => if is_nil (pe_future p) then None else Some (finish (failed e) s md)
  | PPending p, IReply (response, err) =>
      if is_nil (pe_future p) then Some (finish (MkExchangeResult response (Some (pe_transport p)) None err) s md) else None
  | _, _ => None
  end.

(** ** Executions *)

(** The phases between settling the replies and looking at the futures again. *)
Definition settling (p : walk_phase) : bool :=
  match p with PBind | PSweep _ _ => true | _ => false end.

Definition set_state (k : walker) (s : dnsRuleWalkState) : walker :=
  MkWalker (wk_phase k) s (wk_metadata k) (wk_resumed k).

(** [answer i transport options] is what the client replies to the query of rule [i],
    and of the default server for the number of rules; a cancelled query may get
    another reply.  [ended] is the error of the context if it ends.  With [tidy] the
    reply for a tagged query never arrives while the walker is settling. *)
Inductive walk_step (answer : nat -> DNSTransport -> DNSQueryOptions -> reply) (ended : option error) (tidy : bool)
  : walker -> walker -> Prop :=
| walk_step_run inp k k' :
    (forall r p, inp = IReply r -> wk_phase k = PPending p ->
       r = answer (pe_rule p) (pe_transport p) (finalizeExchangeOptions defaultDomainStrategy (pe_options p))) ->
    (forall e, inp = ICancel e -> ended = Some e) ->
    walk_run inp k = Some k' ->
    walk_step answer ended tidy k k'
| walk_step_deliver r f x k :
    futures (wk_state k) !! f = Some x -> f_done x = None ->
    (f_cancelled x = false -> r = answer (f_rule x) (f_transport x) (f_options x)) ->
    (tidy = true -> settling (wk_phase k) = true -> f_tag x = "") ->
    walk_step answer ended tidy k (set_state k (deliver r f (wk_state k))).

Definition walk_reachable (answer : nat -> DNSTransport -> DNSQueryOptions -> reply) (ended : option error) (tidy : bool)
    (options : DNSQueryOptions) (md : InboundContext) : walker -> Prop :=
  rtc (walk_step answer ended tidy) (start_walk options md).
End Machine.
End Walk.
