(* ===== verification/DnsRouter.v ===== *)
(** * Queries of the DNS router

    [Exchange], [ExchangeAsync] and [Lookup] of dns/router.go with the legacy rule loop,
    and the reverse mapping of addresses to the names they were asked for.

    The result of a walk over the rules without the legacy mode is an argument: the
    walks are the subject of DnsWalk.  [answer] is the client's reply to a query sent for
    the rule with the given index, -1 without a rule; a nil transport is [None].  The
    logger is left out. *)

From S2P Require Import Prelude GoStd Netip External DnsMsg RuleItems RuleMatch RuleOptions RuleBuild RuleAction DnsClient DnsRule DnsMode DnsWalk.
From coqutil Require Import Datatypes.RecordSetters.
Import DoubleBraceUpdate.
Local Open Scope Z_scope.

(** ** Construction *)

(** [option.DNSClientOptions]; [Optimistic] and [ClientSubnet] may be nil. *)
Record OptimisticDNSOptions := MkOptimistic { op_Enabled : bool; op_Timeout : Z }.
Record DNSClientOptions := MkDNSClientOptions {
  dc_Strategy : Z;
  dc_Timeout : Z;
  dc_DisableCache : bool;
  dc_DisableExpire : bool;
  dc_IndependentCache : bool;
  dc_CacheCapacity : Z;
  dc_Optimistic : option OptimisticDNSOptions;
  dc_ClientSubnet : option Prefix
}.

(** [adapter.CacheFile] as the router uses it; [cf_DNS] is the store after
    [SetDisableExpire] and [SetOptimisticTimeout]. *)
Record CacheFileStores (RD DC : Type) := MkCacheFileStores {
  cf_StoreRDRC : bool;
  cf_StoreDNS : bool;
  cf_RDRC : RD;
  cf_DNS : bool -> Z -> DC
}.
Arguments cf_StoreRDRC {_ _} _. Arguments cf_StoreDNS {_ _} _. Arguments cf_RDRC {_ _} _. Arguments cf_DNS {_ _} _.

Definition optimistic_timeout (o : DNSClientOptions) : outcome Z :=
  let optimisticOptions := default (MkOptimistic false 0) (dc_Optimistic o) in
  if op_Enabled optimisticOptions then
    if dc_DisableCache o then Err (ENew "`optimistic` is conflict with `disable_cache`")
    else if dc_DisableExpire o then Err (ENew "`optimistic` is conflict with `disable_expire`")
    else Ok (if op_Timeout optimisticOptions =? 0 then 3 * 24 * 3600 * second else op_Timeout optimisticOptions)
  else Ok 0.

(** The options [NewRouter] gives to the client; [cacheFile] is read when the client
    starts. *)
Definition NewRouter_client {RD DC : Type} (o : DNSClientOptions) (cacheFile : unit -> option (CacheFileStores RD DC))
    : outcome (ClientOptions RD DC) :=
  let* optimisticTimeout := optimistic_timeout o in
  Ok (MkClientOptions RD DC (dc_Timeout o) (dc_DisableCache o) (dc_DisableExpire o) optimisticTimeout (dc_CacheCapacity o)
        (default prefix_zero (dc_ClientSubnet o))
        (Some (fun u => match cacheFile u with
                        | Some c => if negb (cf_StoreRDRC c) then None else Some (cf_RDRC c)
                        | None => None
                        end))
        (Some (fun u => match cacheFile u with
                        | Some c => if negb (cf_StoreDNS c) then None
                                    else Some (cf_DNS c (dc_DisableExpire o) optimisticTimeout)
                        | None => None
                        end))).

Section Router.
Context {X : External} {L : DnsLib}.
Variable w : World.
Variable tm : DNSTransportManager.
Variable defaultDomainStrategy : Z.

(** ** The legacy rule loop *)

Definition isAddressQuery (message : Msg) : bool :=
  existsb (fun q => (q_Qtype q =? TypeA) || (q_Qtype q =? TypeAAAA) || (q_Qtype q =? TypeHTTPS)) (Questions message).

(** The assignments of [matchDNS] to the options. *)
Definition apply_legacy_options (isFakeIP : bool) (action : RuleActionDNSRouteOptions) (options : DNSQueryOptions)
    : DNSQueryOptions :=
  MkQueryOptions
    (if negb (dr_Strategy action =? DomainStrategyAsIS) then dr_Strategy action else qo_Strategy options)
    (qo_LookupStrategy options)
    (isFakeIP || dr_DisableCache action || qo_DisableCache options)
    (qo_DisableOptimisticCache options)
    (match dr_RewriteTTL action with Some ttl => Some ttl | None => qo_RewriteTTL options end)
    (if 0 <? dr_Timeout action then dr_Timeout action else qo_Timeout options)
    (if PrefixIsValid (dr_ClientSubnet action) then dr_ClientSubnet action else qo_ClientSubnet options).

Record legacy_match := MkLegacyMatch {
  lm_transport : option DNSTransport;
  lm_rule : option DNSRule;
  lm_ruleIndex : Z;
  lm_options : DNSQueryOptions;
  lm_metadata : InboundContext
}.

(** The loop of [matchDNS] from the rule at [i] on. *)
Fixpoint matchDNS_loop (allowFakeIP isAddress : bool) (i : Z) (rules : list DNSRule) (options : DNSQueryOptions)
    (metadata : InboundContext) : legacy_match :=
  match rules with
  | [] => MkLegacyMatch (Some (tm_Default tm)) None (-1) options metadata
  | currentRule :: rules' =>
      let next := matchDNS_loop allowFakeIP isAddress (i + 1) rules' in
      if WithAddressLimit (dns_Rule currentRule) && negb isAddress then next options metadata
      else
        let metadata := (ResetRuleCache metadata) {{ md_DestinationAddressMatchFromResponse := false }} in
        let (matched, metadata) := LegacyPreMatch w (dns_Rule currentRule) metadata in
        if negb matched then next options metadata
        else match dns_Action currentRule with
        | Some (RuleActionDNSRoute server _ action) =>
            match tm_Transport tm server with
            | None => next options metadata
            | Some transport =>
                let isFakeIP := bool_decide (tr_Type transport = DNSTypeFakeIP) in
                if isFakeIP && negb allowFakeIP then next options metadata
                else MkLegacyMatch (Some transport) (Some currentRule) i (apply_legacy_options isFakeIP action options) metadata
            end
        | Some (RuleActionDNSRouteOptionsOnly action) => next (apply_legacy_options false action options) metadata
        | Some (RuleActionDNSReject _ _) | Some (RuleActionPredefined _) =>
            MkLegacyMatch None (Some currentRule) i options metadata
        | Some (RuleActionEvaluate _ _ _ _) | Some RuleActionRespond | None => next options metadata
        end
  end.

Definition matchDNS (rules : list DNSRule) (allowFakeIP : bool) (ruleIndex : Z) (isAddress : bool)
    (options : DNSQueryOptions) (metadata : InboundContext) : legacy_match :=
  let start := if negb (ruleIndex =? -1) then ruleIndex + 1 else 0 in
  matchDNS_loop allowFakeIP isAddress start (drop (Z.to_nat start) rules) options metadata.

(** [addressLimitResponseCheck]: the metadata are copied when the check is made. *)
Definition addressLimitResponseCheck (rule : option DNSRule) (metadata : InboundContext) : option (Msg -> bool) :=
  match rule with
  | Some rule =>
      if WithAddressLimit (dns_Rule rule)
      then Some (fun response => MatchAddressLimit w (dns_Rule rule) metadata (Some response))
      else None
  | None => None
  end.

(** What the client answers: for the rule's index, the transport, the options and the
    response checker. *)
Abbreviation reply := (option Msg * option error)%type.
Variable answer : Z -> option DNSTransport -> DNSQueryOptions -> option (Msg -> bool) -> outcome reply.

Definition response_was_rejected (err : option error) : bool :=
  match err with
  | Some e => errors_Is e ErrResponseRejectedCached || errors_Is e ErrResponseRejected
  | None => false
  end.

(** The responses of a selected rule that need no query: [Some] when the loop of
    [exchangeLegacy] returns. *)
Definition legacy_fixed (message : Msg) (rule : option DNSRule) : option (outcome (reply * option DNSTransport)) :=
  match rule with
  | Some rule =>
      match dns_Action rule with
      | Some (RuleActionDNSReject method _) =>
          if bool_decide (method = RuleActionRejectMethodDefault) then
            Some (let* m := dnsRefusedResponse message in Ok ((Some m, None), None))
          else if bool_decide (method = RuleActionRejectMethodDrop) then Some (Ok ((None, Some dns_ErrDrop), None))
          else None
      | Some (RuleActionPredefined action) => Some (let* m := Predefined_Response action message in Ok ((Some m, None), None))
      | _ => None
      end
  | None => None
  end.

(** The loop of [exchangeLegacy]; every turn is past the rule of the one before, so
    that one more turn than there are rules is enough. *)
Fixpoint exchangeLegacy_loop (fuel : nat) (rules : list DNSRule) (message : Msg) (options : DNSQueryOptions)
    (ruleIndex : Z) (metadata : InboundContext) : outcome (reply * option DNSTransport) :=
  match fuel with
  | O => Diverge
  | S fuel =>
      let selected := matchDNS rules true ruleIndex (isAddressQuery message) options metadata in
      match legacy_fixed message (lm_rule selected) with
      | Some r => r
      | None =>
          let responseCheck := addressLimitResponseCheck (lm_rule selected) (lm_metadata selected) in
          let* (response, err) := answer (lm_ruleIndex selected) (lm_transport selected)
                                    (finalizeExchangeOptions defaultDomainStrategy (lm_options selected)) responseCheck in
          if negb (is_nil responseCheck) && response_was_rejected err
          then exchangeLegacy_loop fuel rules message options (lm_ruleIndex selected) (lm_metadata selected)
          else Ok ((response, err), lm_transport selected)
      end
  end.
Definition exchangeLegacy (rules : list DNSRule) (message : Msg) (options : DNSQueryOptions) (metadata : InboundContext)
    : outcome (reply * option DNSTransport) :=
  exchangeLegacy_loop (S (length rules)) rules message options (-1) metadata.

(** ** Exchange *)

Definition FqdnToDomain (fqdn : string) : string :=
  if dns_IsFqdn fqdn then String.substring 0 (String.length fqdn - 1) fqdn else fqdn.

(** [IPVersion] by the type of a query: the two types of address queries. *)
Definition query_ip_version (qType : Z) : option Z :=
  if qType =? TypeA then Some 4 else if qType =? TypeAAAA then Some 6 else None.

(** [dnsExchangeContext] *)
Record dnsExchangeContext := MkExchangeContext {
  ec_rules : list DNSRule;
  ec_legacyDNSMode : bool;
  ec_metadata : InboundContext
}.

(** [prepareExchange]: an early response or error, or the context; [metadata] are
    those of the caller's context. *)
Definition prepareExchange (r : router_rules) (message : Msg) (metadata : InboundContext)
    : reply + dnsExchangeContext :=
  match Questions message with
  | [question] =>
      if rr_closing r then inl (None, Some (ENew "dns router closed"))
      else
        let qType := q_Qtype question in
        inr (MkExchangeContext (rr_rules r) (rr_legacyDNSMode r)
               (metadata {{ md_Destination := MkSocksaddr addr_zero 0 "";
                            md_QueryType := qType;
                            md_DNSResponse := None;
                            md_NamedDNSResponses := ∅;
                            md_DestinationAddressMatchFromResponse := false;
                            md_IPVersion := default (md_IPVersion metadata) (query_ip_version qType);
                            md_Domain := FqdnToDomain (q_Name question) }}))
  | _ =>
      inl (Some (MkMsg (MkMsgHdr (Id (Hdr message)) true 0 false false false false false false RcodeFormatError)
                   (Questions message) [] [] []), None)
  end.

Section ReverseMapping.
Context {RM : Type} `{!LRUCache Addr string RM}.

(** The names the A and AAAA records of a list give to addresses, with their lifetime. *)
Definition record_mapping (answer : RR) : option (Addr * string * Z) :=
  match answer with
  | RR_A h a | RR_AAAA h a => Some (AddrFromIP a, FqdnToDomain (Hdr_Name h), Ttl h * second)
  | _ => None
  end.
Definition add_mapping (now : Z) (m : RM) (entry : Addr * string * Z) : RM :=
  let '(ip, domain, lifetime) := entry in lru_AddWithLifetime now ip domain lifetime m.

Definition recordReverseMapping (now : Z) (message : Msg) (response : option Msg) (transport : option DNSTransport)
    (mapping : option RM) : option RM :=
  match mapping, response with
  | Some m, Some response =>
      if (0 <? zlen (Questions message)) && (0 <? zlen (Answer response))
         && match transport with Some t => negb (bool_decide (tr_Type t = DNSTypeFakeIP)) | None => true end
      then Some (fold_left (add_mapping now) (omap record_mapping (Answer response)) m)
      else Some m
  | _, _ => mapping
  end.

Definition LookupReverseMapping (now : Z) (ip : Addr) (mapping : option RM) : option string * option RM :=
  match mapping with
  | None => (None, None)
  | Some m => let (domain, m) := lru_Get now ip m in (domain, Some m)
  end.

(** The part of [ClearCache] that concerns the mapping. *)
Definition purge_mapping (mapping : option RM) : option RM := lru_Purge <$> mapping.

(** [finishExchangeAsync] and the end of [Exchange] *)
Definition finishExchange_router (now : Z) (message : Msg) (transport : option DNSTransport) (r : reply) (mapping : option RM)
    : reply * option RM :=
  match r.2 with
  | Some e => ((None, Some e), mapping)
  | None => ((r.1, None), recordReverseMapping now message r.1 transport mapping)
  end.

(** [Exchange], and [ExchangeAsync] with its callback; [fixed] is [options.Transport],
    [walked] the result of the walk over the rules. *)
Definition Exchange (now : Z) (r : router_rules) (message : Msg) (options : DNSQueryOptions) (fixed : option DNSTransport)
    (metadata : InboundContext) (walked : exchangeWithRulesResult) (mapping : option RM) : outcome (reply * option RM) :=
  match prepareExchange r message metadata with
  | inl early => Ok (early, mapping)
  | inr ctx =>
      match fixed with
      | Some transport =>
          let* response := answer (-1) (Some transport) (finalizeExchangeOptions defaultDomainStrategy options) None in
          Ok (finishExchange_router now message (Some transport) response mapping)
      | None =>
          if negb (ec_legacyDNSMode ctx)
          then Ok (finishExchange_router now message (er_transport walked) (er_response walked, er_err walked) mapping)
          else
            let* (response, transport) := exchangeLegacy (ec_rules ctx) message options (ec_metadata ctx) in
            Ok (finishExchange_router now message transport response mapping)
      end
  end.
End ReverseMapping.

(** ** Lookup *)

Definition resolveLookupStrategy (options : DNSQueryOptions) : Z :=
  if negb (qo_LookupStrategy options =? DomainStrategyAsIS) then qo_LookupStrategy options
  else if negb (qo_Strategy options =? DomainStrategyAsIS) then qo_Strategy options
  else defaultDomainStrategy.

Definition withLookupQueryMetadata (metadata : InboundContext) (qType : Z) : InboundContext :=
  metadata {{ md_QueryType := qType; md_IPVersion := default 0 (query_ip_version qType) }}.

Definition filterAddressesByQueryType (addresses : list Addr) (qType : Z) : list Addr :=
  if qType =? TypeA then List.filter Is4 addresses
  else if qType =? TypeAAAA then List.filter Is6 addresses
  else addresses.

Inductive lookup_error :=
| LError (e : error)
| LErrors (l : list lookup_error)
| LRejected (cause : option RejectedError)
| LCause (cause : lookup_error) (msg : string).

(** The request of [lookupWithRulesType]. *)
Definition lookup_request (domain : string) (qType : Z) : Msg :=
  MkMsg (MkMsgHdr 0 false 0 false false true false false false RcodeSuccess) [MkQuestion (dns_Fqdn domain) qType ClassINET] [] [] [].

(** [lookupWithRulesType] from the result of the walk for its request; [rejection] is
    [Error] of the reject action. *)
Definition lookupWithRulesType (rejection : string * bool -> outcome (option RejectedError)) (qType : Z)
    (walked : exchangeWithRulesResult) : outcome (lookup_error + list Addr) :=
  match er_rejectAction walked with
  | Some action => let* cause := rejection action in Ok (match cause with Some c => inl (LRejected (Some c)) | None => inr [] end)
  | None =>
      match er_err walked with
      | Some e => Ok (inl (LError e))
      | None =>
          match er_response walked with
          | None => Panic "invalid memory address or nil pointer dereference"
          | Some response =>
              if negb (Rcode response =? RcodeSuccess) then Ok (inl (LError (ERcode (Rcode response))))
              else Ok (inr (filterAddressesByQueryType (MessageToAddresses response) qType))
          end
      end
  end.

(** The options of the queries of [lookupWithRules]. *)
Definition rules_lookup_options (options : DNSQueryOptions) : DNSQueryOptions :=
  let strategy := resolveLookupStrategy options in
  if negb (strategy =? DomainStrategyAsIS) then set_Strategy options strategy else options.

(** [lookupWithRules] from the results of [lookupWithRulesType]; the error of the task
    group is that of the lookups that failed. *)
Definition lookupWithRules (options : DNSQueryOptions) (lookup : Z -> outcome (lookup_error + list Addr))
    : outcome (lookup_error + list Addr) :=
  let strategy := resolveLookupStrategy options in
  if strategy =? DomainStrategyIPv4Only then lookup TypeA
  else if strategy =? DomainStrategyIPv6Only then lookup TypeAAAA
  else
    let* r4 := lookup TypeA in
    let* r6 := lookup TypeAAAA in
    let addresses r := match r with inr l => l | inl _ => [] end in
    let errors r := match r with inr _ => [] | inl e => [e : lookup_error] end in
    Ok (match addresses r4, addresses r6 with
        | [], [] => match errors r4 ++ errors r6 with [] => inr [] | errs => inl (LErrors errs) end
        | l4, l6 => inr (sortAddresses l4 l6 strategy)
        end).

(** What the client answers to a lookup. *)
Variable client_lookup : Z -> option DNSTransport -> DNSQueryOptions -> option (Msg -> bool) -> outcome (lookup_error + list Addr).

(** The addresses of a predefined answer. *)
Definition predefined_addresses (records : list RR) : list Addr :=
  omap (fun record => match record with RR_A _ a | RR_AAAA _ a => Some (AddrFromIP a) | _ => None end) records.

(** How the legacy loop of [Lookup] ends: it returns, or goes on to [response]. *)
Inductive legacy_lookup := LookupReturn (e : lookup_error) | LookupResponse (r : lookup_error + list Addr).

Definition lookup_fixed (rejection : string * bool -> outcome (option RejectedError)) (rule : option DNSRule)
    : option (outcome legacy_lookup) :=
  match rule with
  | Some rule =>
      match dns_Action rule with
      | Some (RuleActionDNSReject method noDrop) =>
          Some (let* cause := rejection (method, noDrop) in Ok (LookupReturn (LRejected cause)))
      | Some (RuleActionPredefined action) =>
          Some (Ok (LookupResponse (if negb (pd_Rcode action =? RcodeSuccess) then inl (LError (ERcode (pd_Rcode action)))
                                    else inr (predefined_addresses (pd_Answer action)))))
      | _ => None
      end
  | None => None
  end.

Fixpoint lookupLegacy_loop (rejection : string * bool -> outcome (option RejectedError)) (fuel : nat) (rules : list DNSRule)
    (options : DNSQueryOptions) (ruleIndex : Z) (metadata : InboundContext) : outcome legacy_lookup :=
  match fuel with
  | O => Diverge
  | S fuel =>
      let selected := matchDNS rules false ruleIndex true options metadata in
      match lookup_fixed rejection (lm_rule selected) with
      | Some r => r
      | None =>
          let responseCheck := addressLimitResponseCheck (lm_rule selected) (lm_metadata selected) in
          let* r := client_lookup (lm_ruleIndex selected) (lm_transport selected)
                      (finalizeExchangeOptions defaultDomainStrategy (lm_options selected)) responseCheck in
          match responseCheck, r with
          | Some _, inl _ => lookupLegacy_loop rejection fuel rules options (lm_ruleIndex selected) (lm_metadata selected)
          | _, _ => Ok (LookupResponse r)
          end
      end
  end.

(** [printResult] *)
Definition print_result (domain : string) (r : lookup_error + list Addr) : lookup_error + list Addr :=
  match r with
  | inr [] => inl (LCause (LError (ENew "empty result")) ("lookup " +:+ domain))
  | inr addresses => inr addresses
  | inl e => inl (LCause e ("lookup " +:+ domain))
  end.

(** The metadata [Lookup] matches the rules with. *)
Definition lookup_metadata (metadata : InboundContext) (domain : string) : InboundContext :=
  metadata {{ md_Destination := MkSocksaddr addr_zero 0 ""; md_Domain := FqdnToDomain domain; md_DNSResponse := None;
              md_NamedDNSResponses := ∅; md_DestinationAddressMatchFromResponse := false }}.

(** [Lookup]; [walked] gives the result of the walk for a query type. *)
Definition Router_Lookup (rejection : string * bool -> outcome (option RejectedError)) (r : router_rules) (domain : string)
    (options : DNSQueryOptions) (fixed : option DNSTransport) (metadata : InboundContext)
    (walked : Z -> exchangeWithRulesResult) : outcome (lookup_error + list Addr) :=
  if rr_closing r then Ok (inl (LError (ENew "dns router closed")))
  else match fixed with
  | Some transport =>
      let* result := client_lookup (-1) (Some transport) (finalizeExchangeOptions defaultDomainStrategy options) None in
      Ok (print_result domain result)
  | None =>
      if negb (rr_legacyDNSMode r) then
        let* result := lookupWithRules options (fun qType => lookupWithRulesType rejection qType (walked qType)) in
        Ok (print_result domain result)
      else
        let* result := lookupLegacy_loop rejection (S (length (rr_rules r))) (rr_rules r) options (-1) (lookup_metadata metadata domain) in
        match result with
        | LookupReturn e => Ok (inl e)
        | LookupResponse result => Ok (print_result domain result)
        end
  end.
End Router.
