(* ===== verification/DnsRouterSpec.v ===== *)
(** * What the queries of the DNS router do

    The legacy rule loop against a recursion over the list of rules
    ([legacy_exchange_in_order]), the addresses of a lookup ([router_lookup_addresses]),
    and the reverse mapping, up to the domain of a connection ([reverse_mapping_recorded]). *)

From S2P Require Import Prelude GoStd Netip External DnsMsg RuleItems RuleMatch RuleSpec RuleOptions RuleBuild RuleAction DnsClient DnsRule DnsMode DnsWalk DnsRouter.
From coqutil Require Import Datatypes.RecordSetters.
Import DoubleBraceUpdate.
Local Open Scope Z_scope.

Section Legacy.
Context {X : External} {L : DnsLib}.
Variable w : World.
Variable tm : DNSTransportManager.
Implicit Types (md : InboundContext).

(** ** The pre-match does not depend on the rules before *)

(** The metadata [matchDNS] matches a rule with. *)
Definition match_metadata md : InboundContext := (ResetRuleCache md) {{ md_DestinationAddressMatchFromResponse := false }}.

Definition same_metadata md1 md2 : Prop :=
  set_IgnoreDestinationIPCIDRMatch (match_metadata md1) true = set_IgnoreDestinationIPCIDRMatch (match_metadata md2) true.

Definition legacy_judge md (rule : DNSRule) : bool * InboundContext := LegacyPreMatch w (dns_Rule rule) (match_metadata md).

Lemma same_metadata_after md rule : same_metadata (legacy_judge md rule).2 md.
Proof.
  unfold legacy_judge. destruct (LegacyPreMatch_frame w (dns_Rule rule) (match_metadata md)) as [x ->].
  destruct (dns_Rule rule) as [[| |[] tag race] d|k l]; reflexivity.
Qed.

Lemma same_metadata_judge md1 md2 rule : same_metadata md1 md2 ->
  (legacy_judge md1 rule).1 = (legacy_judge md2 rule).1
  /\ ((legacy_judge md1 rule).1 = true -> (legacy_judge md1 rule).2 = (legacy_judge md2 rule).2).
Proof.
  unfold same_metadata, legacy_judge. intros H. generalize dependent (match_metadata md1). generalize (match_metadata md2).
  intros m2 m1 H. destruct (dns_Rule rule) as [[| |[] tag race] d|k l]; cbn [LegacyPreMatch]; by rewrite ?H.
Qed.

(** ** The loop as a recursion over the rules *)

Section InOrder.
Variables allowFakeIP isAddress : bool.
Context {T : Type}.
(** The responses without a query, and the result of one, [None] to go on behind the rule. *)
Variable fixed : option DNSRule -> option T.
Variable query : legacy_match -> option T.
Variable md0 : InboundContext.
Variable options0 : DNSQueryOptions.

(** The first rule that matches and whose response is not rejected gives the result;
    after a rejected response the options are those of the query again. *)
Fixpoint in_order (i : Z) (rules : list DNSRule) (options : DNSQueryOptions) : option T :=
  let select m := match fixed (lm_rule m) with Some r => Some r | None => query m end in
  match rules with
  | [] => select (MkLegacyMatch (Some (tm_Default tm)) None (-1) options md0)
  | rule :: rules' =>
      let next := in_order (i + 1) rules' in
      let rejectable m := match select m with Some r => Some r | None => next options0 end in
      if WithAddressLimit (dns_Rule rule) && negb isAddress || negb (legacy_judge md0 rule).1 then next options
      else match dns_Action rule with
      | Some (RuleActionDNSRoute server _ action) =>
          match tm_Transport tm server with
          | Some transport =>
              let isFakeIP := bool_decide (tr_Type transport = DNSTypeFakeIP) in
              if isFakeIP && negb allowFakeIP then next options
              else rejectable (MkLegacyMatch (Some transport) (Some rule) i (apply_legacy_options isFakeIP action options)
                                 (legacy_judge md0 rule).2)
          | None => next options
          end
      | Some (RuleActionDNSRouteOptionsOnly action) => next (apply_legacy_options false action options)
      | Some (RuleActionDNSReject _ _) | Some (RuleActionPredefined _) =>
          rejectable (MkLegacyMatch None (Some rule) i options (legacy_judge md0 rule).2)
      | _ => next options
      end
  end.

(** The queries without a rule are final, and do not depend on the metadata. *)
Hypothesis query_default : forall m, lm_rule m = None -> query m <> None
  /\ forall md, query (MkLegacyMatch (lm_transport m) None (lm_ruleIndex m) (lm_options m) md) = query m.

Fixpoint turns (fuel : nat) (rules : list DNSRule) (ruleIndex : Z) md : option T :=
  match fuel with
  | O => None
  | S fuel =>
      let m := matchDNS w tm rules allowFakeIP ruleIndex isAddress options0 md in
      match fixed (lm_rule m) with
      | Some r => Some r
      | None => match query m with Some r => Some r | None => turns fuel rules (lm_ruleIndex m) (lm_metadata m) end
      end
  end.

(** One turn of the loop and the recursion from the rule behind the selected one. *)
Lemma in_order_turn rules : forall i options md, same_metadata md md0 ->
  let m := matchDNS_loop w tm allowFakeIP isAddress i rules options md in
  same_metadata (lm_metadata m) md0
  /\ in_order i rules options
     = match fixed (lm_rule m) with
       | Some r => Some r
       | None => match query m with
                 | Some r => Some r
                 | None => in_order (lm_ruleIndex m + 1) (drop (Z.to_nat (lm_ruleIndex m + 1 - i)) rules) options0
                 end
       end
  /\ (lm_rule m = None \/ i <= lm_ruleIndex m < i + zlen rules).
Proof.
  induction rules as [|rule rules IH]; intros i options md Hmd.
  - cbn. split; [done|]. split; [|by left]. destruct (fixed None); [done|].
    destruct (query_default (MkLegacyMatch (Some (tm_Default tm)) None (-1) options md) eq_refl) as [Hq Hm].
    specialize (Hm md0). cbn [lm_transport lm_ruleIndex lm_options] in Hm. rewrite Hm. by destruct (query _).
  - cbn [matchDNS_loop in_order]. fold (match_metadata md). fold (legacy_judge md rule).
    assert (Hnext : forall options md, same_metadata md md0 ->
      let m := matchDNS_loop w tm allowFakeIP isAddress (i + 1) rules options md in
      same_metadata (lm_metadata m) md0
      /\ in_order (i + 1) rules options
         = match fixed (lm_rule m) with
           | Some r => Some r
           | None => match query m with
                     | Some r => Some r
                     | None => in_order (lm_ruleIndex m + 1) (drop (Z.to_nat (lm_ruleIndex m + 1 - i)) (rule :: rules)) options0
                     end
           end
      /\ (lm_rule m = None \/ i <= lm_ruleIndex m < i + zlen (rule :: rules))).
    { intros o md' Hmd' m. destruct (IH (i + 1) o md' Hmd') as (H1 & H2 & H3). fold m in H1, H2, H3. split; [done|].
      rewrite zlen_cons. split; [|destruct H3 as [H3|H3]; [by left|right; lia]].
      rewrite H2. destruct (fixed _); [done|]. destruct (query m) eqn:Hq; [done|].
      destruct H3 as [H3|H3]; [by destruct (query_default m H3)|].
      replace (Z.to_nat (lm_ruleIndex m + 1 - i)) with (S (Z.to_nat (lm_ruleIndex m + 1 - (i + 1)))) by lia. done. }
    destruct (same_metadata_judge md md0 rule Hmd) as [Hb Hmd'].
    pose proof (same_metadata_after md rule) as Hafter.
    assert (Hmd2 : same_metadata (legacy_judge md rule).2 md0) by (unfold same_metadata in *; congruence).
    destruct (WithAddressLimit (dns_Rule rule) && negb isAddress); cbn [orb]; [by apply Hnext|].
    rewrite <- Hb. destruct (legacy_judge md rule) as [matched md'] eqn:Hj. cbn [fst snd] in *.
    destruct matched; cbn [negb]; [|by apply Hnext]. rewrite <- (Hmd' eq_refl).
    assert (Hsel : forall t o, let m := MkLegacyMatch t (Some rule) i o md' in
      same_metadata (lm_metadata m) md0
      /\ match (match fixed (lm_rule m) with Some r => Some r | None => query m end) with
         | Some r => Some r | None => in_order (i + 1) rules options0 end
         = match fixed (lm_rule m) with
           | Some r => Some r
           | None => match query m with
                     | Some r => Some r
                     | None => in_order (lm_ruleIndex m + 1) (drop (Z.to_nat (lm_ruleIndex m + 1 - i)) (rule :: rules)) options0
                     end
           end
      /\ (lm_rule m = None \/ i <= lm_ruleIndex m < i + zlen (rule :: rules))).
    { intros t o m. cbn [lm_metadata lm_rule lm_ruleIndex m]. split; [done|]. split.
      - destruct (fixed _); [done|]. replace (Z.to_nat (i + 1 - i)) with 1%nat by lia. cbn [drop]. rewrite drop_0. by destruct (query m).
      - right. rewrite zlen_cons. pose proof (zlen_nonneg rules). lia. }
    destruct (dns_Action rule) as [[server spec a|server tag spec a| |a|method noDrop|p]|]; try by apply Hnext.
    + destruct (tm_Transport tm server) as [transport|]; [|by apply Hnext].
      destruct (bool_decide _ && negb allowFakeIP); [by apply Hnext|apply Hsel].
    + apply Hsel.
    + apply Hsel.
Qed.

Lemma turns_in_order rules fuel : forall ruleIndex md, same_metadata md md0 -> -1 <= ruleIndex < zlen rules -> zlen rules - ruleIndex <= Z.of_nat fuel ->
  turns fuel rules ruleIndex md = in_order (ruleIndex + 1) (drop (Z.to_nat (ruleIndex + 1)) rules) options0.
Proof.
  induction fuel as [|fuel IH]; intros ruleIndex md Hmd Hlow Hfuel.
  - lia.
  - cbn [turns]. unfold matchDNS.
    replace (if negb (ruleIndex =? -1) then ruleIndex + 1 else 0) with (ruleIndex + 1)
      by (destruct (Z.eqb_spec ruleIndex (-1)); cbn; lia).
    destruct (in_order_turn (drop (Z.to_nat (ruleIndex + 1)) rules) (ruleIndex + 1) options0 md Hmd) as (H1 & H2 & H3).
    set (m := matchDNS_loop _ _ _ _ _ _ _ _) in *. rewrite H2. destruct (fixed (lm_rule m)); [done|].
    destruct (query m) eqn:Hq; [done|]. destruct H3 as [H3|H3]; [by destruct (query_default m H3)|].
    unfold zlen in *. rewrite length_drop in H3. rewrite IH; [|done|lia|lia].
    rewrite drop_drop. f_equal. f_equal. lia.
Qed.

Lemma in_order_Some i rules options : exists r, in_order i rules options = Some r.
Proof.
  assert (Hd : forall o, exists r, (match fixed None with Some r => Some r | None =>
    query (MkLegacyMatch (Some (tm_Default tm)) None (-1) o md0) end) = Some r).
  { intros o. destruct (fixed None) as [r|]; [by exists r|].
    destruct (query_default (MkLegacyMatch (Some (tm_Default tm)) None (-1) o md0) eq_refl) as [Hq _].
    destruct (query _) as [r|]; [by exists r|done]. }
  revert i options. induction rules as [|rule rules IH]; intros i options; [apply Hd|]. cbn [in_order].
  repeat case_match; try apply IH; eauto.
Qed.

Lemma turns_rules rules : turns (S (length rules)) rules (-1) md0 = in_order 0 rules options0.
Proof.
  rewrite turns_in_order; [by rewrite drop_0|done| |]; pose proof (zlen_nonneg rules); unfold zlen in *; lia.
Qed.
End InOrder.

(** ** Exchange and Lookup *)

Variable defaultDomainStrategy : Z.
Variable answer : Z -> option DNSTransport -> DNSQueryOptions -> option (Msg -> bool) -> outcome (option Msg * option error).
Variable client_lookup : Z -> option DNSTransport -> DNSQueryOptions -> option (Msg -> bool) -> outcome (lookup_error + list Addr).
Variable rejection : string * bool -> outcome (option RejectedError).

(** The client asked for a selected rule with its response checker. *)
Definition ask {T} (f : Z -> option DNSTransport -> DNSQueryOptions -> option (Msg -> bool) -> outcome T) (m : legacy_match) : outcome T :=
  f (lm_ruleIndex m) (lm_transport m) (finalizeExchangeOptions defaultDomainStrategy (lm_options m))
    (addressLimitResponseCheck w (lm_rule m) (lm_metadata m)).
Definition limited (m : legacy_match) : bool := negb (is_nil (addressLimitResponseCheck w (lm_rule m) (lm_metadata m))).

(** [None] when the response is rejected by the address limit of the rule. *)
Definition exchange_query (m : legacy_match) : option (outcome (option Msg * option error * option DNSTransport)) :=
  match ask answer m with
  | Ok (response, err) =>
      if limited m && response_was_rejected err then None else Some (Ok ((response, err), lm_transport m))
  | Err e => Some (Err e)
  | Panic msg => Some (Panic msg)
  | Diverge => Some Diverge
  end.
(** [None] when the lookup for a rule with an address limit fails. *)
Definition lookup_query (m : legacy_match) : option (outcome legacy_lookup) :=
  match ask client_lookup m with
  | Ok r => match limited m, r with true, inl _ => None | _, _ => Some (Ok (LookupResponse r)) end
  | Err e => Some (Err e)
  | Panic msg => Some (Panic msg)
  | Diverge => Some Diverge
  end.

Lemma exchange_turns rules message options fuel : forall ruleIndex md r,
  turns true (isAddressQuery message) (legacy_fixed message) exchange_query options fuel rules ruleIndex md = Some r ->
  exchangeLegacy_loop w tm defaultDomainStrategy answer fuel rules message options ruleIndex md = r.
Proof.
  induction fuel as [|fuel IH]; intros ruleIndex md r; cbn [turns exchangeLegacy_loop]; [done|].
  set (m := matchDNS _ _ _ _ _ _ _ _). destruct (legacy_fixed message (lm_rule m)); [by intros [= <-]|].
  unfold exchange_query, ask, limited. fold m.
  destruct (answer _ _ _ _) as [[response err]| | |]; cbn; try by intros [= <-].
  destruct (negb _ && _); [apply IH|by intros [= <-]].
Qed.
Lemma lookup_turns rules options fuel : forall ruleIndex md r,
  turns false true (lookup_fixed rejection) lookup_query options fuel rules ruleIndex md = Some r ->
  lookupLegacy_loop w tm defaultDomainStrategy client_lookup rejection fuel rules options ruleIndex md = r.
Proof.
  induction fuel as [|fuel IH]; intros ruleIndex md r; cbn [turns lookupLegacy_loop]; [done|].
  set (m := matchDNS _ _ _ _ _ _ _ _). destruct (lookup_fixed rejection (lm_rule m)); [by intros [= <-]|].
  unfold lookup_query, ask, limited. fold m.
  destruct (client_lookup _ _ _ _) as [[e|l]| | |]; cbn; destruct (addressLimitResponseCheck w (lm_rule m) (lm_metadata m)); cbn;
    first [apply IH | by intros [= <-]].
Qed.

Lemma exchange_default m : lm_rule m = None -> exchange_query m <> None
  /\ forall md, exchange_query (MkLegacyMatch (lm_transport m) None (lm_ruleIndex m) (lm_options m) md) = exchange_query m.
Proof.
  unfold exchange_query, ask, limited. intros ->. cbn. destruct (answer _ _ _ None) as [[]| | |]; done.
Qed.
Lemma lookup_default m : lm_rule m = None -> lookup_query m <> None
  /\ forall md, lookup_query (MkLegacyMatch (lm_transport m) None (lm_ruleIndex m) (lm_options m) md) = lookup_query m.
Proof.
  unfold lookup_query, ask, limited. intros ->. cbn. destruct (client_lookup _ _ _ None) as [[]| | |]; done.
Qed.

(** C21: In the legacy mode an exchange and a lookup end, and their result is that of going
    through the rules once, in order: route options accumulate, the first rule that
    matches and can be used answers, and when its response is rejected by its address
    limit (for a lookup: when the lookup fails) the rules behind it are tried with the
    options of the query. *)
Theorem legacy_exchange_in_order rules message options md :
  in_order true (isAddressQuery message) (legacy_fixed message) exchange_query md options 0 rules options
    = Some (exchangeLegacy w tm defaultDomainStrategy answer rules message options md)
  /\ in_order false true (lookup_fixed rejection) lookup_query md options 0 rules options
    = Some (lookupLegacy_loop w tm defaultDomainStrategy client_lookup rejection (S (length rules)) rules options (-1) md).
Proof.
  split.
  - destruct (in_order_Some true (isAddressQuery message) (legacy_fixed message) exchange_query md options exchange_default 0 rules options)
      as [r Hr]. rewrite Hr. f_equal. symmetry. apply exchange_turns.
    by rewrite (turns_rules _ _ _ _ md _ exchange_default).
  - destruct (in_order_Some false true (lookup_fixed rejection) lookup_query md options lookup_default 0 rules options)
      as [r Hr]. rewrite Hr. f_equal. symmetry. apply lookup_turns.
    by rewrite (turns_rules _ _ _ _ md _ lookup_default).
Qed.
End Legacy.

(** ** Addresses of a lookup *)

Section Lookups.
Context {X : External} {L : DnsLib}.

(** The addresses a walk for a query type answers with: those of the family in a response
    that is not a rejection, an error or a failure. *)
Definition answered_addresses (qType : Z) (walked : exchangeWithRulesResult) : list Addr :=
  match er_rejectAction walked, er_err walked, er_response walked with
  | None, None, Some response =>
      if Rcode response =? RcodeSuccess
      then List.filter (fun a => if qType =? TypeA then Is4 a else Is6 a) (DNSResponseAddresses (Some response)) else []
  | _, _, _ => []
  end.
(** The addresses of both walks, or of the one the strategy asks for. *)
Definition lookup_addresses (strategy : Z) (walked : Z -> exchangeWithRulesResult) : list Addr :=
  let a4 := if strategy =? DomainStrategyIPv6Only then [] else answered_addresses TypeA (walked TypeA) in
  let a6 := if strategy =? DomainStrategyIPv4Only then [] else answered_addresses TypeAAAA (walked TypeAAAA) in
  if strategy =? DomainStrategyPreferIPv6 then a6 ++ a4 else a4 ++ a6.

Lemma lookupWithRulesType_addresses rejection qType walked result :
  qType = TypeA \/ qType = TypeAAAA -> lookupWithRulesType rejection qType walked = Ok result ->
  match result with inr l => l | inl _ => [] end = answered_addresses qType walked.
Proof.
  intros Hq H. unfold lookupWithRulesType, answered_addresses in *. destruct walked as [response transport reject err]. cbn in *.
  destruct reject as [action|].
  { apply obind_Ok_inv in H as ([c|] & _ & H); by injection H as <-. }
  destruct err; [by injection H as <-|]. destruct response as [response|]; [|done].
  destruct (Rcode response =? RcodeSuccess); cbn in H; injection H as <-; [|done].
  unfold filterAddressesByQueryType. by destruct Hq as [-> | ->].
Qed.

Lemma lookupWithRules_addresses defaultStrategy rejection options walked result (strategy := resolveLookupStrategy defaultStrategy options) :
  lookupWithRules defaultStrategy options (fun qType => lookupWithRulesType rejection qType (walked qType)) = Ok result ->
  match result with inr l => l | inl _ => [] end = lookup_addresses strategy walked.
Proof.
  unfold lookupWithRules, lookup_addresses. fold strategy. intros H.
  destruct (strategy =? DomainStrategyIPv4Only) eqn:H4; [|destruct (strategy =? DomainStrategyIPv6Only) eqn:H6].
  - apply lookupWithRulesType_addresses in H; [|by left]. apply Z.eqb_eq in H4. rewrite H4. cbn. by rewrite H, app_nil_r.
  - apply lookupWithRulesType_addresses in H; [|by right]. apply Z.eqb_eq in H6. rewrite H6. cbn. done.
  - apply obind_Ok_inv in H as (r4 & Hr4 & H). apply obind_Ok_inv in H as (r6 & Hr6 & H). injection H as <-.
    apply lookupWithRulesType_addresses in Hr4, Hr6; [|by auto..]. rewrite <- Hr4, <- Hr6. unfold sortAddresses.
    destruct (match r4 with inr l => l | inl _ => [] end), (match r6 with inr l => l | inl _ => [] end);
      try (by destruct (strategy =? DomainStrategyPreferIPv6)).
    by destruct (_ ++ _), (strategy =? DomainStrategyPreferIPv6).
Qed.

(** C22: Without the legacy mode a lookup through the rules returns all the IPv4 addresses of
    the A answer and all the IPv6 addresses of the AAAA answer that the walks over the rules
    gave, IPv6 first exactly when it is preferred, or those of the one family when the strategy
    asks for it; a walk that is rejected or fails has none, and the lookup fails exactly when
    there is no address. *)
Theorem router_lookup_addresses w tm defaultStrategy client_lookup rejection r domain options md walked result :
  rr_closing r = false -> rr_legacyDNSMode r = false ->
  Router_Lookup w tm defaultStrategy client_lookup rejection r domain options None md walked = Ok result ->
  match lookup_addresses (resolveLookupStrategy defaultStrategy options) walked with
  | [] => exists e, result = inl e
  | addresses => result = inr addresses
  end.
Proof.
  intros Hc Hm H. unfold Router_Lookup in H. rewrite Hc, Hm in H. cbn [negb] in H.
  apply obind_Ok_inv in H as (res & Hres%lookupWithRules_addresses & H). rewrite <- Hres. injection H as <-.
  destruct res as [e|[|a l]]; cbn; eauto.
Qed.
End Lookups.
