(* ===== verification/DnsRuleSpec.v ===== *)
(** * What a DNS rule reads of the responses

    A rule that binds no response matches the same with any; one that binds some
    depends on those only ([rule_Match_agree]).  The predicate [bound_rule] says which
    rules this holds of: every rule the DNS router builds without the legacy mode
    ([built_rules_ok], in DnsModeSpec). *)

From S2P Require Import Prelude GoStd Netip External DnsMsg RuleItems RuleMatch RuleSpec RuleOptions RuleBuild RuleAction DnsClient DnsRule DnsMode DnsWalk.
Local Open Scope Z_scope.

Section RuleSpecs.
Context {X : External}.
Implicit Types (w : World) (md : InboundContext).

(** ** Induction on rules *)

Section rule_ind.
Variable P : Rule -> Prop.
Hypothesis Hdefault : forall kind it rs invert,
  (forall tags sets src acc, rs = Some (MkRuleSetItem tags sets src acc) ->
     Forall (fun s => let '(MkRuleSet rules _) := s in Forall P rules) sets) ->
  P (DefaultR kind (MkDefault it rs invert)).
Hypothesis Hlogical : forall kind rules mode invert, Forall P rules -> P (LogicalR kind (MkLogical rules mode invert)).

Fixpoint Rule_nested_ind (r : Rule) : P r :=
  let go_rules := (fix go (l : list Rule) : Forall P l :=
    match l with [] => Forall_nil_2 P | r :: l' => Forall_cons_2 P r l' (Rule_nested_ind r) (go l') end) in
  match r with
  | DefaultR kind (MkDefault it rs invert) =>
      Hdefault kind it rs invert
        (match rs as o return forall tags sets src acc, o = Some (MkRuleSetItem tags sets src acc) ->
             Forall (fun s => let '(MkRuleSet rules _) := s in Forall P rules) sets with
         | None => fun tags sets src acc H =>
             match H in (_ = y) return match y with None => True
               | Some (MkRuleSetItem _ sets _ _) => Forall (fun s => let '(MkRuleSet rules _) := s in Forall P rules) sets end
             with eq_refl => I end
         | Some (MkRuleSetItem tags0 sets0 src0 acc0) => fun tags sets src acc H =>
             match H in (_ = y) return match y with None => True
               | Some (MkRuleSetItem _ sets _ _) => Forall (fun s => let '(MkRuleSet rules _) := s in Forall P rules) sets end
             with eq_refl =>
               (fix go (l : list RuleSet) : Forall (fun s => let '(MkRuleSet rules _) := s in Forall P rules) l :=
                  match l with
                  | [] => Forall_nil_2 _
                  | MkRuleSet rules c :: l' =>
                      Forall_cons_2 (fun s => let '(MkRuleSet rules _) := s in Forall P rules) (MkRuleSet rules c) l'
                        (go_rules rules) (go l')
                  end) sets0
             end
         end)
  | LogicalR kind (MkLogical rules mode invert) => Hlogical kind rules mode invert (go_rules rules)
  end.
End rule_ind.

(** ** Rules with their responses bound *)

(** The items that read a response only when the rule matches one. *)
Definition neutral_item (it : RuleItem) : bool :=
  match it with DNSResponseRCodeItem _ | DNSResponseRecordItem _ _ _ => false | _ => true end.
Definition neutral_items (r : default_items) : bool :=
  forallb neutral_item (items r) && forallb neutral_item (sourceAddressItems r)
  && forallb neutral_item (sourcePortItems r) && forallb neutral_item (destinationAddressItems r)
  && forallb neutral_item (destinationIPCIDRItems r) && forallb neutral_item (destinationPortItems r).

(** The rules of a rule-set. *)
Fixpoint headless_rule (r : Rule) : bool :=
  match r with
  | DefaultR KDefaultHeadlessRule (MkDefault it None _) => neutral_items it
  | LogicalR KLogicalHeadlessRule (MkLogical rules _ _) => forallb headless_rule rules
  | _ => false
  end.
Definition headless_set (s : RuleSet) : bool := let '(MkRuleSet rules _) := s in forallb headless_rule rules.
Definition headless_sets (rs : option RuleSetItem) : bool :=
  match rs with None => true | Some (MkRuleSetItem _ sets _ _) => forallb headless_set sets end.

(** A rule that does not match a response has no item that reads one; a logical rule
    knows the responses of its sub-rules. *)
Fixpoint bound_rule (r : Rule) : bool :=
  match r with
  | DefaultR (KDefaultDNSRule matchResponse tag _) (MkDefault it rs _) =>
      headless_sets rs && (matchResponse || neutral_items it && bool_decide (tag = ""))
  | LogicalR (KLogicalDNSRule tags anonymous _) (MkLogical rules _ _) =>
      forallb (fun r' => bound_rule r' && forallb (fun t => bool_decide (t ∈ tags)) (MatchResponseTags r')
                         && implb (MatchResponseAnonymous r') anonymous) rules
  | _ => false
  end.

(** ** Metadata that differ in the responses *)

Definition forget md : InboundContext := set_responses md None ∅.

(** Equal but for the responses; the response itself is the same when it is read, or
    in any case ([all]). *)
Definition agree (all : bool) md1 md2 : Prop :=
  forget md1 = forget md2
  /\ md_DestinationAddressMatchFromResponse md1 = md_DestinationAddressMatchFromResponse md2
  /\ (all || md_DestinationAddressMatchFromResponse md1 = true -> md_DNSResponse md1 = md_DNSResponse md2).

Ltac split_md H :=
  unfold agree, forget, set_responses in H; cbn in H;
  let Hf := fresh in let Hd := fresh in let Hr := fresh in
  destruct H as (Hf & Hd & Hr); injection Hf as; subst.

Lemma agree_item all w it md1 md2 :
  agree all md1 md2 -> all || neutral_item it = true -> item_Match w it md1 = item_Match w it md2.
Proof.
  intros Ha Hn. destruct md1, md2. split_md Ha. destruct md_DestinationAddressMatchFromResponse0.
  - rewrite (H1 (orb_true_r _)). destruct it; reflexivity.
  - destruct all; [rewrite (H1 eq_refl); destruct it; reflexivity|]. destruct it; try discriminate Hn; reflexivity.
Qed.

Lemma agree_fn (f : InboundContext -> InboundContext) all md1 md2 :
  (forall md, forget (f md) = f (forget md)
     /\ md_DestinationAddressMatchFromResponse (f md) = md_DestinationAddressMatchFromResponse md
     /\ md_DNSResponse (f md) = md_DNSResponse md) ->
  agree all md1 md2 -> agree all (f md1) (f md2).
Proof.
  intros Hf (H1 & H2 & H3). destruct (Hf md1) as (E1 & E2 & E3), (Hf md2) as (E4 & E5 & E6). unfold agree.
  rewrite E1, E2, E3, E4, E5, E6. rewrite H1. done.
Qed.
Lemma agree_ResetRuleMatchCache all md1 md2 :
  agree all md1 md2 -> agree all (ResetRuleMatchCache md1) (ResetRuleMatchCache md2).
Proof. by apply agree_fn. Qed.
Lemma agree_ResetRuleCache all md1 md2 : agree all md1 md2 -> agree all (ResetRuleCache md1) (ResetRuleCache md2).
Proof. by apply agree_fn. Qed.
Lemma agree_nestedMetadata all src acc md1 md2 :
  agree all md1 md2 -> agree all (nestedMetadata src acc md1) (nestedMetadata src acc md2).
Proof. by apply agree_fn. Qed.

Lemma agree_weaken md1 md2 : agree true md1 md2 -> agree false md1 md2.
Proof. intros (H1 & H2 & H3). split; [done|]. split; [done|]. intros _. by apply H3. Qed.

Lemma agree_flags all md1 md2 : agree all md1 md2 ->
  md_IgnoreDestinationIPCIDRMatch md1 = md_IgnoreDestinationIPCIDRMatch md2
  /\ md_IPCIDRMatchSource md1 = md_IPCIDRMatchSource md2 /\ md_DidMatch md1 = md_DidMatch md2.
Proof.
  intros (H & _). split; [exact (f_equal md_IgnoreDestinationIPCIDRMatch H)|].
  split; [exact (f_equal md_IPCIDRMatchSource H)|exact (f_equal md_DidMatch H)].
Qed.

(** ** Default rules *)

Definition readable (all : bool) (l : list RuleItem) : bool := all || forallb neutral_item l.

Lemma agree_any all w l md1 md2 :
  agree all md1 md2 -> readable all l = true -> any_item_of w l md1 = any_item_of w l md2.
Proof.
  intros Ha. unfold any_item_of, readable. induction l as [|it l IH]; [done|]. cbn [existsb forallb].
  intros H. rewrite (agree_item all w it md1 md2 Ha), IH; [done| |]; destruct all; cbn [orb] in *; to_prop; done.
Qed.

Lemma agree_fields all w r md1 md2 :
  agree all md1 md2 -> readable all (items r) = true -> fields_ok w r md1 = fields_ok w r md2.
Proof.
  intros Ha. unfold fields_ok, readable. induction (items r) as [|it l IH]; [done|]. cbn [forallb].
  intros H. rewrite (agree_item all w it md1 md2 Ha), IH; [done| |]; destruct all; cbn [orb] in *; to_prop; done.
Qed.

Lemma readable_app all l l' : readable all (l ++ l') = readable all l && readable all l'.
Proof. unfold readable. rewrite forallb_app. by destruct all. Qed.

Lemma readable_if all (c : bool) l : readable all l = true -> readable all (if c then l else []) = true.
Proof. destruct c; [done|]. intros _. unfold readable. by rewrite orb_true_r. Qed.

(** Every group of a rule with neutral items may be read. *)
Lemma readable_groups all r md : all || neutral_items r = true ->
  readable all (items r) = true /\ readable all (source_group r md) = true /\ readable all (sourcePortItems r) = true
  /\ readable all (destination_group r md) = true /\ readable all (destinationPortItems r) = true.
Proof.
  unfold source_group, destination_group. rewrite !readable_app. intros H.
  destruct all; [done|]. cbn [orb] in H. unfold neutral_items in H. to_prop.
  unfold readable at 1 2 4 5 7. cbn [orb].
  rewrite !readable_if by (unfold readable; cbn [orb]; done).
  repeat match goal with H : forallb neutral_item _ = true |- _ => rewrite H; clear H end. done.
Qed.

Lemma agree_groups_same all r md1 md2 : agree all md1 md2 ->
  source_group r md1 = source_group r md2 /\ destination_group r md1 = destination_group r md2.
Proof.
  intros Ha. destruct (agree_flags _ _ _ Ha) as (H1 & H2 & _). unfold source_group, destination_group. by rewrite H1, H2.
Qed.

Lemma agree_groups_ok all w r md1 md2 :
  agree all md1 md2 -> all || neutral_items r = true -> groups_ok w r md1 = groups_ok w r md2.
Proof.
  intros Ha Hn. destruct (readable_groups all r md2 Hn) as (_ & R1 & R2 & R3 & R4).
  destruct (agree_groups_same all r _ _ Ha) as [E1 E2]. unfold groups_ok, group_ok. rewrite E1, E2.
  by rewrite !(agree_any all w _ md1 md2 Ha).
Qed.

Lemma agree_merged_ok all w r b md1 md2 nested1 nested2 :
  agree all md1 md2 -> all || neutral_items r = true -> agree all nested1 nested2 -> neutral_items b = true ->
  merged_ok w r md1 b nested1 = merged_ok w r md2 b nested2.
Proof.
  intros Ha Hr Hb Hn. assert (Hn' : all || neutral_items b = true) by (rewrite Hn; apply orb_true_r).
  destruct (readable_groups all r md2 Hr) as (_ & R1 & R2 & R3 & R4).
  destruct (readable_groups all b nested2 Hn') as (_ & S1 & S2 & S3 & S4).
  destruct (agree_groups_same all r _ _ Ha) as [E1 E2], (agree_groups_same all b _ _ Hb) as [E3 E4].
  unfold merged_ok, merged_group. rewrite E1, E2, E3, E4.
  by rewrite !(agree_any all w _ md1 md2 Ha), !(agree_any all w _ nested1 nested2 Hb).
Qed.

Lemma existsb_ext_in {A} (f g : A -> bool) l : Forall (fun x => f x = g x) l -> existsb f l = existsb g l.
Proof. induction 1 as [|x l Hx _ IH]; [done|]. cbn. by rewrite Hx, IH. Qed.
Lemma forallb_ext_in {A} (f g : A -> bool) l : Forall (fun x => f x = g x) l -> forallb f l = forallb g l.
Proof. induction 1 as [|x l Hx _ IH]; [done|]. cbn. by rewrite Hx, IH. Qed.

Lemma mergeable_neutral rules b :
  forallb headless_rule rules = true -> mergeableRuleIn rules = Some b -> neutral_items b = true.
Proof.
  destruct rules as [|[[| |] [it rs inv]|] [|? ?]]; try discriminate; cbn;
    destruct rs, inv; try discriminate; intros H [= <-]; to_prop; done.
Qed.

(** ** Headless rules *)

Definition same_match (all : bool) w (r : Rule) : Prop :=
  forall md1 md2, agree all md1 md2 -> (rule_Match w r md1).1 = (rule_Match w r md2).1.

Lemma agree_ruleSet_Match all w s md1 md2 :
  (let '(MkRuleSet rules _) := s in Forall (same_match all w) rules) -> agree all md1 md2 ->
  ruleSet_Match w s md1 = ruleSet_Match w s md2.
Proof.
  destruct s as [rules c]. intros Hs Ha. cbn [ruleSet_Match]. apply existsb_ext_in.
  eapply Forall_impl; [done|]. cbv beta. intros r Hr. apply Hr. by apply agree_ResetRuleMatchCache.
Qed.

Lemma agree_doc_rule_set all w r s md1 md2 nested1 nested2 :
  (let '(MkRuleSet rules _) := s in Forall (same_match all w) rules) -> headless_set s = true ->
  agree all md1 md2 -> all || neutral_items r = true -> agree all nested1 nested2 ->
  doc_rule_set w r md1 nested1 s = doc_rule_set w r md2 nested2 s.
Proof.
  intros Hs Hh Ha Hr Hn. destruct s as [rules c]. unfold doc_rule_set.
  destruct (mergeableRuleIn rules) as [b|] eqn:Hm.
  - pose proof (mergeable_neutral _ _ Hh Hm) as Hb.
    rewrite (agree_merged_ok all w r b md1 md2 nested1 nested2) by done.
    rewrite (agree_fields all w b nested1 nested2 Hn); [done|].
    eapply (readable_groups all b md1). by rewrite Hb, orb_true_r.
  - rewrite (agree_groups_ok all w r md1 md2) by done. f_equal. by eapply agree_ruleSet_Match.
Qed.

Lemma agree_default all w it rs invert md1 md2 :
  (forall tags sets src acc, rs = Some (MkRuleSetItem tags sets src acc) ->
     Forall (fun s => let '(MkRuleSet rules _) := s in Forall (same_match all w) rules) sets) ->
  headless_sets rs = true -> all || neutral_items it = true -> agree all md1 md2 ->
  (abstractDefault_Match w (MkDefault it rs invert) md1).1 = (abstractDefault_Match w (MkDefault it rs invert) md2).1.
Proof.
  intros Hs Hh Hn Ha. rewrite !abstractDefault_Match_eq. destruct (negb (nonempty (allItems it))); [done|]. cbn [fst].
  destruct (agree_flags _ _ _ Ha) as (E1 & E2 & E3), (agree_groups_same all it _ _ Ha) as [E4 E5].
  f_equal; [unfold deferred_invert, evaluated; by rewrite E1, E3, E4, E5|].
  unfold doc_inner. destruct (readable_groups all it md1 Hn) as (Hi & _).
  rewrite (agree_fields all w it md1 md2 Ha Hi). f_equal.
  destruct rs as [[tags sets src acc]|]; [|by apply (agree_groups_ok all)].
  apply existsb_ext_in. cbn in Hh.
  specialize (Hs _ _ _ _ eq_refl). clear -Hs Hh Hn Ha. induction Hs as [|s sets Hs _ IH]; [constructor|].
  cbn in Hh. to_prop. constructor; [|auto].
  eapply agree_doc_rule_set; eauto using agree_nestedMetadata.
Qed.

Lemma same_match_headless all w r : headless_rule r = true -> same_match all w r.
Proof.
  induction r as [kind it rs invert IH|kind rules mode invert IH] using Rule_nested_ind; intros Hh md1 md2 Ha.
  - destruct kind; try discriminate. destruct rs; [discriminate|]. cbn [rule_Match headless_rule] in *.
    apply (agree_default all); [done|done|by rewrite Hh, orb_true_r|done].
  - destruct kind; try discriminate. cbn [rule_Match fst abstractLogical_Match headless_rule] in *.
    assert (Hf : Forall (fun r => (rule_Match w r (ResetRuleCache md1)).1 = (rule_Match w r (ResetRuleCache md2)).1) rules).
    { induction IH as [|r rules Hr _ IHr]; [constructor|]. cbn in Hh. to_prop. constructor; [|auto].
      apply Hr; [done|]. by apply agree_ResetRuleCache. }
    by rewrite (existsb_ext_in _ _ _ Hf), (forallb_ext_in _ _ _ Hf).
Qed.

Lemma same_match_sets all w rs : headless_sets rs = true ->
  forall tags sets src acc, rs = Some (MkRuleSetItem tags sets src acc) ->
    Forall (fun s => let '(MkRuleSet rules _) := s in Forall (same_match all w) rules) sets.
Proof.
  intros Hh tags sets src acc ->. cbn in Hh. induction sets as [|[rules c] sets IH]; [constructor|].
  cbn in Hh. to_prop. constructor; [|auto]. clear -H. induction rules as [|r rules IH]; [constructor|].
  cbn in H. to_prop. constructor; [by apply same_match_headless|auto].
Qed.

(** ** DNS rules *)

(** The metadata agree on the responses that [r] binds, and in the rest. *)
Definition agree_on (r : Rule) md1 md2 : Prop :=
  forget md1 = forget md2
  /\ md_DestinationAddressMatchFromResponse md1 = false /\ md_DestinationAddressMatchFromResponse md2 = false
  /\ (MatchResponseAnonymous r = true -> md_DNSResponse md1 = md_DNSResponse md2)
  /\ (forall t, t ∈ MatchResponseTags r ->
        default None (md_NamedDNSResponses md1 !! t) = default None (md_NamedDNSResponses md2 !! t)).

Lemma rule_Match_agree w r md1 md2 :
  bound_rule r = true -> agree_on r md1 md2 -> (rule_Match w r md1).1 = (rule_Match w r md2).1.
Proof.
  revert md1 md2.
  induction r as [kind it rs invert _|kind rules mode invert IH] using Rule_nested_ind;
    intros md1 md2 Hb (Hf & D1 & D2 & Ha & Ht); destruct kind; try discriminate; cbn [bound_rule] in Hb.
  - to_prop. rename H into Hs. destruct matchResponse; cbn [rule_Match orb] in *.
    + set (r1 := if bool_decide (matchResponseTag = "") then _ else _).
      set (r2 := if bool_decide (matchResponseTag = "") then _ else _).
      assert (Hr : r1 = r2).
      { unfold r1, r2. cbn in Ha, Ht. case_bool_decide as Hd; [by apply Ha|]. apply Ht. set_solver. }
      rewrite Hr. destruct r2 as [m|]; [|done]. cbn [fst].
      apply (agree_default true); [by apply same_match_sets|done|done|].
      split; [exact (f_equal (fun md => forget (set_response md None)) Hf)|done].
    + to_prop. apply (agree_default false); [by apply same_match_sets|done|done|].
      split; [done|]. by rewrite D1, D2.
  - cbn [rule_Match fst abstractLogical_Match].
    assert (HF : Forall (fun r => (rule_Match w r (ResetRuleCache md1)).1 = (rule_Match w r (ResetRuleCache md2)).1) rules).
    { cbn in Ha, Ht. clear -Hf D1 D2 Ha Ht Hb IH. induction IH as [|r rules Hr _ IHr]; [constructor|].
      cbn in Hb. to_prop. constructor; [|auto]. apply Hr; [done|].
      split; [exact (f_equal ResetRuleCache Hf)|]. split; [done|]. split; [done|]. split.
      - intros Hra. apply Ha. rewrite Hra in *. by destruct matchResponseAnonymous.
      - intros t Htr. apply Ht. cbn. match goal with H : forallb (fun t => bool_decide _) _ = true |- _ => rename H into HT end.
        apply forallb_forall with (x := t) in HT; [by to_prop|]. by apply list_elem_of_In. }
    by rewrite (existsb_ext_in _ _ _ HF), (forallb_ext_in _ _ _ HF).
Qed.
End RuleSpecs.

(** * The rule walk against a sequential reference

    [ref_walk] goes through the rules one by one, with the reply of every query at
    hand: no futures, no waiting.  It gives the results of the race rules that match
    and the result the other rules lead to.  The theorem [dns_walk_follows_rules] says
    that the walker of DnsWalk ends with one of them, for every order in which the
    replies arrive.  [rules_ok] is what the DNS router checks of its rules (DnsModeSpec). *)

Section Reference.
Context {X : External}.
Variable w : World.
Variable tm : DNSTransportManager.
Variable defaultDomainStrategy : Z.
Variable message : Msg.
Variable allowFakeIP : bool.
Variable answer : nat -> DNSTransport -> DNSQueryOptions -> option Msg * option error.
Variable md0 : InboundContext.

(** ** The reference *)

(** Options, the response to match and to respond with, tagged responses; each with
    the server it came from. *)
Record ref_state := MkRef {
  rf_options : DNSQueryOptions;
  rf_anonymous : option (option Msg * DNSTransport);
  rf_named : gmap string (option Msg * DNSTransport)
}.

(** The result as [Exchange] and [Lookup] see it: no response beside an error. *)
Definition norm (r : exchangeWithRulesResult) : exchangeWithRulesResult :=
  match er_err r with
  | Some _ => MkExchangeResult None (er_transport r) (er_rejectAction r) (er_err r)
  | None => r
  end.

Definition reply_view (r : option Msg * option error) : option Msg :=
  match r with (response, None) => response | _ => None end.

Definition the_reply (i : nat) (transport : DNSTransport) (options : DNSQueryOptions) : option Msg * option error :=
  answer i transport (finalizeExchangeOptions defaultDomainStrategy options).
Definition query_result (i : nat) (transport : DNSTransport) (options : DNSQueryOptions) : exchangeWithRulesResult :=
  let r := the_reply i transport options in norm (MkExchangeResult r.1 (Some transport) None r.2).

Definition rf_response (rs : ref_state) : option Msg := match rf_anonymous rs with Some p => p.1 | None => None end.

Definition ref_matches (rs : ref_state) (rule : DNSRule) : bool :=
  (rule_Match w (dns_Rule rule) (set_responses (ResetRuleCache md0) (rf_response rs) (fst <$> rf_named rs))).1.

Inductive ref_outcome := RNext (rs : ref_state) | RFinal (r : exchangeWithRulesResult).

Definition respond_ref (p : option (option Msg * DNSTransport)) : exchangeWithRulesResult :=
  match p with Some (response, transport) => respond_with response (Some transport) | None => respond_with None None end.

(** What a matching rule does. *)
Definition ref_action (i : nat) (rs : ref_state) (rule : DNSRule) : ref_outcome :=
  match dns_Action rule with
  | None => RNext rs
  | Some (RuleActionDNSRouteOptionsOnly options) =>
      RNext (MkRef (applyDNSRouteOptions (rf_options rs) options) (rf_anonymous rs) (rf_named rs))
  | Some (RuleActionEvaluate server tag _ options) =>
      match tm_Transport tm server with
      | None => RNext (if bool_decide (tag = "") then MkRef (rf_options rs) None (rf_named rs) else rs)
      | Some transport =>
          let p := (reply_view (the_reply i transport (applyDNSRouteOptions (rf_options rs) options)), transport) in
          RNext (if bool_decide (tag = "") then MkRef (rf_options rs) (Some p) (rf_named rs)
                 else MkRef (rf_options rs) (rf_anonymous rs) (<[tag := p]> (rf_named rs)))
      end
  | Some RuleActionRespond =>
      let tag := MatchResponseTag (dns_Rule rule) in
      RFinal (respond_ref (if negb (bool_decide (tag = "")) then rf_named rs !! tag else rf_anonymous rs))
  | Some (RuleActionDNSRoute server _ options) =>
      match resolveDNSRoute tm server options allowFakeIP (rf_options rs) with
      | inl _ | inr None => RNext rs
      | inr (Some (transport, queryOptions)) => RFinal (query_result i transport queryOptions)
      end
  | Some ((RuleActionDNSReject _ _ | RuleActionPredefined _) as action) =>
      match final_response message action with
      | Some (Ok r) => RFinal r
      | _ => RNext rs
      end
  end.

Definition ref_judge (i : nat) (rs : ref_state) (rule : DNSRule) : ref_outcome :=
  if ref_matches rs rule then ref_action i rs rule else RNext rs.

(** The results of the race rules, and the result of the others in listed order. *)
Fixpoint ref_walk (i : nat) (l : list DNSRule) (rs : ref_state) : list exchangeWithRulesResult * exchangeWithRulesResult :=
  match l with
  | [] => ([], query_result i (tm_Default tm) (rf_options rs))
  | rule :: l' =>
      match ref_judge i rs rule with
      | RNext rs' => ref_walk (S i) l' rs'
      | RFinal r =>
          if Race (dns_Rule rule) then let (races, last) := ref_walk (S i) l' rs in (r :: races, last)
          else ([], r)
      end
  end.

Definition ref_start (options : DNSQueryOptions) : ref_state := MkRef options None ∅.
End Reference.

(** ** What is known of the rules *)

Section Ok.
Context {X : External}.

Definition evaluate_tag (rule : DNSRule) : option string :=
  match dns_Action rule with
  | Some (RuleActionEvaluate _ tag _ _) => if bool_decide (tag = "") then None else Some tag
  | _ => None
  end.
Definition final_action (a : option DNSRuleAction) : bool :=
  match a with
  | Some (RuleActionEvaluate _ _ _ _) | Some (RuleActionDNSRouteOptionsOnly _) => false
  | _ => true
  end.
Definition is_respond (a : option DNSRuleAction) : bool :=
  match a with Some RuleActionRespond => true | _ => false end.

Record rules_ok (rules : list DNSRule) : Prop := {
  ok_bound : forall i rule, rules !! i = Some rule -> bound_rule (dns_Rule rule) = true;
  ok_race : forall i rule, rules !! i = Some rule -> Race (dns_Rule rule) = true -> final_action (dns_Action rule) = true;
  ok_respond : forall i rule, rules !! i = Some rule -> is_respond (dns_Action rule) = true ->
    MatchResponseTag (dns_Rule rule) = "" -> MatchResponseTags (dns_Rule rule) = [];
  ok_unique : forall i j ri rj t, rules !! i = Some ri -> rules !! j = Some rj ->
    evaluate_tag ri = Some t -> evaluate_tag rj = Some t -> i = j;
  ok_before : forall i j ri rj t, rules !! i = Some ri -> rules !! j = Some rj ->
    t ∈ MatchResponseTags (dns_Rule ri) -> evaluate_tag rj = Some t -> (j < i)%nat
}.

Lemma MatchResponseTag_in (r : Rule) : MatchResponseTag r <> "" -> MatchResponseTag r ∈ MatchResponseTags r.
Proof. destruct r as [[| |m tag race] d|k l]; cbn; try done. intros H. rewrite bool_decide_eq_false_2 by done. set_solver. Qed.
End Ok.
