(* ===== verification/DnsWalkSim.v ===== *)
(** * The simulation of the rule walk

    The invariant that relates the state of a walk to the state of the reference, its
    preservation by every step, and [walk_follows_ref], from which DnsModeSpec derives
    [dns_walk_follows_rules]. *)

From S2P Require Import Prelude GoStd Netip External DnsMsg RuleItems RuleMatch RuleSpec RuleOptions RuleBuild RuleAction DnsClient DnsRule DnsMode DnsWalk DnsRuleSpec.
Local Open Scope Z_scope.

Section Sim.
Context {X : External}.
Variable w : World.
Variable tm : DNSTransportManager.
Variable strategy : Z.
Variable rules : list DNSRule.
Variable message : Msg.
Variable allowFakeIP : bool.
Variable async : bool.
Variable answer : nat -> DNSTransport -> DNSQueryOptions -> option Msg * option error.
Variable ended : option error.
Variable md0 : InboundContext.
Variable options0 : DNSQueryOptions.
Hypothesis Hrules : rules_ok rules.
Hypothesis Hquestion : Questions message <> [].

Abbreviation ref_walk := (ref_walk w tm strategy message allowFakeIP answer md0).
Abbreviation ref_judge := (ref_judge w tm strategy message allowFakeIP answer md0).
Abbreviation ref_action := (ref_action tm strategy message allowFakeIP answer).
Abbreviation ref_matches := (ref_matches w md0).
Abbreviation reference := (ref_walk 0 rules (ref_start options0)).

(** ** The invariant *)

Definition reply_of (x : dnsEvaluatedFuture) : option Msg * option error := answer (f_rule x) (f_transport x) (f_options x).

(** A query that is not cancelled gets its reply. *)
Definition future_ok (x : dnsEvaluatedFuture) : Prop :=
  f_cancelled x = false /\ (f_done x = None \/ f_done x = Some (reply_of x)).

(** The future [f] stands for the response and the server [p]. *)
Definition linked (s : dnsRuleWalkState) (f : nat) (p : option Msg * DNSTransport) : Prop :=
  exists x, futures s !! f = Some x /\ p = (reply_view (reply_of x), f_transport x).
Definition linked_opt (s : dnsRuleWalkState) (f : option nat) (p : option (option Msg * DNSTransport)) : Prop :=
  match f, p with
  | Some f, Some p => linked s f p
  | None, None => True
  | _, _ => False
  end.

Definition future_settled (s : dnsRuleWalkState) (f : nat) : bool :=
  match futures s !! f with Some x => f_settled x | None => false end.

(** Every tagged reply that arrived was taken up. *)
Definition all_settled (s : dnsRuleWalkState) : Prop :=
  forall f x, futures s !! f = Some x -> f_tag x <> "" -> resolved x = true -> f_settled x = true.

Record state_ok (s : dnsRuleWalkState) (rs : ref_state) : Prop := {
  so_options : effectiveOptions s = rf_options rs;
  so_anonymous : linked_opt s (anonymousFuture s) (rf_anonymous rs);
  so_named : forall t, linked_opt s (namedFutures s !! t) (rf_named rs !! t);
  so_futures : forall f x, futures s !! f = Some x -> future_ok x;
  so_tagged : forall f x, futures s !! f = Some x -> f_tag x <> "" -> namedFutures s !! f_tag x = Some f;
  so_tag : forall t f, namedFutures s !! t = Some f -> t <> "" /\ exists x, futures s !! f = Some x /\ f_tag x = t;
  so_settled : forall f x, futures s !! f = Some x -> f_tag x <> "" ->
    if f_settled x
    then resolved x = true /\ namedResponses s !! f_tag x = Some (reply_view (reply_of x))
         /\ namedTransports s !! f_tag x = Some (f_transport x)
    else namedResponses s !! f_tag x = None /\ namedTransports s !! f_tag x = None;
  so_unnamed : forall t, namedFutures s !! t = None -> namedResponses s !! t = None /\ namedTransports s !! t = None;
  so_evaluated : forall t, is_Some (namedFutures s !! t) ->
    exists j rule, rules !! j = Some rule /\ evaluate_tag rule = Some t /\ (j < ruleIndex s)%nat;
  so_terminal : forall f, terminalFuture s = Some f -> (terminalIndex s <= ruleIndex s)%nat /\
    (terminalIndex s = ruleIndex s ->
     exists x rule server speculative options queryOptions,
       futures s !! f = Some x /\ f_rule x = terminalIndex s /\ rules !! terminalIndex s = Some rule
       /\ dns_Action rule = Some (RuleActionDNSRoute server speculative options)
       /\ resolveDNSRoute tm server options allowFakeIP (effectiveOptions s) = inr (Some (f_transport x, queryOptions))
       /\ f_options x = finalizeExchangeOptions strategy queryOptions)
}.

(** The result an armed rule has in the reference, if any. *)
Definition final_of (a : dnsArmedRule) (rs : ref_state) : option exchangeWithRulesResult :=
  match ref_judge (ar_ruleIndex a) rs (ar_rule a) with RFinal r => Some r | RNext _ => None end.

Record armed_ok (s : dnsRuleWalkState) (a : dnsArmedRule) (o : option exchangeWithRulesResult) (rs : ref_state) : Prop := {
  ao_rule : rules !! ar_ruleIndex a = Some (ar_rule a);
  ao_index : (ar_ruleIndex a < ruleIndex s)%nat;
  ao_race : Race (dns_Rule (ar_rule a)) = true;
  ao_options : ar_options a = rf_options rs;
  ao_binds : ar_bindsAnonymous a = MatchResponseAnonymous (dns_Rule (ar_rule a));
  ao_named : forall t, t ∈ MatchResponseTags (dns_Rule (ar_rule a)) -> linked_opt s (namedFutures s !! t) (rf_named rs !! t);
  ao_named_ready : forall t f, t ∈ MatchResponseTags (dns_Rule (ar_rule a)) -> namedFutures s !! t = Some f ->
    f ∈ ar_futures a \/ future_settled s f = true;
  ao_anonymous : ar_bindsAnonymous a = true -> linked_opt s (ar_anonymousFuture a) (rf_anonymous rs);
  ao_anonymous_ready : forall f, ar_anonymousFuture a = Some f -> f ∈ ar_futures a \/ future_resolved s f = true;
  ao_untagged : MatchResponseTags (dns_Rule (ar_rule a)) = [] ->
    ar_bindsAnonymous a = true /\ is_Some (ar_anonymousFuture a);
  ao_final : o = final_of a rs
}.

(** The state with what is left of the reference: the results of the armed rules, then
    those of the rules ahead. *)
Definition sim (s : dnsRuleWalkState) (rs : ref_state) (finals : list (option exchangeWithRulesResult)) : Prop :=
  state_ok s rs
  /\ Forall2 (fun a o => exists rs_a, armed_ok s a o rs_a) (armedRules s) finals
  /\ reference = (omap id finals ++ (ref_walk (ruleIndex s) (drop (ruleIndex s) rules) rs).1,
                  (ref_walk (ruleIndex s) (drop (ruleIndex s) rules) rs).2).

(** A result the reference allows. *)
Definition allowed (r : exchangeWithRulesResult) : Prop :=
  norm r ∈ reference.1 \/ (reference.1 = [] /\ norm r = reference.2).

Definition pending_result (p : dnsPendingExchange) : exchangeWithRulesResult :=
  let r := answer (pe_rule p) (pe_transport p) (finalizeExchangeOptions strategy (pe_options p)) in
  MkExchangeResult r.1 (Some (pe_transport p)) None r.2.

(** The pending exchange leads to an allowed result; its future, if it has one, is the
    query it stands for. *)
Definition pending_ok (p : dnsPendingExchange) (s : dnsRuleWalkState) : Prop :=
  allowed (pending_result p)
  /\ forall f, pe_future p = Some f -> exists x, futures s !! f = Some x /\ future_ok x
       /\ f_rule x = pe_rule p /\ f_transport x = pe_transport p
       /\ f_options x = finalizeExchangeOptions strategy (pe_options p).

Definition suspension_ok (sp : dnsWalkSuspension) (s : dnsRuleWalkState) : Prop :=
  match sp with SPending p => armedRules s = [] /\ pending_ok p s | _ => True end.

(** The responses a rule binds are there. *)
Definition ready (s : dnsRuleWalkState) (r : Rule) : Prop :=
  (forall t f, t ∈ MatchResponseTags r -> namedFutures s !! t = Some f -> future_settled s f = true)
  /\ (MatchResponseAnonymous r = true -> forall f, anonymousFuture s = Some f -> future_resolved s f = true).

Definition phase_ok (p : walk_phase) (s : dnsRuleWalkState) : Prop :=
  match p with
  | PWalk => True
  | PBind => all_settled s /\ exists rule, rules !! ruleIndex s = Some rule /\ hasBindings (dns_Rule rule) = true
  | PJudge => exists rule, rules !! ruleIndex s = Some rule /\ ready s (dns_Rule rule)
  | PSettle sp | PCheck sp | PWait sp => suspension_ok sp s
  | PSweep sp _ => all_settled s /\ suspension_ok sp s
  | _ => False
  end.

Definition same_metadata (md : InboundContext) : Prop := forget (ResetRuleCache md) = forget (ResetRuleCache md0).

Definition inv (k : walker) : Prop :=
  match wk_phase k with
  | PDone r => allowed r \/ exists e, ended = Some e /\ r = failed e
  | PPending p => pending_ok p (wk_state k)
  | PPanic _ => False
  | p => phase_ok p (wk_state k) /\ same_metadata (wk_metadata k) /\ exists rs finals, sim (wk_state k) rs finals
  end.

(** ** Changes of the state that keep the relation *)

(** [s'] has the futures of [s], some of them further along. *)
Definition advances (s s' : dnsRuleWalkState) : Prop :=
  forall f x, futures s !! f = Some x -> exists x', futures s' !! f = Some x'
    /\ f_tag x' = f_tag x /\ f_transport x' = f_transport x /\ f_options x' = f_options x /\ f_rule x' = f_rule x
    /\ (resolved x = true -> resolved x' = true) /\ (f_settled x = true -> f_settled x' = true).

Lemma advances_refl s s' : futures s' = futures s -> advances s s'.
Proof. intros E f x Hx. rewrite E. exists x. done. Qed.

Lemma advances_linked s s' f p : advances s s' -> linked s f p -> linked s' f p.
Proof.
  intros Ha (x & Hx & ->). destruct (Ha f x Hx) as (x' & Hx' & _ & E1 & E2 & E3 & _). exists x'. split; [done|].
  unfold reply_of. by rewrite E1, E2, E3.
Qed.
Lemma advances_linked_opt s s' f p : advances s s' -> linked_opt s f p -> linked_opt s' f p.
Proof. intros Ha. destruct f, p; cbn; eauto using advances_linked. Qed.
Lemma advances_resolved s s' f : advances s s' -> future_resolved s f = true -> future_resolved s' f = true.
Proof.
  intros Ha. unfold future_resolved. destruct (futures s !! f) as [x|] eqn:Hx; [|done].
  destruct (Ha f x Hx) as (x' & -> & _ & _ & _ & _ & H & _). done.
Qed.
Lemma advances_settled s s' f : advances s s' -> future_settled s f = true -> future_settled s' f = true.
Proof.
  intros Ha. unfold future_settled. destruct (futures s !! f) as [x|] eqn:Hx; [|done].
  destruct (Ha f x Hx) as (x' & -> & _ & _ & _ & _ & _ & H). done.
Qed.

Lemma armed_ok_advances s s' a o rs :
  advances s s' -> (ruleIndex s <= ruleIndex s')%nat ->
  (forall t, t ∈ MatchResponseTags (dns_Rule (ar_rule a)) -> namedFutures s' !! t = namedFutures s !! t) ->
  armed_ok s a o rs -> armed_ok s' a o rs.
Proof.
  intros Ha Hi Hn [H1 H2 H3 H4 H5 H6 H7 H8 H9 H10 H11]. split; try done; try lia.
  - intros t Ht. rewrite Hn by done. eauto using advances_linked_opt.
  - intros t f Ht. rewrite Hn by done. intros Hf. destruct (H7 t f Ht Hf); eauto using advances_settled.
  - eauto using advances_linked_opt.
  - intros f Hf. destruct (H9 f Hf); eauto using advances_resolved.
Qed.

Lemma ready_advances s s' r :
  advances s s' -> namedFutures s' = namedFutures s -> anonymousFuture s' = anonymousFuture s -> ready s r -> ready s' r.
Proof.
  intros Ha E1 E2 [H1 H2]. split.
  - intros t f Ht. rewrite E1. intros Hf. eapply advances_settled; eauto.
  - intros Hr f. rewrite E2. intros Hf. eapply advances_resolved; eauto.
Qed.

Lemma armed_list s s' l finals :
  advances s s' -> (ruleIndex s <= ruleIndex s')%nat ->
  (forall a t, a ∈ l -> t ∈ MatchResponseTags (dns_Rule (ar_rule a)) ->
     rules !! ar_ruleIndex a = Some (ar_rule a) -> (ar_ruleIndex a < ruleIndex s)%nat ->
     namedFutures s' !! t = namedFutures s !! t) ->
  Forall2 (fun a o => exists rs_a, armed_ok s a o rs_a) l finals ->
  Forall2 (fun a o => exists rs_a, armed_ok s' a o rs_a) l finals.
Proof.
  intros Ha Hi Hn Hf. apply Forall2_same_length_lookup_2; [by eapply Forall2_length|].
  intros i a o Ea Eo. destruct (Forall2_lookup_lr _ _ _ _ _ _ Hf Ea Eo) as [rs_a Hok]. exists rs_a.
  eapply armed_ok_advances; eauto. intros t Ht. eapply Hn; eauto using list_elem_of_lookup_2, ao_rule, ao_index.
Qed.

Lemma sim_armed s s' finals :
  advances s s' -> (ruleIndex s <= ruleIndex s')%nat -> armedRules s' = armedRules s ->
  (forall a t, a ∈ armedRules s -> t ∈ MatchResponseTags (dns_Rule (ar_rule a)) ->
     rules !! ar_ruleIndex a = Some (ar_rule a) -> (ar_ruleIndex a < ruleIndex s)%nat ->
     namedFutures s' !! t = namedFutures s !! t) ->
  Forall2 (fun a o => exists rs_a, armed_ok s a o rs_a) (armedRules s) finals ->
  Forall2 (fun a o => exists rs_a, armed_ok s' a o rs_a) (armedRules s') finals.
Proof. intros Ha Hi -> Hn Hf. by eapply armed_list. Qed.

(** *** A reply arrives *)

Lemma deliver_lookup r f s g :
  futures (deliver r f s) !! g
  = if bool_decide (g = f)
    then (fun x => MkFuture (f_tag x) (f_terminal x) (f_transport x) (f_options x) (f_rule x) (Some r) (f_settled x)
                     (f_cancelled x)) <$> futures s !! f
    else futures s !! g.
Proof.
  unfold deliver. cbn. case_bool_decide; subst.
  - by rewrite list_lookup_alter_eq.
  - by rewrite list_lookup_alter_ne.
Qed.

Lemma advances_deliver r f s : advances s (deliver r f s).
Proof.
  intros g x Hx. rewrite deliver_lookup. case_bool_decide; subst; [rewrite Hx|]; eexists; split; try done.
Qed.

(** The futures change in their replies only. *)
Lemma state_ok_replies s s' rs :
  ruleIndex s' = ruleIndex s -> effectiveOptions s' = effectiveOptions s -> anonymousFuture s' = anonymousFuture s ->
  namedFutures s' = namedFutures s -> namedResponses s' = namedResponses s -> namedTransports s' = namedTransports s ->
  terminalFuture s' = terminalFuture s -> terminalIndex s' = terminalIndex s -> advances s s' ->
  (forall f x', futures s' !! f = Some x' -> future_ok x' /\ exists x, futures s !! f = Some x /\ f_tag x' = f_tag x
     /\ f_settled x' = f_settled x /\ reply_of x' = reply_of x /\ f_transport x' = f_transport x
     /\ (resolved x = true -> resolved x' = true)) ->
  state_ok s rs -> state_ok s' rs.
Proof.
  intros E1 E2 E3 E4 E5 E6 E7 E8 Ha Hb [H1 H2 H3 H4 H5 H6 H7 H8 H9 H10].
  split; rewrite ?E1, ?E2, ?E3, ?E4, ?E5, ?E6, ?E7, ?E8; try done.
  - eauto using advances_linked_opt.
  - intros t. rewrite ?E4. eauto using advances_linked_opt.
  - intros f x Hx. by destruct (Hb f x Hx).
  - intros f x Hx. rewrite ?E4. destruct (Hb f x Hx) as (_ & y & Hy & -> & _). by apply H5.
  - intros t f. rewrite ?E4. intros Hf. destruct (H6 t f Hf) as (Ht & x & Hx & Hxt). split; [done|].
    destruct (Ha f x Hx) as (x' & Hx' & Et & _). exists x'. by rewrite Et.
  - intros f x Hx. rewrite ?E5, ?E6. destruct (Hb f x Hx) as (_ & y & Hy & -> & -> & -> & -> & Hr).
    intros Ht. specialize (H7 f y Hy Ht). destruct (f_settled y); [|done]. naive_solver.
  - intros f. rewrite ?E7. intros Hf. destruct (H10 f Hf) as (Hle & Hx). split; [done|]. intros Heq.
    destruct (Hx Heq) as (x & rule & server & spec & o & qo & Hl & ? & ? & ? & ? & ?).
    destruct (Ha f x Hl) as (x' & Hx' & _ & Et & Eo & Er & _).
    exists x', rule, server, spec, o, qo. rewrite Et, Eo, Er. done.
Qed.

Lemma state_ok_deliver r f x s rs :
  futures s !! f = Some x -> f_done x = None -> (f_cancelled x = false -> r = reply_of x) ->
  state_ok s rs -> state_ok (deliver r f s) rs.
Proof.
  intros Hx Hd Hr Hok. apply (state_ok_replies s); try done; [apply advances_deliver|].
  intros g y. rewrite deliver_lookup. case_bool_decide; subst.
  - rewrite Hx. cbn. intros [= <-]. destruct (so_futures _ _ Hok f x Hx) as [Hc _]. split.
    + split; [done|]. right. cbn. rewrite (Hr Hc). done.
    + exists x. split; [done|]. done.
  - intros Hy. split; [by eapply so_futures|]. exists y. done.
Qed.

Lemma sim_deliver r f x s rs finals :
  futures s !! f = Some x -> f_done x = None -> (f_cancelled x = false -> r = reply_of x) ->
  sim s rs finals -> sim (deliver r f s) rs finals.
Proof.
  intros Hx Hd Hr (H1 & H2 & H3). split; [by eapply state_ok_deliver|]. split; [|done].
  eapply (sim_armed s); eauto using advances_deliver.
Qed.

(** *** Replies are settled *)

Definition newly (x : dnsEvaluatedFuture) : bool := negb (f_settled x) && resolved x.
Definition settle1 (x : dnsEvaluatedFuture) : dnsEvaluatedFuture :=
  if newly x then MkFuture (f_tag x) (f_terminal x) (f_transport x) (f_options x) (f_rule x) (f_done x) true (f_cancelled x)
  else x.

Definition named_newly (x : dnsEvaluatedFuture) : bool := newly x && negb (bool_decide (f_tag x = "")).

Lemma settle_future_eq x done R T :
  settle_future x (done, R, T)
  = (done ++ [settle1 x], if named_newly x then <[f_tag x := view x]> R else R,
     if named_newly x then <[f_tag x := f_transport x]> T else T).
Proof.
  unfold settle_future, settle1, named_newly, newly.
  destruct (f_settled x), (resolved x); cbn; try done. by case_bool_decide.
Qed.

Lemma settle_fold l : forall done R T, exists R' T',
  fold_left (fun acc x => settle_future x acc) l (done, R, T) = (done ++ (settle1 <$> l), R', T')
  /\ forall t, (exists x, x ∈ l /\ named_newly x = true /\ f_tag x = t /\ R' !! t = Some (view x)
                       /\ T' !! t = Some (f_transport x))
             \/ ((forall x, x ∈ l -> named_newly x = true -> f_tag x <> t) /\ R' !! t = R !! t /\ T' !! t = T !! t).
Proof.
  clear Hrules Hquestion.
  induction l as [|x l IH]; intros done R T; cbn [fold_left].
  { exists R, T. split; [by rewrite app_nil_r|]. intros t. right. split; [|done]. intros x Hx. set_solver. }
  rewrite settle_future_eq.
  edestruct (IH (done ++ [settle1 x])) as (R' & T' & -> & Hl). exists R', T'. split; [by rewrite <- app_assoc|].
  intros t. destruct (Hl t) as [(y & Hy & H)|(Hno & HR & HT)]; [left; exists y; set_solver|].
  destruct (named_newly x) eqn:Hn; [destruct (decide (f_tag x = t)) as [<-|Hne]|].
  - left. exists x. rewrite HR, HT, !lookup_insert_eq. set_solver.
  - right. rewrite HR, HT, !lookup_insert_ne by done. split; [|done].
    intros y [->|Hy]%elem_of_cons; [done|]. by apply Hno.
  - right. split; [|done]. intros y [->|Hy]%elem_of_cons; [by rewrite Hn|]. by apply Hno.
Qed.

Lemma settle_spec s : exists R T, settleDNSFutures s = set_named (set_futures s (settle1 <$> futures s)) R T
  /\ forall t, (exists x, x ∈ futures s /\ named_newly x = true /\ f_tag x = t /\ R !! t = Some (view x)
                       /\ T !! t = Some (f_transport x))
             \/ ((forall x, x ∈ futures s -> named_newly x = true -> f_tag x <> t)
                 /\ R !! t = namedResponses s !! t /\ T !! t = namedTransports s !! t).
Proof.
  clear Hrules Hquestion.
  unfold settleDNSFutures. destruct (settle_fold (futures s) [] (namedResponses s) (namedTransports s)) as (R & T & Hf & Hl).
  rewrite Hf. exists R, T. done.
Qed.

Lemma advances_settle s : advances s (settleDNSFutures s).
Proof.
  destruct (settle_spec s) as (R & T & -> & _). intros f x Hx. cbn. rewrite list_lookup_fmap, Hx. cbn.
  exists (settle1 x). split; [done|]. unfold settle1, newly.
  destruct (f_settled x) eqn:Es, (resolved x) eqn:Er; cbn; rewrite ?Es, ?Er; done.
Qed.

Lemma all_settled_settle s : all_settled (settleDNSFutures s).
Proof.
  destruct (settle_spec s) as (R & T & -> & _). intros f x. cbn. rewrite list_lookup_fmap.
  destruct (futures s !! f) as [y|]; [|done]. cbn. intros [= <-] _. unfold settle1, newly, resolved.
  destruct (f_settled y) eqn:Es, (is_nil (f_done y)) eqn:Ed; cbn; rewrite ?Es, ?Ed; done.
Qed.

Lemma view_reply x : future_ok x -> resolved x = true -> view x = reply_view (reply_of x).
Proof.
  intros [_ [Hd|Hd]]; unfold resolved, view; rewrite Hd; [done|]. intros _. by destruct (reply_of x) as [? []].
Qed.

Lemma tagged_same s rs f g x y :
  state_ok s rs -> futures s !! f = Some x -> futures s !! g = Some y -> f_tag x <> "" -> f_tag y = f_tag x -> x = y.
Proof.
  intros Hok Hx Hy Ht E. pose proof (so_tagged _ _ Hok f x Hx Ht) as H1.
  pose proof (so_tagged _ _ Hok g y Hy ltac:(by rewrite E)) as H2. congruence.
Qed.

Lemma named_newly_iff x : named_newly x = true <-> newly x = true /\ f_tag x <> "".
Proof. unfold named_newly. rewrite andb_true_iff, negb_true_iff, bool_decide_eq_false. done. Qed.

Lemma settle1_fields x : f_tag (settle1 x) = f_tag x /\ f_transport (settle1 x) = f_transport x
  /\ f_options (settle1 x) = f_options x /\ f_rule (settle1 x) = f_rule x /\ f_done (settle1 x) = f_done x
  /\ f_cancelled (settle1 x) = f_cancelled x.
Proof. unfold settle1. by destruct (newly x). Qed.

Lemma state_ok_settle s rs : state_ok s rs -> state_ok (settleDNSFutures s) rs.
Proof.
  intros Hok. pose proof (advances_settle s) as Ha. destruct (settle_spec s) as (R & T & E & Hl). rewrite E in *. clear E.
  assert (Hb : forall f x', futures (set_named (set_futures s (settle1 <$> futures s)) R T) !! f = Some x' ->
                 exists x, futures s !! f = Some x /\ x' = settle1 x).
  { intros f x'. cbn. rewrite list_lookup_fmap. destruct (futures s !! f); [|done]. intros [= <-]. eauto. }
  split; cbn [set_named set_futures ruleIndex effectiveOptions anonymousFuture namedFutures namedResponses namedTransports
              terminalFuture terminalIndex].
  - apply Hok.
  - eapply advances_linked_opt; [exact Ha|apply Hok].
  - intros t. eapply advances_linked_opt; [exact Ha|apply Hok].
  - intros f x' Hx'. destruct (Hb f x' Hx') as (x & Hx & ->). destruct (so_futures _ _ Hok f x Hx) as [H1 H2].
    unfold future_ok, reply_of. destruct (settle1_fields x) as (_ & -> & -> & -> & -> & ->). done.
  - intros f x' Hx'. destruct (Hb f x' Hx') as (x & Hx & ->). destruct (settle1_fields x) as (-> & _). by apply Hok.
  - intros t f Hf. destruct (so_tag _ _ Hok t f Hf) as (Ht & x & Hx & Hxt). split; [done|].
    destruct (Ha f x Hx) as (x' & Hx' & Et & _). exists x'. by rewrite Et.
  - intros f x' Hx'. destruct (Hb f x' Hx') as (x & Hx & ->). destruct (settle1_fields x) as (Et & Etr & Eo & Er & Ed & _).
    unfold reply_of, resolved. rewrite Et, Etr, Eo, Er, Ed. intros Ht.
    pose proof (so_settled _ _ Hok f x Hx Ht) as Hs.
    destruct (Hl (f_tag x)) as [(y & Hy & Hn & Hyt & HR & HT)|(Hno & HR & HT)].
    + apply list_elem_of_lookup_1 in Hy as [g Hg]. pose proof (tagged_same _ _ _ _ _ _ Hok Hx Hg Ht Hyt) as <-.
      apply named_newly_iff in Hn as [Hn _]. unfold settle1. rewrite Hn. cbn.
      unfold newly in Hn. to_prop. rewrite HR, HT. split; [done|].
      split; [|done]. f_equal. apply view_reply; [by eapply so_futures|done].
    + assert (Hn : newly x = false).
      { destruct (newly x) eqn:Hn; [|done]. exfalso. apply (Hno x); [by eapply list_elem_of_lookup_2|by apply named_newly_iff|done]. }
      unfold settle1. rewrite Hn, HR, HT. done.
  - intros t Hn. destruct (Hl t) as [(y & Hy & Hn' & Hyt & HR & HT)|(Hno & -> & ->)]; [|by apply Hok].
    apply list_elem_of_lookup_1 in Hy as [g Hg]. apply named_newly_iff in Hn' as [_ Ht].
    pose proof (so_tagged _ _ Hok g y Hg Ht). congruence.
  - apply Hok.
  - intros f Hf. destruct (so_terminal _ _ Hok f Hf) as (Hle & Hx). split; [done|]. intros Heq.
    destruct (Hx Heq) as (x & rule & server & spec & o & qo & Hxl & ? & ? & ? & ? & ?).
    destruct (Ha f x Hxl) as (x' & Hx' & _ & Et & Eo & Er & _).
    exists x', rule, server, spec, o, qo. rewrite Et, Eo, Er. done.
Qed.

Lemma settle_same s : armedRules (settleDNSFutures s) = armedRules s /\ ruleIndex (settleDNSFutures s) = ruleIndex s
  /\ namedFutures (settleDNSFutures s) = namedFutures s /\ anonymousFuture (settleDNSFutures s) = anonymousFuture s.
Proof. by destruct (settle_spec s) as (R & T & -> & _). Qed.

Lemma sim_settle s rs finals : sim s rs finals -> sim (settleDNSFutures s) rs finals.
Proof.
  intros (H1 & H2 & H3). destruct (settle_same s) as (Ea & Ei & En & _). split; [by apply state_ok_settle|]. split.
  - apply (sim_armed s); [apply advances_settle|lia|done|by rewrite En|done].
  - by rewrite Ei.
Qed.

(** *** Matching *)

Lemma match_same md resp named rs rule :
  same_metadata md -> bound_rule (dns_Rule rule) = true ->
  (MatchResponseAnonymous (dns_Rule rule) = true -> resp = rf_response rs) ->
  (forall t, t ∈ MatchResponseTags (dns_Rule rule) ->
     default None (named !! t) = match rf_named rs !! t with Some p => p.1 | None => None end) ->
  (rule_Match w (dns_Rule rule) (set_responses (ResetRuleCache md) resp named)).1 = ref_matches rs rule.
Proof.
  intros Hm Hb Hr Hn. apply rule_Match_agree; [done|]. split; [exact Hm|]. split; [done|]. split; [done|].
  split; [done|]. intros t Ht. cbn. rewrite lookup_fmap, Hn by done. by destruct (rf_named rs !! t).
Qed.

Lemma same_metadata_match md resp named rule :
  same_metadata md ->
  same_metadata (rule_Match w (dns_Rule rule) (set_responses (ResetRuleCache md) resp named)).2.
Proof.
  intros Hm. destruct (rule_Match_DidMatch w (dns_Rule rule) (set_responses (ResetRuleCache md) resp named)) as (x & -> & _).
  exact Hm.
Qed.

(** The responses of bound and settled futures are those of the reference. *)
Lemma named_same s rs t :
  state_ok s rs -> (forall f, namedFutures s !! t = Some f -> future_settled s f = true) ->
  forall p, linked_opt s (namedFutures s !! t) p ->
  default None (namedResponses s !! t) = match p with Some p => p.1 | None => None end
  /\ namedTransports s !! t = match p with Some p => Some p.2 | None => None end.
Proof.
  intros Hok Hs p Hp. destruct (namedFutures s !! t) as [f|] eqn:Hf.
  - destruct p as [p|]; [|done]. destruct Hp as (x & Hx & ->). specialize (Hs f eq_refl).
    unfold future_settled in Hs. rewrite Hx in Hs. destruct (so_tag _ _ Hok t f Hf) as (Ht & x' & Hx' & Hxt).
    assert (x' = x) as -> by congruence. pose proof (so_settled _ _ Hok f x Hx ltac:(by rewrite Hxt)) as Hset.
    rewrite Hs, Hxt in Hset. destruct Hset as (_ & -> & ->). done.
  - destruct p; [done|]. by destruct (so_unnamed _ _ Hok t Hf) as [-> ->].
Qed.

Lemma view_linked s rs f p : state_ok s rs -> linked s f p -> future_resolved s f = true ->
  future_view s f = p.1 /\ future_transport s f = Some p.2.
Proof.
  intros Hok (x & Hx & ->). unfold future_resolved, future_view, future_transport. rewrite Hx. intros Hr.
  split; [|done]. cbn. apply view_reply; [by eapply so_futures|done].
Qed.

Lemma anonymous_same s rs : state_ok s rs ->
  (forall f, anonymousFuture s = Some f -> future_resolved s f = true) -> anonymousResponse s = rf_response rs.
Proof.
  intros Hok Hr. pose proof (so_anonymous _ _ Hok) as Ha. unfold anonymousResponse, rf_response.
  destruct (anonymousFuture s) as [f|], (rf_anonymous rs) as [p|]; try done.
  by destruct (view_linked s rs f p Hok Ha (Hr f eq_refl)).
Qed.

Lemma walk_match s rs md rule i :
  state_ok s rs -> same_metadata md -> rules !! i = Some rule -> ready s (dns_Rule rule) ->
  (rule_Match w (dns_Rule rule) (set_responses (ResetRuleCache md) (anonymousResponse s) (namedResponses s))).1
  = ref_matches rs rule.
Proof.
  intros Hok Hm Hr [Hn Ha]. apply match_same; [done|by eapply ok_bound| |].
  - intros H. apply anonymous_same; eauto.
  - intros t Ht. eapply named_same; [done|intros f; by apply Hn|apply Hok].
Qed.

(** ** The reference at the rule of the walk *)

Lemma ref_walk_at k rule rs : rules !! k = Some rule ->
  ref_walk k (drop k rules) rs
  = match ref_judge k rs rule with
    | RNext rs' => ref_walk (S k) (drop (S k) rules) rs'
    | RFinal r =>
        if Race (dns_Rule rule) then let (races, last) := ref_walk (S k) (drop (S k) rules) rs in (r :: races, last)
        else ([], r)
    end.
Proof. intros H. rewrite (drop_S _ _ _ H). done. Qed.

(** On to the next rule. *)
Lemma sim_next s s1 rs rs' finals rule :
  sim s rs finals -> rules !! ruleIndex s = Some rule -> ref_judge (ruleIndex s) rs rule = RNext rs' ->
  ruleIndex s1 = ruleIndex s -> advances s s1 -> armedRules s1 = armedRules s ->
  (forall t, evaluate_tag rule <> Some t -> namedFutures s1 !! t = namedFutures s !! t) ->
  state_ok (next_rule s1) rs' -> sim (next_rule s1) rs' finals.
Proof.
  intros (H1 & H2 & H3) Hr Hj Ei Ha Er Hn Hok. split; [done|]. split.
  - apply (sim_armed s); [exact Ha|cbn; lia|exact Er| |done].
    intros a t _ Ht Hra Hlt. apply Hn. intros He.
    pose proof (ok_before _ Hrules _ _ _ _ _ Hra Hr Ht He). lia.
  - cbn [next_rule ruleIndex]. rewrite H3, (ref_walk_at _ _ _ Hr), Hj, Ei. done.
Qed.

Lemma state_ok_next s rs : state_ok s rs -> state_ok (next_rule s) rs.
Proof.
  intros [H1 H2 H3 H4 H5 H6 H7 H8 H9 H10]. split; try done; cbn.
  - intros t Ht. destruct (H9 t Ht) as (j & rule & ? & ? & ?). exists j, rule. repeat split; auto.
  - intros f Hf. destruct (H10 f Hf) as (Hle & _). split; [lia|]. intros E. lia.
Qed.

Lemma state_ok_armed s rs l : state_ok s rs -> state_ok (set_armedRules s l) rs.
Proof. intros [H1 H2 H3 H4 H5 H6 H7 H8 H9 H10]. by split. Qed.

(** With no armed rule left the action of a matching rule is allowed. *)
Lemma no_finals s finals : Forall2 (fun a o => exists rs_a, armed_ok s a o rs_a) (armedRules s) finals ->
  armedRules s = [] -> finals = [].
Proof. intros H E. rewrite E in H. by inversion H. Qed.

Lemma final_allowed s rs finals rule r :
  sim s rs finals -> armedRules s = [] -> rules !! ruleIndex s = Some rule ->
  ref_judge (ruleIndex s) rs rule = RFinal (norm r) -> allowed r.
Proof.
  intros (_ & H2 & H3) Hn Hr Hj. rewrite (no_finals _ _ H2 Hn), (ref_walk_at _ _ _ Hr), Hj in H3. cbn in H3.
  unfold allowed. rewrite H3. destruct (Race (dns_Rule rule)); [|by right].
  destruct (ref_walk (S _) _ _) as [races last]. left. cbn. left.
Qed.

Lemma default_allowed s rs finals :
  sim s rs finals -> armedRules s = [] -> rules !! ruleIndex s = None ->
  allowed (pending_result (MkPending (tm_Default tm) (effectiveOptions s) None (ruleIndex s))).
Proof.
  intros (H1 & H2 & H3) Hn Hr. rewrite (no_finals _ _ H2 Hn) in H3. apply lookup_ge_None_1 in Hr.
  rewrite drop_ge in H3 by done. unfold allowed. rewrite H3. right. split; [done|].
  rewrite (so_options _ _ H1). done.
Qed.

Lemma norm_respond_with a b : norm (respond_with a b) = respond_with a b.
Proof. by destruct a. Qed.

Lemma final_response_ok a o : final_response message a = Some o -> exists r, o = Ok r /\ norm r = r.
Proof.
  unfold final_response, dnsRefusedResponse, Predefined_Response. destruct (Questions message) as [|q l]; [done|].
  destruct a; try done.
  - case_bool_decide; [intros [= <-]; eexists; done|]. case_bool_decide; [|done]. intros [= <-]. eexists; done.
  - intros [= <-]. eexists; done.
Qed.

(** *** A query is sent *)

Definition new_future (s : dnsRuleWalkState) (tag : string) (terminal : bool) (transport : DNSTransport)
    (options : DNSQueryOptions) : dnsEvaluatedFuture :=
  MkFuture tag terminal transport (finalizeExchangeOptions strategy options) (ruleIndex s) None false false.
Definition append_future (s : dnsRuleWalkState) (x : dnsEvaluatedFuture) (wk : option bool) : dnsRuleWalkState :=
  set_wake (set_futures s (futures s ++ [x])) wk.

Lemma launch_eq s tag terminal transport options : exists wk,
  launchDNSEvaluate strategy s tag terminal transport options
  = (length (futures s), append_future s (new_future s tag terminal transport options) wk).
Proof. unfold launchDNSEvaluate. destruct (wake s); eexists; reflexivity. Qed.

Lemma advances_append s s1 x : futures s1 = futures s ++ [x] -> advances s s1.
Proof.
  intros E f y Hy. exists y. rewrite E, lookup_app_l by (eapply lookup_lt_Some; done). done.
Qed.

Lemma linked_new s s1 x : futures s1 = futures s ++ [x] ->
  linked s1 (length (futures s)) (reply_view (reply_of x), f_transport x).
Proof. intros E. exists x. rewrite E. by rewrite list_lookup_middle. Qed.

(** The new query carries no tag. *)
Lemma state_ok_append s rs x wk :
  state_ok s rs -> f_done x = None -> f_cancelled x = false -> f_tag x = "" -> state_ok (append_future s x wk) rs.
Proof.
  intros Hok Hd Hc Ht. pose proof (advances_append s (append_future s x wk) x eq_refl) as Ha.
  assert (Hb : forall f y, futures (append_future s x wk) !! f = Some y -> futures s !! f = Some y \/ y = x).
  { intros f y Hy. cbn in Hy. apply lookup_snoc_Some in Hy as [[_ Hy]|[_ <-]]; auto. }
  destruct Hok as [H1 H2 H3 H4 H5 H6 H7 H8 H9 H10]. split; try done.
  - eapply advances_linked_opt; eauto.
  - intros t. eapply advances_linked_opt; [exact Ha|apply H3].
  - intros f y Hy. destruct (Hb f y Hy) as [?| ->]; [by eapply H4|]. split; [done|by left].
  - intros f y Hy Hty. destruct (Hb f y Hy) as [?| ->]; [by eapply H5|done].
  - intros t f Hf. destruct (H6 t f Hf) as (Hne & y & Hy & Hyt). split; [done|].
    destruct (Ha f y Hy) as (y' & Hy' & Et & _). exists y'. by rewrite Et.
  - intros f y Hy Hty. destruct (Hb f y Hy) as [?| ->]; [by eapply H7|done].
  - intros f Hf. destruct (H10 f Hf) as (Hle & Hx). split; [done|]. intros E.
    destruct (Hx E) as (y & rule & server & spec & o & qo & Hyl & ? & ? & ? & ? & ?).
    destruct (Ha f y Hyl) as (y' & Hy' & _ & Et & Eo & Er & _).
    exists y', rule, server, spec, o, qo. rewrite Et, Eo, Er. done.
Qed.

(** A response without a tag. *)
Lemma state_ok_anonymous s rs f p :
  state_ok s rs -> linked_opt s f p ->
  state_ok (next_rule (set_anonymousFuture s f)) (MkRef (rf_options rs) p (rf_named rs)).
Proof. intros [H1 H2 H3 H4 H5 H6 H7 H8 H9 H10]%state_ok_next Hl. by split. Qed.

(** The new query carries the tag of its rule. *)
Lemma state_ok_tagged s rs x wk rule p :
  state_ok s rs -> rules !! ruleIndex s = Some rule -> evaluate_tag rule = Some (f_tag x) -> f_tag x <> "" ->
  f_done x = None -> f_cancelled x = false -> f_settled x = false -> p = (reply_view (reply_of x), f_transport x) ->
  state_ok (next_rule (set_namedFuture (append_future s x wk) (f_tag x) (length (futures s))))
    (MkRef (rf_options rs) (rf_anonymous rs) (<[f_tag x := p]> (rf_named rs))).
Proof.
  intros Hok Hr He Hx Hd Hc Hs ->. set (s1 := next_rule _).
  assert (Hfut : futures s1 = futures s ++ [x]) by done.
  pose proof (advances_append s s1 x Hfut) as Ha.
  assert (Hfresh : namedFutures s !! f_tag x = None).
  { destruct (namedFutures s !! f_tag x) eqn:E; [|done].
    destruct (so_evaluated _ _ Hok (f_tag x) ltac:(by rewrite E)) as (j & rj & Hj & Hej & Hlt).
    pose proof (ok_unique _ Hrules _ _ _ _ _ Hj Hr Hej He). lia. }
  assert (Hb : forall f y, futures s1 !! f = Some y ->
    (futures s !! f = Some y /\ f_tag y <> f_tag x) \/ (y = x /\ f = length (futures s))).
  { intros f y Hy. rewrite Hfut in Hy. apply lookup_snoc_Some in Hy as [[_ Hy]|[-> <-]]; [left|by right].
    split; [done|]. intros E. pose proof (so_tagged _ _ Hok f y Hy ltac:(by rewrite E)) as Hn. congruence. }
  assert (Hnf : forall t, namedFutures s1 !! t = if bool_decide (t = f_tag x) then Some (length (futures s)) else namedFutures s !! t).
  { intros t. cbn. case_bool_decide; subst; [by rewrite lookup_insert_eq|by rewrite lookup_insert_ne]. }
  pose proof (so_unnamed _ _ Hok _ Hfresh) as [HR HT].
  split; try apply Hok; cbn [rf_options rf_anonymous rf_named].
  - eapply advances_linked_opt; [exact Ha|apply Hok].
  - intros t. rewrite Hnf. case_bool_decide; subst.
    + rewrite lookup_insert_eq. by apply linked_new.
    + rewrite lookup_insert_ne by done. eapply advances_linked_opt; [exact Ha|apply Hok].
  - intros f y Hy. destruct (Hb f y Hy) as [[? _]|[-> _]]; [by eapply so_futures|]. split; [done|by left].
  - intros f y Hy Hty. rewrite Hnf. destruct (Hb f y Hy) as [[Hy' Hne]|[-> ->]].
    + rewrite bool_decide_eq_false_2 by done. by eapply so_tagged.
    + by rewrite bool_decide_eq_true_2.
  - intros t f. rewrite Hnf. case_bool_decide; subst.
    + intros [= <-]. split; [done|]. exists x. rewrite Hfut. by rewrite list_lookup_middle.
    + intros Hf. destruct (so_tag _ _ Hok t f Hf) as (Hne & y & Hy & Hyt). split; [done|].
      destruct (Ha f y Hy) as (y' & Hy' & Et & _). exists y'. by rewrite Et.
  - intros f y Hy Hty. destruct (Hb f y Hy) as [[Hy' _]|[-> _]]; [exact (so_settled _ _ Hok f y Hy' Hty)|].
    rewrite Hs. done.
  - intros t. rewrite Hnf. case_bool_decide; [done|]. apply Hok.
  - intros t. rewrite Hnf. case_bool_decide; subst.
    + intros _. exists (ruleIndex s), rule. repeat split; try done. cbn. lia.
    + intros Ht. destruct (so_evaluated _ _ Hok t Ht) as (j & rj & ? & ? & ?). exists j, rj. repeat split; try done. cbn. lia.
  - intros f Hf. destruct (so_terminal _ _ Hok f Hf) as (Hle & _). split; [cbn; lia|]. cbn. intros E. lia.
Qed.

(** ** Actions *)

(** What [walk_action] and [judge_rule] establish. *)
Definition walk_ok (o : walk_outcome) (s' : dnsRuleWalkState) (rs : ref_state)
    (finals : list (option exchangeWithRulesResult)) : Prop :=
  match o with
  | WNext => exists rs', sim (next_rule s') rs' finals
  | WResult r => allowed r
  | WSuspend sp => sim s' rs finals /\ suspension_ok sp s'
  | WPanic _ => False
  end.

Section Action.
Variable s : dnsRuleWalkState.
Variable rs : ref_state.
Variable finals : list (option exchangeWithRulesResult).
Variable rule : DNSRule.
Hypothesis Hsim : sim s rs finals.
Hypothesis Hrule : rules !! ruleIndex s = Some rule.
Hypothesis Hready : ready s (dns_Rule rule).
Hypothesis Hmatch : ref_matches rs rule = true.

Lemma judge_action : ref_judge (ruleIndex s) rs rule = ref_action (ruleIndex s) rs rule.
Proof. unfold DnsRuleSpec.ref_judge. by rewrite Hmatch. Qed.

Lemma not_held : held s = false -> armedRules s = [].
Proof. unfold held. by destruct (armedRules s). Qed.

Lemma walk_next_same : ref_action (ruleIndex s) rs rule = RNext rs -> exists rs', sim (next_rule s) rs' finals.
Proof.
  intros Ha. exists rs. eapply (sim_next s); try done; [by rewrite judge_action|by apply advances_refl|].
  apply state_ok_next, Hsim.
Qed.

Lemma walk_route_options options : dns_Action rule = Some (RuleActionDNSRouteOptionsOnly options) ->
  walk_ok (walk_action tm strategy message allowFakeIP s rule).1 (walk_action tm strategy message allowFakeIP s rule).2 rs finals.
Proof.
  intros Ea. unfold walk_action. rewrite Ea. cbn [fst snd walk_ok]. eexists.
  eapply (sim_next s); try done.
  - rewrite judge_action. unfold DnsRuleSpec.ref_action. by rewrite Ea.
  - by apply advances_refl.
  - destruct (state_ok_next s rs (proj1 Hsim)) as [H1 H2 H3 H4 H5 H6 H7 H8 H9 H10]. split; try done; cbn.
    + by rewrite (so_options _ _ (proj1 Hsim)).
    + intros f Hf. destruct (so_terminal _ _ (proj1 Hsim) f Hf) as [Hle _]. split; [lia|]. intros E. lia.
Qed.

Lemma walk_final action : dns_Action rule = Some action ->
  match action with RuleActionDNSReject _ _ | RuleActionPredefined _ => true | _ => false end = true ->
  walk_ok (walk_action tm strategy message allowFakeIP s rule).1 (walk_action tm strategy message allowFakeIP s rule).2 rs finals.
Proof.
  intros Ea Hk. assert (Hact : walk_action tm strategy message allowFakeIP s rule
    = if held s then (WSuspend SDrain, s) else match final_response message action with Some o => (outcome_of o, s) | None => (WNext, s) end).
  { unfold walk_action. rewrite Ea. by destruct action. }
  rewrite Hact. destruct (held s) eqn:Hh; [by split|].
  assert (Href : ref_action (ruleIndex s) rs rule
    = match final_response message action with Some (Ok r) => RFinal r | _ => RNext rs end).
  { unfold DnsRuleSpec.ref_action. rewrite Ea. by destruct action. }
  destruct (final_response message action) as [o|] eqn:Hf.
  - destruct (final_response_ok _ _ Hf) as (r & -> & Hn). cbn. eapply final_allowed; [done|by apply not_held|done|].
    by rewrite judge_action, Href, Hn.
  - by apply walk_next_same.
Qed.

Lemma walk_respond : dns_Action rule = Some RuleActionRespond ->
  walk_ok (walk_action tm strategy message allowFakeIP s rule).1 (walk_action tm strategy message allowFakeIP s rule).2 rs finals.
Proof.
  intros Ea. unfold walk_action. rewrite Ea. destruct (held s) eqn:Hh; [by split|].
  assert (Hall : forall r, norm r = respond_ref (if negb (bool_decide (MatchResponseTag (dns_Rule rule) = ""))
                   then rf_named rs !! MatchResponseTag (dns_Rule rule) else rf_anonymous rs) -> allowed r).
  { intros r Hr. eapply final_allowed; [done|by apply not_held|done|].
    rewrite judge_action. unfold DnsRuleSpec.ref_action. rewrite Ea, <- Hr. done. }
  pose proof (proj1 Hsim) as Hok. destruct Hready as [Hn Ha].
  case_bool_decide as Ht; cbn [negb].
  - assert (Htags : MatchResponseTags (dns_Rule rule) = [])
      by (eapply (ok_respond _ Hrules); [exact Hrule|unfold is_respond; by rewrite Ea|done]).
    assert (Hans : (forall f, anonymousFuture s = Some f -> future_resolved s f = true) ->
      allowed (respond_with (anonymousResponse s) match anonymousFuture s with Some f => future_transport s f | None => None end)).
    { intros Hres. apply Hall. cbn. rewrite norm_respond_with, (anonymous_same s rs Hok Hres). unfold rf_response.
      pose proof (so_anonymous _ _ Hok) as Hl. destruct (anonymousFuture s) as [f|], (rf_anonymous rs) as [p|]; try done.
      destruct (view_linked s rs f p Hok Hl (Hres f eq_refl)) as [_ ->]. by destruct p. }
    unfold hasBindings. rewrite Htags. cbn [nonempty orb].
    destruct (MatchResponseAnonymous (dns_Rule rule)); [cbn; apply Hans; auto|].
    destruct (anonymousFuture s) as [f|] eqn:Hf; cbn.
    + destruct (future_resolved s f) eqn:Hres; cbn; [|by split].
      apply Hans. by intros g [= <-].
    + cbn. by apply Hans.
  - apply Hall. rewrite norm_respond_with. pose proof (MatchResponseTag_in _ Ht) as Hin.
    destruct (named_same s rs _ Hok (fun f => Hn _ f Hin) _ (so_named _ _ Hok _)) as [-> ->].
    by destruct (rf_named rs !! MatchResponseTag (dns_Rule rule)) as [[]|].
Qed.

Lemma evaluate_tag_rule server tag speculative options :
  dns_Action rule = Some (RuleActionEvaluate server tag speculative options) -> tag <> "" -> evaluate_tag rule = Some tag.
Proof. intros Ea Ht. unfold evaluate_tag. by rewrite Ea, bool_decide_eq_false_2. Qed.

Lemma walk_evaluate server tag speculative options :
  dns_Action rule = Some (RuleActionEvaluate server tag speculative options) ->
  walk_ok (walk_action tm strategy message allowFakeIP s rule).1 (walk_action tm strategy message allowFakeIP s rule).2 rs finals.
Proof.
  intros Ea. pose proof judge_action as Hj. unfold DnsRuleSpec.ref_action in Hj. rewrite Ea in Hj.
  unfold walk_action. rewrite Ea. destruct (tm_Transport tm server) as [transport|] eqn:Et.
  - destruct (negb speculative && held s); [by split|].
    rewrite (so_options _ _ (proj1 Hsim)).
    destruct (launch_eq s tag false transport (applyDNSRouteOptions (rf_options rs) options)) as [wk ->].
    set (x := new_future _ _ _ _ _). cbn [fst snd walk_ok]. eexists. eapply (sim_next s); [done|done|exact Hj| | | | |].
    + unfold set_evaluated. by case_bool_decide.
    + eapply (advances_append _ _ x). unfold set_evaluated. by case_bool_decide.
    + unfold set_evaluated. by case_bool_decide.
    + intros t Ht. unfold set_evaluated. case_bool_decide as Htag; [done|]. cbn.
      rewrite lookup_insert_ne; [done|]. intros ->. apply Ht. by eapply evaluate_tag_rule.
    + unfold the_reply. change (answer (ruleIndex s) transport _) with (reply_of x). unfold set_evaluated.
      case_bool_decide as Htag.
      * apply state_ok_anonymous; [apply state_ok_append; [apply Hsim|done|done|done]|]. by apply linked_new.
      * apply (state_ok_tagged s rs x wk rule); try done; [apply Hsim|]. by eapply evaluate_tag_rule.
  - cbn [fst snd walk_ok]. eexists. eapply (sim_next s); [done|done|exact Hj| | | | |].
    + by case_bool_decide.
    + apply advances_refl. by case_bool_decide.
    + by case_bool_decide.
    + intros t _. by case_bool_decide.
    + case_bool_decide; [|apply state_ok_next, Hsim]. by apply state_ok_anonymous; [apply Hsim|].
Qed.

(** A speculative query is sent for a route rule that is held. *)
Lemma sim_terminal server speculative options transport queryOptions wk :
  dns_Action rule = Some (RuleActionDNSRoute server speculative options) ->
  resolveDNSRoute tm server options allowFakeIP (effectiveOptions s) = inr (Some (transport, queryOptions)) ->
  sim (set_terminal (append_future s (new_future s "" true transport queryOptions) wk) (length (futures s))) rs finals.
Proof.
  intros Ea Hres. destruct Hsim as (H1 & H2 & H3). set (x := new_future _ _ _ _ _). split; [|split; [|done]].
  - destruct (state_ok_append s rs x wk H1 eq_refl eq_refl eq_refl) as [K1 K2 K3 K4 K5 K6 K7 K8 K9 _]. split; try done.
    intros f [= <-]. split; [done|]. intros _.
    exists x, rule, server, speculative, options, queryOptions. cbn. rewrite list_lookup_middle by done. done.
  - apply (sim_armed s); try done. by apply (advances_append _ _ x).
Qed.

Lemma walk_route server speculative options : dns_Action rule = Some (RuleActionDNSRoute server speculative options) ->
  walk_ok (walk_action tm strategy message allowFakeIP s rule).1 (walk_action tm strategy message allowFakeIP s rule).2 rs finals.
Proof.
  intros Ea. pose proof judge_action as Hj. pose proof walk_next_same as Hsame.
  unfold DnsRuleSpec.ref_action in Hj, Hsame. rewrite Ea in Hj, Hsame. pose proof (proj1 Hsim) as Hok.
  unfold walk_action. rewrite Ea, (so_options _ _ Hok).
  destruct (resolveDNSRoute tm server options allowFakeIP (rf_options rs)) as [|[[transport queryOptions]|]] eqn:Hres;
    [by apply Hsame| |by apply Hsame].
  destruct (held s) eqn:Hh.
  { destruct (speculative && is_nil (terminalFuture s)); [|by split].
    destruct (launch_eq s "" true transport queryOptions) as [wk ->]. split; [|done].
    eapply sim_terminal; [done|]. by rewrite (so_options _ _ Hok). }
  apply not_held in Hh.
  assert (Hall : allowed (pending_result (MkPending transport queryOptions None (ruleIndex s)))) by by eapply final_allowed.
  destruct (if bool_decide (terminalIndex s = ruleIndex s) then terminalFuture s else None) as [f|] eqn:Hf;
    [|by split; [|split; [|split]]].
  case_bool_decide as Hi; [|done]. destruct (so_terminal _ _ Hok f Hf) as [_ Hx].
  destruct (Hx Hi) as (x & rule' & server' & spec' & o' & qo' & Hfx & Hr & Hru & Hac & Hre & Ho).
  assert (rule' = rule) as -> by congruence. rewrite Ea in Hac. injection Hac as <- <- <-.
  rewrite (so_options _ _ Hok), Hres in Hre. injection Hre as -> ->.
  unfold future_transport. rewrite Hfx. cbn. split; [done|]. split; [done|]. split; [done|].
  intros g [= <-]. exists x. cbn. rewrite Hr, Hi. split; [done|]. split; [by eapply so_futures|]. done.
Qed.

Lemma walk_action_ok :
  walk_ok (walk_action tm strategy message allowFakeIP s rule).1 (walk_action tm strategy message allowFakeIP s rule).2 rs finals.
Proof.
  destruct (dns_Action rule) as [[]|] eqn:Ea;
    eauto using walk_route, walk_evaluate, walk_respond, walk_route_options.
  - by eapply walk_final.
  - by eapply walk_final.
  - unfold walk_action. rewrite Ea. apply walk_next_same. unfold DnsRuleSpec.ref_action. by rewrite Ea.
Qed.
End Action.

(** ** Bindings *)

Lemma tagged_settled s rs t f :
  state_ok s rs -> all_settled s -> namedFutures s !! t = Some f -> future_resolved s f = true -> future_settled s f = true.
Proof.
  intros Hok Hs Hf. destruct (so_tag _ _ Hok t f Hf) as (Ht & x & Hx & Hxt). unfold future_resolved, future_settled.
  rewrite Hx. intros Hr. apply (Hs f x Hx); [by rewrite Hxt|done].
Qed.

Lemma pending_named_in s t f tags :
  t ∈ tags -> namedFutures s !! t = Some f -> f ∈ pending_named s tags \/ future_resolved s f = true.
Proof.
  intros Ht Hf. destruct (future_resolved s f) eqn:Hr; [by right|left]. unfold pending_named.
  apply list_elem_of_In, filter_In. split; [|by rewrite Hr]. apply list_elem_of_In, list_elem_of_omap. eauto.
Qed.
Lemma pending_anonymous_in s r f :
  MatchResponseAnonymous r = true -> anonymousFuture s = Some f -> f ∈ pending_anonymous s r \/ future_resolved s f = true.
Proof.
  intros Hr Hf. unfold pending_anonymous. rewrite Hr, Hf. destruct (future_resolved s f); [by right|left]. set_solver.
Qed.

Lemma bind_ready s rs rule :
  state_ok s rs -> all_settled s -> bind_rule s rule = BReady -> ready s (dns_Rule rule).
Proof.
  intros Hok Hs. unfold bind_rule.
  destruct (pending_named s (MatchResponseTags (dns_Rule rule)) ++ pending_anonymous s (dns_Rule rule)) as [|f l] eqn:Hp;
    [|by destruct (Race _)].
  intros _. apply app_eq_nil in Hp as [Hn Ha]. split.
  - intros t f Ht Hf. eapply tagged_settled; [done|done|done|].
    destruct (pending_named_in s t f _ Ht Hf) as [H|H]; [|done]. rewrite Hn in H. set_solver.
  - intros Hr f Hf. destruct (pending_anonymous_in s _ f Hr Hf) as [H|H]; [|done]. rewrite Ha in H. set_solver.
Qed.

Lemma race_keeps k rule rs rs' :
  rules !! k = Some rule -> Race (dns_Rule rule) = true -> ref_judge k rs rule = RNext rs' -> rs' = rs.
Proof.
  intros Hr Hrace. pose proof (ok_race _ Hrules _ _ Hr Hrace) as Hf. unfold DnsRuleSpec.ref_judge.
  destruct (ref_matches rs rule); [|by intros [= <-]]. unfold DnsRuleSpec.ref_action.
  destruct (dns_Action rule) as [[]|]; try discriminate Hf; intros H; repeat case_match; by simplify_eq.
Qed.

Lemma bind_arm s rs finals rule armed :
  sim s rs finals -> all_settled s -> rules !! ruleIndex s = Some rule -> bind_rule s rule = BArm armed ->
  exists finals', sim (next_rule (set_armedRules s (armedRules s ++ [armed]))) rs finals'.
Proof.
  intros (H1 & H2 & H3) Hs Hr. unfold bind_rule.
  set (l := pending_named s (MatchResponseTags (dns_Rule rule)) ++ pending_anonymous s (dns_Rule rule)).
  destruct l as [|f l'] eqn:Hl; [done|]. rewrite <- Hl. destruct (Race (dns_Rule rule)) eqn:Hrace; [|done].
  intros [= <-]. set (a := MkArmed _ _ _ _ _ _). set (s1 := next_rule _).
  assert (Ha : advances s s1) by by apply advances_refl.
  exists (finals ++ [final_of a rs]). split; [|split].
  - by apply state_ok_next, state_ok_armed.
  - apply Forall2_app.
    + apply (armed_list s); try done. cbn. lia.
    + constructor; [|constructor]. exists rs. split; try done; cbn.
      * lia.
      * apply H1.
      * intros t _. eapply advances_linked_opt; [exact Ha|apply H1].
      * intros t g Ht Hg. destruct (pending_named_in s t g _ Ht Hg) as [Hin|Hres].
        -- left. unfold l. set_solver.
        -- right. eapply (advances_settled s); [exact Ha|]. by eapply tagged_settled.
      * intros ->. eapply advances_linked_opt; [exact Ha|apply H1].
      * intros g. destruct (MatchResponseAnonymous (dns_Rule rule)) eqn:Hb; [|done]. intros Hg.
        destruct (pending_anonymous_in s _ g Hb Hg) as [Hin|Hres]; [left; unfold l; set_solver|by right].
      * intros Ht. assert (Hp : pending_anonymous s (dns_Rule rule) <> []).
        { unfold l in Hl. rewrite Ht in Hl. cbn in Hl. by rewrite Hl. }
        unfold pending_anonymous in Hp. destruct (MatchResponseAnonymous (dns_Rule rule)); [|done].
        split; [done|]. by destruct (anonymousFuture s).
  - rewrite H3, (ref_walk_at _ _ _ Hr), omap_app. cbn [s1 next_rule set_armedRules ruleIndex].
    unfold final_of. cbn [a ar_ruleIndex ar_rule].
    destruct (ref_judge (ruleIndex s) rs rule) as [rs'|r] eqn:Hj.
    + rewrite (race_keeps _ _ _ _ Hr Hrace Hj). cbn. by rewrite app_nil_r.
    + rewrite Hrace. destruct (ref_walk (S _) _ _) as [races last]. cbn. by rewrite <- app_assoc.
Qed.

(** ** The sweep *)

Lemma sim_remove s rs finals i a :
  sim s rs finals -> armedRules s !! i = Some a -> finals !! i = Some None ->
  sim (set_armedRules s (take i (armedRules s) ++ drop (S i) (armedRules s))) rs (take i finals ++ drop (S i) finals).
Proof.
  intros (H1 & H2 & H3) Ha Hf. split; [by apply state_ok_armed|]. split.
  - apply (armed_list s); [by apply advances_refl|done|done|]. cbn. apply Forall2_app; [by apply Forall2_take|by apply Forall2_drop].
  - rewrite H3. cbn. f_equal. f_equal. rewrite <- (take_drop_middle finals i None Hf) at 1. by rewrite !omap_app.
Qed.

Lemma in_finals s rs finals i r : sim s rs finals -> finals !! i = Some (Some (norm r)) -> allowed r.
Proof.
  intros (_ & _ & H3) Hf. left. rewrite H3. cbn. apply elem_of_app. left. apply list_elem_of_omap.
  exists (Some (norm r)). split; [by eapply list_elem_of_lookup_2|done].
Qed.

Section Sweep.
Variable s : dnsRuleWalkState.
Variable rs : ref_state.
Variable finals : list (option exchangeWithRulesResult).
Variable i : nat.
Variable a : dnsArmedRule.
Variable o : option exchangeWithRulesResult.
Variable rs_a : ref_state.
Hypothesis Hsim : sim s rs finals.
Hypothesis Hsettled : all_settled s.
Hypothesis Ha : armedRules s !! i = Some a.
Hypothesis Ho : finals !! i = Some o.
Hypothesis Harmed : armed_ok s a o rs_a.
Hypothesis Hres : forall f, f ∈ ar_futures a -> future_resolved s f = true.

Lemma sweep_named t : t ∈ MatchResponseTags (dns_Rule (ar_rule a)) ->
  default None (namedResponses s !! t) = match rf_named rs_a !! t with Some p => p.1 | None => None end
  /\ namedTransports s !! t = match rf_named rs_a !! t with Some p => Some p.2 | None => None end.
Proof.
  intros Ht. eapply named_same; [apply Hsim| |by eapply ao_named]. intros f Hf.
  destruct (ao_named_ready _ _ _ _ Harmed t f Ht Hf) as [Hin|]; [|done].
  eapply tagged_settled; [apply Hsim|done|done|by apply Hres].
Qed.

Lemma sweep_anonymous f : ar_bindsAnonymous a = true -> ar_anonymousFuture a = Some f ->
  exists p, rf_anonymous rs_a = Some p /\ future_view s f = p.1 /\ future_transport s f = Some p.2.
Proof.
  intros Hb Hf. pose proof (ao_anonymous _ _ _ _ Harmed Hb) as Hl. rewrite Hf in Hl.
  destruct (rf_anonymous rs_a) as [p|]; [|done]. exists p. split; [done|].
  eapply view_linked; [apply Hsim|done|]. destruct (ao_anonymous_ready _ _ _ _ Harmed f Hf); auto.
Qed.

Lemma sweep_match md : same_metadata md ->
  (rule_Match w (dns_Rule (ar_rule a)) (set_responses (ResetRuleCache md)
     (if ar_bindsAnonymous a then match ar_anonymousFuture a with Some f => future_view s f | None => None end
      else anonymousResponse s) (namedResponses s))).1 = ref_matches rs_a (ar_rule a).
Proof.
  intros Hm. apply match_same; [done|eapply (ok_bound _ Hrules), Harmed| |intros t Ht; by apply sweep_named].
  rewrite <- (ao_binds _ _ _ _ Harmed). intros Hb. rewrite Hb. unfold rf_response.
  destruct (ar_anonymousFuture a) as [f|] eqn:Hf.
  - by destruct (sweep_anonymous f Hb Hf) as (p & -> & -> & _).
  - pose proof (ao_anonymous _ _ _ _ Harmed Hb) as Hl. rewrite Hf in Hl. by destruct (rf_anonymous rs_a).
Qed.

Lemma sweep_allowed r : ref_matches rs_a (ar_rule a) = true ->
  ref_action (ar_ruleIndex a) rs_a (ar_rule a) = RFinal (norm r) -> allowed r.
Proof.
  intros Hm Hr. eapply (in_finals s rs finals i); [done|]. rewrite Ho, (ao_final _ _ _ _ Harmed).
  unfold final_of, DnsRuleSpec.ref_judge. by rewrite Hm, Hr.
Qed.

Lemma sweep_none rs' : ref_judge (ar_ruleIndex a) rs_a (ar_rule a) = RNext rs' -> o = None.
Proof. intros Hj. rewrite (ao_final _ _ _ _ Harmed). unfold final_of. by rewrite Hj. Qed.

Lemma sweep_action_ok : ref_matches rs_a (ar_rule a) = true ->
  match sweep_action tm message allowFakeIP s a i with
  | SwNext j => j = i /\ o = None
  | SwResult r => allowed r
  | SwPending p => pending_ok p s
  | SwPanic _ => False
  end.
Proof.
  intros Hm. pose proof (sweep_allowed) as Hall. pose proof sweep_none as Hnone.
  unfold DnsRuleSpec.ref_judge in Hnone. rewrite Hm in Hnone.
  pose proof (ao_rule _ _ _ _ Harmed) as Hr. pose proof (ok_race _ Hrules _ _ Hr (ao_race _ _ _ _ Harmed)) as Hfin.
  unfold sweep_action. unfold DnsRuleSpec.ref_action in Hall, Hnone.
  destruct (dns_Action (ar_rule a)) as [[server spec opts|server tag spec opts| |opts|method noDrop|action]|] eqn:Ea;
    try discriminate Hfin; [| | | |by eauto].
  - rewrite (ao_options _ _ _ _ Harmed).
    destruct (resolveDNSRoute tm server opts allowFakeIP (rf_options rs_a)) as [|[[transport qo]|]]; [by eauto| |by eauto].
    split; [|done]. by apply Hall.
  - apply Hall; [done|]. case_bool_decide as Ht; cbn [negb].
    + pose proof (ok_respond _ Hrules _ _ Hr ltac:(unfold is_respond; by rewrite Ea) Ht) as Htags.
      destruct (ao_untagged _ _ _ _ Harmed Htags) as [Hb [f Hf]]. rewrite Hf.
      destruct (sweep_anonymous f Hb Hf) as (p & -> & -> & ->). rewrite norm_respond_with. by destruct p.
    + destruct (sweep_named _ (MatchResponseTag_in _ Ht)) as [-> ->]. rewrite norm_respond_with.
      by destruct (rf_named rs_a !! _) as [[]|].
  - destruct (final_response message _) as [x|] eqn:Hf; [|by eauto].
    destruct (final_response_ok _ _ Hf) as (r & -> & Hn). apply Hall; [done|]. by rewrite Hn.
  - destruct (final_response message _) as [x|] eqn:Hf; [|by eauto].
    destruct (final_response_ok _ _ Hf) as (r & -> & Hn). apply Hall; [done|]. by rewrite Hn.
Qed.
End Sweep.

(** ** Steps *)

Abbreviation walk_run := (walk_run w tm strategy rules message allowFakeIP async).
Abbreviation walk_step := (walk_step w tm strategy rules message allowFakeIP async answer ended).

Lemma inv_start : inv (start_walk options0 md0).
Proof.
  split; [done|]. split; [done|]. exists (ref_start options0), []. split; [|split].
  - split; try done. intros t. cbn. rewrite lookup_empty. by intros [].
  - constructor.
  - cbn. apply surjective_pairing.
Qed.

Lemma allowed_norm r r' : norm r = norm r' -> allowed r -> allowed r'.
Proof. unfold allowed. by intros ->. Qed.

Lemma inv_suspend sp s md resumed rs finals :
  sim s rs finals -> suspension_ok sp s -> same_metadata md -> inv (suspend async sp s md resumed).
Proof.
  intros Hs Hp Hm. assert (Hgo : inv (MkWalker (PSettle sp) s md true)).
  { split; [done|]. split; [done|]. eauto. }
  destruct sp as [| |p]; cbn; try done. destruct p as [tr o [f|] i]; [done|]. destruct (async && negb resumed); [|done].
  cbn. destruct Hp as [_ [Hall _]]. by split.
Qed.

Lemma inv_finish_pending p s md : pending_ok p s -> inv (finishPendingExchange p s md).
Proof.
  intros [Hall Hf]. split; [done|]. intros f E. destruct (Hf f E) as (x & Hx & Hok). exists x.
  split; [|done]. cbn. rewrite list_lookup_imap, Hx. cbn. by rewrite E, bool_decide_eq_true_2.
Qed.

Lemma inv_finish_allowed r s md : allowed r -> inv (finish r s md).
Proof. intros H. left. done. Qed.

Lemma pending_ok_advance p s s' :
  (forall f x, futures s !! f = Some x -> future_ok x -> exists x', futures s' !! f = Some x' /\ future_ok x'
     /\ f_rule x' = f_rule x /\ f_transport x' = f_transport x /\ f_options x' = f_options x) ->
  pending_ok p s -> pending_ok p s'.
Proof.
  intros Ha [Hall Hf]. split; [done|]. intros f E. destruct (Hf f E) as (x & Hx & Hok & E1 & E2 & E3).
  destruct (Ha f x Hx Hok) as (x' & Hx' & Hok' & F1 & F2 & F3). exists x'. rewrite F1, F2, F3. done.
Qed.

(** A reply changes nothing that is pending. *)
Lemma deliver_keeps r f x s :
  futures s !! f = Some x -> f_done x = None -> (f_cancelled x = false -> r = reply_of x) ->
  forall g y, futures s !! g = Some y -> future_ok y -> exists y', futures (deliver r f s) !! g = Some y' /\ future_ok y'
    /\ f_rule y' = f_rule y /\ f_transport y' = f_transport y /\ f_options y' = f_options y.
Proof.
  intros Hx Hd Hr g y Hy Hok. rewrite deliver_lookup. case_bool_decide; subst; [|by exists y].
  rewrite Hx in *. injection Hy as <-. destruct Hok as [Hc _]. eexists. split; [done|].
  split; [|done]. split; [done|]. right. by rewrite (Hr Hc).
Qed.

Lemma settle_keeps s :
  forall g y, futures s !! g = Some y -> future_ok y -> exists y', futures (settleDNSFutures s) !! g = Some y' /\ future_ok y'
    /\ f_rule y' = f_rule y /\ f_transport y' = f_transport y /\ f_options y' = f_options y.
Proof.
  intros g y Hy [H1 H2]. destruct (settle_spec s) as (R & T & -> & _). exists (settle1 y). cbn.
  rewrite list_lookup_fmap, Hy. destruct (settle1_fields y) as (_ & E1 & E2 & E3 & E4 & E5).
  unfold future_ok, reply_of. rewrite E1, E2, E3, E4, E5. done.
Qed.

Lemma suspension_deliver sp r f x s :
  futures s !! f = Some x -> f_done x = None -> (f_cancelled x = false -> r = reply_of x) ->
  suspension_ok sp s -> suspension_ok sp (deliver r f s).
Proof.
  intros Hx Hd Hr. destruct sp as [| |p]; try done. intros [H1 H2]. split; [done|].
  eapply pending_ok_advance; [by eapply deliver_keeps|done].
Qed.
Lemma suspension_settle sp s : suspension_ok sp s -> suspension_ok sp (settleDNSFutures s).
Proof.
  destruct sp as [| |p]; try done. intros [H1 H2]. split; [by destruct (settle_same s) as [-> _]|].
  eapply pending_ok_advance; [apply settle_keeps|done].
Qed.

Lemma all_settled_deliver r f x s :
  futures s !! f = Some x -> f_tag x = "" -> all_settled s -> all_settled (deliver r f s).
Proof.
  intros Hx Ht Hs g y. rewrite deliver_lookup. case_bool_decide; subst; [|by apply Hs].
  rewrite Hx. cbn. by intros [= <-].
Qed.

Lemma inv_deliver r f x k :
  inv k -> futures (wk_state k) !! f = Some x -> f_done x = None -> (f_cancelled x = false -> r = reply_of x) ->
  (settling (wk_phase k) = true -> f_tag x = "") -> inv (set_state k (deliver r f (wk_state k))).
Proof.
  intros Hinv Hx Hd Hr Ht. unfold inv, set_state in *. cbn [wk_phase wk_state wk_metadata].
  assert (Hgo : forall p, phase_ok p (wk_state k) /\ same_metadata (wk_metadata k) /\ (exists rs finals, sim (wk_state k) rs finals) ->
    phase_ok p (deliver r f (wk_state k)) ->
    phase_ok p (deliver r f (wk_state k)) /\ same_metadata (wk_metadata k)
    /\ exists rs finals, sim (deliver r f (wk_state k)) rs finals).
  { intros p (_ & Hm & rs & finals & Hs) Hp. split; [done|]. split; [done|]. exists rs, finals. by eapply sim_deliver. }
  destruct (wk_phase k) as [| | |sp|sp i|sp|sp|p|r'|msg] eqn:Hk; try (apply Hgo; [done|]; destruct Hinv as [Hp _]; cbn in *);
    eauto using suspension_deliver.
  - destruct Hp as [Hs Hb]. split; [|done]. eapply all_settled_deliver; eauto.
  - destruct Hp as (rule & Hru & Hre). exists rule. split; [done|].
    eapply (ready_advances (wk_state k)); eauto using advances_deliver.
  - destruct Hp as [Hs Hb]. split; [|by eapply suspension_deliver]. eapply all_settled_deliver; eauto.
  - eapply pending_ok_advance; [by eapply deliver_keeps|done].
Qed.

Lemma inv_judge s md rule resumed rs finals :
  sim s rs finals -> same_metadata md -> rules !! ruleIndex s = Some rule -> ready s (dns_Rule rule) ->
  forall k', walk_run INone (MkWalker PJudge s md resumed) = Some k' -> inv k'.
Proof.
  intros Hs Hm Hr Hready k'. cbn. rewrite Hr. unfold judge_rule.
  pose proof (walk_match s rs md rule _ (proj1 Hs) Hm Hr Hready) as Hmatch.
  pose proof (same_metadata_match md (anonymousResponse s) (namedResponses s) rule Hm) as Hm'.
  destruct (rule_Match w (dns_Rule rule) _) as [matched md']. cbn [fst snd] in *. subst matched.
  destruct (ref_matches rs rule) eqn:Href; cbn [negb].
  - pose proof (walk_action_ok s rs finals rule Hs Hr Hready Href) as Hw.
    destruct (walk_action tm strategy message allowFakeIP s rule) as [o s']. cbn [fst snd] in Hw.
    destruct o as [|r|sp|msg]; cbn in Hw; intros [= <-].
    + destruct Hw as [rs' Hw]. split; [done|]. split; [done|]. eauto.
    + by apply inv_finish_allowed.
    + destruct Hw as [Hw1 Hw2]. by eapply inv_suspend.
    + done.
  - intros [= <-]. split; [done|]. split; [done|]. exists rs, finals.
    eapply (sim_next s); try done; [unfold DnsRuleSpec.ref_judge; by rewrite Href|by apply advances_refl|].
    apply state_ok_next, Hs.
Qed.

Lemma inv_sweep s md sp i resumed rs finals :
  sim s rs finals -> same_metadata md -> all_settled s -> suspension_ok sp s ->
  forall k', walk_run INone (MkWalker (PSweep sp i) s md resumed) = Some k' -> inv k'.
Proof.
  intros Hs Hm Hset Hsp k'. cbn. destruct (armedRules s !! i) as [a|] eqn:Ha.
  2: { intros [= <-]. split; [done|]. split; [done|]. eauto. }
  destruct (Forall2_lookup_l _ _ _ _ _ (proj1 (proj2 Hs)) Ha) as (o & Ho & rs_a & Harm). unfold sweep_one.
  assert (Hnp : forall p, sp <> SPending p).
  { intros p ->. destruct Hsp as [He _]. by rewrite He in Ha. }
  destruct (forallb (future_resolved s) (ar_futures a)) eqn:Hall; cbn [negb].
  2: { intros [= <-]. split; [done|]. split; [done|]. eauto. }
  assert (Hres : forall f, f ∈ ar_futures a -> future_resolved s f = true).
  { intros f Hf. eapply forallb_forall in Hall; [done|]. by apply list_elem_of_In. }
  set (s' := set_armedRules s _).
  pose proof (sweep_match s rs finals a o rs_a Hs Hset Harm Hres md Hm) as Hmatch.
  set (resp := if ar_bindsAnonymous a then _ else _) in Hmatch |- *.
  pose proof (same_metadata_match md resp (namedResponses s) (ar_rule a) Hm) as Hm'.
  change (namedResponses s') with (namedResponses s).
  destruct (rule_Match w (dns_Rule (ar_rule a)) _) as [matched md']. cbn [fst snd] in *. subst matched.
  assert (Hdrop : o = None -> inv (MkWalker (PSweep sp i) s' md' resumed)).
  { intros ->. split; [|split; [done|eauto using sim_remove]]. split; [exact Hset|]. destruct sp; try done. by destruct (Hnp pending). }
  destruct (ref_matches rs_a (ar_rule a)) eqn:Href; cbn [negb].
  - pose proof (sweep_action_ok s rs finals i a o rs_a Hs Hset Ho Harm Hres Href) as Hw.
    change (sweep_action tm message allowFakeIP s' a i) with (sweep_action tm message allowFakeIP s a i).
    destruct (sweep_action tm message allowFakeIP s a i) as [j|r|p|msg]; intros [= <-].
    + destruct Hw as [-> ->]. by apply Hdrop.
    + by apply inv_finish_allowed.
    + apply inv_finish_pending. exact Hw.
    + done.
  - intros [= <-]. apply Hdrop. eapply (sweep_none s a o rs_a Harm rs_a). unfold DnsRuleSpec.ref_judge. by rewrite Href.
Qed.

Lemma inv_pending p s md resumed inp k' :
  pending_ok p s ->
  (forall r, inp = IReply r -> r = answer (pe_rule p) (pe_transport p) (finalizeExchangeOptions strategy (pe_options p))) ->
  (forall e, inp = ICancel e -> ended = Some e) ->
  walk_run inp (MkWalker (PPending p) s md resumed) = Some k' -> inv k'.
Proof.
  intros [Hall Hf] Hreply Hcancel. cbn. destruct inp as [|[response err]|e].
  - destruct (pe_future p) as [f|] eqn:E; [|done]. destruct (Hf f eq_refl) as (x & Hx & [_ Hok] & E1 & E2 & E3).
    rewrite Hx. destruct (f_done x) as [[resp err]|] eqn:Hd; [|done]. intros [= <-]. apply inv_finish_allowed.
    destruct Hok as [|Hok]; [done|]. injection Hok as Hok. unfold reply_of in Hok. rewrite E1, E2, E3 in Hok.
    eapply allowed_norm; [|exact Hall]. unfold pending_result, view. rewrite <- Hok, Hd, E2. by destruct err.
  - destruct (pe_future p); [done|]. intros [= <-]. apply inv_finish_allowed.
    eapply allowed_norm; [|exact Hall]. unfold pending_result. by rewrite <- (Hreply _ eq_refl).
  - destruct (pe_future p); [|done]. intros [= <-]. right. eauto.
Qed.

Lemma inv_run inp k k' :
  inv k -> (forall r p, inp = IReply r -> wk_phase k = PPending p ->
    r = answer (pe_rule p) (pe_transport p) (finalizeExchangeOptions strategy (pe_options p))) ->
  (forall e, inp = ICancel e -> ended = Some e) -> walk_run inp k = Some k' -> inv k'.
Proof.
  destruct k as [ph s md resumed]. intros Hinv Hreply Hcancel Hrun.
  destruct ph as [| | |sp|sp i|sp|sp|p|r|msg]; cbn [wk_phase] in *;
    try (destruct Hinv as (Hp & Hm & rs & finals & Hs); cbn [wk_state wk_metadata] in *).
  - destruct inp; try done. cbn -[suspend] in Hrun. destruct (rules !! ruleIndex s) as [rule|] eqn:Hr.
    + destruct (hasBindings (dns_Rule rule)) eqn:Hb; apply Some_inj in Hrun; subst k'.
      * split; [|split; [done|eauto using sim_settle]]. split; [apply all_settled_settle|].
        exists rule. cbn [wk_state]. destruct (settle_same s) as (_ & -> & _). done.
      * split; [|split; [done|eauto]]. exists rule. split; [done|].
        unfold hasBindings in Hb. to_prop. split; [|by rewrite H0].
        intros t f Ht. destruct (MatchResponseTags (dns_Rule rule)); [set_solver|done].
    + apply Some_inj in Hrun; subst k'. destruct (held s) eqn:Hh; [by eapply inv_suspend|]. apply not_held in Hh.
      eapply inv_suspend; [done| |done]. split; [done|]. split; [by eapply default_allowed|done].
  - destruct inp; try done. destruct Hp as (Hset & rule & Hr & Hb). cbn -[suspend] in Hrun. rewrite Hr in Hrun.
    destruct (bind_rule s rule) as [armed|f|] eqn:Hbind; apply Some_inj in Hrun; subst k'.
    + split; [done|]. split; [done|]. destruct (bind_arm s rs finals rule armed Hs Hset Hr Hbind) as [finals' Hs']. eauto.
    + by eapply inv_suspend.
    + split; [|split; [done|eauto]]. exists rule. split; [done|]. eapply bind_ready; [apply Hs|done|done].
  - destruct inp; try done. destruct Hp as (rule & Hr & Hready). by eapply inv_judge.
  - destruct inp; try done. cbn -[suspend] in Hrun. apply Some_inj in Hrun; subst k'. split; [|split; [done|eauto using sim_settle]].
    split; [apply all_settled_settle|by apply suspension_settle].
  - destruct inp; try done. destruct Hp as [Hset Hsp]. by eapply inv_sweep.
  - destruct inp; try done. cbn -[suspend] in Hrun. destruct sp as [f| |p]; apply Some_inj in Hrun; subst k'.
    + destruct (future_resolved s f); (split; [done|split; [done|eauto]]).
    + destruct (held s); (split; [done|split; [done|eauto]]).
    + apply inv_finish_pending. apply Hp.
  - destruct inp as [| |e]; try done; cbn -[suspend] in Hrun.
    + case_bool_decide; [|done]. apply Some_inj in Hrun; subst k'. split; [|split; [done|]].
      * by destruct sp.
      * exists rs, finals. destruct Hs as (H1 & H2 & H3). split; [|split; [|done]].
        -- apply (state_ok_replies s); try done; [by apply advances_refl|].
           intros f x Hx. split; [by eapply so_futures|]. exists x. done.
        -- apply (sim_armed s); try done. by apply advances_refl.
    + apply Some_inj in Hrun; subst k'. right. eauto.
  - eapply inv_pending; [exact Hinv| |done|exact Hrun]. intros r Hr. by eapply Hreply.
  - by destruct inp.
  - done.
Qed.

(** No rule tags a response. *)
Definition no_tags : Prop := forall i rule, rules !! i = Some rule -> evaluate_tag rule = None.

Lemma inv_step tidy k k' : tidy = true \/ no_tags -> inv k -> walk_step tidy k k' -> inv k'.
Proof.
  intros Ht Hinv Hstep. destruct Hstep as [inp k k' Hreply Hcancel Hrun|r f x k Hx Hd Hr Hset].
  - by eapply inv_run.
  - eapply inv_deliver; eauto. intros Hph. destruct Ht as [-> |Ht]; [by apply Hset|].
    destruct (decide (f_tag x = "")) as [|Hne]; [done|exfalso].
    assert (Hs : exists rs finals, sim (wk_state k) rs finals).
    { unfold inv in Hinv. destruct (wk_phase k); try discriminate Hph; apply Hinv. }
    destruct Hs as (rs & finals & Hs & _).
    pose proof (so_tagged _ _ Hs f x Hx Hne) as Hn.
    destruct (so_evaluated _ _ Hs (f_tag x) ltac:(by rewrite Hn)) as (j & rule & Hj & He & _).
    rewrite (Ht _ _ Hj) in He. done.
Qed.

Lemma walk_inv tidy k : tidy = true \/ no_tags ->
  walk_reachable w tm strategy rules message allowFakeIP async answer ended tidy options0 md0 k -> inv k.
Proof.
  intros Ht. unfold walk_reachable. pose proof inv_start as H0. revert H0. generalize (start_walk options0 md0) as k0.
  intros k0 H0 Hreach. induction Hreach as [|a b c Hab _ IH]; [done|]. apply IH. by eapply inv_step.
Qed.
End Sim.

(** A walk that ends has one of the results of the reference. *)
Lemma walk_follows_ref {X : External} w tm strategy rules message allowFakeIP async answer ended md options tidy k r :
  rules_ok rules -> Questions message <> [] -> tidy = true \/ no_tags rules ->
  walk_reachable w tm strategy rules message allowFakeIP async answer ended tidy options md k ->
  wk_phase k = PDone r ->
  let '(races, sequential) := ref_walk w tm strategy message allowFakeIP answer md 0 rules (ref_start options) in
  (norm r ∈ races \/ (races = [] /\ norm r = sequential)) \/ exists e, ended = Some e /\ r = failed e.
Proof.
  intros Hrules Hq Ht Hreach Hdone.
  pose proof (walk_inv w tm strategy rules message allowFakeIP async answer ended md options Hrules Hq tidy k Ht Hreach) as Hinv.
  unfold inv in Hinv. rewrite Hdone in Hinv. unfold allowed in Hinv.
  destruct (ref_walk _ _ _ _ _ _ _ _ _ _) as [races sequential]. exact Hinv.
Qed.
