(* ===== verification/DnsWalkLive.v ===== *)
(** * The rule walk always ends

    No walk is stuck: as long as it has no result the walker can go on, or the reply to
    a query it waits for is still to come, which wakes it up.  And no walk goes on for
    ever: every step decreases a measure that is cubic in the number of rules at the
    start.  When a walk has its result every query it sent has been cancelled. *)

From S2P Require Import Prelude GoStd Netip External DnsMsg RuleItems RuleMatch RuleSpec RuleOptions RuleBuild RuleAction DnsClient DnsRule DnsMode DnsWalk DnsRuleSpec DnsWalkSim.
From stdpp Require Import relations.
Local Open Scope nat_scope.

Section Live.
Context {X : External}.
Variable w : World.
Variable tm : DNSTransportManager.
Variable strategy : Z.
Variable rules : list DNSRule.
Variable message : Msg.
Variable allowFakeIP : bool.
Variable async : bool.
Variable answer : nat -> DNSTransport -> DNSQueryOptions -> option Msg * option error.
Variable ended : option error.
Variable tidy : bool.
Hypothesis Hquestion : Questions message <> [].

Abbreviation walk_step := (walk_step w tm strategy rules message allowFakeIP async answer ended tidy).
Abbreviation walk_run := (walk_run w tm strategy rules message allowFakeIP async).
Abbreviation walk_action := (walk_action tm strategy message allowFakeIP).
Implicit Types (s : dnsRuleWalkState) (k : walker).

(** ** The invariant *)

Definition known s (f : nat) : Prop := f < length (futures s).
Definition token s : Prop := wake s = Some true.

(** An armed rule that is not judged waits for a reply, or one has just arrived. *)
Definition blocked s (a : dnsArmedRule) : Prop := token s \/ exists f, f ∈ ar_futures a /\ future_resolved s f = false.

Record state_live s : Prop := {
  sl_futures : length (futures s) <= ruleIndex s + (match terminalFuture s with Some _ => 1 | None => 0 end);
  sl_armed : length (armedRules s) <= ruleIndex s;
  sl_index : ruleIndex s <= length rules;
  sl_wake : futures s <> [] -> wake s <> None;
  sl_named : forall t f, namedFutures s !! t = Some f -> known s f;
  sl_anonymous : forall f, anonymousFuture s = Some f -> known s f;
  sl_terminal : forall f, terminalFuture s = Some f -> known s f;
  sl_rules : forall a f, a ∈ armedRules s -> f ∈ ar_futures a -> known s f
}.

Definition suspension_live (sp : dnsWalkSuspension) s : Prop :=
  match sp with
  | SAwait f => known s f
  | SDrain => True
  | SPending p => forall f, pe_future p = Some f -> known s f
  end.

Definition phase_live (p : walk_phase) s : Prop :=
  match p with
  | PWalk => True
  | PBind | PJudge => is_Some (rules !! ruleIndex s)
  | PSettle sp => suspension_live sp s
  | PSweep sp index => suspension_live sp s /\ forall j a, j < index -> armedRules s !! j = Some a -> blocked s a
  | PCheck sp => suspension_live sp s /\ forall a, a ∈ armedRules s -> blocked s a
  | PWait (SAwait f) => known s f /\ (token s \/ future_resolved s f = false)
  | PWait SDrain => armedRules s <> [] /\ forall a, a ∈ armedRules s -> blocked s a
  | PWait (SPending _) => False
  | PPending p => forall f, pe_future p = Some f -> known s f
  | PDone _ => Forall (fun x => f_cancelled x = true) (futures s)
  | PPanic _ => False
  end.

Definition live k : Prop := state_live (wk_state k) /\ phase_live (wk_phase k) (wk_state k).

(** ** Steps that change the futures only in place *)

(** Same futures but for their replies, same rules; the token is kept. *)
Definition keeps s s' : Prop :=
  length (futures s') = length (futures s) /\ ruleIndex s' = ruleIndex s /\ armedRules s' = armedRules s
  /\ namedFutures s' = namedFutures s /\ anonymousFuture s' = anonymousFuture s /\ terminalFuture s' = terminalFuture s
  /\ (wake s <> None -> wake s' <> None) /\ (token s -> token s').

Lemma keeps_live s s' : keeps s s' -> state_live s -> state_live s'.
Proof.
  intros (E1 & E2 & E3 & E4 & E5 & E6 & E7 & _) [H1 H2 H3 H4 H5 H6 H7 H8].
  split; unfold known; rewrite ?E1, ?E2, ?E3, ?E4, ?E5, ?E6; try done.
  intros Hne. apply E7, H4. destruct (futures s), (futures s'); done.
Qed.

Lemma keeps_phase s s' p : keeps s s' ->
  (forall f, future_resolved s f = false -> future_resolved s' f = false \/ token s') ->
  (forall r, p = PDone r -> phase_live p s') -> phase_live p s -> phase_live p s'.
Proof.
  intros (E1 & E2 & E3 & _ & _ & _ & _ & Et) Hr Hd.
  assert (Hb : forall a, blocked s a -> blocked s' a).
  { intros a [H|(f & Hf & H)]; [left; by apply Et|]. destruct (Hr f H); [right; by exists f|by left]. }
  assert (Hk : forall f, known s f -> known s' f) by (unfold known; intros; by rewrite E1).
  assert (Hs : forall sp, suspension_live sp s -> suspension_live sp s').
  { intros [f| |p']; cbn; eauto. }
  destruct p as [| | |sp|sp index|sp|[f| |]|p'|r|msg]; cbn [phase_live]; rewrite ?E2, ?E3; try done; try (by apply Hs).
  - intros [H1 H2]. split; [by apply Hs|]. eauto.
  - intros [H1 H2]. split; [by apply Hs|]. eauto.
  - intros [H1 [H2|H2]]; split; eauto. destruct (Hr f H2); auto.
  - intros [H1 H2]. split; [done|]. eauto.
  - eauto.
  - intros _. by eapply Hd.
Qed.

Lemma future_resolved_deliver r f s g :
  future_resolved s g = false -> futures s <> [] -> wake s <> None ->
  future_resolved (deliver r f s) g = false \/ token (deliver r f s).
Proof. intros _ _ Hw. right. unfold token, deliver. cbn. by destruct (wake s). Qed.

Lemma live_deliver_keeps r f s : keeps s (deliver r f s).
Proof.
  unfold keeps, deliver, token. cbn. rewrite length_alter. repeat split; try done; destruct (wake s); done.
Qed.

Lemma deliver_live r f s x p :
  futures s !! f = Some x -> state_live s -> phase_live p s -> state_live (deliver r f s) /\ phase_live p (deliver r f s).
Proof.
  intros Hx Hs Hp. split; [eapply keeps_live; [apply live_deliver_keeps|done]|].
  assert (Hne : futures s <> []) by (intros E; by rewrite E in Hx).
  eapply keeps_phase; [apply live_deliver_keeps| | |exact Hp].
  - intros g Hg. apply future_resolved_deliver; [done..|by apply (sl_wake _ Hs)].
  - intros r' ->. cbn in Hp |- *. rewrite Forall_lookup in Hp |- *. intros g y Hy.
    destruct (decide (g = f)) as [->|Hne'].
    + rewrite list_lookup_alter_eq, Hx in Hy. injection Hy as <-. cbn. by eapply Hp.
    + rewrite list_lookup_alter_ne in Hy by done. by eapply Hp.
Qed.

Lemma settle_resolved s f : future_resolved (settleDNSFutures s) f = future_resolved s f.
Proof.
  destruct (settle_spec s) as (R & T & -> & _). unfold future_resolved. cbn. rewrite list_lookup_fmap.
  destruct (futures s !! f) as [x|]; [|done]. cbn. unfold settle1. by destruct (newly x).
Qed.
Lemma live_settle_keeps s : keeps s (settleDNSFutures s) /\ wake (settleDNSFutures s) = wake s.
Proof.
  destruct (settle_spec s) as (R & T & -> & _). unfold keeps, token. cbn. rewrite length_fmap. done.
Qed.

(** ** Rules and actions *)

(** What the switch on an action can do: nothing to the futures, or launch a query. *)
Definition acts s (rule : DNSRule) (out : walk_outcome) s' : Prop :=
  (ruleIndex s' = ruleIndex s /\ armedRules s' = armedRules s /\ namedResponses s' = namedResponses s)
  /\ ((futures s' = futures s /\ namedFutures s' = namedFutures s /\ terminalFuture s' = terminalFuture s /\ wake s' = wake s
        /\ (anonymousFuture s' = anonymousFuture s \/ anonymousFuture s' = None)
        /\ match out with
           | WSuspend (SAwait f) => anonymousFuture s = Some f /\ future_resolved s f = false
           | WSuspend SDrain => armedRules s <> []
           | WSuspend (SPending p) => forall f, pe_future p = Some f -> terminalFuture s = Some f
           | WPanic _ => False
           | _ => True
           end)
      \/ (exists x, f_done x = None /\ futures s' = futures s ++ [x] /\ wake s' <> None /\ (token s -> token s')
         /\ (terminalFuture s' = terminalFuture s
             /\ (forall t f, namedFutures s' !! t = Some f -> namedFutures s !! t = Some f \/ f = length (futures s))
             /\ (forall f, anonymousFuture s' = Some f -> anonymousFuture s = Some f \/ f = length (futures s))
             /\ out = WNext
             \/ terminalFuture s = None /\ terminalFuture s' = Some (length (futures s)) /\ armedRules s <> []
                /\ namedFutures s' = namedFutures s /\ anonymousFuture s' = anonymousFuture s /\ out = WSuspend SDrain))).

Lemma live_launch_eq s tag terminal transport options : exists x wk,
  f_done x = None /\ wk <> None /\ (wake s = Some true -> wk = Some true)
  /\ launchDNSEvaluate strategy s tag terminal transport options
     = (length (futures s), set_futures (set_wake s wk) (futures s ++ [x])).
Proof.
  exists (MkFuture tag terminal transport (finalizeExchangeOptions strategy options) (ruleIndex s) None false false),
    (Some (default false (wake s))).
  split; [done|]. split; [done|]. split; [by intros ->|]. unfold launchDNSEvaluate.
  destruct s as [? ? ? ? ? ? ? ? ? ? [b|]]; reflexivity.
Qed.

Lemma held_armed s : held s = true -> armedRules s <> [].
Proof. unfold held. by destruct (armedRules s). Qed.

Lemma final_outcome a o : final_response message a = Some o -> exists r, o = Ok r.
Proof.
  unfold final_response, dnsRefusedResponse, Predefined_Response. destruct (Questions message); [done|].
  destruct a as [| | | |method noDrop|p]; try done.
  - case_bool_decide; [intros [= <-]; cbn; eauto|]. case_bool_decide; [intros [= <-]; eauto|done].
  - intros [= <-]. cbn. eauto.
Qed.

Lemma walk_action_acts s rule : acts s rule (walk_action s rule).1 (walk_action s rule).2.
Proof.
  assert (Hsame : forall out, match out with WNext | WResult _ => True | _ => False end -> acts s rule out s).
  { intros out Ho. split; [done|]. left. split_and!; try done; [by left|]. by destruct out. }
  assert (Hdrain : held s = true -> acts s rule (WSuspend SDrain) s).
  { intros Hh. split; [done|]. left. split_and!; try done; [by left|]. by apply held_armed. }
  unfold DnsWalk.walk_action. destruct (dns_Action rule) as [[server spec o|server tag spec o| |o|method noDrop|p]|];
    [| | | | | |by apply Hsame].
  - destruct (resolveDNSRoute _ _ _ _ _) as [|[[transport qo]|]]; [by apply Hsame| |by apply Hsame].
    destruct (held s) eqn:Hh.
    + destruct (spec && is_nil (terminalFuture s)) eqn:Hsp; [|by apply Hdrain].
      apply andb_true_iff in Hsp as [_ Ht]. destruct (live_launch_eq s "" true transport qo) as (x & wk & Hx & Hw & Htok & ->).
      split; [done|]. right. exists x. split; [done|]. split; [done|]. split; [done|]. split; [done|]. right.
      split; [by destruct (terminalFuture s)|]. split; [done|]. split; [by apply held_armed|]. done.
    + set (t := if bool_decide (terminalIndex s = ruleIndex s) then terminalFuture s else None).
      assert (Ht : forall f, t = Some f -> terminalFuture s = Some f) by (subst t; by case_bool_decide).
      destruct t as [f|] eqn:Et; (split; [done|]); left; split_and!; first [done | by left | cbn; intros f' [= <-]; by apply Ht].
  - destruct (tm_Transport tm server) as [transport|].
    2: { split; [by case_bool_decide|]. left. case_bool_decide; cbn; split_and!; try done; auto. }
    destruct (negb spec && held s) eqn:Hh; [apply andb_true_iff in Hh as [_ Hh]; by apply Hdrain|].
    destruct (live_launch_eq s tag false transport (applyDNSRouteOptions (effectiveOptions s) o)) as (x & wk & Hx & Hw & Htok & ->).
    unfold set_evaluated. split; [by case_bool_decide|]. right. exists x. split; [done|]. split; [by case_bool_decide|].
    split; [by case_bool_decide|]. split; [by case_bool_decide|]. left. split; [by case_bool_decide|]. split; [|split; [|done]].
    + intros t f. case_bool_decide; cbn; [by left|]. intros [[_ <-]|[_ ?]]%lookup_insert_Some; auto.
    + intros f. case_bool_decide; cbn; intros Ha; auto. injection Ha as <-. auto.
  - destruct (held s) eqn:Hh; [by apply Hdrain|].
    destruct (negb (bool_decide (MatchResponseTag (dns_Rule rule) = ""))); [by apply Hsame|].
    destruct (hasBindings (dns_Rule rule)); [by apply Hsame|].
    destruct (List.find _ _) as [f|] eqn:Hf; [|by apply Hsame]. apply find_some in Hf as [Hin Hf].
    split; [done|]. left. split_and!; try done; [by left|]. cbn.
    destruct (anonymousFuture s) as [g|]; [|done]. destruct Hin as [->|[]]. split; [done|]. by apply negb_true_iff.
  - split; [done|]. left. split_and!; try done. by left.
  - destruct (held s) eqn:Hh; [by apply Hdrain|].
    destruct (final_response message _) as [o|] eqn:Ho; [|by apply Hsame]. destruct (final_outcome _ _ Ho) as [r ->]. by apply Hsame.
  - destruct (held s) eqn:Hh; [by apply Hdrain|].
    destruct (final_response message _) as [o|] eqn:Ho; [|by apply Hsame]. destruct (final_outcome _ _ Ho) as [r ->]. by apply Hsame.
Qed.

(** ** The measure *)

Definition unresolved s : nat := length (List.filter (fun x => is_nil (f_done x)) (futures s)).
(** Queries to launch and replies to come; rules ahead and armed; the token. *)
Definition m_queries s : nat := 2 * (length rules + 1 - length (futures s)) + unresolved s.
Definition m_rules s : nat := 2 * (length rules - ruleIndex s) + length (armedRules s).
Definition m_token s : nat := if bool_decide (token s) then 1 else 0.

(** What the walker was suspended for has come: it walks on after the check. *)
Definition over (sp : dnsWalkSuspension) s : bool :=
  match sp with
  | SAwait f => future_resolved s f
  | SDrain => negb (held s)
  | SPending _ => false
  end.
Definition rank (p : walk_phase) s : nat :=
  let a := length (armedRules s) in
  match p with
  | PDone _ | PPanic _ => 0
  | PPending _ => 1
  | PWait sp => if over sp s then 9 + a else 2
  | PCheck sp => if over sp s then 10 + a else 3
  | PSweep sp index => (a - index) + if over sp s then 11 + a else 4
  | PSettle sp => a + if over sp s then 12 + a else 5
  | PJudge => 6 + a
  | PBind => 7 + a
  | PWalk => 8 + a
  end.

Definition measure k : nat :=
  let s := wk_state k in
  ((m_queries s * (2 * length rules + 1) + m_rules s) * 2 + m_token s) * (2 * length rules + 13) + rank (wk_phase k) s.

(** The measure in lexicographic order. *)
Definition below k' k : Prop :=
  let s := wk_state k in let s' := wk_state k' in
  m_queries s' < m_queries s
  \/ m_queries s' = m_queries s
     /\ (m_rules s' < m_rules s
         \/ m_rules s' = m_rules s
            /\ (m_token s' < m_token s \/ m_token s' = m_token s /\ rank (wk_phase k') s' < rank (wk_phase k) s)).

Lemma rank_bound s p : state_live s -> rank p s < 2 * length rules + 13.
Proof.
  intros [_ Ha Hi _ _ _ _ _]. destruct p as [| | |sp|sp index|sp|sp|p|r|msg]; cbn; try destruct (over sp s); lia.
Qed.

Lemma below_measure k' k : live k' -> live k -> below k' k -> measure k' < measure k.
Proof.
  intros [Hs' _] [Hs _] Hb. unfold below, measure in *.
  pose proof (rank_bound _ (wk_phase k') Hs') as Hr'. pose proof (rank_bound _ (wk_phase k) Hs) as Hr.
  assert (Hm : forall s, state_live s -> m_rules s < 2 * length rules + 1 /\ m_token s < 2).
  { intros s0 [_ Ha Hi _ _ _ _ _]. unfold m_rules, m_token. split; [lia|]. case_bool_decide; lia. }
  destruct (Hm _ Hs) as [Hr1 Ht1], (Hm _ Hs') as [Hr2 Ht2].
  set (q := m_queries _) in *. set (q' := m_queries (wk_state k')) in *.
  set (r := m_rules _) in *. set (r' := m_rules (wk_state k')) in *.
  set (t := m_token _) in *. set (t' := m_token (wk_state k')) in *.
  set (n := rank _ _) in *. set (n' := rank _ (wk_state k')) in *. set (R := 2 * length rules + 1) in *.
  replace (2 * length rules + 13) with (R + 12) in * by lia. clearbody q q' r r' t t' n n' R. clear -Hb Hr Hr' Hr1 Hr2 Ht1 Ht2.
  assert (Hdigit : forall base hi hi' lo lo', lo' < base -> hi' < hi -> hi' * base + lo' < hi * base + lo) by nia.
  destruct Hb as [Hq|[-> [Hr3|[-> [Ht|[-> Hn]]]]]]; [| | |lia].
  - apply Hdigit; [done|]. apply Hdigit; [done|]. by apply Hdigit.
  - apply Hdigit; [done|]. apply Hdigit; [done|]. lia.
  - apply Hdigit; [done|]. lia.
Qed.

(** ** Steps that keep the counts *)

Definition same_counts s s' : Prop :=
  m_queries s' = m_queries s /\ armedRules s' = armedRules s /\ ruleIndex s' = ruleIndex s /\ wake s' = wake s.

Lemma same_counts_trans s1 s2 s3 : same_counts s1 s2 -> same_counts s2 s3 -> same_counts s1 s3.
Proof. intros (E1 & E2 & E3 & E4) (F1 & F2 & F3 & F4). split_and!; congruence. Qed.

Lemma same_below k k' : same_counts (wk_state k) (wk_state k') ->
  rank (wk_phase k') (wk_state k') < rank (wk_phase k) (wk_state k) -> below k' k.
Proof.
  intros (E1 & E2 & E3 & E4) Hr. right. split; [done|]. right. unfold m_rules, m_token, token. rewrite E2, E3, E4. auto.
Qed.

Lemma same_counts_map s (g : dnsEvaluatedFuture -> dnsEvaluatedFuture) s' :
  (forall x, f_done (g x) = f_done x) -> futures s' = g <$> futures s -> armedRules s' = armedRules s -> ruleIndex s' = ruleIndex s ->
  wake s' = wake s -> same_counts s s'.
Proof.
  intros Hg E1 E2 E3 E4. split; [|done]. unfold m_queries, unresolved. rewrite E1, length_fmap.
  assert (H : forall l, length (List.filter (fun x => is_nil (f_done x)) (g <$> l)) = length (List.filter (fun x => is_nil (f_done x)) l)).
  { induction l as [|x l IH]; [done|]. cbn. rewrite Hg. destruct (is_nil (f_done x)); cbn; by rewrite IH. }
  by rewrite H.
Qed.

Lemma settle_counts s : same_counts s (settleDNSFutures s).
Proof.
  destruct (settle_spec s) as (R & T & -> & _). apply (same_counts_map s settle1); try done.
  intros x. unfold settle1. by destruct (newly x).
Qed.

Lemma cancel_counts s : same_counts s (cancelDNSFutures s).
Proof. by apply (same_counts_map s DnsWalk.cancel). Qed.

Lemma cancel_others_counts keep s : same_counts s (cancel_others keep s).
Proof.
  split; [|done]. unfold m_queries, unresolved, cancel_others. cbn. rewrite length_imap.
  assert (H : forall l (p : nat -> bool), length (List.filter (fun x => is_nil (f_done x)) (imap (fun i x => if p i then x else DnsWalk.cancel x) l))
    = length (List.filter (fun x => is_nil (f_done x)) l)).
  { induction l as [|x l IH]; intros p; [done|]. rewrite imap_cons. cbn [List.filter].
    replace (is_nil (f_done (if p 0 then x else DnsWalk.cancel x))) with (is_nil (f_done x)) by (by destruct (p 0)).
    pose proof (IH (fun i => p (S i))) as E. destruct (is_nil (f_done x)); cbn [length]; [apply (f_equal S)|]; exact E. }
  by rewrite (H _ (fun i => bool_decide (keep = Some i))).
Qed.

Lemma cancel_keeps s : keeps s (cancelDNSFutures s).
Proof. unfold keeps, cancelDNSFutures, token. cbn. rewrite length_fmap. done. Qed.
Lemma cancel_others_keeps keep s : keeps s (cancel_others keep s).
Proof. unfold keeps, cancel_others, token. cbn. rewrite length_imap. done. Qed.

(** ** Ends of a walk *)

Lemma finish_ok k r md : live k -> (forall r, wk_phase k <> PDone r) -> (forall msg, wk_phase k <> PPanic msg) ->
  forall s, same_counts (wk_state k) s -> state_live s -> live (finish r s md) /\ below (finish r s md) k.
Proof.
  intros Hk Hd Hp s Hc Hs. split.
  - split; [eapply keeps_live; [apply cancel_keeps|done]|]. cbn. apply Forall_forall. intros x (y & -> & _)%list_elem_of_fmap. done.
  - apply same_below.
    + exact (same_counts_trans _ _ _ Hc (cancel_counts s)).
    + cbn. destruct (wk_phase k) as [| | |sp|sp index|sp|sp|p|r'|msg]; cbn; try destruct (over sp (wk_state k)); try lia;
        [by destruct (Hd r')|by destruct (Hp msg)].
Qed.

Lemma suspend_ok sp s md resumed : state_live s -> suspension_live sp s -> over sp s = false ->
  live (suspend async sp s md resumed) /\ same_counts s (wk_state (suspend async sp s md resumed))
  /\ rank (wk_phase (suspend async sp s md resumed)) (wk_state (suspend async sp s md resumed)) < 6 + length (armedRules s).
Proof.
  intros Hs Hsp Ho.
  assert (Hsettle : live (MkWalker (PSettle sp) s md true) /\ same_counts s s /\ rank (PSettle sp) s < 6 + length (armedRules s)).
  { split; [split; [done|exact Hsp]|]. split; [done|]. cbn. rewrite Ho. lia. }
  unfold suspend. destruct sp as [f| |[t o [f|] i]]; try exact Hsettle. destruct (async && negb resumed); [|exact Hsettle].
  split; [|split; [apply cancel_counts|cbn; lia]]. split; [eapply keeps_live; [apply cancel_keeps|done]|]. cbn. done.
Qed.

Lemma suspend_below k sp s md resumed : same_counts (wk_state k) s ->
  6 + length (armedRules s) <= rank (wk_phase k) (wk_state k) -> state_live s -> suspension_live sp s -> over sp s = false ->
  live (suspend async sp s md resumed) /\ below (suspend async sp s md resumed) k.
Proof.
  intros Hc Hr Hs Hsp Ho. destruct (suspend_ok sp s md resumed Hs Hsp Ho) as (H1 & H2 & H3). split; [done|].
  apply same_below; [by eapply same_counts_trans|lia].
Qed.

(** ** The steps of the walker *)

Definition steps_to k k' : Prop := live k' /\ below k' k.

Lemma next_rule_live s : state_live s -> ruleIndex s < length rules -> state_live (next_rule s).
Proof. intros [H1 H2 H3 H4 H5 H6 H7 H8] Hi. split; cbn; try done; lia. Qed.

Lemma next_rule_below s p md res md' res' p' :
  ruleIndex s < length rules -> below (MkWalker p' (next_rule s) md' res') (MkWalker p s md res).
Proof. intros Hi. right. split; [done|]. left. unfold m_rules. cbn. lia. Qed.

Lemma rule_index s : is_Some (rules !! ruleIndex s) -> ruleIndex s < length rules.
Proof. intros [rule H]. by eapply lookup_lt_Some. Qed.

Lemma run_walk s md res k' : live (MkWalker PWalk s md res) -> walk_run INone (MkWalker PWalk s md res) = Some k' ->
  steps_to (MkWalker PWalk s md res) k'.
Proof.
  intros [Hs _] H. cbn [wk_state] in Hs. cbn -[suspend] in H. destruct (rules !! ruleIndex s) as [rule|] eqn:Hr.
  - destruct (live_settle_keeps s) as [Hk _]. destruct (hasBindings (dns_Rule rule)); apply Some_inj in H; subst k'.
    + split; [split; [by eapply keeps_live|]|].
      * cbn. destruct Hk as (_ & -> & _). by rewrite Hr.
      * apply same_below; [apply settle_counts|]. cbn. destruct Hk as (_ & _ & -> & _). lia.
    + split; [split; [done|]|]; [cbn; by rewrite Hr|]. apply same_below; [done|cbn; lia].
  - apply Some_inj in H. destruct (held s) eqn:Hh; subst k'; apply suspend_below; cbn -[rank]; try done; [cbn; lia|by rewrite Hh|cbn; lia].
Qed.

Lemma pending_known s r f : state_live s ->
  f ∈ pending_named s (MatchResponseTags r) ++ pending_anonymous s r -> known s f /\ future_resolved s f = false.
Proof.
  intros Hs [Hf|Hf]%elem_of_app.
  - apply list_elem_of_In, filter_In in Hf as [Hf%list_elem_of_In Hu]. apply negb_true_iff in Hu. split; [|done].
    apply list_elem_of_omap in Hf as (t & _ & Ht). by eapply sl_named.
  - unfold pending_anonymous in Hf. destruct (if MatchResponseAnonymous r then _ else _) as [g|] eqn:Hg; [|set_solver].
    destruct (future_resolved s g) eqn:Hu; [set_solver|]. apply list_elem_of_singleton in Hf as ->. split; [|done].
    destruct (MatchResponseAnonymous r); [|done]. by eapply sl_anonymous.
Qed.

Lemma run_bind s md res k' : live (MkWalker PBind s md res) -> walk_run INone (MkWalker PBind s md res) = Some k' ->
  steps_to (MkWalker PBind s md res) k'.
Proof.
  intros [Hs Hp] H. cbn [wk_state wk_phase] in Hs, Hp. pose proof (rule_index s Hp) as Hi. cbn -[suspend bind_rule] in H.
  destruct (rules !! ruleIndex s) as [rule|] eqn:Hr; [|done]. unfold bind_rule in H.
  pose proof (fun f => pending_known s (dns_Rule rule) f Hs) as Hknown.
  destruct (pending_named s _ ++ pending_anonymous s _) as [|f l] eqn:Hl.
  { apply Some_inj in H. subst k'. split; [split; [done|]|]; [cbn; by rewrite Hr|]. apply same_below; [done|cbn; lia]. }
  destruct (Race (dns_Rule rule)).
  - apply Some_inj in H. subst k'. set (armed := MkArmed _ _ _ _ _ _). split.
    + split; [|done]. cbn. destruct Hs as [H1 H2 H3 H4 H5 H6 H7 H8]. split; cbn; rewrite ?length_app; cbn; try done; try lia.
      intros a g [Ha|Ha]%elem_of_app Hg; [by eapply H8|]. apply list_elem_of_singleton in Ha as ->. cbn in Hg. by apply Hknown.
    + right. split; [done|]. left. unfold m_rules. cbn. rewrite length_app. cbn. lia.
  - apply Some_inj in H. subst k'. destruct (Hknown f ltac:(set_solver)) as [Hk Hu].
    apply suspend_below; try done. cbn. lia.
Qed.

Lemma unresolved_snoc s s' x : f_done x = None -> futures s' = futures s ++ [x] -> unresolved s' = S (unresolved s).
Proof. intros Hx E. unfold unresolved. rewrite E, List.filter_app, length_app. cbn. rewrite Hx. cbn. lia. Qed.

Lemma acts_ok s rule out s' md res md' : acts s rule out s' -> state_live s -> ruleIndex s < length rules ->
  match out with
  | WNext => steps_to (MkWalker PJudge s md res) (MkWalker PWalk (next_rule s') md' res)
  | WResult r => steps_to (MkWalker PJudge s md res) (finish r s' md')
  | WSuspend sp => steps_to (MkWalker PJudge s md res) (suspend async sp s' md' res)
  | WPanic _ => False
  end.
Proof.
  intros [(E1 & E2 & _) [(E3 & E4 & E5 & E6 & Ea & Ho)|(x & Hx & Ef & Hw & Htok & Hcase)]] Hs Hi.
  - assert (Hs' : state_live s').
    { destruct Hs as [H1 H2 H3 H4 H5 H6 H7 H8]. split; unfold known; rewrite ?E1, ?E2, ?E3, ?E4, ?E5, ?E6; try done.
      intros f Hf. destruct Ea as [Ea|Ea]; rewrite Ea in Hf; [by apply H6|done]. }
    assert (Hc : same_counts s s') by (split; [unfold m_queries, unresolved; by rewrite E3|done]).
    assert (Hres : forall f, future_resolved s' f = future_resolved s f) by (intros f; unfold future_resolved; by rewrite E3).
    destruct out as [|r|sp|msg]; [| | |done].
    + split; [split; [apply next_rule_live; [done|cbn; lia]|done]|].
      destruct Hc as (C1 & C2 & C3 & _). right. split; [done|]. left. unfold m_rules. cbn. rewrite C2, C3. lia.
    + apply finish_ok; try done. split; [done|]. cbn. apply lookup_lt_is_Some. lia.
    + apply suspend_below; try done; [cbn; rewrite E2; lia| |].
      * destruct sp as [f| |p]; cbn; [|done|].
        -- destruct Ho as [Ho _]. unfold known. rewrite E3. by apply (sl_anonymous _ Hs).
        -- intros f Hf. unfold known. rewrite E3. apply (sl_terminal _ Hs). by apply Ho.
      * destruct sp as [f| |p]; cbn; [|unfold held; rewrite E2; by destruct (armedRules s)|done]. rewrite Hres. by destruct Ho.
  - assert (Hlen : length (futures s') = S (length (futures s))) by (rewrite Ef, length_app; cbn; lia).
    pose proof (unresolved_snoc s s' x Hx Ef) as Hun.
    assert (Hlt : length (futures s) <= length rules) by (destruct Hs as [H1 _ _ _ _ _ _ _]; destruct (terminalFuture s); lia).
    assert (Hq : forall p p' md' res', below (MkWalker p' (next_rule s') md' res') (MkWalker p s md res)).
    { intros. left. change (m_queries s' < m_queries s). unfold m_queries. rewrite Hlen, Hun. lia. }
    assert (Hkn : forall f, known s f -> known s' f) by (unfold known; intros; lia).
    assert (Hnew : known s' (length (futures s))) by (unfold known; lia).
    destruct Hs as [H1 H2 H3 H4 H5 H6 H7 H8].
    destruct Hcase as [(Et & Hn & Ha & ->)|(Et & Et' & Har & En & Ea & ->)].
    + split; [|apply Hq]. split; [|done]. split; cbn; rewrite ?E1, ?E2, ?Et; try done; try lia.
      * intros t f Hf. destruct (Hn t f Hf) as [Hf'| ->]; [by eapply Hkn, H5|done].
      * intros f Hf. destruct (Ha f Hf) as [Hf'| ->]; [by eapply Hkn, H6|done].
      * intros f Hf. by eapply Hkn, H7.
      * intros a f Hin Hf. by eapply Hkn, H8.
    + assert (Hs' : state_live s').
      { split; rewrite ?E1, ?E2, ?Et', ?En, ?Ea; try done; try lia.
        - rewrite Et in H1. lia.
        - intros t f Hf. by eapply Hkn, H5.
        - intros f Hf. by eapply Hkn, H6.
        - intros f [= <-]. done.
        - intros a f Hin Hf. by eapply Hkn, H8. }
      assert (Hover : over SDrain s' = false) by (cbn; unfold held; rewrite E2; by destruct (armedRules s)).
      destruct (suspend_ok SDrain s' md' res Hs' I Hover) as (L1 & (L2 & _) & _). split; [exact L1|].
      left. rewrite L2. change (m_queries s' < m_queries s). unfold m_queries. rewrite Hlen, Hun. lia.
Qed.

Lemma run_judge s md res k' : live (MkWalker PJudge s md res) -> walk_run INone (MkWalker PJudge s md res) = Some k' ->
  steps_to (MkWalker PJudge s md res) k'.
Proof.
  intros [Hs Hp] H. cbn [wk_state wk_phase] in Hs, Hp. pose proof (rule_index s Hp) as Hi. cbn -[suspend judge_rule finish] in H.
  destruct (rules !! ruleIndex s) as [rule|] eqn:Hr; [|done]. unfold judge_rule in H.
  destruct (rule_Match w _ _) as [matched md1]. destruct matched; cbn [negb] in H.
  - pose proof (walk_action_acts s rule) as Ha. destruct (walk_action s rule) as [out s']. cbn [fst snd] in Ha.
    pose proof (acts_ok s rule out s' md res md1 Ha Hs Hi) as Hok. destruct out; [..|done]; apply Some_inj in H; subst k'; exact Hok.
  - apply Some_inj in H. subst k'. split; [split; [by apply next_rule_live|done]|]. by apply next_rule_below.
Qed.

Lemma run_settle sp s md res k' : live (MkWalker (PSettle sp) s md res) -> walk_run INone (MkWalker (PSettle sp) s md res) = Some k' ->
  steps_to (MkWalker (PSettle sp) s md res) k'.
Proof.
  intros [Hs Hp] H. cbn [wk_state wk_phase] in Hs, Hp. cbn in H. apply Some_inj in H. subst k'.
  destruct (live_settle_keeps s) as [Hk _]. split.
  - split; [by eapply keeps_live|]. cbn. split; [|lia].
    destruct Hk as (E & _). destruct sp as [f| |p]; cbn in *; unfold known in *; rewrite ?E; done.
  - apply same_below; [apply settle_counts|]. cbn.
    assert (over sp (settleDNSFutures s) = over sp s) as ->.
    { destruct sp as [f| |p]; cbn; [apply settle_resolved| |done]. unfold held. by destruct Hk as (_ & _ & -> & _). }
    destruct Hk as (_ & _ & -> & _). destruct (over sp s); lia.
Qed.

(** An armed rule is removed. *)
Definition removed s (index : nat) : dnsRuleWalkState := set_armedRules s (take index (armedRules s) ++ drop (S index) (armedRules s)).

Lemma removed_live s index : state_live s -> state_live (removed s index).
Proof.
  intros [H1 H2 H3 H4 H5 H6 H7 H8]. split; cbn; try done.
  - rewrite length_app, length_take, length_drop. lia.
  - intros a f [(i & Hi & _)%elem_of_take|(i & Hi)%list_elem_of_lookup_1]%elem_of_app.
    { eapply H8. by eapply list_elem_of_lookup_2. }
    rewrite lookup_drop in Hi. eapply H8. by eapply list_elem_of_lookup_2.
Qed.

Lemma removed_below s s' index a p md res p' md' res' : armedRules s !! index = Some a -> m_queries s' = m_queries (removed s index) ->
  m_rules s' = m_rules (removed s index) -> below (MkWalker p' s' md' res') (MkWalker p s md res).
Proof.
  intros Ha%lookup_lt_Some E1 E2. right. cbn [wk_state]. split; [exact E1|]. left. rewrite E2. unfold m_rules. cbn.
  rewrite length_app, length_take, length_drop. lia.
Qed.

Lemma sweep_outcomes s armed index :
  match sweep_action tm message allowFakeIP s armed index with
  | SwNext i => i = index
  | SwPending p => pe_future p = None
  | SwResult _ => True
  | SwPanic _ => False
  end.
Proof.
  unfold sweep_action. destruct (dns_Action (ar_rule armed)) as [[server spec o|server tag spec o| |o|method noDrop|p]|]; try done.
  - by destruct (resolveDNSRoute _ _ _ _ _) as [|[[]|]].
  - destruct (final_response message _) as [o|] eqn:Ho; [|done]. by destruct (final_outcome _ _ Ho) as [r ->].
  - destruct (final_response message _) as [o|] eqn:Ho; [|done]. by destruct (final_outcome _ _ Ho) as [r ->].
Qed.

Lemma run_sweep sp index s md res k' : live (MkWalker (PSweep sp index) s md res) ->
  walk_run INone (MkWalker (PSweep sp index) s md res) = Some k' -> steps_to (MkWalker (PSweep sp index) s md res) k'.
Proof.
  intros [Hs [Hsp Hb]] H. cbn [wk_state] in Hs, Hsp, Hb. cbn -[finish finishPendingExchange sweep_one] in H.
  destruct (armedRules s !! index) as [armed|] eqn:Ha.
  2: { apply Some_inj in H. subst k'. apply lookup_ge_None in Ha. split.
       - split; [done|]. split; [done|]. intros a [j Hj]%list_elem_of_lookup_1. eapply Hb; [|exact Hj]. apply lookup_lt_Some in Hj. cbn in Hj. lia.
       - apply same_below; [done|]. cbn. destruct (over sp s); lia. }
  unfold sweep_one in H. destruct (forallb (future_resolved s) (ar_futures armed)) eqn:Hall; cbn [negb] in H.
  - fold (removed s index) in H. destruct (rule_Match w _ _) as [matched md1].
    assert (Hlive : state_live (removed s index)) by (by apply removed_live).
    assert (Hnext : steps_to (MkWalker (PSweep sp index) s md res) (MkWalker (PSweep sp index) (removed s index) md1 res)).
    { split; [|by eapply removed_below]. split; [done|]. split; [by destruct sp|]. cbn. intros j a Hj Hja.
      eapply (Hb j); [done|]. rewrite lookup_app_l, lookup_take_lt in Hja; [done|lia|].
      rewrite length_take. apply lookup_lt_Some in Ha. lia. }
    destruct matched; cbn [negb] in H; [|apply Some_inj in H; by subst k'].
    pose proof (sweep_outcomes (removed s index) armed index) as Ho.
    destruct (sweep_action _ _ _ _ _ _) as [i|r|p|msg]; [subst i| | |done]; apply Some_inj in H; subst k'; [done| |].
    + split; [|eapply removed_below; [done| |]]; try (destruct (cancel_counts (removed s index)) as (E1 & E2 & E3 & _)).
      * split; [eapply keeps_live; [apply cancel_keeps|done]|]. cbn. apply Forall_forall. intros x (y & -> & _)%list_elem_of_fmap. done.
      * exact E1.
      * unfold m_rules. rewrite E2, E3. done.
    + unfold finishPendingExchange. destruct (cancel_others_counts (pe_future p) (removed s index)) as (E1 & E2 & E3 & _).
      split; [|eapply removed_below; [done|exact E1|unfold m_rules; by rewrite E2, E3]].
      split; [eapply keeps_live; [apply cancel_others_keeps|done]|]. cbn. rewrite Ho. done.
  - apply Some_inj in H. subst k'. pose proof (lookup_lt_Some _ _ _ Ha) as Hlt. split.
    + split; [done|]. split; [done|]. cbn. intros j a Hj Hja. destruct (decide (j = index)) as [->|Hne]; [|eapply Hb; [|done]; lia].
      assert (a = armed) as -> by congruence. right.
      apply not_true_iff_false in Hall. rewrite forallb_forall in Hall.
      destruct (List.find (fun f => negb (future_resolved s f)) (ar_futures armed)) as [f|] eqn:Hf.
      * apply find_some in Hf as [Hf Hu]. exists f. split; [by apply list_elem_of_In|by apply negb_true_iff].
      * exfalso. apply Hall. intros f Hin. pose proof (find_none _ _ Hf f Hin) as Hn. by apply negb_false_iff in Hn.
    + apply same_below; [done|]. cbn. destruct (over sp s); lia.
Qed.

Lemma run_check sp s md res k' : live (MkWalker (PCheck sp) s md res) -> walk_run INone (MkWalker (PCheck sp) s md res) = Some k' ->
  steps_to (MkWalker (PCheck sp) s md res) k'.
Proof.
  intros [Hs [Hsp Hb]] H. cbn [wk_state] in Hs, Hsp, Hb. cbn -[finishPendingExchange] in H.
  destruct sp as [f| |p]; apply Some_inj in H; subst k'.
  - destruct (future_resolved s f) eqn:Hr.
    + split; [done|]. apply same_below; [done|]. cbn. rewrite Hr. lia.
    + split; [split; [done|]|]; [cbn; auto|]. apply same_below; [done|]. cbn. rewrite Hr. lia.
  - destruct (held s) eqn:Hh.
    + split; [split; [done|]|]; [cbn; split; [by apply held_armed|done]|]. apply same_below; [done|]. cbn. rewrite Hh. cbn. lia.
    + split; [done|]. apply same_below; [done|]. cbn. rewrite Hh. cbn. lia.
  - split; [|apply same_below; [apply cancel_others_counts|cbn; lia]].
    split; [eapply keeps_live; [apply cancel_others_keeps|done]|]. cbn. intros f Hf. unfold known. cbn. rewrite length_imap. by apply Hsp.
Qed.

Lemma live_run_wait sp inp s md res k' : live (MkWalker (PWait sp) s md res) -> walk_run inp (MkWalker (PWait sp) s md res) = Some k' ->
  steps_to (MkWalker (PWait sp) s md res) k'.
Proof.
  intros Hk H. destruct inp as [|r|e]; [|done|apply Some_inj in H; subst k'; apply finish_ok; try done; apply Hk].
  cbn in H. case_bool_decide as Ht; [|done]. apply Some_inj in H. subst k'. destruct Hk as [Hs Hp]. cbn [wk_state wk_phase] in Hs, Hp.
  split.
  - split; [destruct Hs; by split|]. cbn. destruct sp as [f| |p]; [by destruct Hp|done|done].
  - right. split; [done|]. right. split; [done|]. left. unfold m_token, token. cbn [wk_state].
    rewrite bool_decide_eq_false_2, bool_decide_eq_true_2 by done. lia.
Qed.

Lemma run_pending p inp s md res k' : live (MkWalker (PPending p) s md res) -> walk_run inp (MkWalker (PPending p) s md res) = Some k' ->
  steps_to (MkWalker (PPending p) s md res) k'.
Proof.
  intros Hk H. assert (Hfin : forall r, steps_to (MkWalker (PPending p) s md res) (finish r s md)).
  { intros r. apply finish_ok; try done. apply Hk. }
  destruct inp as [|[response err]|e]; cbn -[finish] in H; repeat (case_match; try done); simplify_eq; apply Hfin.
Qed.

Lemma live_run_ok inp k k' : live k -> walk_run inp k = Some k' -> steps_to k k'.
Proof.
  destruct k as [p s md res]. intros Hk H.
  destruct p as [| | |sp|sp index|sp|sp|p|r|msg]; try (destruct inp; try discriminate H);
    eauto using run_walk, run_bind, run_judge, run_settle, run_sweep, run_check, live_run_wait, run_pending.
Qed.

Lemma unresolved_deliver r f s x : futures s !! f = Some x -> f_done x = None -> S (unresolved (deliver r f s)) = unresolved s.
Proof.
  unfold unresolved, deliver. cbn. generalize (futures s) as l. induction f as [|f IH]; intros [|y l] Hx Hd; try done; cbn in Hx |- *.
  - injection Hx as ->. by rewrite Hd.
  - specialize (IH l Hx Hd). cbn in IH. destruct (is_nil (f_done y)); cbn; lia.
Qed.

Lemma live_step_ok k k' : live k -> walk_step k k' -> live k' /\ measure k' < measure k.
Proof.
  intros Hk Hstep. assert (Hok : steps_to k k').
  { destruct Hstep as [inp k k' _ _ H|r f x k Hx Hd _ _]; [by eapply live_run_ok|].
    destruct (deliver_live r f (wk_state k) x (wk_phase k) Hx (proj1 Hk) (proj2 Hk)) as [H1 H2].
    split; [by split|]. left. change (m_queries (deliver r f (wk_state k)) < m_queries (wk_state k)). unfold m_queries. pose proof (unresolved_deliver r f (wk_state k) x Hx Hd) as Hu.
    replace (length (futures (deliver r f (wk_state k)))) with (length (futures (wk_state k))) by (cbn; by rewrite length_alter). lia. }
  destruct Hok as [Hl Hb]. split; [done|]. by apply below_measure.
Qed.

Lemma start_live options md : live (start_walk options md).
Proof. clear Hquestion. split; [|done]. split; cbn; try done; try lia; try set_solver. Qed.

(** ** Progress *)

Lemma can_deliver k f : settling (wk_phase k) = false -> known (wk_state k) f -> future_resolved (wk_state k) f = false ->
  exists k', walk_step k k'.
Proof.
  intros Hs [x Hx]%lookup_lt_is_Some Hu. unfold future_resolved in Hu. rewrite Hx in Hu.
  eexists. apply (walk_step_deliver _ _ _ _ _ _ _ _ _ _ (answer (f_rule x) (f_transport x) (f_options x)) f x); try done.
  - unfold resolved in Hu. by destruct (f_done x).
  - by rewrite Hs.
Qed.

Lemma can_run k : is_Some (walk_run INone k) -> exists k', walk_step k k'.
Proof. intros [k' H]. exists k'. by eapply (walk_step_run _ _ _ _ _ _ _ _ _ _ INone). Qed.

Lemma can_step k : live k -> (forall r, wk_phase k <> PDone r) -> exists k', walk_step k k'.
Proof.
  destruct k as [p s md res]. intros [Hs Hp] Hd. cbn [wk_state wk_phase] in *.
  destruct p as [| | |sp|sp index|sp|sp|p|r|msg]; [..|by destruct (Hd r)|done].
  - apply can_run. cbn -[suspend]. repeat case_match; eauto.
  - apply can_run. cbn -[suspend]. cbn in Hp. destruct Hp as [rule ->]. case_match; eauto.
  - apply can_run. cbn -[suspend]. cbn in Hp. destruct Hp as [rule ->]. destruct (judge_rule _ _ _ _ _ _ _ _) as [[[] ?] ?]; eauto.
  - apply can_run. cbn. eauto.
  - apply can_run. cbn -[finish finishPendingExchange]. case_match; [|eauto]. destruct (sweep_one _ _ _ _ _ _ _ _) as [[[] ?] ?]; eauto.
  - apply can_run. cbn. case_match; eauto.
  - destruct (decide (token s)) as [Ht|Ht].
    { apply can_run. cbn. rewrite bool_decide_eq_true_2 by done. eauto. }
    destruct sp as [f| |]; cbn in Hp; [| |done].
    + destruct Hp as [Hk [?|Hu]]; [done|]. by apply (can_deliver _ f).
    + destruct Hp as [Hne Hb]. destruct (armedRules s) as [|a l] eqn:Ha; [done|].
      destruct (Hb a ltac:(set_solver)) as [?|(f & Hf & Hu)]; [done|]. apply (can_deliver _ f); try done.
      apply (sl_rules _ Hs a f); [rewrite Ha; set_solver|done].
  - cbn in Hp. destruct p as [transport options [f|] i].
    + destruct (future_resolved s f) eqn:Hr; [|by apply (can_deliver _ f); [|apply Hp|]].
      apply can_run. cbn -[finish]. unfold future_resolved in Hr. destruct (futures s !! f) as [x|]; [|done].
      unfold resolved in Hr. destruct (f_done x) as [[]|]; [eauto|done].
    + set (p := MkPending transport options None i). set (r := answer i transport (finalizeExchangeOptions strategy options)).
      exists (finish (MkExchangeResult r.1 (Some transport) None r.2) s md).
      eapply (walk_step_run _ _ _ _ _ _ _ _ _ _ (IReply r)); [|done|by destruct r].
      intros r' p' [= <-] [= <-]. done.
Qed.

Lemma live_steps n k k' : live k -> nsteps walk_step n k k' -> live k' /\ n + measure k' <= measure k.
Proof.
  intros Hk Hn. induction Hn as [k|n k1 k2 k3 H12 _ IH]; [split; [done|lia]|].
  destruct (live_step_ok _ _ Hk H12) as [H2 Hm]. destruct (IH H2) as [H3 Hle]. split; [done|lia].
Qed.
End Live.

(** The bound on the steps of a walk over [n] rules. *)
Definition walk_bound (n : nat) : nat := (2 * (n + 1) * (2 * n + 1) + 2 * n) * 2 * (2 * n + 13) + 8.

(** C19: A walk over the DNS rules always ends: whatever the rules and the order of the
    replies, it takes at most [walk_bound] steps, arrivals of replies included (a bound
    cubic in the number of rules), and as long as it has no result there is a next
    step: the walker can go on, or a reply it waits for is still to arrive.  When it
    has its result every query it sent is cancelled. *)
Theorem dns_walk_ends {X : External} w tm strategy rules message allowFakeIP async answer ended tidy options md :
  Questions message <> [] ->
  let walk_step := walk_step w tm strategy rules message allowFakeIP async answer ended tidy in
  (forall n k, nsteps walk_step n (start_walk options md) k -> n <= walk_bound (length rules))
  /\ forall k, walk_reachable w tm strategy rules message allowFakeIP async answer ended tidy options md k ->
       (exists k', walk_step k k')
       \/ exists r, wk_phase k = PDone r /\ Forall (fun x => f_cancelled x = true) (futures (wk_state k)).
Proof.
  intros Hq walk_step. split.
  - intros n k Hn.
    destruct (live_steps w tm strategy rules message allowFakeIP async answer ended tidy Hq n _ _ (start_live rules options md) Hn) as [_ Hle].
    assert (E : measure rules (start_walk options md) = walk_bound (length rules)); [|lia].
    unfold measure, m_queries, m_rules, m_token, unresolved, walk_bound, token. cbn [start_walk wk_state wk_phase start_state futures
      armedRules ruleIndex wake rank length List.filter]. rewrite bool_decide_eq_false_2 by done. lia.
  - intros k Hk. apply rtc_nsteps in Hk as [n Hn].
    destruct (live_steps w tm strategy rules message allowFakeIP async answer ended tidy Hq n _ _ (start_live rules options md) Hn) as [Hl _].
    assert (Hd : (exists r, wk_phase k = PDone r) \/ forall r, wk_phase k <> PDone r) by (destruct (wk_phase k); eauto).
    destruct Hd as [[r Hr]|Hd]; [right|left; by eapply can_step].
    exists r. split; [done|]. destruct Hl as [_ Hl]. by rewrite Hr in Hl.
Qed.
