(* ===== verification/DnsModeSpec.v ===== *)
(** * What the DNS router checks of its rules

    Rules the router builds without the legacy mode are as the walk needs them
    ([built_rules_ok]); a rule-set update the router accepts keeps its mode
    ([accepted_update_keeps_mode]). *)

From S2P Require Import Prelude GoStd Netip External DnsMsg RuleItems RuleMatch RuleSpec RuleOptions RuleBuild RuleAction DnsClient DnsRule DnsMode DnsWalk DnsRuleSpec DnsWalkSim.
Local Open Scope Z_scope.

(** ** Induction on rule options *)

Section options_ind.
Context {X : External}.
Variable P : DNSRuleOptions -> Prop.
Hypothesis Hrule : forall type d mode rules invert action,
  Forall P (elems rules) -> P (MkDNSRuleOptions type d (MkLogicalDNSOptions mode rules invert action)).

Fixpoint DNSRuleOptions_nested_ind (r : DNSRuleOptions) : P r :=
  match r with
  | MkDNSRuleOptions type d (MkLogicalDNSOptions mode rules invert action) =>
      Hrule type d mode rules invert action
        (match rules as o return Forall P (elems o) with
         | None => Forall_nil_2 P
         | Some rs => (fix go (l : list DNSRuleOptions) : Forall P l :=
                         match l with
                         | [] => Forall_nil_2 P
                         | r :: l' => Forall_cons_2 P r l' (DNSRuleOptions_nested_ind r) (go l')
                         end) rs
         end)
  end.
End options_ind.

Lemma omap_from_lookup {A B} (f : Z -> A -> outcome B) i l ys j y :
  omap_from f i l = Ok ys -> ys !! j = Some y -> exists x, l !! j = Some x /\ f (i + Z.of_nat j) x = Ok y.
Proof.
  revert i ys j. induction l as [|x l IH]; intros i ys j H Hy; cbn in H; inv_ok; [done|].
  destruct j as [|j]; cbn in Hy.
  - injection Hy as <-. exists x. by rewrite Z.add_0_r.
  - destruct (IH _ _ _ E0 Hy) as (x' & Hx & Hf). exists x'. split; [done|]. rewrite <- Hf. f_equal. lia.
Qed.

Ltac neutral_item_tac :=
  intros; unfold cause, wrap_err, NewDomainItem, NewDomainRegexItem, NewIPCIDRItem, NewPortRangeItem, NewProcessPathRegexItem,
    NewPackageNameRegexItem in *; repeat (case_match; simplify_eq; cbn [obind] in * ); inv_ok; simplify_eq; done.

Section ModeSpec.
Context {X : External}.
Variable router : option (string -> option RuleSetMetadata).

(** [DNSRuleMatchResponse.UnmarshalJSON] gives a tag only together with [Enabled]. *)
Definition decoded_match (o : option DNSRuleMatchResponse) : bool :=
  IsEnabled o || bool_decide (ResponseTag o = "").
Fixpoint decoded_rule (r : DNSRuleOptions) : bool :=
  match r with
  | MkDNSRuleOptions _ d (MkLogicalDNSOptions _ rules _ _) =>
      decoded_match (n_MatchResponse d) && match rules with Some l => forallb decoded_rule l | None => true end
  end.

(** ** Items of rules without response fields *)

Definition neutral_step (s : step) : Prop := forall it, s.2 = Some (Ok it) -> neutral_item it = true.

Lemma neutral_append ts it r :
  neutral_item it = true -> neutral_items r = true -> neutral_items (append_to_lists ts it r) = true.
Proof.
  intros Hi. unfold append_to_lists. revert r. induction ts as [|t ts IH]; intros r Hr; [done|]. cbn [fold_left]. apply IH.
  revert Hr. unfold neutral_items. destruct r, t as [[]|]; cbn; rewrite ?forallb_app; cbn; rewrite ?Hi, ?andb_true_r; done.
Qed.

Lemma neutral_run l r r' : Forall neutral_step l -> neutral_items r = true -> run_steps l r = Ok r' -> neutral_items r' = true.
Proof.
  intros Hl. revert r. induction Hl as [|[ts [o|]] l Hs _ IH]; cbn [run_steps]; intros r Hr H.
  - by injection H as <-.
  - destruct o as [it| | |]; try discriminate. cbn [obind] in H. eapply IH; [|done]. apply neutral_append; [|done]. by apply Hs.
  - by eapply IH.
Qed.

Lemma neutral_when ts c o : (forall it, o = Ok it -> neutral_item it = true) -> neutral_step (ts, when c o).
Proof. intros Ho it. unfold when. destruct c; cbn; [|done]. intros [= ->]. by apply Ho. Qed.

Lemma neutral_steps (o : RawDefaultDNSRule RR) :
  negb (is_nil (n_ResponseRcode o)) || given (n_ResponseAnswer o) || given (n_ResponseNs o) || given (n_ResponseExtra o) = false ->
  Forall neutral_step (default_dns_steps o ++ dns_response_steps o ++ dns_process_steps o ++ dns_network_steps o).
Proof.
  intros H. to_prop. destruct (n_ResponseRcode o) eqn:E; [done|].
  repeat apply Forall_app_2; unfold default_dns_steps, dns_response_steps, dns_process_steps, dns_network_steps, process_steps,
    network_steps, preferred_by_steps, ip_version_step; try apply Forall_app_2;
  repeat first [apply Forall_nil_2 | apply Forall_cons_2];
  first [apply neutral_when; neutral_item_tac
        | intros it; cbn; rewrite ?E; repeat match goal with H : given _ = false |- _ => rewrite H; clear H end; cbn;
          repeat case_match; cbn; try done; intros [= <-]; done
        | intros it; cbn; case_match; [|done]; by match goal with |- _ <$> ?x = _ -> _ => destruct x; cbn; [intros [= <-]|] end].
Qed.

(** ** What the constructors build *)

Lemma Uniq_elem l x : x ∈ Uniq l <-> x ∈ l.
Proof.
  unfold Uniq. enough (forall acc, x ∈ fold_left (fun acc y => if bool_decide (y ∈ acc) then acc else acc ++ [y]) l acc
    <-> x ∈ acc \/ x ∈ l) as -> by set_solver.
  induction l as [|y l IH]; intros acc; cbn; [set_solver|]. rewrite IH. case_bool_decide; set_solver.
Qed.

Lemma raise_ok e u : raise e = Ok u -> e = None.
Proof. by destruct e. Qed.

Lemma NewDefaultDNSRule_ok d legacy x :
  NewDefaultDNSRule d legacy = Ok x ->
  NewDNSRuleAction (do_action d) = Ok (dns_Action x)
  /\ exists it rs r, run_steps (default_dns_steps d ++ dns_response_steps d ++ dns_process_steps d ++ dns_network_steps d)
                      empty_items = Ok r
     /\ neutral_items it = neutral_items r /\ headless_sets rs = true
     /\ dns_Rule x = DefaultR (KDefaultDNSRule (IsEnabled (n_MatchResponse d)) (ResponseTag (n_MatchResponse d))
                                 (da_Race (do_action d))) (MkDefault it rs (c_Invert d)).
Proof.
  unfold NewDefaultDNSRule, NewDefaultDNSRule_conditions. intros H. inv_ok. split; [done|].
  destruct (n_RuleSetIPCIDRAcceptEmpty d && negb legacy); [discriminate|]. inv_ok.
  unfold add_rule_set in *. destruct (given (c_RuleSet d)).
  - destruct (c_Deprecated_RulesetIPCIDRMatchSource d); [discriminate|].
    match goal with r : default_items |- _ => destruct r end. inv_ok.
    eexists _, _, _. split; [done|]. split; [|split; [|done]]; done.
  - inv_ok. eexists _, None, _. by repeat split.
Qed.

Lemma NewLogicalDNSRule_ok mode rules invert a legacy x :
  NewLogicalDNSRule (MkLogicalDNSOptions mode rules invert a) legacy = Ok x ->
  NewDNSRuleAction a = Ok (dns_Action x)
  /\ exists rs mode', Forall2 (fun sub r => exists y, NewDNSRule sub false legacy = Ok y /\ r = dns_Rule y) (elems rules) rs
     /\ dns_Rule x = LogicalR (KLogicalDNSRule (Uniq (concat (MatchResponseTags <$> rs))) (existsb MatchResponseAnonymous rs)
                                 (da_Race a)) (MkLogical rs mode' invert).
Proof.
  cbn [NewLogicalDNSRule]. intros H. inv_ok. destruct (da_Race a && _ && _); [discriminate|]. inv_ok.
  split; [done|]. eexists _, _. split; [|done]. destruct rules as [rules|]; [|inv_ok; constructor].
  cbn [elems default]. match type of E1 with ?go 0 rules = _ => revert E1; generalize 0 as i end.
  revert a2. induction rules as [|sub rules IH]; intros rs i H; cbn in H; inv_ok; [constructor|].
  constructor; [|eauto]. apply wrap_err_ok in E2. eauto.
Qed.

Lemma NewDNSRule_ok o cs legacy x :
  NewDNSRule o cs legacy = Ok x ->
  exists type d l, o = MkDNSRuleOptions type d l
  /\ ((is_default_type type = true /\ NewDefaultDNSRule d legacy = Ok x /\ validateDNSRuleAction (do_action d) = None)
      \/ (is_default_type type = false /\ type = "logical" /\ NewLogicalDNSRule l legacy = Ok x
          /\ validateDNSRuleAction (logical_action l) = None)).
Proof.
  destruct o as [type d l]. cbn [NewDNSRule]. intros H. eexists _, _, _. split; [done|].
  destruct (is_default_type type) eqn:Ht.
  - left. destruct (negb (DefaultDNSRule_IsValid d)); [discriminate|]. inv_ok. destruct (da_Race (do_action d) && _); [discriminate|].
    inv_ok. eauto using raise_ok.
  - right. case_bool_decide as Hl; [|discriminate]. inv_ok. destruct (negb a); [discriminate|]. inv_ok.
    split; [done|]. split; [done|]. split; [done|]. by eapply raise_ok.
Qed.

(** ** Validated rules *)

Lemma collect_uses_ok i l use use' :
  collect_uses i l use = Ok use' -> exists uses, Forall2 (fun m u => m = Ok u) l uses
    /\ use_referencedTags use' = use_referencedTags use ++ concat (use_referencedTags <$> uses).
Proof.
  revert i use. induction l as [|m l IH]; intros i use H; cbn in H; inv_ok.
  - exists []. split; [constructor|]. by rewrite app_nil_r.
  - destruct (IH _ _ H) as (uses & Hf & Hu). exists (a :: uses). apply wrap_err_ok in E.
    split; [by constructor|]. rewrite Hu. cbn. by rewrite app_assoc.
Qed.

Lemma default_valid overrides d use x :
  validateLegacyDNSModeDisabledDefaultRule router d overrides = Ok use -> decoded_match (n_MatchResponse d) = true ->
  NewDefaultDNSRule d false = Ok x ->
  bound_rule (dns_Rule x) = true /\ forall t, t ∈ MatchResponseTags (dns_Rule x) <-> t ∈ use_referencedTags use.
Proof.
  intros Hv Hd Hx. destruct (NewDefaultDNSRule_ok _ _ _ Hx) as (_ & it & rs & r & Hr & Hn & Hh & ->).
  unfold validateLegacyDNSModeDisabledDefaultRule in Hv. unfold decoded_match in Hd.
  destruct ((hasResponseMatchFields d || given (c_IPCIDR d) || c_IPIsPrivate d || n_IPAcceptAny d) && negb (IsEnabled (n_MatchResponse d))) eqn:Hfields; [discriminate|].
  inv_ok. destruct (n_RuleSetIPCIDRAcceptEmpty d); [discriminate|]. inv_ok.
  cbn [bound_rule MatchResponseTags use_referencedTags]. rewrite Hh. destruct (IsEnabled (n_MatchResponse d)) eqn:He; cbn.
  - split; [done|]. intros t. case_bool_decide; cbn; done.
  - cbn in Hd. to_prop. rewrite Hd. cbn. split; [|done]. rewrite andb_true_r, Hn.
    eapply neutral_run; [| |exact Hr]; [|reflexivity]. apply neutral_steps.
    rewrite andb_true_r in Hfields. to_prop. done.
Qed.

Lemma tree_valid overrides o : decoded_rule o = true -> forall cs use x,
  validateLegacyDNSModeDisabledRuleTree router o overrides = Ok use -> NewDNSRule o cs false = Ok x ->
  bound_rule (dns_Rule x) = true /\ (forall t, t ∈ MatchResponseTags (dns_Rule x) <-> t ∈ use_referencedTags use).
Proof.
  induction o as [type d mode rules invert action IH] using DNSRuleOptions_nested_ind. intros Hd cs use x Hv Hx.
  cbn [decoded_rule validateLegacyDNSModeDisabledRuleTree] in Hd, Hv. to_prop.
  destruct (NewDNSRule_ok _ _ _ _ Hx) as (? & ? & ? & [= <- <- <-] & [(Ht & Hn & _)|(Ht & -> & Hn & _)]).
  { rewrite Ht in Hv. by eapply default_valid. }
  rewrite Ht, bool_decide_eq_true_2 in Hv by done.
  destruct (NewLogicalDNSRule_ok _ _ _ _ _ _ Hn) as (_ & rs & mode' & Hrs & ->).
  apply obind_Ok_inv in Hv as (use0 & Hu & Hv).
  assert (Huse : use_referencedTags use = use_referencedTags use0).
  { case_bool_decide; [|by injection Hv as <-]. destruct (0 <? zlen _); [discriminate|]. by injection Hv as <-. }
  assert (Hsub : Forall (fun r => bound_rule r = true) rs
                 /\ forall t, t ∈ concat (MatchResponseTags <$> rs) <-> t ∈ use_referencedTags use0).
  { destruct rules as [rules|]; [change (elems (Some rules)) with rules in *|].
    2: { inversion Hrs; subst. injection Hu as <-. split; [constructor|]. intros t. cbn. done. }
    destruct (collect_uses_ok _ _ _ _ Hu) as (uses & Hf & ->). cbn [app use_referencedTags].
    apply Forall2_fmap_l in Hf. clear -IH Hf Hrs H0.
    revert rs uses Hrs Hf. induction IH as [|sub subs Hsub _ IHr]; intros rs uses Hrs Hf.
    { inversion Hrs; inversion Hf; subst. split; [constructor|]. done. }
    cbn in H0. to_prop. inversion Hrs as [|? r ? rs' (y & Hy & ->) Hrs']; subst. inversion Hf as [|? u ? uses' Hu Hf']; subst.
    destruct (Hsub ltac:(done) _ _ _ Hu Hy) as [Hb Ht]. destruct (IHr ltac:(done) _ _ Hrs' Hf') as [Hbs Hts].
    split; [by constructor|]. intros t. cbn. rewrite !elem_of_app, Ht, Hts. done. }
  destruct Hsub as [Hb Ht']. split.
  - cbn [bound_rule]. apply forallb_forall. intros r Hr%list_elem_of_In. rewrite Forall_forall in Hb. rewrite (Hb r Hr). cbn [andb].
    apply andb_true_iff. split.
    + apply forallb_forall. intros t Htr%list_elem_of_In. apply bool_decide_eq_true, Uniq_elem. apply list_elem_of_In, in_concat.
      exists (MatchResponseTags r). split; [|by apply list_elem_of_In]. apply list_elem_of_In, list_elem_of_fmap. eauto.
    + destruct (MatchResponseAnonymous r) eqn:Ha; [|done]. cbn. apply existsb_exists. exists r. split; [by apply list_elem_of_In|done].
  - intros t. cbn [MatchResponseTags]. rewrite Uniq_elem, Ht', Huse. done.
Qed.

(** ** Tags and actions *)

Definition option_tag (o : DNSRuleOptions) : option string :=
  if bool_decide (dnsRuleActionType o = RuleActionTypeEvaluate) && negb (bool_decide (dnsRuleActionEvaluateTag o = ""))
  then Some (dnsRuleActionEvaluateTag o) else None.

Lemma action_of_rule o cs legacy x : NewDNSRule o cs legacy = Ok x ->
  exists a, rule_action o = Some a /\ NewDNSRuleAction a = Ok (dns_Action x) /\ validateDNSRuleAction a = None
    /\ Race (dns_Rule x) = da_Race a.
Proof.
  intros Hx. destruct (NewDNSRule_ok _ _ _ _ Hx) as (type & d & l & -> & [(Ht & Hn & Hv)|(Ht & -> & Hn & Hv)]); cbn.
  - rewrite Ht. destruct (NewDefaultDNSRule_ok _ _ _ Hn) as (Ha & it & rs & r & _ & _ & _ & ->). eauto.
  - destruct l as [mode rules invert a]. destruct (NewLogicalDNSRule_ok _ _ _ _ _ _ Hn) as (Ha & rs & mode' & _ & ->). cbn in Hv. eauto.
Qed.

Lemma NewDNSRuleAction_kind a act : NewDNSRuleAction a = Ok act ->
  match act with
  | Some (RuleActionEvaluate _ tag _ _) => da_Action a = RuleActionTypeEvaluate /\ tag = de_Tag (da_EvaluateOptions a)
  | Some RuleActionRespond => da_Action a = RuleActionTypeRespond
  | Some (RuleActionDNSRouteOptionsOnly _) => da_Action a = RuleActionTypeRouteOptions
  | _ => da_Action a <> RuleActionTypeEvaluate
  end.
Proof.
  unfold NewDNSRuleAction. intros H.
  repeat (case_bool_decide as E; [injection H as <-; rewrite E; done|clear E]). discriminate.
Qed.

Lemma evaluate_tag_built o cs legacy x : NewDNSRule o cs legacy = Ok x -> evaluate_tag x = option_tag o.
Proof.
  intros Hx. destruct (action_of_rule _ _ _ _ Hx) as (a & Ha & Hn & _). pose proof (NewDNSRuleAction_kind _ _ Hn) as Hk.
  unfold evaluate_tag, option_tag, dnsRuleActionEvaluateTag, dnsRuleActionType. rewrite Ha.
  assert (Hne : da_Action a <> RuleActionTypeEvaluate ->
    bool_decide ((if bool_decide (da_Action a = "") then RuleActionTypeRoute else da_Action a) = RuleActionTypeEvaluate) = false).
  { intros Hne. apply bool_decide_eq_false_2. by case_bool_decide. }
  destruct (dns_Action x) as [[server spec o'|server tag spec o'| |o'|method noDrop|p]|]; try (by rewrite Hne).
  - destruct Hk as [-> ->]. destruct (de_Tag (da_EvaluateOptions a)); reflexivity.
  - rewrite Hne; [done|]. by rewrite Hk.
  - rewrite Hne; [done|]. by rewrite Hk.
Qed.

Lemma race_final o cs legacy x : NewDNSRule o cs legacy = Ok x -> Race (dns_Rule x) = true -> final_action (dns_Action x) = true.
Proof.
  intros Hx Hr. destruct (action_of_rule _ _ _ _ Hx) as (a & Ha & Hn & Hv & Hrace). rewrite Hr in Hrace.
  pose proof (NewDNSRuleAction_kind _ _ Hn) as Hk. unfold validateDNSRuleAction in Hv. rewrite <- Hrace in Hv.
  destruct (_ && _); [discriminate|]. destruct (negb (bool_decide _)) eqn:Hin; [discriminate|]. to_prop.
  destruct (dns_Action x) as [[]|]; try done; [destruct Hk as [Hk _]|]; rewrite Hk in Hin; exfalso;
    repeat (apply elem_of_cons in Hin as [?|Hin]; [done|]); by apply not_elem_of_nil in Hin.
Qed.

Lemma respond_untagged overrides o cs use x :
  validateLegacyDNSModeDisabledRuleTree router o overrides = Ok use -> decoded_rule o = true -> NewDNSRule o cs false = Ok x ->
  is_respond (dns_Action x) = true -> MatchResponseTag (dns_Rule x) = "" -> MatchResponseTags (dns_Rule x) = [].
Proof.
  intros Hv Hd Hx Hr Ht. destruct (tree_valid overrides o Hd cs use x Hv Hx) as [_ Htags].
  destruct (action_of_rule _ _ _ _ Hx) as (a & Ha & Hn & _ & _). pose proof (NewDNSRuleAction_kind _ _ Hn) as Hk.
  destruct (NewDNSRule_ok _ _ _ _ Hx) as (type & d & l & -> & [(Hty & Hnew & _)|(Hty & -> & Hnew & _)]).
  - destruct (NewDefaultDNSRule_ok _ _ _ Hnew) as (_ & it & rs & r & _ & _ & _ & E). rewrite E in Ht |- *. cbn in *.
    by rewrite Ht.
  - destruct l as [mode rules invert a']. cbn in Ha. injection Ha as ->.
    destruct (dns_Action x) as [[]|]; try discriminate Hr. cbn in Hv.
    apply obind_Ok_inv in Hv as (use0 & _ & Hv). rewrite Hk in Hv. cbn in Hv.
    destruct (0 <? zlen (use_referencedTags use0)) eqn:Hz; [discriminate|]. injection Hv as <-. cbn in Htags.
    to_prop. destruct (use_referencedTags use0) as [|t ts]; [|rewrite zlen_cons in Hz; pose proof (zlen_nonneg ts); lia].
    destruct (MatchResponseTags (dns_Rule x)) as [|t ts]; [done|]. specialize (Htags t). set_solver.
Qed.

(** ** The validation loop *)

Lemma use_tags_ok i tags v v' : use_tags i tags v = Ok v' ->
  va_definedTagOrder v' = va_definedTagOrder v /\ forall t, t ∈ tags -> t ∈ va_definedTagOrder v.
Proof.
  revert v. induction tags as [|tag tags IH]; intros v H; cbn in H.
  - injection H as <-. split; [done|]. set_solver.
  - case_bool_decide as Hin; [|discriminate]. cbn in H. destruct (IH _ H) as [-> Hall]. split; [done|].
    intros t [->|Ht]%elem_of_cons; [done|]. by apply Hall.
Qed.

Lemma validate_rule_ok overrides i o v v' : validate_rule router overrides i o v = Ok v' ->
  va_definedTagOrder v' = va_definedTagOrder v ++ option_list (option_tag o)
  /\ (forall t, option_tag o = Some t -> t ∉ va_definedTagOrder v)
  /\ exists use, validateLegacyDNSModeDisabledRuleTree router o overrides = Ok use
        /\ forall t, t ∈ use_referencedTags use -> t ∈ va_definedTagOrder v.
Proof.
  unfold validate_rule. intros H. apply obind_Ok_inv in H as (use & Hu & H). apply wrap_err_ok in Hu.
  apply obind_Ok_inv in H as (v1 & H1 & H). apply obind_Ok_inv in H as (v2 & H2 & H).
  assert (E1 : va_definedTagOrder v1 = va_definedTagOrder v).
  { unfold use_anonymous in H1. destruct (use_needsAnonymous use); [|by injection H1 as <-].
    destruct (negb _); [by destruct (0 <? _)|]. by injection H1 as <-. }
  destruct (use_tags_ok _ _ _ _ H2) as [E2 Hall]. rewrite E1 in *.
  assert (Hd : va_definedTagOrder v' = va_definedTagOrder v ++ option_list (option_tag o)
               /\ (forall t, option_tag o = Some t -> t ∉ va_definedTagOrder v)).
  { unfold define_evaluate in H. unfold option_tag. case_bool_decide; cbn [andb].
    - case_bool_decide; cbn [negb].
      + injection H as <-. cbn. rewrite E2, app_nil_r. done.
      + case_bool_decide as Hin; [discriminate|]. injection H as <-. cbn. rewrite E2 in *. split; [done|]. by intros t [= <-].
    - injection H as <-. rewrite E2, app_nil_r. done. }
  destruct Hd as [-> Hd]. split; [done|]. split; [done|]. eauto.
Qed.

Lemma validate_loop_at overrides l : forall i v v' j o,
  validate_loop router overrides i l v = Ok v' -> l !! j = Some o ->
  exists vj vj', validate_rule router overrides (i + Z.of_nat j) o vj = Ok vj'
    /\ va_definedTagOrder vj = va_definedTagOrder v ++ omap option_tag (take j l).
Proof.
  induction l as [|o' l IH]; intros i v v' j o H Hj; [done|]. cbn in H. apply obind_Ok_inv in H as (v1 & H1 & H).
  destruct (validate_rule_ok _ _ _ _ _ H1) as (E1 & _). destruct j as [|j]; cbn in Hj.
  - injection Hj as ->. exists v, v1. rewrite Z.add_0_r. split; [done|]. cbn. by rewrite app_nil_r.
  - destruct (IH _ _ _ _ _ H Hj) as (vj & vj' & Hv & E). exists vj, vj'. split.
    + rewrite <- Hv. f_equal. lia.
    + rewrite E, E1, <- app_assoc. f_equal. cbn. by destruct (option_tag o').
Qed.

Lemma in_take_tag (l : list DNSRuleOptions) j t :
  t ∈ omap option_tag (take j l) <-> exists i o, (i < j)%nat /\ l !! i = Some o /\ option_tag o = Some t.
Proof.
  rewrite list_elem_of_omap. split.
  - intros (o & Ho & Ht). apply list_elem_of_lookup_1 in Ho as [i Hi]. apply lookup_take_Some in Hi as [Hi Hlt]. eauto.
  - intros (i & o & Hlt & Hi & Ht). exists o. split; [|done]. eapply list_elem_of_lookup_2. by apply lookup_take_Some.
Qed.

(** ** The rules of the router *)

Definition keeps_rule (start : Rule -> outcome Rule) : Prop := forall r r', start r = Ok r' ->
  (bound_rule r = true -> bound_rule r' = true) /\ MatchResponseTags r' = MatchResponseTags r
  /\ MatchResponseTag r' = MatchResponseTag r /\ Race r' = Race r
  /\ MatchResponseAnonymous r' = MatchResponseAnonymous r.

Lemma built_rules_ok overrides raw v (rules : list DNSRule) :
  (forall j o, raw !! j = Some o -> decoded_rule o = true) ->
  validate_loop router overrides 0 raw no_validation = Ok v ->
  (forall j x, rules !! j = Some x -> exists o y, raw !! j = Some o /\ NewDNSRule o true false = Ok y
     /\ dns_Action x = dns_Action y /\ (bound_rule (dns_Rule y) = true -> bound_rule (dns_Rule x) = true)
     /\ MatchResponseTags (dns_Rule x) = MatchResponseTags (dns_Rule y)
     /\ MatchResponseTag (dns_Rule x) = MatchResponseTag (dns_Rule y) /\ Race (dns_Rule x) = Race (dns_Rule y)) ->
  rules_ok rules.
Proof.
  intros Hdec Hloop Hrules.
  assert (Hat : forall j x, rules !! j = Some x -> exists o y use, raw !! j = Some o /\ NewDNSRule o true false = Ok y
    /\ decoded_rule o = true /\ validateLegacyDNSModeDisabledRuleTree router o overrides = Ok use
    /\ evaluate_tag x = option_tag o /\ (forall t, option_tag o = Some t -> t ∉ omap option_tag (take j raw))
    /\ (forall t, t ∈ MatchResponseTags (dns_Rule x) -> t ∈ omap option_tag (take j raw))).
  { intros j x Hx. destruct (Hrules j x Hx) as (o & y & Ho & Hy & Ea & _ & Et & _).
    destruct (validate_loop_at _ _ _ _ _ _ _ Hloop Ho) as (vj & vj' & Hv & Ev). cbn in Ev.
    destruct (validate_rule_ok _ _ _ _ _ Hv) as (_ & Hfresh & use & Hu & Huse). rewrite Ev in *.
    pose proof (Hdec _ _ Ho) as Hd. destruct (tree_valid overrides o Hd true use y Hu Hy) as [_ Htags].
    exists o, y, use. split; [done|]. split; [done|]. split; [done|]. split; [done|]. split.
    - rewrite <- (evaluate_tag_built _ _ _ _ Hy). unfold evaluate_tag. by rewrite Ea.
    - split; [done|]. intros t. rewrite Et, Htags. apply Huse. }
  assert (Hord : forall i j xi xj t, rules !! i = Some xi -> rules !! j = Some xj -> evaluate_tag xi = Some t ->
    evaluate_tag xj = Some t -> ~ (i < j)%nat).
  { intros i j xi xj t Hi Hj Hti Htj Hlt. destruct (Hat i xi Hi) as (oi & _ & _ & Hoi & _ & _ & _ & Ei & _).
    destruct (Hat j xj Hj) as (oj & _ & _ & Hoj & _ & _ & _ & Ej & Hfresh & _).
    apply (Hfresh t); [by rewrite <- Ej|]. apply in_take_tag. exists i, oi. by rewrite <- Ei. }
  split.
  - intros i x Hx. destruct (Hat i x Hx) as (o & y & use & Ho & Hy & Hd & Hu & _).
    destruct (Hrules i x Hx) as (o' & y' & Ho' & Hy' & _ & Hb & _). apply Hb.
    assert (o' = o) as -> by congruence. assert (y' = y) as -> by congruence. by eapply tree_valid.
  - intros i x Hx. destruct (Hrules i x Hx) as (o & y & _ & Hy & -> & _ & _ & _ & ->). by eapply race_final.
  - intros i x Hx. destruct (Hat i x Hx) as (o & y & use & Ho & Hy & Hd & Hu & _).
    destruct (Hrules i x Hx) as (o' & y' & Ho' & Hy' & -> & _ & -> & -> & _).
    assert (o' = o) as -> by congruence. assert (y' = y) as -> by congruence. by eapply respond_untagged.
  - intros i j xi xj t Hi Hj Hti Htj. pose proof (Hord i j xi xj t Hi Hj Hti Htj). pose proof (Hord j i xj xi t Hj Hi Htj Hti). lia.
  - intros i j xi xj t Hi Hj Ht Htj. destruct (Hat i xi Hi) as (_ & _ & _ & _ & _ & _ & _ & _ & _ & Huse).
    apply Huse, in_take_tag in Ht as (j' & o' & Hlt & Hj' & Ht').
    destruct (decide (j < i)%nat) as [|Hge]; [done|exfalso].
    destruct (Hat j xj Hj) as (oj & _ & _ & Hoj & _ & _ & _ & Ej & Hfresh & _).
    apply (Hfresh t); [by rewrite <- Ej|]. apply in_take_tag. exists j', o'. split; [lia|done].
Qed.
End ModeSpec.

(** ** Starting the rules *)

Section Starting.
Context {X : External}.

Lemma omap_from_forallb {A} (f : Z -> A -> outcome A) (p : A -> bool) i l ys :
  (forall i x y, f i x = Ok y -> p y = p x) -> omap_from f i l = Ok ys -> forallb p ys = forallb p l.
Proof.
  intros Hf. revert i ys. induction l as [|x l IH]; intros i ys H; cbn in H; inv_ok; [done|]. cbn.
  by rewrite (Hf _ _ _ E), (IH _ _ E0).
Qed.

Lemma start_items_neutral start r r' :
  (forall it it', start it = Ok it' -> neutral_item it' = neutral_item it) ->
  start_items start r = Ok r' -> neutral_items r' = neutral_items r.
Proof.
  intros Hs H. unfold start_items, omap_ix in H. inv_ok. unfold neutral_items. cbn.
  repeat match goal with E : omap_from (fun _ => start) _ _ = Ok _ |- _ =>
    apply (omap_from_forallb _ neutral_item) in E; [rewrite E; clear E|intros _; exact Hs] end.
  done.
Qed.

Lemma collect_sets_headless ruleSets tags sets :
  (forall tag s, ruleSets tag = Some s -> headless_set s = true) ->
  collect_sets ruleSets tags = Ok sets -> forallb headless_set sets = true.
Proof.
  intros Hh. revert sets. induction tags as [|tag tags IH]; intros sets H; cbn in H; [by injection H as <-|].
  destruct (ruleSets tag) as [s|] eqn:Hs; [|discriminate]. inv_ok. cbn. by rewrite (Hh _ _ Hs), IH.
Qed.

Lemma rule_Start_keeps start ruleSets :
  (forall it it', start it = Ok it' -> neutral_item it' = neutral_item it) ->
  (forall tag s, ruleSets tag = Some s -> headless_set s = true) -> keeps_rule (rule_Start start ruleSets).
Proof.
  intros Hs Hh r. induction r as [kind it rs invert _|kind rules mode invert IH] using Rule_nested_ind; intros r' H; cbn in H.
  - apply obind_Ok_inv in H as (it' & Hit & H). apply obind_Ok_inv in H as (rs' & Hrs & H). injection H as <-.
    split; [|done]. cbn. destruct kind as [| |m tag race]; try done.
    rewrite (start_items_neutral _ _ _ Hs Hit). intros Hb. apply andb_true_iff in Hb as [_ ->]. rewrite andb_true_r.
    destruct rs as [[tags sets src acc]|]; cbn in Hrs; [|by injection Hrs as <-].
    apply obind_Ok_inv in Hrs as (sets' & Hsets & Hrs). injection Hrs as <-. by eapply collect_sets_headless.
  - apply obind_Ok_inv in H as (rules' & E & H). injection H as <-.
    assert (Hall : Forall2 (fun r r' => (bound_rule r = true -> bound_rule r' = true)
      /\ MatchResponseTags r' = MatchResponseTags r /\ MatchResponseAnonymous r' = MatchResponseAnonymous r) rules rules').
    { revert rules' E. induction IH as [|r rules Hr _ IHr]; intros rules' E; [injection E as <-; constructor|].
      apply obind_Ok_inv in E as (y & Hy & E). apply obind_Ok_inv in E as (ys & Hys & E). injection E as <-.
      constructor; [|by apply IHr]. destruct (Hr _ Hy) as (? & ? & ? & ? & ?). done. }
    clear IH E. split; [|done]. destruct kind as [| |tags anonymous race]; try done.
    cbn [bound_rule]. induction Hall as [|x y l l' (Hb & Ht & Ha) _ IHl]; [done|]. cbn [forallb].
    intros H. apply andb_true_iff in H as [H Hl]. apply andb_true_iff in H as [H Hx]. apply andb_true_iff in H as [Hbx Htx].
    by rewrite (Hb Hbx), Ht, Ha, Htx, Hx, IHl.
Qed.

(** ** Rule-sets *)

Lemma neutral_headless_steps (nm : bool) (o : DefaultHeadlessRule) :
  Forall neutral_step (headless_steps o ++ (if nm then headless_network_steps o else []) ++ headless_adguard_steps o).
Proof.
  assert (Hmap : forall (g : list target) A (x : option A) (f : A -> RuleItem), (forall a, neutral_item (f a) = true) ->
    neutral_step (g, (fun a => Ok (f a)) <$> x)).
  { intros g A x f Hf it. destruct x; [|done]. intros [= <-]. apply Hf. }
  assert (Hgiven : forall (g : list target) (o : outcome RuleItem) (x : option (outcome RuleItem)) (c : bool), (forall it, o = Ok it -> neutral_item it = true) ->
    neutral_step (g, x) -> neutral_step (g, if c then Some o else x)).
  { intros g o' x c Ho Hx it. destruct c; [|by apply Hx]. intros [= ->]. by apply Ho. }
  repeat apply Forall_app_2; [|destruct nm; [|apply Forall_nil_2]|];
    unfold headless_steps, headless_network_steps, headless_adguard_steps;
    repeat first [apply Forall_nil_2 | apply Forall_cons_2];
    first [apply neutral_when; neutral_item_tac | apply Hgiven; [neutral_item_tac|by apply Hmap]
          | destruct (typed_map_given _); [by apply Hmap|done]].
Qed.

Lemma NewHeadlessRule_headless nm o : forall r, NewHeadlessRule nm o = Ok r -> headless_rule r = true.
Proof.
  induction o as [type d mode rules invert IH] using HeadlessRule_nested_ind. intros r H. cbn in H.
  destruct (_ || _).
  { destruct (negb _); [discriminate|]. unfold NewDefaultHeadlessRule in H. apply obind_Ok_inv in H as (x & Hx & H). injection H as <-.
    apply obind_Ok_inv in Hx as (it & Hit & Hx). injection Hx as <-. cbn.
    eapply neutral_run; [eapply neutral_headless_steps| |exact Hit]; done. }
  case_bool_decide; [|discriminate]. apply obind_Ok_inv in H as (v & _ & H). destruct (negb v); [discriminate|].
  apply obind_Ok_inv in H as (x & Hx & H). injection H as <-. apply obind_Ok_inv in Hx as (mode' & _ & Hx).
  apply obind_Ok_inv in Hx as (rs & Hrs & Hx). injection Hx as <-. cbn.
  destruct rules as [rules|]; [specialize (IH _ eq_refl)|by injection Hrs as <-].
  revert rs Hrs. generalize 0. induction IH as [|sub subs Hsub _ IHr]; intros i rs Hrs; [by injection Hrs as <-|].
  apply obind_Ok_inv in Hrs as (y & Hy & Hrs). apply obind_Ok_inv in Hrs as (ys & Hys & Hrs). injection Hrs as <-.
  apply wrap_err_ok in Hy. cbn. by rewrite (Hsub _ Hy), (IHr _ _ Hys).
Qed.

(** The rule-sets of the router hold rules made of headless rule options. *)
Definition loaded_sets (ruleSets : string -> option RuleSet) : Prop := forall tag rules c,
  ruleSets tag = Some (MkRuleSet rules c) -> exists nm options, Forall2 (fun o r => NewHeadlessRule nm o = Ok r) options rules.

Lemma loaded_sets_headless ruleSets tag s : loaded_sets ruleSets -> ruleSets tag = Some s -> headless_set s = true.
Proof.
  intros Hl Hs. destruct s as [rules c]. destruct (Hl _ _ _ Hs) as (nm & options & Hf). clear Hl Hs. cbn.
  induction Hf as [|o r os rs Hr _ IH]; [done|]. cbn. by rewrite (NewHeadlessRule_headless _ _ _ Hr), IH.
Qed.

Lemma item_Start_neutral clash outbounds transports it it' :
  item_Start clash outbounds transports it = Ok it' -> neutral_item it' = neutral_item it.
Proof. intros H. destruct it; cbn in H; inv_ok; done. Qed.

Lemma started_rules_ok router manager start raw started rules flags warnings :
  keeps_rule start -> forallb decoded_rule raw = true ->
  buildRules router manager start raw started = Ok (rules, false, flags, warnings) -> rules_ok rules.
Proof.
  intros Hk Hd H. unfold buildRules in H. apply obind_Ok_inv in H as (u & _ & H). apply obind_Ok_inv in H as ([legacy fl] & _ & H).
  apply obind_Ok_inv in H as (ws & Hval & H). apply obind_Ok_inv in H as (u' & _ & H). apply obind_Ok_inv in H as (built & Hb & H).
  apply obind_Ok_inv in H as (new & Hnew & H). injection H as -> -> _ _. cbn [negb] in Hval.
  unfold validateLegacyDNSModeDisabledRules in Hval. apply obind_Ok_inv in Hval as (v & Hval & _).
  eapply built_rules_ok; [|exact Hval|].
  { intros j o Ho. rewrite forallb_forall in Hd. apply Hd, list_elem_of_In. by eapply list_elem_of_lookup_2. }
  intros j x Hx.
  assert (Hy : exists y, built !! j = Some y /\ dns_Action x = dns_Action y
     /\ (bound_rule (dns_Rule y) = true -> bound_rule (dns_Rule x) = true)
     /\ MatchResponseTags (dns_Rule x) = MatchResponseTags (dns_Rule y)
     /\ MatchResponseTag (dns_Rule x) = MatchResponseTag (dns_Rule y) /\ Race (dns_Rule x) = Race (dns_Rule y)).
  { destruct started; [|injection Hnew as <-; by exists x].
    destruct (omap_from_lookup _ _ _ _ _ _ Hnew Hx) as (y & Hy & Hs). apply wrap_err_ok in Hs.
    apply obind_Ok_inv in Hs as (r' & Hr & Hs). injection Hs as <-. exists y. destruct (Hk _ _ Hr) as (? & ? & ? & ? & _). done. }
  destruct Hy as (y & Hy & Hrest). destruct (omap_from_lookup _ _ _ _ _ _ Hb Hy) as (o & Ho & Hn). apply wrap_err_ok in Hn. eauto.
Qed.

(** [Start] of the router's rules. *)
Definition start_dns_rule (clash : bool) (outbounds transports : string -> option bool) (ruleSets : string -> option RuleSet)
    : Rule -> outcome Rule :=
  rule_Start (item_Start clash outbounds transports) ruleSets.

Lemma start_dns_rule_keeps clash outbounds transports ruleSets :
  loaded_sets ruleSets -> keeps_rule (start_dns_rule clash outbounds transports ruleSets).
Proof.
  intros Hl. apply rule_Start_keeps; [intros it it'; apply item_Start_neutral|].
  intros tag s. by apply loaded_sets_headless.
Qed.
End Starting.

(** ** The walk over accepted rules *)

(** C18: When the DNS router accepts its rules and does not run in the legacy mode, a
    walk over them that ends has the result of a race rule that matches, or, when no
    race rule does, the result of going through the rules one by one with all replies
    at hand, with the accumulated options and the server each rule names; only the end
    of the context gives another error.  It holds for every order of arrival of the
    replies, as long as none for a tagged query arrives between the settling of replies
    and the look at the futures, or no query is tagged. *)
Theorem dns_walk_follows_rules {X : External} w tm strategy router manager clash outbounds transports ruleSets
    raw started rules flags warnings message allowFakeIP async answer ended md options tidy k r :
  forallb decoded_rule raw = true -> loaded_sets ruleSets ->
  buildRules router manager (start_dns_rule clash outbounds transports ruleSets) raw started = Ok (rules, false, flags, warnings) ->
  Questions message <> [] -> tidy = true \/ no_tags rules ->
  walk_reachable w tm strategy rules message allowFakeIP async answer ended tidy options md k ->
  wk_phase k = PDone r ->
  let '(races, sequential) := ref_walk w tm strategy message allowFakeIP answer md 0 rules (ref_start options) in
  (norm r ∈ races \/ (races = [] /\ norm r = sequential)) \/ exists e, ended = Some e /\ r = failed e.
Proof.
  intros Hd Hl Hb. apply walk_follows_ref. eapply started_rules_ok; [|done|exact Hb]. by apply start_dns_rule_keeps.
Qed.

(** ** Updates of rule-sets *)

Section Updates.
Context {X : External}.
Variable sets : string -> option RuleSetMetadata.
Variable tag : string.
Variable metadata : RuleSetMetadata.

(** The rule-sets of the router after the update. *)
Definition updated_sets (t : string) : option RuleSetMetadata := if bool_decide (t = tag) then Some metadata else sets t.
Local Abbreviation overridden := ({[tag := metadata]} : gmap string RuleSetMetadata).
Local Abbreviation none := (∅ : gmap string RuleSetMetadata).

Lemma override_lookup t : lookupDNSRuleSetMetadata (Some sets) t overridden = lookupDNSRuleSetMetadata (Some updated_sets) t none.
Proof.
  unfold lookupDNSRuleSetMetadata, updated_sets. rewrite lookup_empty. case_bool_decide as E.
  - by rewrite E, lookup_singleton_eq.
  - by rewrite lookup_singleton_ne.
Qed.

Lemma override_flags src tags flags :
  rule_set_flags (Some sets) overridden src tags flags = rule_set_flags (Some updated_sets) none src tags flags.
Proof.
  revert flags. induction tags as [|t tags IH]; intros flags; cbn; [done|]. rewrite override_lookup.
  destruct (lookupDNSRuleSetMetadata _ _ _); cbn; [apply IH|done..].
Qed.
Lemma override_check tags : check_rule_sets (Some sets) overridden tags = check_rule_sets (Some updated_sets) none tags.
Proof.
  induction tags as [|t tags IH]; cbn; [done|]. rewrite override_lookup, IH. done.
Qed.

Lemma override_requirements_rule o :
  dnsRuleModeRequirementsInRule (Some sets) o overridden = dnsRuleModeRequirementsInRule (Some updated_sets) o none.
Proof.
  induction o as [type d mode rules invert action IH] using DNSRuleOptions_nested_ind. cbn.
  unfold dnsRuleModeRequirementsInDefaultRule. rewrite override_flags. destruct (is_default_type type); [done|].
  case_bool_decide; [|done]. destruct rules as [rules|]; [|done]. f_equal. apply list_fmap_ext.
  intros i x Hx. apply (Forall_lookup_1 _ _ _ _ IH Hx).
Qed.
Lemma override_mode raw : resolveLegacyDNSMode (Some sets) raw overridden = resolveLegacyDNSMode (Some updated_sets) raw none.
Proof.
  unfold resolveLegacyDNSMode, dnsRuleModeRequirements. do 2 f_equal. apply list_fmap_ext. intros. apply override_requirements_rule.
Qed.

Lemma override_tree o :
  validateLegacyDNSModeDisabledRuleTree (Some sets) o overridden = validateLegacyDNSModeDisabledRuleTree (Some updated_sets) o none.
Proof.
  induction o as [type d mode rules invert action IH] using DNSRuleOptions_nested_ind. cbn.
  unfold validateLegacyDNSModeDisabledDefaultRule. rewrite override_check. destruct (is_default_type type); [done|].
  case_bool_decide; [|done]. destruct rules as [rules|]; [|done].
  assert (E : (fun o => validateLegacyDNSModeDisabledRuleTree (Some sets) o overridden) <$> rules
            = (fun o => validateLegacyDNSModeDisabledRuleTree (Some updated_sets) o none) <$> rules).
  { apply list_fmap_ext. intros i x Hx. apply (Forall_lookup_1 _ _ _ _ IH Hx). }
  by rewrite E.
Qed.
Lemma override_validate raw :
  validateLegacyDNSModeDisabledRules (Some sets) raw overridden = validateLegacyDNSModeDisabledRules (Some updated_sets) raw none.
Proof.
  unfold validateLegacyDNSModeDisabledRules. do 1 f_equal. generalize 0 no_validation.
  induction raw as [|o raw IH]; intros i v; cbn; [done|]. unfold validate_rule. rewrite override_tree.
  match goal with |- obind ?m _ = obind ?m _ => destruct m; cbn; [apply IH|done..] end.
Qed.

(** What the mode and the validation of rules leave to the construction. *)
Lemma buildRules_mode router manager start raw started rules mode flags warnings :
  buildRules router manager start raw started = Ok (rules, mode, flags, warnings) ->
  resolveLegacyDNSMode router raw none = Ok (mode, flags)
  /\ (mode = false -> exists ws, validateLegacyDNSModeDisabledRules router raw none = Ok ws)
  /\ forall router' flags', resolveLegacyDNSMode router' raw none = Ok (mode, flags') ->
       (mode = false -> exists ws, validateLegacyDNSModeDisabledRules router' raw none = Ok ws) ->
       exists ws, buildRules router' manager start raw started = Ok (rules, mode, flags', ws).
Proof.
  unfold buildRules. intros H. apply obind_Ok_inv in H as (u & Hu & H). apply obind_Ok_inv in H as ([legacy fl] & Hm & H).
  apply obind_Ok_inv in H as (ws & Hval & H). apply obind_Ok_inv in H as (u' & Hf & H). apply obind_Ok_inv in H as (built & Hb & H).
  apply obind_Ok_inv in H as (new & Hnew & H). injection H as -> -> -> ->. split; [done|]. split.
  { intros ->. by exists warnings. }
  intros router' flags' Hm' Hval'. rewrite Hu, Hm', Hf. cbn. destruct mode; cbn in *.
  - rewrite Hb. cbn. rewrite Hnew. cbn. eauto.
  - destruct (Hval' eq_refl) as [ws' ->]. cbn. rewrite Hb. cbn. rewrite Hnew. cbn. eauto.
Qed.
End Updates.

(** C20: A running DNS router that does not use the legacy mode accepts an update of a
    rule-set exactly when it would build the same rules, in the same mode, with the
    updated rule-set in place; one in the legacy mode, when it would build the same
    rules in the legacy mode, or nothing in the rules excludes the mode. *)
Theorem accepted_update_keeps_mode {X : External} sets manager start r flags warnings tag metadata :
  rr_started r = true -> rr_closing r = false ->
  buildRules (Some sets) manager start (rr_rawRules r) false = Ok (rr_rules r, rr_legacyDNSMode r, flags, warnings) ->
  let updated := Some (updated_sets sets tag metadata) in
  ValidateRuleSetMetadataUpdate (Some sets) tag metadata r = Ok tt <->
  (exists flags' warnings',
     buildRules updated manager start (rr_rawRules r) false = Ok (rr_rules r, rr_legacyDNSMode r, flags', warnings'))
  \/ (rr_legacyDNSMode r = true
      /\ exists flags', resolveLegacyDNSMode updated (rr_rawRules r) ∅ = Ok (false, flags') /\ fl_disabled flags' = false).
Proof.
  intros Hs Hc Hb updated. destruct (buildRules_mode _ _ _ _ _ _ _ _ _ Hb) as (Hm & _ & Hre).
  unfold ValidateRuleSetMetadataUpdate. destruct r as [raw rules legacy s c]. cbn in Hs, Hc, Hm, Hre, Hb |- *. subst s c. cbn.
  rewrite (override_mode sets tag metadata), (override_validate sets tag metadata). fold updated.
  assert (Hup : forall m fl ws, buildRules updated manager start raw false = Ok (rules, m, fl, ws) ->
    resolveLegacyDNSMode updated raw ∅ = Ok (m, fl)
    /\ (m = false -> exists ws, validateLegacyDNSModeDisabledRules updated raw ∅ = Ok ws)).
  { intros m fl ws H. by destruct (buildRules_mode _ _ _ _ _ _ _ _ _ H) as (? & ? & _). }
  destruct (zlen raw =? 0) eqn:Hz.
  { split; [intros _|done]. left. apply Z.eqb_eq in Hz. assert (raw = []) as -> by (by apply length_zero_iff_nil, Nat2Z.inj).
    cbn in Hm. injection Hm as <- <-. destruct (Hre updated no_flags eq_refl) as [ws Hw]; [by exists []|]. eauto. }
  split.
  - intros H. apply obind_Ok_inv in H as ([m fl] & Hm' & H). destruct legacy.
    + destruct m; [left; destruct (Hre updated fl Hm' ltac:(done)) as [ws Hw]; eauto|]. right. split; [done|]. exists fl.
      split; [done|]. cbn in H. destruct (fl_disabled fl); [|done]. by apply obind_Ok_inv in H as (? & _ & H).
    + destruct m; [done|]. left. apply obind_Ok_inv in H as (ws & Hw & _).
      destruct (Hre updated fl Hm' ltac:(eauto)) as [ws' Hw']. eauto.
  - intros [(fl & ws & Hu)|(-> & fl & Hm' & Hd)].
    + destruct (Hup _ _ _ Hu) as [Hm' Hv]. rewrite Hm'. cbn. destruct legacy; [done|]. by destruct (Hv eq_refl) as [ws' ->].
    + rewrite Hm'. cbn. by rewrite Hd.
Qed.
