(* ===== verification/DnsWalkCases.v ===== *)
(** * Executions of the rule walk

    Scripts of steps and arrivals that the walker can execute, a witness for the
    theorems of DnsModeSpec, and two executions on rules the router accepts: a reply that
    arrives at the wrong moment is missed ([settled_reply_missed]), and a race rule
    whose response is there waits for a slower one ([ready_race_rule_held]). *)

From S2P Require Import Prelude GoStd Netip External Concrete DnsMsg RuleItems RuleMatch RuleSpec RuleOptions RuleBuild RuleAction DnsClient DnsRule DnsMode DnsWalk DnsRuleSpec DnsWalkSim DnsWalkLive DnsModeSpec.
Local Open Scope Z_scope.

Section Scripts.
Context {X : External}.
Variable w : World.
Variable tm : DNSTransportManager.
Variable strategy : Z.
Variable rules : list DNSRule.
Variable message : Msg.
Variable allowFakeIP : bool.
Variable async : bool.
Variable answer : nat -> DNSTransport -> DNSQueryOptions -> option Msg * option error.
Variable tidy : bool.

(** ** Scripts *)

(** A step of the walker, the reply to its pending query, the arrival of the reply for
    a future. *)
Inductive move := Go | Reply | Arrive (f : nat).

Definition perform (m : move) (k : walker) : option walker :=
  let run inp := walk_run w tm strategy rules message allowFakeIP async inp k in
  match m with
  | Go => run INone
  | Reply =>
      match wk_phase k with
      | PPending p => run (IReply (answer (pe_rule p) (pe_transport p) (finalizeExchangeOptions strategy (pe_options p))))
      | _ => None
      end
  | Arrive f =>
      match futures (wk_state k) !! f with
      | Some x =>
          if is_nil (f_done x) && implb (tidy && settling (wk_phase k)) (bool_decide (f_tag x = ""))
          then Some (set_state k (deliver (answer (f_rule x) (f_transport x) (f_options x)) f (wk_state k)))
          else None
      | None => None
      end
  end.
Fixpoint perform_all (l : list move) (k : walker) : option walker :=
  match l with
  | [] => Some k
  | m :: l' => match perform m k with Some k' => perform_all l' k' | None => None end
  end.

Lemma perform_step ended m k k' :
  perform m k = Some k' -> walk_step w tm strategy rules message allowFakeIP async answer ended tidy k k'.
Proof.
  destruct m as [| |f]; cbn.
  - intros H. by apply walk_step_run with (inp := INone).
  - destruct (wk_phase k) as [| | | | | | |p| |] eqn:Hp; try done. intros H. eapply walk_step_run; [| |exact H]; [|done].
    rewrite Hp. intros r q [= <-] [= <-]. done.
  - destruct (futures (wk_state k) !! f) as [x|] eqn:Hx; [|done].
    destruct (f_done x) eqn:Hd; cbn; [done|]. destruct (implb _ _) eqn:Hi; [|done]. intros [= <-].
    eapply walk_step_deliver; eauto. intros -> Hs. rewrite Hs in Hi. cbn in Hi. by to_prop.
Qed.

Lemma perform_all_reachable ended options md l k :
  perform_all l (start_walk options md) = Some k ->
  walk_reachable w tm strategy rules message allowFakeIP async answer ended tidy options md k.
Proof.
  unfold walk_reachable. generalize (start_walk options md) as k0.
  induction l as [|m l IH]; cbn; intros k0 H; [injection H as ->; constructor|].
  destruct (perform m k0) as [k1|] eqn:Hm; [|done]. eapply rtc_l; [by eapply perform_step|]. by apply IH.
Qed.

Lemma scripted_phase ended options md l p :
  wk_phase <$> perform_all l (start_walk options md) = Some p ->
  exists k, walk_reachable w tm strategy rules message allowFakeIP async answer ended tidy options md k /\ wk_phase k = p.
Proof.
  destruct (perform_all l (start_walk options md)) as [k|] eqn:Hk; [|done]. intros [= <-].
  exists k. split; [by eapply perform_all_reachable|done].
Qed.

Lemma perform_all_steps ended l k k' :
  perform_all l k = Some k' -> rtc (walk_step w tm strategy rules message allowFakeIP async answer ended tidy) k k'.
Proof.
  revert k. induction l as [|m l IH]; cbn; intros k H; [injection H as ->; constructor|].
  destruct (perform m k) as [k1|] eqn:Hm; [|done]. eapply rtc_l; [by eapply perform_step|]. by apply IH.
Qed.
End Scripts.

(** ** Rules of the examples *)

Section Cases.
Context {X : External}.

Definition server_a : DNSTransport := MkTransport "a" "udp".
Definition server_b : DNSTransport := MkTransport "b" "udp".
Definition server_default : DNSTransport := MkTransport "default" "udp".
Definition case_manager : DNSTransportManager :=
  MkTransportManager (fun tag => if bool_decide (tag = "a") then Some server_a
                                 else if bool_decide (tag = "b") then Some server_b else None) server_default.

Definition no_common : CommonRule :=
  {| c_Inbound := None; c_IPVersion := 0; c_Network := None; c_AuthUser := None; c_Protocol := None;
     c_Domain := None; c_DomainSuffix := None; c_DomainKeyword := None; c_DomainRegex := None; c_Geosite := None;
     c_SourceGeoIP := None; c_GeoIP := None; c_SourceIPCIDR := None; c_SourceIPIsPrivate := false; c_IPCIDR := None;
     c_IPIsPrivate := false; c_SourcePort := None; c_SourcePortRange := None; c_Port := None; c_PortRange := None;
     c_ProcessName := None; c_ProcessPath := None; c_ProcessPathRegex := None; c_PackageName := None;
     c_PackageNameRegex := None; c_User := None; c_UserID := None; c_ClashMode := ""; c_NetworkType := None;
     c_NetworkIsExpensive := false; c_NetworkIsConstrained := false; c_WIFISSID := None; c_WIFIBSSID := None;
     c_InterfaceAddress := None; c_NetworkInterfaceAddress := None; c_DefaultInterfaceAddress := None;
     c_SourceMACAddress := None; c_SourceHostname := None; c_PreferredBy := None; c_RuleSet := None;
     c_RuleSetIPCIDRMatchSource := false; c_Invert := false; c_Deprecated_RulesetIPCIDRMatchSource := false |}.
Definition raw_rule (matchResponse : option string) : RawDefaultDNSRule RR :=
  MkRawDefaultDNSRule _ no_common None None
    ((fun tag => {| mr_Enabled := true; mr_Tag := tag |}) <$> matchResponse) false None None None None false.

(** [{"action": "evaluate", "server": server, "tag": tag}] *)
Definition evaluate_options (server tag : string) : DNSRuleOptions :=
  MkDNSRuleOptions "default"
    (MkDefaultDNSOptions (raw_rule None)
       (MkDNSRuleActionOptions RuleActionTypeEvaluate false zero_DNSRoute (MkDNSEvaluate server tag false zero_AbstractDNSRoute)
          zero_AbstractDNSRoute (MkRejectOptions "" false) (MkPredefinedOptions None None None None)))
    (MkLogicalDNSOptions "" None false zero_DNSRuleAction).
(** [{"match_response": tag, "action": "respond", "race": race}] *)
Definition respond_options (tag : string) (race : bool) : DNSRuleOptions :=
  MkDNSRuleOptions "default"
    (MkDefaultDNSOptions (raw_rule (Some tag))
       (MkDNSRuleActionOptions RuleActionTypeRespond race zero_DNSRoute zero_DNSEvaluate
          zero_AbstractDNSRoute (MkRejectOptions "" false) (MkPredefinedOptions None None None None)))
    (MkLogicalDNSOptions "" None false zero_DNSRuleAction).

(** The rules they are built to. *)
Definition no_options : RuleActionDNSRouteOptions := MkDNSRouteOptions 0 0 false false None prefix_zero.
Definition evaluate_rule (server tag : string) : DNSRule :=
  MkDNSRule (DefaultR (KDefaultDNSRule false "" false) (MkDefault empty_items None false))
    (Some (RuleActionEvaluate server tag false no_options)).
Definition respond_rule (tag : string) (race : bool) : DNSRule :=
  MkDNSRule (DefaultR (KDefaultDNSRule true tag race) (MkDefault empty_items None false)) (Some RuleActionRespond).

Definition plain_options : DNSQueryOptions := MkQueryOptions 0 0 false false None 0 prefix_zero.
Definition case_query : Msg :=
  MkMsg (MkMsgHdr 1 false 0 false false true false false false 0) [MkQuestion "example.org." TypeA ClassINET] [] [] [].

Definition missed_options : list DNSRuleOptions := [evaluate_options "a" "t"; respond_options "t" false].
Definition missed_rules : list DNSRule := [evaluate_rule "a" "t"; respond_rule "t" false].
Definition race_options : list DNSRuleOptions :=
  [evaluate_options "a" "x"; evaluate_options "b" "y"; respond_options "x" true; respond_options "y" true].
Definition race_rules : list DNSRule :=
  [evaluate_rule "a" "x"; evaluate_rule "b" "y"; respond_rule "x" true; respond_rule "y" true].

Lemma missed_rules_built :
  buildRules None (Some case_manager) Ok missed_options true = Ok (missed_rules, false, MkFlags true false false, []).
Proof. reflexivity. Qed.
Definition start_plain : Rule -> outcome Rule := start_dns_rule false (fun _ => None) (fun _ => None) (fun _ => None).
Lemma missed_rules_started :
  buildRules None (Some case_manager) start_plain missed_options true = Ok (missed_rules, false, MkFlags true false false, []).
Proof. reflexivity. Qed.
Lemma race_rules_built :
  buildRules None (Some case_manager) Ok race_options true = Ok (race_rules, false, MkFlags true false false, []).
Proof. reflexivity. Qed.

(** Every server answers with its own message. *)
Variable w : World.
Variable md : InboundContext.
Variables m_a m_b m_default : Msg.
Definition case_answer (i : nat) (transport : DNSTransport) (o : DNSQueryOptions) : option Msg * option error :=
  (Some (if bool_decide (transport = server_a) then m_a
         else if bool_decide (transport = server_b) then m_b else m_default), None).

(** On rules the router accepts, the reply for a tagged query that arrives right after
    the replies were settled is not looked at: the rule that responds with it does not
    match and the query goes to the default server.  Going through the rules one by one
    gives the evaluated response. *)
Theorem settled_reply_missed :
  (exists k, walk_reachable w case_manager 0 missed_rules case_query true false case_answer None false plain_options md k
     /\ wk_phase k = PDone (answered (Some m_default) (Some server_default)))
  /\ ref_walk w case_manager 0 case_query true case_answer md 0 missed_rules (ref_start plain_options)
     = ([], answered (Some m_a) (Some server_a)).
Proof.
  split; [|vm_compute; reflexivity].
  apply (scripted_phase _ _ _ _ _ _ _ _ _ _ _ _ [Go; Go; Go; Arrive 0; Go; Go; Go; Go; Go; Go; Reply]).
  vm_compute. reflexivity.
Qed.

Definition held_script : list move :=
  [Go; Go; Go; Go; Arrive 1; Go; Go; Go; Go; Go; Go; Go; Go; Go; Go; Go; Go; Go; Go].
Definition judged (k : walker) : walk_outcome :=
  (judge_rule w case_manager 0 case_query true (wk_state k) (wk_metadata k) (respond_rule "y" true)).1.1.

(** The response of the second race rule is there and the rule matches, and yet the
    walker is blocked until the response of the first race rule arrives; then the first
    rule responds.  (docs/configuration/dns/rule_action.md: "the first race rule that
    matches terminates rule evaluation immediately".) *)
Theorem ready_race_rule_held :
  (exists k, walk_reachable w case_manager 0 race_rules case_query true false case_answer None true plain_options md k
     /\ walk_run w case_manager 0 race_rules case_query true false INone k = None
     /\ ruleIndex (wk_state k) = 3%nat /\ judged k = WSuspend SDrain
     /\ namedResponses (wk_state k) !! "y" = Some (Some m_b)
     /\ exists k', rtc (walk_step w case_manager 0 race_rules case_query true false case_answer None true) k k'
                   /\ wk_phase k' = PDone (answered (Some m_a) (Some server_a)))
  /\ ref_walk w case_manager 0 case_query true case_answer md 0 race_rules (ref_start plain_options)
     = ([answered (Some m_a) (Some server_a); answered (Some m_b) (Some server_b)],
        answered (Some m_default) (Some server_default)).
Proof.
  split; [|vm_compute; reflexivity].
  assert (H : (fun k => (is_nil (walk_run w case_manager 0 race_rules case_query true false INone k),
                         ruleIndex (wk_state k), judged k, namedResponses (wk_state k) !! "y",
                         wk_phase <$> perform_all w case_manager 0 race_rules case_query true false case_answer true
                           [Arrive 0; Go; Go; Go] k))
              <$> perform_all w case_manager 0 race_rules case_query true false case_answer true held_script
                    (start_walk plain_options md)
              = Some (true, 3%nat, WSuspend SDrain, Some (Some m_b), Some (PDone (answered (Some m_a) (Some server_a)))))
    by (vm_compute; reflexivity).
  destruct (perform_all _ _ _ _ _ _ _ _ _ held_script _) as [k|] eqn:Hk; [|done].
  apply Some_inj in H. exists k. split; [by eapply perform_all_reachable|].
  apply pair_eq in H as [H Hf]. apply pair_eq in H as [H Hn]. apply pair_eq in H as [H Hj]. apply pair_eq in H as [H Hi].
  split; [by destruct (walk_run _ _ _ _ _ _ _ INone k)|]. split; [done|]. split; [done|]. split; [done|].
  destruct (perform_all _ _ _ _ _ _ _ _ _ _ k) as [k'|] eqn:Hk'; [|done]. injection Hf as Hf.
  exists k'. split; [by eapply perform_all_steps|done].
Qed.

End Cases.

(** ** Witnesses *)

Definition awaited_script : list move := [Go; Go; Go; Go; Go; Go; Arrive 0; Go; Go; Go; Go].

Lemma awaited_run {X : External} w md m_a m_b m_default :
  exists k, walk_reachable w case_manager 0 missed_rules case_query true false (case_answer m_a m_b m_default) None true plain_options md k
    /\ wk_phase k = PDone (answered (Some m_a) (Some server_a)).
Proof. apply (scripted_phase _ _ _ _ _ _ _ _ _ _ _ _ awaited_script). vm_compute. reflexivity. Qed.

Lemma dns_walk_follows_rules_witness :
  let a := answered (X := concrete) (Some case_query) (Some server_a) in
  let '(races, sequential) := ref_walk (X := concrete) ex_world case_manager 0 case_query true
         (case_answer case_query case_query case_query) ex_md 0 missed_rules (ref_start plain_options) in
  (norm a ∈ races \/ (races = [] /\ norm a = sequential)) \/ exists e, None = Some e /\ a = failed e.
Proof.
  destruct (awaited_run (X := concrete) ex_world ex_md case_query case_query case_query) as (k & Hk & Hd).
  refine (dns_walk_follows_rules ex_world case_manager 0 None (Some case_manager) false (fun _ => None) (fun _ => None) (fun _ => None)
    missed_options true missed_rules _ _ case_query true false (case_answer case_query case_query case_query) None ex_md plain_options
    true k (answered (Some case_query) (Some server_a)) eq_refl _ missed_rules_started _ (or_introl eq_refl) Hk Hd).
  - intros tag rules c H. discriminate H.
  - discriminate.
Defined.

Definition cidr_metadata : RuleSetMetadata :=
  {| ContainsProcessRule := false; ContainsWIFIRule := false; ContainsIPCIDR := true;
     ContainsDNSQueryTypeRule := false; ContainsNonIPCIDRRule := false |}.

Lemma accepted_update_keeps_mode_witness :
  exists flags' warnings',
     buildRules (X := concrete) (Some (updated_sets (fun _ => None) "set" cidr_metadata))
       (Some case_manager) start_plain missed_options false = Ok (missed_rules, false, flags', warnings').
Proof.
  destruct (proj1 (accepted_update_keeps_mode (X := concrete) (fun _ => None) (Some case_manager) start_plain
    (MkRouterRules missed_options missed_rules false true false) (MkFlags true false false) [] "set"
    cidr_metadata eq_refl eq_refl eq_refl) eq_refl) as [H|[H _]]; [exact H|discriminate H].
Defined.

Lemma dns_walk_ends_witness :
  let k := start_walk (X := concrete) plain_options ex_md in
  (exists k', walk_step ex_world case_manager 0 missed_rules case_query true false (case_answer case_query case_query case_query) None false k k')
  \/ exists r, wk_phase k = PDone r /\ Forall (fun x => f_cancelled x = true) (futures (wk_state k)).
Proof.
  intros k. refine (proj2 (dns_walk_ends ex_world case_manager 0 missed_rules case_query true false
    (case_answer case_query case_query case_query) None false plain_options ex_md _) k (rtc_refl _ _)). discriminate.
Defined.
