(* ===== verification/DnsRouterCases.v ===== *)
(** * The reverse mapping, and queries that go wrong

    The domain the route router finds for a connection without one is a name that a DNS
    response gave to its address ([reverse_mapping_recorded]).  Then two executions:
    route options are lost when a response is rejected ([legacy_retry_drops_options]),
    and a rule for IPv4 queries matches a query of another type ([stale_ip_version]). *)

From S2P Require Import Prelude GoStd Netip External Concrete DnsMsg RuleItems RuleMatch RuleSpec RuleOptions RuleBuild RuleAction Router RouterSpec DnsClient DnsFreshness DnsCases DnsRule DnsMode DnsWalk DnsRouter DnsRouterSpec DnsWalkCases.
From coqutil Require Import Datatypes.RecordSetters.
Import DoubleBraceUpdate.
Local Open Scope Z_scope.

(** ** The reverse mapping *)

Section Mapping.
Context {X : External} {L : DnsLib} {SO : SocksaddrOps} {SniffContext : Type}.
Context {RM : Type} `{!LRUCache Addr string RM} `{!LRUCacheLaws Addr string RM _}.

(** The calls that touch the mapping: the end of an exchange, a lookup, a clear. *)
Inductive mapping_op :=
| MExchange (now : Z) (message : Msg) (transport : option DNSTransport) (r : option Msg * option error)
| MLookup (now : Z) (ip : Addr)
| MClear.

Definition run_mapping (m : option RM) (op : mapping_op) : option RM :=
  match op with
  | MExchange now message transport r => (finishExchange_router now message transport r m).2
  | MLookup now ip => (LookupReverseMapping now ip m).2
  | MClear => purge_mapping m
  end.

(** A response of a server that is not FakeIP gave the name to the address, after the
    last clear. *)
Definition recorded (ops : list mapping_op) (ip : Addr) (domain : string) : Prop :=
  exists before now message transport response after record lifetime,
    ops = before ++ (MExchange now message transport (Some response, None) :: after) /\ ~ (MClear ∈ after)
    /\ (forall t, transport = Some t -> tr_Type t <> DNSTypeFakeIP)
    /\ record ∈ Answer response /\ record_mapping record = Some (ip, domain, lifetime).

Lemma recorded_snoc ops op ip domain : op <> MClear -> recorded ops ip domain -> recorded (ops ++ [op]) ip domain.
Proof.
  intros Hop (before & now & message & transport & response & after & record & lifetime & -> & Hc & H).
  exists before, now, message, transport, response, (after ++ [op]), record, lifetime.
  split; [by rewrite <- app_assoc|]. split; [|done]. intros [?|He]%elem_of_app; [done|]. apply list_elem_of_singleton in He. done.
Qed.

Lemma add_mapping_view now entries : forall m ip x, lru_view (fold_left (add_mapping now) entries m) ip = Some x ->
  (exists lifetime, (ip, x.1, lifetime) ∈ entries) \/ lru_view m ip = Some x.
Proof.
  induction entries as [|[[ip' d'] l'] entries IH]; intros m ip x H; cbn in H; [by right|].
  destruct (IH _ _ _ H) as [[l Hl]|Hv]; [left; exists l; by right|].
  destruct (lru_view_AddWithLifetime _ _ _ _ _ _ _ Hv) as [(-> & <- & _)|Hm]; [left; exists l'; by left|by right].
Qed.

Lemma mapping_view capacity ops m ip x :
  fold_left run_mapping ops (Some (lru_New capacity)) = Some m -> lru_view m ip = Some x -> recorded ops ip x.1.
Proof.
  revert m x. induction ops as [|op ops IH] using rev_ind; intros m x Hm Hv.
  { cbn in Hm. injection Hm as <-. by rewrite lru_view_New in Hv. }
  rewrite fold_left_app in Hm. cbn in Hm.
  destruct (fold_left run_mapping ops (Some (lru_New capacity))) as [m0|] eqn:Hm0.
  2: { by destruct op as [now message transport [response [e|]]| |]; cbn in Hm; repeat case_match. }
  destruct op as [now message transport [response [e|]]|now ip'|].
  - injection Hm as <-. apply recorded_snoc; eauto.
  - cbn in Hm. destruct response as [response|]; [|injection Hm as <-; apply recorded_snoc; eauto].
    destruct (_ && _) eqn:Hc; injection Hm as <-; [|apply recorded_snoc; eauto].
    destruct (add_mapping_view _ _ _ _ _ Hv) as [[lifetime Hin]|Hv0]; [|apply recorded_snoc; eauto].
    apply list_elem_of_omap in Hin as (record & Hrec & Heq).
    exists ops, now, message, transport, response, [], record, lifetime. split; [done|]. split; [set_solver|].
    split; [|done]. to_prop. intros t ->. by to_prop.
  - cbn in Hm. destruct (lru_Get now ip' m0) as [d m1] eqn:Hg. injection Hm as <-.
    apply recorded_snoc; [done|]. eapply IH; [done|].
    eapply lru_view_Get. by rewrite Hg.
  - cbn in Hm. injection Hm as <-. by rewrite lru_view_Purge in Hv.
Qed.

Lemma searchProcessInfo_Domain (rt : @RouterDeps X SniffContext) rc :
  md_Domain (rc_md (lookup_neighbor rt (searchProcessInfo rt rc))) = md_Domain (rc_md rc).
Proof. unfold lookup_neighbor, searchProcessInfo. repeat (case_match; try reflexivity). Qed.

(** C23: With the reverse mapping of the DNS router behind it, the route router gives a
    connection without a domain only a name that a response of a DNS server other than
    FakeIP gave to the connection's address since the last clear of the cache, whatever
    exchanges, lookups and clears came before. *)
Theorem reverse_mapping_recorded (rt : @RouterDeps X SniffContext) capacity ops now rc rc' :
  md_Domain (rc_md rc) = "" ->
  prepareMatchMetadata
    (rt {{ rd_LookupReverseMapping := fun ip => (LookupReverseMapping now ip (fold_left run_mapping ops (Some (lru_New capacity)))).1 }})
    rc = inr rc' ->
  md_Domain (rc_md rc') <> "" -> recorded ops (sa_Addr (rc_Destination rc)) (md_Domain (rc_md rc')).
Proof.
  intros Hd. unfold prepareMatchMetadata, find_domain.
  set (rt' := rt {{ rd_LookupReverseMapping := _ }}). set (rc1 := lookup_neighbor rt' _).
  assert (Hd1 : md_Domain (rc_md rc1) = "") by (unfold rc1; by rewrite searchProcessInfo_Domain).
  assert (Ha1 : rc_Destination rc1 = rc_Destination rc) by apply searchProcessInfo_Destination.
  assert (Hv : forall rc2 rc3 : @RouteContext X SniffContext, (inr (if Socksaddr_IsIPv4 (rc_Destination rc2) then rc2 {{ rc_md -> md_IPVersion := 4 }}
      else if Socksaddr_IsIPv6 (rc_Destination rc2) then rc2 {{ rc_md -> md_IPVersion := 6 }} else rc2) : error + _) = inr rc3 ->
      md_Domain (rc_md rc3) = md_Domain (rc_md rc2)).
  { intros rc2 rc3 H. injection H as <-. destruct (Socksaddr_IsIPv4 _); [done|]. by destruct (Socksaddr_IsIPv6 _). }
  rewrite Ha1. destruct (fakeip_contains rt' _).
  { destruct (fakeip_lookup rt' _) as [domain|]; [|done]. case_bool_decide; intros Hi Hne; apply Hv in Hi; rewrite Hi in Hne; destruct (Hne Hd1). }
  rewrite bool_decide_eq_true_2 by done. destruct (rd_LookupReverseMapping rt' _) as [domain|] eqn:Hl.
  2: { intros H Hne. apply Hv in H. rewrite H, Hd1 in Hne. done. }
  intros H _. apply Hv in H. change (md_Domain (rc_md rc') = domain) in H. rewrite H.
  change ((LookupReverseMapping now (sa_Addr (rc_Destination rc)) (fold_left run_mapping ops (Some (lru_New capacity)))).1
    = Some domain) in Hl.
  destruct (fold_left run_mapping ops _) as [m|] eqn:Hm; [|done]. cbn in Hl.
  destruct (lru_Get now (sa_Addr (rc_Destination rc)) m) as [d m'] eqn:Hg. cbn in Hl. subst d.
  destruct (lru_Get_view _ _ _ _ _ Hg) as [e Hv']. exact (mapping_view _ _ _ _ _ Hm Hv').
Qed.
End Mapping.

(** ** Executions *)

Section Executions.
Context {X : External} {L : DnsLib}.
Variable w : World.
Variable md : InboundContext.

Definition dns_rule (ips : list RuleItem) (action : DNSRuleAction) : DNSRule :=
  MkDNSRule (DefaultR (KDefaultDNSRule false "" false) (MkDefault (MkItems [] [] [] [] ips [] (AnyItem <$> ips)) None false))
    (Some action).
Definition options_rule : DNSRule := dns_rule [] (RuleActionDNSRouteOptionsOnly (MkDNSRouteOptions 0 0 true false None prefix_zero)).
Definition route_rule (server : string) (ips : list RuleItem) : DNSRule := dns_rule ips (RuleActionDNSRoute server false DnsWalkCases.no_options).

(** Server a answers with an address its rule rejects; the others with a message that
    tells whether the cache was disabled. *)
Definition rejecting_a (cached uncached : Msg) (i : Z) (transport : option DNSTransport) (o : DNSQueryOptions)
    (check : option (Msg -> bool)) : outcome (option Msg * option error) :=
  Ok (if bool_decide (transport = Some server_a) then (None, Some ErrResponseRejected)
      else (Some (if qo_DisableCache o then uncached else cached), None)).

(** [route-options] disables the cache for the rules behind it; when the response of the
    first of them is rejected the next one is asked with the cache enabled. *)
Theorem legacy_retry_drops_options cached uncached :
  let exchange rules := exchangeLegacy w case_manager 0 (rejecting_a cached uncached) rules case_query plain_options md in
  exchange [options_rule; route_rule "b" []] = Ok ((Some uncached, None), Some server_b)
  /\ exchange [options_rule; route_rule "a" [IPCIDRItem [] false]; route_rule "b" []] = Ok ((Some cached, None), Some server_b).
Proof. split; vm_compute; reflexivity. Qed.

(** docs/configuration/dns/rule.md: [ip_version] is "4 (A DNS query) or 6 (AAAA DNS
    query)".  A query of another type keeps the version of the connection it came by. *)
Lemma stale_ip_version r name qType :
  rr_closing r = false -> qType <> TypeA -> qType <> TypeAAAA -> md_IPVersion md = 4 ->
  exists ctx, prepareExchange r (MkMsg (MkMsgHdr 1 false 0 false false true false false false 0) [MkQuestion name qType ClassINET] [] [] []) md = inr ctx
    /\ item_Match w (NewIPVersionItem false) (ec_metadata ctx) = true.
Proof.
  intros Hc Ha Haaaa Hv. unfold prepareExchange. cbn. rewrite Hc. eexists. split; [reflexivity|].
  cbn. unfold query_ip_version, IPVersionItem_Match. cbn.
  destruct (Z.eqb_spec qType TypeA); [done|]. destruct (Z.eqb_spec qType TypeAAAA); [done|]. cbn. by rewrite Hv.
Qed.
End Executions.

(** ** Witnesses *)

Definition witness_answer : @Msg concrete :=
  MkMsg (fixed_header 0 RcodeSuccess) [MkQuestion "example.org." TypeA ClassINET]
    [RR_A (MkHeader "example.org." TypeA ClassINET 60) [10; 1; 2; 3]] [] [].
Definition witness_walk (qType : Z) : exchangeWithRulesResult :=
  if qType =? TypeA then DnsWalk.answered (X := concrete) (Some witness_answer) (Some server_a) else DnsWalk.failed (ENew "timeout").

Lemma router_lookup_addresses_witness :
  lookup_addresses (X := concrete) 0 witness_walk = [Addr4 167838211]
  /\ Router_Lookup (L := Simple.example_lib) ex_world case_manager 0 (fun _ _ _ _ => Ok (inr [])) (fun _ => Ok None)
       (MkRouterRules [] [] false true false) "example.org" plain_options None ex_md witness_walk = Ok (inr [Addr4 167838211]).
Proof.
  split; [vm_compute; reflexivity|].
  destruct (Router_Lookup _ _ _ _ _ _ _ _ _ _ _) as [result|e|msg|] eqn:E; [|vm_compute in E; discriminate E..].
  exact (f_equal Ok (router_lookup_addresses (X := concrete) (L := Simple.example_lib) ex_world case_manager 0 (fun _ _ _ _ => Ok (inr []))
    (fun _ => Ok None) (MkRouterRules [] [] false true false) "example.org" plain_options ex_md witness_walk result eq_refl eq_refl E)).
Defined.

Import Simple.
Definition mapped_ops : list (@mapping_op concrete) := [MExchange 0 case_query (Some server_a) (Some witness_answer, None)].

Lemma reverse_mapping_recorded_witness :
  recorded (L := Simple.example_lib) mapped_ops (Addr4 167838211) "example.org".
Proof.
  refine (reverse_mapping_recorded (L := Simple.example_lib) (RM := gmap Addr (string * Z)) (ex_router []) 1024 mapped_ops 1
    (ex_conn to_web) _ eq_refl eq_refl _).
  discriminate.
Defined.
