(* ===== verification/Groups.v ===== *)
(** * Outbound groups

    protocol/group/selector.go, protocol/group/urltest.go, common/interrupt and the
    history of common/urltest: an outbound that forwards to the member a user selected,
    and one that forwards to the member with the least delay.

    A member is an object; what its methods return may change between calls when it is
    itself a group, so the functions that ask it take the [Members] of the moment.  The
    group of a URL test is shared by the connections that go through it, the goroutines
    that test its members and the loop that starts tests: [run] is what a goroutine does
    between two operations on shared state, [step] their interleaving. *)

From S2P Require Import Prelude GoStd Netip External Bolt CacheFile.
Local Open Scope Z_scope.

Definition NetworkTCP : string := "tcp".
Definition NetworkUDP : string := "udp".

(** ** common/interrupt *)

(** [list.List]: elements keep their identity; removing one that is gone does
    nothing. *)
Record groupConnItem := MkConnItem { ci_element : Z; ci_conn : Z; ci_isExternal : bool }.
Record InterruptGroup := MkInterrupt { ig_next : Z; connections : list groupConnItem }.

Definition NewGroup : InterruptGroup := MkInterrupt 0 [].

(** [NewConn] and [NewPacketConn]: the element of the wrapped connection. *)
Definition Group_NewConn (conn : Z) (isExternal : bool) (g : InterruptGroup) : Z * InterruptGroup :=
  (ig_next g, MkInterrupt (ig_next g + 1) (connections g ++ [MkConnItem (ig_next g) conn isExternal])).
(** [Conn.Close] and [PacketConn.Close], before the close of the wrapped connection. *)
Definition Conn_Close (element : Z) (g : InterruptGroup) : InterruptGroup :=
  MkInterrupt (ig_next g) (List.filter (fun e => negb (ci_element e =? element)) (connections g)).
(** The connections that are closed, and what is left. *)
Definition Interrupt (interruptExternalConnections : bool) (g : InterruptGroup) : list Z * InterruptGroup :=
  let hit e := negb (ci_isExternal e) || interruptExternalConnections in
  (ci_conn <$> List.filter hit (connections g),
   MkInterrupt (ig_next g) (List.filter (fun e => negb (hit e)) (connections g))).

(** ** adapter.URLTestHistory and common/urltest.HistoryStorage *)

Record URLTestHistory := MkHistory { h_Time : Z; h_Delay : Z }.

(** [hs_emitted] is the log of the events sent to the subscribers. *)
Record HistoryStorage := MkStorage {
  delayHistory : gmap string URLTestHistory;
  updateHooks : list Z;
  hs_emitted : list Z
}.
Definition NewHistoryStorage : HistoryStorage := MkStorage ∅ [] [].
Definition AddUpdateHook (hook : Z) (s : HistoryStorage) : HistoryStorage :=
  MkStorage (delayHistory s) (updateHooks s ++ [hook]) (hs_emitted s).
Definition notifyUpdated (s : HistoryStorage) : HistoryStorage :=
  MkStorage (delayHistory s) (updateHooks s) (hs_emitted s ++ updateHooks s).
Definition LoadURLTestHistory (tag : string) (s : HistoryStorage) : option URLTestHistory := delayHistory s !! tag.
Definition DeleteURLTestHistory (tag : string) (s : HistoryStorage) : HistoryStorage :=
  notifyUpdated (MkStorage (delete tag (delayHistory s)) (updateHooks s) (hs_emitted s)).
Definition StoreURLTestHistory (tag : string) (history : URLTestHistory) (s : HistoryStorage) : HistoryStorage :=
  notifyUpdated (MkStorage (<[tag := history]> (delayHistory s)) (updateHooks s) (hs_emitted s)).
Definition HistoryStorage_Close (s : HistoryStorage) : HistoryStorage :=
  MkStorage (delayHistory s) [] (hs_emitted s).

(** ** Members *)

(** An outbound: whether it is an [OutboundGroup], and which of the handler interfaces
    it has. *)
Record Detour := MkDetour {
  d_id : Z;
  d_Tag : string;
  d_isGroup : bool;
  d_ConnectionHandler : bool;
  d_PacketConnectionHandler : bool
}.
#[export] Instance Detour_eq_dec : EqDecision Detour.
Proof. solve_decision. Defined.

(** What the members' [Network] and [Now] return at the moment. *)
Record Members := MkMembers { m_Network : Detour -> list string; m_Now : Detour -> string }.

Definition RealTag (m : Members) (detour : Detour) : string :=
  if d_isGroup detour then m_Now m detour else d_Tag detour.

(** What [NewConnection] of a group hands the connection to: a handler of the member,
    or the connection manager with a dialer, a member or the group itself. *)
Inductive dialer := DialMember (d : option Detour) | DialGroup.
Inductive handled :=
| ByHandler (d : Detour) (isExternal : bool)
| ByManager (this : dialer) (isExternal : bool).

(** ** Selector *)

Record SelectorOutboundOptions := MkSelectorOptions {
  so_Outbounds : list string;
  so_Default : string;
  so_InterruptExistConnections : bool
}.

Record Selector := MkSelector {
  s_Tag : string;
  s_tags : list string;
  s_defaultTag : string;
  s_outbounds : gmap string Detour;
  s_selected : option Detour;
  s_interruptGroup : InterruptGroup;
  s_interruptExternalConnections : bool
}.

Definition NewSelector (tag : string) (options : SelectorOutboundOptions) : outcome Selector :=
  match so_Outbounds options with
  | [] => Err (ENew "missing tags")
  | _ => Ok (MkSelector tag (so_Outbounds options) (so_Default options) ∅ None NewGroup (so_InterruptExistConnections options))
  end.

Definition set_selected (s : Selector) (d : option Detour) : Selector :=
  MkSelector (s_Tag s) (s_tags s) (s_defaultTag s) (s_outbounds s) d (s_interruptGroup s) (s_interruptExternalConnections s).
Definition set_outbounds (s : Selector) (m : gmap string Detour) : Selector :=
  MkSelector (s_Tag s) (s_tags s) (s_defaultTag s) m (s_selected s) (s_interruptGroup s) (s_interruptExternalConnections s).
Definition set_interruptGroup (s : Selector) (g : InterruptGroup) : Selector :=
  MkSelector (s_Tag s) (s_tags s) (s_defaultTag s) (s_outbounds s) (s_selected s) g (s_interruptExternalConnections s).

Definition Selector_Network (m : Members) (s : Selector) : list string :=
  match s_selected s with
  | None => [NetworkTCP; NetworkUDP]
  | Some d => m_Network m d
  end.

(** [E.New("outbound ", i, " not found: ", tag)] *)
Definition member_missing (i : Z) (tag : string) : error := ENew ("outbound " +:+ pretty i +:+ " not found: " +:+ tag).

(** The loop over the tags at the start of [Start]. *)
Fixpoint collect_outbounds (manager : string -> option Detour) (i : Z) (tags : list string) (m : gmap string Detour)
    : outcome unit * gmap string Detour :=
  match tags with
  | [] => (Ok tt, m)
  | tag :: tags' =>
      match manager tag with
      | None => (Err (member_missing i tag), m)
      | Some detour => collect_outbounds manager (i + 1) tags' (<[tag := detour]> m)
      end
  end.

Definition Now (s : Selector) : string :=
  match s_selected s with
  | None => default "" (head (s_tags s))
  | Some d => d_Tag d
  end.
Definition All (s : Selector) : list string := s_tags s.

(** [DialContext] and [ListenPacket]: [dial] is the connection the member opens. *)
Definition Selector_DialContext (dial : Detour -> outcome Z) (isExternal : bool) (s : Selector) : outcome (Z * Z) * Selector :=
  match s_selected s with
  | None => (Panic "nil pointer dereference", s)
  | Some d =>
      match dial d with
      | Ok conn => let '(element, g) := Group_NewConn conn isExternal (s_interruptGroup s) in (Ok (conn, element), set_interruptGroup s g)
      | Err e => (Err e, s)
      | Panic msg => (Panic msg, s)
      | Diverge => (Diverge, s)
      end
  end.

(** [ctx] is marked external before the hand-over. *)
Definition Selector_NewConnection (s : Selector) : handled :=
  match s_selected s with
  | Some d => if d_ConnectionHandler d then ByHandler d true else ByManager (DialMember (Some d)) true
  | None => ByManager (DialMember None) true
  end.
Definition Selector_NewPacketConnection (s : Selector) : handled :=
  match s_selected s with
  | Some d => if d_PacketConnectionHandler d then ByHandler d true else ByManager (DialMember (Some d)) true
  | None => ByManager (DialMember None) true
  end.

Section Selectors.
Context {DB : Type} `{HB : Bolt DB} {X : External}.
Abbreviation CacheFile := (CacheFile DB).

(** The cached selection, if there is a cache file that has one of a member. *)
Definition cached_selection (cacheFile : option CacheFile) (s : Selector) : option Detour :=
  if bool_decide (s_Tag s = "") then None
  else match cacheFile with
       | None => None
       | Some c =>
           let selected := LoadSelected (s_Tag s) c in
           if bool_decide (selected = "") then None else s_outbounds s !! selected
       end.

Definition Selector_Start (manager : string -> option Detour) (cacheFile : option CacheFile) (s : Selector) : outcome unit * Selector :=
  let '(r, m) := collect_outbounds manager 0 (s_tags s) (s_outbounds s) in
  let s := set_outbounds s m in
  match r with
  | Ok _ =>
      match cached_selection cacheFile s with
      | Some detour => (Ok tt, set_selected s (Some detour))
      | None =>
          if negb (bool_decide (s_defaultTag s = "")) then
            match s_outbounds s !! s_defaultTag s with
            | None => (Err (ENew ("default outbound not found: " +:+ s_defaultTag s)), s)
            | Some detour => (Ok tt, set_selected s (Some detour))
            end
          else
            match s_tags s with
            | [] => (Panic "index out of range", s)
            | tag :: _ => (Ok tt, set_selected s (s_outbounds s !! tag))
            end
      end
  | r => (r, s)
  end.

(** ** SelectOutbound

    Three steps on shared state: the swap, the write to the cache file, the interrupt. *)

(** The result, if it is decided, and the selector after the swap. *)
Definition select_swap (tag : string) (s : Selector) : option bool * Selector :=
  match s_outbounds s !! tag with
  | None => (Some false, s)
  | Some detour =>
      ((if bool_decide (s_selected s = Some detour) then Some true else None), set_selected s (Some detour))
  end.
(** The error of [StoreSelected] is logged. *)
Definition select_store (tag : string) (s : Selector) (cacheFile : option CacheFile) : option CacheFile :=
  if bool_decide (s_Tag s = "") then cacheFile else (fun c => (StoreSelected (s_Tag s) tag c).2) <$> cacheFile.
Definition select_interrupt (s : Selector) : list Z * Selector :=
  let '(closed, g) := Interrupt (s_interruptExternalConnections s) (s_interruptGroup s) in (closed, set_interruptGroup s g).

(** The result, the connections that were closed, and the state. *)
Definition SelectOutbound (tag : string) (s : Selector) (cacheFile : option CacheFile) (history : option HistoryStorage)
    : bool * list Z * (Selector * option CacheFile * option HistoryStorage) :=
  let '(r, s) := select_swap tag s in
  match r with
  | Some b => (b, [], (s, cacheFile, history))
  | None =>
      let cacheFile := select_store tag s cacheFile in
      let '(closed, s) := select_interrupt s in
      (true, closed, (s, cacheFile, notifyUpdated <$> history))
  end.

End Selectors.

(** ** URLTest *)

Definition minute : Z := 60 * second.
Definition DefaultURLTestInterval : Z := 3 * minute.
Definition DefaultURLTestIdleTimeout : Z := 30 * minute.

Record URLTestOutboundOptions := MkURLTestOptions {
  uo_Outbounds : list string;
  uo_URL : string;
  uo_Interval : Z;
  uo_Tolerance : Z;
  uo_IdleTimeout : Z;
  uo_InterruptExistConnections : bool
}.

(** [ticker] and [pauseCallback] are the identity of the ticker; [g_next] the next one;
    [closed] is the state of the channel [close]. *)
Record URLTestGroup := MkGroup {
  outbounds : list Detour;
  interval : Z;
  tolerance : Z;
  idleTimeout : Z;
  interruptExternalConnections : bool;
  checking : bool;
  selectedOutboundTCP : option Detour;
  selectedOutboundUDP : option Detour;
  interruptGroup : InterruptGroup;
  ticker : option Z;
  pauseCallback : option Z;
  g_next : Z;
  closed : bool;
  started : bool;
  lastActive : Z
}.

Definition NewURLTestGroup (outbounds : list Detour) (interval tolerance idleTimeout : Z)
    (interruptExternalConnections : bool) (history : option HistoryStorage) : outcome URLTestGroup :=
  let interval := if interval =? 0 then DefaultURLTestInterval else interval in
  let tolerance := if tolerance =? 0 then 50 else tolerance in
  let idleTimeout := if idleTimeout =? 0 then DefaultURLTestIdleTimeout else idleTimeout in
  if idleTimeout <? interval then Err (ENew "interval must be less or equal than idle_timeout")
  else match history with
       | None => Err (ENew "missing URL test history storage")
       | Some _ => Ok (MkGroup outbounds interval tolerance idleTimeout interruptExternalConnections false None None
                         NewGroup None None 0 false false 0)
       end.

Record URLTest := MkURLTest {
  u_Tag : string;
  u_tags : list string;
  u_link : string;
  u_interval : Z;
  u_tolerance : Z;
  u_idleTimeout : Z;
  u_interruptExternalConnections : bool
}.
Definition NewURLTest (tag : string) (options : URLTestOutboundOptions) : outcome URLTest :=
  match uo_Outbounds options with
  | [] => Err (ENew "missing tags")
  | _ => Ok (MkURLTest tag (uo_Outbounds options) (uo_URL options) (uo_Interval options) (uo_Tolerance options)
               (uo_IdleTimeout options) (uo_InterruptExistConnections options))
  end.

Definition URLTest_Start (manager : string -> option Detour) (history : option HistoryStorage) (s : URLTest) : outcome URLTestGroup :=
  let* outbounds := omap_ix (fun i tag => match manager tag with Some d => Ok d | None => Err (member_missing i tag) end) (u_tags s) in
  NewURLTestGroup outbounds (u_interval s) (u_tolerance s) (u_idleTimeout s) (u_interruptExternalConnections s) history.

Definition URLTest_Now (g : URLTestGroup) : string :=
  match selectedOutboundTCP g, selectedOutboundUDP g with
  | Some d, _ => d_Tag d
  | None, Some d => d_Tag d
  | None, None => ""
  end.

Definition set_checking (g : URLTestGroup) (b : bool) : URLTestGroup :=
  MkGroup (outbounds g) (interval g) (tolerance g) (idleTimeout g) (interruptExternalConnections g) b
    (selectedOutboundTCP g) (selectedOutboundUDP g) (interruptGroup g) (ticker g) (pauseCallback g) (g_next g) (closed g)
    (started g) (lastActive g).
Definition set_selection (g : URLTestGroup) (tcp udp : option Detour) : URLTestGroup :=
  MkGroup (outbounds g) (interval g) (tolerance g) (idleTimeout g) (interruptExternalConnections g) (checking g)
    tcp udp (interruptGroup g) (ticker g) (pauseCallback g) (g_next g) (closed g) (started g) (lastActive g).
Definition set_connections (g : URLTestGroup) (i : InterruptGroup) : URLTestGroup :=
  MkGroup (outbounds g) (interval g) (tolerance g) (idleTimeout g) (interruptExternalConnections g) (checking g)
    (selectedOutboundTCP g) (selectedOutboundUDP g) i (ticker g) (pauseCallback g) (g_next g) (closed g) (started g) (lastActive g).
Definition set_ticker (g : URLTestGroup) (t : option Z) (next : Z) (c : bool) : URLTestGroup :=
  MkGroup (outbounds g) (interval g) (tolerance g) (idleTimeout g) (interruptExternalConnections g) (checking g)
    (selectedOutboundTCP g) (selectedOutboundUDP g) (interruptGroup g) t t next c (started g) (lastActive g).
Definition set_active (g : URLTestGroup) (b : bool) (now : Z) : URLTestGroup :=
  MkGroup (outbounds g) (interval g) (tolerance g) (idleTimeout g) (interruptExternalConnections g) (checking g)
    (selectedOutboundTCP g) (selectedOutboundUDP g) (interruptGroup g) (ticker g) (pauseCallback g) (g_next g) (closed g) b now.

(** ** Select *)

Definition selected_of (g : URLTestGroup) (network : string) : option Detour :=
  if bool_decide (network = NetworkTCP) then selectedOutboundTCP g
  else if bool_decide (network = NetworkUDP) then selectedOutboundUDP g else None.

(** The measured delay of a member. *)
Definition delay_of (m : Members) (hs : HistoryStorage) (d : Detour) : option Z :=
  h_Delay <$> LoadURLTestHistory (RealTag m d) hs.
Definition supports (m : Members) (network : string) (d : Detour) : bool := bool_decide (network ∈ m_Network m d).

(** [minDelay] and [minOutbound] before the loop over the members. *)
Definition select_current (m : Members) (hs : HistoryStorage) (g : URLTestGroup) (network : string) : Z * option Detour :=
  match selected_of g network with
  | Some d => match delay_of m hs d with Some delay => (delay, Some d) | None => (0, None) end
  | None => (0, None)
  end.
Fixpoint select_loop (m : Members) (hs : HistoryStorage) (tolerance : Z) (network : string) (l : list Detour)
    (minDelay : Z) (minOutbound : option Detour) : Z * option Detour :=
  match l with
  | [] => (minDelay, minOutbound)
  | detour :: l' =>
      if negb (supports m network detour) then select_loop m hs tolerance network l' minDelay minOutbound
      else match delay_of m hs detour with
           | None => select_loop m hs tolerance network l' minDelay minOutbound
           | Some delay =>
               if (minDelay =? 0) || (uint 16 (delay + tolerance) <? minDelay)
               then select_loop m hs tolerance network l' delay (Some detour)
               else select_loop m hs tolerance network l' minDelay minOutbound
           end
  end.
Definition Select (m : Members) (hs : HistoryStorage) (g : URLTestGroup) (network : string) : option Detour * bool :=
  let '(minDelay, minOutbound) := select_current m hs g network in
  match (select_loop m hs (tolerance g) network (outbounds g) minDelay minOutbound).2 with
  | None => (List.find (supports m network) (outbounds g), false)
  | Some d => (Some d, true)
  end.

(** ** performUpdateCheck: the selection of a network, whether it was replaced *)

Definition update_selection (selected : option Detour) (choice : option Detour * bool) : bool * option Detour :=
  match choice with
  | (Some outbound, exists_) =>
      match selected with
      | None => (false, Some outbound)
      | Some current => if exists_ && negb (bool_decide (outbound = current)) then (true, Some outbound) else (false, selected)
      end
  | (None, _) => (false, selected)
  end.
Definition update_TCP (m : Members) (hs : HistoryStorage) (g : URLTestGroup) : bool * URLTestGroup :=
  let '(updated, d) := update_selection (selectedOutboundTCP g) (Select m hs g NetworkTCP) in
  (updated, set_selection g d (selectedOutboundUDP g)).
Definition update_UDP (m : Members) (hs : HistoryStorage) (g : URLTestGroup) : bool * URLTestGroup :=
  let '(updated, d) := update_selection (selectedOutboundUDP g) (Select m hs g NetworkUDP) in
  (updated, set_selection g (selectedOutboundTCP g) d).
Definition interrupt_updated (updated : bool) (g : URLTestGroup) : list Z * URLTestGroup :=
  if updated then let '(conns, i) := Interrupt (interruptExternalConnections g) (interruptGroup g) in (conns, set_connections g i)
  else ([], g).

(** ** DialContext and ListenPacket *)

(** [dial] is the connection the member opens; the history of a member that fails is
    dropped. *)
Definition dial_through (dial : Detour -> outcome Z) (isExternal : bool) (outbound : Detour) (g : URLTestGroup) (hs : HistoryStorage)
    : outcome (Z * Z) * URLTestGroup * HistoryStorage :=
  match dial outbound with
  | Ok conn => let '(element, i) := Group_NewConn conn isExternal (interruptGroup g) in (Ok (conn, element), set_connections g i, hs)
  | Err e => (Err e, g, DeleteURLTestHistory (d_Tag outbound) hs)
  | Panic msg => (Panic msg, g, hs)
  | Diverge => (Diverge, g, hs)
  end.
Definition dial_selected (m : Members) (dial : Detour -> outcome Z) (isExternal : bool) (selected : option Detour)
    (network : string) (g : URLTestGroup) (hs : HistoryStorage) : outcome (Z * Z) * URLTestGroup * HistoryStorage :=
  match (match selected with Some d => Some d | None => (Select m hs g network).1 end) with
  | None => (Err (ENew "missing supported outbound"), g, hs)
  | Some outbound => dial_through dial isExternal outbound g hs
  end.

Section Dial.
(** [N.NetworkName]: the name of the network of a dial network such as tcp4. *)
Variable NetworkName : string -> string.

Definition DialContext (m : Members) (dial : Detour -> outcome Z) (isExternal : bool) (network : string)
    (g : URLTestGroup) (hs : HistoryStorage) : outcome (Z * Z) * URLTestGroup * HistoryStorage :=
  if bool_decide (NetworkName network = NetworkTCP) then dial_selected m dial isExternal (selectedOutboundTCP g) network g hs
  else if bool_decide (NetworkName network = NetworkUDP) then dial_selected m dial isExternal (selectedOutboundUDP g) network g hs
  else (Err (ECause (EExternal "unknown network") network), g, hs).
End Dial.
Definition ListenPacket (m : Members) (dial : Detour -> outcome Z) (isExternal : bool) (g : URLTestGroup) (hs : HistoryStorage)
    : outcome (Z * Z) * URLTestGroup * HistoryStorage :=
  dial_selected m dial isExternal (selectedOutboundUDP g) NetworkUDP g hs.
(** The group itself is the dialer of a connection the router hands over. *)
Definition URLTest_NewConnection : handled := ByManager DialGroup true.

(** ** The group's goroutines *)

(** [urlTest] swaps [checking], goes through the members and starts a test for each
    that is due, waits for the tests, and updates the selection.  [running] are the
    tests under way, by tag and real tag. *)
Inductive phase :=
| PCheck (force : bool)
| PTest (force : bool) (rest : list Detour) (checked : gset string) (running : list (string * string)) (result : gmap string Z)
| PUpdateTCP (result : gmap string Z)
| PUpdateUDP (updated : bool) (result : gmap string Z)
| PInterrupt (updated : bool) (result : gmap string Z)
| PRelease (result : gmap string Z)
| PLoopBegin
| PLoopSelect
| PLoopTicked
| PEnd (result : gmap string Z).

(** A goroutine that runs a check, or the loop of a ticker, which runs checks. *)
Record thread := MkThread { th_loop : option Z; th_phase : phase }.

(** What a goroutine meets: nothing, the end of its [n]-th test, a tick, the closed
    channel. *)
Inductive input :=
| INone
| ITest (n : nat) (r : outcome Z)
| ITick
| IClosed.

(** The return of [urlTest]. *)
Definition end_check (th : thread) (result : gmap string Z) : thread :=
  MkThread (th_loop th) (match th_loop th with Some _ => PLoopSelect | None => PEnd result end).

(** One iteration of the loop over the members. *)
Definition test_member (m : Members) (manager : string -> option Detour) (now : Z) (force : bool) (g : URLTestGroup)
    (hs : HistoryStorage) (detour : Detour) (checked : gset string) (running : list (string * string))
    : gset string * list (string * string) :=
  let realTag := RealTag m detour in
  if bool_decide (realTag ∈ checked) then (checked, running)
  else if negb force && match LoadURLTestHistory realTag hs with
                        | Some history => now - h_Time history <? interval g
                        | None => false
                        end
  then (checked, running)
  else ({[realTag]} ∪ checked,
        match manager realTag with None => running | Some _ => running ++ [(d_Tag detour, realTag)] end).

(** The end of a test. *)
Definition finish_test (now : Z) (tag realTag : string) (r : outcome Z) (result : gmap string Z) (hs : HistoryStorage)
    : gmap string Z * HistoryStorage :=
  match r with
  | Ok t => (<[tag := uint 16 t]> result, StoreURLTestHistory realTag (MkHistory now (uint 16 t)) hs)
  | _ => (result, DeleteURLTestHistory realTag hs)
  end.

Definition run (m : Members) (manager : string -> option Detour) (now : Z) (inp : input) (th : thread)
    (g : URLTestGroup) (hs : HistoryStorage) : option (thread * URLTestGroup * HistoryStorage) :=
  let go p g := Some (MkThread (th_loop th) p, g, hs) in
  match th_phase th, inp with
  | PCheck force, INone =>
      if checking g then Some (end_check th ∅, g, hs)
      else go (PTest force (outbounds g) ∅ [] ∅) (set_checking g true)
  | PTest force (detour :: rest) checked running result, INone =>
      let '(checked, running) := test_member m manager now force g hs detour checked running in
      go (PTest force rest checked running result) g
  | PTest force rest checked running result, ITest n r =>
      match running !! n with
      | None => None
      | Some (tag, realTag) =>
          let '(result, hs) := finish_test now tag realTag r result hs in
          Some (MkThread (th_loop th) (PTest force rest checked (delete n running) result), g, hs)
      end
  | PTest _ [] _ [] result, INone => go (PUpdateTCP result) g
  | PUpdateTCP result, INone => let '(updated, g) := update_TCP m hs g in go (PUpdateUDP updated result) g
  | PUpdateUDP updated result, INone => let '(updated', g) := update_UDP m hs g in go (PInterrupt (updated || updated') result) g
  | PInterrupt updated result, INone => go (PRelease result) (interrupt_updated updated g).2
  | PRelease result, INone => Some (end_check th result, set_checking g false, hs)
  | PLoopBegin, INone =>
      if interval g <? now - lastActive g then go (PCheck false) (set_active g (started g) now) else go PLoopSelect g
  | PLoopSelect, IClosed => if closed g then go (PEnd ∅) g else None
  | PLoopSelect, ITick => go PLoopTicked g
  | PLoopTicked, INone =>
      if idleTimeout g <? now - lastActive g then
        go (PEnd ∅) (if bool_decide (ticker g = th_loop th) then set_ticker g None (g_next g) (closed g) else g)
      else go (PCheck false) g
  | _, _ => None
  end.

(** [PostStart]: a check is started. *)
Definition PostStart (now : Z) (g : URLTestGroup) : thread * URLTestGroup :=
  (MkThread None (PCheck false), set_active g true now).
(** [Touch]: a loop, if it starts one. *)
Definition Touch (now : Z) (g : URLTestGroup) : option thread * URLTestGroup :=
  if negb (started g) then (None, g)
  else match ticker g with
       | Some _ => (None, set_active g true now)
       | None => (Some (MkThread (Some (g_next g)) PLoopBegin), set_ticker g (Some (g_next g)) (g_next g + 1) (closed g))
       end.
Definition URLTestGroup_Close (g : URLTestGroup) : outcome URLTestGroup :=
  match ticker g with
  | None => Ok g
  | Some _ => if closed g then Panic "close of closed channel" else Ok (set_ticker g None (g_next g) true)
  end.

Record system := MkSystem { sys_group : URLTestGroup; sys_history : HistoryStorage; sys_threads : list thread }.

(** The interleavings: goroutines go on, connections are dialed and touch the group, the
    group is started, tested on request and closed, connections are closed, and other
    groups write the history.  A close that panics ends the process: it is no step
    ([close_after_touch_panics]). *)
Inductive step (manager : string -> option Detour) (NetworkName : string -> string) : system -> system -> Prop :=
| step_run m now inp n th th' g g' hs hs' threads :
    threads !! n = Some th -> run m manager now inp th g hs = Some (th', g', hs') ->
    step manager NetworkName (MkSystem g hs threads) (MkSystem g' hs' (<[n := th']> threads))
| step_start now g hs threads th g' :
    started g = false -> PostStart now g = (th, g') ->
    step manager NetworkName (MkSystem g hs threads) (MkSystem g' hs (threads ++ [th]))
| step_touch now g hs threads th g' :
    Touch now g = (th, g') ->
    step manager NetworkName (MkSystem g hs threads) (MkSystem g' hs (threads ++ option_list th))
| step_dial m dial isExternal network r g hs g' hs' threads :
    DialContext NetworkName m dial isExternal network g hs = (r, g', hs') ->
    step manager NetworkName (MkSystem g hs threads) (MkSystem g' hs' threads)
| step_listen m dial isExternal r g hs g' hs' threads :
    ListenPacket m dial isExternal g hs = (r, g', hs') ->
    step manager NetworkName (MkSystem g hs threads) (MkSystem g' hs' threads)
| step_test force g hs threads :
    step manager NetworkName (MkSystem g hs threads) (MkSystem g hs (threads ++ [MkThread None (PCheck force)]))
| step_conn_close element g hs threads :
    step manager NetworkName (MkSystem g hs threads)
      (MkSystem (set_connections g (Conn_Close element (interruptGroup g))) hs threads)
| step_close g g' hs threads :
    URLTestGroup_Close g = Ok g' -> step manager NetworkName (MkSystem g hs threads) (MkSystem g' hs threads)
| step_history g hs hs' threads : step manager NetworkName (MkSystem g hs threads) (MkSystem g hs' threads).
