(* ===== verification/GroupsSpec.v ===== *)
(** * What outbound groups do

    A selector keeps its selection over a restart ([selector_restart_resumes]); a URL test
    chooses a member within the tolerance of the fastest ([urltest_select_best]); over
    every interleaving of tests, dials and loops the group is consistent
    ([urltest_group_consistent]) and its tests end ([urltest_checks_end]).
    [close_after_touch_panics] and the examples at the end are what the code gets wrong. *)

From S2P Require Import Prelude GoStd Netip External Concrete Bolt CacheFile CacheFileSpec Groups.
Import MapDB.
Local Open Scope Z_scope.

(** ** Interrupts *)

(** [Interrupt] closes the internal connections of the group, the external ones if asked
    to, and keeps the others. *)
Lemma Interrupt_spec ext g conn :
  (conn ∈ (Interrupt ext g).1 <-> exists e, e ∈ connections g /\ ci_conn e = conn /\ (ci_isExternal e = false \/ ext = true))
  /\ forall e, e ∈ connections (Interrupt ext g).2 <-> e ∈ connections g /\ ci_isExternal e = true /\ ext = false.
Proof.
  split; cbn; [rewrite list_elem_of_fmap|intros e];
    setoid_rewrite list_elem_of_In; setoid_rewrite filter_In; [split|].
  - intros (e & -> & He & Hb). exists e. destruct (ci_isExternal e), ext; naive_solver.
  - intros (e & He & <- & Hb). exists e. destruct (ci_isExternal e), ext; naive_solver.
  - destruct (ci_isExternal e), ext; naive_solver.
Qed.

(** ** The selector *)

Section Selectors.
Context {DB : Type} `{HB : Bolt DB} `{HL : !BoltLaws DB} {X : External} `{XL : !ExternalLaws X}.
Implicit Types (c : CacheFile DB) (s : Selector).

(** The table of selections can be written. *)
Definition selections_writable c : Prop := table_writable c bucketSelected.

Lemma StoreSelected_load c group selected :
  selections_writable c -> group <> "" -> str_len group <= MaxKeySize -> str_len selected <= MaxValueSize ->
  let c' := (StoreSelected group selected c).2 in
  selections_writable c' /\ LoadSelected group c' = selected.
Proof.
  intros Hw Hg Hlen Hsz.
  assert (Hgb : bytes_of_string group <> []) by (intros E; apply Hg, bytes_of_string_inj; by rewrite E).
  destruct (table_put c bucketSelected (bytes_of_string group) (bytes_of_string selected)) as (d & E & Hw' & Hb & Hget);
    [done|done|done|by rewrite length_bytes_of_string..|].
  cbn zeta. unfold StoreSelected. rewrite (run_tx_ok _ c d) by exact E. cbn [snd]. split; [done|].
  unfold LoadSelected. cbn [db with_db]. rewrite Hb, Hget, decide_True by done. apply string_of_bytes_of_string.
Qed.

(** ** Selections over time *)

(** Selections one after another. *)
Definition select_each (st : Selector * CacheFile DB) (tag : string) : Selector * CacheFile DB :=
  let '(_, _, (s, c, _)) := SelectOutbound tag st.1 (Some st.2) None in (s, default st.2 c).

(** What [Start] selects, once the members are collected. *)
Definition start_selection c s : option Detour :=
  match cached_selection (Some c) s with
  | Some d => Some d
  | None => if negb (bool_decide (s_defaultTag s = "")) then s_outbounds s !! s_defaultTag s
            else match s_tags s with [] => None | tag :: _ => s_outbounds s !! tag end
  end.

Lemma collect_lookup manager i tags m m' :
  collect_outbounds manager i tags m = (Ok tt, m') ->
  (forall tag, tag ∈ tags -> is_Some (manager tag))
  /\ forall tag, m' !! tag = if decide (tag ∈ tags) then manager tag else m !! tag.
Proof.
  revert i m. induction tags as [|t tags IH]; cbn; intros i m H.
  { injection H as ->. split; [|done]. by intros tag ?%not_elem_of_nil. }
  destruct (manager t) as [d|] eqn:Ht; [|done]. destruct (IH _ _ H) as [Hs Hl]. split.
  - intros tag [->|?]%elem_of_cons; [by rewrite Ht|auto].
  - intros tag. rewrite Hl. destruct (decide (tag ∈ tags)); [by rewrite decide_True by (by right)|].
    destruct (decide (tag = t)) as [->|Hne].
    + by rewrite decide_True, lookup_insert_eq by (by left).
    + rewrite decide_False, lookup_insert_ne by (try done; by intros [?|?]%elem_of_cons). done.
Qed.

(** A start finds something to select. *)
Definition startable c s : Prop :=
  s_defaultTag s = "" \/ is_Some (s_outbounds s !! s_defaultTag s) \/ is_Some (cached_selection (Some c) s).

Lemma Selector_Start_iff manager c s s' :
  s_tags s <> [] ->
  Selector_Start manager (Some c) s = (Ok tt, s') <->
  exists m, collect_outbounds manager 0 (s_tags s) (s_outbounds s) = (Ok tt, m) /\ startable c (set_outbounds s m)
    /\ s' = set_selected (set_outbounds s m) (start_selection c (set_outbounds s m)).
Proof.
  intros Hne. unfold Selector_Start, start_selection, startable. destruct (collect_outbounds _ _ _ _) as [r m] eqn:Hm.
  assert (Hinj : forall (P : gmap string Detour -> Prop), (exists m', (r, m) = (Ok tt, m') /\ P m') <-> r = Ok tt /\ P m)
    by naive_solver.
  rewrite Hinj. destruct r as [[]|e|msg|]; [|naive_solver..].
  destruct (cached_selection (Some c) (set_outbounds s m)) as [d|] eqn:Hc; cbn; [naive_solver|].
  case_bool_decide as E; cbn [negb].
  - destruct (s_tags s) as [|t l]; [done|]. naive_solver.
  - destruct (m !! s_defaultTag s) as [d|]; naive_solver.
Qed.

Lemma start_selection_ext c s s' :
  s_Tag s' = s_Tag s -> s_tags s' = s_tags s -> s_defaultTag s' = s_defaultTag s -> s_outbounds s' = s_outbounds s ->
  start_selection c s' = start_selection c s /\ (startable c s' <-> startable c s).
Proof.
  intros E1 E2 E3 E4. unfold start_selection, startable, cached_selection. by rewrite E1, E2, E3, E4.
Qed.

(** The selector's selection is the one a start would make. *)
Definition resumable c s s0 m : Prop :=
  selections_writable c /\ s_Tag s = s_Tag s0 /\ s_tags s = s_tags s0 /\ s_defaultTag s = s_defaultTag s0 /\ s_outbounds s = m
  /\ startable c s /\ start_selection c s = s_selected s.

Lemma select_resumable c s s0 m tag :
  s_Tag s0 <> "" -> str_len (s_Tag s0) <= MaxKeySize -> (is_Some (m !! tag) -> tag <> "" /\ str_len tag <= MaxValueSize) ->
  resumable c s s0 m -> resumable (select_each (s, c) tag).2 (select_each (s, c) tag).1 s0 m.
Proof.
  intros Ht0 Hl0 Htag (Hw & Et & Ets & Ed & Eo & Hst & Hsel). unfold select_each, SelectOutbound, select_swap. cbn [fst snd].
  rewrite Eo. destruct (m !! tag) as [d|] eqn:Hd; [|by split_and!].
  assert (Heq : forall s', s_Tag s' = s_Tag s -> s_tags s' = s_tags s -> s_defaultTag s' = s_defaultTag s -> s_outbounds s' = s_outbounds s ->
    start_selection c s' = start_selection c s /\ (startable c s' <-> startable c s)) by (intros; by apply start_selection_ext).
  case_bool_decide as Esel; cbn [fst snd default].
  - destruct (Heq (set_selected s (Some d))) as [E1 E2]; [done..|].
    change (resumable c (set_selected s (Some d)) s0 m). unfold resumable. rewrite E1, E2. split_and!; try done. cbn. by rewrite Hsel, Esel.
  - unfold select_store. change (s_Tag (set_selected s (Some d))) with (s_Tag s).
    rewrite bool_decide_false by (by rewrite Et). cbn.
    destruct (Htag ltac:(done)) as [Hne Hlen].
    destruct (StoreSelected_load c (s_Tag s) tag) as [Hw' Hload]; [done|by rewrite Et..|done|].
    assert (Hc : cached_selection (Some (StoreSelected (s_Tag s) tag c).2) s = Some d).
    { unfold cached_selection. rewrite bool_decide_false by (by rewrite Et). rewrite Hload, bool_decide_false by done. by rewrite Eo. }
    split_and!; try done.
    + right. right. unfold cached_selection in *. cbn. by rewrite Hc.
    + unfold start_selection. unfold cached_selection in *. cbn. by rewrite Hc.
Qed.

(** Whatever members a user selects, one after another, a restart with the same
    options and the same cache file selects the member that was selected last, and the
    member the selector started with when none was. *)
Theorem selector_restart_resumes manager tag options c tags s0 s :
  selections_writable c -> tag <> "" -> str_len tag <= MaxKeySize ->
  manager "" = None -> Forall (fun t => str_len t <= MaxValueSize) tags ->
  NewSelector tag options = Ok s0 -> Selector_Start manager (Some c) s0 = (Ok tt, s) ->
  let '(s', c') := fold_left select_each tags (s, c) in
  exists s'', Selector_Start manager (Some c') s0 = (Ok tt, s'')
    /\ s_selected s'' = s_selected s' /\ is_Some (s_selected s').
Proof.
  intros Hw Ht Hlen Hempty Htags Hnew Hstart.
  assert (Hs0 : s_tags s0 <> [] /\ s_Tag s0 = tag /\ s_outbounds s0 = ∅).
  { unfold NewSelector in Hnew. destruct (so_Outbounds options) eqn:E; [done|]. injection Hnew as <-. done. }
  destruct Hs0 as (Hne & Etag & Eo). apply Selector_Start_iff in Hstart as (m & Hm & Hst & ->); [|done].
  rewrite Eo in Hm. destruct (collect_lookup _ _ _ _ _ Hm) as [Hsome Hlook]. set (s := set_selected _ _).
  assert (Hr : resumable c s s0 m) by (by split_and!).
  assert (Hkeys : forall t, is_Some (m !! t) -> t <> "").
  { intros t Hs ->. rewrite Hlook in Hs. destruct (decide _); [rewrite Hempty in Hs|rewrite lookup_empty in Hs]; by destruct Hs. }
  clearbody s. clear Hst. assert (H : exists s' c', fold_left select_each tags (s, c) = (s', c') /\ resumable c' s' s0 m).
  { clear Hw. revert s c Hr. induction Htags as [|t tags Hl _ IH]; intros s c Hr; cbn; [by eauto|].
    destruct (select_each (s, c) t) as [s1 c1] eqn:E. apply IH.
    change c1 with (s1, c1).2. change s1 with (s1, c1).1 at 2. rewrite <- E.
    apply select_resumable; [by rewrite Etag|by rewrite Etag|auto|done]. }
  destruct H as (s' & c' & -> & (_ & E1 & E2 & E3 & E4 & Hst & Hsel)).
  exists (set_selected (set_outbounds s0 m) (start_selection c' (set_outbounds s0 m))).
  destruct (start_selection_ext c' s' (set_outbounds s0 m)) as [Ex Ey]; [done..|].
  split; [|split].
  - apply Selector_Start_iff; [done|]. exists m. rewrite Eo. split; [done|]. split; [by apply Ey|done].
  - cbn. by rewrite Ex.
  - rewrite <- Hsel. clear Ex Ey. unfold start_selection, startable in *.
    destruct (cached_selection (Some c') s'); [done|]. rewrite E2, E3, E4 in *.
    destruct (bool_decide_reflect (s_defaultTag s0 = "")) as [Ed|Ed]; cbn [negb].
    + destruct (s_tags s0) as [|t l] eqn:Ets; [done|]. rewrite Hlook, decide_True by (by left). apply Hsome. by left.
    + destruct Hst as [?|[?|[? ?]]]; done.
Qed.

End Selectors.

(** ** The choice of a URL test *)

(** Delays are measured to at least a millisecond, and within the tolerance of the end of
    the 16 bits. *)
Definition delays_fit (m : Members) (hs : HistoryStorage) (g : URLTestGroup) : Prop :=
  0 <= tolerance g
  /\ forall d delay, d ∈ outbounds g -> delay_of m hs d = Some delay -> 0 < delay /\ delay + tolerance g < 65536.

Section Choice.
Variables (m : Members) (hs : HistoryStorage) (tol : Z) (network : string).
Implicit Types (l : list Detour) (best : option Detour).

(** A member of the list that could be chosen, and its delay. *)
Definition candidate l d delay : Prop := d ∈ l /\ supports m network d = true /\ delay_of m hs d = Some delay.

Lemma select_loop_spec l low best :
  0 <= tol -> (forall d delay, candidate l d delay -> 0 < delay /\ delay + tol < 65536) ->
  (best = None /\ low = 0 \/ is_Some best /\ 0 < low) ->
  let '(low', best') := select_loop m hs tol network l low best in
  (best' = None -> best = None /\ forall d delay, ~ candidate l d delay)
  /\ (forall d, best' = Some d ->
        0 < low' /\ (forall d' delay', candidate l d' delay' -> low' <= delay' + tol)
        /\ ((best = Some d /\ low' = low) \/ (candidate l d low' /\ (is_Some best -> low' + tol < low)))).
Proof.
  intros Htol. revert low best. induction l as [|x l IH]; intros low best Hfit Hinv; cbn [select_loop].
  - split; [intros ->; split; [done|]; by intros d delay [?%not_elem_of_nil _]|].
    intros d ->. destruct Hinv as [[? _]|[_ ?]]; [done|]. split; [done|]. split; [by intros ?? [?%not_elem_of_nil _]|by left].
  - assert (Hcons : forall d delay, candidate (x :: l) d delay <->
        (d = x /\ supports m network x = true /\ delay_of m hs x = Some delay) \/ candidate l d delay).
    { intros d delay. unfold candidate. rewrite elem_of_cons. naive_solver. }
    assert (Hfit' : forall d delay, candidate l d delay -> 0 < delay /\ delay + tol < 65536)
      by (intros d delay Hc; apply (Hfit d), Hcons; by right).
    assert (Hskip : (supports m network x = true -> delay_of m hs x = None) -> forall d delay, candidate (x :: l) d delay <-> candidate l d delay).
    { intros Hx d delay. rewrite Hcons. split; [intros [(_ & Hs & Hd)|?]; [rewrite Hx in Hd|]; done|by right]. }
    destruct (supports m network x) eqn:Hs; cbn [negb]; [destruct (delay_of m hs x) as [delay|] eqn:Hd|];
      [|assert (Hsk : forall d delay, candidate (x :: l) d delay <-> candidate l d delay) by (by apply Hskip);
        specialize (IH low best Hfit' Hinv); destruct (select_loop _ _ _ _ _ _ _); setoid_rewrite Hsk; exact IH..].
    destruct (Hfit x delay) as [Hpos Hmax]; [by apply Hcons; left|]. rewrite (uint_small 16) by lia.
    destruct ((low =? 0) || (delay + tol <? low)) eqn:Hb.
    + assert (Hinv' : Some x = None /\ delay = 0 \/ is_Some (Some x) /\ 0 < delay) by (right; split; [done|lia]).
      specialize (IH delay (Some x) Hfit' Hinv'). destruct (select_loop _ _ _ _ _ _ _) as [low' best'].
      destruct IH as [IH1 IH2]. split; [intros E; by destruct (IH1 E)|]. intros d E. destruct (IH2 d E) as (H1 & H2 & H3).
      assert (Hle : low' <= delay) by (destruct H3 as [[_ ->]|[_ H3]]; [done|specialize (H3 ltac:(done)); lia]).
      assert (Hbest : is_Some best -> delay + tol < low) by (intros ?; destruct Hinv as [[-> _]|[_ ?]]; [by destruct H|lia]).
      split; [done|]. split.
      * intros d' delay' [(-> & _ & E')|Hc]%Hcons; [|by apply (H2 d')]. injection E' as <-. lia.
      * right. rewrite Hcons. destruct H3 as [[[= <-] ->]|[Hc H3]]; (split; [by auto|intros Hsome; specialize (Hbest Hsome)]); lia.
    + specialize (IH low best Hfit' Hinv). destruct (select_loop _ _ _ _ _ _ _) as [low' best'].
      destruct IH as [IH1 IH2]. apply orb_false_iff in Hb as [Hlow Hb]. split.
      * intros E. destruct (IH1 E) as [-> _]. destruct Hinv as [[_ ->]|[[? ?] _]]; [by rewrite Z.eqb_refl in Hlow|done].
      * intros d E. destruct (IH2 d E) as (H1 & H2 & H3). split; [done|]. split.
        -- intros d' delay' [(-> & _ & E')|Hc]%Hcons; [|by apply (H2 d')]. injection E' as <-.
           assert (low' <= low) by (destruct H3 as [[_ ->]|[_ H3]]; [done|]; destruct Hinv as [[_ ->]|[Hi _]]; [lia|specialize (H3 Hi); lia]).
           lia.
        -- destruct H3 as [?|[Hc H3]]; [by left|right]. rewrite Hcons. by auto.
Qed.

End Choice.

(** C25: With delays of at least a millisecond that stay below 65536 when the tolerance is added,
    the member a URL test chooses for a network is measured, and no member that has
    the network is faster by more than the tolerance; the selection of before is only given
    up for a member that is faster by more than the tolerance, or when it has no
    measurement.  When nothing is measured the choice is the first member that has the
    network, if there is one. *)
Theorem urltest_select_best m hs g network :
  delays_fit m hs g -> (forall d, selected_of g network = Some d -> d ∈ outbounds g) ->
  match Select m hs g network with
  | (Some d, true) =>
      exists delay, delay_of m hs d = Some delay
        /\ (forall d' delay', candidate m hs network (outbounds g) d' delay' -> delay <= delay' + tolerance g)
        /\ (selected_of g network = Some d
            \/ (candidate m hs network (outbounds g) d delay
                /\ forall current delay', selected_of g network = Some current -> delay_of m hs current = Some delay' ->
                     delay + tolerance g < delay'))
  | (choice, false) =>
      choice = List.find (supports m network) (outbounds g) /\ (forall d delay, ~ candidate m hs network (outbounds g) d delay)
      /\ (forall d, selected_of g network = Some d -> delay_of m hs d = None)
  | (None, true) => False
  end.
Proof.
  intros [Htol Hfit] Hsel. unfold Select, select_current. set (current := selected_of g network) in *.
  assert (Hcur : forall d delay, current = Some d -> delay_of m hs d = Some delay -> 0 < delay)
    by (intros d delay Hc Hd; by apply (Hfit d delay (Hsel d Hc))).
  set (start := match current with Some d => _ | None => _ end).
  assert (Hstart : start = (0, None) /\ (forall d, current = Some d -> delay_of m hs d = None)
                   \/ exists d delay, start = (delay, Some d) /\ current = Some d /\ delay_of m hs d = Some delay).
  { unfold start. destruct current as [d|]; [|left; naive_solver]. destruct (delay_of m hs d) eqn:E; [right; eauto|left; naive_solver]. }
  pose proof (select_loop_spec m hs (tolerance g) network (outbounds g) start.1 start.2) as Hloop.
  specialize (Hloop Htol ltac:(intros d delay (Hin & _ & Hd); by apply (Hfit d))).
  destruct start as [low best]. cbn [fst snd] in *.
  assert (Hinv : best = None /\ low = 0 \/ is_Some best /\ 0 < low).
  { destruct Hstart as [[[= -> ->] _]|(d & delay & [= -> ->] & Hc & Hd)]; [by left|right; split; [done|by apply (Hcur d)]]. }
  specialize (Hloop Hinv). destruct (select_loop _ _ _ _ _ _ _) as [low' [d|]] eqn:E; cbn [snd].
  - destruct Hloop as [_ Hloop]. destruct (Hloop d eq_refl) as (_ & Hle & Hor). exists low'.
    destruct Hor as [[-> ->]|[Hc Hless]].
    + destruct Hstart as [[[= ? ?] _]|(d' & delay & [= -> ->] & Hc & Hd)]. split; [done|]. split; [exact Hle|by left].
    + split; [apply Hc|]. split; [exact Hle|]. right. split; [done|]. intros cur delay' Hcu Hd'.
      destruct Hstart as [[_ Hnone]|(d'' & delay & [= -> ->] & Hc' & Hd)]; [rewrite (Hnone cur Hcu) in Hd'; done|].
      rewrite Hcu in Hc'. injection Hc' as <-. rewrite Hd in Hd'. injection Hd' as <-. by apply Hless.
  - destruct Hloop as [Hloop _]. destruct (Hloop eq_refl) as [-> Hno].
    assert (Hn : forall d, current = Some d -> delay_of m hs d = None)
      by (destruct Hstart as [[_ H]|(d1 & delay & Hx & _)]; [exact H|done]).
    destruct (List.find _ _); done.
Qed.

(** ** The group over time *)

(** A goroutine that holds [checking]. *)
Definition testing (th : thread) : bool :=
  match th_phase th with PTest _ _ _ _ _ | PUpdateTCP _ | PUpdateUDP _ _ | PInterrupt _ _ | PRelease _ => true | _ => false end.
(** The ticker of a loop that has not ended. *)
Definition alive_loop (th : thread) : option Z := match th_phase th with PEnd _ => None | _ => th_loop th end.

Definition checkers (threads : list thread) : nat := length (List.filter testing threads).
Definition loops (threads : list thread) : list Z := omap alive_loop threads.

Record group_ok (sys : system) : Prop := {
  ok_TCP : forall d, selectedOutboundTCP (sys_group sys) = Some d -> d ∈ outbounds (sys_group sys);
  ok_UDP : forall d, selectedOutboundUDP (sys_group sys) = Some d -> d ∈ outbounds (sys_group sys);
  ok_checking : checkers (sys_threads sys) = if checking (sys_group sys) then 1%nat else 0%nat;
  ok_loops : closed (sys_group sys) = false -> loops (sys_threads sys) = option_list (ticker (sys_group sys));
  ok_phases : Forall (fun th => match th_phase th with PLoopBegin | PLoopSelect | PLoopTicked => is_Some (th_loop th) | _ => True end)
                (sys_threads sys)
}.

Lemma Select_member m hs g network d b :
  (forall d, selected_of g network = Some d -> d ∈ outbounds g) -> Select m hs g network = (Some d, b) -> d ∈ outbounds g.
Proof.
  intros Hsel. unfold Select. destruct (select_current m hs g network) as [low best] eqn:Hcur.
  assert (Hb : forall x, best = Some x -> x ∈ outbounds g).
  { unfold select_current in Hcur. destruct (selected_of g network) as [x|]; [|by injection Hcur as <- <-].
    destruct (delay_of m hs x); injection Hcur as <- <-; intros y; [intros [= <-]; by apply Hsel|done]. }
  assert (Hloop : forall l low best, (forall x, best = Some x -> x ∈ outbounds g) -> (forall x, x ∈ l -> x ∈ outbounds g) ->
    forall x, (select_loop m hs (tolerance g) network l low best).2 = Some x -> x ∈ outbounds g).
  { clear. intros l. induction l as [|y l IH]; cbn; intros low best Hb Hl x; [apply Hb|].
    assert (Hl' : forall x, x ∈ l -> x ∈ outbounds g) by (intros; apply Hl; by right).
    destruct (negb _); [by apply IH|]. destruct (delay_of m hs y) as [delay|]; [|by apply IH].
    destruct (_ || _); [|by apply IH]. apply IH; [|done]. intros z [= <-]. apply Hl. by left. }
  destruct (_.2) as [x|] eqn:E; intros [= ? <-].
  - subst x. eapply Hloop; [exact Hb|by intros|exact E].
  - apply list_elem_of_In. by eapply find_some.
Qed.

Lemma update_selection_member m hs g network selected :
  (forall d, selected = Some d -> d ∈ outbounds g) -> (forall d, selected_of g network = Some d -> d ∈ outbounds g) ->
  forall d, (update_selection selected (Select m hs g network)).2 = Some d -> d ∈ outbounds g.
Proof.
  intros Hs Hof d. unfold update_selection. destruct (Select m hs g network) as [[x|] b] eqn:E; [|apply Hs].
  apply Select_member in E; [|done]. destruct selected as [y|]; [|by intros [= <-]].
  destruct (b && _); intros [= <-]; [done|by apply Hs].
Qed.

(** ** Steps of goroutines *)

(** What a step of a goroutine may change of the group. *)
Record run_changes (th th' : thread) (g g' : URLTestGroup) : Prop := {
  rc_outbounds : outbounds g' = outbounds g;
  rc_closed : closed g' = closed g;
  rc_TCP : (forall d, selectedOutboundTCP g = Some d -> d ∈ outbounds g) -> forall d, selectedOutboundTCP g' = Some d -> d ∈ outbounds g;
  rc_UDP : (forall d, selectedOutboundUDP g = Some d -> d ∈ outbounds g) -> forall d, selectedOutboundUDP g' = Some d -> d ∈ outbounds g;
  rc_loop : th_loop th' = th_loop th;
  rc_phase : match th_phase th' with PLoopBegin | PLoopSelect | PLoopTicked => is_Some (th_loop th) | _ => True end;
  rc_checking : (testing th = false /\ testing th' = testing th /\ checking g' = checking g)
                \/ (testing th = true /\ testing th' = true /\ checking g' = checking g)
                \/ (testing th = false /\ testing th' = true /\ checking g = false /\ checking g' = true)
                \/ (testing th = true /\ testing th' = false /\ checking g' = false);
  rc_alive : (alive_loop th' = alive_loop th /\ ticker g' = ticker g)
             \/ (alive_loop th' = None /\ (closed g = true \/ ticker g' = if bool_decide (ticker g = alive_loop th) then None else ticker g))
}.

Lemma end_check_loop th result :
  th_loop (end_check th result) = th_loop th /\ testing (end_check th result) = false
  /\ alive_loop (end_check th result) = th_loop th
  /\ match th_phase (end_check th result) with PLoopBegin | PLoopSelect | PLoopTicked => is_Some (th_loop th) | _ => True end.
Proof. unfold end_check, testing, alive_loop. destruct th as [[t|] p]; cbn; naive_solver. Qed.

Lemma run_changes_ok m manager now inp th g hs th' g' hs' :
  match th_phase th with PLoopBegin | PLoopSelect | PLoopTicked => is_Some (th_loop th) | _ => True end ->
  run m manager now inp th g hs = Some (th', g', hs') -> run_changes th th' g g'.
Proof.
  intros Hph. unfold run. destruct th as [lp p]. cbn [th_phase th_loop] in *.
  pose proof (end_check_loop (MkThread lp p)) as Hend. cbn [th_loop] in Hend.
  assert (HT : forall (d : option Detour) u, update_selection (selectedOutboundTCP g) (Select m hs g NetworkTCP) = (u, d) ->
    (forall d, selectedOutboundTCP g = Some d -> d ∈ outbounds g) -> forall x, d = Some x -> x ∈ outbounds g).
  { intros d u E Hs x ->. apply (update_selection_member m hs g NetworkTCP (selectedOutboundTCP g) Hs Hs). by rewrite E. }
  assert (HU : forall (d : option Detour) u, update_selection (selectedOutboundUDP g) (Select m hs g NetworkUDP) = (u, d) ->
    (forall d, selectedOutboundUDP g = Some d -> d ∈ outbounds g) -> forall x, d = Some x -> x ∈ outbounds g).
  { intros d u E Hs x ->. apply (update_selection_member m hs g NetworkUDP (selectedOutboundUDP g) Hs Hs). by rewrite E. }
  destruct p, inp; try done; unfold update_TCP, update_UDP, interrupt_updated;
    repeat case_match; intros [= <- <- <-]; simplify_eq; try done.
  all: try (destruct (Hend ∅) as (E1 & E2 & E3 & E4)); try (destruct (Hend result) as (E1' & E2' & E3' & E4')).
  all: split; cbn; rewrite ?E1, ?E2, ?E3, ?E1', ?E2', ?E3'; try done; try tauto.
  all: try (intros; by eauto).
  all: right; split; [done|right]; by match goal with H : bool_decide _ = _ |- _ => rewrite H end.
Qed.

Lemma threads_middle (threads : list thread) n th th' :
  threads !! n = Some th ->
  exists l1 l2, threads = l1 ++ th :: l2 /\ <[n := th']> threads = l1 ++ th' :: l2.
Proof.
  intros H. exists (take n threads), (drop (S n) threads). split; [by rewrite take_drop_middle|].
  rewrite insert_take_drop; [done|]. by eapply lookup_lt_Some.
Qed.

Lemma checkers_middle l1 th l2 : checkers (l1 ++ th :: l2) = (checkers l1 + Nat.b2n (testing th) + checkers l2)%nat.
Proof.
  unfold checkers. rewrite List.filter_app, length_app. cbn. destruct (testing th); cbn; lia.
Qed.
Lemma loops_middle l1 th l2 : loops (l1 ++ th :: l2) = loops l1 ++ option_list (alive_loop th) ++ loops l2.
Proof. unfold loops. rewrite omap_app. cbn. by destruct (alive_loop th). Qed.

Lemma checkers_snoc threads th : testing th = false -> checkers (threads ++ [th]) = checkers threads.
Proof. intros H. rewrite checkers_middle, H. unfold checkers. cbn. lia. Qed.

Lemma run_group_ok m manager now inp n th th' g g' hs hs' hs'' threads :
  group_ok (MkSystem g hs'' threads) -> threads !! n = Some th -> run m manager now inp th g hs = Some (th', g', hs') ->
  group_ok (MkSystem g' hs' (<[n := th']> threads)).
Proof.
  intros [HT HU Hc Hl Hp] Hn Hrun. cbn [sys_group sys_threads] in *.
  assert (Hph := Hp). rewrite Forall_lookup in Hph. specialize (Hph n th Hn). cbn in Hph.
  destruct (run_changes_ok _ _ _ _ _ _ _ _ _ _ Hph Hrun) as [Eo Ec HT' HU' El Ep Hch Hal].
  destruct (threads_middle threads n th th' Hn) as (l1 & l2 & E & E'). split; cbn [sys_group sys_threads]; rewrite ?Eo, ?Ec.
  - by apply HT'.
  - by apply HU'.
  - rewrite E', checkers_middle. rewrite E, checkers_middle in Hc.
    destruct Hch as [(H1 & H2 & H4)|[(H1 & H2 & H4)|[(H1 & H2 & H3 & H4)|(H1 & H2 & H4)]]];
      rewrite H4; rewrite ?H2, ?H1, ?H3 in *; cbn in *; try (destruct (checking g)); lia.
  - intros Hcl. specialize (Hl Hcl). rewrite E', loops_middle. rewrite E, loops_middle in Hl.
    destruct Hal as [[Ha Ht]|[Ha Ht]]; rewrite Ha; [by rewrite Ht|]. destruct Ht as [?|Ht]; [congruence|]. rewrite Ht. cbn [option_list app].
    destruct (alive_loop th) as [t|]; cbn [option_list app] in Hl.
    + destruct (ticker g) as [t'|]; [|by destruct (loops l1)]. destruct (loops l1) as [|? [|]]; [|done..].
      cbn in Hl. injection Hl as -> Hl2. by rewrite Hl2, bool_decide_true.
    + rewrite Hl. by destruct (ticker g).
  - rewrite E'. rewrite E, Forall_app, Forall_cons in Hp. rewrite Forall_app, Forall_cons. rewrite El. tauto.
Qed.

Lemma dial_selected_keeps m dial ext selected network g hs r g' hs' :
  dial_selected m dial ext selected network g hs = (r, g', hs') -> exists i, g' = set_connections g i.
Proof.
  assert (Hid : exists i, g = set_connections g i) by (exists (interruptGroup g); by destruct g).
  unfold dial_selected, dial_through. repeat case_match; intros [= <- <- <-]; eauto.
Qed.

Lemma step_group_ok manager NN sys sys' : step manager NN sys sys' -> group_ok sys -> group_ok sys'.
Proof.
  intros Hstep Hok. assert (Hok' := Hok). destruct Hstep, Hok' as [HT HU Hc Hl Hp]; cbn [sys_group sys_threads] in *.
  - eapply run_group_ok; eauto.
  - match goal with H : PostStart _ _ = _ |- _ => injection H as <- <- end. split; cbn [sys_group sys_threads]; try done.
    + by rewrite checkers_snoc.
    + intros ?. rewrite loops_middle, app_nil_r. by apply Hl.
    + apply Forall_app; split; [done|]. by apply Forall_singleton.
  - match goal with H : Touch _ _ = _ |- _ => revert H end. unfold Touch.
    destruct (started g); cbn; [|intros [= <- <-]; by rewrite app_nil_r].
    destruct (ticker g) as [t|] eqn:Et; intros [= <- <-]; [rewrite app_nil_r; split; cbn; rewrite ?Et; done|].
    change (group_ok (MkSystem (set_ticker g (Some (g_next g)) (g_next g + 1) (closed g)) hs
      (threads ++ [MkThread (Some (g_next g)) PLoopBegin]))).
    split; cbn [sys_group sys_threads]; try done.
    + by rewrite checkers_snoc.
    + intros Hcl. rewrite loops_middle, app_nil_r, (Hl Hcl). done.
    + apply Forall_app; split; [done|]. apply Forall_singleton. cbn. eauto.
  - match goal with H : DialContext _ _ _ _ _ _ _ = _ |- _ => revert H end. unfold DialContext.
    repeat case_bool_decide; [intros [? ->]%dial_selected_keeps|intros [? ->]%dial_selected_keeps|intros [= <- <- <-]]; by split.
  - match goal with H : ListenPacket _ _ _ _ _ = _ |- _ => apply dial_selected_keeps in H as [? ->] end. by split.
  - split; cbn [sys_group sys_threads]; try done.
    + by rewrite checkers_snoc.
    + intros ?. rewrite loops_middle, app_nil_r. by apply Hl.
    + apply Forall_app; split; [done|]. by apply Forall_singleton.
  - by split.
  - match goal with H : URLTestGroup_Close _ = _ |- _ => revert H end. unfold URLTestGroup_Close.
    destruct (ticker g); [destruct (closed g); [done|]|]; intros [= <-]; [by split|done].
  - by split.
Qed.

Lemma step_outbounds manager NN sys sys' :
  step manager NN sys sys' -> group_ok sys -> outbounds (sys_group sys') = outbounds (sys_group sys).
Proof.
  intros Hs [_ _ _ _ Hp]. destruct Hs; cbn [sys_group sys_threads] in *; try done.
  - rewrite Forall_lookup in Hp. eapply rc_outbounds, run_changes_ok; [|done]. by eapply Hp.
  - by match goal with H : PostStart _ _ = _ |- _ => injection H as <- <- end.
  - match goal with H : Touch _ _ = _ |- _ => revert H end. unfold Touch.
    repeat case_match; by intros [= <- <-].
  - match goal with H : DialContext _ _ _ _ _ _ _ = _ |- _ => revert H end. unfold DialContext.
    repeat case_bool_decide; [intros [? ->]%dial_selected_keeps|intros [? ->]%dial_selected_keeps|intros [= <- <- <-]]; done.
  - by match goal with H : ListenPacket _ _ _ _ _ = _ |- _ => apply dial_selected_keeps in H as [? ->] end.
  - match goal with H : URLTestGroup_Close _ = _ |- _ => revert H end. unfold URLTestGroup_Close.
    repeat case_match; by intros [= <-].
Qed.

(** C24: Over every interleaving of tests, dials, loops and closes, a URL test group sends
    connections to its own members only; at most one goroutine tests them, and the flag
    that keeps others out is set exactly while one does; and until the group is closed
    there is exactly one loop of tests while it has a ticker, the loop of that ticker, and
    none otherwise.  Afterwards each loop that waits can end. *)
Theorem urltest_group_consistent manager NN members interval tol idle ext history g0 hs sys :
  NewURLTestGroup members interval tol idle ext history = Ok g0 ->
  rtc (step manager NN) (MkSystem g0 hs []) sys ->
  let g := sys_group sys in
  (forall d, selectedOutboundTCP g = Some d \/ selectedOutboundUDP g = Some d -> d ∈ members)
  /\ checkers (sys_threads sys) = (if checking g then 1%nat else 0%nat)
  /\ (closed g = false -> loops (sys_threads sys) = option_list (ticker g))
  /\ (closed g = true -> forall n th, sys_threads sys !! n = Some th -> th_phase th = PLoopSelect ->
       step manager NN sys (MkSystem g (sys_history sys) (<[n := MkThread (th_loop th) (PEnd ∅)]> (sys_threads sys)))).
Proof.
  intros Hnew Hrun.
  assert (H0 : group_ok (MkSystem g0 hs []) /\ outbounds g0 = members).
  { unfold NewURLTestGroup in Hnew. repeat case_match; try done; injection Hnew as <-; by repeat split. }
  destruct H0 as [H0 E0].
  assert (Hm : outbounds (sys_group sys) = members /\ group_ok sys).
  { remember (MkSystem g0 hs []) as s0 eqn:Es. assert (Hb : outbounds (sys_group s0) = members) by (by rewrite Es).
    clear Es. induction Hrun as [|s1 s2 s3 Hs _ IH]; [done|]. apply IH; [by eapply step_group_ok|].
    rewrite <- Hb. by apply (step_outbounds _ _ _ _ Hs). }
  destruct Hm as [Em [HT HU Hc Hl Hp]]. cbn zeta. split_and!; [|done|done|].
  - intros d [Hd|Hd]; rewrite <- Em; [by apply HT|by apply HU].
  - intros Hcl n [lp p] Hn Hph. cbn in Hph. subst p. destruct sys as [g h threads]. cbn [sys_group sys_history sys_threads th_loop] in *.
    apply (step_run _ _ (MkMembers (fun _ => []) (fun _ => EmptyString)) 0 IClosed n (MkThread lp PLoopSelect)); [done|]. unfold run. cbn. by rewrite Hcl.
Qed.

(** ** Tests end *)

(** The steps a check has left, for a group of [n] members. *)
Definition check_left (n : nat) (th : thread) : nat :=
  match th_phase th with
  | PCheck _ => 2 * n + 6
  | PTest _ rest _ running _ => 2 * length rest + length running + 5
  | PUpdateTCP _ => 4
  | PUpdateUDP _ _ => 3
  | PInterrupt _ _ => 2
  | PRelease _ => 1
  | _ => 0
  end.

Lemma run_check_left m manager now inp th g hs th' g' hs' :
  (0 < check_left (length (outbounds g)) th)%nat -> run m manager now inp th g hs = Some (th', g', hs') ->
  (check_left (length (outbounds g)) th' < check_left (length (outbounds g)) th)%nat.
Proof.
  unfold run, check_left. destruct th as [lp p]. cbn [th_phase th_loop]. intros Hpos.
  destruct p, inp; try done; unfold end_check; cbn [th_loop]; repeat case_match; intros Hrun; simplify_eq; cbn [th_phase] in *;
    simplify_eq/=; try lia.
  all: try (match goal with H : test_member _ _ _ _ _ _ _ _ _ = _ |- _ => revert H end; unfold test_member;
    repeat case_match; intros [= <- <-]; rewrite ?length_app; cbn; lia).
  all: match goal with H : _ !! _ = Some _ |- _ => rewrite length_delete by (by rewrite H); apply lookup_lt_Some in H end; cbn in *; lia.
Qed.

Lemma run_check_enabled m manager now th g hs :
  (0 < check_left (length (outbounds g)) th)%nat -> exists inp, is_Some (run m manager now inp th g hs).
Proof.
  unfold run, check_left. destruct th as [lp p]. cbn [th_phase th_loop].
  destruct p as [f|f [|d rest] ck [|[t rt] running] res| | | | | | | |]; intros Hpos; try lia;
    [exists INone|exists INone|exists (ITest 0 (Err EOF))|exists INone..]; cbn; repeat case_match; by eauto.
Qed.

(** A check of a URL test ends whatever else happens: until it does there is a next step
    for it, and every step of the system leaves it alone or brings it closer to its end;
    it takes at most six steps and two for each member. *)
Theorem urltest_checks_end manager NN g hs threads n th :
  threads !! n = Some th -> (0 < check_left (length (outbounds g)) th)%nat ->
  let left th := check_left (length (outbounds g)) th in
  (exists sys' th', step manager NN (MkSystem g hs threads) sys' /\ sys_threads sys' !! n = Some th' /\ (left th' < left th)%nat)
  /\ (forall sys' th', step manager NN (MkSystem g hs threads) sys' -> sys_threads sys' !! n = Some th' ->
        th' = th \/ (left th' < left th)%nat)
  /\ forall force lp, left (MkThread lp (PCheck force)) = (2 * length (outbounds g) + 6)%nat.
Proof.
  intros Hn Hpos left. split; [|split; [|done]].
  - destruct (run_check_enabled (MkMembers (fun _ => []) (fun _ => "")) manager 0 th g hs Hpos) as [inp [[[th' g'] hs'] Hr]].
    exists (MkSystem g' hs' (<[n := th']> threads)), th'. split; [by eapply step_run|]. split; [|by eapply run_check_left].
    apply list_lookup_insert_eq. by eapply lookup_lt_Some.
  - assert (Hsnoc : forall l x th', (threads ++ l) !! n = Some th' -> x = th -> th' = x).
    { intros l x th' H ->. rewrite lookup_app_l in H by (by eapply lookup_lt_Some). congruence. }
    intros sys' th' Hstep Hth'.
    inversion Hstep; subst; cbn [sys_threads] in Hth'; try (left; by eapply Hsnoc); try (left; congruence).
    destruct (decide (n0 = n)) as [->|Hne]; [|rewrite list_lookup_insert_ne in Hth' by done; left; congruence].
    rewrite list_lookup_insert_eq in Hth' by (by eapply lookup_lt_Some). injection Hth' as <-.
    right. assert (th0 = th) as -> by congruence. by eapply run_check_left.
Qed.

(** * Outbound groups: concrete runs and the cases the code gets wrong *)

(** Two plain outbounds and a group. *)
Definition member_a : Detour := MkDetour 1 "a" false false false.
Definition member_b : Detour := MkDetour 2 "b" false true true.
Definition member_group : Detour := MkDetour 3 "group" true true true.
Definition manager_ab (tag : string) : option Detour :=
  if bool_decide (tag = "a") then Some member_a else if bool_decide (tag = "b") then Some member_b
  else if bool_decide (tag = "group") then Some member_group else None.
Definition members_ab : Members := MkMembers (fun _ => [NetworkTCP; NetworkUDP]) (fun _ => "a").

(** ** The selector *)

Definition selector_options : SelectorOutboundOptions := MkSelectorOptions ["a"; "b"] "" true.
Definition selector_new : Selector := MkSelector "select" ["a"; "b"] "" ∅ None NewGroup true.
Definition selector_started : Selector :=
  MkSelector "select" ["a"; "b"] "" (<["b" := member_b]> {["a" := member_a]}) (Some member_a) NewGroup true.
Definition selector_cache : CacheFile DB := New "profile" (3600 * second) ∅.

Lemma selector_cache_writable : selections_writable selector_cache.
Proof. split; [exact (proj1 (new_layout (DB := DB) "profile" (3600 * second) _))|]. intros k. reflexivity. Qed.
Lemma selector_starts : Selector_Start manager_ab (Some selector_cache) selector_new = (Ok tt, selector_started).
Proof. by vm_compute. Qed.

Lemma selector_restart_resumes_witness :
  let '(s', c') := fold_left select_each ["b"; "a"; "c"; "b"] (selector_started, selector_cache) in
  exists s'', Selector_Start manager_ab (Some c') selector_new = (Ok tt, s'')
    /\ s_selected s'' = s_selected s' /\ is_Some (s_selected s').
Proof.
  refine (selector_restart_resumes manager_ab "select" selector_options selector_cache ["b"; "a"; "c"; "b"] selector_new selector_started
    selector_cache_writable _ _ _ _ _ selector_starts); [discriminate|vm_compute; discriminate|reflexivity| |reflexivity].
  repeat constructor; vm_compute; discriminate.
Defined.

(** Two selections at the same time: the second to select is the first to write the
    cache file, and a restart selects the other member. *)
Theorem concurrent_selects_disagree :
  let s1 := (select_swap "b" selector_started).2 in
  let s2 := (select_swap "a" s1).2 in
  let c := default selector_cache (select_store "b" s2 (select_store "a" s2 (Some selector_cache))) in
  s_selected s2 = Some member_a /\ s_selected (Selector_Start manager_ab (Some c) selector_new).2 = Some member_b.
Proof. by vm_compute. Qed.

(** The router hands a connection to [NewConnection] of the selector, which passes it to
    the selected member and not to its own [DialContext]: the connection is not one of the
    interrupt group, so selecting another member does not close it, whatever
    [interrupt_exist_connections] says. *)
Theorem routed_connections_not_interrupted s d :
  s_selected s = Some d ->
  (Selector_NewConnection s = ByHandler d true \/ Selector_NewConnection s = ByManager (DialMember (Some d)) true)
  /\ forall dial, dial d = Ok 7 ->
       7 ∉ (ci_conn <$> connections (s_interruptGroup s)) -> 7 ∉ (select_interrupt s).1
       /\ 7 ∈ (select_interrupt (set_interruptGroup s (s_interruptGroup (Selector_DialContext dial false s).2))).1.
Proof.
  intros Hs. split.
  - unfold Selector_NewConnection. rewrite Hs. destruct (d_ConnectionHandler d); by auto.
  - intros dial Hd Hno. unfold select_interrupt. split.
    + intros Hin. apply (proj1 (proj1 (Interrupt_spec _ _ _))) in Hin as (e & He & Ec & _). apply Hno, list_elem_of_fmap. eauto.
    + apply (proj1 (Interrupt_spec _ _ 7)). unfold Selector_DialContext. rewrite Hs, Hd. cbn.
      exists (MkConnItem (ig_next (s_interruptGroup s)) 7 false). rewrite elem_of_app, list_elem_of_singleton. by auto.
Qed.

(** ** The URL test *)

Definition group_of (tol : Z) (l : list Detour) (tcp udp : option Detour) : URLTestGroup :=
  MkGroup l DefaultURLTestInterval tol DefaultURLTestIdleTimeout false false tcp udp NewGroup None None 0 false false 0.
Definition measured (l : list (string * Z)) : HistoryStorage :=
  MkStorage (list_to_map ((fun x => (x.1, MkHistory 0 x.2)) <$> l)) [] [].

Lemma urltest_select_best_witness :
  Select members_ab (measured [("a", 120); ("b", 60)]) (group_of 50 [member_a; member_b] (Some member_a) None) NetworkTCP
    = (Some member_b, true)
  /\ forall d' delay', candidate members_ab (measured [("a", 120); ("b", 60)]) NetworkTCP [member_a; member_b] d' delay' ->
       60 <= delay' + 50.
Proof.
  pose proof (urltest_select_best members_ab (measured [("a", 120); ("b", 60)])
    (group_of 50 [member_a; member_b] (Some member_a) None) NetworkTCP) as H.
  assert (E : Select members_ab (measured [("a", 120); ("b", 60)]) (group_of 50 [member_a; member_b] (Some member_a) None) NetworkTCP
    = (Some member_b, true)) by (by vm_compute).
  split; [exact E|]. rewrite E in H. destruct H as (delay & Hd & Hle & _).
  - split; [cbn; lia|]. cbn. intros d delay [->|[->|[]%not_elem_of_nil]%elem_of_cons]%elem_of_cons Hd;
      vm_compute in Hd; injection Hd as <-; lia.
  - cbn. intros d [= <-]. by left.
  - vm_compute in Hd. injection Hd as <-. exact Hle.
Defined.

(** The sum of a delay and the tolerance is a [uint16]: with a tolerance of 65000 the
    member that is slower by half a second replaces the selected one. *)
Theorem tolerance_wraps :
  Select members_ab (measured [("a", 100); ("b", 600)]) (group_of 65000 [member_a; member_b] (Some member_a) None) NetworkTCP
  = (Some member_b, true).
Proof. by vm_compute. Qed.

(** A delay below a millisecond is 0, which stands for no delay: the next member replaces
    it, however slow. *)
Theorem zero_delay_passed_over delay :
  Select members_ab (measured [("a", 0); ("b", delay)]) (group_of 50 [member_a; member_b] (Some member_a) None) NetworkTCP
  = (Some member_b, true).
Proof. by vm_compute. Qed.

(** A member that is a group is measured under the tag of its own choice; when a dial
    through it fails the history of its own tag is dropped, and it stays selected. *)
Theorem failed_dial_keeps_group_history e :
  let hs := measured [("a", 100)] in
  let g := group_of 50 [member_group; member_b] (Some member_group) None in
  let '(r, g', hs') := dial_selected members_ab (fun _ => Err e) false (selectedOutboundTCP g) NetworkTCP g hs in
  r = Err e /\ delayHistory hs' = delayHistory hs /\ Select members_ab hs' g' NetworkTCP = (Some member_group, true).
Proof. by vm_compute. Qed.

(** ** A run: start, the test of both members, the selection *)

Definition group_new : URLTestGroup := group_of 50 [member_a; member_b] None None.

(** A run of the first goroutine, with the members' networks and names fixed. *)
Fixpoint run_first (inputs : list input) (sys : system) : option system :=
  match inputs with
  | [] => Some sys
  | inp :: inputs' =>
      match sys_threads sys with
      | th :: threads =>
          match run members_ab manager_ab 0 inp th (sys_group sys) (sys_history sys) with
          | Some (th', g', hs') => run_first inputs' (MkSystem g' hs' (th' :: threads))
          | None => None
          end
      | [] => None
      end
  end.
Lemma run_first_steps NN inputs sys sys' : run_first inputs sys = Some sys' -> rtc (step manager_ab NN) sys sys'.
Proof.
  revert sys. induction inputs as [|inp inputs IH]; cbn; intros sys H; [injection H as ->; constructor|].
  destruct sys as [g hs [|th threads]]; [done|]. cbn in H.
  destruct (run members_ab manager_ab 0 inp th g hs) as [[[th' g'] hs']|] eqn:E; [|done].
  eapply rtc_l; [|by apply IH]. exact (step_run manager_ab NN members_ab 0 inp 0 th th' g g' hs hs' (th :: threads) eq_refl E).
Qed.

Definition group_started : system := MkSystem (PostStart 0 group_new).2 NewHistoryStorage [(PostStart 0 group_new).1].
Definition check_inputs : list input := [INone; INone; INone; ITest 1 (Ok 40); ITest 0 (Ok 80); INone; INone; INone; INone; INone].
Definition group_tested : system := default group_started (run_first check_inputs group_started).

Lemma group_tested_reachable NN : rtc (step manager_ab NN) (MkSystem group_new NewHistoryStorage []) group_tested.
Proof.
  eapply rtc_l; [exact (step_start manager_ab NN 0 group_new NewHistoryStorage [] _ _ eq_refl eq_refl)|].
  apply (run_first_steps NN check_inputs). by vm_compute.
Qed.

Lemma urltest_group_consistent_witness :
  selectedOutboundTCP (sys_group group_tested) = Some member_a /\ member_a ∈ [member_a; member_b]
  /\ checkers (sys_threads group_tested) = 0%nat.
Proof.
  destruct (urltest_group_consistent manager_ab id [member_a; member_b] 0 0 0 false (Some NewHistoryStorage) group_new
    NewHistoryStorage group_tested) as (Hs & Hc & _); [by vm_compute|apply group_tested_reachable|].
  assert (E : selectedOutboundTCP (sys_group group_tested) = Some member_a) by (by vm_compute).
  split; [exact E|]. split; [apply Hs; by left|]. rewrite Hc. by vm_compute.
Defined.

(** A group that is touched after it was closed has a ticker again, and closing it a second time
    panics: the channel is closed already. *)
Theorem close_after_touch_panics NN : exists sys,
  rtc (step manager_ab NN) (MkSystem group_new NewHistoryStorage []) sys /\ closed (sys_group sys) = true
  /\ URLTestGroup_Close (sys_group sys) = Panic "close of closed channel".
Proof.
  set (g1 := (PostStart 0 group_new).2). set (g2 := (Touch 0 g1).2). set (g3 := set_ticker g2 None (g_next g2) true). set (g4 := (Touch 1 g3).2).
  eexists. split; [|split; [|]].
  - eapply rtc_l; [exact (step_start manager_ab NN 0 group_new NewHistoryStorage [] _ g1 eq_refl eq_refl)|].
    eapply rtc_l; [exact (step_touch manager_ab NN 0 g1 NewHistoryStorage _ _ g2 eq_refl)|].
    eapply rtc_l; [exact (step_close manager_ab NN g2 g3 NewHistoryStorage _ eq_refl)|].
    eapply rtc_l; [exact (step_touch manager_ab NN 1 g3 NewHistoryStorage _ _ g4 eq_refl)|]. apply rtc_refl.
  - reflexivity.
  - reflexivity.
Qed.

Lemma urltest_checks_end_witness :
  exists sys' th', step manager_ab id group_started sys' /\ sys_threads sys' !! 0%nat = Some th' /\ (check_left 2 th' < 10)%nat.
Proof.
  destruct (urltest_checks_end manager_ab id (sys_group group_started) (sys_history group_started) (sys_threads group_started) 0
    (MkThread None (PCheck false))) as [(sys' & th' & Hs & Ht & Hl) _]; [reflexivity|cbn; lia|].
  exists sys', th'. split; [exact Hs|]. split; [exact Ht|exact Hl].
Defined.
