(* ===== verification/Ja3.v ===== *)
(** * The client hello parser (common/ja3)

    The parser of the TLS client hello that QUIC sniffing uses: parser.go with its
    checks in order, and ja3.go.  Indexing and slicing panic out of range, as in
    TlsFragment. *)

From S2P Require Import Prelude GoStd TlsFragment.
Local Open Scope Z_scope.

(** ** Errors (error.go) *)

Definition LengthErr (check : Z) : error := ENew ("length check " +:+ pretty check +:+ " failed").
Definition ContentTypeErr : error := ENew "content type not matching".
Definition VersionErr (check : Z) : error := ENew ("version check " +:+ pretty check +:+ " failed").
Definition HandshakeTypeErr : error := ENew "handshake type not matching".
Definition SNITypeErr : error := ENew "SNI type not supported".

(** ** ClientHello *)

Record ClientHello := MkClientHello {
  j_Version : Z;
  j_CipherSuites : list Z;
  j_Extensions : list Z;
  j_EllipticCurves : list Z;
  j_EllipticCurvePF : list Z;
  j_Versions : list Z;
  j_SignatureAlgorithms : list Z;
  j_ServerName : string
}.

Definition ecExtensionHeaderLen : Z := 2.
Definition ecpfExtensionHeaderLen : Z := 1.
Definition versionExtensionHeaderLen : Z := 1.
Definition signatureAlgorithmsExtensionHeaderLen : Z := 2.
Definition ecExtensionType : Z := 10.
Definition ecpfExtensionType : Z := 11.
Definition versionExtensionType : Z := 43.
Definition signatureAlgorithmsExtensionType : Z := 13.
Definition GreaseBitmask : Z := 0x0F0F.

(** ** parseExtensions *)

(** The variables of the loop over the extensions. *)
Record ext_fields := MkFields {
  xf_sni : bytes;
  xf_extensions : list Z;
  xf_ellipticCurves : list Z;
  xf_ellipticCurvePF : list Z;
  xf_versions : list Z;
  xf_signatureAlgorithms : list Z
}.

(** [n] values of two bytes at [i], [i+2], ... *)
Fixpoint uint16s_at (n : nat) (l : bytes) (i : Z) : outcome (list Z) :=
  match n with
  | O => Ok []
  | S n' =>
      let* v := uint16_at l i in
      let* vs := uint16s_at n' l (i + 2) in
      Ok (v :: vs)
  end.
(** The loop [for i := 0; i < stop; i += 2], which appends
    [binary.BigEndian.Uint16(l[i:])]; [n] is the number of its iterations. *)
Fixpoint append_uint16s (n : nat) (l : bytes) (i : Z) (acc : list Z) : outcome (list Z) :=
  match n with
  | O => Ok acc
  | S n' =>
      let* tail := slice_from l i in
      let* v := uint16_at tail 0 in
      append_uint16s n' l (i + 2) (acc ++ [v])
  end.
Definition iterations (stop : Z) : nat := Z.to_nat ((stop + 1) / 2).

(** [switch exType] *)
Definition parse_extension (exType : Z) (sex : bytes) (x : ext_fields) : outcome ext_fields :=
  if exType =? sniExtensionType then
    if zlen sex <? sniExtensionHeaderLen then Err (LengthErr 13) else
    let* sniType := elem_at sex 2 in
    let* sniLen := uint16_at sex 3 in
    let* sex := slice_from sex sniExtensionHeaderLen in
    if negb (zlen sex =? sniLen) then Err (LengthErr 14) else
    if sniType =? sniNameDNSHostnameType then
      Ok (MkFields sex (xf_extensions x) (xf_ellipticCurves x) (xf_ellipticCurvePF x) (xf_versions x) (xf_signatureAlgorithms x))
    else Err SNITypeErr
  else if exType =? ecExtensionType then
    if zlen sex <? ecExtensionHeaderLen then Err (LengthErr 15) else
    let* ecsLen := uint16_at sex 0 in
    let* sex := slice_from sex ecExtensionHeaderLen in
    if negb (zlen sex =? ecsLen) then Err (LengthErr 16) else
    let* curves := uint16s_at (Z.to_nat (ecsLen / 2)) sex 0 in
    Ok (MkFields (xf_sni x) (xf_extensions x) curves (xf_ellipticCurvePF x) (xf_versions x) (xf_signatureAlgorithms x))
  else if exType =? ecpfExtensionType then
    if zlen sex <? ecpfExtensionHeaderLen then Err (LengthErr 17) else
    let* numPF := elem_at sex 0 in
    let* sex := slice_from sex ecpfExtensionHeaderLen in
    if negb (zlen sex =? numPF) then Err (LengthErr 18) else
    Ok (MkFields (xf_sni x) (xf_extensions x) (xf_ellipticCurves x) sex (xf_versions x) (xf_signatureAlgorithms x))
  else if exType =? versionExtensionType then
    if zlen sex <? versionExtensionHeaderLen then Err (LengthErr 19) else
    let* versionsLen := elem_at sex 0 in
    let* rest := slice_from sex 1 in
    let* versions := append_uint16s (iterations versionsLen) rest 0 (xf_versions x) in
    Ok (MkFields (xf_sni x) (xf_extensions x) (xf_ellipticCurves x) (xf_ellipticCurvePF x) versions (xf_signatureAlgorithms x))
  else if exType =? signatureAlgorithmsExtensionType then
    if zlen sex <? signatureAlgorithmsExtensionHeaderLen then Err (LengthErr 20) else
    let* ssaLen := uint16_at sex 0 in
    let* rest := slice_from sex 2 in
    let* algorithms := append_uint16s (iterations ssaLen) rest 0 (xf_signatureAlgorithms x) in
    Ok (MkFields (xf_sni x) (xf_extensions x) (xf_ellipticCurves x) (xf_ellipticCurvePF x) (xf_versions x) algorithms)
  else Ok x.

(** [extensions = append(extensions, exType)] *)
Definition add_extension (exType : Z) (x : ext_fields) : ext_fields :=
  MkFields (xf_sni x) (xf_extensions x ++ [exType]) (xf_ellipticCurves x) (xf_ellipticCurvePF x) (xf_versions x) (xf_signatureAlgorithms x).

(** [for len(exs) > 0]; the step [exs[4+exLen:]] adds in [uint16]. *)
Fixpoint parse_loop (fuel : nat) (exs : bytes) (x : ext_fields) : outcome ext_fields :=
  if zlen exs <=? 0 then Ok x
  else match fuel with
  | O => Diverge
  | S fuel' =>
      if zlen exs <? extensionHeaderLen then Err (LengthErr 11) else
      let* exType := uint16_at exs 0 in
      let* exLen := uint16_at exs 2 in
      let x := add_extension exType x in
      if zlen exs <? extensionHeaderLen + exLen then Err (LengthErr 12) else
      let* sex := slice_of exs extensionHeaderLen (extensionHeaderLen + exLen) in
      let* x := parse_extension exType sex x in
      let* exs := slice_from exs (uint 16 (4 + exLen)) in
      parse_loop fuel' exs x
  end.

(** The hello so far, with the fields of the extensions. *)
Definition parseExtensions (exs : bytes) (version : Z) (cipherSuites : list Z) : outcome ClientHello :=
  if zlen exs =? 0 then Ok (MkClientHello version cipherSuites [] [] [] [] [] "") else
  if zlen exs <? extensionsHeaderLen then Err (LengthErr 9) else
  let* exsLen := uint16_at exs 0 in
  let* exs := slice_from exs extensionsHeaderLen in
  if zlen exs <? exsLen then Err (LengthErr 10) else
  let* x := parse_loop (length exs) exs (MkFields [] [] [] [] [] []) in
  Ok (MkClientHello version cipherSuites (xf_extensions x) (xf_ellipticCurves x) (xf_ellipticCurvePF x) (xf_versions x)
        (xf_signatureAlgorithms x) (string_of_bytes (xf_sni x))).

(** ** parseHandshake, parseSegment *)

Definition version_supported (v : Z) : bool := (Z.land v tlsVersionBitmask =? 0x0300) || (v =? tls13).

Definition parseHandshake (hs : bytes) : outcome ClientHello :=
  if zlen hs <? handshakeHeaderLen + randomDataLen + sessionIDHeaderLen then Err (LengthErr 3) else
  let* handshType := elem_at hs 0 in
  if negb (handshType =? handshakeType) then Err HandshakeTypeErr else
  let* h1 := elem_at hs 1 in
  let* h2 := elem_at hs 2 in
  let* h3 := elem_at hs 3 in
  let handshakeLen := Z.lor (Z.lor (uint 32 (Z.shiftl h1 16)) (uint 32 (Z.shiftl h2 8))) h3 in
  let* rest := slice_from hs 4 in
  if negb (zlen rest =? handshakeLen) then Err (LengthErr 4) else
  let* tlsVersion := uint16_at hs 4 in
  if negb (version_supported tlsVersion) then Err (VersionErr 2) else
  let* sessionIDLen := elem_at hs 38 in
  if zlen hs <? handshakeHeaderLen + randomDataLen + sessionIDHeaderLen + sessionIDLen then Err (LengthErr 5) else
  let* cs := slice_from hs (handshakeHeaderLen + randomDataLen + sessionIDHeaderLen + sessionIDLen) in
  if zlen cs <? cipherSuiteHeaderLen then Err (LengthErr 6) else
  let* csLen := uint16_at cs 0 in
  if zlen cs <? cipherSuiteHeaderLen + csLen + compressMethodHeaderLen then Err (LengthErr 7) else
  let* cipherSuites := uint16s_at (Z.to_nat (csLen / 2)) cs 2 in
  let* compressMethodLen := elem_at cs (cipherSuiteHeaderLen + csLen) in
  if zlen cs <? cipherSuiteHeaderLen + csLen + compressMethodHeaderLen + compressMethodLen then Err (LengthErr 8) else
  let* exs := slice_from cs (cipherSuiteHeaderLen + csLen + compressMethodHeaderLen + compressMethodLen) in
  parseExtensions exs tlsVersion cipherSuites.

Definition parseSegment (segment : bytes) : outcome ClientHello :=
  if zlen segment <? recordLayerHeaderLen then Err (LengthErr 1) else
  let* contType := elem_at segment 0 in
  if negb (contType =? contentType) then Err ContentTypeErr else
  let* tlsRecordVersion := uint16_at segment 1 in
  if negb (version_supported tlsRecordVersion) then Err (VersionErr 1) else
  let* segmentLen := uint16_at segment 3 in
  let* rest := slice_from segment recordLayerHeaderLen in
  if zlen rest <? segmentLen then Err (LengthErr 2) else
  let* hs := slice_of segment recordLayerHeaderLen (recordLayerHeaderLen + segmentLen) in
  parseHandshake hs.

Definition ja3_Compute (payload : bytes) : outcome ClientHello := parseSegment payload.

(** ** Comparison *)

Fixpoint insert_sorted (x : Z) (l : list Z) : list Z :=
  match l with
  | [] => [x]
  | y :: l' => if x <=? y then x :: l else y :: insert_sorted x l'
  end.
Definition sortedExtensions (j : ClientHello) : list Z := foldr insert_sorted [] (j_Extensions j).
Definition Equals (j another : ClientHello) (ignoreExtensionsSequence : bool) : bool :=
  (j_Version j =? j_Version another)
  && bool_decide (j_CipherSuites j = j_CipherSuites another)
  && (ignoreExtensionsSequence || bool_decide (j_Extensions j = j_Extensions another))
  && (negb ignoreExtensionsSequence || bool_decide (j_Extensions j = sortedExtensions another))
  && bool_decide (j_EllipticCurves j = j_EllipticCurves another)
  && bool_decide (j_EllipticCurvePF j = j_EllipticCurvePF another)
  && bool_decide (j_SignatureAlgorithms j = j_SignatureAlgorithms another).

(** ** The fingerprint *)

Definition dashByte : Z := 45.
Definition commaByte : Z := 44.
(** [strconv.AppendUint(byteString, uint64(val), 10)] *)
Definition AppendUint (byteString : bytes) (val : Z) : bytes := byteString ++ bytes_of_string (pretty val).
(** [if val&GreaseBitmask != 0x0A0A { continue }] *)
Definition marshalled (val : Z) : bool := Z.land val GreaseBitmask =? 0x0A0A.
Definition append_values (kept : Z -> bool) (l : list Z) (byteString : bytes) : bytes :=
  fold_left (fun byteString val => if kept val then AppendUint byteString val ++ [dashByte] else byteString) l byteString.
(** [byteString[len(byteString)-1] = commaByte]; the string is never empty. *)
Definition end_with_comma (byteString : bytes) : bytes := take (length byteString - 1) byteString ++ [commaByte].
Definition marshal_list (l : list Z) (byteString : bytes) : bytes :=
  match l with
  | [] => byteString ++ [commaByte]
  | _ => end_with_comma (append_values marshalled l byteString)
  end.
Definition marshalJA3 (j : ClientHello) : bytes :=
  let byteString := AppendUint [] (j_Version j) ++ [commaByte] in
  let byteString := marshal_list (j_CipherSuites j) byteString in
  let byteString := marshal_list (j_Extensions j) byteString in
  let byteString := marshal_list (j_EllipticCurves j) byteString in
  match j_EllipticCurvePF j with
  | [] => byteString
  | l => let byteString := append_values (fun _ => true) l byteString in take (length byteString - 1) byteString
  end.
Definition ja3_String (j : ClientHello) : string := string_of_bytes (marshalJA3 j).
