(* ===== verification/Ja3Spec.v ===== *)
(** * The client hello parser reads what the wire format says

    [client_hello_parsed]: the fields of an encoded client hello; [version_list_panics] and
    [algorithm_list_panics]: client hellos that crash the parser. *)

From S2P Require Import Prelude GoStd TlsFragment TlsFragmentSpec Ja3.
Local Open Scope Z_scope.

Abbreviation wire_hello := TlsFragmentSpec.ClientHello (only parsing).

(** ** Lists of 16-bit values *)

Definition enc16 (l : list Z) : bytes := concat (be_bytes 2 <$> l).

Lemma enc16_cons v l : enc16 (v :: l) = be_bytes 2 v ++ enc16 l.
Proof. done. Qed.
Lemma zlen_enc16 l : zlen (enc16 l) = 2 * zlen l.
Proof. induction l as [|v l IH]; [done|]. rewrite enc16_cons, zlen_app, zlen_be_bytes, IH, zlen_cons. lia. Qed.

Lemma uint16s_at_enc l : forall pre rest i,
  Forall is_uint16 l -> i = zlen pre -> uint16s_at (length l) (pre ++ enc16 l ++ rest) i = Ok l.
Proof.
  induction l as [|v l IH]; intros pre rest i Hl ->; [done|]. apply Forall_cons in Hl as [Hv Hl].
  cbn [length uint16s_at]. rewrite enc16_cons, <- app_assoc, uint16_at_app by (done || apply Hv). cbn [obind].
  rewrite app_assoc, IH; [done|done|]. rewrite zlen_app, zlen_be_bytes. lia.
Qed.

Lemma append_uint16s_enc l : forall pre rest i acc,
  Forall is_uint16 l -> i = zlen pre -> append_uint16s (length l) (pre ++ enc16 l ++ rest) i acc = Ok (acc ++ l).
Proof.
  induction l as [|v l IH]; intros pre rest i acc Hl ->; [by rewrite app_nil_r|]. apply Forall_cons in Hl as [Hv Hl].
  cbn [length append_uint16s]. rewrite slice_from_app by done. cbn [obind]. rewrite enc16_cons, <- app_assoc.
  assert (uint16_at (be_bytes 2 v ++ enc16 l ++ rest) 0 = Ok v) as -> by (by apply (uint16_at_app [])). cbn [obind].
  rewrite app_assoc, IH; [by rewrite <- app_assoc|done|]. rewrite zlen_app, zlen_be_bytes. lia.
Qed.

Lemma uint16s_at_all l : Forall is_uint16 l -> uint16s_at (length l) (enc16 l) 0 = Ok l.
Proof. intros Hl. rewrite <- (app_nil_r (enc16 l)). by apply (uint16s_at_enc l []). Qed.
Lemma append_uint16s_all l acc : Forall is_uint16 l -> append_uint16s (length l) (enc16 l) 0 acc = Ok (acc ++ l).
Proof. intros Hl. rewrite <- (app_nil_r (enc16 l)). by apply (append_uint16s_enc l []). Qed.

Lemma iterations_even {A} (l : list A) : iterations (2 * zlen l) = length l.
Proof. unfold iterations, zlen. replace (2 * Z.of_nat (length l) + 1) with (1 + Z.of_nat (length l) * 2) by lia. rewrite Z.div_add by lia. change (1 / 2) with 0. lia. Qed.
Lemma half_even {A} (l : list A) : Z.to_nat (2 * zlen l / 2) = length l.
Proof. unfold zlen. rewrite Z.mul_comm, Z.div_mul by lia. lia. Qed.

(** ** Extensions *)

(** The extensions the parser looks into, and the others. *)
Inductive hello_ext :=
| XName (host : bytes)
| XGroups (l : list Z)
| XFormats (l : bytes)
| XVersions (l : list Z)
| XAlgorithms (l : list Z)
| XOther (t : Z) (d : bytes).

Definition enc_x (x : hello_ext) : Z * bytes :=
  match x with
  | XName host => (sniExtensionType, enc_sni host)
  | XGroups l => (ecExtensionType, be_bytes 2 (2 * zlen l) ++ enc16 l)
  | XFormats l => (ecpfExtensionType, [zlen l] ++ l)
  | XVersions l => (versionExtensionType, [2 * zlen l] ++ enc16 l)
  | XAlgorithms l => (signatureAlgorithmsExtensionType, be_bytes 2 (2 * zlen l) ++ enc16 l)
  | XOther t d => (t, d)
  end.

(** The values fit their fields, and the extension a record. *)
Definition wf_x (x : hello_ext) : Prop :=
  zlen (enc_x x).2 < 65532 /\
  match x with
  | XName host => True
  | XGroups l | XAlgorithms l => Forall is_uint16 l
  | XFormats l => zlen l < 256
  | XVersions l => Forall is_uint16 l /\ 2 * zlen l < 256
  | XOther t d => 0 <= t < 65536
                  /\ t ∉ [sniExtensionType; ecExtensionType; ecpfExtensionType; versionExtensionType; signatureAlgorithmsExtensionType]
  end.

Definition set_x (x : hello_ext) (f : ext_fields) : ext_fields :=
  match x with
  | XName host => MkFields host (xf_extensions f) (xf_ellipticCurves f) (xf_ellipticCurvePF f) (xf_versions f) (xf_signatureAlgorithms f)
  | XGroups l => MkFields (xf_sni f) (xf_extensions f) l (xf_ellipticCurvePF f) (xf_versions f) (xf_signatureAlgorithms f)
  | XFormats l => MkFields (xf_sni f) (xf_extensions f) (xf_ellipticCurves f) l (xf_versions f) (xf_signatureAlgorithms f)
  | XVersions l => MkFields (xf_sni f) (xf_extensions f) (xf_ellipticCurves f) (xf_ellipticCurvePF f) (xf_versions f ++ l) (xf_signatureAlgorithms f)
  | XAlgorithms l => MkFields (xf_sni f) (xf_extensions f) (xf_ellipticCurves f) (xf_ellipticCurvePF f) (xf_versions f) (xf_signatureAlgorithms f ++ l)
  | XOther _ _ => f
  end.

Lemma parse_name host f :
  zlen (enc_sni host) < 65532 -> parse_extension sniExtensionType (enc_sni host) f = Ok (set_x (XName host) f).
Proof.
  intros Hl. unfold parse_extension. change (sniExtensionType =? sniExtensionType) with true. cbn iota.
  assert (Hz : zlen (enc_sni host) = 5 + zlen host) by (unfold enc_sni; field_lengths; lia).
  pose proof (zlen_nonneg host). unfold sniExtensionHeaderLen. rewrite (proj2 (Z.ltb_ge _ _)) by lia.
  assert (elem_at (enc_sni host) 2 = Ok 0) as -> by (by apply elem_at_app). cbn [obind].
  assert (uint16_at (enc_sni host) 3 = Ok (zlen host)) as ->.
  { unfold enc_sni. rewrite app_assoc. apply uint16_at_app; [field_lengths; lia|lia]. }
  assert (slice_from (enc_sni host) 5 = Ok host) as ->
    by (unfold enc_sni; rewrite !app_assoc; apply slice_from_app; field_lengths; lia).
  cbn [obind]. by rewrite Z.eqb_refl.
Qed.

Lemma list16_fields l : 2 * zlen l + 2 < 65536 -> Forall is_uint16 l ->
  let sex := be_bytes 2 (2 * zlen l) ++ enc16 l in
  zlen sex = 2 + 2 * zlen l /\ uint16_at sex 0 = Ok (2 * zlen l) /\ slice_from sex 2 = Ok (enc16 l).
Proof.
  intros Hl Hu sex. pose proof (zlen_nonneg l). split_and!.
  - unfold sex. rewrite zlen_app, zlen_be_bytes, zlen_enc16. lia.
  - apply (uint16_at_app []); [done|lia].
  - apply slice_from_app. by rewrite zlen_be_bytes.
Qed.

Lemma parse_x x f : wf_x x -> parse_extension (enc_x x).1 (enc_x x).2 f = Ok (set_x x f).
Proof.
  intros [Hlen Hx]. destruct x as [host|l|l|l|l|t d]; cbn [enc_x fst snd] in *; [by apply parse_name|..];
    unfold parse_extension.
  - rewrite zlen_app, zlen_be_bytes, zlen_enc16 in Hlen.
    destruct (list16_fields l ltac:(lia) Hx) as (Ez & E0 & E2). pose proof (zlen_nonneg l).
    change (ecExtensionType =? sniExtensionType) with false. change (ecExtensionType =? ecExtensionType) with true. cbn iota.
    unfold ecExtensionHeaderLen. rewrite (proj2 (Z.ltb_ge _ _)) by lia. rewrite E0. cbn [obind].
    rewrite E2. cbn [obind]. rewrite zlen_enc16, Z.eqb_refl. cbn [negb]. rewrite half_even.
    by rewrite uint16s_at_all.
  - change (ecpfExtensionType =? sniExtensionType) with false. change (ecpfExtensionType =? ecExtensionType) with false.
    change (ecpfExtensionType =? ecpfExtensionType) with true. cbn iota. pose proof (zlen_nonneg l).
    assert (Ez : zlen ([zlen l] ++ l) = 1 + zlen l) by (field_lengths; lia).
    rewrite (proj2 (Z.ltb_ge _ _)) by (unfold ecpfExtensionHeaderLen; lia).
    assert (elem_at ([zlen l] ++ l) 0 = Ok (zlen l)) as -> by (by apply (elem_at_app [])). cbn [obind].
    assert (slice_from ([zlen l] ++ l) ecpfExtensionHeaderLen = Ok l) as -> by (by apply slice_from_app). cbn [obind].
    by rewrite Z.eqb_refl.
  - destruct Hx as [Hu Hs].
    change (versionExtensionType =? sniExtensionType) with false. change (versionExtensionType =? ecExtensionType) with false.
    change (versionExtensionType =? ecpfExtensionType) with false. change (versionExtensionType =? versionExtensionType) with true.
    cbn iota. pose proof (zlen_nonneg l). pose proof (zlen_enc16 l).
    assert (Ez : zlen ([2 * zlen l] ++ enc16 l) = 1 + 2 * zlen l) by (field_lengths; lia).
    rewrite (proj2 (Z.ltb_ge _ _)) by (unfold versionExtensionHeaderLen; lia).
    assert (elem_at ([2 * zlen l] ++ enc16 l) 0 = Ok (2 * zlen l)) as -> by (by apply (elem_at_app [])). cbn [obind].
    rewrite slice_from_app by done. cbn [obind]. rewrite iterations_even.
    by rewrite append_uint16s_all.
  - rewrite zlen_app, zlen_be_bytes, zlen_enc16 in Hlen.
    destruct (list16_fields l ltac:(lia) Hx) as (Ez & E0 & E2). pose proof (zlen_nonneg l).
    change (signatureAlgorithmsExtensionType =? sniExtensionType) with false. change (signatureAlgorithmsExtensionType =? ecExtensionType) with false.
    change (signatureAlgorithmsExtensionType =? ecpfExtensionType) with false. change (signatureAlgorithmsExtensionType =? versionExtensionType) with false.
    change (signatureAlgorithmsExtensionType =? signatureAlgorithmsExtensionType) with true. cbn iota.
    rewrite (proj2 (Z.ltb_ge _ _)) by (unfold signatureAlgorithmsExtensionHeaderLen; lia). rewrite E0. cbn [obind].
    rewrite E2. cbn [obind]. rewrite iterations_even.
    by rewrite append_uint16s_all.
  - destruct Hx as [_ Ht]. rewrite !not_elem_of_cons in Ht. destruct Ht as (? & ? & ? & ? & ? & _).
    by rewrite !(proj2 (Z.eqb_neq _ _)).
Qed.

(** ** The loop over the extensions *)

Lemma parse_loop_cons fuel t d r f :
  0 <= t < 65536 -> zlen d < 65532 ->
  parse_loop (S fuel) (enc_ext (t, d) ++ r) f =
  let* f := parse_extension t d (add_extension t f) in parse_loop fuel r f.
Proof.
  intros Ht Hd. set (exs := enc_ext (t, d) ++ r).
  pose proof (zlen_nonneg d). pose proof (zlen_nonneg r).
  assert (zlen exs = 4 + zlen d + zlen r) as Hl by (unfold exs; rewrite zlen_app, zlen_enc_ext; done).
  assert (uint16_at exs 0 = Ok t) as E0
    by (unfold exs, enc_ext; rewrite <- !app_assoc; apply (uint16_at_app []); done).
  assert (uint16_at exs 2 = Ok (zlen d)) as E2
    by (unfold exs, enc_ext; rewrite <- !app_assoc; apply uint16_at_app; [field_lengths|cbn [snd]]; lia).
  assert (slice_of exs 4 (4 + zlen d) = Ok d) as E4
    by (unfold exs, enc_ext; rewrite app_assoc, <- app_assoc; apply slice_of_app; field_lengths; cbn [snd]; lia).
  assert (slice_from exs (4 + zlen d) = Ok r) as Er
    by (unfold exs; apply slice_from_app; by rewrite zlen_enc_ext).
  cbn [parse_loop]. unfold extensionHeaderLen.
  rewrite (proj2 (Z.leb_gt _ _)), (proj2 (Z.ltb_ge (zlen exs) 4)) by lia.
  rewrite E0, E2. cbn [obind]. rewrite (proj2 (Z.ltb_ge _ _)) by lia.
  rewrite E4. cbn [obind]. rewrite uint_small by lia. rewrite Er.
  by destruct (parse_extension t d (add_extension t f)).
Qed.

(** The fields of a list of extensions. *)
Definition fields_of (xs : list hello_ext) (f : ext_fields) : ext_fields :=
  fold_left (fun f x => set_x x (add_extension (enc_x x).1 f)) xs f.

Lemma enc_x_type x : wf_x x -> 0 <= (enc_x x).1 < 65536.
Proof. intros [_ H]. destruct x; cbn in *; try (split; vm_compute; congruence). apply H. Qed.

Lemma parse_loop_prefix xs : forall fuel f r,
  Forall wf_x xs -> parse_loop (length xs + fuel) (enc_exts (enc_x <$> xs) ++ r) f = parse_loop fuel r (fields_of xs f).
Proof.
  induction xs as [|x xs IH]; intros fuel f r Hx; [done|]. apply Forall_cons in Hx as [Hx Hxs]. rewrite fmap_cons.
  change (enc_exts (enc_x x :: (enc_x <$> xs))) with (enc_ext (enc_x x) ++ enc_exts (enc_x <$> xs)).
  cbn [length Nat.add].
  rewrite <- app_assoc, (surjective_pairing (enc_x x)), parse_loop_cons by (apply enc_x_type || apply Hx; done). cbn [fst snd].
  rewrite parse_x by done. cbn [obind]. by rewrite IH.
Qed.

(** ** The whole client hello *)

(** What an encoded client hello says. *)
Definition hello_fields (version : Z) (ciphers : list Z) (xs : list hello_ext) : ClientHello :=
  let f := fields_of xs (MkFields [] [] [] [] [] []) in
  MkClientHello version ciphers (xf_extensions f) (xf_ellipticCurves f) (xf_ellipticCurvePF f) (xf_versions f)
    (xf_signatureAlgorithms f) (string_of_bytes (xf_sni f)).

Lemma parseExtensions_loop (h : wire_hello) version ciphers :
  parseExtensions (enc_ext_list h) version ciphers =
  let* f := parse_loop (length (enc_exts (ch_exts h))) (enc_exts (ch_exts h)) (MkFields [] [] [] [] [] []) in
  Ok (MkClientHello version ciphers (xf_extensions f) (xf_ellipticCurves f) (xf_ellipticCurvePF f) (xf_versions f)
        (xf_signatureAlgorithms f) (string_of_bytes (xf_sni f))).
Proof.
  unfold parseExtensions, extensionsHeaderLen. set (exs := enc_exts (ch_exts h)).
  pose proof (zlen_nonneg exs) as Hn.
  assert (zlen (enc_ext_list h) = 2 + zlen exs) as Hl by (unfold enc_ext_list, exs; field_lengths; lia).
  rewrite (proj2 (Z.eqb_neq _ _)), (proj2 (Z.ltb_ge _ _)) by lia.
  assert (uint16_at (enc_ext_list h) 0 = Ok (uint 16 (zlen exs))) as -> by (by apply (uint16_at_be_bytes [])).
  assert (slice_from (enc_ext_list h) 2 = Ok exs) as -> by (apply slice_from_app; by rewrite zlen_be_bytes).
  cbn [obind]. rewrite (proj2 (Z.ltb_ge _ _)) by (apply Z.mod_le; lia). done.
Qed.

(** The fuel of the loop is enough for the extensions at the front. *)
Lemma enough_fuel xs r : exists fuel, length (enc_exts (enc_x <$> xs) ++ r) = (length xs + fuel)%nat /\ (length r <= fuel)%nat.
Proof.
  pose proof (length_enc_exts (enc_x <$> xs)) as Hle. rewrite length_fmap in Hle. unfold zlen in Hle. rewrite length_app.
  exists (length (enc_exts (enc_x <$> xs)) + length r - length xs)%nat. lia.
Qed.

Lemma parseExtensions_enc (h : wire_hello) xs version ciphers :
  Forall wf_x xs -> ch_exts h = enc_x <$> xs ->
  parseExtensions (enc_ext_list h) version ciphers = Ok (hello_fields version ciphers xs).
Proof.
  intros Hx He. rewrite parseExtensions_loop, He. destruct (enough_fuel xs []) as (fuel & Hf & _).
  rewrite app_nil_r in Hf. rewrite Hf. rewrite <- (app_nil_r (enc_exts _)), parse_loop_prefix by done. by destruct fuel.
Qed.

Lemma version_supported_range v : 768 <= v <= 772 -> version_supported v = true.
Proof.
  intros H. assert (v = 768 \/ v = 769 \/ v = 770 \/ v = 771 \/ v = 772) as Hv by lia.
  by destruct Hv as [->|[->|[->|[->| ->]]]].
Qed.

Lemma parseHandshake_enc (h : wire_hello) ciphers :
  wf_hello h -> zlen (enc_body h) < 2 ^ 24 -> ch_ciphers h = enc16 ciphers -> Forall is_uint16 ciphers ->
  parseHandshake (enc_handshake h) = parseExtensions (enc_ext_list h) (ch_version h) ciphers.
Proof.
  intros Hwf Hlen Hci Hu. pose proof (zlen_enc_front h Hwf) as Hfront.
  destruct (handshake_header h) as (E0 & E1 & E2 & E3 & E4).
  destruct (handshake_body h Hwf) as (E5 & E6 & E7 & E8 & E9). destruct Hwf as [Hv Hr Hs Hc Hm _].
  pose proof (zlen_nonneg (ch_session h)). pose proof (zlen_nonneg (ch_ciphers h)).
  pose proof (zlen_nonneg (ch_compress h)). pose proof (zlen_nonneg (enc_ext_list h)).
  pose proof (zlen_nonneg (enc_body h)).
  assert (zlen (enc_ciphers h) = 3 + zlen (ch_ciphers h) + zlen (ch_compress h) + zlen (enc_ext_list h)) as Hcl
    by (unfold enc_ciphers; field_lengths; lia).
  unfold parseHandshake, handshakeHeaderLen, randomDataLen, sessionIDHeaderLen, cipherSuiteHeaderLen, compressMethodHeaderLen.
  rewrite (proj2 (Z.ltb_ge _ _)) by lia.
  rewrite E0, E1, E2, E3, E4, E5, E6. cbn [obind]. change (negb (1 =? handshakeType)) with false. cbn iota.
  rewrite handshake_length, Z.eqb_refl, version_supported_range by done. cbn [negb].
  rewrite (proj2 (Z.ltb_ge _ _)) by lia.
  change (6 + 32 + 1) with 39. rewrite E7. cbn [obind].
  rewrite (proj2 (Z.ltb_ge _ _)) by lia.
  assert (uint16_at (enc_ciphers h) 0 = Ok (zlen (ch_ciphers h))) as -> by (apply (uint16_at_app []); [done|lia]).
  cbn [obind]. rewrite (proj2 (Z.ltb_ge _ _)) by lia.
  assert (uint16s_at (Z.to_nat (zlen (ch_ciphers h) / 2)) (enc_ciphers h) 2 = Ok ciphers) as ->.
  { unfold enc_ciphers. rewrite Hci, zlen_enc16, half_even. apply uint16s_at_enc; [done|by rewrite zlen_be_bytes]. }
  assert (elem_at (enc_ciphers h) (2 + zlen (ch_ciphers h)) = Ok (zlen (ch_compress h))) as ->
    by (unfold enc_ciphers; rewrite app_assoc; apply elem_at_app; field_lengths; lia).
  cbn [obind]. rewrite (proj2 (Z.ltb_ge _ _)) by lia.
  assert (slice_from (enc_ciphers h) (2 + zlen (ch_ciphers h) + 1 + zlen (ch_compress h)) = Ok (enc_ext_list h)) as ->.
  { unfold enc_ciphers.
    replace (be_bytes 2 (zlen (ch_ciphers h)) ++ ch_ciphers h ++ zlen (ch_compress h) :: ch_compress h ++ enc_ext_list h)
      with ((be_bytes 2 (zlen (ch_ciphers h)) ++ ch_ciphers h ++ [zlen (ch_compress h)] ++ ch_compress h) ++ enc_ext_list h) by regroup.
    apply slice_from_app. field_lengths. lia. }
  done.
Qed.

Lemma parseSegment_record version hs :
  768 <= version <= 772 -> zlen hs < 65536 ->
  parseSegment ([22] ++ be_bytes 2 version ++ be_bytes 2 (zlen hs) ++ hs) = parseHandshake hs.
Proof.
  intros Hv Hl. set (seg := [22] ++ _). pose proof (zlen_nonneg hs).
  assert (Hz : zlen seg = 5 + zlen hs) by (unfold seg; field_lengths; lia).
  unfold parseSegment, recordLayerHeaderLen. rewrite (proj2 (Z.ltb_ge _ _)) by lia.
  assert (elem_at seg 0 = Ok 22) as -> by (by apply (elem_at_app [])). cbn [obind].
  change (negb (22 =? contentType)) with false. cbn iota.
  assert (uint16_at seg 1 = Ok version) as -> by (apply (uint16_at_app [22]); [done|lia]). cbn [obind].
  rewrite version_supported_range by done. cbn [negb].
  assert (uint16_at seg 3 = Ok (zlen hs)) as ->
    by (unfold seg; rewrite (app_assoc [22]); apply uint16_at_app; [field_lengths; lia|lia]). cbn [obind].
  assert (slice_from seg 5 = Ok hs) as -> by (unfold seg; rewrite !app_assoc; apply slice_from_app; field_lengths; lia).
  cbn [obind]. rewrite Z.ltb_irrefl.
  assert (slice_of seg 5 (5 + zlen hs) = Ok hs) as ->; [|done].
  replace seg with (([22] ++ be_bytes 2 version ++ be_bytes 2 (zlen hs)) ++ hs ++ []) by (unfold seg; rewrite app_nil_r; regroup).
  apply slice_of_app; field_lengths; lia.
Qed.

(** A client hello in the wire format is parsed into its fields: version, cipher
    suites, the types of its extensions in order, groups, point formats, versions, signature
    algorithms and server name. *)
Theorem client_hello_parsed (h : wire_hello) ciphers xs :
  wf_hello h -> 768 <= ch_recordVersion h <= 772 -> zlen (enc_handshake h) < 65536 ->
  ch_ciphers h = enc16 ciphers -> Forall is_uint16 ciphers -> ch_exts h = enc_x <$> xs -> Forall wf_x xs ->
  ja3_Compute (enc_record h) = Ok (hello_fields (ch_version h) ciphers xs).
Proof.
  intros Hwf Hv Hl Hc Hu Hx Hxs. unfold ja3_Compute, enc_record. rewrite parseSegment_record by done.
  rewrite (parseHandshake_enc h ciphers), (parseExtensions_enc h xs); try done.
  unfold enc_handshake in Hl. rewrite !zlen_app, zlen_be_bytes in Hl. change (zlen [1]) with 1 in Hl. lia.
Qed.

(** ** Lists that are longer than their extension *)

Lemma elem_at_short {A} (l : list A) i : zlen l <= i -> elem_at l i = Panic "runtime error: index out of range".
Proof.
  intros H. unfold elem_at. pose proof (zlen_nonneg l). rewrite (proj2 (Z.ltb_ge _ _)) by lia.
  by rewrite lookup_ge_None_2 by (unfold zlen in *; lia).
Qed.

Lemma append_uint16s_short n : forall l i acc,
  0 <= i <= zlen l -> zlen l < i + 2 * Z.of_nat n -> append_uint16s n l i acc = Panic "runtime error: index out of range".
Proof.
  induction n as [|n IH]; intros l i acc Hi Hl; cbn [append_uint16s]; [lia|].
  rewrite slice_from_ok by lia. cbn [obind]. set (tail := drop _ l).
  assert (Ht : zlen tail = zlen l - i) by (by apply zlen_drop).
  unfold uint16_at. destruct (decide (zlen tail = 0)) as [H0|H0]; [by rewrite elem_at_short by lia|].
  pose proof (zlen_nonneg tail).
  destruct (elem_at_lt tail 0) as (a & -> & _); [lia|]. cbn [obind].
  destruct (decide (zlen tail = 1)) as [H1|H1]; [by rewrite elem_at_short by lia|].
  destruct (elem_at_lt tail (0 + 1)) as (b & -> & _); [lia|]. cbn [obind]. apply IH; lia.
Qed.

Lemma parse_panics (h : wire_hello) ciphers xs t d post msg :
  wf_hello h -> 768 <= ch_recordVersion h <= 772 -> zlen (enc_handshake h) < 65536 ->
  ch_ciphers h = enc16 ciphers -> Forall is_uint16 ciphers -> Forall wf_x xs ->
  ch_exts h = (enc_x <$> xs) ++ (t, d) :: post -> 0 <= t < 65536 -> zlen d < 65532 ->
  (forall f, parse_extension t d f = Panic msg) -> ja3_Compute (enc_record h) = Panic msg.
Proof.
  intros Hwf Hv Hl Hc Hu Hxs Hx Ht Hd Hp. unfold ja3_Compute, enc_record. rewrite parseSegment_record by done.
  rewrite (parseHandshake_enc h ciphers); try done.
  - rewrite parseExtensions_loop, Hx, enc_exts_app. destruct (enough_fuel xs (enc_exts ((t, d) :: post))) as (fuel & -> & Hf).
    rewrite parse_loop_prefix by done. change (enc_exts ((t, d) :: post)) with (enc_ext (t, d) ++ enc_exts post) in *.
    destruct fuel as [|fuel]; [cbn in Hf; lia|]. rewrite parse_loop_cons by done. by rewrite Hp.
  - unfold enc_handshake in Hl. rewrite !zlen_app, zlen_be_bytes in Hl. change (zlen [1]) with 1 in Hl. lia.
Qed.

(** A client hello whose supported_versions extension announces more versions than it
    holds crashes the parser. *)
Theorem version_list_panics (h : wire_hello) ciphers xs n rest post :
  wf_hello h -> 768 <= ch_recordVersion h <= 772 -> zlen (enc_handshake h) < 65536 ->
  ch_ciphers h = enc16 ciphers -> Forall is_uint16 ciphers -> Forall wf_x xs ->
  ch_exts h = (enc_x <$> xs) ++ (versionExtensionType, n :: rest) :: post -> zlen rest < 65531 ->
  zlen rest < 2 * Z.of_nat (iterations n) ->
  ja3_Compute (enc_record h) = Panic "runtime error: index out of range".
Proof.
  intros Hwf Hv Hl Hc Hu Hxs Hx Hr Hn. pose proof (zlen_nonneg rest).
  eapply parse_panics; try done; [rewrite zlen_cons; lia|].
  intros f. unfold parse_extension.
  change (versionExtensionType =? sniExtensionType) with false. change (versionExtensionType =? ecExtensionType) with false.
  change (versionExtensionType =? ecpfExtensionType) with false. change (versionExtensionType =? versionExtensionType) with true.
  cbn iota. rewrite (proj2 (Z.ltb_ge _ _)) by (unfold versionExtensionHeaderLen; rewrite zlen_cons; lia).
  assert (elem_at (n :: rest) 0 = Ok n) as -> by done. cbn [obind].
  assert (slice_from (n :: rest) 1 = Ok rest) as -> by (by apply (slice_from_app [n])). cbn [obind]. by rewrite append_uint16s_short by lia.
Qed.

(** ** Fingerprints *)

Lemma append_none l byteString : forallb (fun v => negb (marshalled v)) l = true -> append_values marshalled l byteString = byteString.
Proof.
  unfold append_values. revert byteString. induction l as [|v l IH]; intros bs; cbn; [done|]. intros [Hv H]%andb_true_iff.
  apply negb_true_iff in Hv. rewrite Hv. by apply IH.
Qed.
Lemma marshal_list_none l bs : l <> [] -> forallb (fun v => negb (marshalled v)) l = true ->
  marshal_list l (bs ++ [commaByte]) = bs ++ [commaByte].
Proof.
  intros Hl H. unfold marshal_list. destruct l as [|v l]; [done|]. rewrite append_none by done.
  unfold end_with_comma. rewrite length_app. cbn [length]. by rewrite Nat.add_sub, take_app_length.
Qed.
(** [marshalJA3] keeps the GREASE values it should skip and skips the others: the fingerprint
    of a client hello without GREASE values shows its version and point formats alone. *)
Theorem fingerprint_drops_values version ciphers extensions curves versions algorithms name :
  ciphers <> [] -> extensions <> [] -> curves <> [] ->
  forallb (fun v => negb (marshalled v)) (ciphers ++ extensions ++ curves) = true ->
  marshalJA3 (MkClientHello version ciphers extensions curves [] versions algorithms name) =
  bytes_of_string (pretty version) ++ [commaByte].
Proof.
  intros Hc He Hu. rewrite !forallb_app, !andb_true_iff. intros (H1 & H2 & H3). unfold marshalJA3.
  cbn [j_Version j_CipherSuites j_Extensions j_EllipticCurves j_EllipticCurvePF]. unfold AppendUint. cbn [app].
  by rewrite !marshal_list_none by done.
Qed.

(** [Equals] with [ignoreExtensionsSequence] compares the extensions of one hello, as they
    come, with those of the other, sorted: a hello is not equal to itself. *)
Theorem equals_ignoring_order_irreflexive version ciphers curves formats versions algorithms name x y :
  y < x ->
  let j := MkClientHello version ciphers [x; y] curves formats versions algorithms name in
  Equals j j false = true /\ Equals j j true = false.
Proof.
  intros H j. unfold Equals, sortedExtensions. cbn. rewrite (proj2 (Z.leb_gt _ _)) by lia.
  rewrite Z.eqb_refl. rewrite !bool_decide_eq_true_2 by done. split; [done|].
  rewrite bool_decide_eq_false_2; [done|]. intros [=]. lia.
Qed.
