(* ===== verification/Quic.v ===== *)
(** * QUIC sniffing (common/sniff/quic.go, internal/qtls)

    [QUICClientHello] removes the protection of an Initial packet, goes through its
    frames, puts the CRYPTO fragments of this packet and of the earlier ones together and
    reads the server name out of the client hello.

    The cryptographic functions are parameters ([QuicCrypto]).  A run may panic, and the
    loop that puts the fragments together may not end. *)

From S2P Require Import Prelude GoStd Netip External TlsFragment RuleAction Ja3.
Local Open Scope Z_scope.

(** [golang.org/x/crypto/hkdf] with SHA-256, AES and AES-GCM. *)
Class QuicCrypto := {
  hkdf_Extract : bytes -> bytes -> bytes;
  hkdf_Expand : bytes -> bytes -> Z -> option bytes;
  aes_Encrypt : bytes -> bytes -> outcome bytes;
  gcm_Open : bytes -> bytes -> bytes -> bytes -> outcome bytes
}.

(** ** internal/qtls *)

Definition VersionDraft29 : Z := 0xff00001d.
Definition Version1 : Z := 1.
Definition Version2 : Z := 0x6b3343cf.
Definition SaltOld : bytes :=
  [0xaf; 0xbf; 0xec; 0x28; 0x99; 0x93; 0xd2; 0x4c; 0x9e; 0x97; 0x86; 0xf1; 0x9c; 0x61; 0x11; 0xe0; 0x43; 0x90; 0xa8; 0x99].
Definition SaltV1 : bytes :=
  [0x38; 0x76; 0x2c; 0xf7; 0xf5; 0x59; 0x34; 0xb3; 0x4d; 0x17; 0x9a; 0xe6; 0xa4; 0xc8; 0x0c; 0xad; 0xcc; 0xbb; 0x7f; 0x0a].
Definition SaltV2 : bytes :=
  [0x0d; 0xed; 0xe3; 0xde; 0xf7; 0x00; 0xa6; 0xdb; 0x81; 0x93; 0x81; 0xbe; 0x6e; 0x26; 0x9d; 0xcb; 0xf9; 0xbd; 0x2e; 0xd9].

(** [ReadUvarint]: one, two, four or eight bytes, by the first two bits. *)
Definition QuicReadUvarint : reader Z := fun st =>
  let* (firstByte, st) := ReadByte st in
  let len := Z.shiftl 1 (Z.shiftr (Z.land firstByte 0xc0) 6) in
  let b1 := Z.land firstByte (0xff - 0xc0) in
  if len =? 1 then Ok (b1, st) else
  let* (b2, st) := ReadByte st in
  if len =? 2 then Ok (b2 + Z.shiftl b1 8, st) else
  let* (b3, st) := ReadByte st in
  let* (b4, st) := ReadByte st in
  if len =? 4 then Ok (b4 + Z.shiftl b3 8 + Z.shiftl b2 16 + Z.shiftl b1 24, st) else
  let* (b5, st) := ReadByte st in
  let* (b6, st) := ReadByte st in
  let* (b7, st) := ReadByte st in
  let* (b8, st) := ReadByte st in
  Ok (b8 + Z.shiftl b7 8 + Z.shiftl b6 16 + Z.shiftl b5 24 + Z.shiftl b4 32 + Z.shiftl b3 40 + Z.shiftl b2 48 + Z.shiftl b1 56, st).

Section Qtls.
Context {QC : QuicCrypto}.

Definition HKDFExpandLabel (secret context : bytes) (label : string) (length : Z) : outcome bytes :=
  let b := be_bytes 2 (uint 16 length) ++ [uint 8 (6 + str_len label)] ++ bytes_of_string "tls13 " ++ bytes_of_string label
           ++ [uint 8 (zlen context)] ++ context in
  match hkdf_Expand secret b length with
  | Some out => if zlen out =? length then Ok out else Panic "quic: HKDF-Expand-Label invocation failed unexpectedly"
  | None => Panic "quic: HKDF-Expand-Label invocation failed unexpectedly"
  end.

(** [xorNonceAEAD.Open] of [AEADAESGCMTLS13(key, iv)]: the nonce is xored into the last
    eight bytes of the mask. *)
Definition xorNonce (nonceMask nonce : bytes) : bytes := take 4 nonceMask ++ zip_with Z.lxor (drop 4 nonceMask) nonce.
Definition AEAD_Open (key iv nonce ciphertext additionalData : bytes) : outcome bytes :=
  if negb (zlen iv =? 12) then Panic "tls: internal error: wrong nonce length"
  else gcm_Open key (xorNonce iv nonce) ciphertext additionalData.

End Qtls.

(** ** Frames *)

Record qCryptoFragment := MkFragment { qf_offset : Z; qf_length : Z; qf_payload : bytes }.

Definition frameTypePadding : Z := 0x00.
Definition frameTypePing : Z := 0x01.
Definition frameTypeAck : Z := 0x02.
Definition frameTypeAck2 : Z := 0x03.
Definition frameTypeCrypto : Z := 0x06.
Definition frameTypeConnectionClose : Z := 0x1c.

(** [io.CopyN(io.Discard, reader, n)] *)
Definition discard (n : Z) (st : stream) : outcome stream :=
  if zlen (avail st) <? n then Err EOF else Ok (Stream (drop (Z.to_nat n) (avail st)) (fin st)).
(** [reader.Seek(n, io.SeekCurrent)]: past the end there is nothing left to read. *)
Definition seek (n : Z) (st : stream) : stream := Stream (drop (Z.to_nat n) (avail st)) (fin st).

Fixpoint read_uvarints (n : nat) (st : stream) : outcome stream :=
  match n with
  | O => Ok st
  | S n' => let* (_, st) := QuicReadUvarint st in read_uvarints n' st
  end.
(** The loop over the ACK ranges. *)
Fixpoint ack_ranges (fuel : nat) (n : Z) (st : stream) : outcome stream :=
  if n <=? 0 then Ok st
  else match fuel with
  | O => Diverge
  | S fuel' => let* st := read_uvarints 2 st in ack_ranges fuel' (n - 1) st
  end.

(** The frames of a payload; [mem] is the memory of [decrypted] up to its capacity. *)
Fixpoint read_frames (fuel : nat) (decryptedLen : Z) (mem : bytes) (st : stream) (frameTypeList : list Z) (fragments : list qCryptoFragment)
    : outcome (list Z * list qCryptoFragment) :=
  match fuel with
  | O => Diverge
  | S fuel' =>
      match avail st with
      | [] => Ok (frameTypeList, fragments)
      | frameType :: rest =>
          let st := Stream rest (fin st) in
          let frameTypeList := frameTypeList ++ [frameType] in
          if (frameType =? frameTypePadding) || (frameType =? frameTypePing) then
            read_frames fuel' decryptedLen mem st frameTypeList fragments
          else if (frameType =? frameTypeAck) || (frameType =? frameTypeAck2) then
            let* st := read_uvarints 2 st in
            let* (ackRangeCount, st) := QuicReadUvarint st in
            let* st := read_uvarints 1 st in
            let* st := ack_ranges (S (length (avail st))) ackRangeCount st in
            let* st := (if frameType =? 0x03 then read_uvarints 3 st else Ok st) in
            read_frames fuel' decryptedLen mem st frameTypeList fragments
          else if frameType =? frameTypeCrypto then
            let* (offset, st) := QuicReadUvarint st in
            let* (length, st) := QuicReadUvarint st in
            let index := decryptedLen - zlen (avail st) in
            let* payload := slice_of mem index (index + length) in
            read_frames fuel' decryptedLen mem (seek length st) frameTypeList (fragments ++ [MkFragment offset length payload])
          else if frameType =? frameTypeConnectionClose then
            let* st := read_uvarints 2 st in
            let* (length, st) := QuicReadUvarint st in
            read_frames fuel' decryptedLen mem (seek length st) frameTypeList fragments
          else Err ErrInvalid
      end
  end.

(** The loop [find]: the first fragment at the index is written, and the index moves to
    its end. *)
Fixpoint assemble (fuel : nat) (fragments : list qCryptoFragment) (index : Z) (buffer : bytes) : outcome bytes :=
  match List.find (fun f => qf_offset f =? index) fragments with
  | None => Ok buffer
  | Some f =>
      match fuel with
      | O => Diverge
      | S fuel' => assemble fuel' fragments (uint 64 (qf_offset f + qf_length f)) (buffer ++ qf_payload f)
      end
  end.

Definition frame_len (fragments : list qCryptoFragment) : Z := fold_left (fun n f => uint 64 (n + qf_length f)) fragments 0.
(** The record that is made of the fragments. *)
Definition hello_record (fragments : list qCryptoFragment) : outcome bytes :=
  assemble (length fragments) fragments 0
    ([0x16] ++ be_bytes 2 0x0303 ++ be_bytes 2 (uint 16 (frame_len fragments))).

(** ** The client *)

Definition ClientChromium : string := "chromium".
Definition ClientSafari : string := "safari".
Definition ClientFirefox : string := "firefox".
Definition ClientQUICGo : string := "quic-go".
Definition ClientUnknown : string := "unknown".

Definition isZero (l : list Z) : bool := forallb (fun x => x =? 0) l.
Definition count (l : list Z) (value : Z) : nat := length (List.filter (fun x => x =? value) l).

Definition x25519Kyber768Draft00 : Z := 0x11EC.
Definition extensionRenegotiationInfo : Z := 0xFF01.
Definition isQUICGo (fingerprint : ClientHello) : bool :=
  bool_decide (x25519Kyber768Draft00 ∈ j_EllipticCurves fingerprint)
  || bool_decide (extensionRenegotiationInfo ∈ j_Extensions fingerprint).

Definition is_grease (v : option Z) : bool := match v with Some v => Z.land v GreaseBitmask =? 0x0A0A | None => false end.
Definition looks_safari (fingerprint : ClientHello) : bool :=
  ((zlen (j_Versions fingerprint) =? 2) && is_grease (head (j_Versions fingerprint))
   && (zlen (j_EllipticCurves fingerprint) =? 5) && is_grease (head (j_EllipticCurves fingerprint)))
  || (bool_decide (j_CipherSuites fingerprint = [0x1302]) && bool_decide (j_EllipticCurves fingerprint = [29])
      && bool_decide (j_SignatureAlgorithms fingerprint = [0x0403])).

Definition quic_client (frameTypeList : list Z) (fingerprint : ClientHello) : outcome string :=
  if zlen frameTypeList =? 1 then Ok ClientFirefox else
  let* first := elem_at frameTypeList 0 in
  let* last := elem_at frameTypeList (zlen frameTypeList - 1) in
  if (first =? frameTypeCrypto) && isZero (drop 1 frameTypeList) && looks_safari fingerprint then Ok ClientSafari else
  if (last =? frameTypeCrypto) && isZero (take (length frameTypeList - 1) frameTypeList) then Ok ClientQUICGo else
  if Nat.ltb 1 (count frameTypeList frameTypeCrypto) || Nat.ltb 0 (count frameTypeList frameTypePing) then
    Ok (if isQUICGo fingerprint then ClientQUICGo else ClientChromium)
  else Ok ClientUnknown.

(** ** QUICClientHello *)

Definition ProtocolQUIC : string := "quic".

(** The part of the metadata a sniffer reads and writes. *)
Record SniffMeta := MkSniffMeta {
  sm_Protocol : string;
  sm_Domain : string;
  sm_Client : string;
  sm_SniffContext : option (list qCryptoFragment)
}.

(** [E.Cause1(ErrNeedMoreData, err)] *)
Definition need_more (err : error) : error :=
  ECause ErrNeedMoreData (match err with ENew msg | ECause _ msg | EExternal msg => msg | _ => "" end).

Section Sniffer.
Context {QC : QuicCrypto}.

(** The header up to the protected packet number: version, destination connection ID,
    length of the header and of what follows it. *)
Definition quic_header (packet : bytes) : outcome (Z * bytes * Z * Z) :=
  let* (typeByte, st) := ReadByte (Stream packet EOF) in
  if Z.land typeByte 0x40 =? 0 then Err (ENew "bad type byte") else
  let* (versionNumber, st) := ReadUint 4 st in
  if negb (versionNumber =? VersionDraft29) && negb (versionNumber =? Version1) && negb (versionNumber =? Version2)
  then Err (ENew "bad version") else
  let packetType := Z.shiftr (Z.land typeByte 0x30) 4 in
  if ((packetType =? 0) && (versionNumber =? Version2)) || ((packetType =? 2) && negb (versionNumber =? Version2)) || (2 <? packetType)
  then Err (ENew "bad packet type") else
  let* (destConnIDLen, st) := ReadByte st in
  if (destConnIDLen =? 0) || (20 <? destConnIDLen) then Err (ENew "bad destination connection id length") else
  let* (destConnID, st) := ReadFull destConnIDLen st in
  let* (srcConnIDLen, st) := ReadByte st in
  let* st := discard srcConnIDLen st in
  let* (tokenLen, st) := QuicReadUvarint st in
  let* st := discard tokenLen st in
  let* (packetLen, st) := QuicReadUvarint st in
  let hdrLen := zlen packet - zlen (avail st) in
  if zlen packet <? hdrLen + packetLen then Err ErrInvalid else
  Ok (versionNumber, destConnID, hdrLen, packetLen).

(** The 16 bytes the header protection is computed from. *)
Definition quic_sample (packet : bytes) (hdrLen : Z) : outcome bytes :=
  let* st := discard 4 (Stream (drop (Z.to_nat hdrLen) packet) EOF) in
  let* (pnBytes, _) := ReadFull 16 st in
  Ok pnBytes.

Definition quic_salt (versionNumber : Z) : bytes :=
  if versionNumber =? Version1 then SaltV1 else if versionNumber =? Version2 then SaltV2 else SaltOld.
Definition hp_label (versionNumber : Z) : string := if versionNumber =? Version2 then "quicv2 hp" else "quic hp".
Definition key_label (versionNumber : Z) : string := if versionNumber =? Version2 then "quicv2 key" else "quic key".
Definition iv_label (versionNumber : Z) : string := if versionNumber =? Version2 then "quicv2 iv" else "quic iv".

Definition quic_secret (versionNumber : Z) (destConnID : bytes) : outcome bytes :=
  HKDFExpandLabel (hkdf_Extract destConnID (quic_salt versionNumber)) [] "client in" 32.

(** [newPacket] once the header is unprotected: the first byte, and the bytes of the
    packet number; the bytes behind the packet number are copied back. *)
Definition unmask (packet mask : bytes) (hdrLen : Z) : outcome (bytes * Z) :=
  let* p0 := elem_at packet 0 in
  let* m0 := elem_at mask 0 in
  let first := Z.lxor p0 (Z.land m0 0xf) in
  let* header := slice_of packet 1 hdrLen in
  let* number := slice_of packet hdrLen (hdrLen + 4) in
  let* numberMask := slice_of mask 1 5 in
  let packetNumberLength := Z.land first 0x3 + 1 in
  let* rest := slice_from packet (hdrLen + packetNumberLength) in
  Ok ([first] ++ header ++ take (Z.to_nat packetNumberLength) (zip_with Z.lxor number numberMask) ++ rest, packetNumberLength).

(** The payload, and the memory behind it. *)
Definition quic_decrypt (packet : bytes) : outcome (bytes * bytes) :=
  let* (versionNumber, destConnID, hdrLen, packetLen) := quic_header packet in
  let* pnBytes := quic_sample packet hdrLen in
  let* secret := quic_secret versionNumber destConnID in
  let* hpKey := HKDFExpandLabel secret [] (hp_label versionNumber) 16 in
  let* mask := aes_Encrypt hpKey pnBytes in
  let* (newPacket, packetNumberLength) := unmask packet mask hdrLen in
  if packetLen + hdrLen <? hdrLen + packetNumberLength then Err ErrInvalid else
  let extHdrLen := hdrLen + packetNumberLength in
  let* number := slice_of newPacket hdrLen extHdrLen in
  let packetNumber := be_val number in
  let* data := slice_of newPacket extHdrLen (packetLen + hdrLen) in
  let* key := HKDFExpandLabel secret [] (key_label versionNumber) 16 in
  let* iv := HKDFExpandLabel secret [] (iv_label versionNumber) 12 in
  let* additionalData := slice_of newPacket 0 extHdrLen in
  let* decrypted := AEAD_Open key iv (be_bytes 8 packetNumber) data additionalData in
  Ok (decrypted, drop (Z.to_nat extHdrLen + length decrypted) newPacket).

(** The fragments of a payload and of the packets before, and what they tell. *)
Definition sniff_payload (decrypted memory : bytes) (metadata : SniffMeta) : outcome (option error) * SniffMeta :=
  match read_frames (S (length decrypted)) (zlen decrypted) (decrypted ++ memory) (Stream decrypted EOF) [] [] with
  | Ok (frameTypeList, fragments) =>
      let fragments := fragments ++ default [] (sm_SniffContext metadata) in
      let metadata := MkSniffMeta (sm_Protocol metadata) (sm_Domain metadata) (sm_Client metadata) None in
      match hello_record fragments with
      | Ok buffer =>
          let metadata := MkSniffMeta ProtocolQUIC (sm_Domain metadata) (sm_Client metadata) None in
          match ja3_Compute buffer with
          | Ok fingerprint =>
              let metadata := MkSniffMeta ProtocolQUIC (j_ServerName fingerprint) (sm_Client metadata) None in
              if bool_decide (sm_Client metadata = "") then
                match quic_client frameTypeList fingerprint with
                | Ok client => (Ok None, MkSniffMeta ProtocolQUIC (j_ServerName fingerprint) client None)
                | Err e => (Ok (Some e), metadata)
                | Panic msg => (Panic msg, metadata)
                | Diverge => (Diverge, metadata)
                end
              else (Ok None, metadata)
          | Err e => (Ok (Some (need_more e)), MkSniffMeta ProtocolQUIC (sm_Domain metadata) (sm_Client metadata) (Some fragments))
          | Panic msg => (Panic msg, metadata)
          | Diverge => (Diverge, metadata)
          end
      | Err e => (Ok (Some e), metadata)
      | Panic msg => (Panic msg, metadata)
      | Diverge => (Diverge, metadata)
      end
  | Err e => (Ok (Some e), metadata)
  | Panic msg => (Panic msg, metadata)
  | Diverge => (Diverge, metadata)
  end.

(** The error the sniffer returns, if it returns. *)
Definition sniff_QUICClientHello (packet : bytes) (metadata : SniffMeta) : outcome (option error) * SniffMeta :=
  match quic_decrypt packet with
  | Ok (decrypted, memory) => sniff_payload decrypted memory metadata
  | Err e => (Ok (Some e), metadata)
  | Panic msg => (Panic msg, metadata)
  | Diverge => (Diverge, metadata)
  end.

End Sniffer.
