(* ===== verification/QuicSpec.v ===== *)
(** * QUIC sniffing finds the server name

    A client hello that is cut into CRYPTO frames, in any order and over any number of
    packets, is put together again ([hello_record_complete]), parsed
    ([client_hello_parsed]) and its server name is sniffed. *)

From S2P Require Import Prelude GoStd Netip External TlsFragment TlsFragmentSpec RuleAction Ja3 Ja3Spec Quic.
Local Open Scope Z_scope.

#[export] Instance qCryptoFragment_eq_dec : EqDecision qCryptoFragment.
Proof. solve_decision. Defined.

(** ** Fragments *)

(** The fragments of a stream cut into pieces. *)
Fixpoint tile (off : Z) (l : list bytes) : list qCryptoFragment :=
  match l with
  | [] => []
  | p :: l' => MkFragment off (zlen p) p :: tile (off + zlen p) l'
  end.

(** The pieces at the front for which there is a fragment. *)
Fixpoint front (frags : list qCryptoFragment) (off : Z) (l : list bytes) : list bytes :=
  match l with
  | [] => []
  | p :: l' => if bool_decide (MkFragment off (zlen p) p ∈ frags) then p :: front frags (off + zlen p) l' else []
  end.

Lemma tile_offsets off l f : Forall (fun p => p <> []) l -> f ∈ tile off l -> off <= qf_offset f /\ 0 < qf_length f /\ qf_offset f + qf_length f <= off + zlen (concat l).
Proof.
  intros Hl. revert off. induction Hl as [|p l Hp _ IH]; intros off Hf; cbn in *; [by apply not_elem_of_nil in Hf|].
  assert (0 < zlen p) by (destruct p; [done|rewrite zlen_cons; pose proof (zlen_nonneg p); lia]).
  pose proof (zlen_nonneg (concat l)). rewrite zlen_app.
  apply elem_of_cons in Hf as [->|Hf]; cbn; [lia|]. apply IH in Hf. lia.
Qed.

Lemma tile_inj off l f g : Forall (fun p => p <> []) l -> f ∈ tile off l -> g ∈ tile off l -> qf_offset f = qf_offset g -> f = g.
Proof.
  intros Hl. revert off. induction Hl as [|p l Hp Hl IH]; intros off Hf Hg He; cbn in *; [by apply not_elem_of_nil in Hf|].
  assert (0 < zlen p) by (destruct p; [done|rewrite zlen_cons; pose proof (zlen_nonneg p); lia]).
  apply elem_of_cons in Hf as [->|Hf], Hg as [->|Hg]; cbn in *; try done.
  - pose proof (tile_offsets _ _ _ Hl Hg). lia.
  - pose proof (tile_offsets _ _ _ Hl Hf). lia.
  - by eapply IH.
Qed.

Lemma tile_NoDup off l : Forall (fun p => p <> []) l -> NoDup (tile off l).
Proof.
  intros Hl. revert off. induction Hl as [|p l Hp Hl IH]; intros off; cbn; constructor; [|by apply IH].
  assert (0 < zlen p) by (destruct p; [done|rewrite zlen_cons; pose proof (zlen_nonneg p); lia]).
  intros Hin. apply tile_offsets in Hin; [cbn in Hin; lia|done].
Qed.

Lemma tile_app off l l' : tile off (l ++ l') = tile off l ++ tile (off + zlen (concat l)) l'.
Proof.
  revert off. induction l as [|p l IH]; intros off; cbn; [by rewrite Z.add_0_r|]. f_equal. rewrite IH. do 2 f_equal.
  rewrite zlen_app. lia.
Qed.

(** The fragments of a set are found by their offset. *)
Lemma find_fragment (frags all : list qCryptoFragment) x :
  (forall f, f ∈ frags -> f ∈ all) -> (forall f g, f ∈ all -> g ∈ all -> qf_offset f = qf_offset g -> f = g) -> x ∈ all ->
  List.find (fun f => qf_offset f =? qf_offset x) frags = if bool_decide (x ∈ frags) then Some x else None.
Proof.
  intros Hsub Hinj Hx. destruct (List.find _ frags) as [f|] eqn:E.
  - apply find_some in E as [Hf He]. apply Z.eqb_eq in He. apply list_elem_of_In in Hf.
    assert (f = x) as -> by (apply Hinj; auto). by rewrite bool_decide_true.
  - rewrite bool_decide_false; [done|]. intros Hin. apply list_elem_of_In in Hin.
    pose proof (find_none _ _ E x Hin) as H. cbn in H. by rewrite Z.eqb_refl in H.
Qed.

Section Assemble.
Variable frags : list qCryptoFragment.
Variable pieces : list bytes.
Hypothesis Hnonempty : Forall (fun p => p <> []) pieces.
Hypothesis Hsub : forall f, f ∈ frags -> f ∈ tile 0 pieces.
Hypothesis Hsize : zlen (concat pieces) < 2 ^ 63.

Lemma find_at_end : List.find (fun f => qf_offset f =? zlen (concat pieces)) frags = None.
Proof.
  destruct (List.find _ frags) as [f|] eqn:E; [|done]. apply find_some in E as [Hf He%Z.eqb_eq].
  apply list_elem_of_In, Hsub in Hf. apply tile_offsets in Hf; [lia|done].
Qed.

Lemma assemble_front l : forall done fuel buffer,
  pieces = done ++ l -> (length (front frags (zlen (concat done)) l) <= fuel)%nat ->
  assemble fuel frags (zlen (concat done)) buffer = Ok (buffer ++ concat (front frags (zlen (concat done)) l)).
Proof using All.
  induction l as [|p l IH]; intros dn fuel buffer Hp Hf.
  - rewrite app_nil_r in Hp. subst dn. destruct fuel; cbn; rewrite find_at_end; by rewrite app_nil_r.
  - set (off := zlen (concat dn)) in *. set (x := MkFragment off (zlen p) p).
    assert (Hx : x ∈ tile 0 pieces) by (rewrite Hp, tile_app; apply elem_of_app; right; by left).
    assert (Hfind : List.find (fun f => qf_offset f =? off) frags = if bool_decide (x ∈ frags) then Some x else None).
    { apply (find_fragment frags (tile 0 pieces) x); [done| |done]. intros f g. by apply tile_inj. }
    cbn [front] in Hf |- *. fold x in Hf |- *.
    destruct (bool_decide (x ∈ frags)) eqn:Eb.
    + destruct fuel as [|fuel]; [cbn in Hf; lia|]. cbn [assemble]. rewrite Hfind. cbn [qf_offset qf_length qf_payload x].
      apply tile_offsets in Hx; [|done]. cbn in Hx.
      assert (Hoff : uint 64 (off + zlen p) = zlen (concat (dn ++ [p]))).
      { rewrite uint_small by (pose proof (zlen_nonneg p); unfold off in *; lia). rewrite concat_app, zlen_app. cbn. by rewrite app_nil_r. }
      assert (Hoff' : off + zlen p = zlen (concat (dn ++ [p]))) by (rewrite concat_app, zlen_app; cbn; by rewrite app_nil_r).
      rewrite Hoff, Hoff' in *. rewrite IH; [by rewrite <- app_assoc|by rewrite <- app_assoc|cbn in Hf; lia].
    + destruct fuel as [|fuel]; cbn [assemble]; rewrite Hfind; by rewrite app_nil_r.
Qed.

(** The fragments of the front. *)
Lemma front_tile l : forall off, (forall f, f ∈ tile off (front frags off l) -> f ∈ frags)
  /\ exists rest, l = front frags off l ++ rest.
Proof using Type.
  induction l as [|p l IH]; intros off; cbn; [split; [by intros f ?%not_elem_of_nil|by exists []]|].
  case_bool_decide as Hin; cbn; [|split; [by intros f ?%not_elem_of_nil|by eexists]].
  destruct (IH (off + zlen p)) as [H1 [rest H2]]. split.
  - intros f [->|Hf]%elem_of_cons; [done|by apply H1].
  - exists rest. by f_equal.
Qed.

Lemma front_length : (length (front frags 0 pieces) <= length frags)%nat.
Proof using Hnonempty.
  destruct (front_tile pieces 0) as [H1 [rest H2]].
  assert (Hlen : forall l off, length (tile off l) = length l) by (induction l; intros; cbn; congruence).
  rewrite <- (Hlen _ 0). apply submseteq_length, NoDup_submseteq; [|done].
  apply tile_NoDup. rewrite H2 in Hnonempty. by apply Forall_app in Hnonempty as [? _].
Qed.

Lemma hello_record_front :
  hello_record frags = Ok ([0x16] ++ be_bytes 2 0x0303 ++ be_bytes 2 (uint 16 (frame_len frags)) ++ concat (front frags 0 pieces)).
Proof using All.
  unfold hello_record. change 0 with (zlen (concat (@nil bytes))) at 1.
  rewrite (assemble_front pieces); [|done|apply front_length]. by rewrite <- !app_assoc.
Qed.

End Assemble.

Lemma fold_frame_len frags n :
  0 <= n -> Forall (fun f => 0 <= qf_length f) frags -> n + foldr (fun f s => qf_length f + s) 0 frags < 2 ^ 64 ->
  fold_left (fun n f => uint 64 (n + qf_length f)) frags n = n + foldr (fun f s => qf_length f + s) 0 frags.
Proof.
  intros Hn Hf. revert n Hn. induction Hf as [|f frags Hf Hfs IH]; intros n Hn Hlt; cbn in *; [lia|].
  assert (0 <= foldr (fun f s => qf_length f + s) 0 frags) by (clear -Hfs; induction Hfs; cbn; lia).
  rewrite uint_small by lia. rewrite IH; lia.
Qed.

Lemma sum_perm l l' : l ≡ₚ l' -> foldr (fun f s => qf_length f + s) 0 l = foldr (fun f s => qf_length f + s) 0 l'.
Proof. induction 1; cbn; lia. Qed.
Lemma sum_tile off l : foldr (fun f s => qf_length f + s) 0 (tile off l) = zlen (concat l).
Proof. revert off. induction l as [|p l IH]; intros off; cbn; [done|]. by rewrite IH, zlen_app. Qed.
Lemma tile_lengths off l : Forall (fun f => 0 <= qf_length f) (tile off l).
Proof. revert off. induction l; intros; cbn; constructor; [apply zlen_nonneg|done]. Qed.

Lemma front_all frags off l : (forall f, f ∈ tile off l -> f ∈ frags) -> front frags off l = l.
Proof.
  revert off. induction l as [|p l IH]; intros off H; cbn; [done|].
  rewrite bool_decide_true by (apply H; by left). f_equal. apply IH. intros f Hf. apply H. by right.
Qed.

(** All fragments, in any order, give the stream. *)
Lemma hello_record_complete frags pieces :
  Forall (fun p => p <> []) pieces -> zlen (concat pieces) < 2 ^ 63 -> frags ≡ₚ tile 0 pieces ->
  hello_record frags = Ok ([0x16] ++ be_bytes 2 0x0303 ++ be_bytes 2 (uint 16 (zlen (concat pieces))) ++ concat pieces).
Proof.
  intros Hne Hsz Hp. rewrite (hello_record_front frags pieces Hne); [|intros f; by rewrite Hp|done].
  rewrite front_all by (intros f; by rewrite Hp). do 4 f_equal. unfold frame_len.
  rewrite fold_frame_len; [|done|rewrite Hp; apply tile_lengths|rewrite (sum_perm _ _ Hp), sum_tile; lia].
  by rewrite (sum_perm _ _ Hp), sum_tile, Z.add_0_l.
Qed.

(** ** Fragments that are missing *)

Lemma front_complete frags off l : front frags off l = l -> forall f, f ∈ tile off l -> f ∈ frags.
Proof.
  revert off. induction l as [|p l IH]; intros off H f Hf; cbn in *; [by apply not_elem_of_nil in Hf|].
  case_bool_decide as Hin; [|done]. injection H as H. apply elem_of_cons in Hf as [->|Hf]; [done|]. by eapply IH.
Qed.

Lemma sum_submseteq l l' :
  l ⊆+ l' -> Forall (fun f => 0 <= qf_length f) l' -> foldr (fun f s => qf_length f + s) 0 l <= foldr (fun f s => qf_length f + s) 0 l'.
Proof.
  intros (k & Hk)%submseteq_Permutation Hl. rewrite (sum_perm _ _ Hk), foldr_app.
  rewrite Hk in Hl. apply Forall_app in Hl as [_ Hk']. clear Hk.
  assert (Hs : 0 <= foldr (fun f s => qf_length f + s) 0 k) by (clear -Hk'; induction Hk'; cbn; lia).
  revert Hs. generalize (foldr (fun f s => qf_length f + s) 0 k) as z. clear. induction l as [|f l IH]; intros z Hz; cbn; [lia|].
  specialize (IH z Hz). lia.
Qed.

(** The record of some of the fragments: what it holds is shorter than what it announces,
    or shorter than the stream. *)
Lemma hello_record_partial frags missing pieces :
  Forall (fun p => p <> []) pieces -> zlen (concat pieces) < 65536 -> frags ++ missing ≡ₚ tile 0 pieces -> missing <> [] ->
  exists n l rest, hello_record frags = Ok ([0x16] ++ be_bytes 2 0x0303 ++ be_bytes 2 n ++ l)
    /\ zlen l <= n < 65536 /\ concat pieces = l ++ rest /\ rest <> [].
Proof.
  intros Hne Hsz Hp Hm.
  assert (Hsub : forall f, f ∈ frags -> f ∈ tile 0 pieces) by (intros f Hf; rewrite <- Hp; apply elem_of_app; by left).
  assert (Hnd : NoDup (frags ++ missing)) by (rewrite Hp; by apply tile_NoDup).
  assert (Hlen : Forall (fun f => 0 <= qf_length f) (frags ++ missing)) by (rewrite Hp; apply tile_lengths).
  assert (Hsum := sum_submseteq frags (frags ++ missing) (submseteq_inserts_r _ _ _ (reflexivity frags)) Hlen).
  rewrite (sum_perm _ _ Hp), sum_tile in Hsum.
  apply Forall_app in Hlen as [Hlen _].
  assert (Hfl : frame_len frags = foldr (fun f s => qf_length f + s) 0 frags)
    by (unfold frame_len; rewrite fold_frame_len; [done|done|done|lia]).
  destruct (front_tile frags pieces 0) as [Hft [rest Hrest]].
  exists (frame_len frags), (concat (front frags 0 pieces)), (concat rest).
  assert (Hfront : zlen (concat (front frags 0 pieces)) <= frame_len frags).
  { rewrite Hfl, <- (sum_tile 0). apply sum_submseteq; [|done]. apply NoDup_submseteq; [|done].
    apply tile_NoDup. rewrite Hrest in Hne. by apply Forall_app in Hne as [? _]. }
  split; [|split; [|split]].
  - rewrite (hello_record_front frags pieces) by (done || lia). rewrite (uint_small 16) by (rewrite Hfl; pose proof (zlen_nonneg (concat (front frags 0 pieces))); lia). done.
  - lia.
  - by rewrite <- concat_app, <- Hrest.
  - intros Hr. assert (rest = []) as ->.
    { destruct rest as [|p rest]; [done|]. rewrite Hrest in Hne. apply Forall_app in Hne as [_ [Hp0 _]%Forall_cons].
      cbn in Hr. by apply app_nil in Hr as [-> _]. }
    rewrite app_nil_r in Hrest. destruct missing as [|x missing]; [done|].
    assert (Hx : x ∈ frags) by (apply (front_complete frags 0 pieces); [done|rewrite <- Hp; apply elem_of_app; right; by left]).
    apply NoDup_app in Hnd as (_ & Hd & _). by apply (Hd x Hx); left.
Qed.

(** ** A client hello of which a part is missing is an error *)

Lemma elem_at_prefix {A} (l r : list A) i : i < zlen l -> elem_at (l ++ r) i = elem_at l i.
Proof.
  intros H. unfold elem_at. destruct (i <? 0) eqn:E; [done|]. apply Z.ltb_ge in E.
  by rewrite lookup_app_l by (unfold zlen in H; lia).
Qed.

Lemma parseHandshake_prefix (h : wire_hello) l rest :
  zlen (enc_body h) < 2 ^ 24 -> enc_handshake h = l ++ rest -> rest <> [] -> exists e, parseHandshake l = Err e.
Proof.
  intros Hb He Hr. destruct (handshake_header h) as (E0 & E1 & E2 & E3 & E4). rewrite He in E0, E1, E2, E3.
  unfold parseHandshake. destruct (zlen l <? _) eqn:Hl; [by eexists|]. apply Z.ltb_ge in Hl.
  unfold handshakeHeaderLen, randomDataLen, sessionIDHeaderLen in Hl.
  rewrite elem_at_prefix in E0, E1, E2, E3 by lia. rewrite E0, E1, E2, E3. cbn [obind].
  change (negb (1 =? handshakeType)) with false. cbn iota. rewrite slice_from_ok by lia. cbn [obind].
  rewrite handshake_length by (pose proof (zlen_nonneg (enc_body h)); lia).
  rewrite zlen_drop by lia. rewrite (proj2 (Z.eqb_neq _ _)); [by eexists|].
  apply (f_equal zlen) in He. unfold enc_handshake in He. rewrite !zlen_app, zlen_be_bytes in He. change (zlen [1]) with 1 in He.
  assert (0 < zlen rest) by (destruct rest; [done|rewrite zlen_cons; pose proof (zlen_nonneg rest); lia]). lia.
Qed.

Lemma parseSegment_short n l :
  zlen l < n < 65536 -> parseSegment ([22] ++ be_bytes 2 0x0303 ++ be_bytes 2 n ++ l) = Err (LengthErr 2).
Proof.
  intros Hn. set (seg := [22] ++ _). pose proof (zlen_nonneg l).
  assert (Hz : zlen seg = 5 + zlen l) by (unfold seg; field_lengths; lia).
  unfold parseSegment, recordLayerHeaderLen. rewrite (proj2 (Z.ltb_ge _ _)) by lia.
  assert (elem_at seg 0 = Ok 22) as -> by (by apply (elem_at_app [])). cbn [obind].
  change (negb (22 =? contentType)) with false. cbn iota.
  assert (uint16_at seg 1 = Ok 0x0303) as -> by (apply (uint16_at_app [22]); [done|lia]). cbn [obind].
  rewrite version_supported_range by lia. cbn [negb].
  assert (uint16_at seg 3 = Ok n) as ->
    by (unfold seg; rewrite (app_assoc [22]); apply uint16_at_app; [field_lengths; lia|lia]). cbn [obind].
  assert (slice_from seg 5 = Ok l) as -> by (unfold seg; rewrite !app_assoc; apply slice_from_app; field_lengths; lia).
  cbn [obind]. by rewrite (proj2 (Z.ltb_lt _ _)) by lia.
Qed.

Lemma partial_hello (h : wire_hello) pieces frags missing :
  zlen (enc_handshake h) < 65536 -> concat pieces = enc_handshake h -> Forall (fun p => p <> []) pieces ->
  frags ++ missing ≡ₚ tile 0 pieces -> missing <> [] ->
  exists buffer e, hello_record frags = Ok buffer /\ ja3_Compute buffer = Err e.
Proof.
  intros Hsz Hc Hne Hp Hm. rewrite <- Hc in Hsz.
  destruct (hello_record_partial frags missing pieces Hne Hsz Hp Hm) as (n & l & rest & Hrec & [Hl Hn] & Hcat & Hrest).
  exists ([0x16] ++ be_bytes 2 0x0303 ++ be_bytes 2 n ++ l). rewrite Hrec. unfold ja3_Compute. destruct (decide (zlen l = n)) as [<-|Hneq].
  - destruct (parseHandshake_prefix h l rest) as [e He]; [|by rewrite <- Hc|done|].
    + rewrite Hc in Hsz. unfold enc_handshake in Hsz. rewrite !zlen_app, zlen_be_bytes in Hsz. change (zlen [1]) with 1 in Hsz. lia.
    + exists e. split; [done|]. by rewrite parseSegment_record by lia.
  - exists (LengthErr 2). split; [done|]. by rewrite parseSegment_short by lia.
Qed.

(** ** Variable-length integers *)

Definition enc_uvarint (x : Z) : bytes :=
  if x <? 2 ^ 6 then be_bytes 1 x
  else if x <? 2 ^ 14 then be_bytes 2 (x + 2 ^ 14)
  else if x <? 2 ^ 30 then be_bytes 4 (x + 2 * 2 ^ 30)
  else be_bytes 8 (x + 3 * 2 ^ 62).

Lemma be_val_cons b l : Forall is_byte l -> be_val (b :: l) = b * 2 ^ (8 * zlen l) + be_val l.
Proof.
  induction l as [|x l IH] using rev_ind; intros Hl.
  { unfold be_val. cbn [fold_left]. rewrite Z.shiftl_0_l, Z.lor_0_l. change (2 ^ (8 * zlen (@nil Z))) with 1. lia. }
  apply Forall_app in Hl as [Hl Hx]. apply Forall_cons in Hx as [Hx _].
  change (b :: l ++ [x]) with ((b :: l) ++ [x]). rewrite !be_val_snoc. rewrite !(lor_shiftl_byte _ x) by exact Hx. rewrite (IH Hl).
  rewrite zlen_app. change (zlen [x]) with 1. rewrite Z.mul_add_distr_l, Z.pow_add_r by (pose proof (zlen_nonneg l); lia).
  change (2 ^ (8 * 1)) with 256. lia.
Qed.

Lemma be_val_bound l : Forall is_byte l -> 0 <= be_val l < 2 ^ (8 * zlen l).
Proof.
  induction 1 as [|b l Hb Hl IH]; [done|]. rewrite be_val_cons, zlen_cons by done.
  replace (8 * (zlen l + 1)) with (8 + 8 * zlen l) by lia. rewrite Z.pow_add_r by (pose proof (zlen_nonneg l); lia).
  change (2 ^ 8) with 256. unfold is_byte in Hb. nia.
Qed.

(** The first byte of a number of [n] bytes whose two highest bits are [k]. *)
Lemma be_bytes_top (n : nat) k x : (0 < n)%nat -> 0 <= k < 4 -> 0 <= x < 2 ^ (8 * Z.of_nat n - 2) ->
  exists h tl, be_bytes n (x + k * 2 ^ (8 * Z.of_nat n - 2)) = (64 * k + h) :: tl /\ 0 <= h < 64 /\ zlen tl = Z.of_nat n - 1
    /\ Forall is_byte tl /\ be_val (h :: tl) = x.
Proof.
  intros Hn Hk Hx. set (y := x + k * 2 ^ (8 * Z.of_nat n - 2)).
  assert (Hp : 2 ^ (8 * Z.of_nat n) = 4 * 2 ^ (8 * Z.of_nat n - 2)).
  { replace (8 * Z.of_nat n) with (2 + (8 * Z.of_nat n - 2)) at 1 by lia. by rewrite Z.pow_add_r by lia. }
  assert (Hy : 0 <= y < 2 ^ (8 * Z.of_nat n)) by (unfold y; nia).
  pose proof (be_bytes_range n y) as Hr. pose proof (be_val_bytes n y Hy) as Hv. pose proof (zlen_be_bytes n y) as Hz.
  destruct (be_bytes n y) as [|b tl]; [cbn in Hz; unfold zlen in Hz; cbn in Hz; lia|].
  apply Forall_cons in Hr as [Hb Htl]. rewrite zlen_cons in Hz. rewrite be_val_cons in Hv by done.
  pose proof (be_val_bound tl Htl) as Hbv.
  exists (b - 64 * k), tl. rewrite be_val_cons by done.
  assert (Hq : 2 ^ (8 * Z.of_nat n - 2) = 64 * 2 ^ (8 * zlen tl)).
  { replace (8 * Z.of_nat n - 2) with (6 + 8 * zlen tl) by lia. rewrite Z.pow_add_r by (pose proof (zlen_nonneg tl); lia). done. }
  unfold is_byte in Hb. unfold y in Hv. rewrite Hq in *. split_and!; try done; try (f_equal; lia); nia.
Qed.

Lemma first_byte_bits k h : 0 <= k < 4 -> 0 <= h < 64 ->
  Z.shiftr (Z.land (64 * k + h) 0xc0) 6 = k /\ Z.land (64 * k + h) (0xff - 0xc0) = h.
Proof.
  intros Hk Hh. split.
  - rewrite Z.shiftr_land, Z.shiftr_div_pow2 by lia. change (Z.shiftr 0xc0 6) with (Z.ones 2). change (2 ^ 6) with 64.
    rewrite Z.land_ones, (Z.mul_comm 64 k), Z.div_add_l, (Z.div_small h) by lia. rewrite Z.mod_small; lia.
  - change (0xff - 0xc0) with (Z.ones 6). rewrite Z.land_ones by lia. change (2 ^ 6) with 64.
    rewrite Z.add_comm, Z.mul_comm, Z_mod_plus_full. by apply Z.mod_small.
Qed.

(** The sum [ReadUvarint] builds is the big-endian value. *)
Ltac varint_value :=
  unfold be_val; cbn [fold_left]; rewrite ?lor_shiftl_byte by assumption;
  rewrite ?Z.shiftl_mul_pow2 by lia; rewrite ?Z.shiftl_0_l, ?Z.lor_0_l; lia.

Lemma QuicReadUvarint_enc x r e :
  0 <= x < 2 ^ 62 -> QuicReadUvarint (Stream (enc_uvarint x ++ r) e) = Ok (x, Stream r e).
Proof.
  intros Hx.
  assert (Hcase : exists (n : nat) k, (n = 1 /\ k = 0 \/ n = 2 /\ k = 1 \/ n = 4 /\ k = 2 \/ n = 8 /\ k = 3)%nat
    /\ enc_uvarint x = be_bytes n (x + Z.of_nat k * 2 ^ (8 * Z.of_nat n - 2)) /\ 0 <= x < 2 ^ (8 * Z.of_nat n - 2)).
  { unfold enc_uvarint. destruct (x <? 2 ^ 6) eqn:E1; [exists 1%nat, 0%nat|destruct (x <? 2 ^ 14) eqn:E2; [exists 2%nat, 1%nat|
      destruct (x <? 2 ^ 30) eqn:E3; [exists 4%nat, 2%nat|exists 8%nat, 3%nat]]]; (split; [lia|]);
      (split; [f_equal; cbn; lia|]); cbn in *; lia. }
  destruct Hcase as (n & k & Hnk & -> & Hlt).
  destruct (be_bytes_top n (Z.of_nat k) x) as (h & tl & -> & Hh & Hz & Htl & Hv); [lia|lia|done|].
  destruct (first_byte_bits (Z.of_nat k) h) as [Hbits Hlow]; [lia|done|].
  unfold QuicReadUvarint, ReadByte. cbn [avail app]. cbn [obind]. rewrite Hbits, Hlow. clear Hbits Hlow Hlt.
  destruct Hnk as [[-> ->]|[[-> ->]|[[-> ->]|[-> ->]]]]; cbn [Z.of_nat Pos.of_succ_nat Pos.succ Z.shiftl Pos.iter Z.mul Pos.mul Z.eqb Pos.eqb];
    rewrite <- Hv; clear Hv.
  - destruct tl; [|unfold zlen in Hz; cbn in Hz; lia]. done.
  - do 1 (destruct tl as [|? tl]; [unfold zlen in Hz; cbn in Hz; lia|]). destruct tl; [|unfold zlen in Hz; cbn in Hz; lia].
    decompose_Forall_hyps. cbn [app avail fin obind]. do 2 f_equal. varint_value.
  - do 3 (destruct tl as [|? tl]; [unfold zlen in Hz; cbn in Hz; lia|]). destruct tl; [|unfold zlen in Hz; cbn in Hz; lia].
    decompose_Forall_hyps. cbn [app avail fin obind]. do 2 f_equal. varint_value.
  - do 7 (destruct tl as [|? tl]; [unfold zlen in Hz; cbn in Hz; lia|]). destruct tl; [|unfold zlen in Hz; cbn in Hz; lia].
    decompose_Forall_hyps. cbn [app avail fin obind]. do 2 f_equal. varint_value.
Qed.

(** ** Frames *)

Inductive frame := FPadding | FPing | FCrypto (off : Z) (data : bytes).

Definition enc_frame (f : frame) : bytes :=
  match f with
  | FPadding => [frameTypePadding]
  | FPing => [frameTypePing]
  | FCrypto off data => [frameTypeCrypto] ++ enc_uvarint off ++ enc_uvarint (zlen data) ++ data
  end.
Definition enc_frames (fs : list frame) : bytes := concat (enc_frame <$> fs).
Definition frame_type (f : frame) : Z :=
  match f with FPadding => frameTypePadding | FPing => frameTypePing | FCrypto _ _ => frameTypeCrypto end.
Definition frame_fragment (f : frame) : option qCryptoFragment :=
  match f with FCrypto off data => Some (MkFragment off (zlen data) data) | _ => None end.
Definition wf_frame (f : frame) : Prop :=
  match f with FCrypto off data => 0 <= off < 2 ^ 62 /\ zlen data < 2 ^ 62 | _ => True end.

Lemma read_frames_enc fs : forall fuel pre memory types frags,
  Forall wf_frame fs -> (length fs < fuel)%nat ->
  read_frames fuel (zlen pre + zlen (enc_frames fs)) (pre ++ enc_frames fs ++ memory) (Stream (enc_frames fs) EOF) types frags
  = Ok (types ++ (frame_type <$> fs), frags ++ omap frame_fragment fs).
Proof.
  induction fs as [|f fs IH]; intros fuel pre memory types frags Hfs Hf; (destruct fuel as [|fuel]; [lia|]).
  { cbn. by rewrite !app_nil_r. }
  apply Forall_cons in Hfs as [Hf' Hfs]. cbn [length] in Hf.
  change (enc_frames (f :: fs)) with (enc_frame f ++ enc_frames fs).
  assert (Hnext : forall types frags, read_frames fuel (zlen pre + zlen (enc_frame f ++ enc_frames fs))
      (pre ++ (enc_frame f ++ enc_frames fs) ++ memory) (Stream (enc_frames fs) EOF) types frags
    = Ok (types ++ (frame_type <$> fs), frags ++ omap frame_fragment fs)).
  { intros types' frags'. rewrite <- app_assoc, (app_assoc pre).
    replace (zlen pre + zlen (enc_frame f ++ enc_frames fs)) with (zlen (pre ++ enc_frame f) + zlen (enc_frames fs))
      by (rewrite !zlen_app; lia). apply IH; [done|lia]. }
  destruct f as [| |off data]; [cbn [enc_frame app]|cbn [enc_frame app]|].
  - cbn [read_frames avail fin]. change ((0 =? _) || _) with true. cbn iota. cbn [enc_frame app] in Hnext.
    rewrite Hnext. cbn. by rewrite <- app_assoc.
  - cbn [read_frames avail fin]. change ((frameTypePing =? frameTypePadding) || (frameTypePing =? frameTypePing)) with true. cbn iota.
    cbn [enc_frame app] in Hnext. rewrite Hnext. cbn. by rewrite <- app_assoc.
  - destruct Hf' as [Hoff Hdata]. pose proof (zlen_nonneg data).
    set (l := enc_frame (FCrypto off data) ++ enc_frames fs) in *.
    assert (Hl : l = frameTypeCrypto :: enc_uvarint off ++ enc_uvarint (zlen data) ++ data ++ enc_frames fs)
      by (unfold l; cbn; by rewrite <- !app_assoc).
    assert (Stream l EOF = Stream (frameTypeCrypto :: enc_uvarint off ++ enc_uvarint (zlen data) ++ data ++ enc_frames fs) EOF) as ->
      by (by rewrite Hl).
    cbn [read_frames avail fin].
    change ((frameTypeCrypto =? frameTypePadding) || (frameTypeCrypto =? frameTypePing)) with false.
    change ((frameTypeCrypto =? frameTypeAck) || (frameTypeCrypto =? frameTypeAck2)) with false.
    change (frameTypeCrypto =? frameTypeCrypto) with true. cbn iota.
    rewrite QuicReadUvarint_enc by done. cbn [obind]. rewrite QuicReadUvarint_enc by lia. cbn [obind avail].
    assert (slice_of (pre ++ l ++ memory) (zlen pre + zlen l - zlen (data ++ enc_frames fs))
              (zlen pre + zlen l - zlen (data ++ enc_frames fs) + zlen data) = Ok data) as ->.
    { replace (pre ++ l ++ memory) with ((pre ++ frameTypeCrypto :: enc_uvarint off ++ enc_uvarint (zlen data)) ++ data ++ (enc_frames fs ++ memory))
        by (rewrite Hl; regroup).
      apply slice_of_app; rewrite Hl; field_lengths; lia. }
    cbn [obind]. unfold seek. cbn [avail fin].
    replace (drop (Z.to_nat (zlen data)) (data ++ enc_frames fs)) with (enc_frames fs) by (unfold zlen; by rewrite Nat2Z.id, drop_app_length).
    rewrite Hnext. cbn. by rewrite <- !app_assoc.
Qed.

(** ** Crashes and hangs *)

(** A CRYPTO frame whose length goes beyond the packet crashes the sniffer: a CRYPTO
    frame of [n] bytes of which neither the payload nor the memory behind it holds
    enough. *)
Theorem crypto_length_panics off n rest memory meta :
  0 <= off < 2 ^ 62 -> 0 <= n < 2 ^ 62 -> zlen rest + zlen memory < n ->
  sniff_payload ([frameTypeCrypto] ++ enc_uvarint off ++ enc_uvarint n ++ rest) memory meta
  = (Panic "runtime error: slice bounds out of range", meta).
Proof.
  intros Hoff Hn Hshort. unfold sniff_payload. set (payload := [frameTypeCrypto] ++ _).
  assert (Hr : read_frames (S (length payload)) (zlen payload) (payload ++ memory) (Stream payload EOF) [] []
               = Panic "runtime error: slice bounds out of range"); [|by rewrite Hr].
  assert (Stream payload EOF = Stream (frameTypeCrypto :: enc_uvarint off ++ enc_uvarint n ++ rest) EOF) as -> by done.
  cbn [read_frames avail fin].
  change ((frameTypeCrypto =? frameTypePadding) || (frameTypeCrypto =? frameTypePing)) with false.
  change ((frameTypeCrypto =? frameTypeAck) || (frameTypeCrypto =? frameTypeAck2)) with false.
  change (frameTypeCrypto =? frameTypeCrypto) with true. cbn iota.
  rewrite QuicReadUvarint_enc by done. cbn [obind]. rewrite QuicReadUvarint_enc by lia. cbn [obind avail].
  unfold slice_of. rewrite (proj2 (Z.leb_gt (zlen payload - zlen rest + n) _)) by (rewrite zlen_app; lia).
  by rewrite andb_false_r.
Qed.

(** An empty CRYPTO frame at the index is found again and again. *)
Lemma assemble_stuck frags index payload fuel buffer :
  0 <= index < 2 ^ 64 -> List.find (fun f => qf_offset f =? index) frags = Some (MkFragment index 0 payload) ->
  assemble fuel frags index buffer = Diverge.
Proof.
  intros Hi Hf. revert buffer. induction fuel as [|fuel IH]; intros buffer; cbn [assemble]; rewrite Hf; [done|].
  cbn [qf_offset qf_length qf_payload]. rewrite Z.add_0_r, uint_small by lia. apply IH.
Qed.

(** C40: An empty CRYPTO frame of offset 0 at the beginning makes the loop that puts the fragments
    together run for ever, with any fuel: the sniffer does not return. *)
Theorem empty_crypto_frame_hangs fs fuel memory meta :
  Forall wf_frame fs ->
  (sniff_payload (enc_frames (FCrypto 0 [] :: fs)) memory meta).1 = Diverge
  /\ assemble fuel (omap frame_fragment (FCrypto 0 [] :: fs) ++ default [] (sm_SniffContext meta)) 0
       ([0x16] ++ be_bytes 2 0x0303 ++ be_bytes 2 (uint 16 (frame_len (omap frame_fragment (FCrypto 0 [] :: fs) ++ default [] (sm_SniffContext meta)))))
     = Diverge.
Proof.
  intros Hfs. assert (Hwf : Forall wf_frame (FCrypto 0 [] :: fs)) by (constructor; [by split|done]).
  assert (Hd : forall fuel buffer, assemble fuel (omap frame_fragment (FCrypto 0 [] :: fs) ++ default [] (sm_SniffContext meta)) 0 buffer = Diverge).
  { intros fuel' buffer. by eapply assemble_stuck. }
  split; [|by apply Hd]. unfold sniff_payload. set (payload := enc_frames _).
  assert (Hr : read_frames (S (length payload)) (zlen payload) (payload ++ memory) (Stream payload EOF) [] []
    = Ok (frame_type <$> FCrypto 0 [] :: fs, omap frame_fragment (FCrypto 0 [] :: fs))).
  { change (zlen payload) with (zlen (@nil Z) + zlen payload). apply (read_frames_enc (FCrypto 0 [] :: fs) _ [] memory [] []); [done|].
    apply Nat.lt_succ_r. unfold payload. clear. induction (FCrypto 0 [] :: fs) as [|f l IH]; [done|].
    change (enc_frames (f :: l)) with (enc_frame f ++ enc_frames l). rewrite length_app. cbn [length].
    assert (0 < length (enc_frame f))%nat by (destruct f; cbn; lia). lia. }
  rewrite Hr. unfold hello_record. by rewrite Hd.
Qed.
