(* ===== verification/QuicPacketSpec.v ===== *)
(** * Initial packets

    [protect] builds a QUIC Initial packet as RFC 9000 and RFC 9001 say; the sniffer
    decrypts it ([quic_decrypt_protect]), and finds the server name of a client hello that is
    spread over packets ([quic_server_name_sniffed]). *)

From S2P Require Import Prelude GoStd Netip External TlsFragment TlsFragmentSpec RuleAction Ja3 Ja3Spec Quic QuicSpec.
Local Open Scope Z_scope.

(** What the sniffer relies on of the cryptographic functions: HKDF gives as many bytes as
    asked for, AES maps blocks of 16 bytes to such blocks, and AES-GCM opens what it
    sealed, which is 16 bytes longer. *)
Class QuicCryptoLaws {QC : QuicCrypto} := {
  gcm_Seal : bytes -> bytes -> bytes -> bytes -> bytes;
  expand_length : forall secret info n, 0 <= n <= 255 * 32 -> exists out, hkdf_Expand secret info n = Some out /\ zlen out = n;
  aes_length : forall key block, zlen key = 16 -> zlen block = 16 ->
    exists out, aes_Encrypt key block = Ok out /\ zlen out = 16 /\ Forall is_byte out;
  seal_length : forall key nonce plaintext data, zlen (gcm_Seal key nonce plaintext data) = zlen plaintext + 16;
  open_seal : forall key nonce plaintext data, gcm_Open key nonce (gcm_Seal key nonce plaintext data) data = Ok plaintext
}.
Arguments QuicCryptoLaws : clear implicits.

Section Packets.
Context {QC : QuicCrypto} `{QL : !QuicCryptoLaws QC}.

(** ** Packets *)

Record initial := MkInitial {
  in_first : Z;
  in_version : Z;
  in_dcid : bytes;
  in_scid : bytes;
  in_token : bytes;
  in_number : bytes
}.

Record wf_initial (p : initial) : Prop := {
  wf_first : is_byte (in_first p);
  wf_fixed_bit : Z.land (in_first p) 0x40 <> 0;
  wf_type : Z.shiftr (Z.land (in_first p) 0x30) 4 = if in_version p =? Version2 then 1 else 0;
  wf_quic_version : in_version p = VersionDraft29 \/ in_version p = Version1 \/ in_version p = Version2;
  wf_dcid : 1 <= zlen (in_dcid p) <= 20;
  wf_scid : zlen (in_scid p) < 256;
  wf_token : zlen (in_token p) < 2 ^ 62;
  wf_number : Forall is_byte (in_number p);
  wf_number_length : Z.land (in_first p) 0x3 + 1 = zlen (in_number p)
}.

(** The header behind the first byte, up to the packet number. *)
Definition header_tail (p : initial) (len : Z) : bytes :=
  be_bytes 4 (in_version p) ++ [zlen (in_dcid p)] ++ in_dcid p ++ [zlen (in_scid p)] ++ in_scid p
  ++ enc_uvarint (zlen (in_token p)) ++ in_token p ++ enc_uvarint len.

(** The keys of a connection ID. *)
Definition expand (secret : bytes) (label : string) (n : Z) : bytes :=
  match HKDFExpandLabel secret [] label n with Ok out => out | _ => [] end.
Definition client_secret (p : initial) : bytes :=
  expand (hkdf_Extract (in_dcid p) (quic_salt (in_version p))) "client in" 32.
Definition packet_len (p : initial) (payload : bytes) : Z := zlen (in_number p) + zlen payload + 16.
Definition sealed (p : initial) (payload : bytes) : bytes :=
  gcm_Seal (expand (client_secret p) (key_label (in_version p)) 16)
    (xorNonce (expand (client_secret p) (iv_label (in_version p)) 12) (be_bytes 8 (be_val (in_number p))))
    payload ([in_first p] ++ header_tail p (packet_len p payload) ++ in_number p).
(** The mask of the header protection. *)
Definition header_mask (p : initial) (payload : bytes) : bytes :=
  match aes_Encrypt (expand (client_secret p) (hp_label (in_version p)) 16)
          (take 16 (drop (Z.to_nat (4 - zlen (in_number p))) (sealed p payload))) with
  | Ok mask => mask
  | _ => []
  end.
(** The packet on the wire, with what follows it in the datagram. *)
Definition protect (p : initial) (payload trailing : bytes) : bytes :=
  [Z.lxor (in_first p) (Z.land (nth 0 (header_mask p payload) 0) 0xf)] ++ header_tail p (packet_len p payload)
  ++ zip_with Z.lxor (in_number p) (drop 1 (header_mask p payload)) ++ sealed p payload ++ trailing.

Lemma HKDFExpandLabel_ok secret label n : 0 <= n <= 255 * 32 ->
  HKDFExpandLabel secret [] label n = Ok (expand secret label n) /\ zlen (expand secret label n) = n.
Proof using QL.
  intros Hn. unfold expand, HKDFExpandLabel. destruct (expand_length secret (be_bytes 2 (uint 16 n) ++ [uint 8 (6 + str_len label)]
    ++ bytes_of_string "tls13 " ++ bytes_of_string label ++ [uint 8 (zlen (@nil Z))] ++ []) n Hn) as (out & -> & Hz).
  by rewrite Hz, Z.eqb_refl.
Qed.

(** ** The first byte *)

Lemma land_lxor a b c : Z.land (Z.lxor a b) c = Z.lxor (Z.land a c) (Z.land b c).
Proof. apply Z.bits_inj'. intros n Hn. rewrite !Z.land_spec, !Z.lxor_spec, !Z.land_spec. by destruct (Z.testbit a n), (Z.testbit b n), (Z.testbit c n). Qed.
Lemma masked_bits a m c : Z.land 0xf c = 0 -> Z.land (Z.lxor a (Z.land m 0xf)) c = Z.land a c.
Proof. intros H. rewrite land_lxor, <- Z.land_assoc, H, Z.land_0_r. apply Z.lxor_0_r. Qed.
Lemma unmask_byte a m : Z.lxor (Z.lxor a m) m = a.
Proof. by rewrite Z.lxor_assoc, Z.lxor_nilpotent, Z.lxor_0_r. Qed.

(** ** The header *)

Lemma ReadUint4 v r e : 0 <= v < 2 ^ 32 -> ReadUint 4 (Stream (be_bytes 4 v ++ r) e) = Ok (v, Stream r e).
Proof. intros Hv. by apply ReadUint_be_bytes. Qed.

Lemma discard_app l r e : discard (zlen l) (Stream (l ++ r) e) = Ok (Stream r e).
Proof.
  unfold discard. cbn [avail fin]. rewrite (proj2 (Z.ltb_ge _ _)) by (rewrite zlen_app; pose proof (zlen_nonneg r); lia).
  unfold zlen. by rewrite Nat2Z.id, drop_app_length.
Qed.

Lemma quic_header_enc p first len rest :
  wf_initial p -> Z.land first 0x40 = Z.land (in_first p) 0x40 -> Z.land first 0x30 = Z.land (in_first p) 0x30 ->
  0 <= len < 2 ^ 62 -> len <= zlen rest ->
  quic_header ([first] ++ header_tail p len ++ rest)
  = Ok (in_version p, in_dcid p, 1 + zlen (header_tail p len), len).
Proof using Type.
  intros [_ Hbit Htype Hver Hd Hs Ht _ _] H40 H30 Hlen Hrest.
  pose proof (zlen_nonneg (in_scid p)). pose proof (zlen_nonneg (in_token p)).
  set (packet := [first] ++ header_tail p len ++ rest).
  assert (Hp : packet = first :: be_bytes 4 (in_version p) ++ zlen (in_dcid p) :: in_dcid p ++ zlen (in_scid p) :: in_scid p
    ++ enc_uvarint (zlen (in_token p)) ++ in_token p ++ enc_uvarint len ++ rest)
    by (unfold packet, header_tail; regroup).
  unfold quic_header. assert (Stream packet EOF = Stream (first :: be_bytes 4 (in_version p) ++ zlen (in_dcid p) :: in_dcid p ++ zlen (in_scid p) :: in_scid p
    ++ enc_uvarint (zlen (in_token p)) ++ in_token p ++ enc_uvarint len ++ rest) EOF) as -> by (by rewrite Hp).
  cbn [ReadByte avail fin obind]. rewrite H40, (proj2 (Z.eqb_neq _ _)) by done.
  assert (Hv : 0 <= in_version p < 2 ^ 32) by (destruct Hver as [->|[->| ->]]; vm_compute; split; congruence).
  rewrite ReadUint4 by done. cbn [obind].
  assert (negb (in_version p =? VersionDraft29) && negb (in_version p =? Version1) && negb (in_version p =? Version2) = false) as ->
    by (by destruct Hver as [->|[->| ->]]).
  rewrite H30, Htype.
  assert (((if in_version p =? Version2 then 1 else 0) =? 0) && (in_version p =? Version2)
    || ((if in_version p =? Version2 then 1 else 0) =? 2) && negb (in_version p =? Version2)
    || (2 <? (if in_version p =? Version2 then 1 else 0)) = false) as -> by (by destruct Hver as [->|[->| ->]]).
  cbn [ReadByte avail fin obind].
  rewrite (proj2 (Z.eqb_neq (zlen (in_dcid p)) 0)), (proj2 (Z.ltb_ge 20 _)) by lia. cbn [orb].
  rewrite ReadFull_app by done. cbn [obind ReadByte avail fin].
  rewrite discard_app. cbn [obind]. rewrite QuicReadUvarint_enc by lia. cbn [obind]. rewrite discard_app. cbn [obind].
  rewrite QuicReadUvarint_enc by lia. cbn [obind avail].
  assert (Hz : zlen packet = 1 + zlen (header_tail p len) + zlen rest) by (unfold packet; field_lengths; lia).
  replace (zlen packet - zlen rest) with (1 + zlen (header_tail p len)) by lia.
  by rewrite (proj2 (Z.ltb_ge _ _)) by lia.
Qed.

(** ** The packet number *)

Lemma unmask_number num : forall mask x k,
  (length num <= k)%nat -> (k <= length mask)%nat ->
  take (length num) (zip_with Z.lxor (zip_with Z.lxor num mask ++ x) (take k mask)) = num.
Proof using Type.
  induction num as [|a num IH]; intros mask x k Hk Hm; [done|].
  destruct k as [|k]; [cbn in Hk; lia|]. destruct mask as [|m mask]; [cbn in Hm; lia|]. cbn in *.
  rewrite unmask_byte. f_equal. apply IH; lia.
Qed.

Section Protected.
Variables (p : initial) (payload trailing : bytes).
Hypothesis Hwf : wf_initial p.
Hypothesis Hlong : 4 <= zlen (in_number p) + zlen payload.
Hypothesis Hshort : packet_len p payload < 2 ^ 62.

Let len := packet_len p payload.
Let mask := header_mask p payload.
Let hdrLen := 1 + zlen (header_tail p len).

Lemma number_length : 1 <= zlen (in_number p) <= 4.
Proof using All.
  destruct Hwf as [_ _ _ _ _ _ _ _ Hn]. change 0x3 with (Z.ones 2) in Hn. rewrite Z.land_ones in Hn by lia.
  pose proof (Z.mod_pos_bound (in_first p) (2 ^ 2) ltac:(lia)). change (2 ^ 2) with 4 in *. lia.
Qed.

Lemma sealed_length : zlen (sealed p payload) = zlen payload + 16.
Proof using All. apply seal_length. Qed.

(** The bytes the mask is computed from. *)
Lemma sample_length : zlen (take 16 (drop (Z.to_nat (4 - zlen (in_number p))) (sealed p payload))) = 16.
Proof using All.
  pose proof number_length. pose proof sealed_length. unfold zlen in *. rewrite length_take, length_drop. lia.
Qed.

Lemma mask_ok :
  aes_Encrypt (expand (client_secret p) (hp_label (in_version p)) 16)
    (take 16 (drop (Z.to_nat (4 - zlen (in_number p))) (sealed p payload))) = Ok mask /\ zlen mask = 16.
Proof using All.
  destruct (HKDFExpandLabel_ok (client_secret p) (hp_label (in_version p)) 16 ltac:(lia)) as [_ Hk].
  destruct (aes_length _ _ Hk sample_length) as (out & E & Hz & _). unfold mask, header_mask. rewrite E. by split.
Qed.

Let number' := zip_with Z.lxor (in_number p) (drop 1 mask).

Lemma number'_length : zlen number' = zlen (in_number p).
Proof using All.
  pose proof number_length. pose proof (proj2 mask_ok). unfold number', zlen in *.
  rewrite length_zip_with, length_drop. lia.
Qed.

Lemma sample_ok : quic_sample (protect p payload trailing) hdrLen
  = Ok (take 16 (drop (Z.to_nat (4 - zlen (in_number p))) (sealed p payload))).
Proof using All.
  pose proof number_length. pose proof sealed_length. pose proof number'_length as Hn.
  unfold quic_sample, protect. fold len mask number'.
  set (l := number' ++ sealed p payload ++ trailing).
  replace (drop (Z.to_nat hdrLen) _) with l.
  2:{ unfold hdrLen. rewrite app_assoc. replace (Z.to_nat (1 + zlen (header_tail p len)))
        with (length ([Z.lxor (in_first p) (Z.land (nth 0 mask 0) 15)] ++ header_tail p len)) by (rewrite length_app; unfold zlen; cbn; lia).
      by rewrite drop_app_length. }
  assert (Hl : l = take 4 l ++ take 16 (drop (Z.to_nat (4 - zlen (in_number p))) (sealed p payload)) ++ drop 20 l).
  { rewrite <- (take_drop 4 l) at 1. f_equal. rewrite <- (take_drop 16 (drop 4 l)) at 1. rewrite drop_drop. f_equal.
    unfold l. rewrite drop_app. rewrite drop_ge by (unfold zlen in *; lia). cbn [app].
    replace (4 - length number')%nat with (Z.to_nat (4 - zlen (in_number p))) by (unfold zlen in *; lia).
    rewrite drop_app, take_app. rewrite length_drop.
    replace (16 - _)%nat with 0%nat by (unfold zlen in *; lia). cbn [take]. by rewrite app_nil_r. }
  assert (H4 : length (take 4 l) = 4%nat).
  { rewrite length_take. unfold l. rewrite !length_app. unfold zlen in *. lia. }
  assert (Stream l EOF = Stream (take 4 l ++ take 16 (drop (Z.to_nat (4 - zlen (in_number p))) (sealed p payload)) ++ drop 20 l) EOF) as ->
    by (by rewrite <- Hl).
  replace 4 with (zlen (take 4 l)) at 1 by (unfold zlen; lia). rewrite discard_app. cbn [obind].
  rewrite ReadFull_app by (symmetry; apply sample_length). done.
Qed.

Let newPacket := [in_first p] ++ header_tail p len ++ in_number p ++ sealed p payload ++ trailing.

Lemma unmask_ok : unmask (protect p payload trailing) mask hdrLen = Ok (newPacket, zlen (in_number p)).
Proof using All.
  pose proof number_length. pose proof sealed_length. pose proof number'_length as Hn. pose proof (proj2 mask_ok) as Hm.
  pose proof (zlen_nonneg (header_tail p len)). pose proof (zlen_nonneg trailing).
  assert (Hmask : exists m0 ms, mask = m0 :: ms) by (destruct mask as [|m0 ms]; [done|by eauto]). destruct Hmask as (m0 & ms & Hms).
  unfold protect. fold len mask number'. set (first' := Z.lxor _ _). unfold unmask.
  assert (elem_at ([first'] ++ header_tail p len ++ number' ++ sealed p payload ++ trailing) 0 = Ok first') as -> by done.
  cbn [obind]. assert (elem_at mask 0 = Ok m0) as -> by (by rewrite Hms). cbn [obind].
  assert (Hf : Z.lxor first' (Z.land m0 15) = in_first p) by (unfold first'; rewrite Hms; apply unmask_byte). rewrite Hf.
  assert (slice_of ([first'] ++ header_tail p len ++ number' ++ sealed p payload ++ trailing) 1 hdrLen = Ok (header_tail p len)) as ->
    by (apply slice_of_app; [done|unfold hdrLen; change (zlen [first']) with 1; lia]).
  cbn [obind]. set (more := take (4 - length number') (sealed p payload)).
  assert (slice_of ([first'] ++ header_tail p len ++ number' ++ sealed p payload ++ trailing) hdrLen (hdrLen + 4) = Ok (number' ++ more)) as ->.
  { replace ([first'] ++ header_tail p len ++ number' ++ sealed p payload ++ trailing)
      with (([first'] ++ header_tail p len) ++ (number' ++ more) ++ drop (4 - length number') (sealed p payload) ++ trailing).
    2:{ unfold more. rewrite <- (take_drop (4 - length number') (sealed p payload)) at 3. regroup. }
    apply slice_of_app; unfold hdrLen; rewrite ?zlen_app; change (zlen [first']) with 1; [lia|].
    unfold more, zlen in *. rewrite length_take. lia. }
  cbn [obind].
  assert (slice_of mask 1 5 = Ok (take 4 (drop 1 mask))) as ->.
  { rewrite slice_of_ok by lia. done. }
  cbn [obind]. destruct Hwf as [_ _ _ _ _ _ _ _ Hpn]. rewrite Hpn.
  assert (slice_from ([first'] ++ header_tail p len ++ number' ++ sealed p payload ++ trailing) (hdrLen + zlen (in_number p))
    = Ok (sealed p payload ++ trailing)) as ->.
  { rewrite (app_assoc [first']), app_assoc. apply slice_from_app. unfold hdrLen. rewrite !zlen_app. change (zlen [first']) with 1. lia. }
  cbn [obind]. do 2 f_equal. unfold newPacket. do 3 f_equal.
  replace (Z.to_nat (zlen (in_number p))) with (length (in_number p)) by (unfold zlen; lia).
  unfold number'. rewrite unmask_number; [done|unfold zlen in *; lia|rewrite length_drop; unfold zlen in *; lia].
Qed.

(** The packet is opened; behind the payload are the rest of what was sealed and of the
    datagram. *)
Lemma quic_decrypt_protect :
  quic_decrypt (protect p payload trailing) = Ok (payload, drop (length payload) (sealed p payload) ++ trailing).
Proof using All.
  pose proof number_length. pose proof sealed_length. pose proof number'_length as Hn.
  pose proof (zlen_nonneg payload). pose proof (zlen_nonneg trailing). pose proof (zlen_nonneg (header_tail p len)).
  assert (Hlen : len = zlen (in_number p) + zlen payload + 16) by done.
  unfold quic_decrypt.
  assert (quic_header (protect p payload trailing) = Ok (in_version p, in_dcid p, hdrLen, len)) as ->.
  { unfold protect. fold len mask. fold number'. apply quic_header_enc; [done|by apply masked_bits..| |].
    - unfold len. split; [unfold packet_len; lia|done].
    - rewrite !zlen_app. lia. }
  cbn [obind]. rewrite sample_ok. cbn [obind].
  assert (quic_secret (in_version p) (in_dcid p) = Ok (client_secret p)) as ->
    by (unfold quic_secret, client_secret; by apply HKDFExpandLabel_ok).
  cbn [obind]. rewrite (proj1 (HKDFExpandLabel_ok _ (hp_label (in_version p)) 16 ltac:(lia))). cbn [obind].
  rewrite (proj1 mask_ok). cbn [obind]. rewrite unmask_ok. cbn [obind].
  rewrite (proj2 (Z.ltb_ge _ _)) by lia.
  assert (slice_of newPacket hdrLen (hdrLen + zlen (in_number p)) = Ok (in_number p)) as ->.
  { unfold newPacket. rewrite app_assoc. apply slice_of_app; unfold hdrLen; rewrite zlen_app; change (zlen [in_first p]) with 1; lia. }
  cbn [obind].
  assert (slice_of newPacket (hdrLen + zlen (in_number p)) (len + hdrLen) = Ok (sealed p payload)) as ->.
  { unfold newPacket. rewrite (app_assoc [in_first p]), app_assoc. apply slice_of_app; unfold hdrLen; rewrite !zlen_app;
      change (zlen [in_first p]) with 1; lia. }
  cbn [obind].
  destruct (HKDFExpandLabel_ok (client_secret p) (key_label (in_version p)) 16 ltac:(lia)) as [-> _]. cbn [obind].
  destruct (HKDFExpandLabel_ok (client_secret p) (iv_label (in_version p)) 12 ltac:(lia)) as [-> Hiv]. cbn [obind].
  assert (slice_of newPacket 0 (hdrLen + zlen (in_number p)) = Ok ([in_first p] ++ header_tail p len ++ in_number p)) as ->.
  { replace newPacket with ([] ++ ([in_first p] ++ header_tail p len ++ in_number p) ++ sealed p payload ++ trailing)
      by (unfold newPacket; regroup).
    apply slice_of_app; [done|]. unfold hdrLen. rewrite !zlen_app. change (zlen [in_first p]) with 1. change (zlen (@nil Z)) with 0. lia. }
  cbn [obind]. unfold AEAD_Open. rewrite Hiv. change (negb (12 =? 12)) with false. cbn iota.
  unfold sealed at 1. fold len. rewrite open_seal. cbn [obind]. do 2 f_equal.
  unfold newPacket. rewrite (app_assoc [in_first p]), app_assoc.
  replace (Z.to_nat (hdrLen + zlen (in_number p)) + length payload)%nat
    with (length (([in_first p] ++ header_tail p len) ++ in_number p) + length payload)%nat
    by (rewrite !length_app; unfold hdrLen, zlen; cbn; lia).
  rewrite <- drop_drop, drop_app_length, drop_app.
  replace (length payload - length (sealed p payload))%nat with 0%nat by (unfold zlen in *; lia). done.
Qed.

End Protected.

(** ** A client hello over several packets *)

(** A packet as a client sends it. *)
Record sent := MkSent { st_packet : initial; st_frames : list frame; st_trailing : bytes }.
Definition wire (s : sent) : bytes := protect (st_packet s) (enc_frames (st_frames s)) (st_trailing s).
Definition crypto (s : sent) : list qCryptoFragment := omap frame_fragment (st_frames s).
Definition wf_sent (s : sent) : Prop :=
  wf_initial (st_packet s) /\ Forall wf_frame (st_frames s)
  /\ 4 <= zlen (in_number (st_packet s)) + zlen (enc_frames (st_frames s))
  /\ packet_len (st_packet s) (enc_frames (st_frames s)) < 2 ^ 62.

(** Packets are sniffed one after another as long as the sniffer asks for more. *)
Fixpoint sniff_each (packets : list bytes) (meta : SniffMeta) : outcome (option error) * SniffMeta :=
  match packets with
  | [] => (Ok None, meta)
  | packet :: packets' =>
      match sniff_QUICClientHello packet meta, packets' with
      | (Ok (Some e), meta'), _ :: _ => if errors_Is e ErrNeedMoreData then sniff_each packets' meta' else (Ok (Some e), meta')
      | r, _ => r
      end
  end.

Lemma length_enc_frames fs : (length fs <= length (enc_frames fs))%nat.
Proof using Type.
  induction fs as [|f l IH]; [done|].
  change (enc_frames (f :: l)) with (enc_frame f ++ enc_frames l). rewrite length_app. cbn [length].
  assert (0 < length (enc_frame f))%nat by (destruct f; cbn; lia). lia.
Qed.

Lemma sniff_wire s meta : wf_sent s -> exists memory,
  sniff_QUICClientHello (wire s) meta = sniff_payload (enc_frames (st_frames s)) memory meta
  /\ read_frames (S (length (enc_frames (st_frames s)))) (zlen (enc_frames (st_frames s))) (enc_frames (st_frames s) ++ memory)
       (Stream (enc_frames (st_frames s)) EOF) [] [] = Ok (frame_type <$> st_frames s, crypto s).
Proof using QL.
  intros (Hp & Hf & Hlong & Hshort). eexists. unfold sniff_QUICClientHello, wire.
  rewrite quic_decrypt_protect by done. split; [reflexivity|].
  apply (read_frames_enc (st_frames s) _ [] _ [] []); [done|]. pose proof (length_enc_frames (st_frames s)). lia.
Qed.

Section Hello.
Variables (h : wire_hello) (ciphers : list Z) (xs : list hello_ext) (pieces : list bytes).
Hypothesis Hhello : wf_hello h.
Hypothesis Hversion : ch_recordVersion h = 0x0303.
Hypothesis Hsize : zlen (enc_handshake h) < 65536.
Hypothesis Hciphers : ch_ciphers h = enc16 ciphers.
Hypothesis Hciphers16 : Forall is_uint16 ciphers.
Hypothesis Hexts : ch_exts h = enc_x <$> xs.
Hypothesis Hwfx : Forall wf_x xs.
Hypothesis Hpieces : concat pieces = enc_handshake h.
Hypothesis Hnonempty : Forall (fun p => p <> []) pieces.

Lemma record_complete frags : frags ≡ₚ tile 0 pieces ->
  exists buffer, hello_record frags = Ok buffer /\ ja3_Compute buffer = Ok (hello_fields (ch_version h) ciphers xs).
Proof using All.
  intros Hp. exists (enc_record h). pose proof (zlen_nonneg (enc_handshake h)).
  assert (Hb : zlen (concat pieces) < 2 ^ 63) by (rewrite Hpieces; lia).
  pose proof (hello_record_complete frags pieces Hnonempty Hb Hp) as Hrec.
  rewrite Hpieces, (uint_small 16) in Hrec by lia. split; [unfold enc_record; by rewrite Hversion|].
  unfold ja3_Compute, enc_record. rewrite parseSegment_record by lia.
  rewrite (parseHandshake_enc h ciphers), (parseExtensions_enc h xs); try done.
  unfold enc_handshake in Hsize. rewrite !zlen_app, zlen_be_bytes in Hsize. change (zlen [1]) with 1 in Hsize. lia.
Qed.

Lemma need_more_Is e : errors_Is (need_more e) ErrNeedMoreData = true.
Proof using Type. unfold need_more. cbn [errors_Is]. by rewrite orb_true_r. Qed.

(** A packet that leaves some of the client hello missing. *)
Lemma sniff_partial s meta missing :
  wf_sent s -> missing <> [] -> (crypto s ++ default [] (sm_SniffContext meta)) ++ missing ≡ₚ tile 0 pieces ->
  exists e, sniff_QUICClientHello (wire s) meta
    = (Ok (Some (need_more e)), MkSniffMeta ProtocolQUIC (sm_Domain meta) (sm_Client meta) (Some (crypto s ++ default [] (sm_SniffContext meta)))).
Proof using All.
  intros Hs Hm Hp. destruct (sniff_wire s meta Hs) as (memory & -> & Hr). unfold sniff_payload. rewrite Hr.
  destruct (partial_hello h pieces _ missing Hsize Hpieces Hnonempty Hp Hm) as (buffer & e & -> & ->). by exists e.
Qed.

Lemma sniff_last s meta :
  wf_sent s -> crypto s <> [] -> crypto s ++ default [] (sm_SniffContext meta) ≡ₚ tile 0 pieces ->
  exists client, sniff_QUICClientHello (wire s) meta
    = (Ok None, MkSniffMeta ProtocolQUIC (j_ServerName (hello_fields (ch_version h) ciphers xs)) client None).
Proof using All.
  intros Hs Hc Hp. destruct (sniff_wire s meta Hs) as (memory & -> & Hr). unfold sniff_payload. rewrite Hr.
  destruct (record_complete _ Hp) as (buffer & -> & ->). cbn [sm_Client].
  case_bool_decide; [|by eexists].
  assert (Hcl : exists client, quic_client (frame_type <$> st_frames s) (hello_fields (ch_version h) ciphers xs) = Ok client).
  { assert (Hn : 0 < zlen (frame_type <$> st_frames s)).
    { unfold crypto in Hc. unfold zlen. rewrite length_fmap. destruct (st_frames s); [done|cbn; lia]. }
    unfold quic_client. destruct (_ =? 1); [by eexists|].
    destruct (elem_at_lt (frame_type <$> st_frames s) 0) as (a & -> & _); [lia|]. cbn [obind].
    destruct (elem_at_lt (frame_type <$> st_frames s) (zlen (frame_type <$> st_frames s) - 1)) as (b & -> & _); [lia|]. cbn [obind].
    repeat (destruct (_ && _)); [by eexists..|]. destruct (_ || _); by eexists. }
  destruct Hcl as [client ->]. by eexists.
Qed.

Lemma sniff_each_ok sents last meta :
  Forall wf_sent sents -> wf_sent last -> crypto last <> [] ->
  default [] (sm_SniffContext meta) ++ concat (crypto <$> sents) ++ crypto last ≡ₚ tile 0 pieces ->
  exists client, sniff_each (wire <$> sents ++ [last]) meta
    = (Ok None, MkSniffMeta ProtocolQUIC (j_ServerName (hello_fields (ch_version h) ciphers xs)) client None).
Proof using All.
  intros Hs Hl Hc. revert meta. induction Hs as [|s sents Hs _ IH]; intros meta Hp.
  - destruct (sniff_last last meta Hl Hc) as [client E]; [by rewrite Permutation_app_comm|].
    exists client. change (wire <$> [] ++ [last]) with [wire last]. cbn [sniff_each]. by rewrite E.
  - rewrite fmap_cons in Hp. cbn [concat] in Hp. rewrite <- app_assoc in Hp.
    change (wire <$> (s :: sents) ++ [last]) with (wire s :: (wire <$> sents ++ [last])).
    destruct (sniff_partial s meta (concat (crypto <$> sents) ++ crypto last) Hs) as [e E].
    + intros Hn. by apply app_nil in Hn as [_ ?].
    + by rewrite (Permutation_app_comm (crypto s)), <- app_assoc.
    + destruct (IH (MkSniffMeta ProtocolQUIC (sm_Domain meta) (sm_Client meta) (Some (crypto s ++ default [] (sm_SniffContext meta)))))
        as [client Ec].
      { cbn [sm_SniffContext default from_option id]. by rewrite (Permutation_app_comm (crypto s)), <- app_assoc. }
      exists client. cbn [sniff_each]. rewrite E, need_more_Is.
      destruct (sents ++ [last]) as [|s' l] eqn:El; [by destruct sents|]. exact Ec.
Qed.

End Hello.

(** C29: A TLS client hello that is cut into CRYPTO frames in any way and sent in any order,
    among padding and pings, over any number of QUIC Initial packets is sniffed: the packets
    before the last one make the sniffer ask for more, the last one makes it report QUIC
    and the server name of the client hello. *)
Theorem quic_server_name_sniffed h ciphers xs pieces sents last meta :
  wf_hello h -> ch_recordVersion h = 0x0303 -> zlen (enc_handshake h) < 65536 ->
  ch_ciphers h = enc16 ciphers -> Forall is_uint16 ciphers -> ch_exts h = enc_x <$> xs -> Forall wf_x xs ->
  concat pieces = enc_handshake h -> Forall (fun p => p <> []) pieces ->
  Forall wf_sent sents -> wf_sent last -> crypto last <> [] ->
  concat (crypto <$> sents) ++ crypto last ≡ₚ tile 0 pieces -> sm_SniffContext meta = None ->
  exists client, sniff_each (wire <$> sents ++ [last]) meta
    = (Ok None, MkSniffMeta ProtocolQUIC (j_ServerName (hello_fields (ch_version h) ciphers xs)) client None).
Proof using QL.
  intros ? ? ? ? ? ? ? ? ? Hs Hl Hc Hp Hm. eapply sniff_each_ok; try done. by rewrite Hm.
Qed.

End Packets.

(** * QUIC sniffing: concrete packets *)

(** Functions with the lengths of the real ones, and no secrecy. *)
#[export] Instance toy_crypto : QuicCrypto := {|
  hkdf_Extract := fun secret salt => take 32 (salt ++ secret ++ replicate 32 0);
  hkdf_Expand := fun secret info n => Some (replicate (Z.to_nat n) (zlen info));
  aes_Encrypt := fun key block => Ok (replicate 16 (zlen key + 37));
  gcm_Open := fun key nonce ciphertext data =>
    if zlen ciphertext <? 16 then Err (EExternal "cipher: message authentication failed")
    else Ok (take (length ciphertext - 16) ciphertext)
|}.
#[export, refine] Instance toy_laws : QuicCryptoLaws toy_crypto := {|
  gcm_Seal := fun key nonce plaintext data => plaintext ++ replicate 16 9
|}.
Proof.
  - intros secret info n Hn. eexists. split; [reflexivity|]. unfold zlen. rewrite length_replicate. lia.
  - intros key block Hk Hb. eexists. split; [reflexivity|]. rewrite Hk. by repeat constructor.
  - intros. rewrite zlen_app. done.
  - intros key nonce plaintext data. unfold gcm_Open, toy_crypto. rewrite (proj2 (Z.ltb_ge _ _)) by (rewrite zlen_app; pose proof (zlen_nonneg plaintext); change (zlen (replicate 16 9)) with 16; lia).
    rewrite length_app, length_replicate. replace (length plaintext + 16 - 16)%nat with (length plaintext) by lia.
    by rewrite take_app_length.
Defined.

(** ** A client hello in two packets, the second half first *)

Definition case_host : bytes := bytes_of_string "ab.cd".
Definition case_exts : list hello_ext := [XName case_host; XGroups [29; 23]; XFormats [0]; XVersions [0x0304]; XAlgorithms [0x0403]; XOther 16 [1]].
Definition case_hello : wire_hello := MkHello 0x0303 0x0303 (replicate 32 7) [1; 2] (enc16 [0x1301; 0x1302]) [0] (enc_x <$> case_exts).

Lemma case_hello_wf : wf_hello case_hello.
Proof. constructor; [vm_compute; split; discriminate|reflexivity..|by repeat constructor]. Qed.
Lemma case_exts_wf : Forall wf_x case_exts.
Proof.
  unfold case_exts. repeat first [apply Forall_nil_2 | apply Forall_cons_2]; (split; [by vm_compute|]); cbn [wf_x].
  1-5: by repeat constructor.
  split; [lia|]. rewrite !not_elem_of_cons. split_and!; try (vm_compute; discriminate). apply not_elem_of_nil.
Qed.

Definition piece1 : bytes := take 50 (enc_handshake case_hello).
Definition piece2 : bytes := drop 50 (enc_handshake case_hello).
Definition case_initial (n : Z) : initial := MkInitial 0xc0 Version1 [1; 2; 3; 4; 5; 6; 7; 8] [] [] [n].
Definition packet_a : sent := MkSent (case_initial 0) [FPing; FCrypto 50 piece2; FPadding; FPadding] [].
Definition packet_b : sent := MkSent (case_initial 1) [FCrypto 0 piece1; FPadding] [7; 7].

Lemma case_initial_wf n : is_byte n -> wf_initial (case_initial n).
Proof. intros Hn. constructor; try (vm_compute; congruence); [by vm_compute|by right; left|vm_compute; split; discriminate|by apply Forall_singleton]. Qed.
Lemma packet_a_wf : wf_sent packet_a.
Proof. split; [by apply case_initial_wf|]. split; [by repeat constructor|]. split; [vm_compute; discriminate|by vm_compute]. Qed.
Lemma packet_b_wf : wf_sent packet_b.
Proof. split; [by apply case_initial_wf|]. split; [by repeat constructor|]. split; [vm_compute; discriminate|by vm_compute]. Qed.

Definition no_meta : SniffMeta := MkSniffMeta "" "" "" None.

Lemma quic_server_name_sniffed_witness :
  exists client, sniff_each [wire packet_a; wire packet_b] no_meta = (Ok None, MkSniffMeta "quic" "ab.cd" client None).
Proof.
  destruct (quic_server_name_sniffed case_hello [0x1301; 0x1302] case_exts [piece1; piece2] [packet_a] packet_b no_meta)
    as [client E]; [exact case_hello_wf|reflexivity|by vm_compute|reflexivity| |reflexivity|exact case_exts_wf|
      by vm_compute|apply Forall_cons_2; [by vm_compute|apply Forall_cons_2; [by vm_compute|apply Forall_nil_2]]|apply Forall_singleton, packet_a_wf|exact packet_b_wf|by vm_compute| |reflexivity|].
  - repeat constructor; vm_compute; try discriminate; done.
  - change (concat (crypto <$> [packet_a]) ++ crypto packet_b) with [MkFragment 50 (zlen piece2) piece2; MkFragment 0 (zlen piece1) piece1].
    change (tile 0 [piece1; piece2]) with [MkFragment 0 (zlen piece1) piece1; MkFragment 50 (zlen piece2) piece2].
    apply Permutation_swap.
  - exists client. exact E.
Defined.

Lemma client_hello_parsed_witness :
  ja3_Compute (enc_record case_hello)
  = Ok (MkClientHello 0x0303 [0x1301; 0x1302] [0; 10; 11; 43; 13; 16] [29; 23] [0] [0x0304] [0x0403] "ab.cd").
Proof.
  refine (client_hello_parsed case_hello [0x1301; 0x1302] case_exts case_hello_wf _ _ _ _ _ case_exts_wf);
    [vm_compute; split; discriminate|by vm_compute|reflexivity| |reflexivity].
  repeat constructor; vm_compute; try discriminate; done.
Defined.

(** ** Crafted packets *)

Definition short_versions : wire_hello :=
  MkHello 0x0303 0x0303 (replicate 32 7) [] (enc16 [0x1301]) [0] [(versionExtensionType, [4; 3; 4])].

Lemma version_list_panics_witness : ja3_Compute (enc_record short_versions) = Panic "runtime error: index out of range".
Proof.
  refine (version_list_panics short_versions [0x1301] [] 4 [3; 4] [] _ _ _ _ _ _ _ _ _);
    [constructor; [vm_compute; split; discriminate|reflexivity..|by repeat constructor]|vm_compute; split; discriminate|by vm_compute
    |reflexivity| |by constructor|reflexivity|by vm_compute|by vm_compute].
  repeat constructor; vm_compute; try discriminate; done.
Defined.

Lemma crypto_length_panics_witness :
  sniff_payload ([frameTypeCrypto] ++ enc_uvarint 0 ++ enc_uvarint 1000 ++ [1; 2; 3]) (replicate 16 9) no_meta
  = (Panic "runtime error: slice bounds out of range", no_meta).
Proof. apply (crypto_length_panics 0 1000 [1; 2; 3] (replicate 16 9) no_meta); [lia|lia|by vm_compute]. Defined.

Lemma empty_crypto_frame_hangs_witness : (sniff_payload (enc_frames [FCrypto 0 []; FCrypto 0 [1; 2]]) [] no_meta).1 = Diverge.
Proof. apply (empty_crypto_frame_hangs [FCrypto 0 [1; 2]] 0 [] no_meta). by repeat constructor. Defined.

(** One packet is enough: a client that knows the (public) keys of its connection ID sends
    an Initial packet that crashes the sniffer, or one it never returns from. *)
Theorem crafted_packets :
  (sniff_QUICClientHello (protect (case_initial 0) ([frameTypeCrypto] ++ enc_uvarint 0 ++ enc_uvarint 1000 ++ [1; 2; 3]) []) no_meta).1
    = Panic "runtime error: slice bounds out of range"
  /\ (sniff_QUICClientHello (wire (MkSent (case_initial 0) [FCrypto 0 []; FPadding] [])) no_meta).1 = Diverge
  /\ (sniff_QUICClientHello (wire (MkSent (case_initial 0) [FCrypto 0 (enc_handshake short_versions)] [])) no_meta).1
     = Panic "runtime error: index out of range".
Proof. by vm_compute. Qed.

(** A fragment that arrives twice is counted twice in the length of the record: the client
    hello is complete and the sniffer still asks for more. *)
Theorem duplicate_fragment_not_sniffed :
  (sniff_each [wire packet_a; wire packet_a; wire packet_b] no_meta).1 = Ok (Some (need_more (LengthErr 2))).
Proof. by vm_compute. Qed.
