(* ===== verification/Sniff.v ===== *)
(** * The other sniffers (common/sniff)

    bittorrent.go, ssh.go, rdp.go, dns.go, stun.go, dtls.go, ntp.go, http.go and tls.go.
    A stream sniffer reads a [MultiReader] over the buffers read so far, a list of chunks;
    a packet sniffer a packet.  The HTTP, TLS and DNS parsers are parameters. *)

From S2P Require Import Prelude GoStd Netip External DnsMsg TlsFragment RuleAction Ja3 Quic.
Local Open Scope Z_scope.

Definition ProtocolTLS : string := "tls".
Definition ProtocolHTTP : string := "http".
Definition ProtocolDNS : string := "dns".
Definition ProtocolSTUN : string := "stun".
Definition ProtocolBitTorrent : string := "bittorrent".
Definition ProtocolDTLS : string := "dtls".
Definition ProtocolSSH : string := "ssh".
Definition ProtocolRDP : string := "rdp".
Definition ProtocolNTP : string := "ntp".

(** The error a sniffer returns, and the metadata it leaves. *)
Abbreviation sniffed := (option error * SniffMeta)%type (only parsing).

Definition set_protocol (protocol : string) (m : SniffMeta) : SniffMeta :=
  MkSniffMeta protocol (sm_Domain m) (sm_Client m) (sm_SniffContext m).

(** ** Readers *)

(** [io.MultiReader]: one [Read] gets bytes of the first reader that has some. *)
Fixpoint read_once (n : nat) (chunks : list bytes) : option bytes :=
  match chunks with
  | [] => None
  | [] :: chunks' => read_once n chunks'
  | c :: _ => Some (take n c)
  end.
(** What is left after [n] bytes were read. *)
Fixpoint consume (n : nat) (chunks : list bytes) : list bytes :=
  match chunks with
  | [] => []
  | c :: chunks' => if Nat.leb n (length c) then drop n c :: chunks' else consume (n - length c) chunks'
  end.

(** [binary.Read] of an unsigned integer of [n] bytes and the check of its value; a short
    read asks for more. *)
Definition expect (n : nat) (ok : Z -> bool) (st : stream) (k : stream -> option error) : option error :=
  match ReadUint n st with
  | Ok (x, st) => if ok x then k st else Some ErrInvalid
  | Err e => Some (need_more e)
  | Panic _ | Diverge => Some ErrInvalid
  end.

(** ** Streams *)

Definition bittorrent_header : bytes := bytes_of_string "BitTorrent protocol".

Definition sniff_BitTorrent (chunks : list bytes) (m : SniffMeta) : sniffed :=
  match concat chunks with
  | [] => (Some (need_more EOF), m)
  | first :: _ =>
      if negb (first =? 19) then (Some ErrInvalid, m)
      else
        let protocol := default [] (read_once 19 (consume 1 chunks)) in
        if negb (bool_decide (protocol = take (length protocol) bittorrent_header)) then (Some ErrInvalid, m)
        else match read_once 19 (consume 1 chunks) with
             | None => (Some (need_more EOF), m)
             | Some _ => if Nat.ltb (length protocol) 19 then (Some ErrNeedMoreData, m)
                         else (None, set_protocol ProtocolBitTorrent m)
             end
  end.

(** [bufio.Reader.ReadLine] of a reader with a buffer of 4096 bytes; [None] is an error. *)
Fixpoint until_newline (data : bytes) : option bytes :=
  match data with
  | [] => None
  | b :: data' => if b =? 10 then Some [] else cons b <$> until_newline data'
  end.
Definition drop_cr (line : bytes) : bytes :=
  match last line with Some 13 => take (length line - 1) line | _ => line end.
Definition ReadLine (data : bytes) : option bytes :=
  match until_newline (take 4096 data) with
  | Some line => Some (drop_cr line)
  | None =>
      if Nat.leb 4096 (length data) then Some (drop_cr (take 4096 data))
      else match data with [] => None | _ => Some data end
  end.

Definition ssh_prefix : bytes := bytes_of_string "SSH-2.0-".
Definition sniff_SSH (chunks : list bytes) (m : SniffMeta) : sniffed :=
  let data := concat chunks in
  let prefix := take 8 data in
  if negb (bool_decide (prefix = take (length prefix) ssh_prefix)) then (Some ErrInvalid, m)
  else if Nat.ltb (length prefix) 8 then (Some (need_more EOF), m)
  else match ReadLine data with
       | None => (Some EOF, m)
       | Some firstLine =>
           (None, MkSniffMeta ProtocolSSH (sm_Domain m) (string_of_bytes (drop 8 firstLine)) (sm_SniffContext m))
       end.

(** [rw.SkipN(reader, n)] *)
Definition skip (n : Z) (st : stream) (k : stream -> option error) : option error :=
  match ReadFull n st with
  | Ok (_, st) => k st
  | Err e => Some (need_more e)
  | Panic _ | Diverge => Some ErrInvalid
  end.
Definition rdp_check (data : bytes) : option error :=
  expect 1 (fun x => x =? 3) (Stream data EOF) (fun st =>
  expect 1 (fun x => x =? 0) st (fun st =>
  expect 2 (fun x => x =? 19) st (fun st =>
  expect 1 (fun x => x =? 14) st (fun st =>
  expect 1 (fun x => x =? 0xE0) st (fun st =>
  skip 5 st (fun st =>
  expect 1 (fun x => x =? 1) st (fun st =>
  expect 1 (fun _ => true) st (fun st =>
  expect 1 (fun x => x =? 8) st (fun _ => None))))))))).
Definition sniff_RDP (chunks : list bytes) (m : SniffMeta) : sniffed :=
  match rdp_check (concat chunks) with
  | None => (None, set_protocol ProtocolRDP m)
  | Some e => (Some e, m)
  end.

(** The parsers of other packages: [http.ReadRequest] with the host of the request,
    [M.ParseSocksaddr(host).AddrString()], and the handshake of [crypto/tls] up to the client
    hello, with the error it ends with. *)
Class SniffLib := {
  http_ReadRequest : bytes -> error + string;
  host_AddrString : string -> string;
  tls_Server : bytes -> option string * error
}.

Section Parsers.
Context {X : External} {DL : DnsLib} {SL : SniffLib}.

Definition sniff_HTTPHost (chunks : list bytes) (m : SniffMeta) : sniffed :=
  match http_ReadRequest (concat chunks) with
  | inl e => (Some (if errors_Is e ErrUnexpectedEOF then need_more e else e), m)
  | inr host => (None, MkSniffMeta ProtocolHTTP (host_AddrString host) (sm_Client m) (sm_SniffContext m))
  end.

Definition sniff_TLSClientHello (chunks : list bytes) (m : SniffMeta) : sniffed :=
  match tls_Server (concat chunks) with
  | (Some serverName, _) => (None, MkSniffMeta ProtocolTLS serverName (sm_Client m) (sm_SniffContext m))
  | (None, e) => (Some (if errors_Is e ErrUnexpectedEOF then need_more e else e), m)
  end.

(** [return err] with a nil [err] when the message is not a query. *)
Definition sniff_DomainNameQuery (packet : bytes) (m : SniffMeta) : sniffed :=
  match Msg_Unpack packet with
  | Ok msg =>
      if Response (Hdr msg) || bool_decide (Questions msg = []) || negb (bool_decide (length (Answer msg) = 0%nat))
         || negb (bool_decide (length (Ns msg) = 0%nat)) then (None, m)
      else (None, set_protocol ProtocolDNS m)
  | Err e => (Some e, m)
  | Panic msg => (Some (EExternal msg), m)
  | Diverge => (Some (EExternal "dns: unpack"), m)
  end.

(** The checks of the header that has been read so far. *)
Definition dns_header_ok (packet : bytes) : bool :=
  match packet !! 2%nat with Some b => Z.land b 0x80 =? 0 | None => true end
  && match packet !! 4%nat, packet !! 5%nat with Some a, Some b => negb ((a =? 0) && (b =? 0)) | _, _ => true end
  && forallb (fun b => b =? 0) (take 4 (drop 6 packet)).
Definition sniff_StreamDomainNameQuery (chunks : list bytes) (m : SniffMeta) : sniffed :=
  match ReadUint 2 (Stream (concat chunks) EOF) with
  | Ok (length, st) =>
      if length <? 12 then (Some ErrInvalid, m)
      else
        let packet := take (Z.to_nat length) (avail st) in
        if negb (dns_header_ok packet) then (Some ErrInvalid, m)
        else match ReadFull length st with
             | Ok (packet, _) => sniff_DomainNameQuery packet m
             | Err e => (Some (need_more e), m)
             | Panic _ | Diverge => (Some ErrInvalid, m)
             end
  | Err e => (Some (need_more e), m)
  | Panic _ | Diverge => (Some ErrInvalid, m)
  end.

(** ** Packets *)

(** The loop over the extensions of a uTP packet; each takes two bytes at least. *)
Fixpoint utp_extensions (fuel : nat) (extension : Z) (data : bytes) : outcome unit :=
  if extension =? 0 then Ok tt
  else match fuel with
  | O => Diverge
  | S fuel' =>
      match data with
      | [] => Err EOF
      | extension :: data =>
          if 4 <? extension then Err ErrInvalid
          else match data with
               | [] => Err EOF
               | length :: data => utp_extensions fuel' extension (drop (Z.to_nat length) data)
               end
      end
  end.
Definition sniff_UTP (packet : bytes) (m : SniffMeta) : outcome (option error) * SniffMeta :=
  match packet with
  | first :: extension :: _ =>
      if zlen packet <? 20 then (Ok (Some ErrInvalid), m)
      else if negb (Z.land first 0x0F =? 1) || (4 <? Z.shiftr first 4) then (Ok (Some ErrInvalid), m)
      else match utp_extensions (S (length packet)) extension (drop 20 packet) with
           | Ok _ => (Ok None, set_protocol ProtocolBitTorrent m)
           | Err e => (Ok (Some e), m)
           | Panic msg => (Panic msg, m)
           | Diverge => (Diverge, m)
           end
  | _ => (Ok (Some ErrInvalid), m)
  end.

Definition trackerConnectMinSize : Z := 16.
Definition trackerProtocolID : Z := 0x41727101980.
Definition trackerConnectFlag : Z := 0.
(** [binary.BigEndian.UintN(packet[lo:hi])] *)
Definition be_at (packet : bytes) (lo hi : nat) : Z := be_val (take (hi - lo) (drop lo packet)).

Definition sniff_UDPTracker (packet : bytes) (m : SniffMeta) : sniffed :=
  if zlen packet <? trackerConnectMinSize then (Some ErrInvalid, m)
  else if negb (be_at packet 0 8 =? trackerProtocolID) then (Some ErrInvalid, m)
  else if negb (be_at packet 8 12 =? trackerConnectFlag) then (Some ErrInvalid, m)
  else (None, set_protocol ProtocolBitTorrent m).

Definition sniff_STUNMessage (packet : bytes) (m : SniffMeta) : sniffed :=
  if zlen packet <? 20 then (Some ErrInvalid, m)
  else if negb (be_at packet 4 8 =? 0x2112A442) then (Some ErrInvalid, m)
  else if zlen packet <? 20 + be_at packet 2 4 then (Some ErrInvalid, m)
  else (None, set_protocol ProtocolSTUN m).

Definition sniff_DTLSRecord (packet : bytes) (m : SniffMeta) : sniffed :=
  if zlen packet <? 13 then (Some ErrInvalid, m)
  else if negb (bool_decide (nth 0 packet 0 ∈ [20; 21; 22; 23; 25])) then (Some ErrInvalid, m)
  else if negb (nth 1 packet 0 =? 0xfe) then (Some ErrInvalid, m)
  else if negb (nth 2 packet 0 =? 0xff) && negb (nth 2 packet 0 =? 0xfd) then (Some ErrInvalid, m)
  else (None, set_protocol ProtocolDTLS m).

(** The delays are fractions of 2^16; [float64(x)/65536.0 > 16.0] is exact. *)
Definition sniff_NTP (packet : bytes) (m : SniffMeta) : sniffed :=
  if zlen packet <? 48 then (Some ErrInvalid, m)
  else
    let firstByte := nth 0 packet 0 in
    let li := Z.land (Z.shiftr firstByte 6) 0x03 in
    let vn := Z.land (Z.shiftr firstByte 3) 0x07 in
    let mode := Z.land firstByte 0x07 in
    if 3 <? li then (Some ErrInvalid, m)
    else if negb (vn =? 3) && negb (vn =? 4) then (Some ErrInvalid, m)
    else if negb (mode =? 3) then (Some ErrInvalid, m)
    else if 16 * 65536 <? be_at packet 4 8 then (Some ErrInvalid, m)
    else if 16 * 65536 <? be_at packet 8 12 then (Some ErrInvalid, m)
    else (None, set_protocol ProtocolNTP m).

(** ** By name *)

Definition sniff_stream (s : StreamSniffer) : list bytes -> SniffMeta -> sniffed :=
  match s with
  | TLSClientHello => sniff_TLSClientHello
  | HTTPHost => sniff_HTTPHost
  | StreamDomainNameQuery => sniff_StreamDomainNameQuery
  | BitTorrent => sniff_BitTorrent
  | SSH => sniff_SSH
  | RDP => sniff_RDP
  end.

End Parsers.
