(* ===== verification/SniffSpec.v ===== *)
(** * Sniffing does not depend on how a stream arrives

    [own_sniffers_stable]: once a stream sniffer has decided, more data does not change its
    mind; so what [PeekStream] decides is what the sniffer says of all the data
    ([sniff_any_fragmentation]).  [utp_terminates]; and the cases the code gets wrong. *)

From S2P Require Import Prelude GoStd Netip External Concrete DnsMsg RuleItems TlsFragment RuleAction Router RouterSpec DnsCases Ja3 Quic Sniff.
From coqutil Require Import Datatypes.RecordSetters.
Import DoubleBraceUpdate.
Import Simple.
Local Open Scope Z_scope.

(** ** Verdicts *)

Inductive verdict := Accept | Reject | More.
#[global] Instance verdict_eq_dec : EqDecision verdict.
Proof. solve_decision. Defined.
Definition verdict_of (r : option error) : verdict :=
  match r with None => Accept | Some e => if errors_Is e ErrNeedMoreData then More else Reject end.

Lemma verdict_need_more e : verdict_of (Some (need_more e)) = More.
Proof. cbn. by rewrite orb_true_r. Qed.
(** The answer asks for more, against a hypothesis. *)
Ltac asks_for_more := let H := fresh in intros H; exfalso; apply H; first [apply verdict_need_more | reflexivity].

(** A check of a stream that keeps its answer, unless it asked for more. *)
Definition stable (k : stream -> option error) : Prop :=
  forall data more, verdict_of (k (Stream data EOF)) <> More -> k (Stream (data ++ more) EOF) = k (Stream data EOF).

Lemma ReadFull_more n data more x st :
  ReadFull n (Stream data EOF) = Ok (x, st) -> ReadFull n (Stream (data ++ more) EOF) = Ok (x, Stream (avail st ++ more) EOF)
  /\ fin st = EOF.
Proof.
  unfold ReadFull. cbn [avail fin]. destruct (n <=? zlen data) eqn:E; [|by destruct data]. intros [= <- <-]. cbn [avail fin].
  apply Z.leb_le in E. rewrite zlen_app. pose proof (zlen_nonneg more). rewrite (proj2 (Z.leb_le _ _)) by lia.
  unfold zlen in E. rewrite take_app_le, drop_app_le by lia. done.
Qed.
Lemma ReadUint_more n data more x st :
  ReadUint n (Stream data EOF) = Ok (x, st) -> ReadUint n (Stream (data ++ more) EOF) = Ok (x, Stream (avail st ++ more) EOF)
  /\ fin st = EOF.
Proof.
  unfold ReadUint. destruct (ReadFull _ (Stream data EOF)) as [[l st']| | |] eqn:E; [|done..]. cbn [obind]. intros [= <- <-].
  destruct (ReadFull_more _ _ more _ _ E) as [-> ?]. done.
Qed.
Lemma ReadFull_outcome n st : (exists x st', ReadFull n st = Ok (x, st')) \/ exists e, ReadFull n st = Err e.
Proof. unfold ReadFull. destruct (_ <=? _); [left; eauto|right]. destruct (avail st); eauto. Qed.

Lemma expect_stable n ok k : stable k -> stable (fun st => expect n ok st k).
Proof.
  intros Hk data more. unfold expect, ReadUint. destruct (ReadFull_outcome (Z.of_nat n) (Stream data EOF)) as [(x & st & E)|[e E]];
    rewrite E; cbn [obind]; [|asks_for_more].
  destruct (ReadFull_more _ _ more _ _ E) as [-> Hf]. cbn [obind]. destruct (ok (be_val x)); [|done].
  intros Hv. destruct st as [a f]. cbn in Hf. subst f. by apply Hk.
Qed.
Lemma skip_stable n k : stable k -> stable (fun st => skip n st k).
Proof.
  intros Hk data more. unfold skip. destruct (ReadFull_outcome n (Stream data EOF)) as [(x & st & E)|[e E]];
    rewrite E; [|asks_for_more].
  destruct (ReadFull_more _ _ more _ _ E) as [-> Hf]. intros Hv. destruct st as [a f]. cbn in Hf. subst f. by apply Hk.
Qed.

Lemma rdp_stable : stable (fun st => rdp_check (avail st)).
Proof.
  unfold rdp_check.
  enough (H : stable (fun st => expect 1 (fun x => x =? 3) st (fun st => expect 1 (fun x => x =? 0) st (fun st =>
    expect 2 (fun x => x =? 19) st (fun st => expect 1 (fun x => x =? 14) st (fun st => expect 1 (fun x => x =? 0xE0) st (fun st =>
    skip 5 st (fun st => expect 1 (fun x => x =? 1) st (fun st => expect 1 (fun _ => true) st (fun st =>
    expect 1 (fun x => x =? 8) st (fun _ => None))))))))))) by exact H.
  repeat first [apply expect_stable | apply skip_stable]. by intros data more.
Qed.

(** ** Prefixes *)

(** What was read of a fixed text matches its beginning. *)
Definition begins (l text : bytes) : bool := bool_decide (l = take (length l) text).
Lemma begins_longer l l' text : begins (l ++ l') text = true -> begins l text = true.
Proof.
  unfold begins. rewrite !bool_decide_eq_true. rewrite length_app. intros H.
  apply (f_equal (take (length l))) in H. rewrite take_app_length, take_take in H. by rewrite Nat.min_l in H by lia.
Qed.
Lemma take_more {A} n (l more : list A) : exists rest, take n (l ++ more) = take n l ++ rest.
Proof. rewrite take_app. eauto. Qed.
Lemma take_full {A} n (l more : list A) : (n <= length l)%nat -> take n (l ++ more) = take n l.
Proof. intros H. by rewrite take_app_le. Qed.

Lemma bittorrent_chunk data m :
  sniff_BitTorrent [data] m =
  match data with
  | [] => (Some (need_more EOF), m)
  | first :: rest =>
      if negb (first =? 19) then (Some ErrInvalid, m)
      else if negb (begins (take 19 rest) bittorrent_header) then (Some ErrInvalid, m)
      else match rest with
           | [] => (Some (need_more EOF), m)
           | _ => if Nat.ltb (length (take 19 rest)) 19 then (Some ErrNeedMoreData, m) else (None, set_protocol ProtocolBitTorrent m)
           end
  end.
Proof.
  unfold sniff_BitTorrent, begins. cbn [concat]. rewrite app_nil_r. destruct data as [|first rest]; [done|].
  change (consume 1 [first :: rest]) with [rest]. by destruct rest.
Qed.

Lemma dns_header_longer l l' : dns_header_ok (l ++ l') = true -> dns_header_ok l = true.
Proof.
  unfold dns_header_ok. rewrite !andb_true_iff. intros [[H1 H2] H3]. split_and!.
  - destruct (l !! 2%nat) as [b|] eqn:E; [|done]. by rewrite (lookup_app_l_Some _ _ _ _ E) in H1.
  - destruct (l !! 4%nat) as [a|] eqn:Ea; [|done]. destruct (l !! 5%nat) as [b|] eqn:Eb; [|done].
    by rewrite (lookup_app_l_Some _ _ _ _ Ea), (lookup_app_l_Some _ _ _ _ Eb) in H2.
  - apply forallb_forall. intros x Hx. eapply forallb_forall in H3; [exact H3|].
    rewrite drop_app, take_app. apply in_or_app. by left.
Qed.

(** ** The sniffers this package implements itself *)

Definition own_sniffers : list StreamSniffer := [StreamDomainNameQuery; BitTorrent; SSH; RDP].

Section Stable.
Context {X : External} {DL : DnsLib} {SL : SniffLib}.

Lemma bittorrent_stable data more m :
  verdict_of (fst (sniff_BitTorrent [data] m)) <> More ->
  fst (sniff_BitTorrent [data ++ more] m) = fst (sniff_BitTorrent [data] m).
Proof.
  rewrite !bittorrent_chunk. destruct data as [|first rest]; [asks_for_more|]. cbn [app]. destruct (negb (first =? 19)); [done|].
  destruct (take_more 19 rest more) as [r E]. destruct (begins (take 19 rest) bittorrent_header) eqn:Eb; cbn [negb].
  - destruct rest as [|b rest]; [asks_for_more|]. cbn [app]. change (b :: rest ++ more) with ((b :: rest) ++ more).
    destruct (Nat.ltb_spec (length (take 19 (b :: rest))) 19) as [|Hl]; [asks_for_more|].
    rewrite length_take in Hl. rewrite take_full by lia. rewrite Eb. cbn [negb]. intros _.
    by destruct (Nat.ltb_spec (length (take 19 (b :: rest))) 19); [rewrite length_take in *; lia|].
  - intros _. rewrite E. destruct (begins (take 19 rest ++ r) bittorrent_header) eqn:E2; [|done]. apply begins_longer in E2. congruence.
Qed.

Lemma ReadLine_nonempty data : data <> [] -> exists line, ReadLine data = Some line.
Proof.
  intros H. unfold ReadLine. destruct (until_newline _); [eauto|]. destruct (Nat.leb _ _); [eauto|]. destruct data; [done|eauto].
Qed.
Lemma ssh_stable data more m :
  verdict_of (fst (sniff_SSH [data] m)) <> More -> fst (sniff_SSH [data ++ more] m) = fst (sniff_SSH [data] m).
Proof.
  unfold sniff_SSH. cbn [concat]. rewrite !app_nil_r. fold (begins (take 8 data) ssh_prefix) (begins (take 8 (data ++ more)) ssh_prefix).
  destruct (take_more 8 data more) as [r E]. destruct (begins (take 8 data) ssh_prefix) eqn:Eb; cbn [negb].
  - destruct (Nat.ltb_spec (length (take 8 data)) 8) as [|Hl]; [asks_for_more|]. intros _. rewrite length_take in Hl.
    rewrite take_full, Eb by lia. cbn [negb]. destruct (Nat.ltb_spec (length (take 8 data)) 8); [rewrite length_take in *; lia|].
    destruct (ReadLine_nonempty data) as [? ->]; [intros ->; cbn in Hl; lia|].
    by destruct (ReadLine_nonempty (data ++ more)) as [? ->]; [intros [-> ->]%app_nil; cbn in Hl; lia|].
  - intros _. rewrite E. destruct (begins (take 8 data ++ r) ssh_prefix) eqn:E2; [|done]. apply begins_longer in E2. congruence.
Qed.

Lemma rdp_verdict data m : fst (sniff_RDP [data] m) = rdp_check data.
Proof. unfold sniff_RDP. cbn [concat]. rewrite app_nil_r. by destruct (rdp_check data). Qed.

Lemma stream_dns_stable data more m :
  verdict_of (fst (sniff_StreamDomainNameQuery [data] m)) <> More ->
  fst (sniff_StreamDomainNameQuery [data ++ more] m) = fst (sniff_StreamDomainNameQuery [data] m).
Proof.
  unfold sniff_StreamDomainNameQuery. cbn [concat]. rewrite !app_nil_r.
  destruct (ReadUint 2 (Stream data EOF)) as [[n st]|e| |] eqn:E; cbn [fst]; [|asks_for_more| |];
    [|by revert E; unfold ReadUint; destruct (ReadFull_outcome (Z.of_nat 2) (Stream data EOF)) as [(?&?&->)|[? ->]]..].
  destruct (ReadUint_more _ _ more _ _ E) as [-> Hf]. destruct st as [a f]; cbn [avail fin] in *; subst f.
  destruct (n <? 12); [done|]. destruct (take_more (Z.to_nat n) a more) as [r Er].
  destruct (dns_header_ok (take (Z.to_nat n) a)) eqn:Eh; cbn [negb].
  - destruct (ReadFull_outcome n (Stream a EOF)) as [(x & st & E2)|[e E2]]; rewrite E2; [|asks_for_more].
    intros _. destruct (ReadFull_more _ _ more _ _ E2) as [E3 _]. rewrite E3.
    unfold ReadFull in E2. cbn [avail] in E2. destruct (Z.leb_spec n (zlen a)) as [Hn|]; [|by destruct a].
    unfold zlen in Hn. rewrite take_full, Eh by lia. done.
  - intros _. rewrite Er. destruct (dns_header_ok (take (Z.to_nat n) a ++ r)) eqn:E2; [|done]. apply dns_header_longer in E2. congruence.
Qed.

(** [own_sniffers_stable]: what a sniffer answers other than “more” it answers for every
    continuation. *)
Lemma own_sniffers_stable s data more m :
  s ∈ own_sniffers -> verdict_of (fst (sniff_stream s [data] m)) <> More ->
  fst (sniff_stream s [data ++ more] m) = fst (sniff_stream s [data] m).
Proof.
  unfold own_sniffers. rewrite !elem_of_cons. intros [->|[->|[->|[->|H%elem_of_nil]]]]; [..|done]; cbn [sniff_stream].
  - apply stream_dns_stable.
  - apply bittorrent_stable.
  - apply ssh_stable.
  - rewrite !rdp_verdict. apply (rdp_stable data more).
Qed.

Lemma sniff_meta_irrelevant s chunks m m' : fst (sniff_stream s chunks m) = fst (sniff_stream s chunks m').
Proof.
  destruct s; cbn [sniff_stream];
    unfold sniff_TLSClientHello, sniff_HTTPHost, sniff_StreamDomainNameQuery, sniff_DomainNameQuery, sniff_BitTorrent, sniff_SSH, sniff_RDP.
  - by destruct (tls_Server _) as [[]].
  - by destruct (http_ReadRequest _).
  - destruct (ReadUint _ _) as [[]| | |]; [|done..]. repeat case_match; done.
  - repeat case_match; done.
  - repeat case_match; done.
  - repeat case_match; done.
Qed.
End Stable.

(** ** PeekStream over these sniffers *)

Section Peek.
Context {X : External} {SO : SocksaddrOps} {DL : DnsLib} {SL : SniffLib}.
Abbreviation Ctx := (@RouteContext X (list qCryptoFragment)).

Definition meta_of (rc : Ctx) : SniffMeta :=
  MkSniffMeta (md_Protocol (rc_md rc)) (md_Domain (rc_md rc)) (md_Client (rc_md rc)) (rc_SniffContext rc).
Definition with_meta (rc : Ctx) (m : SniffMeta) : Ctx :=
  rc {{ rc_md -> md_Protocol := sm_Protocol m; rc_md -> md_Domain := sm_Domain m; rc_md -> md_Client := sm_Client m;
        rc_SniffContext := sm_SniffContext m }}.

(** The router with the stream sniffers of this package. *)
Definition with_stream_sniffers (rt : @RouterDeps X (list qCryptoFragment)) : RouterDeps :=
  rt {{ rd_stream_sniffer := fun s rc data =>
          let (r, m) := sniff_stream s data (meta_of rc) in (with_meta rc m, r) }}.
Context (rt : @RouterDeps X (list qCryptoFragment)).

Lemma stream_sniffer_eq s rc data :
  rd_stream_sniffer (with_stream_sniffers rt) s rc [data] =
  (with_meta rc (snd (sniff_stream s [data] (meta_of rc))), fst (sniff_stream s [data] (meta_of rc))).
Proof. change (rd_stream_sniffer (with_stream_sniffers rt) s rc [data]) with
  (let (r, m) := sniff_stream s [data] (meta_of rc) in (with_meta rc m, r)). by destruct (sniff_stream _ _ _). Qed.

(** A sniffer of the list accepts the data. *)
Definition accepted (l : list StreamSniffer) (data : bytes) : Prop :=
  exists s m, s ∈ l /\ fst (sniff_stream s [data] m) = None.

Lemma run_sniffers_verdict l data errs rc :
  match snd (run_stream_sniffers (with_stream_sniffers rt) l [data] errs rc) with
  | None => accepted l data \/ (l = [] /\ errs = [])
  | Some es =>
      (forall s m, s ∈ l -> fst (sniff_stream s [data] m) <> None) /\
      (forall s m, s ∈ l -> verdict_of (fst (sniff_stream s [data] m)) = More -> needs_more (Some es) = true) /\
      (needs_more (Some errs) = true -> needs_more (Some es) = true)
  end.
Proof.
  revert errs rc. induction l as [|s l IH]; intros errs rc; cbn [run_stream_sniffers].
  { destruct errs; cbn [E_Errors snd]; [by right|]. split_and!; [by intros ? ? ?%elem_of_nil..|done]. }
  rewrite stream_sniffer_eq. destruct (sniff_stream s [data] (meta_of rc)) as [[e|] m] eqn:E; cbn [fst snd].
  2:{ left. exists s, (meta_of rc). split; [apply elem_of_cons; by left|]. by rewrite E. }
  assert (Es : forall m', fst (sniff_stream s [data] m') = Some e)
    by (intros m'; by rewrite (sniff_meta_irrelevant s _ m' (meta_of rc)), E).
  specialize (IH (errs ++ [e]) (with_meta rc m)). destruct (snd _) as [es|].
  - destruct IH as (Hn & Hm & Hk). split_and!.
    + intros s' m' [->|H]%elem_of_cons; [by rewrite Es|by apply Hn].
    + intros s' m' [->|H]%elem_of_cons; [|by apply Hm]. rewrite Es. cbn [verdict_of]. destruct (errors_Is e _) eqn:Ee; [|done].
      intros _. apply Hk. cbn [needs_more]. rewrite existsb_app. cbn [existsb]. rewrite Ee. cbn. by rewrite orb_true_r.
    + intros H. apply Hk. cbn [needs_more] in *. by rewrite existsb_app, H.
  - destruct IH as [(s' & m' & H & Ha)|[_ H]]; [|by destruct errs]. left. exists s', m'. split; [apply elem_of_cons; by right|done].
Qed.
Lemma accepted_longer l data more : Forall (fun s => s ∈ own_sniffers) l -> accepted l data -> accepted l (data ++ more).
Proof.
  intros Hl (s & m & Hs & Ha). exists s, m. split; [done|]. rewrite Forall_forall in Hl.
  rewrite own_sniffers_stable; [done|by apply Hl|by rewrite Ha].
Qed.
Lemma undecided_before l data more :
  Forall (fun s => s ∈ own_sniffers) l -> accepted l (data ++ more) -> ~ accepted l data ->
  exists s, s ∈ l /\ forall m, verdict_of (fst (sniff_stream s [data] m)) = More.
Proof.
  intros Hl (s & m & Hs & Ha) Hn. exists s. split; [done|]. intros m'. rewrite (sniff_meta_irrelevant s _ m' m).
  destruct (decide (verdict_of (fst (sniff_stream s [data] m)) = More)) as [|Hv]; [done|]. exfalso. apply Hn.
  exists s, m. split; [done|]. rewrite Forall_forall in Hl. rewrite <- Ha. symmetry. apply own_sniffers_stable; [by apply Hl|done].
Qed.

Lemma peek_accepts l pieces : Forall (fun s => s ∈ own_sniffers) l -> l <> [] ->
  forall first buffer sniffError rc, (pieces = [] -> first = false) -> (pieces <> [] \/ (sniffError <> None /\ ~ accepted l buffer)) ->
  (snd (PeekStream_loop (with_stream_sniffers rt) (ReadData <$> pieces) first [] buffer sniffError l rc) = None
   <-> accepted l (buffer ++ concat pieces)).
Proof.
  intros Hl Hne. induction pieces as [|b pieces IH]; intros first buffer sniffError rc Hf Hp.
  { cbn. rewrite app_nil_r, (Hf eq_refl). destruct Hp as [Hp|[Hp Hn]]; [done|]. tauto. }
  cbn [fmap list_fmap PeekStream_loop concat app].
  pose proof (run_sniffers_verdict l (buffer ++ b) [] rc) as Hv.
  destruct (run_stream_sniffers _ l [buffer ++ b] [] rc) as [rc' [es|]]; cbn [snd] in Hv.
  2:{ cbn [needs_more snd]. destruct Hv as [Ha|[? _]]; [|done]. rewrite (assoc_L (++)). split; [intros _|done]. by apply accepted_longer. }
  destruct Hv as (Hn & Hm & _). assert (Hna : ~ accepted l (buffer ++ b)) by (intros (s & m & H & Ha); by apply (Hn s m)).
  rewrite (assoc_L (++)). destruct (needs_more (Some es)) eqn:E.
  - destruct pieces as [|b' pieces]; [|apply IH; [done|by left]].
    cbn. rewrite app_nil_r. split; [done|tauto].
  - cbn [snd]. split; [done|]. intros Ha. exfalso.
    destruct (undecided_before l _ _ Hl Ha Hna) as (s & H & Hmo). specialize (Hm s (meta_of rc) H (Hmo _)). congruence.
Qed.

(** C31: Whether a stream is recognised does not depend on how it is cut: over any sequence of
    non-failing reads, [PeekStream] with any of the package's own stream sniffers ends with a
    nil error exactly when one of them accepts all the data at once. *)
Theorem sniff_any_fragmentation l pieces rc :
  Forall (fun s => s ∈ own_sniffers) l -> l <> [] -> pieces <> [] ->
  (snd (PeekStream_loop (with_stream_sniffers rt) (ReadData <$> pieces) true [] [] None l rc) = None
   <-> accepted l (concat pieces)).
Proof. intros Hl Hne Hp. apply (peek_accepts l pieces Hl Hne true [] None rc); [done|by left]. Qed.
End Peek.

(** ** uTP *)

Lemma utp_fuel fuel extension data : (length data <= fuel)%nat -> utp_extensions (S fuel) extension data <> Diverge.
Proof.
  revert extension data. induction fuel as [|fuel IH]; intros extension data H.
  { destruct data; [|cbn in H; lia]. cbn. by destruct (_ =? 0). }
  cbn [utp_extensions]. destruct (extension =? 0); [done|]. destruct data as [|e data]; [done|]. destruct (4 <? e); [done|].
  destruct data as [|l data]; [done|]. apply IH. cbn [length] in H. rewrite length_drop. lia.
Qed.
(** The loop over the extensions of a uTP packet ends on every packet, however the lengths
    are chosen, and never fails otherwise than with an error. *)
Theorem utp_terminates packet m : exists r, fst (sniff_UTP packet m) = Ok r.
Proof.
  unfold sniff_UTP. destruct packet as [|first [|extension rest]]; [by eexists..|]. destruct (_ <? 20); [by eexists|].
  destruct (_ || _); [by eexists|]. set (p := first :: extension :: rest).
  pose proof (utp_fuel (length p) extension (drop 20 p)) as H. rewrite length_drop in H.
  assert (Hp : forall fuel e d msg, utp_extensions fuel e d <> Panic msg).
  { induction fuel as [|fuel IH]; intros e d msg; cbn; destruct (e =? 0); try done. destruct d as [|e' d]; [done|].
    destruct (4 <? e'); [done|]. by destruct d. }
  destruct (utp_extensions _ _ _) eqn:E; [by eexists..|by apply Hp in E|exfalso; apply H; [lia|done]].
Qed.

(** ** Where sniffing goes wrong *)

(** A BitTorrent handshake of which a first buffer holds a part: [reader.Read] on the
    [MultiReader] stops at the end of that buffer, and more data never helps. *)
Theorem bittorrent_split_never_sniffed first more m :
  (2 <= length first < 20)%nat -> first = take (length first) (19 :: bittorrent_header) ->
  fst (sniff_BitTorrent [first; more] m) = Some ErrNeedMoreData.
Proof.
  intros Hl E. unfold sniff_BitTorrent. cbn [concat]. destruct first as [|b rest]; [cbn in Hl; lia|]. cbn [app length take] in *.
  injection E as -> E. cbn [negb]. change (19 =? 19) with true. cbn [negb].
  change (consume 1 [19 :: rest; more]) with (rest :: [more]). destruct rest as [|c rest]; [cbn in Hl; lia|].
  cbn [read_once default]. rewrite take_ge by lia. rewrite bool_decide_eq_true_2 by done. cbn [negb].
  unfold id. by destruct (Nat.ltb_spec (length (c :: rest)) 19); [|lia].
Qed.

Section Wrong.
Context {X : External} {DL : DnsLib}.
(** A DNS response is not sniffed as DNS, and yet without an error, so that no other sniffer
    sees the packet. *)
Theorem dns_response_ends_sniffing packet msg m :
  Msg_Unpack packet = Ok msg -> Response (Hdr msg) = true -> sniff_DomainNameQuery packet m = (None, m).
Proof. intros E H. unfold sniff_DomainNameQuery. by rewrite E, H. Qed.
End Wrong.

(** * Concrete runs of the sniffers

    A witness of the theorem on fragmentation, and runs on the payloads the package's tests
    use. *)

(** Parsers that recognise nothing. *)
#[export] Instance no_parsers : SniffLib := {|
  http_ReadRequest := fun _ => inl ErrInvalid;
  host_AddrString := fun host => host;
  tls_Server := fun _ => (None, ErrInvalid)
|}.

Definition no_meta : SniffMeta := MkSniffMeta "" "" "" None.
Definition sniffing_router : @RouterDeps _ (list qCryptoFragment) :=
  router_with (fun _ rc _ => (rc, Some ErrInvalid)) (fun _ rc _ => (rc, Some ErrInvalid)) [].

Definition ssh_pieces : list bytes := [bytes_of_string "SSH-"; bytes_of_string "2.0-Op"; bytes_of_string "enSSH_9"].

Lemma sniff_any_fragmentation_witness :
  snd (PeekStream_loop (with_stream_sniffers sniffing_router) (ReadData <$> ssh_pieces) true [] [] None [RDP; SSH] (ex_conn to_web)) = None.
Proof.
  apply (sniff_any_fragmentation sniffing_router [RDP; SSH] ssh_pieces (ex_conn to_web)).
  - apply Forall_cons_2; [|apply Forall_singleton]; unfold own_sniffers; set_solver.
  - done.
  - done.
  - exists SSH, no_meta. split; [set_solver|]. by vm_compute.
Defined.

(** The client of an SSH stream is cut where the first read ended. *)
Theorem ssh_client_truncated :
  let run pieces :=
    let '(rc, _, _, err) := PeekStream_loop (with_stream_sniffers sniffing_router) (ReadData <$> pieces) true [] [] None [SSH] (ex_conn to_web) in
    (md_Client (rc_md rc), err) in
  run ssh_pieces = ("Op"%string, None) /\ run [concat ssh_pieces] = ("OpenSSH_9"%string, None).
Proof. by vm_compute. Qed.

Lemma bittorrent_split_never_sniffed_witness :
  fst (sniff_BitTorrent [19 :: bytes_of_string "BitTorrent"; bytes_of_string " protocol"] no_meta) = Some ErrNeedMoreData.
Proof. apply bittorrent_split_never_sniffed; [cbn; lia|by vm_compute]. Defined.

(** The first bytes of the packets of bittorrent_test.go, stun_test.go, ntp_test.go and
    dtls_test.go. *)
Theorem packets_sniffed :
  sm_Protocol (snd (sniff_STUNMessage ([0;1;0;0; 0x21;0x12;0xa4;0x42] ++ replicate 12 7) no_meta)) = ProtocolSTUN /\
  sm_Protocol (snd (sniff_DTLSRecord ([0x16;0xfe;0xff] ++ replicate 10 0) no_meta)) = ProtocolDTLS /\
  sm_Protocol (snd (sniff_NTP (0x1b :: replicate 47 0) no_meta)) = ProtocolNTP /\
  sm_Protocol (snd (sniff_UDPTracker ([0;0;4;0x17;0x27;0x10;0x19;0x80] ++ replicate 8 0) no_meta)) = ProtocolBitTorrent /\
  sm_Protocol (snd (sniff_UTP ([0x01;0] ++ replicate 18 3) no_meta)) = ProtocolBitTorrent.
Proof. by vm_compute. Qed.
