(* ===== verification/Geosite.v ===== *)
(** * Geosite files

    common/geosite: the writer and the reader of geosite files, the rule a category is
    compiled into; cmd/sidera/cmd_geosite_export.go and cmd_geosite_matcher.go: the export
    of a category as a rule-set and the lookup of a domain. *)

From S2P Require Import Prelude GoStd Netip External RuleItems RuleOptions.
From Stdlib Require Import String.
From stdpp Require Import sorting.
From coqutil Require Import Datatypes.RecordSetters.
Import DoubleBraceUpdate.
Local Open Scope Z_scope.

Definition RuleTypeDomain : Z := 0.
Definition RuleTypeDomainSuffix : Z := 1.
Definition RuleTypeDomainKeyword : Z := 2.
Definition RuleTypeDomainRegex : Z := 3.

Record Item := MkItem { gi_Type : Z; gi_Value : string }.
#[export] Instance Item_eq_dec : EqDecision Item.
Proof. solve_decision. Defined.

(** ** writer.go: a writer is the text written; the buffers of the callers never fail *)

Section Geosite.
Context {X : External}.

Definition writeString (value : string) : bytes := WriteUvarint (str_len value) ++ bytes_of_string value.

Definition write_item (item : Item) : bytes := gi_Type item :: writeString (gi_Value item).

(** [sort.Strings]: by bytes. *)
Definition str_le (a b : string) : Prop := String.leb a b = true.
#[global] Instance str_le_dec : RelDecision str_le.
Proof. intros a b. unfold str_le. apply _. Defined.
Definition sorted_keys (domains : gmap string (list Item)) : list string :=
  merge_sort str_le (map_to_list domains).*1.

(** The loop that fills [content] and [index]. *)
Definition write_category (domains : gmap string (list Item)) (st : bytes * gmap string Z) (code : string) : bytes * gmap string Z :=
  let '(content, index) := st in
  (content ++ concat (write_item <$> default [] (domains !! code)), <[code := zlen content]> index).

Definition write_code (domains : gmap string (list Item)) (index : gmap string Z) (code : string) : bytes :=
  writeString code ++ WriteUvarint (default 0 (index !! code)) ++ WriteUvarint (zlen (default [] (domains !! code))).

Definition Write (domains : gmap string (list Item)) : bytes :=
  let keys := sorted_keys domains in
  let '(content, index) := fold_left (write_category domains) keys ([], ∅) in
  [0] ++ WriteUvarint (zlen keys) ++ concat (write_code domains index <$> keys) ++ content.

(** ** reader.go *)

Record Reader := MkReader {
  gr_reader : bytes;
  gr_metadataIndex : Z;
  gr_domainIndex : gmap string Z;
  gr_domainLength : gmap string Z
}.

(** The bytes of a string are read one by one: a short read is the error of the source. *)
Definition ReadBytes (n : Z) : reader bytes := fun st =>
  if n <=? zlen (avail st) then Ok (take (Z.to_nat n) (avail st), Stream (drop (Z.to_nat n) (avail st)) (fin st))
  else Err (fin st).
Definition readString : reader string := fun st =>
  let* (length, st) := ReadUvarint st in
  let* _ := make_slice length in
  let* (bytes, st) := ReadBytes length st in
  Ok (string_of_bytes bytes, st).

Definition read_code : reader (string * Z * Z) := fun st =>
  let* (code, st) := readString st in
  let* (codeIndex, st) := ReadUvarint st in
  let* (codeLength, st) := ReadUvarint st in
  Ok (code, int64 codeIndex, int64 codeLength, st).

Definition readMetadata (file : bytes) : outcome Reader :=
  let* (version, st) := ReadByte (Stream file EOF) in
  if negb (version =? 0) then Err (ENew "unknown version")
  else
    let* (entryLength, st) := ReadUvarint st in
    let* _ := make_slice entryLength in
    let* (entries, st) := read_n (S (length (avail st))) 0 entryLength (fun _ => read_code) st in
    Ok (MkReader file (zlen file - zlen (avail st))
          (fold_left (fun m e => <[e.1.1 := e.1.2]> m) entries ∅)
          (fold_left (fun m e => <[e.1.1 := e.2]> m) entries ∅)).

(** The codes come in the order of a Go map, which is not specified. *)
Definition NewReader (file : bytes) : outcome (Reader * list string) :=
  let* r := readMetadata file in
  Ok (r, (map_to_list (gr_domainIndex r)).*1).

Definition read_item : reader Item := fun st =>
  let* (typeByte, st) := ReadByte st in
  let* (value, st) := readString st in
  Ok (MkItem typeByte value, st).

(** [Seek] with [io.SeekStart] fails for a negative offset only; [make] panics for a negative
    length. *)
Definition Read (r : Reader) (code : string) : outcome (list Item) :=
  match gr_domainIndex r !! code with
  | None => Err (ENew ("code " +:+ code +:+ " not exists!"))
  | Some index =>
      let offset := int64 (gr_metadataIndex r + index) in
      if offset <? 0 then Err (EExternal "seek: negative position")
      else
        let st := Stream (drop (Z.to_nat offset) (gr_reader r)) EOF in
        let n := default 0 (gr_domainLength r !! code) in
        if n <? 0 then Panic "runtime error: makeslice: len out of range"
        else
          let* (itemList, _) := read_n (S (length (avail st))) 0 n (fun _ => read_item) st in
          Ok itemList
  end.

(** ** rule.go *)

(** The fields a category fills of [option.DefaultRule]; the others stay zero. *)
Record CodeRule := MkCodeRule {
  cr_Domain : slice string;
  cr_DomainSuffix : slice string;
  cr_DomainKeyword : slice string;
  cr_DomainRegex : slice string
}.
Definition zero_CodeRule : CodeRule := MkCodeRule None None None None.

(** [make([]string, 0, n)] when [n > 0], else nil. *)
Definition alloc (n : Z) : slice string := if 0 <? n then Some [] else None.
Definition count_type (t : Z) (code : list Item) : Z := zlen (List.filter (fun item => gi_Type item =? t) code).
Definition append_item (r : CodeRule) (item : Item) : CodeRule :=
  let t := gi_Type item in
  let add l := Some (elems l ++ [gi_Value item]) in
  if t =? RuleTypeDomain then r {{ cr_Domain := add (cr_Domain r) }}
  else if t =? RuleTypeDomainSuffix then r {{ cr_DomainSuffix := add (cr_DomainSuffix r) }}
  else if t =? RuleTypeDomainKeyword then r {{ cr_DomainKeyword := add (cr_DomainKeyword r) }}
  else if t =? RuleTypeDomainRegex then r {{ cr_DomainRegex := add (cr_DomainRegex r) }}
  else r.
Definition Compile (code : list Item) : CodeRule :=
  fold_left append_item code
    (MkCodeRule (alloc (count_type RuleTypeDomain code)) (alloc (count_type RuleTypeDomainSuffix code))
       (alloc (count_type RuleTypeDomainKeyword code)) (alloc (count_type RuleTypeDomainRegex code))).

Definition sum_len (field : CodeRule -> slice string) (rules : list CodeRule) : Z :=
  fold_left (fun n r => n + zlen (elems (field r))) rules 0.
(** [if len(sub) > 0 { list = append(list, sub...) }] *)
Definition append_all (l sub : slice string) : slice string :=
  if 0 <? zlen (elems sub) then Some (elems l ++ elems sub) else l.
Definition merge_rule (rule subRule : CodeRule) : CodeRule :=
  MkCodeRule (append_all (cr_Domain rule) (cr_Domain subRule)) (append_all (cr_DomainSuffix rule) (cr_DomainSuffix subRule))
    (append_all (cr_DomainKeyword rule) (cr_DomainKeyword subRule)) (append_all (cr_DomainRegex rule) (cr_DomainRegex subRule)).
Definition Merge (rules : list CodeRule) : CodeRule :=
  fold_left merge_rule rules
    (MkCodeRule (alloc (sum_len cr_Domain rules)) (alloc (sum_len cr_DomainSuffix rules))
       (alloc (sum_len cr_DomainKeyword rules)) (alloc (sum_len cr_DomainRegex rules))).

(** ** The command *)

Definition headless_of (r : CodeRule) : DefaultHeadlessRule :=
  (zero_headless false) {{ h_Domain := cr_Domain r; h_DomainSuffix := cr_DomainSuffix r;
                           h_DomainKeyword := cr_DomainKeyword r; h_DomainRegex := cr_DomainRegex r }}.
(** The rule-set that is encoded. *)
Definition geositeExport (r : Reader) (category : string) : outcome PlainRuleSetCompat :=
  let* sourceSet := Read r category in
  Ok (MkCompat 2 (MkPlainRuleSet (Some [default_headless (headless_of (Compile sourceSet))]))).

Record searchGeositeMatcher := MkMatcher {
  domainMap : gset string;
  suffixList : slice string;
  keywordList : slice string;
  regexList : slice string
}.
Definition newSearchGeositeMatcher (items : list Item) : searchGeositeMatcher :=
  let options := Compile items in
  MkMatcher (list_to_set (elems (cr_Domain options))) (cr_DomainSuffix options) (cr_DomainKeyword options) (cr_DomainRegex options).

Definition regex_matches (domain regexStr : string) : bool :=
  match regexp_Compile regexStr with Ok regex => MatchString regex domain | _ => false end.
Definition Match (r : searchGeositeMatcher) (domain : string) : string :=
  if bool_decide (domain ∈ domainMap r) then "domain=" +:+ domain
  else match List.find (fun suffix => HasSuffix domain suffix) (elems (suffixList r)) with
  | Some suffix => "domain_suffix=" +:+ suffix
  | None =>
      match List.find (fun keyword => StrContains domain keyword) (elems (keywordList r)) with
      | Some keyword => "domain_keyword=" +:+ keyword
      | None =>
          match List.find (regex_matches domain) (elems (regexList r)) with
          | Some regexStr => "domain_regex=" +:+ regexStr
          | None => ""
          end
      end
  end.

Definition code_le (a b : string * searchGeositeMatcher) : Prop := str_le a.1 b.1.
#[global] Instance code_le_dec : RelDecision code_le.
Proof. intros a b. unfold code_le. apply _. Defined.
(** The lookup of a domain in the given categories, sorted by code: the lines of the output. *)
Definition geositeLookup (r : Reader) (codes : list string) (target : string) : outcome (list (string * string)) :=
  let* matchers := omap_ix (fun _ code => let* items := Read r code in Ok (code, newSearchGeositeMatcher items)) codes in
  Ok (omap (fun '(code, m) => let line := Match m target in if bool_decide (line = "") then None else Some (code, line))
        (merge_sort code_le matchers)).
End Geosite.
