(* ===== verification/GeositeSpec.v ===== *)
(** * Geosite files read back, and the rules made of them

    [geosite_roundtrip]: what is written is read back, category by category.
    [exported_category_matches]: the rule-set exported from a category matches the
    connections its items describe.  [geosite_lookup_exact]: what the lookup reports. *)

From S2P Require Import Prelude GoStd Netip External Concrete DnsMsg RuleItems RuleMatch RuleSpec RuleOptions RuleBuild RuleBuildSpec Srs SrsSpec Geosite.
From stdpp Require Import sorting.
Local Open Scope Z_scope.

Section GeositeSpec.
Context {X : External} {XL : ExternalLaws X}.

(** ** The content *)

Definition category (domains : gmap string (list Item)) (code : string) : bytes :=
  concat (write_item <$> default [] (domains !! code)).

Lemma write_category_fold domains keys content index :
  (fold_left (write_category domains) keys (content, index)).1 = content ++ concat (category domains <$> keys) /\
  (forall code, code ∉ keys -> (fold_left (write_category domains) keys (content, index)).2 !! code = index !! code) /\
  (forall l1 code l2, keys = l1 ++ code :: l2 -> code ∉ l2 ->
     (fold_left (write_category domains) keys (content, index)).2 !! code
     = Some (zlen (content ++ concat (category domains <$> l1)))).
Proof.
  revert content index. induction keys as [|k keys IH]; intros content index; cbn [fold_left fmap list_fmap concat].
  { rewrite app_nil_r. split_and!; [done|done|]. intros [|] ? ? [=]. }
  cbn [write_category]. destruct (IH (content ++ category domains k) (<[k := zlen content]> index)) as (H1 & H2 & H3).
  unfold category in H1, H2, H3 |- * at 1. split_and!.
  - rewrite H1. by rewrite <- app_assoc.
  - intros code [Hne Hk]%not_elem_of_cons. rewrite H2 by done. by rewrite lookup_insert_ne.
  - intros [|k' l1] code l2 [= -> ->] Hl2.
    + rewrite H2 by done. cbn. by rewrite lookup_insert_eq, app_nil_r.
    + rewrite (H3 l1 code l2 eq_refl Hl2). cbn [fmap list_fmap concat]. by rewrite <- app_assoc.
Qed.

(** ** Keys *)

Lemma sorted_keys_perm domains : sorted_keys domains ≡ₚ (map_to_list domains).*1.
Proof. apply merge_sort_Permutation. Qed.
Lemma sorted_keys_NoDup domains : NoDup (sorted_keys domains).
Proof. rewrite sorted_keys_perm. apply NoDup_fst_map_to_list. Qed.
Lemma sorted_keys_elem domains code : code ∈ sorted_keys domains <-> is_Some (domains !! code).
Proof.
  rewrite sorted_keys_perm, list_elem_of_fmap. split.
  - intros ([k v] & -> & H%elem_of_map_to_list). eauto.
  - intros [v H]. exists (code, v). by rewrite elem_of_map_to_list.
Qed.

(** ** Sizes *)

Lemma zlen_concat_elem (l : bytes) ls : l ∈ ls -> zlen l <= zlen (concat ls).
Proof.
  induction ls as [|l' ls IH]; [by intros ?%elem_of_nil|]. cbn [concat]. rewrite zlen_app, elem_of_cons.
  pose proof (zlen_nonneg l'). pose proof (zlen_nonneg (concat ls)). intros [->|Hl]; [lia|]. specialize (IH Hl). lia.
Qed.
Lemma zlen_concat_count {A} (enc : A -> bytes) l : (forall x, x ∈ l -> enc x <> []) -> zlen l <= zlen (concat (enc <$> l)).
Proof.
  induction l as [|x l IH]; intros H; cbn [fmap list_fmap concat]; [done|]. rewrite zlen_app, zlen_cons.
  assert (1 <= zlen (enc x)) by (specialize (H x ltac:(by left)); destruct (enc x); [done|rewrite zlen_cons; pose proof (zlen_nonneg l0); lia]).
  specialize (IH ltac:(intros y ?; apply H; by right)). lia.
Qed.
Lemma zlen_writeString s : str_len s <= zlen (writeString s).
Proof. unfold writeString. rewrite zlen_app, length_bytes_of_string. pose proof (zlen_nonneg (WriteUvarint (str_len s))). lia. Qed.

(** ** Strings and items *)

Lemma readString_written s rest e : str_ok s -> readString (Stream (writeString s ++ rest) e) = Ok (s, Stream rest e).
Proof.
  intros H. apply str_len_ok in H as H'. unfold readString, writeString. rewrite <- app_assoc, read_uvarint_put by done.
  cbn [obind]. rewrite make_slice_ok by apply H'. cbn [obind]. unfold ReadBytes. cbn [avail fin].
  pose proof (length_bytes_of_string s) as Hl. pose proof (zlen_nonneg rest).
  rewrite zlen_app, (proj2 (Z.leb_le _ _)) by lia. rewrite <- Hl. unfold zlen. rewrite Nat2Z.id, take_app_length, drop_app_length.
  cbn [obind]. by rewrite string_of_bytes_of_string.
Qed.
Lemma read_item_written item rest e :
  str_ok (gi_Value item) -> read_item (Stream (write_item item ++ rest) e) = Ok (item, Stream rest e).
Proof.
  intros H. unfold read_item, write_item. cbn [app]. rewrite ReadByte_cons. cbn [obind].
  rewrite readString_written by done. by destruct item.
Qed.
Lemma write_item_nonempty item : write_item item <> [].
Proof. done. Qed.

(** ** Round trip *)

Lemma fold_insert_lookup {B} (f : string -> B) (g : string * Z * Z -> B) (dec : string -> string * Z * Z) keys (m : gmap string B) code :
  (forall k, (dec k).1.1 = k) -> (forall k, g (dec k) = f k) ->
  fold_left (fun m e => <[e.1.1 := g e]> m) (dec <$> keys) m !! code = if bool_decide (code ∈ keys) then Some (f code) else m !! code.
Proof.
  intros Hk Hg. revert m. induction keys as [|k keys IH]; intros m; cbn [fmap list_fmap fold_left].
  { case_bool_decide as H; [by apply elem_of_nil in H|done]. }
  rewrite IH, Hk, Hg. repeat case_bool_decide; try done; [set_solver| |by rewrite lookup_insert_ne by set_solver].
  destruct (decide (code = k)) as [->|]; [by rewrite lookup_insert_eq|set_solver].
Qed.

Section File.
Context (domains : gmap string (list Item)).
Let keys := sorted_keys domains.
Let content := concat (category domains <$> keys).
Let index := (fold_left (write_category domains) keys ([], ∅)).2.
Let entries := concat (write_code domains index <$> keys).
Hypothesis Hsize : zlen (Write domains) < 2 ^ 63.

Lemma Write_eq : Write domains = ([0] ++ WriteUvarint (zlen keys) ++ entries) ++ content.
Proof using All.
  unfold Write. fold keys. pose proof (write_category_fold domains keys [] ∅) as (H & _). fold index in H.
  unfold entries, index. destruct (fold_left _ keys ([], ∅)) as [c i]. cbn [fst snd] in *. rewrite H.
  cbn [app]. rewrite <- !app_assoc. done.
Qed.
Lemma sizes : zlen entries < 2 ^ 63 /\ zlen content < 2 ^ 63.
Proof using All.
  pose proof Hsize as H. rewrite Write_eq, !zlen_app in H. pose proof (zlen_nonneg entries). pose proof (zlen_nonneg content).
  pose proof (zlen_nonneg (WriteUvarint (zlen keys))). pose proof (zlen_nonneg [0]). lia.
Qed.

Lemma index_at l1 code l2 : keys = l1 ++ code :: l2 -> index !! code = Some (zlen (concat (category domains <$> l1))).
Proof using All.
  intros E. pose proof (write_category_fold domains keys [] ∅) as (_ & _ & H). fold index in H.
  rewrite (H l1 code l2 E); [done|]. pose proof (sorted_keys_NoDup domains) as Hd. fold keys in Hd. rewrite E in Hd.
  apply NoDup_app in Hd as (_ & _ & Hd). by apply NoDup_cons in Hd as [? _].
Qed.
Lemma content_at l1 code l2 :
  keys = l1 ++ code :: l2 ->
  content = concat (category domains <$> l1) ++ category domains code ++ concat (category domains <$> l2).
Proof using All. intros E. unfold content. rewrite E, fmap_app, concat_app. done. Qed.

Lemma code_sizes code :
  code ∈ keys ->
  str_ok code /\ len_ok (default 0 (index !! code)) /\ len_ok (zlen (default [] (domains !! code))) /\
  Forall (fun item => str_ok (gi_Value item)) (default [] (domains !! code)).
Proof using All.
  intros Hk. destruct sizes as [He Hc]. apply list_elem_of_split in Hk as (l1 & l2 & E).
  pose proof (content_at l1 code l2 E) as Ec. rewrite Ec, !zlen_app in Hc.
  pose proof (zlen_nonneg (concat (category domains <$> l1))). pose proof (zlen_nonneg (concat (category domains <$> l2))).
  pose proof (zlen_nonneg (category domains code)). split_and!.
  - assert (Hw : zlen (write_code domains index code) <= zlen entries)
      by (apply zlen_concat_elem, list_elem_of_fmap_2; rewrite E; set_solver).
    unfold write_code in Hw. rewrite !zlen_app in Hw. pose proof (zlen_writeString code).
    pose proof (zlen_nonneg (WriteUvarint (default 0 (index !! code)))).
    pose proof (zlen_nonneg (WriteUvarint (zlen (default [] (domains !! code))))). unfold str_ok. lia.
  - rewrite (index_at l1 code l2 E). cbn. unfold len_ok. lia.
  - apply zlen_len_ok. pose proof (zlen_concat_count write_item (default [] (domains !! code)) ltac:(done)). unfold category in *. lia.
  - apply Forall_forall. intros item Hi. assert (Hw : zlen (write_item item) <= zlen (category domains code))
      by (apply zlen_concat_elem, list_elem_of_fmap_2; done).
    unfold write_item in Hw. rewrite zlen_cons in Hw. pose proof (zlen_writeString (gi_Value item)). unfold str_ok. lia.
Qed.

Definition entry_of (code : string) : string * Z * Z :=
  (code, default 0 (index !! code), zlen (default [] (domains !! code))).

Lemma read_code_written code rest e :
  code ∈ keys -> read_code (Stream (write_code domains index code ++ rest) e) = Ok (entry_of code, Stream rest e).
Proof using All.
  intros Hk. destruct (code_sizes code Hk) as (Hs & Hi & Hn & _). unfold read_code, write_code.
  rewrite <- !app_assoc, readString_written by done. cbn [obind]. rewrite read_uvarint_put by done. cbn [obind].
  rewrite read_uvarint_put by done. cbn [obind]. by rewrite !int64_small by done.
Qed.
Lemma write_code_nonempty code : code ∈ keys -> write_code domains index code <> [].
Proof using All.
  intros Hk. destruct (code_sizes code Hk) as (Hs & _). unfold write_code, writeString. rewrite <- app_assoc.
  by apply uvarint_app_nonempty, str_len_ok.
Qed.

Definition written_reader : Reader :=
  MkReader (Write domains) (zlen (Write domains) - zlen content)
    (fold_left (fun m e => <[e.1.1 := e.1.2]> m) (entry_of <$> keys) ∅)
    (fold_left (fun m e => <[e.1.1 := e.2]> m) (entry_of <$> keys) ∅).

Lemma readMetadata_written : readMetadata (Write domains) = Ok written_reader.
Proof using All.
  destruct sizes as [He _]. pose proof (zlen_concat_count (write_code domains index) keys write_code_nonempty) as Hn. fold entries in Hn.
  unfold readMetadata, written_reader.
  assert (Stream (Write domains) EOF = Stream (0 :: WriteUvarint (zlen keys) ++ entries ++ content) EOF) as ->
    by (rewrite Write_eq, <- !app_assoc; done).
  rewrite ReadByte_cons. cbn [obind]. change (0 =? 0) with true. cbn [negb].
  rewrite read_uvarint_put by (apply zlen_len_ok; lia). cbn [obind]. rewrite make_slice_ok by lia. cbn [obind avail].
  unfold entries. rewrite (read_n_encoded (write_code domains index) entry_of); [|lia| |].
  - cbn [obind avail]. done.
  - rewrite length_app. fold entries. unfold zlen in Hn. lia.
  - intros code j r Hk. by apply read_code_written.
Qed.

Lemma Read_written code items : domains !! code = Some items -> Read written_reader code = Ok items.
Proof using All.
  intros E. assert (Hk : code ∈ keys) by (apply sorted_keys_elem; eauto).
  destruct (code_sizes code Hk) as (_ & Hi & Hn & Hv). unfold Read, written_reader. cbn [gr_domainIndex gr_domainLength gr_metadataIndex gr_reader].
  rewrite (fold_insert_lookup (fun c => default 0 (index !! c)) (fun e => e.1.2)) by done.
  rewrite (fold_insert_lookup (fun c => zlen (default [] (domains !! c))) (fun e => e.2)) by done.
  rewrite !bool_decide_eq_true_2 by done. cbn [default from_option id].
  apply list_elem_of_split in Hk as (l1 & l2 & El). rewrite (index_at l1 code l2 El) in *. cbn [default from_option id] in *.
  pose proof (content_at l1 code l2 El) as Ec.
  set (pre := concat (category domains <$> l1)) in *. set (post := concat (category domains <$> l2)) in *.
  pose proof Write_eq as EW. set (head := [0] ++ WriteUvarint (zlen keys) ++ entries) in *.
  assert (E1 : zlen (Write domains) = zlen head + zlen content) by (by rewrite EW, zlen_app).
  assert (E2 : zlen content = zlen pre + (zlen (category domains code) + zlen post)) by (by rewrite Ec, !zlen_app).
  pose proof Hsize. pose proof (zlen_nonneg head). pose proof (zlen_nonneg pre). pose proof (zlen_nonneg post).
  pose proof (zlen_nonneg (category domains code)). rewrite int64_small by lia. rewrite (proj2 (Z.ltb_ge _ _)) by lia.
  rewrite E in *. cbn [default from_option id] in *. rewrite (proj2 (Z.ltb_ge _ _)) by apply zlen_nonneg. cbn [avail].
  assert (drop (Z.to_nat (zlen (Write domains) - zlen content + zlen pre)) (Write domains) = category domains code ++ post) as ->.
  { rewrite E1. replace (zlen head + _ - _ + zlen pre) with (Z.of_nat (length (head ++ pre))) by (rewrite length_app; unfold zlen; lia).
    rewrite EW, Ec, Nat2Z.id, (assoc_L (++) head pre). apply drop_app_length. }
  unfold category. rewrite E. cbn [default from_option id].
  rewrite (read_n_encoded write_item id); [cbn [obind]; by rewrite list_fmap_id|lia| |].
  - pose proof (zlen_concat_count write_item items ltac:(done)). rewrite length_app. unfold zlen in *. lia.
  - intros item j r Hitem. apply read_item_written. rewrite Forall_forall in Hv. by apply Hv.
Qed.
End File.

(** C30: A geosite file that is written is read back: the reader lists exactly the categories
    that were written, reading a category gives its items in their order, and reading
    another one fails. *)
Theorem geosite_roundtrip domains :
  zlen (Write domains) < 2 ^ 63 ->
  exists r codes, NewReader (Write domains) = Ok (r, codes) /\
    NoDup codes /\ (forall code, code ∈ codes <-> is_Some (domains !! code)) /\
    forall code, Read r code = match domains !! code with
                               | Some items => Ok items
                               | None => Err (ENew ("code " +:+ code +:+ " not exists!"))
                               end.
Proof using XL.
  intros Hs. exists (written_reader domains), (map_to_list (gr_domainIndex (written_reader domains))).*1.
  assert (Hl : forall code, gr_domainIndex (written_reader domains) !! code
    = if bool_decide (code ∈ sorted_keys domains) then Some (entry_of domains code).1.2 else None).
  { intros code. cbn [gr_domainIndex written_reader].
    by rewrite (fold_insert_lookup (fun c => (entry_of domains c).1.2) (fun e => e.1.2)). }
  split_and!.
  - unfold NewReader. by rewrite readMetadata_written.
  - apply NoDup_fst_map_to_list.
  - intros code. rewrite <- sorted_keys_elem, list_elem_of_fmap. split.
    + intros ([k v] & -> & H%elem_of_map_to_list). rewrite Hl in H. by case_bool_decide.
    + intros H. exists (code, (entry_of domains code).1.2). split; [done|]. by rewrite elem_of_map_to_list, Hl, bool_decide_eq_true_2.
  - intros code. destruct (domains !! code) as [items|] eqn:E; [by apply Read_written|].
    unfold Read. rewrite Hl, bool_decide_eq_false_2; [done|]. rewrite sorted_keys_elem, E. by intros [? ?].
Qed.

(** ** Rules *)

(** The values of the items of a type. *)
Definition values (t : Z) (items : list Item) : list string := gi_Value <$> List.filter (fun item => gi_Type item =? t) items.
Definition slice_of_list (l : list string) : slice string := match l with [] => None | _ => Some l end.

Definition add_values (s : slice string) (l : list string) : slice string := match l with [] => s | _ => Some (elems s ++ l) end.
Lemma add_values_step (c : bool) s v l : add_values (if c then Some (elems s ++ [v]) else s) l = add_values s (if c then v :: l else l).
Proof. destruct c, l; cbn; rewrite <- ?app_assoc; done. Qed.
Lemma values_cons t item items :
  values t (item :: items) = if gi_Type item =? t then gi_Value item :: values t items else values t items.
Proof. unfold values. cbn [List.filter]. by destruct (_ =? t). Qed.
Lemma append_item_eq a b c d item :
  let add (t : Z) (s : slice string) := if gi_Type item =? t then Some (elems s ++ [gi_Value item]) else s in
  append_item (MkCodeRule a b c d) item =
  MkCodeRule (add RuleTypeDomain a) (add RuleTypeDomainSuffix b) (add RuleTypeDomainKeyword c) (add RuleTypeDomainRegex d).
Proof.
  cbn zeta. unfold append_item, RuleTypeDomain, RuleTypeDomainSuffix, RuleTypeDomainKeyword, RuleTypeDomainRegex.
  destruct (Z.eqb_spec (gi_Type item) 0) as [E|]; [by rewrite E|]. destruct (Z.eqb_spec (gi_Type item) 1) as [E|]; [by rewrite E|].
  destruct (Z.eqb_spec (gi_Type item) 2) as [E|]; [by rewrite E|]. by destruct (Z.eqb_spec (gi_Type item) 3) as [E|].
Qed.
Lemma append_items_eq items a b c d :
  fold_left append_item items (MkCodeRule a b c d) =
  MkCodeRule (add_values a (values RuleTypeDomain items)) (add_values b (values RuleTypeDomainSuffix items))
    (add_values c (values RuleTypeDomainKeyword items)) (add_values d (values RuleTypeDomainRegex items)).
Proof.
  revert a b c d. induction items as [|item items IH]; intros a b c d; [done|]. cbn [fold_left].
  by rewrite append_item_eq, IH, !values_cons, !add_values_step.
Qed.
Lemma alloc_values t items : add_values (alloc (count_type t items)) (values t items) = slice_of_list (values t items).
Proof. unfold alloc, count_type, values. by destruct (List.filter _ items). Qed.
Lemma Compile_eq items :
  Compile items = MkCodeRule (slice_of_list (values RuleTypeDomain items)) (slice_of_list (values RuleTypeDomainSuffix items))
    (slice_of_list (values RuleTypeDomainKeyword items)) (slice_of_list (values RuleTypeDomainRegex items)).
Proof. unfold Compile. by rewrite append_items_eq, !alloc_values. Qed.
Lemma elems_slice_of l : elems (slice_of_list l) = l.
Proof. by destruct l. Qed.

(** What a category says of a connection: the domain matcher of its domains and suffixes, its
    keywords, its regular expressions. *)
Definition nonempty_list (l : list string) : bool := match l with [] => false | _ => true end.
Definition category_matches (items : list Item) (md : InboundContext) : bool :=
  (nonempty_list (values RuleTypeDomain items ++ values RuleTypeDomainSuffix items)
     && match_host md (Matcher_Match (NewMatcher (values RuleTypeDomain items) (values RuleTypeDomainSuffix items) false)))
  || match_host md (fun h => existsb (StrContains h) (values RuleTypeDomainKeyword items))
  || match_host md (regex_holds (values RuleTypeDomainRegex items)).
Definition known_items (items : list Item) : bool := existsb (fun item => (0 <=? gi_Type item) && (gi_Type item <=? 3)) items.

Lemma known_items_values items :
  known_items items = nonempty_list (values RuleTypeDomain items ++ values RuleTypeDomainSuffix items)
    || nonempty_list (values RuleTypeDomainKeyword items) || nonempty_list (values RuleTypeDomainRegex items).
Proof.
  unfold RuleTypeDomain, RuleTypeDomainSuffix, RuleTypeDomainKeyword, RuleTypeDomainRegex.
  induction items as [|item items IH]; [done|]. cbn [known_items existsb]. fold (known_items items). rewrite IH, !values_cons.
  destruct (Z.eqb_spec (gi_Type item) 0) as [->|]; [done|].
  destruct (Z.eqb_spec (gi_Type item) 1) as [->|]; [by destruct (values 0 items)|].
  destruct (Z.eqb_spec (gi_Type item) 2) as [->|]; [cbn; by rewrite orb_true_r|].
  destruct (Z.eqb_spec (gi_Type item) 3) as [->|]; [cbn; by rewrite !orb_true_r|].
  assert ((0 <=? gi_Type item) && (gi_Type item <=? 3) = false) as -> by (apply andb_false_iff; lia). done.
Qed.

Lemma given_slice_of l : given (slice_of_list l) = nonempty_list l.
Proof. by destruct l. Qed.
Lemma nonempty_list_app l l' : nonempty_list (l ++ l') = nonempty_list l || nonempty_list l'.
Proof. by destruct l. Qed.
Lemma match_host_false md : match_host md (fun _ => false) = false.
Proof. unfold match_host. by case_bool_decide. Qed.

(** The conditions of a rule that has domain fields only. *)
Lemma domain_conditions w md nm o g1 h1 g2 h2 g3 h3 rest1 rest2 :
  headless_conditions w md nm o = rest1 ++ [MkCond GDestinationAddress g1 h1; MkCond GDestinationAddress g2 h2; MkCond GDestinationAddress g3 h3] ++ rest2 ->
  Forall (fun c => cond_given c = false) rest1 -> Forall (fun c => cond_given c = false) rest2 ->
  existsb cond_given (headless_conditions w md nm o) = g1 || g2 || g3 /\
  (g1 || g2 || g3 = true ->
   conditions_match md (headless_conditions w md nm o) = (g1 && h1) || (g2 && h2) || (g3 && h3)).
Proof.
  intros -> H1 H2.
  assert (Hno : forall (f : condition -> bool) l, Forall (fun c => cond_given c = false) l -> (forall c, cond_given c = false -> f c = false) -> existsb f l = false).
  { intros f l Hl Hf. induction Hl as [|c l Hc _ IH]; [done|]. cbn. by rewrite (Hf c Hc), IH. }
  assert (Hall : forall (f : condition -> bool) l, Forall (fun c => cond_given c = false) l -> (forall c, cond_given c = false -> f c = true) -> forallb f l = true).
  { intros f l Hl Hf. induction Hl as [|c l Hc _ IH]; [done|]. cbn. by rewrite (Hf c Hc), IH. }
  split.
  - rewrite !existsb_app, (Hno _ rest1), (Hno _ rest2) by done. cbn. by rewrite !orb_false_r, orb_assoc.
  - intros Hg. unfold conditions_match, alternatives, any_given, any_holds.
    rewrite forallb_app, forallb_app, (Hall _ rest1), (Hall _ rest2); [|done|by intros c ->|done|by intros c ->].
    rewrite !existsb_app. rewrite !(Hno _ rest1), !(Hno _ rest2); try done; try (by intros c ->).
    destruct (md_IPCIDRMatchSource md), g1, g2, g3; try done; destruct h1, h2, h3; done.
Qed.

Lemma exported_rule_matches w md nm items r :
  NewDefaultHeadlessRule nm (headless_of (Compile items)) = Ok r -> md_IgnoreDestinationIPCIDRMatch md = false ->
  (abstractDefault_Match w r md).1 = if known_items items then category_matches items md else true.
Proof using XL.
  unfold NewDefaultHeadlessRule. intros H Hi. inv_ok.
  erewrite (built_rule_semantics Ok w md); [|apply headless_steps_describe|eassumption|apply start_items_Ok|done].
  rewrite Compile_eq, known_items_values. unfold category_matches.
  set (l0 := values RuleTypeDomain items). set (l1 := values RuleTypeDomainSuffix items).
  set (l2 := values RuleTypeDomainKeyword items). set (l3 := values RuleTypeDomainRegex items).
  destruct (domain_conditions w md nm (headless_of (MkCodeRule (slice_of_list l0) (slice_of_list l1) (slice_of_list l2) (slice_of_list l3)))
    (given (slice_of_list l0) || given (slice_of_list l1) || false)
    (match_host md (Matcher_Match (if given (slice_of_list l0) || given (slice_of_list l1)
        then NewMatcher (elems (slice_of_list l0)) (elems (slice_of_list l1)) false else NewMatcher [] [] false)))
    (given (slice_of_list l2)) (match_host md (fun h => existsb (StrContains h) (elems (slice_of_list l2))))
    (given (slice_of_list l3)) (match_host md (regex_holds (elems (slice_of_list l3))))
    (take 2 (headless_conditions w md nm (zero_headless false))) (drop 5 (headless_conditions w md nm (zero_headless false))))
    as [E1 E2].
  { by destruct nm. }
  { by repeat constructor. }
  { destruct nm; by repeat constructor. }
  rewrite E1, !elems_slice_of in *. rewrite !given_slice_of in *. rewrite nonempty_list_app.
  assert (Hk : nonempty_list l2 && match_host md (fun h => existsb (StrContains h) l2) = match_host md (fun h => existsb (StrContains h) l2))
    by (destruct l2; [by rewrite match_host_false|done]).
  assert (Hr : nonempty_list l3 && match_host md (regex_holds l3) = match_host md (regex_holds l3))
    by (destruct l3; [by rewrite match_host_false|done]).
  rewrite Hk, Hr, orb_false_r in E2. rewrite orb_false_r. destruct (nonempty_list l0 || nonempty_list l1 || nonempty_list l2 || nonempty_list l3) eqn:Eg; [|done].
  rewrite E2 by done. by destruct (nonempty_list l0 || nonempty_list l1).
Qed.

(** From a geosite file to matching: the rule-set exported from a category of a written file
    has one headless rule, and the rule built from it matches a connection exactly when the
    domain matcher, a keyword or a regular expression of the category's items does; a category
    without items of the four types gives a rule without conditions. *)
Theorem exported_category_matches domains category items :
  zlen (Write domains) < 2 ^ 63 -> domains !! category = Some items ->
  exists r codes o, NewReader (Write domains) = Ok (r, codes) /\
    geositeExport r category = Ok (MkCompat 2 (MkPlainRuleSet (Some [default_headless o]))) /\
    forall w md nm rule, NewDefaultHeadlessRule nm o = Ok rule -> md_IgnoreDestinationIPCIDRMatch md = false ->
      (abstractDefault_Match w rule md).1 = if known_items items then category_matches items md else true.
Proof using XL.
  intros Hs E. eexists _, _, (headless_of (Compile items)). split_and!.
  - unfold NewReader. by rewrite readMetadata_written.
  - unfold geositeExport. by rewrite (Read_written domains Hs category items E).
  - intros w md nm rule. apply exported_rule_matches.
Qed.

(** ** The lookup *)

Definition item_found (domain : string) (item : Item) : bool :=
  if gi_Type item =? RuleTypeDomain then bool_decide (domain = gi_Value item)
  else if gi_Type item =? RuleTypeDomainSuffix then HasSuffix domain (gi_Value item)
  else if gi_Type item =? RuleTypeDomainKeyword then StrContains domain (gi_Value item)
  else (gi_Type item =? RuleTypeDomainRegex) && regex_matches domain (gi_Value item).

Lemma elem_values t v items : v ∈ values t items <-> exists item, item ∈ items /\ gi_Type item = t /\ gi_Value item = v.
Proof.
  unfold values. rewrite list_elem_of_fmap. split.
  - intros (item & -> & H%list_elem_of_In). apply filter_In in H as [H Ht%Z.eqb_eq]. exists item. by rewrite list_elem_of_In.
  - intros (item & H & Ht & <-). exists item. split; [done|]. apply list_elem_of_In, filter_In. rewrite <- list_elem_of_In. split; [done|].
    by apply Z.eqb_eq.
Qed.
Lemma find_none_iff {A} (f : A -> bool) l : List.find f l = None <-> forall x, x ∈ l -> f x = false.
Proof.
  split.
  - intros H x Hx%list_elem_of_In. by apply (find_none f l H).
  - intros H. induction l as [|x l IH]; [done|]. cbn. rewrite H by (by left). apply IH. intros y Hy. apply H. by right.
Qed.

(** The lookup of a domain in a category reports something exactly when an item of the
    category is the domain, a suffix or a part of it, or a regular expression that
    compiles and matches it. *)
Theorem geosite_lookup_exact items domain :
  Match (newSearchGeositeMatcher items) domain <> ""%string <-> existsb (item_found domain) items = true.
Proof.
  rewrite existsb_exists. unfold newSearchGeositeMatcher. rewrite Compile_eq. unfold Match.
  cbn [domainMap suffixList keywordList regexList cr_Domain cr_DomainSuffix cr_DomainKeyword cr_DomainRegex].
  rewrite !elems_slice_of. unfold item_found, RuleTypeDomain, RuleTypeDomainSuffix, RuleTypeDomainKeyword, RuleTypeDomainRegex.
  assert (Hin : forall item, In item items <-> item ∈ items) by (intros item; by rewrite list_elem_of_In).
  case_bool_decide as Hd.
  { split; [intros _|done]. rewrite elem_of_list_to_set, elem_values in Hd. destruct Hd as (item & Hi & Ht & Hv).
    exists item. rewrite Hin. split; [done|]. rewrite Ht. cbn. by rewrite bool_decide_eq_true_2. }
  destruct (List.find _ (values 1 items)) as [v|] eqn:E1.
  { split; [intros _|done]. apply find_some in E1 as [Hv Hs]. rewrite <- list_elem_of_In, elem_values in Hv.
    destruct Hv as (item & Hi & Ht & <-). exists item. rewrite Hin. split; [done|]. by rewrite Ht. }
  destruct (List.find _ (values 2 items)) as [v|] eqn:E2.
  { split; [intros _|done]. apply find_some in E2 as [Hv Hs]. rewrite <- list_elem_of_In, elem_values in Hv.
    destruct Hv as (item & Hi & Ht & <-). exists item. rewrite Hin. split; [done|]. by rewrite Ht. }
  destruct (List.find _ (values 3 items)) as [v|] eqn:E3.
  { split; [intros _|done]. apply find_some in E3 as [Hv Hs]. rewrite <- list_elem_of_In, elem_values in Hv.
    destruct Hv as (item & Hi & Ht & <-). exists item. rewrite Hin. split; [done|]. by rewrite Ht. }
  split; [done|]. intros (item & Hi%Hin & Hf). exfalso. rewrite find_none_iff in E1, E2, E3.
  destruct (Z.eqb_spec (gi_Type item) 0) as [Ht|].
  { apply bool_decide_eq_true in Hf as ->. apply Hd. rewrite elem_of_list_to_set, elem_values. eauto. }
  destruct (Z.eqb_spec (gi_Type item) 1) as [Ht|]; [rewrite (E1 (gi_Value item)) in Hf by (apply elem_values; eauto); done|].
  destruct (Z.eqb_spec (gi_Type item) 2) as [Ht|]; [rewrite (E2 (gi_Value item)) in Hf by (apply elem_values; eauto); done|].
  apply andb_true_iff in Hf as [Ht%Z.eqb_eq Hf]. rewrite (E3 (gi_Value item)) in Hf by (apply elem_values; eauto). done.
Qed.
End GeositeSpec.

(** ** Concrete files *)

Definition geosite_file : gmap string (list Item) :=
  <["cn"%string := [MkItem 0 "baidu.com"; MkItem 1 ".cn"]]> (<["ads"%string := [MkItem 2 "doubleclick"]]> ∅).

Lemma geosite_roundtrip_witness :
  exists r codes, NewReader (Write geosite_file) = Ok (r, codes) /\ Read r "cn" = Ok [MkItem 0 "baidu.com"; MkItem 1 ".cn"].
Proof.
  destruct (geosite_roundtrip geosite_file) as (r & codes & E & _ & _ & H); [by vm_compute|].
  exists r, codes. split; [done|]. by rewrite H.
Defined.

Lemma exported_category_matches_witness :
  exists r codes o, NewReader (Write geosite_file) = Ok (r, codes) /\
    geositeExport r "ads" = Ok (MkCompat 2 (MkPlainRuleSet (Some [default_headless o]))).
Proof.
  destruct (exported_category_matches geosite_file "ads" [MkItem 2 "doubleclick"]) as (r & codes & o & H1 & H2 & _);
    [by vm_compute|done|]. eauto.
Defined.
