(* ===== verification/Version.v ===== *)
(** * Versions

    common/badversion/version.go: versions, their order, printing and parsing; and what
    common/ktls/ktls_linux.go concludes from the version of the kernel. *)

From S2P Require Import Prelude GoStd.
From Stdlib Require Import Ascii.
From coqutil Require Import Datatypes.RecordSetters.
Import DoubleBraceUpdate.
Local Open Scope Z_scope.

Record Version := MkVersion {
  Major : Z;
  Minor : Z;
  Patch : Z;
  Commit : string;
  PreReleaseIdentifier : string;
  PreReleaseVersion : Z
}.
#[export] Instance Version_eq_dec : EqDecision Version.
Proof. solve_decision. Defined.
Definition zero_Version : Version := MkVersion 0 0 0 "" "" 0.

(** ** Order *)

Definition parsePreReleaseIdentifier (identifier : string) : Z :=
  if HasPrefix identifier "rc" then 1
  else if HasPrefix identifier "beta" then 2
  else if HasPrefix identifier "alpha" then 3
  else 0.

Definition GreaterThan (v anotherVersion : Version) : bool :=
  if Major anotherVersion <? Major v then true
  else if Major v <? Major anotherVersion then false
  else if Minor anotherVersion <? Minor v then true
  else if Minor v <? Minor anotherVersion then false
  else if Patch anotherVersion <? Patch v then true
  else if Patch v <? Patch anotherVersion then false
  else
    let none v := bool_decide (PreReleaseIdentifier v = "") in
    if none v && negb (none anotherVersion) then true
    else if negb (none v) && none anotherVersion then false
    else if negb (none v) && negb (none anotherVersion) then
      let same := bool_decide (PreReleaseIdentifier v = PreReleaseIdentifier anotherVersion) in
      if same && (PreReleaseVersion anotherVersion <? PreReleaseVersion v) then true
      else if same && (PreReleaseVersion v <? PreReleaseVersion anotherVersion) then false
      else parsePreReleaseIdentifier (PreReleaseIdentifier v) <? parsePreReleaseIdentifier (PreReleaseIdentifier anotherVersion)
    else false.
Definition GreaterThanOrEqual (v anotherVersion : Version) : bool := bool_decide (v = anotherVersion) || GreaterThan v anotherVersion.
Definition LessThan (v anotherVersion : Version) : bool := negb (GreaterThanOrEqual v anotherVersion).
Definition LessThanOrEqual (v anotherVersion : Version) : bool := bool_decide (v = anotherVersion) || GreaterThan anotherVersion v.

(** ** Printing and parsing *)

Definition VersionString (v : Version) : string := pretty (Major v) +:+ "." +:+ pretty (Minor v) +:+ "." +:+ pretty (Patch v).
Definition Version_String (v : Version) : string :=
  let version := VersionString v in
  if bool_decide (PreReleaseIdentifier v = "") then version
  else version +:+ "-" +:+ PreReleaseIdentifier v +:+ "." +:+ pretty (PreReleaseVersion v).
Definition BadString (v : Version) : string :=
  let version := pretty (Major v) +:+ "." +:+ pretty (Minor v) in
  let version := if 0 <? Patch v then version +:+ "." +:+ pretty (Patch v) else version in
  if bool_decide (PreReleaseIdentifier v = "") then version
  else
    let version := version +:+ "-" +:+ PreReleaseIdentifier v in
    if 0 <? PreReleaseVersion v then version +:+ pretty (PreReleaseVersion v) else version.

(** The value [strconv.Atoi] returns along with its error: 0 for a syntax error, the nearest
    integer when out of range. *)
Definition digit_value (a : ascii) : option Z :=
  let c := ascii_byte a in if (48 <=? c) && (c <=? 57) then Some (c - 48) else None.
Fixpoint digits_loop (n : Z) (s : string) : option Z :=
  match s with
  | EmptyString => Some n
  | String a s' =>
      match digit_value a with
      | None => None
      | Some d => if 2 ^ 64 - 1 <? n * 10 + d then Some (2 ^ 64 - 1) else digits_loop (n * 10 + d) s'
      end
  end.
Definition Atoi_digits (neg : bool) (s : string) : Z :=
  match s with
  | EmptyString => 0
  | _ =>
      match digits_loop 0 s with
      | None => 0
      | Some un => if neg then (if 2 ^ 63 <? un then - 2 ^ 63 else - un) else (if 2 ^ 63 <=? un then 2 ^ 63 - 1 else un)
      end
  end.
Definition Atoi (s : string) : Z :=
  match s with
  | String "+" s' => Atoi_digits false s'
  | String "-" s' => Atoi_digits true s'
  | _ => Atoi_digits false s
  end.

Definition set_numbers (versionName : string) (version : Version) : Version :=
  let versionElements := Split "." versionName in
  let element (i : nat) (d : Z) := match versionElements !! i with Some e => Atoi e | None => d end in
  version {{ Major := element 0%nat (Major version); Minor := element 1%nat (Minor version); Patch := element 2%nat (Patch version) }}.

Definition set_identifier (identifier : string) (version : Version) : Version :=
  if StrContains identifier "." then
    let identifierParts := Split "." identifier in
    version {{ PreReleaseIdentifier := default "" (identifierParts !! 0%nat);
               PreReleaseVersion := match identifierParts !! 1%nat with Some s => Atoi s | None => PreReleaseVersion version end }}
  else if HasPrefix identifier "alpha" then version {{ PreReleaseIdentifier := "alpha"; PreReleaseVersion := Atoi (str_drop 5 identifier) }}
  else if HasPrefix identifier "beta" then version {{ PreReleaseIdentifier := "beta"; PreReleaseVersion := Atoi (str_drop 4 identifier) }}
  else version {{ Commit := identifier }}.

Definition Parse (versionName : string) : Version :=
  let versionName := TrimPrefix versionName "v" in
  if StrContains versionName "-" then
    let parts := Split "-" versionName in
    set_numbers (default "" (parts !! 0%nat)) (set_identifier (default "" (parts !! 1%nat)) zero_Version)
  else set_numbers versionName zero_Version.

(** ** The kernel (ktls_linux.go) *)

Record Support := MkSupport {
  TLS : bool;
  TLS_RX : bool;
  TLS_Version13 : bool;
  TLS_Version13_RX : bool;
  TLS_TX_ZEROCOPY : bool;
  TLS_RX_NOPADDING : bool;
  TLS_AES_256_GCM : bool;
  TLS_AES_128_CCM : bool;
  TLS_CHACHA20_POLY1305 : bool;
  TLS_SM4 : bool;
  TLS_ARIA_GCM : bool;
  TLS_Version13_KeyUpdate : bool
}.
Definition zero_Support : Support := MkSupport false false false false false false false false false false false false.

(** The cases of the [switch], each of which falls through to the next. *)
Definition support_cases : list (Version * (Support -> Support)) :=
  let from major minor := MkVersion major minor 0 "" "" 0 in [
  (from 6 14, fun s => s {{ TLS_Version13_KeyUpdate := true }});
  (from 6 1, fun s => s {{ TLS_ARIA_GCM := true }});
  (from 6 0, fun s => s {{ TLS_Version13_RX := true; TLS_RX_NOPADDING := true }});
  (from 5 19, fun s => s {{ TLS_TX_ZEROCOPY := true }});
  (from 5 16, fun s => s {{ TLS_SM4 := true }});
  (from 5 11, fun s => s {{ TLS_CHACHA20_POLY1305 := true }});
  (from 5 2, fun s => s {{ TLS_AES_128_CCM := true }});
  (from 5 1, fun s => s {{ TLS_AES_256_GCM := true; TLS_Version13 := true }});
  (from 4 17, fun s => s {{ TLS_RX := true }});
  (from 4 13, fun s => s {{ TLS := true }})
].
Fixpoint run_cases (kernelVersion : Version) (taken : bool) (l : list (Version * (Support -> Support))) (s : Support) : Support :=
  match l with
  | [] => s
  | (v, body) :: l' =>
      let taken := taken || GreaterThanOrEqual kernelVersion v in
      run_cases kernelVersion taken l' (if taken then body s else s)
  end.
Definition kernel_support (kernelVersion : Version) : Support := run_cases kernelVersion false support_cases zero_Support.

(** * Versions: printing and parsing, their order, and kernel features

    [version_roundtrip], [greater_than_strict_order], [kernel_support_monotone]; and
    [release_kernel_below_itself], where the commit of a version spoils its order. *)

(** ** Numbers *)

Lemma pretty_char_digit (x : N) : (x < 10)%N -> digit_value (pretty_N_char x) = Some (Z.of_N x).
Proof.
  intros H. destruct (decide (x = 0 \/ x = 1 \/ x = 2 \/ x = 3 \/ x = 4 \/ x = 5 \/ x = 6 \/ x = 7 \/ x = 8 \/ x = 9)%N) as [D|D]; [|lia].
  repeat destruct D as [->|D]; try reflexivity. by subst.
Qed.

(** The digits of [x] in front of [s] are read as [x]. *)
Lemma digits_pretty_go (x : N) (s : string) :
  (Z.of_N x < 2 ^ 63) -> digits_loop 0 (pretty_N_go x s) = digits_loop (Z.of_N x) s.
Proof.
  revert s. induction (N.lt_wf_0 x) as [x _ IH]; intros s Hx. destruct (decide (x = 0)%N) as [->|Hn]; [done|].
  rewrite pretty_N_go_step by lia. rewrite IH; [|apply N.div_lt; lia|].
  2:{ assert (x `div` 10 <= x)%N by (apply N.Div0.div_le_upper_bound; lia). lia. }
  cbn [digits_loop]. rewrite pretty_char_digit by (apply N.mod_lt; lia).
  assert (E : Z.of_N (x `div` 10) * 10 + Z.of_N (x `mod` 10) = Z.of_N x) by (pose proof (N.div_mod x 10 ltac:(lia)); lia).
  rewrite E, (proj2 (Z.ltb_ge _ _)) by lia. done.
Qed.
Lemma pretty_go_free c (x : N) s :
  digit_value c = None -> free_of c (pretty_N_go x s) = free_of c s.
Proof.
  intros Hc. revert s. induction (N.lt_wf_0 x) as [x _ IH]; intros s. destruct (decide (x = 0)%N) as [->|Hn]; [done|].
  rewrite pretty_N_go_step by lia. rewrite IH by (apply N.div_lt; lia). cbn [free_of].
  destruct (Ascii.eqb_spec (pretty_N_char (x `mod` 10)) c) as [E|]; [|done]. exfalso.
  rewrite <- E, pretty_char_digit in Hc by (apply N.mod_lt; lia). done.
Qed.

Lemma pretty_Z_nonneg x : 0 <= x -> pretty x = pretty (Z.to_N x).
Proof. intros H. destruct x as [|p|p]; [done|done|lia]. Qed.
Lemma pretty_free c x : 0 <= x -> digit_value c = None -> free_of c (pretty x) = true.
Proof.
  intros Hx Hc. rewrite pretty_Z_nonneg by done. unfold pretty, pretty_N. case_decide as E; [|by rewrite pretty_go_free].
  cbn [free_of]. by destruct (Ascii.eqb_spec "0" c) as [<-|].
Qed.
Lemma pretty_go_nonempty (x : N) s : (0 < x)%N \/ s <> ""%string -> pretty_N_go x s <> ""%string.
Proof.
  revert s. induction (N.lt_wf_0 x) as [x _ IH]; intros s H. destruct (decide (x = 0)%N) as [->|Hn]; [destruct H; [lia|done]|].
  rewrite pretty_N_go_step by lia. apply IH; [apply N.div_lt; lia|by right].
Qed.
Lemma pretty_nonempty x : 0 <= x -> pretty x <> ""%string.
Proof.
  intros Hx. rewrite pretty_Z_nonneg by done. unfold pretty, pretty_N. case_decide; [done|]. apply pretty_go_nonempty. left. lia.
Qed.
Lemma Atoi_plain a s : a <> "+"%char -> a <> "-"%char -> Atoi (String a s) = Atoi_digits false (String a s).
Proof. destruct a as [[] [] [] [] [] [] [] []]; done. Qed.
Lemma Atoi_pretty x : 0 <= x < 2 ^ 63 -> Atoi (pretty x) = x.
Proof.
  intros Hx. pose proof (pretty_free "+" x ltac:(lia) eq_refl) as Hp. pose proof (pretty_free "-" x ltac:(lia) eq_refl) as Hm.
  assert (Hd : digits_loop 0 (pretty x) = Some x).
  { rewrite pretty_Z_nonneg by lia. unfold pretty, pretty_N. case_decide as E; [assert (x = 0) as -> by lia; done|].
    rewrite digits_pretty_go by lia. cbn. f_equal. lia. }
  pose proof (pretty_nonempty x ltac:(lia)). destruct (pretty x) as [|a s]; [done|]. cbn [free_of] in Hp, Hm.
  apply andb_true_iff in Hp as [Hp%negb_true_iff%Ascii.eqb_neq _]. apply andb_true_iff in Hm as [Hm%negb_true_iff%Ascii.eqb_neq _].
  rewrite Atoi_plain by done. unfold Atoi_digits. rewrite Hd. by rewrite (proj2 (Z.leb_gt _ _)) by lia.
Qed.

(** ** Round trip *)

Definition version_ok (v : Version) : Prop :=
  0 <= Major v < 2 ^ 63 /\ 0 <= Minor v < 2 ^ 63 /\ 0 <= Patch v < 2 ^ 63 /\ 0 <= PreReleaseVersion v < 2 ^ 63 /\
  Commit v = ""%string /\ free_of "-" (PreReleaseIdentifier v) = true /\ free_of "." (PreReleaseIdentifier v) = true /\
  (PreReleaseIdentifier v = ""%string -> PreReleaseVersion v = 0).

Lemma set_numbers_printed v v0 :
  0 <= Major v < 2 ^ 63 -> 0 <= Minor v < 2 ^ 63 -> 0 <= Patch v < 2 ^ 63 ->
  set_numbers (VersionString v) v0 = MkVersion (Major v) (Minor v) (Patch v) (Commit v0) (PreReleaseIdentifier v0) (PreReleaseVersion v0).
Proof.
  intros H1 H2 H3. unfold set_numbers, VersionString.
  change ("." +:+ pretty (Minor v) +:+ "." +:+ pretty (Patch v)) with (String "." (pretty (Minor v) +:+ String "." (pretty (Patch v)))).
  rewrite Split_app, Split_app, Split_free by (apply pretty_free; [lia|done]).
  destruct v0. cbn [lookup list_lookup]. by rewrite !Atoi_pretty by done.
Qed.
Lemma printed_no_v x t : 0 <= x -> TrimPrefix (pretty x +:+ t) "v" = pretty x +:+ t.
Proof.
  intros Hx. unfold TrimPrefix, HasPrefix. pose proof (pretty_free "v" x Hx eq_refl) as Hf. pose proof (pretty_nonempty x Hx).
  destruct (pretty x) as [|a s]; [done|]. change (String a s +:+ t) with (String a (s +:+ t)). cbn [free_of] in Hf.
  apply andb_true_iff in Hf as [Hf%negb_true_iff%Ascii.eqb_neq _]. cbn [String.prefix].
  by destruct (Ascii.ascii_dec "v" a) as [<-|].
Qed.
Lemma free_VersionString v : 0 <= Major v -> 0 <= Minor v -> 0 <= Patch v -> free_of "-" (VersionString v) = true.
Proof. intros. unfold VersionString. rewrite !free_of_app, !pretty_free by done. done. Qed.

(** Parsing a printed version gives the version back, for every version without a commit (which
    is not printed) whose pre-release identifier has no dash or dot. *)
Theorem version_roundtrip v : version_ok v -> Parse (Version_String v) = v.
Proof.
  intros (H1 & H2 & H3 & H4 & Hc & Hd & Hp & Hz). unfold Version_String.
  pose proof (free_VersionString v ltac:(lia) ltac:(lia) ltac:(lia)) as Hf. case_bool_decide as Hi.
  - unfold Parse.
    assert (TrimPrefix (VersionString v) "v" = VersionString v) as -> by (unfold VersionString; apply printed_no_v; lia).
    rewrite StrContains_char, Hf. cbn [negb]. rewrite set_numbers_printed by done. destruct v; cbn in *. subst. by rewrite Hz.
  - unfold Parse. assert (forall t, TrimPrefix (VersionString v +:+ t) "v" = VersionString v +:+ t) as ->
      by (intros t; unfold VersionString; rewrite !str_app_assoc; apply printed_no_v; lia).
    change ("-" +:+ PreReleaseIdentifier v +:+ "." +:+ pretty (PreReleaseVersion v))
      with (String "-" (PreReleaseIdentifier v +:+ String "." (pretty (PreReleaseVersion v)))).
    rewrite StrContains_char, free_of_app. cbn [free_of]. rewrite Ascii.eqb_refl. cbn [negb andb]. rewrite andb_false_r. cbn [negb].
    rewrite Split_app by done. cbn [lookup list_lookup default from_option id].
    rewrite Split_free by (rewrite free_of_app, Hd; cbn [free_of]; apply pretty_free; [lia|done]).
    cbn [lookup list_lookup default from_option id]. unfold set_identifier.
    rewrite StrContains_char, free_of_app. cbn [free_of]. rewrite Ascii.eqb_refl. cbn [negb andb]. rewrite andb_false_r. cbn [negb].
    rewrite Split_app, Split_free by (done || (apply pretty_free; [lia|done])).
    rewrite set_numbers_printed by done. cbn. rewrite Atoi_pretty by done. destruct v; cbn in *. by subst.
Qed.

(** ** Order *)

(** The relation the comparison decides. *)
Definition newer (u v : Version) : Prop :=
  Major u > Major v \/ Major u = Major v /\
  (Minor u > Minor v \/ Minor u = Minor v /\
  (Patch u > Patch v \/ Patch u = Patch v /\
  (PreReleaseIdentifier u = ""%string /\ PreReleaseIdentifier v <> ""%string \/
   PreReleaseIdentifier u <> ""%string /\ PreReleaseIdentifier v <> ""%string /\
   (PreReleaseIdentifier u = PreReleaseIdentifier v /\ PreReleaseVersion u > PreReleaseVersion v \/
    parsePreReleaseIdentifier (PreReleaseIdentifier u) < parsePreReleaseIdentifier (PreReleaseIdentifier v))))).
Lemma gt_or_eq x (P : Prop) : (x > x \/ x = x /\ P) <-> P.
Proof. split; [intros [?|[_ ?]]; [lia|done]|by right]. Qed.
Lemma GreaterThan_newer u v : GreaterThan u v = true <-> newer u v.
Proof.
  unfold GreaterThan, newer.
  destruct (Z.ltb_spec (Major v) (Major u)); [split; [left; lia|done]|].
  destruct (Z.ltb_spec (Major u) (Major v)); [split; [done|lia]|].
  destruct (Z.ltb_spec (Minor v) (Minor u)); [split; [right; lia|done]|].
  destruct (Z.ltb_spec (Minor u) (Minor v)); [split; [done|lia]|].
  destruct (Z.ltb_spec (Patch v) (Patch u)); [split; [right; lia|done]|].
  destruct (Z.ltb_spec (Patch u) (Patch v)); [split; [done|lia]|].
  assert (Major u = Major v) as -> by lia. assert (Minor u = Minor v) as -> by lia. assert (Patch u = Patch v) as -> by lia.
  rewrite !gt_or_eq. set (a := PreReleaseIdentifier u). set (b := PreReleaseIdentifier v).
  set (ra := parsePreReleaseIdentifier a). set (rb := parsePreReleaseIdentifier b).
  destruct (decide (a = ""%string)) as [Ea|Ea], (decide (b = ""%string)) as [Eb|Eb];
    rewrite ?(bool_decide_eq_true_2 _ Ea), ?(bool_decide_eq_true_2 _ Eb), ?(bool_decide_eq_false_2 _ Ea), ?(bool_decide_eq_false_2 _ Eb);
    cbn [andb negb]; [split; [done|tauto]| |split; [done|tauto]|].
  - split; [by left|done].
  - destruct (decide (a = b)) as [E|E]; [rewrite (bool_decide_eq_true_2 _ E)|rewrite (bool_decide_eq_false_2 _ E)]; cbn [andb].
    + assert (ra = rb) as -> by (unfold ra, rb; by rewrite E). rewrite Z.ltb_irrefl.
      destruct (Z.ltb_spec (PreReleaseVersion v) (PreReleaseVersion u)); [split; [intros _; right; repeat split; auto; left; split; auto; lia|done]|].
      destruct (_ <? _); (split; [done|]); intros [[? ?]|(_ & _ & [[_ ?]|?])]; lia || tauto.
    + rewrite Z.ltb_lt. tauto.
Qed.

Lemma GreaterThan_trans u v w : GreaterThan u v = true -> GreaterThan v w = true -> GreaterThan u w = true.
Proof.
  rewrite !GreaterThan_newer. unfold newer. intros Huv Hvw.
  destruct Huv as [?|[E1 Huv]]; [left; destruct Hvw as [?|[? _]]; lia|]. destruct Hvw as [?|[F1 Hvw]]; [left; lia|]. right. split; [lia|].
  destruct Huv as [?|[E2 Huv]]; [left; destruct Hvw as [?|[? _]]; lia|]. destruct Hvw as [?|[F2 Hvw]]; [left; lia|]. right. split; [lia|].
  destruct Huv as [?|[E3 Huv]]; [left; destruct Hvw as [?|[? _]]; lia|]. destruct Hvw as [?|[F3 Hvw]]; [left; lia|]. right. split; [lia|].
  destruct Huv as [[Hu Hv]|(Hu & Hv & Huv)], Hvw as [[Hv' Hw]|(Hv' & Hw & Hvw)]; try done; [by left|]. right. split_and!; [done..|].
  destruct Huv as [[E ?]|?], Hvw as [[F ?]|?]; [left; split; [congruence|lia]|right; by rewrite E|right; by rewrite <- F|right; lia].
Qed.
(** [GreaterThan] is a strict order: nothing is greater than itself, and it is transitive. *)
Theorem greater_than_strict_order u v w :
  GreaterThan u u = false /\ (GreaterThan u v = true -> GreaterThan v w = true -> GreaterThan u w = true).
Proof.
  split; [|apply GreaterThan_trans]. apply not_true_is_false. rewrite GreaterThan_newer. unfold newer. intuition (try congruence; lia).
Qed.
Lemma GreaterThanOrEqual_trans u v w :
  GreaterThanOrEqual u v = true -> GreaterThanOrEqual v w = true -> GreaterThanOrEqual u w = true.
Proof.
  unfold GreaterThanOrEqual. rewrite !orb_true_iff, !bool_decide_eq_true. intros [->|Huv] [->|Hvw]; auto.
  right. by eapply GreaterThan_trans.
Qed.

(** ** Kernel features *)

(** The features one kernel has, the other has too. *)
Definition has_all (s t : Support) : Prop :=
  forall f, f ∈ [TLS; TLS_RX; TLS_Version13; TLS_Version13_RX; TLS_TX_ZEROCOPY; TLS_RX_NOPADDING; TLS_AES_256_GCM; TLS_AES_128_CCM;
                 TLS_CHACHA20_POLY1305; TLS_SM4; TLS_ARIA_GCM; TLS_Version13_KeyUpdate] -> f s = true -> f t = true.

Ltac each_feature H := repeat (apply elem_of_cons in H as [->|H]); [..|by apply elem_of_nil in H].
Definition enables (body : Support -> Support) : Prop :=
  forall s t, has_all s t -> has_all (body s) (body t) /\ has_all s (body t).
Lemma cases_enable : Forall (fun c => enables c.2) support_cases.
Proof.
  unfold support_cases. repeat (apply Forall_cons_2; [intros s t Hst|]); [..|apply Forall_nil_2];
    (split; intros f Hf Hs; pose proof (Hst f Hf) as Hft; each_feature Hf; cbn in *; auto).
Qed.
Lemma run_cases_mono k k' l taken taken' s t :
  Forall (fun c => enables c.2) l -> GreaterThanOrEqual k' k = true -> (taken = true -> taken' = true) -> has_all s t ->
  has_all (run_cases k taken l s) (run_cases k' taken' l t).
Proof.
  intros Hl Hk. revert taken taken' s t. induction Hl as [|[v body] l Hb _ IH]; intros taken taken' s t Ht Hst; cbn [run_cases]; [done|].
  cbn [snd] in Hb. destruct (Hb s t Hst) as [H1 H2].
  assert (Hv : GreaterThanOrEqual k v = true -> GreaterThanOrEqual k' v = true) by (by apply GreaterThanOrEqual_trans).
  apply IH.
  - rewrite !orb_true_iff. tauto.
  - destruct (taken || _) eqn:E; [|by destruct (taken' || _)].
    assert (taken' || GreaterThanOrEqual k' v = true) as ->; [|done]. apply orb_true_iff in E as [E|E]; apply orb_true_iff; auto.
Qed.

(** A kernel that is at least another has all the features of the other. *)
Theorem kernel_support_monotone k k' : GreaterThanOrEqual k' k = true -> has_all (kernel_support k) (kernel_support k').
Proof. intros H. apply run_cases_mono; [apply cases_enable|done|done|]. by intros f _. Qed.

Lemma version_roundtrip_witness : Parse (Version_String (MkVersion 1 3 0 "" "beta" 1)) = MkVersion 1 3 0 "" "beta" 1.
Proof. apply version_roundtrip. unfold version_ok. cbn. repeat split; lia || done. Defined.
Lemma kernel_support_monotone_witness : has_all (kernel_support (Parse "5.19.1")) (kernel_support (Parse "6.14.2-37-generic")).
Proof. apply kernel_support_monotone. by vm_compute. Defined.

(** The release of a distribution's kernel has a suffix, which [Parse] takes for a commit; the
    comparison for equality sees the commit and the one for order does not: 6.14.0 with a
    suffix is not at least 6.14, each is less than the other, and the kernel is taken
    not to have what 6.14 brought. *)
Theorem release_kernel_below_itself :
  let release := Parse "6.14.0-37-generic" in
  let threshold := MkVersion 6 14 0 "" "" 0 in
  LessThan release threshold = true /\ LessThan threshold release = true /\
  TLS_Version13_KeyUpdate (kernel_support release) = false /\ TLS_Version13_KeyUpdate (kernel_support (Parse "6.14.0")) = true.
Proof. by vm_compute. Qed.

(** The comparisons of version_test.go. *)
Example version_tests :
  Version_String (Parse "v1.3.0-beta1") = "1.3.0-beta.1"%string /\ BadString (Parse "v1.3.0-beta.1") = "1.3-beta1"%string /\
  GreaterThan (Parse "1.3.0") (Parse "1.3-beta1") = true /\ GreaterThan (Parse "1.3.0") (Parse "1.3.0-beta1") = true /\
  GreaterThan (Parse "1.3.0-beta1") (Parse "1.3.0-alpha1") = true /\ GreaterThan (Parse "1.3.1") (Parse "1.3.0") = true /\
  GreaterThan (Parse "1.4") (Parse "1.3") = true.
Proof. by vm_compute. Qed.
