(* ===== verification/RemoteRuleSet.v ===== *)
(** * Remote rule-sets

    route/rule/rule_set_remote.go and rule_set_updater.go: a rule-set that is downloaded, kept
    in the cache file, restored at the start and updated at intervals.  The in-memory part is
    [LocalRuleSet] of RuleSetState, the reload that of [reloadRules].  The HTTP server is a
    function of each request's URL and etag; the JSON decoder and the file system are
    parameters.  Logging, idle connections and the creation of the HTTP client are left out. *)

From S2P Require Import Prelude GoStd Netip External DnsMsg RuleItems RuleMatch RuleOptions RuleBuild RuleSetState Srs Bolt CacheFile.
From coqutil Require Import Datatypes.RecordSetters.
Import DoubleBraceUpdate.
Local Open Scope Z_scope.

Definition RuleSetFormatSource : string := "source".
Definition RuleSetFormatBinary : string := "binary".
Definition RuleSetTagPlaceholder : string := "{tag}".

(** The zero [time.Time]: 1 January of year 1. *)
Definition zero_time : Z := -62135596800 * second.
Definition hour : Z := 3600 * second.

(** [strings.ReplaceAll] of a non-empty text. *)
Fixpoint replace_all (fuel : nat) (s old new : string) : string :=
  match fuel, s with
  | S fuel', String a s' =>
      if HasPrefix s old then new +:+ replace_all fuel' (str_drop (String.length old) s) old new
      else String a (replace_all fuel' s' old new)
  | _, _ => s
  end.
Definition ReplaceAll (s old new : string) : string := replace_all (String.length s) s old new.

Section Remote.
Context {DB : Type} `{HB : Bolt DB} {X : External}.

(** [option.RuleSet] with [option.RemoteRuleSet]. *)
Record RemoteOptions := MkRemoteOptions {
  ro_Format : string;
  ro_URL : string;
  ro_InitialPath : string;
  ro_UpdateInterval : Z
}.

Record RemoteRuleSet := MkRemote {
  rr_tag : string;
  rr_url : string;
  rr_initialPath : string;
  rr_format : string;
  rr_updateInterval : Z;
  rr_set : LocalRuleSet;
  rr_lastUpdated : Z;
  rr_lastEtag : string
}.

(** An HTTP response: the body may fail while it is read. *)
Record Response := MkResponse {
  re_StatusCode : Z;
  re_Status : string;
  re_Etag : string;
  re_Body : error + bytes
}.
(** What a server answers to a request for the URL with the [If-None-Match] header, empty when
    it is not sent. *)
Abbreviation Server := (string -> string -> error + Response).

(** The context of the rule-set: the JSON decoder, the file system, whether there is a network
    manager, the validator of updates of the DNS router. *)
Record Env := MkEnv {
  en_json : bytes -> outcome PlainRuleSetCompat;
  en_ReadFile : string -> error + bytes;
  en_AbsPath : string -> string;
  en_nm : bool;
  en_validator : option (string -> RuleSetMetadata -> outcome unit)
}.
Context (en : Env).

Definition empty_metadata : RuleSetMetadata :=
  {| ContainsProcessRule := false; ContainsWIFIRule := false; ContainsIPCIDR := false;
     ContainsDNSQueryTypeRule := false; ContainsNonIPCIDRRule := false |}.
Definition new_set : LocalRuleSet := {| ls_rules := []; ls_metadata := empty_metadata; ls_callbacks := []; ls_refs := 0 |}.

Definition NewRemoteRuleSet (tag : string) (options : RemoteOptions) : RemoteRuleSet :=
  MkRemote tag (ReplaceAll (ro_URL options) RuleSetTagPlaceholder tag)
    (if bool_decide (ro_InitialPath options = "") then ""
     else en_AbsPath en (ReplaceAll (ro_InitialPath options) RuleSetTagPlaceholder tag))
    (ro_Format options)
    (if 0 <? ro_UpdateInterval options then ro_UpdateInterval options else 24 * hour)
    new_set zero_time "".

Definition validateRuleSetMetadataUpdate (tag : string) : option (RuleSetMetadata -> outcome unit) :=
  (fun v => v tag) <$> en_validator en.

(** The rules of the content, in the format of the rule-set. *)
Definition decode (s : RemoteRuleSet) (content : bytes) : outcome (list HeadlessRule) :=
  let* ruleSet := if bool_decide (rr_format s = RuleSetFormatSource) then en_json en content
                  else if bool_decide (rr_format s = RuleSetFormatBinary) then Srs.Read false content
                  else Err (ENew ("unknown rule-set format: " +:+ rr_format s)) in
  let* plainRuleSet := Upgrade ruleSet in
  Ok (elems (pr_Rules plainRuleSet)).

(** The new state and the callbacks that are run. *)
Definition loadBytes (content : bytes) (s : RemoteRuleSet) : outcome (RemoteRuleSet * list Z) :=
  let* rules := decode s content in
  let* (set, called) := reloadRules (en_nm en) (validateRuleSetMetadataUpdate (rr_tag s)) rules (rr_set s) in
  Ok (s {{ rr_set := set }}, called).

(** The outcome, the rule-set, the cache file and the callbacks that were run. *)
Abbreviation fetched := (outcome unit * RemoteRuleSet * option (CacheFile DB) * list Z)%type.

(** [case http.StatusNotModified]: the time of the saved rule-set is brought up to date. *)
Definition not_modified (now : Z) (s : RemoteRuleSet) (cacheFile : option (CacheFile DB)) : RemoteRuleSet * option (CacheFile DB) :=
  let s := s {{ rr_lastUpdated := now }} in
  match cacheFile with
  | None => (s, None)
  | Some c =>
      match LoadRuleSet (rr_tag s) c with
      | (None, c) => (s, Some c)
      | (Some saved, c) =>
          (s, Some (SaveRuleSet (rr_tag s) {| Content := Content saved; LastUpdated := now; LastEtag := LastEtag saved |} c).2)
      end
  end.

(** After the content was loaded. *)
Definition save_update (now : Z) (etag : string) (content : bytes) (s : RemoteRuleSet) (cacheFile : option (CacheFile DB))
    : RemoteRuleSet * option (CacheFile DB) :=
  let s := if bool_decide (etag = "") then s else s {{ rr_lastEtag := etag }} in
  let s := s {{ rr_lastUpdated := now }} in
  (s, (fun c => (SaveRuleSet (rr_tag s) {| Content := content; LastUpdated := now; LastEtag := rr_lastEtag s |} c).2) <$> cacheFile).

Definition fetch (server : Server) (now : Z) (s : RemoteRuleSet) (cacheFile : option (CacheFile DB)) : fetched :=
  match server (rr_url s) (rr_lastEtag s) with
  | inl e => (Err e, s, cacheFile, [])
  | inr response =>
      if re_StatusCode response =? 304 then
        let (s, cacheFile) := not_modified now s cacheFile in (Ok tt, s, cacheFile, [])
      else if negb (re_StatusCode response =? 200) then (Err (ENew ("unexpected status: " +:+ re_Status response)), s, cacheFile, [])
      else match re_Body response with
      | inl e => (Err e, s, cacheFile, [])
      | inr content =>
          match loadBytes content s with
          | Ok (s, called) =>
              let (s, cacheFile) := save_update now (re_Etag response) content s cacheFile in (Ok tt, s, cacheFile, called)
          | Err e => (Err e, s, cacheFile, [])
          | Panic m => (Panic m, s, cacheFile, [])
          | Diverge => (Diverge, s, cacheFile, [])
          end
      end
  end.

Definition updateOnce (server : Server) (now : Z) (s : RemoteRuleSet) (cacheFile : option (CacheFile DB)) : fetched :=
  let '(r, s, cacheFile, called) := fetch server now s cacheFile in
  match r with
  | Ok _ => (r, if ls_refs (rr_set s) =? 0 then s {{ rr_set := drop_rules (rr_set s) }} else s, cacheFile, called)
  | _ => (r, s, cacheFile, called)
  end.

(** ** Start *)

(** The rule-set restored from the cache file: an error is logged. *)
Definition restore (s : RemoteRuleSet) (cacheFile : option (CacheFile DB)) : outcome RemoteRuleSet * option (CacheFile DB) :=
  match cacheFile with
  | None => (Ok s, None)
  | Some c =>
      match LoadRuleSet (rr_tag s) c with
      | (None, c) => (Ok s, Some c)
      | (Some savedSet, c) =>
          (match loadBytes (Content savedSet) s with
           | Ok (s, _) => Ok (s {{ rr_lastUpdated := LastUpdated savedSet; rr_lastEtag := LastEtag savedSet }})
           | Err _ => Ok s
           | Panic m => Panic m
           | Diverge => Diverge
           end, Some c)
      end
  end.
(** [loadedFromInitialPath]; an error is logged. *)
Definition load_initial (s : RemoteRuleSet) : outcome (RemoteRuleSet * bool) :=
  if (rr_lastUpdated s =? zero_time) && negb (bool_decide (rr_initialPath s = "")) then
    match en_ReadFile en (rr_initialPath s) with
    | inl _ => Ok (s, false)
    | inr content =>
        match loadBytes content s with
        | Ok (s, _) => Ok (s, true)
        | Err _ => Ok (s, false)
        | Panic m => Panic m
        | Diverge => Diverge
        end
    end
  else Ok (s, false).

Definition StartContext (server : Server) (now : Z) (s : RemoteRuleSet) (cacheFile : option (CacheFile DB))
    : outcome unit * RemoteRuleSet * option (CacheFile DB) :=
  match restore s cacheFile with
  | (Ok s, cacheFile) =>
      match load_initial s with
      | Ok (s, loadedFromInitialPath) =>
          if (rr_lastUpdated s =? zero_time) && negb loadedFromInitialPath then
            let '(r, s, cacheFile, _) := fetch server now s cacheFile in
            (match r with Err e => Err (ECause e ("initial rule-set: " +:+ rr_tag s)) | _ => r end, s, cacheFile)
          else (Ok tt, s, cacheFile)
      | Err e => (Err e, s, cacheFile)
      | Panic m => (Panic m, s, cacheFile)
      | Diverge => (Diverge, s, cacheFile)
      end
  | (Err e, cacheFile) => (Err e, s, cacheFile)
  | (Panic m, cacheFile) => (Panic m, s, cacheFile)
  | (Diverge, cacheFile) => (Diverge, s, cacheFile)
  end.

Definition Remote_Close (s : RemoteRuleSet) : RemoteRuleSet := s {{ rr_set := drop_rules (rr_set s) }}.

(** ** The updater *)

(** The rule-sets with the time of their next update. *)
Definition first_updates (ruleSets : list RemoteRuleSet) : list (RemoteRuleSet * Z) :=
  (fun s => (s, rr_lastUpdated s + rr_updateInterval s)) <$> ruleSets.

(** The update of one rule-set, if it is due at the time [now] the turn began; [t] is the time its
    answer arrives. *)
Definition update_if_due (server : Server) (now t : Z) (e : RemoteRuleSet * Z) (cacheFile : option (CacheFile DB))
    : outcome (RemoteRuleSet * Z * option (CacheFile DB)) :=
  let (s, nextUpdate) := e in
  if now <? nextUpdate then Ok (s, nextUpdate, cacheFile)
  else match updateOnce server t s cacheFile with
       | (Panic m, _, _, _) => Panic m
       | (Diverge, _, _, _) => Diverge
       | (_, s, cacheFile, _) => Ok (s, now + rr_updateInterval s, cacheFile)
       end.
(** One turn of [loopUpdate] after the timer fired, from the [i]-th rule-set on: the servers and
    the times as the updates meet them. *)
Fixpoint update_due (server : nat -> Server) (now : Z) (clock : nat -> Z) (i : nat) (l : list (RemoteRuleSet * Z))
    (cacheFile : option (CacheFile DB)) : outcome (list (RemoteRuleSet * Z) * option (CacheFile DB)) :=
  match l with
  | [] => Ok ([], cacheFile)
  | e :: l' =>
      let* (e, cacheFile) := update_if_due (server i) now (clock i) e cacheFile in
      let* (l', cacheFile) := update_due server now clock (S i) l' cacheFile in
      Ok (e :: l', cacheFile)
  end.

(** [now] is the time of [time.Until], after the updates of the turn. *)
Definition waitUntilNext (now next : Z) (nextUpdates : list Z) : Z := Z.max 0 (fold_left Z.min nextUpdates next - now).
End Remote.
