(* ===== verification/RemoteRuleSetSpec.v ===== *)
(** * What a remote rule-set keeps

    [remote_restart_resumes]: over every history of updates, restarts and reference counts, a
    restart without the network gives the rules that were in effect;
    [failed_update_changes_nothing]; [updates_are_due] for the timer of the updater; and
    [etag_kept_for_new_content], where the etag of old content is kept for new content. *)

From S2P Require Import Prelude GoStd Netip External Concrete DnsMsg RuleItems RuleMatch RuleOptions RuleBuild RuleBuildSpec RuleSetState Srs Bolt CacheFile CacheFileSpec RemoteRuleSet.
From coqutil Require Import Datatypes.RecordSetters.
Import DoubleBraceUpdate.
Import MapDB.
Local Open Scope Z_scope.

Section Spec.
Context {DB : Type} `{HB : Bolt DB} `{HL : !BoltLaws DB} {X : External} `{XL : !ExternalLaws X}.
Context (en : Env).
Implicit Types (c : CacheFile DB) (s : RemoteRuleSet).

(** ** Loading *)

(** The content decodes to the rules, which are built and accepted. *)
Definition loads (tag format : string) (content : bytes) (rules : list HeadlessRule) (built : list Rule) : Prop :=
  (forall s, rr_format s = format -> decode en s content = Ok rules) /\ new_rules (en_nm en) rules = Ok built /\
  match validateRuleSetMetadataUpdate en tag with None => True | Some v => v (buildRuleSetMetadata rules) = Ok tt end.

Definition with_rules (rules : list HeadlessRule) (built : list Rule) (s : RemoteRuleSet) : RemoteRuleSet :=
  s {{ rr_set := {| ls_rules := built; ls_metadata := buildRuleSetMetadata rules;
                    ls_callbacks := ls_callbacks (rr_set s); ls_refs := ls_refs (rr_set s) |} }}.

Lemma decode_format s s' content : rr_format s = rr_format s' -> decode en s content = decode en s' content.
Proof. intros E. unfold decode. by rewrite E. Qed.
Lemma loadBytes_iff content s s' called :
  loadBytes en content s = Ok (s', called) <->
  exists rules built, loads (rr_tag s) (rr_format s) content rules built /\ s' = with_rules rules built s /\ called = ls_callbacks (rr_set s).
Proof.
  unfold loadBytes, reloadRules, loads. split.
  - intros H. inv_ok. match goal with H : decode en s content = Ok ?r |- _ => exists r end.
    match goal with H : new_rules _ _ = Ok ?b |- _ => exists b end. split_and!; try done.
    + intros s1 Es. by rewrite (decode_format s1 s).
    + destruct (validateRuleSetMetadataUpdate en (rr_tag s)) as [v|]; [|done]. match goal with H : v _ = Ok ?u |- _ => by destruct u end.
  - intros (rules & built & (Hd & Hn & Hv) & -> & ->). rewrite (Hd s eq_refl). cbn [obind]. rewrite Hn. cbn [obind].
    destruct (validateRuleSetMetadataUpdate en (rr_tag s)) as [v|]; [rewrite Hv|]; done.
Qed.

(** ** Sizes *)

Lemma length_PutUvarint n x : (length (PutUvarint_loop n x) <= n)%nat.
Proof. revert x. induction n as [|n IH]; intros x; cbn; [done|]. destruct (128 <=? x); cbn; [specialize (IH (Z.shiftr x 7))|]; lia. Qed.

(** What the servers send: contents and etags that fit the cache file. *)
Definition max_content : Z := 2 ^ 30.
Definition max_etag : Z := 2 ^ 20.
Lemma saved_ok_small content now etag :
  zlen content <= max_content -> str_len etag <= max_etag -> is_int64 (Unix now) ->
  saved_ok {| Content := content; LastUpdated := now; LastEtag := etag |}.
Proof.
  intros Hc He Hi. split; [|done]. unfold SavedBinary_MarshalBinary. cbn [Content LastUpdated LastEtag].
  pose proof (zlen_nonneg content). assert (0 <= str_len etag) by (unfold str_len; lia). unfold max_content, max_etag in *.
  rewrite (uint_small 64 (zlen content)), (uint_small 64 (str_len etag)), !WriteUvarint_put by (unfold is_uint64; lia). rewrite !zlen_app, length_bytes_of_string.
  assert (Hp : forall x, zlen (PutUvarint x) <= 10) by (intros x; pose proof (length_PutUvarint 10 x); unfold zlen, PutUvarint; lia).
  pose proof (Hp (zlen content)). pose proof (Hp (str_len etag)). change (zlen [1]) with 1.
  assert (zlen (be_bytes 8 (uint 64 (Unix now))) = 8) as -> by (unfold zlen; by rewrite length_be_bytes). unfold MaxValueSize. lia.
Qed.

(** ** History *)

Definition good_server (server : string -> string -> error + Response) : Prop :=
  forall url etag r, server url etag = inr r ->
    (re_StatusCode r = 304 -> etag <> ""%string) /\ str_len (re_Etag r) <= max_etag /\
    forall content, re_Body r = inr content -> zlen content <= max_content.
Definition good_time (now : Z) : Prop := 0 <= now /\ is_int64 (Unix now).

Definition set_of (f : LocalRuleSet -> LocalRuleSet) (s : RemoteRuleSet) : RemoteRuleSet := s {{ rr_set := f (rr_set s) }}.

(** What happens to a rule-set and the cache file, the process included: it may end at any time and
    start again from [s0]. *)
Inductive remote_step (s0 : RemoteRuleSet) : RemoteRuleSet * CacheFile DB -> RemoteRuleSet * CacheFile DB -> Prop :=
| remote_start server now s c s' c' :
    good_server server -> good_time now -> StartContext en server now s0 (Some c) = (Ok tt, s', Some c') ->
    remote_step s0 (s, c) (s', c')
| remote_update server now r s c s' c' called :
    good_server server -> good_time now -> updateOnce en server now s (Some c) = (r, s', Some c', called) ->
    remote_step s0 (s, c) (s', c')
| remote_inc s c : remote_step s0 (s, c) (set_of IncRef s, c)
| remote_dec s c set : DecRef (rr_set s) = Ok set -> remote_step s0 (s, c) (set_of (fun _ => set) s, c)
| remote_cleanup s c : remote_step s0 (s, c) (set_of Cleanup s, c).

Definition same_config s s0 : Prop :=
  rr_tag s = rr_tag s0 /\ rr_url s = rr_url s0 /\ rr_initialPath s = rr_initialPath s0 /\ rr_format s = rr_format s0 /\
  rr_updateInterval s = rr_updateInterval s0.

(** The saved rule-set can be saved again and loads. *)
Definition saved_good (s0 : RemoteRuleSet) (saved : SavedBinary) rules built : Prop :=
  zlen (Content saved) <= max_content /\ str_len (LastEtag saved) <= max_etag /\ is_int64 (Unix (LastUpdated saved)) /\
  0 <= LastUpdated saved /\ LastUpdated saved = from_Unix (Unix (LastUpdated saved)) /\
  loads (rr_tag s0) (rr_format s0) (Content saved) rules built.
Definition cache_good (s0 : RemoteRuleSet) c : Prop :=
  table_writable c bucketRuleSet /\
  (LoadRuleSet (rr_tag s0) c = (None, c) \/
   exists saved rules built, LoadRuleSet (rr_tag s0) c = (Some saved, c) /\ saved_good s0 saved rules built).

(** What is in effect is what the cache file has, unless the rules were dropped. *)
Definition in_effect (s0 : RemoteRuleSet) s c : Prop :=
  exists saved rules built, LoadRuleSet (rr_tag s0) c = (Some saved, c) /\ saved_good s0 saved rules built /\
    LastUpdated saved = from_Unix (Unix (rr_lastUpdated s)) /\ LastEtag saved = rr_lastEtag s /\
    ls_metadata (rr_set s) = buildRuleSetMetadata rules /\ (ls_rules (rr_set s) = built \/ ls_rules (rr_set s) = []).

Definition remote_inv (s0 : RemoteRuleSet) s c : Prop :=
  same_config s s0 /\ cache_good s0 c /\ str_len (rr_lastEtag s) <= max_etag /\
  (rr_lastUpdated s = zero_time -> rr_lastEtag s = ""%string) /\
  (rr_lastUpdated s <> zero_time -> in_effect s0 s c).

Section History.
Context (s0 : RemoteRuleSet).
Hypothesis Htag : rr_tag s0 <> "" /\ str_len (rr_tag s0) <= MaxKeySize.

Lemma from_Unix_idem t : from_Unix (Unix (from_Unix (Unix t))) = from_Unix (Unix t).
Proof. unfold from_Unix, Unix, second. by rewrite Z.div_mul. Qed.
Lemma from_Unix_nonneg t : 0 <= t -> 0 <= from_Unix (Unix t).
Proof. intros H. unfold from_Unix, Unix, second. pose proof (Z.div_pos t 1000000000 H). lia. Qed.
Lemma Unix_from_Unix t : Unix (from_Unix (Unix t)) = Unix t.
Proof. unfold from_Unix, Unix, second. by rewrite Z.div_mul. Qed.

(** Saving a rule-set that loads. *)
Lemma save_good c saved rules built :
  cache_good s0 c -> zlen (Content saved) <= max_content -> str_len (LastEtag saved) <= max_etag -> good_time (LastUpdated saved) ->
  loads (rr_tag s0) (rr_format s0) (Content saved) rules built ->
  let c' := (SaveRuleSet (rr_tag s0) saved c).2 in
  cache_good s0 c' /\ LoadRuleSet (rr_tag s0) c' = (Some (to_seconds saved), c') /\ saved_good s0 (to_seconds saved) rules built.
Proof using All.
  intros [Hw _] Hc He [H0 Hi] Hl. destruct Htag as [Ht Hlen].
  destruct (SaveRuleSet_load c (rr_tag s0) saved Hw Ht Hlen) as (c' & -> & Hw' & Hload & _).
  { destruct saved. by apply saved_ok_small. }
  cbn [snd]. assert (Hg : saved_good s0 (to_seconds saved) rules built).
  { unfold saved_good, to_seconds. cbn [Content LastUpdated LastEtag]. rewrite from_Unix_idem, Unix_from_Unix.
    split_and!; try done. by apply from_Unix_nonneg. }
  split; [|done]. split; [done|]. right. eauto.
Qed.

Lemma inv_saved s c saved rules built now etag f :
  same_config (f s) s0 -> rr_lastUpdated (f s) = now -> rr_lastEtag (f s) = etag -> good_time now -> str_len etag <= max_etag ->
  ls_metadata (rr_set (f s)) = buildRuleSetMetadata rules ->
  ls_rules (rr_set (f s)) = built \/ ls_rules (rr_set (f s)) = [] ->
  cache_good s0 c -> LoadRuleSet (rr_tag s0) c = (Some (to_seconds saved), c) -> saved_good s0 (to_seconds saved) rules built ->
  LastUpdated saved = now -> LastEtag saved = etag ->
  remote_inv s0 (f s) c.
Proof using All.
  intros Hcfg Eu Ee [H0 _] He Hm Hr Hc Hl Hg Eu' Ee'. split_and!; try done.
  - by rewrite Ee.
  - rewrite Eu. unfold zero_time, second. lia.
  - intros _. exists (to_seconds saved), rules, built. split_and!; try done; cbn; congruence.
Qed.

Lemma fetch_inv server now s c :
  good_server server -> good_time now -> remote_inv s0 s c ->
  let '(r, s', cf, called) := fetch en server now s (Some c) in
  exists c', cf = Some c' /\ remote_inv s0 s' c' /\ (r <> Ok tt -> s' = s /\ c' = c /\ called = []).
Proof using All.
  intros Hs Hn Hinv. pose proof Hinv as (Hcfg & Hc & He & Hz & Heff). pose proof Hcfg as (Et & _ & _ & Ef & _). unfold fetch.
  destruct (server (rr_url s) (rr_lastEtag s)) as [e|r] eqn:Er; [by exists c|]. destruct (Hs _ _ _ Er) as (H304 & Hetag & Hbody).
  destruct (Z.eqb_spec (re_StatusCode r) 304) as [E304|_].
  { specialize (H304 E304). destruct (decide (rr_lastUpdated s = zero_time)) as [E|Hne]; [by apply Hz in E|].
    destruct (Heff Hne) as (saved & rules & built & Hl & Hg & Eu & Ee & Em & Hrules). unfold not_modified.
    change (rr_tag (s {{ rr_lastUpdated := now }})) with (rr_tag s). rewrite Et, Hl.
    destruct Hg as (Hsize & Hes & _ & _ & _ & Hlo).
    destruct (save_good c {| Content := Content saved; LastUpdated := now; LastEtag := LastEtag saved |} rules built) as (Hc' & Hl' & Hg'); [done..|].
    eexists. split; [done|]. split; [|done].
    by eapply (inv_saved s _ _ rules built now (rr_lastEtag s) (fun s => s {{ rr_lastUpdated := now }})). }
  destruct (negb (re_StatusCode r =? 200)); [by exists c|]. destruct (re_Body r) as [e|content] eqn:Eb; [by exists c|].
  destruct (loadBytes en content s) as [[s' called]|e|m|] eqn:El; [|by exists c..].
  apply loadBytes_iff in El as (rules & built & Hlo & -> & ->). rewrite Et, Ef in Hlo. unfold save_update.
  set (f := fun s : RemoteRuleSet => (if bool_decide (re_Etag r = "") then with_rules rules built s
    else (with_rules rules built s) {{ rr_lastEtag := re_Etag r }}) {{ rr_lastUpdated := now }}).
  change (_ {{ rr_lastUpdated := now }}) with (f s). cbn [fmap option_fmap option_map].
  assert (Hcf : same_config (f s) s0) by (unfold f; by case_bool_decide).
  destruct (save_good c {| Content := content; LastUpdated := now; LastEtag := rr_lastEtag (f s) |} rules built) as (Hc' & Hl' & Hg');
    [done|by apply Hbody|unfold f; by case_bool_decide|done|done|]. assert (Etf : rr_tag (f s) = rr_tag s0) by apply Hcf.
  rewrite Etf. eexists. split; [done|]. split; [|done].
  eapply (inv_saved s _ _ rules built now (rr_lastEtag (f s)) f); try done; unfold f; case_bool_decide; try done; by left.
Qed.

(** Changes of the rule-set that keep its metadata and its rules, or drop the rules. *)
Lemma set_inv f s c :
  ls_metadata (f (rr_set s)) = ls_metadata (rr_set s) ->
  ls_rules (f (rr_set s)) = ls_rules (rr_set s) \/ ls_rules (f (rr_set s)) = [] ->
  remote_inv s0 s c -> remote_inv s0 (set_of f s) c.
Proof.
  intros Hm Hr (Hcfg & Hc & He & Hz & Heff). split_and!; try done. intros Hne.
  destruct (Heff Hne) as (saved & rules & built & Hl & Hg & Eu & Ee & Em & Hrules). exists saved, rules, built. split_and!; try done.
  - change (ls_metadata (f (rr_set s)) = buildRuleSetMetadata rules). congruence.
  - change (ls_rules (f (rr_set s)) = built \/ ls_rules (f (rr_set s)) = []). destruct Hr as [->|]; [done|by right].
Qed.

Lemma update_inv server now s c :
  good_server server -> good_time now -> remote_inv s0 s c ->
  let '(r, s', cf, called) := updateOnce en server now s (Some c) in exists c', cf = Some c' /\ remote_inv s0 s' c'.
Proof using All.
  intros Hs Hn Hinv. pose proof (fetch_inv server now s c Hs Hn Hinv) as H. unfold updateOnce.
  destruct (fetch en server now s (Some c)) as [[[r s'] cf] called]. destruct H as (c' & -> & H & _).
  destruct r as [u|e|m|]; [|by exists c'..]. exists c'. split; [done|].
  destruct (_ =? 0); [|done]. apply (set_inv drop_rules); [done|by right|done].
Qed.

Hypothesis Hfresh : rr_lastUpdated s0 = zero_time /\ rr_lastEtag s0 = ""%string.

(** Restoring what the cache file has, which is the whole start. *)
Lemma restore_good server now c saved rules built :
  LoadRuleSet (rr_tag s0) c = (Some saved, c) -> saved_good s0 saved rules built ->
  StartContext en server now s0 (Some c) =
  (Ok tt, (with_rules rules built s0) {{ rr_lastUpdated := LastUpdated saved; rr_lastEtag := LastEtag saved }}, Some c).
Proof using All.
  intros Hl (_ & _ & _ & H0 & _ & Hlo). unfold StartContext, restore. rewrite Hl.
  destruct (loadBytes_iff (Content saved) s0 (with_rules rules built s0) (ls_callbacks (rr_set s0))) as [_ Hiff].
  rewrite Hiff by eauto. unfold load_initial.
  change (rr_lastUpdated (_ {{ rr_lastUpdated := LastUpdated saved; rr_lastEtag := LastEtag saved }})) with (LastUpdated saved).
  assert ((LastUpdated saved =? zero_time) = false) as E by (apply Z.eqb_neq; unfold zero_time, second; lia). rewrite E. cbn [andb].
  change (rr_lastUpdated (_ {{ rr_lastUpdated := LastUpdated saved; rr_lastEtag := LastEtag saved }})) with (LastUpdated saved).
  rewrite E. done.
Qed.

Lemma start_inv server now c s' c' :
  good_server server -> good_time now -> cache_good s0 c ->
  StartContext en server now s0 (Some c) = (Ok tt, s', Some c') -> remote_inv s0 s' c'.
Proof using All.
  intros Hs Hn Hc. pose proof Hc as [_ [Hnone|(saved & rules & built & Hl & Hg)]].
  - unfold StartContext, restore. rewrite Hnone. destruct Hfresh as [Ez Ee].
    assert (Hinv : remote_inv s0 s0 c) by (split_and!; try done; by rewrite Ee).
    unfold load_initial. rewrite Ez, Z.eqb_refl. cbn [andb].
    assert (Hfetch : forall s', remote_inv s0 s' c -> rr_lastUpdated s' = zero_time -> forall r s1 cf,
      (let '(r, s, cacheFile, _) := fetch en server now s' (Some c) in
       (match r with Err e => Err (ECause e ("initial rule-set: " +:+ rr_tag s)) | _ => r end, s, cacheFile)) = (r, s1, cf) ->
      forall c1, cf = Some c1 -> remote_inv s0 s1 c1).
    { intros s1 Hi _ r s2 cf E c1 ->. pose proof (fetch_inv server now s1 c Hs Hn Hi) as H.
      destruct (fetch en server now s1 (Some c)) as [[[r' s3] cf'] called]. destruct H as (c2 & -> & H & _). by injection E as _ <- <-. }
    destruct (bool_decide (rr_initialPath s0 = "")) eqn:Ei; cbn [negb].
    { rewrite Ez, Z.eqb_refl. cbn [andb negb]. intros E. by eapply Hfetch. }
    destruct (en_ReadFile en (rr_initialPath s0)) as [e|content].
    { rewrite Ez, Z.eqb_refl. cbn [andb negb]. intros E. by eapply Hfetch. }
    destruct (loadBytes en content s0) as [[s1 called]|e|m|] eqn:El; [| |done..].
    + apply loadBytes_iff in El as (rules & built & _ & -> & _).
      change (rr_lastUpdated (with_rules rules built s0)) with (rr_lastUpdated s0). rewrite Ez, Z.eqb_refl. cbn [andb negb].
      intros [= <- <-]. split_and!; try done. change (str_len (rr_lastEtag s0) <= max_etag). by rewrite Ee.
    + rewrite Ez, Z.eqb_refl. cbn [andb negb]. intros E. by eapply Hfetch.
  - rewrite (restore_good server now c saved rules built Hl Hg). intros [= <- <-].
    pose proof Hg as (Hsz & Hes & Hi & H0 & Heq & Hlo). split_and!; try done.
    + change (LastUpdated saved = zero_time -> LastEtag saved = ""%string). unfold zero_time, second. lia.
    + intros _. exists saved, rules, built. split_and!; try done. by left.
Qed.

Lemma remote_inv_reachable c0 s c :
  cache_good s0 c0 -> rtc (remote_step s0) (s0, c0) (s, c) -> remote_inv s0 s c.
Proof using All.
  intros Hc0. assert (H0 : remote_inv s0 s0 c0) by (destruct Hfresh as [Ez Ee]; split_and!; try done; by rewrite Ee).
  cut (forall x y, rtc (remote_step s0) x y -> remote_inv s0 x.1 x.2 -> remote_inv s0 y.1 y.2); [intros H Hr; by apply (H (s0, c0) (s, c))|].
  induction 1 as [|x y z Hstep _ IH]; [done|]. intros Hx. apply IH. clear IH.
  destruct Hstep as [server now s1 c1 s' c' Hs Hn E|server now r s1 c1 s' c' called Hs Hn E|s1 c1|s1 c1 set E|s1 c1]; cbn [fst snd] in *.
  - by eapply start_inv; [..|exact E]; [done..|apply Hx].
  - pose proof (update_inv server now s1 c1 Hs Hn Hx) as H. rewrite E in H. by destruct H as (c2 & [= ->] & H).
  - apply set_inv; [done|by left|done].
  - unfold DecRef in E. destruct (_ <? 0); [done|]. injection E as <-. apply (set_inv (fun _ => _)); [done|by left|done].
  - apply set_inv; [| |done]; unfold Cleanup; destruct (_ =? 0); cbn; auto.
Qed.

End History.

(** C27: Over every history of starts, updates, reference counts and clean-ups, with servers that answer
    304 only to conditional requests: once a rule-set was downloaded, a restart restores it
    from the cache file without the network, with the rules that are in effect (unless they
    were dropped as unused), their metadata and their etag, and the time to the second. *)
Theorem remote_restart_resumes tag options c0 s c :
  let s0 := NewRemoteRuleSet en tag options in
  tag <> "" -> str_len tag <= MaxKeySize -> table_writable c0 bucketRuleSet -> LoadRuleSet tag c0 = (None, c0) ->
  rtc (remote_step s0) (s0, c0) (s, c) -> rr_lastUpdated s <> zero_time ->
  exists s', (forall server now, StartContext en server now s0 (Some c) = (Ok tt, s', Some c))
    /\ ls_metadata (rr_set s') = ls_metadata (rr_set s) /\ (ls_rules (rr_set s) <> [] -> ls_rules (rr_set s') = ls_rules (rr_set s))
    /\ rr_lastEtag s' = rr_lastEtag s /\ rr_lastUpdated s' = from_Unix (Unix (rr_lastUpdated s)).
Proof using HL XL.
  intros s0 Ht Hlen Hw Hnone Hr Hne.
  destruct (remote_inv_reachable s0 (conj Ht Hlen) (conj eq_refl eq_refl) c0 s c) as (_ & _ & _ & _ & Heff); [|done|].
  { split; [done|by left]. }
  destruct (Heff Hne) as (saved & rules & built & Hl & Hg & Eu & Ee & Em & Hrules).
  eexists. split; [intros server now; by apply (restore_good s0 (conj Ht Hlen) (conj eq_refl eq_refl) server now c saved rules built)|].
  split_and!; try done. intros Hn. destruct Hrules as [<-|]; done.
Qed.

(** An update that fails, because of the network, the status, the content or the validator, leaves
    the rule-set, the cache file and the callbacks alone. *)
Theorem failed_update_changes_nothing server now s cf :
  let '(r, s', cf', called) := updateOnce en server now s cf in
  is_ok r = false -> s' = s /\ cf' = cf /\ called = [].
Proof.
  unfold updateOnce, fetch. destruct (server _ _) as [e|r]; [done|].
  destruct (_ =? 304); [destruct (not_modified now s cf); done|]. destruct (negb _); [done|].
  destruct (re_Body r) as [e|content]; [done|]. destruct (loadBytes en content s) as [[s1 called]| | |]; done.
Qed.

(** ** The updater *)

Lemma update_interval server now s cf : rr_updateInterval (updateOnce en server now s cf).1.1.2 = rr_updateInterval s.
Proof.
  unfold updateOnce, fetch. destruct (server _ _) as [e|r]; [done|]. destruct (_ =? 304).
  { unfold not_modified. destruct cf as [c|]; [destruct (LoadRuleSet _ c) as [[saved|] c']|]; cbn; by destruct (_ =? 0). }
  destruct (negb _); [done|]. destruct (re_Body r) as [e|content]; [done|].
  destruct (loadBytes en content s) as [[s1 called]| | |] eqn:El; try done.
  apply loadBytes_iff in El as (rules & built & _ & -> & _). unfold save_update. case_bool_decide; cbn; by destruct (_ =? 0).
Qed.

(** What an update at the time [t] makes of a rule-set, by the answer of the server: content that
    loads takes effect, at once if the rule-set is in use; content that did not change is as of
    now; anything else leaves the rule-set as it is. *)
Definition updated_by (server : string -> string -> error + Response) (t : Z) s s' : Prop :=
  match server (rr_url s) (rr_lastEtag s) with
  | inl _ => s' = s
  | inr r =>
      if re_StatusCode r =? 304 then
        rr_lastUpdated s' = t /\ ls_metadata (rr_set s') = ls_metadata (rr_set s)
        /\ ls_rules (rr_set s') = (if ls_refs (rr_set s) =? 0 then [] else ls_rules (rr_set s))
      else if re_StatusCode r =? 200 then
        match re_Body r with
        | inl _ => s' = s
        | inr content =>
            (s' = s /\ forall rules built, ~ loads (rr_tag s) (rr_format s) content rules built)
            \/ exists rules built, loads (rr_tag s) (rr_format s) content rules built /\ rr_lastUpdated s' = t
                /\ ls_metadata (rr_set s') = buildRuleSetMetadata rules
                /\ ls_rules (rr_set s') = (if ls_refs (rr_set s) =? 0 then [] else built)
        end
      else s' = s
  end.
Lemma updateOnce_updates server t s cf r s' cf' called :
  updateOnce en server t s cf = (r, s', cf', called) -> (r = Ok tt \/ exists e, r = Err e) -> updated_by server t s s'.
Proof.
  unfold updateOnce, fetch, updated_by. intros H Hr. destruct (server _ _) as [e|re]; [by simplify_eq|]. destruct (_ =? 304).
  { unfold not_modified in H. destruct cf as [c|]; [destruct (LoadRuleSet _ c) as [[saved|] c']|]; cbn in H; simplify_eq; by destruct (_ =? 0). }
  destruct (re_StatusCode re =? 200); cbn [negb] in H; [|by simplify_eq]. destruct (re_Body re) as [e|content]; [by simplify_eq|].
  destruct (loadBytes en content s) as [[s1 called1]|e| |] eqn:El; simplify_eq; [|left|naive_solver..].
  - right. apply loadBytes_iff in El as (rules & built & Hl & -> & _). exists rules, built. split; [done|]. unfold save_update in H.
    case_bool_decide; cbn in H; simplify_eq; by destruct (_ =? 0).
  - split; [done|]. intros rules built Hl.
    assert (loadBytes en content s' = Ok (with_rules rules built s', ls_callbacks (rr_set s'))) as E' by (apply loadBytes_iff; eauto).
    congruence.
Qed.

(** A rule-set after a turn of the updater that began at [now]: not due and untouched, or updated
    and due again after its interval. *)
Definition turned (server : string -> string -> error + Response) (now t : Z) (e e' : RemoteRuleSet * Z) : Prop :=
  (now < e.2 /\ e' = e) \/ (e.2 <= now /\ e'.2 = now + rr_updateInterval e.1 /\ updated_by server t e.1 e'.1).

Lemma update_due_turned server now clock i l cf l' cf' :
  update_due en server now clock i l cf = Ok (l', cf') ->
  length l' = length l /\ forall k e e', l !! k = Some e -> l' !! k = Some e' -> turned (server (i + k)%nat) now (clock (i + k)%nat) e e'.
Proof.
  revert i cf l' cf'. induction l as [|[s next] l IH]; intros i cf l' cf' H; cbn [update_due] in H; inv_ok; [done|].
  match goal with H : update_if_due _ _ _ _ _ _ = Ok _ |- _ => rename H into E end.
  match goal with H : update_due _ _ _ _ _ _ _ = Ok _ |- _ => apply IH in H as [Hlen Hrest] end.
  split; [cbn; lia|]. intros [|k] e e' He He'; cbn in He, He'; [|replace (i + S k)%nat with (S i + k)%nat by lia; by eapply Hrest].
  rewrite Nat.add_0_r. simplify_eq. unfold update_if_due in E. destruct (Z.ltb_spec now next); [left; by inv_ok|]. right.
  pose proof (update_interval (server i) (clock i) s cf) as Hi.
  destruct (updateOnce en (server i) (clock i) s cf) as [[[r s1] cf1] called] eqn:Eu. cbn [fst snd] in Hi.
  destruct r as [[]| | |]; inv_ok; (split_and!; [done|cbn [fst snd]; by rewrite Hi|]); eapply updateOnce_updates; eauto.
Qed.

Lemma min_fold l next x : x ∈ next :: l -> fold_left Z.min l next <= x.
Proof.
  revert next x. induction l as [|y l IH]; intros next x Hx; cbn [fold_left].
  { apply elem_of_cons in Hx as [->|Hx%elem_of_nil]; done. }
  rewrite !elem_of_cons in Hx. destruct Hx as [->|[->|Hx]].
  - transitivity (Z.min next y); [apply IH; by left|lia].
  - transitivity (Z.min next y); [apply IH; by left|lia].
  - apply IH. by right.
Qed.
Lemma min_fold_elem l next : fold_left Z.min l next ∈ next :: l.
Proof.
  revert next. induction l as [|y l IH]; intros next; cbn [fold_left]; [by left|].
  specialize (IH (Z.min next y)). rewrite !elem_of_cons in *. destruct IH as [E|]; [|by auto]. rewrite E.
  destruct (Z.min_spec next y) as [[_ ->]|[_ ->]]; auto.
Qed.

(** C28: A turn of the updater that begins at [now] updates exactly the rule-sets that are due,
    by what their servers answer, and each is due again an update interval later, so after it
    none was due at [now].  The timer, set after the updates, fires as soon as something is due:
    when it fires something is, and nothing is before. *)
Theorem updates_are_due server now clock later l cf s next l' cf' :
  Forall (fun e => 0 < rr_updateInterval e.1) l -> update_due en server now clock 0 l cf = Ok ((s, next) :: l', cf') ->
  let l'' := (s, next) :: l' in
  length l'' = length l
  /\ (forall i e e', l !! i = Some e -> l'' !! i = Some e' -> turned (server i) now (clock i) e e')
  /\ Forall (fun e => now < e.2) l''
  /\ let fires := later + waitUntilNext later next (l'.*2) in
     Exists (fun e => e.2 <= fires) l'' /\ forall t, later <= t < fires -> Forall (fun e => t < e.2) l''.
Proof.
  intros Hpos E l''. apply update_due_turned in E as [Hlen Ht]. split; [done|]. split; [exact Ht|]. split.
  { apply Forall_lookup. intros i e' He'. destruct (lookup_lt_is_Some_2 l i) as [e He]; [rewrite <- Hlen; by eapply lookup_lt_Some|].
    pose proof (proj1 (Forall_lookup _ _) Hpos i e He) as Hp. cbn in Hp. destruct (Ht i e e' He He') as [[? ->]|(_ & -> & _)]; lia. }
  cbn zeta. unfold waitUntilNext. set (m := fold_left Z.min l'.*2 next). split.
  - pose proof (min_fold_elem l'.*2 next) as Hm. fold m in Hm. apply Exists_exists.
    apply elem_of_cons in Hm as [->|(e & -> & He)%list_elem_of_fmap]; [exists (s, next)|exists e]; (split; [|cbn; lia]); [by left|by right].
  - intros t Hlt. apply Forall_forall. intros e' He'. assert (m <= e'.2); [|lia]. apply min_fold.
    apply elem_of_cons in He' as [->|He']; [by left|right]. by apply list_elem_of_fmap_2.
Qed.

(** A server that first sends content with an etag, then other content without one, and then the
    first content again: the etag of the first content is sent for the second, the server
    answers that nothing was modified, and the second stays in effect. *)
Theorem etag_kept_for_new_content s (old new : bytes) etag t1 t2 t3 s1 s2 cf cf1 cf2 called1 called2 :
  etag <> ""%string ->
  let send content e := MkResponse 200 "200 OK" e (inr content) in
  let current url e := if bool_decide (e = etag) then inr (MkResponse 304 "304 Not Modified" etag (inr [])) else inr (send old etag) in
  fetch en (fun _ _ => inr (send old etag)) t1 s cf = (Ok tt, s1, cf1, called1) ->
  fetch en (fun _ _ => inr (send new ""%string)) t2 s1 cf1 = (Ok tt, s2, cf2, called2) ->
  exists rules built, loads (rr_tag s) (rr_format s) new rules built /\
    let s3 := (fetch en current t3 s2 cf2).1.1.2 in
    (fetch en current t3 s2 cf2).1.1.1 = Ok tt /\
    ls_rules (rr_set s3) = built /\ rr_lastUpdated s3 = t3.
Proof.
  intros He send current E1 E2. unfold fetch in E1, E2. cbn in E1, E2.
  destruct (loadBytes en old s) as [[s1' c1]| | |] eqn:L1; try done. apply loadBytes_iff in L1 as (r1 & b1 & _ & -> & _).
  unfold save_update in E1. rewrite bool_decide_eq_false_2 in E1 by done. injection E1 as <- <- <-.
  destruct (loadBytes en new _) as [[s2' c2]| | |] eqn:L2; try done. apply loadBytes_iff in L2 as (r2 & b2 & Hlo & -> & _).
  unfold save_update in E2. cbn in E2. injection E2 as <- <- <-.
  exists r2, b2. split; [exact Hlo|]. unfold fetch, current. cbn zeta.
  match goal with |- context [bool_decide (rr_lastEtag ?x = etag)] => change (rr_lastEtag x) with etag end.
  rewrite bool_decide_eq_true_2 by done. cbn [re_StatusCode Z.eqb Pos.eqb].
  destruct (not_modified t3 _ _) as [s3 cf3] eqn:E3. cbn [fst snd]. split_and!; [done| |];
    (unfold not_modified in E3; revert E3; destruct (_ <$> _) as [c|]; [destruct (LoadRuleSet _ c) as [[saved|] c']|]; by intros [= <- <-]).
Qed.
End Spec.

(** * A remote rule-set, concretely

    Witnesses: a rule-set that is downloaded at its first start and updated, on a cache file. *)

(** The content [[n]] is a source rule-set of [n] rules. *)
Definition case_env : Env :=
  MkEnv (fun b => match b with
                  | [n] => Ok (MkCompat 1 (MkPlainRuleSet (Some (replicate (Z.to_nat n) (default_headless ex_headless)))))
                  | _ => Err (EExternal "json")
                  end)
    (fun _ => inl (EExternal "no such file")) (fun p => p) true None.
Definition case_options : RemoteOptions := MkRemoteOptions "source" "https://example.org/{tag}.json" "" 0.
Definition case_set : RemoteRuleSet := NewRemoteRuleSet case_env "geosite" case_options.
Definition case_cache : CacheFile DB := New "profile" (3600 * second) ∅.

Example url_of_tag : rr_url case_set = "https://example.org/geosite.json"%string /\ rr_updateInterval case_set = 24 * hour.
Proof. by vm_compute. Qed.

(** The server of rule-sets with [n] rules. *)
Definition serving (n : Z) (etag : string) : string -> string -> error + Response :=
  fun _ e => if negb (bool_decide (e = ""%string)) && bool_decide (e = etag) then inr (MkResponse 304 "304 Not Modified" etag (inr []))
             else inr (MkResponse 200 "200 OK" etag (inr [n])).
Lemma serving_good n etag : str_len etag <= max_etag -> good_server (serving n etag).
Proof.
  intros He url e r H. unfold serving in H. destruct (decide (e = ""%string)) as [->|Hne].
  - cbn in H. injection H as <-. split; [done|]. split; [done|]. intros content [= <-]. by vm_compute.
  - rewrite (bool_decide_eq_false_2 _ Hne) in H. cbn [negb andb] in H. destruct (bool_decide (e = etag)); injection H as <-;
      (split; [done|]); (split; [done|]); intros content [= <-]; by vm_compute.
Qed.
Lemma time_good n : 0 <= n < 2 ^ 40 -> good_time (n * second).
Proof. intros H. unfold good_time, is_int64, Unix, second. rewrite Z.div_mul by done. lia. Qed.

Definition started : RemoteRuleSet * CacheFile DB :=
  match StartContext case_env (serving 1 "a") (5 * second) case_set (Some case_cache) with
  | (_, s, Some c) => (s, c)
  | (_, s, None) => (s, case_cache)
  end.
Definition updated : RemoteRuleSet * CacheFile DB :=
  match updateOnce case_env (serving 2 "b") (90000 * second) (set_of IncRef started.1) (Some started.2) with
  | (_, s, Some c, _) => (s, c)
  | (_, s, None, _) => (s, case_cache)
  end.

(** The runs end well; their states are compared by name only. *)
Lemma started_ok : StartContext case_env (serving 1 "a") (5 * second) case_set (Some case_cache) = (Ok tt, started.1, Some started.2).
Proof.
  assert (H : match StartContext case_env (serving 1 "a") (5 * second) case_set (Some case_cache) with
              | (Ok tt, _, Some _) => true | _ => false end = true) by (vm_compute; reflexivity).
  unfold started. by destruct (StartContext _ _ _ _ _) as [[[[]| | |] s] [c|]].
Qed.
Lemma updated_ok : exists called,
  updateOnce case_env (serving 2 "b") (90000 * second) (set_of IncRef started.1) (Some started.2) = (Ok tt, updated.1, Some updated.2, called).
Proof.
  assert (H : match updateOnce case_env (serving 2 "b") (90000 * second) (set_of IncRef started.1) (Some started.2) with
              | (Ok tt, _, Some _, _) => true | _ => false end = true) by (vm_compute; reflexivity).
  unfold updated. destruct (updateOnce _ _ _ _ _) as [[[[[]| | |] s] [c|]] called]; try discriminate. by exists called.
Qed.
Lemma started_step : remote_step case_env case_set (case_set, case_cache) (started.1, started.2).
Proof.
  apply (remote_start case_env case_set (serving 1 "a") (5 * second) case_set case_cache started.1 started.2);
    [by apply serving_good|apply time_good; lia|exact started_ok].
Qed.
Lemma updated_step : remote_step case_env case_set (set_of IncRef started.1, started.2) (updated.1, updated.2).
Proof.
  destruct updated_ok as [called E].
  apply (remote_update case_env case_set (serving 2 "b") (90000 * second) (Ok tt) (set_of IncRef started.1) started.2 updated.1 updated.2 called);
    [by apply serving_good|apply time_good; lia|exact E].
Qed.
Lemma updated_reachable : rtc (remote_step case_env case_set) (case_set, case_cache) (updated.1, updated.2).
Proof. exact (rtc_l _ _ _ _ started_step (rtc_l _ _ _ _ (remote_inc case_env case_set _ _) (rtc_once _ _ updated_step))). Qed.

Lemma remote_restart_resumes_witness :
  exists s', (forall server now, StartContext case_env server now case_set (Some updated.2) = (Ok tt, s', Some updated.2))
    /\ zlen (ls_rules (rr_set s')) = 2 /\ rr_lastEtag s' = "b"%string /\ rr_lastUpdated s' = 90000 * second.
Proof.
  destruct (remote_restart_resumes case_env "geosite" case_options case_cache updated.1 updated.2) as (s' & Hs & _ & Hr & He & Hu);
    [discriminate|vm_compute; discriminate| |reflexivity|exact updated_reachable|vm_compute; discriminate|].
  { split; [exact (proj1 (new_layout (DB := DB) "profile" (3600 * second) _))|reflexivity]. }
  assert (Hz : zlen (ls_rules (rr_set updated.1)) = 2) by (vm_compute; reflexivity).
  exists s'. split; [exact Hs|]. rewrite Hr by (intros E; rewrite E in Hz; discriminate). rewrite He, Hu.
  split; [exact Hz|]. split; vm_compute; reflexivity.
Defined.

(** A turn over two rule-sets whose downloads take seven seconds each. *)
Definition turn_sets : list (RemoteRuleSet * Z) := first_updates [set_of IncRef started.1; case_set].
Definition turn_clock (i : nat) : Z := (90007 + 7 * Z.of_nat i) * second.
Definition turn_result : outcome (list (RemoteRuleSet * Z) * option (CacheFile DB)) :=
  update_due case_env (fun _ => serving 2 "b") (90000 * second) turn_clock 0 turn_sets (Some started.2).
Definition turn : list (RemoteRuleSet * Z) * option (CacheFile DB) := match turn_result with Ok r => r | _ => ([], None) end.
Definition turn_first : RemoteRuleSet * Z := hd (case_set, 0) turn.1.
Lemma turn_ok : turn_result = Ok ((turn_first.1, turn_first.2) :: tl turn.1, turn.2).
Proof.
  assert (H : match turn_result with Ok (_ :: _, _) => true | _ => false end = true) by (vm_compute; reflexivity).
  unfold turn_first, turn. by destruct turn_result as [[[|[s n] l] cf]| | |].
Qed.

Lemma updates_are_due_witness :
  turned case_env (serving 2 "b") (90000 * second) (90007 * second) (hd (case_set, 0) turn_sets) (turn_first.1, turn_first.2)
  /\ zlen (ls_rules (rr_set turn_first.1)) = 2
  /\ let fires := 90014 * second + waitUntilNext (90014 * second) turn_first.2 (tl turn.1).*2 in
     Exists (fun e => e.2 <= fires) ((turn_first.1, turn_first.2) :: tl turn.1).
Proof.
  assert (H : Forall (fun e : RemoteRuleSet * Z => 0 < rr_updateInterval e.1) turn_sets)
    by (apply Forall_cons_2; [by vm_compute|apply Forall_singleton; by vm_compute]).
  pose proof (updates_are_due case_env (fun _ => serving 2 "b") (90000 * second) turn_clock (90014 * second) turn_sets (Some started.2)
    turn_first.1 turn_first.2 (tl turn.1) turn.2 H turn_ok) as (_ & Ht & _ & He & _).
  split; [exact (Ht 0%nat _ _ eq_refl eq_refl)|]. split; [vm_compute; reflexivity|exact He].
Defined.
