(* ===== verification/AdGuard.v ===== *)
(** * The AdGuard convertor

    common/convertor/adguard/convertor.go: [ToOptions] reads an AdGuard DNS filter and makes
    one headless rule of it, [FromOptions] writes such a rule as a filter.  A string is a
    list of bytes. *)

From S2P Require Import Prelude GoStd Netip External DnsMsg RuleItems RuleOptions Srs.
From Stdlib Require Import Ascii.
Local Open Scope Z_scope.

(** ** Code outside the repository *)

(** The functions of package metadata and package common of the sing module. *)
Class SingText := {
  IsDomainName : string -> bool;
  Metadata_ParseAddr : string -> Addr;
  ParseSocksaddr_Port : string -> Z;
  SubstringBefore : string -> string -> string;
  SubstringAfter : string -> string -> string
}.

(** A character of a domain name: a letter, a digit, a hyphen, a dot or an underscore. *)
Definition domain_char (a : ascii) : bool :=
  let c := ascii_byte a in
  (97 <=? c) && (c <=? 122) || (65 <=? c) && (c <=? 90) || (48 <=? c) && (c <=? 57)
  || (c =? 45) || (c =? 46) || (c =? 95).
Fixpoint str_forall (f : ascii -> bool) (s : string) : bool :=
  match s with EmptyString => true | String a s' => f a && str_forall f s' end.

(** A domain name has the characters of one; the text before and after the first separator. *)
Class SingTextLaws (S : SingText) := {
  IsDomainName_chars : forall s, IsDomainName s = true -> str_forall domain_char s = true;
  SubstringBefore_char : forall s c t, str_forall (fun a => negb (Ascii.eqb a c)) s = true ->
    SubstringBefore (s +:+ String c t) (String c EmptyString) = s;
  SubstringAfter_char : forall s c t, str_forall (fun a => negb (Ascii.eqb a c)) s = true ->
    SubstringAfter (s +:+ String c t) (String c EmptyString) = t
}.

(** ** The standard library *)

Definition IsUnspecified (a : Addr) : bool := bool_decide (a = Addr4 0) || bool_decide (a = Addr6 0 "").

Fixpoint str_take (n : nat) (s : string) : string :=
  match n, s with
  | S n', String a s' => String a (str_take n' s')
  | _, _ => EmptyString
  end.
(** [strings.TrimSuffix], and [s[:len(s)-n]]. *)
Definition drop_end (n : nat) (s : string) : string := str_take (String.length s - n) s.
Definition TrimSuffix (s suffix : string) : string :=
  if HasSuffix s suffix then drop_end (String.length suffix) s else s.
(** [strings.ReplaceAll] of a byte by a byte. *)
Fixpoint replace_char (c d : ascii) (s : string) : string :=
  match s with EmptyString => EmptyString | String a s' => String (if Ascii.eqb a c then d else a) (replace_char c d s') end.

(** [bufio.Scanner] with its buffer of 64 KiB: the lines, without a final carriage return,
    before the first that does not fit in the buffer, and whether there is one. *)
Definition MaxScanTokenSize : Z := 65536.
Definition newline : ascii := "010".
Definition dropCR (s : string) : string := TrimSuffix s (String "013" EmptyString).
Fixpoint scan_lines (lines : list string) : list string * bool :=
  match lines with
  | [] => ([], false)
  | [EmptyString] => ([], false)
  | line :: lines' =>
      if MaxScanTokenSize <=? str_len line then ([], true)
      else let '(ls, long) := scan_lines lines' in (dropCR line :: ls, long)
  end.
Definition Scanner_lines (text : string) : list string := (scan_lines (Split newline text)).1.

Section AdGuard.
Context {X : External} {S : SingText}.

(** ** Lines *)

Record agdguardRuleLine := MkLine {
  ruleLine : string;
  isRawDomain : bool;
  isExclude : bool;
  isSuffix : bool;
  hasStart : bool;
  hasEnd : bool;
  isRegexp : bool;
  isImportant : bool
}.
Definition raw_line (s : string) : agdguardRuleLine := MkLine s true false false false false false false.
Definition host_line (s : string) : agdguardRuleLine := MkLine s true false false true true false false.

(** What becomes of a line: nothing, a message that it is ignored, or a rule. *)
Inductive parsed := Skipped | Ignored (why : string) | Parsed (l : agdguardRuleLine).

(** The domain of a line of a hosts file, empty for one that is not blocked. *)
Definition parseAdGuardHostLine (line : string) : outcome string :=
  match str_cut " " line with
  | None => Err ErrInvalid
  | Some (before, domain) =>
      let* address := ParseAddr before in
      if negb (IsUnspecified address) then Ok EmptyString
      else if negb (IsDomainName domain) then Err (ENew ("invalid domain name: " +:+ domain))
      else Ok domain
  end.

Fixpoint rule_parts (parts : list string) : outcome (list Z) :=
  match parts with
  | [] => Ok []
  | part :: parts' => let* p := ParseUint part 8 in let* ps := rule_parts parts' in Ok (p :: ps)
  end.
Definition parseADGuardIPCIDRLine (line : string) : outcome Prefix :=
  let isPrefix := HasSuffix line "." in
  let line := if isPrefix then drop_end 1 line else line in
  let parts := Split "." line in
  if (4 <? zlen parts) || ((zlen parts <? 4) && negb isPrefix) then Err ErrInvalid
  else
    let* ruleParts := rule_parts parts in
    Ok (PrefixFrom (AddrFromSlice (ruleParts ++ replicate (4 - length ruleParts) 0)) (zlen ruleParts * 8)).

Definition ignoreIPCIDRRegexp (line : string) : bool :=
  let line := if HasPrefix line "(http?:\/\/)" then str_drop 12 line
              else if HasPrefix line "(https?:\/\/)" then str_drop 13 line
              else if HasPrefix line "^" then str_drop 1 line else line in
  is_ok (ParseUint (SubstringBefore line "\.") 8) || is_ok (ParseUint (SubstringBefore line ".") 8).

(** ** Modifiers *)

(** A modifier: the name of one that is not supported, or whether it is [important]. *)
Definition parse_param (param : string) : string + bool :=
  match Split "=" param with
  | name :: rest =>
      if bool_decide (length rest <= 1)%nat && bool_decide (name = "important") then inr true
      else if bool_decide (name = "dnsrewrite")
              && match rest with [value] => IsUnspecified (Metadata_ParseAddr value) | _ => false end then inr false
      else inl name
  | [] => inl EmptyString
  end.
Fixpoint parse_params (params : list string) (important : bool) : string + bool :=
  match params with
  | [] => inr important
  | param :: params' =>
      match parse_param param with
      | inl name => inl name
      | inr b => parse_params params' (important || b)
      end
  end.
Definition parse_modifiers (line : string) : string + (string * bool) :=
  if negb (HasPrefix line "/") && StrContains line "$" then
    match parse_params (Split "," (SubstringAfter line "$")) false with
    | inl name => inl name
    | inr important => inr (SubstringBefore line "$", important)
    end
  else inr (line, false).

(** ** The rule of a line *)

(** The marks around the domain: [@@], [|], [||] and [^]. *)
Definition strip_marks (line : string) : agdguardRuleLine :=
  let isExclude := HasPrefix line "@@" in
  let line := if isExclude then str_drop 2 line else line in
  let line := TrimSuffix line "|" in
  let isSuffix := HasPrefix line "||" in
  let hasStart := negb isSuffix && HasPrefix line "|" in
  let line := if isSuffix then str_drop 2 line else if hasStart then str_drop 1 line else line in
  let hasEnd := HasSuffix line "^" in
  let line := if hasEnd then drop_end 1 line else line in
  MkLine line false isExclude isSuffix hasStart hasEnd false false.

Definition with_line (s : string) (suffix regexp : bool) (l : agdguardRuleLine) : agdguardRuleLine :=
  MkLine s (isRawDomain l) (isExclude l) suffix (hasStart l) (hasEnd l) regexp (isImportant l).
Definition with_important (b : bool) (l : agdguardRuleLine) : agdguardRuleLine :=
  MkLine (ruleLine l) (isRawDomain l) (isExclude l) (isSuffix l) (hasStart l) (hasEnd l) (isRegexp l) b.

(** [ruleLine[1 : len(ruleLine)-1]] *)
Definition inner (s : string) : outcome string :=
  if str_len s <? 2 then Panic "slice bounds out of range [1:0]" else Ok (drop_end 1 (str_drop 1 s)).

Definition contains_any (s : string) (subs : list string) : bool := existsb (StrContains s) subs.
Definition domainCheck (s : string) : string :=
  replace_char "*" "x" (if HasPrefix s "." || HasPrefix s "-" then "r" +:+ s else s).

Definition parse_domain (l : agdguardRuleLine) : parsed :=
  let scheme := StrContains (ruleLine l) "://" in
  let line := if scheme then SubstringAfter (ruleLine l) "://" else ruleLine l in
  if StrContains line "/" then Ignored "ignored unsupported rule with path: "
  else if contains_any line ["?"; "&"] then Ignored "ignored unsupported rule with query: "
  else if contains_any line ["["; "]"; "("; ")"; "!"; "#"] then Ignored "ignored unsupported cosmetic filter: "
  else if StrContains line "~" then Ignored "ignored unsupported rule modifier: "
  else if bool_decide (line = EmptyString) then Ignored "ignored unsupported rule with empty domain"
  else if negb (IsDomainName (domainCheck line)) then
    if is_ok (parseADGuardIPCIDRLine line) then Ignored "ignored unsupported rule with IPCIDR: "
    else if negb (ParseSocksaddr_Port (domainCheck line) =? 0) then Ignored "ignored unsupported rule with port: "
    else Ignored "ignored unsupported rule with invalid domain: "
  else Parsed (with_line line (isSuffix l || scheme) false l).

Definition parse_pattern (l : agdguardRuleLine) : outcome parsed :=
  if HasPrefix (ruleLine l) "/" && HasSuffix (ruleLine l) "/" then
    let* re := inner (ruleLine l) in
    if ignoreIPCIDRRegexp re then Ok (Ignored "ignored unsupported rule with IPCIDR regexp: ")
    else Ok (Parsed (with_line re (isSuffix l) true l))
  else Ok (parse_domain l).

(** One turn of the loop of [ToOptions]. *)
Definition parse_line (line : string) : outcome parsed :=
  if bool_decide (line = EmptyString) then Ok Skipped
  else if HasPrefix line "!" || HasPrefix line "#" then Ok Skipped
  else if IsDomainName line then Ok (Parsed (raw_line line))
  else match parseAdGuardHostLine line with
  | Ok EmptyString => Ok Skipped
  | Ok domain => Ok (Parsed (host_line domain))
  | _ =>
      match parse_modifiers (TrimSuffix line "|") with
      | inl name => Ok (Ignored ("ignored unsupported rule with modifier: " +:+ name +:+ ": "))
      | inr (line, important) => parse_pattern (with_important important (strip_marks line))
      end
  end.

(** The rules of the lines and the number of lines ignored. *)
Fixpoint parse_lines (lines : list string) : outcome (list agdguardRuleLine * Z) :=
  match lines with
  | [] => Ok ([], 0)
  | line :: lines' =>
      let* p := parse_line line in
      let* rest := parse_lines lines' in
      let '(ls, ignored) := rest in
      Ok match p with
         | Skipped => (ls, ignored)
         | Ignored _ => (ls, ignored + 1)
         | Parsed l => (l :: ls, ignored)
         end
  end.

(** ** [ToOptions] *)

Definition mapDomain (l : agdguardRuleLine) : string :=
  (if isSuffix l then "||" else if hasStart l then "|" else "") +:+ ruleLine l +:+ (if hasEnd l then "^" else "").

(** The lines of a class; [common.Map] and [common.Filter] make slices that are not nil. *)
Definition class_of (important regexp exclude : bool) (l : agdguardRuleLine) : bool :=
  Bool.eqb (isImportant l) important && Bool.eqb (isRegexp l) regexp && Bool.eqb (isExclude l) exclude.
Definition class_lines (important regexp exclude : bool) (ls : list agdguardRuleLine) : list string :=
  mapDomain <$> List.filter (class_of important regexp exclude) ls.

Definition adguard_rule (domain regex : list string) (invert : bool) : HeadlessRule :=
  default_headless (set_AdGuardDomain (Some domain) (set_DomainRegex (Some regex) (zero_headless invert))).
Definition is_empty {A} (l : list A) : bool := match l with [] => true | _ => false end.

(** A rule in front of the current one, unless it has no lines. *)
Definition in_front (mode : string) (domain regex : list string) (invert : bool) (current : HeadlessRule) : HeadlessRule :=
  if is_empty domain && is_empty regex then current
  else logical_headless mode [adguard_rule domain regex invert; current] false.

Definition rule_of_lines (ls : list agdguardRuleLine) : HeadlessRule :=
  if forallb isRawDomain ls then
    default_headless (set_Domain (Some (ruleLine <$> ls)) (zero_headless false))
  else
    let currentRule := adguard_rule (class_lines false false false ls) (class_lines false true false ls) false in
    let currentRule := in_front "and" (class_lines false false true ls) (class_lines false true true ls) true currentRule in
    let currentRule := in_front "or" (class_lines true false false ls) (class_lines true true false ls) false currentRule in
    in_front "and" (class_lines true false true ls) (class_lines true true true ls) true currentRule.

(** The error of the scanner is not looked at. *)
Definition ToOptions (text : string) : outcome (list HeadlessRule) :=
  let* parsed := parse_lines (Scanner_lines text) in
  let ls := parsed.1 in
  if is_empty ls then Err (ENew "AdGuard rule-set is empty or all rules are unsupported")
  else Ok [rule_of_lines ls].

(** The command [rule-set convert], between the file it reads and the file it writes. *)
Definition convertRuleSet (text : string) : outcome bytes :=
  let* rules := ToOptions text in
  Write (MkPlainRuleSet (Some rules)) 2.

(** ** [FromOptions] *)

Definition ErrInvalidAdGuard : error := ENew "invalid binary AdGuard rule-set".

Record adguard_lists := MkLists {
  importantDomain : list string;
  importantDomainRegex : list string;
  importantExcludeDomain : list string;
  importantExcludeDomainRegex : list string;
  domain : list string;
  domainRegex : list string;
  excludeDomain : list string;
  excludeDomainRegex : list string
}.
Definition no_lists : adguard_lists := MkLists [] [] [] [] [] [] [] [].
Definition set_important d r (a : adguard_lists) : adguard_lists :=
  MkLists d r (importantExcludeDomain a) (importantExcludeDomainRegex a) (domain a) (domainRegex a) (excludeDomain a) (excludeDomainRegex a).
Definition set_importantExclude d r (a : adguard_lists) : adguard_lists :=
  MkLists (importantDomain a) (importantDomainRegex a) d r (domain a) (domainRegex a) (excludeDomain a) (excludeDomainRegex a).
Definition set_exclude d r (a : adguard_lists) : adguard_lists :=
  MkLists (importantDomain a) (importantDomainRegex a) (importantExcludeDomain a) (importantExcludeDomainRegex a) (domain a) (domainRegex a) d r.
Definition set_ordinary d r (a : adguard_lists) : adguard_lists :=
  MkLists (importantDomain a) (importantDomainRegex a) (importantExcludeDomain a) (importantExcludeDomainRegex a) d r (excludeDomain a) (excludeDomainRegex a).

(** The loop [parse]; a rule of another type leaves the loop where it is. *)
Fixpoint collect (rule : HeadlessRule) (a : adguard_lists) : outcome adguard_lists :=
  match rule with
  | MkHeadless type d l =>
      if bool_decide (type = "logical") then
        match l with
        | MkLogicalHeadless mode (Some [MkHeadless type0 o _; next]) _ =>
            let ds := elems (h_AdGuardDomain o) in
            let rs := elems (h_DomainRegex o) in
            let nothing := is_empty ds && is_empty rs in
            if negb (bool_decide (type0 = "default")) then Err ErrInvalidAdGuard
            else if bool_decide (mode = "and") && h_Invert o then
              if nothing then Err ErrInvalidAdGuard
              else if is_empty (importantExcludeDomain a) && is_empty (importantExcludeDomainRegex a)
              then collect next (set_importantExclude ds rs a)
              else collect next (set_exclude ds rs a)
            else if bool_decide (mode = "or") && negb (h_Invert o) then
              if nothing then Err ErrInvalidAdGuard else collect next (set_important ds rs a)
            else Err ErrInvalidAdGuard
        | _ => Err ErrInvalidAdGuard
        end
      else if bool_decide (type = "default") then
        let ds := elems (h_AdGuardDomain d) in
        let rs := elems (h_DomainRegex d) in
        if is_empty ds && is_empty rs then Err ErrInvalidAdGuard else Ok (set_ordinary ds rs a)
      else Diverge
  end.

Definition write_lines (before after : string) (ls : list string) : list string :=
  (fun l => before +:+ l +:+ after) <$> ls.
Definition output_lines (a : adguard_lists) : list string :=
  write_lines "" "$important" (importantDomain a)
  ++ write_lines "/" "/$important" (importantDomainRegex a)
  ++ write_lines "@@" "$important" (importantExcludeDomain a)
  ++ write_lines "@@/" "/$important" (importantExcludeDomainRegex a)
  ++ write_lines "" "" (domain a)
  ++ write_lines "/" "/" (domainRegex a)
  ++ write_lines "@@" "" (excludeDomain a)
  ++ write_lines "@@/" "/" (excludeDomainRegex a).
Definition FromOptions (rules : list HeadlessRule) : outcome string :=
  match rules with
  | [rule] =>
      let* a := collect rule no_lists in
      Ok (String.concat "" ((fun l => l +:+ String newline EmptyString) <$> output_lines a))
  | _ => Err ErrInvalidAdGuard
  end.

End AdGuard.
