(* ===== verification/AdGuardSpec.v ===== *)
(** * The AdGuard convertor: the meaning of the lines it reads, and printing

    [converted_lines_semantics]: the rule made of lines matches by the precedence of
    AdGuard.  [parse_printed_line]: the syntax of a line.  [reconverted_filter]: [FromOptions]
    against [ToOptions]. *)

From S2P Require Import Prelude GoStd Netip External Concrete DnsMsg RuleItems RuleMatch RuleSpec RuleOptions RuleBuild RuleBuildSpec RuleSetState Srs SrsSpec GeositeSpec AdGuard.
From Stdlib Require Import Ascii Btauto.
Local Open Scope Z_scope.

(** ** Matching *)

Section Semantics.
Context {X : External} {XL : ExternalLaws X} {S : SingText}.
Implicit Types (w : World) (md : InboundContext) (ls : list agdguardRuleLine).

(** A matcher of several patterns matches what one of them does. *)
Definition patterns_alternative : Prop :=
  forall l h, AdGuardMatcher_Match (NewAdGuardMatcher l) h = existsb (fun p => AdGuardMatcher_Match (NewAdGuardMatcher [p]) h) l.

Definition line_matches (h : string) (l : agdguardRuleLine) : bool :=
  if isRegexp l then regex_holds [mapDomain l] h else AdGuardMatcher_Match (NewAdGuardMatcher [mapDomain l]) h.
(** A line that blocks, or that unblocks, with or without [important]. *)
Definition kind_of (important exclude : bool) (l : agdguardRuleLine) : bool :=
  Bool.eqb (isImportant l) important && Bool.eqb (isExclude l) exclude.
Definition some_line (important exclude : bool) ls (h : string) : bool :=
  existsb (fun l => kind_of important exclude l && line_matches h l) ls.
(** The precedence of AdGuard. *)
Definition blocked ls (h : string) : bool :=
  if some_line true true ls h then false
  else if some_line true false ls h then true
  else if some_line false true ls h then false
  else some_line false false ls h.

Lemma match_host_orb md f g : match_host md f || match_host md g = match_host md (fun h => f h || g h).
Proof. unfold match_host. by case_bool_decide. Qed.
Lemma match_host_ext md f g : (forall h, f h = g h) -> match_host md f = match_host md g.
Proof. intros H. unfold match_host. by rewrite H. Qed.
Lemma match_host_reset md f : match_host (ResetRuleCache md) f = match_host md f.
Proof. by destruct md. Qed.

(** The patterns of a rule. *)
Definition patterns_match (d r : list string) (h : string) : bool :=
  (negb (is_empty d) && AdGuardMatcher_Match (NewAdGuardMatcher d) h) || regex_holds r h.

(** The options as they are, or as a binary rule-set brings them back. *)
Definition stored (loaded : bool) (o : HeadlessRule) : HeadlessRule := if loaded then canon 2 false o else o.

Lemma adguard_rule_matches loaded w md nm d r inv rule :
  NewHeadlessRule nm (stored loaded (adguard_rule d r inv)) = Ok rule -> md_IgnoreDestinationIPCIDRMatch md = false ->
  is_empty d && is_empty r = false ->
  (rule_Match w rule md).1 = xorb inv (match_host md (patterns_match d r)).
Proof.
  set (o0 := set_AdGuardDomain (Some d) (set_DomainRegex (Some r) (zero_headless inv))).
  set (o := if loaded then canon_default 2 false o0 else o0).
  assert (stored loaded (adguard_rule d r inv) = MkHeadless "default" o zero_logical_headless) as -> by (by destruct loaded).
  rewrite NewHeadlessRule_default. intros H Hi Hne.
  destruct (DefaultHeadlessRule_IsValid _); [|done]. cbn [negb] in H. inv_ok. cbn [rule_Match].
  unfold NewDefaultHeadlessRule in E. inv_ok.
  erewrite (built_rule_semantics Ok w md); [|apply headless_steps_describe|eassumption|apply start_items_Ok|done].
  assert (h_Invert o = inv) as -> by (by destruct loaded).
  assert (Hc : List.filter cond_given (headless_conditions w md nm o)
    = (if is_empty r then [] else [MkCond GDestinationAddress true (match_host md (regex_holds r))])
      ++ (if is_empty d then [] else [MkCond GDestinationAddress true (match_host md (AdGuardMatcher_Match (NewAdGuardMatcher d)))])).
  { by destruct loaded, nm, d, r. }
  rewrite existsb_given, <- conditions_match_given, Hc.
  rewrite bool_decide_false by (by destruct d, r). cbn [negb]. f_equal. unfold patterns_match.
  unfold conditions_match. rewrite <- match_host_orb. destruct d as [|x d], r as [|y r]; cbn [is_empty negb andb]; [done| | |];
    try change (fun h => AdGuardMatcher_Match (NewAdGuardMatcher (x :: d)) h) with (AdGuardMatcher_Match (NewAdGuardMatcher (x :: d))).
  - rewrite match_host_false. generalize (match_host md (regex_holds (y :: r))) as B.
    destruct (md_IPCIDRMatchSource md); intros []; reflexivity.
  - replace (regex_holds []) with (fun _ : string => false) by reflexivity. rewrite match_host_false.
    generalize (match_host md (AdGuardMatcher_Match (NewAdGuardMatcher (x :: d)))) as A. destruct (md_IPCIDRMatchSource md); intros []; reflexivity.
  - generalize (match_host md (regex_holds (y :: r))) as B.
    generalize (match_host md (AdGuardMatcher_Match (NewAdGuardMatcher (x :: d)))) as A.
    destruct (md_IPCIDRMatchSource md); intros [] []; reflexivity.
Qed.

Lemma logical_two loaded nm mode a b rule :
  mode = "and" \/ mode = "or" ->
  NewHeadlessRule nm (stored loaded (logical_headless mode [a; b] false)) = Ok rule ->
  exists ra rb, NewHeadlessRule nm (stored loaded a) = Ok ra /\ NewHeadlessRule nm (stored loaded b) = Ok rb
    /\ rule = LogicalR KLogicalHeadlessRule (MkLogical [ra; rb] mode false).
Proof.
  intros Hm. assert (stored loaded (logical_headless mode [a; b] false) = logical_headless mode [stored loaded a; stored loaded b] false) as ->
    by (by destruct loaded).
  unfold logical_headless. rewrite NewHeadlessRule_logical. intros H. inv_ok. destruct a0; [|done]. cbn [negb] in H.
  assert (check_mode mode = Ok mode) as Hc by (by destruct Hm as [-> | ->]). rewrite Hc in H. cbn [obind] in H.
  inv_ok. cbn in E0. inv_ok. unfold cause in *.
  destruct (NewHeadlessRule nm (stored loaded a)) eqn:Ea; try done. destruct (NewHeadlessRule nm (stored loaded b)) eqn:Eb; try done.
  cbn in *. inv_ok. by eexists _, _.
Qed.
(** What a rule matches, as a function of what predicates hold of the host. *)
Definition means (loaded nm : bool) (o : HeadlessRule) (F : ((string -> bool) -> bool) -> bool) : Prop :=
  forall w md rule, NewHeadlessRule nm (stored loaded o) = Ok rule -> md_IgnoreDestinationIPCIDRMatch md = false ->
    (rule_Match w rule md).1 = F (match_host md).
Definition joined (mode : string) (d r : list string) (inv : bool) (F : ((string -> bool) -> bool) -> bool) (m : (string -> bool) -> bool) : bool :=
  if is_empty d && is_empty r then F m
  else if bool_decide (mode = "and") then xorb inv (m (patterns_match d r)) && F m else xorb inv (m (patterns_match d r)) || F m.

Lemma in_front_means loaded nm mode d r inv current F :
  mode = "and" \/ mode = "or" -> (forall m m', (forall f, m f = m' f) -> F m = F m') -> means loaded nm current F ->
  means loaded nm (in_front mode d r inv current) (joined mode d r inv F).
Proof.
  intros Hm Hext Hc w md rule H Hi. unfold in_front in H. unfold joined. destruct (is_empty d && is_empty r) eqn:Ee; [by eapply Hc|].
  apply logical_two in H as (ra & rb & Ha & Hrb & ->); [|done]. cbn [rule_Match abstractLogical_Match fst forallb existsb].
  assert (Hi' : md_IgnoreDestinationIPCIDRMatch (ResetRuleCache md) = false) by (by destruct md).
  rewrite (adguard_rule_matches loaded w (ResetRuleCache md) nm d r inv ra Ha Hi' Ee), (Hc w _ rb Hrb Hi'), match_host_reset.
  rewrite (Hext _ (match_host md)) by apply match_host_reset.
  by destruct Hm as [-> | ->]; cbn [bool_decide]; rewrite ?andb_true_r, ?orb_false_r.
Qed.
Lemma joined_ext mode d r inv F m m' :
  (forall m m', (forall f, m f = m' f) -> F m = F m') -> (forall f, m f = m' f) -> joined mode d r inv F m = joined mode d r inv F m'.
Proof. intros HF Hm. unfold joined. by rewrite Hm, (HF m m' Hm). Qed.

Lemma joined_and md d r F :
  joined "and" d r true F (match_host md) = negb (match_host md (patterns_match d r)) && F (match_host md).
Proof.
  unfold joined. destruct d, r; try reflexivity. cbn [is_empty andb].
  replace (patterns_match [] []) with (fun _ : string => false) by reflexivity. by rewrite match_host_false.
Qed.
Lemma joined_or md d r F :
  joined "or" d r false F (match_host md) = match_host md (patterns_match d r) || F (match_host md).
Proof.
  unfold joined. destruct d, r; try reflexivity. cbn [is_empty andb].
  replace (patterns_match [] []) with (fun _ : string => false) by reflexivity. by rewrite match_host_false.
Qed.
Lemma class_empty important exclude ls :
  is_empty (class_lines important false exclude ls) && is_empty (class_lines important true exclude ls)
  = negb (existsb (kind_of important exclude) ls).
Proof.
  assert (Hc : forall r l, class_of important r exclude l = kind_of important exclude l && Bool.eqb (isRegexp l) r)
    by (intros; unfold class_of, kind_of; btauto).
  unfold class_lines. induction ls as [|l ls IH]; [done|]. cbn [List.filter existsb]. rewrite !Hc.
  destruct (kind_of important exclude l), (isRegexp l); cbn; rewrite ?andb_false_r; done.
Qed.

(** The patterns of a class match what one of its lines does. *)
Lemma class_matches important exclude ls h :
  patterns_alternative ->
  patterns_match (class_lines important false exclude ls) (class_lines important true exclude ls) h = some_line important exclude ls h.
Proof.
  intros Hp. unfold patterns_match. rewrite Hp.
  assert (forall d (f : string -> bool), negb (is_empty d) && existsb f d = existsb f d) as -> by (by intros []).
  unfold some_line, class_lines, regex_holds. induction ls as [|l ls IH]; [done|]. cbn [List.filter existsb].
  rewrite <- IH. unfold kind_of, line_matches, class_of, regex_holds.
  destruct (Bool.eqb (isImportant l) important), (isRegexp l), (Bool.eqb (isExclude l) exclude); cbn [andb Bool.eqb]; try done;
    rewrite ?fmap_cons; cbn [existsb]; rewrite ?orb_false_r; btauto.
Qed.

(** The rule of a filter with a line that blocks without [important]. *)
Lemma filter_rule_matches loaded ls w md nm rule :
  patterns_alternative -> forallb isRawDomain ls = false -> existsb (kind_of false false) ls = true ->
  md_IgnoreDestinationIPCIDRMatch md = false -> NewHeadlessRule nm (stored loaded (rule_of_lines ls)) = Ok rule ->
  (rule_Match w rule md).1 = match_host md (blocked ls).
Proof.
  intros Hp Hraw Hord Hi. unfold rule_of_lines. rewrite Hraw. cbv zeta.
  set (F0 := fun m : (string -> bool) -> bool => m (patterns_match (class_lines false false false ls) (class_lines false true false ls))).
  assert (H0 : means loaded nm (adguard_rule (class_lines false false false ls) (class_lines false true false ls) false) F0).
  { intros w' md' r' Hr Hi'. rewrite (adguard_rule_matches _ _ _ _ _ _ _ _ Hr Hi') by (by rewrite class_empty, Hord). by rewrite xorb_false_l. }
  assert (E0 : forall m m', (forall f, m f = m' f) -> F0 m = F0 m') by (intros m m' H; apply H).
  intros Hr. erewrite (in_front_means loaded nm "and"); [|by left| |apply in_front_means; [by right| |apply in_front_means; [by left|exact E0|exact H0]]|exact Hr|done].
  - rewrite joined_and, joined_or, joined_and. subst F0. cbv beta. unfold match_host, blocked. case_bool_decide; [done|].
    rewrite !class_matches by done. by destruct (some_line true true _ _), (some_line true false _ _), (some_line false true _ _).
  - intros m m'. apply joined_ext. intros. by apply joined_ext.
  - intros m m'. by apply joined_ext.
Qed.

(** The lines fit the length fields of the format. *)
Definition lines_fit ls : Prop := zlen ls < 2 ^ 63 /\ Forall (fun l => str_len (mapDomain l) < 2 ^ 63) ls.

Lemma class_lines_fit ls i r e : lines_fit ls -> strs_ok (class_lines i r e ls).
Proof.
  intros [Hn Hl]. split.
  - unfold class_lines, zlen in *. rewrite length_fmap. pose proof (filter_length_le (class_of i r e) ls). lia.
  - unfold class_lines. apply Forall_fmap, Forall_forall. intros l [Hin%list_elem_of_In _]%list_elem_of_In%filter_In.
    exact (proj1 (Forall_forall _ _) Hl l Hin).
Qed.
Lemma adguard_rule_wf ls i e inv : lines_fit ls -> rule_wf (adguard_rule (class_lines i false e ls) (class_lines i true e ls) inv).
Proof. intros Hl. split; [|done]. apply patterns_wf. by apply class_lines_fit. Qed.
Lemma in_front_wf mode ls i e inv o : lines_fit ls -> rule_wf o -> rule_wf (in_front mode (class_lines i false e ls) (class_lines i true e ls) inv o).
Proof.
  intros Hl Ho. unfold in_front. destruct (_ && _); [done|].
  pose proof (adguard_rule_wf ls i e inv Hl). cbn [logical_headless rule_wf]. split; [apply zero_headless_wf|]. by split.
Qed.

(** The rule-set a text is converted to, by the lines read of the text. *)
Lemma converted_lines_semantics text ls ignored content w md nm :
  patterns_alternative -> parse_lines (Scanner_lines text) = Ok (ls, ignored) -> lines_fit ls ->
  forallb isRawDomain ls = false -> existsb (kind_of false false) ls = true ->
  convertRuleSet text = Ok content -> md_IgnoreDestinationIPCIDRMatch md = false ->
  exists o, Read false content = Ok (MkCompat 2 (MkPlainRuleSet (Some [o]))) /\
    forall rule, NewHeadlessRule nm o = Ok rule -> (rule_Match w rule md).1 = match_host md (blocked ls).
Proof.
  intros Hp Hl Hfit Hraw Hord Hc Hi. unfold convertRuleSet, ToOptions in Hc. rewrite Hl in Hc. cbn [obind fst] in Hc.
  replace (is_empty ls) with false in Hc by (by destruct ls). cbn [obind] in Hc.
  eexists. split.
  - apply (Read_Write 2 false) in Hc; [exact Hc|unfold RuleSetVersionCurrent; lia|]. split; [done|]. constructor; [|constructor].
    unfold rule_of_lines. rewrite Hraw. cbv zeta. repeat apply in_front_wf; try done. by apply adguard_rule_wf.
  - intros rule. by apply (filter_rule_matches true).
Qed.

(** A filter of domains and hosts only makes a rule of the domain matcher. *)
Theorem domain_list_semantics text ls ignored w md nm :
  parse_lines (Scanner_lines text) = Ok (ls, ignored) -> forallb isRawDomain ls = true -> ls <> [] ->
  md_IgnoreDestinationIPCIDRMatch md = false ->
  exists o, ToOptions text = Ok [o] /\
    forall rule, NewHeadlessRule nm o = Ok rule ->
      (rule_Match w rule md).1 = match_host md (Matcher_Match (NewMatcher (ruleLine <$> ls) [] false)).
Proof.
  intros Hl Hraw. unfold ToOptions. rewrite Hl. cbn [obind fst]. destruct ls as [|l ls]; [done|]. cbn [is_empty]. intros _ Hi.
  eexists. split; [done|]. unfold rule_of_lines. rewrite Hraw. unfold default_headless. rewrite NewHeadlessRule_default.
  intros rule H. destruct (DefaultHeadlessRule_IsValid _); [|done]. cbn [negb] in H. inv_ok. cbn [rule_Match].
  unfold NewDefaultHeadlessRule in E. inv_ok.
  erewrite (built_rule_semantics Ok w md); [|apply headless_steps_describe|eassumption|apply start_items_Ok|done].
  set (o := set_Domain _ _). set (m := match_host _ _).
  assert (Hc : List.filter cond_given (headless_conditions w md nm o) = [MkCond GDestinationAddress true m]) by (by destruct nm).
  rewrite existsb_given, <- conditions_match_given, Hc. unfold conditions_match. clearbody m.
  destruct (md_IPCIDRMatchSource md), m; reflexivity.
Qed.
End Semantics.

(** ** The syntax of lines *)

Section Syntax.
Context {X : External} {S : SingText} {SL : SingTextLaws S}.

Lemma str_take_drop n s : str_take n s +:+ str_drop n s = s.
Proof.
  revert s. induction n as [|n IH]; intros s; [done|]. destruct s as [|a s]; [done|]. cbn [str_take str_drop].
  exact (f_equal (String a) (IH s)).
Qed.
Lemma HasSuffix_self s t : HasSuffix (s +:+ t) t = true.
Proof.
  unfold HasSuffix. rewrite str_length_app, bool_decide_true by lia.
  rewrite Nat.add_sub, str_drop_app. by rewrite bool_decide_true.
Qed.
Lemma HasSuffix_free c s : free_of c s = true -> HasSuffix s (String c "") = false.
Proof.
  intros Hf. unfold HasSuffix. destruct (bool_decide (str_drop _ s = _)) eqn:E; [|by rewrite andb_false_r].
  apply bool_decide_eq_true_1 in E. exfalso. rewrite <- (str_take_drop (String.length s - String.length (String c "")) s), E in Hf.
  rewrite free_of_app in Hf. cbn in Hf. by rewrite Ascii.eqb_refl, andb_false_r in Hf.
Qed.
Lemma str_take_app s t : str_take (String.length s) (s +:+ t) = s.
Proof. induction s as [|a s IH]; [by destruct t|]. exact (f_equal (String a) IH). Qed.
Lemma drop_end_app s t : drop_end (String.length t) (s +:+ t) = s.
Proof. unfold drop_end. rewrite str_length_app, Nat.add_sub. apply str_take_app. Qed.
Lemma TrimSuffix_free c s : free_of c s = true -> TrimSuffix s (String c "") = s.
Proof. intros H. unfold TrimSuffix. by rewrite HasSuffix_free. Qed.

(** A character of a pattern: one of a domain name, or a star. *)
Definition pattern_char (a : ascii) : bool := domain_char a || Ascii.eqb a "*".

Lemma pattern_free c s : pattern_char c = false -> str_forall pattern_char s = true -> free_of c s = true.
Proof.
  intros Hc. induction s as [|a s IH]; [done|]. cbn. intros [Ha Hs]%andb_true_iff. rewrite IH, andb_true_r by done.
  destruct (Ascii.eqb_spec a c) as [->|]; [congruence|done].
Qed.
Lemma free_forall c s : free_of c s = true -> str_forall (fun a => negb (Ascii.eqb a c)) s = true.
Proof. induction s as [|a s IH]; [done|]. cbn. intros [-> Hs]%andb_true_iff. by rewrite IH. Qed.
Lemma not_domain_name c s : domain_char c = false -> free_of c s = false -> IsDomainName s = false.
Proof.
  intros Hc Hf. destruct (IsDomainName s) eqn:E; [|done]. apply IsDomainName_chars in E. exfalso.
  induction s as [|a s IH]; [done|]. cbn in *. apply andb_true_iff in E as [Ea Es].
  destruct (Ascii.eqb_spec a c) as [->|]; [congruence|]. by apply IH.
Qed.

Lemma HasSuffix_cons a s c : s <> "" -> HasSuffix (String a s) (String c "") = HasSuffix s (String c "").
Proof.
  intros Hs. unfold HasSuffix. destruct s as [|b s]; [done|]. cbn [String.length]. rewrite !Nat.sub_succ, !Nat.sub_0_r.
  rewrite !bool_decide_true by lia. by destruct (String.length s).
Qed.
Lemma HasSuffix_end s t c : t <> "" -> free_of c t = true -> HasSuffix (s +:+ t) (String c "") = false.
Proof.
  intros Hne Hf. induction s as [|a s IH]; [by apply HasSuffix_free|]. change (String a s +:+ t) with (String a (s +:+ t)).
  rewrite HasSuffix_cons; [done|]. by destruct s.
Qed.
Lemma TrimSuffix_end s t c : t <> "" -> free_of c t = true -> TrimSuffix (s +:+ t) (String c "") = s +:+ t.
Proof. intros H1 H2. unfold TrimSuffix. by rewrite HasSuffix_end. Qed.
Lemma HasPrefix_self p t : HasPrefix (p +:+ t) p = true.
Proof.
  unfold HasPrefix. induction p as [|a p IH]; [by destruct t|]. change (String a p +:+ t) with (String a (p +:+ t)). cbn [String.prefix].
  by destruct (ascii_dec a a).
Qed.
Lemma HasPrefix_pattern c p s t :
  pattern_char c = false -> s <> "" -> str_forall pattern_char s = true -> HasPrefix (s +:+ t) (String c p) = false.
Proof.
  intros Hc. destruct s as [|a s]; [done|]. cbn [str_forall]. intros _ [Ha _]%andb_true_iff. unfold HasPrefix.
  change (String a s +:+ t) with (String a (s +:+ t)). cbn [String.prefix]. destruct (ascii_dec c a) as [->|]; [|done]. by rewrite Hc in Ha.
Qed.

(** The pattern of a rule without a regular expression. *)
Definition pattern_line (l : agdguardRuleLine) : Prop :=
  isRawDomain l = false /\ isRegexp l = false /\ isSuffix l && hasStart l = false
  /\ str_forall pattern_char (ruleLine l) = true /\ ruleLine l <> "" /\ IsDomainName (domainCheck (ruleLine l)) = true.
(** A line as filters have it. *)
Definition print_line (l : agdguardRuleLine) : string :=
  (if isExclude l then "@@" else "") +:+ mapDomain l +:+ (if isImportant l then "$important" else "").
Definition marked (l : agdguardRuleLine) : bool := isExclude l || isSuffix l || hasStart l || hasEnd l || isImportant l.

(** Where the marks end. *)
Definition ending (d : string) (en : bool) : string := d +:+ (if en then "^" else "").
Lemma ending_ok d en c :
  d <> "" -> str_forall pattern_char d = true -> pattern_char c = false -> Ascii.eqb "^" c = false ->
  ending d en <> "" /\ free_of c (ending d en) = true.
Proof.
  intros Hd Hp Hc He. unfold ending. split; [by destruct d|]. rewrite free_of_app, (pattern_free c d) by done. destruct en; [|done].
  cbn [free_of andb]. by rewrite He.
Qed.

Lemma strip_marks_printed (ex suf st : bool) d en :
  d <> "" -> str_forall pattern_char d = true -> suf && st = false ->
  strip_marks ((if ex then "@@" else "") +:+ (if suf then "||" else if st then "|" else "") +:+ ending d en)
  = MkLine d false ex suf st en false false.
Proof.
  intros Hd Hp Hs. destruct (ending_ok d en "|" Hd Hp eq_refl eq_refl) as [Hne Hf].
  assert (Hpre : forall c p, pattern_char c = false -> HasPrefix (ending d en) (String c p) = false) by (intros; by apply HasPrefix_pattern).
  assert (Hend : HasSuffix (ending d en) "^" = en /\ (if en then drop_end 1 (ending d en) else ending d en) = d).
  { unfold ending. destruct en; [rewrite HasSuffix_self; split; [done|exact (drop_end_app d "^")]|]. rewrite str_app_nil_r. split; [|done].
    by apply HasSuffix_free, pattern_free. }
  destruct Hend as [Hend1 Hend2]. set (marks := if suf then "||" else if st then "|" else ""). set (E := ending d en) in *.
  assert (H1 : HasPrefix ((if ex then "@@" else "") +:+ marks +:+ E) "@@" = ex).
  { destruct ex; [apply (HasPrefix_self "@@")|]. subst marks. destruct suf, st; try reflexivity. by apply Hpre. }
  assert (H2 : (if ex then str_drop 2 ((if ex then "@@" else "") +:+ marks +:+ E) else (if ex then "@@" else "") +:+ marks +:+ E) = marks +:+ E)
    by (by destruct ex).
  assert (H3 : TrimSuffix (marks +:+ E) "|" = marks +:+ E) by (by apply TrimSuffix_end).
  assert (H4 : HasPrefix (marks +:+ E) "||" = suf).
  { subst marks. destruct suf; [apply (HasPrefix_self "||")|]. destruct st; [|by apply Hpre]. change ("|" +:+ E) with (String "|" E).
    unfold HasPrefix. cbn [String.prefix]. destruct (ascii_dec _ _); [|done]. by apply (Hpre "|"%char ""). }
  assert (H5 : negb suf && HasPrefix (marks +:+ E) "|" = st).
  { subst marks. destruct suf, st; try done; [apply (HasPrefix_self "|")|by apply Hpre]. }
  assert (H6 : (if suf then str_drop 2 (marks +:+ E) else if st then str_drop 1 (marks +:+ E) else marks +:+ E) = E)
    by (subst marks; by destruct suf, st).
  unfold strip_marks. rewrite H1, H2, H3, H4, H5, H6, Hend1, Hend2. done.
Qed.

Lemma StrContains_free s c t : free_of c s = true -> StrContains s (String c t) = false.
Proof.
  induction s as [|a s IH]; [done|]. cbn [free_of StrContains]. intros [Ha Hs]%andb_true_iff. rewrite IH, orb_false_r by done.
  cbn [String.prefix]. destruct (ascii_dec c a) as [->|]; [|done]. by rewrite Ascii.eqb_refl in Ha.
Qed.

Lemma parse_domain_pattern l : pattern_line l -> parse_domain l = Parsed l.
Proof.
  intros (Hr & Hre & _ & Hp & Hne & Hd). unfold parse_domain.
  assert (Hf : forall c t, pattern_char c = false -> StrContains (ruleLine l) (String c t) = false)
    by (intros; apply StrContains_free; by apply pattern_free).
  rewrite Hf by done. unfold contains_any. cbn [existsb]. rewrite !Hf by done. cbn [orb].
  rewrite bool_decide_false, Hd, orb_false_r by done. cbn [negb]. destruct l. cbn in *. by subst.
Qed.

(** The part of a line before its modifiers. *)
Lemma modifiers_printed p (important : bool) :
  p <> "" -> free_of "$" p = true -> HasPrefix p "/" = false ->
  parse_modifiers (p +:+ (if important then "$important" else "")) = inr (p, important).
Proof.
  intros Hne Hf Hs. unfold parse_modifiers.
  assert (HasPrefix (p +:+ (if important then "$important" else "")) "/" = false) as ->.
  { destruct p as [|a p]; [done|]. revert Hs. unfold HasPrefix. change (String a p +:+ ?t) with (String a (p +:+ t)).
    cbn [String.prefix]. destruct (ascii_dec _ a); [|done]. by destruct p. }
  destruct important; cbn [negb andb].
  - rewrite StrContains_char, free_of_app. cbn [free_of]. rewrite andb_false_r. cbn [negb].
    rewrite SubstringAfter_char, SubstringBefore_char by (by apply free_forall). reflexivity.
  - rewrite str_app_nil_r, StrContains_char, Hf. done.
Qed.

(** The part of a printed line before its modifiers. *)
Definition printed (l : agdguardRuleLine) : string :=
  (if isExclude l then "@@" else "") +:+ (if isSuffix l then "||" else if hasStart l then "|" else "") +:+ ending (ruleLine l) (hasEnd l).
Definition modifiers (l : agdguardRuleLine) : string := if isImportant l then "$important" else "".
Lemma print_line_eq l : print_line l = printed l +:+ modifiers l.
Proof. unfold print_line, mapDomain, printed, ending, modifiers. by rewrite !str_app_assoc. Qed.

Lemma printed_first l t c p :
  pattern_line l -> pattern_char c = false -> Ascii.eqb "@" c = false -> Ascii.eqb "|" c = false ->
  HasPrefix (printed l +:+ t) (String c p) = false.
Proof.
  intros (_ & _ & _ & Hp & Hne & _) Hc H1 H2. unfold printed, ending. rewrite !str_app_assoc.
  assert (Hx : forall a x, Ascii.eqb a c = false -> HasPrefix (String a x) (String c p) = false).
  { intros a x Ha. unfold HasPrefix. cbn [String.prefix]. destruct (ascii_dec c a) as [->|]; [by rewrite Ascii.eqb_refl in Ha|done]. }
  destruct (isExclude l); [by apply Hx|]. destruct (isSuffix l); [by apply Hx|]. destruct (hasStart l); [by apply Hx|].
  change ("" +:+ "" +:+ ?x) with x. by apply HasPrefix_pattern.
Qed.
Lemma printed_free l c :
  pattern_line l -> pattern_char c = false -> forallb (fun a => negb (Ascii.eqb a c)) ["@"; "|"; "^"]%char = true ->
  free_of c (printed l) = true.
Proof.
  intros (_ & _ & _ & Hp & Hne & _) Hc H. cbn [forallb] in H. apply andb_true_iff in H as [H1 [H2 [H3 _]%andb_true_iff]%andb_true_iff].
  unfold printed, ending. rewrite !free_of_app, (pattern_free c (ruleLine l)) by done.
  destruct (isExclude l), (isSuffix l), (hasStart l), (hasEnd l); cbn [free_of andb]; by rewrite ?H1, ?H2, ?H3.
Qed.
Lemma printed_nonempty l t : pattern_line l -> printed l +:+ t <> "".
Proof. intros (_ & _ & _ & _ & Hne & _). unfold printed, ending. destruct (isExclude l), (isSuffix l), (hasStart l), (ruleLine l); done. Qed.
Lemma printed_not_domain l : pattern_line l -> marked l = true -> IsDomainName (print_line l) = false.
Proof.
  intros _ Hm. unfold marked in Hm. rewrite print_line_eq.
  assert (Hc : forall c, domain_char c = false -> free_of c (printed l +:+ modifiers l) = false -> IsDomainName (printed l +:+ modifiers l) = false)
    by (intros c; apply not_domain_name).
  destruct (isExclude l) eqn:E1; [apply (Hc "@"%char); [done|]; unfold printed; by rewrite E1|].
  destruct (isSuffix l) eqn:E2; [apply (Hc "|"%char); [done|]; unfold printed; by rewrite E1, E2|].
  destruct (hasStart l) eqn:E3; [apply (Hc "|"%char); [done|]; unfold printed; by rewrite E1, E2, E3|].
  destruct (hasEnd l) eqn:E4; [apply (Hc "^"%char); [done|]|apply (Hc "$"%char); [done|]];
    rewrite free_of_app; unfold printed, modifiers, ending; rewrite ?free_of_app, E4.
  - cbn [free_of]. by rewrite !andb_false_r.
  - cbn in Hm. rewrite Hm. cbn [free_of]. by rewrite !andb_false_r.
Qed.
Lemma printed_no_bar l : pattern_line l -> TrimSuffix (print_line l) "|" = print_line l.
Proof.
  intros (_ & _ & _ & Hp & Hne & _). rewrite print_line_eq. unfold modifiers.
  destruct (isImportant l); [by apply TrimSuffix_end|]. rewrite str_app_nil_r. unfold printed. rewrite <- str_app_assoc.
  destruct (ending_ok (ruleLine l) (hasEnd l) "|" Hne Hp eq_refl eq_refl). by apply TrimSuffix_end.
Qed.

Lemma parse_pattern_line l :
  pattern_line l -> IsDomainName (print_line l) = false -> parse_line (print_line l) = Ok (Parsed l).
Proof.
  intros Hl Hn. pose proof Hl as (Hr & Hre & Hss & Hp & Hne & Hd).
  unfold parse_line. rewrite Hn, (printed_no_bar l Hl), !print_line_eq.
  rewrite bool_decide_false by (by apply printed_nonempty). rewrite !printed_first by done. cbn [orb].
  unfold parseAdGuardHostLine. rewrite str_cut_free.
  2:{ rewrite free_of_app, printed_free by done. unfold modifiers. by destruct (isImportant l). }
  unfold modifiers. rewrite modifiers_printed.
  - unfold printed. rewrite strip_marks_printed by done. unfold parse_pattern. cbn [with_important ruleLine].
    rewrite <- (str_app_nil_r (ruleLine l)) at 1. rewrite HasPrefix_pattern by done. cbn [andb].
    rewrite <- (parse_domain_pattern l Hl). destruct l. cbn in *. by subst.
  - rewrite <- (str_app_nil_r (printed l)). by apply printed_nonempty.
  - by apply printed_free.
  - rewrite <- (str_app_nil_r (printed l)). by apply printed_first.
Qed.

(** A printed line with a mark is read back: [@@], [||] and [|], [^] and [$important] in any
    combination around a domain name with or without stars. *)
Theorem parse_printed_line l :
  pattern_line l -> marked l = true -> parse_line (print_line l) = Ok (Parsed l).
Proof. intros Hl Hm. by apply parse_pattern_line, printed_not_domain. Qed.

(** ** [FromOptions] *)

Lemma concat_cons x l : String.concat "" (x :: l) = x +:+ String.concat "" l.
Proof. destruct l; [by rewrite str_app_nil_r|done]. Qed.

Lemma Split_lines (l : list string) :
  Forall (fun x => free_of newline x = true) l ->
  Split newline (String.concat "" ((fun x => x +:+ String newline EmptyString) <$> l)) = l ++ [""].
Proof.
  induction 1 as [|x l Hx _ IH]; [done|]. rewrite fmap_cons, concat_cons, str_app_assoc.
  change (String newline "" +:+ ?t) with (String newline t). by rewrite Split_app, IH.
Qed.
Lemma scan_short l :
  Forall (fun x => str_len x < MaxScanTokenSize /\ free_of "013" x = true) l -> scan_lines (l ++ [""]) = (l, false).
Proof.
  induction 1 as [|x l [Hx Hr] Hl IH]; [done|].
  assert (E : scan_lines ((x :: l) ++ [""]) = if MaxScanTokenSize <=? str_len x then ([], true)
    else let '(ls, long) := scan_lines (l ++ [""]) in (dropCR x :: ls, long)).
  { destruct x; [|done]. by destruct l. }
  rewrite E, IH, (proj2 (Z.leb_gt _ _)) by done. unfold dropCR. by rewrite TrimSuffix_free.
Qed.

(** The lists [FromOptions] takes out of a rule made of lines. *)
Definition lists_of (ls : list agdguardRuleLine) : adguard_lists :=
  MkLists (class_lines true false false ls) (class_lines true true false ls) (class_lines true false true ls) (class_lines true true true ls)
    (class_lines false false false ls) (class_lines false true false ls) (class_lines false false true ls) (class_lines false true true ls).
(** Exceptions are taken for important ones when there are no important ones. *)
Definition exceptions_ranked (ls : list agdguardRuleLine) : bool :=
  existsb (kind_of true true) ls || negb (existsb (kind_of false true) ls).

Lemma collect_adguard_rule d r a : is_empty d && is_empty r = false -> collect (adguard_rule d r false) a = Ok (set_ordinary d r a).
Proof. intros H. unfold adguard_rule, default_headless, collect. cbn. by rewrite H. Qed.
Lemma collect_or d r current a :
  collect (in_front "or" d r false current) a
  = collect current (if is_empty d && is_empty r then a else set_important d r a).
Proof. unfold in_front. destruct (is_empty d && is_empty r) eqn:E; [done|]. cbn. by rewrite E. Qed.
Lemma collect_and d r current a :
  collect (in_front "and" d r true current) a
  = collect current (if is_empty d && is_empty r then a
      else if is_empty (importantExcludeDomain a) && is_empty (importantExcludeDomainRegex a) then set_importantExclude d r a
      else set_exclude d r a).
Proof. unfold in_front. destruct (is_empty d && is_empty r) eqn:E; [done|]. cbn. rewrite E. by destruct (is_empty (importantExcludeDomain a) && _). Qed.

(** [FromOptions] takes the lists of a filter out of its rule. *)
Lemma collect_lines ls :
  forallb isRawDomain ls = false -> existsb (kind_of false false) ls = true -> exceptions_ranked ls = true ->
  collect (rule_of_lines ls) no_lists = Ok (lists_of ls).
Proof.
  intros Hraw Hord Hex. unfold rule_of_lines. rewrite Hraw. cbv zeta. rewrite collect_and, collect_or, collect_and.
  assert (Hcl : forall i e, existsb (kind_of i e) ls = false -> class_lines i false e ls = [] /\ class_lines i true e ls = []).
  { intros i e H. pose proof (class_empty i e ls) as E. rewrite H in E. by destruct (class_lines i false e ls), (class_lines i true e ls). }
  assert (Hne : forall i e, existsb (kind_of i e) ls = true -> is_empty (class_lines i false e ls) && is_empty (class_lines i true e ls) = false)
    by (intros i e H; by rewrite class_empty, H).
  unfold exceptions_ranked in Hex. unfold lists_of.
  destruct (existsb (kind_of true true) ls) eqn:E1; [|destruct (existsb (kind_of false true) ls) eqn:E3; [done|]].
  - rewrite (Hne _ _ E1). cbn [is_empty no_lists importantExcludeDomain importantExcludeDomainRegex andb].
    destruct (existsb (kind_of true false) ls) eqn:E2, (existsb (kind_of false true) ls) eqn:E3;
      rewrite ?(Hne _ _ E2), ?(Hne _ _ E3); try (destruct (Hcl _ _ E2) as [-> ->]); try (destruct (Hcl _ _ E3) as [-> ->]);
      cbn [is_empty andb set_important set_importantExclude importantExcludeDomain importantExcludeDomainRegex no_lists];
      rewrite ?(Hne _ _ E1), collect_adguard_rule by (by apply Hne); done.
  - destruct (Hcl _ _ E1) as [-> ->], (Hcl _ _ E3) as [-> ->]. cbn [is_empty andb].
    destruct (existsb (kind_of true false) ls) eqn:E2; rewrite ?(Hne _ _ E2); try (destruct (Hcl _ _ E2) as [-> ->]); cbn [is_empty andb];
      rewrite collect_adguard_rule by (by apply Hne); done.
Qed.

(** A line that is written as it is read, and what it is read back as: the line of a host
    becomes a pattern. *)
Definition reread (l : agdguardRuleLine) : agdguardRuleLine :=
  MkLine (ruleLine l) (isRawDomain l && negb (hasStart l)) (isExclude l) (isSuffix l) (hasStart l) (hasEnd l) (isRegexp l) (isImportant l).
Definition readable (l : agdguardRuleLine) : Prop :=
  if isRawDomain l && negb (hasStart l) then l = raw_line (ruleLine l) /\ IsDomainName (ruleLine l) = true /\ ruleLine l <> ""
  else pattern_line (reread l) /\ marked l = true.

Lemma domain_first d c : IsDomainName d = true -> domain_char c = false -> HasPrefix d (String c "") = false.
Proof.
  intros Hd%IsDomainName_chars Hc. destruct d as [|a d]; [done|]. cbn [str_forall] in Hd. apply andb_true_iff in Hd as [Ha _].
  unfold HasPrefix. cbn [String.prefix]. destruct (ascii_dec c a) as [->|]; [|done]. by rewrite Hc in Ha.
Qed.
Lemma print_raw d : print_line (raw_line d) = d.
Proof. unfold print_line, mapDomain. cbn. rewrite !str_app_nil_r. reflexivity. Qed.
Lemma parse_readable l : readable l -> parse_line (print_line l) = Ok (Parsed (reread l)).
Proof.
  unfold readable. destruct (isRawDomain l && negb (hasStart l)) eqn:E.
  - intros (-> & Hd & Hne). set (d := ruleLine l) in *. rewrite print_raw. cbn [raw_line ruleLine] in Hd, Hne. unfold parse_line.
    rewrite bool_decide_false, !domain_first, Hd by done. done.
  - intros [Hp Hm]. apply (parse_printed_line (reread l)); done.
Qed.
Lemma readable_free c l :
  readable l -> pattern_char c = false -> forallb (fun a => negb (Ascii.eqb a c)) ["@"; "|"; "^"]%char = true ->
  free_of c "$important" = true -> free_of c (print_line l) = true.
Proof.
  unfold readable. destruct (isRawDomain l && negb (hasStart l)) eqn:E.
  - intros (-> & Hd & _) Hc _ _. rewrite print_raw. cbn [raw_line ruleLine] in Hd.
    destruct (free_of c (ruleLine l)) eqn:Ef; [done|]. apply orb_false_iff in Hc as [Hc _].
    by rewrite (not_domain_name c _ Hc Ef) in Hd.
  - intros [Hp Hm] Hc H1 H2. change (print_line l) with (print_line (reread l)). rewrite print_line_eq, free_of_app, printed_free by done.
    unfold modifiers. by destruct (isImportant _).
Qed.

(** The lines in the order [FromOptions] writes them. *)
Definition pick (important exclude : bool) (ls : list agdguardRuleLine) : list agdguardRuleLine :=
  List.filter (class_of important false exclude) ls.
Definition by_rank (ls : list agdguardRuleLine) : list agdguardRuleLine :=
  pick true false ls ++ pick true true ls ++ pick false false ls ++ pick false true ls.

Lemma write_picked (important exclude : bool) ls :
  write_lines (if exclude then "@@" else "") (if important then "$important" else "") (class_lines important false exclude ls)
  = print_line <$> pick important exclude ls.
Proof.
  unfold write_lines, class_lines, pick. rewrite <- list_fmap_compose. apply list_fmap_ext. intros i l Hl%list_elem_of_lookup_2.
  apply list_elem_of_In, filter_In in Hl as [_ Hc]. unfold class_of in Hc.
  apply andb_true_iff in Hc as [[H1%Bool.eqb_prop _]%andb_true_iff H3%Bool.eqb_prop]. unfold compose, print_line. by rewrite H1, H3.
Qed.
Lemma no_regexp_class important exclude ls :
  Forall (fun l => isRegexp l = false) ls -> class_lines important true exclude ls = [].
Proof.
  unfold class_lines. induction 1 as [|l ls Hl _ IH]; [done|]. cbn. unfold class_of at 1. rewrite Hl, andb_false_r. done.
Qed.
Lemma output_by_rank ls : Forall (fun l => isRegexp l = false) ls -> output_lines (lists_of ls) = print_line <$> by_rank ls.
Proof.
  intros Hr. unfold output_lines, lists_of, by_rank. cbn. rewrite !no_regexp_class by done. rewrite !fmap_app, <- !write_picked. cbn.
  by rewrite !app_nil_r.
Qed.
Lemma by_rank_elem l ls : isRegexp l = false -> l ∈ ls -> l ∈ by_rank ls.
Proof.
  intros Hr Hl. unfold by_rank, pick. rewrite !elem_of_app, !list_elem_of_In, !filter_In. apply list_elem_of_In in Hl. unfold class_of. rewrite Hr.
  destruct (isImportant l), (isExclude l); cbn; tauto.
Qed.

Lemma parse_all ls : Forall readable ls -> parse_lines (print_line <$> ls) = Ok (reread <$> ls, 0).
Proof. induction 1 as [|l ls Hl _ IH]; [done|]. cbn [fmap list_fmap parse_lines]. by rewrite parse_readable, IH. Qed.

Lemma class_lines_app i r e l1 l2 : class_lines i r e (l1 ++ l2) = class_lines i r e l1 ++ class_lines i r e l2.
Proof. unfold class_lines. by rewrite List.filter_app, fmap_app. Qed.
Lemma class_lines_reread i r e ls : class_lines i r e (reread <$> ls) = class_lines i r e ls.
Proof. unfold class_lines. induction ls as [|l ls IH]; [done|]. cbn. change (class_of i r e (reread l)) with (class_of i r e l).
  destruct (class_of i r e l); [|done]. rewrite !fmap_cons, IH. done.
Qed.
Lemma class_lines_pick i r e i' e' ls :
  class_lines i r e (pick i' e' ls) = if negb r && Bool.eqb i i' && Bool.eqb e e' then class_lines i r e ls else [].
Proof.
  assert (Hf : List.filter (class_of i r e) (List.filter (class_of i' false e') ls)
    = List.filter (fun l => negb r && Bool.eqb i i' && Bool.eqb e e' && class_of i r e l) ls).
  { induction ls as [|l ls IH]; [done|]. cbn [List.filter]. destruct (class_of i' false e' l) eqn:E.
    - cbn [List.filter]. rewrite IH. unfold class_of in *. by destruct i, i', r, e, e', (isImportant l), (isRegexp l), (isExclude l).
    - rewrite IH. unfold class_of in *. by destruct i, i', r, e, e', (isImportant l), (isRegexp l), (isExclude l). }
  unfold class_lines, pick. rewrite Hf. destruct (negb r && _ && _); [done|]. cbn [andb]. clear Hf. by induction ls.
Qed.
Lemma class_lines_rank i r e ls :
  Forall (fun l => isRegexp l = false) ls -> class_lines i r e (reread <$> by_rank ls) = class_lines i r e ls.
Proof.
  intros Hr. rewrite class_lines_reread. unfold by_rank. rewrite !class_lines_app, !class_lines_pick.
  destruct r; [by rewrite no_regexp_class|]. destruct i, e; cbn; by rewrite ?app_nil_r.
Qed.

(** Writing and reading back: the rule of a filter of readable lines, without regular
    expressions and with ranked exceptions, is written as a filter that is converted to the
    same rule. *)
Theorem reconverted_filter ls :
  Forall readable ls -> Forall (fun l => isRegexp l = false /\ str_len (print_line l) < MaxScanTokenSize) ls ->
  forallb isRawDomain ls = false -> existsb (kind_of false false) ls = true -> exceptions_ranked ls = true ->
  exists text, FromOptions [rule_of_lines ls] = Ok text /\ ToOptions text = Ok [rule_of_lines ls].
Proof.
  intros Hread Hshort Hraw Hord Hex. assert (Hr : Forall (fun l => isRegexp l = false) ls) by (eapply Forall_impl; [exact Hshort|naive_solver]).
  assert (Hsub : forall P : agdguardRuleLine -> Prop, Forall P ls -> Forall P (by_rank ls)).
  { intros P HP. unfold by_rank, pick. rewrite !Forall_app. repeat split; apply Forall_forall; intros x Hx%list_elem_of_In%filter_In;
      destruct Hx as [Hx%list_elem_of_In _]; by eapply Forall_forall in HP. }
  unfold FromOptions. rewrite collect_lines by done. cbn [obind]. eexists. split; [done|]. rewrite output_by_rank by done.
  unfold ToOptions, Scanner_lines. rewrite Split_lines, scan_short.
  - cbn [fst]. rewrite parse_all by (by apply Hsub). cbn [obind fst].
    assert (forallb isRawDomain (reread <$> by_rank ls) = false /\ is_empty (reread <$> by_rank ls) = false) as [H1 H2].
    { assert (exists l, l ∈ ls /\ isRawDomain l = false) as (l & Hl & Hl').
      { clear -Hraw. induction ls as [|x ls IH]; [done|]. cbn in Hraw. destruct (isRawDomain x) eqn:E.
        - destruct (IH Hraw) as (l & ? & ?). exists l. split; [by right|done].
        - exists x. split; [by left|done]. }
      pose proof (proj1 (Forall_forall _ _) Hr l Hl) as Hre. pose proof (by_rank_elem l ls Hre Hl) as Hin.
      split.
      - apply not_true_iff_false. rewrite forallb_forall. intros Hall. specialize (Hall (reread l)).
        rewrite <- list_elem_of_In in Hall. specialize (Hall (list_elem_of_fmap_2 reread _ _ Hin)). cbn in Hall. by rewrite Hl' in Hall.
      - by destruct (by_rank ls); [apply not_elem_of_nil in Hin|]. }
    rewrite H2. unfold rule_of_lines. rewrite H1, Hraw. rewrite !class_lines_rank by done. done.
  - apply Forall_fmap, Hsub. apply Forall_forall. intros l Hl.
    split; [exact (proj2 (proj1 (Forall_forall _ _) Hshort l Hl))|]. apply readable_free; [|done..].
    exact (proj1 (Forall_forall _ _) Hread l Hl).
  - apply Forall_fmap, Hsub. eapply Forall_impl; [exact Hread|]. intros l Hl. by apply readable_free.
Qed.

End Syntax.
