(* ===== verification/AdGuardFilter.v ===== *)
(** * The AdGuard convertor: what a filter blocks

    A filter as a list of entries, with the text of an entry and its meaning, both stated
    apart from the convertor; [converted_filter_semantics]: the text of a filter is converted
    to a rule-set that blocks what the filter does. *)

From S2P Require Import Prelude GoStd Netip External DnsMsg RuleItems RuleMatch RuleOptions RuleBuild RuleBuildSpec RuleSetState Srs SrsSpec GeositeSpec AdGuard AdGuardSpec.
From Stdlib Require Import Ascii.
Local Open Scope Z_scope.

(** ** Filters *)

(** Where a pattern is anchored: nowhere, at the start of the name ([|]), or at the start of
    the name or of one of its labels ([||]). *)
Inductive anchor := Anywhere | AtStart | AtLabel.
Definition anchor_text (a : anchor) : string := match a with Anywhere => "" | AtStart => "|" | AtLabel => "||" end.

(** The entries of a filter: comments and empty lines, a domain name alone, a line of a hosts
    file, a pattern with its marks, a regular expression. *)
Inductive entry :=
| Blank
| Comment (mark : ascii) (text : string)
| Plain (name : string)
| Hosts (address name : string)
| Pattern (exception : bool) (a : anchor) (name : string) (separator important : bool)
| Regex (exception : bool) (re : string) (important : bool).

Definition entry_text (e : entry) : string :=
  match e with
  | Blank => ""
  | Comment mark text => String mark text
  | Plain name => name
  | Hosts address name => address +:+ " " +:+ name
  | Pattern exception a name separator important =>
      (if exception then "@@" else "") +:+ anchor_text a +:+ name +:+ (if separator then "^" else "")
      +:+ (if important then "$important" else "")
  | Regex exception re important =>
      (if exception then "@@" else "") +:+ "/" +:+ re +:+ "/" +:+ (if important then "$important" else "")
  end.
Definition filter_of (es : list entry) : string :=
  String.concat "" ((fun e => entry_text e +:+ String newline EmptyString) <$> es).

(** *** Meaning *)

Section Filter.
Context {X : External} {XL : ExternalLaws X} {S : SingText} {SL : SingTextLaws S}.
Implicit Types (e : entry) (es : list entry) (h : string).

Definition is_exception e : bool := match e with Pattern ex _ _ _ _ | Regex ex _ _ => ex | _ => false end.
Definition is_important e : bool := match e with Pattern _ _ _ _ i | Regex _ _ i => i | _ => false end.
(** A pattern holds as it is written, without [@@] and [$important]; a line of a hosts file
    stands for the name alone. *)
Definition entry_holds h e : bool :=
  match e with
  | Blank | Comment _ _ => false
  | Plain name => AdGuardMatcher_Match (NewAdGuardMatcher [name]) h
  | Hosts _ name => AdGuardMatcher_Match (NewAdGuardMatcher ["|" +:+ name +:+ "^"]) h
  | Pattern _ a name separator _ =>
      AdGuardMatcher_Match (NewAdGuardMatcher [anchor_text a +:+ name +:+ (if separator then "^" else "")]) h
  | Regex _ re _ => regex_holds [re] h
  end.
Definition some_entry (important exception : bool) es h : bool :=
  existsb (fun e => Bool.eqb (is_important e) important && Bool.eqb (is_exception e) exception && entry_holds h e) es.
(** The precedence of AdGuard. *)
Definition filter_blocks es h : bool :=
  if some_entry true true es h then false
  else if some_entry true false es h then true
  else if some_entry false true es h then false
  else some_entry false false es h.

(** *** Well-formed filters *)

(** An entry with a pattern or a regular expression, and one that blocks without [$important]. *)
Definition is_rule e : bool := match e with Pattern _ _ _ _ _ | Regex _ _ _ => true | _ => false end.
Definition blocks_ordinarily e : bool :=
  match e with
  | Blank | Comment _ _ => false
  | Plain _ | Hosts _ _ => true
  | Pattern ex _ _ _ i | Regex ex _ i => negb ex && negb i
  end.

(** What the fields of an entry are: domain names, with stars and with a mark in a pattern; a
    regular expression that is not one of addresses, has no space, and no dollar sign if the
    entry is an exception.  Only exceptions with a regular expression can be important. *)
Definition entry_ok e : bool :=
  match e with
  | Blank => true
  | Comment mark _ => Ascii.eqb mark "!" || Ascii.eqb mark "#"
  | Plain name => IsDomainName name && negb (bool_decide (name = ""))
  | Hosts address name =>
      (bool_decide (address = "0.0.0.0") || bool_decide (address = "::")) && IsDomainName name && negb (bool_decide (name = ""))
  | Pattern ex a name separator i =>
      str_forall pattern_char name && negb (bool_decide (name = "")) && IsDomainName (domainCheck name)
      && (ex || negb (bool_decide (anchor_text a = "")) || separator || i || negb (free_of "*" name))
  | Regex ex re i => free_of " " re && negb (ignoreIPCIDRRegexp re) && implb ex (free_of "$" re) && implb i ex
  end.
(** A line the scanner takes as it is. *)
Definition line_ok (line : string) : bool :=
  free_of newline line && free_of "013" line && (str_len line <? MaxScanTokenSize).

(** ** Reading *)

Definition anchored (a : anchor) : bool * bool := match a with Anywhere => (false, false) | AtStart => (false, true) | AtLabel => (true, false) end.
Definition entry_line e : option agdguardRuleLine :=
  match e with
  | Blank | Comment _ _ => None
  | Plain name => Some (raw_line name)
  | Hosts _ name => Some (host_line name)
  | Pattern ex a name separator i => Some (MkLine name false ex (anchored a).1 (anchored a).2 separator false i)
  | Regex ex re i => Some (MkLine re false ex false false false true i)
  end.

Lemma line_holds h e l : entry_line e = Some l -> line_matches h l = entry_holds h e.
Proof.
  destruct e as [| |n|? n|ex a n sep i|]; cbn; try done; intros [= <-]; unfold line_matches, mapDomain; cbn; rewrite ?str_app_nil_r; try done.
  by destruct a.
Qed.
Lemma line_kind e l important exclude : entry_line e = Some l ->
  kind_of important exclude l = Bool.eqb (is_important e) important && Bool.eqb (is_exception e) exclude.
Proof. destruct e as [| |n|? n|ex [] n sep i|]; cbn; try done; by intros [= <-]. Qed.
Lemma some_line_entries important exclude es h : some_line important exclude (omap entry_line es) h = some_entry important exclude es h.
Proof.
  unfold some_line, some_entry. induction es as [|e es IH]; [done|]. cbn [existsb omap list_omap]. rewrite <- IH.
  destruct (entry_line e) as [l|] eqn:E.
  - cbn [existsb]. by rewrite (line_holds h e l E), (line_kind e l _ _ E).
  - destruct e; try done; cbn [entry_holds]; by rewrite andb_false_r.
Qed.
Lemma blocked_entries es h : blocked (omap entry_line es) h = filter_blocks es h.
Proof. unfold blocked, filter_blocks. by rewrite !some_line_entries. Qed.

Lemma raw_entries es : existsb is_rule es = true -> forallb isRawDomain (omap entry_line es) = false.
Proof.
  induction es as [|e es IH]; [done|]. cbn [existsb omap list_omap]. intros H.
  destruct e; cbn [is_rule orb entry_line] in *; cbn; auto.
Qed.
Lemma ordinary_entries es : existsb blocks_ordinarily es = true -> existsb (kind_of false false) (omap entry_line es) = true.
Proof.
  induction es as [|e es IH]; [done|]. cbn [existsb omap list_omap]. intros H.
  destruct e as [| | | |[] ? ? ? []|[] ? []]; cbn [blocks_ordinarily negb andb orb entry_line] in *; cbn; auto.
Qed.

(** A regular expression between its slashes. *)
Definition slashed (re : string) : string := "/" +:+ re +:+ "/".
Lemma slashed_end re c : Ascii.eqb "/" c = false -> HasSuffix (slashed re) (String c "") = false.
Proof. intros Hc. unfold slashed. rewrite <- str_app_assoc. apply HasSuffix_end; [done|]. cbn [free_of]. by rewrite Hc. Qed.
Lemma slashed_inner re : inner (slashed re) = Ok re.
Proof.
  unfold inner. rewrite (proj2 (Z.ltb_ge _ _)).
  - unfold slashed. change ("/" +:+ ?t)%string with (String "/" t). cbn [str_drop]. f_equal. exact (drop_end_app re "/").
  - unfold slashed, str_len. rewrite !str_length_app. cbn. lia.
Qed.
Lemma strip_slashed (ex : bool) re :
  strip_marks ((if ex then "@@" else "") +:+ slashed re) = MkLine (slashed re) false ex false false false false false.
Proof.
  unfold strip_marks.
  assert (HasPrefix ((if ex then "@@" else "") +:+ slashed re) "@@" = ex) as -> by (by destruct ex).
  assert ((if ex then str_drop 2 ((if ex then "@@" else "") +:+ slashed re) else (if ex then "@@" else "") +:+ slashed re) = slashed re) as ->
    by (by destruct ex).
  assert (TrimSuffix (slashed re) "|" = slashed re) as -> by (unfold TrimSuffix; by rewrite slashed_end).
  cbv zeta. change (HasPrefix (slashed re) "||") with false. change (HasPrefix (slashed re) "|") with false. cbn [negb andb].
  by rewrite slashed_end.
Qed.
Lemma parse_regex (ex i : bool) re :
  entry_ok (Regex ex re i) = true -> parse_line (entry_text (Regex ex re i)) = Ok (Parsed (MkLine re false ex false false false true i)).
Proof.
  cbn [entry_ok entry_text]. intros [[[Hs Hip%negb_true_iff]%andb_true_iff Hd]%andb_true_iff Hi]%andb_true_iff.
  set (P := (if ex then "@@" else "") +:+ slashed re).
  assert (HP : (if ex then "@@" else "") +:+ "/" +:+ re +:+ "/" +:+ (if i then "$important" else "") = P +:+ (if i then "$important" else "")).
  { unfold P, slashed. by rewrite !str_app_assoc. }
  rewrite HP. set (T := P +:+ _).
  assert (Hfree : forall c, free_of c re = true -> forallb (fun a => negb (Ascii.eqb a c)) ["@"; "/"]%char = true -> free_of c P = true).
  { intros c Hc Ha. cbn [forallb] in Ha. apply andb_true_iff in Ha as [H1 [H2 _]%andb_true_iff]. unfold P, slashed. rewrite !free_of_app, Hc.
    destruct ex; cbn [free_of andb]; by rewrite ?H1, ?H2. }
  assert (HT : T <> "" /\ HasPrefix T "!" = false /\ HasPrefix T "#" = false) by (unfold T, P; by destruct ex, i).
  assert (Hn : IsDomainName T = false).
  { apply (not_domain_name "/"); [done|]. unfold T, P, slashed. rewrite !free_of_app. cbn [free_of andb Ascii.eqb Bool.eqb negb]. by rewrite !andb_false_r. }
  assert (Hbar : TrimSuffix T "|" = T).
  { unfold T. destruct i; [by apply TrimSuffix_end|]. rewrite str_app_nil_r. unfold P, slashed. rewrite <- !str_app_assoc. by apply TrimSuffix_end. }
  assert (Hm : parse_modifiers T = inr (P, i)).
  { unfold T. destruct ex; [apply modifiers_printed; [done|by apply Hfree|done]|]. destruct i; [done|]. rewrite str_app_nil_r.
    unfold parse_modifiers. assert (HasPrefix P "/" = true) as -> by apply (HasPrefix_self "/"). done. }
  unfold parse_line. destruct HT as (H1 & -> & ->). rewrite bool_decide_false, Hn, Hbar, Hm by done. cbn [orb].
  unfold parseAdGuardHostLine. rewrite str_cut_free.
  2:{ unfold T. rewrite free_of_app, Hfree by done. by destruct i. }
  unfold P. rewrite strip_slashed. unfold parse_pattern, with_important. cbn [ruleLine isRawDomain isExclude isSuffix hasStart hasEnd isRegexp].
  assert (HasPrefix (slashed re) "/" = true) as -> by apply (HasPrefix_self "/").
  assert (HasSuffix (slashed re) "/" = true) as -> by (unfold slashed; rewrite <- str_app_assoc; apply HasSuffix_self).
  cbn [andb]. rewrite slashed_inner. cbn [obind]. by rewrite Hip.
Qed.

Lemma pattern_entry_text ex a name separator i :
  entry_text (Pattern ex a name separator i) = print_line (MkLine name false ex (anchored a).1 (anchored a).2 separator false i).
Proof. unfold print_line, mapDomain. cbn. rewrite !str_app_assoc. by destruct a. Qed.
Lemma parse_entry e :
  entry_ok e = true -> parse_line (entry_text e) = Ok (match entry_line e with Some l => Parsed l | None => Skipped end).
Proof.
  destruct e as [|mark text|name|address name|ex a name separator i|ex re i]; [done| | | | |apply parse_regex].
  - cbn [entry_ok]. intros [H|H]%orb_true_iff; apply Ascii.eqb_eq in H as ->; by destruct text.
  - cbn. intros [Hd Hne%negb_true_iff%bool_decide_eq_false_1]%andb_true_iff. unfold parse_line.
    by rewrite bool_decide_false, !domain_first, Hd by done.
  - cbn [entry_ok entry_text entry_line]. intros [[Ha Hd]%andb_true_iff Hne%negb_true_iff%bool_decide_eq_false_1]%andb_true_iff.
    assert (Hn : IsDomainName (address +:+ " " +:+ name) = false).
    { apply (not_domain_name " "); [done|]. rewrite free_of_app. cbn. by rewrite !andb_false_r. }
    unfold parse_line. rewrite Hn. apply orb_true_iff in Ha as [->%bool_decide_eq_true_1 | ->%bool_decide_eq_true_1];
      unfold parseAdGuardHostLine; cbn [negb]; [change (str_cut " " ("0.0.0.0" +:+ " " +:+ name)) with (Some ("0.0.0.0", name))
        |change (str_cut " " ("::" +:+ " " +:+ name)) with (Some ("::", name))];
      cbn [obind]; cbn; rewrite Hd; by destruct name.
  - intros H. rewrite pattern_entry_text. cbn [entry_line]. cbn [entry_ok] in H.
    apply andb_true_iff in H as [[[Hp Hne%negb_true_iff%bool_decide_eq_false_1]%andb_true_iff Hd]%andb_true_iff Hm].
    assert (Hl : pattern_line (MkLine name false ex (anchored a).1 (anchored a).2 separator false i)) by (repeat split; try done; by destruct a).
    apply parse_pattern_line; [done|]. destruct (free_of "*" name) eqn:Es.
    + apply printed_not_domain; [done|]. unfold marked. cbn. rewrite orb_false_r in Hm. destruct ex, a, separator, i; done.
    + apply (not_domain_name "*"); [done|]. rewrite print_line_eq. unfold printed, ending. cbn [ruleLine]. rewrite !free_of_app, Es. cbn.
      by rewrite !andb_false_r.
Qed.
Lemma parse_entries es : forallb entry_ok es = true -> parse_lines (entry_text <$> es) = Ok (omap entry_line es, 0).
Proof.
  induction es as [|e es IH]; [done|]. cbn [forallb]. intros [He Hes]%andb_true_iff. rewrite fmap_cons. cbn [parse_lines].
  rewrite parse_entry, IH by done. cbn [obind omap list_omap]. by destruct (entry_line e).
Qed.
Lemma scan_filter es : forallb (fun e => line_ok (entry_text e)) es = true -> Scanner_lines (filter_of es) = entry_text <$> es.
Proof.
  intros H. unfold Scanner_lines, filter_of. change (fun e => entry_text e +:+ String newline "") with ((fun x => x +:+ String newline "") ∘ entry_text).
  rewrite list_fmap_compose, Split_lines, scan_short; [done| |]; apply Forall_fmap, Forall_forall; intros e He%list_elem_of_In;
    eapply forallb_forall in H; try eassumption; unfold line_ok in H; apply andb_true_iff in H as [[H1 H2]%andb_true_iff H3%Z.ltb_lt]; done.
Qed.
Lemma entries_fit es :
  forallb (fun e => line_ok (entry_text e)) es = true -> zlen es < 2 ^ 63 -> lines_fit (omap entry_line es).
Proof.
  intros H Hn. split.
  - unfold zlen in *. assert (length (omap entry_line es) <= length es)%nat; [|lia].
    clear. induction es as [|e es IH]; [done|]. cbn [omap list_omap length]. destruct (entry_line e); cbn [length]; lia.
  - apply Forall_forall. intros l (e & He & Hl)%list_elem_of_omap. apply list_elem_of_In in He. eapply forallb_forall in H; [|exact He].
    unfold line_ok in H. apply andb_true_iff in H as [_ H%Z.ltb_lt]. unfold MaxScanTokenSize in H.
    enough (str_len (mapDomain l) <= str_len (entry_text e) + 2) by lia. unfold str_len.
    destruct e as [| |n|? n|ex [] n sep i|]; cbn in Hl; try done; injection Hl as <-; unfold mapDomain; cbn;
      rewrite ?str_length_app; cbn; lia.
Qed.


End Filter.
