(* ===== verification/AdGuardCases.v ===== *)
(** * The AdGuard convertor: an instance of its interface, witnesses, and filters it gets wrong *)

From S2P Require Import Prelude GoStd Netip External Concrete DnsMsg RuleItems RuleMatch RuleSpec RuleOptions RuleBuild RuleBuildSpec RuleSetState Srs SrsSpec AdGuard AdGuardSpec AdGuardFilter.
From Stdlib Require Import Ascii.
Local Open Scope Z_scope.

(** ** An instance of the functions of the sing module *)

(** [net.isDomainName], to which [IsDomainName] is linked. *)
Fixpoint domain_loop (s : bytes) (last partlen : Z) (nonNumeric : bool) : bool :=
  match s with
  | [] => negb (last =? 45) && (partlen <=? 63) && nonNumeric
  | c :: s' =>
      if (97 <=? c) && (c <=? 122) || (65 <=? c) && (c <=? 90) || (c =? 95) then domain_loop s' c (partlen + 1) true
      else if (48 <=? c) && (c <=? 57) then domain_loop s' c (partlen + 1) nonNumeric
      else if c =? 45 then negb (last =? 46) && domain_loop s' c (partlen + 1) true
      else if c =? 46 then
        negb ((last =? 46) || (last =? 45)) && (partlen <=? 63) && negb (partlen =? 0) && domain_loop s' c 0 nonNumeric
      else false
  end.
Definition is_domain_name (s : string) : bool :=
  bool_decide (s = ".")
  || (0 <? str_len s) && ((str_len s <? 254) || (str_len s =? 254) && HasSuffix s ".") && domain_loop (bytes_of_string s) 46 0 false.

Fixpoint cut_at (sep s : string) : option (string * string) :=
  if String.prefix sep s then Some (EmptyString, str_drop (String.length sep) s)
  else match s with
       | EmptyString => None
       | String a s' => match cut_at sep s' with Some (l, r) => Some (String a l, r) | None => None end
       end.

#[export] Instance sing_text : SingText := {|
  IsDomainName := is_domain_name;
  Metadata_ParseAddr := fun s => match ParseAddr s with Ok a => a | _ => addr_zero end;
  ParseSocksaddr_Port := fun _ => 0;
  SubstringBefore := fun s sep => match cut_at sep s with Some (l, _) => l | None => s end;
  SubstringAfter := fun s sep => match cut_at sep s with Some (_, r) => r | None => s end
|}.

Lemma cut_at_char s c t :
  str_forall (fun a => negb (Ascii.eqb a c)) s = true -> cut_at (String c "") (s +:+ String c t) = Some (s, t).
Proof.
  induction s as [|a s IH].
  - intros _. change ("" +:+ String c t)%string with (String c t). cbn. by destruct (ascii_dec c c), t.
  - change (String a s +:+ String c t) with (String a (s +:+ String c t)). cbn. intros [Ha Hs]%andb_true_iff. rewrite IH by done.
    destruct (ascii_dec c a) as [->|]; [|done]. by rewrite Ascii.eqb_refl in Ha.
Qed.
Lemma domain_loop_chars s : forall last n b, domain_loop (bytes_of_string s) last n b = true -> str_forall domain_char s = true.
Proof.
  induction s as [|a s IH]; intros last n b; [done|].
  change (bytes_of_string (String a s)) with (ascii_byte a :: bytes_of_string s). cbn [domain_loop str_forall].
  unfold domain_char at 1. set (c := ascii_byte a).
  destruct ((97 <=? c) && (c <=? 122)), ((65 <=? c) && (c <=? 90)), ((48 <=? c) && (c <=? 57)), (c =? 45), (c =? 46), (c =? 95); cbn;
    rewrite ?andb_true_iff; try done; naive_solver.
Qed.
#[export] Instance sing_text_laws : SingTextLaws sing_text.
Proof.
  split; cbn.
  - intros s [->%bool_decide_eq_true_1|[_ H]%andb_true_iff]%orb_true_iff; [done|]. by eapply domain_loop_chars.
  - intros s c t H. by rewrite cut_at_char.
  - intros s c t H. by rewrite cut_at_char.
Qed.

(** ** Witnesses *)

Definition text_of (lines : list string) : string := String.concat "" ((fun l => l +:+ String newline EmptyString) <$> lines).
Definition filter_text : string := text_of ["! a comment"; "example.com"; "@@|safe.example^"; "0.0.0.0 host.example"; "||tracker.example^$important"; "@@||own.example^$important"].
Definition filter_lines : list agdguardRuleLine := match parse_lines (Scanner_lines filter_text) with Ok (ls, _) => ls | _ => [] end.

(** A filter with an entry of each kind. *)
Definition filter_entries : list entry := [
  Comment "!" " a comment"; Blank; Plain "example.com"; Pattern true AtStart "safe.example" true false; Hosts "0.0.0.0" "host.example";
  Pattern false AtLabel "tracker.example" true true; Pattern true AtLabel "own.example" true true; Pattern false Anywhere "ad*.example" false false;
  Regex false "^banner[0-9]+\.$" false; Regex true "img[0-9]+" false; Regex true "logo" true].
Example filter_entries_text :
  filter_of filter_entries = text_of ["! a comment"; ""; "example.com"; "@@|safe.example^"; "0.0.0.0 host.example"; "||tracker.example^$important";
    "@@||own.example^$important"; "ad*.example"; "/^banner[0-9]+\.$/"; "@@/img[0-9]+/"; "@@/logo/$important"].
Proof. reflexivity. Qed.
Definition filter_content : bytes := match convertRuleSet (filter_of filter_entries) with Ok content => content | _ => [] end.

Lemma concrete_patterns : patterns_alternative.
Proof.
  intros l h. cbn. induction l as [|p l IH]; [done|]. cbn [existsb]. rewrite <- IH.
  rewrite <- bool_decide_or. apply bool_decide_ext. rewrite elem_of_cons, list_elem_of_singleton. done.
Qed.
Lemma Forall_check {A} (f : A -> bool) (P : A -> Prop) l : (forall x, f x = true -> P x) -> forallb f l = true -> Forall P l.
Proof. intros Hf Hl. apply Forall_forall. intros x Hx%list_elem_of_In. apply Hf. by eapply forallb_forall in Hl. Qed.

(** Whether the rule-set a filter is converted to can be loaded. *)
Definition converted_loads (text : string) : outcome Rule :=
  let* content := convertRuleSet text in
  let* c := Read false content in
  match elems (pr_Rules (pc_Options c)) with [o] => NewHeadlessRule true o | _ => Err EOF end.
Lemma filter_entries_converted : convertRuleSet (filter_of filter_entries) = Ok filter_content.
Proof. vm_compute. reflexivity. Qed.
Lemma filter_entries_load : is_ok (converted_loads (filter_of filter_entries)) = true.
Proof. vm_compute. reflexivity. Qed.


Definition ex_line : agdguardRuleLine := MkLine "*.example.org" false true true false true false true.
Lemma parse_printed_line_witness :
  print_line ex_line = "@@||*.example.org^$important" /\ parse_line (print_line ex_line) = Ok (Parsed ex_line).
Proof. split; [reflexivity|]. apply parse_printed_line; [|reflexivity]. repeat split; try discriminate; vm_compute; reflexivity. Defined.

Lemma filter_lines_readable : Forall readable filter_lines.
Proof.
  change filter_lines with [raw_line "example.com"; MkLine "safe.example" false true false true true false false; host_line "host.example";
    MkLine "tracker.example" false false true false true false true; MkLine "own.example" false true true false true false true].
  repeat constructor; discriminate.
Qed.
Lemma filter_lines_short : Forall (fun l => isRegexp l = false /\ str_len (print_line l) < MaxScanTokenSize) filter_lines.
Proof.
  apply (Forall_check (fun l => negb (isRegexp l) && (str_len (print_line l) <? MaxScanTokenSize))); [|vm_compute; reflexivity].
  intros l [H1%negb_true_iff H2%Z.ltb_lt]%andb_true_iff. done.
Qed.
Lemma reconverted_filter_witness :
  exists text, FromOptions [rule_of_lines filter_lines] = Ok text /\ ToOptions text = Ok [rule_of_lines filter_lines].
Proof.
  apply reconverted_filter; [exact filter_lines_readable|exact filter_lines_short|vm_compute; reflexivity..].
Defined.

Lemma domain_list_semantics_witness :
  exists o, ToOptions (text_of ["example.com"; "example.org"]) = Ok [o] /\
    forall rule, NewHeadlessRule true o = Ok rule -> (rule_Match ex_world rule ex_md).1 = true.
Proof.
  destruct (domain_list_semantics (text_of ["example.com"; "example.org"]) [raw_line "example.com"; raw_line "example.org"] 0 ex_world ex_md true)
    as (o & Ho & H); [vm_compute; reflexivity|reflexivity|discriminate|reflexivity|].
  exists o. split; [exact Ho|]. intros rule Hr. rewrite (H rule Hr). vm_compute. reflexivity.
Defined.

(** ** Filters the convertor gets wrong *)

(** The message of a panic, and the error of a failure. *)
Definition panic_of {A} (o : outcome A) : option string := match o with Panic s => Some s | _ => None end.
Definition error_of {A} (o : outcome A) : option error := match o with Err e => Some e | _ => None end.

(** A line that is a single slash, alone or after marks, ends the conversion with a panic. *)
Example slash_line_panics :
  panic_of (ToOptions (text_of ["||ads.example^"; "/"])) = Some "slice bounds out of range [1:0]"
  /\ panic_of (ToOptions (text_of ["@@||/"])) = Some "slice bounds out of range [1:0]".
Proof. split; vm_compute; reflexivity. Qed.

(** Whether the rule made of a filter matches a connection to example.com. *)
Definition direct_match (text : string) : outcome bool :=
  let* rules := ToOptions text in
  match rules with [o] => let* r := NewHeadlessRule true o in Ok (rule_Match ex_world r ex_md).1 | _ => Err EOF end.

(** A filter of important rules only makes a rule with an empty alternative, which matches
    everything; the rule-set it is converted to is not valid.  The same holds of a filter of
    exceptions only. *)
Example important_only_matches_all :
  direct_match (text_of ["||tracker.example^$important"]) = Ok true
  /\ error_of (converted_loads (text_of ["||tracker.example^$important"])) = Some (ENew "missing conditions").
Proof. split; vm_compute; reflexivity. Qed.
Example exceptions_only_match_others :
  direct_match (text_of ["@@||safe.example^"]) = Ok true
  /\ error_of (converted_loads (text_of ["@@||safe.example^"])) = Some (ENew "missing conditions").
Proof. split; vm_compute; reflexivity. Qed.

(** [FromOptions] writes exceptions as important ones when the filter has no important ones. *)
Example exceptions_written_important :
  (let* rules := ToOptions (text_of ["||ads.example^"; "@@|safe.example^"; "||tracker.example^$important"]) in FromOptions rules)
  = Ok (text_of ["||tracker.example^$important"; "@@|safe.example^$important"; "||ads.example^"]).
Proof. vm_compute. reflexivity. Qed.

(** It writes important regular expressions in a form that [ToOptions] does not read. *)
Example important_regexp_ignored :
  (let* rules := ToOptions (text_of ["||ads.example^"; "|/ads[0-9]/$important"]) in FromOptions rules)
  = Ok (text_of ["/|ads[0-9]/$important"; "||ads.example^"])
  /\ parse_line "/ads[0-9]/$important" = Ok (Ignored "ignored unsupported rule with path: ").
Proof. split; vm_compute; reflexivity. Qed.
(** An exception with a regular expression that has a dollar sign is taken for one with
    modifiers. *)
Example anchored_exception_ignored :
  parse_line "@@/^ads\.example$/" = Ok (Ignored "ignored unsupported rule with modifier: /: ").
Proof. vm_compute. reflexivity. Qed.

(** A rule of the empty type, which the rest of the program takes for a default rule, is never
    left by [FromOptions]. *)
Theorem from_options_never_returns {X : External} type d l :
  type <> "default" -> type <> "logical" -> FromOptions [MkHeadless type d l] = Diverge.
Proof.
  intros H1 H2. unfold FromOptions, collect. destruct l. by rewrite !bool_decide_false.
Qed.
Lemma from_options_never_returns_witness : FromOptions [MkHeadless "" (zero_headless false) zero_logical_headless] = Diverge.
Proof. by apply from_options_never_returns. Defined.

(** A line that does not fit in the buffer of the scanner ends the filter without an error:
    what follows it is not read. *)
Theorem long_line_ends_filter before long after text :
  Split newline text = before ++ long :: after -> MaxScanTokenSize <= str_len long ->
  Forall (fun l => str_len l < MaxScanTokenSize) before -> Scanner_lines text = dropCR <$> before.
Proof.
  intros E Hl Hb. unfold Scanner_lines. rewrite E. clear E.
  assert (scan_lines (before ++ long :: after) = (dropCR <$> before, true)) as ->; [|done].
  assert (Hlong : scan_lines (long :: after) = ([], true)).
  { destruct long as [|a long]; [done|]. cbn [scan_lines]. by rewrite (proj2 (Z.leb_le _ _) Hl). }
  induction Hb as [|x before Hx _ IH]; [done|]. change ((x :: before) ++ long :: after) with (x :: (before ++ long :: after)).
  assert (exists y ys, before ++ long :: after = y :: ys) as (y & ys & Ey) by (destruct before; eauto).
  rewrite Ey in *. cbn [scan_lines] in *. rewrite fmap_cons. destruct x; rewrite (proj2 (Z.leb_gt _ _) Hx), IH; done.
Qed.
