(* ===== verification/XrayRouting.v ===== *)
(** * Routing rules of Xray configurations

    config/xray.go: the translation of [routing.rules] into route rules, from the decoded
    structs to the canonical map, and the decoding of that map by the tags of
    option/rule.go.  A [json.RawMessage] is the value it parses to, absent or not. *)

From S2P Require Import Prelude GoStd Netip External DnsMsg RuleItems RuleMatch RuleOptions RuleBuild.
From Stdlib Require Import Ascii.
Local Open Scope Z_scope.

(** ** JSON *)

(** The values told apart: a number is an integer or not. *)
Inductive json := JNull | JBool (b : bool) | JInt (n : Z) | JFloat | JString (s : string) | JArray (l : list json) | JObject (l : list (string * json)).
Definition RawMessage := option json.

Definition hasJSONValue (raw : RawMessage) : bool :=
  match raw with None | Some JNull => false | Some _ => true end.

(** [json.Unmarshal] into a [uint16] and into a string. *)
Definition unmarshal_uint16 (j : json) : option Z :=
  match j with JInt n => if (0 <=? n) && (n <? 2 ^ 16) then Some n else None | _ => None end.
Definition unmarshal_string (j : json) : option string := match j with JString s => Some s | _ => None end.
Fixpoint unmarshal_strings (l : list json) : option (list string) :=
  match l with
  | [] => Some []
  | JString s :: l' => cons s <$> unmarshal_strings l'
  | JNull :: l' => cons EmptyString <$> unmarshal_strings l'
  | _ => None
  end.

(** [xrayStringList.UnmarshalJSON] *)
Definition xrayStringList (j : json) : option (list string) :=
  match j with
  | JNull => Some []
  | JString single => Some (Split "," single)
  | JArray l => unmarshal_strings l
  | _ => None
  end.

(** ** The structs *)

Record xrayRoutingRule := MkXrayRule {
  x_Type : string;
  x_RuleTag : string;
  x_OutboundTag : string;
  x_BalancerTag : string;
  x_Domain : list string;
  x_Domains : option (list string);
  x_IP : list string;
  x_Port : RawMessage;
  x_Network : list string;
  x_SourceIP : option (list string);
  x_Source : list string;
  x_SourcePort : RawMessage;
  x_User : list string;
  x_VLESSRoute : RawMessage;
  x_InboundTag : list string;
  x_Protocols : list string;
  x_Attributes : list (string * string);
  x_LocalIP : list string;
  x_LocalPort : RawMessage;
  x_Process : list string;
  x_Webhook : RawMessage
}.
Record xrayRouting := MkXrayRouting {
  x_Rules : list RawMessage;
  x_DomainStrategy : string;
  x_Balancers : RawMessage
}.

(** The values of the canonical map. *)
Inductive canonical := CString (s : string) | CStrings (l : list string) | CPort (n : Z) | CPorts (l : list Z).
Abbreviation canonical_rule := (gmap string canonical).

(** [if len(l) > 0 { result[key] = l }] *)
Definition put (key : string) (l : list string) (result : canonical_rule) : canonical_rule :=
  if nonempty l then <[key := CStrings l]> result else result.

Section Routing.
Context {X : External}.

(** ** Domains *)

Record domain_lists := MkDomains { full : list string; suffix : list string; keyword : list string; regex : list string }.

Definition add_domain (domain : string) (d : domain_lists) : outcome domain_lists :=
  let '(MkDomains full suffix keyword regex) := d in
  if bool_decide (domain = "") then Err (ENew "empty domain rule")
  else if HasPrefix domain "full:" then Ok (MkDomains (full ++ [TrimPrefix domain "full:"]) suffix keyword regex)
  else if HasPrefix domain "domain:" then Ok (MkDomains full (suffix ++ [TrimPrefix domain "domain:"]) keyword regex)
  else if HasPrefix domain "keyword:" then Ok (MkDomains full suffix (keyword ++ [TrimPrefix domain "keyword:"]) regex)
  else if HasPrefix domain "regexp:" then Ok (MkDomains full suffix keyword (regex ++ [TrimPrefix domain "regexp:"]))
  else if HasPrefix domain "dotless:" then
    let substring := TrimPrefix domain "dotless:" in
    if StrContains substring "." then Err (ENew "substring in dotless rule must not contain a dot")
    else if bool_decide (substring = "") then Ok (MkDomains full suffix keyword (regex ++ ["^[^.]*$"]))
    else Ok (MkDomains full suffix keyword (regex ++ ["^[^.]*" +:+ substring +:+ "[^.]*$"]))
  else if HasPrefix domain "geosite:" || HasPrefix domain "ext:" then
    Err (ENew ("geodata domain rule is not implemented: " +:+ domain))
  else Ok (MkDomains full suffix (keyword ++ [domain]) regex).
Fixpoint add_domains (domains : list string) (d : domain_lists) : outcome domain_lists :=
  match domains with
  | [] => Ok d
  | domain :: domains' => let* d := add_domain domain d in add_domains domains' d
  end.
Definition appendDomainMatch (result : canonical_rule) (domains : list string) : outcome canonical_rule :=
  let* d := add_domains domains (MkDomains [] [] [] []) in
  Ok (put "domain_regex" (regex d) (put "domain_keyword" (keyword d) (put "domain_suffix" (suffix d) (put "domain" (full d) result)))).

(** ** Addresses *)

Definition prefix4 (a b c d bits : Z) : Prefix := MkPrefix (Addr4 (((a * 256 + b) * 256 + c) * 256 + d)) bits.
Definition prefix6 (hi bits : Z) : Prefix := MkPrefix (Addr6 (hi * 2 ^ 112) "") bits.
Definition xrayPrivatePrefixes : list Prefix := [
  prefix4 0 0 0 0 8; prefix4 10 0 0 0 8; prefix4 100 64 0 0 10; prefix4 127 0 0 0 8; prefix4 169 254 0 0 16;
  prefix4 172 16 0 0 12; prefix4 192 0 0 0 24; prefix4 192 0 2 0 24; prefix4 192 88 99 0 24; prefix4 192 168 0 0 16;
  prefix4 198 18 0 0 15; prefix4 198 51 100 0 24; prefix4 203 0 113 0 24; prefix4 224 0 0 0 3;
  prefix6 0 127; prefix6 0xfc00 7; prefix6 0xfe80 10; prefix6 0xff00 8].

Definition translate_ip (value : string) : outcome (list string) :=
  let lowerValue := ToLower value in
  if HasPrefix value "!" then Err (ENew ("negated IP rules have no current Sidera equivalent: " +:+ value))
  else if bool_decide (lowerValue = "geoip:private") then Ok (Prefix_String <$> xrayPrivatePrefixes)
  else if HasPrefix lowerValue "geoip:" || HasPrefix lowerValue "ext:" then
    Err (ENew ("geodata IP rule is not implemented: " +:+ value))
  else Ok [value].
Fixpoint translate_ips (values : list string) : outcome (list string) :=
  match values with
  | [] => Ok []
  | value :: values' => let* l := translate_ip value in let* rest := translate_ips values' in Ok (l ++ rest)
  end.
Definition appendIPMatch (result : canonical_rule) (field : string) (values : list string) : outcome canonical_rule :=
  let* translated := translate_ips values in Ok (put field translated result).

(** [isXrayPrivateAddress]: whether plain text may be sent to a server. *)
Definition trim_brackets (s : string) : string :=
  let is_bracket b := (b =? 91) || (b =? 93) in
  let fix drop (l : bytes) : bytes := match l with b :: l' => if is_bracket b then drop l' else l | [] => [] end in
  string_of_bytes (rev (drop (rev (drop (bytes_of_string s))))).
Definition str_trim_dot (s : string) : string := if HasSuffix s "." then String.substring 0 (String.length s - 1) s else s.
Definition private_suffixes : list string := ["lan"; "localdomain"; "example"; "invalid"; "localhost"; "test"; "local"; "home.arpa"; "internal"].
Definition isXrayPrivateAddress (address : string) : bool :=
  match ParseAddr (trim_brackets address) with
  | Ok ip => existsb (fun p => Contains p (without_zone (Unmap ip))) xrayPrivatePrefixes
  | _ =>
      let domain := str_trim_dot (ToLower address) in
      negb (StrContains domain ".")
      || existsb (fun s => bool_decide (domain = s) || HasSuffix domain ("." +:+ s)) private_suffixes
  end.

(** ** Ports *)

(** An item of a port list: nothing, a port or a range. *)
Definition parse_port_item (raw : string) : outcome (option (Z + Z * Z)) :=
  let item := TrimSpace raw in
  if bool_decide (item = "") then Ok None
  else if StrContains item "-" then
    match Split "-" item with
    | [a; b] =>
        match ParseUint (TrimSpace a) 16, ParseUint (TrimSpace b) 16 with
        | Ok from, Ok to =>
            if (from =? 0) || (to <? from) then Err (ENew ("invalid port range: " +:+ item)) else Ok (Some (inr (from, to)))
        | _, _ => Err (ENew ("invalid port range: " +:+ item))
        end
    | _ => Err (ENew ("invalid port range: " +:+ item))
    end
  else
    match ParseUint item 16 with
    | Ok value => if value =? 0 then Err (ENew ("invalid port: " +:+ item)) else Ok (Some (inl value))
    | _ => Err (ENew ("invalid port: " +:+ item))
    end.
Fixpoint parse_port_items (items : list string) : outcome (list Z * list (Z * Z)) :=
  match items with
  | [] => Ok ([], [])
  | item :: items' =>
      let* p := parse_port_item item in
      let* rest := parse_port_items items' in
      let '(ports, ranges) := rest in
      Ok match p with
         | None => (ports, ranges)
         | Some (inl port) => (port :: ports, ranges)
         | Some (inr range) => (ports, range :: ranges)
         end
  end.
Definition format_range (r : Z * Z) : string := pretty r.1 +:+ ":" +:+ pretty r.2.

Definition appendPortMatch (result : canonical_rule) (portField rangeField : string) (raw : RawMessage) : outcome canonical_rule :=
  match raw with
  | None | Some JNull => Ok result
  | Some j =>
      match unmarshal_uint16 j with
      | Some number => Ok (<[portField := CPort number]> result)
      | None =>
          match unmarshal_string j with
          | None => Err (ENew "port list must be a number or string")
          | Some expression =>
              let* parsed := parse_port_items (Split "," expression) in
              let '(ports, ranges) := parsed in
              let result := if nonempty ports then <[portField := CPorts ports]> result else result in
              let result := put rangeField (format_range <$> ranges) result in
              if negb (nonempty ports) && negb (nonempty ranges) then
                Err (ENew "empty port expression has no exact Sidera equivalent")
              else Ok result
          end
      end
  end.

(** ** Rules *)

Fixpoint translate_networks (networks : list string) : outcome (list string) :=
  match networks with
  | [] => Ok []
  | item :: networks' =>
      let network := ToLower item in
      if negb (bool_decide (network = "tcp")) && negb (bool_decide (network = "udp")) then
        Err (ENew ("unsupported network: " +:+ network))
      else let* rest := translate_networks networks' in Ok (network :: rest)
  end.

(** Empty users and regular expressions that do not compile are left out. *)
Fixpoint translate_users (users : list string) : outcome (list string) :=
  match users with
  | [] => Ok []
  | user :: users' =>
      if bool_decide (user = "") then translate_users users'
      else if HasPrefix user "regexp:" then
        match regexp_Compile (TrimPrefix user "regexp:") with
        | Ok _ => Err (ENew "Xray regexp user rules have no current Sidera equivalent")
        | _ => translate_users users'
        end
      else let* rest := translate_users users' in Ok (user :: rest)
  end.

(** The fields a rule must not have. *)
Definition has_unsupported (s : xrayRoutingRule) : bool :=
  negb (bool_decide (x_RuleTag s = "")) || negb (bool_decide (x_BalancerTag s = "")) || hasJSONValue (x_VLESSRoute s)
  || nonempty (x_Attributes s) || nonempty (x_LocalIP s) || hasJSONValue (x_LocalPort s)
  || nonempty (x_Process s) || hasJSONValue (x_Webhook s).
(** The aliases of two fields take precedence. *)
Definition rule_domains (s : xrayRoutingRule) : list string := default (x_Domain s) (x_Domains s).
Definition rule_sources (s : xrayRoutingRule) : list string := default (x_Source s) (x_SourceIP s).

Definition put_networks (s : xrayRoutingRule) (result : canonical_rule) : outcome canonical_rule :=
  let* networks := translate_networks (x_Network s) in Ok (put "network" networks result).
Definition put_users (s : xrayRoutingRule) (result : canonical_rule) : outcome canonical_rule :=
  if nonempty (x_User s) then
    let* users := translate_users (x_User s) in
    if nonempty users then Ok (<["auth_user" := CStrings users]> result)
    else Err (ENew "Xray user rule has no translatable matchers")
  else Ok result.

Definition translateXrayRoutingRule (s : xrayRoutingRule) : outcome canonical_rule :=
  if negb (bool_decide (x_Type s = "")) && negb (bool_decide (ToLower (x_Type s) = "field")) then
    Err (ENew ("unsupported rule type: " +:+ x_Type s))
  else if has_unsupported s then Err (ENew "rule contains fields without a current Sidera equivalent")
  else if bool_decide (x_OutboundTag s = "") then Err (ENew "outboundTag is required")
  else
    let result := put "inbound" (x_InboundTag s) {["outbound" := CString (x_OutboundTag s)]} in
    let* result := put_networks s result in
    let result := put "protocol" (x_Protocols s) result in
    let* result := put_users s result in
    let* result := cause "port" (appendPortMatch result "port" "port_range" (x_Port s)) in
    let* result := cause "sourcePort" (appendPortMatch result "source_port" "source_port_range" (x_SourcePort s)) in
    let* result := appendDomainMatch result (rule_domains s) in
    let* result := cause "ip" (appendIPMatch result "ip_cidr" (x_IP s)) in
    let* result := cause "sourceIP" (appendIPMatch result "source_ip_cidr" (rule_sources s)) in
    if bool_decide (size result = 1%nat) then Err (ENew "this rule has no effective fields") else Ok result.

(** [decode] stands for [decodeXrayObject] at a rule: the text and the path errors name. *)
Fixpoint translate_rules (decode : RawMessage -> string -> outcome xrayRoutingRule) (excluded : Z -> bool) (i : Z) (rules : list RawMessage)
    : outcome (list canonical_rule) :=
  match rules with
  | [] => Ok []
  | raw :: rules' =>
      if excluded i then translate_rules decode excluded (i + 1) rules'
      else
        let* rule := decode raw ("routing.rules[" +:+ pretty i +:+ "]") in
        let* converted := cause ("routing.rules[" +:+ pretty i +:+ "]") (translateXrayRoutingRule rule) in
        let* rest := translate_rules decode excluded (i + 1) rules' in
        Ok (converted :: rest)
  end.
Definition translateXrayRouting (decode : RawMessage -> string -> outcome xrayRoutingRule) (source : option xrayRouting) (excluded : Z -> bool)
    : outcome (list canonical_rule) :=
  match source with
  | None => Ok []
  | Some s =>
      let strategy := ToLower (x_DomainStrategy s) in
      if negb (bool_decide (strategy = "")) && negb (bool_decide (strategy = "asis")) then
        Err (ENew ("Xray routing.domainStrategy is not implemented: " +:+ x_DomainStrategy s))
      else if hasJSONValue (x_Balancers s) then Err (ENew "Xray field is not supported: routing.balancers")
      else translate_rules decode excluded 0 (x_Rules s)
  end.

(** ** The canonical rule as options *)

(** [badoption.Listable]: a single value is a list of one. *)
Definition strings_of (v : option canonical) : slice string :=
  match v with Some (CStrings l) => Some l | Some (CString s) => Some [s] | _ => None end.
Definition ports_of (v : option canonical) : slice Z :=
  match v with Some (CPorts l) => Some l | Some (CPort n) => Some [n] | _ => None end.

(** The fields of [RawDefaultRule] by their tags. *)
Definition decode_rule (r : canonical_rule) : RawDefaultRule := {|
  r_common := {|
    c_Inbound := strings_of (r !! "inbound"); c_IPVersion := 0; c_Network := strings_of (r !! "network");
    c_AuthUser := strings_of (r !! "auth_user"); c_Protocol := strings_of (r !! "protocol");
    c_Domain := strings_of (r !! "domain"); c_DomainSuffix := strings_of (r !! "domain_suffix");
    c_DomainKeyword := strings_of (r !! "domain_keyword"); c_DomainRegex := strings_of (r !! "domain_regex");
    c_Geosite := None; c_SourceGeoIP := None; c_GeoIP := None;
    c_SourceIPCIDR := strings_of (r !! "source_ip_cidr"); c_SourceIPIsPrivate := false;
    c_IPCIDR := strings_of (r !! "ip_cidr"); c_IPIsPrivate := false;
    c_SourcePort := ports_of (r !! "source_port"); c_SourcePortRange := strings_of (r !! "source_port_range");
    c_Port := ports_of (r !! "port"); c_PortRange := strings_of (r !! "port_range");
    c_ProcessName := None; c_ProcessPath := None; c_ProcessPathRegex := None; c_PackageName := None; c_PackageNameRegex := None;
    c_User := None; c_UserID := None; c_ClashMode := ""; c_NetworkType := None; c_NetworkIsExpensive := false;
    c_NetworkIsConstrained := false; c_WIFISSID := None; c_WIFIBSSID := None; c_InterfaceAddress := None;
    c_NetworkInterfaceAddress := None; c_DefaultInterfaceAddress := None; c_SourceMACAddress := None; c_SourceHostname := None;
    c_PreferredBy := None; c_RuleSet := None; c_RuleSetIPCIDRMatchSource := false; c_Invert := false;
    c_Deprecated_RulesetIPCIDRMatchSource := false |};
  r_Client := None |}.

End Routing.
