(* ===== verification/XrayRoutingSpec.v ===== *)
(** * Xray routing rules: what a translated rule matches

    [xray_rule_semantics]: a translated rule matches what the rule does in Xray, where every
    field given must hold, unless it has both domains and addresses: those are alternatives
    of a route rule ([domain_and_ip_alternatives]). *)

From S2P Require Import Prelude GoStd Netip External Concrete DnsMsg RuleItems RuleMatch RuleSpec RuleOptions RuleBuild RuleBuildSpec Version XrayRouting.
From Stdlib Require Import Ascii Btauto.
Local Open Scope Z_scope.

Section Semantics.
Context {X : External}.
Implicit Types (md : InboundContext) (s : xrayRoutingRule).

(** ** The meaning of a rule in Xray *)

(** A port, or a range of ports. *)
Definition xray_port_item (port : Z) (raw : string) : bool :=
  match Split "-" (TrimSpace raw) with
  | [a] => match ParseUint a 16 with Ok n => port =? n | _ => false end
  | [a; b] =>
      match ParseUint (TrimSpace a) 16, ParseUint (TrimSpace b) 16 with
      | Ok from, Ok to => (from <=? port) && (port <=? to)
      | _, _ => false
      end
  | _ => false
  end.
Definition xray_ports (raw : RawMessage) (port : Z) : bool :=
  match raw with
  | Some (JInt n) => port =? n
  | Some (JString expression) => existsb (xray_port_item port) (Split "," expression)
  | _ => false
  end.

(** A domain by its prefix. *)
Definition xray_domain (h domain : string) : bool :=
  if HasPrefix domain "full:" then Matcher_Match (NewMatcher [TrimPrefix domain "full:"] [] false) h
  else if HasPrefix domain "domain:" then Matcher_Match (NewMatcher [] [TrimPrefix domain "domain:"] false) h
  else if HasPrefix domain "keyword:" then StrContains h (TrimPrefix domain "keyword:")
  else if HasPrefix domain "regexp:" then regex_holds [TrimPrefix domain "regexp:"] h
  else if HasPrefix domain "dotless:" then
    regex_holds [if bool_decide (TrimPrefix domain "dotless:" = "") then "^[^.]*$"
                 else "^[^.]*" +:+ TrimPrefix domain "dotless:" +:+ "[^.]*$"] h
  else StrContains h domain.

(** The addresses of [geoip:private]: the special-purpose ranges, first to last address. *)
Definition v4 (a b c d : Z) : Z := a * 2 ^ 24 + b * 2 ^ 16 + c * 2 ^ 8 + d.
Definition private_v4 : list (Z * Z) := [
  (v4 0 0 0 0, v4 0 255 255 255); (v4 10 0 0 0, v4 10 255 255 255); (v4 100 64 0 0, v4 100 127 255 255);
  (v4 127 0 0 0, v4 127 255 255 255); (v4 169 254 0 0, v4 169 254 255 255); (v4 172 16 0 0, v4 172 31 255 255);
  (v4 192 0 0 0, v4 192 0 0 255); (v4 192 0 2 0, v4 192 0 2 255); (v4 192 88 99 0, v4 192 88 99 255);
  (v4 192 168 0 0, v4 192 168 255 255); (v4 198 18 0 0, v4 198 19 255 255); (v4 198 51 100 0, v4 198 51 100 255);
  (v4 203 0 113 0, v4 203 0 113 255); (v4 224 0 0 0, v4 255 255 255 255)].
Definition private_v6 : list (Z * Z) := [
  (0, 1);
  (0xfc000000000000000000000000000000, 0xfdffffffffffffffffffffffffffffff);
  (0xfe800000000000000000000000000000, 0xfebfffffffffffffffffffffffffffff);
  (0xff000000000000000000000000000000, 0xffffffffffffffffffffffffffffffff)].
Definition within (v : Z) (r : Z * Z) : bool := (r.1 <=? v) && (v <=? r.2).
Definition private_addr (a : Addr) : bool :=
  match a with
  | Addr4 v => existsb (within v) private_v4
  | Addr6 v zone => bool_decide (zone = "") && existsb (within v) private_v6
  | AddrInvalid _ => false
  end.

(** An address entry: the private addresses, a network or one address; an address with
    a zone is in none. *)
Definition network_or_address (a : Addr) (value : string) : bool :=
  match ParsePrefix value with
  | Ok network => Contains network a
  | _ => match ParseAddr value with Ok b => negb (has_zone a) && bool_decide (a = without_zone b) | _ => false end
  end.
Definition xray_ip (a : Addr) (value : string) : bool :=
  if bool_decide (ToLower value = "geoip:private") then private_addr a else network_or_address a value.

(** The addresses of the destination: its own, or those its name was resolved to. *)
Definition destination_addresses md : list Addr :=
  if Socksaddr_IsIP (md_Destination md) then [sa_Addr (md_Destination md)] else md_DestinationAddresses md.
Definition xray_sources_hold s md : bool := existsb (xray_ip (sa_Addr (md_Source md))) (rule_sources s).
Definition xray_ips_hold s md : bool :=
  existsb (fun a => existsb (xray_ip a) (x_IP s)) (destination_addresses md).

Definition exact_users (users : list string) : list string :=
  List.filter (fun u => negb (bool_decide (u = "")) && negb (HasPrefix u "regexp:")) users.

(** The fields other than domains and addresses. *)
Definition xray_other_fields s md : bool :=
  implb (nonempty (x_InboundTag s)) (bool_decide (md_Inbound md ∈ x_InboundTag s))
  && implb (nonempty (x_Network s)) (bool_decide (md_Network md ∈ ToLower <$> x_Network s))
  && implb (nonempty (x_User s)) (bool_decide (md_User md ∈ exact_users (x_User s)))
  && implb (nonempty (x_Protocols s)) (bool_decide (md_Protocol md ∈ x_Protocols s))
  && implb (nonempty (rule_sources s)) (xray_sources_hold s md)
  && implb (hasJSONValue (x_SourcePort s)) (xray_ports (x_SourcePort s) (sa_Port (md_Source md)))
  && implb (hasJSONValue (x_Port s)) (xray_ports (x_Port s) (sa_Port (md_Destination md))).
Definition xray_domains_hold s md : bool := match_host md (fun h => existsb (xray_domain h) (rule_domains s)).
(** A rule of Xray applies if all its fields do. *)
Definition xray_rule_holds s md : bool :=
  xray_other_fields s md
  && implb (nonempty (rule_domains s)) (xray_domains_hold s md)
  && implb (nonempty (x_IP s)) (xray_ips_hold s md).

(** ** Numbers *)

Lemma ParseUint_loop_pretty max (x : N) (t : string) :
  Z.of_N x <= max -> ParseUint_loop max 0 (pretty_N_go x t) = ParseUint_loop max (Z.of_N x) t.
Proof.
  revert t. induction (N.lt_wf_0 x) as [x _ IH]; intros t Hx. destruct (decide (x = 0)%N) as [->|Hn]; [done|].
  rewrite pretty_N_go_step by lia. rewrite IH; [|apply N.div_lt; lia|].
  2:{ assert (x `div` 10 <= x)%N by (apply N.Div0.div_le_upper_bound; lia). lia. }
  cbn [ParseUint_loop]. change (digit_val (pretty_N_char (x `mod` 10))) with (digit_value (pretty_N_char (x `mod` 10))).
  rewrite pretty_char_digit by (apply N.mod_lt; lia).
  assert (E : Z.of_N (x `div` 10) * 10 + Z.of_N (x `mod` 10) = Z.of_N x) by (pose proof (N.div_mod x 10 ltac:(lia)); lia).
  rewrite E, (proj2 (Z.ltb_ge _ _)) by lia. done.
Qed.
Lemma ParseUint_pretty n bits : 0 <= n < 2 ^ bits -> ParseUint (pretty n) bits = Ok n.
Proof.
  intros Hn. unfold ParseUint. pose proof (pretty_nonempty n ltac:(lia)).
  assert (E : ParseUint_loop (2 ^ bits - 1) 0 (pretty n) = Ok n); [|by destruct (pretty n)].
  rewrite pretty_Z_nonneg by lia. unfold pretty, pretty_N. case_decide as E0.
  - assert (n = 0) as -> by lia. cbn. change (digit_val "0") with (Some 0). cbn [Z.mul Z.add]. by rewrite (proj2 (Z.ltb_ge _ _)) by lia.
  - rewrite ParseUint_loop_pretty by lia. cbn. f_equal. lia.
Qed.
Lemma ParseUint_loop_bound max (s : string) n v : n <= max -> 0 <= n -> ParseUint_loop max n s = Ok v -> 0 <= v <= max.
Proof.
  revert n. induction s as [|a s IH]; intros n Hn H0 H; cbn in H; [inv_ok; lia|].
  destruct (digit_val a) as [d|] eqn:Ed; [|done]. destruct (_ <? _) eqn:E; [done|]. apply Z.ltb_ge in E.
  apply IH in H; [done|lia|]. unfold digit_val in Ed. destruct (_ && _) eqn:Eb; [|done]. injection Ed as <-.
  apply andb_true_iff in Eb as [?%Z.leb_le _]. lia.
Qed.
Lemma ParseUint_bound (s : string) v : ParseUint s 16 = Ok v -> 0 <= v < 2 ^ 16.
Proof. intros H. destruct s; [done|]. apply ParseUint_loop_bound in H; lia. Qed.

Lemma str_cut_app c a b : free_of c a = true -> str_cut c (a +:+ String c b) = Some (a, b).
Proof.
  induction a as [|x a IH]; cbn [free_of].
  - intros _. change ("" +:+ String c b)%string with (String c b). cbn. by rewrite Ascii.eqb_refl.
  - intros [Hx Ha]%andb_true_iff. change (String x a +:+ ?t) with (String x (a +:+ t)). cbn [str_cut].
    apply negb_true_iff in Hx. by rewrite Hx, IH.
Qed.
Lemma format_range_holds from to port :
  0 <= from < 2 ^ 16 -> 0 <= to < 2 ^ 16 ->
  match parse_port_range (format_range (from, to)) with Ok r => in_range port r | _ => false end = (from <=? port) && (port <=? to).
Proof.
  intros Hf Ht. unfold parse_port_range, format_range. cbn [fst snd].
  change (":" +:+ ?t)%string with (String ":" t). rewrite str_cut_app by (apply pretty_free; [lia|done]).
  rewrite !bool_decide_false by (apply pretty_nonempty; lia). rewrite !ParseUint_pretty by done. cbn.
  unfold in_range. cbn. by rewrite !uint_small.
Qed.

(** ** Ports *)

Lemma port_item_spec raw p port :
  parse_port_item raw = Ok p ->
  xray_port_item port raw
  = match p with
    | None => false
    | Some (inl v) => port =? v
    | Some (inr (a, b)) => match parse_port_range (format_range (a, b)) with Ok r => in_range port r | _ => false end
    end.
Proof.
  unfold parse_port_item, xray_port_item. case_bool_decide as E0; [rewrite E0; by intros [= <-]|].
  rewrite StrContains_char. destruct (free_of "-" (TrimSpace raw)) eqn:Ef; cbn [negb].
  - rewrite Split_free by done. destruct (ParseUint _ 16) as [v| | |]; try done. destruct (v =? 0); [done|]. by intros [= <-].
  - destruct (Split "-" (TrimSpace raw)) as [|a [|b [|]]]; try done.
    destruct (ParseUint (TrimSpace a) 16) as [x| | |] eqn:Ea, (ParseUint (TrimSpace b) 16) as [y| | |] eqn:Eb; try done.
    destruct ((x =? 0) || _); [done|]. intros [= <-]. apply ParseUint_bound in Ea, Eb. by rewrite format_range_holds.
Qed.
Lemma port_items_spec items ports ranges port :
  parse_port_items items = Ok (ports, ranges) ->
  existsb (xray_port_item port) items = bool_decide (port ∈ ports) || port_range_holds (format_range <$> ranges) port.
Proof.
  revert ports ranges. induction items as [|i items IH]; intros ports ranges H; cbn in H; [by inv_ok|].
  inv_ok. rename l into ps, l0 into rs. cbn [existsb]. rewrite (port_item_spec _ _ port E), (IH ps rs eq_refl).
  destruct a as [[v|[x y]]|]; injection H as <- <-; [| |done].
  - rewrite (bool_decide_ext (port ∈ v :: ps) (port = v \/ port ∈ ps)) by apply elem_of_cons. rewrite bool_decide_or, <- orb_assoc. f_equal.
    by destruct (Z.eqb_spec port v), (decide (port = v)); case_bool_decide.
  - unfold port_range_holds. rewrite fmap_cons. cbn [existsb]. rewrite !orb_assoc. f_equal. apply orb_comm.
Qed.

(** A list field of the canonical rule. *)
Definition as_slice {A} (l : list A) : slice A := if nonempty l then Some l else None.
Lemma given_as_slice {A} (l : list A) : given (as_slice l) = nonempty l.
Proof. by destruct l. Qed.
Lemma elems_as_slice {A} (l : list A) : elems (as_slice l) = l.
Proof. by destruct l. Qed.

Definition with_ports (portField rangeField : string) (pv : option canonical) (ranges : list string) (r : canonical_rule) : canonical_rule :=
  put rangeField ranges (match pv with Some v => <[portField := v]> r | None => r end).
Lemma appendPortMatch_spec r portField rangeField raw r' :
  appendPortMatch r portField rangeField raw = Ok r' ->
  exists pv ranges, r' = with_ports portField rangeField pv ranges r
    /\ hasJSONValue raw = given (ports_of pv) || nonempty ranges
    /\ forall port, one_of port (ports_of pv) || port_range_holds ranges port = xray_ports raw port.
Proof.
  unfold appendPortMatch. intros H. destruct raw as [j|]; [|by inv_ok; exists None, []].
  destruct j as [| |n| |e| |]; try done; try (by inv_ok; exists None, []).
  - cbn in H. destruct ((0 <=? n) && (n <? 2 ^ 16)); [|done]. inv_ok. exists (Some (CPort n)), []. split_and!; [done|done|]. intros port.
    cbn. rewrite orb_false_r. unfold one_of. cbn. rewrite (bool_decide_ext (port ∈ [n]) (port = n)) by apply list_elem_of_singleton.
    by destruct (Z.eqb_spec port n); case_bool_decide.
  - cbn in H. inv_ok. rename l into ports, l0 into ranges. destruct (negb (nonempty ports) && negb (nonempty ranges)) eqn:En; [done|]. inv_ok.
    exists (CPorts <$> as_slice ports), (format_range <$> ranges). split_and!.
    + unfold with_ports. by destruct ports.
    + cbn. destruct ports, ranges; try done.
    + intros port. cbn [xray_ports]. rewrite (port_items_spec _ _ _ port E). f_equal. unfold one_of. by destruct ports.
Qed.

(** ** Domains *)

(** A matcher of several domains matches what one of them does. *)
Definition domains_alternative : Prop := forall f (sf : list string) h,
  Matcher_Match (NewMatcher f sf false) h
  = existsb (fun d => Matcher_Match (NewMatcher [d] [] false) h) f || existsb (fun d => Matcher_Match (NewMatcher [] [d] false) h) sf.

Definition lists_match (d : domain_lists) (h : string) : bool :=
  existsb (fun d => Matcher_Match (NewMatcher [d] [] false) h) (full d)
  || existsb (fun d => Matcher_Match (NewMatcher [] [d] false) h) (suffix d)
  || existsb (StrContains h) (keyword d) || regex_holds (regex d) h.
Definition lists_given (d : domain_lists) : bool :=
  nonempty (full d) || nonempty (suffix d) || nonempty (keyword d) || nonempty (regex d).

Lemma add_domain_spec x d d' h :
  add_domain x d = Ok d' -> lists_match d' h = lists_match d h || xray_domain h x /\ lists_given d' = true.
Proof.
  destruct d as [f sf k r]. unfold add_domain, xray_domain, lists_match, lists_given, regex_holds. case_bool_decide; [done|].
  destruct (HasPrefix x "full:"); [|destruct (HasPrefix x "domain:"); [|destruct (HasPrefix x "keyword:"); [|
    destruct (HasPrefix x "regexp:"); [|destruct (HasPrefix x "dotless:")]]]].
  6: destruct (HasPrefix x "geosite:" || _); [done|].
  5: destruct (StrContains _ "."); [done|]; case_bool_decide.
  all: intros [= <-]; cbn [full suffix keyword regex]; rewrite ?existsb_app, ?nonempty_app; cbn; rewrite ?orb_true_r, ?orb_false_r; split; [btauto|done].
Qed.
Lemma add_domains_spec ds d d' h :
  add_domains ds d = Ok d' ->
  lists_match d' h = lists_match d h || existsb (xray_domain h) ds /\ lists_given d' = lists_given d || nonempty ds.
Proof.
  revert d. induction ds as [|x ds IH]; intros d H; cbn in H; [inv_ok; cbn; by rewrite !orb_false_r|].
  inv_ok. destruct (add_domain_spec _ _ _ h E) as [H1 H2]. destruct (IH _ H) as [-> ->]. rewrite H1, H2. cbn. by rewrite !orb_true_r, orb_assoc.
Qed.

(** ** Addresses, networks and users *)

(** An IP set holds what its builder was given: a network its addresses, an address itself
    without its zone; nothing with a zone. *)
Definition op_holds (a : Addr) (op : builder_op) : bool :=
  match op with
  | AddPrefix network => Contains network a
  | AddAddr b => negb (has_zone a) && bool_decide (a = without_zone b)
  end.
Definition sets_as_built : Prop := forall ops set a,
  IPSetBuilder_IPSet ops = Ok set -> IPSet_Contains set a = existsb (op_holds a) ops.

(** The metadata of a connection, outside of rule-sets and of the DNS router. *)
Record of_connection md : Prop := {
  oc_all : md_IgnoreDestinationIPCIDRMatch md = false;
  oc_destination : md_IPCIDRMatchSource md = false;
  oc_empty : md_IPCIDRAcceptEmpty md = false;
  oc_response : md_DestinationAddressMatchFromResponse md = false
}.

Lemma parse_cidr_holds i value op a : parse_cidr i value = Ok op -> op_holds a op = network_or_address a value.
Proof.
  unfold parse_cidr, network_or_address. destruct (ParsePrefix value); try done; [by intros [= <-]|].
  destruct (ParseAddr value); try done. by intros [= <-].
Qed.
Lemma parse_cidrs_hold i values ops a :
  omap_from parse_cidr i values = Ok ops -> existsb (op_holds a) ops = existsb (network_or_address a) values.
Proof.
  revert i ops. induction values as [|value values IH]; intros i ops H; cbn in H; inv_ok; [done|]. cbn [existsb].
  by rewrite (parse_cidr_holds _ _ _ a E), (IH _ _ E0).
Qed.
Lemma cidr_holds_entries src l it md :
  sets_as_built -> of_connection md -> NewIPCIDRItem src l = Ok it ->
  cidr_holds src l md
  = existsb (fun a => existsb (network_or_address a) l) (if src then [sa_Addr (md_Source md)] else destination_addresses md).
Proof.
  intros Hsets [_ Hd He Hr] H. unfold cidr_holds. rewrite H. unfold NewIPCIDRItem in H. inv_ok.
  assert (C : forall b, IPSet_Contains a0 b = existsb (network_or_address b) l).
  { intros b. rewrite (Hsets _ _ _ E0). by eapply parse_cidrs_hold. }
  unfold IPCIDRItem_Match, destination_addresses. rewrite Hd, He, Hr, orb_false_r. destruct src; cbn [existsb]; [by rewrite C, orb_false_r|].
  destruct (Socksaddr_IsIP _); cbn [existsb]; [by rewrite C, orb_false_r|].
  transitivity (existsb (IPSet_Contains a0) (md_DestinationAddresses md)); [by destruct (md_DestinationAddresses md)|].
  apply existsb_ext. intros b. apply C.
Qed.

(** Whether an address is in the network of a prefix, by comparison. *)
Lemma shift_within x k v : 0 <= k -> x mod 2 ^ k = 0 ->
  (Z.shiftr (Z.lxor v x) k =? 0) = within v (x, x + 2 ^ k - 1).
Proof.
  intros Hk Hx. rewrite Z.shiftr_lxor, !Z.shiftr_div_pow2 by lia. assert (0 < 2 ^ k) by (apply Z.pow_pos_nonneg; lia).
  pose proof (Z.div_mod x (2 ^ k) ltac:(lia)). unfold within. cbn [fst snd]. apply eq_true_iff_eq.
  rewrite Z.eqb_eq, Z.lxor_eq_0_iff, andb_true_iff, !Z.leb_le. split.
  - intros E. pose proof (Z.div_mod v (2 ^ k) ltac:(lia)). pose proof (Z.mod_pos_bound v (2 ^ k) ltac:(lia)). rewrite E in *. lia.
  - intros [? ?]. symmetry. apply (Z.div_unique v (2 ^ k) _ (v - x)); lia.
Qed.
Lemma contains_v4 x bits v : 0 <= bits <= 32 -> x mod 2 ^ (32 - bits) = 0 ->
  Contains (MkPrefix (Addr4 x) bits) (Addr4 v) = within v (x, x + 2 ^ (32 - bits) - 1).
Proof.
  intros Hb Hx. rewrite <- shift_within by lia. unfold Contains, PrefixIsValid. cbn [p_bits p_addr has_zone BitLen addr_val].
  by rewrite (proj2 (Z.leb_le 0 bits)) by lia.
Qed.
Lemma contains_v6 x bits v zone : 0 <= bits <= 128 -> x mod 2 ^ (128 - bits) = 0 ->
  Contains (MkPrefix (Addr6 x "") bits) (Addr6 v zone) = bool_decide (zone = "") && within v (x, x + 2 ^ (128 - bits) - 1).
Proof.
  intros Hb Hx. rewrite <- shift_within by lia. unfold Contains, PrefixIsValid. cbn [p_bits p_addr has_zone BitLen addr_val].
  rewrite (proj2 (Z.leb_le 0 bits)) by lia. by case_bool_decide.
Qed.

Lemma contains_other x bits v zone : Contains (MkPrefix (Addr4 x) bits) (Addr6 v zone) = false.
Proof. unfold Contains. cbn [p_addr BitLen]. by destruct (_ || _). Qed.

(** The prefixes that stand for [geoip:private] are read back as they were printed. *)
Lemma private_prefixes_read : ParsePrefix <$> (Prefix_String <$> xrayPrivatePrefixes) = Ok <$> xrayPrivatePrefixes.
Proof. vm_compute. reflexivity. Qed.
Lemma existsb_map {A B} (f : A -> B) (g : B -> bool) l : existsb g (f <$> l) = existsb (fun x => g (f x)) l.
Proof. induction l as [|x l IH]; [done|]. cbn. by rewrite IH. Qed.
Lemma private_entries a : existsb (network_or_address a) (Prefix_String <$> xrayPrivatePrefixes) = private_addr a.
Proof.
  transitivity (existsb (fun r => match r with Ok p => Contains p a | _ => false end) (ParsePrefix <$> (Prefix_String <$> xrayPrivatePrefixes))).
  { pose proof private_prefixes_read as H. revert H. generalize (Prefix_String <$> xrayPrivatePrefixes). generalize xrayPrivatePrefixes.
    intros ps l. revert ps. induction l as [|value l IH]; intros [|p ps] H; try done. cbn in H. injection H as Hp Hl. cbn [existsb fmap list_fmap].
    unfold network_or_address at 1. rewrite Hp. f_equal. by apply (IH ps). }
  rewrite private_prefixes_read, existsb_map. destruct a as [v|v|v zone].
  - vm_compute. reflexivity.
  - unfold xrayPrivatePrefixes, prefix4, prefix6. cbn [existsb].
    rewrite !contains_v4 by (done || lia). done.
  - unfold xrayPrivatePrefixes, prefix4, prefix6. cbn [existsb]. rewrite !contains_other, !contains_v6 by (done || lia).
    cbn [private_addr]. destruct (bool_decide (zone = "")); done.
Qed.
Definition ip_list (values : list string) : list string := match translate_ips values with Ok l => l | _ => [] end.
Lemma ip_list_holds values l a :
  translate_ips values = Ok l -> existsb (network_or_address a) l = existsb (xray_ip a) values.
Proof.
  revert l. induction values as [|value values IH]; intros l H; cbn in H; inv_ok; [done|].
  rewrite existsb_app, (IH _ eq_refl). cbn [existsb]. f_equal. unfold translate_ip in E. unfold xray_ip.
  destruct (HasPrefix value "!"); [done|]. case_bool_decide; [injection E as <-; apply private_entries|].
  destruct (_ || _); [done|]. injection E as <-. cbn. by rewrite orb_false_r.
Qed.

Lemma translate_ips_given values l : translate_ips values = Ok l -> nonempty l = nonempty values.
Proof.
  destruct values as [|v values]; cbn; intros H; inv_ok; [done|]. rewrite nonempty_app. unfold translate_ip in E.
  destruct (HasPrefix v "!"); [done|]. case_bool_decide; [by injection E as <-|]. destruct (_ || _); [done|]. by injection E as <-.
Qed.
Lemma translate_networks_eq networks l : translate_networks networks = Ok l -> l = ToLower <$> networks.
Proof.
  revert l. induction networks as [|n networks IH]; intros l H; cbn in H; [by inv_ok|]. destruct (_ && _); [done|]. inv_ok.
  cbn. f_equal. by apply IH.
Qed.
Lemma translate_users_eq users l : translate_users users = Ok l -> l = exact_users users.
Proof.
  unfold exact_users. revert l. induction users as [|u users IH]; intros l H; cbn in H; [by inv_ok|]. cbn.
  case_bool_decide; cbn; [by apply IH|]. destruct (HasPrefix u "regexp:"); cbn; [by destruct (regexp_Compile _); try done; apply IH|].
  inv_ok. f_equal. by apply IH.
Qed.

(** ** The canonical rule *)

Lemma lookup_put_eq k l r : put k l r !! k = if nonempty l then Some (CStrings l) else r !! k.
Proof. unfold put. destruct (nonempty l); [by rewrite lookup_insert_eq|done]. Qed.
Lemma lookup_put_ne k k' l r : k <> k' -> put k l r !! k' = r !! k'.
Proof. intros H. unfold put. destruct (nonempty l); [by rewrite lookup_insert_ne|done]. Qed.
Lemma lookup_ports_ne p q k pv l r : p <> k -> q <> k -> with_ports p q pv l r !! k = r !! k.
Proof. intros Hp Hq. unfold with_ports. rewrite lookup_put_ne by done. destruct pv; [by rewrite lookup_insert_ne|done]. Qed.
Lemma lookup_ports p q pv l r : p <> q -> with_ports p q pv l r !! p = match pv with Some v => Some v | None => r !! p end.
Proof. intros H. unfold with_ports. rewrite lookup_put_ne by done. destruct pv; [by rewrite lookup_insert_eq|done]. Qed.
Lemma lookup_ranges p q pv l r : p <> q -> with_ports p q pv l r !! q = if nonempty l then Some (CStrings l) else r !! q.
Proof.
  intros H. unfold with_ports. rewrite lookup_put_eq. destruct (nonempty l); [done|]. destruct pv; [by rewrite lookup_insert_ne|done].
Qed.

(** The map [translateXrayRoutingRule] makes of its parts. *)
Definition canonical_of s (d : domain_lists) (pv spv : option canonical) (rg srg : list string) : canonical_rule :=
  put "source_ip_cidr" (ip_list (rule_sources s)) (put "ip_cidr" (ip_list (x_IP s))
    (put "domain_regex" (regex d) (put "domain_keyword" (keyword d) (put "domain_suffix" (suffix d) (put "domain" (full d)
      (with_ports "source_port" "source_port_range" spv srg (with_ports "port" "port_range" pv rg
        (put "auth_user" (exact_users (x_User s)) (put "protocol" (x_Protocols s)
          (put "network" (ToLower <$> x_Network s) (put "inbound" (x_InboundTag s) {["outbound" := CString (x_OutboundTag s)]}))))))))))).

Lemma put_users_eq s r r' : put_users s r = Ok r' ->
  r' = put "auth_user" (exact_users (x_User s)) r /\ nonempty (exact_users (x_User s)) = nonempty (x_User s).
Proof.
  unfold put_users. destruct (nonempty (x_User s)) eqn:E; [|by intros [= <-]; destruct (x_User s)].
  intros H. inv_ok. apply translate_users_eq in E0 as ->. unfold put. destruct (nonempty (exact_users _)); [by inv_ok|done].
Qed.
Lemma appendIPMatch_eq r field values r' : appendIPMatch r field values = Ok r' ->
  r' = put field (ip_list values) r /\ nonempty (ip_list values) = nonempty values /\ is_ok (translate_ips values) = true.
Proof. unfold appendIPMatch, ip_list. intros H. inv_ok. split_and!; [done| |done]. by apply translate_ips_given. Qed.

Lemma translate_shape s result :
  translateXrayRoutingRule s = Ok result ->
  exists d pv spv rg srg, result = canonical_of s d pv spv rg srg
    /\ add_domains (rule_domains s) (MkDomains [] [] [] []) = Ok d
    /\ nonempty (exact_users (x_User s)) = nonempty (x_User s)
    /\ (nonempty (ip_list (x_IP s)) = nonempty (x_IP s) /\ is_ok (translate_ips (x_IP s)) = true)
    /\ (nonempty (ip_list (rule_sources s)) = nonempty (rule_sources s) /\ is_ok (translate_ips (rule_sources s)) = true)
    /\ hasJSONValue (x_Port s) = given (ports_of pv) || nonempty rg
    /\ (forall port, one_of port (ports_of pv) || port_range_holds rg port = xray_ports (x_Port s) port)
    /\ hasJSONValue (x_SourcePort s) = given (ports_of spv) || nonempty srg
    /\ (forall port, one_of port (ports_of spv) || port_range_holds srg port = xray_ports (x_SourcePort s) port).
Proof.
  unfold translateXrayRoutingRule. intros H. destruct (_ && _); [done|]. destruct (has_unsupported s); [done|]. case_bool_decide; [done|].
  apply obind_Ok_inv in H as (r1 & Hn & H). apply obind_Ok_inv in H as (r2 & Hu & H).
  apply obind_Ok_inv in H as (r3 & Hp%cause_ok & H). apply obind_Ok_inv in H as (r4 & Hs%cause_ok & H).
  apply obind_Ok_inv in H as (r5 & Hd & H). apply obind_Ok_inv in H as (r6 & Hi%cause_ok & H). apply obind_Ok_inv in H as (r7 & Hsi%cause_ok & H).
  case_bool_decide; [done|]. injection H as <-.
  apply obind_Ok_inv in Hn as (nets & ->%translate_networks_eq & [= <-]). apply put_users_eq in Hu as [-> Hu].
  apply appendPortMatch_spec in Hp as (pv & rg & -> & Hp1 & Hp2). apply appendPortMatch_spec in Hs as (spv & srg & -> & Hs1 & Hs2).
  apply obind_Ok_inv in Hd as (d & Hd & [= <-]). apply appendIPMatch_eq in Hi as [-> Hi]. apply appendIPMatch_eq in Hsi as [-> Hsi].
  by exists d, pv, spv, rg, srg.
Qed.

Ltac find_key :=
  repeat first
    [ rewrite lookup_put_ne by discriminate | rewrite lookup_ports_ne by discriminate
    | rewrite lookup_put_eq | rewrite lookup_ports by discriminate | rewrite lookup_ranges by discriminate ];
  rewrite ?lookup_singleton_ne by discriminate.
Lemma strings_of_put l : strings_of (if nonempty l then Some (CStrings l) else None) = as_slice l.
Proof. by destruct l. Qed.

(** The options a translated rule is decoded to. *)
Lemma decode_fields s d pv spv rg srg o :
  o = decode_rule (canonical_of s d pv spv rg srg) ->
  c_Inbound o = as_slice (x_InboundTag s) /\ c_Network o = as_slice (ToLower <$> x_Network s)
  /\ c_AuthUser o = as_slice (exact_users (x_User s)) /\ c_Protocol o = as_slice (x_Protocols s)
  /\ c_Domain o = as_slice (full d) /\ c_DomainSuffix o = as_slice (suffix d)
  /\ c_DomainKeyword o = as_slice (keyword d) /\ c_DomainRegex o = as_slice (regex d)
  /\ c_SourceIPCIDR o = as_slice (ip_list (rule_sources s)) /\ c_IPCIDR o = as_slice (ip_list (x_IP s))
  /\ c_SourcePort o = ports_of spv /\ c_SourcePortRange o = as_slice srg /\ c_Port o = ports_of pv /\ c_PortRange o = as_slice rg.
Proof.
  intros ->. unfold decode_rule, canonical_of.
  cbn [r_common c_Inbound c_Network c_AuthUser c_Protocol c_Domain c_DomainSuffix c_DomainKeyword c_DomainRegex c_SourceIPCIDR c_IPCIDR
       c_SourcePort c_SourcePortRange c_Port c_PortRange].
  split_and!; find_key; rewrite ?strings_of_put; try done; by destruct spv, pv.
Qed.

(** A rule that was built has an item for each condition given. *)
Lemma run_steps_ok l r0 r ts o : run_steps l r0 = Ok r -> (ts, Some o) ∈ l -> exists it, o = Ok it.
Proof.
  revert r0. induction l as [|[ts' [o'|]] l IH]; intros r0 H; cbn [run_steps] in H; [by intros ?%not_elem_of_nil| |].
  - inv_ok. intros [[= -> ->]|Hin]%elem_of_cons; [by exists a|by eapply IH].
  - intros [?|Hin]%elem_of_cons; [done|by eapply IH].
Qed.
Lemma built_cidr (src : bool) (o : RawDefaultRule) r l tail :
  run_steps (default_rule_steps o ++ tail) empty_items = Ok r ->
  (if src then c_SourceIPCIDR o else c_IPCIDR o) = as_slice l -> nonempty l = true -> exists it, NewIPCIDRItem src l = Ok it.
Proof.
  intros Hr Hl Hn.
  destruct (run_steps_ok _ _ _ (if src then [To GSourceAddress; ToAllItems] else [To GDestinationIPCIDR; ToAllItems])
    (cause (if src then "source_ip_cidr" else "ipcidr") (NewIPCIDRItem src l)) Hr) as [it Hit]; [|by apply cause_ok in Hit; exists it].
  apply elem_of_app. left. destruct src; unfold default_rule_steps; rewrite Hl, given_as_slice, elems_as_slice, Hn; cbn [when]; set_solver+.
Qed.
Lemma built_ips (src : bool) (o : RawDefaultRule) r tail md values :
  sets_as_built -> of_connection md -> run_steps (default_rule_steps o ++ tail) empty_items = Ok r ->
  (if src then c_SourceIPCIDR o else c_IPCIDR o) = as_slice (ip_list values) -> is_ok (translate_ips values) = true ->
  nonempty values = true ->
  cidr_holds src (ip_list values) md
  = existsb (fun a => existsb (xray_ip a) values) (if src then [sa_Addr (md_Source md)] else destination_addresses md).
Proof.
  intros Hsets Hmd Hr Ho Ht Hn. unfold ip_list in *. destruct (translate_ips values) as [l| | |] eqn:E; try done.
  destruct (built_cidr src o r l tail) as [it Hit]; try done; [by rewrite (translate_ips_given _ _ E)|].
  rewrite (cidr_holds_entries src l it md) by done. apply existsb_ext. intros a. by apply ip_list_holds.
Qed.

(** The domains and the addresses of a rule, as the route rule reads them. *)
Definition destination_holds s md : bool :=
  implb (nonempty (rule_domains s) || nonempty (x_IP s))
    (nonempty (rule_domains s) && xray_domains_hold s md || nonempty (x_IP s) && xray_ips_hold s md).

(** The conditions that can be given, one after the other. *)
Definition keep (c : condition) : list condition := if cond_given c then [c] else [].
Lemma filter_keep cs : List.filter cond_given cs = concat (keep <$> cs).
Proof. induction cs as [|c cs IH]; [done|]. cbn. rewrite IH. unfold keep. by destruct (cond_given c). Qed.
Lemma keep_none c : cond_given c = false -> keep c = [].
Proof. unfold keep. by intros ->. Qed.
Lemma concat_cons_eq {A} (l : list A) ls : concat (l :: ls) = l ++ concat ls.
Proof. done. Qed.
Lemma concat_nil_eq {A} : concat (@nil (list A)) = [].
Proof. done. Qed.
Lemma forallb_keep g b h : forallb (fun c => implb (cond_given c && bool_decide (cond_group c = GItems)) (cond_holds c)) (keep (MkCond g b h))
  = implb (b && bool_decide (g = GItems)) h.
Proof. destruct b; cbn; [by rewrite andb_true_r|done]. Qed.
Lemma any_given_keep gs g b h : any_given gs (keep (MkCond g b h)) = b && bool_decide (g ∈ gs).
Proof. unfold any_given. destruct b; cbn; [by rewrite orb_false_r|done]. Qed.
Lemma any_holds_keep gs g b h : any_holds gs (keep (MkCond g b h)) = b && bool_decide (g ∈ gs) && h.
Proof. unfold any_holds. destruct b; cbn; [by rewrite orb_false_r|done]. Qed.
Lemma any_given_app gs l l' : any_given gs (l ++ l') = any_given gs l || any_given gs l'.
Proof. apply existsb_app. Qed.
Lemma any_holds_app gs l l' : any_holds gs (l ++ l') = any_holds gs l || any_holds gs l'.
Proof. apply existsb_app. Qed.
Lemma conditions_match_none md cs : existsb cond_given cs = false -> conditions_match md cs = true.
Proof.
  intros H. rewrite <- conditions_match_given. rewrite existsb_given in H. apply negb_false_iff, bool_decide_eq_true_1 in H. rewrite H.
  unfold conditions_match. by destruct (md_IPCIDRMatchSource md).
Qed.

Lemma given_one_of (x : Z) (l : slice Z) : given l && one_of x l = one_of x l.
Proof. unfold one_of. destruct l as [[|y l]|]; done. Qed.
Lemma nonempty_ranges l port : nonempty l && port_range_holds l port = port_range_holds l port.
Proof. by destruct l. Qed.

Lemma domain_conditions_hold s d md :
  domains_alternative -> add_domains (rule_domains s) (MkDomains [] [] [] []) = Ok d ->
  (nonempty (full d) || nonempty (suffix d)) || (nonempty (keyword d) || nonempty (regex d)) = nonempty (rule_domains s)
  /\ (nonempty (full d) || nonempty (suffix d)) && match_host md (Matcher_Match (NewMatcher (full d) (suffix d) false))
     || (nonempty (keyword d) && match_host md (fun h => existsb (StrContains h) (keyword d))
         || nonempty (regex d) && match_host md (regex_holds (regex d)))
    = xray_domains_hold s md.
Proof.
  intros Hm Hd. split.
  - destruct (add_domains_spec _ _ _ "" Hd) as [_ H]. unfold lists_given in H. cbn in H. by rewrite <- H, !orb_assoc.
  - unfold xray_domains_hold, match_host. case_bool_decide as Hh; [by rewrite !andb_false_r|]. set (h := ToLower (domainHost md)).
    destruct (add_domains_spec _ _ _ h Hd) as [H _]. unfold lists_match in H. cbn [full suffix keyword regex existsb orb] in H.
    change (regex_holds [] h) with false in H. cbn [orb] in H. rewrite <- H, Hm.
    assert (Hk : nonempty (keyword d) && existsb (StrContains h) (keyword d) = existsb (StrContains h) (keyword d)) by (by destruct (keyword d)).
    assert (Hr : nonempty (regex d) && regex_holds (regex d) h = regex_holds (regex d) h) by (by destruct (regex d)).
    rewrite Hk, Hr. destruct (full d), (suffix d); cbn; btauto.
Qed.

Lemma decoded_rule_built o r rs invert :
  NewDefaultRule_conditions o = Ok (MkDefault r rs invert) -> given (c_RuleSet o) = false -> c_Invert o = false ->
  run_steps (default_rule_steps o ++ process_steps o ++ network_steps o ++ preferred_by_steps o NewPreferredByItem) empty_items = Ok r
  /\ rs = None /\ invert = false.
Proof. unfold NewDefaultRule_conditions, add_rule_set. intros H Hs Hi. rewrite Hs, Hi in H. by inv_ok. Qed.
Lemma translated_matches s result w md clash outbounds transports r rs invert r' :
  domains_alternative -> sets_as_built -> translateXrayRoutingRule s = Ok result ->
  NewDefaultRule_conditions (decode_rule result) = Ok (MkDefault r rs invert) ->
  start_items (item_Start clash outbounds transports) r = Ok r' -> of_connection md ->
  (abstractDefault_Match w (MkDefault r' rs invert) md).1 = xray_other_fields s md && destination_holds s md.
Proof.
  intros Hm Hsets Ht Hn Hst Hmd. pose proof Hmd as [Hi Hsrc _ _].
  apply translate_shape in Ht as (d & pv & spv & rg & srg & -> & Hd & Hu & (Hip & Hip') & (Hsip & Hsip') & Hp1 & Hp2 & Hs1 & Hs2).
  set (o := decode_rule (canonical_of s d pv spv rg srg)) in *.
  apply decoded_rule_built in Hn as (Hr & -> & ->); [|done..].
  erewrite (built_rule_semantics _ w md); [|apply route_steps_describe|exact Hr|exact Hst|exact Hi].
  transitivity (conditions_match md (route_conditions w md clash o)).
  { destruct (existsb _ _) eqn:Eg; [by rewrite xorb_false_l|]. by rewrite conditions_match_none. }
  destruct (decode_fields s d pv spv rg srg o eq_refl) as (F1 & F2 & F3 & F4 & F5 & F6 & F7 & F8 & F9 & F10 & F11 & F12 & F13 & F14).
  rewrite <- conditions_match_given, filter_keep. unfold route_conditions. rewrite F1, F2, F3, F4, F5, F6, F7, F8, F9, F10, F11, F12, F13, F14.
  rewrite !given_as_slice, !fmap_app, !fmap_cons, !fmap_nil, !concat_app, !concat_cons_eq, !concat_nil_eq.
  repeat match goal with |- context [keep ?c] => rewrite (keep_none c eq_refl) end. rewrite ?app_nil_l, ?app_nil_r, <- ?app_assoc.
  unfold conditions_match, alternatives. rewrite Hsrc. rewrite !forallb_app, !any_given_app, !any_holds_app.
  rewrite !forallb_keep, !any_given_keep, !any_holds_keep.
  repeat match goal with |- context [bool_decide ?P] =>
    match P with | ?g = GItems => idtac | ?g ∈ _ => is_constructor g end;
    first [rewrite (eq_refl : bool_decide P = true)|rewrite (eq_refl : bool_decide P = false)] end.
  rewrite ?andb_true_r, ?andb_false_r, ?orb_false_r. cbn [implb andb orb].
  rewrite !elems_as_slice, !given_one_of, !nonempty_ranges, <- Hp1, Hp2, <- Hs1, Hs2, Hu, Hip, Hsip.
  pose proof (built_ips true o r _ md (rule_sources s) Hsets Hmd Hr F9 Hsip') as C1.
  pose proof (built_ips false o r _ md (x_IP s) Hsets Hmd Hr F10 Hip') as C2. cbn [existsb] in C1. rewrite orb_false_r in C1.
  destruct (domain_conditions_hold s d md Hm Hd) as [D1 D2].
  rewrite (orb_assoc (nonempty (keyword d))), (orb_assoc (nonempty (full d) || nonempty (suffix d))), D1.
  rewrite (orb_assoc (nonempty (keyword d) && _)), (orb_assoc ((nonempty (full d) || nonempty (suffix d)) && _)), D2.
  unfold xray_other_fields, destination_holds, xray_ips_hold, xray_sources_hold. unfold one_of at 1 2 3 4. rewrite !elems_as_slice, nonempty_map.
  assert (D3 : nonempty (rule_domains s) && xray_domains_hold s md = xray_domains_hold s md).
  { unfold xray_domains_hold, match_host. case_bool_decide; [by rewrite andb_false_r|]. by destruct (rule_domains s). }
  assert (C3 : nonempty (x_IP s) && cidr_holds false (ip_list (x_IP s)) md
    = nonempty (x_IP s) && existsb (fun a => existsb (xray_ip a) (x_IP s)) (destination_addresses md)).
  { destruct (nonempty (x_IP s)); [|done]. by rewrite C2. }
  rewrite D3, C3. set (A := implb _ (xray_ports (x_Port s) _)). set (B := implb (nonempty (rule_domains s) || nonempty (x_IP s)) _).
  set (C := implb (hasJSONValue (x_SourcePort s)) _).
  destruct (nonempty (rule_sources s)); cbn [implb andb]; rewrite ?C1 by done; btauto.
Qed.

(** C36: a rule of an Xray configuration that has domains or addresses but not both, translated,
    decoded, built and started, matches a connection exactly if all its fields hold in Xray: a port
    is in the list, a name has one of the domains by its prefix, the source and one of the addresses
    of the destination is one of the addresses or networks written in the rule, or a private one
    for [geoip:private]. *)
Theorem xray_rule_semantics s result w md clash outbounds transports r rs invert r' :
  domains_alternative -> sets_as_built -> translateXrayRoutingRule s = Ok result -> rule_domains s = [] \/ x_IP s = [] ->
  NewDefaultRule_conditions (decode_rule result) = Ok (MkDefault r rs invert) ->
  start_items (item_Start clash outbounds transports) r = Ok r' -> of_connection md ->
  (abstractDefault_Match w (MkDefault r' rs invert) md).1 = xray_rule_holds s md.
Proof.
  intros Hm Hsets Ht Hone Hn Hst Hmd. rewrite (translated_matches s result w md clash outbounds transports r rs invert r') by done.
  unfold xray_rule_holds, destination_holds. rewrite <- andb_assoc. f_equal.
  destruct Hone as [-> | ->]; cbn [nonempty orb andb implb]; rewrite ?orb_false_r, ?andb_true_r; by destruct (nonempty _).
Qed.

(** A rule with domains and addresses matches a connection of which one of them holds, where
    Xray asks for both. *)
Theorem domain_and_ip_alternatives s result w md clash outbounds transports r rs invert r' :
  domains_alternative -> sets_as_built -> translateXrayRoutingRule s = Ok result ->
  nonempty (rule_domains s) = true -> nonempty (x_IP s) = true ->
  NewDefaultRule_conditions (decode_rule result) = Ok (MkDefault r rs invert) ->
  start_items (item_Start clash outbounds transports) r = Ok r' -> of_connection md ->
  (abstractDefault_Match w (MkDefault r' rs invert) md).1 = xray_other_fields s md && (xray_domains_hold s md || xray_ips_hold s md)
  /\ xray_rule_holds s md = xray_other_fields s md && (xray_domains_hold s md && xray_ips_hold s md).
Proof.
  intros Hm Hsets Ht Hd Hp Hn Hst Hmd. rewrite (translated_matches s result w md clash outbounds transports r rs invert r') by done.
  unfold xray_rule_holds, destination_holds. rewrite Hd, Hp, <- andb_assoc. done.
Qed.

End Semantics.

(** ** Witnesses *)

Lemma concrete_domains : domains_alternative.
Proof.
  intros f sf h. cbn. unfold domain_match. cbn. f_equal; [|apply existsb_ext; intros d; by rewrite orb_false_r].
  induction f as [|d f IH]; [done|]. cbn [existsb]. rewrite <- IH, orb_false_r.
  rewrite (bool_decide_ext (h ∈ d :: f) (h ∈ [d] \/ h ∈ f)); [by rewrite bool_decide_or|]. rewrite elem_of_cons, list_elem_of_singleton. done.
Qed.

Lemma op_range_holds op r a : op_range op = Ok r -> in_ip_range a r = op_holds a op.
Proof.
  destruct op as [[b bits]|b]; cbn [op_range op_holds].
  - destruct (negb (PrefixIsValid _) || (BitLen b <? bits)) eqn:E; [done|]. to_prop. unfold PrefixIsValid in *. cbn [p_bits] in *. to_prop.
    unfold Contains, PrefixIsValid. cbn [p_bits p_addr]. rewrite (proj2 (Z.leb_le 0 bits)) by lia.
    set (k := BitLen b - bits). assert (Hk : 0 <= k) by lia.
    set (x := addr_val b / 2 ^ k * 2 ^ k).
    assert (Hx : forall v, (Z.shiftr (Z.lxor v (addr_val b)) k =? 0) = within v (x, x + 2 ^ k - 1)).
    { intros v. rewrite <- shift_within; [|done|apply Z.mod_mul, Z.pow_nonzero; lia].
      rewrite !Z.shiftr_lxor, !Z.shiftr_div_pow2 by lia. unfold x. by rewrite Z.div_mul by (apply Z.pow_nonzero; lia). }
    intros Hr. destruct b as [|b|b z]; [done| |]; injection Hr as <-; destruct a as [v|v|v z']; unfold in_ip_range;
      cbn [from to has_zone BitLen IsValid addr_val negb orb andb Z.eqb Pos.eqb] in *; try done; try (by rewrite ?orb_true_r; destruct (bool_decide _)).
    all: fold x; rewrite ?Hx; unfold within; cbn [fst snd]; rewrite ?andb_true_r; try done.
    by case_bool_decide.
  - destruct (IsValid b) eqn:Hb; [|done]. intros [= <-]. unfold in_ip_range. cbn [from to].
    destruct a as [v|v|v z], b as [u|u|u z']; try done; cbn [BitLen IsValid has_zone without_zone addr_val negb andb Z.eqb Pos.eqb].
    + apply eq_true_iff_eq. rewrite andb_true_iff, !Z.leb_le, bool_decide_eq_true. split; [intros; f_equal; lia|intros [= ->]; lia].
    + by case_bool_decide.
    + case_bool_decide as Hz; cbn [negb andb]; [subst z|done].
      apply eq_true_iff_eq. rewrite andb_true_iff, !Z.leb_le, bool_decide_eq_true. split; [intros; f_equal; lia|intros [= ->]; lia].
Qed.
Lemma concrete_sets : sets_as_built.
Proof.
  intros ops set a. change (omap_from (fun _ => op_range) 0 ops = Ok set -> existsb (in_ip_range a) set = existsb (op_holds a) ops).
  generalize 0. revert set. induction ops as [|op ops IH]; intros set i H; cbn in H; inv_ok; [done|].
  cbn [existsb]. by rewrite (op_range_holds _ _ a E), (IH _ _ E0).
Qed.

Definition ex_xray (domains ips : list string) : xrayRoutingRule :=
  MkXrayRule "field" "" "proxy" "" domains None ips (Some (JString "80, 400-500")) ["TCP"] None [] None [] None ["in"] ["tls"] [] [] None [] None.
(** The translated rule, its items before and after the start. *)
Definition ex_result (s : xrayRoutingRule) : canonical_rule := match translateXrayRoutingRule s with Ok r => r | _ => ∅ end.
Definition ex_items (s : xrayRoutingRule) : default_items :=
  match NewDefaultRule_conditions (decode_rule (ex_result s)) with Ok (MkDefault r _ _) => r | _ => empty_items end.
Definition ex_started (s : xrayRoutingRule) : default_items :=
  match start_items (item_Start true (fun _ => None) (fun _ => None)) (ex_items s) with Ok r => r | _ => empty_items end.
Definition ex_domain_rule : xrayRoutingRule := ex_xray ["domain:example.com"; "keyword:ads"] [].
Definition ex_private_rule : xrayRoutingRule := ex_xray [] ["198.51.0.0/17"; "geoip:Private"; "8.8.8.8"].
Definition ex_both_rule : xrayRoutingRule := ex_xray ["full:other.example"] ["10.0.0.0/8"].
Lemma ex_md_of_connection : of_connection ex_md.
Proof. done. Qed.

Lemma xray_rule_semantics_witness :
  ((abstractDefault_Match ex_world (MkDefault (ex_started ex_domain_rule) None false) ex_md).1 = xray_rule_holds ex_domain_rule ex_md
   /\ xray_rule_holds ex_domain_rule ex_md = true)
  /\ ((abstractDefault_Match ex_world (MkDefault (ex_started ex_private_rule) None false) ex_md).1 = xray_rule_holds ex_private_rule ex_md
      /\ xray_rule_holds ex_private_rule ex_md = true).
Proof.
  split; (split; [|vm_compute; reflexivity]).
  - apply (xray_rule_semantics ex_domain_rule (ex_result ex_domain_rule) ex_world ex_md true (fun _ => None) (fun _ => None) (ex_items ex_domain_rule)
      None false (ex_started ex_domain_rule));
      [exact concrete_domains|exact concrete_sets|reflexivity|by right|reflexivity|reflexivity|exact ex_md_of_connection].
  - apply (xray_rule_semantics ex_private_rule (ex_result ex_private_rule) ex_world ex_md true (fun _ => None) (fun _ => None) (ex_items ex_private_rule)
      None false (ex_started ex_private_rule));
      [exact concrete_domains|exact concrete_sets|reflexivity|by left|reflexivity|reflexivity|exact ex_md_of_connection].
Defined.

(** The connection to example.com at 10.1.2.3 is not one the rule is for. *)
Lemma domain_and_ip_alternatives_witness :
  (abstractDefault_Match ex_world (MkDefault (ex_started ex_both_rule) None false) ex_md).1 = true /\ xray_rule_holds ex_both_rule ex_md = false.
Proof.
  destruct (domain_and_ip_alternatives ex_both_rule (ex_result ex_both_rule) ex_world ex_md true (fun _ => None) (fun _ => None) (ex_items ex_both_rule)
    None false (ex_started ex_both_rule)) as [H1 H2];
    [exact concrete_domains|exact concrete_sets|reflexivity|reflexivity|reflexivity|reflexivity|reflexivity|exact ex_md_of_connection|].
  split; [rewrite H1|rewrite H2]; vm_compute; reflexivity.
Defined.

(** What the translation refuses and what it makes of ports. *)
Example xray_translations :
  ex_result ex_domain_rule !! "port_range" = Some (CStrings ["400:500"]) /\ ex_result ex_domain_rule !! "domain_keyword" = Some (CStrings ["ads"])
  /\ appendPortMatch ∅ "port" "port_range" (Some (JString "0")) = Err (ENew "invalid port: 0")
  /\ appendPortMatch ∅ "port" "port_range" (Some (JInt 0)) = Ok {["port" := CPort 0]}
  /\ isXrayPrivateAddress "[::1]" = true /\ isXrayPrivateAddress "10.255.0.1" = true /\ isXrayPrivateAddress "8.8.8.8" = false
  /\ isXrayPrivateAddress "printer.lan." = true /\ isXrayPrivateAddress "example.com" = false.
Proof. split_and!; vm_compute; reflexivity. Qed.
