(* ===== verification/XrayConn.v ===== *)
(** * The primitives of the VLESS encryption

    protocol/vless/xrayencryption: the ciphers, hashes and key exchanges it calls are the
    operations of a class; above them are the AEAD with its counter, the XOR stream, and the
    lengths and headers of records (common.go, xor.go). *)

From S2P Require Import Prelude GoStd.
Local Open Scope Z_scope.

(** AES-256-GCM ([true]) and ChaCha20-Poly1305 ([false]) by key, nonce, text and additional
    data; BLAKE3; the key stream of AES-CTR by position; X25519 and ML-KEM-768, keys and
    draws given as bytes. *)
Class XrayCrypto := {
  aead_Seal : bool -> bytes -> bytes -> bytes -> bytes -> bytes;
  aead_Open : bool -> bytes -> bytes -> bytes -> bytes -> option bytes;
  blake3_DeriveKey : bytes -> bytes -> bytes;
  blake3_Sum256 : bytes -> bytes;
  aes_ctr : bytes -> bytes -> Z -> Z;
  x25519_Public : bytes -> bytes;
  x25519_ECDH : bytes -> bytes -> outcome bytes;
  mlkem_Public : bytes -> bytes;
  mlkem_NewEncapsulationKey : bytes -> outcome bytes;
  mlkem_Encapsulate : bytes -> bytes -> bytes * bytes;
  mlkem_Decapsulate : bytes -> bytes -> outcome bytes
}.

(** What is documented of them. *)
Class XrayCryptoLaws (C : XrayCrypto) := {
  aead_Open_Seal : forall aes k n p ad, aead_Open aes k n (aead_Seal aes k n p ad) ad = Some p;
  aead_Seal_length : forall aes k n p ad, length (aead_Seal aes k n p ad) = (length p + 16)%nat;
  aead_Open_length : forall aes k n c ad p, aead_Open aes k n c ad = Some p -> length c = (length p + 16)%nat;
  blake3_Sum256_length : forall b, length (blake3_Sum256 b) = 32%nat;
  x25519_Public_length : forall k, length (x25519_Public k) = 32%nat;
  (** a coordinate is less than 2^255 *)
  x25519_Public_high : forall k, exists b, x25519_Public k !! 31%nat = Some b /\ b <= 127;
  x25519_agree : forall a b, x25519_ECDH a (x25519_Public b) = x25519_ECDH b (x25519_Public a);
  (** public keys of the curve's group agree on a key *)
  x25519_honest : forall a b, is_ok (x25519_ECDH a (x25519_Public b)) = true;
  x25519_ECDH_length : forall a p k, x25519_ECDH a p = Ok k -> length k = 32%nat;
  mlkem_Public_length : forall k, length (mlkem_Public k) = 1184%nat;
  mlkem_Public_valid : forall k, mlkem_NewEncapsulationKey (mlkem_Public k) = Ok (mlkem_Public k);
  mlkem_Encapsulate_length : forall p r, length (mlkem_Encapsulate p r).1 = 32%nat /\ length (mlkem_Encapsulate p r).2 = 1088%nat;
  mlkem_agree : forall k r, mlkem_Decapsulate k (mlkem_Encapsulate (mlkem_Public k) r).2 = Ok (mlkem_Encapsulate (mlkem_Public k) r).1
}.

(** ** Nonces *)

(** [IncreaseNonce], from the last byte. *)
Fixpoint increase_rev (nonce : bytes) : bytes :=
  match nonce with
  | [] => []
  | b :: nonce' => let b := uint 8 (b + 1) in if b =? 0 then b :: increase_rev nonce' else b :: nonce'
  end.
Definition IncreaseNonce (nonce : bytes) : bytes := rev (increase_rev (rev nonce)).
Definition MaxNonce : bytes := replicate 12 255.

(** ** AEAD *)

Record AEAD := MkAEAD { a_AES : bool; a_key : bytes; a_Nonce : bytes }.

#[export] Instance AEAD_eq_dec : EqDecision AEAD.
Proof. solve_decision. Defined.

Definition Overhead : Z := 16.
Definition authentication_failed : error := EExternal "message authentication failed".

Section Primitives.
Context {C : XrayCrypto}.

Definition NewAEAD (context key : bytes) (useAES : bool) : AEAD :=
  MkAEAD useAES (blake3_DeriveKey context key) (replicate 12 0).

(** The nonce of a call, increased first when none is given. *)
Definition next_nonce (a : AEAD) (nonce : option bytes) : bytes * AEAD :=
  match nonce with
  | Some n => (n, a)
  | None => let n := IncreaseNonce (a_Nonce a) in (n, MkAEAD (a_AES a) (a_key a) n)
  end.
Definition AEAD_Seal (a : AEAD) (nonce : option bytes) (plaintext additionalData : bytes) : bytes * AEAD :=
  let '(n, a) := next_nonce a nonce in (aead_Seal (a_AES a) (a_key a) n plaintext additionalData, a).
Definition AEAD_Open (a : AEAD) (nonce : option bytes) (ciphertext additionalData : bytes) : option bytes * AEAD :=
  let '(n, a) := next_nonce a nonce in (aead_Open (a_AES a) (a_key a) n ciphertext additionalData, a).

(** ** Lengths and headers *)

Definition EncodeLength (l : Z) : bytes := [uint 8 (Z.shiftr l 8); uint 8 l].
(** [b[0]] and [b[1]] of a slice that has them. *)
Definition DecodeLength (b : bytes) : Z := Z.lor (Z.shiftl (nth 0 b 0) 8) (nth 1 b 0).

Definition maxPlaintextSize : Z := 8192.
Definition maxRecordSize : Z := 16640.
Definition EncodeHeader (length : Z) : bytes := [23; 3; 3; uint 8 (Z.shiftr length 8); uint 8 length].
(** [%v] of a slice of bytes. *)
Definition format_bytes (b : bytes) : string := "[" +:+ Join ((fun x : Z => pretty x) <$> b) " " +:+ "]".
Definition DecodeHeader (header : bytes) : outcome Z :=
  if zlen header <? 5 then Err (ENew ("invalid header: " +:+ format_bytes header))
  else
    let length := Z.lor (Z.shiftl (nth 3 header 0) 8) (nth 4 header 0) in
    if negb (nth 0 header 0 =? 23) || negb (nth 1 header 0 =? 3) || negb (nth 2 header 0 =? 3)
       || (length <? 17) || (maxRecordSize <? length)
    then Err (ENew ("invalid header: " +:+ format_bytes (take 5 header)))
    else Ok length.

(** ** The XOR stream *)

(** [cipher.NewCTR]: a key stream and the position in it. *)
Record Stream_ := MkCTR { s_key : bytes; s_iv : bytes; s_pos : Z }.
Definition NewCTR (key iv : bytes) : Stream_ := MkCTR (blake3_DeriveKey (bytes_of_string "VLESS") key) iv 0.
Definition keystream (s : Stream_) (n : nat) : bytes := (fun i => aes_ctr (s_key s) (s_iv s) (s_pos s + Z.of_nat i)) <$> seq 0 n.
Definition XORKeyStream (s : Stream_) (b : bytes) : bytes * Stream_ :=
  (zip_with Z.lxor b (keystream s (length b)), MkCTR (s_key s) (s_iv s) (s_pos s + zlen b)).

End Primitives.

(** * Connections of the VLESS encryption

    protocol/vless/xrayencryption/common.go and xor.go: [CommonConn], which cuts what is
    written into sealed records and opens those of the peer, and [XorConn] below it, which
    hides the headers of the records.

    The network gives what the peer sent in pieces and takes writes as [wr] says: the number
    of bytes and the error of a call, by what was sent before and by the buffer. *)

(** ** The network *)

(** Pieces still to be read, the error after them, and what was written. *)
Record Net := MkNet { n_chunks : list bytes; n_fin : error; n_sent : list bytes }.

Definition net_Read (n : Z) (w : Net) : bytes * option error * Net :=
  match n_chunks w with
  | [] => ([], Some (n_fin w), w)
  | c :: cs =>
      if zlen c <=? n then (c, None, MkNet cs (n_fin w) (n_sent w))
      else (take (Z.to_nat n) c, None, MkNet (drop (Z.to_nat n) c :: cs) (n_fin w) (n_sent w))
  end.

Definition ErrShortWrite : error := ENew "short write".

(** ** XorConn *)

Record XorConn := MkXor {
  x_CTR : option Stream_; x_PeerCTR : option Stream_;
  x_OutSkip : Z; x_OutHeader : bytes; x_InSkip : Z; x_InHeader : bytes
}.

(** ** CommonConn *)

(** The session of a [ClientInstance] that its connections share. *)
Record ClientSession := MkClientSession { cs_Expire : Z; cs_PfsKey : bytes; cs_Ticket : bytes }.

(** [Conn] is the network, or a [XorConn] on it. *)
Record CommonConn := MkConn {
  c_Conn : option XorConn;
  c_UseAES : bool;
  c_Client : bool;
  c_UnitedKey : bytes;
  c_PreWrite : option bytes;
  c_AEAD : option AEAD;
  c_PeerAEAD : option AEAD;
  c_PeerPadding : option Z;
  c_input : bytes
}.

Definition NewCommonConn (useAES : bool) : CommonConn :=
  MkConn None useAES false [] None None None None [].

Definition set_Conn (x : option XorConn) (c : CommonConn) : CommonConn :=
  MkConn x (c_UseAES c) (c_Client c) (c_UnitedKey c) (c_PreWrite c) (c_AEAD c) (c_PeerAEAD c) (c_PeerPadding c) (c_input c).
Definition set_Client (b : bool) (c : CommonConn) : CommonConn :=
  MkConn (c_Conn c) (c_UseAES c) b (c_UnitedKey c) (c_PreWrite c) (c_AEAD c) (c_PeerAEAD c) (c_PeerPadding c) (c_input c).
Definition set_UnitedKey (k : bytes) (c : CommonConn) : CommonConn :=
  MkConn (c_Conn c) (c_UseAES c) (c_Client c) k (c_PreWrite c) (c_AEAD c) (c_PeerAEAD c) (c_PeerPadding c) (c_input c).
Definition set_PreWrite (p : option bytes) (c : CommonConn) : CommonConn :=
  MkConn (c_Conn c) (c_UseAES c) (c_Client c) (c_UnitedKey c) p (c_AEAD c) (c_PeerAEAD c) (c_PeerPadding c) (c_input c).
Definition set_AEAD (a : AEAD) (c : CommonConn) : CommonConn :=
  MkConn (c_Conn c) (c_UseAES c) (c_Client c) (c_UnitedKey c) (c_PreWrite c) (Some a) (c_PeerAEAD c) (c_PeerPadding c) (c_input c).
Definition set_PeerAEAD (a : AEAD) (c : CommonConn) : CommonConn :=
  MkConn (c_Conn c) (c_UseAES c) (c_Client c) (c_UnitedKey c) (c_PreWrite c) (c_AEAD c) (Some a) (c_PeerPadding c) (c_input c).
Definition set_PeerPadding (p : option Z) (c : CommonConn) : CommonConn :=
  MkConn (c_Conn c) (c_UseAES c) (c_Client c) (c_UnitedKey c) (c_PreWrite c) (c_AEAD c) (c_PeerAEAD c) p (c_input c).
Definition set_input (b : bytes) (c : CommonConn) : CommonConn :=
  MkConn (c_Conn c) (c_UseAES c) (c_Client c) (c_UnitedKey c) (c_PreWrite c) (c_AEAD c) (c_PeerAEAD c) (c_PeerPadding c) b.

Section Conn.
Context {C : XrayCrypto}.
Context (wr : list bytes -> bytes -> Z * option error).

(** [writeFull] on the network: each round sends at least a byte or returns. *)
Fixpoint net_writeFull (fuel : nat) (b : bytes) (w : Net) : outcome unit * Net :=
  match b with
  | [] => (Ok tt, w)
  | _ =>
      match fuel with
      | O => (Diverge, w)
      | S fuel' =>
          let '(n, err) := wr (n_sent w) b in
          let w := MkNet (n_chunks w) (n_fin w) (n_sent w ++ [take (Z.to_nat n) b]) in
          match err with
          | Some e => (Err e, w)
          | None =>
              if (n <=? 0) || (zlen b <? n) then (Err ErrShortWrite, w)
              else net_writeFull fuel' (drop (Z.to_nat n) b) w
          end
      end
  end.
Definition writeFull_net (b : bytes) (w : Net) : outcome unit * Net := net_writeFull (length b) b w.

(** ** XorConn *)

Definition NewXorConn (ctr peerCTR : option Stream_) (outSkip inSkip : Z) : XorConn :=
  MkXor ctr peerCTR outSkip [] inSkip [].

(** The loop of [Write] over the buffer: the text it becomes, [OutSkip], [OutHeader] and the
    stream.  A round but the last takes a byte of a header at least. *)
Fixpoint xor_out (fuel : nat) (remaining : bytes) (skip : Z) (header : bytes) (ctr : Stream_) : bytes * Z * bytes * Stream_ :=
  match fuel with
  | O => (remaining, skip, header, ctr)
  | S fuel' =>
      if zlen remaining <=? skip then (remaining, skip - zlen remaining, header, ctr)
      else
        let before := take (Z.to_nat skip) remaining in
        let remaining := drop (Z.to_nat skip) remaining in
        let need := (5 - length header)%nat in
        if (length remaining <? need)%nat then
          let '(x, ctr) := XORKeyStream ctr remaining in (before ++ x, 0, header ++ remaining, ctr)
        else
          let skip := match DecodeHeader (header ++ take need remaining) with Ok l => l | _ => 0 end in
          let '(x, ctr) := XORKeyStream ctr (take need remaining) in
          let '(rest, skip, header, ctr) := xor_out fuel' (drop need remaining) skip [] ctr in
          (before ++ x ++ rest, skip, header, ctr)
  end.

Definition XorConn_Write (b : bytes) (x : XorConn) (w : Net) : outcome unit * XorConn * Net :=
  match b, x_CTR x with
  | [], _ => (Ok tt, x, w)
  | _, None => (Err (ENew "xray encryption: missing outbound XOR stream"), x, w)
  | _, Some ctr =>
      let '(out, skip, header, ctr) := xor_out (S (length b)) b (x_OutSkip x) (x_OutHeader x) ctr in
      let x := MkXor (Some ctr) (x_PeerCTR x) skip header (x_InSkip x) (x_InHeader x) in
      let '(r, w) := writeFull_net out w in (r, x, w)
  end.

(** The loop of [Read] over what was read. *)
Fixpoint xor_in (fuel : nat) (remaining : bytes) (skip : Z) (header : bytes) (ctr : option Stream_)
    : outcome (bytes * Z * bytes * option Stream_) :=
  match fuel with
  | O => Ok (remaining, skip, header, ctr)
  | S fuel' =>
      if bool_decide (remaining = []) then Ok ([], skip, header, ctr)
      else if zlen remaining <=? skip then Ok (remaining, skip - zlen remaining, header, ctr)
      else
        let before := take (Z.to_nat skip) remaining in
        let remaining := drop (Z.to_nat skip) remaining in
        match ctr with
        | None => Err (ENew "xray encryption: missing inbound XOR stream")
        | Some ctr =>
            let need := (5 - length header)%nat in
            if (length remaining <? need)%nat then
              let '(x, ctr) := XORKeyStream ctr remaining in Ok (before ++ x, 0, header ++ x, Some ctr)
            else
              let '(x, ctr) := XORKeyStream ctr (take need remaining) in
              let skip := match DecodeHeader (header ++ x) with Ok l => l | _ => 0 end in
              let* (rest, skip, header, ctr) := xor_in fuel' (drop need remaining) skip [] (Some ctr) in
              Ok (before ++ x ++ rest, skip, header, ctr)
        end
  end.

(** [Read] of a buffer of [n > 0] bytes. *)
Definition XorConn_Read (n : Z) (x : XorConn) (w : Net) : outcome bytes * option error * XorConn * Net :=
  let '(b, err, w) := net_Read n w in
  match xor_in (S (length b)) b (x_InSkip x) (x_InHeader x) (x_PeerCTR x) with
  | Ok (b, skip, header, ctr) => (Ok b, err, MkXor (x_CTR x) ctr (x_OutSkip x) (x_OutHeader x) skip header, w)
  | Err e => (Err e, err, MkXor (x_CTR x) (x_PeerCTR x) (x_OutSkip x) (x_OutHeader x) 0 (x_InHeader x), w)
  | Panic s => (Panic s, err, x, w)
  | Diverge => (Diverge, err, x, w)
  end.

(** ** Below CommonConn *)

(** [c.Conn.Read] *)
Definition conn_Read (n : Z) (x : option XorConn) (w : Net) : outcome bytes * option error * option XorConn * Net :=
  match x with
  | None => let '(b, err, w) := net_Read n w in (Ok b, err, None, w)
  | Some x => let '(r, err, x, w) := XorConn_Read n x w in (r, err, Some x, w)
  end.

(** [io.ReadFull]: a round reads a piece, at least in part. *)
Fixpoint read_full (fuel : nat) (n : Z) (acc : bytes) (x : option XorConn) (w : Net) : outcome bytes * option XorConn * Net :=
  if n <=? zlen acc then (Ok acc, x, w)
  else match fuel with
  | O => (Diverge, x, w)
  | S fuel' =>
      match conn_Read (n - zlen acc) x w with
      | (Ok b, None, x, w) => read_full fuel' n (acc ++ b) x w
      | (Ok b, Some e, x, w) =>
          (Err (if bool_decide (e = EOF) && negb (bool_decide (acc ++ b = [])) then ErrUnexpectedEOF else e), x, w)
      | (Err e, _, x, w) => (Err e, x, w)
      | (Panic s, _, x, w) => (Panic s, x, w)
      | (Diverge, _, x, w) => (Diverge, x, w)
      end
  end.
Definition read_fuel (w : Net) : nat := S (length (n_chunks w) + length (concat (n_chunks w))).
Definition io_ReadFull (n : Z) (x : option XorConn) (w : Net) : outcome bytes * option XorConn * Net := read_full (read_fuel w) n [] x w.

(** [writeFull(c.Conn, b)] *)
Definition conn_writeFull (b : bytes) (x : option XorConn) (w : Net) : outcome unit * option XorConn * Net :=
  match x with
  | None => let '(r, w) := writeFull_net b w in (r, None, w)
  | Some x => let '(r, x, w) := XorConn_Write b x w in (r, Some x, w)
  end.

(** ** CommonConn.Write *)

(** A record: its header, the sealed text, and the AEAD after it, derived anew when the
    nonces are used up. *)
Definition seal_record (key : bytes) (useAES : bool) (a : AEAD) (plaintext : bytes) : bytes * AEAD :=
  let header := EncodeHeader (zlen plaintext + Overhead) in
  let maxNonce := bool_decide (a_Nonce a = MaxNonce) in
  let '(sealed, a) := AEAD_Seal a None plaintext header in
  let headerAndData := header ++ sealed in
  (headerAndData, if maxNonce then NewAEAD headerAndData key useAES else a).

(** The loop over the buffer: the number of bytes and the error. *)
Fixpoint write_loop (fuel : nat) (b : bytes) (written : Z) (c : CommonConn) (w : Net) : outcome (Z * option error) * CommonConn * Net :=
  match b with
  | [] => (Ok (written, None), c, w)
  | _ =>
      match fuel, c_AEAD c with
      | S fuel', Some a =>
          let plaintext := take (Z.to_nat maxPlaintextSize) b in
          let '(headerAndData, a) := seal_record (c_UnitedKey c) (c_UseAES c) a plaintext in
          let c := set_AEAD a c in
          let headerAndData := default [] (c_PreWrite c) ++ headerAndData in
          let c := set_PreWrite None c in
          let '(r, x, w) := conn_writeFull headerAndData (c_Conn c) w in
          let c := set_Conn x c in
          match r with
          | Ok _ => write_loop fuel' (drop (Z.to_nat maxPlaintextSize) b) (written + zlen plaintext) c w
          | Err e => (Ok (written, Some e), c, w)
          | Panic s => (Panic s, c, w)
          | Diverge => (Diverge, c, w)
          end
      | _, _ => (Diverge, c, w)
      end
  end.
Definition CommonConn_Write (b : bytes) (c : CommonConn) (w : Net) : outcome (Z * option error) * CommonConn * Net :=
  match b, c_AEAD c with
  | [], _ => (Ok (0, None), c, w)
  | _, None => (Ok (0, Some (ENew "xray encryption: connection is not initialized")), c, w)
  | _, Some _ => write_loop (length b) b 0 c w
  end.

(** ** CommonConn.Read *)

(** The parts of [Read] in order; each may end it with an error. *)
Definition bind3 {A B} (r : outcome A * CommonConn * Net) (k : A -> CommonConn -> Net -> outcome B * CommonConn * Net)
    : outcome B * CommonConn * Net :=
  let '(r, c, w) := r in
  match r with
  | Ok a => k a c w
  | Err e => (Err e, c, w)
  | Panic s => (Panic s, c, w)
  | Diverge => (Diverge, c, w)
  end.

Definition c_ReadFull (n : Z) (c : CommonConn) (w : Net) : outcome bytes * CommonConn * Net :=
  let '(r, x, w) := io_ReadFull n (c_Conn c) w in (r, set_Conn x c, w).

(** The random bytes of the server come first on a resumed connection. *)
Definition read_random (c : CommonConn) (w : Net) : outcome unit * CommonConn * Net :=
  match c_PeerAEAD c with
  | Some _ => (Ok tt, c, w)
  | None =>
      bind3 (c_ReadFull 16 c w) (fun serverRandom c w =>
        let c := set_PeerAEAD (NewAEAD serverRandom (c_UnitedKey c) (c_UseAES c)) c in
        let c := match c_Conn c with
                 | Some x => set_Conn (Some (MkXor (x_CTR x) (Some (NewCTR (c_UnitedKey c) serverRandom))
                                               (x_OutSkip x) (x_OutHeader x) (x_InSkip x) (x_InHeader x))) c
                 | None => c
                 end in
        (Ok tt, c, w))
  end.
Definition read_padding (c : CommonConn) (w : Net) : outcome unit * CommonConn * Net :=
  match c_PeerPadding c, c_PeerAEAD c with
  | Some n, Some a =>
      bind3 (c_ReadFull n c w) (fun padding c w =>
        let '(r, a) := AEAD_Open a None padding [] in
        let c := set_PeerAEAD a c in
        match r with
        | None => (Err authentication_failed, c, w)
        | Some _ => (Ok tt, set_PeerPadding None c, w)
        end)
  | _, _ => (Ok tt, c, w)
  end.

(** A record of [l] bytes after its header. *)
Definition open_record (header : bytes) (l n : Z) (c : CommonConn) (w : Net) : outcome bytes * CommonConn * Net :=
  bind3 (c_ReadFull l c w) (fun peerData c w =>
    match c_PeerAEAD c with
    | None => (Panic "nil pointer dereference", c, w)
    | Some a =>
        let nextAEAD := if bool_decide (a_Nonce a = MaxNonce) then Some (NewAEAD (header ++ peerData) (c_UnitedKey c) (c_UseAES c)) else None in
        let '(r, a) := AEAD_Open a None peerData header in
        let c := set_PeerAEAD (default a nextAEAD) c in
        match r with
        | None => (Err authentication_failed, c, w)
        | Some dst => (Ok (take (Z.to_nat n) dst), set_input (drop (Z.to_nat n) dst) c, w)
        end
    end).

(** [Read] of a buffer of [n] bytes at time [now]; the session of the client is expired when
    the server answers with something else than a record. *)
Definition CommonConn_Read (n now : Z) (c : CommonConn) (cs : ClientSession) (w : Net) : outcome bytes * CommonConn * ClientSession * Net :=
  if n =? 0 then (Ok [], c, cs, w)
  else
    let '(r, c, w) := bind3 (read_random c w) (fun _ => read_padding) in
    match r with
    | Ok _ =>
        match c_input c with
        | _ :: _ => (Ok (take (Z.to_nat n) (c_input c)), set_input (drop (Z.to_nat n) (c_input c)) c, cs, w)
        | [] =>
            let '(r, c, w) := c_ReadFull 5 c w in
            match r with
            | Ok header =>
                match DecodeHeader header with
                | Ok l => let '(r, c, w) := open_record header l n (set_Client false c) w in (r, c, cs, w)
                | Err e =>
                    if c_Client c then
                      (Err (ENew "xray encryption: new handshake needed"), c,
                       (if bool_decide (take (length (cs_PfsKey cs)) (c_UnitedKey c) = cs_PfsKey cs)
                        then MkClientSession now (cs_PfsKey cs) (cs_Ticket cs) else cs), w)
                    else (Err e, c, cs, w)
                | Panic s => (Panic s, c, cs, w)
                | Diverge => (Diverge, c, cs, w)
                end
            | Err e => (Err e, c, cs, w)
            | Panic s => (Panic s, c, cs, w)
            | Diverge => (Diverge, c, cs, w)
            end
        end
    | Err e => (Err e, c, cs, w)
    | Panic s => (Panic s, c, cs, w)
    | Diverge => (Diverge, c, cs, w)
    end.

End Conn.
