(* ===== verification/XrayConnSpec.v ===== *)
(** * What is written is read

    [CommonConn] and [XorConn] as a reliable stream: the XOR loops equal a machine that takes
    a byte at a time and are inverse to each other; records carry what was written, across
    changes of the key; reads give it back whatever the pieces of the network and the sizes
    of the buffers are. *)

From S2P Require Import Prelude GoStd XrayConn.
Local Open Scope Z_scope.

(** ** The XOR machine *)

Section Xor.
Context {C : XrayCrypto}.

(** Bytes to pass as they are, the header so far and the stream. *)
Record xstate := MkX { xs_skip : Z; xs_header : bytes; xs_ctr : option Stream_ }.

(** The state after a byte of a header, given in clear. *)
Definition header_byte (header : bytes) (ctr : Stream_) (b : Z) : xstate :=
  let header := header ++ [b] in
  let ctr := Some (MkCTR (s_key ctr) (s_iv ctr) (s_pos ctr + 1)) in
  if (length header =? 5)%nat then MkX (match DecodeHeader header with Ok l => l | _ => 0 end) [] ctr else MkX 0 header ctr.
Definition mask (ctr : Stream_) : Z := aes_ctr (s_key ctr) (s_iv ctr) (s_pos ctr).
(** A byte out ([inward = false]) or in. *)
Definition xor_byte (inward : bool) (s : xstate) (b : Z) : option (Z * xstate) :=
  if 0 <? xs_skip s then Some (b, MkX (xs_skip s - 1) (xs_header s) (xs_ctr s))
  else match xs_ctr s with
  | None => None
  | Some ctr => let x := Z.lxor b (mask ctr) in Some (x, header_byte (xs_header s) ctr (if inward then x else b))
  end.
Fixpoint xor_bytes (inward : bool) (s : xstate) (l : bytes) : option (bytes * xstate) :=
  match l with
  | [] => Some ([], s)
  | b :: l' =>
      '(x, s) ← xor_byte inward s b;
      '(xs, s) ← xor_bytes inward s l';
      Some (x :: xs, s)
  end.

Lemma xor_bytes_app inward s l l' :
  xor_bytes inward s (l ++ l') = ('(x, s) ← xor_bytes inward s l; '(x', s) ← xor_bytes inward s l'; Some (x ++ x', s)).
Proof.
  revert s. induction l as [|b l IH]; intros s; cbn.
  - by destruct (xor_bytes inward s l') as [[x s']|].
  - destruct (xor_byte inward s b) as [[x s']|]; cbn; [|done]. rewrite IH.
    destruct (xor_bytes inward s' l) as [[xs s'']|]; cbn; [|done]. by destruct (xor_bytes inward s'' l') as [[y s3]|].
Qed.

(** Reading undoes writing. *)
Lemma xor_byte_inverse s b x s' : xor_byte false s b = Some (x, s') -> xor_byte true s x = Some (b, s').
Proof.
  unfold xor_byte. destruct (0 <? xs_skip s); [by intros [= <- <-]|]. destruct (xs_ctr s) as [ctr|]; [|done].
  intros [= <- <-]. by rewrite Z.lxor_assoc, Z.lxor_nilpotent, Z.lxor_0_r.
Qed.
Lemma xor_bytes_inverse s l x s' : xor_bytes false s l = Some (x, s') -> xor_bytes true s x = Some (l, s').
Proof.
  revert s x s'. induction l as [|b l IH]; cbn; intros s x s'; [by intros [= <- <-]|].
  destruct (xor_byte false s b) as [[y s1]|] eqn:E; cbn; [|done]. destruct (xor_bytes false s1 l) as [[ys s2]|] eqn:E'; cbn; [|done].
  intros [= <- <-]. cbn. rewrite (xor_byte_inverse _ _ _ _ E). cbn. by rewrite (IH _ _ _ E').
Qed.
Lemma xor_bytes_length inward s l x s' : xor_bytes inward s l = Some (x, s') -> length x = length l.
Proof.
  revert s x s'. induction l as [|b l IH]; cbn; intros s x s'; [by intros [= <- <-]|].
  destruct (xor_byte inward s b) as [[y s1]|]; cbn; [|done]. destruct (xor_bytes inward s1 l) as [[ys s2]|] eqn:E; cbn; [|done].
  intros [= <- <-]. cbn. f_equal. by eapply IH.
Qed.

(** ** The loops are the machine *)

Lemma XORKeyStream_cons ctr b l :
  XORKeyStream ctr (b :: l) = let '(x, ctr') := XORKeyStream (MkCTR (s_key ctr) (s_iv ctr) (s_pos ctr + 1)) l in (Z.lxor b (mask ctr) :: x, ctr').
Proof.
  unfold XORKeyStream, keystream, mask. cbn [length seq fmap list_fmap zip_with s_key s_iv s_pos]. f_equal.
  - f_equal; [by rewrite Z.add_0_r|]. f_equal. rewrite <- seq_shift, <- list_fmap_compose. apply list_fmap_ext. intros i x _. cbn.
    f_equal. lia.
  - f_equal. rewrite zlen_cons. lia.
Qed.
Lemma XORKeyStream_nil ctr : XORKeyStream ctr [] = ([], ctr).
Proof. unfold XORKeyStream. cbn. rewrite Z.add_0_r. by destruct ctr. Qed.

Lemma xor_bytes_skip inward l skip header ctr :
  zlen l <= skip -> xor_bytes inward (MkX skip header ctr) l = Some (l, MkX (skip - zlen l) header ctr).
Proof.
  revert skip. induction l as [|b l IH]; intros skip H; cbn [xor_bytes]; [by rewrite Z.sub_0_r|].
  rewrite zlen_cons in *. pose proof (zlen_nonneg l). unfold xor_byte. cbn [xs_skip xs_header xs_ctr].
  rewrite (proj2 (Z.ltb_lt _ _)) by lia. cbn. rewrite IH by lia. cbn. do 3 f_equal. lia.
Qed.

(** What a header is when bytes are read or written. *)
Definition clear (inward : bool) (ctr : Stream_) (l : bytes) : bytes := if inward then (XORKeyStream ctr l).1 else l.
Lemma clear_cons inward ctr b l :
  clear inward ctr (b :: l) = (if inward then Z.lxor b (mask ctr) else b) :: clear inward (MkCTR (s_key ctr) (s_iv ctr) (s_pos ctr + 1)) l.
Proof. unfold clear. rewrite XORKeyStream_cons. destruct inward; [by destruct (XORKeyStream _ l)|done]. Qed.

(** Bytes of a header that is not complete with them. *)
Lemma xor_bytes_part inward l header ctr : (length header + length l < 5)%nat ->
  xor_bytes inward (MkX 0 header (Some ctr)) l
  = Some ((XORKeyStream ctr l).1, MkX 0 (header ++ clear inward ctr l) (Some (XORKeyStream ctr l).2)).
Proof.
  revert header ctr. induction l as [|b l IH]; intros header ctr H; cbn [xor_bytes].
  - unfold clear. rewrite XORKeyStream_nil. cbn. by destruct inward; rewrite app_nil_r.
  - rewrite clear_cons, XORKeyStream_cons. unfold xor_byte, header_byte. cbn [xs_skip xs_header xs_ctr Z.ltb Z.compare].
    cbn [length] in H. rewrite length_app. cbn [length]. destruct (Nat.eqb_spec (length header + 1) 5) as [|_]; [lia|]. cbn [mbind option_bind].
    rewrite IH by (rewrite length_app; cbn; lia). cbn [mbind option_bind].
    destruct (XORKeyStream _ l) as [x ctr'] eqn:E. unfold clear. rewrite E. cbn. by rewrite <- app_assoc.
Qed.
(** The bytes that complete a header. *)
Lemma xor_bytes_full inward l header ctr : (length header < 5)%nat -> (length header + length l = 5)%nat ->
  xor_bytes inward (MkX 0 header (Some ctr)) l
  = Some ((XORKeyStream ctr l).1,
          MkX (match DecodeHeader (header ++ clear inward ctr l) with Ok n => n | _ => 0 end) [] (Some (XORKeyStream ctr l).2)).
Proof.
  revert header ctr. induction l as [|b l IH]; intros header ctr Hh H; cbn [length] in H; [lia|].
  cbn [xor_bytes]. rewrite clear_cons, XORKeyStream_cons. unfold xor_byte, header_byte. cbn [xs_skip xs_header xs_ctr Z.ltb Z.compare].
  rewrite length_app. cbn [length]. destruct (Nat.eqb_spec (length header + 1) 5) as [H5|H5]; cbn [mbind option_bind].
  - destruct l; [|cbn in H; lia]. cbn [xor_bytes mbind option_bind]. rewrite XORKeyStream_nil. unfold clear. rewrite XORKeyStream_nil.
    cbn. by destruct inward.
  - rewrite IH by (rewrite length_app; cbn; lia). cbn [mbind option_bind].
    destruct (XORKeyStream _ l) as [x ctr'] eqn:E. unfold clear. rewrite E. cbn. by rewrite <- app_assoc.
Qed.

(** A round of a loop: the bytes it passes, those of the header and the rest. *)
Lemma xor_bytes_round inward l skip header ctr need : 0 <= skip -> skip < zlen l -> (length header < 5)%nat -> need = (5 - length header)%nat ->
  (need <= length (drop (Z.to_nat skip) l))%nat ->
  xor_bytes inward (MkX skip header (Some ctr)) l =
    ('(rest, s) ← xor_bytes inward (MkX (match DecodeHeader (header ++ clear inward ctr (take need (drop (Z.to_nat skip) l))) with Ok n => n | _ => 0 end)
                                   [] (Some (XORKeyStream ctr (take need (drop (Z.to_nat skip) l))).2)) (drop need (drop (Z.to_nat skip) l));
     Some (take (Z.to_nat skip) l ++ (XORKeyStream ctr (take need (drop (Z.to_nat skip) l))).1 ++ rest, s)).
Proof.
  intros Hs Hl Hh Hn Hd. unfold zlen in Hl. rewrite <- (take_drop (Z.to_nat skip) l) at 1. rewrite xor_bytes_app.
  rewrite xor_bytes_skip by (unfold zlen; rewrite length_take; lia). cbn [mbind option_bind].
  replace (skip - zlen (take (Z.to_nat skip) l)) with 0 by (unfold zlen; rewrite length_take; lia).
  rewrite <- (take_drop need (drop (Z.to_nat skip) l)) at 1. rewrite xor_bytes_app, xor_bytes_full by (rewrite ?length_take; lia).
  cbn [mbind option_bind]. by destruct (xor_bytes _ _ (drop need _)) as [[rest s]|].
Qed.
Lemma xor_bytes_last inward l skip header ctr : 0 <= skip -> skip < zlen l ->
  (length header + length (drop (Z.to_nat skip) l) < 5)%nat ->
  xor_bytes inward (MkX skip header (Some ctr)) l =
    Some (take (Z.to_nat skip) l ++ (XORKeyStream ctr (drop (Z.to_nat skip) l)).1,
          MkX 0 (header ++ clear inward ctr (drop (Z.to_nat skip) l)) (Some (XORKeyStream ctr (drop (Z.to_nat skip) l)).2)).
Proof.
  intros Hs Hl Hd. unfold zlen in Hl. rewrite <- (take_drop (Z.to_nat skip) l) at 1. rewrite xor_bytes_app.
  rewrite xor_bytes_skip by (unfold zlen; rewrite length_take; lia). cbn [mbind option_bind].
  replace (skip - zlen (take (Z.to_nat skip) l)) with 0 by (unfold zlen; rewrite length_take; lia).
  by rewrite xor_bytes_part by done.
Qed.

Lemma DecodeHeader_nonneg h : 0 <= match DecodeHeader h with Ok n => n | _ => 0 end.
Proof.
  unfold DecodeHeader. destruct (zlen h <? 5); [lia|]. destruct (_ || _) eqn:E; [lia|]. to_prop. lia.
Qed.

(** [XorConn.Write] *)
Lemma xor_out_spec fuel l skip header ctr : (length l < fuel)%nat -> 0 <= skip -> (length header < 5)%nat ->
  let '(out, skip', header', ctr') := xor_out fuel l skip header ctr in
  xor_bytes false (MkX skip header (Some ctr)) l = Some (out, MkX skip' header' (Some ctr')).
Proof.
  revert l skip header ctr. induction fuel as [|fuel IH]; intros l skip header ctr Hf Hs Hh; [lia|].
  cbn [xor_out]. destruct (Z.leb_spec (zlen l) skip) as [Hl|Hl]; [by apply xor_bytes_skip|].
  destruct (Nat.ltb_spec (length (drop (Z.to_nat skip) l)) (5 - length header)) as [Hn|Hn].
  - destruct (XORKeyStream ctr (drop (Z.to_nat skip) l)) as [x c] eqn:E.
    rewrite (xor_bytes_last false) by (try done; lia). unfold clear. by rewrite E.
  - rewrite (xor_bytes_round false l skip header ctr (5 - length header)) by (try done; lia). unfold clear.
    set (h := header ++ take (5 - length header) (drop (Z.to_nat skip) l)).
    destruct (XORKeyStream ctr (take (5 - length header) (drop (Z.to_nat skip) l))) as [x c]. cbn [fst snd].
    specialize (IH (drop (5 - length header) (drop (Z.to_nat skip) l)) (match DecodeHeader h with Ok n => n | _ => 0 end) [] c).
    destruct (xor_out fuel _ _ [] c) as [[[rest skip'] header'] ctr']. rewrite IH; [done|..].
    + rewrite !length_drop in *. lia.
    + apply DecodeHeader_nonneg.
    + cbn. lia.
Qed.

(** [XorConn.Read] *)
Lemma xor_in_spec fuel l skip header ctr : (length l < fuel)%nat -> 0 <= skip -> (length header < 5)%nat ->
  match xor_bytes true (MkX skip header ctr) l with
  | Some (out, s) => xor_in fuel l skip header ctr = Ok (out, xs_skip s, xs_header s, xs_ctr s)
  | None => is_ok (xor_in fuel l skip header ctr) = false
  end.
Proof.
  revert l skip header ctr. induction fuel as [|fuel IH]; intros l skip header ctr Hf Hs Hh; [lia|].
  cbn [xor_in]. case_bool_decide as Hnil; [by subst|].
  destruct (Z.leb_spec (zlen l) skip) as [Hl|Hl]; [by rewrite xor_bytes_skip by done|].
  destruct ctr as [ctr|].
  2: { assert (xor_bytes true (MkX skip header None) l = None) as ->; [|done].
       rewrite <- (take_drop (Z.to_nat skip) l), xor_bytes_app. unfold zlen in Hl.
       rewrite xor_bytes_skip by (unfold zlen; rewrite length_take; lia). cbn [mbind option_bind].
       replace (skip - zlen (take (Z.to_nat skip) l)) with 0 by (unfold zlen; rewrite length_take; lia).
       destruct (drop (Z.to_nat skip) l) as [|b d] eqn:E; [|done].
       apply (f_equal length) in E. rewrite length_drop in E. cbn in E. lia. }
  destruct (Nat.ltb_spec (length (drop (Z.to_nat skip) l)) (5 - length header)) as [Hn|Hn].
  - destruct (XORKeyStream ctr (drop (Z.to_nat skip) l)) as [x c] eqn:E.
    rewrite (xor_bytes_last true) by (try done; lia). unfold clear. by rewrite E.
  - rewrite (xor_bytes_round true l skip header ctr (5 - length header)) by (try done; lia). unfold clear.
    destruct (XORKeyStream ctr (take (5 - length header) (drop (Z.to_nat skip) l))) as [x c]. cbn [fst snd].
    specialize (IH (drop (5 - length header) (drop (Z.to_nat skip) l)) (match DecodeHeader (header ++ x) with Ok n => n | _ => 0 end) [] (Some c)).
    destruct (xor_bytes true _ (drop _ (drop _ l))) as [[rest s]|]; cbn [mbind option_bind].
    + rewrite IH; [done|rewrite !length_drop in *; lia|apply DecodeHeader_nonneg|cbn; lia].
    + destruct (xor_in fuel _ _ [] (Some c)) as [[[[? ?] ?] ?]| | |]; cbn in *; try done.
      assert (true = false); [apply IH|done]; [rewrite !length_drop in *; lia|apply DecodeHeader_nonneg|cbn; lia].
Qed.

Lemma xor_bytes_inv inward s l x s' : 0 <= xs_skip s -> (length (xs_header s) < 5)%nat -> xor_bytes inward s l = Some (x, s') ->
  0 <= xs_skip s' /\ (length (xs_header s') < 5)%nat.
Proof.
  revert s x s'. induction l as [|b l IH]; cbn; intros s x s' Hs Hh; [by intros [= <- <-]|].
  destruct (xor_byte inward s b) as [[y s1]|] eqn:E; cbn; [|done]. destruct (xor_bytes inward s1 l) as [[ys s2]|] eqn:E'; cbn; [|done].
  intros [= <- <-]. eapply IH; [..|done]; clear E' IH; unfold xor_byte, header_byte in E; revert E;
    (destruct (Z.ltb_spec 0 (xs_skip s)); [intros [= <- <-]; cbn; try done; lia|]);
    (destruct (xs_ctr s) as [ctr|]; [|done]); intros [= <- <-]; rewrite length_app; cbn [length];
    destruct (Nat.eqb_spec (length (xs_header s) + 1) 5); cbn; rewrite ?length_app; cbn; try lia. apply DecodeHeader_nonneg.
Qed.

End Xor.

(** * Records of the VLESS encryption as a stream

    What [CommonConn] writes, as records under the changing AEAD of the sender, and what the
    peer reads of it: the bytes that were written, in order, whatever the pieces of the
    network and the buffers are. *)

Section Stream.
Context {C : XrayCrypto} {L : XrayCryptoLaws C}.
Implicit Types (x : option XorConn) (w : Net) (b l : bytes) (c : CommonConn) (a : AEAD).

(** ** The bytes below *)

Definition in_state (x : XorConn) : xstate := MkX (x_InSkip x) (x_InHeader x) (x_PeerCTR x).
Definition out_state (x : XorConn) : xstate := MkX (x_OutSkip x) (x_OutHeader x) (x_CTR x).
Definition with_in (x : XorConn) (s : xstate) : XorConn := MkXor (x_CTR x) (xs_ctr s) (x_OutSkip x) (x_OutHeader x) (xs_skip s) (xs_header s).
Definition with_out (x : XorConn) (s : xstate) : XorConn := MkXor (xs_ctr s) (x_PeerCTR x) (xs_skip s) (xs_header s) (x_InSkip x) (x_InHeader x).
(** What the bytes [l] are below or above the connection. *)
Definition conn_in x l : option (bytes * option XorConn) :=
  match x with None => Some (l, None) | Some x => '(b, s) ← xor_bytes true (in_state x) l; Some (b, Some (with_in x s)) end.
Definition conn_out x l : option (bytes * option XorConn) :=
  match x with None => Some (l, None) | Some x => '(b, s) ← xor_bytes false (out_state x) l; Some (b, Some (with_out x s)) end.

Definition wf_state (s : xstate) : Prop := 0 <= xs_skip s /\ (length (xs_header s) < 5)%nat.
Definition wf_in x : Prop := match x with None => True | Some x => wf_state (in_state x) end.
Definition wf_out x : Prop := match x with None => True | Some x => wf_state (out_state x) /\ is_Some (x_CTR x) end.

Lemma conn_in_app x l l' : conn_in x (l ++ l') = ('(p, x) ← conn_in x l; '(q, x) ← conn_in x l'; Some (p ++ q, x)).
Proof.
  destruct x as [x|]; [|done]. cbn. rewrite xor_bytes_app. destruct (xor_bytes true (in_state x) l) as [[p s]|]; [|done]. cbn.
  change (in_state (with_in x s)) with (MkX (xs_skip s) (xs_header s) (xs_ctr s)). destruct s as [sk h k]; cbn [xs_skip xs_header xs_ctr].
  by destruct (xor_bytes true _ l') as [[q s']|].
Qed.
Lemma conn_out_app x l l' : conn_out x (l ++ l') = ('(p, x) ← conn_out x l; '(q, x) ← conn_out x l'; Some (p ++ q, x)).
Proof.
  destruct x as [x|]; [|done]. cbn. rewrite xor_bytes_app. destruct (xor_bytes false (out_state x) l) as [[p s]|]; [|done]. cbn.
  change (out_state (with_out x s)) with (MkX (xs_skip s) (xs_header s) (xs_ctr s)). destruct s as [sk h k]; cbn [xs_skip xs_header xs_ctr].
  by destruct (xor_bytes false _ l') as [[q s']|].
Qed.
Lemma conn_in_wf x l p x' : wf_in x -> conn_in x l = Some (p, x') -> wf_in x'.
Proof.
  destruct x as [x|]; cbn; [|by intros _ [= <- <-]]. intros [H1 H2]. destruct (xor_bytes true _ l) as [[q s]|] eqn:E; [|done]. cbn.
  intros [= <- <-]. cbn. by apply (xor_bytes_inv _ _ _ _ _ H1 H2 E).
Qed.

(** A stream once started stays. *)
Lemma xor_bytes_total inward s l : is_Some (xs_ctr s) -> exists b s', xor_bytes inward s l = Some (b, s') /\ is_Some (xs_ctr s').
Proof.
  revert s. induction l as [|b l IH]; intros s Hs; cbn; [eauto|]. unfold xor_byte. destruct (0 <? xs_skip s); cbn.
  - destruct (IH (MkX (xs_skip s - 1) (xs_header s) (xs_ctr s)) Hs) as (p & s' & -> & H). cbn. eauto.
  - destruct Hs as [ctr Hc]. rewrite Hc. cbn. set (s1 := header_byte _ _ _). destruct (IH s1) as (p & s' & -> & H); [|cbn; eauto].
    unfold s1, header_byte. case_goal; cbn; eauto.
Qed.
Lemma conn_out_total x l : wf_out x -> exists b x', conn_out x l = Some (b, x') /\ wf_out x'.
Proof.
  destruct x as [x|]; cbn; [|eauto]. intros [[H1 H2] Hc]. destruct (xor_bytes_total false (out_state x) l Hc) as (b & s & E & Hs).
  rewrite E. cbn. exists b, (Some (with_out x s)). split; [done|]. cbn. split; [|done]. by apply (xor_bytes_inv _ _ _ _ _ H1 H2 E).
Qed.

(** ** Writes *)

(** A network that takes what it is given, perhaps a part at a time. *)
Definition accepting (wr : list bytes -> bytes -> Z * option error) : Prop :=
  forall sent b, b <> [] -> (wr sent b).2 = None /\ 0 < (wr sent b).1 <= zlen b.

Section Writes.
Context (wr : list bytes -> bytes -> Z * option error) (Hwr : accepting wr).

Definition with_sent (w : Net) (sent : list bytes) : Net := MkNet (n_chunks w) (n_fin w) (n_sent w ++ sent).

Lemma net_writeFull_spec fuel b w : (length b <= fuel)%nat ->
  exists sent, net_writeFull wr fuel b w = (Ok tt, with_sent w sent) /\ concat sent = b.
Proof.
  revert b w. induction fuel as [|fuel IH]; intros b w Hf; destruct b as [|y b].
  1,3: exists []; cbn [net_writeFull]; unfold with_sent; rewrite app_nil_r; by destruct w. 1: cbn in Hf; lia.
  cbn [net_writeFull]. set (b' := y :: b) in *. assert (b' <> []) as Hb by done.
  destruct (Hwr (n_sent w) b' Hb) as [He Hn]. destruct (wr (n_sent w) b') as [n err]. cbn in He, Hn. subst err.
  rewrite (proj2 (Z.leb_gt n 0)), (proj2 (Z.ltb_ge (zlen b') n)) by lia. cbn [orb].
  destruct (IH (drop (Z.to_nat n) b') (MkNet (n_chunks w) (n_fin w) (n_sent w ++ [take (Z.to_nat n) b']))) as (sent & -> & Hc).
  { rewrite length_drop. unfold zlen in Hn. lia. }
  exists (take (Z.to_nat n) b' :: sent). split; [unfold with_sent; cbn; by rewrite <- app_assoc|]. cbn. rewrite Hc. apply take_drop.
Qed.

Lemma conn_writeFull_spec b x w : b <> [] -> wf_out x ->
  exists out x' sent, conn_out x b = Some (out, x') /\ wf_out x' /\ conn_writeFull wr b x w = (Ok tt, x', with_sent w sent) /\ concat sent = out.
Proof.
  intros Hb Hx. destruct (conn_out_total x b Hx) as (out & x' & E & Hx'). exists out, x'. destruct x as [x|]; cbn in *.
  - destruct Hx as [[H1 H2] [ctr Hc]]. unfold XorConn_Write, out_state in *. rewrite Hc in *.
    pose proof (xor_out_spec (S (length b)) b (x_OutSkip x) (x_OutHeader x) ctr (Nat.lt_succ_diag_r _) H1 H2) as Ho.
    destruct (xor_out _ b _ _ ctr) as [[[out' skip] header] ctr']. rewrite Ho in E. cbn in E. injection E as <- <-.
    destruct (net_writeFull_spec (length out') out' w (le_n _)) as (sent & Hw & Hs). exists sent.
    rewrite Ho. destruct b; [done|]. unfold writeFull_net. by rewrite Hw.
  - injection E as <- <-. destruct (net_writeFull_spec (length b) b w (le_n _)) as (sent & Hw & Hs). exists sent.
    unfold writeFull_net. by rewrite Hw.
Qed.

(** ** Records *)

(** The bytes of records that carry a text under the key [key]. *)
Inductive carries (key : bytes) (aes : bool) : AEAD -> bytes -> bytes -> AEAD -> Prop :=
| carries_nil a : carries key aes a [] [] a
| carries_cons a p r a' wire q a'' :
    p <> [] -> zlen p <= maxPlaintextSize -> seal_record key aes a p = (r, a') ->
    carries key aes a' wire q a'' -> carries key aes a (r ++ wire) (p ++ q) a''.

Lemma carries_app key aes a wire p a' wire' q a'' :
  carries key aes a wire p a' -> carries key aes a' wire' q a'' -> carries key aes a (wire ++ wire') (p ++ q) a''.
Proof.
  intros H. revert wire' q. induction H as [|a0 p0 r0 a1 w0 q0 a2 Hp Hl Hs Hc IH]; intros wire' q H'; [done|].
  rewrite <- !app_assoc. econstructor; eauto.
Qed.

(** The connection after writes. *)
Definition after_write c a x : CommonConn := set_Conn x (set_PreWrite None (set_AEAD a c)).

Lemma write_loop_spec fuel b written c w a : (length b <= fuel)%nat -> b <> [] -> c_AEAD c = Some a -> wf_out (c_Conn c) ->
  exists wire a' out x' sent,
    carries (c_UnitedKey c) (c_UseAES c) a wire b a' /\ conn_out (c_Conn c) (default [] (c_PreWrite c) ++ wire) = Some (out, x')
    /\ wf_out x' /\ concat sent = out
    /\ write_loop wr fuel b written c w = (Ok (written + zlen b, None), after_write c a' x', with_sent w sent).
Proof.
  revert b written c w a. induction fuel as [|fuel IH]; intros b written c w a Hf Hb Ha Hx; [by destruct b; cbn in Hf; [|lia]|].
  assert (write_loop wr (S fuel) b written c w = 
    let plaintext := take (Z.to_nat maxPlaintextSize) b in
    let '(r, a) := seal_record (c_UnitedKey c) (c_UseAES c) a plaintext in
    let '(res, x, w) := conn_writeFull wr (default [] (c_PreWrite c) ++ r) (c_Conn c) w in
    match res with
    | Ok _ => write_loop wr fuel (drop (Z.to_nat maxPlaintextSize) b) (written + zlen plaintext) (after_write c a x) w
    | Err e => (Ok (written, Some e), after_write c a x, w)
    | Panic s => (Panic s, after_write c a x, w)
    | Diverge => (Diverge, after_write c a x, w)
    end) as ->.
  { cbn [write_loop]. rewrite Ha. destruct b as [|y b]; [done|]. by destruct (seal_record _ _ a _) as [r a1]. }
  cbn zeta. set (p := take (Z.to_nat maxPlaintextSize) b). set (rest := drop (Z.to_nat maxPlaintextSize) b).
  assert (b = p ++ rest) as Hpr by (unfold p, rest; by rewrite take_drop).
  assert (length p = Nat.min (Z.to_nat 8192) (length b)) as Hlp by apply length_take.
  assert (p <> []) as Hp by (intros E; rewrite E in Hlp; destruct b; [done|]; cbn [length] in Hlp; lia).
  assert (zlen p <= maxPlaintextSize) as Hl by (unfold zlen, maxPlaintextSize; lia).
  destruct (seal_record (c_UnitedKey c) (c_UseAES c) a p) as [r a1] eqn:Er.
  assert (r <> []) as Hr. { unfold seal_record in Er. destruct (AEAD_Seal a None p _) as [sealed a2]. injection Er as <- _. done. }
  destruct (conn_writeFull_spec (default [] (c_PreWrite c) ++ r) (c_Conn c) w) as (out & x' & sent & Ho & Hx' & -> & Hs); [|done|].
  { by intros [_ ?]%app_nil. }
  destruct (decide (rest = [])) as [Hn|Hn].
  - exists (r ++ []), a1, out, x', sent. rewrite Hn, app_nil_r in *. rewrite Hpr. split_and!; try done.
    + replace r with (r ++ []) by apply app_nil_r. replace p with (p ++ []) by apply app_nil_r. econstructor; [done..|constructor].
    + by destruct fuel.
  - destruct (IH rest (written + zlen p) (after_write c a1 x') (with_sent w sent) a1) as (wire & a' & out' & x2 & sent' & Hc & Ho' & Hx2 & Hs' & ->); try done.
    { unfold rest, maxPlaintextSize. rewrite length_drop. destruct b; [done|]. cbn [length] in *. lia. }
    exists (r ++ wire), a', (out ++ out'), x2, (sent ++ sent'). cbn in Hc, Ho'. split_and!; try done.
    + rewrite Hpr. econstructor; eauto.
    + rewrite app_assoc, conn_out_app, Ho. cbn. by rewrite Ho'.
    + rewrite concat_app. congruence.
    + rewrite Hpr, zlen_app. unfold after_write, with_sent. cbn. by rewrite app_assoc, Z.add_assoc.
Qed.

(** [Write] sends its buffer as records. *)
Lemma Write_spec b c w a : b <> [] -> c_AEAD c = Some a -> wf_out (c_Conn c) ->
  exists wire a' out x' sent,
    carries (c_UnitedKey c) (c_UseAES c) a wire b a' /\ conn_out (c_Conn c) (default [] (c_PreWrite c) ++ wire) = Some (out, x')
    /\ wf_out x' /\ concat sent = out
    /\ CommonConn_Write wr b c w = (Ok (zlen b, None), after_write c a' x', with_sent w sent).
Proof.
  intros Hb Ha Hx. destruct (write_loop_spec (length b) b 0 c w a (le_n _) Hb Ha Hx) as (wire & a' & out & x' & sent & H1 & H2 & H3 & H4 & H5).
  exists wire, a', out, x', sent. split_and!; try done. unfold CommonConn_Write. rewrite Ha. destruct b; [done|]. exact H5.
Qed.

(** A sequence of writes, as long as they succeed. *)
Fixpoint writes (bs : list bytes) c w : bool * CommonConn * Net :=
  match bs with
  | [] => (true, c, w)
  | b :: bs' =>
      match CommonConn_Write wr b c w with
      | (Ok (_, None), c, w) => writes bs' c w
      | (_, c, w) => (false, c, w)
      end
  end.

(** What was held back goes first. *)
Definition preamble c (p : bytes) : bytes := match p with [] => [] | _ => default [] (c_PreWrite c) end.
Lemma writes_spec bs c w a : c_AEAD c = Some a -> wf_out (c_Conn c) ->
  exists wire a' out x' sent c',
    carries (c_UnitedKey c) (c_UseAES c) a wire (concat bs) a' /\ conn_out (c_Conn c) (preamble c (concat bs) ++ wire) = Some (out, x')
    /\ concat sent = out /\ writes bs c w = (true, c', with_sent w sent) /\ c_AEAD c' = Some a' /\ c_Conn c' = x' /\ wf_out x'.
Proof.
  revert c w a. induction bs as [|b bs IH]; intros c w a Ha Hx.
  - exists [], a, [], (c_Conn c), [], c. split_and!; try done; [constructor|by destruct (c_Conn c) as [[]|]|].
    unfold with_sent. cbn. rewrite app_nil_r. by destruct w.
  - destruct (decide (b = [])) as [->|Hb]; [apply (IH c w a Ha Hx)|].
    destruct (Write_spec b c w a Hb Ha Hx) as (wire & a1 & out & x1 & sent & Hc & Ho & Hx1 & Hs & Hw).
    destruct (IH (after_write c a1 x1) (with_sent w sent) a1) as (wire' & a' & out' & x' & sent' & c' & Hc' & Ho' & Hs' & Hw' & Ha' & Hx2 & Hx'); try done.
    cbn in Hc', Ho'. exists (wire ++ wire'), a', (out ++ out'), x', (sent ++ sent'), c'. split_and!; try done.
    + cbn. by eapply carries_app.
    + assert (preamble c (concat (b :: bs)) = default [] (c_PreWrite c)) as -> by (cbn; by destruct b).
      assert (preamble (after_write c a1 x1) (concat bs) = []) as E by (unfold preamble; by destruct (concat bs)). rewrite E in Ho'.
      rewrite app_assoc, conn_out_app, Ho. cbn in Ho' |- *. by rewrite Ho'.
    + rewrite concat_app. congruence.
    + cbn [writes]. rewrite Hw, Hw'. unfold with_sent. cbn. by rewrite app_assoc.
Qed.

End Writes.

(** ** Reads *)

Definition with_chunks (w : Net) (chunks : list bytes) : Net := MkNet chunks (n_fin w) (n_sent w).

Lemma conn_Read_spec n x w b w' p x' : wf_in x -> net_Read n w = (b, None, w') -> conn_in x b = Some (p, x') ->
  conn_Read n x w = (Ok p, None, x', w').
Proof.
  intros Hx Hr Hc. destruct x as [x|]; cbn in *.
  - destruct Hx as [H1 H2]. unfold XorConn_Read. rewrite Hr.
    pose proof (xor_in_spec (S (length b)) b (x_InSkip x) (x_InHeader x) (x_PeerCTR x) (Nat.lt_succ_diag_r _) H1 H2) as Hs.
    unfold in_state in Hc. destruct (xor_bytes true _ b) as [[q s]|]; [|done]. cbn in Hc. injection Hc as <- <-. by rewrite Hs.
  - injection Hc as <- <-. by rewrite Hr.
Qed.

Lemma read_full_done fuel n acc x w : n <= zlen acc -> read_full fuel n acc x w = (Ok acc, x, w).
Proof. intros H. apply Z.leb_le in H. destruct fuel; cbn [read_full]; by rewrite H. Qed.

Lemma read_full_spec fuel n acc x w p x' : wf_in x -> (length (n_chunks w) < fuel)%nat -> 0 <= n - zlen acc <= zlen (concat (n_chunks w)) ->
  conn_in x (take (Z.to_nat (n - zlen acc)) (concat (n_chunks w))) = Some (p, x') ->
  exists chunks, read_full fuel n acc x w = (Ok (acc ++ p), x', with_chunks w chunks)
    /\ concat chunks = drop (Z.to_nat (n - zlen acc)) (concat (n_chunks w)).
Proof.
  revert acc x w p. induction fuel as [|fuel IH]; intros acc x w p Hx Hf Hn Hc; [lia|].
  destruct (Z.le_gt_cases n (zlen acc)) as [Hle|Hgt].
  - assert (n - zlen acc = 0) as E by lia. rewrite E in *. cbn in Hc. rewrite read_full_done by done.
    assert (p = [] /\ x' = x) as [-> ->] by (destruct x as [[]|]; cbn in Hc; naive_solver).
    exists (n_chunks w). rewrite app_nil_r. split; [by destruct w|done].
  - cbn [read_full]. rewrite (proj2 (Z.leb_gt n (zlen acc))) by done. set (need := n - zlen acc) in *.
    destruct w as [chunks fin sent]. cbn [n_chunks n_fin n_sent] in *. destruct chunks as [|ch chunks].
    { unfold need, zlen in *. cbn in Hn. lia. }
    cbn [concat length] in *. unfold zlen in Hn. rewrite length_app in Hn.
    destruct (Z.leb_spec (zlen ch) need) as [Hl|Hl].
    + assert (take (Z.to_nat need) (ch ++ concat chunks) = ch ++ take (Z.to_nat (need - zlen ch)) (concat chunks)) as Et.
      { rewrite take_app, (take_ge ch) by (unfold zlen in Hl; lia). do 2 f_equal. unfold zlen in *. lia. }
      rewrite Et, conn_in_app in Hc. destruct (conn_in x ch) as [[q x1]|] eqn:E1; [|done]. cbn in Hc.
      destruct (conn_in x1 _) as [[q' x2]|] eqn:E2; [|done]. cbn in Hc. injection Hc as <- <-.
      rewrite (conn_Read_spec need x (MkNet (ch :: chunks) fin sent) ch (MkNet chunks fin sent) q x1); [|done| |done].
      2: { unfold net_Read. cbn [n_chunks n_fin n_sent]. by rewrite (proj2 (Z.leb_le (zlen ch) need)) by done. }
      assert (length q = length ch) as Hq.
      { destruct x as [x|]; cbn in E1; [|by simplify_eq]. destruct (xor_bytes true _ ch) as [[? ?]|] eqn:E; [|done]. cbn in E1. simplify_eq.
        by eapply xor_bytes_length. }
      assert (n - zlen (acc ++ q) = need - zlen ch) as En by (rewrite zlen_app; unfold zlen in *; rewrite Hq; unfold need; unfold zlen; lia).
      destruct (IH (acc ++ q) x1 (MkNet chunks fin sent) q') as (chs & Hr & Hd); cbn [n_chunks].
      * by eapply conn_in_wf.
      * lia.
      * rewrite En. unfold zlen in *. lia.
      * by rewrite En.
      * exists chs. rewrite Hr, <- app_assoc. split; [done|]. rewrite Hd. cbn [n_chunks]. rewrite En, drop_app.
        rewrite (drop_ge ch) by (unfold zlen in Hl; lia). cbn [app]. f_equal. unfold zlen in *. lia.
    + unfold zlen in Hl. rewrite take_app_le in Hc by lia.
      rewrite (conn_Read_spec need x (MkNet (ch :: chunks) fin sent) (take (Z.to_nat need) ch) (MkNet (drop (Z.to_nat need) ch :: chunks) fin sent) p x');
        [|done| |done].
      2: { unfold net_Read. cbn [n_chunks n_fin n_sent]. by rewrite (proj2 (Z.leb_gt (zlen ch) need)) by (unfold zlen; lia). }
      assert (length p = Z.to_nat need) as Hp.
      { destruct x as [x|]; cbn in Hc; [|simplify_eq; rewrite length_take; lia]. destruct (xor_bytes true _ _) as [[? ?]|] eqn:E; [|done].
        cbn in Hc. simplify_eq. apply xor_bytes_length in E. rewrite E, length_take. lia. }
      rewrite read_full_done by (rewrite zlen_app; unfold zlen in *; lia).
      exists (drop (Z.to_nat need) ch :: chunks). split; [done|]. cbn [concat]. by rewrite drop_app_le by lia.
Qed.

Lemma c_ReadFull_spec n c w l rest p x' : wf_in (c_Conn c) -> concat (n_chunks w) = l ++ rest -> zlen l = n ->
  conn_in (c_Conn c) l = Some (p, x') ->
  exists chunks, c_ReadFull n c w = (Ok p, set_Conn x' c, with_chunks w chunks) /\ concat chunks = rest.
Proof.
  intros Hx Hw Hl Hc. unfold c_ReadFull, io_ReadFull. pose proof (zlen_nonneg l). pose proof (zlen_nonneg rest).
  destruct (read_full_spec (read_fuel w) n [] (c_Conn c) w p x') as (chunks & Hr & Hd); [done|unfold read_fuel; lia| | |].
  - change (zlen []) with 0. rewrite Hw, zlen_app. lia.
  - change (zlen []) with 0. rewrite Hw, Z.sub_0_r. replace (Z.to_nat n) with (length l) by (unfold zlen in *; lia). by rewrite take_app_length.
  - exists chunks. rewrite Hr. split; [done|]. rewrite Hd, Hw. change (zlen []) with 0. rewrite Z.sub_0_r.
    replace (Z.to_nat n) with (length l) by (unfold zlen in *; lia). by rewrite drop_app_length.
Qed.

(** The bytes below that make up a part of the text. *)
Lemma conn_in_length x l p x' : conn_in x l = Some (p, x') -> length p = length l.
Proof.
  destruct x as [x|]; cbn; [|by intros [= <- <-]]. destruct (xor_bytes true _ l) as [[q s]|] eqn:E; [|done]. cbn. intros [= <- <-].
  by eapply xor_bytes_length.
Qed.
Lemma conn_in_split x l p1 p2 x' : conn_in x l = Some (p1 ++ p2, x') ->
  exists l1 l2 x1, l = l1 ++ l2 /\ conn_in x l1 = Some (p1, x1) /\ conn_in x1 l2 = Some (p2, x').
Proof.
  intros H. pose proof (conn_in_length _ _ _ _ H) as Hl. rewrite length_app in Hl.
  rewrite <- (take_drop (length p1) l), conn_in_app in H.
  destruct (conn_in x (take (length p1) l)) as [[q1 x1]|] eqn:E1; [|done]. cbn in H.
  destruct (conn_in x1 (drop (length p1) l)) as [[q2 x2]|] eqn:E2; [|done]. cbn in H. injection H as Hq <-.
  apply conn_in_length in E1 as Hq1. rewrite length_take, Nat.min_l in Hq1 by lia.
  apply app_inj_1 in Hq as [-> ->]; [|done].
  exists (take (length p1) l), (drop (length p1) l), x1. by rewrite take_drop.
Qed.

(** ** Opening records *)

Lemma DecodeHeader_Encode n : 1 <= n <= maxPlaintextSize -> DecodeHeader (EncodeHeader (n + Overhead)) = Ok (n + Overhead).
Proof.
  unfold maxPlaintextSize, Overhead. intros H. unfold DecodeHeader, EncodeHeader, uint. cbn [zlen length nth].
  assert (Z.lor (Z.shiftl (Z.shiftr (n + 16) 8 mod 2 ^ 8) 8) ((n + 16) mod 2 ^ 8) = n + 16) as E.
  { rewrite Z.shiftr_div_pow2 by lia. rewrite (Z.mod_small ((n + 16) / 2 ^ 8)).
    2: { split; [apply Z.div_pos; lia|]. apply Z.div_lt_upper_bound; lia. }
    rewrite lor_shiftl_byte; [|apply uint8_is_byte]. pose proof (Z.div_mod (n + 16) (2 ^ 8)). lia. }
  rewrite E. unfold maxRecordSize. rewrite (proj2 (Z.ltb_ge (n + 16) 17)), (proj2 (Z.ltb_ge 16640 (n + 16))) by lia. done.
Qed.

Lemma seal_record_shape key aes a p r a' : p <> [] -> zlen p <= maxPlaintextSize -> seal_record key aes a p = (r, a') ->
  exists header data a1, r = header ++ data /\ zlen header = 5 /\ zlen data = zlen p + Overhead
    /\ DecodeHeader header = Ok (zlen p + Overhead) /\ AEAD_Open a None data header = (Some p, a1)
    /\ default a1 (if bool_decide (a_Nonce a = MaxNonce) then Some (NewAEAD (header ++ data) key aes) else None) = a'.
Proof.
  intros Hp Hl. unfold seal_record, AEAD_Seal, AEAD_Open, next_nonce. set (header := EncodeHeader (zlen p + Overhead)).
  set (data := aead_Seal _ _ _ p header). set (a1 := MkAEAD _ _ (IncreaseNonce _)).
  intros [= <- Ha]. exists header, data, a1. split_and!; try done.
  - unfold zlen, data. rewrite aead_Seal_length. unfold Overhead. lia.
  - apply DecodeHeader_Encode. split; [|done]. destruct p; [done|]. rewrite zlen_cons. pose proof (zlen_nonneg p). lia.
  - f_equal. apply aead_Open_Seal.
  - rewrite <- Ha. by case_bool_decide.
Qed.

(** The peer has [p] to read: the rest of an opened record, and what its records carry. *)
Definition holds c w (p : bytes) : Prop :=
  exists a a' wire below x' q,
    c_PeerAEAD c = Some a /\ c_PeerPadding c = None /\ wf_in (c_Conn c) /\ p = c_input c ++ q
    /\ carries (c_UnitedKey c) (c_UseAES c) a wire q a' /\ concat (n_chunks w) = below /\ conn_in (c_Conn c) below = Some (wire, x').

(** A read gives some of it. *)
Lemma Read_holds n now c cs w p : 0 < n -> holds c w p -> p <> [] ->
  exists d p' c' w', CommonConn_Read n now c cs w = (Ok d, c', cs, w') /\ d <> [] /\ zlen d <= n /\ p = d ++ p' /\ holds c' w' p'.
Proof.
  intros Hn (a & a' & wire & below & x' & q & Ha & Hpad & Hx & Hp & Hc & Hw & Hb) Hne. unfold CommonConn_Read.
  rewrite (proj2 (Z.eqb_neq n 0)) by lia. unfold read_random. rewrite Ha. cbn [bind3]. unfold read_padding. rewrite Hpad.
  assert (forall l : bytes, l <> [] -> take (Z.to_nat n) l <> [] /\ zlen (take (Z.to_nat n) l) <= n) as Htk.
  { intros [|y l] Hl; [done|]. split; [|unfold zlen; rewrite length_take; lia]. destruct (Z.to_nat n) eqn:E; [lia|done]. }
  destruct (c_input c) as [|y inp] eqn:Ei.
  - cbn in Hp. subst q. inversion Hc as [|? p1 r a1 wire1 q1 ? Hp1 Hl1 Hs1 Hc1]; subst; [done|].
    destruct (seal_record_shape _ _ _ _ _ _ Hp1 Hl1 Hs1) as (header & data & a2 & -> & Hh & Hd & Hdec & Ho & Hnext).
    rewrite <- app_assoc in Hb. destruct (conn_in_split _ _ _ _ _ Hb) as (l1 & l2 & x1 & Hw & Hb1 & Hb2).
    destruct (conn_in_split _ _ _ _ _ Hb2) as (l3 & l4 & x2 & -> & Hb3 & Hb4).
    apply conn_in_length in Hb1 as Hlen1. apply conn_in_length in Hb3 as Hlen3.
    destruct (c_ReadFull_spec 5 c w l1 (l3 ++ l4) header x1) as (ch1 & -> & Hch1); [done|done|unfold zlen in *; lia|done|].
    rewrite Hdec. unfold open_record.
    destruct (c_ReadFull_spec (zlen p1 + Overhead) (set_Client false (set_Conn x1 c)) (with_chunks w ch1) l3 l4 data x2) as (ch2 & -> & Hch2);
      [by eapply conn_in_wf|done|unfold zlen in *; lia|done|].
    cbn [bind3]. cbn [c_PeerAEAD set_Conn set_Client]. rewrite Ha, Ho. cbn [c_UnitedKey c_UseAES set_Conn set_Client]. rewrite Hnext.
    destruct (Htk p1 Hp1) as [Ht1 Ht2].
    exists (take (Z.to_nat n) p1), (drop (Z.to_nat n) p1 ++ q1). do 2 eexists. split; [done|]. split_and!; try done.
    + rewrite app_assoc, take_drop. done.
    + exists a1, a', wire1, l4, x', q1. cbn. split_and!; try done. eapply conn_in_wf; [|done]. by eapply conn_in_wf.
  - destruct (Htk (y :: inp)) as [Ht1 Ht2]; [done|]. set (inp' := y :: inp) in *.
    exists (take (Z.to_nat n) inp'), (drop (Z.to_nat n) inp' ++ q). do 2 eexists. split; [done|]. split_and!; try done.
    + by rewrite app_assoc, take_drop.
    + exists a, a', wire, below, x', q. cbn. done.
Qed.

(** Reads into buffers of the sizes [ns], as long as they succeed. *)
Fixpoint reads (ns : list Z) (now : Z) c (cs : ClientSession) w : list bytes :=
  match ns with
  | [] => []
  | n :: ns' =>
      match CommonConn_Read n now c cs w with
      | (Ok d, c, cs, w) => d :: reads ns' now c cs w
      | _ => []
      end
  end.

(** After it the error of the network shows. *)
Lemma read_full_end fuel n acc x w : (length (n_chunks w) < fuel)%nat -> concat (n_chunks w) = [] -> zlen acc < n ->
  exists e x' w', read_full fuel n acc x w = (Err e, x', w').
Proof.
  revert acc x w. induction fuel as [|fuel IH]; intros acc x w Hf Hw Hn; [lia|].
  cbn [read_full]. rewrite (proj2 (Z.leb_gt n (zlen acc))) by done. destruct w as [chunks fin sent]. cbn [n_chunks] in *.
  destruct chunks as [|ch chunks].
  - destruct x as [x|]; cbn; eauto.
  - cbn in Hw, Hf. apply app_nil in Hw as [-> Hw]. destruct (conn_in x []) as [[q x1]|] eqn:E.
    2: { by destruct x as [[]|]. }
    assert (q = []) as -> by (destruct x as [[]|]; cbn in E; naive_solver).
    assert (conn_Read (n - zlen acc) x (MkNet ([] :: chunks) fin sent) = (Ok [], None, x, MkNet chunks fin sent)) as ->.
    { unfold conn_Read, XorConn_Read, net_Read. cbn [n_chunks n_fin n_sent].
      rewrite (proj2 (Z.leb_le (zlen []) (n - zlen acc))) by (unfold zlen in *; cbn; lia). by destruct x as [[]|]. }
    rewrite app_nil_r. apply IH; [cbn; lia|done|done].
Qed.
Lemma Read_end n now c cs w : 0 < n -> holds c w [] -> exists e c' cs' w', CommonConn_Read n now c cs w = (Err e, c', cs', w').
Proof.
  intros Hn (a & a' & wire & below & x' & q & Ha & Hpad & Hx & Hp & Hc & Hw & Hb). unfold CommonConn_Read.
  rewrite (proj2 (Z.eqb_neq n 0)) by lia. unfold read_random. rewrite Ha. cbn [bind3]. unfold read_padding. rewrite Hpad.
  symmetry in Hp. apply app_nil in Hp as [-> ->].
  assert (wire = []) as ->.
  { inversion Hc as [|? p1 r a1 wire1 q1 ? Hp1 Hl1 Hs1 Hc1 Hr Hw1 Hpq]; [done|]. destruct (app_nil p1 q1) as [[-> ->] _]; done. }
  apply conn_in_length in Hb. destruct below; [|done].
  unfold c_ReadFull, io_ReadFull. destruct (read_full_end (read_fuel w) 5 [] (c_Conn c) w) as (e & x1 & w1 & ->); [unfold read_fuel; lia|done|done|]. eauto.
Qed.

Lemma reads_holds ns now c cs w p : Forall (fun n => 0 < n) ns -> holds c w p ->
  concat (reads ns now c cs w) `prefix_of` p /\ ((length p <= length ns)%nat -> concat (reads ns now c cs w) = p).
Proof.
  intros Hns. revert c cs w p. induction Hns as [|n ns Hn Hns IH]; intros c cs w p Hh.
  - cbn. split; [apply prefix_nil|]. by destruct p; cbn; [|lia].
  - cbn [reads]. destruct p as [|y p].
    + destruct (Read_end n now c cs w Hn Hh) as (e & c' & cs' & w' & ->). done.
    + destruct (Read_holds n now c cs w (y :: p) Hn Hh) as (d & p' & c' & w' & -> & Hd & _ & -> & Hh'); [done|].
      destruct (IH c' cs w' p' Hh') as [[rest Hr] He]. cbn [concat]. split.
      * exists rest. by rewrite Hr, app_assoc.
      * rewrite length_app. intros Hl. rewrite He; [done|]. destruct d; [done|]. cbn in Hl. lia.
Qed.

(** ** Streams *)

(** The ends of a direction in step: the same key, AEAD and XOR machine, nothing held back. *)
Definition same_below (x y : option XorConn) : Prop :=
  match x, y with
  | None, None => True
  | Some x, Some y => out_state x = in_state y /\ wf_state (in_state y) /\ is_Some (x_CTR x)
  | _, _ => False
  end.
Definition in_step (s r : CommonConn) : Prop :=
  c_UnitedKey s = c_UnitedKey r /\ c_UseAES s = c_UseAES r /\ (exists a, c_AEAD s = Some a /\ c_PeerAEAD r = Some a)
  /\ c_PreWrite s = None /\ c_PeerPadding r = None /\ c_input r = [] /\ same_below (c_Conn s) (c_Conn r).

Lemma same_below_wf x y : same_below x y -> wf_out x /\ wf_in y.
Proof. destruct x, y; cbn; try done. intros (E & Hw & Hc). rewrite E. done. Qed.
Lemma same_below_inverse x y l out x' : same_below x y -> conn_out x l = Some (out, x') -> exists y', conn_in y out = Some (l, y') /\ same_below x' y'.
Proof.
  destruct x as [x|], y as [y|]; cbn; try done; [|intros _ [= <- <-]; by exists None].
  intros (E & [H1 H2] & Hc). rewrite E. destruct (xor_bytes false (in_state y) l) as [[b s]|] eqn:Eb; [|done]. cbn. intros [= <- <-].
  rewrite (xor_bytes_inverse _ _ _ _ Eb). cbn. eexists. split; [done|]. cbn. destruct (xor_bytes_inv _ _ _ _ _ H1 H2 Eb).
  split_and!; [by destruct s|done|]. destruct (xor_bytes_total false (in_state y) l) as (b' & s' & Eb' & Hs'); [unfold in_state in *; unfold out_state in E; by simplify_eq/=; congruence|].
  congruence.
Qed.

Lemma in_step_holds wr bs s r w : accepting wr -> in_step s r ->
  exists s' sent, writes wr bs s w = (true, s', with_sent w sent)
    /\ forall chunks fin sent', concat chunks = concat sent -> holds r (MkNet chunks fin sent') (concat bs).
Proof.
  intros Hwr (Hk & Hu & (a & Ha & Hpa) & Hpw & Hpp & Hi & Hb). destruct (same_below_wf _ _ Hb) as [Hwo Hwi].
  destruct (writes_spec wr Hwr bs s w a Ha Hwo) as (wire & a' & out & x' & sent & s' & Hc & Ho & Hs & Hw & _).
  exists s', sent. split; [done|]. intros chunks fin sent' Hch.
  assert (preamble s (concat bs) = []) as E by (unfold preamble; rewrite Hpw; by destruct (concat bs)). rewrite E in Ho.
  destruct (same_below_inverse _ _ _ _ _ Hb Ho) as (y' & Hy & _).
  exists a, a', wire, (concat chunks), y', (concat bs). rewrite Hi, <- Hk, <- Hu. split_and!; try done. by rewrite Hch, Hs.
Qed.

(** C34: A stream over the encryption: what is written in any buffers, carried in any pieces and
    read into any buffers is the same bytes in the same order, and none are left behind. *)
Theorem vless_stream_delivered wr bs s r w :
  accepting wr -> in_step s r ->
  exists s' sent, writes wr bs s w = (true, s', with_sent w sent)
    /\ forall chunks fin sent' ns now cs, concat chunks = concat sent -> Forall (fun n => 0 < n) ns ->
         concat (reads ns now r cs (MkNet chunks fin sent')) `prefix_of` concat bs
         /\ ((length (concat bs) <= length ns)%nat -> concat (reads ns now r cs (MkNet chunks fin sent')) = concat bs).
Proof.
  intros Hwr Hs. destruct (in_step_holds wr bs s r w Hwr Hs) as (s' & sent & Hw & Hh). exists s', sent. split; [done|].
  intros chunks fin sent' ns now cs Hch Hns. apply reads_holds; [done|]. by apply Hh.
Qed.

End Stream.

(** ** A concrete instance *)

(** Functions with the documented behaviour, without any secrecy. *)
Definition pad (n : nat) (b : bytes) : bytes := take n (b ++ replicate n 0).
Definition toy_public (k : bytes) : bytes := pad 31 k ++ [0].
Definition toy_tag : bytes := replicate 16 0.
Definition toy_open (c : bytes) : option bytes :=
  if bool_decide (drop (length c - 16) c = toy_tag) then Some (take (length c - 16) c) else None.
Arguments pad : simpl never.
Arguments toy_public : simpl never.
#[export] Instance toy_crypto : XrayCrypto := {|
  aead_Seal := fun _ _ _ p _ => p ++ toy_tag;
  aead_Open := fun _ _ _ c _ => toy_open c;
  blake3_DeriveKey := fun context key => context ++ key;
  blake3_Sum256 := fun b => pad 32 b;
  aes_ctr := fun _ _ i => i mod 256;
  x25519_Public := toy_public;
  x25519_ECDH := fun a p => Ok (zip_with Z.lxor (toy_public a) (pad 32 p));
  mlkem_Public := fun k => pad (Z.to_nat 1184) k;
  mlkem_NewEncapsulationKey := fun b => if zlen b =? 1184 then Ok b else Err (EExternal "invalid encapsulation key");
  mlkem_Encapsulate := fun _ r => (take 32 (pad (Z.to_nat 1088) r), pad (Z.to_nat 1088) r);
  mlkem_Decapsulate := fun _ c => Ok (take 32 c)
|}.

Lemma length_pad n b : length (pad n b) = n.
Proof. unfold pad. rewrite length_take, length_app, length_replicate. lia. Qed.
Lemma pad_full n b : length b = n -> pad n b = b.
Proof. intros <-. unfold pad. by rewrite take_app_length. Qed.
Lemma length_toy_public k : length (toy_public k) = 32%nat.
Proof. unfold toy_public. by rewrite length_app, length_pad. Qed.
Lemma zip_with_lxor_comm (l k : bytes) : zip_with Z.lxor l k = zip_with Z.lxor k l.
Proof. revert k. induction l as [|x l IH]; intros [|y k]; cbn; [done..|]. by rewrite IH, Z.lxor_comm. Qed.

#[export] Instance toy_laws : XrayCryptoLaws toy_crypto.
Proof.
  split; cbn.
  - intros _ _ _ p _. unfold toy_open. rewrite length_app. change (length toy_tag) with 16%nat. rewrite Nat.add_sub.
    by rewrite drop_app_length, take_app_length, bool_decide_true by done.
  - intros _ _ _ p _. rewrite length_app. done.
  - intros _ _ _ c _ p. unfold toy_open. case_bool_decide as H; [|done]. intros [= <-].
    apply (f_equal length) in H. rewrite length_drop in H. change (length toy_tag) with 16%nat in H. rewrite length_take. lia.
  - intros b. apply length_pad.
  - apply length_toy_public.
  - intros k. exists 0. unfold toy_public. rewrite lookup_app_r by (by rewrite length_pad). by rewrite length_pad.
  - intros a b. by rewrite !pad_full, zip_with_lxor_comm by apply length_toy_public.
  - done.
  - intros a p k [= <-]. by rewrite length_zip_with, length_toy_public, length_pad.
  - intros k. apply length_pad.
  - intros k. unfold zlen. rewrite length_pad. done.
  - intros p r. rewrite length_take, !length_pad. split; [lia|done].
  - done.
Qed.

(** A client and a server with XOR streams in step, and the last nonce before the key changes. *)
Definition ex_ctr : Stream_ := NewCTR [1] [2].
Definition ex_aead : AEAD := MkAEAD true [7] MaxNonce.
Definition ex_sender : CommonConn :=
  MkConn (Some (MkXor (Some ex_ctr) None 0 [] 0 [])) true false [9] None (Some ex_aead) None None [].
Definition ex_receiver : CommonConn :=
  MkConn (Some (MkXor None (Some ex_ctr) 0 [] 0 [])) true false [9] None None (Some ex_aead) None [].
Definition ex_taking (sent : list bytes) (b : bytes) : Z * option error := (Z.min 3 (zlen b), None).

Lemma concat_singletons (l : bytes) : concat ((fun x => [x]) <$> l) = l.
Proof. induction l as [|x l IH]; [done|]. cbn. by rewrite IH. Qed.

Lemma vless_stream_delivered_witness :
  exists s' sent, writes ex_taking [[104; 101]; []; [108; 108; 111]] ex_sender (MkNet [] EOF []) = (true, s', with_sent (MkNet [] EOF []) sent)
    /\ concat (reads [3; 1; 1; 1; 5] 0 ex_receiver (MkClientSession 0 [] []) (MkNet ((fun x => [x]) <$> concat sent) EOF [])) = [104; 101; 108; 108; 111].
Proof.
  destruct (vless_stream_delivered ex_taking [[104; 101]; []; [108; 108; 111]] ex_sender ex_receiver (MkNet [] EOF [])) as (s' & sent & Hw & Hr).
  - intros sent b Hb. split; [done|]. cbn. destruct b; [done|]. rewrite zlen_cons. pose proof (zlen_nonneg b). lia.
  - split_and!; try done. by exists ex_aead. vm_compute. split_and!; [done..|lia|by eexists].
  - exists s', sent. split; [exact Hw|]. refine (proj2 (Hr _ EOF [] [3; 1; 1; 1; 5] 0 _ _ _) _); [|repeat constructor|cbn; lia].
    apply concat_singletons.
Defined.

(** The same run, computed: headers are hidden, and the key changes after the first record. *)
Example vless_stream_run :
  let '(ok, s, w) := writes ex_taking [[104; 101]; []; [108; 108; 111]] ex_sender (MkNet [] EOF []) in
  ok = true /\ take 5 (concat (n_sent w)) = [23; Z.lxor 3 1; Z.lxor 3 2; Z.lxor 0 3; Z.lxor 18 4]
  /\ (a_Nonce <$> c_AEAD s) = Some (replicate 11 0 ++ [1]).
Proof. vm_compute. split_and!; reflexivity. Qed.

(** ** Nonces *)

Lemma increase_rev_length l : length (increase_rev l) = length l.
Proof. induction l as [|b l IH]; [done|]. cbn. case_goal; cbn; congruence. Qed.
Lemma increase_rev_bytes l : Forall is_byte l -> Forall is_byte (increase_rev l).
Proof. induction 1 as [|b l Hb Hl IH]; [done|]. cbn. pose proof (uint8_is_byte (b + 1)). case_goal; by constructor. Qed.
(** The number a nonce stands for, from the last byte. *)
Fixpoint le_val (l : bytes) : Z := match l with [] => 0 | b :: l' => b + 256 * le_val l' end.
Lemma le_val_range l : Forall is_byte l -> 0 <= le_val l < 256 ^ zlen l.
Proof.
  induction 1 as [|b l Hb Hl IH]; [done|]. cbn [le_val]. rewrite zlen_cons, Z.pow_add_r by (pose proof (zlen_nonneg l); lia).
  unfold is_byte in Hb. lia.
Qed.
Lemma increase_rev_val l : Forall is_byte l -> le_val (increase_rev l) = (le_val l + 1) mod 256 ^ zlen l.
Proof.
  induction 1 as [|b l Hb Hl IH]; [done|]. cbn [le_val increase_rev]. rewrite zlen_cons.
  pose proof (le_val_range l Hl). pose proof (zlen_nonneg l). unfold is_byte in Hb. unfold uint. cbn zeta.
  rewrite Z.pow_add_r by lia. change (256 ^ 1) with 256. destruct (Z.eqb_spec ((b + 1) mod 2 ^ 8) 0) as [E|E]; cbn [le_val].
  - assert (b = 255) as ->. { change (2 ^ 8) with 256 in E. apply Z.mod_divide in E; [|lia]. destruct E as [k E]. lia. }
    rewrite IH. change ((255 + 1) mod 2 ^ 8) with 0. rewrite Z.add_0_l, (Z.mul_comm (256 ^ zlen l) 256).
    rewrite <- Z.mul_mod_distr_l by lia. f_equal. lia.
  - assert (b <> 255) by (intros ->; by apply E). rewrite (Z.mod_small (b + 1)) by (change (2 ^ 8) with 256; lia).
    rewrite Z.mod_small; lia.
Qed.

(** The nonces of the records sealed after an AEAD was made, until its key changes. *)
Definition nonce_value (n : bytes) : Z := le_val (rev n).
Lemma IncreaseNonce_value n : Forall is_byte n -> nonce_value (IncreaseNonce n) = (nonce_value n + 1) mod 256 ^ zlen n.
Proof.
  intros H. unfold nonce_value, IncreaseNonce. rewrite rev_involutive, increase_rev_val by (by apply Forall_rev).
  unfold zlen. by rewrite length_rev.
Qed.
Fixpoint nonces (n : nat) (a : AEAD) : list bytes :=
  match n with O => [] | S n' => let '(x, a) := next_nonce a None in x :: nonces n' a end.
Lemma nonces_value n a : Forall is_byte (a_Nonce a) -> length (a_Nonce a) = 12%nat ->
  nonce_value <$> nonces n a = (fun i => (nonce_value (a_Nonce a) + 1 + Z.of_nat i) mod 2 ^ 96) <$> seq 0 n.
Proof.
  revert a. induction n as [|n IH]; intros a Hb Hl; [done|]. cbn [nonces next_nonce fmap list_fmap seq].
  assert (256 ^ zlen (a_Nonce a) = 2 ^ 96) as E96 by (unfold zlen; by rewrite Hl).
  rewrite IncreaseNonce_value, E96 by done. rewrite IH; cbn [a_Nonce].
  - f_equal; [by rewrite Z.add_0_r|]. rewrite <- seq_shift, <- list_fmap_compose. apply list_fmap_ext. intros i x _. cbn.
    rewrite IncreaseNonce_value, E96 by done. rewrite <- !Z.add_assoc, Z.add_mod_idemp_l by done. f_equal. lia.
  - unfold IncreaseNonce. apply Forall_rev, increase_rev_bytes, Forall_rev, Hb.
  - unfold IncreaseNonce. by rewrite length_rev, increase_rev_length, length_rev.
Qed.

(** No nonce is used twice with a key: the record after 2^96 is sealed with a new one. *)
Theorem nonces_never_repeat {C : XrayCrypto} context key aes n : Z.of_nat n <= 2 ^ 96 -> NoDup (nonces n (NewAEAD context key aes)).
Proof.
  intros Hn. apply (NoDup_fmap_1 nonce_value). rewrite nonces_value by (cbn; repeat constructor || done).
  apply NoDup_fmap_2_strong; [|apply NoDup_seq]. intros i j Hi Hj E.
  apply elem_of_seq in Hi, Hj. change (nonce_value _) with 0 in E. rewrite !Z.add_0_l in E.
  destruct (Z.eq_dec (1 + Z.of_nat i) (2 ^ 96)) as [Ei|Ei], (Z.eq_dec (1 + Z.of_nat j) (2 ^ 96)) as [Ej|Ej];
    rewrite ?Ei, ?Ej, ?Z.mod_same, ?(Z.mod_small (1 + Z.of_nat i)), ?(Z.mod_small (1 + Z.of_nat j)) in E; lia.
Qed.
