(* ===== verification/XrayHandshake.v ===== *)
(** * Handshakes of the VLESS encryption

    protocol/vless/xrayencryption/client.go and server.go, and the padding of common.go: a
    handshake is a program that reads, writes and runs critical sections on the state its
    instance shares between connections.  What is drawn at random and the times are
    arguments ([crypto/rand] does not fail); the pauses between writes are left out. *)

From S2P Require Import Prelude GoStd XrayConn.
From Stdlib Require Import Ascii.
Local Open Scope Z_scope.

(** ** Programs *)

(** [io.ReadFull] and [writeFull] on the connection, and a critical section. *)
Inductive prog (S A : Type) :=
| Done (r : outcome A)
| PRead (n : Z) (k : outcome bytes -> prog S A)
| PWrite (b : bytes) (k : outcome unit -> prog S A)
| PAtomic (f : S -> S) (k : S -> prog S A).
Arguments Done {S A} r.
Arguments PRead {S A} n k.
Arguments PWrite {S A} b k.
Arguments PAtomic {S A} f k.

(** An error is returned. *)
Definition on_ok {S A B} (r : outcome A) (k : A -> prog S B) : prog S B :=
  match r with
  | Ok a => k a
  | Err e => Done (Err e)
  | Panic s => Done (Panic s)
  | Diverge => Done Diverge
  end.
Notation "'read*' x ':=' n 'in' k" := (PRead n (fun r => on_ok r (fun x => k)))
  (at level 10, x pattern, n at level 100, k at level 200) : go_scope.
Notation "'try*' x ':=' m 'in' k" := (on_ok m (fun x => k))
  (at level 10, x pattern, m at level 100, k at level 200) : go_scope.

Definition opened (r : option bytes) : outcome bytes := match r with Some b => Ok b | None => Err authentication_failed end.

(** ** Padding *)

(** A chance in percent and the bounds of a length or of a pause. *)
Abbreviation padding_entry := (Z * Z * Z)%type.

(** [strconv.Atoi] *)
Definition parse_int (neg : bool) (s : string) : outcome Z :=
  let* n := ParseUint s 64 in
  if neg then (if 2 ^ 63 <? n then Err ErrRange else Ok (- n)) else (if 2 ^ 63 <=? n then Err ErrRange else Ok n).
Definition Atoi_ (s : string) : outcome Z :=
  match s with
  | String "+" s' => parse_int false s'
  | String "-" s' => parse_int true s'
  | _ => parse_int false s
  end.

(** [%q] of a text without special characters. *)
Definition quoted (s : string) : string := String "034" (s +:+ String "034" EmptyString).
Definition bad_padding (value : string) : error := ENew ("invalid padding length/gap parameter: " +:+ value).
Definition parse_entry (value : string) : outcome padding_entry :=
  match Split "-" value with
  | [a; b; c] =>
      if bool_decide (a = "") || bool_decide (b = "") || bool_decide (c = "") then Err (bad_padding value)
      else
        let wrap := wrap_err (fun e => ECause e ("invalid padding length/gap parameter " +:+ quoted value)) in
        let* x := wrap (Atoi_ a) in
        let* y := wrap (Atoi_ b) in
        let* z := wrap (Atoi_ c) in
        if (x <? 0) || (y <? 0) || (z <? 0) then Err (bad_padding value) else Ok (x, y, z)
  | _ => Err (bad_padding value)
  end.
(** The loop: lengths at even positions, pauses at odd ones, and the greatest total. *)
Fixpoint parse_entries (index : Z) (values : list string) (lens gaps : list padding_entry) (maxLen : Z)
    : outcome (list padding_entry * list padding_entry * Z) :=
  match values with
  | [] => Ok (lens, gaps, maxLen)
  | value :: values' =>
      let* (x, y, z) := parse_entry value in
      if (index =? 0) && ((x <? 100) || (y <? 35) || (z <? 35)) then
        Err (ENew "first padding length must not be smaller than 35 and must have 100 percent probability")
      else if Z.even index then parse_entries (index + 1) values' (lens ++ [(x, y, z)]) gaps (int64 (maxLen + Z.max y z))
      else parse_entries (index + 1) values' lens (gaps ++ [(x, y, z)]) maxLen
  end.
Definition ParsePadding (padding : string) : outcome (list padding_entry * list padding_entry) :=
  if bool_decide (padding = "") then Ok ([], [])
  else
    let* (lens, gaps, maxLen) := parse_entries 0 (Split "." padding) [] [] 0 in
    if 18 + 65535 <? maxLen then Err (ENew "total padding length must not be larger than 65553") else Ok (lens, gaps).

(** [randBetween] with the numbers that [rand.Int] draws. *)
Definition randBetween (from to : Z) (draws : list Z) : Z * list Z :=
  if from =? to then (from, draws)
  else
    let lo := Z.min from to in
    let hi := Z.max from to in
    match draws with
    | d :: draws' => (lo + d mod (hi - lo), draws')
    | [] => (lo, [])
    end.
(** The lengths of the parts of a padding, or the pauses. *)
Fixpoint draw_entries (entries : list padding_entry) (draws : list Z) : list Z * list Z :=
  match entries with
  | [] => ([], draws)
  | (x, y, z) :: entries' =>
      let '(chance, draws) := randBetween 0 100 draws in
      let '(value, draws) := if chance <=? x then randBetween y z draws else (0, draws) in
      let '(values, draws) := draw_entries entries' draws in
      (value :: values, draws)
  end.
Definition default_lens : list padding_entry := [(100, 111, 1111); (50, 0, 3333)].
Definition default_gaps : list padding_entry := [(75, 0, 111)].
Definition CreatePadding (paddingLens paddingGaps : list padding_entry) (draws : list Z) : Z * list Z * list Z :=
  let '(paddingLens, paddingGaps) := match paddingLens with [] => (default_lens, default_gaps) | _ => (paddingLens, paddingGaps) end in
  let '(lens, draws) := draw_entries paddingLens draws in
  let '(gaps, _) := draw_entries paddingGaps draws in
  (foldr Z.add 0 lens, lens, gaps).

(** ** Instances *)

Inductive NfsPKey := X25519PublicKey (b : bytes) | EncapsulationKey768 (b : bytes).
Inductive NfsSKey := X25519PrivateKey (b : bytes) | DecapsulationKey768 (b : bytes).

Record ClientInstance := MkClient {
  ci_NfsPKeys : list NfsPKey; ci_NfsPKeysBytes : list bytes; ci_Hash32s : list bytes; ci_RelaysLength : Z;
  ci_XorMode : Z; ci_Seconds : Z; ci_PaddingLens : list padding_entry; ci_PaddingGaps : list padding_entry
}.
Record ServerInstance := MkServer {
  si_NfsSKeys : list NfsSKey; si_NfsPKeysBytes : list bytes; si_Hash32s : list bytes; si_RelaysLength : Z;
  si_XorMode : Z; si_SecondsFrom : Z; si_SecondsTo : Z; si_PaddingLens : list padding_entry; si_PaddingGaps : list padding_entry
}.

(** Sessions are objects that tickets point to; they remember the keys of resumed connections. *)
Record ServerSession := MkSession { sv_PfsKey : bytes; sv_NfsKeys : gset bytes }.
Record ServerState := MkState {
  ss_Lasts : gmap Z bytes; ss_Tickets : list bytes; ss_Sessions : gmap bytes nat; ss_heap : list ServerSession
}.
Definition empty_state : ServerState := MkState ∅ [] ∅ [].

(** What a handshake draws, and the times it asks for. *)
Record ClientDraws := MkClientDraws {
  cd_iv : bytes; cd_relays : list bytes; cd_padding : list Z; cd_mlkem : bytes; cd_x25519 : bytes; cd_before : Z; cd_after : Z
}.
Record ServerDraws := MkServerDraws {
  sd_mlkem : bytes; sd_x25519 : bytes; sd_ticket : bytes; sd_seconds : list Z; sd_padding : list Z; sd_now : Z;
  sd_random : bytes; sd_noise : list bytes
}.

Section Handshake.
Context {C : XrayCrypto}.

Fixpoint client_keys (keys : list bytes) : outcome (list NfsPKey * Z) :=
  match keys with
  | [] => Ok ([], 0)
  | key :: keys' =>
      let* (k, n) := (if zlen key =? 32 then Ok (X25519PublicKey key, 64)
                      else let* p := mlkem_NewEncapsulationKey key in Ok (EncapsulationKey768 p, 1120)) in
      let* (ks, m) := client_keys keys' in
      Ok (k :: ks, n + m)
  end.
(** [Init] of a new [ClientInstance]. *)
Definition Client_Init (keys : list bytes) (xorMode seconds : Z) (padding : string) : outcome ClientInstance :=
  match keys with
  | [] => Err (ENew "empty client key list")
  | _ =>
      if 2 <? xorMode then Err (ENew ("invalid XOR mode " +:+ pretty xorMode))
      else
        let* (ks, n) := client_keys keys in
        let* (lens, gaps) := ParsePadding padding in
        Ok (MkClient ks keys (blake3_Sum256 <$> keys) (n - 32) xorMode seconds lens gaps)
  end.

(** [mlkem.NewDecapsulationKey768] refuses a seed of another length than 64. *)
Fixpoint server_keys (keys : list bytes) : outcome (list NfsSKey * list bytes * Z) :=
  match keys with
  | [] => Ok ([], [], 0)
  | key :: keys' =>
      let* (k, p, n) := (if zlen key =? 32 then Ok (X25519PrivateKey key, x25519_Public key, 64)
                         else if zlen key =? 64 then Ok (DecapsulationKey768 key, mlkem_Public key, 1120)
                         else Err (EExternal "mlkem: invalid seed length")) in
      let* (ks, ps, m) := server_keys keys' in
      Ok (k :: ks, p :: ps, n + m)
  end.
(** [Init] of a new [ServerInstance]; its state starts empty. *)
Definition Server_Init (keys : list bytes) (xorMode secondsFrom secondsTo : Z) (padding : string) : outcome ServerInstance :=
  match keys with
  | [] => Err (ENew "empty server key list")
  | _ =>
      if 2 <? xorMode then Err (ENew ("invalid XOR mode " +:+ pretty xorMode))
      else if (secondsFrom <? 0) || (secondsTo <? 0) then Err (ENew "negative ticket lifetime")
      else
        let* (ks, ps, n) := server_keys keys in
        let* (lens, gaps) := ParsePadding padding in
        Ok (MkServer ks ps (blake3_Sum256 <$> ps) (n - 32) xorMode secondsFrom secondsTo lens gaps)
  end.

(** ** Relays *)

(** The share for a key and the key agreed on. *)
Definition client_exchange (key : NfsPKey) (draw : bytes) : outcome (bytes * bytes) :=
  match key with
  | X25519PublicKey p => let* k := x25519_ECDH draw p in Ok (x25519_Public draw, k)
  | EncapsulationKey768 p => let '(k, ciphertext) := mlkem_Encapsulate p draw in Ok (ciphertext, k)
  end.
Definition xor_share (xorMode : Z) (key iv share : bytes) : bytes :=
  if 0 <? xorMode then (XORKeyStream (NewCTR key iv) share).1 else share.
Definition xor_first (ctr : option Stream_) (b : bytes) : bytes :=
  match ctr with Some ctr => (XORKeyStream ctr (take 32 b)).1 ++ drop 32 b | None => b end.

(** The loop of the client over its keys, with their bytes and hashes: the relays and the
    key of the last. *)
Fixpoint client_relays (xorMode : Z) (iv : bytes) (keys : list (NfsPKey * bytes * bytes)) (draws : list bytes) (lastCTR : option Stream_)
    : outcome (bytes * bytes) :=
  match keys with
  | [] => Ok ([], [])
  | (key, keyBytes, _) :: keys' =>
      let* (share, nfsKey) := client_exchange key (default [] (head draws)) in
      let share := xor_first lastCTR (xor_share xorMode keyBytes iv share) in
      match keys' with
      | [] => Ok (share, nfsKey)
      | (_, _, hash) :: _ =>
          let '(hash, ctr) := XORKeyStream (NewCTR nfsKey iv) hash in
          let* (rest, nfsKey) := client_relays xorMode iv keys' (tail draws) (Some ctr) in
          Ok (share ++ hash ++ rest, nfsKey)
      end
  end.

Definition share_length (key : NfsSKey) : nat := match key with X25519PrivateKey _ => 32 | DecapsulationKey768 _ => Z.to_nat 1088 end.
Definition server_exchange (key : NfsSKey) (share : bytes) : outcome bytes :=
  match key with
  | X25519PrivateKey k =>
      if 127 <? nth 31 share 0 then Err (ENew "highest bit of peer X25519 public key is set") else x25519_ECDH k share
  | DecapsulationKey768 k => mlkem_Decapsulate k share
  end.
(** The loop of the server. *)
Fixpoint server_relays (xorMode : Z) (iv : bytes) (keys : list (NfsSKey * bytes * bytes)) (lastCTR : option Stream_) (relays : bytes)
    : outcome bytes :=
  match keys with
  | [] => Ok []
  | (key, keyBytes, _) :: keys' =>
      let relays := xor_first lastCTR relays in
      let* nfsKey := server_exchange key (xor_share xorMode keyBytes iv (take (share_length key) relays)) in
      match keys' with
      | [] => Ok nfsKey
      | (_, _, hash) :: _ =>
          let relays := drop (share_length key) relays in
          let '(h, ctr) := XORKeyStream (NewCTR nfsKey iv) (take 32 relays) in
          if bool_decide (h = hash) then server_relays xorMode iv keys' (Some ctr) (drop 32 relays)
          else Err (ENew ("unexpected relay hash: " +:+ format_bytes h))
      end
  end.

(** ** Client *)

(** The writes of a hello in the fragments of its padding. *)
Fixpoint write_fragments {S A} (lens : list Z) (hello : bytes) (k : prog S A) : prog S A :=
  match lens with
  | [] => k
  | n :: lens' =>
      if 0 <? n then
        if zlen hello <? n then Done (Panic "slice bounds out of range")
        else PWrite (take (Z.to_nat n) hello) (fun r => on_ok r (fun _ => write_fragments lens' (drop (Z.to_nat n) hello) k))
      else write_fragments lens' hello k
  end.
(** [paddingLens[0] += n] *)
Definition add_first (n : Z) (lens : list Z) : list Z := match lens with l :: lens' => (l + n) :: lens' | [] => [] end.
Definition pfsKeyExchangeLength : Z := 18 + 1184 + 32 + 16.
Definition zeros (n : Z) : bytes := replicate (Z.to_nat n) 0.
(** The sealed length of a padding and the padding. *)
Definition seal_padding (a : AEAD) (paddingLength : Z) : bytes * AEAD :=
  let '(l, a) := AEAD_Seal a None (EncodeLength (paddingLength - 18)) [] in
  let '(p, a) := AEAD_Seal a None (zeros (paddingLength - 34)) [] in
  (l ++ p, a).

Definition xor_conn (xorMode : Z) (x : XorConn) : option XorConn := if xorMode =? 2 then Some x else None.

(** After the hello was sent. *)
Definition client_finish (i : ClientInstance) (d : ClientDraws) (aes : bool) (nfsKey pfsPublicKey : bytes) (nfsAEAD : AEAD) : prog ClientSession CommonConn :=
  read* encryptedPfsPublicKey := 1088 + 32 + 16 in
  try* peer := opened (AEAD_Open nfsAEAD (Some MaxNonce) encryptedPfsPublicKey []).1 in
  try* mlkemKey := mlkem_Decapsulate (cd_mlkem d) (take (Z.to_nat 1088) peer) in
  try* x25519Key := x25519_ECDH (cd_x25519 d) (take 32 (drop (Z.to_nat 1088) peer)) in
  let pfsKey := mlkemKey ++ x25519Key in
  let unitedKey := pfsKey ++ nfsKey in
  let peerAEAD := NewAEAD peer unitedKey aes in
  read* encryptedTicket := 32 in
  let '(r, peerAEAD) := AEAD_Open peerAEAD None encryptedTicket [] in
  try* ticket := opened r in
  let seconds := DecodeLength ticket in
  let after :=
    read* encryptedLength := 18 in
    let '(r, peerAEAD) := AEAD_Open peerAEAD None encryptedLength [] in
    try* decrypted := opened r in
    let length := DecodeLength decrypted in
    Done (Ok (MkConn (xor_conn (ci_XorMode i) (NewXorConn (Some (NewCTR unitedKey (cd_iv d))) (Some (NewCTR unitedKey ticket)) 0 length))
      aes false unitedKey None (Some (NewAEAD pfsPublicKey unitedKey aes)) (Some peerAEAD) (Some length) [])) in
  if (0 <? ci_Seconds i) && (0 <? seconds)
  then PAtomic (fun _ => MkClientSession (cd_after d + seconds) pfsKey ticket) (fun _ => after)
  else after.

Definition client_full (i : ClientInstance) (d : ClientDraws) (aes : bool) (relays nfsKey : bytes) (nfsAEAD : AEAD) (paddingLength : Z) (paddingLens : list Z)
    : prog ClientSession CommonConn :=
  let '(exchangeLength, nfsAEAD) := AEAD_Seal nfsAEAD None (EncodeLength (pfsKeyExchangeLength - 18)) [] in
  let pfsPublicKey := mlkem_Public (cd_mlkem d) ++ x25519_Public (cd_x25519 d) in
  let '(exchange, nfsAEAD) := AEAD_Seal nfsAEAD None pfsPublicKey [] in
  if paddingLength <? 34 then Done (Panic "slice bounds out of range")
  else
    let '(padding, nfsAEAD) := seal_padding nfsAEAD paddingLength in
    let clientHello := (cd_iv d ++ relays) ++ (exchangeLength ++ exchange) ++ padding in
    write_fragments (add_first (16 + ci_RelaysLength i + pfsKeyExchangeLength) paddingLens) clientHello
      (client_finish i d aes nfsKey pfsPublicKey nfsAEAD).

(** A connection that resumes the session: the hello goes out with the first write. *)
Definition client_resumed (i : ClientInstance) (d : ClientDraws) (aes : bool) (relays nfsKey : bytes) (nfsAEAD : AEAD) (cs : ClientSession) : CommonConn :=
  let unitedKey := cs_PfsKey cs ++ nfsKey in
  let '(length, nfsAEAD) := AEAD_Seal nfsAEAD None (EncodeLength 32) [] in
  let '(ticket, nfsAEAD) := AEAD_Seal nfsAEAD None (cs_Ticket cs) [] in
  let preWrite := (cd_iv d ++ relays) ++ length ++ ticket in
  MkConn (xor_conn (ci_XorMode i) (NewXorConn (Some (NewCTR unitedKey (cd_iv d))) None (zlen preWrite) 16))
    aes true unitedKey (Some preWrite) (Some (NewAEAD ticket unitedKey aes)) None None [].

(** [ClientInstance.Handshake]; [aes] is what hasAESGCMHardwareSupport returns. *)
Definition Client_Handshake (i : ClientInstance) (d : ClientDraws) (aes : bool) : prog ClientSession CommonConn :=
  match ci_NfsPKeys i with
  | [] => Done (Err (ENew "uninitialized"))
  | _ =>
      let '(paddingLength, paddingLens, _) := CreatePadding (ci_PaddingLens i) (ci_PaddingGaps i) (cd_padding d) in
      try* (relays, nfsKey) := client_relays (ci_XorMode i) (cd_iv d) (zip (zip (ci_NfsPKeys i) (ci_NfsPKeysBytes i)) (ci_Hash32s i)) (cd_relays d) None in
      let nfsAEAD := NewAEAD (cd_iv d) nfsKey aes in
      let full := client_full i d aes relays nfsKey nfsAEAD paddingLength paddingLens in
      if 0 <? ci_Seconds i then
        PAtomic id (fun cs => if cd_before d <? cs_Expire cs then Done (Ok (client_resumed i d aes relays nfsKey nfsAEAD cs)) else full)
      else full
  end.

(** ** Server *)

(** A session for a ticket, under the minute its expiry falls due. *)
Definition add_session (i : ServerInstance) (now : Z) (ticket pfsKey : bytes) (s : ServerState) : ServerState :=
  MkState (<[(now + Z.max (si_SecondsFrom i) (si_SecondsTo i)) / 60 + 2 := ticket]> (ss_Lasts s)) (ss_Tickets s ++ [ticket])
    (<[ticket := length (ss_heap s)]> (ss_Sessions s)) (ss_heap s ++ [MkSession pfsKey ∅]).

(** The loop over the tickets when a minute is due. *)
Fixpoint drop_tickets (last : bytes) (tickets : list bytes) (sessions : gmap bytes nat) : option (list bytes) * gmap bytes nat :=
  match tickets with
  | [] => (None, sessions)
  | ticket :: tickets' =>
      let sessions := delete ticket sessions in
      if bool_decide (ticket = last) then (Some tickets', sessions) else drop_tickets last tickets' sessions
  end.
(** A tick of [expireSessions]. *)
Definition expire_tick (now : Z) (s : ServerState) : ServerState :=
  let minute := now / 60 in
  let last := default (zeros 16) (ss_Lasts s !! minute) in
  let lasts := delete (minute - 1) (delete minute (ss_Lasts s)) in
  if bool_decide (last = zeros 16) then MkState lasts (ss_Tickets s) (ss_Sessions s) (ss_heap s)
  else let '(tickets, sessions) := drop_tickets last (ss_Tickets s) (ss_Sessions s) in
       MkState lasts (default (ss_Tickets s) tickets) sessions (ss_heap s).

(** [session.NfsKeys.LoadOrStore] *)
Definition load_or_store (session : nat) (nfsKey : bytes) (s : ServerState) : ServerState :=
  MkState (ss_Lasts s) (ss_Tickets s) (ss_Sessions s) (alter (fun o => MkSession (sv_PfsKey o) ({[nfsKey]} ∪ sv_NfsKeys o)) session (ss_heap s)).

Definition server_resume (i : ServerInstance) (d : ServerDraws) (aes : bool) (iv nfsKey : bytes) (nfsAEAD : AEAD) : prog ServerState CommonConn :=
  if (si_SecondsFrom i =? 0) && (si_SecondsTo i =? 0) then Done (Err (ENew "0-RTT is not allowed"))
  else
    read* encryptedTicket := 32 in
    try* ticket := opened (AEAD_Open nfsAEAD None encryptedTicket []).1 in
    PAtomic id (fun s =>
      match ss_Sessions s !! ticket with
      | None =>
          match List.find (fun noise => negb (is_ok (DecodeHeader noise))) (sd_noise d) with
          | None => Done Diverge
          | Some noise => PWrite noise (fun _ => Done (Err (ENew "expired ticket")))
          end
      | Some session =>
          PAtomic (load_or_store session nfsKey) (fun s =>
            match ss_heap s !! session with
            | None => Done (Panic "nil pointer dereference")
            | Some o =>
                if bool_decide (nfsKey ∈ sv_NfsKeys o) then Done (Err (ENew "replay detected"))
                else
                  let unitedKey := sv_PfsKey o ++ nfsKey in
                  Done (Ok (MkConn (xor_conn (si_XorMode i) (NewXorConn (Some (NewCTR unitedKey (sd_random d))) (Some (NewCTR unitedKey iv)) 16 0))
                    aes false unitedKey (Some (sd_random d)) (Some (NewAEAD (sd_random d) unitedKey aes))
                    (Some (NewAEAD encryptedTicket unitedKey aes)) None []))
            end)
      end).

(** [readAndOpenPadding] *)
Definition read_and_open_padding {A} (a : AEAD) (k : prog ServerState A) : prog ServerState A :=
  read* encryptedLength := 18 in
  let '(r, a) := AEAD_Open a None encryptedLength [] in
  try* decrypted := opened r in
  read* encryptedPadding := DecodeLength decrypted in
  try* _ := opened (AEAD_Open a None encryptedPadding []).1 in
  k.

(** The lifetime of a new ticket. *)
Definition ticket_seconds (i : ServerInstance) (draws : list Z) : Z :=
  if si_SecondsTo i =? 0 then Z.quot (int64 (si_SecondsFrom i * (randBetween 50 100 draws).1)) 100
  else (randBetween (si_SecondsFrom i) (si_SecondsTo i) draws).1.

(** After the keys were exchanged: the ticket, the hello and the padding of the client. *)
Definition server_hello (i : ServerInstance) (d : ServerDraws) (aes : bool) (iv pfsKey nfsKey pfsPublicKey peer : bytes) (nfsAEAD : AEAD) : prog ServerState CommonConn :=
  let unitedKey := pfsKey ++ nfsKey in
  let a := NewAEAD pfsPublicKey unitedKey aes in
  let seconds := ticket_seconds i (sd_seconds d) in
  let ticket := EncodeLength seconds ++ drop 2 (sd_ticket d) in
  let after :=
    let '(paddingLength, paddingLens, _) := CreatePadding (si_PaddingLens i) (si_PaddingGaps i) (sd_padding d) in
    let '(exchange, nfsAEAD) := AEAD_Seal nfsAEAD (Some MaxNonce) pfsPublicKey [] in
    let '(encryptedTicket, a) := AEAD_Seal a None ticket [] in
    if paddingLength <? 34 then Done (Panic "slice bounds out of range")
    else
      let '(padding, a) := seal_padding a paddingLength in
      write_fragments (add_first (1088 + 32 + 16 + 32) paddingLens) ((exchange ++ encryptedTicket) ++ padding)
        (read_and_open_padding nfsAEAD
          (Done (Ok (MkConn (xor_conn (si_XorMode i) (NewXorConn (Some (NewCTR unitedKey ticket)) (Some (NewCTR unitedKey iv)) 0 0))
            aes false unitedKey None (Some a) (Some (NewAEAD (take (Z.to_nat 1216) peer) unitedKey aes)) None [])))) in
  if 0 <? seconds then PAtomic (add_session i (sd_now d) ticket pfsKey) (fun _ => after) else after.

Definition server_full (i : ServerInstance) (d : ServerDraws) (aes : bool) (iv nfsKey : bytes) (nfsAEAD : AEAD) (length : Z) : prog ServerState CommonConn :=
  read* encryptedPfsPublicKey := length in
  let '(r, nfsAEAD) := AEAD_Open nfsAEAD None encryptedPfsPublicKey [] in
  try* peer := opened r in
  try* mlkemPublicKey := mlkem_NewEncapsulationKey (take (Z.to_nat 1184) peer) in
  let '(mlkemKey, encapsulated) := mlkem_Encapsulate mlkemPublicKey (sd_mlkem d) in
  try* x25519Key := x25519_ECDH (sd_x25519 d) (take 32 (drop (Z.to_nat 1184) peer)) in
  server_hello i d aes iv (mlkemKey ++ x25519Key) nfsKey (encapsulated ++ x25519_Public (sd_x25519 d)) peer nfsAEAD.

(** What follows the length of the exchange: another length than 32 is a new session. *)
Definition server_dispatch (i : ServerInstance) (d : ServerDraws) (aes : bool) (iv nfsKey : bytes) (nfsAEAD : AEAD) (decryptedLength : bytes) : prog ServerState CommonConn :=
  let length := DecodeLength decryptedLength in
  if length =? 32 then server_resume i d aes iv nfsKey nfsAEAD
  else if length <? 1184 + 32 + 16 then Done (Err (ENew "PFS key exchange is too short"))
  else server_full i d aes iv nfsKey nfsAEAD length.

(** [ServerInstance.Handshake] without a fallback, as the inbound calls it. *)
Definition Server_Handshake (i : ServerInstance) (d : ServerDraws) : prog ServerState CommonConn :=
  match si_NfsSKeys i with
  | [] => Done (Err (ENew "uninitialized"))
  | _ =>
      read* ivAndRelays := 16 + si_RelaysLength i in
      let iv := take 16 ivAndRelays in
      try* nfsKey := server_relays (si_XorMode i) iv (zip (zip (si_NfsSKeys i) (si_NfsPKeysBytes i)) (si_Hash32s i)) None (drop 16 ivAndRelays) in
      read* encryptedLength := 18 in
      match AEAD_Open (NewAEAD iv nfsKey true) None encryptedLength [] with
      | (Some decryptedLength, nfsAEAD) => server_dispatch i d true iv nfsKey nfsAEAD decryptedLength
      | (None, _) =>
          let '(r, nfsAEAD) := AEAD_Open (NewAEAD iv nfsKey false) None encryptedLength [] in
          try* decryptedLength := opened r in
          server_dispatch i d false iv nfsKey nfsAEAD decryptedLength
      end
  end.

End Handshake.
