(* ===== verification/XrayHandshakeSpec.v ===== *)
(** * Handshakes of the VLESS encryption: correctness

    A client and a server with matching keys, as two programs joined by a connection: every
    schedule of their steps ends with both in step, so that the streams of XrayConnSpec run
    between them; a resumed session works once; tickets live as long as they say. *)

From S2P Require Import Prelude GoStd XrayConn XrayConnSpec XrayHandshake.
From stdpp Require Import relations.
Local Open Scope Z_scope.

(** ** Two programs on a connection *)

Section Duplex.
Context {S1 S2 A1 A2 : Type}.

(** A step of a program: what it reads is taken from its input, what it writes is [out]. *)
Inductive party {S A : Type} : prog S A -> S -> bytes -> bytes -> prog S A -> S -> bytes -> Prop :=
| party_write b k s i : party (PWrite b k) s i b (k (Ok tt)) s i
| party_read n k s i : 0 <= n <= zlen i -> party (PRead n k) s i [] (k (Ok (take (Z.to_nat n) i))) s (drop (Z.to_nat n) i)
| party_atomic f k s i : party (PAtomic f k) s i [] (k s) (f s) i.

(** Both programs with their states, and the bytes on the way to the second and the first. *)
Record duplex := MkDuplex { d_1 : prog S1 A1; d_s1 : S1; d_2 : prog S2 A2; d_s2 : S2; d_up : bytes; d_down : bytes }.
Inductive duplex_step : duplex -> duplex -> Prop :=
| step_1 p s q t up down out p' s' down' :
    party p s down out p' s' down' -> duplex_step (MkDuplex p s q t up down) (MkDuplex p' s' q t (up ++ out) down')
| step_2 p s q t up down out q' t' up' :
    party q t up out q' t' up' -> duplex_step (MkDuplex p s q t up down) (MkDuplex p s q' t' up' (down ++ out)).

Lemma party_deterministic {S A} (p : prog S A) s i o p' s' i' o2 p2 s2 i2 :
  party p s i o p' s' i' -> party p s i o2 p2 s2 i2 -> o = o2 /\ p' = p2 /\ s' = s2 /\ i' = i2.
Proof. destruct 1; inversion 1; subst; done. Qed.
(** More input does not change a step. *)
Lemma party_frame {S A} (p : prog S A) s i o p' s' i' j : party p s i o p' s' i' -> party p s (i ++ j) o p' s' (i' ++ j).
Proof.
  destruct 1 as [| n k s i Hn |]; try constructor. unfold zlen in Hn.
  rewrite <- (take_app_le i j) by lia. rewrite <- drop_app_le by lia. constructor. rewrite zlen_app. unfold zlen. lia.
Qed.

(** The steps of the two sides commute. *)
Lemma duplex_diamond x y z : duplex_step x y -> duplex_step x z -> y = z \/ exists u, duplex_step y u /\ duplex_step z u.
Proof.
  intros Hy Hz. inversion Hy; inversion Hz; subst; simplify_eq.
  - left. match goal with H1 : party _ _ _ _ _ _ _, H2 : party _ _ _ _ _ _ _ |- _ => by destruct (party_deterministic _ _ _ _ _ _ _ _ _ _ _ H1 H2) as (-> & -> & -> & ->) end.
  - right. eexists. split; [eapply step_2; by apply party_frame|eapply step_1; by apply party_frame].
  - right. eexists. split; [eapply step_1; by apply party_frame|eapply step_2; by apply party_frame].
  - left. match goal with H1 : party _ _ _ _ _ _ _, H2 : party _ _ _ _ _ _ _ |- _ => by destruct (party_deterministic _ _ _ _ _ _ _ _ _ _ _ H1 H2) as (-> & -> & -> & ->) end.
Qed.

End Duplex.
Arguments duplex S1 S2 A1 A2 : clear implicits.

(** If the steps of a relation commute, one run to a normal form decides all runs. *)
Section AllRuns.
Context {A : Type} (R : relation A).
Hypothesis Hdiamond : forall x y z, R x y -> R x z -> y = z \/ exists u, R y u /\ R z u.

Lemma one_step_closer n x y t : nsteps R (S n) x t -> nf R t -> R x y -> nsteps R n y t.
Proof.
  revert x y. induction n as [|n IH]; intros x y Hx Hnf Hy; inversion_clear Hx as [|? ? x1 ? Hx1 Hrest];
    destruct (Hdiamond _ _ _ Hx1 Hy) as [<-|(u & Hu1 & Hu2)]; try done.
  - inversion Hrest; subst. exfalso. apply Hnf. by eexists.
  - econstructor; [exact Hu2|]. by apply (IH x1).
Qed.
Lemma every_run_ends n x t : nsteps R n x t -> nf R t -> forall m y, nsteps R m x y -> (m <= n)%nat /\ nsteps R (n - m) y t.
Proof.
  intros Hn Hnf m y Hm. revert n Hn. induction Hm as [x|m x z y Hz Hm IH]; intros n Hn; [split; [lia|by rewrite Nat.sub_0_r]|].
  destruct n as [|n].
  - inversion Hn; subst. exfalso. apply Hnf. by eexists.
  - destruct (IH n) as [Hle Hr]; [by eapply one_step_closer|]. split; [lia|done].
Qed.
End AllRuns.

(** Steps of one side, with all it writes. *)
Inductive runs {S A : Type} : nat -> prog S A -> S -> bytes -> bytes -> prog S A -> S -> bytes -> Prop :=
| runs_refl p s i : runs 0 p s i [] p s i
| runs_step n p s i o p1 s1 i1 o' p' s' i' : party p s i o p1 s1 i1 -> runs n p1 s1 i1 o' p' s' i' -> runs (Datatypes.S n) p s i (o ++ o') p' s' i'.

Section Runs.
Context {S A : Type}.
Implicit Types (p k : prog S A).

Lemma runs_trans n m p s i o p1 s1 i1 o' p' s' i' :
  runs n p s i o p1 s1 i1 -> runs m p1 s1 i1 o' p' s' i' -> runs (n + m) p s i (o ++ o') p' s' i'.
Proof. induction 1; intros H'; [done|]. rewrite <- app_assoc. cbn. econstructor; eauto. Qed.
Lemma runs_quiet n m p s i o p1 s1 i1 p' s' i' :
  runs n p s i o p1 s1 i1 -> runs m p1 s1 i1 [] p' s' i' -> runs (n + m) p s i o p' s' i'.
Proof. intros H1 H2. rewrite <- (app_nil_r o). by eapply runs_trans. Qed.
Lemma runs_read n b (f : outcome bytes -> prog S A) s i o p' s' i' m : zlen b = n -> runs m (f (Ok b)) s i o p' s' i' -> runs (Datatypes.S m) (PRead n f) s (b ++ i) o p' s' i'.
Proof.
  intros Hb H. change o with ([] ++ o). econstructor; [|exact H]. pose proof (zlen_nonneg b). pose proof (zlen_nonneg i).
  assert (party (PRead n f) s (b ++ i) [] (f (Ok (take (Z.to_nat n) (b ++ i)))) s (drop (Z.to_nat n) (b ++ i))) as Hp
    by (constructor; rewrite zlen_app; lia).
  unfold zlen in Hb. replace (Z.to_nat n) with (length b) in Hp by lia. by rewrite take_app_length, drop_app_length in Hp.
Qed.
Lemma runs_atomic g (f : S -> prog S A) s i o p' s' i' m : runs m (f s) (g s) i o p' s' i' -> runs (Datatypes.S m) (PAtomic g f) s i o p' s' i'.
Proof. intros H. change o with ([] ++ o). econstructor; [constructor|exact H]. Qed.

(** The fragments of a hello make up the hello. *)
Lemma write_fragments_runs lens hello k s i : Forall (fun n => 0 <= n) lens -> foldr Z.add 0 lens = zlen hello ->
  exists m, runs m (write_fragments lens hello k) s i hello k s i.
Proof.
  intros Hl. revert hello. induction Hl as [|n lens Hn Hl IH]; intros hello Hs; cbn [write_fragments foldr] in *.
  - exists 0%nat. destruct hello; [constructor|]. rewrite zlen_cons in Hs. pose proof (zlen_nonneg hello). lia.
  - destruct (Z.ltb_spec 0 n); [|apply IH; lia].
    assert (0 <= foldr Z.add 0 lens) by (clear -Hl; induction Hl; cbn; lia).
    rewrite (proj2 (Z.ltb_ge (zlen hello) n)) by lia. destruct (IH (drop (Z.to_nat n) hello)) as [m Hm].
    { unfold zlen in *. rewrite length_drop. lia. }
    exists (Datatypes.S m). rewrite <- (take_drop (Z.to_nat n) hello) at 2. econstructor; [constructor|done].
Qed.
End Runs.

(** Runs of a side are runs of both. *)
Lemma runs_1 {S1 S2 A1 A2} n (p : prog S1 A1) s down o p' s' down' (q : prog S2 A2) t up :
  runs n p s down o p' s' down' -> nsteps duplex_step n (MkDuplex p s q t up down) (MkDuplex p' s' q t (up ++ o) down').
Proof.
  intros H. revert up. induction H; intros up; [rewrite app_nil_r; constructor|]. rewrite app_assoc.
  econstructor; [by apply step_1|done].
Qed.
Lemma runs_2 {S1 S2 A1 A2} n (q : prog S2 A2) t up o q' t' up' (p : prog S1 A1) s down :
  runs n q t up o q' t' up' -> nsteps duplex_step n (MkDuplex p s q t up down) (MkDuplex p s q' t' up' (down ++ o)).
Proof.
  intros H. revert down. induction H; intros down; [rewrite app_nil_r; constructor|]. rewrite app_assoc.
  econstructor; [by apply step_2|done].
Qed.

Section Agreement.
Context {C : XrayCrypto} {L : XrayCryptoLaws C}.
Implicit Types (a : AEAD) (b iv : bytes).
#[local] Arguments XORKeyStream : simpl never.
#[local] Arguments NewCTR : simpl never.

(** ** Ciphers *)

Lemma Seal_Open a nonce p ad : AEAD_Open a nonce (AEAD_Seal a nonce p ad).1 ad = (Some p, (AEAD_Seal a nonce p ad).2).
Proof. unfold AEAD_Open, AEAD_Seal. destruct (next_nonce a nonce) as [n a'] eqn:E. cbn. f_equal. apply aead_Open_Seal. Qed.
Lemma zlen_Seal a nonce p ad : zlen (AEAD_Seal a nonce p ad).1 = zlen p + 16.
Proof. unfold AEAD_Seal. destruct (next_nonce a nonce) as [n a']. cbn. unfold zlen. rewrite aead_Seal_length. lia. Qed.
Definition same_key a a' : Prop := a_AES a = a_AES a' /\ a_key a = a_key a'.
Lemma Seal_same_key a nonce p ad : same_key a (AEAD_Seal a nonce p ad).2.
Proof. unfold AEAD_Seal, next_nonce. by destruct nonce. Qed.
Lemma same_key_trans a1 a2 a3 : same_key a1 a2 -> same_key a2 a3 -> same_key a1 a3.
Proof. unfold same_key. intros [-> ->] [-> ->]. done. Qed.
(** A text sealed with a given nonce can be opened at any later time. *)
Lemma Seal_Open_later a a' n p ad : same_key a a' -> (AEAD_Open a' (Some n) (AEAD_Seal a (Some n) p ad).1 ad).1 = Some p.
Proof. intros [H1 H2]. unfold AEAD_Open, AEAD_Seal. cbn. rewrite <- H1, <- H2. apply aead_Open_Seal. Qed.

Lemma XORKeyStream_length ctr b : length (XORKeyStream ctr b).1 = length b.
Proof. unfold XORKeyStream, keystream. cbn. rewrite length_zip_with, length_fmap, length_seq. lia. Qed.
Lemma XORKeyStream_involutive ctr b : XORKeyStream ctr (XORKeyStream ctr b).1 = (b, (XORKeyStream ctr b).2).
Proof.
  revert ctr. induction b as [|x b IH]; intros ctr; [done|]. rewrite XORKeyStream_cons.
  destruct (XORKeyStream (MkCTR (s_key ctr) (s_iv ctr) (s_pos ctr + 1)) b) as [y ctr'] eqn:E. cbn [fst snd]. rewrite XORKeyStream_cons.
  specialize (IH (MkCTR (s_key ctr) (s_iv ctr) (s_pos ctr + 1))). rewrite E in IH. cbn in IH. rewrite IH.
  by rewrite Z.lxor_assoc, Z.lxor_nilpotent, Z.lxor_0_r.
Qed.
Lemma xor_share_involutive mode key iv b : xor_share mode key iv (xor_share mode key iv b) = b.
Proof. unfold xor_share. destruct (0 <? mode); [|done]. by rewrite XORKeyStream_involutive. Qed.
Lemma length_xor_share mode key iv b : length (xor_share mode key iv b) = length b.
Proof. unfold xor_share. destruct (0 <? mode); [|done]. apply XORKeyStream_length. Qed.
Lemma length_xor_first ctr b : length (xor_first ctr b) = length b.
Proof. destruct ctr; [|done]. cbn [xor_first]. rewrite length_app, XORKeyStream_length, length_take, length_drop. lia. Qed.
(** Only the first 32 bytes are changed. *)
Lemma xor_first_app ctr b b' : (32 <= length b)%nat -> xor_first ctr (b ++ b') = xor_first ctr b ++ b'.
Proof. intros H. destruct ctr; [|done]. cbn [xor_first]. rewrite take_app_le, drop_app_le by lia. by rewrite app_assoc. Qed.
Lemma xor_first_involutive ctr b : xor_first ctr (xor_first ctr b) = b.
Proof.
  destruct ctr as [ctr|]; [|done]. cbn [xor_first]. set (x := (XORKeyStream ctr (take 32 b)).1).
  assert (length x = Nat.min 32 (length b)) as Hx by (unfold x; by rewrite XORKeyStream_length, length_take).
  destruct (Nat.le_gt_cases 32 (length b)) as [Hb|Hb].
  - rewrite take_app_le, drop_app_le, (take_ge x), (drop_ge x) by lia. unfold x. rewrite XORKeyStream_involutive. cbn. apply take_drop.
  - rewrite (drop_ge b), app_nil_r by lia. rewrite (take_ge x), (drop_ge x), app_nil_r by lia. unfold x. rewrite XORKeyStream_involutive. cbn.
    apply take_ge. lia.
Qed.

(** ** Relays *)

(** A key of the server and the one a client has of it, with the bytes and the hash. *)
Definition key_pair (s : NfsSKey * bytes * bytes) (p : NfsPKey * bytes * bytes) : Prop :=
  s.1.2 = p.1.2 /\ s.2 = p.2 /\ length p.2 = 32%nat
  /\ match s.1.1, p.1.1 with
     | X25519PrivateKey k, X25519PublicKey b => b = x25519_Public k
     | DecapsulationKey768 k, EncapsulationKey768 b => b = mlkem_Public k
     | _, _ => False
     end.
Definition relay_length (keys : list (NfsSKey * bytes * bytes)) : nat :=
  foldr (fun s n => share_length s.1.1 + 32 + n)%nat 0%nat keys - 32.

#[local] Arguments relay_length : simpl never.

Lemma share_length_pos k : (32 <= share_length k)%nat.
Proof. destruct k; cbn; lia. Qed.

(** Both sides agree on a key. *)
Lemma exchange_agree s p draw : key_pair s p ->
  exists share k, client_exchange p.1.1 draw = Ok (share, k) /\ length share = share_length s.1.1 /\ server_exchange s.1.1 share = Ok k.
Proof.
  intros (_ & _ & _ & H). destruct s as [[[k|k] ?] ?], p as [[[b|b] ?] ?]; cbn in *; try done; subst b.
  - pose proof (x25519_honest draw k) as Hk. destruct (x25519_ECDH draw (x25519_Public k)) as [key| | |] eqn:E; try done. cbn.
    exists (x25519_Public draw), key. split_and!; [done|apply x25519_Public_length|].
    destruct (x25519_Public_high draw) as (h & Hh & Hle). rewrite (nth_lookup_Some _ _ _ _ Hh).
    rewrite (proj2 (Z.ltb_ge 127 h)) by lia. by rewrite x25519_agree.
  - pose proof (mlkem_Encapsulate_length (mlkem_Public k) draw) as [_ Hl]. pose proof (mlkem_agree k draw) as Ha.
    destruct (mlkem_Encapsulate (mlkem_Public k) draw) as [key ct]. cbn in *. exists ct, key. done.
Qed.

Lemma relays_agree mode iv sk ck draws last : Forall2 key_pair sk ck -> sk <> [] ->
  exists r k, client_relays mode iv ck draws last = Ok (r, k) /\ length r = relay_length sk /\ server_relays mode iv sk last r = Ok k.
Proof.
  intros H. revert draws last. induction H as [|s p sk ck Hp Hf IH]; intros draws last Hne; [done|].
  destruct (exchange_agree s p (default [] (head draws)) Hp) as (share & k & Ec & Hl & Es).
  destruct Hp as (Hb & Hh & Hhl & _). destruct s as [[key pb] hash], p as [[pkey pb'] hash']. cbn in *. subst pb' hash'. rewrite Ec. cbn [obind].
  set (out := xor_first last (xor_share mode pb iv share)).
  assert (length out = share_length key) as Hout by (unfold out; by rewrite length_xor_first, length_xor_share).
  pose proof (share_length_pos key).
  destruct Hf as [|s1 p1 sk ck Hp1 Hf].
  - exists out, k. split_and!; [done|unfold relay_length; cbn; lia|].
    unfold out. rewrite xor_first_involutive, take_ge by (rewrite length_xor_share; lia). rewrite xor_share_involutive, Es. done.
  - destruct p1 as [[pk1 pb1] hash1]. destruct (IH (tail draws) (Some (XORKeyStream (NewCTR k iv) hash1).2)) as (r & k' & Hc & Hr & Hs); [done|].
    destruct (XORKeyStream (NewCTR k iv) hash1) as [h ctr] eqn:Eh. cbn [snd] in *. rewrite Hc. cbn [obind].
    exists (out ++ h ++ r), k'. destruct Hp1 as (_ & Hh1 & Hhl1 & _). destruct s1 as [[sk1 spb1] shash1]. cbn in Hh1, Hhl1. subst shash1.
    assert (length h = 32%nat) as Hlh by (pose proof (XORKeyStream_length (NewCTR k iv) hash1) as Hx; rewrite Eh in Hx; cbn in Hx; lia).
    split_and!; [done|rewrite !length_app, Hr, Hout, Hlh; unfold relay_length; cbn; pose proof (share_length_pos sk1); lia|].
    rewrite xor_first_app by lia. unfold out at 1. rewrite xor_first_involutive.
    rewrite take_app_le, take_ge by (rewrite length_xor_share; lia). rewrite xor_share_involutive, Es. cbn [obind].
    unfold out. rewrite xor_first_involutive.
    rewrite drop_app_ge, length_xor_share, Hl, Nat.sub_diag, drop_0 by (rewrite length_xor_share; lia).
    rewrite take_app_le, take_ge by lia. pose proof (XORKeyStream_involutive (NewCTR k iv) hash1) as Hi. rewrite Eh in Hi. cbn [fst snd] in Hi.
    rewrite Hi. rewrite bool_decide_true by done. rewrite drop_app_ge, Hlh, Nat.sub_diag, drop_0 by lia. exact Hs.
Qed.

(** ** Lengths and padding *)

Lemma DecodeLength_Encode l rest : 0 <= l < 65536 -> DecodeLength (EncodeLength l ++ rest) = l.
Proof.
  intros H. unfold DecodeLength, EncodeLength, uint. cbn [nth app]. rewrite Z.shiftr_div_pow2 by lia.
  rewrite (Z.mod_small (l / 2 ^ 8)). 2: { split; [apply Z.div_pos; lia|]. apply Z.div_lt_upper_bound; lia. }
  rewrite lor_shiftl_byte; [|apply uint8_is_byte]. pose proof (Z.div_mod l (2 ^ 8)). lia.
Qed.

(** A padding that is configured: the first part is at least 35 bytes long and always there,
    and the parts are not too long together. *)
Definition entry_max (e : padding_entry) : Z := Z.max e.1.2 e.2.
Definition entry_ok (e : padding_entry) : Prop := 0 <= e.1.1 /\ 0 <= e.1.2 /\ 0 <= e.2.
Definition padding_ok (lens : list padding_entry) : Prop :=
  match lens with
  | [] => True
  | e :: lens' => 100 <= e.1.1 /\ 35 <= e.1.2 /\ 35 <= e.2 /\ Forall entry_ok lens' /\ foldr Z.add 0 (entry_max <$> lens) <= 65553
  end.

Lemma randBetween_range from to draws : 0 <= from -> 0 <= to -> Z.min from to <= (randBetween from to draws).1 <= Z.max from to.
Proof.
  intros H1 H2. unfold randBetween. destruct (Z.eqb_spec from to); [cbn; lia|]. destruct draws as [|d draws]; cbn; [lia|].
  pose proof (Z.mod_pos_bound d (Z.max from to - Z.min from to)). lia.
Qed.
Lemma draw_entries_range entries draws : Forall entry_ok entries ->
  Forall (fun n => 0 <= n) (draw_entries entries draws).1
  /\ foldr Z.add 0 (draw_entries entries draws).1 <= foldr Z.add 0 (entry_max <$> entries).
Proof.
  intros H. revert draws. induction H as [|[[x y] z] entries (Hx & Hy & Hz) Hf IH]; intros draws; [done|].
  cbn [draw_entries]. destruct (randBetween 0 100 draws) as [chance draws1]. cbn in Hx, Hy, Hz.
  assert (forall v, 0 <= v <= Z.max y z -> forall ds, Forall (fun n => 0 <= n) (v :: (draw_entries entries ds).1)
    /\ foldr Z.add 0 (v :: (draw_entries entries ds).1) <= foldr Z.add 0 (entry_max <$> (x, y, z) :: entries)) as Hv.
  { intros v Hv ds. destruct (IH ds) as [H1 H2]. split; [by constructor; [lia|]|]. cbn. unfold entry_max at 1. cbn. lia. }
  destruct (chance <=? x).
  - pose proof (randBetween_range y z draws1 Hy Hz) as Hr. destruct (randBetween y z draws1) as [v draws2]. cbn in Hr.
    specialize (Hv v ltac:(lia) draws2). by destruct (draw_entries entries draws2).
  - specialize (Hv 0 ltac:(lia) draws1). by destruct (draw_entries entries draws1).
Qed.
Lemma CreatePadding_ok lens gaps draws : padding_ok lens ->
  exists n l ls gs, CreatePadding lens gaps draws = (n, l :: ls, gs) /\ n = foldr Z.add 0 (l :: ls) /\ Forall (fun m => 0 <= m) (l :: ls) /\ 35 <= n <= 65553.
Proof.
  intros H. unfold CreatePadding.
  assert (exists e entries gaps', (match lens with [] => (default_lens, default_gaps) | _ => (lens, gaps) end) = (e :: entries, gaps')
    /\ padding_ok (e :: entries)) as (e & entries & gaps' & -> & He).
  { destruct lens as [|e lens]; [|by exists e, lens, gaps]. do 3 eexists. split; [done|]. unfold default_lens. cbn.
    split_and!; try lia; [repeat constructor; cbn; lia|unfold entry_max; cbn; lia]. }
  destruct He as (H1 & H2 & H3 & Hf & Hmax).
  assert (Forall entry_ok (e :: entries)) as Hall by (constructor; [unfold entry_ok; lia|done]).
  destruct (draw_entries_range (e :: entries) draws Hall) as [Hn Hs].
  destruct e as [[x y] z]. cbn [fst snd] in H1, H2, H3. cbn [draw_entries] in *.
  pose proof (randBetween_range 0 100 draws ltac:(lia) ltac:(lia)) as Hc. destruct (randBetween 0 100 draws) as [chance draws1]. cbn in Hc.
  rewrite (proj2 (Z.leb_le chance x)) in * by lia.
  pose proof (randBetween_range y z draws1 ltac:(lia) ltac:(lia)) as Hr. destruct (randBetween y z draws1) as [v draws2]. cbn in Hr.
  destruct (draw_entries entries draws2) as [vs draws3]. cbn [fst] in *. destruct (draw_entries gaps' draws3) as [gs ?].
  exists (foldr Z.add 0 (v :: vs)), v, vs, gs. split_and!; try done; [|lia].
  inversion Hn as [|? ? Hv Hvs]. cbn. assert (0 <= foldr Z.add 0 vs) by (clear -Hvs; induction Hvs; cbn; lia). lia.
Qed.

Lemma seal_padding_spec a n : 34 <= n ->
  exists l p a1 a2, seal_padding a n = (l ++ p, a2) /\ zlen l = 18 /\ zlen p = n - 18 /\ same_key a a2
    /\ AEAD_Open a None l [] = (Some (EncodeLength (n - 18)), a1) /\ AEAD_Open a1 None p [] = (Some (zeros (n - 34)), a2).
Proof.
  intros Hn. unfold seal_padding. destruct (AEAD_Seal a None (EncodeLength (n - 18)) []) as [l a1] eqn:E1.
  destruct (AEAD_Seal a1 None (zeros (n - 34)) []) as [p a2] eqn:E2. exists l, p, a1, a2.
  pose proof (Seal_Open a None (EncodeLength (n - 18)) []) as O1. pose proof (Seal_Open a1 None (zeros (n - 34)) []) as O2.
  pose proof (zlen_Seal a None (EncodeLength (n - 18)) []) as L1. pose proof (zlen_Seal a1 None (zeros (n - 34)) []) as L2.
  pose proof (Seal_same_key a None (EncodeLength (n - 18)) []) as K1. pose proof (Seal_same_key a1 None (zeros (n - 34)) []) as K2.
  rewrite E1 in O1, L1, K1. rewrite E2 in O2, L2, K2. cbn [fst snd] in *. split_and!; try done.
  - rewrite L2. unfold zeros, zlen. rewrite length_replicate. lia.
  - by eapply same_key_trans.
Qed.

(** ** A new session *)

Definition skeys (si : ServerInstance) := zip (zip (si_NfsSKeys si) (si_NfsPKeysBytes si)) (si_Hash32s si).
Definition ckeys (ci : ClientInstance) := zip (zip (ci_NfsPKeys ci) (ci_NfsPKeysBytes ci)) (ci_Hash32s ci).
(** A client configured for a server. *)
Record matching (ci : ClientInstance) (si : ServerInstance) : Prop := {
  match_keys : Forall2 key_pair (skeys si) (ckeys ci);
  match_nonempty : skeys si <> [];
  match_mode : ci_XorMode ci = si_XorMode si;
  match_client_length : ci_RelaysLength ci = Z.of_nat (relay_length (skeys si));
  match_server_length : si_RelaysLength si = Z.of_nat (relay_length (skeys si));
  match_client_padding : padding_ok (ci_PaddingLens ci);
  match_server_padding : padding_ok (si_PaddingLens si)
}.
(** The server tells by the first text which cipher the client uses: it tries AES first.
    With ChaCha20 that AES opens none of its texts is an idealisation: a text of one cipher
    opens under the other with the probability of a forgery. *)
Definition told_apart (aes : bool) : Prop := aes = true \/ forall k n p ad, aead_Open true k n (aead_Seal false k n p ad) ad = None.

(** It opens the length with the cipher of the client. *)
Lemma server_tells si sd aes iv nfsKey p : told_apart aes ->
  let sealed := AEAD_Seal (NewAEAD iv nfsKey aes) None p [] in
  match AEAD_Open (NewAEAD iv nfsKey true) None sealed.1 [] with
  | (Some decryptedLength, nfsAEAD) => server_dispatch si sd true iv nfsKey nfsAEAD decryptedLength
  | (None, _) =>
      let '(r, nfsAEAD) := AEAD_Open (NewAEAD iv nfsKey false) None sealed.1 [] in
      try* decryptedLength := opened r in
      server_dispatch si sd false iv nfsKey nfsAEAD decryptedLength
  end = server_dispatch si sd aes iv nfsKey sealed.2 p.
Proof.
  intros Haes. cbn zeta. pose proof (Seal_Open (NewAEAD iv nfsKey aes) None p []) as Ho. destruct aes; [by rewrite Ho|].
  destruct Haes as [|Hne]; [done|]. rewrite Ho.
  assert (AEAD_Open (NewAEAD iv nfsKey true) None (AEAD_Seal (NewAEAD iv nfsKey false) None p []).1 [] = (None, (next_nonce (NewAEAD iv nfsKey true) None).2)) as ->.
  { unfold AEAD_Open, AEAD_Seal. cbn. f_equal. apply Hne. }
  done.
Qed.

Section Fresh.
Context (ci : ClientInstance) (si : ServerInstance) (cd : ClientDraws) (sd : ServerDraws) (aes : bool).
Context (Hm : matching ci si) (Hiv : length (cd_iv cd) = 16%nat) (Hticket : length (sd_ticket sd) = 16%nat) (Haes : told_apart aes).
Context (relays nfsKey : bytes).
Hypothesis Hclient : client_relays (ci_XorMode ci) (cd_iv cd) (ckeys ci) (cd_relays cd) None = Ok (relays, nfsKey).

(** What the code computes on the way. *)
Definition pfs_client : bytes := mlkem_Public (cd_mlkem cd) ++ x25519_Public (cd_x25519 cd).
Definition nfs0 : AEAD := NewAEAD (cd_iv cd) nfsKey aes.
Definition sealed_length : bytes * AEAD := AEAD_Seal nfs0 None (EncodeLength (pfsKeyExchangeLength - 18)) [].
Definition sealed_exchange : bytes * AEAD := AEAD_Seal sealed_length.2 None pfs_client [].
Definition encapsulated : bytes * bytes := mlkem_Encapsulate (mlkem_Public (cd_mlkem cd)) (sd_mlkem sd).
Definition pfs_server : bytes := encapsulated.2 ++ x25519_Public (sd_x25519 sd).
Definition ticket : bytes := EncodeLength (ticket_seconds si (sd_seconds sd)) ++ drop 2 (sd_ticket sd).

Lemma zlen_pfs_client : zlen pfs_client = 1216.
Proof. unfold pfs_client. rewrite zlen_app. unfold zlen. rewrite mlkem_Public_length, x25519_Public_length. lia. Qed.
Lemma zlen_pfs_server : zlen pfs_server = 1120.
Proof.
  unfold pfs_server, encapsulated. rewrite zlen_app. unfold zlen. rewrite (proj2 (mlkem_Encapsulate_length _ _)), x25519_Public_length. lia.
Qed.
Lemma zlen_ticket : zlen ticket = 16.
Proof. unfold ticket. rewrite zlen_app. unfold zlen. rewrite length_drop, Hticket. done. Qed.

(** The key of the session, the same on both sides. *)
Lemma session_key : exists x, x25519_ECDH (sd_x25519 sd) (x25519_Public (cd_x25519 cd)) = Ok x
  /\ x25519_ECDH (cd_x25519 cd) (x25519_Public (sd_x25519 sd)) = Ok x.
Proof.
  pose proof (x25519_honest (sd_x25519 sd) (cd_x25519 cd)) as H. rewrite (x25519_agree (cd_x25519 cd)).
  destruct (x25519_ECDH (sd_x25519 sd) (x25519_Public (cd_x25519 cd))) as [x| | |]; try done. by exists x.
Qed.

(** The client up to the end of its hello. *)
Lemma client_full_runs cs inp n l ls pad nfs4 : 35 <= n -> n = foldr Z.add 0 (l :: ls) -> Forall (fun m => 0 <= m) (l :: ls) ->
  seal_padding sealed_exchange.2 n = (pad, nfs4) -> zlen pad = n ->
  exists m, runs m (client_full ci cd aes relays nfsKey nfs0 n (l :: ls)) cs inp
    ((cd_iv cd ++ relays) ++ (sealed_length.1 ++ sealed_exchange.1) ++ pad) (client_finish ci cd aes nfsKey pfs_client nfs4) cs inp.
Proof.
  intros Hn Hsum Hall Hp Hlp. unfold client_full. fold pfs_client. unfold sealed_exchange, sealed_length in *.
  destruct (AEAD_Seal nfs0 None (EncodeLength (pfsKeyExchangeLength - 18)) []) as [s1 a1] eqn:E1. cbn [fst snd] in *.
  destruct (AEAD_Seal a1 None pfs_client []) as [s2 a2] eqn:E2. cbn [fst snd] in *.
  rewrite (proj2 (Z.ltb_ge n 34)) by lia. rewrite Hp. cbn [add_first].
  pose proof (zlen_Seal nfs0 None (EncodeLength (pfsKeyExchangeLength - 18)) []) as L1. rewrite E1 in L1. cbn [fst] in L1.
  pose proof (zlen_Seal a1 None pfs_client []) as L2. rewrite E2 in L2. cbn [fst] in L2. rewrite zlen_pfs_client in L2.
  destruct (relays_agree (ci_XorMode ci) (cd_iv cd) (skeys si) (ckeys ci) (cd_relays cd) None (match_keys _ _ Hm) (match_nonempty _ _ Hm))
    as (r & k & Hc & Hr & _). rewrite Hclient in Hc. injection Hc as <- <-.
  apply write_fragments_runs.
  - inversion Hall. constructor; [|done]. rewrite (match_client_length _ _ Hm). unfold pfsKeyExchangeLength. lia.
  - rewrite !zlen_app, L1, L2, Hlp, Hsum. cbn [foldr]. rewrite (match_client_length _ _ Hm). unfold pfsKeyExchangeLength.
    change (zlen (EncodeLength _)) with 2. unfold zlen. rewrite Hiv, Hr. lia.
Qed.

(** What the server sends, and what opens it: the exchange, the ticket and the padding. *)
Record server_flight (united : bytes) (nfs2 : AEAD) (ex et spl spp : bytes) (n : Z) (a1 a2 a3 : AEAD) : Prop := {
  flight_exchange : ex = (AEAD_Seal nfs2 (Some MaxNonce) pfs_server []).1;
  flight_ticket : AEAD_Open (NewAEAD pfs_server united aes) None et [] = (Some ticket, a1) /\ zlen et = 32;
  flight_length : AEAD_Open a1 None spl [] = (Some (EncodeLength (n - 18)), a2) /\ zlen spl = 18;
  flight_padding : AEAD_Open a2 None spp [] = (Some (zeros (n - 34)), a3) /\ zlen spp = n - 18;
  flight_bounds : 35 <= n <= 65553
}.
(** The connections both end with. *)
Definition server_conn (united : bytes) (a3 : AEAD) : CommonConn :=
  MkConn (xor_conn (si_XorMode si) (NewXorConn (Some (NewCTR united ticket)) (Some (NewCTR united (cd_iv cd))) 0 0))
    aes false united None (Some a3) (Some (NewAEAD pfs_client united aes)) None [].
Definition client_conn (united : bytes) (a2 : AEAD) (n : Z) : CommonConn :=
  MkConn (xor_conn (ci_XorMode ci) (NewXorConn (Some (NewCTR united (cd_iv cd))) (Some (NewCTR united ticket)) 0 (n - 18)))
    aes false united None (Some (NewAEAD pfs_client united aes)) (Some a2) (Some (n - 18)) [].
(** Their states, with a new session if the ticket is for any time. *)
Definition server_after (pfsKey : bytes) (ss : ServerState) : ServerState :=
  if 0 <? ticket_seconds si (sd_seconds sd) then add_session si (sd_now sd) ticket pfsKey ss else ss.
Definition client_after (pfsKey : bytes) (cs : ClientSession) : ClientSession :=
  if (0 <? ci_Seconds ci) && (0 <? DecodeLength ticket) then MkClientSession (cd_after cd + DecodeLength ticket) pfsKey ticket else cs.

Lemma read_and_open_padding_runs {A} a n pl pp a1 z a2 (k : prog ServerState A) ss rest :
  0 <= n - 18 < 65536 -> AEAD_Open a None pl [] = (Some (EncodeLength (n - 18)), a1) -> zlen pl = 18 ->
  AEAD_Open a1 None pp [] = (Some z, a2) -> zlen pp = n - 18 ->
  runs 2 (read_and_open_padding a k) ss ((pl ++ pp) ++ rest) [] k ss rest.
Proof.
  intros Hn H1 L1 H2 L2. unfold read_and_open_padding. rewrite <- app_assoc. apply runs_read; [done|]. cbn [on_ok]. rewrite H1. cbn [opened on_ok].
  rewrite <- (app_nil_r (EncodeLength (n - 18))), DecodeLength_Encode by done. apply runs_read; [done|]. cbn [on_ok]. rewrite H2. constructor.
Qed.

Lemma server_hello_runs ss rest pfsKey nfs2 nfs3 nfs4 pl pp n z :
  0 <= n - 18 < 65536 -> AEAD_Open nfs2 None pl [] = (Some (EncodeLength (n - 18)), nfs3) -> zlen pl = 18 ->
  AEAD_Open nfs3 None pp [] = (Some z, nfs4) -> zlen pp = n - 18 ->
  exists m ex et spl spp n' a1 a2 a3, server_flight (pfsKey ++ nfsKey) nfs2 ex et spl spp n' a1 a2 a3
    /\ runs m (server_hello si sd aes (cd_iv cd) pfsKey nfsKey pfs_server pfs_client nfs2) ss ((pl ++ pp) ++ rest)
         ((ex ++ et) ++ (spl ++ spp)) (Done (Ok (server_conn (pfsKey ++ nfsKey) a3))) (server_after pfsKey ss) rest.
Proof.
  intros Hn H1 L1 H2 L2. set (united := pfsKey ++ nfsKey).
  destruct (CreatePadding_ok (si_PaddingLens si) (si_PaddingGaps si) (sd_padding sd) (match_server_padding _ _ Hm))
    as (n' & l & ls & gs & Hcp & Hsum & Hall & Hb).
  destruct (AEAD_Seal (NewAEAD pfs_server united aes) None ticket []) as [et a1] eqn:Et.
  pose proof (Seal_Open (NewAEAD pfs_server united aes) None ticket []) as Ot. pose proof (zlen_Seal (NewAEAD pfs_server united aes) None ticket []) as Lt.
  rewrite Et in Ot, Lt. cbn [fst snd] in Ot, Lt. rewrite zlen_ticket in Lt.
  destruct (seal_padding_spec a1 n' ltac:(lia)) as (spl & spp & a2 & a3 & Hsp & Ll & Lp & _ & Ol & Op).
  set (ex := (AEAD_Seal nfs2 (Some MaxNonce) pfs_server []).1).
  assert (zlen ex = 1136) as Lex by (unfold ex; rewrite zlen_Seal, zlen_pfs_server; lia).
  assert (exists m, runs m (
    let '(paddingLength, paddingLens, _) := CreatePadding (si_PaddingLens si) (si_PaddingGaps si) (sd_padding sd) in
    let '(exchange, nfsAEAD) := AEAD_Seal nfs2 (Some MaxNonce) pfs_server [] in
    let '(encryptedTicket, a) := AEAD_Seal (NewAEAD pfs_server united aes) None ticket [] in
    if paddingLength <? 34 then Done (Panic "slice bounds out of range")
    else
      let '(padding, a) := seal_padding a paddingLength in
      write_fragments (add_first (1088 + 32 + 16 + 32) paddingLens) ((exchange ++ encryptedTicket) ++ padding)
        (read_and_open_padding nfsAEAD
          (Done (Ok (MkConn (xor_conn (si_XorMode si) (NewXorConn (Some (NewCTR united ticket)) (Some (NewCTR united (cd_iv cd))) 0 0))
            aes false united None (Some a) (Some (NewAEAD (take (Z.to_nat 1216) pfs_client) united aes)) None [])))))
    (server_after pfsKey ss) ((pl ++ pp) ++ rest) ((ex ++ et) ++ (spl ++ spp)) (Done (Ok (server_conn united a3))) (server_after pfsKey ss) rest) as [m Hrun].
  { rewrite Hcp, Et. assert (AEAD_Seal nfs2 (Some MaxNonce) pfs_server [] = (ex, nfs2)) as -> by done.
    rewrite (proj2 (Z.ltb_ge n' 34)) by lia. rewrite Hsp.
    set (k := read_and_open_padding nfs2 _).
    destruct (write_fragments_runs (add_first (1088 + 32 + 16 + 32) (l :: ls)) ((ex ++ et) ++ spl ++ spp) k (server_after pfsKey ss) ((pl ++ pp) ++ rest)) as [m Hw].
    - inversion Hall. constructor; [lia|done].
    - cbn [add_first foldr] in *. rewrite !zlen_app, Lex, Lt, Ll, Lp. lia.
    - exists (m + 2)%nat. eapply runs_quiet; [exact Hw|]. unfold k, server_conn.
      rewrite <- (take_ge pfs_client (Z.to_nat 1216)) at 2 by (pose proof zlen_pfs_client as Hz; unfold zlen in Hz; lia).
      by eapply read_and_open_padding_runs. }
  assert (server_flight united nfs2 ex et spl spp n' a1 a2 a3) as Hfl by (by constructor).
  unfold server_hello. fold ticket united. unfold server_after in *.
  destruct (0 <? ticket_seconds si (sd_seconds sd)).
  - exists (S m), ex, et, spl, spp, n', a1, a2, a3. split; [done|]. by apply runs_atomic.
  - exists m, ex, et, spl, spp, n', a1, a2, a3. done.
Qed.

(** The server on the hello of the client. *)
Lemma server_runs ss rest pl pp n z nfs3 nfs4 x :
  x25519_ECDH (sd_x25519 sd) (x25519_Public (cd_x25519 cd)) = Ok x ->
  0 <= n - 18 < 65536 -> AEAD_Open sealed_exchange.2 None pl [] = (Some (EncodeLength (n - 18)), nfs3) -> zlen pl = 18 ->
  AEAD_Open nfs3 None pp [] = (Some z, nfs4) -> zlen pp = n - 18 ->
  exists m ex et spl spp n' a1 a2 a3, server_flight ((encapsulated.1 ++ x) ++ nfsKey) sealed_exchange.2 ex et spl spp n' a1 a2 a3
    /\ runs m (Server_Handshake si sd) ss (((cd_iv cd ++ relays) ++ (sealed_length.1 ++ sealed_exchange.1) ++ (pl ++ pp)) ++ rest)
         ((ex ++ et) ++ (spl ++ spp)) (Done (Ok (server_conn ((encapsulated.1 ++ x) ++ nfsKey) a3))) (server_after (encapsulated.1 ++ x) ss) rest.
Proof.
  intros Hx Hn H1 L1 H2 L2.
  destruct (server_hello_runs ss rest (encapsulated.1 ++ x) sealed_exchange.2 nfs3 nfs4 pl pp n z Hn H1 L1 H2 L2)
    as (m & ex & et & spl & spp & n' & a1 & a2 & a3 & Hfl & Hrun).
  exists (S (S (S m))), ex, et, spl, spp, n', a1, a2, a3. split; [done|].
  destruct (relays_agree (ci_XorMode ci) (cd_iv cd) (skeys si) (ckeys ci) (cd_relays cd) None (match_keys _ _ Hm) (match_nonempty _ _ Hm))
    as (r & k & Hc & Hr & Hs). rewrite Hclient in Hc. injection Hc as <- <-. rewrite (match_mode _ _ Hm) in Hs.
  unfold Server_Handshake. destruct (si_NfsSKeys si) as [|s0 sks] eqn:Esk.
  { exfalso. apply (match_nonempty _ _ Hm). unfold skeys. by rewrite Esk. }
  rewrite <- Esk. fold (skeys si). rewrite <- !app_assoc. rewrite (app_assoc (cd_iv cd)). apply runs_read.
  { rewrite zlen_app, (match_server_length _ _ Hm). unfold zlen. rewrite Hiv, Hr. lia. }
  cbn [on_ok]. assert (take 16 (cd_iv cd ++ relays) = cd_iv cd /\ drop 16 (cd_iv cd ++ relays) = relays) as [-> ->].
  { rewrite <- Hiv. by rewrite take_app_length, drop_app_length. }
  rewrite Hs. cbn [on_ok]. apply runs_read; [unfold sealed_length; rewrite zlen_Seal; done|]. cbn [on_ok].
  set (dispatch := server_dispatch si sd aes (cd_iv cd) nfsKey sealed_length.2 (EncodeLength (pfsKeyExchangeLength - 18))).
  match goal with |- runs _ ?prog _ _ _ _ _ _ => assert (prog = dispatch) as -> end.
  { unfold dispatch, sealed_length, nfs0. by apply server_tells. }
  unfold dispatch, server_dispatch. rewrite <- (app_nil_r (EncodeLength _)), DecodeLength_Encode by (unfold pfsKeyExchangeLength; lia).
  change (pfsKeyExchangeLength - 18 =? 32) with false. change (pfsKeyExchangeLength - 18 <? 1184 + 32 + 16) with false. cbn iota.
  unfold server_full. apply runs_read; [unfold sealed_exchange; rewrite zlen_Seal, zlen_pfs_client; done|]. cbn [on_ok].
  pose proof (Seal_Open sealed_length.2 None pfs_client []) as Ho. fold sealed_exchange in Ho. rewrite Ho. cbn [opened on_ok].
  assert (take (Z.to_nat 1184) pfs_client = mlkem_Public (cd_mlkem cd) /\ take 32 (drop (Z.to_nat 1184) pfs_client) = x25519_Public (cd_x25519 cd)) as [-> ->].
  { unfold pfs_client. pose proof (mlkem_Public_length (cd_mlkem cd)) as Hl. split.
    - rewrite take_app_le by lia. apply take_ge. lia.
    - rewrite drop_app_ge by lia. rewrite Hl. rewrite (proj2 (Nat.sub_0_le _ _)) by lia. rewrite drop_0. apply take_ge. rewrite x25519_Public_length. lia. }
  rewrite mlkem_Public_valid. cbn [on_ok]. fold encapsulated. destruct encapsulated as [mk ct] eqn:Een. rewrite Hx. cbn [on_ok].
  assert (ct ++ x25519_Public (sd_x25519 sd) = pfs_server) as -> by (unfold pfs_server; by rewrite Een).
  rewrite <- !app_assoc in Hrun. exact Hrun.
Qed.

(** The client on the answer of the server; the padding is left for its first read. *)
Lemma client_finish_runs cs nfs2 nfs4 x ex et spl spp n a1 a2 a3 :
  x25519_ECDH (cd_x25519 cd) (x25519_Public (sd_x25519 sd)) = Ok x -> same_key nfs2 nfs4 ->
  server_flight ((encapsulated.1 ++ x) ++ nfsKey) nfs2 ex et spl spp n a1 a2 a3 ->
  exists m, runs m (client_finish ci cd aes nfsKey pfs_client nfs4) cs ((ex ++ et) ++ (spl ++ spp)) []
    (Done (Ok (client_conn ((encapsulated.1 ++ x) ++ nfsKey) a2 n))) (client_after (encapsulated.1 ++ x) cs) spp.
Proof.
  intros Hx Hk [Hex [Ot Lt] [Ol Ll] [Op Lp] Hb]. set (pfsKey := encapsulated.1 ++ x) in *.
  assert (exists m, runs m (client_finish ci cd aes nfsKey pfs_client nfs4) cs (ex ++ et ++ spl ++ spp) []
    (Done (Ok (client_conn (pfsKey ++ nfsKey) a2 n))) (client_after pfsKey cs) spp) as [m Hr]; [|by exists m; rewrite <- app_assoc].
  assert (zlen ex = 1088 + 32 + 16) as Lex by (subst ex; rewrite zlen_Seal, zlen_pfs_server; done).
  set (after := read* encryptedLength := 18 in
    let '(r, peerAEAD) := AEAD_Open a1 None encryptedLength [] in
    try* decrypted := opened r in
    Done (Ok (MkConn (xor_conn (ci_XorMode ci) (NewXorConn (Some (NewCTR (pfsKey ++ nfsKey) (cd_iv cd))) (Some (NewCTR (pfsKey ++ nfsKey) ticket)) 0 (DecodeLength decrypted)))
      aes false (pfsKey ++ nfsKey) None (Some (NewAEAD pfs_client (pfsKey ++ nfsKey) aes)) (Some peerAEAD) (Some (DecodeLength decrypted)) [])) : prog ClientSession CommonConn).
  assert (forall cs', runs 1 after cs' (spl ++ spp) [] (Done (Ok (client_conn (pfsKey ++ nfsKey) a2 n))) cs' spp) as Hafter.
  { intros cs'. apply runs_read; [done|]. cbn [on_ok]. rewrite Ol. cbn [opened on_ok].
    rewrite <- (app_nil_r (EncodeLength _)), DecodeLength_Encode by lia. constructor. }
  assert (exists m, runs m (if (0 <? ci_Seconds ci) && (0 <? DecodeLength ticket)
    then PAtomic (fun _ => MkClientSession (cd_after cd + DecodeLength ticket) pfsKey ticket) (fun _ => after) else after) cs (spl ++ spp) []
    (Done (Ok (client_conn (pfsKey ++ nfsKey) a2 n))) (client_after pfsKey cs) spp) as [m Hif].
  { unfold client_after. destruct (_ && _); [exists 2%nat; by apply runs_atomic|exists 1%nat; apply Hafter]. }
  exists (S (S m)). unfold client_finish. apply runs_read; [done|]. cbn [on_ok]. rewrite Hex, (Seal_Open_later _ _ _ _ _ Hk). cbn [opened on_ok].
  assert (take (Z.to_nat 1088) pfs_server = encapsulated.2 /\ take 32 (drop (Z.to_nat 1088) pfs_server) = x25519_Public (sd_x25519 sd)) as [-> ->].
  { unfold pfs_server. pose proof (proj2 (mlkem_Encapsulate_length (mlkem_Public (cd_mlkem cd)) (sd_mlkem sd))) as Hl. fold encapsulated in Hl. split.
    - rewrite take_app_le by lia. apply take_ge. lia.
    - rewrite drop_app_ge by lia. rewrite Hl, (proj2 (Nat.sub_0_le _ _)) by lia. rewrite drop_0. apply take_ge. rewrite x25519_Public_length. lia. }
  assert (mlkem_Decapsulate (cd_mlkem cd) encapsulated.2 = Ok encapsulated.1) as -> by apply mlkem_agree. cbn [on_ok].
  rewrite Hx. cbn [on_ok]. apply runs_read; [done|]. cbn [on_ok]. fold pfsKey. rewrite Ot. cbn [opened on_ok]. exact Hif.
Qed.

(** ** The connections are in step *)

(** The first read of a connection takes the padding [pad] off the network and leaves the
    connection [c']. *)
Definition settles (c : CommonConn) (pad : bytes) (c' : CommonConn) : Prop :=
  forall w rest, concat (n_chunks w) = pad ++ rest ->
    exists chunks, bind3 (read_random c w) (fun _ => read_padding) = (Ok tt, c', with_chunks w chunks) /\ concat chunks = rest.

Lemma fresh_up united a2 a3 n : in_step (client_conn united a2 n) (server_conn united a3).
Proof.
  split_and!; try done; [by eexists|]. cbn. rewrite (match_mode _ _ Hm). unfold xor_conn. destruct (_ =? 2); cbn; [|done].
  split_and!; [done|split; cbn; lia|by eexists].
Qed.
Lemma fresh_down united nfs2 ex et spl spp n a1 a2 a3 : server_flight united nfs2 ex et spl spp n a1 a2 a3 ->
  exists c', settles (client_conn united a2 n) spp c' /\ in_step (server_conn united a3) c'.
Proof.
  intros [_ _ _ [Op Lp] Hb].
  set (x := xor_conn (ci_XorMode ci) (NewXorConn (Some (NewCTR united (cd_iv cd))) (Some (NewCTR united ticket)) 0 (n - 18))).
  set (x' := xor_conn (ci_XorMode ci) (NewXorConn (Some (NewCTR united (cd_iv cd))) (Some (NewCTR united ticket)) 0 0)).
  assert (conn_in x spp = Some (spp, x')) as Hx.
  { unfold x, x', xor_conn. destruct (_ =? 2); [|done]. unfold conn_in, in_state. cbn [NewXorConn x_InSkip x_InHeader x_PeerCTR].
    rewrite xor_bytes_skip by lia. cbn. by rewrite Lp, Z.sub_diag. }
  assert (wf_in x) as Hwf by (unfold x, xor_conn; destruct (_ =? 2); [split; cbn; lia|done]).
  exists (set_PeerPadding None (set_PeerAEAD a3 (set_Conn x' (client_conn united a2 n)))). split.
  - intros w rest Hw. unfold read_random, client_conn. cbn [c_PeerAEAD bind3]. unfold read_padding. cbn [c_PeerPadding c_PeerAEAD].
    fold (client_conn united a2 n).
    destruct (c_ReadFull_spec (n - 18) (client_conn united a2 n) w spp rest spp x') as (chunks & -> & Hch); [done..|].
    exists chunks. cbn [bind3]. rewrite Op. done.
  - split_and!; try done; [by eexists|]. cbn. rewrite <- (match_mode _ _ Hm). unfold x', xor_conn. destruct (_ =? 2); cbn; [|done].
    split_and!; [done|split; cbn; lia|by eexists].
Qed.

End Fresh.

(** C33: A fresh handshake: however the steps of a client without a live ticket and of a server with matching keys
    interleave, both end, and end with connections in step in both directions. *)
Theorem vless_handshake_completes ci si cd sd aes cs ss :
  matching ci si -> length (cd_iv cd) = 16%nat -> length (sd_ticket sd) = 16%nat -> told_apart aes ->
  ci_Seconds ci <= 0 \/ cs_Expire cs <= cd_before cd ->
  exists cc sc cs' ss' pad n,
    let start := MkDuplex (Client_Handshake ci cd aes) cs (Server_Handshake si sd) ss [] [] in
    let final := MkDuplex (Done (Ok cc)) cs' (Done (Ok sc)) ss' [] pad in
    (forall m y, nsteps duplex_step m start y -> (m <= n)%nat /\ nsteps duplex_step (n - m) y final)
    /\ in_step cc sc /\ (exists cc', settles cc pad cc' /\ in_step sc cc').
Proof.
  intros Hm Hiv Ht Haes Hfresh.
  destruct (relays_agree (ci_XorMode ci) (cd_iv cd) (skeys si) (ckeys ci) (cd_relays cd) None (match_keys _ _ Hm) (match_nonempty _ _ Hm))
    as (relays & nfsKey & Hc & Hr & Hs).
  destruct (CreatePadding_ok (ci_PaddingLens ci) (ci_PaddingGaps ci) (cd_padding cd) (match_client_padding _ _ Hm))
    as (n & l & ls & gs & Hcp & Hsum & Hall & Hb).
  destruct (session_key cd sd) as (x & Hx & Hx').
  destruct (seal_padding_spec (sealed_exchange cd aes nfsKey).2 n ltac:(lia)) as (pl & pp & nfs3 & nfs4 & Hsp & Lpl & Lpp & Hk & Ol & Op).
  assert (zlen (pl ++ pp) = n) as Lpad by (rewrite zlen_app; lia).
  destruct (client_full_runs ci si cd sd aes Hm Hiv Ht relays nfsKey Hc cs [] n l ls (pl ++ pp) nfs4) as [m1 R1]; [lia|done..|].
  destruct (server_runs ci si cd sd aes Hm Hiv Ht Haes relays nfsKey Hc ss [] pl pp n (zeros (n - 34)) nfs3 nfs4 x) as
    (m2 & ex & et & spl & spp & n' & a1 & a2 & a3 & Hfl & R2); [done|lia|done..|].
  destruct (client_finish_runs ci si cd sd aes Hiv Ht nfsKey cs (sealed_exchange cd aes nfsKey).2 nfs4 x ex et spl spp _ a1 a2 a3 Hx' Hk Hfl) as [m3 R3].
  set (united := ((encapsulated cd sd).1 ++ x) ++ nfsKey) in *.
  assert (exists m0, runs m0 (Client_Handshake ci cd aes) cs [] [] (client_full ci cd aes relays nfsKey (nfs0 cd aes nfsKey) n (l :: ls)) cs []) as [m0 R0].
  { unfold Client_Handshake. destruct (ci_NfsPKeys ci) as [|p0 ps] eqn:Ep.
    { exfalso. pose proof (match_keys _ _ Hm) as Hf. unfold ckeys in Hf. rewrite Ep in Hf. inversion Hf as [Hn|]. by apply (match_nonempty _ _ Hm). }
    rewrite <- Ep, Hcp. fold (ckeys ci). rewrite Hc. cbn [on_ok]. destruct (Z.ltb_spec 0 (ci_Seconds ci)).
    - exists 1%nat. apply runs_atomic. rewrite (proj2 (Z.ltb_ge (cd_before cd) (cs_Expire cs))) by lia. constructor.
    - exists 0%nat. constructor. }
  exists (client_conn ci si cd sd aes united a2 n'), (server_conn si cd sd aes united a3), (client_after ci si cd sd ((encapsulated cd sd).1 ++ x) cs),
    (server_after si sd ((encapsulated cd sd).1 ++ x) ss), spp, (m0 + (m1 + (m2 + m3)))%nat.
  cbn zeta. split_and!.
  - intros m y Hy. eapply (every_run_ends duplex_step); [apply duplex_diamond| | |exact Hy].
    + eapply nsteps_trans; [apply (runs_1 _ _ _ _ _ _ _ _ _ _ _ R0)|]. cbn [app].
      eapply nsteps_trans; [apply (runs_1 _ _ _ _ _ _ _ _ _ _ _ R1)|]. cbn [app]. rewrite app_nil_r in R2.
      eapply nsteps_trans; [apply (runs_2 _ _ _ _ _ _ _ _ _ _ _ R2)|]. cbn [app].
      pose proof (runs_1 _ _ _ _ _ _ _ _ (Done (Ok (server_conn si cd sd aes united a3))) (server_after si sd ((encapsulated cd sd).1 ++ x) ss) [] R3) as H3.
      exact H3.
    + intros [z Hz]. inversion Hz as [? ? ? ? ? ? ? ? ? ? Hp|? ? ? ? ? ? ? ? ? ? Hp]; inversion Hp.
  - by apply fresh_up.
  - by eapply fresh_down.
Qed.

(** ** Resumption *)

Section Resumed.
Context (ci : ClientInstance) (si : ServerInstance) (cd : ClientDraws) (aes : bool) (cs : ClientSession).
Context (Hm : matching ci si) (Hiv : length (cd_iv cd) = 16%nat) (Haes : told_apart aes) (Hcs : length (cs_Ticket cs) = 16%nat).
Context (relays nfsKey : bytes).
Hypothesis Hclient : client_relays (ci_XorMode ci) (cd_iv cd) (ckeys ci) (cd_relays cd) None = Ok (relays, nfsKey).

Definition resumed_length : bytes * AEAD := AEAD_Seal (nfs0 cd aes nfsKey) None (EncodeLength 32) [].
Definition resumed_ticket : bytes * AEAD := AEAD_Seal resumed_length.2 None (cs_Ticket cs) [].
(** The hello that goes out with the first write. *)
Definition early_hello : bytes := (cd_iv cd ++ relays) ++ resumed_length.1 ++ resumed_ticket.1.
Definition early_conn : CommonConn :=
  MkConn (xor_conn (ci_XorMode ci) (NewXorConn (Some (NewCTR (cs_PfsKey cs ++ nfsKey) (cd_iv cd))) None (zlen early_hello) 16))
    aes true (cs_PfsKey cs ++ nfsKey) (Some early_hello) (Some (NewAEAD resumed_ticket.1 (cs_PfsKey cs ++ nfsKey) aes)) None None [].

Lemma client_resumes inp : 0 < ci_Seconds ci -> cd_before cd < cs_Expire cs ->
  runs 1 (Client_Handshake ci cd aes) cs inp [] (Done (Ok early_conn)) cs inp.
Proof.
  intros Hsec He. unfold Client_Handshake. destruct (ci_NfsPKeys ci) as [|p0 ps] eqn:Ep.
  { exfalso. pose proof (match_keys _ _ Hm) as Hf. unfold ckeys in Hf. rewrite Ep in Hf. inversion Hf as [Hn|]. by apply (match_nonempty _ _ Hm). }
  rewrite <- Ep. destruct (CreatePadding _ _ _) as [[n ls] gs]. fold (ckeys ci). rewrite Hclient. cbn [on_ok].
  rewrite (proj2 (Z.ltb_lt 0 (ci_Seconds ci))) by done. apply runs_atomic. rewrite (proj2 (Z.ltb_lt (cd_before cd) _)) by done.
  assert (client_resumed ci cd aes relays nfsKey (NewAEAD (cd_iv cd) nfsKey aes) cs = early_conn) as ->; [|constructor].
  unfold client_resumed, early_conn, early_hello, resumed_ticket, resumed_length. fold (nfs0 cd aes nfsKey).
  destruct (AEAD_Seal (nfs0 cd aes nfsKey) None (EncodeLength 32) []) as [l a1]. cbn [fst snd].
  by destruct (AEAD_Seal a1 None (cs_Ticket cs) []) as [t a2].
Qed.

(** The server up to the look for the session. *)
Definition server_lookup (sd : ServerDraws) (s : ServerState) : prog ServerState CommonConn :=
  match ss_Sessions s !! cs_Ticket cs with
  | None =>
      match List.find (fun noise => negb (is_ok (DecodeHeader noise))) (sd_noise sd) with
      | None => Done Diverge
      | Some noise => PWrite noise (fun _ => Done (Err (ENew "expired ticket")))
      end
  | Some session =>
      PAtomic (load_or_store session nfsKey) (fun s =>
        match ss_heap s !! session with
        | None => Done (Panic "nil pointer dereference")
        | Some o =>
            if bool_decide (nfsKey ∈ sv_NfsKeys o) then Done (Err (ENew "replay detected"))
            else
              let unitedKey := sv_PfsKey o ++ nfsKey in
              Done (Ok (MkConn (xor_conn (si_XorMode si) (NewXorConn (Some (NewCTR unitedKey (sd_random sd))) (Some (NewCTR unitedKey (cd_iv cd))) 16 0))
                aes false unitedKey (Some (sd_random sd)) (Some (NewAEAD (sd_random sd) unitedKey aes))
                (Some (NewAEAD resumed_ticket.1 unitedKey aes)) None []))
        end)
  end.
Lemma server_reads_early sd ss rest : 0 < si_SecondsFrom si \/ 0 < si_SecondsTo si ->
  runs 4 (Server_Handshake si sd) ss (early_hello ++ rest) [] (server_lookup sd ss) ss rest.
Proof.
  intros Hsec.
  destruct (relays_agree (ci_XorMode ci) (cd_iv cd) (skeys si) (ckeys ci) (cd_relays cd) None (match_keys _ _ Hm) (match_nonempty _ _ Hm))
    as (r & k & Hc & Hr & Hs). rewrite Hclient in Hc. injection Hc as <- <-. rewrite (match_mode _ _ Hm) in Hs.
  unfold Server_Handshake. destruct (si_NfsSKeys si) as [|s0 sks] eqn:Esk.
  { exfalso. apply (match_nonempty _ _ Hm). unfold skeys. by rewrite Esk. }
  rewrite <- Esk. fold (skeys si). unfold early_hello. rewrite <- !app_assoc. rewrite (app_assoc (cd_iv cd)). apply runs_read.
  { rewrite zlen_app, (match_server_length _ _ Hm). unfold zlen. rewrite Hiv, Hr. lia. }
  cbn [on_ok]. assert (take 16 (cd_iv cd ++ relays) = cd_iv cd /\ drop 16 (cd_iv cd ++ relays) = relays) as [-> ->].
  { rewrite <- Hiv. by rewrite take_app_length, drop_app_length. }
  rewrite Hs. cbn [on_ok]. apply runs_read; [unfold resumed_length; by rewrite zlen_Seal|]. cbn [on_ok].
  set (dispatch := server_dispatch si sd aes (cd_iv cd) nfsKey resumed_length.2 (EncodeLength 32)).
  match goal with |- runs _ ?prog _ _ _ _ _ _ => assert (prog = dispatch) as -> end.
  { unfold dispatch. by apply server_tells. }
  unfold dispatch, server_dispatch. rewrite <- (app_nil_r (EncodeLength _)), DecodeLength_Encode by lia. cbn [Z.eqb Pos.eqb].
  unfold server_resume. rewrite (proj2 (andb_false_iff _ _)) by (destruct Hsec; [left|right]; apply Z.eqb_neq; lia).
  apply runs_read; [unfold resumed_ticket; rewrite zlen_Seal; unfold zlen; by rewrite Hcs|]. cbn [on_ok].
  pose proof (Seal_Open resumed_length.2 None (cs_Ticket cs) []) as Ho. fold resumed_ticket in Ho. rewrite Ho. cbn [fst opened on_ok].
  apply runs_atomic. constructor.
Qed.

(** What it ends with. *)
Definition resumed_server (random : bytes) : CommonConn :=
  MkConn (xor_conn (si_XorMode si) (NewXorConn (Some (NewCTR (cs_PfsKey cs ++ nfsKey) random)) (Some (NewCTR (cs_PfsKey cs ++ nfsKey) (cd_iv cd))) 16 0))
    aes false (cs_PfsKey cs ++ nfsKey) (Some random) (Some (NewAEAD random (cs_PfsKey cs ++ nfsKey) aes))
    (Some (NewAEAD resumed_ticket.1 (cs_PfsKey cs ++ nfsKey) aes)) None [].
Lemma server_resumes sd ss rest i o : 0 < si_SecondsFrom si \/ 0 < si_SecondsTo si ->
  ss_Sessions ss !! cs_Ticket cs = Some i -> ss_heap ss !! i = Some o ->
  exists r, runs 5 (Server_Handshake si sd) ss (early_hello ++ rest) [] (Done r) (load_or_store i nfsKey ss) rest
    /\ (nfsKey ∈ sv_NfsKeys o -> r = Err (ENew "replay detected"))
    /\ (nfsKey ∉ sv_NfsKeys o -> sv_PfsKey o = cs_PfsKey cs -> r = Ok (resumed_server (sd_random sd))).
Proof.
  intros Hsec Hi Ho. pose proof (server_reads_early sd ss rest Hsec) as Hr. unfold server_lookup in Hr. rewrite Hi in Hr.
  eexists. split; [change 5%nat with (4 + 1)%nat; eapply runs_quiet; [exact Hr|]; apply runs_atomic; rewrite Ho|].
  - match goal with |- runs _ ?p _ _ _ _ _ _ => let r := constr:(match p with Done r => r | _ => Diverge end) in
      assert (p = Done r) as -> by (by case_bool_decide) end. constructor.
  - cbn. split.
    + intros H. by rewrite bool_decide_true by done.
    + intros H Hk. rewrite bool_decide_false by done. unfold resumed_server. by rewrite Hk.
Qed.

Lemma early_up random : exists x', conn_out (c_Conn early_conn) early_hello = Some (early_hello, x')
  /\ in_step (set_PreWrite None (set_Conn x' early_conn)) (resumed_server random).
Proof.
  exists (xor_conn (ci_XorMode ci) (NewXorConn (Some (NewCTR (cs_PfsKey cs ++ nfsKey) (cd_iv cd))) None 0 16)). split.
  - cbn [early_conn c_Conn]. unfold xor_conn. destruct (_ =? 2); [|done]. unfold conn_out, out_state. cbn [NewXorConn x_OutSkip x_OutHeader x_CTR].
    rewrite xor_bytes_skip by lia. cbn [mbind option_bind]. by rewrite Z.sub_diag.
  - split_and!; try done; [by eexists|]. cbn. rewrite (match_mode _ _ Hm). unfold xor_conn. destruct (_ =? 2); cbn; [|done].
    split_and!; [done|split; cbn; lia|by eexists].
Qed.
Lemma early_down random : length random = 16%nat -> exists y' c', conn_out (c_Conn (resumed_server random)) random = Some (random, y')
  /\ settles early_conn random c' /\ in_step (set_PreWrite None (set_Conn y' (resumed_server random))) c'.
Proof.
  intros Hl. set (united := cs_PfsKey cs ++ nfsKey). assert (zlen random = 16) as Hz by (unfold zlen; by rewrite Hl).
  set (x ctr skip := xor_conn (ci_XorMode ci) (NewXorConn (Some (NewCTR united (cd_iv cd))) ctr (zlen early_hello) skip)).
  exists (xor_conn (si_XorMode si) (NewXorConn (Some (NewCTR united random)) (Some (NewCTR united (cd_iv cd))) 0 0)),
    (set_Conn (x (Some (NewCTR united random)) 0) (set_PeerAEAD (NewAEAD random united aes) early_conn)). split_and!.
  - cbn [resumed_server c_Conn]. unfold xor_conn. destruct (_ =? 2); [|done]. unfold conn_out, out_state. cbn [NewXorConn x_OutSkip x_OutHeader x_CTR].
    rewrite xor_bytes_skip by lia. cbn [mbind option_bind]. by rewrite Hz.
  - intros w rest Hw. unfold read_random. cbn [early_conn c_PeerAEAD].
    assert (conn_in (c_Conn early_conn) random = Some (random, x None 0)) as Hx.
    { cbn [early_conn c_Conn]. unfold x, xor_conn. destruct (_ =? 2); [|done]. unfold conn_in, in_state. cbn [NewXorConn x_InSkip x_InHeader x_PeerCTR].
      rewrite xor_bytes_skip by lia. cbn [mbind option_bind]. by rewrite Hz. }
    destruct (c_ReadFull_spec 16 early_conn w random rest random (x None 0)) as (chunks & Hread & Hch); [|done..|].
    { cbn [early_conn c_Conn]. unfold xor_conn. destruct (_ =? 2); [split; cbn; lia|done]. }
    exists chunks. split; [|done]. rewrite Hread. cbn [bind3].
    unfold read_padding. cbn [c_PeerPadding c_PeerAEAD set_Conn set_PeerAEAD]. unfold x, xor_conn. by destruct (_ =? 2).
  - split_and!; try done; [by eexists|]. cbn. rewrite <- (match_mode _ _ Hm). unfold x, xor_conn. destruct (_ =? 2); cbn; [|done].
    split_and!; [done|split; cbn; lia|by eexists].
Qed.
End Resumed.

(** C32: A session is resumed once: the client goes on at once, the server takes the hello that
    comes with its first bytes, both are in step behind what they hold back, and the same
    hello sent again is refused. *)
Theorem vless_session_resumed_once ci si cd sd aes cs ss i o relays nfsKey :
  matching ci si -> length (cd_iv cd) = 16%nat -> told_apart aes -> length (cs_Ticket cs) = 16%nat -> length (sd_random sd) = 16%nat ->
  0 < ci_Seconds ci -> cd_before cd < cs_Expire cs -> 0 < si_SecondsFrom si \/ 0 < si_SecondsTo si ->
  ss_Sessions ss !! cs_Ticket cs = Some i -> ss_heap ss !! i = Some o -> sv_PfsKey o = cs_PfsKey cs ->
  client_relays (ci_XorMode ci) (cd_iv cd) (ckeys ci) (cd_relays cd) None = Ok (relays, nfsKey) -> nfsKey ∉ sv_NfsKeys o ->
  exists cc sc hello ss',
    runs 1 (Client_Handshake ci cd aes) cs [] [] (Done (Ok cc)) cs [] /\ c_PreWrite cc = Some hello /\ c_PreWrite sc = Some (sd_random sd)
    /\ (forall rest, runs 5 (Server_Handshake si sd) ss (hello ++ rest) [] (Done (Ok sc)) ss' rest)
    /\ (exists x, conn_out (c_Conn cc) hello = Some (hello, x) /\ in_step (set_PreWrite None (set_Conn x cc)) sc)
    /\ (exists y cc', conn_out (c_Conn sc) (sd_random sd) = Some (sd_random sd, y) /\ settles cc (sd_random sd) cc'
         /\ in_step (set_PreWrite None (set_Conn y sc)) cc')
    /\ (forall sd' rest, exists ss'', runs 5 (Server_Handshake si sd') ss' (hello ++ rest) [] (Done (Err (ENew "replay detected"))) ss'' rest).
Proof.
  intros Hm Hiv Haes Ht Hr Hsec He Hs Hi Ho Hk Hc Hn.
  exists (early_conn ci cd aes cs relays nfsKey), (resumed_server si cd aes cs nfsKey (sd_random sd)), (early_hello cd aes cs relays nfsKey), (load_or_store i nfsKey ss).
  split_and!; try done.
  - by eapply client_resumes.
  - intros rest. destruct (server_resumes ci si cd aes cs Hm Hiv Haes Ht relays nfsKey Hc sd ss rest i o Hs Hi Ho) as (r & Hrun & _ & Hok).
    by rewrite (Hok Hn Hk) in Hrun.
  - by apply early_up.
  - by apply early_down.
  - intros sd' rest.
    destruct (server_resumes ci si cd aes cs Hm Hiv Haes Ht relays nfsKey Hc sd' (load_or_store i nfsKey ss) rest i
      (MkSession (sv_PfsKey o) ({[nfsKey]} ∪ sv_NfsKeys o)) Hs) as (r & Hrun & Hrep & _); [done| |].
    { cbn. by rewrite list_lookup_alter_eq, Ho. }
    rewrite Hrep in Hrun by (cbn; set_solver). eauto.
Qed.

(** ** Instances made from keys *)

Lemma parse_entry_ok value e : parse_entry value = Ok e -> entry_ok e.
Proof.
  unfold parse_entry. destruct (Split _ value) as [|a [|b [|c [|]]]]; try done. destruct (_ || _ || _); [done|]. intros H. inv_ok.
  destruct (_ || _ || _) eqn:En; [done|]. simplify_eq. to_prop. unfold entry_ok. cbn. lia.
Qed.
Lemma entry_max_sum entries : Forall entry_ok entries -> 0 <= foldr Z.add 0 (entry_max <$> entries).
Proof. induction 1 as [|e l (Hx & Hy & Hz) Hl IH]; cbn; [lia|]. unfold entry_max at 1. lia. Qed.
Lemma parse_entries_total values index lens gaps maxLen lens' gaps' maxLen' :
  parse_entries index values lens gaps maxLen = Ok (lens', gaps', maxLen') -> exists more, lens' = lens ++ more /\ Forall entry_ok more.
Proof.
  revert index lens gaps maxLen. induction values as [|value values IH]; intros index lens gaps maxLen H; cbn [parse_entries] in H.
  - simplify_eq. exists []. by rewrite app_nil_r.
  - destruct (parse_entry value) as [[[x y] z]| | |] eqn:Ee; try done. cbn [obind] in H. apply parse_entry_ok in Ee.
    destruct (_ && _); [done|]. destruct (Z.even index); apply IH in H as (more & -> & Hf); [|by exists more].
    exists ((x, y, z) :: more). rewrite <- app_assoc. split; [done|by constructor].
Qed.
Lemma parse_entries_ok values index lens gaps maxLen lens' gaps' maxLen' : 0 <= index -> 0 <= maxLen ->
  parse_entries index values lens gaps maxLen = Ok (lens', gaps', maxLen') ->
  exists more, lens' = lens ++ more /\ Forall entry_ok more
    /\ (maxLen + foldr Z.add 0 (entry_max <$> more) < 2 ^ 63 -> maxLen' = maxLen + foldr Z.add 0 (entry_max <$> more))
    /\ (index = 0 -> values <> [] -> exists e more', more = e :: more' /\ 100 <= e.1.1 /\ 35 <= e.1.2 /\ 35 <= e.2).
Proof.
  revert index lens gaps maxLen. induction values as [|value values IH]; intros index lens gaps maxLen Hi Hm H; cbn [parse_entries] in H.
  - simplify_eq. exists []. rewrite app_nil_r. split_and!; [done|constructor|cbn; lia|done].
  - destruct (parse_entry value) as [[[x y] z]| | |] eqn:Ee; try done. cbn [obind] in H. apply parse_entry_ok in Ee as Hok. destruct Hok as (Hx & Hy & Hz). cbn in Hx, Hy, Hz.
    destruct ((index =? 0) && _) eqn:E0; [done|]. destruct (Z.even index) eqn:Ev.
    + assert (0 <= int64 (maxLen + Z.max y z) \/ 2 ^ 63 <= maxLen + Z.max y z) as Hw.
      { destruct (Z.lt_ge_cases (maxLen + Z.max y z) (2 ^ 63)); [left; rewrite int64_small; lia|by right]. }
      destruct Hw as [Hw|Hw].
      * destruct (IH (index + 1) _ _ _ (ltac:(lia)) Hw H) as (more & -> & Hf & Hs & _). exists ((x, y, z) :: more). rewrite <- app_assoc.
        split_and!; [done|by constructor| |].
        -- cbn [fmap list_fmap foldr]. intros Hlt. pose proof (entry_max_sum more Hf). unfold entry_max in Hlt at 1 |- * at 1. cbn [fst snd] in *.
           rewrite int64_small in Hs by lia. rewrite Hs by lia. lia.
        -- intros -> _. exists (x, y, z), more. cbn in *. to_prop. split_and!; [done|lia..].
      * destruct (parse_entries_total values (index + 1) (lens ++ [(x, y, z)]) gaps (int64 (maxLen + Z.max y z)) lens' gaps' maxLen' H) as (more & -> & Hf).
        exists ((x, y, z) :: more). rewrite <- app_assoc. split_and!; [done|by constructor| |].
        -- cbn [fmap list_fmap foldr]. intros Hlt. pose proof (entry_max_sum more Hf). unfold entry_max in Hlt at 1. cbn [fst snd] in *. lia.
        -- intros -> _. exists (x, y, z), more. cbn in *. to_prop. split_and!; [done|lia..].
    + destruct (IH (index + 1) _ _ _ (ltac:(lia)) Hm H) as (more & -> & Hf & Hs & _). exists more. split_and!; try done. intros ->. done.
Qed.

Lemma ParsePadding_ok padding lens gaps : ParsePadding padding = Ok (lens, gaps) ->
  foldr Z.add 0 (entry_max <$> lens) < 2 ^ 63 -> padding_ok lens.
Proof.
  unfold ParsePadding. case_bool_decide as Hp; [intros [= <- <-]; done|]. intros H Hlt. inv_ok. destruct (_ <? z) eqn:El; [done|]. simplify_eq.
  destruct (parse_entries_ok _ _ _ _ _ _ _ _ (Z.le_refl 0) (Z.le_refl 0) E) as (more & -> & Hf & Hs & Hfirst).
  destruct Hfirst as (e & more' & -> & H1 & H2 & H3); [done|by destruct padding as [|? ?]; [|cbn; repeat case_goal]|].
  cbn [app] in *. inversion Hf. split_and!; try done. rewrite <- (Z.add_0_l (foldr _ _ _)), <- Hs by lia. to_prop. lia.
Qed.

(** A client that has the public keys of a server. *)
Lemma keys_pair keys ks ps n : server_keys keys = Ok (ks, ps, n) ->
  exists cks, client_keys ps = Ok (cks, n) /\ Forall2 key_pair (zip (zip ks ps) (blake3_Sum256 <$> ps)) (zip (zip cks ps) (blake3_Sum256 <$> ps))
    /\ n = Z.of_nat (foldr (fun s m => share_length s.1.1 + 32 + m)%nat 0%nat (zip (zip ks ps) (blake3_Sum256 <$> ps)))
    /\ length ks = length keys /\ length ps = length keys.
Proof.
  revert ks ps n. induction keys as [|key keys IH]; intros ks ps n H; cbn [server_keys] in H.
  - simplify_eq. exists []. split_and!; done.
  - destruct (zlen key =? 32) eqn:E32; [|destruct (zlen key =? 64) eqn:E64; [|done]]; cbn [obind] in H;
      destruct (server_keys keys) as [[[ks0 ps0] n0]| | |] eqn:E; try done; cbn [obind] in H; simplify_eq;
      destruct (IH _ _ _ eq_refl) as (cks & Hc & Hf & Hn & L1 & L2); cbn [client_keys].
    + unfold zlen at 1. rewrite x25519_Public_length. cbn [Z.of_nat Z.eqb Pos.eqb Pos.of_succ_nat Pos.succ obind]. rewrite Hc. cbn [obind].
      eexists. split_and!; [done| |cbn [fmap list_fmap zip zip_with foldr fst share_length]; lia|cbn; congruence..].
      cbn [fmap list_fmap zip zip_with]. constructor; [|done]. split_and!; try done. apply blake3_Sum256_length.
    + rewrite (proj2 (Z.eqb_neq (zlen (mlkem_Public key)) 32)) by (unfold zlen; rewrite mlkem_Public_length; lia).
      rewrite mlkem_Public_valid. cbn [obind]. rewrite Hc. cbn [obind].
      eexists. split_and!; [done| |cbn [fmap list_fmap zip zip_with foldr fst share_length]; lia|cbn; congruence..].
      cbn [fmap list_fmap zip zip_with]. constructor; [|done]. split_and!; try done. apply blake3_Sum256_length.
Qed.

Lemma Init_matching keys mode from to padding si seconds padding' ci :
  Server_Init keys mode from to padding = Ok si -> Client_Init (si_NfsPKeysBytes si) mode seconds padding' = Ok ci ->
  padding_ok (ci_PaddingLens ci) -> padding_ok (si_PaddingLens si) -> matching ci si.
Proof.
  intros Hs Hc Hpc Hps. unfold Server_Init in Hs. destruct keys as [|key keys]; [done|]. destruct (2 <? mode) eqn:Emode; [done|].
  destruct (_ || _); [done|]. destruct (server_keys (key :: keys)) as [[[ks ps] n]| | |] eqn:Ek; try done. cbn [obind] in Hs.
  destruct (ParsePadding padding) as [[lens gaps]| | |]; try done. cbn [obind] in Hs. injection Hs as <-. cbn [si_NfsPKeysBytes] in Hc.
  destruct (keys_pair _ _ _ _ Ek) as (cks & Hck & Hf & Hn & L1 & L2).
  unfold Client_Init in Hc. destruct ps as [|p ps]; [done|]. rewrite Emode, Hck in Hc. cbn [obind] in Hc.
  destruct (ParsePadding padding') as [[lens' gaps']| | |]; try done. cbn [obind] in Hc. injection Hc as <-.
  set (pairs := zip (zip ks (p :: ps)) (blake3_Sum256 <$> p :: ps)) in *.
  assert (pairs <> []) as Hne by (unfold pairs; destruct ks; done).
  assert (n - 32 = Z.of_nat (relay_length pairs)) as Hl.
  { unfold relay_length. rewrite Hn. destruct pairs as [|s0 pairs']; [done|]. cbn [foldr]. pose proof (share_length_pos s0.1.1). lia. }
  constructor; done.
Qed.

End Agreement.

(** ** Witnesses *)

(** A server with a key of each kind, hidden headers and tickets of ten minutes. *)
Definition ex_server : ServerInstance :=
  match Server_Init [replicate 32 3; replicate 64 5] 2 600 0 "" with Ok si => si | _ => MkServer [] [] [] 0 0 0 0 [] [] end.
Definition ex_client : ClientInstance :=
  match Client_Init (si_NfsPKeysBytes ex_server) 2 1 "" with Ok ci => ci | _ => MkClient [] [] [] 0 0 0 [] [] end.
Definition ex_client_draws : ClientDraws := MkClientDraws (replicate 16 1) [replicate 32 4; [8]] [7; 400; 3; 1000; 80] [6] [7] 1000 1001.
Definition ex_server_draws : ServerDraws := MkServerDraws [11] [12] (replicate 16 9) [25] [1; 2; 99] 1000 (replicate 16 13) [].

Lemma ex_matching : matching ex_client ex_server.
Proof.
  apply (Init_matching [replicate 32 3; replicate 64 5] 2 600 0 "" ex_server 1 ""); vm_compute; done.
Qed.

Lemma vless_handshake_completes_witness :
  exists cc sc cs' ss' pad n,
    let start := MkDuplex (Client_Handshake ex_client ex_client_draws true) (MkClientSession 0 [] []) (Server_Handshake ex_server ex_server_draws) empty_state [] [] in
    let final := MkDuplex (Done (Ok cc)) cs' (Done (Ok sc)) ss' [] pad in
    (forall m y, nsteps duplex_step m start y -> (m <= n)%nat /\ nsteps duplex_step (n - m) y final)
    /\ in_step cc sc /\ (exists cc', settles cc pad cc' /\ in_step sc cc').
Proof.
  apply (vless_handshake_completes ex_client ex_server ex_client_draws ex_server_draws true (MkClientSession 0 [] []) empty_state ex_matching);
    [reflexivity|reflexivity|by left|right; cbn; lia].
Defined.

Definition ex_ticket : bytes := replicate 16 9.
Definition ex_session : ClientSession := MkClientSession 2000 [1; 2] ex_ticket.
Definition ex_state : ServerState := MkState ∅ [ex_ticket] {[ex_ticket := 0%nat]} [MkSession [1; 2] ∅].
Definition ex_relays : bytes * bytes :=
  match client_relays 2 (cd_iv ex_client_draws) (ckeys ex_client) (cd_relays ex_client_draws) None with Ok r => r | _ => ([], []) end.

Lemma vless_session_resumed_once_witness : exists cc hello ss',
  runs 1 (Client_Handshake ex_client ex_client_draws true) ex_session [] [] (Done (Ok cc)) ex_session [] /\ c_PreWrite cc = Some hello
  /\ exists ss'', runs 5 (Server_Handshake ex_server ex_server_draws) ss' (hello ++ []) [] (Done (Err (ENew "replay detected"))) ss'' [].
Proof.
  destruct (vless_session_resumed_once ex_client ex_server ex_client_draws ex_server_draws true ex_session ex_state 0 (MkSession [1; 2] ∅) ex_relays.1 ex_relays.2)
    as (cc & sc & hello & ss' & H1 & H2 & _ & _ & _ & _ & H3).
  - exact ex_matching.
  - reflexivity.
  - by left.
  - reflexivity.
  - reflexivity.
  - vm_compute. done.
  - cbn. lia.
  - left. vm_compute. done.
  - vm_compute. done.
  - vm_compute. done.
  - reflexivity.
  - vm_compute. reflexivity.
  - cbn. set_solver.
  - exists cc, hello, ss'. split_and!; [exact H1|exact H2|apply H3].
Defined.
