(* ===== verification/XraySessions.v ===== *)
(** * The lifetime of tickets

    protocol/vless/xrayencryption/server.go: the sessions of a server over the tickets it
    issues, the ticks of [expireSessions] and the connections that resume them, in the order
    of the clock.  A ticket can be used for as long as it says, and is gone after the tick of
    the minute it falls due; a tick that is missed is not made up for. *)

From S2P Require Import Prelude GoStd XrayConn XrayHandshake.
From Stdlib Require Import Sorted.
Local Open Scope Z_scope.

(** What happens to the state of a server, with the time. *)
Inductive session_event :=
| Issue (now : Z) (ticket pfsKey : bytes)
| Tick (now : Z)
| Use (now : Z) (session : nat) (nfsKey : bytes).
Definition event_time (e : session_event) : Z := match e with Issue now _ _ | Tick now | Use now _ _ => now end.

Section Sessions.
Context (si : ServerInstance).
Definition lifetime : Z := Z.max (si_SecondsFrom si) (si_SecondsTo si).
Context (Hlife : 0 <= lifetime).

Definition session_step (s : ServerState) (e : session_event) : ServerState :=
  match e with
  | Issue now ticket pfsKey => add_session si now ticket pfsKey s
  | Tick now => expire_tick now s
  | Use _ session nfsKey => load_or_store session nfsKey s
  end.
Definition after (es : list session_event) (s : ServerState) : ServerState := fold_left session_step es s.
(** The minute at which the ticket of a time falls due. *)
Definition due (now : Z) : Z := (now + lifetime) / 60 + 2.

Fixpoint in_time (clock : Z) (es : list session_event) : Prop :=
  match es with [] => True | e :: es' => clock <= event_time e /\ in_time (event_time e) es' end.
Definition clock_after (clock : Z) (es : list session_event) : Z := fold_left (fun _ e => event_time e) es clock.
Definition issued (es : list session_event) : list bytes :=
  concat ((fun e => match e with Issue _ ticket _ => [ticket] | _ => [] end) <$> es).

(** ** Dropping tickets *)

Lemma drop_tickets_spec last L sessions i : NoDup L -> L !! i = Some last ->
  exists sessions', drop_tickets last L sessions = (Some (drop (S i) L), sessions')
    /\ forall x, sessions' !! x = if bool_decide (x ∈ take (S i) L) then None else sessions !! x.
Proof.
  intros Hnd. revert i sessions. induction Hnd as [|t L Ht Hnd IH]; intros i sessions Hi; [done|]. cbn [drop_tickets].
  destruct i as [|i]; cbn in Hi.
  - injection Hi as <-. rewrite bool_decide_true by done. exists (delete t sessions). split; [done|]. intros x.
    cbn [take]. destruct (decide (x = t)) as [->|Hx]; [rewrite lookup_delete_eq, bool_decide_true by set_solver; done|].
    rewrite lookup_delete_ne, bool_decide_false by set_solver. done.
  - assert (t <> last) as Hne by (intros ->; by apply Ht, list_elem_of_lookup_2 with i).
    rewrite bool_decide_false by done. destruct (IH i (delete t sessions) Hi) as (sessions' & -> & Hs). exists sessions'. split; [done|].
    intros x. rewrite Hs. cbn [take]. destruct (decide (x = t)) as [->|Hx].
    + rewrite lookup_delete_eq, (bool_decide_true (t ∈ t :: _)) by set_solver. by case_bool_decide.
    + rewrite lookup_delete_ne by done. by rewrite (bool_decide_ext (x ∈ t :: take (S i) L) (x ∈ take (S i) L)) by set_solver.
Qed.

(** ** The invariant *)

(** The tickets that are live, with the minutes they fall due. *)
Record sessions_ok (G : list (bytes * Z)) (clock : Z) (s : ServerState) : Prop := {
  ok_tickets : ss_Tickets s = G.*1;
  ok_nodup : NoDup G.*1;
  ok_nonzero : Forall (fun e => e.1 <> zeros 16) G;
  ok_sorted : forall i j e e', (i <= j)%nat -> G !! i = Some e -> G !! j = Some e' -> e.2 <= e'.2;
  ok_bound : Forall (fun e => e.2 <= due clock) G;
  ok_sessions : forall t, is_Some (ss_Sessions s !! t) <-> t ∈ G.*1;
  ok_lasts : forall m t, clock / 60 <= m -> ss_Lasts s !! m = Some t ->
    exists i, G !! i = Some (t, m) /\ forall j e, (i < j)%nat -> G !! j = Some e -> m < e.2;
  ok_due : forall t d, (t, d) ∈ G -> clock / 60 <= d -> is_Some (ss_Lasts s !! d)
}.

Lemma due_mono a b : a <= b -> due a <= due b.
Proof. intros H. unfold due. pose proof (Z.div_le_mono (a + lifetime) (b + lifetime) 60). lia. Qed.
Lemma due_after now : now / 60 < due now.
Proof. unfold due. pose proof (Z.div_le_mono now (now + lifetime) 60). lia. Qed.

Lemma empty_ok clock : sessions_ok [] clock empty_state.
Proof. constructor; cbn; try done; try constructor; try set_solver. rewrite lookup_empty. by intros [? ?]. Qed.

Lemma issue_ok G clock s now t k : sessions_ok G clock s -> clock <= now -> t ∉ G.*1 -> t <> zeros 16 ->
  sessions_ok (G ++ [(t, due now)]) now (add_session si now t k s).
Proof.
  intros [Htk Hnd Hnz Hso Hbo Hse Hla Hdu] Hc Ht Hz. pose proof (due_mono clock now Hc) as Hd. pose proof (Z.div_le_mono clock now 60 ltac:(lia) Hc) as Hm.
  assert (forall i e, G !! i = Some e -> e.2 <= due now) as Hle.
  { intros i e He. rewrite Forall_forall in Hbo. specialize (Hbo e (list_elem_of_lookup_2 _ _ _ He)). cbn in Hbo. lia. }
  constructor; cbn [add_session ss_Tickets ss_Sessions ss_Lasts].
  - by rewrite fmap_app, Htk.
  - rewrite fmap_app. apply NoDup_app. split_and!; [done| |apply NoDup_singleton]. cbn. set_solver.
  - apply Forall_app. split; [done|by constructor].
  - intros i j e e' Hij Hi Hj. apply lookup_app_Some in Hi as [Hi|[Hli Hi]], Hj as [Hj|[Hlj Hj]].
    + by eapply Hso.
    + apply list_lookup_singleton_Some in Hj as [_ <-]. cbn. by eapply Hle.
    + apply lookup_lt_Some in Hj. apply list_lookup_singleton_Some in Hi as [Hi _]. lia.
    + apply list_lookup_singleton_Some in Hi as [_ <-], Hj as [_ <-]. done.
  - apply Forall_app. split; [|constructor; [cbn; lia|constructor]]. eapply Forall_impl; [exact Hbo|]. cbn. intros. lia.
  - intros x. rewrite fmap_app, elem_of_app. cbn. rewrite list_elem_of_singleton. destruct (decide (x = t)) as [->|Hx].
    + rewrite lookup_insert_eq. split; [by right|by eexists].
    + rewrite lookup_insert_ne by done. rewrite Hse. naive_solver.
  - intros m x Hmm. fold lifetime. change ((now + lifetime) / 60 + 2) with (due now). destruct (decide (m = due now)) as [->|Hne].
    + rewrite lookup_insert_eq. intros [= <-]. exists (length G). split; [by rewrite lookup_app_r, Nat.sub_diag by lia|].
      intros j e Hj He. apply lookup_lt_Some in He. rewrite length_app in He. cbn in He. lia.
    + rewrite lookup_insert_ne by done. intros Hx. destruct (Hla m x ltac:(lia) Hx) as (i & Hi & Hafter).
      exists i. split; [by apply lookup_app_l_Some|]. intros j e Hj He. apply lookup_app_Some in He as [He|[_ He]]; [by eapply Hafter|].
      apply list_lookup_singleton_Some in He as [_ <-]. cbn. specialize (Hle i _ Hi). cbn in Hle. lia.
  - intros x d Hx Hmd. fold lifetime. change ((now + lifetime) / 60 + 2) with (due now). destruct (decide (d = due now)) as [->|Hne]; [rewrite lookup_insert_eq; by eexists|].
    rewrite lookup_insert_ne by done. apply elem_of_app in Hx as [Hx|Hx]; [apply (Hdu x); [done|lia]|].
    apply list_elem_of_singleton in Hx. congruence.
Qed.

(** A tick drops the tickets up to the last that falls due, if there is one. *)
Lemma tick_ok G clock s now : sessions_ok G clock s -> clock <= now ->
  exists n, sessions_ok (drop n G) now (expire_tick now s)
    /\ (forall i e, G !! i = Some e -> (i < n)%nat -> e.2 <= now / 60) /\ (forall i e, G !! i = Some e -> e.2 = now / 60 -> (i < n)%nat).
Proof.
  intros [Htk Hnd Hnz Hso Hbo Hse Hla Hdu] Hc. pose proof (due_mono clock now Hc) as Hd. pose proof (Z.div_le_mono clock now 60 ltac:(lia) Hc) as Hm.
  unfold expire_tick. set (minute := now / 60) in *. destruct (ss_Lasts s !! minute) as [t|] eqn:El.
  - destruct (Hla minute t ltac:(lia) El) as (i & Hi & Hafter).
    assert (t <> zeros 16) as Hz by (rewrite Forall_forall in Hnz; apply (Hnz (t, minute)), (list_elem_of_lookup_2 _ _ _ Hi)).
    change (default (zeros 16) (Some t)) with t. rewrite bool_decide_false by done.
    destruct (drop_tickets_spec t (ss_Tickets s) (ss_Sessions s) i) as (sessions' & -> & Hs); [by rewrite Htk|rewrite Htk, list_lookup_fmap, Hi; done|].
    exists (S i). split_and!.
    + constructor; cbn [ss_Tickets ss_Sessions ss_Lasts default].
      * by rewrite Htk, fmap_drop.
      * rewrite fmap_drop. rewrite <- (take_drop (S i) G.*1) in Hnd. by apply NoDup_app in Hnd as (_ & _ & ?).
      * by apply Forall_drop.
      * intros a b e e' Hab Ha Hb. rewrite lookup_drop in Ha, Hb. eapply Hso; [|exact Ha|exact Hb]. lia.
      * apply Forall_drop. eapply Forall_impl; [exact Hbo|]. cbn. intros. lia.
      * intros x. rewrite Hs, Htk, fmap_drop. rewrite <- (take_drop (S i) G.*1) in Hnd. apply NoDup_app in Hnd as (_ & Hdisj & _).
        case_bool_decide as Hx; [split; [by intros [? ?]|intros Hx2; by edestruct Hdisj]|].
        rewrite Hse. rewrite <- (take_drop (S i) G.*1) at 1. rewrite elem_of_app. naive_solver.
      * intros m x Hmm Hx. rewrite lookup_delete_Some in Hx. destruct Hx as [_ Hx]. rewrite lookup_delete_Some in Hx. destruct Hx as [Hne Hx].
        destruct (Hla m x ltac:(lia) Hx) as (k & Hk & Hkafter).
        assert (i < k)%nat as Hik.
        { destruct (Nat.lt_trichotomy k i) as [H|[->|H]]; [|congruence|done]. specialize (Hkafter i _ H Hi). cbn in Hkafter. lia. }
        exists (k - S i)%nat. rewrite lookup_drop. replace (S i + (k - S i))%nat with k by lia. split; [done|].
        intros j e Hj He. rewrite lookup_drop in He. eapply Hkafter; [|exact He]. lia.
      * intros x d Hx Hdd. apply list_elem_of_lookup in Hx as [k Hk]. rewrite lookup_drop in Hk.
        assert (minute < d) as Hlt by (apply (Hafter (S i + k)%nat (x, d)); [lia|done]).
        rewrite !lookup_delete_ne by lia. eapply Hdu; [eapply list_elem_of_lookup_2; exact Hk|lia].
    + intros j e Hj Hlt. apply (Hso j i e (t, minute)); [lia|done|done].
    + intros j e Hj He. destruct (Nat.lt_ge_cases i j) as [Hij|]; [|lia]. specialize (Hafter j e Hij Hj). lia.
  - change (default (zeros 16) None) with (zeros 16). rewrite bool_decide_true by done.
    assert (forall x d, (x, d) ∈ G -> d <> minute) as Hno.
    { intros x d Hx ->. destruct (Hdu x minute Hx ltac:(lia)) as [? ?]. congruence. }
    exists 0%nat. rewrite drop_0. split_and!.
    + constructor; cbn [ss_Tickets ss_Sessions ss_Lasts]; try done.
      * eapply Forall_impl; [exact Hbo|]. cbn. intros. lia.
      * intros m x Hmm Hx. rewrite !lookup_delete_Some in Hx. destruct Hx as (_ & _ & Hx). apply Hla; [lia|done].
      * intros x d Hx Hdd. specialize (Hno x d Hx). rewrite !lookup_delete_ne by lia. eapply Hdu; [done|lia].
    + intros; lia.
    + intros j [x d] Hj He. exfalso. cbn in He. eapply Hno; [eapply list_elem_of_lookup_2; exact Hj|done].
Qed.

Lemma use_ok G clock s now i k : sessions_ok G clock s -> clock <= now -> sessions_ok G now (load_or_store i k s).
Proof.
  intros [Htk Hnd Hnz Hso Hbo Hse Hla Hdu] Hc. pose proof (due_mono clock now Hc). pose proof (Z.div_le_mono clock now 60 ltac:(lia) Hc) as Hm.
  constructor; cbn; try done.
  - eapply Forall_impl; [exact Hbo|]. cbn. intros. lia.
  - intros m x Hmm. apply Hla. lia.
  - intros x d Hx Hd. eapply Hdu; [done|lia].
Qed.

(** ** Runs *)

Lemma in_time_after clock es e : in_time clock es -> e ∈ es -> clock <= event_time e.
Proof.
  revert clock. induction es as [|e' es IH]; intros clock Ht He; [by apply not_elem_of_nil in He|]. destruct Ht as [Hc Ht].
  apply elem_of_cons in He as [->|He]; [done|]. specialize (IH _ Ht He). lia.
Qed.
Lemma in_time_app clock es es' : in_time clock (es ++ es') -> in_time clock es /\ in_time (clock_after clock es) es'.
Proof. revert clock. induction es as [|e es IH]; intros clock H; [done|]. destruct H as [H1 H2]. destruct (IH _ H2). done. Qed.
Lemma issued_app es es' : issued (es ++ es') = issued es ++ issued es'.
Proof. unfold issued. by rewrite fmap_app, concat_app. Qed.
Lemma after_app es es' s : after (es ++ es') s = after es' (after es s).
Proof. apply fold_left_app. Qed.

Definition fresh_tickets (es : list session_event) : Prop := NoDup (issued es) /\ Forall (fun t => t <> zeros 16) (issued es).
(** Over events whose tickets are new: what stays and what goes. *)
Lemma events_ok es G clock s : sessions_ok G clock s -> in_time clock es -> fresh_tickets es -> (forall t, t ∈ issued es -> t ∉ G.*1) ->
  exists G', sessions_ok G' (clock_after clock es) (after es s)
    /\ (forall t d, (t, d) ∈ G -> (forall now, Tick now ∈ es -> now / 60 < d) -> (t, d) ∈ G')
    /\ (forall t d, (t, d) ∈ G -> (exists now, Tick now ∈ es /\ now / 60 = d) -> t ∉ G'.*1)
    /\ (forall t, t ∉ G.*1 -> t ∉ issued es -> t ∉ G'.*1).
Proof.
  revert G clock s. induction es as [|e es IH]; intros G clock s Hok Ht Hf Hnew; cbn [in_time] in Ht.
  { exists G. split_and!; try done. intros t d _ (? & H & _). by apply not_elem_of_nil in H. }
  destruct Ht as [Hc Ht]. destruct Hf as [Hnd Hnz].
  assert (exists G1, sessions_ok G1 (event_time e) (session_step s e)
    /\ (forall t d, (t, d) ∈ G -> (forall now, e = Tick now -> now / 60 < d) -> (t, d) ∈ G1)
    /\ (forall t d, (t, d) ∈ G -> (exists now, e = Tick now /\ now / 60 = d) -> t ∉ G1.*1)
    /\ (forall t, t ∉ G.*1 -> t ∉ issued [e] -> t ∉ G1.*1) /\ (forall t, t ∈ issued es -> t ∉ G1.*1)) as (G1 & Hok1 & Hstay1 & Hgo1 & Hnot1 & Hnew1).
  { destruct e as [now t k|now|now i k]; cbn [event_time session_step] in *.
    - change (issued (Issue now t k :: es)) with (t :: issued es) in *. apply NoDup_cons in Hnd as [Hn Hnd]. apply Forall_cons in Hnz as [Hz Hnz].
      exists (G ++ [(t, due now)]). split_and!.
      + apply (issue_ok G clock); try done. apply Hnew. set_solver.
      + intros. set_solver.
      + intros x d _ (? & ? & _). done.
      + intros x Hx Hx'. rewrite fmap_app. cbn in *. set_solver.
      + intros x Hx. rewrite fmap_app. specialize (Hnew x). cbn. set_solver.
    - destruct (tick_ok G clock s now Hok Hc) as (n & Hok1 & Hle & Hgt). exists (drop n G). split_and!; [done|..].
      + intros t d Hin Hlt. specialize (Hlt now eq_refl). apply list_elem_of_lookup in Hin as [j Hj]. destruct (Nat.lt_ge_cases j n) as [Hjn|Hjn].
        * specialize (Hle j _ Hj Hjn). cbn in Hle. lia.
        * apply (list_elem_of_lookup_2 _ (j - n)). rewrite lookup_drop. by replace (n + (j - n))%nat with j by lia.
      + intros t d Hin (? & [= <-] & Hd) Hx. apply list_elem_of_lookup in Hin as [j Hj]. specialize (Hgt j _ Hj (eq_sym Hd)).
        rewrite fmap_drop in Hx. apply list_elem_of_lookup in Hx as [k Hk]. rewrite lookup_drop in Hk.
        pose proof (ok_nodup _ _ _ Hok) as Hnd'. rewrite NoDup_alt in Hnd'.
        assert (j = n + k)%nat as Ejk by (eapply Hnd'; [by rewrite list_lookup_fmap, Hj|done]). lia.
      + intros t Htn _ Hx. rewrite fmap_drop in Hx. apply Htn. rewrite <- (take_drop n G.*1). set_solver.
      + intros t Hin Hx. apply (Hnew t); [done|]. rewrite fmap_drop in Hx. rewrite <- (take_drop n G.*1). set_solver.
    - exists G. split_and!; try done; [by apply (use_ok G clock)|]. intros t d _ (? & ? & _). done. }
  assert (fresh_tickets es) as Hf'.
  { unfold fresh_tickets. destruct e as [now t k|now|now i k]; cbn in Hnd, Hnz; [apply NoDup_cons in Hnd as [_ ?]; apply Forall_cons in Hnz as [_ ?]|..]; done. }
  destruct (IH G1 (event_time e) (session_step s e) Hok1 Ht Hf' Hnew1) as (G' & Hok' & Hstay & Hgo & Hnot).
  exists G'. split_and!; [done|..].
  - intros t d Hin Hlt. apply Hstay; [apply Hstay1; [done|]; intros now ->; apply Hlt; set_solver|]. intros now Hn. apply Hlt. set_solver.
  - intros t d Hin (now & Hn & Hd). destruct (decide (t ∈ G1.*1)) as [Hin1|Hout1].
    + apply elem_of_cons in Hn as [He|Hn]; [exfalso; eapply Hgo1; [exact Hin| |exact Hin1]; by exists now|].
      eapply Hgo; [apply Hstay1; [exact Hin|]|by exists now]. intros now' ->. pose proof (in_time_after _ _ _ Ht Hn) as Hle. cbn in Hle.
      pose proof (Z.div_le_mono now' now 60 ltac:(lia) Hle). destruct (decide (now' / 60 = d)); [|lia].
      exfalso. eapply Hgo1; [exact Hin| |exact Hin1]. by exists now'.
    + apply Hnot; [done|]. intros Hiss. apply (Hnew t); [|by apply (list_elem_of_fmap_2 fst) in Hin].
      unfold issued in *. cbn. set_solver.
  - intros t Htn Hiss. destruct e as [now x k|now|now i k].
    + change (issued (Issue now x k :: es)) with (x :: issued es) in Hiss. apply Hnot; [apply Hnot1; [done|]; cbn; set_solver|set_solver].
    + apply Hnot; [by apply Hnot1; [|cbn; set_solver]|done].
    + apply Hnot; [by apply Hnot1; [|cbn; set_solver]|done].
Qed.

(** ** The key of a session *)

(** A ticket stands for a session of the key. *)
Definition session_of (ticket pfsKey : bytes) (s : ServerState) : Prop :=
  exists n o, ss_Sessions s !! ticket = Some n /\ ss_heap s !! n = Some o /\ sv_PfsKey o = pfsKey.

Lemma drop_tickets_only last L sessions x : (drop_tickets last L sessions).2 !! x = None \/ (drop_tickets last L sessions).2 !! x = sessions !! x.
Proof.
  revert sessions. induction L as [|t L IH]; intros sessions; cbn [drop_tickets]; [by right|].
  assert (delete t sessions !! x = None \/ delete t sessions !! x = sessions !! x) as Hd.
  { destruct (decide (x = t)) as [->|]; [left; by rewrite lookup_delete_eq|right; by rewrite lookup_delete_ne]. }
  case_bool_decide; [done|]. destruct (IH (delete t sessions)) as [?|He]; [by left|]. rewrite He. done.
Qed.
Lemma session_step_kept T k e s : session_of T k s -> T ∉ issued [e] ->
  ss_Sessions (session_step s e) !! T = None \/ session_of T k (session_step s e).
Proof.
  intros (n & o & Hn & Ho & Hk) Hnot. destruct e as [now t k'|now|now i nfs]; cbn [session_step].
  - right. exists n, o. cbn in Hnot. cbn [add_session ss_Sessions ss_heap]. rewrite lookup_insert_ne by set_solver.
    split_and!; [done|by apply lookup_app_l_Some|done].
  - unfold expire_tick. case_bool_decide; [right; by exists n, o|].
    pose proof (drop_tickets_only (default (zeros 16) (ss_Lasts s !! (now / 60))) (ss_Tickets s) (ss_Sessions s) T) as Hd.
    destruct drop_tickets as [tk se]. cbn in *. destruct Hd as [?|Hd]; [by left|right]. exists n, o. cbn. by rewrite Hd.
  - right. destruct (decide (i = n)) as [->|Hi].
    + eexists n, _. cbn [load_or_store ss_Sessions ss_heap]. rewrite list_lookup_alter_eq, Ho. cbn. split_and!; [done|done|done].
    + exists n, o. cbn [load_or_store ss_Sessions ss_heap]. rewrite list_lookup_alter_ne by done. done.
Qed.
Lemma step_none_kept T e s : ss_Sessions s !! T = None -> T ∉ issued [e] -> ss_Sessions (session_step s e) !! T = None.
Proof.
  intros Hn Hnot. destruct e as [now t k'|now|now i nfs]; cbn [session_step]; [|unfold expire_tick|done].
  - cbn in Hnot. cbn. by rewrite lookup_insert_ne by set_solver.
  - case_bool_decide; [done|]. pose proof (drop_tickets_only (default (zeros 16) (ss_Lasts s !! (now / 60))) (ss_Tickets s) (ss_Sessions s) T) as Hd.
    destruct drop_tickets as [tk se]. cbn in *. destruct Hd as [?|Hd]; congruence.
Qed.
Lemma session_kept T k es s : session_of T k s \/ ss_Sessions s !! T = None -> T ∉ issued es -> session_of T k (after es s) \/ ss_Sessions (after es s) !! T = None.
Proof.
  revert s. induction es as [|e es IH]; intros s Hs Hnot; [done|]. assert ((T ∉ issued [e]) /\ (T ∉ issued es)) as [H1 H2].
  { unfold issued in *. cbn in *. set_solver. }
  cbn [after fold_left]. apply IH; [|done]. destruct Hs as [Hs|Hs]; [|right; by apply step_none_kept].
  destruct (session_step_kept T k e s Hs H1); [by right|by left].
Qed.

(** ** Tickets live as long as they say *)

Lemma tickets_lifetime es1 es2 clock now T k : let es := es1 ++ Issue now T k :: es2 in
  in_time clock es -> fresh_tickets es ->
  let s := after es empty_state in
  ((forall now', Tick now' ∈ es2 -> now' / 60 < due now) -> session_of T k s)
  /\ ((exists now', Tick now' ∈ es2 /\ now' / 60 = due now) -> ss_Sessions s !! T = None).
Proof.
  intros es Ht [Hnd Hnz] s. subst es s. apply in_time_app in Ht as [Ht1 [Hc Ht2]]. cbn [event_time] in *. rewrite after_app.
  rewrite issued_app in Hnd, Hnz. change (issued (Issue now T k :: es2)) with (T :: issued es2) in *.
  apply NoDup_app in Hnd as (Hn1 & Hdisj & Hn2). apply Forall_app in Hnz as [Hz1 Hz2]. apply NoDup_cons in Hn2 as [HT Hn2]. apply Forall_cons in Hz2 as [HzT Hz2].
  destruct (events_ok es1 [] clock empty_state (empty_ok clock) Ht1 (conj Hn1 Hz1)) as (G1 & Hok1 & _ & _ & Hnew1); [set_solver|].
  assert (forall t, t ∈ T :: issued es2 -> t ∉ G1.*1) as Hfr by (intros t Hin; apply Hnew1; [apply not_elem_of_nil|]; intros Hin1; by apply (Hdisj t)).
  pose proof (issue_ok G1 _ _ now T k Hok1 Hc (Hfr T ltac:(set_solver)) HzT) as Hok2. set (s1 := add_session si now T k (after es1 empty_state)) in *.
  destruct (events_ok es2 _ now s1 Hok2 Ht2 (conj Hn2 Hz2)) as (G2 & Hok & Hstay & Hgo & _).
  { intros t Hin. rewrite fmap_app. specialize (Hfr t). cbn. set_solver. }
  cbn [after fold_left session_step]. fold s1. change (fold_left session_step es2 s1) with (after es2 s1). split.
  - intros Hlt. assert (session_of T k s1) as Hs.
    { exists (length (ss_heap (after es1 empty_state))), (MkSession k ∅). unfold s1. cbn [add_session ss_Sessions ss_heap].
      rewrite lookup_insert_eq, lookup_app_r, Nat.sub_diag by lia. done. }
    destruct (session_kept T k es2 s1 (or_introl Hs) HT) as [|Hnone]; [done|exfalso].
    assert (is_Some (ss_Sessions (after es2 s1) !! T)) as [? ?]; [|congruence]. apply (ok_sessions _ _ _ Hok).
    apply (list_elem_of_fmap_2 fst _ (T, due now)), Hstay; [set_solver|done].
  - intros Hex. destruct (ss_Sessions (after es2 s1) !! T) as [n|] eqn:E; [exfalso|done].
    eapply (Hgo T (due now)); [set_solver|done|]. apply (ok_sessions _ _ _ Hok). by eexists.
Qed.

End Sessions.

(** A server that was made has a lifetime. *)
Lemma Server_Init_lifetime {C : XrayCrypto} keys mode from to padding si : Server_Init keys mode from to padding = Ok si -> 0 <= lifetime si.
Proof.
  unfold Server_Init. destruct keys as [|key keys]; [done|]. destruct (2 <? mode); [done|]. destruct (_ || _) eqn:E; [done|]. intros H. inv_ok.
  to_prop. unfold lifetime. cbn. lia.
Qed.

(** C26: A ticket that is new stands for its session, of the key it was issued for, over any
    number of other tickets, connections and ticks until the minute it falls due, which is
    between one and two minutes after the longest lifetime; a tick in that minute drops it. *)
Theorem vless_tickets_live_as_stated si es1 es2 clock now T k : let es := es1 ++ Issue now T k :: es2 in
  0 <= lifetime si -> in_time clock es -> fresh_tickets es ->
  now + lifetime si + 60 < 60 * due si now <= now + lifetime si + 120
  /\ ((forall now', Tick now' ∈ es2 -> now' / 60 < due si now) -> session_of T k (after si es empty_state))
  /\ ((exists now', Tick now' ∈ es2 /\ now' / 60 = due si now) -> ss_Sessions (after si es empty_state) !! T = None).
Proof.
  intros es Hl Ht Hf. split; [|by apply (tickets_lifetime si Hl es1 es2 clock)].
  unfold due. pose proof (Z.div_mod (now + lifetime si) 60 ltac:(lia)). pose proof (Z.mod_pos_bound (now + lifetime si) 60 ltac:(lia)). lia.
Qed.

Definition ex_tickets : ServerInstance := MkServer [] [] [] 0 0 300 600 [] [].
Definition ex_issue (now n : Z) : session_event := Issue now (replicate 16 n) [n].
Definition ex_before : list session_event := [ex_issue 5 1; Tick 60; ex_issue 70 2].
Definition ex_after : list session_event := [ex_issue 100 4; Use 110 0 [7]; Tick 120; Tick 660; Tick 720].

Lemma vless_tickets_live_as_stated_witness :
  session_of (replicate 16 3) [3] (after ex_tickets (ex_before ++ ex_issue 90 3 :: ex_after) empty_state)
  /\ ss_Sessions (after ex_tickets (ex_before ++ ex_issue 90 3 :: (ex_after ++ [Tick 785])) empty_state) !! replicate 16 3 = None.
Proof.
  split.
  - eapply (vless_tickets_live_as_stated ex_tickets ex_before ex_after 0 90); [vm_compute; done|vm_compute; intuition done| |].
    + split; [apply (bool_decide_unpack _); vm_compute; done|apply (bool_decide_unpack _); vm_compute; done].
    + intros now' Hin. change (due ex_tickets 90) with 13. unfold ex_after, ex_issue in Hin.
      repeat (apply elem_of_cons in Hin as [He|Hin]; [simplify_eq; vm_compute; done|]). by apply not_elem_of_nil in Hin.
  - eapply (vless_tickets_live_as_stated ex_tickets ex_before (ex_after ++ [Tick 785]) 0 90); [vm_compute; done|vm_compute; intuition done| |].
    + split; [apply (bool_decide_unpack _); vm_compute; done|apply (bool_decide_unpack _); vm_compute; done].
    + exists 785. split; [set_solver|reflexivity].
Defined.

(** A minute in which no tick comes is not made up for: the tickets that fall due in it stay
    until others fall due, however long that takes. *)
Example missed_minute_keeps_ticket :
  is_Some (ss_Sessions (after ex_tickets [ex_issue 90 3; Tick 719; Tick 840; Tick 900; Tick 100000] empty_state) !! replicate 16 3).
Proof. vm_compute. by eexists. Qed.
