(* ===== verification/PlainManagers.v ===== *)
(** * Inbound and certificate provider managers

    adapter/inbound/manager.go and adapter/certificate/manager.go: registries without
    dependencies.  Both have the operations of [plain_...] below, with their own words in
    messages; objects and calls are those of Managers.  An inbound and a certificate provider
    have a [Close] method. *)

From S2P Require Import Prelude GoStd Managers ManagersSpec.
From coqutil Require Import Datatypes.RecordSetters.
Import DoubleBraceUpdate.
Local Open Scope Z_scope.

Record PlainManager := MkPlain {
  pm_started : bool;
  pm_stage : Z;
  items : list Outbound;
  itemByTag : gmap string Outbound
}.
Definition NewPlain : PlainManager := MkPlain false 0 [] ∅.

Section Plain.
Variable result : list call -> option error.
(** What messages call the objects, and the message of the panic. *)
Variables kind index_panic : string.
Implicit Types (m : PlainManager) (l : list call) (o : Outbound).

Definition plain_Start (s : StartStage) m l : outcome unit * PlainManager * list call :=
  if pm_started m && (stage_index s <=? pm_stage m) then (Panic "already started", m, l)
  else
    let m := m {{ pm_started := true; pm_stage := stage_index s }} in
    let '(e, l) := start_each result kind (items m) s l in (of_error e, m, l).

(** The errors of the objects, each with its name. *)
Fixpoint close_all (os : list Outbound) (errs : list error) l : list error * list call :=
  match os with
  | [] => (errs, l)
  | o :: os' =>
      let '(e, l) := invoke result (CallClose o) l in
      close_all os' (errs ++ match e with Some e => [named_error "close" kind e o] | None => [] end) l
  end.
Definition plain_Close m l : list error * PlainManager * list call :=
  if negb (pm_started m) then ([], m, l)
  else let '(errs, l) := close_all (items m) [] l in (errs, m {{ pm_started := false; items := [] }}, l).

Definition plain_Remove (tag : string) m l : outcome unit * PlainManager * list call :=
  match itemByTag m !! tag with
  | None => (Err ErrInvalid, m, l)
  | Some o =>
      let m := m {{ itemByTag ::= delete tag }} in
      match remove_object o (items m) with
      | None => (Panic index_panic, m, l)
      | Some os =>
          let m := m {{ items := os }} in
          if pm_started m then let '(e, l) := invoke result (CallClose o) l in (of_error e, m, l) else (Ok tt, m, l)
      end
  end.

(** [Create] with what the registry of types returned for the options. *)
Definition plain_Create (tag : string) (created : outcome Outbound) m l : outcome unit * PlainManager * list call :=
  match created with
  | Err e => (Err e, m, l)
  | Panic s => (Panic s, m, l)
  | Diverge => (Diverge, m, l)
  | Ok o =>
      let '(e, l) := if pm_started m then start_stages result kind o ListStartStages l else (None, l) in
      match e with
      | Some e => (Err e, m, l)
      | None =>
          match itemByTag m !! tag with
          | None => (Ok tt, m {{ items ::= fun os => os ++ [o]; itemByTag ::= <[tag := o]> }}, l)
          | Some exists_ =>
              let '(e, l) := if pm_started m then invoke result (CallClose exists_) l else (None, l) in
              match e with
              | Some e => (Err (named_error "close" kind e exists_), m, l)
              | None =>
                  match remove_object exists_ (items m) with
                  | None => (Panic index_panic, m, l)
                  | Some os => (Ok tt, m {{ items := os ++ [o]; itemByTag ::= <[tag := o]> }}, l)
                  end
              end
          end
      end
  end.

End Plain.

(** ** Inbounds *)

Definition Inbound_Start (result : list call -> option error) := plain_Start result "inbound".
(** The errors are dropped. *)
Definition Inbound_Close (result : list call -> option error) (m : PlainManager) (l : list call) : outcome unit * PlainManager * list call :=
  let '(_, m, l) := plain_Close result "inbound" m l in (Ok tt, m, l).
Definition Inbound_Remove (result : list call -> option error) := plain_Remove result "invalid inbound index".
Definition Inbound_Create (result : list call -> option error) := plain_Create result "inbound" "invalid inbound index".
(** An endpoint is an inbound too. *)
Definition Inbound_Get (ep : EndpointManager) (m : PlainManager) (tag : string) : option Outbound :=
  match itemByTag m !! tag with Some o => Some o | None => endpointByTag ep !! tag end.

(** ** Certificate providers *)

Definition Certificate_Start (result : list call -> option error) := plain_Start result "certificate-provider".
Definition Certificate_Close (result : list call -> option error) := plain_Close result "certificate-provider".
Definition Certificate_Remove (result : list call -> option error) := plain_Remove result "invalid certificate provider index".
Definition Certificate_Create (result : list call -> option error) :=
  plain_Create result "certificate-provider" "invalid certificate provider index".
Definition Certificate_Get (m : PlainManager) (tag : string) : option Outbound := itemByTag m !! tag.

(** ** Correctness *)

Section Registry.
Variable result : list call -> option error.
Variables kind index_panic : string.
Implicit Types (m : PlainManager) (l : list call) (o : Outbound).

(** List and map hold the same objects, each under its tag. *)
Definition items_ok m : Prop :=
  NoDup (o_id <$> items m) /\ (forall t o, itemByTag m !! t = Some o <-> o ∈ items m /\ o_Tag o = t).

Inductive plain_op := PCreate (o : Outbound) | PRemove (tag : string) | PStart (s : StartStage).
Definition plain_exec (x : plain_op) m l : outcome unit * PlainManager * list call :=
  match x with
  | PCreate o => plain_Create result kind index_panic (o_Tag o) (Ok o) m l
  | PRemove tag => plain_Remove result index_panic tag m l
  | PStart s => plain_Start result kind s m l
  end.

(** The abstract registry is a finite map: an operation that succeeds, or that has only a
    failing close to report, acts on it as an insertion or a deletion. *)
Definition plain_spec (x : plain_op) (r : outcome unit) (g : gmap string Outbound) : gmap string Outbound :=
  match x, r with
  | PCreate o, Ok _ => <[o_Tag o := o]> g
  | PRemove tag, _ => delete tag g
  | _, _ => g
  end.

(** The managers of inbounds and certificate providers implement a map from tags: every
    operation keeps list and map in agreement and acts on the map as specified; the index
    lookups never fail. *)
Theorem plain_manager_refines_map x m l r m' l' :
  items_ok m -> (forall o, x = PCreate o -> o_id o ∉ o_id <$> items m) -> index_panic <> "already started" ->
  plain_exec x m l = (r, m', l') ->
  items_ok m' /\ itemByTag m' = plain_spec x r (itemByTag m) /\ r <> Panic index_panic.
Proof.
  intros Hok Hfresh Hpan. pose proof Hok as [Hnd Hmap]. destruct x as [o|tag|s]; cbn [plain_exec plain_spec].
  - specialize (Hfresh o eq_refl). unfold plain_Create.
    destruct (if pm_started m then start_stages result kind o ListStartStages l else (None, l)) as [er l1].
    destruct er as [e|]; [intros [= <- <- <-]; by split_and!|].
    destruct (itemByTag m !! o_Tag o) as [x|] eqn:E.
    + destruct (if pm_started m then invoke result (CallClose x) l1 else (None, l1)) as [er l2].
    destruct er as [e|]; [intros [= <- <- <-]; by split_and!|].
      apply Hmap in E as [Hx Ht]. destruct (registry_take _ _ x Hnd Hmap Hx) as (os & -> & Hnd' & Hel & Hmap'). rewrite Ht in Hmap'.
      assert (Hf : o_id o ∉ o_id <$> os).
      { intros (y & Hy & Hin)%list_elem_of_fmap. apply Hfresh, list_elem_of_fmap. exists y. split; [done|]. by apply Hel. }
      destruct (registry_add os _ o Hnd' Hf Hmap'). intros [[<- <-]%pair_equal_spec <-]%pair_equal_spec. destruct m. by cbn.
    + destruct (registry_add (items m) (itemByTag m) o Hnd Hfresh) as [H1 H2]; [by rewrite delete_id|].
      intros [[<- <-]%pair_equal_spec <-]%pair_equal_spec. by destruct m.
  - unfold plain_Remove. destruct (itemByTag m !! tag) as [o|] eqn:E; [|intros [= <- <- <-]; by rewrite delete_id].
    apply Hmap in E as [Hin Ht]. destruct (registry_take _ _ o Hnd Hmap Hin) as (os & Hr & Hnd' & _ & Hmap'). rewrite Ht in Hmap'. cbv zeta.
    replace (items (m {{ itemByTag ::= delete tag }})) with (items m) by (by destruct m). rewrite Hr.
    destruct (pm_started _); [destruct (invoke _ _ _) as [[e|] l1]|]; intros [[<- <-]%pair_equal_spec <-]%pair_equal_spec; by destruct m.
  - unfold plain_Start. destruct (pm_started m && _); [intros [= <- <- <-]; split_and!; [done|done|congruence]|].
    destruct (start_each _ _ _ _ _) as [[e|] l1]; intros [[<- <-]%pair_equal_spec <-]%pair_equal_spec; by destruct m.
Qed.

End Registry.

(** ** After [Close] *)

(** [Close] closes every object once, in order, and empties the list. *)
Lemma close_all_log result kind os errs l :
  (close_all result kind os errs l).2 = l ++ (CallClose <$> os).
Proof.
  revert errs l. induction os as [|o os IH]; intros errs l; cbn; [by rewrite app_nil_r|].
  unfold invoke. rewrite IH. by rewrite <- app_assoc.
Qed.

(** A closed inbound manager has closed each of its inbounds once, in order, and a second
    [Close] does nothing. *)
Theorem inbounds_closed_once result m l r m' l' :
  pm_started m = true -> Inbound_Close result m l = (r, m', l') ->
  r = Ok tt /\ items m' = [] /\ l' = l ++ (CallClose <$> items m) /\ Inbound_Close result m' l' = (Ok tt, m', l').
Proof.
  unfold Inbound_Close, plain_Close. intros ->. cbn. pose proof (close_all_log result "inbound" (items m) [] l) as H.
  destruct (close_all _ _ _ _ _) as [errs l1]. cbn in H. subst l1. intros [= <- <- <-]. by destruct m.
Qed.

Definition inbound_a : Outbound := MkOutbound 1 "mixed" "a" [] true false false false true.
Definition inbounds_a : PlainManager := (Inbound_Create no_error "a" (Ok inbound_a) NewPlain []).1.2.
Definition inbounds_started : PlainManager := (Inbound_Start no_error StartStateInitialize inbounds_a []).1.2.

Lemma plain_manager_refines_map_witness :
  itemByTag (Inbound_Create no_error "a" (Ok inbound_a) NewPlain []).1.2 = <["a" := inbound_a]> ∅.
Proof.
  destruct (plain_manager_refines_map no_error "inbound" "invalid inbound index" (PCreate inbound_a) NewPlain [] (Ok tt)
    inbounds_a []) as (_ & H & _); [|by intros; apply not_elem_of_nil|discriminate|reflexivity|exact H].
  split; [constructor|]. intros t o. cbn. split; [discriminate|intros [H%elem_of_nil _]; done].
Defined.

Lemma inbounds_closed_once_witness :
  exists m' l', Inbound_Close no_error inbounds_started [] = (Ok tt, m', l') /\ l' = [CallClose inbound_a].
Proof.
  destruct (Inbound_Close no_error inbounds_started []) as [[r m'] l'] eqn:E. apply inbounds_closed_once in E as H; [|reflexivity].
  destruct H as (-> & _ & -> & _). exists m', [CallClose inbound_a]. split; [done|]. reflexivity.
Defined.

(** [Close] empties the list of inbounds and leaves the map: a tag of before the close is
    still found, and its removal panics with the lock held. *)
Example closed_manager_remove_panics :
  let m := (Inbound_Close no_error inbounds_started []).1.2 in
  itemByTag m !! "a" = Some inbound_a /\ (Inbound_Remove no_error "a" m []).1.1 = Panic "invalid inbound index".
Proof. split; vm_compute; reflexivity. Qed.
