(* ===== verification/TransportManager.v ===== *)
(** * DNS transport manager

    dns/transport_manager.go: the registry of DNS servers, their start in the order of their
    dependencies, the default server and the FakeIP server.

    A transport is an object of Managers, with its calls as a log; every DNS transport is a
    [Lifecycle], so that the start of one is that of [LegacyStart]. *)

From S2P Require Import Prelude GoStd Managers ManagersSpec.
From coqutil Require Import Datatypes.RecordSetters.
Import DoubleBraceUpdate.
Local Open Scope Z_scope.

Definition TypeFakeIP : string := "fakeip".

Record TransportManager := MkTransportManager {
  tm_defaultTag : string;
  tm_started : bool;
  tm_stage : Z;
  transports : list Outbound;
  transportByTag : gmap string Outbound;
  tm_dependByTag : gmap string (list string);
  defaultTransport : option Outbound;
  fakeIPTransport : option Outbound
}.
Definition NewTransportManager (defaultTag : string) : TransportManager :=
  MkTransportManager defaultTag false 0 [] ∅ ∅ None None.

Section TransportManager.
(** The error of the last call of a log. *)
Variable result : list call -> option error.
Implicit Types (m : TransportManager) (l : list call) (o : Outbound).

Definition startTransports (byTag : gmap string Outbound) (ts : list Outbound) l : outcome unit * list call :=
  start_all result "dns" "server" byTag ts l.

(** The default server at the start stage. *)
Definition pick_default_transport (fallback : outcome Outbound) m : outcome TransportManager :=
  if negb (bool_decide (tm_defaultTag m = "")) && negb (bool_decide (is_Some (defaultTransport m))) then
    Err (ENew ("default DNS server not found: " +:+ tm_defaultTag m))
  else match defaultTransport m with
       | Some _ => Ok m
       | None =>
           let* o := wrap_err (fun e => ECause e "default DNS server fallback") fallback in
           Ok (m {{ transports ::= fun ts => ts ++ [o]; transportByTag ::= <[o_Tag o := o]>; defaultTransport := Some o }})
       end.

Definition Transport_Start (fallback : outcome Outbound) (s : StartStage) m l : outcome unit * TransportManager * list call :=
  if tm_started m && (stage_index s <=? tm_stage m) then (Panic "already started", m, l)
  else
    let m := m {{ tm_started := true; tm_stage := stage_index s }} in
    if bool_decide (s = StartStateStart) then
      match pick_default_transport fallback m with
      | Ok m => let '(r, l) := startTransports (transportByTag m) (transports m) l in (r, m, l)
      | Err e => (Err e, m, l)
      | Panic p => (Panic p, m, l)
      | Diverge => (Diverge, m, l)
      end
    else let '(e, l) := start_each result "dns" (transports m) s l in (of_error e, m, l).

(** The errors of the servers are collected and dropped. *)
Definition Transport_Close m l : TransportManager * list call :=
  if negb (tm_started m) then (m, l)
  else (m {{ tm_started := false; transports := [] }}, close_each result (transports m) l).

Definition Transports m : list Outbound := transports m.
Definition Transport m (tag : string) : option Outbound := transportByTag m !! tag.
Definition Default m : option Outbound := defaultTransport m.
Definition FakeIP m : option Outbound := fakeIPTransport m.

(** The choice of the next default in [Remove]; an error is returned at once. *)
Definition next_default (o : Outbound) m : option error * TransportManager :=
  if bool_decide (o_id <$> defaultTransport m = Some (o_id o)) then
    match transports m with
    | next :: _ =>
        if negb (bool_decide (o_Type next = TypeFakeIP)) then (Some (ENew "default server cannot be fakeip"), m)
        else (None, m {{ defaultTransport := Some next }})
    | [] => (None, m {{ defaultTransport := None }})
    end
  else (None, m).

(** The errors of [transport.Close] are dropped. *)
Definition Transport_Remove (tag : string) m l : outcome unit * TransportManager * list call :=
  match transportByTag m !! tag with
  | None => (Err ErrInvalid, m, l)
  | Some o =>
      let m := m {{ transportByTag ::= delete tag }} in
      match remove_object o (transports m) with
      | None => (Panic "invalid inbound index", m, l)
      | Some ts =>
          let started := tm_started m in
          match next_default o (m {{ transports := ts }}) with
          | (Some e, m) => (Err e, m, l)
          | (None, m) =>
              match default [] (tm_dependByTag m !! tag) with
              | _ :: _ as dependBy => (Err (ENew ("server[" +:+ tag +:+ "] is depended by " +:+ Join dependBy ", ")), m, l)
              | [] =>
                  let m := m {{ tm_dependByTag ::= drop_dependencies tag (o_Dependencies o) }} in
                  (Ok tt, m, if started then (Close_one result o l).2 else l)
              end
          end
      end
  end.

(** The registration of a new server, and what is checked after it. *)
Definition register (tag : string) (o : Outbound) (ts : list Outbound) m : outcome unit * TransportManager :=
  let m := m {{ transports := ts ++ [o]; transportByTag ::= <[tag := o]>;
                tm_dependByTag ::= add_dependencies tag (o_Dependencies o) }} in
  let fakeip := bool_decide (o_Type o = TypeFakeIP) in
  let becomes := bool_decide (tag = tm_defaultTag m)
                 || (bool_decide (tm_defaultTag m = "") && negb (bool_decide (is_Some (defaultTransport m)))) in
  if becomes && fakeip then (Err (ENew "default server cannot be fakeip"), m)
  else
    let m := if becomes then m {{ defaultTransport := Some o }} else m in
    if fakeip then
      if bool_decide (is_Some (fakeIPTransport m)) then (Err (ENew "multiple fakeip server are not supported"), m)
      else (Ok tt, m {{ fakeIPTransport := Some o }})
    else (Ok tt, m).

(** [Create] with what the registry of transport types returned for the options. *)
Definition Transport_Create (tag : string) (created : outcome Outbound) m l : outcome unit * TransportManager * list call :=
  if bool_decide (tag = "") then (Err ErrInvalid, m, l)
  else match created with
  | Err e => (Err e, m, l)
  | Panic s => (Panic s, m, l)
  | Diverge => (Diverge, m, l)
  | Ok o =>
      let '(e, l) := if tm_started m then start_stages result "dns" o ListStartStages l else (None, l) in
      match e with
      | Some e => (Err e, m, l)
      | None =>
          match transportByTag m !! tag with
          | None => let '(r, m) := register tag o (transports m) m in (r, m, l)
          | Some exists_ =>
              let '(e, l) := if tm_started m then Close_one result exists_ l else (None, l) in
              match e with
              | Some e => (Err (named_error "close" "dns" e exists_), m, l)
              | None =>
                  match remove_object exists_ (transports m) with
                  | None => (Panic "invalid inbound index", m, l)
                  | Some ts => let '(r, m) := register tag o ts m in (r, m, l)
                  end
              end
          end
      end
  end.

End TransportManager.

(** * DNS transport manager: correctness

    The registry stays consistent, the servers start in the order of their dependencies and
    exactly the acyclic configurations start, the default server is not FakeIP as long as
    none is removed; and the cases in which a removal or a refused creation goes wrong. *)

Section Servers.
Variable result : list call -> option error.
Implicit Types (m : TransportManager) (l : list call) (o : Outbound).

(** List and map hold the same servers, each under its tag. *)
Definition servers_ok m : Prop :=
  NoDup (o_id <$> transports m) /\ (forall t o, transportByTag m !! t = Some o <-> o ∈ transports m /\ o_Tag o = t).

Lemma servers_tags m : servers_ok m -> distinct_tags (transports m).
Proof.
  intros [Hnd Hmap]. unfold distinct_tags. apply NoDup_fmap_2_strong; [|by eapply NoDup_fmap_1].
  intros x y Hx Hy E. assert (transportByTag m !! o_Tag x = Some x) by (by apply Hmap).
  assert (transportByTag m !! o_Tag x = Some y) by (by apply Hmap). congruence.
Qed.

(** The operations of a box: creations, removals and the stages of the start. *)
Inductive tm_op :=
| TCreate (o : Outbound)
| TRemove (tag : string)
| TStart (fallback : outcome Outbound) (s : StartStage).
Definition tm_exec (x : tm_op) m l : outcome unit * TransportManager * list call :=
  match x with
  | TCreate o => Transport_Create result (o_Tag o) (Ok o) m l
  | TRemove tag => Transport_Remove result tag m l
  | TStart fallback s => Transport_Start result fallback s m l
  end.
(** New objects are new; the fallback's tag is not in use. *)
Definition tm_op_ok m (x : tm_op) : Prop :=
  match x with
  | TCreate o => o_id o ∉ o_id <$> transports m
  | TStart (Ok o) _ => o_id o ∉ o_id <$> transports m /\ transportByTag m !! o_Tag o = None
  | _ => True
  end.

Lemma register_servers tag o ts m r m' :
  tag = o_Tag o -> NoDup (o_id <$> ts) -> o_id o ∉ o_id <$> ts ->
  (forall t x, delete tag (transportByTag m) !! t = Some x <-> x ∈ ts /\ o_Tag x = t) ->
  register tag o ts m = (r, m') -> servers_ok m' /\ transportByTag m' !! tag = Some o /\ (forall s, r <> Panic s).
Proof.
  intros -> Hnd Hf Hmap. destruct (registry_add ts (transportByTag m) o Hnd Hf Hmap) as [H1 H2]. unfold register.
  repeat case_match; intros [= <- <-]; subst; (split; [destruct m; split; [exact H1|exact H2]|]); (split; [destruct m; apply lookup_insert_eq|done]).
Qed.

Lemma transport_create_ok m l o r m' l' :
  servers_ok m -> o_id o ∉ o_id <$> transports m -> Transport_Create result (o_Tag o) (Ok o) m l = (r, m', l') ->
  servers_ok m' /\ (r = Ok tt -> transportByTag m' !! o_Tag o = Some o) /\ r <> Panic "invalid inbound index".
Proof.
  intros Hok Hfresh. unfold Transport_Create. case_bool_decide; [by intros [= <- <- <-]|].
  destruct (if tm_started m then start_stages _ _ _ _ _ else _) as [[e|] l1]; [by intros [= <- <- <-]|].
  pose proof Hok as [Hnd Hmap]. destruct (transportByTag m !! o_Tag o) as [x|] eqn:E.
  - destruct (if tm_started m then Close_one _ _ _ else _) as [[e|] l2]; [by intros [= <- <- <-]|].
    apply Hmap in E as [Hx Ht]. destruct (registry_take _ _ x Hnd Hmap Hx) as (ts & -> & Hnd' & Hel & Hmap'). rewrite Ht in Hmap'.
    destruct (register (o_Tag o) o ts m) as [r1 m1] eqn:Er. intros [= <- <- <-].
    apply register_servers in Er as (? & ? & Hp); [split_and!; [done|done|apply Hp]|done|done| |done].
    intros (y & Hy & Hin)%list_elem_of_fmap. apply Hfresh, list_elem_of_fmap. exists y. split; [done|]. by apply Hel.
  - destruct (register (o_Tag o) o (transports m) m) as [r1 m1] eqn:Er. intros [= <- <- <-].
    apply register_servers in Er as (? & ? & Hp); [split_and!; [done|done|apply Hp]|done|done|done|]. by rewrite delete_id.
Qed.

Lemma next_default_same o m e m' :
  next_default o m = (e, m') -> transports m' = transports m /\ transportByTag m' = transportByTag m /\ tm_dependByTag m' = tm_dependByTag m.
Proof. unfold next_default. repeat case_match; intros [= <- <-]; by destruct m. Qed.

Lemma transport_remove_ok m l tag r m' l' :
  servers_ok m -> Transport_Remove result tag m l = (r, m', l') ->
  servers_ok m' /\ transportByTag m' !! tag = None /\ r <> Panic "invalid inbound index".
Proof.
  intros [Hnd Hmap]. unfold Transport_Remove. destruct (transportByTag m !! tag) as [o|] eqn:E; [|by intros [= <- <- <-]].
  apply Hmap in E as [Hin Ht]. destruct (registry_take _ _ o Hnd Hmap Hin) as (ts & Hts & Hnd' & _ & Hmap'). rewrite Ht in Hmap'. cbv zeta.
  replace (transports (m {{ transportByTag ::= delete tag }})) with (transports m) by (by destruct m). rewrite Hts.
  destruct (next_default o _) as [e m1] eqn:En. apply next_default_same in En as (H1 & H2 & H3).
  assert (Hok : servers_ok m1 /\ transportByTag m1 !! tag = None).
  { unfold servers_ok. rewrite H1, H2. destruct m. cbn. split; [done|apply lookup_delete_eq]. }
  destruct Hok as [? ?]. destruct e as [e|]; [by intros [= <- <- <-]|]. destruct (default [] _); intros [= <- <- <-]; [|done]. by destruct m1.
Qed.

Lemma pick_default_servers fallback m m' :
  servers_ok m -> tm_op_ok m (TStart fallback StartStateStart) -> pick_default_transport fallback m = Ok m' -> servers_ok m'.
Proof.
  intros [Hnd Hmap] Hop. unfold pick_default_transport. case_match; [done|]. destruct (defaultTransport m) eqn:Hd; [by intros [= <-]|].
  intros Hp. inv_ok. apply wrap_err_ok in E. subst fallback. destruct Hop as [Hf Hn].
  destruct (registry_add (transports m) (transportByTag m) a Hnd Hf) as [H1 H2]; [by rewrite delete_id|]. by destruct m.
Qed.

(** The states of a program that creates, removes and starts servers. *)
Inductive tm_reachable (dt : string) : TransportManager -> list call -> Prop :=
| tm_new : tm_reachable dt (NewTransportManager dt) []
| tm_step m l x r m' l' : tm_reachable dt m l -> tm_op_ok m x -> tm_exec x m l = (r, m', l') -> tm_reachable dt m' l'.

Lemma reachable_servers_ok dt m l : tm_reachable dt m l -> servers_ok m.
Proof.
  induction 1 as [|m l x r m' l' _ IH Hop Hex].
  - split; [constructor|]. intros t o. cbn. rewrite lookup_empty. split; [done|]. by intros [?%elem_of_nil _].
  - destruct x as [o|tag|fallback s]; [by eapply transport_create_ok|by eapply transport_remove_ok|].
    cbn in Hex. unfold Transport_Start in Hex. destruct (tm_started m && _); [by injection Hex as <- <- <-|].
    assert (Hs : servers_ok (m {{ tm_started := true; tm_stage := stage_index s }})) by (by destruct m).
    case_bool_decide as Es; [|by destruct (start_each _ _ _ _ _); injection Hex as <- <- <-].
    destruct (pick_default_transport _ _) as [m1| | |] eqn:Ep; [|by injection Hex as <- <- <-..].
    destruct (startTransports _ _ _ _). injection Hex as <- <- <-. eapply pick_default_servers; [done| |done]. by destruct m, fallback.
Qed.

(** Through every sequence of creations, replacements, removals and starts the list and the
    tag map of the DNS servers hold the same servers, each once and under its own tag; a
    created server is found under its tag, a removed one is not; the index lookups never fail. *)
Theorem dns_servers_consistent dt m l :
  tm_reachable dt m l ->
  servers_ok m
  /\ (forall o r m' l', o_id o ∉ o_id <$> transports m -> Transport_Create result (o_Tag o) (Ok o) m l = (r, m', l') ->
       (r = Ok tt -> Transport m' (o_Tag o) = Some o) /\ r <> Panic "invalid inbound index")
  /\ (forall tag r m' l', Transport_Remove result tag m l = (r, m', l') ->
       Transport m' tag = None /\ r <> Panic "invalid inbound index").
Proof.
  intros Hr%reachable_servers_ok. split; [done|]. split.
  - intros o r m' l' Hf H. by apply transport_create_ok in H as (_ & ? & ?).
  - intros tag r m' l' H. by apply transport_remove_ok in H as (_ & ? & ?).
Qed.

(** When no start method fails, the start of the servers succeeds exactly if their
    dependencies are closed and acyclic, and otherwise names a circular or a missing one; it
    always ends.  Each is started once, after those it depends on. *)
Theorem dns_servers_start_iff_acyclic dt m l m1 :
  tm_reachable dt m l -> (forall l0, result l0 = None) -> tm_stage m = 0 -> defaultTransport m <> None ->
  m1 = m {{ tm_started := true; tm_stage := 1 }} ->
  exists r l', Transport_Start result (Err EOF) StartStateStart m l = (r, m1, l')
    /\ (r = Ok tt <-> exists rank, ranked (transports m) rank) /\ (r = Ok tt \/ lint_error "server" r)
    /\ exists ord, l' = l ++ concat (start_calls <$> ord) /\ ordered ∅ ord /\ (r = Ok tt -> ord ≡ₚ transports m).
Proof.
  intros Hr Hres Hst Hd ->. apply reachable_servers_ok in Hr as Hok. apply servers_tags in Hok as Hdt.
  unfold Transport_Start. rewrite Hst, andb_false_r, bool_decide_true by done.
  destruct (defaultTransport m) as [o|] eqn:Ed; [|done].
  assert (Hp : pick_default_transport (Err EOF) (m {{ tm_started := true; tm_stage := stage_index StartStateStart }})
    = Ok (m {{ tm_started := true; tm_stage := 1 }})).
  { unfold pick_default_transport. destruct m. cbn in *. subst. by rewrite andb_false_r. }
  rewrite Hp. unfold startTransports.
  replace (transports (m {{ tm_started := true; tm_stage := 1 }})) with (transports m) by (by destruct m).
  set (bt := transportByTag _). destruct (start_all result "dns" "server" bt (transports m) l) as [r l'] eqn:E. exists r, l'. split; [done|].
  pose proof (start_all_iff_acyclic result "dns" "server" bt (transports m) l Hdt Hres) as Ha. cbn zeta in Ha. rewrite E in Ha.
  destruct (start_all_in_order _ _ _ _ _ _ _ _ Hdt E) as (ord & H1 & H2 & _ & H3). destruct Ha. split_and!; [done|done|]. by exists ord.
Qed.

(** ** The default server *)

Definition default_ok m : Prop := forall o, defaultTransport m = Some o -> o_Type o <> TypeFakeIP.

(** A creation never makes FakeIP the default server. *)
Theorem created_default_not_fakeip tag created m l r m' l' :
  default_ok m -> Transport_Create result tag created m l = (r, m', l') -> default_ok m'.
Proof.
  intros Hd. assert (Hreg : forall o ts r m', register tag o ts m = (r, m') -> default_ok m').
  { intros o ts r0 m0. unfold register. cbv zeta. destruct (bool_decide (o_Type o = TypeFakeIP)) eqn:Hf; rewrite ?andb_true_r, ?andb_false_r.
    - destruct (_ || _); [intros [<- <-]%pair_equal_spec; by destruct m|].
      destruct (bool_decide (is_Some _)); intros [<- <-]%pair_equal_spec; by destruct m.
    - apply bool_decide_eq_false in Hf. destruct (_ || _); intros [<- <-]%pair_equal_spec; destruct m; [by intros x [= <-]|done]. }
  unfold Transport_Create. repeat case_match; intros [= <- <- <-]; try done; by eapply Hreg.
Qed.

(** Removing the default server is refused when the server next in line could take its
    place; it is gone from the registry all the same, stays the default and is not closed. *)
Theorem removed_default_stays m l tag o next ts :
  servers_ok m -> Transport m tag = Some o -> defaultTransport m = Some o -> remove_object o (transports m) = Some (next :: ts) ->
  o_Type next <> TypeFakeIP ->
  exists e m', Transport_Remove result tag m l = (Err e, m', l) /\ Transport m' tag = None /\ o ∉ Transports m' /\ Default m' = Some o.
Proof.
  intros [Hnd Hmap] Ht Hd Hr Hn. unfold Transport_Remove. unfold Transport in Ht. rewrite Ht. cbv zeta.
  replace (transports (m {{ transportByTag ::= delete tag }})) with (transports m) by (by destruct m). rewrite Hr.
  apply Hmap in Ht as [Hin Ht]. destruct (registry_take _ _ o Hnd Hmap Hin) as (ts' & Hr' & _ & Hel & _). rewrite Hr in Hr'. injection Hr' as <-.
  unfold next_default. destruct m; cbn in *; unfold constant in *; subst. rewrite !bool_decide_true, bool_decide_false by done. cbn.
  eexists _, _. split; [done|]. split_and!; [apply lookup_delete_eq| |done]. by intros [_ ?]%Hel.
Qed.

(** And it succeeds when the server next in line is FakeIP, which then is the default. *)
Theorem removal_makes_fakeip_default m l tag o next ts :
  Transport m tag = Some o -> defaultTransport m = Some o -> remove_object o (transports m) = Some (next :: ts) ->
  o_Type next = TypeFakeIP -> tm_dependByTag m !! tag = None ->
  exists m' l', Transport_Remove result tag m l = (Ok tt, m', l') /\ Default m' = Some next.
Proof.
  intros Ht Hd Hr Hn Hdep. unfold Transport_Remove. unfold Transport in Ht. rewrite Ht. cbv zeta.
  replace (transports (m {{ transportByTag ::= delete tag }})) with (transports m) by (by destruct m). rewrite Hr.
  unfold next_default. destruct m; cbn in *; unfold constant in *; subst. rewrite !bool_decide_true by done. cbn. rewrite Hdep. cbn. eauto.
Qed.

(** A server that is refused because it is a second FakeIP server, or FakeIP as the default,
    has replaced the one of its tag. *)
Theorem refused_server_registered m l o :
  servers_ok m -> o_id o ∉ o_id <$> transports m -> o_Tag o <> "" -> (forall l0, result l0 = None) ->
  o_Type o = TypeFakeIP -> o_Tag o = tm_defaultTag m \/ fakeIPTransport m <> None ->
  exists e m' l', Transport_Create result (o_Tag o) (Ok o) m l = (Err e, m', l') /\ Transport m' (o_Tag o) = Some o.
Proof.
  intros [Hnd Hmap] Hf Htag Hres Hty Hwhy. unfold Transport_Create. rewrite bool_decide_false by done.
  assert (Hreg : forall ts, exists e m', register (o_Tag o) o ts m = (Err e, m') /\ Transport m' (o_Tag o) = Some o).
  { intros ts. unfold register. rewrite Hty, (bool_decide_true (TypeFakeIP = _)) by done. rewrite andb_true_r.
    destruct (bool_decide _ || _) eqn:Eb; cbn; [eexists _, _; split; [done|]; destruct m; apply lookup_insert_eq|].
    destruct Hwhy as [E|Hn]; [apply orb_false_iff in Eb as [Eb _]; apply bool_decide_eq_false in Eb; by destruct m|].
    rewrite bool_decide_true by (destruct m; cbn in Hn |- *; by apply not_eq_None_Some).
    eexists _, _. split; [done|]. destruct m. apply lookup_insert_eq. }
  assert (Hst : exists l1, (if tm_started m then start_stages result "dns" o ListStartStages l else (None, l)) = (None, l1)).
  { destruct (tm_started m); [|by eexists]. clear -Hres. generalize ListStartStages as sts. intros sts. revert l.
    induction sts as [|s sts IH]; intros l; cbn; [by eexists|]. destruct (LegacyStart result o s l) as [[e|] l1] eqn:E; [|apply IH].
    apply LegacyStart_error in E as [l2 E]. by rewrite Hres in E. }
  destruct Hst as [l1 ->]. destruct (transportByTag m !! o_Tag o) as [x|] eqn:Ex.
  - assert (Hcl : exists l2, (if tm_started m then Close_one result x l1 else (None, l1)) = (None, l2)).
    { unfold Close_one, invoke. destruct (tm_started m), (o_Closer x); rewrite ?Hres; by eexists. }
    destruct Hcl as [l2 ->]. apply Hmap in Ex as [Hx _]. destruct (registry_take _ _ x Hnd Hmap Hx) as (ts & -> & _).
    destruct (Hreg ts) as (e & m' & -> & ?). eauto.
  - destruct (Hreg (transports m)) as (e & m' & -> & ?). eauto.
Qed.

End Servers.

(** ** A configuration *)

Definition server_a : Outbound := MkOutbound 1 "udp" "a" [] true false false false true.
Definition server_b : Outbound := MkOutbound 2 "tls" "b" ["a"] true false false false true.
Definition server_f : Outbound := MkOutbound 3 "fakeip" "f" [] true false false false true.
Definition create_in (m : TransportManager) (o : Outbound) : TransportManager := (Transport_Create no_error (o_Tag o) (Ok o) m []).1.2.
Definition servers_ab : TransportManager := create_in (create_in (NewTransportManager "") server_a) server_b.
Definition servers_af : TransportManager := create_in (create_in (NewTransportManager "") server_a) server_f.

Example remove_default_refused :
  (Transport_Remove no_error "a" servers_ab []).1.1 = Err (ENew "default server cannot be fakeip")
  /\ o_Tag <$> Default (Transport_Remove no_error "a" servers_ab []).1.2 = Some "a".
Proof. split; vm_compute; reflexivity. Qed.

Example fakeip_becomes_default :
  (Transport_Remove no_error "a" servers_af []).1.1 = Ok tt
  /\ o_Tag <$> Default (Transport_Remove no_error "a" servers_af []).1.2 = Some "f".
Proof. split; vm_compute; reflexivity. Qed.

Lemma servers_ab_reachable : tm_reachable no_error "" servers_ab [].
Proof.
  apply (tm_step _ _ (create_in (NewTransportManager "") server_a) [] (TCreate server_b) (Ok tt)).
  - apply (tm_step _ _ (NewTransportManager "") [] (TCreate server_a) (Ok tt)); [constructor|cbn; by apply not_elem_of_nil|reflexivity].
  - apply (bool_decide_eq_true_1 (_ ∉ _)). vm_compute. reflexivity.
  - reflexivity.
Qed.

Lemma dns_servers_start_iff_acyclic_witness :
  exists r l', Transport_Start no_error (Err EOF) StartStateStart servers_ab []
    = (r, servers_ab {{ tm_started := true; tm_stage := 1 }}, l') /\ r = Ok tt.
Proof.
  destruct (dns_servers_start_iff_acyclic no_error "" servers_ab [] _ servers_ab_reachable (fun _ => eq_refl) eq_refl
    ltac:(vm_compute; discriminate) eq_refl) as (r & l' & H1 & H2 & _).
  exists r, l'. split; [exact H1|]. apply H2. exists (fun t => if decide (t = "b") then 1%nat else 0%nat). intros o d Ho Hd.
  apply elem_of_cons in Ho as [->|Ho]; [by apply elem_of_nil in Hd|apply list_elem_of_singleton in Ho as ->].
  apply list_elem_of_singleton in Hd as ->. split; [apply (bool_decide_eq_true_1 (_ ∈ _)); reflexivity|apply Nat.ltb_lt; reflexivity].
Defined.

Lemma dns_servers_consistent_witness : servers_ok servers_ab.
Proof. exact (proj1 (dns_servers_consistent no_error "" servers_ab [] servers_ab_reachable)). Defined.
