(* ===== verification/ServiceManager.v ===== *)
(** * Service manager

    adapter/service/manager.go: the registry of services of a running box, with updates
    that construct, start and close services outside the lock, the two-phase commit of
    their persistent state, and the close that waits for all of it.

    An operation is a program ([prog]) of critical sections and calls of code outside the
    manager: methods of services, the registry of constructors, the callback of the box.
    A goroutine runs an operation; while a call is underway the callee may run further
    operations on the same goroutine, so that a goroutine has a stack of frames.  [step]
    interleaves the frames on top of the stacks.  [sync.Cond] is explicit: a frame that
    waits is asleep until a broadcast.  Logging and the task monitor are left out. *)

From S2P Require Import Prelude GoStd Managers.
From coqutil Require Import Datatypes.RecordSetters.
Import DoubleBraceUpdate.
Local Open Scope Z_scope.

(** A service is an object: two have the same record only when they are the same. *)
Record Service := MkService {
  s_id : Z;
  s_Type : string;
  s_Tag : string;
  s_Committer : bool;
  s_Activator : bool
}.
#[export] Instance Service_eq_dec : EqDecision Service.
Proof. solve_decision. Defined.

(** [updates] has the tags under update, [updateOwners] the updates of each goroutine. *)
Record Manager := MkManager {
  started : bool;
  closing : bool;
  closed : bool;
  stage : StartStage;
  runtimeActive : bool;
  runtimeCommitting : bool;
  startInFlight : Z;
  startOwner : Z;
  services : list Service;
  serviceByTag : gmap string Service;
  updates : gset string;
  updateOwners : gmap Z Z
}.
Definition NewManager : Manager :=
  MkManager false false false StartStateInitialize false false 0 0 [] ∅ ∅ ∅.

(** ** Programs *)

Inductive method := MStart (s : StartStage) | MClose | MValidate | MCommit | MRollback | MActivate.
#[export] Instance method_eq_dec : EqDecision method.
Proof. solve_decision. Defined.

(** What the manager calls: the registry's [Create], the methods of services, the
    [beforeCommit] of the box and the rollback it returned. *)
Inductive callee :=
| RegistryCreate (tag : string)
| Method (s : Service) (m : method)
| BeforeCommit
| BeforeRollback.
#[export] Instance callee_eq_dec : EqDecision callee.
Proof. solve_decision. Defined.

(** What a call returns; [BeforeCommit] says whether it returned a rollback. *)
Definition reply (c : callee) : Type :=
  match c with
  | RegistryCreate _ => Service + error
  | BeforeCommit => bool + error
  | Method _ MActivate => unit
  | _ => option error
  end.

(** What an operation returns: the errors joined, none for nil. *)
Inductive res := Returned (errs : list error) | Panicked (msg : string).

(** The conditions under which the code waits. *)
Inductive waiting := NoWait | WaitIdle | WaitClosed | WaitQuiet.
(** How a critical section ends: the lock is released, after a broadcast or not, or is
    kept for the next section. *)
Inductive signal := Unlock | Broadcast | Hold.

Inductive prog :=
| Done (r : res)
| Call (c : callee) (k : reply c -> prog)
| Lock (w : waiting) (body : Z -> Manager -> Manager * signal * prog).

Definition fail (e : error) : prog := Done (Returned [e]).
Definition errs_of (e : option error) : list error := match e with Some e => [e] | None => [] end.

(** ["service/" + Type + "[" + Tag + "]"] *)
Definition service_name (s : Service) : string := "service/" +:+ s_Type s +:+ "[" +:+ s_Tag s +:+ "]".
Definition causeIfError (e : option error) (message : string) : list error :=
  match e with Some e => [ECause e message] | None => [] end.

(** ** Waiting *)

(** [waitForLifecycleIdleLocked]: the error it returns, nil when all is idle. *)
Definition owns (gid : Z) (m : Manager) : bool :=
  (0 <? default 0 (updateOwners m !! gid)) || ((0 <? startInFlight m) && (startOwner m =? gid)).
Definition idle (m : Manager) : bool := bool_decide (updates m = ∅) && (startInFlight m =? 0).
Definition waitForLifecycleIdleLocked (gid : Z) (m : Manager) : option error :=
  if closing m || closed m then Some ErrClosed
  else if owns gid m then Some (ENew "cannot start or commit runtime from a service update")
  else None.

(** [condition.Wait()] is called. *)
Definition must_wait (w : waiting) (gid : Z) (m : Manager) : bool :=
  match w with
  | NoWait => false
  | WaitIdle => negb (closing m || closed m) && negb (owns gid m) && negb (idle m)
  | WaitClosed => closing m && negb (closed m)
  | WaitQuiet => runtimeCommitting m || negb (bool_decide (updates m = ∅)) || (0 <? startInFlight m)
  end.

(** ** Start *)

Fixpoint start_services (st : StartStage) (l : list Service) (k : res -> prog) : prog :=
  match l with
  | [] => k (Returned [])
  | s :: l' =>
      Call (Method s (MStart st)) (fun e =>
        match e with
        | Some e => k (Returned [ECause e (stage_String st +:+ " " +:+ service_name s)])
        | None => start_services st l' k
        end)
  end.

Definition finishStart (k : prog) : prog :=
  Lock NoWait (fun _ m =>
    let m := m {{ startInFlight ::= Z.pred }} in
    (if startInFlight m =? 0 then m {{ startOwner := 0 }} else m, Broadcast, k)).

Definition Start (st : StartStage) : prog :=
  Lock WaitIdle (fun gid m =>
    match waitForLifecycleIdleLocked gid m with
    | Some e => (m, Unlock, fail e)
    | None =>
        if runtimeCommitting m then (m, Unlock, fail (ENew "runtime commit in progress"))
        else if runtimeActive m then (m, Unlock, fail (ENew "runtime is already active"))
        else if started m && (stage_index st <=? stage_index (stage m)) then (m, Hold, Done (Panicked "already started"))
        else
          let m := m {{ started := true; stage := st }} in
          let m := if bool_decide (st = StartStateInitialize) then m {{ runtimeActive := false }} else m in
          let m := m {{ startInFlight ::= Z.succ; startOwner := gid }} in
          (m, Unlock, start_services st (services m) (fun r => finishStart (Done r)))
    end).

(** ** Close *)

Fixpoint close_services (l : list Service) (errs : list error) (k : list error -> prog) : prog :=
  match l with
  | [] => k errs
  | s :: l' =>
      Call (Method s MClose) (fun e =>
        close_services l' (errs ++ causeIfError e ("close " +:+ service_name s)) k)
  end.

Definition Close : prog :=
  Lock WaitClosed (fun _ m =>
    if closed m then (m, Unlock, Done (Returned []))
    else (m {{ closing := true }}, Hold,
      Lock WaitQuiet (fun _ m =>
        (m {{ started := false; runtimeActive := false; services := []; serviceByTag := ∅ }}, Unlock,
         close_services (services m) [] (fun errs =>
           Lock NoWait (fun _ m =>
             (m {{ closing := false; closed := true }}, Broadcast, Done (Returned errs)))))))).

(** ** Reads *)

Definition Services (m : Manager) : list Service := services m.
Definition Get (tag : string) (m : Manager) : option Service := serviceByTag m !! tag.

(** ** Remove *)

(** [append(l[:index], l[index+1:]...)] at the object; none is index -1. *)
Fixpoint remove_service (s : Service) (l : list Service) : option (list Service) :=
  match l with
  | [] => None
  | x :: l' => if bool_decide (x = s) then Some l' else cons x <$> remove_service s l'
  end.

Definition Remove (tag : string) : prog :=
  Lock NoWait (fun _ m =>
    if closing m || closed m then (m, Unlock, fail ErrClosed)
    else if runtimeCommitting m then (m, Unlock, fail (ENew "runtime commit in progress"))
    else if bool_decide (tag ∈ updates m) then (m, Unlock, fail (ENew ("service update in progress: " +:+ tag)))
    else match serviceByTag m !! tag with
         | None => (m, Unlock, fail ErrInvalid)
         | Some s =>
             let m := m {{ serviceByTag ::= delete tag }} in
             match remove_service s (services m) with
             | None => (m, Hold, Done (Panicked "invalid service index"))
             | Some l =>
                 let m := m {{ services := l }} in
                 (m, Unlock,
                  if started m then Call (Method s MClose) (fun e => Done (Returned (errs_of e)))
                  else Done (Returned []))
             end
         end).

(** ** Two-phase commit *)

Inductive rollback := RbBefore | RbService (s : Service).
Definition call_rollback (rb : rollback) (k : option error -> prog) : prog :=
  match rb with
  | RbBefore => Call BeforeRollback k
  | RbService s => Call (Method s MRollback) k
  end.

(** [rollbackRuntimeCommits]: the latest first. *)
Fixpoint run_rollbacks (l : list rollback) (errs : list error) (k : list error -> prog) : prog :=
  match l with
  | [] => k errs
  | rb :: l' => call_rollback rb (fun e => run_rollbacks l' (errs ++ errs_of e) k)
  end.
Definition rollbackRuntimeCommits (rollbacks : list rollback) (k : list error -> prog) : prog :=
  run_rollbacks (rev rollbacks) [] k.

Fixpoint validate_services (l : list Service) (k : list error -> prog) : prog :=
  match l with
  | [] => k []
  | s :: l' =>
      if s_Activator s then
        Call (Method s MValidate) (fun e =>
          match e with
          | Some e => k [ECause e ("validate runtime activation for " +:+ service_name s)]
          | None => validate_services l' k
          end)
      else validate_services l' k
  end.

(** The loop of [CommitRuntime] calls: the rollbacks collected, or the errors after they
    were run. *)
Fixpoint commit_services (l : list Service) (rollbacks : list rollback) (k : list rollback + list error -> prog) : prog :=
  match l with
  | [] => k (inl rollbacks)
  | s :: l' =>
      if s_Committer s then
        Call (Method s MCommit) (fun e =>
          match e with
          | Some e => rollbackRuntimeCommits rollbacks (fun errs =>
                        k (inr (ECause e ("commit runtime " +:+ service_name s) :: errs)))
          | None => commit_services l' (rollbacks ++ [RbService s]) k
          end)
      else commit_services l' rollbacks k
  end.

(** [activate] *)
Fixpoint activate (l : list Service) (k : prog) : prog :=
  match l with
  | [] => k
  | s :: l' => if s_Activator s then Call (Method s MActivate) (fun _ => activate l' k) else activate l' k
  end.

(** [before] is [beforeCommit != nil]. *)
Definition PrepareRuntime (l : list Service) (before : bool) (k : list rollback + list error -> prog) : prog :=
  validate_services l (fun errs =>
    match errs with
    | _ :: _ => k (inr errs)
    | [] =>
        if before then
          Call BeforeCommit (fun r =>
            match r with
            | inr e => k (inr [e])
            | inl rb => commit_services l (if rb then [RbBefore] else []) k
            end)
        else commit_services l [] k
    end).

(** The function [CommitRuntime] of the package. *)
Definition CommitRuntime_services (l : list Service) (before : bool) : prog :=
  PrepareRuntime l before (fun r =>
    match r with
    | inr errs => Done (Returned errs)
    | inl _ => activate l (Done (Returned []))
    end).

(** The end of a commit: [runtimeCommitting = false]. *)
Definition finishCommit (r : res) : prog :=
  Lock NoWait (fun _ m => (m {{ runtimeCommitting := false }}, Broadcast, Done r)).

Definition CommitRuntime (before : bool) : prog :=
  Lock WaitIdle (fun gid m =>
    match waitForLifecycleIdleLocked gid m with
    | Some e => (m, Unlock, fail e)
    | None =>
        if runtimeActive m then (m, Unlock, fail (ENew "runtime is already active"))
        else if runtimeCommitting m then (m, Unlock, fail (ENew "runtime commit already in progress"))
        else if negb (started m) || (stage_index (stage m) <? stage_index StartStateStarted) then
          (m, Unlock, fail (ENew "runtime commit requires services to finish start"))
        else
          let l := services m in
          (m {{ runtimeCommitting := true }}, Unlock,
           PrepareRuntime l before (fun r =>
             Lock NoWait (fun _ m =>
               match r with
               | inr errs => (m {{ runtimeCommitting := false }}, Broadcast, Done (Returned errs))
               | inl rollbacks =>
                   if closing m || closed m then
                     (m, Unlock, rollbackRuntimeCommits rollbacks (fun errs => finishCommit (Returned (ErrClosed :: errs))))
                   else (m {{ runtimeActive := true }}, Unlock, activate l (finishCommit (Returned [])))
               end)))
    end).

(** ** Create *)

Definition beginUpdateOwnerLocked (gid : Z) (m : Manager) : Manager :=
  m {{ updateOwners ::= <[gid := default 0 (updateOwners m !! gid) + 1]> }}.

Definition finishUpdate (tag : string) (k : prog) : prog :=
  Lock NoWait (fun gid m =>
    let m := m {{ updates ::= (.∖ {[tag]}) }} in
    let n := default 0 (updateOwners m !! gid) in
    (if 1 <? n then m {{ updateOwners ::= <[gid := n - 1]> }} else m {{ updateOwners ::= delete gid }}, Broadcast, k)).

(** The stages up to the manager's; the loop breaks at the first that is later. *)
Fixpoint start_stages (s : Service) (upto : StartStage) (l : list StartStage) (k : option error -> prog) : prog :=
  match l with
  | [] => k None
  | st :: l' =>
      if stage_index upto <? stage_index st then k None
      else Call (Method s (MStart st)) (fun e =>
             match e with
             | Some e => k (Some (ECause e (stage_String st +:+ " " +:+ service_name s)))
             | None => start_stages s upto l' k
             end)
  end.

(** What [Create] saw of the manager when it began. *)
Record snapshot := MkSnapshot {
  sn_started : bool;
  sn_stage : StartStage;
  sn_active : bool;
  sn_existing : option Service
}.

(** The new service is given up: rolled back if it was prepared, and closed. *)
Definition discard (s : Service) (rollbacks : option (list rollback)) (errs : list error) (k : res -> prog) : prog :=
  let close errs := Call (Method s MClose) (fun e => k (Returned (errs ++ causeIfError e ("close " +:+ service_name s)))) in
  match rollbacks with
  | None => close errs
  | Some rbs => rollbackRuntimeCommits rbs (fun rerrs => close (errs ++ rerrs))
  end.

(** The manager is not as it was when the update began. *)
Definition changed (tag : string) (sn : snapshot) (m : Manager) : bool :=
  negb (bool_decide (serviceByTag m !! tag = sn_existing sn))
  || negb (eqb (started m) (sn_started sn))
  || (sn_started sn && negb (bool_decide (stage m = sn_stage sn)))
  || negb (eqb (runtimeActive m) (sn_active sn))
  || runtimeCommitting m || closing m || closed m.

Definition publish (tag : string) (sn : snapshot) (s : Service) (rollbacks : option (list rollback)) (k : res -> prog) : prog :=
  Lock NoWait (fun _ m =>
    if changed tag sn m then
      (m, Unlock, discard s rollbacks [ENew ("service manager changed during update: " +:+ tag)] k)
    else match (match sn_existing sn with Some ex => remove_service ex (services m) | None => Some (services m) end) with
         | None => (m, Unlock, discard s rollbacks [ENew ("invalid service index: " +:+ tag)] k)
         | Some l =>
             (m {{ services := l ++ [s]; serviceByTag ::= <[tag := s]> }}, Unlock,
              if sn_active sn then activate [s] (k (Returned [])) else k (Returned []))
         end).

(** The service in place is closed before the new one takes its tag. *)
Definition replace (tag : string) (sn : snapshot) (s : Service) (rollbacks : option (list rollback)) (k : res -> prog) : prog :=
  match sn_existing sn with
  | None => publish tag sn s rollbacks k
  | Some ex =>
      Call (Method ex MClose) (fun e =>
        match e with
        | Some e => discard s rollbacks [ECause e ("close " +:+ service_name ex)] k
        | None => publish tag sn s rollbacks k
        end)
  end.

Definition create_service (tag : string) (sn : snapshot) (k : res -> prog) : prog :=
  Call (RegistryCreate tag) (fun r =>
    match r with
    | inr e => k (Returned [e])
    | inl s =>
        start_stages s (sn_stage sn) (if sn_started sn then ListStartStages else []) (fun e =>
          match e with
          | Some e => discard s None [e] k
          | None =>
              if sn_active sn then
                PrepareRuntime [s] false (fun r =>
                  match r with
                  | inr errs => discard s None errs k
                  | inl rollbacks => replace tag sn s (Some rollbacks) k
                  end)
              else replace tag sn s None k
          end)
    end).

Definition Create (tag : string) : prog :=
  Lock NoWait (fun gid m =>
    if closing m || closed m then (m, Unlock, fail ErrClosed)
    else if runtimeCommitting m then (m, Unlock, fail (ENew "runtime commit in progress"))
    else if bool_decide (tag ∈ updates m) then (m, Unlock, fail (ENew ("service update in progress: " +:+ tag)))
    else
      let m := m {{ updates ::= ({[tag]} ∪.) }} in
      let sn := MkSnapshot (started m) (stage m) (runtimeActive m) (serviceByTag m !! tag) in
      if bool_decide (is_Some (sn_existing sn)) && sn_active sn then
        (m {{ updates ::= (.∖ {[tag]}) }}, Unlock, fail (ENew ("replacing an active service requires a full Box reload: " +:+ tag)))
      else (beginUpdateOwnerLocked gid m, Unlock, create_service tag sn (fun r => finishUpdate tag (Done r)))).

(** ** Goroutines *)

Inductive op := OpStart (st : StartStage) | OpClose | OpRemove (tag : string) | OpCommit (before : bool) | OpCreate (tag : string).
#[export] Instance op_eq_dec : EqDecision op.
Proof. solve_decision. Defined.
Definition op_prog (o : op) : prog :=
  match o with
  | OpStart st => Start st
  | OpClose => Close
  | OpRemove tag => Remove tag
  | OpCommit before => CommitRuntime before
  | OpCreate tag => Create tag
  end.

(** A frame is at the start of its program, holds the lock, is inside the call its program
    begins with, or is asleep in the wait its program begins with. *)
Inductive status := Running | Holding | Inside | Asleep.
#[export] Instance status_eq_dec : EqDecision status.
Proof. solve_decision. Defined.
Record frame := MkFrame { f_gid : Z; f_op : op; f_prog : prog; f_status : status }.

Inductive event :=
| Invoke (c : callee)
| Succeeded (c : callee)
| Failed (c : callee)
| NewService (s : Service)
| Finish (o : op) (r : res).

(** The frames of one goroutine are in the list from the top of its stack downwards. *)
Record config := MkConfig { mgr : Manager; locked : bool; frames : list frame; log : list event }.
Definition init : config := MkConfig NewManager false [] [].

Definition events_of (c : callee) : reply c -> list event :=
  match c return reply c -> list event with
  | RegistryCreate tag => fun v => match v with inl s => [Succeeded (RegistryCreate tag); NewService s] | inr _ => [Failed (RegistryCreate tag)] end
  | BeforeCommit => fun v => [match v with inl _ => Succeeded BeforeCommit | inr _ => Failed BeforeCommit end]
  | BeforeRollback => fun v => [match v with None => Succeeded BeforeRollback | Some _ => Failed BeforeRollback end]
  | Method s m =>
      match m return reply (Method s m) -> list event with
      | MActivate => fun _ => [Succeeded (Method s MActivate)]
      | m => fun v => [match v with None => Succeeded (Method s m) | Some _ => Failed (Method s m) end]
      end
  end.

(** A constructor returns a new object. *)
Definition reply_ok (l : list event) (c : callee) : reply c -> Prop :=
  match c return reply c -> Prop with
  | RegistryCreate _ => fun v => match v with inl s => NewService s ∉ l | inr _ => True end
  | _ => fun _ => True
  end.

Definition wake (f : frame) : frame :=
  match f_status f with Asleep => MkFrame (f_gid f) (f_op f) (f_prog f) Running | _ => f end.
Definition signalled (s : signal) (l : list frame) : list frame := match s with Broadcast => wake <$> l | _ => l end.

(** A goroutine can begin an operation: it has none, or its latest is inside a call. *)
Definition ready (gid : Z) (l : list frame) : Prop :=
  match List.find (fun f => bool_decide (f_gid f = gid)) l with
  | None => True
  | Some f => f_status f = Inside
  end.

(** A step of the frame on top of a goroutine's stack: the new manager, lock, frame (none
    when the operation has returned), signal and events. *)
Inductive frame_step (m : Manager) (lk : bool) (l : list event) (f : frame) : Manager -> bool -> option frame -> signal -> list event -> Prop :=
| fs_invoke c k :
    f_prog f = Call c k -> f_status f = Running ->
    frame_step m lk l f m lk (Some (MkFrame (f_gid f) (f_op f) (Call c k) Inside)) Unlock [Invoke c]
| fs_return c k v :
    f_prog f = Call c k -> f_status f = Inside -> reply_ok l c v ->
    frame_step m lk l f m lk (Some (MkFrame (f_gid f) (f_op f) (k v) Running)) Unlock (events_of c v)
| fs_wait w body :
    f_prog f = Lock w body -> (f_status f = Running /\ lk = false) \/ f_status f = Holding ->
    must_wait w (f_gid f) m = true ->
    frame_step m lk l f m false (Some (MkFrame (f_gid f) (f_op f) (Lock w body) Asleep)) Unlock []
| fs_run w body m' sg p :
    f_prog f = Lock w body -> (f_status f = Running /\ lk = false) \/ f_status f = Holding ->
    must_wait w (f_gid f) m = false -> body (f_gid f) m = (m', sg, p) ->
    frame_step m lk l f m' (match sg with Hold => true | _ => false end)
      (Some (MkFrame (f_gid f) (f_op f) p (match sg with Hold => Holding | _ => Running end))) sg []
| fs_finish r :
    f_prog f = Done r -> f_status f = Running \/ f_status f = Holding ->
    frame_step m lk l f m lk None Unlock [Finish (f_op f) r].

(** A frame moves on. *)
Inductive advance : config -> config -> Prop :=
| advance_frame m lk l1 f l2 l m' lk' f' sg ev :
    f_gid f ∉ f_gid <$> l1 -> frame_step m lk l f m' lk' f' sg ev ->
    advance (MkConfig m lk (l1 ++ f :: l2) l)
      (MkConfig m' lk' (signalled sg l1 ++ option_list f' ++ signalled sg l2) (l ++ ev)).

Inductive step : config -> config -> Prop :=
| step_begin c gid o :
    0 < gid -> ready gid (frames c) ->
    step c (MkConfig (mgr c) (locked c) (MkFrame gid o (op_prog o) Running :: frames c) (log c))
| step_advance c c' : advance c c' -> step c c'.

Inductive reachable : config -> Prop :=
| reach_init : reachable init
| reach_step c c' : reachable c -> step c c' -> reachable c'.

(** ** The id of a goroutine *)

(** [currentGoroutineID], from the text of [runtime.Stack]. *)
Fixpoint read_id (s : string) (id : Z) : Z :=
  match s with
  | String c s' =>
      let d := Z.of_N (Ascii.N_of_ascii c) - 48 in
      if (d <? 0) || (9 <? d) then id else read_id s' (uint 64 (id * 10 + d))
  | EmptyString => id
  end.
Definition currentGoroutineID (stack : string) : Z :=
  let prefix := "goroutine " in
  if (String.length stack <=? String.length prefix)%nat then 0
  else read_id (String.substring (String.length prefix) (String.length stack - String.length prefix) stack) 0.
