(* ===== verification/ServiceProtocol.v ===== *)
(** * Service manager: the protocol of the operations

    Every operation of the service manager follows a protocol: at each point it has a role,
    which says what it holds of the manager (a tag under update, the start, the commit, the
    close, services that are not in the registry), and its critical sections and calls are
    moves between roles.  [Inv] relates the roles of all operations underway to the state of
    the manager and to the calls made; every move keeps it. *)

From S2P Require Import Prelude GoStd Managers ServiceManager.
From coqutil Require Import Datatypes.RecordSetters.
Import DoubleBraceUpdate.
Local Open Scope Z_scope.

(** ** Roles *)

(** An update: constructing; with its own service, committed or not, the replaced one closed
    or not; giving it up; having published it, to be activated; over. *)
Inductive ustate :=
| UCreating
| UOwn (s : Service) (com exc : bool)
| UDiscard (s : Service)
| UPublished (s : Service)
| UActivated (s : Service)
| UOver.

(** A commit: preparing, with the services committed so far; rolling back; activating. *)
Inductive cstate := CPrepare (done : list Service) | CAbort | CActivate (rest : list Service).

Inductive role :=
| RFree
| RUpdate (tag : string) (sn : snapshot) (u : ustate)
| RStarting (l : list Service)
| RCommitting (l : list Service) (c : cstate)
| RClosing
| RDraining (l : list Service)
| RRemoving (s : Service).
Implicit Types (r : role) (R : list (Z * role)) (m : Manager) (l : list event).

Definition tag_of (x : Z * role) : option string := match x.2 with RUpdate tag _ _ => Some tag | _ => None end.
Definition owner_of (x : Z * role) : option Z := match x.2 with RUpdate _ _ _ => Some x.1 | _ => None end.
Definition starter_of (x : Z * role) : option Z := match x.2 with RStarting _ => Some x.1 | _ => None end.
Definition committer_of (x : Z * role) : option Z := match x.2 with RCommitting _ _ => Some x.1 | _ => None end.
Definition closer_of (x : Z * role) : option Z := match x.2 with RClosing | RDraining _ => Some x.1 | _ => None end.
Definition drainer_of (x : Z * role) : option Z := match x.2 with RDraining _ => Some x.1 | _ => None end.
Definition removing_of (x : Z * role) : option Service := match x.2 with RRemoving s => Some s | _ => None end.

(** The services a role keeps that are not in the registry. *)
Definition holds (x : Z * role) : list Service :=
  match x.2 with
  | RUpdate _ _ (UOwn s _ _) | RUpdate _ _ (UDiscard s) | RRemoving s => [s]
  | RDraining l => l
  | _ => []
  end.
Definition held R : list Service := concat (holds <$> R).

(** ** What was called *)

Definition activated l (s : Service) : Prop := Invoke (Method s MActivate) ∈ l.
Definition close_called l (s : Service) : Prop := Invoke (Method s MClose) ∈ l.
Definition close_done l (s : Service) : Prop := Succeeded (Method s MClose) ∈ l.
Definition untouched l (s : Service) : Prop := (~ close_called l s) /\ ~ close_done l s.
Definition start_called l (s : Service) : Prop := exists st, Invoke (Method s (MStart st)) ∈ l.
Definition created l (s : Service) : Prop := NewService s ∈ l.

(** The persistent state of a service is committed: the last commit was not rolled back. *)
Definition commit_event (s : Service) (b : bool) (e : event) : bool :=
  match e with
  | Succeeded (Method s' MCommit) => if bool_decide (s' = s) then true else b
  | Invoke (Method s' MRollback) => if bool_decide (s' = s) then false else b
  | _ => b
  end.
Definition committed l (s : Service) : bool := fold_left (commit_event s) l false.
Definition commit_ok l (s : Service) : Prop := s_Committer s = true -> committed l s = true.

(** ** The invariant *)

(** The manager is as the update saw it. *)
Definition same_view (tag : string) (sn : snapshot) m : Prop :=
  serviceByTag m !! tag = sn_existing sn /\ started m = sn_started sn
  /\ (sn_started sn = true -> stage m = sn_stage sn) /\ runtimeActive m = sn_active sn
  /\ (sn_active sn = true -> sn_existing sn = None).

Definition update_facts m l (tag : string) (sn : snapshot) (u : ustate) : Prop :=
  match u with
  | UCreating => same_view tag sn m
  | UOwn s com exc =>
      same_view tag sn m /\ (~ activated l s) /\ untouched l s
      /\ (sn_started sn = false -> ~ start_called l s)
      /\ (com = true -> commit_ok l s)
      /\ (exc = true -> forall ex, sn_existing sn = Some ex -> close_called l ex)
  | UPublished s =>
      serviceByTag m !! tag = Some s /\ runtimeActive m = true /\ (~ activated l s) /\ untouched l s /\ commit_ok l s
  | UActivated s => serviceByTag m !! tag = Some s
  | UDiscard _ | UOver => True
  end.

Definition commit_facts m l (ss : list Service) (c : cstate) : Prop :=
  services m = ss
  /\ match c with
     | CPrepare done => runtimeActive m = false /\ (forall s, s ∈ done -> s ∈ ss /\ commit_ok l s)
     | CAbort => runtimeActive m = false
     | CActivate rest =>
         runtimeActive m = true /\ NoDup rest /\ (forall s, s ∈ rest -> s ∈ ss)
         /\ (forall s, s ∈ rest -> ~ activated l s)
         /\ (forall s, s ∈ ss -> (~ close_done l s) /\ commit_ok l s)
     end.

Definition facts m l R r : Prop :=
  match r with
  | RUpdate tag sn u => update_facts m l tag sn u
  | RStarting ss => forall s, s ∈ ss -> s ∈ services m \/ s ∈ omap removing_of R \/ close_called l s
  | RCommitting ss c => commit_facts m l ss c
  | _ => True
  end.

(** A closed service is still in the registry only while it is replaced, or at the end. *)
Definition replacing R (s : Service) : Prop :=
  exists g tag sn s' com, (g, RUpdate tag sn (UOwn s' com true)) ∈ R /\ sn_existing sn = Some s.

Record Inv m l R : Prop := {
  inv_tags : NoDup (omap tag_of R) /\ updates m = list_to_set (omap tag_of R);
  inv_owners : forall g, default 0 (updateOwners m !! g) = Z.of_nat (count_occ Z.eq_dec (omap owner_of R) g);
  inv_starters : (omap starter_of R = [] /\ startInFlight m = 0)
    \/ (omap starter_of R = [startOwner m] /\ startInFlight m = 1 /\ started m = true);
  inv_committers : (omap committer_of R = [] /\ runtimeCommitting m = false)
    \/ (exists g, omap committer_of R = [g] /\ runtimeCommitting m = true /\ omap tag_of R = [] /\ omap starter_of R = []);
  inv_closers : (omap closer_of R = [] /\ closing m = false)
    \/ (exists g, omap closer_of R = [g] /\ closing m = true /\ closed m = false);
  inv_quiet : closed m = true \/ omap drainer_of R <> [] ->
    omap tag_of R = [] /\ omap starter_of R = [] /\ omap committer_of R = [] /\ services m = [] /\ serviceByTag m = ∅;
  inv_registry : forall s, s ∈ services m <-> exists t, serviceByTag m !! t = Some s;
  inv_inj : forall t t' s, serviceByTag m !! t = Some s -> serviceByTag m !! t' = Some s -> t = t';
  inv_nodup : NoDup (services m ++ held R);
  inv_created : forall s, s ∈ services m ++ held R -> created l s;
  inv_facts : forall g r, (g, r) ∈ R -> facts m l R r;
  inv_active : forall s, s ∈ services m -> runtimeActive m = false -> ~ activated l s;
  inv_closed : forall s, s ∈ services m -> close_done l s -> closing m = true \/ replacing R s;
  inv_unstarted : started m = false -> forall s, s ∈ services m -> ~ start_called l s;
  inv_calls : forall s me, Invoke (Method s me) ∈ l \/ Succeeded (Method s me) ∈ l -> created l s;
  inv_kept : forall s, created l s -> s ∈ services m ++ held R \/ close_called l s \/ ~ start_called l s
}.

(** ** Calls *)

(** The calls a role may make. *)
Definition may_call r (c : callee) : Prop :=
  match r, c with
  | RUpdate tag _ UCreating, RegistryCreate tag' => tag' = tag
  | RUpdate _ sn (UOwn s _ _), Method s' (MStart _) => s' = s /\ sn_started sn = true
  | RUpdate _ _ (UOwn s _ _), Method s' (MValidate | MCommit) => s' = s
  | RUpdate _ sn (UOwn _ _ _), Method s' MClose => sn_existing sn = Some s'
  | RUpdate _ _ (UDiscard s), Method s' (MRollback | MClose) => s' = s
  | RUpdate _ _ (UPublished s), Method s' MActivate => s' = s
  | RStarting ss, Method s (MStart _) => s ∈ ss
  | RCommitting ss (CPrepare _), Method s (MValidate | MCommit) => s ∈ ss
  | RCommitting _ (CPrepare _), BeforeCommit => True
  | RCommitting ss CAbort, Method s MRollback => s ∈ ss
  | RCommitting _ CAbort, BeforeRollback => True
  | RCommitting ss (CActivate (s :: _)), Method s' MActivate => s' = s /\ s ∈ ss
  | RRemoving s, Method s' MClose => s' = s
  | RDraining (s :: _), Method s' MClose => s' = s
  | _, _ => False
  end.

(** The role while the call is underway. *)
Definition inside r (c : callee) : role :=
  match r, c with
  | RUpdate tag sn (UPublished s), Method _ MActivate => RUpdate tag sn (UActivated s)
  | RCommitting ss (CActivate (s :: rest)), Method _ MActivate => RCommitting ss (CActivate rest)
  | _, _ => r
  end.
Definition in_call r (c : callee) : Prop := exists r0, may_call r0 c /\ r = inside r0 c.

(** The role when the call has returned. *)
Definition after r (c : callee) : reply c -> role :=
  match c return reply c -> role with
  | RegistryCreate _ => fun v =>
      match r, v with
      | RUpdate tag sn _, inl s => RUpdate tag sn (UOwn s false false)
      | RUpdate tag sn _, inr _ => RUpdate tag sn UOver
      | _, _ => r
      end
  | Method s me =>
      match me return reply (Method s me) -> role with
      | MCommit => fun v =>
          match r, v with
          | RUpdate tag sn (UOwn s _ exc), None => RUpdate tag sn (UOwn s true exc)
          | RCommitting ss (CPrepare done), None => RCommitting ss (CPrepare (done ++ [s]))
          | _, _ => r
          end
      | MClose => fun v =>
          match r, v with
          | RUpdate tag sn (UOwn s com _), None => RUpdate tag sn (UOwn s com true)
          | RUpdate tag sn (UDiscard _), _ => RUpdate tag sn UOver
          | RRemoving _, _ => RFree
          | RDraining (_ :: ss), _ => RDraining ss
          | _, _ => r
          end
      | MActivate => fun _ =>
          match r with
          | RUpdate tag sn (UActivated _) => RUpdate tag sn UOver
          | _ => r
          end
      | _ => fun _ => r
      end
  | _ => fun _ => r
  end.

(** ** Critical sections *)

(** A role is given up for a weaker one. *)
Inductive weaker : role -> role -> Prop :=
| weaker_discard tag sn s com : weaker (RUpdate tag sn (UOwn s com false)) (RUpdate tag sn (UDiscard s))
| weaker_published tag sn s : weaker (RUpdate tag sn (UPublished s)) (RUpdate tag sn UOver)
| weaker_abort ss done : weaker (RCommitting ss (CPrepare done)) (RCommitting ss CAbort)
| weaker_activate ss s rest : weaker (RCommitting ss (CActivate (s :: rest))) (RCommitting ss (CActivate rest)).

(** The manager without the service an update replaces. *)
Definition without (ex : option Service) (ss : list Service) : option (list Service) :=
  match ex with Some ex => remove_service ex ss | None => Some ss end.

Inductive move (g : Z) m : role -> role -> Manager -> signal -> Prop :=
| move_none sg : sg <> Broadcast -> move g m RFree RFree m sg
| move_start st :
    waitForLifecycleIdleLocked g m = None -> idle m = true -> runtimeCommitting m = false -> runtimeActive m = false ->
    move g m RFree (RStarting (services m))
      (m {{ started := true; stage := st; runtimeActive := false; startInFlight ::= Z.succ; startOwner := g }}) Unlock
| move_started ss m' :
    m' = m {{ startInFlight ::= Z.pred }} \/ m' = m {{ startInFlight ::= Z.pred; startOwner := 0 }} ->
    move g m (RStarting ss) RFree m' Broadcast
| move_closing :
    closing m = false -> closed m = false -> move g m RFree RClosing (m {{ closing := true }}) Hold
| move_drain :
    must_wait WaitQuiet g m = false ->
    move g m RClosing (RDraining (services m))
      (m {{ started := false; runtimeActive := false; services := []; serviceByTag := ∅ }}) Unlock
| move_closed : move g m (RDraining []) RFree (m {{ closing := false; closed := true }}) Broadcast
| move_remove tag s ss :
    closing m = false -> closed m = false -> runtimeCommitting m = false -> tag ∉ updates m ->
    serviceByTag m !! tag = Some s -> remove_service s (services m) = Some ss ->
    move g m RFree (if started m then RRemoving s else RFree) (m {{ serviceByTag ::= delete tag; services := ss }}) Unlock
| move_commit :
    waitForLifecycleIdleLocked g m = None -> idle m = true -> runtimeCommitting m = false -> runtimeActive m = false ->
    move g m RFree (RCommitting (services m) (CPrepare [])) (m {{ runtimeCommitting := true }}) Unlock
| move_abort ss done : move g m (RCommitting ss (CPrepare done)) (RCommitting ss CAbort) m Unlock
| move_aborted ss : move g m (RCommitting ss CAbort) RFree (m {{ runtimeCommitting := false }}) Broadcast
| move_activate ss done :
    closing m = false -> closed m = false -> (forall s, s ∈ ss -> s_Committer s = true -> s ∈ done) ->
    move g m (RCommitting ss (CPrepare done)) (RCommitting ss (CActivate ss)) (m {{ runtimeActive := true }}) Unlock
| move_committed ss : move g m (RCommitting ss (CActivate [])) RFree (m {{ runtimeCommitting := false }}) Broadcast
| move_update tag sn :
    closing m = false -> closed m = false -> runtimeCommitting m = false -> tag ∉ updates m ->
    sn = MkSnapshot (started m) (stage m) (runtimeActive m) (serviceByTag m !! tag) ->
    (runtimeActive m = true -> serviceByTag m !! tag = None) ->
    move g m RFree (RUpdate tag sn UCreating) (beginUpdateOwnerLocked g (m {{ updates ::= ({[tag]} ∪.) }})) Unlock
| move_publish tag sn s com exc ss :
    changed tag sn m = false -> without (sn_existing sn) (services m) = Some ss ->
    (sn_active sn = true -> s_Committer s = true -> com = true) ->
    (sn_existing sn <> None -> exc = true) ->
    move g m (RUpdate tag sn (UOwn s com exc)) (RUpdate tag sn (if sn_active sn then UPublished s else UOver))
      (m {{ services := ss ++ [s]; serviceByTag ::= <[tag := s]> }}) Unlock
| move_conflict tag sn s com exc :
    changed tag sn m = true \/ without (sn_existing sn) (services m) = None ->
    move g m (RUpdate tag sn (UOwn s com exc)) (RUpdate tag sn (UDiscard s)) m Unlock
| move_updated tag sn m' :
    updates m' = updates m ∖ {[tag]} ->
    (forall g', default 0 (updateOwners m' !! g') = if decide (g' = g) then Z.max 0 (default 0 (updateOwners m !! g) - 1) else default 0 (updateOwners m !! g')) ->
    m' = m {{ updates := updates m'; updateOwners := updateOwners m' }} ->
    move g m (RUpdate tag sn UOver) RFree m' Broadcast.
