(* ===== verification/ServiceInvariant.v ===== *)
(** * Service manager: the invariant

    Every move of the protocol and every call keeps [Inv]. *)

From S2P Require Import Prelude GoStd Managers ServiceManager ServiceProtocol.
From coqutil Require Import Datatypes.RecordSetters.
Import DoubleBraceUpdate.
Local Open Scope Z_scope.
Implicit Types (r : role) (R : list (Z * role)) (m : Manager) (l : list event).

(** ** Lists of roles *)

Lemma omap_nil_none {A B} (f : A -> option B) (xs : list A) x : omap f xs = [] -> x ∈ xs -> f x = None.
Proof.
  intros H Hx. destruct (f x) as [y|] eqn:E; [|done]. exfalso.
  assert (y ∈ omap f xs) as Hy by (apply list_elem_of_omap; eauto). rewrite H in Hy. by apply elem_of_nil in Hy.
Qed.

Lemma omap_elem {A B} (f : A -> option B) (xs : list A) x y : x ∈ xs -> f x = Some y -> y ∈ omap f xs.
Proof. intros. apply list_elem_of_omap. eauto. Qed.

Lemma held_cons x R : held (x :: R) = holds x ++ held R.
Proof. done. Qed.

Lemma held_perm R R' : R ≡ₚ R' -> held R ≡ₚ held R'.
Proof.
  induction 1 as [|x R R' _ IH|x y R|]; cbn.
  - done.
  - unfold held in IH. by rewrite IH.
  - rewrite !app_assoc. by rewrite (Permutation_app_comm (holds y)).
  - by etrans.
Qed.

Lemma facts_perm m l R R' r : R ≡ₚ R' -> facts m l R r -> facts m l R' r.
Proof.
  intros Hp. destruct r; cbn; try done. intros H s Hs. destruct (H s Hs) as [?|[?|?]]; [by left| |by right; right].
  right; left. by rewrite <- Hp.
Qed.

Lemma single_perm {A} (xs ys : list A) : xs ≡ₚ ys -> xs = [] \/ (exists x, xs = [x]) -> ys = xs.
Proof. intros Hp [->|[x ->]]; symmetry; [by apply Permutation_nil_l|by apply Permutation_singleton_l]. Qed.

Lemma Inv_perm m l R R' : R ≡ₚ R' -> Inv m l R -> Inv m l R'.
Proof.
  intros Hp I. destruct I.
  assert (Hstart : omap starter_of R' = omap starter_of R).
  { apply single_perm; [by rewrite Hp|]. destruct inv_starters as [[-> _]|[-> _]]; eauto. }
  assert (Hcommit : omap committer_of R' = omap committer_of R).
  { apply single_perm; [by rewrite Hp|]. destruct inv_committers as [[-> _]|(g & -> & _)]; eauto. }
  assert (Hclose : omap closer_of R' = omap closer_of R).
  { apply single_perm; [by rewrite Hp|]. destruct inv_closers as [[-> _]|(g & -> & _)]; eauto. }
  assert (Htag : omap tag_of R = [] -> omap tag_of R' = []).
  { intros E. apply Permutation_nil_r. by rewrite <- E, Hp. }
  constructor.
  - rewrite <- Hp. destruct inv_tags as [? ->]. split; [done|]. apply set_eq. intros t. by rewrite !elem_of_list_to_set, Hp.
  - intros g. rewrite inv_owners. f_equal. apply Permutation_count_occ. by rewrite Hp.
  - by rewrite Hstart.
  - rewrite Hcommit, Hstart. destruct inv_committers as [?|(g & ? & ? & ? & ?)]; [by left|right; eauto 6].
  - by rewrite Hclose.
  - intros Hq. rewrite Hstart, Hcommit. destruct inv_quiet as (? & ?); [|by split; auto].
    destruct Hq as [?|Hd]; [by left|right]. intros E. apply Hd, Permutation_nil_r. by rewrite <- E, Hp.
  - done.
  - done.
  - by rewrite <- (held_perm _ _ Hp).
  - intros s. rewrite <- (held_perm _ _ Hp). apply inv_created.
  - intros g r Hin. rewrite <- Hp in Hin. eapply facts_perm; [done|]. eauto.
  - done.
  - intros s Hs Hc. destruct (inv_closed s Hs Hc) as [?|(g & tag & sn & s' & com & Hin & He)]; [by left|right].
    exists g, tag, sn, s', com. by rewrite <- Hp.
  - done.
  - done.
  - intros s Hs. rewrite <- (held_perm _ _ Hp). by apply inv_kept.
Qed.

(** ** Removal *)

Lemma remove_service_perm s ss ss' : remove_service s ss = Some ss' -> ss ≡ₚ s :: ss'.
Proof.
  revert ss'. induction ss as [|x ss IH]; intros ss'; cbn; [done|]. case_bool_decide as E; [intros [= <-]; by subst|].
  destruct (remove_service s ss); cbn; [|done]. intros [= <-]. rewrite (IH _ eq_refl). constructor.
Qed.

Lemma remove_service_in s ss : s ∈ ss -> is_Some (remove_service s ss).
Proof.
  induction ss as [|x ss IH]; [by intros ?%elem_of_nil|]. intros [->|Hs]%elem_of_cons; cbn; [by rewrite bool_decide_true|].
  case_bool_decide; [done|]. destruct (IH Hs) as [ss' ->]. done.
Qed.

(** ** What a move leaves to the others *)

Lemma facts_frame m m' l R R' r :
  (forall tag sn u, r = RUpdate tag sn u -> serviceByTag m' !! tag = serviceByTag m !! tag /\ started m' = started m
     /\ stage m' = stage m /\ runtimeActive m' = runtimeActive m) ->
  (forall ss, r = RStarting ss -> forall s, s ∈ services m \/ s ∈ omap removing_of R ->
     s ∈ services m' \/ s ∈ omap removing_of R' \/ close_called l s) ->
  (forall ss c, r = RCommitting ss c -> services m' = services m /\ runtimeActive m' = runtimeActive m) ->
  facts m l R r -> facts m' l R' r.
Proof.
  intros Hu Hs Hc. destruct r as [|tag sn u|ss|ss c| | |]; cbn; try done.
  - destruct (Hu _ _ _ eq_refl) as (H1 & H2 & H3 & H4). unfold update_facts, same_view. by rewrite H1, H2, H3, H4.
  - intros H s Hin. destruct (H s Hin) as [?|[?|?]]; [apply (Hs _ eq_refl); auto..|auto].
  - destruct (Hc _ _ eq_refl) as [H1 H2]. unfold commit_facts. by rewrite H1, H2.
Qed.

(** When there is no update, start or commit underway. *)
Lemma facts_quiet m m' l R R' g r :
  omap tag_of R = [] -> omap starter_of R = [] -> omap committer_of R = [] -> (g, r) ∈ R -> facts m l R r -> facts m' l R' r.
Proof.
  intros Ht Hs Hc Hin. apply (omap_nil_none _ _ _ Ht) in Hin as Ht'. apply (omap_nil_none _ _ _ Hs) in Hin as Hs'.
  apply (omap_nil_none _ _ _ Hc) in Hin as Hc'. by destruct r.
Qed.

#[local] Arguments held : simpl never.

Ltac manager m := destruct m as [sta clo cld stg act cmt sif sow svs byT upd own]; cbn in *; unfold constant in *.
Ltac inv_split I :=
  destruct I as [[Itn Iup] Iown Ist Ico Icl Iqu Ireg Iinj Ind Icr Ifa Iac Ice Iun Ica Ike]; rewrite held_cons in *; cbn in *.

(** The facts of the role that moved, and those of the others. *)
Lemma facts_split m m' l R g r0 r :
  (forall g0 r1, (g0, r1) ∈ (g, r0) :: R -> facts m l ((g, r0) :: R) r1) ->
  facts m' l ((g, r) :: R) r ->
  (forall g0 r1, (g0, r1) ∈ R -> facts m l ((g, r0) :: R) r1 -> facts m' l ((g, r) :: R) r1) ->
  forall g0 r1, (g0, r1) ∈ (g, r) :: R -> facts m' l ((g, r) :: R) r1.
Proof. intros H Hr Ho g0 r1 [[= -> ->]|Hin]%elem_of_cons; [done|]. apply (Ho g0); [done|]. apply (H g0). by right. Qed.

Lemma replacing_cons g r r' R s :
  (forall tag sn s' com, r = RUpdate tag sn (UOwn s' com true) -> sn_existing sn <> Some s) ->
  replacing ((g, r) :: R) s -> replacing ((g, r') :: R) s.
Proof.
  intros Hne (g0 & tag & sn & s' & com & [[= <- E]|Hin]%elem_of_cons & He); [by destruct (Hne _ _ _ _ (eq_sym E))|].
  exists g0, tag, sn, s', com. split; [by right|done].
Qed.

Ltac closed_goal Ice :=
  let s := fresh "s" in let H := fresh "Hrep" in
  intros s ? ?; destruct (Ice s) as [?|H]; [done..|by left|right; refine (replacing_cons _ _ _ _ _ _ H); by intros].

Lemma quiet_idle m : idle m = true -> updates m = ∅ /\ startInFlight m = 0.
Proof. unfold idle. intros [H1 H2]%andb_true_iff. apply bool_decide_eq_true in H1. lia || (split; [done|lia]). Qed.

Lemma no_tags R : list_to_set (omap tag_of R) = (∅ : gset string) -> omap tag_of R = [].
Proof. destruct (omap tag_of R) as [|t ts]; [done|]. cbn. intros H. exfalso. set_solver. Qed.

Lemma no_drainers R : omap closer_of R = [] -> omap drainer_of R = [].
Proof.
  induction R as [|[g r] R IH]; [done|]. cbn. destruct r; cbn; (done || apply IH).
Qed.

Lemma not_closing m R :
  (omap closer_of R = [] /\ closing m = false) \/ (exists g, omap closer_of R = [g] /\ closing m = true /\ closed m = false) ->
  closing m = false -> omap closer_of R = [] /\ omap drainer_of R = [].
Proof. intros [[H _]|(? & _ & ? & _)] Hc; [|congruence]. split; [done|by apply no_drainers]. Qed.

Lemma may_proceed g m : waitForLifecycleIdleLocked g m = None -> closing m = false /\ closed m = false /\ owns g m = false.
Proof.
  unfold waitForLifecycleIdleLocked. destruct (closing m), (closed m); cbn; [done..|]. by destruct (owns g m).
Qed.

Lemma move_start_inv g m l R st :
  waitForLifecycleIdleLocked g m = None -> idle m = true -> runtimeCommitting m = false -> runtimeActive m = false ->
  Inv m l ((g, RFree) :: R) ->
  Inv (m {{ started := true; stage := st; runtimeActive := false; startInFlight ::= Z.succ; startOwner := g }}) l
    ((g, RStarting (services m)) :: R).
Proof.
  intros Hw [Hu Hs]%quiet_idle Hc Ha I. inv_split I. rewrite Iup in Hu. apply no_tags in Hu.
  destruct Ist as [[Hst _]|[_ [? _]]]; [|lia]. destruct Ico as [[Hco _]|(? & _ & ? & _)]; [|congruence].
  apply may_proceed in Hw as (Hcl & Hcd & _). destruct (not_closing m R Icl Hcl) as [Hcr Hdr]. manager m. subst.
  constructor; cbn; unfold constant; try done.
  - right. by rewrite Hst.
  - by left.
  - by intros [?|?].
  - eapply (facts_split _ _ _ _ _ _ _ Ifa); [by intros s; left|]. intros g0 r1 Hin.
    apply (facts_quiet _ _ _ ((g, RFree) :: R) _ g0); [done..|by right].
  - closed_goal Ice.
Qed.

Lemma move_started_inv g m l R ss m' :
  m' = m {{ startInFlight ::= Z.pred }} \/ m' = m {{ startInFlight ::= Z.pred; startOwner := 0 }} ->
  Inv m l ((g, RStarting ss) :: R) -> Inv m' l ((g, RFree) :: R).
Proof.
  intros Hm' I. inv_split I. destruct Ist as [[[=] _]|([= -> Hst] & Hs & Hsta)].
  destruct Ico as [[Hco Hc]|(? & _ & _ & _ & [=])]. manager m.
  destruct Hm' as [-> | ->]; (constructor; cbn; unfold constant; try done;
    [left; split; [done|lia]|by left
    |intros Hq; destruct (Iqu Hq) as (_ & [=] & _)
    |eapply (facts_split _ _ _ _ _ _ _ Ifa); [done|]; intros g0 r1 Hin; apply facts_frame; naive_solver
    |closed_goal Ice]).
Qed.

Lemma move_closing_inv g m l R :
  closing m = false -> closed m = false -> Inv m l ((g, RFree) :: R) -> Inv (m {{ closing := true }}) l ((g, RClosing) :: R).
Proof.
  intros Hc Hd I. inv_split I. destruct (not_closing m R Icl Hc) as [Hcr Hdr]. manager m. subst.
  constructor; cbn; unfold constant; try done.
  - right. exists g. by rewrite Hcr.
  - eapply (facts_split _ _ _ _ _ _ _ Ifa); [done|]. intros g0 r1 Hin. apply facts_frame; naive_solver.
  - by left.
Qed.

Lemma move_drain_inv g m l R :
  must_wait WaitQuiet g m = false -> Inv m l ((g, RClosing) :: R) ->
  Inv (m {{ started := false; runtimeActive := false; services := []; serviceByTag := ∅ }}) l ((g, RDraining (services m)) :: R).
Proof.
  cbn. intros [[Hc Hu]%orb_false_iff Hs]%orb_false_iff I. inv_split I.
  apply negb_false_iff, bool_decide_eq_true in Hu. rewrite Iup in Hu. apply no_tags in Hu.
  destruct Ist as [[Hst Hsif]|(_ & ? & _)]; [|lia]. destruct Ico as [[Hco _]|(? & _ & ? & _)]; [|congruence].
  destruct Icl as [[[=] _]|(g' & [= -> Hcr] & Hcl & Hcd)].
  manager m. subst. constructor; cbn; unfold constant; try done; try (by left).
  - right. exists g'. by rewrite Hcr.
  - intros s. split; [by intros ?%elem_of_nil|]. intros [t Ht]. by rewrite lookup_empty in Ht.
  - eapply (facts_split _ _ _ _ _ _ _ Ifa); [done|]. intros g0 r1 Hin.
    apply (facts_quiet _ _ _ ((g', RClosing) :: R) _ g0); [done..|by right].
  - by intros s ?%elem_of_nil.
  - by intros _ s ?%elem_of_nil.
Qed.

Lemma move_closed_inv g m l R :
  Inv m l ((g, RDraining []) :: R) -> Inv (m {{ closing := false; closed := true }}) l ((g, RFree) :: R).
Proof.
  intros I. inv_split I. destruct Iqu as (Ht & Hst & Hco & Hss & Hby); [by right|].
  destruct Icl as [[[=] _]|(g' & [= -> Hcr] & Hcl & Hcd)]. manager m. subst.
  constructor; cbn; unfold constant; try done.
  - by left.
  - eapply (facts_split _ _ _ _ _ _ _ Ifa); [done|]. intros g0 r1 Hin. apply facts_frame; naive_solver.
  - by intros s ?%elem_of_nil.
Qed.

(** A service in the registry is not held. *)
Lemma remove_facts m l R s ss tag g :
  Inv m l ((g, RFree) :: R) -> serviceByTag m !! tag = Some s -> remove_service s (services m) = Some ss ->
  (forall x, x ∈ ss <-> x ∈ services m /\ x <> s)
  /\ (forall x, x ∈ ss <-> exists t, delete tag (serviceByTag m) !! t = Some x)
  /\ NoDup (s :: ss ++ held R).
Proof.
  intros I Ht Hr. inv_split I. apply remove_service_perm in Hr. rewrite Hr in Ind. cbn in Ind.
  assert (Hss : forall x, x ∈ ss <-> x ∈ services m /\ x <> s).
  { intros x. rewrite Hr, elem_of_cons. apply NoDup_cons in Ind as [Hn _]. rewrite elem_of_app in Hn. naive_solver. }
  split; [done|]. split; [|done]. intros x. rewrite Hss, Ireg. split.
  - intros [[t Hx] Hne]. exists t. rewrite lookup_delete_ne; [done|]. intros ->. congruence.
  - intros [t [Hne Hx]%lookup_delete_Some]. split; [eauto|]. intros ->. by apply Hne, (Iinj _ _ s).
Qed.

Lemma move_remove_inv g m l R tag s ss :
  closing m = false -> closed m = false -> runtimeCommitting m = false -> tag ∉ updates m ->
  serviceByTag m !! tag = Some s -> remove_service s (services m) = Some ss ->
  Inv m l ((g, RFree) :: R) ->
  Inv (m {{ serviceByTag ::= delete tag; services := ss }}) l ((g, if started m then RRemoving s else RFree) :: R).
Proof.
  intros Hc Hd Hrc Ht Hby Hr I. destruct (remove_facts _ _ _ _ _ _ _ I Hby Hr) as (Hss & Hreg & Hnd).
  inv_split I. destruct (not_closing m R Icl Hc) as [Hcr Hdr]. destruct Ico as [[Hco _]|(? & _ & ? & _)]; [|congruence].
  assert (Hs : s ∈ services m) by (apply Ireg; eauto). rewrite Iup, elem_of_list_to_set in Ht.
  assert (Hheld : holds (g, if started m then RRemoving s else RFree) ++ held R = if started m then s :: held R else held R) by (by destruct (started m)).
  assert (Hfr : forall g0 r1, (g0, r1) ∈ R -> facts m l ((g, RFree) :: R) r1 ->
    facts (m {{ serviceByTag ::= delete tag; services := ss }}) l ((g, if started m then RRemoving s else RFree) :: R) r1).
  { intros g0 r1 Hin. apply facts_frame.
    - intros t sn u ->. split; [|by destruct m]. assert (t <> tag) by (intros ->; apply Ht; by eapply omap_elem).
      destruct m. cbn in *. by rewrite lookup_delete_ne.
    - intros ss' -> x Hx. destruct Ist as [[Hst _]|(_ & _ & Hst)].
      { by apply (omap_nil_none _ _ _ Hst) in Hin. }
      rewrite Hst. cbn in *. destruct (decide (x = s)) as [->|Hne]; [by right; left; left|].
      destruct Hx as [Hx|Hx]; [left; destruct m; apply Hss; done|right; left; by right].
    - intros ss' c ->. by apply (omap_nil_none _ _ _ Hco) in Hin. }
  constructor; rewrite ?held_cons, ?Hheld; manager m; subst.
  - by destruct sta.
  - by destruct sta.
  - by destruct sta.
  - left. by destruct sta.
  - left. by destruct sta.
  - intros [?|Hx]; [done|]. by destruct sta.
  - done.
  - intros t t' x [_ H1]%lookup_delete_Some [_ H2]%lookup_delete_Some. by eapply Iinj.
  - destruct sta; [|by apply NoDup_cons in Hnd as [_ ?]]. by rewrite <- Permutation_middle.
  - intros x Hx. apply Icr. rewrite elem_of_app in *. destruct Hx as [Hx%Hss|Hx]; [by left; destruct Hx|].
    destruct sta; [|by right]. apply elem_of_cons in Hx as [->|?]; [by left|by right].
  - eapply (facts_split _ _ _ _ _ _ _ Ifa); [by destruct sta|exact Hfr].
  - intros x [Hx _]%Hss. by apply Iac.
  - intros x [Hx _]%Hss Hdone. destruct (Ice x Hx Hdone) as [?|Hrep]; [done|right].
    refine (replacing_cons _ _ _ _ _ _ Hrep). by intros.
  - intros -> x [Hx _]%Hss. by apply Iun.
  - done.
  - intros x Hx. destruct (Ike x Hx) as [Hin|?]; [|by right]. rewrite elem_of_app in *.
    destruct Hin as [Hin|Hin].
    + destruct (decide (x = s)) as [->|Hne]; [|by left; left; apply Hss].
      destruct sta; [by left; right; left|]. right; right. by apply Iun.
    + left; right. destruct sta; [by right|done].
Qed.

Lemma move_commit_inv g m l R :
  waitForLifecycleIdleLocked g m = None -> idle m = true -> runtimeCommitting m = false -> runtimeActive m = false ->
  Inv m l ((g, RFree) :: R) ->
  Inv (m {{ runtimeCommitting := true }}) l ((g, RCommitting (services m) (CPrepare [])) :: R).
Proof.
  intros Hw [Hu Hs]%quiet_idle Hc Ha I. inv_split I. rewrite Iup in Hu. apply no_tags in Hu.
  destruct Ist as [[Hst _]|[_ [? _]]]; [|lia]. destruct Ico as [[Hco _]|(? & _ & ? & _)]; [|congruence].
  apply may_proceed in Hw as (Hcl & Hcd & _). destruct (not_closing m R Icl Hcl) as [Hcr Hdr]. manager m. subst.
  constructor; cbn; unfold constant; try done.
  - by left.
  - right. exists g. by rewrite Hco.
  - by intros [?|?].
  - eapply (facts_split _ _ _ _ _ _ _ Ifa); [|].
    + cbn. split; [done|]. split; [done|]. by intros ? ?%elem_of_nil.
    + intros g0 r1 Hin. apply (facts_quiet _ _ _ ((g, RFree) :: R) _ g0); [done..|by right].
  - closed_goal Ice.
Qed.

(** The only commit: the other roles have neither updates nor starts. *)
Lemma committing_alone m l R g ss c :
  Inv m l ((g, RCommitting ss c) :: R) ->
  runtimeCommitting m = true /\ omap committer_of R = [] /\ omap tag_of R = [] /\ omap starter_of R = [].
Proof.
  intros I. inv_split I. destruct Ico as [[[=] _]|(g' & [= -> Hco] & Hc & Ht & Hs)]. done.
Qed.

(** The commit goes on or ends. *)
Lemma move_committing_inv g m l R ss c c' :
  commit_facts m l ss c' ->
  Inv m l ((g, RCommitting ss c) :: R) -> Inv m l ((g, RCommitting ss c') :: R).
Proof.
  intros Hf I. destruct (committing_alone _ _ _ _ _ _ I) as (Hc & Hco & Ht & Hs). inv_split I.
  constructor; cbn; try done.
  - eapply (facts_split _ _ _ _ _ _ _ Ifa); [done|]. intros g0 r1 Hin.
    apply (facts_quiet _ _ _ ((g, RFree) :: R) _ g0); [done..|by right].
  - closed_goal Ice.
Qed.

Lemma move_committed_inv g m l R ss c :
  Inv m l ((g, RCommitting ss c) :: R) -> Inv (m {{ runtimeCommitting := false }}) l ((g, RFree) :: R).
Proof.
  intros I. destruct (committing_alone _ _ _ _ _ _ I) as (Hc & Hco & Ht & Hs). inv_split I. manager m. subst.
  constructor; cbn; unfold constant; try done.
  - by left.
  - intros Hq. by destruct (Iqu Hq) as (? & ? & ? & ?).
  - eapply (facts_split _ _ _ _ _ _ _ Ifa); [done|]. intros g0 r1 Hin.
    apply (facts_quiet _ _ _ ((g, RFree) :: R) _ g0); [done..|by right].
  - closed_goal Ice.
Qed.

Lemma move_activate_inv g m l R ss done :
  closing m = false -> closed m = false -> (forall s, s ∈ ss -> s_Committer s = true -> s ∈ done) ->
  Inv m l ((g, RCommitting ss (CPrepare done)) :: R) ->
  Inv (m {{ runtimeActive := true }}) l ((g, RCommitting ss (CActivate ss)) :: R).
Proof.
  intros Hcl Hcd Hd I. destruct (committing_alone _ _ _ _ _ _ I) as (Hc & Hco & Ht & Hs). inv_split I.
  destruct (Ifa g (RCommitting ss (CPrepare done)) ltac:(by left)) as (<- & Ha & Hcom).
  assert (Hopen : forall s, s ∈ services m -> ~ close_done l s).
  { intros s Hin Hcd'. destruct (Ice s Hin Hcd') as [?|(g0 & t & sn & s' & com & [[=]|Hx]%elem_of_cons & _)]; [congruence|].
    by apply (omap_nil_none _ _ _ Ht) in Hx. }
  manager m. subst. constructor; cbn; unfold constant; try done.
  - eapply (facts_split _ _ _ _ _ _ _ Ifa).
    + cbn. apply NoDup_app in Ind as (Hnd & _ & _). split_and!; try done; [by intros; apply Iac|].
      intros s Hin. split; [by apply Hopen|]. intros Hsc. by apply (Hcom s); [apply Hd|].
    + intros g0 r1 Hin. apply (facts_quiet _ _ _ ((g, RFree) :: R) _ g0); [done..|by right].
  - closed_goal Ice.
Qed.

Lemma move_update_inv g m l R tag sn :
  closing m = false -> closed m = false -> runtimeCommitting m = false -> tag ∉ updates m ->
  sn = MkSnapshot (started m) (stage m) (runtimeActive m) (serviceByTag m !! tag) ->
  (runtimeActive m = true -> serviceByTag m !! tag = None) ->
  Inv m l ((g, RFree) :: R) ->
  Inv (beginUpdateOwnerLocked g (m {{ updates ::= ({[tag]} ∪.) }})) l ((g, RUpdate tag sn UCreating) :: R).
Proof.
  intros Hc Hd Hrc Ht -> Hne I. inv_split I. destruct (not_closing m R Icl Hc) as [Hcr Hdr].
  destruct Ico as [[Hco _]|(? & _ & ? & _)]; [|congruence]. rewrite Iup, elem_of_list_to_set in Ht. unfold beginUpdateOwnerLocked.
  manager m. subst. constructor; cbn; unfold constant; try done.
  - split; [by constructor|done].
  - intros g'. destruct (Z.eq_dec g g') as [<-|Hg]; [rewrite lookup_insert_eq; cbn; rewrite Iown; lia|by rewrite lookup_insert_ne].
  - by left.
  - by intros [?|?].
  - eapply (facts_split _ _ _ _ _ _ _ Ifa); [done|]. intros g0 r1 Hin. apply facts_frame; naive_solver.
  - closed_goal Ice.
Qed.

Lemma changed_false tag sn m :
  changed tag sn m = false ->
  serviceByTag m !! tag = sn_existing sn /\ started m = sn_started sn /\ runtimeActive m = sn_active sn
  /\ runtimeCommitting m = false /\ closing m = false /\ closed m = false.
Proof.
  unfold changed. intros H. repeat (apply orb_false_iff in H as [H ?]).
  repeat match goal with H : negb _ = false |- _ => apply negb_false_iff in H end.
  apply bool_decide_eq_true in H. by repeat match goal with H : eqb _ _ = true |- _ => apply eqb_prop in H end.
Qed.

Lemma changed_true tag sn m : changed tag sn m = true -> same_view tag sn m -> runtimeCommitting m = true \/ closing m = true \/ closed m = true.
Proof.
  unfold changed. intros H (H1 & H2 & H3 & H4 & _). rewrite H1, H2, H4, bool_decide_true, !eqb_reflx in H by done. cbn in H.
  destruct (sn_started sn); cbn in H; [rewrite H3, bool_decide_true in H by done; cbn in H|];
    destruct (runtimeCommitting m), (closing m), (closed m); auto.
Qed.

(** An update is not alone with a commit, a drain or after the close. *)
Lemma updating_open m l R g tag sn u :
  Inv m l ((g, RUpdate tag sn u) :: R) ->
  runtimeCommitting m = false /\ omap committer_of R = [] /\ closed m = false /\ omap drainer_of R = [] /\ tag ∉ omap tag_of R.
Proof.
  intros I. inv_split I. destruct Ico as [[Hco Hc]|(? & _ & _ & [=] & _)]. apply NoDup_cons in Itn as [Hn _].
  split_and!; try done.
  - destruct (closed m); [|done]. destruct Iqu as [[=] _]. by left.
  - destruct (omap drainer_of R); [done|]. destruct Iqu as [[=] _]. by right.
Qed.

(** The registry without the service that is replaced. *)
Lemma without_facts m l R g tag sn u ss :
  Inv m l ((g, RUpdate tag sn u) :: R) -> serviceByTag m !! tag = sn_existing sn ->
  without (sn_existing sn) (services m) = Some ss ->
  (forall x, x ∈ ss <-> x ∈ services m /\ sn_existing sn <> Some x)
  /\ (forall x, x ∈ ss <-> exists t, delete tag (serviceByTag m) !! t = Some x)
  /\ (forall x, x ∈ services m -> x ∈ ss \/ sn_existing sn = Some x)
  /\ exists gone, services m ≡ₚ gone ++ ss.
Proof.
  intros I Hby Hw. inv_split I.
  assert (Hss : (forall x, x ∈ ss <-> x ∈ services m /\ sn_existing sn <> Some x) /\ exists gone, services m ≡ₚ gone ++ ss).
  { destruct (sn_existing sn) as [ex|] eqn:E; cbn in Hw.
    - apply remove_service_perm in Hw. rewrite Hw in Ind. cbn in Ind. apply NoDup_cons in Ind as [Hn _].
      rewrite elem_of_app in Hn. split; [|by exists [ex]]. intros x. rewrite Hw, elem_of_cons. naive_solver.
    - injection Hw as <-. split; [naive_solver|by exists []]. }
  destruct Hss as [Hss Hp]. split_and!; try done.
  - intros x. rewrite Hss, Ireg. split.
    + intros [[t Hx] Hne]. exists t. rewrite lookup_delete_ne; [done|]. intros ->. congruence.
    + intros [t [Hne Hx]%lookup_delete_Some]. split; [eauto|]. rewrite <- Hby. intros Hx'. by apply Hne, (Iinj _ _ x).
  - intros x Hx. destruct (decide (sn_existing sn = Some x)); [by right|left]. by apply Hss.
Qed.

Lemma move_publish_inv g m l R tag sn s com exc ss :
  changed tag sn m = false -> without (sn_existing sn) (services m) = Some ss ->
  (sn_active sn = true -> s_Committer s = true -> com = true) -> (sn_existing sn <> None -> exc = true) ->
  Inv m l ((g, RUpdate tag sn (UOwn s com exc)) :: R) ->
  Inv (m {{ services := ss ++ [s]; serviceByTag ::= <[tag := s]> }}) l
    ((g, RUpdate tag sn (if sn_active sn then UPublished s else UOver)) :: R).
Proof.
  intros Hch Hw Hcom Hexc I. apply changed_false in Hch as (Hby & Hst & Hact & Hrc & Hcl & Hcd).
  destruct (without_facts _ _ _ _ _ _ _ _ I Hby Hw) as (Hss & Hreg & Hor & gone & Hp).
  destruct (updating_open _ _ _ _ _ _ _ I) as (_ & Hco & _ & Hdr & Ht). inv_split I.
  destruct (Ifa g (RUpdate tag sn (UOwn s com exc)) ltac:(by left)) as (Hview & Hna & Hu & Hns & Hck & Hex).
  assert (Hno : sn_existing sn <> Some s).
  { intros E. assert (s ∈ services m) as Hin by (apply Ireg; exists tag; congruence).
    apply NoDup_app in Ind as (_ & Hn & _). apply (Hn s Hin). by left. }
  assert (Hclosed : forall x, sn_existing sn = Some x -> close_called l x).
  { intros x E. apply Hex; [|done]. by rewrite E in Hexc; apply Hexc. }
  assert (Hin : forall x, x ∈ ss ++ [s] <-> x ∈ ss \/ x = s) by (intros x; by rewrite elem_of_app, list_elem_of_singleton).
  assert (Hho : holds (g, RUpdate tag sn (if sn_active sn then UPublished s else UOver)) = []) by (by destruct (sn_active sn)).
  assert (Hnd : NoDup ((ss ++ [s]) ++ held R)).
  { rewrite Hp, <- app_assoc in Ind. apply NoDup_app in Ind as (_ & _ & Ind). by rewrite <- app_assoc. }
  assert (Hother : forall x, x ∈ ss -> x <> s).
  { intros x Hx ->. rewrite <- app_assoc in Hnd. apply NoDup_app in Hnd as (_ & Hn & _). apply (Hn s Hx). by left. }
  constructor; rewrite ?held_cons, ?Hho; manager m; subst; try done.
  - by intros [?|?].
  - intros x. rewrite Hin, Hreg. split.
    + intros [[t [Hne Hx]%lookup_delete_Some] | ->]; [exists t; by rewrite lookup_insert_ne|exists tag; by rewrite lookup_insert_eq].
    + intros [t Hx]. destruct (decide (tag = t)) as [<-|Hne]; [rewrite lookup_insert_eq in Hx; by right; injection Hx|left].
      exists t. rewrite lookup_insert_ne in Hx by done. by rewrite lookup_delete_ne.
  - intros t t' x Hx Hx'. destruct (decide (t = tag)) as [->|Hne], (decide (t' = tag)) as [->|Hne']; [done|exfalso..|].
    + rewrite lookup_insert_eq in Hx. injection Hx as <-. rewrite lookup_insert_ne in Hx' by done.
      apply (Hother s); [|done]. apply Hreg. exists t'. by rewrite lookup_delete_ne.
    + rewrite lookup_insert_eq in Hx'. injection Hx' as <-. rewrite lookup_insert_ne in Hx by done.
      apply (Hother s); [|done]. apply Hreg. exists t. by rewrite lookup_delete_ne.
    + rewrite lookup_insert_ne in Hx, Hx' by done. by eapply Iinj.
  - intros x. rewrite elem_of_app, Hin. intros [[Hx| ->]|Hx]; apply Icr; rewrite elem_of_app;
      [left; by apply Hss|right; by left|right; by right].
  - eapply (facts_split _ _ _ _ _ _ _ Ifa).
    + destruct (sn_active sn) eqn:E; [|done]. cbn. rewrite lookup_insert_eq. split_and!; try done; try apply Hu.
      intros Hsc. by apply Hck; [apply Hcom|].
    + intros g0 r1 Hr1. apply facts_frame.
      * intros t sn1 u ->. split; [|done]. cbn. rewrite lookup_insert_ne; [done|]. intros <-. apply Ht. by eapply omap_elem.
      * intros ss' -> x [Hx|Hx]; [|by right; left]. cbn. destruct (Hor x Hx) as [Hx'|Hx']; [left; apply Hin; by left|right; right; by apply Hclosed].
      * intros ss' c ->. by apply (omap_nil_none _ _ _ Hco) in Hr1.
  - intros x [Hx| ->]%Hin; [|done]. apply Iac. by apply Hss.
  - intros x [Hx| ->]%Hin Hdone; [|by destruct Hu]. apply Hss in Hx as [Hx Hnx].
    destruct (Ice x Hx Hdone) as [?|Hrep]; [done|right]. refine (replacing_cons _ _ _ _ _ _ Hrep). intros ? ? ? ? [= <- <- <- <- _]. done.
  - intros Hf x [Hx| ->]%Hin; [apply Iun; [done|]; by apply Hss|]. by apply Hns.
  - intros x Hx. rewrite elem_of_app, Hin. destruct (Ike x Hx) as [Hi|?]; [|by right].
    apply elem_of_app in Hi as [Hi|[->|Hi]%elem_of_cons]; [|by left; left; right|by left; right].
    destruct (Hor x Hi) as [?|?]; [by left; left; left|right; left; by apply Hclosed].
Qed.

(** The update goes on without touching the manager. *)
Lemma move_updating_inv g m l R tag sn u u' :
  holds (g, RUpdate tag sn u') = holds (g, RUpdate tag sn u) ->
  update_facts m l tag sn u' ->
  (forall s com, u = UOwn s com true -> closing m = true \/ exists s' com', u' = UOwn s' com' true) ->
  Inv m l ((g, RUpdate tag sn u) :: R) -> Inv m l ((g, RUpdate tag sn u') :: R).
Proof.
  intros Hh Hf Hex I. assert (Hheld : held ((g, RUpdate tag sn u') :: R) = held ((g, RUpdate tag sn u) :: R)).
  { by rewrite !held_cons, Hh. }
  destruct I as [? ? ? ? ? ? ? ? ? ? Ifa ? Ice ? ? ?]. constructor; rewrite ?Hheld; try done.
  - eapply (facts_split _ _ _ _ _ _ _ Ifa); [done|]. intros g0 r1 Hin. apply facts_frame; naive_solver.
  - intros s Hs Hd. destruct (Ice s Hs Hd) as [?|(g0 & t & sn0 & s' & com & Hin & He)]; [by left|].
    apply elem_of_cons in Hin as [[= -> -> -> <-]|Hin]; [|right; exists g0, t, sn0, s', com; split; [by right|done]].
    destruct (Hex _ _ eq_refl) as [?|(s1 & com1 & ->)]; [by left|right]. exists g, tag, sn, s1, com1. split; [by left|done].
Qed.

Lemma move_conflict_inv g m l R tag sn s com exc :
  changed tag sn m = true \/ without (sn_existing sn) (services m) = None ->
  Inv m l ((g, RUpdate tag sn (UOwn s com exc)) :: R) -> Inv m l ((g, RUpdate tag sn (UDiscard s)) :: R).
Proof.
  intros Hch I. destruct (updating_open _ _ _ _ _ _ _ I) as (Hrc & _ & Hcd & _).
  refine (move_updating_inv _ _ _ _ _ _ _ _ _ _ _ I); [done..|]. intros _ _ _. left. inv_split I.
  destruct (Ifa g (RUpdate tag sn (UOwn s com exc)) ltac:(by left)) as (Hview & _). destruct Hch as [Hch|Hw].
  - destruct (changed_true _ _ _ Hch Hview) as [?|[?|?]]; congruence.
  - exfalso. destruct (sn_existing sn) as [ex|] eqn:E; [|done]. cbn in Hw. destruct (remove_service_in ex (services m)) as [x Hx]; [|congruence].
    apply Ireg. exists tag. destruct Hview as (-> & _). done.
Qed.

Lemma move_updated_inv g m l R tag sn m' :
  updates m' = updates m ∖ {[tag]} ->
  (forall g', default 0 (updateOwners m' !! g') =
     if decide (g' = g) then Z.max 0 (default 0 (updateOwners m !! g) - 1) else default 0 (updateOwners m !! g')) ->
  m' = m {{ updates := updates m'; updateOwners := updateOwners m' }} ->
  Inv m l ((g, RUpdate tag sn UOver) :: R) -> Inv m' l ((g, RFree) :: R).
Proof.
  intros Hu Ho Hm I. destruct (updating_open _ _ _ _ _ _ _ I) as (Hrc & Hco & Hcd & Hdr & Ht). inv_split I.
  rewrite Hm. clear Hm. revert Hu Ho. generalize (updates m') as u, (updateOwners m') as ow. intros u ow -> Ho. manager m. subst.
  apply NoDup_cons in Itn as [_ Itn]. constructor; cbn; unfold constant; try done.
  - split; [done|]. apply set_eq. intros t. rewrite elem_of_difference, elem_of_union, elem_of_singleton, elem_of_list_to_set. naive_solver.
  - intros g'. rewrite Ho. specialize (Iown g'). destruct (decide (g' = g)) as [->|Hg]; destruct (Z.eq_dec _ _); try done; rewrite Iown; lia.
  - by left.
  - by intros [?|?].
  - eapply (facts_split _ _ _ _ _ _ _ Ifa); [done|]. intros g0 r1 Hin. apply facts_frame; naive_solver.
  - closed_goal Ice.
Qed.

Lemma weaker_inv g m l R r r' : weaker r r' -> Inv m l ((g, r) :: R) -> Inv m l ((g, r') :: R).
Proof.
  intros Hw I. pose proof (inv_facts _ _ _ I g r ltac:(by left)) as Hf. destruct Hw.
  - by refine (move_updating_inv _ _ _ _ _ _ _ _ _ _ _ I).
  - by refine (move_updating_inv _ _ _ _ _ _ _ _ _ _ _ I).
  - refine (move_committing_inv _ _ _ _ _ _ _ _ I). by destruct Hf as (? & ? & ?).
  - refine (move_committing_inv _ _ _ _ _ _ _ _ I). destruct Hf as (? & ? & Hnd & Hsub & Hna & ?). apply NoDup_cons in Hnd as [_ ?].
    split_and!; try done; intros; [apply Hsub|apply Hna]; by right.
Qed.

Lemma move_inv g m l R r r' m' sg : move g m r r' m' sg -> Inv m l ((g, r) :: R) -> Inv m' l ((g, r') :: R).
Proof.
  destruct 1; intros I.
  - done.
  - by apply move_start_inv.
  - by eapply move_started_inv.
  - by apply move_closing_inv.
  - by apply move_drain_inv.
  - by apply move_closed_inv.
  - by eapply move_remove_inv.
  - by apply move_commit_inv.
  - eapply weaker_inv; [constructor|done].
  - by eapply move_committed_inv.
  - by eapply move_activate_inv.
  - by eapply move_committed_inv.
  - by apply move_update_inv.
  - by eapply move_publish_inv.
  - by eapply move_conflict_inv.
  - by eapply move_updated_inv.
Qed.

(** ** Calls *)

(** The events that change what the facts say of a service. *)
Definition touches (e : event) (s : Service) : Prop :=
  e = Invoke (Method s MActivate) \/ e = Invoke (Method s MClose) \/ e = Succeeded (Method s MClose)
  \/ e = Invoke (Method s MRollback).
Definition starts (e : event) (s : Service) : Prop := exists st, e = Invoke (Method s (MStart st)).

#[local] Instance starts_dec e s : Decision (starts e s).
Proof.
  destruct e as [c| | | |]; [destruct c as [|s' [st| | | | |]| |]|..]; try (right; by intros []).
  destruct (decide (s' = s)) as [->|]; [left; by exists st|right; intros []; congruence].
Defined.

Lemma elem_snoc {A} (x y : A) xs : x ∈ xs ++ [y] <-> x ∈ xs \/ x = y.
Proof. by rewrite elem_of_app, list_elem_of_singleton. Qed.

Lemma committed_snoc l e s : committed (l ++ [e]) s = commit_event s (committed l s) e.
Proof. unfold committed. by rewrite fold_left_app. Qed.

Lemma commit_ok_snoc l e s : ~ touches e s -> commit_ok l s -> commit_ok (l ++ [e]) s.
Proof.
  intros Ht H Hc. specialize (H Hc). rewrite committed_snoc. unfold commit_event, touches in *.
  destruct e as [[| ? []| |]|[| ? []| |]| | |]; try done; case_bool_decide; subst; try done. naive_solver.
Qed.

Lemma activated_snoc l e s : ~ touches e s -> ~ activated l s -> ~ activated (l ++ [e]) s.
Proof. unfold activated, touches. rewrite elem_snoc. naive_solver. Qed.
Lemma untouched_snoc l e s : ~ touches e s -> untouched l s -> untouched (l ++ [e]) s.
Proof. unfold untouched, close_called, close_done, touches. rewrite !elem_snoc. naive_solver. Qed.
Lemma close_done_snoc l e s : ~ touches e s -> ~ close_done l s -> ~ close_done (l ++ [e]) s.
Proof. unfold close_done, touches. rewrite !elem_snoc. naive_solver. Qed.
Lemma start_called_snoc l e s : ~ starts e s -> ~ start_called l s -> ~ start_called (l ++ [e]) s.
Proof. unfold start_called, starts. intros He Hs [st [H|H]%elem_snoc]; eauto. Qed.
Lemma close_called_snoc l e s : close_called l s -> close_called (l ++ [e]) s.
Proof. unfold close_called. rewrite elem_snoc. auto. Qed.

(** The services the facts of a role are about. *)
Definition concerns (r : role) (s : Service) : Prop :=
  match r with
  | RUpdate _ _ (UOwn s' _ _ | UPublished s') => s = s'
  | RCommitting ss _ => s ∈ ss
  | _ => False
  end.
Definition unstarted (r : role) (s : Service) : Prop :=
  match r with RUpdate _ sn (UOwn s' _ _) => s = s' /\ sn_started sn = false | _ => False end.

Lemma facts_log m l e R R' r :
  omap removing_of R' = omap removing_of R \/ (forall s, s ∈ omap removing_of R -> s ∈ omap removing_of R' \/ close_called (l ++ [e]) s) ->
  (forall s, concerns r s -> ~ touches e s) -> (forall s, unstarted r s -> ~ starts e s) ->
  facts m l R r -> facts m (l ++ [e]) R' r.
Proof.
  intros HR Ht Hs. destruct r as [|tag sn u|ss|ss c| | |]; cbn in *; try done.
  - destruct u as [|s com exc|s|s|s|]; cbn; try done.
    + intros (Hv & Ha & Hu & Hst & Hc & He). split_and!; [done|apply activated_snoc; auto|apply untouched_snoc; auto
        |intros; apply start_called_snoc; auto|intros; apply commit_ok_snoc; auto|intros; apply close_called_snoc; eauto].
    + intros (Hv & Hx & Ha & Hu & Hc). split_and!; [done|done|apply activated_snoc; auto|apply untouched_snoc; auto|apply commit_ok_snoc; auto].
  - intros H s Hin. destruct (H s Hin) as [?|[Hr|?]]; [by left| |right; right; by apply close_called_snoc].
    right. destruct HR as [->|HR]; [by left|by apply HR].
  - intros [Hm Hc]. split; [done|]. destruct c as [dn| |rest]; [|done|].
    + destruct Hc as [Ha Hc]. split; [done|]. intros s Hin. destruct (Hc s Hin). split; [done|]. apply commit_ok_snoc; auto.
    + destruct Hc as (Ha & Hn & Hsub & Hna & Hcc). split_and!; try done; intros s Hin.
      * apply activated_snoc; auto.
      * destruct (Hcc s Hin). split; [apply close_done_snoc; auto|apply commit_ok_snoc; auto].
Qed.

Lemma holds_held x R s : x ∈ R -> s ∈ holds x -> s ∈ held R.
Proof. intros Hx Hs. unfold held. apply list_elem_of_In, in_concat. exists (holds x). split; [|by apply list_elem_of_In].
  apply list_elem_of_In, list_elem_of_fmap. eauto. Qed.

Lemma held_once x y R s : NoDup (held R) -> x ∈ R -> y ∈ R -> s ∈ holds x -> s ∈ holds y -> x = y.
Proof.
  induction R as [|z R IH]; [by intros _ ?%elem_of_nil|]. rewrite held_cons. intros (Hn & Hd & Hr)%NoDup_app.
  intros [->|Hx]%elem_of_cons [->|Hy]%elem_of_cons Hsx Hsy; [done|exfalso..|by apply IH].
  - apply (Hd s Hsx). by eapply holds_held.
  - apply (Hd s Hsy). by eapply holds_held.
Qed.

Definition called r (c : callee) : Prop := may_call r c \/ in_call r c.

(** Where the service is whose method a role calls. *)
Lemma call_class m l R g r s me :
  Inv m l ((g, r) :: R) -> called r (Method s me) ->
  s ∈ holds (g, r)
  \/ (exists tag sn u, r = RUpdate tag sn u /\ serviceByTag m !! tag = Some s)
  \/ (exists ss c, r = RCommitting ss c /\ s ∈ services m)
  \/ (exists ss st, r = RStarting ss /\ me = MStart st /\ (s ∈ services m \/ s ∈ omap removing_of R \/ close_called l s)).
Proof.
  intros I Hc. pose proof (inv_facts _ _ _ I g r ltac:(by left)) as Hf.
  assert (Hm : exists r0, may_call r0 (Method s me) /\ (r = r0 \/ r = inside r0 (Method s me))).
  { destruct Hc as [?|(r0 & ? & ->)]; eauto. }
  clear Hc. destruct Hm as (r0 & Hm & Hr). destruct r0 as [|tag sn u|ss|ss c| |ss|s0]; cbn in Hm.
  - done.
  - destruct u as [|s0 com exc|s0|s0|s0|]; try done.
    + destruct me; try done; destruct Hr as [-> | ->]; cbn in Hf;
        first [left; (destruct Hm as [-> _] || subst s); by left
              |right; left; do 3 eexists; (split; [done|]); destruct Hf as ((-> & _) & _); done].
    + destruct me; try done; subst; destruct Hr as [-> | ->]; left; left.
    + destruct me; try done. subst. right; left. destruct Hr as [-> | ->]; cbn in Hf; do 3 eexists; (split; [done|]); [by destruct Hf|done].
  - destruct me; try done. right; right; right. destruct Hr as [-> | ->]; cbn in Hf; do 2 eexists; by auto.
  - right; right; left. destruct Hr as [-> | ->]; destruct c as [?| |[|? ?]], me; try done; cbn in Hf; destruct Hf as [<- Hf];
      do 2 eexists; (split; [done|]); (done || by destruct Hm as [-> ?]).
  - done.
  - destruct ss, me; try done. subst. left. destruct Hr as [-> | ->]; by left.
  - destruct me; try done. subst. left. destruct Hr as [-> | ->]; by left.
Qed.

(** A call does not disturb the others. *)
Lemma others_undisturbed m l R g r s me g1 r1 :
  Inv m l ((g, r) :: R) -> called r (Method s me) -> (g1, r1) ∈ R ->
  (concerns r1 s -> exists st, me = MStart st) /\ ~ unstarted r1 s.
Proof.
  intros I Hc Hin. pose proof (call_class _ _ _ _ _ _ _ I Hc) as Hcl. pose proof (inv_facts _ _ _ I g1 r1 ltac:(by right)) as Hf.
  pose proof I as I0. inv_split I. apply NoDup_app in Ind as (Hnd & Hsep & Hndh).
  assert (Hsv : forall tag, serviceByTag m !! tag = Some s -> s ∈ services m) by (intros; apply Ireg; eauto).
  assert (Hown : forall tag sn com exc, r1 = RUpdate tag sn (UOwn s com exc) -> s ∈ held R).
  { intros ? ? ? ? ->. eapply holds_held; [done|]. by left. }
  destruct Hcl as [Hh|[(tag & sn & u & -> & Hby)|[(ss & c & -> & Hs)|(ss & st & -> & -> & Hs)]]].
  - assert (Hns : s ∉ services m) by (intros ?; apply (Hsep s); [done|]; apply elem_of_app; by left).
    assert (Hno : s ∉ held R) by (apply NoDup_app in Hndh as (_ & Hx & _); by apply Hx).
    destruct r1 as [|tag1 sn1 [|s1 ? ?|s1|s1|s1|]|ss1|ss1 c1| | |]; cbn in *; split; try done; try (by intros []).
    + intros <-. by destruct Hno; eapply Hown.
    + intros [<- _]. by destruct Hno; eapply Hown.
    + intros <-. destruct Hf as (Hf & _). by apply Hsv in Hf.
    + intros Hin1. destruct Hf as [<- _]. done.
  - destruct (updating_open _ _ _ _ _ _ _ I0) as (_ & Hco & _ & _ & Ht).
    assert (Hno : s ∉ held R) by (intros ?; apply (Hsep s); [by eapply Hsv|]; apply elem_of_app; by right).
    destruct r1 as [|tag1 sn1 [|s1 ? ?|s1|s1|s1|]|ss1|ss1 c1| | |]; cbn in *; split; try done; try (by intros []).
    + intros <-. by destruct Hno; eapply Hown.
    + intros [<- _]. by destruct Hno; eapply Hown.
    + intros <-. destruct Hf as (Hf & _). destruct Ht. rewrite (Iinj _ _ _ Hby Hf). by eapply omap_elem.
    + by apply (omap_nil_none _ _ _ Hco) in Hin.
  - destruct (committing_alone _ _ _ _ _ _ I0) as (_ & Hco & Ht & _).
    destruct r1 as [|tag1 sn1 u1|ss1|ss1 c1| | |]; try (by split; intros []).
    + by apply (omap_nil_none _ _ _ Ht) in Hin.
    + by apply (omap_nil_none _ _ _ Hco) in Hin.
  - split; [by eauto|]. destruct r1 as [|tag1 sn1 [|s1 ? ?|s1|s1|s1|]|ss1|ss1 c1| | |]; cbn in *; try (by intros []). intros [<- Hst].
    destruct Hf as (_ & _ & Hu & _). destruct Hs as [Hs|[Hs|Hs]].
    + apply (Hsep s Hs). by eapply Hown.
    + apply list_elem_of_omap in Hs as ([g2 r2] & Hin2 & E). destruct r2; try done. injection E as ->.
      by pose proof (held_once _ _ _ s Hndh Hin Hin2 ltac:(by left) ltac:(by left)).
    + by destruct Hu.
Qed.

(** Roles that count the same. *)
Definition kin r r' : Prop :=
  forall g, tag_of (g, r') = tag_of (g, r) /\ owner_of (g, r') = owner_of (g, r) /\ starter_of (g, r') = starter_of (g, r)
    /\ committer_of (g, r') = committer_of (g, r) /\ closer_of (g, r') = closer_of (g, r) /\ drainer_of (g, r') = drainer_of (g, r).

Lemma omap_head {A B} (f : A -> option B) x x' xs : f x' = f x -> omap f (x' :: xs) = omap f (x :: xs).
Proof. intros H. cbn. by rewrite H. Qed.

(** The log grows by an event of one role, whose services it may drop once they are closed. *)
Lemma log_step m l e g r r' R dropped :
  Inv m l ((g, r) :: R) -> kin r r' ->
  holds (g, r) = dropped ++ holds (g, r') -> (forall s, s ∈ dropped -> close_called l s) ->
  (forall s, removing_of (g, r) = Some s -> removing_of (g, r') = Some s \/ close_called l s) ->
  facts m (l ++ [e]) ((g, r') :: R) r' ->
  (forall g1 r1 s, (g1, r1) ∈ R -> (concerns r1 s -> ~ touches e s) /\ (unstarted r1 s -> ~ starts e s)) ->
  (forall s, s ∈ services m -> runtimeActive m = false -> e <> Invoke (Method s MActivate)) ->
  (forall s, s ∈ services m -> e = Succeeded (Method s MClose) -> replacing ((g, r') :: R) s) ->
  (forall s, replacing ((g, r) :: R) s -> replacing ((g, r') :: R) s) ->
  (started m = false -> forall s, s ∈ services m -> ~ starts e s) ->
  (forall s me, e = Invoke (Method s me) \/ e = Succeeded (Method s me) -> created l s) ->
  (forall s, starts e s -> s ∈ services m ++ held ((g, r) :: R) \/ close_called l s) ->
  (forall s, e <> NewService s) ->
  Inv m (l ++ [e]) ((g, r') :: R).
Proof.
  intros I Hk Hh Hdr Hrm Hf Ho Ha Hcl Hrep Hst Hcr Hke Hnew. destruct (Hk g) as (K1 & K2 & K3 & K4 & K5 & K6).
  assert (Hpd : forall s, s ∈ services m ++ held ((g, r) :: R) -> s ∈ services m ++ held ((g, r') :: R) \/ close_called l s).
  { intros s. rewrite !held_cons, Hh, !elem_of_app. naive_solver. }
  assert (Hnewl : forall s, created (l ++ [e]) s -> created l s).
  { unfold created. intros s [?|E]%elem_snoc; [done|]. by destruct (Hnew s). }
  destruct I as [Itn Iown Ist Ico Icl Iqu Ireg Iinj Ind Icr Ifa Iac Ice Iun Ica Ike].
  constructor; rewrite ?(omap_head _ _ _ _ K1), ?(omap_head _ _ _ _ K2), ?(omap_head _ _ _ _ K3), ?(omap_head _ _ _ _ K4),
    ?(omap_head _ _ _ _ K5), ?(omap_head _ _ _ _ K6); try done.
  - rewrite held_cons, Hh, <- app_assoc, Permutation_app_swap_app in Ind. by apply NoDup_app in Ind as (_ & _ & ?).
  - intros s Hs. apply elem_snoc. left. apply Icr. rewrite held_cons, Hh, !elem_of_app in *. naive_solver.
  - intros g0 r1 [[= -> ->]|Hin]%elem_of_cons; [done|]. eapply facts_log; [| | |by apply (Ifa g0); right].
    + right. intros s Hs. cbn in Hs |- *. destruct (removing_of (g, r)) as [x|] eqn:E.
      * apply elem_of_cons in Hs as [->|Hs].
        -- destruct (Hrm _ eq_refl) as [-> |?]; [left; by left|right; by apply close_called_snoc].
        -- left. destruct (removing_of (g, r')); [by right|done].
      * left. destruct (removing_of (g, r')); [by right|done].
    + intros s. by apply (Ho g0 r1 s).
    + intros s. by apply (Ho g0 r1 s).
  - intros s Hs Hr [?|E]%elem_snoc; [by eapply Iac|]. by eapply Ha.
  - intros s Hs [Hd|E]%elem_snoc; [|right; by apply Hcl]. destruct (Ice s Hs Hd); [by left|right; by apply Hrep].
  - intros Hf' s Hs. apply start_called_snoc; [by apply Hst|by apply Iun].
  - intros s me H. apply elem_snoc. left. rewrite !elem_snoc in H. destruct H as [[H|H]|[H|H]];
      [apply (Ica s me); by left|apply (Hcr s me); by left|apply (Ica s me); by right|apply (Hcr s me); by right].
  - intros s Hs. destruct (Ike s (Hnewl s Hs)) as [Hin|[?|Hn]]; [|right; left; by apply close_called_snoc|].
    + destruct (Hpd s Hin); [by left|right; left; by apply close_called_snoc].
    + destruct (decide (starts e s)) as [He|He].
      * destruct (Hke s He) as [Hin|?]; [destruct (Hpd s Hin); [by left|]|]; right; left; by apply close_called_snoc.
      * right; right. by apply start_called_snoc.
Qed.

Lemma call_created m l R g r s me : Inv m l ((g, r) :: R) -> called r (Method s me) -> created l s.
Proof.
  intros I Hc. pose proof (call_class _ _ _ _ _ _ _ I Hc) as Hcl. destruct I as [? ? ? ? ? ? Ireg ? ? Icr ? ? ? ? Ica ?].
  assert (Hs : s ∈ services m -> created l s) by (intros; apply Icr, elem_of_app; by left).
  destruct Hcl as [Hh|[(tag & sn & u & -> & Hby)|[(ss & c & -> & Hin)|(ss & st & -> & -> & [?|[Hin|Hin]])]]].
  - apply Icr, elem_of_app. right. rewrite held_cons. apply elem_of_app. by left.
  - apply Hs, Ireg. eauto.
  - auto.
  - auto.
  - apply list_elem_of_omap in Hin as ([g2 r2] & Hin2 & E). destruct r2; try done. injection E as ->.
    apply Icr, elem_of_app. right. eapply holds_held; [by right|]. by left.
  - apply (Ica s MClose). by left.
Qed.

(** The facts of the caller, while the call is underway. *)
Lemma invoke_facts m l R g r c :
  Inv m l ((g, r) :: R) -> may_call r c -> facts m (l ++ [Invoke c]) ((g, inside r c) :: R) (inside r c).
Proof.
  intros I Hc. pose proof (inv_facts _ _ _ I g r ltac:(by left)) as Hf.
  destruct r as [|tag sn u|ss|ss cs| |ss|s0]; cbn in Hc; try done; try (by destruct c as [|? []| |]).
  - destruct u as [|s0 com exc|s0|s0|s0|]; try done; try (by destruct c as [|? []| |]).
    + assert (Hne : forall ex, sn_existing sn = Some ex -> ex <> s0).
      { intros ex E ->. destruct Hf as ((Hby & _) & _). rewrite E in Hby. destruct I as [? ? ? ? ? ? Ireg ? Ind ? ? ? ? ? ? ?].
        apply NoDup_app in Ind as (_ & Hn & _). apply (Hn s0); [apply Ireg; eauto|]. rewrite held_cons. by left. }
      destruct c as [|s me| |]; try done. assert (Hi : inside (RUpdate tag sn (UOwn s0 com exc)) (Method s me) = RUpdate tag sn (UOwn s0 com exc)) by done.
      rewrite Hi. refine (facts_log _ _ _ _ _ _ _ _ _ Hf); [by left|..]; cbn.
      * intros s1 -> Ht. destruct me; try (by destruct Ht as [|[|[]]]). assert (s = s0) by (by destruct Ht as [[=]|[[=]|[[=]|[=]]]]).
        subst. by destruct (Hne s0).
      * intros s1 [-> Hst] [st [= <- ->]]. by destruct Hc; congruence.
    + destruct c as [|s me| |]; try done. destruct me; try done. by destruct Hf as (? & _).
  - destruct c as [|s me| |]; try done. destruct me; try done. refine (facts_log _ _ _ _ _ _ _ _ _ Hf); [by left|done..].
  - destruct cs as [dn| |[|s0 rest]].
    + destruct c as [|s me| |]; [done| |refine (facts_log _ _ _ _ _ _ _ _ _ Hf); [by left|..|done]; by intros ? ? [|[|[]]]|done].
      destruct me; try done; (refine (facts_log _ _ _ _ _ _ _ _ _ Hf); [by left|..|done]; by intros ? ? [|[|[]]]).
    + by destruct c as [|s []| |].
    + by destruct c as [|s []| |].
    + destruct c as [|s []| |]; try done. destruct Hc as [-> _]. destruct Hf as (Hs & Ha & Hnd & Hsub & Hna & Hcc).
      apply NoDup_cons in Hnd as [Hnin Hnd]. split; [done|]. split_and!; try done.
      * intros x Hx. apply Hsub. by right.
      * intros x Hx [?|[= ->]]%elem_snoc; [|done]. apply (Hna x); [by right|done].
      * intros x Hx. destruct (Hcc x Hx) as [Hd Hk]. split; [by intros [?|?]%elem_snoc|]. intros E. rewrite committed_snoc. by apply Hk.
Qed.

Lemma invoke_inv m l R g r c : Inv m l ((g, r) :: R) -> may_call r c -> Inv m (l ++ [Invoke c]) ((g, inside r c) :: R).
Proof.
  intros I Hc. pose proof (inv_facts _ _ _ I g r ltac:(by left)) as Hf.
  assert (Hkin : kin r (inside r c)).
  { intros g0. by destruct r as [|? ? []|?|? [?| |[]]| | |], c as [|? []| |]. }
  assert (Hh : holds (g, r) = [] ++ holds (g, inside r c)).
  { by destruct r as [|? ? []|?|? [?| |[]]| | |], c as [|? []| |]. }
  assert (Hrm : removing_of (g, inside r c) = removing_of (g, r)).
  { by destruct r as [|? ? []|?|? [?| |[]]| | |], c as [|? []| |]. }
  refine (log_step _ _ _ _ _ _ _ [] I Hkin Hh _ _ (invoke_facts _ _ _ _ _ _ I Hc) _ _ _ _ _ _ _ _).
  - by intros ? ?%elem_of_nil.
  - rewrite Hrm. by left.
  - intros g1 r1 s Hin. destruct c as [|s' me| |]; try (by split; [intros _ [|[|[]]]|intros _ []]).
    destruct (others_undisturbed _ _ _ _ _ s' me _ _ I (or_introl Hc) Hin) as [H1 H2]. split.
    + intros Hcon Ht. assert (s' = s /\ forall st, me <> MStart st) as [-> Hne] by (by destruct Ht as [[=]|[[=]|[[=]|[=]]]]; subst).
      destruct (H1 Hcon) as [st ?]. by destruct (Hne st).
    + intros Hun [st [= -> ->]]. done.
  - intros s Hs Ha [= ->]. destruct r as [|? ? []|?|? [?| |[]]| |[]|]; cbn in Hc, Hf; try done.
    + destruct Hf as (_ & ? & _). congruence.
    + destruct Hf as (_ & ? & _). congruence.
  - done.
  - intros s (g0 & tag & sn & s' & com & [[= <- <-]|Hin]%elem_of_cons & He); exists g0, tag, sn, s', com; (split; [|done]).
    + by left.
    + by right.
  - intros Hs s Hin [st [= ->]]. destruct r as [|? sn []|ss|? [?| |[]]| |[]|]; cbn in Hc, Hf; try done.
    + destruct Hc as [_ Hc]. destruct Hf as ((_ & ? & _) & _). congruence.
    + destruct (inv_starters _ _ _ I) as [[[=] _]|(_ & _ & ?)]. congruence.
  - intros s me [[= ->]|[=]]. by eapply call_created; [|left].
  - intros s [st [= ->]]. destruct (call_class _ _ _ _ _ s _ I (or_introl Hc)) as [Hin|[(tag & sn & u & -> & Hby)|[(ss & cs & -> & Hin)|(ss & st' & -> & _ & [?|[Hin|?]])]]].
    + left. rewrite held_cons, !elem_of_app. auto.
    + left. rewrite elem_of_app. left. apply (inv_registry _ _ _ I). eauto.
    + left. rewrite elem_of_app. auto.
    + left. rewrite elem_of_app. auto.
    + left. apply list_elem_of_omap in Hin as ([g2 r2] & Hin2 & E). destruct r2; try done. injection E as ->.
      rewrite elem_of_app. right. eapply holds_held; [by right|]. by left.
    + by right.
  - done.
Qed.

Lemma return_step m l R g r c r' e dropped :
  Inv m l ((g, r) :: R) -> in_call r c -> e = Succeeded c \/ e = Failed c -> kin r r' ->
  holds (g, r) = dropped ++ holds (g, r') -> (forall s, s ∈ dropped -> close_called l s) ->
  (forall s, removing_of (g, r) = Some s -> removing_of (g, r') = Some s \/ close_called l s) ->
  facts m (l ++ [e]) ((g, r') :: R) r' ->
  (forall s, s ∈ services m -> e = Succeeded (Method s MClose) -> replacing ((g, r') :: R) s) ->
  (forall s, replacing ((g, r) :: R) s -> replacing ((g, r') :: R) s) ->
  Inv m (l ++ [e]) ((g, r') :: R).
Proof.
  intros I Hc He Hk Hh Hd Hrm Hf Hcl Hrep.
  refine (log_step _ _ _ _ _ _ _ dropped I Hk Hh Hd Hrm Hf _ _ Hcl Hrep _ _ _ _).
  - intros g1 r1 s Hin. split; [|by intros _ [st ->]; destruct He]. intros Hcon Ht.
    assert (c = Method s MClose) as -> by (destruct Ht as [-> |[-> |[-> | ->]]]; by destruct He as [[=]|[=]]).
    by destruct (others_undisturbed _ _ _ _ _ s MClose _ _ I (or_intror Hc) Hin) as [[st ?] _].
  - intros s _ _ ->. by destruct He.
  - intros _ s _ [st ->]. by destruct He.
  - intros s me [-> | ->]; [by destruct He|]. destruct He as [[= <-]|[=]]. by eapply call_created; [|right].
  - intros s [st ->]. by destruct He.
  - intros s ->. by destruct He.
Qed.

(** The call returns and the role stays. *)
Lemma return_same m l R g r c e :
  Inv m l ((g, r) :: R) -> in_call r c -> e = Succeeded c \/ e = Failed c -> (forall s, e <> Succeeded (Method s MClose)) ->
  Inv m (l ++ [e]) ((g, r) :: R).
Proof.
  intros I Hc He Hcl. refine (return_step _ _ _ _ _ _ _ _ [] I Hc He _ _ _ _ _ _ _); [done|done|by intros ? ?%elem_of_nil|by left| | |done].
  - refine (facts_log _ _ _ _ _ _ _ _ _ (inv_facts _ _ _ I g r ltac:(by left))); [by left|..].
    + intros s _ [-> |[-> |[-> | ->]]]; try (by destruct He). by destruct (Hcl s).
    + intros s _ [st ->]. by destruct He.
  - intros s _ ->. by destruct (Hcl s).
Qed.

(** A new service. *)
Lemma new_inv m l R g tag sn s :
  Inv m l ((g, RUpdate tag sn UCreating) :: R) -> ~ created l s ->
  Inv m (l ++ [NewService s]) ((g, RUpdate tag sn (UOwn s false false)) :: R).
Proof.
  intros I Hnew. pose proof (inv_facts _ _ _ I g _ ltac:(by left)) as Hf.
  assert (Hno : forall me, (Invoke (Method s me) ∉ l) /\ Succeeded (Method s me) ∉ l).
  { intros me. split; intros H; apply Hnew, (inv_calls _ _ _ I s me); auto. }
  assert (Hns : forall x, ~ touches (NewService s) x) by (by intros x [|[|[]]]).
  assert (Hst : forall x, ~ starts (NewService s) x) by (by intros x []).
  inv_split I. assert (Hfresh : s ∉ services m ++ held R) by (intros ?; by apply Hnew, Icr).
  constructor; rewrite ?held_cons; cbn; try done.
  - rewrite <- Permutation_middle. by constructor.
  - intros x. rewrite <- Permutation_middle, elem_of_cons. unfold created. rewrite elem_snoc. intros [->|Hx]; [by right|left; by apply Icr].
  - intros g0 r1 [[= -> ->]|Hin]%elem_of_cons.
    + cbn. split_and!; try done; unfold untouched, activated, close_called, close_done, start_called; rewrite ?elem_snoc.
      * intros [?|?]; [|done]. by destruct (Hno MActivate).
      * split; (intros [?|?]; [|done]); by destruct (Hno MClose).
      * intros _ [st [?|?]%elem_snoc]; [|done]. by destruct (Hno (MStart st)).
    + refine (facts_log _ _ _ ((g, RUpdate tag sn UCreating) :: R) _ _ _ _ _ (Ifa g0 r1 _)); [by left|auto..|by right].
  - intros x Hx Ha. apply activated_snoc; [done|by apply Iac].
  - intros x Hx [Hd|?]%elem_snoc; [|done]. destruct (Ice x Hx Hd) as [?|Hrep]; [by left|right].
    refine (replacing_cons _ _ _ _ _ _ Hrep). by intros.
  - intros Hs x Hx. apply start_called_snoc; [done|by apply Iun].
  - intros x me H. apply elem_snoc. left. rewrite !elem_snoc in H. apply (Ica x me). naive_solver.
  - intros x [Hx|[= ->]]%elem_snoc; [|left; apply elem_of_app; right; by left].
    destruct (Ike x Hx) as [Hin|[?|?]]; [left|right; left; by apply close_called_snoc|right; right; by apply start_called_snoc].
    rewrite <- Permutation_middle. by right.
Qed.

(** An update's own service is not the one it replaces. *)
Lemma own_not_existing m l R g tag sn s com exc :
  Inv m l ((g, RUpdate tag sn (UOwn s com exc)) :: R) -> sn_existing sn <> Some s.
Proof.
  intros I E. pose proof (inv_facts _ _ _ I g _ ltac:(by left)) as ((Hby & _) & _). rewrite E in Hby.
  destruct I as [? ? ? ? ? ? Ireg ? Ind ? ? ? ? ? ? ?]. apply NoDup_app in Ind as (_ & Hn & _).
  apply (Hn s); [apply Ireg; eauto|]. rewrite held_cons. by left.
Qed.

Lemma return_own_commit m l R g tag sn s com exc :
  Inv m l ((g, RUpdate tag sn (UOwn s com exc)) :: R) -> in_call (RUpdate tag sn (UOwn s com exc)) (Method s MCommit) ->
  Inv m (l ++ [Succeeded (Method s MCommit)]) ((g, RUpdate tag sn (UOwn s true exc)) :: R).
Proof.
  intros I Hc. pose proof (inv_facts _ _ _ I g _ ltac:(by left)) as (Hv & Ha & Hu & Hst & _ & He).
  refine (return_step _ _ _ _ _ _ _ _ [] I Hc _ _ _ _ _ _ _ _); [by left|done|done|by intros ? ?%elem_of_nil|done| |done|].
  - split_and!; [done|apply activated_snoc|apply untouched_snoc|intros; apply start_called_snoc| |intros; apply close_called_snoc]; auto;
      try (by intros [|[|[]]]); try (by intros []).
    intros _ _. rewrite committed_snoc. cbn. by rewrite bool_decide_true.
  - intros x (g0 & t & sn0 & s' & com0 & [[= -> -> -> -> -> <-]|Hin]%elem_of_cons & Hx); do 5 eexists; (split; [|exact Hx]).
    + by left.
    + by right.
Qed.

Lemma return_own_close m l R g tag sn s com exc ex :
  Inv m l ((g, RUpdate tag sn (UOwn s com exc)) :: R) -> in_call (RUpdate tag sn (UOwn s com exc)) (Method ex MClose) ->
  sn_existing sn = Some ex -> close_called l ex ->
  Inv m (l ++ [Succeeded (Method ex MClose)]) ((g, RUpdate tag sn (UOwn s com true)) :: R).
Proof.
  intros I Hc Hex Hcc. pose proof (inv_facts _ _ _ I g _ ltac:(by left)) as (Hv & Ha & Hu & Hst & Hk & _).
  assert (Hne : ex <> s) by (intros ->; by eapply own_not_existing).
  assert (Hnt : ~ touches (Succeeded (Method ex MClose)) s) by (by intros [[=]|[[=]|[[=]|[=]]]]).
  refine (return_step _ _ _ _ _ _ _ _ [] I Hc _ _ _ _ _ _ _ _); [by left|done|done|by intros ? ?%elem_of_nil|done| | |].
  - split_and!; [done|by apply activated_snoc|by apply untouched_snoc|intros; apply start_called_snoc; [by intros []|auto]
      |intros; apply commit_ok_snoc; auto|]. intros _ ex' E. assert (ex' = ex) as -> by congruence. by apply close_called_snoc.
  - intros x Hx [= <-]. do 5 eexists. split; [by left|done].
  - intros x (g0 & t & sn0 & s' & com0 & [[= -> -> -> -> -> <-]|Hin]%elem_of_cons & Hx); do 5 eexists; (split; [|exact Hx]).
    + by left.
    + by right.
Qed.

Lemma return_commit m l R g ss dn s :
  Inv m l ((g, RCommitting ss (CPrepare dn)) :: R) -> in_call (RCommitting ss (CPrepare dn)) (Method s MCommit) -> s ∈ ss ->
  Inv m (l ++ [Succeeded (Method s MCommit)]) ((g, RCommitting ss (CPrepare (dn ++ [s]))) :: R).
Proof.
  intros I Hc Hs. pose proof (inv_facts _ _ _ I g _ ltac:(by left)) as (Hss & Ha & Hd).
  refine (return_step _ _ _ _ _ _ _ _ [] I Hc _ _ _ _ _ _ _ _); [by left|done|done|by intros ? ?%elem_of_nil|done| |done|].
  - split; [done|]. split; [done|]. intros x [Hx| ->]%elem_snoc.
    + destruct (Hd x Hx). split; [done|]. apply commit_ok_snoc; [by intros [|[|[]]]|done].
    + split; [done|]. intros _. rewrite committed_snoc. cbn. by rewrite bool_decide_true.
  - intros x Hrep. refine (replacing_cons _ _ _ _ _ _ Hrep). by intros.
Qed.

(** A service is given up when it was closed. *)
Lemma return_drop m l R g r r' s e :
  Inv m l ((g, r) :: R) -> in_call r (Method s MClose) -> e = Succeeded (Method s MClose) \/ e = Failed (Method s MClose) ->
  close_called l s -> kin r r' -> holds (g, r) = [s] ++ holds (g, r') -> (forall m l R, facts m l R r') ->
  (forall tag sn s' com, r <> RUpdate tag sn (UOwn s' com true)) ->
  Inv m (l ++ [e]) ((g, r') :: R).
Proof.
  intros I Hc He Hcc Hk Hh Hf Hr.
  refine (return_step _ _ _ _ _ _ _ _ [s] I Hc He Hk Hh _ _ (Hf _ _ _) _ _).
  - by intros x ->%list_elem_of_singleton.
  - intros x Hx. right. destruct r; try done. injection Hx as ->. cbn in Hh. injection Hh as ->. done.
  - intros x Hx Ee. rewrite Ee in He. assert (x = s) as -> by (by destruct He as [[=]|[=]]).
    destruct I as [? ? ? ? ? ? ? ? Ind ? ? ? ? ? ? ?]. apply NoDup_app in Ind as (_ & Hn & _). destruct (Hn s Hx).
    rewrite held_cons, Hh. by left.
  - intros x Hrep. refine (replacing_cons _ _ _ _ _ _ Hrep). intros ? ? ? ? ->. by edestruct Hr.
Qed.

Lemma return_inv m l R g r c v :
  Inv m l ((g, r) :: R) -> in_call r c -> Invoke c ∈ l -> reply_ok l c v -> Inv m (l ++ events_of c v) ((g, after r c v) :: R).
Proof.
  intros I Hc Hl Hv. pose proof Hc as (r0 & Hm & Hr).
  assert (Hsame : forall e, e = Succeeded c \/ e = Failed c -> (forall s, e <> Succeeded (Method s MClose)) -> Inv m (l ++ [e]) ((g, r) :: R))
    by (intros; by eapply return_same).
  destruct r0 as [|tag sn u|ss|ss cs| |ss|s0]; cbn in Hm.
  - done.
  - destruct u as [|s0 com exc|s0|s0|s0|].
    + destruct c; try done. cbn in Hr. subst r. destruct v as [s|e]; cbn.
      * change [Succeeded (RegistryCreate tag0); NewService s] with ([Succeeded (RegistryCreate tag0)] ++ [NewService s]).
        rewrite app_assoc. apply new_inv; [apply Hsame; by auto|]. intros [?|?]%elem_snoc; done.
      * refine (return_step _ _ _ _ _ _ _ _ [] I Hc _ _ _ _ _ _ _ _); [by right|done|done|by intros ? ?%elem_of_nil|done|done|done|].
        intros x Hrep. refine (replacing_cons _ _ _ _ _ _ Hrep). by intros.
    + destruct c as [|s me| |]; try done. destruct me; try done; cbn in Hr; subst r; destruct v; cbn; try (apply Hsame; by auto).
      * by apply return_own_close with exc.
      * subst s. by apply return_own_commit with com.
    + destruct c as [|s me| |]; try done. destruct me; try done; cbn in Hr; subst r s.
      * apply (return_drop _ _ _ _ _ _ s0 _ I Hc); [destruct v; by auto|done..].
      * destruct v; cbn; apply Hsame; by auto.
    + destruct c as [|s me| |]; try done. destruct me; try done. cbn in Hr. subst r s. cbn.
      refine (return_step _ _ _ _ _ _ _ _ [] I Hc _ _ _ _ _ _ _ _); [by left|done|done|by intros ? ?%elem_of_nil|done|done|done|].
      intros x Hrep. refine (replacing_cons _ _ _ _ _ _ Hrep). by intros.
    + by destruct c as [|? []| |].
    + by destruct c as [|? []| |].
  - destruct c as [|s me| |]; try done. destruct me; try done. cbn in Hr. subst r. destruct v; cbn; apply Hsame; by auto.
  - destruct cs as [dn| |[|s0 rest]].
    + destruct c as [|s me| |]; try done.
      * destruct me; try done; cbn in Hr; subst r; destruct v; cbn; try (apply Hsame; by auto). by apply return_commit.
      * cbn in Hr. subst r. destruct v; cbn; apply Hsame; by auto.
    + destruct c as [|s me| |]; try done.
      * destruct me; try done. cbn in Hr; subst r; destruct v; cbn; apply Hsame; by auto.
      * cbn in Hr. subst r. destruct v; cbn; apply Hsame; by auto.
    + by destruct c as [|? []| |].
    + destruct c as [|s me| |]; try done. destruct me; try done. cbn in Hr. subst r. cbn. apply Hsame; by auto.
  - done.
  - destruct ss as [|s0 ss]; [by destruct c as [|? []| |]|]. destruct c as [|s me| |]; try done. destruct me; try done. cbn in Hr. subst r s.
    apply (return_drop _ _ _ _ _ _ s0 _ I Hc); [destruct v; by auto|done..].
  - destruct c as [|s me| |]; try done. destruct me; try done. cbn in Hr. subst r s.
    apply (return_drop _ _ _ _ _ _ s0 _ I Hc); [destruct v; by auto|done..].
Qed.
