(* ===== verification/ServiceManagerSpec.v ===== *)
(** * Service manager: correctness

    The operations follow the protocol of ServiceProtocol, so that its invariant holds in
    every state of every interleaving: a service is activated once, committed and not
    closed; no started service is lost; and operations underway can always go on, unless a
    service closes the manager from inside one of the manager's own calls. *)

From S2P Require Import Prelude GoStd Managers ServiceManager ServiceProtocol ServiceInvariant.
From coqutil Require Import Datatypes.RecordSetters.
Import DoubleBraceUpdate.
Local Open Scope Z_scope.
Implicit Types (r : role) (R : list (Z * role)) (m : Manager) (l : list event).

(** ** Programs that follow the protocol *)

(** The roles an operation can have. *)
Definition fits (o : op) r : Prop :=
  match r with
  | RFree => True
  | RUpdate _ _ _ => exists tag, o = OpCreate tag
  | RStarting _ => exists st, o = OpStart st
  | RCommitting _ _ => exists b, o = OpCommit b
  | RClosing | RDraining _ => o = OpClose
  | RRemoving _ => exists tag, o = OpRemove tag
  end.

(** Who waits for what. *)
Definition waits (o : op) r (w : waiting) : Prop :=
  match w with
  | NoWait => True
  | WaitIdle => r = RFree
  | WaitClosed => r = RFree /\ o = OpClose
  | WaitQuiet => r = RClosing /\ o = OpClose
  end.

(** An operation that keeps the lock goes on under it, or has panicked. *)
Definition keeps_lock (p : prog) : Prop := match p with Lock _ _ | Done (Panicked _) => True | _ => False end.

(** The services under a tag are in the list. *)
Definition listed m : Prop := forall tag s, serviceByTag m !! tag = Some s -> s ∈ services m.

Inductive safe (o : op) (g : Z) : role -> prog -> Prop :=
| safe_done res : safe o g RFree (Done res)
| safe_call r c k : may_call r c -> (forall v, safe o g (after (inside r c) c v) (k v)) -> safe o g r (Call c k)
| safe_lock r w body :
    waits o r w ->
    (forall m m' sg p, listed m -> must_wait w g m = false -> body g m = (m', sg, p) ->
       exists r', move g m r r' m' sg /\ fits o r' /\ (sg = Hold -> keeps_lock p) /\ safe o g r' p) ->
    safe o g r (Lock w body)
| safe_weaker r r' p : weaker r r' -> safe o g r' p -> safe o g r p.

Lemma safe_waits o g r w body : safe o g r (Lock w body) -> waits o r w.
Proof.
  remember (Lock w body) as p eqn:E. induction 1 as [| |r w0 body0 Hw _|r r' p Hwk _ IH]; simplify_eq; [done|].
  specialize (IH eq_refl). destruct w; [done|exfalso..]; cbn in IH; destruct Hwk; naive_solver.
Qed.

Lemma idle_none g m : must_wait WaitIdle g m = false -> waitForLifecycleIdleLocked g m = None -> idle m = true.
Proof.
  intros Hw Hn. apply may_proceed in Hn as (Hc & Hd & Ho). cbn in Hw. rewrite Hc, Hd, Ho in Hw. cbn in Hw. by destruct (idle m).
Qed.

Section Programs.
Variables (o : op) (g : Z).
Abbreviation ok := (safe o g) (only parsing).

(** A section that changes nothing. *)
Lemma exists_none m sg res : sg <> Broadcast -> (sg = Hold -> keeps_lock (Done res)) -> exists r', move g m RFree r' m sg /\ fits o r' /\ (sg = Hold -> keeps_lock (Done res)) /\ ok r' (Done res).
Proof. intros. exists RFree. split; [by constructor|]. split; [done|]. split; [done|constructor]. Qed.

Lemma start_services_ok st ss ss' k :
  (forall s, s ∈ ss' -> s ∈ ss) -> (forall res, ok (RStarting ss) (k res)) -> ok (RStarting ss) (start_services st ss' k).
Proof.
  intros Hsub Hk. induction ss' as [|s ss' IH]; cbn; [apply Hk|]. constructor; [apply Hsub; by left|]. cbn. intros [e|]; [apply Hk|].
  apply IH. intros; apply Hsub. by right.
Qed.

Lemma finishStart_ok ss res : ok (RStarting ss) (finishStart (Done res)).
Proof.
  constructor; [done|]. intros m m' sg p _ _ [= <- <- <-]. exists RFree. split; [|split; [done|split; [done|constructor]]].
  constructor. destruct (_ =? 0); [by right|by left].
Qed.

Lemma Start_ok st : o = OpStart st -> ok RFree (Start st).
Proof.
  intros Ho. constructor; [done|]. intros m m' sg p _ Hw. destruct (waitForLifecycleIdleLocked g m) as [e|] eqn:Hi.
  { intros [= <- <- <-]. by apply exists_none. }
  destruct (runtimeCommitting m) eqn:Hc; [intros [= <- <- <-]; by apply exists_none|].
  destruct (runtimeActive m) eqn:Ha; [intros [= <- <- <-]; by apply exists_none|].
  destruct (started m && _); [intros [= <- <- <-]; by apply exists_none|].
  intros [= Hm <- <-]. exists (RStarting (services m)).
  pose proof (move_start g m st Hi (idle_none _ _ Hw Hi) Hc Ha) as Hmv. split.
  { replace m' with (m {{ started := true; stage := st; runtimeActive := false; startInFlight ::= Z.succ; startOwner := g }}); [done|].
    subst m'. destruct m. cbn in *. subst. by case_bool_decide. }
  split; [by eexists|]. split; [done|].
  assert (services (if bool_decide (st = StartStateInitialize) then m {{ started := true; stage := st }} {{ runtimeActive := false }}
                    else m {{ started := true; stage := st }}) = services m) as Hs by (by destruct m; case_bool_decide).
  apply start_services_ok; [|intros; apply finishStart_ok]. intros s Hin. revert Hin.
  destruct m; case_bool_decide; done.
Qed.

Lemma close_services_ok ss errs k :
  (forall errs, ok (RDraining []) (k errs)) -> ok (RDraining ss) (close_services ss errs k).
Proof.
  intros Hk. revert errs. induction ss as [|s ss IH]; intros errs; cbn; [apply Hk|]. constructor; [done|]. cbn. intros v. apply IH.
Qed.

Lemma Close_ok : o = OpClose -> ok RFree Close.
Proof.
  intros Ho. constructor; [done|]. cbn. intros m m' sg p _ Hw. destruct (closed m) eqn:Hd; intros [= <- <- <-]; [by apply exists_none|].
  rewrite andb_true_r in Hw. exists RClosing. split; [by constructor|]. split; [done|]. split; [done|].
  constructor; [done|]. intros m1 m' sg p _ Hq [= <- <- <-]. exists (RDraining (services m1)).
  split; [by constructor|]. split; [done|]. split; [done|]. apply close_services_ok. intros errs.
  constructor; [done|]. intros m2 m' sg p _ _ [= <- <- <-]. exists RFree. split; [constructor|]. split; [done|]. split; [done|constructor].
Qed.

Lemma Remove_ok tag : o = OpRemove tag -> ok RFree (Remove tag).
Proof.
  intros Ho. constructor; [done|]. intros m m' sg p Hl _. cbv beta zeta. destruct (closing m || closed m) eqn:Hc; [intros [= <- <- <-]; by apply exists_none|].
  apply orb_false_iff in Hc as [Hc Hd]. destruct (runtimeCommitting m) eqn:Hr; [intros [= <- <- <-]; by apply exists_none|].
  case_bool_decide as Ht; [intros [= <- <- <-]; by apply exists_none|].
  destruct (serviceByTag m !! tag) as [s|] eqn:Hb; [|intros [= <- <- <-]; by apply exists_none].
  assert (services (m {{ serviceByTag ::= delete tag }}) = services m) as -> by (by destruct m).
  destruct (remove_service s (services m)) as [ss|] eqn:Hs.
  - intros [= <- <- <-]. exists (if started m then RRemoving s else RFree).
    pose proof (move_remove g m tag s ss Hc Hd Hr Ht Hb Hs) as Hmv. split; [by destruct m|].
    destruct m as [sta]; cbn [started]. destruct sta; (split; [by try eexists|]); (split; [done|]); [|constructor].
    constructor; [done|]. cbn. intros v. constructor.
  - exfalso. destruct (remove_service_in s (services m)) as [? ?]; [by eapply Hl|congruence].
Qed.

(** ** Two-phase commit *)

(** The roles that roll back. *)
Inductive rolls_back : role -> rollback -> Prop :=
| rolls_own tag sn s : rolls_back (RUpdate tag sn (UDiscard s)) (RbService s)
| rolls_before ss : rolls_back (RCommitting ss CAbort) RbBefore
| rolls_service ss s : s ∈ ss -> rolls_back (RCommitting ss CAbort) (RbService s).

Lemma run_rollbacks_ok r rbs errs k :
  (forall rb, rb ∈ rbs -> rolls_back r rb) -> (forall errs, ok r (k errs)) -> ok r (run_rollbacks rbs errs k).
Proof.
  intros Hr Hk. revert errs. induction rbs as [|rb rbs IH]; intros errs; cbn; [apply Hk|].
  assert (Hok : forall errs, ok r (run_rollbacks rbs errs k)) by (intros; apply IH; intros; apply Hr; by right).
  destruct (Hr rb ltac:(by left)); (constructor; [done|]); cbn; auto.
Qed.

Lemma rollbackRuntimeCommits_ok r rbs k :
  (forall rb, rb ∈ rbs -> rolls_back r rb) -> (forall errs, ok r (k errs)) -> ok r (rollbackRuntimeCommits rbs k).
Proof.
  intros Hr. apply run_rollbacks_ok. intros rb Hin. apply Hr. by apply list_elem_of_In, in_rev, list_elem_of_In in Hin.
Qed.

Lemma validate_services_ok ss dn ss' k :
  (forall s, s ∈ ss' -> s ∈ ss) -> (forall errs, ok (RCommitting ss (CPrepare dn)) (k errs)) ->
  ok (RCommitting ss (CPrepare dn)) (validate_services ss' k).
Proof.
  intros Hsub Hk. induction ss' as [|s ss' IH]; cbn; [apply Hk|].
  assert (IH' : ok (RCommitting ss (CPrepare dn)) (validate_services ss' k)) by (apply IH; intros; apply Hsub; by right).
  destruct (s_Activator s); [|done]. constructor; [apply Hsub; by left|]. cbn. intros [e|]; [apply Hk|done].
Qed.

(** The continuation of a preparation. *)
Definition prepared ss (k : list rollback + list error -> prog) : Prop :=
  (forall errs, ok (RCommitting ss CAbort) (k (inr errs)))
  /\ (forall rbs dn, (forall rb, rb ∈ rbs -> rolls_back (RCommitting ss CAbort) rb) -> (forall s, s ∈ ss -> s_Committer s = true -> s ∈ dn) ->
       ok (RCommitting ss (CPrepare dn)) (k (inl rbs))).

Lemma commit_services_ok ss dn ss' rbs k :
  (forall s, s ∈ ss' -> s ∈ ss) -> (forall s, s ∈ ss -> s_Committer s = true -> s ∈ dn \/ s ∈ ss') ->
  (forall rb, rb ∈ rbs -> rolls_back (RCommitting ss CAbort) rb) -> prepared ss k ->
  ok (RCommitting ss (CPrepare dn)) (commit_services ss' rbs k).
Proof.
  intros Hsub Hdn Hrb [Hk1 Hk2]. revert dn rbs Hdn Hrb.
  induction ss' as [|s ss' IH]; intros dn rbs Hdn Hrb; cbn.
  { apply Hk2; [done|]. intros s Hs Hc. by destruct (Hdn s Hs Hc) as [|?%elem_of_nil]. }
  assert (Hs : s ∈ ss) by (apply Hsub; by left). assert (Hsub' : forall x, x ∈ ss' -> x ∈ ss) by (intros; apply Hsub; by right).
  destruct (s_Committer s) eqn:Hc.
  - constructor; [done|]. cbn. intros [e|].
    + eapply safe_weaker; [constructor|]. apply rollbackRuntimeCommits_ok; [done|]. intros errs. apply Hk1.
    + apply IH; [done| |].
      * intros x Hx Hxc. rewrite elem_snoc. destruct (Hdn x Hx Hxc) as [?|[->|?]%elem_of_cons]; auto.
      * intros rb [?| ->]%elem_snoc; [auto|by constructor].
  - apply IH; [done| |done]. intros x Hx Hxc. destruct (Hdn x Hx Hxc) as [?|[->|?]%elem_of_cons]; [auto|congruence|auto].
Qed.

Lemma PrepareRuntime_ok ss before k :
  prepared ss k -> ok (RCommitting ss (CPrepare [])) (PrepareRuntime ss before k).
Proof.
  intros Hk. unfold PrepareRuntime. apply validate_services_ok; [done|]. intros [|e errs].
  - destruct before; [constructor; [done|]; cbn; intros [rb|e]|].
    + apply commit_services_ok; [done|auto| |done]. destruct rb; [by intros ? ->%list_elem_of_singleton; constructor|by intros ? ?%elem_of_nil].
    + eapply safe_weaker; [constructor|]. apply Hk.
    + apply commit_services_ok; [done|auto|by intros ? ?%elem_of_nil|done].
  - eapply safe_weaker; [constructor|]. apply Hk.
Qed.

Lemma activate_ok ss rest k :
  (forall s, s ∈ rest -> s ∈ ss) -> ok (RCommitting ss (CActivate [])) k -> ok (RCommitting ss (CActivate rest)) (activate rest k).
Proof.
  intros Hsub Hk. induction rest as [|s rest IH]; cbn; [done|].
  assert (IH' : ok (RCommitting ss (CActivate rest)) (activate rest k)) by (apply IH; intros; apply Hsub; by right).
  destruct (s_Activator s).
  - constructor; [split; [done|apply Hsub; by left]|]. cbn. done.
  - eapply safe_weaker; [constructor|done].
Qed.

Lemma CommitRuntime_ok before : o = OpCommit before -> ok RFree (CommitRuntime before).
Proof.
  intros Ho. constructor; [done|]. intros m m' sg p _ Hw. cbv beta zeta. destruct (waitForLifecycleIdleLocked g m) as [e|] eqn:Hi.
  { intros [= <- <- <-]. by apply exists_none. }
  destruct (runtimeActive m) eqn:Ha; [intros [= <- <- <-]; by apply exists_none|].
  destruct (runtimeCommitting m) eqn:Hc; [intros [= <- <- <-]; by apply exists_none|].
  destruct (negb _ || _); [intros [= <- <- <-]; by apply exists_none|]. intros [= <- <- <-].
  exists (RCommitting (services m) (CPrepare [])). split; [apply move_commit; try done; by apply idle_none with g|].
  split; [by eexists|]. split; [done|]. generalize (services m) as ss. intros ss. apply PrepareRuntime_ok. split.
  - intros errs. constructor; [done|]. intros m1 m' sg p _ _ [= <- <- <-]. exists RFree. split; [constructor|].
    split; [done|]. split; [done|constructor].
  - intros rbs dn Hrb Hdn. constructor; [done|]. intros m1 m' sg p _ _. destruct (closing m1 || closed m1) eqn:Hcl; intros [= <- <- <-].
    + exists (RCommitting ss CAbort). split; [constructor|]. split; [by eexists|]. split; [done|].
      apply rollbackRuntimeCommits_ok; [done|]. intros errs. constructor; [done|]. intros m2 m' sg p _ _ [= <- <- <-].
      exists RFree. split; [constructor|]. split; [done|]. split; [done|constructor].
    + apply orb_false_iff in Hcl as [??]. exists (RCommitting ss (CActivate ss)). split; [by eapply move_activate|].
      split; [by eexists|]. split; [done|]. apply activate_ok; [done|]. constructor; [done|]. intros m2 m' sg p _ _ [= <- <- <-].
      exists RFree. split; [constructor|]. split; [done|]. split; [done|constructor].
Qed.

(** ** Create *)

Section Update.
Variables (tag : string) (sn : snapshot) (k : res -> prog).
Hypothesis (Ho : o = OpCreate tag) (Hk : forall res, ok (RUpdate tag sn UOver) (k res)).

Lemma discard_ok s rbs errs :
  (forall rl rb, rbs = Some rl -> rb ∈ rl -> rb = RbService s) -> ok (RUpdate tag sn (UDiscard s)) (discard s rbs errs k).
Proof using All.
  intros Hrb. unfold discard.
  assert (Hc : forall errs, ok (RUpdate tag sn (UDiscard s))
    (Call (Method s MClose) (fun e => k (Returned (errs ++ causeIfError e ("close " +:+ service_name s)))))).
  { intros. constructor; [done|]. cbn. intros. apply Hk. }
  destruct rbs as [rl|]; [|apply Hc]. apply rollbackRuntimeCommits_ok; [|auto]. intros rb Hin. rewrite (Hrb rl rb eq_refl Hin). constructor.
Qed.

Lemma publish_ok s com exc rbs :
  (forall rl rb, rbs = Some rl -> rb ∈ rl -> rb = RbService s) ->
  (sn_active sn = true -> s_Committer s = true -> com = true) -> (sn_existing sn <> None -> exc = true) ->
  ok (RUpdate tag sn (UOwn s com exc)) (publish tag sn s rbs k).
Proof using All.
  intros Hrb Hcom Hexc. constructor; [done|]. intros m m' sg p _ _. cbv beta zeta. destruct (changed tag sn m) eqn:Hch.
  { intros [= <- <- <-]. exists (RUpdate tag sn (UDiscard s)). split; [constructor; by left|]. split; [by eexists|]. split; [done|].
    by apply discard_ok. }
  fold (without (sn_existing sn) (services m)). destruct (without _ _) as [ss|] eqn:Hw; intros [= <- <- <-].
  - eexists. split; [by eapply move_publish|]. split; [by eexists|]. split; [done|]. destruct (sn_active sn); [|apply Hk].
    cbn. destruct (s_Activator s); [constructor; [done|]; cbn; intros; apply Hk|]. eapply safe_weaker; [constructor|apply Hk].
  - exists (RUpdate tag sn (UDiscard s)). split; [constructor; by right|]. split; [by eexists|]. split; [done|]. by apply discard_ok.
Qed.

Lemma replace_ok s com rbs :
  (forall rl rb, rbs = Some rl -> rb ∈ rl -> rb = RbService s) ->
  (sn_active sn = true -> s_Committer s = true -> com = true) ->
  ok (RUpdate tag sn (UOwn s com false)) (replace tag sn s rbs k).
Proof using All.
  intros Hrb Hcom. unfold replace. destruct (sn_existing sn) as [ex|] eqn:E; [|by apply publish_ok].
  constructor; [done|]. cbn. intros [e|].
  - eapply safe_weaker; [constructor|by apply discard_ok].
  - by apply publish_ok.
Qed.

Lemma start_stages_ok s upto stages kk :
  sn_started sn = true \/ stages = [] -> (forall e, ok (RUpdate tag sn (UOwn s false false)) (kk e)) ->
  ok (RUpdate tag sn (UOwn s false false)) (start_stages s upto stages kk).
Proof using All.
  intros Hs Hkk. destruct Hs as [Hs| ->]; [|apply Hkk]. induction stages as [|st stages IH]; cbn; [apply Hkk|].
  destruct (_ <? _); [apply Hkk|]. constructor; [done|]. cbn. intros [e|]; [apply Hkk|done].
Qed.

Lemma create_service_ok : ok (RUpdate tag sn UCreating) (create_service tag sn k).
Proof using All.
  constructor; [done|]. cbn [after inside]. intros [s|e]; [|apply Hk]. apply start_stages_ok; [destruct (sn_started sn); auto|]. intros [e|].
  { eapply safe_weaker; [constructor|by apply discard_ok]. }
  destruct (sn_active sn) eqn:Ha; [|apply replace_ok; [done|congruence]].
  assert (Hdis : forall errs, ok (RUpdate tag sn (UOwn s false false)) (discard s None errs k))
    by (intros; eapply safe_weaker; [constructor|by apply discard_ok]).
  unfold PrepareRuntime. cbn [validate_services].
  assert (Hcommit : ok (RUpdate tag sn (UOwn s false false)) (commit_services [s] [] (fun x => match x with
    | inl rbs => replace tag sn s (Some rbs) k | inr errs => discard s None errs k end))).
  { cbn [commit_services]. destruct (s_Committer s) eqn:Hc; [|apply replace_ok; [by intros ? ? [= <-] ?%elem_of_nil|congruence]].
    constructor; [done|]. cbn [after inside]. intros [e|]; [apply Hdis|]. apply replace_ok; [|done]. by intros ? ? [= <-] ->%list_elem_of_singleton. }
  destruct (s_Activator s); [constructor; [done|]; cbn [after inside]; intros [e|]; [apply Hdis|done]|done].
Qed.
End Update.

Lemma finishUpdate_ok tag sn res : ok (RUpdate tag sn UOver) (finishUpdate tag (Done res)).
Proof.
  constructor; [done|]. intros m m' sg p _ _. cbv beta zeta. set (n := default 0 _).
  assert (Hn : n = default 0 (updateOwners m !! g)) by (unfold n; by destruct m). intros [[Hm <-]%pair_equal_spec <-]%pair_equal_spec.
  exists RFree. split; [|split; [done|split; [done|constructor]]]. clearbody n. subst m' n. apply move_updated.
  - destruct m, (1 <? _); done.
  - intros g'. destruct (decide (g' = g)) as [->|Hne]; destruct (1 <? default 0 (updateOwners m !! g)) eqn:E; destruct m; cbn in *.
    + rewrite lookup_insert_eq. cbn. lia.
    + rewrite lookup_delete_eq. cbn. lia.
    + by rewrite lookup_insert_ne.
    + by rewrite lookup_delete_ne.
  - destruct m, (1 <? _); done.
Qed.

Lemma Create_ok tag : o = OpCreate tag -> ok RFree (Create tag).
Proof.
  intros Ho. constructor; [done|]. intros m m' sg p _ _. cbv beta. destruct (closing m || closed m) eqn:Hc; [intros [= <- <- <-]; by apply exists_none|].
  apply orb_false_iff in Hc as [Hc Hd]. destruct (runtimeCommitting m) eqn:Hr; [intros [= <- <- <-]; by apply exists_none|].
  case_bool_decide as Ht; [intros [= <- <- <-]; by apply exists_none|]. cbv zeta.
  set (m1 := m {{ updates ::= ({[tag]} ∪.) }}). set (sn := MkSnapshot _ _ _ _).
  assert (Hsn : sn = MkSnapshot (started m) (stage m) (runtimeActive m) (serviceByTag m !! tag)) by (unfold sn, m1; by destruct m).
  destruct (bool_decide _ && _) eqn:Hex.
  - intros [[<- <-]%pair_equal_spec <-]%pair_equal_spec. assert (m1 {{ updates ::= (.∖ {[tag]}) }} = m) as ->; [|by apply exists_none].
    unfold m1. destruct m. cbn in *. f_equal. set_solver.
  - intros [= <- <- <-]. exists (RUpdate tag sn UCreating). split.
    { apply move_update; try done. intros Ha. rewrite Hsn in Hex. cbn in Hex. rewrite Ha, andb_true_r in Hex.
      apply bool_decide_eq_false in Hex. by apply eq_None_not_Some. }
    split; [by eexists|]. split; [done|]. apply create_service_ok; [done|]. intros res.
    apply finishUpdate_ok.
Qed.
End Programs.

Theorem op_safe o g : safe o g RFree (op_prog o).
Proof. destruct o; [by apply Start_ok|by apply Close_ok|by apply Remove_ok|by apply CommitRuntime_ok|by apply Create_ok]. Qed.

(** ** Frames *)

Lemma call_of_safe o g r p : safe o g r p ->
  match p with
  | Call c k => exists r', rtc weaker r r' /\ may_call r' c /\ forall v, safe o g (after (inside r' c) c v) (k v)
  | Done _ => rtc weaker r RFree
  | Lock w body => exists r', rtc weaker r r' /\ waits o r' w /\ forall m m' sg p, listed m -> must_wait w g m = false -> body g m = (m', sg, p) ->
      exists r1, move g m r' r1 m' sg /\ fits o r1 /\ (sg = Hold -> keeps_lock p) /\ safe o g r1 p
  end.
Proof.
  induction 1 as [|r c k Hm Hk _|r w body Hw Hb|r r' p Hwk Hs IH].
  - done.
  - by exists r.
  - exists r. split; [done|]. split; [done|]. intros m m' sg p Hl Hmw Hbd. by eapply Hb.
  - destruct p; [by eapply rtc_l| |]; destruct IH as (r1 & Hr & ?); exists r1; (split; [by eapply rtc_l|done]).
Qed.

Lemma rtc_weaker_inv g m l R r r' : rtc weaker r r' -> Inv m l ((g, r) :: R) -> Inv m l ((g, r') :: R).
Proof. induction 1 as [|r r1 r2 Hw _ IH]; [done|]. intros I. by apply IH, (weaker_inv _ _ _ _ r). Qed.

Lemma rtc_weaker_fits o r r' : rtc weaker r r' -> fits o r -> fits o r'.
Proof. induction 1 as [|r r1 r2 Hw _ IH]; [done|]. intros H. apply IH. by destruct Hw. Qed.

Lemma inside_fits o r c : may_call r c -> fits o r -> fits o (inside r c).
Proof. intros _ H. by destruct r as [|? ? []|?|? [?| |[]]| | |], c as [|? []| |]. Qed.

Lemma after_fits o r c v : fits o r -> fits o (after r c v).
Proof.
  intros H. destruct c as [|s []| |]; cbn; try done.
  - by destruct r, v.
  - by destruct r as [|? ? []|?|? ?| |[]|], v.
  - by destruct r as [|? ? []|?|? []| | |], v.
  - by destruct r as [|? ? []|?|? ?| | |].
Qed.

Definition frame_ok l (f : frame) (x : Z * role) : Prop :=
  f_gid f = x.1 /\ fits (f_op f) x.2
  /\ match f_status f, f_prog f with
     | Inside, Call c k => in_call x.2 c /\ Invoke c ∈ l /\ forall v, safe (f_op f) (f_gid f) (after x.2 c v) (k v)
     | Inside, _ => False
     | Asleep, Lock w body => safe (f_op f) (f_gid f) x.2 (Lock w body)
     | Asleep, _ => False
     | Holding, p => keeps_lock p /\ safe (f_op f) (f_gid f) x.2 p
     | Running, p => safe (f_op f) (f_gid f) x.2 p
     end.

Record CInv (c : config) R : Prop := {
  cinv_inv : Inv (mgr c) (log c) R;
  cinv_frames : Forall2 (frame_ok (log c)) (frames c) R
}.

Lemma frame_ok_log l ev f x : frame_ok l f x -> frame_ok (l ++ ev) f x.
Proof.
  intros (? & ? & H). split; [done|]. split; [done|]. destruct (f_status f), (f_prog f); try done.
  destruct H as (? & ? & ?). split; [done|]. split; [|done]. apply elem_of_app. by left.
Qed.

Lemma frame_ok_wake l f x : frame_ok l f x -> frame_ok l (wake f) x.
Proof.
  unfold wake. destruct (f_status f) eqn:E; [done..|]. intros (? & ? & H). rewrite E in H. split; [done|]. split; [done|].
  cbn. by destruct (f_prog f).
Qed.

Lemma frames_ok_signalled l sg fs R : Forall2 (frame_ok l) fs R -> Forall2 (frame_ok l) (signalled sg fs) R.
Proof. destruct sg; [done| |done]. cbn. rewrite Forall2_fmap_l. intros H.
  eapply Forall2_impl; [exact H|]. intros; by apply frame_ok_wake. Qed.

Lemma Inv_listed m l R : Inv m l R -> listed m.
Proof. intros I tag s H. apply (inv_registry _ _ _ I). eauto. Qed.

Lemma free_inv m l R g : Inv m l ((g, RFree) :: R) <-> Inv m l R.
Proof.
  assert (Hrm : forall r, facts m l ((g, RFree) :: R) r <-> facts m l R r) by done.
  split; intros I; destruct I as [? ? ? ? ? ? ? ? ? ? Ifa ? Ice ? ? ?]; constructor; try done.
  - intros g0 r Hin. apply Hrm, (Ifa g0). by right.
  - intros s Hs Hd. destruct (Ice s Hs Hd) as [?|(g0 & t & sn & s' & com & [[=]|Hin]%elem_of_cons & He)]; [by left|right]. do 5 eexists. eauto.
  - intros g0 r [[= -> ->]|Hin]%elem_of_cons; [done|]. by apply Hrm, (Ifa g0).
  - intros s Hs Hd. destruct (Ice s Hs Hd) as [?|(g0 & t & sn & s' & com & Hin & He)]; [by left|right]. do 5 eexists. split; [by right|done].
Qed.

Lemma finish_inv m l R g e : (exists o res, e = Finish o res) -> Inv m l ((g, RFree) :: R) -> Inv m (l ++ [e]) ((g, RFree) :: R).
Proof.
  intros (o & res & ->) I.
  refine (log_step _ _ _ _ _ _ _ [] I _ _ _ _ _ _ _ _ _ _ _ _ _); try done; try (by intros ? ?%elem_of_nil); try (by intros ? []).
  - intros. split; intros _; [by intros [|[|[]]]|by intros []].
  - by intros ? ? ? [].
  - by intros ? ? [].
Qed.

(** The step of a frame and the role it then has, none when the operation has returned. *)
Lemma frame_step_inv m lk l f m' lk' f' sg ev x R :
  frame_step m lk l f m' lk' f' sg ev -> frame_ok l f x -> Inv m l (x :: R) ->
  match f' with
  | None => Inv m' (l ++ ev) R /\ m' = m
  | Some f' => exists r', Inv m' (l ++ ev) ((x.1, r') :: R) /\ frame_ok (l ++ ev) f' (x.1, r') /\ f_gid f' = f_gid f
      /\ (m' = m \/ exists r1, move x.1 m r1 r' m' sg)
  end.
Proof.
  destruct x as [g r]. intros Hst (Hg & Hfit & Hok) I. cbn in Hg, Hfit, Hok.
  destruct Hst as [c k Hp Hs|c k v Hp Hs Hv|w body Hp Hs Hw|w body m' sg p Hp Hs Hw Hb|res Hp Hs]; rewrite Hp in Hok.
  - rewrite Hs in Hok. apply call_of_safe in Hok as (r1 & Hr & Hm & Hk). apply (rtc_weaker_inv _ _ _ _ _ _ Hr) in I.
    exists (inside r1 c). split; [by apply invoke_inv|]. split; [|by auto].
    split; [done|]. split; [apply inside_fits; [done|by eapply rtc_weaker_fits]|]. cbn.
    split; [by exists r1|]. split; [|done]. apply elem_of_app. right. by left.
  - rewrite Hs in Hok. destruct Hok as (Hc & Hl & Hk). exists (after r c v). split; [by apply return_inv|]. split; [|by auto].
    split; [done|]. split; [by apply after_fits|]. apply Hk.
  - exists r. rewrite app_nil_r. split; [done|]. split; [|by auto]. split; [done|]. split; [done|]. cbn. by destruct Hs as [[Hs _]|Hs]; rewrite Hs in Hok; [|destruct Hok].
  - rewrite app_nil_r. assert (Hsafe : safe (f_op f) (f_gid f) r (Lock w body)) by (by destruct Hs as [[Hs _]|Hs]; rewrite Hs in Hok; [|destruct Hok]).
    apply call_of_safe in Hsafe as (r1 & Hr & _ & Hbody). apply (rtc_weaker_inv _ _ _ _ _ _ Hr) in I.
    destruct (Hbody m m' sg p (Inv_listed _ _ _ I) Hw Hb) as (r2 & Hmv & Hf2 & Hhold & Hs2). rewrite Hg in Hmv.
    exists r2. split; [by eapply move_inv|]. split; [|by eauto]. split; [done|]. split; [done|]. cbn.
    destruct sg; try done. by split; [apply Hhold|].
  - assert (Hsafe : safe (f_op f) (f_gid f) r (Done res)) by (by destruct Hs as [Hs|Hs]; rewrite Hs in Hok; [|destruct Hok]).
    apply call_of_safe in Hsafe. apply (rtc_weaker_inv _ _ _ _ _ _ Hsafe) in I. split; [|done]. eapply free_inv, finish_inv; [by eauto|done].
Qed.

Lemma CInv_advance c c' R : advance c c' -> CInv c R -> exists R', CInv c' R'.
Proof.
  intros H. destruct H as [m lk l1 f l2 l m' lk' f' sg ev Hg Hst]. intros [I Hf]. cbn in I, Hf.
  apply Forall2_app_inv_l in Hf as (R1 & Rx & Hf1 & Hfx & ->). apply Forall2_cons_inv_l in Hfx as (x & R2 & Hx & Hf2 & ->).
  assert (I' : Inv m l (x :: R1 ++ R2)) by (eapply Inv_perm; [|exact I]; by rewrite Permutation_middle).
  pose proof (frame_step_inv _ _ _ _ _ _ _ _ _ _ _ Hst Hx I') as Hr.
  assert (Hfs : forall fs R, Forall2 (frame_ok l) fs R -> Forall2 (frame_ok (l ++ ev)) (signalled sg fs) R).
  { intros fs R Hfs. apply frames_ok_signalled. eapply Forall2_impl; [exact Hfs|]. intros; by apply frame_ok_log. }
  destruct f' as [f'|]; cbn.
  - destruct Hr as (r' & I1 & Hf' & _). exists (R1 ++ (x.1, r') :: R2). split; cbn.
    + eapply Inv_perm; [|exact I1]. by rewrite Permutation_middle.
    + apply Forall2_app; [by apply Hfs|]. constructor; [done|by apply Hfs].
  - destruct Hr as [Hr _]. exists (R1 ++ R2). split; [done|]. cbn. apply Forall2_app; by apply Hfs.
Qed.

Lemma Inv_init : Inv NewManager [] [].
Proof.
  constructor; cbn; try done; try (by left).
  - split; [constructor|done].
  - intros s. split; [by intros ?%elem_of_nil|]. intros [t Ht]. by rewrite lookup_empty in Ht.
  - by intros s ?%elem_of_nil.
  - by intros g r ?%elem_of_nil.
  - by intros s ?%elem_of_nil.
  - by intros s ?%elem_of_nil.
  - by intros _ s ?%elem_of_nil.
  - by intros s me [?%elem_of_nil|?%elem_of_nil].
  - by intros s ?%elem_of_nil.
Qed.

Lemma CInv_step c c' R : step c c' -> CInv c R -> exists R', CInv c' R'.
Proof.
  destruct 1 as [c g o Hg Hr|c c' Ha]; [|by apply CInv_advance]. intros [I Hf]. exists ((g, RFree) :: R). split; cbn.
  - by apply free_inv.
  - constructor; [|done]. split; [done|]. split; [done|]. apply op_safe.
Qed.

Theorem reachable_inv c : reachable c -> exists R, CInv c R.
Proof. induction 1 as [|c c' _ [R HR] Hs]; [exists []; split; [apply Inv_init|constructor]|]. by eapply CInv_step. Qed.

Lemma Forall2_elem {A B} (P : A -> B -> Prop) xs ys x : Forall2 P xs ys -> x ∈ xs -> exists y, y ∈ ys /\ P x y.
Proof. intros H [i Hi]%list_elem_of_lookup. destruct (Forall2_lookup_l _ _ _ _ _ H Hi) as (y & Hy & HP). exists y. split; [by eapply list_elem_of_lookup_2|done]. Qed.

(** ** Activation *)

Definition activations_ok l : Prop :=
  forall l1 l2 s, l = l1 ++ Invoke (Method s MActivate) :: l2 ->
    (~ activated l1 s) /\ (~ close_done l1 s) /\ (s_Committer s = true -> committed l1 s = true).

Lemma activations_snoc l e :
  activations_ok l ->
  (forall s, e = Invoke (Method s MActivate) -> (~ activated l s) /\ (~ close_done l s) /\ (s_Committer s = true -> committed l s = true)) ->
  activations_ok (l ++ [e]).
Proof.
  intros H He l1 l2 s E. destruct l2 as [|x l2 _] using rev_ind.
  - apply app_inj_tail in E as [<- ->]. by apply He.
  - rewrite app_comm_cons, app_assoc in E. apply app_inj_tail in E as [-> _]. by eapply H.
Qed.

Lemma activate_call_ok m l R g r s :
  Inv m l ((g, r) :: R) -> may_call r (Method s MActivate) -> (~ activated l s) /\ (~ close_done l s) /\ (s_Committer s = true -> committed l s = true).
Proof.
  intros I Hm. pose proof (inv_facts _ _ _ I g r ltac:(by left)) as Hf. destruct r as [|? ? []|?|? [?| |[]]| |[]|]; cbn in Hm; try done; cbn in Hf.
  - subst. destruct Hf as (_ & _ & ? & [_ ?] & ?). done.
  - destruct Hm as [-> Hs]. destruct Hf as (_ & _ & _ & _ & Hna & Hcc). destruct (Hcc _ Hs). split; [apply Hna; by left|done].
Qed.

Lemma activations_frame m lk l f m' lk' f' sg ev x R :
  frame_step m lk l f m' lk' f' sg ev -> frame_ok l f x -> Inv m l (x :: R) -> activations_ok l -> activations_ok (l ++ ev).
Proof.
  destruct x as [g r]. intros Hst (Hg & Hfit & Hok) I Ha. cbn in Hg, Hfit, Hok.
  destruct Hst as [c k Hp Hs|c k v Hp Hs Hv|w body Hp Hs Hw|w body m' sg p Hp Hs Hw Hb|res Hp Hs]; rewrite ?app_nil_r; try done.
  - rewrite Hp, Hs in Hok. apply call_of_safe in Hok as (r1 & Hr & Hm & Hk). apply (rtc_weaker_inv _ _ _ _ _ _ Hr) in I.
    apply activations_snoc; [done|]. intros s [= ->]. by eapply activate_call_ok.
  - assert (Hev : forall e, e ∈ events_of c v -> forall s, e <> Invoke (Method s MActivate)).
    { intros e He s ->. destruct c as [|? []| |], v; cbn in He; set_solver. }
    clear -Ha Hev. revert Hev. generalize (events_of c v) as evs. intros evs. revert l Ha. induction evs as [|e evs IH]; intros l Ha Hev.
    + by rewrite app_nil_r.
    + rewrite cons_middle, app_assoc. apply IH; [apply activations_snoc; [done|]|intros; apply Hev; by right].
      intros s ->. by destruct (Hev _ ltac:(by left) s).
  - by apply activations_snoc.
Qed.

Lemma reachable_activations c : reachable c -> activations_ok (log c).
Proof.
  induction 1 as [|c c' Hr IH Hs]; [by intros [|] ? ? ?|]. destruct (reachable_inv c Hr) as [R [I Hf]].
  destruct Hs as [c g o Hg Hrd|c c' Ha]; [done|]. destruct Ha as [m lk l1 f l2 l m' lk' f' sg ev Hg Hst]. cbn in *.
  apply Forall2_app_inv_l in Hf as (R1 & Rx & Hf1 & Hfx & ->). apply Forall2_cons_inv_l in Hfx as (x & R2 & Hx & Hf2 & ->).
  eapply (activations_frame _ _ _ _ _ _ _ _ _ x (R1 ++ R2)); [done|done| |done]. eapply Inv_perm; [|exact I]. by rewrite Permutation_middle.
Qed.

(** A service that is being activated is not being closed. *)
Lemma activate_close_exclusive m l R s g1 r1 g2 r2 :
  Inv m l R -> (g1, r1) ∈ R -> (g2, r2) ∈ R -> in_call r1 (Method s MActivate) -> in_call r2 (Method s MClose) -> False.
Proof.
  intros I H1 H2 Ha Hc. apply elem_of_Permutation in H2 as [R' Hp].
  assert (I' : Inv m l ((g2, r2) :: R')) by (by eapply Inv_perm).
  assert (H1' : (g1, r1) ∈ R').
  { rewrite Hp in H1. apply elem_of_cons in H1 as [[= -> ->]|?]; [|done]. exfalso. destruct Ha as (ra & Hma & Ea), Hc as (rc & Hmc & Ec).
    rewrite Ec in Ea. clear -Hma Hmc Ea. destruct ra as [|? ? []|?|? [?| |[]]| |[]|]; cbn in Hma; try done;
      destruct rc as [|? ? []|?|? [?| |[]]| |[]|]; cbn in Hmc; try done. }
  pose proof (inv_facts _ _ _ I' g1 r1 ltac:(by right)) as Hf1.
  pose proof (call_class _ _ _ _ _ _ _ I' (or_intror Hc)) as Hcl.
  assert (Hs : s ∈ services m /\ ((exists ss cs, r1 = RCommitting ss cs) \/ exists tag sn, r1 = RUpdate tag sn (UActivated s) /\ serviceByTag m !! tag = Some s)).
  { destruct Ha as (ra & Hma & ->). destruct ra as [|? ? []|?|? [?| |[]]| |[]|]; cbn in Hma; try done; cbn in Hf1.
    - subst. split; [apply (inv_registry _ _ _ I'); eauto|]. right. eauto.
    - destruct Hma as [-> Hin]. destruct Hf1 as [<- _]. split; [done|]. left. eauto. }
  destruct Hs as [Hs Hr1]. destruct Hcl as [Hh|[(tag & sn & u & -> & Hby)|[(ss & cs & -> & _)|(ss & st & _ & [=] & _)]]].
  - destruct I' as [? ? ? ? ? ? ? ? Ind ? ? ? ? ? ? ?]. apply NoDup_app in Ind as (_ & Hn & _). apply (Hn s Hs). rewrite held_cons. apply elem_of_app. by left.
  - destruct (updating_open _ _ _ _ _ _ _ I') as (_ & Hco & _ & _ & Ht). destruct Hr1 as [(ss & cs & ->)|(tag1 & sn1 & -> & Hby1)].
    + by apply (omap_nil_none _ _ _ Hco) in H1'.
    + apply Ht. rewrite (inv_inj _ _ _ I' _ _ _ Hby Hby1). by eapply omap_elem.
  - destruct Hc as (rc & Hmc & Ec). by destruct rc as [|? ? []|?|? [?| |[]]| |[]|]; cbn in Hmc.
Qed.

(** C12: [ActivateRuntime] is called on a service at most once, only after its [CommitRuntime]
    succeeded and was not rolled back, never after it was closed, and no [Close] of it runs
    while it is being activated: in every interleaving of starts, commits, creations,
    removals and closes, nested calls included. *)
Theorem service_activation_safe c :
  reachable c ->
  (forall l1 l2 s, log c = l1 ++ Invoke (Method s MActivate) :: l2 ->
     Invoke (Method s MActivate) ∉ l1 /\ Succeeded (Method s MClose) ∉ l1 /\ (s_Committer s = true -> committed l1 s = true))
  /\ (forall f1 f2 s k1 k2, f1 ∈ frames c -> f2 ∈ frames c -> f_status f1 = Inside -> f_status f2 = Inside ->
     f_prog f1 = Call (Method s MActivate) k1 -> f_prog f2 <> Call (Method s MClose) k2).
Proof.
  intros Hr. split; [intros l1 l2 s E; by apply (reachable_activations c Hr l1 l2 s)|].
  intros f1 f2 s k1 k2 H1 H2 Hs1 Hs2 Hp1 Hp2. destruct (reachable_inv c Hr) as [R [I Hf]].
  destruct (Forall2_elem _ _ _ _ Hf H1) as ([g1 r1] & Hr1 & (_ & _ & Ha)).
  destruct (Forall2_elem _ _ _ _ Hf H2) as ([g2 r2] & Hr2 & (_ & _ & Hb)).
  rewrite Hs1, Hp1 in Ha. rewrite Hs2, Hp2 in Hb. eapply activate_close_exclusive; [done|exact Hr1|exact Hr2|apply Ha|apply Hb].
Qed.

(** C14: When no operation is underway, the registry holds each of its services once and under
    one tag, and every service that was ever started is in it or was asked to close; after
    [Close] all of them were. *)
Theorem no_service_lost c :
  reachable c -> frames c = [] ->
  NoDup (services (mgr c)) /\ (forall s, s ∈ services (mgr c) <-> exists tag, serviceByTag (mgr c) !! tag = Some s)
  /\ (forall s st, Invoke (Method s (MStart st)) ∈ log c ->
       (s ∈ services (mgr c) /\ closed (mgr c) = false) \/ Invoke (Method s MClose) ∈ log c).
Proof.
  intros Hr Hfr. destruct (reachable_inv c Hr) as [R [I Hf]]. rewrite Hfr in Hf. apply Forall2_nil_inv_l in Hf as ->.
  pose proof (inv_nodup _ _ _ I) as Hnd. rewrite app_nil_r in Hnd. split; [done|]. split; [apply I|]. intros s st Hs.
  destruct (inv_kept _ _ _ I s) as [Hin|[?|Hn]].
  - apply (inv_calls _ _ _ I s (MStart st)). by left.
  - rewrite app_nil_r in Hin. left. split; [done|]. destruct (closed (mgr c)) eqn:E; [|done].
    destruct (inv_quiet _ _ _ I) as (_ & _ & _ & Hss & _); [by left|]. rewrite Hss in Hin. by apply elem_of_nil in Hin.
  - by right.
  - destruct Hn. by exists st.
Qed.
