(* ===== verification/ServiceProgress.v ===== *)
(** * Service manager: no deadlock

    No wake-up is lost: what a sleeping operation waits for is still true of the manager.
    So some operation underway can go on, unless a service closes the manager from inside a
    call the manager makes. *)

From S2P Require Import Prelude GoStd Managers ServiceManager ServiceProtocol ServiceInvariant ServiceManagerSpec.
From coqutil Require Import Datatypes.RecordSetters.
Import DoubleBraceUpdate.
Local Open Scope Z_scope.
Implicit Types (r : role) (R : list (Z * role)) (m : Manager) (l : list event).

(** ** What sleepers rely on *)

Definition slept (w : waiting) (g : Z) m R : Prop :=
  match w with
  | NoWait => False
  | WaitIdle => idle m = false /\ g ∉ omap owner_of R /\ g ∉ omap starter_of R /\ g ∉ omap closer_of R
  | WaitClosed => closing m = true /\ closed m = false
  | WaitQuiet => must_wait WaitQuiet g m = true
  end.

Lemma slept_perm w g m R R' : R ≡ₚ R' -> slept w g m R -> slept w g m R'.
Proof. intros Hp. destruct w; cbn; try done. by rewrite Hp. Qed.

Lemma slept_wait w g m l R : Inv m l R -> must_wait w g m = true -> slept w g m R.
Proof.
  intros I. destruct w; cbn; try done.
  - intros [[Hc Ho]%andb_true_iff Hi]%andb_true_iff. apply negb_true_iff in Hc, Ho, Hi. split; [done|].
    apply orb_false_iff in Hc as [Hc _]. unfold owns in Ho. apply orb_false_iff in Ho as [Ho Hs]. split_and!.
    + rewrite (inv_owners _ _ _ I) in Ho. intros Hin. apply list_elem_of_In, (count_occ_In Z.eq_dec) in Hin. lia.
    + destruct (inv_starters _ _ _ I) as [[-> _]|(-> & Hn & _)]; [by intros ?%elem_of_nil|]. rewrite Hn in Hs. cbn in Hs.
      intros ->%list_elem_of_singleton. lia.
    + destruct (inv_closers _ _ _ I) as [[-> _]|(? & _ & ? & _)]; [by intros ?%elem_of_nil|congruence].
  - intros [? ?%negb_true_iff]%andb_true_iff. done.
Qed.

(** What a goroutine does not do, it does not do whatever the others do. *)
Lemma absent_role (f : Z * role -> option Z) g g0 r r' R :
  (forall g1 r1, f (g1, r1) = None \/ f (g1, r1) = Some g1) -> g0 <> g ->
  g ∉ omap f ((g0, r) :: R) -> g ∉ omap f ((g0, r') :: R).
Proof. intros Hf Hg. cbn. destruct (Hf g0 r) as [-> | ->], (Hf g0 r') as [-> | ->]; rewrite ?elem_of_cons; naive_solver. Qed.

Lemma slept_role w g g0 m r r' R : g0 <> g -> slept w g m ((g0, r) :: R) -> slept w g m ((g0, r') :: R).
Proof.
  intros Hg. destruct w; try done. intros (Hi & Ho & Hs & Hc). split; [done|].
  split_and!; (eapply absent_role; [|exact Hg|]); [|exact Ho| |exact Hs| |exact Hc]; intros g1 []; cbn; auto.
Qed.

Lemma slept_free w g g0 m R : slept w g m ((g0, RFree) :: R) <-> slept w g m R.
Proof. by destruct w. Qed.

(** A section without a broadcast does not end what others wait for. *)
Lemma move_slept w g g0 m r r' m' sg R :
  move g0 m r r' m' sg -> sg <> Broadcast -> g0 <> g -> slept w g m ((g0, r) :: R) -> slept w g m' ((g0, r') :: R).
Proof.
  intros Hm Hsg Hg Hs. apply (slept_role _ _ _ _ _ r') in Hs; [|done]. revert Hs. destruct w; cbn.
  - done.
  - intros (Hi & Hrest). split; [|done].
    destruct Hm; try done; try congruence; destruct m; unfold idle, beginUpdateOwnerLocked in *; cbn in *; unfold constant; try done.
    apply andb_false_iff in Hi as [Hi|Hi]; apply andb_false_iff; [left|by right].
    apply bool_decide_eq_false in Hi. apply bool_decide_eq_false. set_solver.
  - intros [Hc Hd]. destruct Hm; try done; destruct m; unfold beginUpdateOwnerLocked; cbn in *; unfold constant; try done; congruence.
  - intros H. destruct Hm; try done;
      try (match goal with Hi : idle m = true |- _ =>
             exfalso; apply quiet_idle in Hi as [Hu Hs0]; rewrite Hu, Hs0, bool_decide_true in H by done; cbn in H; rewrite !orb_false_r in H; congruence
           end);
      destruct m; unfold beginUpdateOwnerLocked in *; cbn in *; unfold constant; try done; try congruence.
    apply orb_true_iff in H as [H|H]; [|by rewrite H, orb_true_r]. apply orb_true_iff in H as [H|H]; [by rewrite H|].
    apply negb_true_iff, bool_decide_eq_false in H. rewrite bool_decide_false; [by rewrite orb_true_r|]. set_solver.
Qed.

(** ** Stacks *)

(** Below the top of a goroutine's stack every frame is inside a call. *)
Fixpoint stacked (fs : list frame) : Prop :=
  match fs with
  | [] => True
  | f :: fs' => (forall f', f' ∈ fs' -> f_gid f' = f_gid f -> f_status f' = Inside) /\ stacked fs'
  end.

Lemma stacked_app fs1 fs2 :
  stacked (fs1 ++ fs2) <-> stacked fs1 /\ stacked fs2
    /\ forall f1 f2, f1 ∈ fs1 -> f2 ∈ fs2 -> f_gid f2 = f_gid f1 -> f_status f2 = Inside.
Proof.
  induction fs1 as [|f fs1 IH]; cbn.
  - split; [|naive_solver]. intros ?. split_and!; [done|done|by intros ? ? ?%elem_of_nil].
  - rewrite IH. setoid_rewrite elem_of_app. setoid_rewrite elem_of_cons. naive_solver.
Qed.

Lemma signalled_elem sg fs f : f ∈ signalled sg fs -> exists f0, f0 ∈ fs /\ f_gid f = f_gid f0 /\ (f_status f0 = Inside -> f_status f = Inside)
  /\ (f_status f = Asleep -> f = f0 /\ sg <> Broadcast).
Proof.
  destruct sg; cbn; [naive_solver| |naive_solver]. intros (f0 & -> & Hin)%list_elem_of_fmap. exists f0.
  split; [done|]. unfold wake. destruct (f_status f0) eqn:E; cbn; (split; [done|]); (split; [congruence|congruence]).
Qed.

Lemma stacked_signalled sg fs : stacked fs -> stacked (signalled sg fs).
Proof.
  destruct sg; [done| |done]. induction fs as [|f fs IH]; [done|]. intros [H1 H2]. split; [|by apply IH].
  intros f' (f0 & Hin & Hg & Hi & _)%(signalled_elem Broadcast) E. apply Hi, H1; [done|]. rewrite <- Hg, E. unfold wake. by destruct (f_status f).
Qed.

(** ** The invariant *)

Record PInv (c : config) R : Prop := {
  pinv_c : CInv c R;
  pinv_stack : stacked (frames c);
  pinv_sleep : forall f w body, f ∈ frames c -> f_status f = Asleep -> f_prog f = Lock w body -> slept w (f_gid f) (mgr c) R;
  pinv_lock : locked c = true -> (exists f, f ∈ frames c /\ f_status f = Holding) \/ exists o msg, Finish o (Panicked msg) ∈ log c
}.

Lemma frame_step_gid m lk l f m' lk' f' sg ev : frame_step m lk l f m' lk' (Some f') sg ev -> f_gid f' = f_gid f.
Proof. by inversion 1. Qed.

Lemma frame_step_asleep m lk l f m' lk' f' sg ev :
  frame_step m lk l f m' lk' (Some f') sg ev -> f_status f' = Asleep ->
  exists w body, f_prog f' = Lock w body /\ must_wait w (f_gid f) m = true /\ m' = m.
Proof.
  inversion 1; subst; cbn; try done.
  - intros _. by exists w, body.
  - by destruct sg.
Qed.

Lemma frame_step_awake m lk l f m' lk' f' sg ev : frame_step m lk l f m' lk' f' sg ev -> f_status f <> Asleep.
Proof.
  destruct 1 as [c k Hp Hs|c k v Hp Hs Hv|w body Hp Hs Hw|w body m' sg p Hp Hs Hw Hb|res Hp Hs]; [congruence|congruence|..];
    [destruct Hs as [[Hs _]|Hs]|destruct Hs as [[Hs _]|Hs]|destruct Hs as [Hs|Hs]]; congruence.
Qed.

(** The frame on top steps or returns; the others may be woken. *)
Lemma stacked_step (l1 : list frame) f (l2 : list frame) sg fm :
  stacked (l1 ++ f :: l2) -> f_gid f ∉ f_gid <$> l1 -> fm = [] \/ (exists f', fm = [f'] /\ f_gid f' = f_gid f) ->
  stacked (signalled sg l1 ++ fm ++ signalled sg l2).
Proof.
  intros (Hs1 & [Hsf Hs2] & Hs12)%stacked_app Hg Hfm. assert (Hgid : forall f1, f1 ∈ fm -> f_gid f1 = f_gid f).
  { destruct Hfm as [->|(f' & -> & E)]; [by intros ? ?%elem_of_nil|by intros ? ->%list_elem_of_singleton]. }
  apply stacked_app. split; [by apply stacked_signalled|]. split.
  - apply stacked_app. split; [|split; [by apply stacked_signalled|]].
    + destruct Hfm as [->|(f' & -> & _)]; [done|]. split; [by intros ? ?%elem_of_nil|done].
    + intros f1 f2 H1 (f3 & H3 & Hg3 & Hi3 & _)%signalled_elem E. apply Hi3, Hsf; [done|]. rewrite <- Hg3, E. by apply Hgid.
  - intros f1 f2 (f4 & H4 & Hg4 & _)%signalled_elem [H2|H2]%elem_of_app E.
    + exfalso. apply Hg. rewrite <- (Hgid f2 H2), E, Hg4. apply list_elem_of_fmap. eauto.
    + apply signalled_elem in H2 as (f3 & H3 & Hg3 & Hi3 & _). apply Hi3. apply (Hs12 f4); [done|by right|congruence].
Qed.

(** Those still asleep are of other goroutines, and there was no broadcast. *)
Lemma sleepers_step (l1 : list frame) f (l2 : list frame) sg f0 :
  stacked (l1 ++ f :: l2) -> f_gid f ∉ f_gid <$> l1 -> f0 ∈ signalled sg l1 ++ signalled sg l2 -> f_status f0 = Asleep ->
  f0 ∈ l1 ++ f :: l2 /\ sg <> Broadcast /\ f_gid f <> f_gid f0.
Proof.
  intros (_ & [Hsf _] & _)%stacked_app Hg Hin Has.
  assert (Hx : (f0 ∈ l1 \/ f0 ∈ l2) /\ sg <> Broadcast).
  { apply elem_of_app in Hin as [Hin|Hin]; apply signalled_elem in Hin as (f1 & Hin & _ & _ & Hsame); destruct (Hsame Has) as [-> ?]; auto. }
  destruct Hx as [Hx ?]. split_and!; [rewrite elem_of_app, elem_of_cons; naive_solver|done|]. intros E. destruct Hx as [Hx|Hx].
  - apply Hg. rewrite E. apply list_elem_of_fmap. eauto.
  - rewrite (Hsf f0 Hx (eq_sym E)) in Has. done.
Qed.

Lemma lock_step m lk l (l1 : list frame) f (l2 : list frame) m' lk' f' sg ev x :
  frame_step m lk l f m' lk' f' sg ev -> frame_ok l f x ->
  (lk = true -> (exists f0, f0 ∈ l1 ++ f :: l2 /\ f_status f0 = Holding) \/ exists o msg, Finish o (Panicked msg) ∈ l) ->
  lk' = true -> (exists f0, f0 ∈ signalled sg l1 ++ option_list f' ++ signalled sg l2 /\ f_status f0 = Holding)
    \/ exists o msg, Finish o (Panicked msg) ∈ l ++ ev.
Proof.
  intros Hst (_ & _ & Hok) Hlk Hlk'.
  assert (Hpan : forall o msg, Finish o (Panicked msg) ∈ l -> exists o msg, Finish o (Panicked msg) ∈ l ++ ev).
  { intros o msg Hp. exists o, msg. apply elem_of_app. by left. }
  assert (Hrest : f_status f <> Holding -> sg = Unlock -> lk = true ->
    (exists f0, f0 ∈ signalled sg l1 ++ option_list f' ++ signalled sg l2 /\ f_status f0 = Holding) \/ exists o msg, Finish o (Panicked msg) ∈ l ++ ev).
  { intros Hf -> E. destruct (Hlk E) as [(f0 & Hin & Hh)|(o & msg & Hp)]; [left|right; by eapply Hpan]. exists f0. split; [|done].
    cbn. rewrite !elem_of_app. apply elem_of_app in Hin as [?|[->|?]%elem_of_cons]; auto. done. }
  destruct Hst as [c k Hp Hs|c k v Hp Hs Hv|w body Hp Hs Hw|w body m' sg p Hp Hs Hw Hb|res Hp Hs].
  - apply Hrest; [congruence|done|done].
  - apply Hrest; [congruence|done|done].
  - done.
  - destruct sg; try done. left. eexists. split; [apply elem_of_app; right; by left|done].
  - destruct Hs as [Hs|Hs]; [apply Hrest; [congruence|done|done]|]. rewrite Hs, Hp in Hok. destruct Hok as [Hk _].
    destruct res as [|msg]; [done|]. right. exists (f_op f), msg. apply elem_of_app. right. by left.
Qed.

Lemma PInv_advance c c' R : advance c c' -> PInv c R -> exists R', PInv c' R'.
Proof.
  intros H. destruct H as [m lk l1 f l2 l m' lk' f' sg ev Hg Hst]. intros [[I Hf] Hstk Hsl Hlk]. cbn in I, Hf, Hstk, Hsl, Hlk.
  apply Forall2_app_inv_l in Hf as (R1 & Rx & Hf1 & Hfx & ->). apply Forall2_cons_inv_l in Hfx as (x & R2 & Hx & Hf2 & ->).
  assert (Hp : forall y, R1 ++ y :: R2 ≡ₚ y :: R1 ++ R2) by (intros; by rewrite Permutation_middle).
  pose proof (frame_step_inv _ _ _ _ _ _ _ _ _ _ _ Hst Hx (Inv_perm _ _ _ _ (Hp x) I)) as Hr.
  assert (Hfs : forall fs R, Forall2 (frame_ok l) fs R -> Forall2 (frame_ok (l ++ ev)) (signalled sg fs) R).
  { intros fs R Hfs. apply frames_ok_signalled. eapply Forall2_impl; [exact Hfs|]. intros; by apply frame_ok_log. }
  assert (Hgx : x.1 = f_gid f) by (by destruct Hx). pose proof (lock_step _ _ _ l1 f l2 _ _ _ _ _ _ Hst Hx Hlk) as Hlock.
  assert (Hold : forall f0 w body, f0 ∈ signalled sg l1 ++ signalled sg l2 -> f_status f0 = Asleep -> f_prog f0 = Lock w body ->
    slept w (f_gid f0) m (x :: R1 ++ R2) /\ sg <> Broadcast /\ x.1 <> f_gid f0).
  { intros f0 w body Hin Has Hpr. destruct (sleepers_step _ _ _ _ _ Hstk Hg Hin Has) as (H0 & Hsg & Hne). rewrite Hgx.
    split; [|done]. eapply slept_perm; [apply Hp|]. by eapply Hsl. }
  destruct f' as [f'|]; cbn [option_list] in *.
  - destruct Hr as (r' & I1 & Hf' & Hgf & Hmv). exists (R1 ++ (x.1, r') :: R2). split; [split| | |done]; cbn.
    + eapply Inv_perm; [|exact I1]. by rewrite Hp.
    + apply Forall2_app; [by apply Hfs|]. constructor; [done|by apply Hfs].
    + apply (stacked_step _ f _ _ [f']); [done..|]. right. by exists f'.
    + intros f0 w body Hin Has Hpr. eapply slept_perm; [by rewrite Hp|].
      assert (Hin' : f0 ∈ signalled sg l1 ++ signalled sg l2 \/ f0 = f') by (rewrite elem_of_app, elem_of_cons in Hin; rewrite elem_of_app; naive_solver).
      destruct Hin' as [Hin'| ->].
      * destruct (Hold f0 w body Hin' Has Hpr) as (Hs & Hsg & Hne). destruct x as [g r]. cbn in *.
        destruct Hmv as [->|[r1 Hmv]]; [by eapply slept_role|]. eapply move_slept; [done|done|done|]. by eapply slept_role.
      * destruct (frame_step_asleep _ _ _ _ _ _ _ _ _ Hst Has) as (w' & body' & Hpr' & Hmw & ->).
        assert (w' = w) as -> by congruence. rewrite Hgf. by eapply slept_wait.
  - destruct Hr as [I1 ->]. exists (R1 ++ R2). split; [split; [done|]| | |done]; cbn.
    + apply Forall2_app; by apply Hfs.
    + apply (stacked_step _ f _ _ []); auto.
    + intros f0 w body Hin Has Hpr. destruct (Hold f0 w body Hin Has Hpr) as (Hs & _ & Hne). destruct x as [g r]. cbn in *.
      apply (proj1 (slept_free w (f_gid f0) g m _)). by eapply slept_role.
Qed.

Lemma ready_inside g fs : stacked fs -> ready g fs -> forall f, f ∈ fs -> f_gid f = g -> f_status f = Inside.
Proof.
  unfold ready. induction fs as [|f0 fs IH]; [by intros _ _ ? ?%elem_of_nil|]. intros [H1 H2]. cbn. case_bool_decide as E.
  - intros Hi f [->|Hf]%elem_of_cons Hg; [done|]. apply H1; [done|]. congruence.
  - intros Hr f [->|Hf]%elem_of_cons Hg; [done|]. by apply IH.
Qed.

Lemma reachable_pinv c : reachable c -> exists R, PInv c R.
Proof.
  induction 1 as [|c c' Hr [R HR] Hs].
  - exists []. split; [split; [apply Inv_init|constructor]|done| |done]. by intros ? ? ? ?%elem_of_nil.
  - destruct Hs as [c g o Hg Hrd|c c' Ha]; [|by eapply PInv_advance]. destruct HR as [[I Hf] Hstk Hsl Hlk]. exists ((g, RFree) :: R).
    split; [split|..]; cbn.
    + by apply free_inv.
    + constructor; [|done]. split; [done|]. split; [done|]. apply op_safe.
    + split; [|done]. intros f Hin E. by eapply ready_inside.
    + intros f w body [->|Hin]%elem_of_cons Has Hp; [done|]. apply slept_free. by eapply Hsl.
    + intros E. destruct (Hlk E) as [(f & Hin & Hh)|?]; [left; exists f; split; [by right|done]|by right].
Qed.

(** ** Progress *)

(** A frame that is not asleep steps, unless another holds the lock it needs. *)
Lemma frame_steps m lk l f x :
  frame_ok l f x -> f_status f <> Asleep -> lk = false \/ f_status f = Holding ->
  exists m' lk' f' sg ev, frame_step m lk l f m' lk' f' sg ev.
Proof.
  intros (_ & _ & Hok) Has Hlk. destruct (f_prog f) as [res|c k|w body] eqn:Hp.
  - destruct (f_status f) eqn:Hs; [..|done]; [| |done]; do 5 eexists; (eapply fs_finish; [done|]); auto.
  - destruct (f_status f) eqn:Hs; [..|done]; [|by destruct Hok|].
    + do 5 eexists. by eapply fs_invoke.
    + assert (exists v, reply_ok l c v) as [v Hv]; [|do 5 eexists; by eapply fs_return].
      destruct c as [tag|s me| |]; [by exists (inr EOF)|destruct me; by first [exists None|exists tt]|by exists (inr EOF)|by exists None].
  - assert (Hready : (f_status f = Running /\ lk = false) \/ f_status f = Holding).
    { destruct (f_status f) eqn:Hs; [..|done]; [|by right|done]. left. split; [done|]. by destruct Hlk. }
    destruct (must_wait w (f_gid f) m) eqn:Hw; [do 5 eexists; by eapply fs_wait|].
    destruct (body (f_gid f) m) as [[m' sg] p] eqn:Hb. do 5 eexists. by eapply fs_run.
Qed.

(** The frame on top of the stack a frame is in. *)
Lemma top_of (fs : list frame) f0 : f0 ∈ fs -> exists (l1 : list frame) f (l2 : list frame), fs = l1 ++ f :: l2 /\ f_gid f = f_gid f0 /\ (f_gid f ∉ f_gid <$> l1)
  /\ (f0 = f \/ f0 ∈ l2).
Proof.
  induction fs as [|f fs IH]; [by intros ?%elem_of_nil|]. intros Hin. destruct (decide (f_gid f = f_gid f0)) as [E|E].
  - exists [], f, fs. split; [done|]. split; [done|]. split; [by apply not_elem_of_nil|]. by apply elem_of_cons in Hin.
  - apply elem_of_cons in Hin as [->|Hin]; [done|]. destruct (IH Hin) as (l1 & f1 & l2 & -> & Hg & Hn & Hor). exists (f :: l1), f1, l2.
    split; [done|]. split; [done|]. split; [|done]. cbn. rewrite elem_of_cons. intros [?|?]; [congruence|done].
Qed.

(** A [Close] was called from inside a call another operation makes, other than [Remove]. *)
Definition closes_itself (fs : list frame) : Prop :=
  exists (l1 l2 : list frame) f f', fs = l1 ++ f :: l2 /\ f_op f = OpClose /\ f' ∈ l2 /\ f_gid f' = f_gid f /\ forall tag, f_op f' <> OpRemove tag.

Section Stuck.
Variables (c : config) (R : list (Z * role)).
Hypothesis (HP : PInv c R) (Hself : ~ closes_itself (frames c)).
Hypothesis Hasleep : forall (l1 : list frame) f (l2 : list frame), frames c = l1 ++ f :: l2 -> f_gid f ∉ f_gid <$> l1 -> f_status f = Asleep.

(** A role that its goroutine is not the one asleep in: what sleeps above it. *)
Lemma above g r :
  (g, r) ∈ R -> r <> RFree -> (forall s, r <> RRemoving s) ->
  (r = RClosing /\ must_wait WaitQuiet g (mgr c) = true)
  \/ (idle (mgr c) = false /\ g ∉ omap owner_of R /\ g ∉ omap starter_of R /\ g ∉ omap closer_of R).
Proof using All.
  intros Hin Hfree Hrem. destruct HP as [[I Hf] Hstk Hsl _].
  apply list_elem_of_lookup in Hin as [i Hi]. destruct (Forall2_lookup_r _ _ _ _ _ Hf Hi) as (f0 & Hf0 & Hok0).
  destruct (top_of (frames c) f0) as (l1 & f & l2 & E & Hg & Hn & Hor); [by eapply list_elem_of_lookup_2|].
  pose proof (Hasleep _ _ _ E Hn) as Has. assert (Hfin : f ∈ frames c) by (rewrite E; apply elem_of_app; right; by left).
  destruct (Forall2_elem _ _ _ _ Hf Hfin) as ([g' r'] & Hr' & (Hg' & _ & Hok')). rewrite Has in Hok'. cbn in Hg', Hok'.
  destruct (f_prog f) as [| |w body] eqn:Hp; try done. pose proof (Hsl f w body Hfin Has Hp) as Hs. pose proof (safe_waits _ _ _ _ _ Hok') as Hw.
  destruct Hok0 as (Hg0 & Hfit & Hok0). cbn in Hg0, Hfit, Hok0. destruct Hor as [->|Hbelow].
  - rewrite Has, Hp in Hok0. apply safe_waits in Hok0. destruct w; cbn in Hs, Hok0; try done; [by destruct Hok0|].
    destruct Hok0 as [-> _]. left. rewrite <- Hg0. done.
  - rewrite <- Hg0, <- Hg. destruct w; cbn in Hs, Hw; [done|by right|exfalso..]; apply Hself; exists l1, l2, f, f0;
      (split; [done|split; [apply Hw|split; [done|split; [done|]]]]); intros tag Eo; rewrite Eo in Hfit;
      destruct r as [| | | | | |s]; cbn in Hfit; try done; try (by destruct Hfit); by destruct (Hrem s).
Qed.

Lemma omap_empty {A B} (f : A -> option B) (xs : list A) : (forall x, x ∈ xs -> f x = None) -> omap f xs = [].
Proof. induction xs as [|x xs IH]; [done|]. intros H. cbn. rewrite (H x) by (by left). apply IH. intros; apply H. by right. Qed.

Lemma none_underway :
  omap tag_of R = [] /\ omap starter_of R = [] /\ omap committer_of R = [] /\ omap closer_of R = []
  /\ idle (mgr c) = true /\ must_wait WaitQuiet 0 (mgr c) = false.
Proof using All.
  pose proof HP as [[I _] _ _ _].
  assert (Ht : omap tag_of R = []).
  { apply omap_empty. intros [g r] Hin. destruct r as [|tag sn u| | | | |]; try done. exfalso.
    destruct (above g _ Hin) as [[? _]|(_ & Hn & _)]; [done..|]. by apply Hn; eapply omap_elem. }
  assert (Hs : omap starter_of R = []).
  { apply omap_empty. intros [g r] Hin. destruct r as [| |ss| | | |]; try done. exfalso.
    destruct (above g _ Hin) as [[? _]|(_ & _ & Hn & _)]; [done..|]. by apply Hn; eapply omap_elem. }
  assert (Hu : updates (mgr c) = ∅) by (destruct (inv_tags _ _ _ I) as [_ ->]; by rewrite Ht).
  assert (Hf : startInFlight (mgr c) = 0) by (destruct (inv_starters _ _ _ I) as [[_ ?]|(E & _)]; [done|congruence]).
  assert (Hi : idle (mgr c) = true) by (unfold idle; by rewrite Hu, Hf, bool_decide_true).
  assert (Hc : omap committer_of R = []).
  { apply omap_empty. intros [g r] Hin. destruct r as [| | |ss cs| | |]; try done. exfalso.
    destruct (above g _ Hin) as [[? _]|(Hn & _)]; [done..|congruence]. }
  assert (Hq : must_wait WaitQuiet 0 (mgr c) = false).
  { cbn. destruct (inv_committers _ _ _ I) as [[_ ->]|(g & E & _)]; [|congruence]. by rewrite Hu, Hf, bool_decide_true. }
  split_and!; try done. apply omap_empty. intros [g r] Hin. destruct r as [| | | | |ss|]; try done; exfalso;
    (destruct (above g _ Hin) as [[_ Hm]|(_ & _ & _ & Hn)]; [done..| |by apply Hn; eapply omap_elem]); cbn in Hq, Hm; congruence.
Qed.

Lemma nothing_asleep : frames c = [].
Proof using All.
  destruct none_underway as (_ & _ & _ & Hcl & Hi & Hq). destruct HP as [[I Hf] _ Hsl _]. destruct (frames c) as [|f fs] eqn:E; [done|exfalso].
  pose proof (Hasleep [] f fs eq_refl ltac:(by apply not_elem_of_nil)) as Has.
  destruct (Forall2_elem _ _ _ f Hf) as (x & _ & (_ & _ & Hok)); [by left|]. rewrite Has in Hok.
  destruct (f_prog f) as [| |w body] eqn:Hp; try done. specialize (Hsl f w body ltac:(by left) Has Hp). destruct w; cbn in Hsl, Hq; try congruence.
  - destruct Hsl; congruence.
  - destruct (inv_closers _ _ _ I) as [[_ ?]|(g & ? & _)]; [by destruct Hsl; congruence|congruence].
Qed.
End Stuck.

(** Some frame on top of a stack is awake, or all of them sleep. *)
Lemma awake_top (fs : list frame) :
  (exists (l1 : list frame) f (l2 : list frame), fs = l1 ++ f :: l2 /\ (f_gid f ∉ f_gid <$> l1) /\ f_status f <> Asleep)
  \/ (forall (l1 : list frame) f (l2 : list frame), fs = l1 ++ f :: l2 -> f_gid f ∉ f_gid <$> l1 -> f_status f = Asleep).
Proof.
  induction fs as [|x fs IH] using rev_ind; [right; by intros [|]|]. destruct IH as [(l1 & f & l2 & -> & Hg & Has)|Hall].
  { left. exists l1, f, (l2 ++ [x]). by rewrite <- app_assoc. }
  destruct (decide (f_status x = Asleep \/ f_gid x ∈ f_gid <$> fs)) as [Hx|Hx]; [right|left; exists fs, x, []; naive_solver].
  intros l1 f l2 E Hg. destruct l2 as [|y l2 _] using rev_ind.
  - apply app_inj_tail in E as [-> ->]. by destruct Hx.
  - rewrite app_comm_cons, app_assoc in E. apply app_inj_tail in E as [-> _]. by eapply Hall.
Qed.

(** C13: Whatever operations are underway, on however many goroutines, nested in the calls of
    services or not, one of them can go on: starts, commits, creations, removals and closes
    never wait for each other forever.  The exceptions are a [Close] from inside a call that
    a start, a creation, a commit or another close makes, and a [Start] that has panicked
    with the lock. *)
Theorem service_manager_no_deadlock c :
  reachable c -> frames c <> [] -> ~ closes_itself (frames c) -> (forall o msg, Finish o (Panicked msg) ∉ log c) ->
  exists c', advance c c'.
Proof.
  intros Hr Hne Hself Hpan. destruct (reachable_pinv c Hr) as [R HP]. pose proof HP as [[I Hf] Hstk Hsl Hlk].
  assert (Hgo : forall (l1 : list frame) f (l2 : list frame), frames c = l1 ++ f :: l2 -> f_gid f ∉ f_gid <$> l1 -> f_status f <> Asleep ->
    locked c = false \/ f_status f = Holding -> exists c', advance c c').
  { intros l1 f l2 E Hg Has Hl. destruct (Forall2_elem _ _ _ f Hf) as (x & _ & Hok); [rewrite E; apply elem_of_app; right; by left|].
    destruct (frame_steps (mgr c) (locked c) (log c) f x Hok Has Hl) as (m' & lk' & f' & sg & ev & Hst).
    exists (MkConfig m' lk' (signalled sg l1 ++ option_list f' ++ signalled sg l2) (log c ++ ev)).
    destruct c. cbn in *. subst. by apply advance_frame. }
  destruct (locked c) eqn:Elk.
  - destruct (Hlk eq_refl) as [(f & Hin & Hh)|(o & msg & Hp)]; [|by destruct (Hpan o msg)].
    apply list_elem_of_split in Hin as (l1 & l2 & E). rewrite E in Hstk. apply stacked_app in Hstk as (_ & _ & Hs12).
    apply (Hgo l1 f l2 E); [|congruence|by right]. intros (f1 & Hg & Hin)%list_elem_of_fmap.
    by rewrite (Hs12 f1 f Hin ltac:(by left) Hg) in Hh.
  - destruct (awake_top (frames c)) as [(l1 & f & l2 & E & Hg & Has)|Hall]; [by apply (Hgo l1 f l2); auto|].
    exfalso. apply Hne. by apply (nothing_asleep c R HP Hself).
Qed.
