(* ===== verification/ServiceManagerCases.v ===== *)
(** * Service manager: runs

    A scheduler that executes chosen steps, the cases in which the manager falls short, and
    the witnesses of the theorems. *)

From S2P Require Import Prelude GoStd Managers ServiceManager ServiceProtocol ServiceInvariant ServiceManagerSpec ServiceProgress.
Local Open Scope Z_scope.

#[local] Instance res_eq_dec : EqDecision res.
Proof. solve_decision. Defined.
#[local] Instance event_eq_dec : EqDecision event.
Proof. solve_decision. Defined.

(** ** A scheduler *)

(** A goroutine begins an operation; its frame on top goes on; its call returns, with an
    error or not, and with the service constructed. *)
Inductive choice := Begin (g : Z) (o : op) | Go (g : Z) | Ret (g : Z) (ok : bool) (new_ : option Service).

Definition reply_of (c : callee) (ok : bool) (new_ : option Service) : reply c :=
  match c with
  | RegistryCreate _ => match new_ with Some s => inl s | None => inr EOF end
  | BeforeCommit => if ok then inl false else inr EOF
  | BeforeRollback => if ok then None else Some EOF
  | Method s m => match m return reply (Method s m) with MActivate => tt | _ => if ok then None else Some EOF end
  end.
Definition reply_fresh (l : list event) (c : callee) (new_ : option Service) : bool :=
  match c, new_ with RegistryCreate _, Some s => negb (bool_decide (NewService s ∈ l)) | _, _ => true end.

Fixpoint split_top (g : Z) (fs : list frame) : option (list frame * frame * list frame) :=
  match fs with
  | [] => None
  | f :: fs' => if f_gid f =? g then Some ([], f, fs') else '(l1, f', l2) ← split_top g fs'; Some (f :: l1, f', l2)
  end.

Definition go (m : Manager) (lk : bool) (f : frame) : option (Manager * bool * option frame * signal * list event) :=
  let frame p s := MkFrame (f_gid f) (f_op f) p s in
  match f_prog f, f_status f with
  | Call c k, Running => Some (m, lk, Some (frame (Call c k) Inside), Unlock, [Invoke c])
  | Done r, (Running | Holding) => Some (m, lk, None, Unlock, [Finish (f_op f) r])
  | Lock w body, (Running | Holding) =>
      if bool_decide (f_status f = Running) && lk then None
      else if must_wait w (f_gid f) m then Some (m, false, Some (frame (Lock w body) Asleep), Unlock, [])
      else let '(m', sg, p) := body (f_gid f) m in
           Some (m', match sg with Hold => true | _ => false end, Some (frame p (match sg with Hold => Holding | _ => Running end)), sg, [])
  | _, _ => None
  end.
Definition ret (m : Manager) (lk : bool) (l : list event) (f : frame) (ok : bool) (new_ : option Service)
    : option (Manager * bool * option frame * signal * list event) :=
  match f_prog f, f_status f with
  | Call c k, Inside =>
      if reply_fresh l c new_ then
        Some (m, lk, Some (MkFrame (f_gid f) (f_op f) (k (reply_of c ok new_)) Running), Unlock, events_of c (reply_of c ok new_))
      else None
  | _, _ => None
  end.
Definition readyb (g : Z) (fs : list frame) : bool :=
  match List.find (fun f => bool_decide (f_gid f = g)) fs with None => true | Some f => bool_decide (f_status f = Inside) end.

Definition choose (c : config) (ch : choice) : option config :=
  match ch with
  | Begin g o =>
      if (0 <? g) && readyb g (frames c) then Some (MkConfig (mgr c) (locked c) (MkFrame g o (op_prog o) Running :: frames c) (log c)) else None
  | Go g | Ret g _ _ =>
      '(l1, f, l2) ← split_top g (frames c);
      '(m', lk', f', sg, ev) ← (match ch with Ret _ ok new_ => ret (mgr c) (locked c) (log c) f ok new_ | _ => go (mgr c) (locked c) f end);
      Some (MkConfig m' lk' (signalled sg l1 ++ option_list f' ++ signalled sg l2) (log c ++ ev))
  end.
Fixpoint run (c : config) (chs : list choice) : option config :=
  match chs with
  | [] => Some c
  | ch :: chs' => c' ← choose c ch; run c' chs'
  end.

Lemma split_top_spec g fs l1 f l2 : split_top g fs = Some (l1, f, l2) -> fs = l1 ++ f :: l2 /\ f_gid f ∉ f_gid <$> l1 /\ f_gid f = g.
Proof.
  revert l1. induction fs as [|x fs IH]; intros l1; cbn; [done|]. destruct (Z.eqb_spec (f_gid x) g) as [E|E].
  - intros [= <- <- <-]. split; [done|]. split; [by apply not_elem_of_nil|done].
  - destruct (split_top g fs) as [[[l1' f'] l2']|]; cbn; [|done]. intros [= <- <- <-]. destruct (IH _ eq_refl) as (-> & Hn & Hg).
    split; [done|]. split; [|done]. cbn. rewrite elem_of_cons. intros [?|?]; [congruence|done].
Qed.

Lemma go_step m lk l f m' lk' f' sg ev : go m lk f = Some (m', lk', f', sg, ev) -> frame_step m lk l f m' lk' f' sg ev.
Proof.
  unfold go. destruct (f_prog f) as [r|c k|w body] eqn:Hp.
  - destruct (f_status f) eqn:Hs; intros [= <- <- <- <- <-]; apply fs_finish; auto.
  - destruct (f_status f) eqn:Hs; intros [= <- <- <- <- <-]. by apply fs_invoke.
  - destruct (f_status f) eqn:Hs; try done; cbn.
    + destruct lk eqn:Hl; [by rewrite bool_decide_true|]. rewrite andb_false_r. destruct (must_wait w (f_gid f) m) eqn:Hw.
      * intros [= <- <- <- <- <-]. apply fs_wait; auto.
      * destruct (body (f_gid f) m) as [[m1 sg1] p1] eqn:Hb. intros [= <- <- <- <- <-]. eapply fs_run; eauto.
    + destruct (must_wait w (f_gid f) m) eqn:Hw.
      * intros [= <- <- <- <- <-]. apply fs_wait; auto.
      * destruct (body (f_gid f) m) as [[m1 sg1] p1] eqn:Hb. intros [= <- <- <- <- <-]. eapply fs_run; eauto.
Qed.

Lemma ret_step m lk l f ok new_ m' lk' f' sg ev : ret m lk l f ok new_ = Some (m', lk', f', sg, ev) -> frame_step m lk l f m' lk' f' sg ev.
Proof.
  unfold ret. destruct (f_prog f) as [r|c k|w body] eqn:Hp; try done. destruct (f_status f) eqn:Hs; try done.
  destruct (reply_fresh l c new_) eqn:Hf; [|done]. intros [= <- <- <- <- <-]. apply fs_return; [done|done|].
  destruct c as [tag|s me| |]; try done. destruct new_ as [s|]; cbn in *; [|done]. by apply negb_true_iff, bool_decide_eq_false in Hf.
Qed.

Lemma run_reachable c chs c' : reachable c -> run c chs = Some c' -> reachable c'.
Proof.
  revert c. induction chs as [|ch chs IH]; intros c Hr; cbn; [by intros [= <-]|].
  destruct (choose c ch) as [c1|] eqn:E; cbn; [|done]. apply IH. eapply reach_step; [done|]. destruct ch as [g o|g|g ok new_]; cbn in E.
  - destruct (0 <? g) eqn:Hg; cbn in E; [|done]. destruct (readyb g (frames c)) eqn:Hb; [|done]. injection E as <-. apply step_begin; [lia|].
    unfold ready, readyb in *. destruct (List.find _ _); [|done]. by apply bool_decide_eq_true in Hb.
  - destruct (split_top g (frames c)) as [[[l1 f] l2]|] eqn:Es; cbn in E; [|done]. apply split_top_spec in Es as (Ef & Hn & _).
    destruct (go (mgr c) (locked c) f) as [[[[[m' lk'] f'] sg] ev]|] eqn:Eg; cbn in E; [|done]. injection E as <-.
    apply step_advance. destruct c. cbn in *. subst. apply advance_frame; [done|]. by apply go_step.
  - destruct (split_top g (frames c)) as [[[l1 f] l2]|] eqn:Es; cbn in E; [|done]. apply split_top_spec in Es as (Ef & Hn & _).
    destruct (ret _ _ _ f ok new_) as [[[[[m' lk'] f'] sg] ev]|] eqn:Eg; cbn in E; [|done]. injection E as <-.
    apply step_advance. destruct c. cbn in *. subst. apply advance_frame; [done|]. by eapply ret_step.
Qed.

(** ** Sequential runs *)

Definition svc_a : Service := MkService 1 "api" "a" true true.
Definition svc_b : Service := MkService 2 "api" "a" true true.

(** A creation before the start, a start of one service, and a commit of one service. *)
Definition run_create (g : Z) (tag : string) (s : Service) : list choice :=
  [Begin g (OpCreate tag); Go g; Go g; Ret g true (Some s); Go g; Go g; Go g].
Definition run_start (g : Z) (st : StartStage) : list choice :=
  [Begin g (OpStart st); Go g; Go g; Ret g true None; Go g; Go g].
Definition run_commit (g : Z) : list choice :=
  [Begin g (OpCommit false); Go g; Go g; Ret g true None; Go g; Ret g true None; Go g; Go g; Ret g true None; Go g; Go g].
Definition box_run : list choice := run_create 1 "a" svc_a ++ mbind (run_start 1) ListStartStages ++ run_commit 1.

(** A run whose last event is [e], with [x] before it. *)
Definition ends_with (chs : list choice) (x e : event) : bool :=
  match run init chs with
  | Some c => bool_decide (last (log c) = Some e) && bool_decide (x ∈ log c)
  | None => false
  end.

Lemma ends_with_reachable chs x e :
  ends_with chs x e = true -> x <> e -> exists c l1, reachable c /\ log c = l1 ++ [e] /\ x ∈ l1.
Proof.
  unfold ends_with. destruct (run init chs) as [c|] eqn:E; [|done]. intros [H1 H2]%andb_true_iff Hne. apply bool_decide_eq_true in H1, H2.
  apply last_Some in H1 as [l1 Hl]. exists c, l1. split; [by eapply run_reachable; [constructor|]|]. split; [done|].
  rewrite Hl in H2. apply elem_snoc in H2 as [?|?]; done.
Qed.

(** ** Where the manager falls short *)

Definition start_after_close : list choice :=
  run_create 1 "a" svc_a ++ [Begin 1 (OpStart StartStateInitialize); Go 1]
  ++ [Begin 2 (OpRemove "a"); Go 2; Go 2; Ret 2 true None; Go 2] ++ [Go 1].

(** A service that [Remove] has closed is started afterwards: [Start] goes through the
    services it saw when it began, and [Remove] does not wait for it. *)
Theorem removed_service_started_after_close :
  exists c l1 s st, reachable c /\ log c = l1 ++ [Invoke (Method s (MStart st))] /\ Succeeded (Method s MClose) ∈ l1.
Proof.
  destruct (ends_with_reachable start_after_close (Succeeded (Method svc_a MClose)) (Invoke (Method svc_a (MStart StartStateInitialize))))
    as (c & l1 & H); [vm_compute; reflexivity|done|]. eauto.
Qed.

Definition close_twice : list choice :=
  run_create 1 "a" svc_a ++ [Begin 1 (OpCreate "a"); Go 1; Go 1; Ret 1 true (Some svc_b); Go 1; Ret 1 true None]
  ++ [Begin 2 OpClose; Go 2; Go 2] ++ [Go 1; Go 1; Ret 1 true None; Go 1; Go 1] ++ [Go 2; Go 2].

(** A service whose replacement is overtaken by [Close] is closed twice: the update has closed
    it and then fails, and it is still in the registry. *)
Theorem replaced_service_closed_twice :
  exists c l1 s, reachable c /\ log c = l1 ++ [Invoke (Method s MClose)] /\ Succeeded (Method s MClose) ∈ l1.
Proof.
  destruct (ends_with_reachable close_twice (Succeeded (Method svc_a MClose)) (Invoke (Method svc_a MClose)))
    as (c & l1 & H); [vm_compute; reflexivity|done|]. eauto.
Qed.

(** One goroutine, its latest operation asleep. *)
Lemma one_stack_stuck c g c' : f_gid <$> frames c = [g; g] -> head (f_status <$> frames c) = Some Asleep -> ~ advance c c'.
Proof.
  intros Hg Hs Ha. destruct Ha as [m lk l1 f l2 l m' lk' f' sg ev Hn Hst]. cbn in Hg, Hs. apply frame_step_awake in Hst.
  destruct l1 as [|x l1]; cbn in *; [congruence|]. apply Hn. apply elem_of_cons. left.
  destruct l1 as [|y l1]; cbn in Hg; [by injection Hg as -> -> _|]. by destruct l1.
Qed.

Definition close_inside : list choice := [Begin 1 (OpCreate "a"); Go 1; Go 1; Begin 1 OpClose; Go 1; Go 1].

(** A service that closes the manager while it is being constructed waits for itself: nothing
    can go on. *)
Theorem close_from_constructor_hangs :
  exists c, reachable c /\ frames c <> [] /\ (forall o msg, Finish o (Panicked msg) ∉ log c) /\ forall c', ~ advance c c'.
Proof.
  assert (H : match run init close_inside with
              | Some c => bool_decide (f_gid <$> frames c = [1; 1]) && bool_decide (f_status <$> frames c = [Asleep; Inside])
                          && bool_decide (log c = [Invoke (RegistryCreate "a")])
              | None => false end = true) by (vm_compute; reflexivity).
  destruct (run init close_inside) as [c|] eqn:E; [|done]. apply andb_true_iff in H as [[H1 H2]%andb_true_iff H3].
  apply bool_decide_eq_true in H1, H2, H3. exists c. split; [by eapply run_reachable; [constructor|]|]. split; [by intros Hf; rewrite Hf in H1|].
  split; [rewrite H3; by intros ? ? [?|?%elem_of_nil]%elem_of_cons|]. intros c'. apply (one_stack_stuck _ 1); [done|]. by rewrite H2.
Qed.

(** ** Witnesses *)

Lemma box_run_log : exists c, reachable c /\ frames c = [] /\ closed (mgr c) = false /\ services (mgr c) = [svc_a]
  /\ Invoke (Method svc_a (MStart StartStateStarted)) ∈ log c
  /\ exists l1 l2, log c = l1 ++ Invoke (Method svc_a MActivate) :: l2.
Proof.
  assert (H : match run init box_run with
              | Some c => (Nat.eqb (length (frames c)) 0) && negb (closed (mgr c)) && bool_decide (services (mgr c) = [svc_a])
                          && bool_decide (Invoke (Method svc_a (MStart StartStateStarted)) ∈ log c)
                          && bool_decide (Invoke (Method svc_a MActivate) ∈ log c)
              | None => false end = true) by (vm_compute; reflexivity).
  destruct (run init box_run) as [c|] eqn:E; [|done]. repeat (apply andb_true_iff in H as [H ?]). exists c.
  split; [by eapply run_reachable; [constructor|]|]. split; [by destruct (frames c)|]. split; [by apply negb_true_iff|].
  split; [by eapply bool_decide_eq_true_1|]. split; [by eapply bool_decide_eq_true_1|]. apply list_elem_of_split. by eapply bool_decide_eq_true_1.
Qed.

Lemma service_activation_safe_witness : exists l1, committed l1 svc_a = true /\ Succeeded (Method svc_a MClose) ∉ l1.
Proof.
  destruct box_run_log as (c & Hr & _ & _ & _ & _ & l1 & l2 & Hl).
  destruct (proj1 (service_activation_safe c Hr) l1 l2 svc_a Hl) as (_ & Hc & Hk). exists l1. split; [by apply Hk|exact Hc].
Defined.

Lemma no_service_lost_witness : exists c, reachable c /\ NoDup (services (mgr c)) /\ svc_a ∈ services (mgr c).
Proof.
  destruct box_run_log as (c & Hr & Hf & _ & Hs & _). exists c. split; [exact Hr|]. split; [exact (proj1 (no_service_lost c Hr Hf))|].
  rewrite Hs. by left.
Defined.

(** A creation underway on one goroutine, a close that waits for it on another. *)
Lemma service_manager_no_deadlock_witness : exists c c', reachable c /\ length (frames c) = 2%nat /\ advance c c'.
Proof.
  assert (H : match run init [Begin 1 (OpCreate "a"); Go 1; Begin 2 OpClose; Go 2; Go 2] with
              | Some c => bool_decide (f_gid <$> frames c = [2; 1]) && bool_decide (log c = []) | None => false end = true) by (vm_compute; reflexivity).
  destruct (run init _) as [c|] eqn:E; [|done]. apply andb_true_iff in H as [H1 H2]. apply bool_decide_eq_true in H1, H2.
  assert (Hr : reachable c) by (by eapply run_reachable; [constructor|]). destruct (service_manager_no_deadlock c Hr) as [c' Hc].
  - intros Hf. by rewrite Hf in H1.
  - intros (l1 & l2 & f & f' & Hf & _ & Hin & Hg & _). rewrite Hf in H1. apply list_elem_of_split in Hin as (l3 & l4 & ->).
    pose proof (f_equal length H1) as Hl. rewrite length_fmap, length_app in Hl. cbn in Hl. rewrite length_app in Hl. cbn in Hl.
    destruct l1; [|cbn in Hl; lia]. destruct l3; [|cbn in Hl; lia]. cbn in H1. injection H1 as E1 E2 _. lia.
  - rewrite H2. by intros ? ? ?%elem_of_nil.
  - exists c, c'. split; [exact Hr|]. split; [|exact Hc]. by rewrite <- (length_fmap f_gid), H1.
Defined.
